(* ===== verification/_CoqProject ===== *)
-Q . S2P
Prelude.v
Text.v
Io.v
Address.v
ConnContext.v
Hysteria.v
HyUdp.v
HyNet.v
Vless.v
AnyTls.v
AnyTlsNet.v
ConnMgr.v
Build.v
ConfigVisit.v
Engine.v
Secrets.v
Lru.v
Rule.v
SideEffect.v
Route.v
Raw.v
RawNet.v
Socks.v
SsNet.v
Trojan.v
Relay.v
Tls.v
TrojanNet.v
RelayUdp.v
ForwardUdp.v
Nets.v
Dns.v
Local.v
Servers.v
Transparent.v
Tun.v
Http.v
Sniff.v
Obfs.v
Storage.v
Source.v
Clash.v
App.v
Rpc.v
RpcNet.v
AsyncFn.v
Reality.v
RealityStream.v
RealityHandshake.v
VlessNet.v
Update.v
Api.v
WebUi.v
Service.v
