(* ===== verification/Prelude.v ===== *)
(** * rabbit-digger-pro: verification library

    rabbit-digger-pro is a rule-based proxy.  A configuration names _nets_
    (ways to reach the network: direct, through a remote proxy, by rules) and
    _servers_ (ways for programs to reach the proxy: SOCKS5, HTTP, a TUN
    device).  An engine builds the nets from the configuration, gives each
    server the nets it listens on and connects through, runs the servers,
    counts the traffic of every connection and restarts or replaces parts
    when the configuration changes.  The protocols are plugins that turn a
    stream or datagram net into another one.

    ** How the parts fit, and which file holds which

    All paths are below src/, and the comment before each definition gives the
    lines it translates.

    _From a file to running servers._  [Source] ([src/config.rs],
    [src/config/select_map.rs]) reads a configuration and caches subscriptions
    in a [Storage] ([src/storage.rs], [src/storage/]); [Clash]
    ([src/config/importer/]) turns a Clash configuration into nets; [App]
    ([src/config/manager.rs], [src/util/], [src/service/daemon.rs]) is the
    stream of configurations that comes of it, followed as its source or its
    sources change.  [Build] ([rabbit-digger/src/config.rs], [registry.rs],
    [BuildContext] of [rabbit_digger.rs]) resolves the references between nets
    and refuses circular ones; [ConfigVisit] ([rd-interface/src/config.rs],
    [config/resolvable.rs], [rd-derive/]) is how the references of a plugin's
    configuration are found, and [Secrets] how its secrets are kept out of what
    is shown.  [Engine] ([rabbit_digger.rs], the servers of [running.rs])
    starts, watches and stops what was built.  [Api], [Update] and
    [WebUi] ([src/api_server/]) are the control API, the update it can install
    and the server of both, [Service] ([src/service/]) the installation as a service of the system.

    _A connection._  It has a context, [ConnContext]
    ([rd-interface/src/context.rs], [config/compact_vec_string.rs]), and an
    [Address] ([rd-interface/src/address.rs]).  [Nets]
    ([rd-interface/src/interface.rs], [rd-std/src/builtin/], [src/select.rs],
    the nets of [running.rs]) are the nets and how they stand on each other;
    [Local] ([builtin/local.rs]) ends in the system, [Dns] ([builtin/dns.rs])
    has the resolver's sockets, [Tls] ([rd-std/src/tls.rs]) speaks TLS over
    another net, and [Rule] ([rd-std/src/rule/],
    [rd-std/src/util/udp_connector.rs]) chooses one by address and context.
    [Sniff] ([rd-std/src/sniffer/]) finds the name behind an address.
    [ConnMgr] ([connection_manager.rs], [event.rs], the connections of
    [running.rs]) counts what goes over it.

    _Relaying._  [Relay] ([rd-std/src/context/connect_tcp.rs]) copies between
    two streams, [RelayUdp] ([connect_udp.rs]) between two ends of datagrams,
    and [ForwardUdp] ([rd-std/src/util/forward_udp.rs], [forward_udp/]) keeps
    a connection for each sender of a source of datagrams.

    _Servers._  [Servers] ([builtin/forward.rs], [rd-std/src/mixed.rs]),
    [Socks] ([rd-std/src/socks5/]), [Http] ([rd-std/src/http/]),
    [Transparent] ([rd-std/src/transparent/]), and for devices [Raw],
    [RawNet] and [Tun] ([protocol/raw/src/]: fake IPs and the gateway, the net
    and its device, the TUN server), whose routes [Route] ([route_setup.rs])
    sets and [SideEffect] ([rd-interface/src/side_effect.rs]) undoes.

    _Protocols._  [Hysteria], [HyUdp] and [HyNet] ([protocol/hysteria/src/]);
    [Vless], [Reality], [RealityStream], [RealityHandshake] and [VlessNet]
    ([protocol/vless/src/]); [AnyTls] and [AnyTlsNet]
    ([protocol/anytls/src/]); [Trojan] and [TrojanNet]
    ([protocol/trojan/src/]); the datagrams of Shadowsocks in [Socks] and its
    net in [SsNet] ([protocol/ss/src/]); [Obfs] ([protocol/obfs/src/]); [Rpc]
    and [RpcNet] ([protocol/rpc/src/]), through which another process uses a
    net, on the polls of [AsyncFn] ([rd-std/src/util/async_fn.rs]).

    This file is the base library; [Text] has the string functions of the
    standard library, [Io] the streams as polls see them, [Lru] the cache.

    ** The interfaces

    Inside of the program: [Builder] (Build) is what a plugin gives the
    registry, [CommonField] (ConnContext) a field of a context,
    [AddressCodec] (Address) how an address is printed and parsed,
    [Reassembler] with its law [ReassemblerSpec] (HyUdp) the reassembly that
    client and server each implement, [Storage] a key-value storage, of which
    memory and the folder are instances, [DgramSource] and [DgramSink]
    (RelayUdp) an end of a datagram relay, [PollSender] (ForwardUdp) a queue's
    sender, [ItemCodec] (Rpc) an encoding of messages, [NetObjects] and
    [NetLaws] (RpcNet) the net behind an RPC server, [EngineApi] (Api) what
    the API asks of the engine.  Third-party code is an interface with the laws
    that are used of it: [LruCache] (Lru) and [LruRemove] (Transparent),
    [S5Codec] and [SSCipher] (Socks), [SSStream] (SsNet), [Base64] and
    [Base64Laws] (Http), [TlsParser] and [DnsParser] (Sniff), [TlsLib] (Tls),
    [KeyText], [HelloParser] and [RealityCrypto] (Reality), [TlsConn]
    (RealityStream), [SmolUdp] (Tun), [IpTool] (Route), [SerdeAddr] (RpcNet),
    [ApiSerde] (Api).  Each has an instance at which theorems are applied.

    ** How the code is represented

    Bytes, strings (UTF-8) and buffers are [bytes], lists of [Z] in 0..255;
    machine integers are [Z] with their wrap-around written out where the code
    can reach it.  A fallible function returns [res]; a poll function a
    [poll], whose [Pending] is an answer and not an absence; an asynchronous
    reader of a finite input is a [reader], which also says how much of the
    input it consumed.  A panic is a constructor of its own, or [None],
    wherever the code can panic.  Objects shared by [Arc] are indices into an
    arena, tasks are entries of a table, and what happens between two
    operations (a task ends, a datagram arrives, a stream gives part of what
    was asked, a call of the system fails) is an input, so that every
    interleaving and every failure is covered by quantifying over the inputs.

    ** What is shown

    - Building ends for every configuration, with its servers over nets whose
      references point backwards in the arena, or with an error, as for a
      circular reference ([Build]); a configuration that is visited for its
      references is a plugin as the builder takes it ([ConfigVisit]).
    - In every history of the engine the tasks alive are those of the running
      servers and the status is the last one set; its loop ends every server
      ([Engine]); sources of configuration are followed in order, and one is
      read again only while no other has come ([App]); what a Clash
      configuration becomes is its proxies, groups and rules, each as it says
      and in order ([Clash]); the folder keeps what memory would, but for the
      keys of operations that failed ([Storage]).
    - Nets that only pass on are transparent ([Nets]), so is the cache of the
      rules, and merging rules keeps their decisions ([Rule]); a net used
      through RPC is the net itself, and answers reach their requests however
      they are ordered ([RpcNet], [Rpc]).
    - Relays deliver what one side sends, in order and once, and count it
      right, over any behaviour of both ends ([Relay], [RelayUdp],
      [ForwardUdp], [ConnMgr]).
    - What one end of a protocol encodes the other decodes, in whatever pieces
      and, for datagrams, whatever order it arrives, next to other traffic;
      client and server of one secret connect to the very address asked for;
      tables and buffers stay within bounds; authentication accepts exactly
      the right secret (the files of the protocols).
    - Streams that wrap a stream neither lose nor repeat bytes, for partial,
      refused and pending reads and writes ([Sniff], [Obfs],
      [RealityStream], [RealityHandshake], [Tls], [RawNet]); for [Trojan]
      exactly when the call that finishes the header repeats the one that
      began it.
    - Addresses, contexts and packed string vectors are parsed as they are
      printed ([Address], [ConnContext]); fake IPs are one-to-one with
      domains, and the gateway's translation is undone on the way back
      ([Raw]); the TUN server answers queries with them and passes on what
      is no query ([Tun]).
    - Side effects are undone in reverse order, also after a crash, as far as
      the journal was written whole ([SideEffect]), and the routes are
      afterwards what they were, on Linux, where the table and the priorities
      were free and the tools work ([Route]); an update installs only what was
      verified, and below the allowed roots where no path climbs ([Update]); a
      service that is installed is one that can be removed, and nothing else
      is touched ([Service]); the API lets in who has the token, and a
      subscription is served until it is cancelled ([Api]).

    Some lemmas show faults instead, of which a few: [Vless.xudp_fragment_desync],
    [AnyTls.anytls_oversized_scheme_panics], [Engine.server_panic_unnoticed],
    [Rule.merge_loses_method], [SideEffect.shared_journal_loses],
    [Raw.short_segment_panics], [RawNet.tun_netmask_20],
    [RealityHandshake.post_handshake_loses], [Tls.tls_ipv6_needs_sni],
    [Tls.pushing_other_buffer], [Dns.dns_tcp_direct],
    [Trojan.trojan_write_lost], [Socks.ss_domain_reply_panics],
    [Local.udp_failed_lookup_panics], [Update.update_path_escapes],
    [Secrets.update_net_loses_secret], [Service.install_tears_binary].

    ** Fuel

    A recursion that is not structural has fuel, and a theorem or lemma says
    how much is enough.  [get_net] (Build) takes the weight of the
    configuration ([config_weight], used by the totality theorem; running out
    is a result of its own); [net_at] (Nets) one more than the handle, as
    references point backwards; the decoding loop of Vision the bytes it holds
    ([measure]); the response header of VLESS 259, as a header has at most 257
    bytes ([response_poll_spec]); the padding of Hysteria one more than the
    input; [frames_of] and [reader_task] of AnyTLS one more than the frames;
    [UdpConnector] 3, the number of its states, and [poll_send_to_ready]
    (Local) likewise; the source of the TUN server one more than its packets.
    Loops over a script of answers take the length of the script, with the
    bytes it holds where an answer can be taken in parts ([read_fuel],
    [steps_left] of RealityStream).  Where [None] stands for an operation
    that never returns, as the script has no answer left, a lemma says that
    nothing else makes it ([client_handshake_exact], [pushing_ends]).

    ** What is not modelled

    Third-party code is a parameter or a class with laws: hash functions and
    ciphers, serde and its formats, [smoltcp], [maxminddb], [lru_time_cache],
    QUIC, TLS, HTTP and DNS codecs, web sockets, and tokio's scheduler, and so
    are the calls and tools of the operating system.  Not modelled: FFI; the
    web interface, which is TypeScript; the command line, logging, and the generation of
    schemas; the backends of TLS for openssl and native-tls; devices of
    libpcap and Windows, and the service of Windows; the forms of socket
    options of systems other than Linux; the rhai importer, a scripting
    engine; the tokens that the derive macros make; [peer_addr] and
    [local_addr] where they only forward; and
    [rd-std/src/util/connect_tcp/unix.rs], which no module includes. *)

From Stdlib Require Export ZArith Lia Bool Ascii String List.
From stdpp Require Export base option list strings gmap sets.

#[global] Set Default Goal Selector "!".

(** Machine integers are [Z] values with their range written out; a byte
    string (Rust [Vec<u8>], [&\[u8\]], [String] as UTF-8, [Bytes]) is a
    [list Z] whose elements lie between 0 and 255. *)
Abbreviation bytes := (list Z).
#[global] Open Scope Z_scope.

Declare Scope rd_scope.
Delimit Scope rd_scope with rd.
#[global] Open Scope rd_scope.

(** ** Results, polls and byte readers *)

(** [std::io::ErrorKind] as far as the modelled code builds or inspects it,
    and the crate's own [Error], into which [io::Error] converts: [Error::IO e]
    and [e] are the same value here.  [EOther] stands for errors that only
    carry a message, [EBoxed] for [Error::Other] around another error,
    [EIoOther] for an [io::Error] of kind [Other] around one. *)
(* src/rd-interface/src/error.rs:20-45 Error *)
Inductive error : Type :=
| EAddrNotAvailable
| EInvalidData
| EInvalidInput
| EUnexpectedEof
| EWriteZero
| EBrokenPipe
| EConnectionReset
| EConnectionRefused
| EConnectionAborted
| EWouldBlock
| ETimedOut
| EUnsupported
| EPermissionDenied
| ENotFoundIO
| ENotMatched
| ENotEnabled
| ENotImplemented
| EConfig
| EAbortedByUser
| ENonExist
| ENotFound (name : list Z)
| EOther (msg : string)
| EBoxed (e : error)
| EIoOther (e : error)
| EWithContext (context : string) (e : error)
| ETimeout.

#[global] Instance error_eq_dec : EqDecision error.
Proof. solve_decision. Defined.

(* src/rd-interface/src/error.rs:49-51 map_other *)
Definition map_other (e : error) : error := EBoxed e.

(* src/rd-interface/src/error.rs:75-80 Error::to_io_err *)
Definition to_io_err (e : error) : error :=
  match e with
  | EAddrNotAvailable | EInvalidData | EInvalidInput | EUnexpectedEof | EWriteZero | EBrokenPipe
  | EConnectionReset | EConnectionRefused | EConnectionAborted | EWouldBlock | ETimedOut
  | EUnsupported | EPermissionDenied | ENotFoundIO | EIoOther _ => e
  | _ => EIoOther e
  end.

Inductive res (A : Type) : Type :=
| Ok (a : A)
| Err (e : error).
Arguments Ok {A} a.
Arguments Err {A} e.

#[global] Instance res_ret : MRet res := fun A a => Ok a.
#[global] Instance res_bind : MBind res := fun A B f m =>
  match m with Ok a => f a | Err e => Err e end.
#[global] Instance res_fmap : FMap res := fun A B f m =>
  match m with Ok a => Ok (f a) | Err e => Err e end.

(** [opt.ok_or(e)?] and [if !c { return Err(e) }]. *)
Definition ok_or {A} (e : error) (o : option A) : res A :=
  match o with Some a => Ok a | None => Err e end.

Definition ensure (c : bool) (e : error) : res unit :=
  if c then Ok () else Err e.

Definition map_err {A} (f : error -> error) (r : res A) : res A :=
  match r with Ok a => Ok a | Err e => Err (f e) end.

Definition is_ok {A} (r : res A) : bool :=
  match r with Ok _ => true | Err _ => false end.

(** [std::task::Poll]. *)
Inductive poll (A : Type) : Type :=
| Pending
| Ready (a : A).
Arguments Pending {A}.
Arguments Ready {A} a.

(** A reader consumes bytes from the front of its input, as
    [AsyncReadExt]'s [read_exact], [read_u8] and [read_u16] do; running out of
    input is [UnexpectedEof]. *)
Definition reader (A : Type) : Type := bytes -> res (A * bytes).

#[global] Instance reader_ret : MRet reader := fun A a i => Ok (a, i).
#[global] Instance reader_bind : MBind reader := fun A B f m i =>
  match m i with Ok (a, i') => f a i' | Err e => Err e end.

Definition rfail {A} (e : error) : reader A := fun _ => Err e.
Definition rlift {A} (r : res A) : reader A := fun i =>
  match r with Ok a => Ok (a, i) | Err e => Err e end.

Definition read_exact (n : nat) : reader bytes := fun i =>
  if (length i <? n)%nat then Err EUnexpectedEof
  else Ok (take n i, drop n i).

(** The same for a length computed from the input; lengths beyond the input
    fail before they are converted. *)
Definition read_exactZ (n : Z) : reader bytes := fun i =>
  if Z.of_nat (length i) <? n then Err EUnexpectedEof
  else read_exact (Z.to_nat n) i.

Definition rmap_err {A} (f : error -> error) (m : reader A) : reader A :=
  fun i => map_err f (m i).

(** ** Big-endian integers *)

Fixpoint be_bytes (n : nat) (v : Z) : bytes :=
  match n with
  | O => []
  | S k => (v / 256 ^ Z.of_nat k) mod 256 :: be_bytes k v
  end.

Fixpoint be_val (l : bytes) : Z :=
  match l with
  | [] => 0
  | b :: t => b * 256 ^ Z.of_nat (length t) + be_val t
  end.

Definition read_be (n : nat) : reader Z :=
  b ← read_exact n; mret (be_val b).

Definition read_u8 : reader Z := read_be 1.
Definition read_u16 : reader Z := read_be 2.

(** ** Strings *)

(** The bytes of an ASCII literal. *)
Definition lit (s : string) : bytes :=
  map (fun c => Z.of_N (N_of_ascii c)) (list_ascii_of_string s).

Definition is_digit (b : Z) : bool := (48 <=? b) && (b <=? 57).

(** [u8::to_ascii_lowercase] and [str::eq_ignore_ascii_case]. *)
Definition lower (b : Z) : Z := if (65 <=? b) && (b <=? 90) then b + 32 else b.
Definition eq_ignore_case (a b : bytes) : bool :=
  bool_decide (map lower a = map lower b).

(** [prefix.is_prefix(s)]: [str::strip_prefix] and [str::strip_suffix]. *)
Fixpoint strip_prefix (p s : bytes) : option bytes :=
  match p, s with
  | [], _ => Some s
  | x :: p', y :: s' => if x =? y then strip_prefix p' s' else None
  | _ :: _, [] => None
  end.

Definition strip_suffix (p s : bytes) : option bytes :=
  reverse <$> strip_prefix (reverse p) (reverse s).

Definition starts_with (p s : bytes) : bool :=
  match strip_prefix p s with Some _ => true | None => false end.
Definition ends_with (p s : bytes) : bool :=
  match strip_suffix p s with Some _ => true | None => false end.

(** [str::contains]. *)
Fixpoint contains (p s : bytes) : bool :=
  starts_with p s || match s with [] => false | _ :: t => contains p t end.

(** [str::from_utf8] succeeds: well-formed UTF-8 (Unicode Table 3-7).  The
    state is the number of continuation bytes left and the range of the next. *)
Definition utf8_lead (b : Z) : option (nat * Z * Z) :=
  if b <? 128 then Some (0%nat, 0, 0)
  else if (194 <=? b) && (b <=? 223) then Some (1%nat, 128, 191)
  else if b =? 224 then Some (2%nat, 160, 191)
  else if b =? 237 then Some (2%nat, 128, 159)
  else if (225 <=? b) && (b <=? 239) then Some (2%nat, 128, 191)
  else if b =? 240 then Some (3%nat, 144, 191)
  else if (241 <=? b) && (b <=? 243) then Some (3%nat, 128, 191)
  else if b =? 244 then Some (3%nat, 128, 143)
  else None.

Fixpoint utf8_from (n : nat) (lo hi : Z) (s : bytes) : bool :=
  match s with
  | [] => (n =? 0)%nat
  | b :: t =>
    match n with
    | O => match utf8_lead b with
           | Some (n', lo', hi') => utf8_from n' lo' hi' t
           | None => false
           end
    | S n' => (lo <=? b) && (b <=? hi) && utf8_from n' 128 191 t
    end
  end.

Definition utf8_valid (s : bytes) : bool := utf8_from 0 0 0 s.

(** [str::split(c)] for a one-byte separator. *)
Fixpoint split_on (c : Z) (s : bytes) : list bytes :=
  match s with
  | [] => [[]]
  | b :: t =>
    if b =? c then [] :: split_on c t
    else match split_on c t with
         | [] => [[b]]
         | h :: r => (b :: h) :: r
         end
  end.

(** [str::split_once(c)] and [str::rsplit_once(c)]. *)
Fixpoint split_once (c : Z) (s : bytes) : option (bytes * bytes) :=
  match s with
  | [] => None
  | b :: t =>
    if b =? c then Some ([], t)
    else match split_once c t with
         | Some (x, y) => Some (b :: x, y)
         | None => None
         end
  end.

Definition rsplit_once (c : Z) (s : bytes) : option (bytes * bytes) :=
  match split_once c (reverse s) with
  | Some (x, y) => Some (reverse y, reverse x)
  | None => None
  end.

(** Decimal digits, and the unsigned [FromStr] of width [w]: an optional
    leading [+], at least one digit, no overflow. *)
Fixpoint dec_val (acc : Z) (s : bytes) : option Z :=
  match s with
  | [] => Some acc
  | b :: t => if is_digit b then dec_val (acc * 10 + (b - 48)) t else None
  end.

Definition parse_uint (w : Z) (s : bytes) : option Z :=
  let s := match s with 43 :: t => t | _ => s end in
  match s with
  | [] => None
  | _ => match dec_val 0 s with
         | Some v => if v <? 2 ^ w then Some v else None
         | None => None
         end
  end.

Fixpoint dec_digits (fuel : nat) (v : Z) (acc : bytes) : bytes :=
  match fuel with
  | O => acc
  | S f => let acc := (48 + v mod 10) :: acc in
           if v <? 10 then acc else dec_digits f (v / 10) acc
  end.

(** [Display] of an unsigned integer below [10^20] (every [u64]). *)
Definition show_uint (v : Z) : bytes := dec_digits 20 v [].

(** ** Well-formed bytes *)

Definition byte_ok (b : Z) : Prop := 0 <= b < 256.
Definition bytes_ok (l : bytes) : Prop := Forall byte_ok l.
Definition byte_okb (b : Z) : bool := (0 <=? b) && (b <? 256).
Definition bytes_okb (l : bytes) : bool := forallb byte_okb l.

(** ** Automation *)

Create HintDb rd discriminated.
Create HintDb rdlen discriminated.

(** Case analysis on the scrutinee of some [match] or [if]. *)
Ltac case_goal :=
  match goal with
  | |- context [match ?x with _ => _ end] =>
    lazymatch x with context [match _ with _ => _ end] => fail | _ => destruct x eqn:? end
  end.
Ltac case_hyp H :=
  match type of H with
  | context [match ?x with _ => _ end] =>
    lazymatch x with context [match _ with _ => _ end] => fail | _ => destruct x eqn:? end
  end.

(** Boolean comparisons in the context become propositions. *)
Ltac bools :=
  repeat match goal with
  | H : (_ <=? _) = true |- _ => apply Z.leb_le in H
  | H : (_ <=? _) = false |- _ => apply Z.leb_gt in H
  | H : (_ <? _) = true |- _ => apply Z.ltb_lt in H
  | H : (_ <? _) = false |- _ => apply Z.ltb_ge in H
  | H : (_ =? _) = true |- _ => apply Z.eqb_eq in H
  | H : (_ =? _) = false |- _ => apply Z.eqb_neq in H
  | H : (_ <=? _)%nat = true |- _ => apply Nat.leb_le in H
  | H : (_ <=? _)%nat = false |- _ => apply Nat.leb_gt in H
  | H : (_ <? _)%nat = true |- _ => apply Nat.ltb_lt in H
  | H : (_ <? _)%nat = false |- _ => apply Nat.ltb_ge in H
  | H : (_ =? _)%nat = true |- _ => apply Nat.eqb_eq in H
  | H : (_ =? _)%nat = false |- _ => apply Nat.eqb_neq in H
  | H : _ && _ = true |- _ => apply andb_true_iff in H; destruct H
  | H : _ || _ = false |- _ => apply orb_false_iff in H; destruct H
  | H : negb _ = true |- _ => apply negb_true_iff in H
  | H : negb _ = false |- _ => apply negb_false_iff in H
  end.

Ltac invc H := inversion H; clear H; subst.

(** Lengths of list expressions, then arithmetic. *)
Ltac len :=
  repeat (rewrite ?length_app, ?length_cons, ?length_take, ?length_drop,
          ?length_replicate, ?length_reverse, ?length_map, ?length_insert in * );
  simpl length in *; lia.

(** ** Lemmas on bytes and integers *)

Lemma byte_okb_spec (b : Z) : byte_okb b = true <-> byte_ok b.
Proof. unfold byte_okb, byte_ok. rewrite andb_true_iff, Z.leb_le, Z.ltb_lt. lia. Qed.

Lemma bytes_okb_spec (l : bytes) : bytes_okb l = true <-> bytes_ok l.
Proof.
  unfold bytes_okb, bytes_ok. rewrite forallb_forall, Forall_forall.
  split; intros H x Hx.
  - apply byte_okb_spec, H. by apply list_elem_of_In.
  - apply byte_okb_spec, H. by apply list_elem_of_In.
Qed.

Lemma bytes_ok_app (l k : bytes) : bytes_ok (l ++ k) <-> bytes_ok l /\ bytes_ok k.
Proof. apply Forall_app. Qed.

Lemma bytes_ok_cons (b : Z) (l : bytes) : bytes_ok (b :: l) <-> byte_ok b /\ bytes_ok l.
Proof. apply Forall_cons. Qed.

Lemma bytes_ok_take (n : nat) (l : bytes) : bytes_ok l -> bytes_ok (take n l).
Proof. apply Forall_take. Qed.

Lemma bytes_ok_drop (n : nat) (l : bytes) : bytes_ok l -> bytes_ok (drop n l).
Proof. apply Forall_drop. Qed.

Lemma length_be_bytes (n : nat) (v : Z) : length (be_bytes n v) = n.
Proof. induction n; simpl; congruence. Qed.

Lemma be_bytes_ok (n : nat) (v : Z) : bytes_ok (be_bytes n v).
Proof.
  induction n; simpl; constructor; auto.
  unfold byte_ok. apply Z.mod_pos_bound. lia.
Qed.

Lemma pow256_pos (n : nat) : 0 < 256 ^ Z.of_nat n.
Proof. apply Z.pow_pos_nonneg; lia. Qed.

Lemma pow256_S (n : nat) : 256 ^ Z.of_nat (S n) = 256 * 256 ^ Z.of_nat n.
Proof. rewrite Nat2Z.inj_succ, Z.pow_succ_r; lia. Qed.

Lemma be_val_be_bytes_mod (n : nat) (v : Z) :
  be_val (be_bytes n v) = v mod 256 ^ Z.of_nat n.
Proof.
  induction n as [|n IH].
  - simpl. by rewrite Z.mod_1_r.
  - cbn [be_bytes be_val]. rewrite IH, length_be_bytes, pow256_S.
    pose proof (pow256_pos n).
    rewrite (Z.mul_comm 256), Z.rem_mul_r by lia. lia.
Qed.

Lemma be_val_be_bytes (n : nat) (v : Z) :
  0 <= v < 256 ^ Z.of_nat n -> be_val (be_bytes n v) = v.
Proof. intros. rewrite be_val_be_bytes_mod. by apply Z.mod_small. Qed.

Lemma be_val_bound (l : bytes) :
  bytes_ok l -> 0 <= be_val l < 256 ^ Z.of_nat (length l).
Proof.
  induction 1 as [|b l Hb _ IH]; [simpl; lia|].
  cbn [be_val length]. rewrite pow256_S. unfold byte_ok in Hb.
  pose proof (pow256_pos (length l)). nia.
Qed.

Lemma be_bytes_add (n : nat) (q v : Z) :
  be_bytes n (q * 256 ^ Z.of_nat n + v) = be_bytes n v.
Proof.
  assert (G : forall k, (k <= n)%nat ->
    be_bytes k (q * 256 ^ Z.of_nat n + v) = be_bytes k v); [|by apply G].
  induction k as [|k IH]; [done|]. intros Hk. cbn [be_bytes].
  rewrite IH by lia. f_equal.
  replace (Z.of_nat n) with (Z.of_nat (n - S k) + (1 + Z.of_nat k)) by lia.
  rewrite Z.pow_add_r, Z.pow_add_r, Z.pow_1_r by lia.
  pose proof (pow256_pos k).
  replace (q * (256 ^ Z.of_nat (n - S k) * (256 * 256 ^ Z.of_nat k)) + v)
    with ((q * 256 ^ Z.of_nat (n - S k) * 256) * 256 ^ Z.of_nat k + v) by ring.
  rewrite Z.div_add_l by lia.
  by rewrite Z.add_comm, Z.mod_add by lia.
Qed.

Lemma be_bytes_be_val (l : bytes) :
  bytes_ok l -> be_bytes (length l) (be_val l) = l.
Proof.
  induction 1 as [|b l Hb Hl IH]; [done|].
  cbn [length be_bytes be_val]. rewrite be_bytes_add, IH.
  pose proof (be_val_bound l Hl). unfold byte_ok in Hb.
  rewrite Z.div_add_l, Z.div_small, Z.add_0_r, Z.mod_small by lia. done.
Qed.

(** A disjoint bitwise or is a sum. *)
Lemma lor_shiftl_add (x k n : Z) :
  0 <= n -> 0 <= x < 2 ^ n -> Z.lor x (Z.shiftl k n) = x + k * 2 ^ n.
Proof.
  intros Hn Hx. rewrite <- Z.shiftl_mul_pow2 by done. symmetry. apply Z.add_nocarry_lor.
  apply Z.bits_inj'. intros i Hi. rewrite Z.land_spec, Z.bits_0.
  destruct (Z.lt_ge_cases i n).
  - rewrite (Z.shiftl_spec_low k) by done. apply andb_false_r.
  - rewrite <- (Z.mod_small x (2 ^ n)), Z.mod_pow2_bits_high by lia. done.
Qed.

(** ** Lemmas on readers *)

Lemma read_exact_app (l k : bytes) : read_exact (length l) (l ++ k) = Ok (l, k).
Proof.
  unfold read_exact. rewrite length_app.
  replace (length l + length k <? length l)%nat with false
    by (symmetry; apply Nat.ltb_ge; lia).
  by rewrite take_app_length, drop_app_length.
Qed.

Lemma read_exact_app_n (n : nat) (l k : bytes) :
  length l = n -> read_exact n (l ++ k) = Ok (l, k).
Proof. intros <-. apply read_exact_app. Qed.

Lemma read_exact_short (n : nat) (i : bytes) :
  (length i < n)%nat -> read_exact n i = Err EUnexpectedEof.
Proof. intros H. unfold read_exact. by apply Nat.ltb_lt in H as ->. Qed.

Lemma read_exact_ok (n : nat) (i l k : bytes) :
  read_exact n i = Ok (l, k) -> i = l ++ k /\ length l = n.
Proof.
  unfold read_exact. destruct (_ <? _)%nat eqn:E; [done|].
  intros [= <- <-]. bools. rewrite take_drop. split; [done|len].
Qed.

Lemma bind_reader {A B} (m : reader A) (f : A -> reader B) (i : bytes) :
  (m ≫= f) i = match m i with Ok (a, i') => f a i' | Err e => Err e end.
Proof. done. Qed.

Lemma read_be_app (n : nat) (v : Z) (k : bytes) :
  0 <= v < 256 ^ Z.of_nat n -> read_be n (be_bytes n v ++ k) = Ok (v, k).
Proof.
  intros Hv. unfold read_be. rewrite bind_reader.
  rewrite (read_exact_app_n n) by apply length_be_bytes.
  unfold mret, reader_ret. by rewrite be_val_be_bytes.
Qed.

Lemma read_u8_cons (b : Z) (k : bytes) : read_u8 (b :: k) = Ok (b, k).
Proof.
  unfold read_u8, read_be. rewrite bind_reader.
  change (b :: k) with ([b] ++ k). rewrite (read_exact_app_n 1) by done.
  unfold mret, reader_ret. replace (be_val [b]) with b; [done|].
  unfold be_val. change (256 ^ Z.of_nat (length [])) with 1. lia.
Qed.

(** ** Lemmas on strings *)

Lemma strip_prefix_spec (p s t : bytes) : strip_prefix p s = Some t <-> s = p ++ t.
Proof.
  revert s. induction p as [|x p IH]; intros s; simpl.
  { split; [by intros [= ->]|by intros ->]. }
  destruct s as [|y s]; [done|].
  destruct (x =? y) eqn:E; bools; subst.
  - rewrite IH. split; [by intros ->|by intros [= ->]].
  - split; [done|by intros [= -> ->]].
Qed.

Lemma strip_suffix_spec (p s t : bytes) : strip_suffix p s = Some t <-> s = t ++ p.
Proof.
  unfold strip_suffix. rewrite fmap_Some. split.
  - intros (u & H & ->). apply strip_prefix_spec in H.
    rewrite <- (reverse_involutive s), H, reverse_app, reverse_involutive. done.
  - intros ->. exists (reverse t). rewrite reverse_involutive. split; [|done].
    apply strip_prefix_spec. by rewrite reverse_app.
Qed.

Lemma split_once_app (c : Z) (x y : bytes) :
  c ∉ x -> split_once c (x ++ c :: y) = Some (x, y).
Proof.
  induction x as [|b x IH]; intros Hn; simpl.
  - by rewrite Z.eqb_refl.
  - apply not_elem_of_cons in Hn as [Hb Hn].
    destruct (b =? c) eqn:E; bools; [congruence|]. by rewrite IH.
Qed.

Lemma split_once_sound (c : Z) (s x y : bytes) :
  split_once c s = Some (x, y) -> s = x ++ c :: y /\ c ∉ x.
Proof.
  revert x. induction s as [|b s IH]; intros x; simpl; [done|].
  destruct (b =? c) eqn:E; bools; subst.
  - intros [= <- <-]. split; [done|]. apply not_elem_of_nil.
  - destruct (split_once c s) as [[u v]|]; [|done]. intros [= <- <-].
    destruct (IH u eq_refl) as [-> Hn]. split; [done|].
    apply not_elem_of_cons. done.
Qed.

Lemma split_once_none (c : Z) (s : bytes) : split_once c s = None <-> c ∉ s.
Proof.
  split.
  - intros H Hin. apply list_elem_of_split in Hin as (x & y & ->).
    revert H. induction x as [|b x IH]; simpl; [by rewrite Z.eqb_refl|].
    destruct (b =? c); [done|].
    destruct (split_once c (x ++ c :: y)) as [[? ?]|]; [done|]. by intros ?%IH.
  - intros H. destruct (split_once c s) as [[x y]|] eqn:E; [|done].
    apply split_once_sound in E as [-> _]. set_solver.
Qed.

Lemma rsplit_once_app (c : Z) (x y : bytes) :
  c ∉ y -> rsplit_once c (x ++ c :: y) = Some (x, y).
Proof.
  intros Hn. unfold rsplit_once.
  rewrite reverse_app, reverse_cons, <- app_assoc. simpl.
  rewrite split_once_app by (by rewrite elem_of_reverse).
  by rewrite !reverse_involutive.
Qed.

Lemma rsplit_once_sound (c : Z) (s x y : bytes) :
  rsplit_once c s = Some (x, y) -> s = x ++ c :: y /\ c ∉ y.
Proof.
  unfold rsplit_once. destruct (split_once c (reverse s)) as [[u v]|] eqn:S; [|done].
  intros [= <- <-]. apply split_once_sound in S as [H Hn].
  rewrite elem_of_reverse. split; [|done].
  by rewrite <- (reverse_involutive s), H, reverse_app, reverse_cons, <- app_assoc.
Qed.

(** ** Decimal integers *)

Lemma dec_val_app (a : Z) (s t : bytes) :
  dec_val a (s ++ t) = match dec_val a s with Some v => dec_val v t | None => None end.
Proof.
  revert a. induction s as [|b s IH]; intros a; simpl; [done|].
  destruct (is_digit b); [apply IH|done].
Qed.

Lemma is_digit_48 (d : Z) : 0 <= d < 10 -> is_digit (48 + d) = true.
Proof. intros. unfold is_digit. apply andb_true_iff. split; apply Z.leb_le; lia. Qed.

Lemma dec_digits_val (f : nat) (v a : Z) (acc : bytes) :
  0 <= v < 10 ^ Z.of_nat f -> (0 < f)%nat ->
  exists ds, dec_digits f v acc = ds ++ acc /\ ds <> [] /\ (length ds <= f)%nat /\
    Forall (fun b => is_digit b = true) ds /\
    dec_val a ds = Some (a * 10 ^ Z.of_nat (length ds) + v).
Proof.
  revert v acc. induction f as [|f IH]; intros v acc Hv Hf; [lia|]. cbn [dec_digits].
  assert (Hd : is_digit (48 + v mod 10) = true)
    by (apply is_digit_48, Z.mod_pos_bound; lia).
  destruct (v <? 10) eqn:E; bools.
  - exists [48 + v mod 10]. repeat split; [done|simpl; lia|by constructor|].
    cbn [dec_val]. rewrite Hd. rewrite Z.mod_small by lia. cbn. f_equal. lia.
  - rewrite Nat2Z.inj_succ, Z.pow_succ_r in Hv by lia.
    assert (0 < f)%nat by (destruct f; [simpl in Hv; lia|lia]).
    destruct (IH (v / 10) ((48 + v mod 10) :: acc)) as (ds & -> & Hne & Hl & Hds & Hval);
      [split; [apply Z.div_pos; lia|apply Z.div_lt_upper_bound; lia]|done|].
    exists (ds ++ [48 + v mod 10]). rewrite <- app_assoc, length_app. simpl.
    repeat split; [by destruct ds|lia|by apply Forall_app; split; [|constructor]|].
    rewrite dec_val_app, Hval. cbn [dec_val]. rewrite Hd. f_equal.
    replace (Z.of_nat (length ds + 1)) with (Z.succ (Z.of_nat (length ds))) by lia.
    rewrite Z.pow_succ_r by lia. pose proof (Z_div_mod_eq_full v 10). lia.
Qed.

Lemma show_uint_digits (v : Z) :
  0 <= v < 2 ^ 64 -> show_uint v <> [] /\ Forall (fun b => is_digit b = true) (show_uint v).
Proof.
  intros Hv. unfold show_uint.
  destruct (dec_digits_val 20 v 0 []) as (ds & -> & H1 & _ & H2 & _); [simpl; lia|lia|].
  by rewrite app_nil_r.
Qed.

Lemma show_uint_not_elem (v c : Z) :
  0 <= v < 2 ^ 64 -> is_digit c = false -> c ∉ show_uint v.
Proof.
  intros Hv Hc Hin. destruct (show_uint_digits v Hv) as [_ H].
  rewrite Forall_forall in H. specialize (H c Hin). congruence.
Qed.

Lemma parse_show_uint (w v : Z) :
  0 <= v < 2 ^ w -> w <= 64 -> parse_uint w (show_uint v) = Some v.
Proof.
  intros Hv Hw.
  assert (2 ^ w <= 2 ^ 64) by (destruct (Z.le_gt_cases 0 w);
    [apply Z.pow_le_mono_r; lia|rewrite Z.pow_neg_r in Hv by lia; lia]).
  unfold parse_uint, show_uint.
  destruct (dec_digits_val 20 v 0 []) as (ds & -> & H1 & _ & H2 & H3); [simpl; lia|lia|].
  rewrite app_nil_r. destruct ds as [|d ds]; [done|].
  assert (d <> 43) by (intros ->; by inversion H2).
  replace (match d :: ds with 43 :: t => t | _ => d :: ds end) with (d :: ds)
    by (destruct d as [|[p|p|]|]; try done; repeat (destruct p as [p|p|]; try done)).
  rewrite H3. replace (0 * _ + v) with v by lia.
  by replace (v <? 2 ^ w) with true by (symmetry; apply Z.ltb_lt; lia).
Qed.

Lemma parse_uint_nonneg (w : Z) (s : bytes) (v : Z) : parse_uint w s = Some v -> 0 <= v.
Proof.
  assert (G : forall s a v, 0 <= a -> dec_val a s = Some v -> 0 <= v).
  { clear. induction s as [|b s IH]; intros a v Ha H; simpl in H; [by simplify_eq|].
    destruct (is_digit b) eqn:E; [|done]. apply IH in H; [done|]. unfold is_digit in E. bools. lia. }
  unfold parse_uint. intros H. repeat case_match; simplify_eq; (eapply (G _ 0); [lia|eassumption]).
Qed.

Lemma parse_uint_range (w : Z) (s : bytes) (v : Z) : parse_uint w s = Some v -> 0 <= v < 2 ^ w.
Proof.
  intros H. split; [by eapply parse_uint_nonneg|]. unfold parse_uint in H. repeat case_match; simplify_eq; by bools.
Qed.

(** ** UTF-8 *)

Lemma utf8_from_app (n : nat) (lo hi : Z) (s t : bytes) :
  utf8_from n lo hi s = true -> utf8_valid t = true -> utf8_from n lo hi (s ++ t) = true.
Proof.
  revert n lo hi. induction s as [|b s IH]; intros n lo hi Hs Ht.
  - simpl in *. apply Nat.eqb_eq in Hs as ->. by destruct t.
  - simpl in *. destruct n as [|n].
    + destruct (utf8_lead b) as [[[? ?] ?]|]; [by apply IH|done].
    + apply andb_true_iff in Hs as [-> Hs]. by apply IH.
Qed.

Lemma utf8_valid_app (s t : bytes) :
  utf8_valid s = true -> utf8_valid t = true -> utf8_valid (s ++ t) = true.
Proof. apply utf8_from_app. Qed.

Lemma utf8_ascii (s : bytes) : Forall (fun b => b < 128) s -> utf8_valid s = true.
Proof.
  unfold utf8_valid. induction 1 as [|b s Hb _ IH]; [done|]. simpl. unfold utf8_lead.
  by replace (b <? 128) with true by (symmetry; apply Z.ltb_lt; lia).
Qed.

Lemma read_exactZ_app (n : Z) (l k : bytes) :
  n = Z.of_nat (length l) -> read_exactZ n (l ++ k) = Ok (l, k).
Proof.
  intros ->. unfold read_exactZ. rewrite length_app.
  replace (Z.of_nat (length l + length k) <? Z.of_nat (length l)) with false
    by (symmetry; apply Z.ltb_ge; lia).
  rewrite Nat2Z.id. apply read_exact_app.
Qed.

(** ** Running readers step by step *)

Lemma rbind_ok {A B} (m : reader A) (f : A -> reader B) (i i' : bytes) (a : A) :
  m i = Ok (a, i') -> (m ≫= f) i = f a i'.
Proof. intros H. by rewrite bind_reader, H. Qed.

Lemma rbind_err {A B} (m : reader A) (f : A -> reader B) (i : bytes) (e : error) :
  m i = Err e -> (m ≫= f) i = Err e.
Proof. intros H. by rewrite bind_reader, H. Qed.

Lemma rmap_err_ok {A} (g : error -> error) (m : reader A) (i i' : bytes) (a : A) :
  m i = Ok (a, i') -> rmap_err g m i = Ok (a, i').
Proof. unfold rmap_err. by intros ->. Qed.

Lemma rlift_ensure_true (e : error) (i : bytes) (c : bool) :
  c = true -> rlift (ensure c e) i = Ok (tt, i).
Proof. by intros ->. Qed.

Lemma rlift_ensure_false (e : error) (i : bytes) (c : bool) :
  c = false -> rlift (ensure c e) i = Err e.
Proof. by intros ->. Qed.

(** [rstep tac]: run the first reader of a bind, its success proved by [tac]. *)
Ltac rstep tac :=
  first [ erewrite rbind_ok; [|solve [tac]]
        | erewrite rbind_ok; [|apply rmap_err_ok; solve [tac]] ]; cbv beta.

(** ** [str::trim] *)

(** The UTF-8 encodings of the [White_Space] characters at the front of a
    text, and, read backwards, at its end. *)
Definition strip_ws1 (s : bytes) : option bytes :=
  match s with
  | a :: t =>
    if ((9 <=? a) && (a <=? 13)) || (a =? 32) then Some t
    else match t with
         | b :: u =>
           if (a =? 194) && ((b =? 133) || (b =? 160)) then Some u
           else match u with
                | c :: v =>
                  if ((a =? 225) && (b =? 154) && (c =? 128))
                     || ((a =? 226) && (b =? 128) &&
                         (((128 <=? c) && (c <=? 138)) || (c =? 168) || (c =? 169) || (c =? 175)))
                     || ((a =? 226) && (b =? 129) && (c =? 159))
                     || ((a =? 227) && (b =? 128) && (c =? 128))
                  then Some v else None
                | [] => None
                end
         | [] => None
         end
  | [] => None
  end.

Definition strip_ws1_rev (s : bytes) : option bytes :=
  match s with
  | c :: t =>
    if ((9 <=? c) && (c <=? 13)) || (c =? 32) then Some t
    else match t with
         | b :: u =>
           if (b =? 194) && ((c =? 133) || (c =? 160)) then Some u
           else match u with
                | a :: v =>
                  if ((a =? 225) && (b =? 154) && (c =? 128))
                     || ((a =? 226) && (b =? 128) &&
                         (((128 <=? c) && (c <=? 138)) || (c =? 168) || (c =? 169) || (c =? 175)))
                     || ((a =? 226) && (b =? 129) && (c =? 159))
                     || ((a =? 227) && (b =? 128) && (c =? 128))
                  then Some v else None
                | [] => None
                end
         | [] => None
         end
  | [] => None
  end.

Fixpoint strip_while (f : bytes -> option bytes) (fuel : nat) (s : bytes) : bytes :=
  match fuel with
  | O => s
  | S fuel => match f s with Some t => strip_while f fuel t | None => s end
  end.

Definition trim_start (s : bytes) : bytes := strip_while strip_ws1 (length s) s.
Definition trim_end (s : bytes) : bytes :=
  reverse (strip_while strip_ws1_rev (length s) (reverse s)).
Definition trim (s : bytes) : bytes := trim_end (trim_start s).

Lemma Ok_inj {A} (a b : A) : Ok a = Ok b -> a = b.
Proof. congruence. Qed.
