(* ===== verification/Text.v ===== *)
(** * Text: the string functions of the standard library that several
    components use: [str::lines], [str::split_whitespace], [str::contains]; and
    the text of HTTP header values. *)

From S2P Require Import Prelude.

(** [str::lines]: each line ends with a line feed, which is removed with a
    carriage return before it; text after the last line feed is a line too. *)
Definition lines (s : bytes) : list bytes :=
  let chomp x := match strip_suffix [13] x with Some y => y | None => x end in
  match reverse (split_on 10 s) with
  | [] => []
  | last :: r => map chomp (reverse r) ++ match last with [] => [] | _ => [last] end
  end.

(** [str::split_whitespace]: the words between white space characters; [cur]
    is the word being read, backwards. *)
Fixpoint words (fuel : nat) (cur s : bytes) : list bytes :=
  let out := match cur with [] => [] | _ => [reverse cur] end in
  match fuel, s with
  | O, _ | _, [] => out
  | Datatypes.S fuel, b :: t =>
    match strip_ws1 s with
    | None => words fuel (b :: cur) t
    | Some s => out ++ words fuel [] s
    end
  end.
Definition split_whitespace (s : bytes) : list bytes := words (length s) [] s.

(** [HeaderValue::to_str] of the http crate's header values: visible ASCII. *)
Definition header_str (v : bytes) : option bytes :=
  if forallb (fun b => (32 <=? b) && (b <? 127) || (b =? 9)) v then Some v else None.

(** What [HeaderValue::from_str] takes. *)
Definition header_byte (b : Z) : bool := (32 <=? b) && negb (b =? 127) || (b =? 9).

(** ** Facts *)

Lemma starts_with_spec (p s : bytes) : starts_with p s = true <-> exists t, s = p ++ t.
Proof.
  unfold starts_with. destruct (strip_prefix p s) as [t|] eqn:E.
  - apply strip_prefix_spec in E. split; [by exists t | done].
  - split; [done|]. intros (t & Et). apply strip_prefix_spec in Et. congruence.
Qed.

Lemma contains_spec (p s : bytes) : contains p s = true <-> exists a b, s = a ++ p ++ b.
Proof.
  induction s as [|x s IH].
  - cbn [contains]. rewrite orb_false_r, starts_with_spec. split.
    + intros (t & E). by exists [], t.
    + intros (a & b & E). destruct a; [|done]. by exists b.
  - cbn [contains]. rewrite orb_true_iff, starts_with_spec, IH. split.
    + intros [(t & E)|(a & b & ->)]; [by exists [], t | by exists (x :: a), b].
    + intros ([|y a] & b & E); [left; by exists b|]. injection E as -> E. right. by exists a, b.
Qed.

(** A line as it is written: without a line feed, and not ending in a
    carriage return. *)
Definition is_line (l : bytes) : Prop := (10 ∉ l) /\ strip_suffix [13] l = None.

Definition unlines (ls : list bytes) : bytes := concat (map (fun l => l ++ [10]) ls).

Lemma split_on_none c x : c ∉ x -> split_on c x = [x].
Proof.
  induction x as [|b x IH]; [done|]. intros [Hb Hx]%not_elem_of_cons. cbn.
  destruct (Z.eqb_spec b c) as [->|_]; [done|]. by rewrite IH.
Qed.

Lemma split_on_app c x t : c ∉ x -> split_on c (x ++ c :: t) = x :: split_on c t.
Proof.
  induction x as [|b x IH]; cbn; [by rewrite Z.eqb_refl|]. intros [Hb Hx]%not_elem_of_cons.
  destruct (Z.eqb_spec b c) as [->|_]; [done|]. by rewrite IH.
Qed.

Lemma split_unlines ls : Forall (fun l => 10 ∉ l) ls -> split_on 10 (unlines ls) = (ls ++ [[]]).
Proof.
  induction 1 as [|l ls Hl _ IH]; [done|]. unfold unlines in *. cbn. rewrite <- app_assoc. cbn.
  by rewrite split_on_app, IH.
Qed.

Lemma lines_unlines ls : Forall is_line ls -> lines (unlines ls) = ls.
Proof.
  intros H. unfold lines. rewrite split_unlines by (eapply Forall_impl; [exact H|]; by intros l [? _]).
  rewrite reverse_snoc, reverse_involutive, app_nil_r. induction H as [|l ls [_ E] _ IH]; [done|].
  by rewrite map_cons, E, IH.
Qed.

(** Visible ASCII. *)
Definition visible (b : Z) : Prop := 33 <= b < 127.

Lemma visible_no_ws b t : visible b -> strip_ws1 (b :: t) = None.
Proof.
  unfold visible. intros H. unfold strip_ws1.
  replace ((9 <=? b) && (b <=? 13) || (b =? 32)) with false by lia.
  replace (b =? 194) with false by lia. replace (b =? 225) with false by lia.
  replace (b =? 226) with false by lia. replace (b =? 227) with false by lia.
  destruct t as [|c [|d t]]; reflexivity.
Qed.

Lemma words_visible w : forall n cur, Forall visible w -> (length w <= n)%nat -> reverse cur ++ w <> [] ->
  words n cur w = [reverse cur ++ w].
Proof.
  induction w as [|b w IH]; intros n cur Hw Hn Hne.
  - rewrite app_nil_r in *. destruct cur as [|c cur]; [done|]. by destruct n.
  - destruct n as [|n]; [cbn in Hn; lia|]. inversion_clear Hw. cbn [words]. rewrite visible_no_ws by done.
    rewrite IH; [by rewrite reverse_cons, <- app_assoc | done | cbn in Hn; lia |].
    rewrite reverse_cons, <- app_assoc. by destruct (reverse cur).
Qed.

(** What is left behind a white space character still ends in a blank and a word. *)
Lemma strip_ws1_keeps a pre w s : strip_ws1 (a :: (pre ++ 32 :: w)) = Some s -> exists pre', s = pre' ++ 32 :: w /\ (length pre' <= length pre)%nat.
Proof.
  cbn [strip_ws1]. destruct ((9 <=? a) && (a <=? 13) || (a =? 32)); [intros [= <-]; by exists pre|].
  destruct pre as [|b pre]; cbn [app].
  - replace (32 =? 133) with false by lia. replace (32 =? 160) with false by lia. rewrite andb_false_r.
    replace (32 =? 154) with false by lia. replace (32 =? 128) with false by lia. replace (32 =? 129) with false by lia.
    rewrite !andb_false_r. by destruct w.
  - destruct (_ && _); [intros [= <-]; exists pre; split; [done | cbn; lia]|].
    destruct pre as [|c pre]; cbn [app].
    + replace (32 =? 128) with false by lia. replace (128 <=? 32) with false by lia. replace (32 =? 168) with false by lia.
      replace (32 =? 169) with false by lia. replace (32 =? 175) with false by lia. replace (32 =? 159) with false by lia.
      rewrite !andb_false_r. done.
    + destruct (_ || _); [|done]. intros [= <-]. exists pre. split; [done | cbn; lia].
Qed.

Lemma words_last w : w <> [] -> Forall visible w -> forall n cur pre, (length pre + length w < n)%nat ->
  last (words n cur (pre ++ 32 :: w)) = Some w.
Proof.
  intros Hne Hw. induction n as [|n IH]; intros cur pre Hn; [lia|]. destruct pre as [|b pre].
  - change (last ((match cur with [] => [] | _ => [reverse cur] end) ++ words n [] w) = Some w).
    rewrite words_visible by (first [done | cbn in *; lia]). apply last_snoc.
  - cbn [app words]. destruct (strip_ws1 _) as [s|] eqn:E.
    + apply strip_ws1_keeps in E as (pre' & -> & Hl). rewrite last_app, IH; [done|]. cbn in Hn. lia.
    + apply IH. cbn in Hn. lia.
Qed.

(** The last word of a text that ends in a blank and a word. *)
Lemma last_word pre w : w <> [] -> Forall visible w -> last (split_whitespace (pre ++ 32 :: w)) = Some w.
Proof. intros. apply words_last; [done..|]. rewrite length_app. cbn. lia. Qed.

(** [join] of words with a blank. *)
Fixpoint unwords (l : list bytes) : bytes :=
  match l with [] => [] | [a] => a | a :: l => a ++ [32] ++ unwords l end.

Lemma words_cons w t : forall n cur, Forall visible w -> (length w + length t < n)%nat -> reverse cur ++ w <> [] ->
  exists n', (length t <= n')%nat /\ words n cur (w ++ 32 :: t) = (reverse cur ++ w) :: words n' [] t.
Proof.
  induction w as [|b w IH]; intros n cur Hw Hn Hne; (destruct n as [|n]; [cbn in Hn; lia|]).
  - exists n. split; [cbn in Hn; lia|]. rewrite app_nil_r in *. by destruct cur.
  - inversion_clear Hw. cbn [app words]. rewrite visible_no_ws by done.
    destruct (IH n (b :: cur)) as (n' & Hn' & E); [done | cbn in Hn; lia | by rewrite reverse_cons; destruct (reverse cur) |].
    exists n'. split; [done|]. rewrite E, reverse_cons, <- app_assoc. done.
Qed.

Lemma words_unwords l : forall n, Forall (fun w => w <> [] /\ Forall visible w) l -> (length (unwords l) <= n)%nat ->
  words n [] (unwords l) = l.
Proof.
  induction l as [|w l IH]; intros n Hl Hn; [by destruct n|]. inversion_clear Hl as [|? ? [Hw Hv] Hl']. destruct l as [|w' l].
  - by apply (words_visible w n []).
  - cbn [unwords] in *. change ([32] ++ ?x) with (32 :: x) in *.
    destruct (words_cons w (unwords (w' :: l)) n []) as (n' & Hn' & E); [done | | done |].
    { revert Hn. rewrite length_app. cbn [length]. cbn [unwords]. lia. }
    cbn [unwords] in E, Hn'. rewrite E. f_equal. by apply IH.
Qed.

Lemma split_whitespace_unwords l : Forall (fun w => w <> [] /\ Forall visible w) l -> split_whitespace (unwords l) = l.
Proof. intros H. by apply words_unwords. Qed.
