(* ===== verification/Io.v ===== *)
(** * Asynchronous streams, as the poll-based code sees them.

    An inner stream is the sequence of answers it will give: a reader a list
    of [rans], a writer a list of [wans] together with the bytes it has taken.
    An exhausted list is a stream that is pending for good.  A reader's
    answer with more data than the caller's buffer holds keeps the rest; a
    writer never takes more than it is offered. *)

From S2P Require Import Prelude.

Inductive rans : Type :=
| RPending
| RErr (e : error)
| RData (d : bytes).

Inductive wans : Type :=
| WPending
| WErr (e : error)
| WOk (n : nat).

(** A writer: the bytes taken so far, the answers to come, and whether its
    last answer was pending, that is, whether the task's waker is registered
    with it. *)
Record Wr : Type := mkWr { w_out : bytes; w_script : list wans; w_waker : bool }.

(** [poll_write]. *)
Definition inner_write (w : Wr) (buf : bytes) : Wr * poll (res nat) :=
  match w_script w with
  | [] => (mkWr (w_out w) [] true, Pending)
  | WPending :: s => (mkWr (w_out w) s true, Pending)
  | WErr e :: s => (mkWr (w_out w) s false, Ready (Err e))
  | WOk n :: s =>
    let n := Nat.min n (length buf) in
    (mkWr (w_out w ++ take n buf) s false, Ready (Ok n))
  end.

(** [poll_read] into a buffer with [cap] free bytes: no data is end of file. *)
Definition inner_read (cap : nat) (r : list rans) : list rans * poll (res bytes) :=
  match r with
  | [] => ([], Pending)
  | RPending :: s => (s, Pending)
  | RErr e :: s => (s, Ready (Err e))
  | RData d :: s =>
    if (length d <=? cap)%nat then (s, Ready (Ok d))
    else (RData (drop cap d) :: s, Ready (Ok (take cap d)))
  end.

(** The bytes a reader still holds. *)
Fixpoint r_bytes (r : list rans) : bytes :=
  match r with
  | [] => []
  | RData d :: s => d ++ r_bytes s
  | _ :: s => r_bytes s
  end.

Lemma inner_write_out (w w' : Wr) (buf : bytes) (p : poll (res nat)) :
  inner_write w buf = (w', p) ->
  match p with
  | Ready (Ok n) => (n <= length buf)%nat /\ w_out w' = w_out w ++ take n buf
  | _ => w_out w' = w_out w
  end.
Proof.
  unfold inner_write. destruct (w_script w) as [|[|e|n] s]; intros [= <- <-]; try done.
  split; [lia|done].
Qed.

(** An inner read takes bytes from the front, in order. *)
Lemma inner_read_bytes (cap : nat) (r r' : list rans) (p : poll (res bytes)) :
  inner_read cap r = (r', p) ->
  match p with
  | Ready (Ok d) => r_bytes r = d ++ r_bytes r' /\ (length d <= cap)%nat
  | _ => r_bytes r = r_bytes r'
  end.
Proof.
  unfold inner_read. destruct r as [|[|e|d] s]; intros H; simplify_eq/=; try done.
  destruct (length d <=? cap)%nat eqn:E; bools; simplify_eq/=.
  - done.
  - rewrite app_assoc, take_drop. split; [done|len].
Qed.

(** ** Datagram sockets *)

(** What a socket answers to [poll_recv_from]. *)
Inductive uans (A : Type) : Type :=
| UPending
| UErr (e : error)
| UData (d : bytes) (from : A).
Arguments UPending {A}.
Arguments UErr {A} e.
Arguments UData {A} d from.

(** [poll_recv_from] into a buffer with [cap] free bytes: what does not fit is
    cut off. *)
Definition udp_recv {A} (cap : nat) (r : list (uans A)) : list (uans A) * poll (res (bytes * A)) :=
  match r with
  | [] => ([], Pending)
  | UPending :: s => (s, Pending)
  | UErr e :: s => (s, Ready (Err e))
  | UData d from :: s => (s, Ready (Ok (take cap d, from)))
  end.

(** A socket's sending side: the datagrams taken with their targets, and the
    answers to come; a datagram is taken whole. *)
Record UWr (T : Type) : Type := mkUWr { u_out : list (bytes * T); u_script : list wans }.
Arguments mkUWr {T} u_out u_script.
Arguments u_out {T} u.
Arguments u_script {T} u.

(** [poll_send_to]. *)
Definition udp_send {T} (w : UWr T) (buf : bytes) (to : T) : UWr T * poll (res nat) :=
  match u_script w with
  | [] => (w, Pending)
  | WPending :: s => (mkUWr (u_out w) s, Pending)
  | WErr e :: s => (mkUWr (u_out w) s, Ready (Err e))
  | WOk _ :: s => (mkUWr (u_out w ++ [(buf, to)]) s, Ready (Ok (length buf)))
  end.

(** A datagram built once and kept in [send_buf] until the socket has taken
    it: [pack] gives what the buffer holds after packing and whether that
    succeeded.  An error of the socket keeps the buffer. *)
Definition buffered_send {T} (pack : bytes * res unit) (send_buf : bytes) (to : T) (w : UWr T)
    : bytes * UWr T * poll (res unit) :=
  let '(send_buf, r) := match send_buf with [] => pack | _ => (send_buf, Ok tt) end in
  match r with
  | Err e => (send_buf, w, Ready (Err e))
  | Ok _ =>
    match udp_send w send_buf to with
    | (w, Pending) => (send_buf, w, Pending)
    | (w, Ready (Err e)) => (send_buf, w, Ready (Err e))
    | (w, Ready (Ok _)) => ([], w, Ready (Ok tt))
    end
  end.

(** A socket that is busy [k] times and then takes a datagram. *)
Definition busy (k : nat) : list wans := repeat WPending k ++ [WOk 0].

(** Polling again and again while the answer is pending. *)
Fixpoint poll_until {S A} (fuel : nat) (f : S -> S * poll A) (s : S) : S * poll A :=
  match fuel with
  | O => (s, Pending)
  | Datatypes.S fuel =>
    match f s with
    | (s, Pending) => poll_until fuel f s
    | r => r
    end
  end.

(** Sending items one after the other, each polled until it is done; what
    could not be sent comes last. *)
Fixpoint send_all {S X T A} (f : S -> UWr T -> X -> S * UWr T * poll (res A)) (s : S) (w : UWr T) (l : list X)
    : S * UWr T * list X :=
  match l with
  | [] => (s, w, [])
  | x :: l =>
    match poll_until (Datatypes.S (length (u_script w))) (fun '(s, w) => let '(s, w, r) := f s w x in ((s, w), r)) (s, w) with
    | ((s, w), Ready (Ok _)) => send_all f s w l
    | ((s, w), _) => (s, w, x :: l)
    end
  end.

(** Receiving items until there is none. *)
Fixpoint recv_all {S X} (fuel : nat) (f : S -> S * poll (res X)) (s : S) : S * list X :=
  match fuel with
  | O => (s, [])
  | Datatypes.S fuel =>
    match f s with
    | (s, Ready (Ok x)) => let '(s, l) := recv_all fuel f s in (s, x :: l)
    | (s, _) => (s, [])
    end
  end.

Lemma recv_all_S {S X} n (f : S -> S * poll (res X)) s : recv_all (Datatypes.S n) f s =
  match f s with
  | (s, Ready (Ok x)) => let '(s, l) := recv_all n f s in (s, x :: l)
  | (s, _) => (s, [])
  end.
Proof. done. Qed.

Lemma length_busy k : length (busy k) = S k.
Proof. unfold busy. rewrite length_app, repeat_length. cbn. lia. Qed.

(** A poll function that is [buffered_send] on its state's buffer. *)
Lemma buffered_busy {S T A} (set : bytes -> S) (p : bytes) (to : T) (v : A) f : p <> [] ->
  (forall sb w, f (set sb, w) =
    let '(sb, w, r) := buffered_send (p, Ok tt) sb to w in
    ((set sb, w), match r with Ready (Ok _) => Ready (Ok v) | Ready (Err e) => Ready (Err e) | Pending => Pending end)) ->
  forall k fuel out rest sb, sb = [] \/ sb = p -> (k < fuel)%nat ->
  poll_until fuel f (set sb, mkUWr out (busy k ++ rest)) = ((set [], mkUWr (out ++ [(p, to)]) rest), Ready (Ok v)).
Proof.
  intros Hp Hf k fuel. revert k. induction fuel as [|fuel IH]; intros k out rest sb Hs Hk; [lia|].
  cbn [poll_until]. rewrite Hf. unfold buffered_send.
  assert (Hb : match sb with [] => (p, Ok tt) | _ => (sb, Ok tt) end = (p, @Ok unit tt))
    by (destruct Hs as [-> | ->]; [done | by destruct p]).
  rewrite Hb. destruct k as [|k]; cbn [busy repeat app udp_send u_script u_out]; [done|].
  apply IH; [by right | lia].
Qed.

Lemma send_all_busy {S X T A} (f : S -> UWr T -> X -> S * UWr T * poll (res A)) s (pk : X -> bytes * T) (v : X -> A) l :
  (forall x, x ∈ l -> forall k fuel out rest, (k < fuel)%nat ->
    poll_until fuel (fun '(s, w) => let '(s, w, r) := f s w x in ((s, w), r)) (s, mkUWr out (busy k ++ rest)) =
    ((s, mkUWr (out ++ [pk x]) rest), Ready (Ok (v x)))) ->
  forall ks out, length ks = length l ->
  send_all f s (mkUWr out (concat (map busy ks))) l = (s, mkUWr (out ++ map pk l) [], []).
Proof.
  induction l as [|x l IH]; intros Hf ks out Hl; destruct ks as [|k ks]; try done.
  - cbn. by rewrite app_nil_r.
  - cbn [send_all map concat u_script]. rewrite Hf; [|left|rewrite length_app, length_busy; lia].
    cbn. rewrite IH; [by rewrite <- app_assoc| |by injection Hl].
    intros y Hy. apply Hf. by right.
Qed.

Lemma recv_all_items {S X A} (P : S -> Prop) (f : S * list A -> (S * list A) * poll (res X)) (d : X -> A) l :
  (forall x r s, x ∈ l -> P s -> exists s', P s' /\ f (s, d x :: r) = ((s', r), Ready (Ok x))) ->
  (forall s, P s -> f (s, []) = ((s, []), Pending)) ->
  forall s, P s -> exists s', P s' /\ recv_all (Datatypes.S (length l)) f (s, map d l) = ((s', []), l).
Proof.
  intros Hf Hn. induction l as [|x l IH]; intros s Hs.
  - exists s. cbn. by rewrite Hn.
  - destruct (Hf x (map d l) s) as (s1 & Hs1 & E); [left|done|].
    destruct (IH (fun y r s' Hy => Hf y r s' (list_elem_of_further _ _ _ Hy)) s1 Hs1) as (s2 & Hs2 & E2).
    exists s2. split; [done|]. cbn [map length recv_all]. rewrite E. cbn [recv_all] in E2 |- *. by rewrite E2.
Qed.

(** ** Framed streams *)

(** A decoder over a buffer, and what it is run for: decoding as long as there
    is an item, after each piece that arrives. *)
Section Framing.
Context {X : Type} (decode : bytes -> bytes * option X) (frame : X -> bytes) (ok : X -> Prop).

Fixpoint drain (fuel : nat) (buf : bytes) : bytes * list X :=
  match fuel with
  | O => (buf, [])
  | Datatypes.S fuel =>
    match decode buf with
    | (buf, Some x) => let '(buf, l) := drain fuel buf in (buf, x :: l)
    | (buf, None) => (buf, [])
    end
  end.

(** Every item takes at least a byte of the buffer. *)
Definition feed (s : bytes * list X) (piece : bytes) : bytes * list X :=
  let '(buf, l) := drain (Datatypes.S (length (s.1 ++ piece))) (s.1 ++ piece) in (buf, s.2 ++ l).

Context (decode_nil : decode [] = ([], None)).
Context (decode_frame : forall x rest, ok x -> decode (frame x ++ rest) = (rest, Some x)).
Context (decode_prefix : forall x p q, ok x -> frame x = p ++ q -> q <> [] -> decode p = (p, None)).
Context (frame_nonempty : forall x, ok x -> frame x <> []).

(** What no item can be decoded from: the start of the first of [l]. *)
Definition residue (b : bytes) (l : list X) : Prop :=
  b = [] \/ exists x l' q, l = x :: l' /\ q <> [] /\ frame x = b ++ q.

(** A buffer is a number of whole frames and the start of one. *)
Lemma drain_frames fuel : forall l b t, Forall ok l -> b ++ t = concat (map frame l) -> (length b < fuel)%nat ->
  exists l1 l2 b', l = l1 ++ l2 /\ drain fuel b = (b', l1) /\ b' ++ t = concat (map frame l2) /\ residue b' l2.
Proof.
  induction fuel as [|fuel IH]; intros l b t Hl E Hf; [lia|]. cbn [drain].
  destruct Hl as [|x l Hx Hl].
  { cbn in E. apply app_eq_nil in E as [-> ->]. exists [], [], []. rewrite decode_nil. by repeat split; left. }
  cbn [map concat] in E. apply app_eq_app in E as (m & [[-> E] | [E ->]]).
  - rewrite decode_frame by done. destruct (IH l m t Hl) as (l1 & l2 & b' & -> & E1 & E2 & Hr); [done| |].
    + pose proof (frame_nonempty x Hx). rewrite length_app in Hf. destruct (frame x); [done|cbn in Hf; lia].
    + exists (x :: l1), l2, b'. by rewrite E1.
  - destruct m as [|c m].
    + rewrite app_nil_r in E. rewrite <- E. rewrite <- (app_nil_r (frame x)), decode_frame by done.
      destruct (IH l [] (concat (map frame l)) Hl) as (l1 & l2 & b' & -> & E1 & E2 & Hr); [done| |].
      * pose proof (frame_nonempty x Hx). rewrite <- E in Hf. destruct (frame x); [done|cbn in *; lia].
      * exists (x :: l1), l2, b'. rewrite E1. by rewrite app_nil_l.
    + rewrite (decode_prefix x b (c :: m)) by done. exists [], (x :: l), b. repeat split.
      * cbn [map concat]. by rewrite E, <- app_assoc.
      * right. by exists x, l, (c :: m).
Qed.

(** However the stream is cut, what comes out is what was framed. *)
Lemma feed_pieces pieces : forall l b acc, Forall ok l -> b ++ concat pieces = concat (map frame l) -> residue b l ->
  fold_left feed pieces (b, acc) = ([], acc ++ l).
Proof.
  induction pieces as [|p pieces IH]; intros l b acc Hl E Hr; cbn [fold_left concat] in *.
  - rewrite app_nil_r in E. destruct Hr as [-> | (x & l' & q & -> & Hq & Hx)].
    + destruct Hl as [|x l Hx Hl]; [by rewrite app_nil_r|]. cbn in E. symmetry in E.
      apply app_eq_nil in E as [E _]. by destruct (frame_nonempty x Hx).
    + cbn in E. rewrite Hx in E. apply (f_equal length) in E. rewrite !length_app in E. destruct q; [done|cbn in E; lia].
  - rewrite app_assoc in E. destruct (drain_frames (S (length (b ++ p))) l (b ++ p) (concat pieces) Hl E)
      as (l1 & l2 & b' & -> & E1 & E2 & Hr'); [lia|].
    unfold feed at 2. cbn [fst snd]. rewrite E1. apply Forall_app in Hl as [_ Hl].
    rewrite (IH l2) by done. by rewrite <- app_assoc.
Qed.

End Framing.
