(* ===== verification/Address.v ===== *)
(** * Network addresses: [rd-interface/src/address.rs].

    [Std] models the parts of [std::net] the crate relies on (textual
    parsing and printing of IPv4 and IPv6 addresses); [Addr] models the
    [Address] type itself. *)

From S2P Require Import Prelude.

Module Std.

(** An IPv4 address is its 32-bit value, an IPv6 address its 128-bit value. *)
Inductive IpAddr : Type :=
| V4 (a : Z)
| V6 (a : Z).

Record SocketAddr : Type := mkSocketAddr { sa_ip : IpAddr; sa_port : Z }.

#[global] Instance IpAddr_eq_dec : EqDecision IpAddr.
Proof. solve_decision. Defined.
#[global] Instance SocketAddr_eq_dec : EqDecision SocketAddr.
Proof. solve_decision. Defined.

#[global] Instance IpAddr_countable : Countable IpAddr.
Proof.
  apply (inj_countable' (fun i => match i with V4 a => inl a | V6 a => inr a end)
    (fun s => match s with inl a => V4 a | inr a => V6 a end)).
  by intros [a|a].
Defined.

#[global] Instance SocketAddr_countable : Countable SocketAddr.
Proof.
  apply (inj_countable' (fun s => (sa_ip s, sa_port s)) (fun p => mkSocketAddr p.1 p.2)).
  by intros [i p].
Defined.

Definition ip_ok (i : IpAddr) : Prop :=
  match i with V4 a => 0 <= a < 2 ^ 32 | V6 a => 0 <= a < 2 ^ 128 end.
Definition port_ok (p : Z) : Prop := 0 <= p < 2 ^ 16.
Definition sa_ok (s : SocketAddr) : Prop := ip_ok (sa_ip s) /\ port_ok (sa_port s).

Definition octets (i : IpAddr) : bytes :=
  match i with V4 a => be_bytes 4 a | V6 a => be_bytes 16 a end.

Definition segment (a : Z) (i : nat) : Z :=
  (a / 2 ^ (16 * (7 - Z.of_nat i))) mod 2 ^ 16.
Definition segments (a : Z) : list Z := map (segment a) (seq 0 8).
Definition of_segments (l : list Z) : Z := fold_left (fun v s => v * 2 ^ 16 + s) l 0.

(** ** [core::net::parser] *)

Definition parser (A : Type) : Type := bytes -> option (A * bytes).

Definition digit_of (radix b : Z) : option Z :=
  let d := if is_digit b then b - 48
           else if (97 <=? b) && (b <=? 102) then b - 87
           else if (65 <=? b) && (b <=? 70) then b - 55
           else 99 in
  if d <? radix then Some d else None.

(** The longest run of digits: value, count and rest. *)
Fixpoint read_digits (radix v : Z) (n : nat) (s : bytes) : Z * nat * bytes :=
  match s with
  | b :: t =>
    match digit_of radix b with
    | Some d => read_digits radix (v * radix + d) (S n) t
    | None => (v, n, s)
    end
  | [] => (v, n, s)
  end.

Definition read_number (radix : Z) (max_digits : nat) (allow_zero_prefix : bool)
    (limit : Z) : parser Z := fun s =>
  let lead0 := match s with 48 :: _ => true | _ => false end in
  let '(v, n, r) := read_digits radix 0 0 s in
  if (max_digits <? n)%nat || (limit <=? v) then None
  else if (n =? 0)%nat then None
  else if negb allow_zero_prefix && lead0 && (1 <? n)%nat then None
  else Some (v, r).

Definition read_given_char (c : Z) : parser unit := fun s =>
  match s with
  | b :: t => if b =? c then Some (tt, t) else None
  | [] => None
  end.

(** [read_separator(sep, index, inner)]. *)
Definition read_separator {A} (sep : Z) (index : nat) (inner : parser A) : parser A :=
  fun s =>
  match index with
  | O => inner s
  | S _ => match read_given_char sep s with
           | Some (_, r) => inner r
           | None => None
           end
  end.

Definition read_octet (i : nat) : parser Z :=
  read_separator 46 i (read_number 10 3 false 256).

Definition read_ipv4_addr : parser Z := fun s =>
  '(a, s) ← read_octet 0 s;
  '(b, s) ← read_octet 1 s;
  '(c, s) ← read_octet 2 s;
  '(d, s) ← read_octet 3 s;
  Some (be_val [a; b; c; d], s).

(** [read_groups]: the groups read from index [i] with [left] slots left,
    and whether the last two came from an embedded IPv4 address. *)
Fixpoint read_groups (left i : nat) (s : bytes) : list Z * bool * bytes :=
  match left with
  | O => ([], false, s)
  | S left' =>
    let v4 := match left' with
              | O => None
              | S _ => read_separator 58 i read_ipv4_addr s
              end in
    match v4 with
    | Some (a, r) => ([a / 2 ^ 16; a mod 2 ^ 16], true, r)
    | None =>
      match read_separator 58 i (read_number 16 4 true (2 ^ 16)) s with
      | Some (g, r) =>
        let '(gs, e, r) := read_groups left' (S i) r in (g :: gs, e, r)
      | None => ([], false, s)
      end
    end
  end.

Definition read_ipv6_addr : parser Z := fun s =>
  let '(head, head_ipv4, s) := read_groups 8 0 s in
  if (length head =? 8)%nat then Some (of_segments head, s)
  else if head_ipv4 then None
  else
    '(_, s) ← read_given_char 58 s;
    '(_, s) ← read_given_char 58 s;
    let '(tail, _, s) := read_groups (8 - (length head + 1)) 0 s in
    Some (of_segments (head ++ replicate (8 - length head - length tail) 0 ++ tail), s).

(** [IpAddr::from_str]. *)
Definition parse_ip (s : bytes) : option IpAddr :=
  match read_ipv4_addr s with
  | Some (a, r) => match r with [] => Some (V4 a) | _ => None end
  | None =>
    match read_ipv6_addr s with
    | Some (a, []) => Some (V6 a)
    | _ => None
    end
  end.

(** ** [Display] *)

Definition show_ipv4 (a : Z) : bytes :=
  match map show_uint (be_bytes 4 a) with
  | [w; x; y; z] => w ++ 46 :: x ++ 46 :: y ++ 46 :: z
  | _ => []
  end.

Definition hex_digit (d : Z) : Z := if d <? 10 then 48 + d else 87 + d.

Fixpoint hex_digits (fuel : nat) (v : Z) (acc : bytes) : bytes :=
  match fuel with
  | O => acc
  | S f => let acc := hex_digit (v mod 16) :: acc in
           if v <? 16 then acc else hex_digits f (v / 16) acc
  end.

(** [{:x}] of a 16-bit segment. *)
Definition show_hex16 (v : Z) : bytes := hex_digits 4 v [].

(** The first longest run of zero segments: start and length. *)
Fixpoint zero_span (l : list Z) (i : nat) (cur longest : nat * nat) : nat * nat :=
  match l with
  | [] => longest
  | 0 :: t =>
    let cur := ((if (snd cur =? 0)%nat then i else fst cur), S (snd cur)) in
    zero_span t (S i) cur (if (snd longest <? snd cur)%nat then cur else longest)
  | _ :: t => zero_span t (S i) (0%nat, 0%nat) longest
  end.

Fixpoint fmt_subslice (l : list Z) : bytes :=
  match l with
  | [] => []
  | [x] => show_hex16 x
  | x :: t => show_hex16 x ++ 58 :: fmt_subslice t
  end.

Definition to_ipv4_mapped (a : Z) : option Z :=
  if a / 2 ^ 32 =? 65535 then Some (a mod 2 ^ 32) else None.

Definition show_ipv6 (a : Z) : bytes :=
  match to_ipv4_mapped a with
  | Some v4 => lit "::ffff:" ++ show_ipv4 v4
  | None =>
    let segs := segments a in
    let '(start, len) := zero_span segs 0 (0, 0)%nat (0, 0)%nat in
    if (1 <? len)%nat
    then fmt_subslice (take start segs) ++ lit "::" ++ fmt_subslice (drop (start + len) segs)
    else fmt_subslice segs
  end.

Definition show_ip (i : IpAddr) : bytes :=
  match i with V4 a => show_ipv4 a | V6 a => show_ipv6 a end.

Definition show_sa (s : SocketAddr) : bytes :=
  match sa_ip s with
  | V4 a => show_ipv4 a ++ 58 :: show_uint (sa_port s)
  | V6 a => lit "[" ++ show_ipv6 a ++ lit "]" ++ 58 :: show_uint (sa_port s)
  end.

Definition is_ipv4 (i : IpAddr) : bool := match i with V4 _ => true | V6 _ => false end.

End Std.
Export Std.

Module Addr.

(* src/rd-interface/src/address.rs:9-14 AddressDomain *)
Record AddressDomain : Type := mkAddressDomain { ad_domain : bytes; ad_port : Z }.

(* src/rd-interface/src/address.rs:22-38 AddressDomain::from_str *)
Definition address_domain_from_str (s : bytes) : res AddressDomain :=
  let '(port, host) :=
    match rsplit_once 58 s with
    | Some (h, p) => (p, Some h)
    | None => (s, None)
    end in
  port ← ok_or EAddrNotAvailable (parse_uint 16 port);
  host ← ok_or EAddrNotAvailable host;
  Ok (mkAddressDomain host port).

(* src/rd-interface/src/address.rs:40-44 AddressDomain::fmt *)
Definition show_address_domain (a : AddressDomain) : bytes :=
  ad_domain a ++ 58 :: show_uint (ad_port a).

(* src/rd-interface/src/address.rs:65-70 Address *)
Inductive Address : Type :=
| ASocket (s : SocketAddr)
| ADomain (d : bytes) (p : Z).

#[global] Instance Address_eq_dec : EqDecision Address.
Proof. solve_decision. Defined.
#[global] Instance Address_countable : Countable Address.
Proof.
  apply (inj_countable' (fun a => match a with ASocket s => inl s | ADomain d p => inr (d, p) end)
    (fun s => match s with inl s => ASocket s | inr (d, p) => ADomain d p end)).
  by intros [s|d p].
Defined.

(* src/rd-interface/src/address.rs:87-91 strip_brackets *)
Definition strip_brackets (host : bytes) : bytes :=
  match strip_prefix (lit "[") host with
  | Some h => match strip_suffix (lit "]") h with Some x => x | None => host end
  | None => host
  end.

(* src/rd-interface/src/address.rs:93-101 host_to_address *)
Definition host_to_address (host : bytes) (port : Z) : Address :=
  match parse_ip (strip_brackets host) with
  | Some ip => ASocket (mkSocketAddr ip port)
  | None => ADomain host port
  end.

(* src/rd-interface/src/address.rs:109-128 into_address *)
Definition into_address (s : bytes) : res Address :=
  let '(port, host) :=
    match rsplit_once 58 s with
    | Some (h, p) => (p, Some h)
    | None => (s, None)
    end in
  port ← ok_or EAddrNotAvailable (parse_uint 16 port);
  host ← ok_or EAddrNotAvailable host;
  Ok (host_to_address host port).

(* src/rd-interface/src/address.rs:130-137 Address::fmt *)
Definition show_address (a : Address) : bytes :=
  match a with
  | ADomain d p => d ++ 58 :: show_uint p
  | ASocket s => show_sa s
  end.

(* src/rd-interface/src/address.rs:182-193 any_addr_port *)
Definition any_addr_port (s : SocketAddr) : Address :=
  match sa_ip s with
  | V4 _ => ASocket (mkSocketAddr (V4 0) 0)
  | V6 _ => ASocket (mkSocketAddr (V6 0) 0)
  end.

(* src/rd-interface/src/address.rs:239-249 normalize *)
Definition normalize (a : Address) : SocketAddr + (bytes * Z) :=
  match a with
  | ASocket s => inl s
  | ADomain d p =>
    match parse_ip (strip_brackets d) with
    | Some ip => inl (mkSocketAddr ip p)
    | None => inr (d, p)
    end
  end.

(* src/rd-interface/src/address.rs:195-200 to_any_addr_port *)
Definition to_any_addr_port (a : Address) : res Address :=
  match normalize a with
  | inl s => Ok (any_addr_port s)
  | inr _ => Err EAddrNotAvailable
  end.

(* src/rd-interface/src/address.rs:202-209 to_socket_addr *)
Definition to_socket_addr (a : Address) : res SocketAddr :=
  match normalize a with
  | inl s => Ok s
  | inr _ => Err EAddrNotAvailable
  end.

(* src/rd-interface/src/address.rs:211-220 resolve *)
Definition resolve (f : bytes -> Z -> res (list SocketAddr)) (a : Address) : res (list SocketAddr) :=
  match normalize a with
  | inl s => Ok [s]
  | inr (d, p) => f d p
  end.

(* src/rd-interface/src/address.rs:222-229 host *)
Definition host (a : Address) : bytes :=
  match a with
  | ASocket s => match sa_ip s with
                 | V4 x => show_ipv4 x
                 | V6 x => lit "[" ++ show_ipv6 x ++ lit "]"
                 end
  | ADomain d _ => d
  end.

(* src/rd-interface/src/address.rs:231-237 port *)
Definition port (a : Address) : Z :=
  match a with ASocket s => sa_port s | ADomain _ p => p end.

(* src/rd-interface/src/address.rs:251-258 to_normalized *)
Definition to_normalized (a : Address) : Address :=
  match normalize a with
  | inl s => ASocket s
  | inr (d, p) => ADomain d p
  end.

(* src/rd-interface/src/address.rs:260-270 into_normalized *)
Definition into_normalized (a : Address) : Address :=
  match a with
  | ASocket _ => a
  | ADomain d p =>
    match parse_ip (strip_brackets d) with
    | Some ip => ASocket (mkSocketAddr ip p)
    | None => ADomain d p
    end
  end.

(* src/rd-interface/src/address.rs:272-278 is_domain *)
Definition is_domain (a : Address) : bool :=
  match a with ADomain _ _ => true | _ => false end.

(* src/rd-interface/src/address.rs:280-286 is_socket_addr *)
Definition is_socket_addr (a : Address) : bool :=
  match a with ASocket _ => true | _ => false end.

(** An address codec, as the proxy protocols use one: a writer that may refuse
    an address, a reader, and the law that what was written is read back,
    leaving the rest of the input. *)
Class AddressCodec : Type := {
  ac_write : Address -> res bytes;
  ac_read : reader Address;
  ac_wf : Address -> Prop;
  ac_roundtrip a w r : ac_wf a -> ac_write a = Ok w -> ac_read (w ++ r) = Ok (a, r) }.

(** Values the Rust types can hold. *)
Definition addr_ok (a : Address) : Prop :=
  match a with ASocket s => sa_ok s | ADomain d p => bytes_ok d /\ port_ok p end.

End Addr.
Export Addr.

(** ** Lemmas: parsing printed addresses *)

Module AddrLemmas.

(** The text after a number does not continue it. *)
Definition stops (radix : Z) (r : bytes) : Prop :=
  match r with [] => True | b :: _ => digit_of radix b = None end.

Lemma read_digits_app (radix v v' : Z) (n n' : nat) (s r : bytes) :
  read_digits radix v n s = (v', n', []) -> stops radix r ->
  read_digits radix v n (s ++ r) = (v', n', r).
Proof.
  revert v n. induction s as [|b s IH]; intros v n H Hr; simpl in *.
  - invc H. destruct r as [|b r]; [done|]. simpl in *. by rewrite Hr.
  - destruct (digit_of radix b); [by apply IH|done].
Qed.

Lemma read_digits_suffix (radix v v' : Z) (n n' : nat) (s r : bytes) :
  read_digits radix v n s = (v', n', r) -> exists p, s = p ++ r.
Proof.
  revert v n. induction s as [|b s IH]; intros v n H; simpl in *.
  - invc H. by exists [].
  - destruct (digit_of radix b).
    + apply IH in H as [p ->]. by exists (b :: p).
    + invc H. by exists [].
Qed.

Lemma read_number_app (radix lim v : Z) (mx : nat) (z : bool) (s r : bytes) :
  read_number radix mx z lim s = Some (v, []) -> stops radix r ->
  read_number radix mx z lim (s ++ r) = Some (v, r).
Proof.
  unfold read_number. intros H Hr.
  destruct (read_digits radix 0 0 s) as [[v0 n0] r0] eqn:E.
  assert (r0 = []) as -> by (repeat case_match; by simplify_eq).
  rewrite (read_digits_app _ _ _ _ _ _ _ E Hr).
  destruct s as [|b s].
  { simpl in E. simplify_eq. simpl in H. by repeat case_match. }
  simpl app. repeat case_match; by simplify_eq.
Qed.

Lemma read_number_suffix (radix lim v : Z) (mx : nat) (z : bool) (s r : bytes) :
  read_number radix mx z lim s = Some (v, r) -> exists p, s = p ++ r.
Proof.
  unfold read_number. intros H.
  destruct (read_digits radix 0 0 s) as [[v0 n0] r0] eqn:E.
  assert (r0 = r) as -> by (repeat case_match; by simplify_eq).
  by apply read_digits_suffix in E.
Qed.

(** Checking a predicate for all integers below a bound. *)
Fixpoint all_below (n : nat) (z : Z) (f : Z -> bool) : bool :=
  match n with O => true | S n => f z && all_below n (z + 1) f end.

Lemma all_below_spec (n : nat) (z : Z) (f : Z -> bool) :
  all_below n z f = true -> forall x, z <= x < z + Z.of_nat n -> f x = true.
Proof.
  revert z. induction n as [|n IH]; intros z H x Hx; [lia|].
  simpl in H. apply andb_true_iff in H as [H1 H2].
  destruct (decide (x = z)) as [->|]; [done|]. apply (IH (z + 1)); [done|lia].
Qed.

Definition octet_check (o : Z) : bool :=
  bool_decide (read_number 10 3 false 256 (show_uint o) = Some (o, [])).

Lemma octet_show (o : Z) :
  byte_ok o -> read_number 10 3 false 256 (show_uint o) = Some (o, []).
Proof.
  intros H. assert (octet_check o = true) as Hc.
  { apply (all_below_spec 256 0); [by vm_compute|unfold byte_ok in H; lia]. }
  by apply bool_decide_eq_true in Hc.
Qed.

Lemma hex_digit_spec (d : Z) :
  0 <= d < 16 ->
  digit_of 16 (hex_digit d) = Some d /\ hex_digit d <> 46 /\ hex_digit d <> 58.
Proof.
  intros H. set (f := fun d => bool_decide (digit_of 16 (hex_digit d) = Some d) &&
    negb (hex_digit d =? 46) && negb (hex_digit d =? 58)).
  assert (f d = true) as Hf by (apply (all_below_spec 16 0); [done|lia]).
  unfold f in Hf. bools. by apply bool_decide_eq_true in H0.
Qed.

(** The digits of a 16-bit value, most significant first. *)
Lemma show_hex16_digits (g : Z) :
  0 <= g < 2 ^ 16 ->
  exists ds, show_hex16 g = map hex_digit ds /\ (0 < length ds <= 4)%nat /\
    Forall (fun d => 0 <= d < 16) ds /\ fold_left (fun v d => v * 16 + d) ds 0 = g.
Proof.
  intros H. unfold show_hex16. cbn [hex_digits].
  assert (M : forall x, 0 <= x mod 16 < 16) by (intros; apply Z.mod_pos_bound; lia).
  repeat case_match; bools.
  - exists [g mod 16]. split; [done|split; [simpl; lia|split; [rewrite !Forall_cons; repeat split; (apply M || apply Forall_nil_2)|]]].
    cbn [fold_left]. Z.to_euclidean_division_equations. lia.
  - exists [g / 16 mod 16; g mod 16]. split; [done|split; [simpl; lia|split; [rewrite !Forall_cons; repeat split; (apply M || apply Forall_nil_2)|]]].
    cbn [fold_left]. Z.to_euclidean_division_equations. lia.
  - exists [g / 16 / 16 mod 16; g / 16 mod 16; g mod 16].
    split; [done|split; [simpl; lia|split; [rewrite !Forall_cons; repeat split; (apply M || apply Forall_nil_2)|]]].
    cbn [fold_left]. Z.to_euclidean_division_equations. lia.
  - exists [g / 16 / 16 / 16 mod 16; g / 16 / 16 mod 16; g / 16 mod 16; g mod 16].
    split; [done|split; [simpl; lia|split; [rewrite !Forall_cons; repeat split; (apply M || apply Forall_nil_2)|]]].
    cbn [fold_left]. Z.to_euclidean_division_equations. lia.
  - exists [g / 16 / 16 / 16 mod 16; g / 16 / 16 mod 16; g / 16 mod 16; g mod 16].
    split; [done|split; [simpl; lia|split; [rewrite !Forall_cons; repeat split; (apply M || apply Forall_nil_2)|]]].
    cbn [fold_left]. Z.to_euclidean_division_equations. lia.
Qed.

Lemma read_digits_hex (ds : list Z) (v : Z) (n : nat) :
  Forall (fun d => 0 <= d < 16) ds ->
  read_digits 16 v n (map hex_digit ds)
  = (fold_left (fun v d => v * 16 + d) ds v, (n + length ds)%nat, []).
Proof.
  intros H. revert v n. induction H as [|d ds Hd _ IH]; intros v n.
  - simpl. by rewrite Nat.add_0_r.
  - cbn [map read_digits fold_left length]. destruct (hex_digit_spec d Hd) as [-> _].
    rewrite IH. by rewrite Nat.add_succ_r.
Qed.

Lemma hex_show (g : Z) :
  0 <= g < 2 ^ 16 -> read_number 16 4 true (2 ^ 16) (show_hex16 g) = Some (g, []).
Proof.
  intros H. destruct (show_hex16_digits g H) as (ds & -> & Hl & Hds & Hv).
  unfold read_number. rewrite read_digits_hex by done. rewrite Hv.
  cbv zeta. cbn [Nat.add].
  replace (4 <? length ds)%nat with false by (symmetry; apply Nat.ltb_ge; lia).
  replace (2 ^ 16 <=? g) with false by (symmetry; apply Z.leb_gt; lia).
  by replace (length ds =? 0)%nat with false by (symmetry; apply Nat.eqb_neq; lia).
Qed.

Lemma hex_chars (g c : Z) :
  0 <= g < 2 ^ 16 -> c = 46 \/ c = 58 -> c ∉ show_hex16 g.
Proof.
  intros H Hc Hin. destruct (show_hex16_digits g H) as (ds & E & _ & Hds & _).
  rewrite E in Hin. apply list_elem_of_In, in_map_iff in Hin as (d & <- & Hd).
  rewrite Forall_forall in Hds. apply list_elem_of_In, Hds, hex_digit_spec in Hd. lia.
Qed.

Lemma read_given_char_cons (c : Z) (r : bytes) : read_given_char c (c :: r) = Some (tt, r).
Proof. simpl. by rewrite Z.eqb_refl. Qed.

Lemma read_ipv4_show (a : Z) (r : bytes) :
  0 <= a < 2 ^ 32 -> stops 10 r -> read_ipv4_addr (show_ipv4 a ++ r) = Some (a, r).
Proof.
  intros Ha Hr. unfold show_ipv4.
  pose proof (be_bytes_ok 4 a) as Hok. pose proof (be_val_be_bytes 4 a ltac:(lia)) as Hv.
  destruct (be_bytes 4 a) as [|w [|x [|y [|z [|]]]]] eqn:E; try by apply (f_equal length) in E.
  unfold bytes_ok in Hok. rewrite !Forall_cons in Hok. destruct Hok as (Hw & Hx & Hy & Hz & _).
  simpl map. cbv iota. rewrite <- !app_assoc, <- !app_comm_cons, <- !app_assoc, <- !app_comm_cons, <- !app_assoc, <- !app_comm_cons.
  unfold read_ipv4_addr, read_octet, read_separator.
  repeat first
    [ rewrite (read_number_app 10 256 w) by (first [by apply octet_show|done])
    | rewrite (read_number_app 10 256 x) by (first [by apply octet_show|done])
    | rewrite (read_number_app 10 256 y) by (first [by apply octet_show|done])
    | rewrite (read_number_app 10 256 z) by (first [by apply octet_show|done])
    | rewrite read_given_char_cons
    | progress cbn [mbind option_bind] ].
  by rewrite Hv.
Qed.

(** No dotted quad can be read from a text without dots. *)
Lemma read_ipv4_nodot (s : bytes) : 46 ∉ s -> read_ipv4_addr s = None.
Proof.
  intros Hs. unfold read_ipv4_addr, read_octet, read_separator.
  destruct (read_number 10 3 false 256 s) as [[v r]|] eqn:E; [|done].
  cbn [mbind option_bind]. apply read_number_suffix in E as [p ->].
  destruct r as [|b r]; [done|]. simpl.
  destruct (b =? 46) eqn:Eb; [|done]. bools. subst. set_solver.
Qed.

(** The separated text of groups from index [i]. *)
Fixpoint gtext (i : nat) (l : list Z) : bytes :=
  match l with
  | [] => []
  | x :: t => (match i with O => [] | S _ => [58] end) ++ show_hex16 x ++ gtext (S i) t
  end.

Lemma gtext_S (i : nat) (l : list Z) : gtext (S i) l = gtext 1 l.
Proof. revert i. induction l as [|x l IH]; intros i; [done|]. simpl. by rewrite (IH (S i)), (IH 1%nat). Qed.

Lemma fmt_subslice_gtext (l : list Z) : fmt_subslice l = gtext 0 l.
Proof.
  assert (G : forall x t, fmt_subslice (x :: t) = show_hex16 x ++ gtext 1 t).
  { intros x t. revert x. induction t as [|y t IH]; intros x.
    - simpl. by rewrite app_nil_r.
    - change (fmt_subslice (x :: y :: t)) with (show_hex16 x ++ 58 :: fmt_subslice (y :: t)).
      rewrite IH. simpl. by rewrite (gtext_S 1). }
  destruct l as [|x t]; [done|]. by rewrite G.
Qed.

Lemma gtext_nodot (i : nat) (l : list Z) :
  Forall (fun g => 0 <= g < 2 ^ 16) l -> 46 ∉ gtext i l.
Proof.
  intros H. revert i. induction H as [|x l Hx _ IH]; intros i; simpl; [set_solver|].
  rewrite !not_elem_of_app. split; [destruct i; [apply not_elem_of_nil|rewrite not_elem_of_cons; split; [done|apply not_elem_of_nil]]|].
  split; [apply hex_chars; auto|apply IH].
Qed.

(** What may follow the groups: the end or [::]. *)
Definition groups_end (r : bytes) : Prop := r = [] \/ exists r', r = 58 :: 58 :: r'.

Lemma read_groups_end (left i : nat) (r : bytes) :
  groups_end r -> read_groups left i r = ([], false, r).
Proof.
  intros [->|[r' ->]]; destruct left as [|[|left]], i as [|i]; done.
Qed.

Lemma stops_gtext (i : nat) (l r : bytes) :
  Forall (fun g => 0 <= g < 2 ^ 16) l -> groups_end r -> stops 16 (gtext (S i) l ++ r).
Proof. intros _ Hr. destruct l; simpl; [by destruct Hr as [->|[? ->]]|done]. Qed.

Lemma read_separator_nodot (i : nat) (s : bytes) :
  46 ∉ s -> read_separator 58 i read_ipv4_addr s = None.
Proof.
  intros Hs. unfold read_separator. destruct i; [by apply read_ipv4_nodot|].
  destruct s as [|b s]; [done|]. simpl. destruct (b =? 58); [|done].
  apply read_ipv4_nodot. by apply not_elem_of_cons in Hs as [_ Hs].
Qed.

Lemma read_groups_S (left i : nat) (s r : bytes) (g : Z) :
  46 ∉ s ->
  read_separator 58 i (read_number 16 4 true (2 ^ 16)) s = Some (g, r) ->
  read_groups (S left) i s = let '(gs, e, r) := read_groups left (S i) r in (g :: gs, e, r).
Proof.
  intros Hs Hg. cbn [read_groups]. rewrite Hg.
  destruct left; [done|]. by rewrite read_separator_nodot.
Qed.

Lemma read_separator_gtext (i : nat) (x : Z) (l r : bytes) :
  0 <= x < 2 ^ 16 -> Forall (fun g => 0 <= g < 2 ^ 16) l -> groups_end r ->
  read_separator 58 i (read_number 16 4 true (2 ^ 16)) (gtext i (x :: l) ++ r)
  = Some (x, gtext (S i) l ++ r).
Proof.
  intros Hx Hl Hr. unfold read_separator.
  destruct i; cbn [gtext]; rewrite <- !app_assoc; cbn [app read_given_char];
    rewrite ?Z.eqb_refl; (apply read_number_app; [by apply hex_show|by apply stops_gtext]).
Qed.

Lemma read_groups_gtext (l : list Z) (left i : nat) (r : bytes) :
  Forall (fun g => 0 <= g < 2 ^ 16) l -> (length l <= left)%nat ->
  groups_end r -> 46 ∉ r ->
  read_groups left i (gtext i l ++ r) = (l, false, r).
Proof.
  intros Hl. revert left i. induction Hl as [|x l Hx Hl IH]; intros left i Hlen Hr Hdot.
  - by apply read_groups_end.
  - destruct left as [|left]; [simpl in Hlen; lia|].
    rewrite (read_groups_S left i _ (gtext (S i) l ++ r) x).
    + rewrite IH; [done|simpl in Hlen; lia|done|done].
    + apply not_elem_of_app. split; [|done]. apply gtext_nodot. by constructor.
    + by apply read_separator_gtext.
Qed.

(** The zero span is a run of zeros of the list. *)
Definition span_of (all : list Z) (s : nat * nat) : Prop :=
  (s.1 + s.2 <= length all)%nat /\ take s.1 all ++ replicate s.2 0 ++ drop (s.1 + s.2) all = all.

Lemma zero_span_spec (all pre l : list Z) (cur longest : nat * nat) :
  all = pre ++ l ->
  span_of all longest ->
  ((0 < cur.2)%nat -> span_of all cur /\ (cur.1 + cur.2 = length pre)%nat) ->
  span_of all (zero_span l (length pre) cur longest).
Proof.
  revert pre cur longest. induction l as [|x l IH]; intros pre cur longest Hall Hlong Hcur; [done|].
  assert (Hall' : all = (pre ++ [x]) ++ l) by (by rewrite <- app_assoc).
  assert (Hlen : length (pre ++ [x]) = S (length pre)) by len.
  destruct (decide (x = 0)) as [->|Hx].
  - simpl. rewrite <- Hlen. set (start := if (cur.2 =? 0)%nat then length pre else cur.1).
    assert (Hnew : span_of all (start, S cur.2) /\ (start + S cur.2 = length (pre ++ [0]%Z))%nat).
    { subst start. destruct (cur.2 =? 0)%nat eqn:E; bools.
      - rewrite E. split; [|simpl fst in *; simpl snd in *; lia]. split; [rewrite Hall; cbn [fst snd]; len|]. simpl fst; simpl snd.
        rewrite Hall at 1. rewrite take_app_length. rewrite Hall' at 1.
        replace (length pre + 1)%nat with (length (pre ++ [0]%Z)) by len.
        rewrite drop_app_length. by rewrite Hall.
      - destruct Hcur as [[Hc1 Hc2] Hc3]; [lia|]. split; [|simpl fst in *; simpl snd in *; lia].
        split; [rewrite Hall; cbn [fst snd]; len|]. simpl fst; simpl snd.
        rewrite <- Hc2 at 3. f_equal. rewrite replicate_S_end, <- app_assoc. f_equal.
        replace (cur.1 + S cur.2)%nat with (S (length pre)) by lia.
        rewrite Hc3. rewrite Hall at 2. rewrite drop_app_length.
        rewrite Hall' at 1. rewrite <- Hlen, drop_app_length. done. }
    apply IH; [done| |by intros _].
    destruct (longest.2 <? S cur.2)%nat; [apply Hnew|done].
  - assert (zero_span (x :: l) (length pre) cur longest
      = zero_span l (S (length pre)) (0, 0)%nat longest) as -> by (by destruct x).
    rewrite <- Hlen. apply IH; [done|done|simpl; lia].
Qed.

Lemma segments_ok (a : Z) : Forall (fun g => 0 <= g < 2 ^ 16) (segments a).
Proof.
  unfold segments. apply Forall_fmap, Forall_forall. intros i _. simpl. unfold segment.
  apply Z.mod_pos_bound. lia.
Qed.

Lemma of_segments_segments (a : Z) : 0 <= a < 2 ^ 128 -> of_segments (segments a) = a.
Proof.
  intros Ha. unfold of_segments, segments, segment. simpl seq. simpl map. simpl fold_left.
  change (2 ^ (16 * (7 - Z.of_nat 0))) with (2 ^ 112).
  change (2 ^ (16 * (7 - Z.of_nat 1))) with (2 ^ 96).
  change (2 ^ (16 * (7 - Z.of_nat 2))) with (2 ^ 80).
  change (2 ^ (16 * (7 - Z.of_nat 3))) with (2 ^ 64).
  change (2 ^ (16 * (7 - Z.of_nat 4))) with (2 ^ 48).
  change (2 ^ (16 * (7 - Z.of_nat 5))) with (2 ^ 32).
  change (2 ^ (16 * (7 - Z.of_nat 6))) with (2 ^ 16).
  change (2 ^ (16 * (7 - Z.of_nat 7))) with 1.
  Z.to_euclidean_division_equations. lia.
Qed.

Lemma parse_show_ipv4 (a : Z) : 0 <= a < 2 ^ 32 -> parse_ip (show_ipv4 a) = Some (V4 a).
Proof.
  intros Ha. unfold parse_ip. rewrite <- (app_nil_r (show_ipv4 a)).
  by rewrite read_ipv4_show.
Qed.

Lemma Forall_segments_take (a : Z) (n : nat) :
  Forall (fun g => 0 <= g < 2 ^ 16) (take n (segments a)).
Proof. apply Forall_take, segments_ok. Qed.

Lemma Forall_segments_drop (a : Z) (n : nat) :
  Forall (fun g => 0 <= g < 2 ^ 16) (drop n (segments a)).
Proof. apply Forall_drop, segments_ok. Qed.

Lemma read_ipv6_compressed (h t : list Z) :
  Forall (fun g => 0 <= g < 2 ^ 16) h -> Forall (fun g => 0 <= g < 2 ^ 16) t ->
  (length h + length t + 1 <= 8)%nat ->
  read_ipv6_addr (fmt_subslice h ++ lit "::" ++ fmt_subslice t)
  = Some (of_segments (h ++ replicate (8 - length h - length t) 0 ++ t), []).
Proof.
  intros Hh Ht Hlen. unfold read_ipv6_addr. rewrite !fmt_subslice_gtext.
  change (lit "::" ++ gtext 0 t) with (58 :: 58 :: gtext 0 t).
  rewrite read_groups_gtext; [|done|lia|right; eauto|
    rewrite !not_elem_of_cons; by split; [|split; [|apply gtext_nodot]]].
  replace (length h =? 8)%nat with false by (symmetry; apply Nat.eqb_neq; lia).
  rewrite read_given_char_cons. cbn [mbind option_bind].
  rewrite read_given_char_cons. cbn [mbind option_bind].
  rewrite <- (app_nil_r (gtext 0 t)).
  by rewrite read_groups_gtext; [|done|lia|left|apply not_elem_of_nil].
Qed.

Lemma read_ipv6_full (h : list Z) :
  Forall (fun g => 0 <= g < 2 ^ 16) h -> length h = 8%nat ->
  read_ipv6_addr (fmt_subslice h) = Some (of_segments h, []).
Proof.
  intros Hh Hlen. unfold read_ipv6_addr. rewrite fmt_subslice_gtext.
  rewrite <- (app_nil_r (gtext 0 h)).
  rewrite read_groups_gtext; [|done|lia|by left|apply not_elem_of_nil].
  by rewrite Hlen.
Qed.

Lemma read_ipv6_mapped (v : Z) :
  0 <= v < 2 ^ 32 ->
  read_ipv6_addr (lit "::ffff:" ++ show_ipv4 v) = Some (65535 * 2 ^ 32 + v, []).
Proof.
  intros Hv. unfold read_ipv6_addr.
  change (lit "::ffff:" ++ show_ipv4 v) with (58 :: 58 :: lit "ffff:" ++ show_ipv4 v).
  rewrite (read_groups_end 8 0) by (right; eauto).
  cbn [length Nat.eqb]. rewrite read_given_char_cons. cbn [mbind option_bind].
  rewrite read_given_char_cons. cbn [mbind option_bind].
  assert (H0 : forall l i, read_groups (S (S l)) (S i) (58 :: show_ipv4 v)
                = ([v / 2 ^ 16; v mod 2 ^ 16], true, [])).
  { intros l i. cbn [read_groups read_separator]. rewrite read_given_char_cons.
    rewrite <- (app_nil_r (show_ipv4 v)). by rewrite read_ipv4_show. }
  change (read_groups (8 - (0 + 1)) 0 (lit "ffff:" ++ show_ipv4 v)) with
    (let '(gs, e, r) := read_groups 6 1 (58 :: show_ipv4 v) in (65535 :: gs, e, r)).
  rewrite H0. f_equal. f_equal. unfold of_segments.
  cbn [length Nat.sub replicate app fold_left].
  Z.to_euclidean_division_equations. lia.
Qed.

Lemma show_ipv6_nodot (a : Z) : to_ipv4_mapped a = None -> 46 ∉ show_ipv6 a.
Proof.
  intros H. unfold show_ipv6. rewrite H. destruct (zero_span _ _ _ _) as [s n].
  assert (46 ∉ lit "::") by (by apply (bool_decide_unpack _)).
  destruct (1 <? n)%nat; rewrite ?fmt_subslice_gtext, ?not_elem_of_app;
    repeat split; auto using gtext_nodot, segments_ok, Forall_segments_take, Forall_segments_drop.
Qed.

Lemma parse_show_ipv6 (a : Z) : 0 <= a < 2 ^ 128 -> parse_ip (show_ipv6 a) = Some (V6 a).
Proof.
  intros Ha. unfold parse_ip. destruct (to_ipv4_mapped a) as [v|] eqn:M.
  - unfold show_ipv6. rewrite M. unfold to_ipv4_mapped in M.
    destruct (_ =? _) eqn:E in M; [|done]. bools. invc M.
    change (read_ipv4_addr (lit "::ffff:" ++ show_ipv4 (a mod 2 ^ 32))) with (@None (Z * bytes)).
    cbv iota. rewrite read_ipv6_mapped by (apply Z.mod_pos_bound; lia).
    f_equal. f_equal. Z.to_euclidean_division_equations. lia.
  - rewrite read_ipv4_nodot by (by apply show_ipv6_nodot).
    unfold show_ipv6. rewrite M.
    pose proof (zero_span_spec (segments a) [] (segments a) (0, 0)%nat (0, 0)%nat eq_refl
      ltac:(split; [simpl; lia|done]) ltac:(simpl; lia)) as [H1 H2].
    simpl length in H1, H2. destruct (zero_span _ _ _ _) as [s n]. cbn [fst snd] in *.
    assert (Hl : length (segments a) = 8%nat) by done.
    destruct (1 <? n)%nat eqn:E; bools.
    + rewrite read_ipv6_compressed;
        [|apply Forall_segments_take|apply Forall_segments_drop|len].
      rewrite length_take, length_drop, Hl.
      replace (8 - s `min` 8 - (8 - (s + n)))%nat with n by lia.
      by rewrite H2, of_segments_segments.
    + rewrite read_ipv6_full by (done || apply segments_ok).
      by rewrite of_segments_segments.
Qed.

Lemma parse_show_ip (i : IpAddr) : ip_ok i -> parse_ip (show_ip i) = Some i.
Proof. destruct i; [apply parse_show_ipv4|apply parse_show_ipv6]. Qed.

Lemma strip_brackets_bracketed (s : bytes) : strip_brackets (lit "[" ++ s ++ lit "]") = s.
Proof.
  unfold strip_brackets.
  rewrite (proj2 (strip_prefix_spec _ _ (s ++ lit "]")) eq_refl).
  by rewrite (proj2 (strip_suffix_spec (lit "]") (s ++ lit "]") s) eq_refl).
Qed.

(** Brackets are stripped only from a text that starts with one. *)
Lemma strip_brackets_id (s : bytes) : starts_with (lit "[") s = false -> strip_brackets s = s.
Proof. unfold starts_with, strip_brackets. by destruct (strip_prefix _ _). Qed.

Lemma show_ipv4_head (a : Z) : starts_with (lit "[") (show_ipv4 a) = false.
Proof.
  unfold show_ipv4. pose proof (be_bytes_ok 4 a) as Hok.
  destruct (be_bytes 4 a) as [|w [|x [|y [|z [|]]]]] eqn:E; try done.
  simpl map. cbv iota. unfold bytes_ok in Hok. rewrite Forall_cons in Hok.
  destruct Hok as [Hw _]. unfold byte_ok in Hw.
  destruct (show_uint_digits w ltac:(lia)) as [H1 H2].
  destruct (show_uint w) as [|d ds]; [done|]. rewrite Forall_cons in H2.
  unfold starts_with. simpl. destruct H2 as [H2 _].
  destruct d as [|d|d]; try done.
  repeat (destruct d as [d|d|]; try done).
Qed.

Lemma strip_brackets_ipv4 (a : Z) : strip_brackets (show_ipv4 a) = show_ipv4 a.
Proof. apply strip_brackets_id, show_ipv4_head. Qed.

(** Splitting [host:port] at the last colon. *)
Lemma rsplit_port (h : bytes) (p : Z) :
  port_ok p -> rsplit_once 58 (h ++ 58 :: show_uint p) = Some (h, show_uint p).
Proof.
  intros Hp. unfold port_ok in Hp. apply rsplit_once_app.
  apply show_uint_not_elem; [lia|done].
Qed.

Lemma into_address_split (h : bytes) (p : Z) :
  port_ok p -> into_address (h ++ 58 :: show_uint p) = Ok (host_to_address h p).
Proof.
  intros Hp. unfold into_address. rewrite rsplit_port by done.
  unfold port_ok in Hp. by rewrite parse_show_uint by lia.
Qed.

Lemma into_address_show_lemma (a : Address) :
  addr_ok a -> into_address (show_address a) = Ok (to_normalized a).
Proof.
  destruct a as [[[v|v] p]|d p]; intros H; unfold show_address, show_sa; cbn [sa_ip sa_port].
  - destruct H as [Hi Hp]. rewrite into_address_split by done.
    unfold host_to_address. by rewrite strip_brackets_ipv4, parse_show_ipv4.
  - destruct H as [Hi Hp]. rewrite !app_assoc, into_address_split by done.
    unfold host_to_address. by rewrite <- app_assoc, strip_brackets_bracketed, parse_show_ipv6.
  - destruct H as [_ Hp]. rewrite into_address_split by done.
    unfold host_to_address, to_normalized, normalize. by case_match.
Qed.

Lemma into_address_split_nil (a : Address) : show_address a <> [].
Proof.
  destruct a as [[[v|v] p]|d p]; unfold show_address, show_sa; cbn [sa_ip];
    intros H; apply (f_equal length) in H; rewrite ?length_app in H; simpl in H; lia.
Qed.

End AddrLemmas.
Export AddrLemmas.

(** ** Properties *)

(** printing an address and parsing it again yields its normal form:
    every IPv4 and IPv6 socket address (with [::] compression, brackets and
    IPv4-mapped forms) comes back unchanged, and a domain comes back as the
    IP address it spells, if it spells one, and unchanged otherwise. *)
Theorem into_address_show (a : Address) :
  addr_ok a -> into_address (show_address a) = Ok (to_normalized a).
Proof. apply into_address_show_lemma. Qed.

Lemma into_address_show_witness :
  addr_ok (ASocket (mkSocketAddr (V6 42540766411282592856903984951653826561) 443)) /\
  into_address (lit "[2001:db8::1]:443") =
    Ok (ASocket (mkSocketAddr (V6 42540766411282592856903984951653826561) 443)).
Proof.
  assert (H : addr_ok (ASocket (mkSocketAddr (V6 42540766411282592856903984951653826561) 443))).
  { split; simpl; unfold port_ok; lia. }
  split; [exact H|]. exact (into_address_show _ H).
Defined.

(** normalisation is idempotent, the two normalising functions agree, and
    they decide [to_socket_addr]: an address converts to a socket address
    exactly when its normal form is one, and resolution calls the resolver
    only otherwise. *)
Theorem normalized_spec (a : Address) (f : bytes -> Z -> res (list SocketAddr)) :
  to_normalized (to_normalized a) = to_normalized a /\
  into_normalized a = to_normalized a /\
  (forall s, to_socket_addr a = Ok s <-> to_normalized a = ASocket s) /\
  resolve f a = match to_normalized a with ASocket s => Ok [s] | ADomain d p => f d p end.
Proof.
  unfold into_normalized, to_normalized, to_socket_addr, resolve, normalize.
  destruct a as [s|d p].
  - repeat split; congruence.
  - destruct (parse_ip (strip_brackets d)) as [ip|] eqn:E; repeat split; try congruence.
    by rewrite E.
Qed.
