(* ===== verification/ConnContext.v ===== *)
(** * JSON values, string vectors and connection contexts
    ([rd-interface/src/config/compact_vec_string.rs], [config.rs], [context.rs])

    [serde_json::Value], the packed string vector that paths and net lists
    are kept in, and the [Context] that travels with a connection. *)

From S2P Require Import Prelude.

Module ConnContext.

(** [serde_json::Value]; an object is its list of entries. *)
Inductive Value : Type :=
| VNull
| VBool (b : bool)
| VNum (z : Z)
| VStr (s : bytes)
| VArr (l : list Value)
| VObj (l : list (bytes * Value)).

(** Its number of nodes. *)
Fixpoint vsize (v : Value) : nat :=
  match v with
  | VArr l => S (fold_right (fun v n => vsize v + n)%nat 0%nat l)
  | VObj l => S (fold_right (fun kv n => vsize kv.2 + n)%nat 0%nat l)
  | _ => 1
  end.

Lemma vsize_pos v : (0 < vsize v)%nat.
Proof. destruct v; cbn; lia. Qed.

(** ** [CompactVecString] *)

(* src/rd-interface/src/config/compact_vec_string.rs:12-16 CompactVecString *)
Record CompactVecString : Type := mkCvs { underlying : bytes; index : list nat }.

(* src/rd-interface/src/config/compact_vec_string.rs:25-30 CompactVecString::new *)
Definition cvs_new : CompactVecString := mkCvs [] [].

(* src/rd-interface/src/config/compact_vec_string.rs:37-41 CompactVecString::push *)
Definition cvs_push (c : CompactVecString) (s : bytes) : CompactVecString :=
  mkCvs (underlying c ++ s) (index c ++ [length (underlying c)]).

(* src/rd-interface/src/config/compact_vec_string.rs:42-46 CompactVecString::pop *)
Definition cvs_pop (c : CompactVecString) : CompactVecString :=
  match last (index c) with
  | Some i => mkCvs (firstn i (underlying c)) (removelast (index c))
  | None => c
  end.

(* src/rd-interface/src/config/compact_vec_string.rs:57-59 CompactVecString::len *)
Definition cvs_len (c : CompactVecString) : nat := length (index c).

(* src/rd-interface/src/config/compact_vec_string.rs:60-62 CompactVecString::is_empty *)
Definition cvs_is_empty (c : CompactVecString) : bool := match index c with [] => true | _ => false end.

(* src/rd-interface/src/config/compact_vec_string.rs:66-77 CompactVecString::get *)
Definition cvs_get (c : CompactVecString) (i : nat) : option bytes :=
  match index c !! i with
  | None => None
  | Some start =>
    let stop := match index c !! S i with Some e => e | None => length (underlying c) end in
    Some (firstn (stop - start) (skipn start (underlying c)))
  end.

(** [Iter::next], run to its end: [fuel] is the length. *)
(* src/rd-interface/src/config/compact_vec_string.rs:125-138 Iter::next *)
Fixpoint cvs_iter_from (c : CompactVecString) (i fuel : nat) : list bytes :=
  match fuel with
  | O => []
  | S fuel =>
    match cvs_get c i with
    | Some s => s :: cvs_iter_from c (S i) fuel
    | None => []
    end
  end.

(* src/rd-interface/src/config/compact_vec_string.rs:51-56 CompactVecString::iter *)
Definition cvs_iter (c : CompactVecString) : list bytes := cvs_iter_from c 0 (S (cvs_len c)).

(** [\[S\]::join]. *)
Fixpoint join (sep : bytes) (l : list bytes) : bytes :=
  match l with
  | [] => []
  | [s] => s
  | s :: l => s ++ sep ++ join sep l
  end.

(* src/rd-interface/src/config/compact_vec_string.rs:63-65 CompactVecString::join *)
Definition cvs_join (sep : bytes) (c : CompactVecString) : bytes := join sep (cvs_iter c).

(* src/rd-interface/src/config/compact_vec_string.rs:88-94 CompactVecString::extend *)
Definition cvs_extend (c : CompactVecString) (l : list bytes) : CompactVecString := fold_left cvs_push l c.

(* src/rd-interface/src/config/compact_vec_string.rs:106-114 CompactVecString::from_iter *)
Definition cvs_from_iter (l : list bytes) : CompactVecString := fold_left cvs_push l cvs_new.

(* src/rd-interface/src/config/compact_vec_string.rs:140-152 CompactVecString::serialize *)
Definition cvs_serialize (c : CompactVecString) : Value :=
  match (if (cvs_len c =? 1)%nat then cvs_get c 0 else None) with
  | Some s => VStr s
  | None => VArr (map VStr (cvs_iter c))
  end.

Fixpoint strings_of (l : list Value) : res (list bytes) :=
  match l with
  | [] => Ok []
  | VStr s :: l => match strings_of l with Ok r => Ok (s :: r) | Err e => Err e end
  | _ :: _ => Err (EOther "invalid type")
  end.

(* src/rd-interface/src/config/compact_vec_string.rs:154-197 CompactVecString::deserialize *)
Definition cvs_deserialize (v : Value) : res CompactVecString :=
  match v with
  | VStr s => Ok (cvs_push cvs_new s)
  | VArr l => match strings_of l with Ok l => Ok (fold_left cvs_push l cvs_new) | Err e => Err e end
  | _ => Err (EOther "invalid type")
  end.

(** *** Refinement of the list of strings *)

Fixpoint offsets (n : nat) (l : list bytes) : list nat :=
  match l with [] => [] | s :: l => n :: offsets (n + length s) l end.

(** The representation of a list. *)
Definition cvs_of (l : list bytes) : CompactVecString := mkCvs (concat l) (offsets 0 l).

Lemma offsets_length l : forall n, length (offsets n l) = length l.
Proof. induction l; cbn; auto. Qed.

Lemma offsets_snoc l s : forall n, offsets n (l ++ [s]) = offsets n l ++ [(n + length (concat l))%nat].
Proof.
  induction l as [|x l IH]; intros n; cbn; [by rewrite Nat.add_0_r|].
  rewrite IH, length_app. by rewrite Nat.add_assoc.
Qed.

Lemma cvs_push_of l s : cvs_push (cvs_of l) s = cvs_of (l ++ [s]).
Proof. unfold cvs_push, cvs_of. cbn. rewrite offsets_snoc, concat_app. cbn. by rewrite app_nil_r. Qed.

Lemma cvs_pop_of l : cvs_pop (cvs_of l) = cvs_of (removelast l).
Proof.
  destruct (decide (l = [])) as [->|Hne]; [done|].
  rewrite (app_removelast_last [] Hne) at 1. set (l' := removelast l). unfold cvs_pop. cbn.
  rewrite offsets_snoc, last_snoc, removelast_last, concat_app. cbn.
  rewrite firstn_app, Nat.sub_diag, firstn_all. cbn. by rewrite app_nil_r.
Qed.

Lemma cvs_extend_of l l' : cvs_extend (cvs_of l) l' = cvs_of (l ++ l').
Proof.
  revert l. induction l' as [|s l' IH]; intros l; cbn; [by rewrite app_nil_r|].
  rewrite cvs_push_of. change (cvs_extend (cvs_of (l ++ [s])) l' = cvs_of (l ++ s :: l')).
  rewrite IH, <- app_assoc. done.
Qed.

Lemma cvs_from_iter_of l : cvs_from_iter l = cvs_of l.
Proof. apply (cvs_extend_of [] l). Qed.

Lemma offsets_lookup l i : forall n,
  offsets n l !! i = (if (i <? length l)%nat then Some (n + length (concat (firstn i l)))%nat else None).
Proof.
  revert i. induction l as [|s l IH]; intros [|i] n; cbn -[Nat.ltb]; [done..| by rewrite Nat.add_0_r |].
  rewrite IH. destruct (Nat.ltb_spec i (length l)); destruct (Nat.ltb_spec (S i) (S (length l))); try lia; [|done].
  rewrite length_app. f_equal. lia.
Qed.

Lemma concat_split (l : list bytes) i s : l !! i = Some s ->
  concat l = concat (firstn i l) ++ s ++ concat (skipn (S i) l) /\
  length (concat (firstn (S i) l)) = (length (concat (firstn i l)) + length s)%nat.
Proof.
  intros H. pose proof (take_drop_middle l i s H) as E.
  split.
  - rewrite <- E at 1. rewrite concat_app. done.
  - erewrite take_S_r by eassumption. rewrite concat_app, length_app. cbn. by rewrite app_nil_r.
Qed.

Lemma cvs_get_of l i : cvs_get (cvs_of l) i = l !! i.
Proof.
  unfold cvs_get, cvs_of. cbn [index underlying]. rewrite !offsets_lookup. cbn [Nat.add].
  destruct (Nat.ltb_spec i (length l)) as [Hi|Hi]; [|by rewrite lookup_ge_None_2].
  destruct (lookup_lt_is_Some_2 l i Hi) as [s Hs]. destruct (concat_split l i s Hs) as [Hc Hl].
  assert (Hstop : match (if (S i <? length l)%nat then Some (length (concat (firstn (S i) l))) else None) with
      | Some e => e | None => length (concat l) end = (length (concat (firstn i l)) + length s)%nat).
  { destruct (Nat.ltb_spec (S i) (length l)); [exact Hl|].
    rewrite <- Hl, firstn_all2 by lia. done. }
  rewrite Hstop, Hs, Hc, drop_app_length. f_equal.
  rewrite Nat.add_comm, Nat.add_sub. apply take_app_length.
Qed.

Lemma cvs_iter_of l : cvs_iter (cvs_of l) = l.
Proof.
  unfold cvs_iter, cvs_len. cbn [cvs_of index]. rewrite offsets_length.
  assert (H : forall k i, (length l - i < k)%nat -> cvs_iter_from (cvs_of l) i k = skipn i l).
  { induction k as [|k IH]; intros i Hk; [lia|]. cbn [cvs_iter_from]. rewrite cvs_get_of.
    destruct (l !! i) as [s|] eqn:E.
    - pose proof (lookup_lt_Some _ _ _ E). rewrite IH by lia. by rewrite (drop_S _ _ _ E).
    - apply lookup_ge_None_1 in E. by rewrite skipn_all2. }
  apply (H (S (length l)) 0%nat). lia.
Qed.

Lemma strings_of_map l : strings_of (map VStr l) = Ok l.
Proof. induction l as [|s l IH]; cbn; [done | by rewrite IH]. Qed.

Lemma cvs_serde l : cvs_deserialize (cvs_serialize (cvs_of l)) = Ok (cvs_of l).
Proof.
  unfold cvs_serialize, cvs_len. cbn [cvs_of index]. rewrite offsets_length, cvs_get_of, cvs_iter_of.
  assert (H : cvs_deserialize (VArr (map VStr l)) = Ok (cvs_of l)).
  { cbn. rewrite strings_of_map. f_equal. apply cvs_from_iter_of. }
  destruct (Nat.eqb_spec (length l) 1) as [E|E]; [|exact H].
  destruct l as [|s [|]]; try discriminate. unfold cvs_of. cbn. by rewrite !app_nil_r.
Qed.

Inductive CvsOp : Type := OpPush (s : bytes) | OpPop.
Definition run_cvs (c : CompactVecString) (o : CvsOp) : CompactVecString :=
  match o with OpPush s => cvs_push c s | OpPop => cvs_pop c end.
Definition run_list (l : list bytes) (o : CvsOp) : list bytes :=
  match o with OpPush s => l ++ [s] | OpPop => removelast l end.

(** [CompactVecString] refines a list of strings: after any pushes and
    pops it has the length, elements, iteration order, join and emptiness of
    the list the same pushes and pops give, popping an empty one does
    nothing, and what it serialises to deserialises to itself (one string is
    written bare, any other number as an array). *)
Theorem cvs_refines_list (ops : list CvsOp) :
  let c := fold_left run_cvs ops cvs_new in
  let l := fold_left run_list ops [] in
  cvs_len c = length l /\ cvs_is_empty c = bool_decide (l = []) /\
  (forall i, cvs_get c i = l !! i) /\ cvs_iter c = l /\
  (forall sep, cvs_join sep c = join sep l) /\
  cvs_deserialize (cvs_serialize c) = Ok c.
Proof.
  intros c l. assert (H : c = cvs_of l).
  { unfold c, l. change cvs_new with (cvs_of []). generalize (@nil bytes).
    induction ops as [|[s|] ops IH]; intros acc; cbn; [done| |].
    - rewrite cvs_push_of. apply IH.
    - rewrite cvs_pop_of. apply IH. }
  rewrite H. split; [apply offsets_length|]. split.
  { destruct l; done. }
  split; [apply cvs_get_of|]. split; [apply cvs_iter_of|].
  split; [intros sep; unfold cvs_join; by rewrite cvs_iter_of | apply cvs_serde].
Qed.

(** The path of a visited field. *)
(* src/rd-interface/src/config.rs:64-84 VisitorContext *)
Definition VisitorContext : Type := CompactVecString.

(** ** [Context] *)

(* src/rd-interface/src/context.rs:28-32 Context *)
Record Context : Type := mkContext { data : gmap bytes Value; net_list : CompactVecString }.

(* src/rd-interface/src/context.rs:67-72 Context::new *)
Definition ctx_new : Context := mkContext ∅ cvs_new.

(* src/rd-interface/src/context.rs:99-101 Context::insert_value *)
Definition insert_value (c : Context) (key : bytes) (v : Value) : Context :=
  mkContext (<[key := v]> (data c)) (net_list c).

(* src/rd-interface/src/context.rs:86-89 Context::remove *)
Definition ctx_remove (c : Context) (key : bytes) : res Context :=
  match data c !! key with
  | Some _ => Ok (mkContext (delete key (data c)) (net_list c))
  | None => Err ENonExist
  end.

(* src/rd-interface/src/context.rs:103-106 Context::remove_value *)
Definition remove_value (c : Context) (key : bytes) : res Context :=
  Ok (mkContext (delete key (data c)) (net_list c)).

(* src/rd-interface/src/context.rs:108-113 Context::get_value *)
Definition get_value (c : Context) (key : bytes) : res Value :=
  match data c !! key with Some v => Ok v | None => Err ENonExist end.

(** [T::KEY] and the serde of [T]. *)
(* src/rd-interface/src/context.rs:22-24 CommonField *)
Class CommonField (T : Type) : Type := {
  KEY : bytes;
  field_to_value : T -> Value;
  field_from_value : Value -> res T }.

(* src/rd-interface/src/context.rs:115-117 Context::insert_common *)
Definition insert_common {T} `{CommonField T} (c : Context) (x : T) : Context :=
  insert_value c KEY (field_to_value x).

(* src/rd-interface/src/context.rs:119-121 Context::get_common *)
Definition get_common {T} `{CommonField T} (c : Context) : res (option T) :=
  match data c !! KEY with
  | Some v => match field_from_value v with Ok x => Ok (Some x) | Err e => Err e end
  | None => Ok None
  end.

(* src/rd-interface/src/context.rs:123-125 Context::append_net *)
Definition append_net (c : Context) (name : bytes) : Context := mkContext (data c) (cvs_push (net_list c) name).

(* src/rd-interface/src/context.rs:131-133 Context::take_net_list *)
Definition take_net_list (c : Context) : Context * CompactVecString := (mkContext (data c) cvs_new, net_list c).

(* src/rd-interface/src/context.rs:135-142 Context::to_value *)
Definition ctx_to_value (c : Context) : Value :=
  VObj (map_to_list (<[lit "net_list" := cvs_serialize (net_list c)]> (data c))).

(* src/rd-interface/src/context.rs:144-155 Context::from_value *)
Definition ctx_from_value (v : Value) : res Context :=
  match v with
  | VObj l =>
    let m : gmap bytes Value := list_to_map l in
    match m !! lit "net_list" with
    | Some nl =>
      match cvs_deserialize nl with
      | Ok nl => Ok (mkContext (delete (lit "net_list") m) nl)
      | Err e => Err e
      end
    | None => Ok (mkContext m cvs_new)
    end
  | _ => Err (EOther "Bad format")
  end.

(** A context survives its trip through JSON: whatever values it holds
    and nets it has passed, [from_value] reads back what [to_value] wrote,
    provided no value sits under the key [net_list], which [to_value] uses
    for itself; and if one does, it is the one thing lost. *)
Theorem context_value_roundtrip (d : gmap bytes Value) (nets : list bytes) :
  ctx_from_value (ctx_to_value (mkContext d (cvs_from_iter nets))) =
  Ok (mkContext (delete (lit "net_list") d) (cvs_from_iter nets)).
Proof.
  unfold ctx_from_value, ctx_to_value. rewrite list_to_map_to_list. cbn [net_list data].
  rewrite lookup_insert_eq, cvs_from_iter_of, cvs_serde. by rewrite delete_insert_eq.
Qed.

End ConnContext.
Export ConnContext.
