(* ===== verification/Hysteria.v ===== *)
(** * Hysteria 2 wire formats: [protocol/hysteria/src/codec.rs],
    [salamander.rs], and the TCP handshake of [client.rs] and [server.rs].

    BLAKE2b is a parameter ([blake2b key salt], 32 bytes); the random salt and
    padding are arguments. *)

From S2P Require Import Prelude Text Address.

Module HyCodec.

(** ** Definitions *)

(* src/protocol/hysteria/src/codec.rs:4-4 HY2_TCP_REQUEST *)
Definition HY2_TCP_REQUEST : Z := 1025.

(* src/protocol/hysteria/src/codec.rs:6-16 varint_len *)
Definition varint_len (x : Z) : nat :=
  if x <? 2 ^ 6 then 1
  else if x <? 2 ^ 14 then 2
  else if x <? 2 ^ 30 then 4
  else 8.

(* src/protocol/hysteria/src/codec.rs:18-34 write_varint *)
Definition write_varint (x : Z) : bytes :=
  if x <? 2 ^ 6 then [x mod 2 ^ 8]
  else if x <? 2 ^ 14 then be_bytes 2 (Z.lor x (Z.shiftl 1 14))
  else if x <? 2 ^ 30 then be_bytes 4 (Z.lor x (Z.shiftl 2 30))
  else be_bytes 8 (Z.lor x (Z.shiftl 3 62)).

(* src/protocol/hysteria/src/codec.rs:36-69 decode_varint *)
Definition decode_varint (input : bytes) : option (Z * nat) :=
  match input with
  | [] => None
  | first :: rest =>
    let tag := Z.shiftr first 6 in
    let b0 := Z.land first 63 in
    if tag =? 0 then Some (b0, 1%nat)
    else if tag =? 1 then
      if (length input <? 2)%nat then None else Some (be_val (b0 :: take 1 rest), 2%nat)
    else if tag =? 2 then
      if (length input <? 4)%nat then None else Some (be_val (b0 :: take 3 rest), 4%nat)
    else if tag =? 3 then
      if (length input <? 8)%nat then None else Some (be_val (b0 :: take 7 rest), 8%nat)
    else None
  end.

(* src/protocol/hysteria/src/codec.rs:97-102 address_to_host_port *)
Definition address_to_host_port (target : Address) : bytes :=
  match target with
  | ASocket sa => show_sa sa
  | ADomain domain port => domain ++ 58 :: show_uint port
  end.

(* src/protocol/hysteria/src/codec.rs:71-79 write_tcp_request_with_padding *)
Definition write_tcp_request_with_padding (target : Address) (padding : bytes) : bytes :=
  let addr := address_to_host_port target in
  write_varint HY2_TCP_REQUEST ++
  write_varint (Z.of_nat (length addr)) ++ addr ++
  write_varint (Z.of_nat (length padding)) ++ padding.

(* src/protocol/hysteria/src/codec.rs:89-95 write_tcp_response *)
Definition write_tcp_response (status : Z) (msg padding : bytes) : bytes :=
  [status] ++ write_varint (Z.of_nat (length msg)) ++ msg ++
  write_varint (Z.of_nat (length padding)) ++ padding.

(* src/protocol/hysteria/src/codec.rs:81-83 write_tcp_response_ok *)
Definition write_tcp_response_ok (padding : bytes) : bytes := write_tcp_response 0 [] padding.

(* src/protocol/hysteria/src/codec.rs:85-87 write_tcp_response_error *)
Definition write_tcp_response_error (msg padding : bytes) : bytes :=
  write_tcp_response 1 msg padding.

(* src/protocol/hysteria/src/codec.rs:104-123 read_quic_varint *)
Definition read_quic_varint : reader Z :=
  first ← rmap_err map_other (read_exact 1);
  let tag := Z.shiftr (default 0 (head first)) 6 in
  let len := if tag =? 0 then 1%nat else if tag =? 1 then 2%nat
             else if tag =? 2 then 4%nat else if tag =? 3 then 8%nat else 1%nat in
  tail ← (if (1 <? len)%nat then rmap_err map_other (read_exact (len - 1)) else mret []);
  '(v, _) ← rlift (ok_or (EOther "hysteria: bad varint") (decode_varint (first ++ tail)));
  mret v.

(** The padding loops of server and client: at most [chunk] bytes are read and
    dropped at a time.  Every round consumes at least one byte or fails, so
    the length of the input, plus one, is enough fuel. *)
Fixpoint discard_loop (fuel : nat) (chunk left : Z) : reader unit := fun i =>
  if left <=? 0 then Ok (tt, i)
  else match fuel with
       | O => Err EUnexpectedEof
       | S fuel =>
         let n := Z.min chunk left in
         (_ ← rmap_err map_other (read_exactZ n); discard_loop fuel chunk (left - n)) i
       end.

(* src/protocol/hysteria/src/server.rs:299-309 hy2_handle_tcp_stream *)
Definition discard_padding (padding_len : Z) : reader unit := fun i =>
  discard_loop (S (length i)) (Z.min padding_len (64 * 1024)) padding_len i.

(** The server's side of the TCP handshake, up to the outbound connection. *)
(* src/protocol/hysteria/src/server.rs:279-311 hy2_handle_tcp_stream *)
Definition hy2_read_tcp_request : reader Address :=
  msg_type ← read_quic_varint;
  _ ← rlift (ensure (msg_type =? HY2_TCP_REQUEST) (EOther "hysteria: unknown stream type"));
  addr_len ← read_quic_varint;
  _ ← rlift (ensure (negb ((addr_len =? 0) || (1024 <? addr_len)))
               (EOther "hysteria: invalid tcp address length"));
  addr_buf ← rmap_err map_other (read_exactZ addr_len);
  _ ← rlift (ensure (utf8_valid addr_buf) (EBoxed EInvalidData));
  padding_len ← read_quic_varint;
  _ ← discard_padding padding_len;
  rlift (into_address addr_buf).

(** What the server writes back and how the handler ends, given the outcome
    of [net.tcp_connect] and the rendering [show_err] of errors; [Ok] means
    that the streams are then connected. *)
(* src/protocol/hysteria/src/server.rs:313-331 hy2_handle_tcp_stream *)
Definition hy2_answer_tcp {S} (show_err : error -> bytes) (outbound : res S) : bytes * res S :=
  match outbound with
  | Ok s => (write_tcp_response_ok [], Ok s)
  | Err e => (write_tcp_response_error (show_err e) [], Err e)
  end.

(* src/protocol/hysteria/src/client.rs:379-424 read_tcp_response *)
Definition read_tcp_response : reader unit :=
  status ← rmap_err map_other read_u8;
  msg_len ← read_quic_varint;
  if 0 <? msg_len then
    msg ← rmap_err map_other (read_exactZ msg_len);
    padding_len ← read_quic_varint;
    _ ← discard_padding padding_len;
    rlift (ensure (status =? 0) (EOther "hysteria tcp error: msg"))
  else
    padding_len ← read_quic_varint;
    _ ← discard_padding padding_len;
    rlift (ensure (status =? 0) (EOther "hysteria tcp error")).

(** ** Salamander *)

Section Salamander.
Variable blake2b : bytes -> bytes -> bytes.

(* src/protocol/hysteria/src/salamander.rs:35-44 derive_key_stream *)
Definition derive_key_stream (salt shared_key : bytes) : bytes := blake2b shared_key salt.

(** [b ^ key_stream[i % key_stream.len()]] from index [i] on. *)
Fixpoint xor_stream (ks : bytes) (i : nat) (p : bytes) : bytes :=
  match p with
  | [] => []
  | b :: t => Z.lxor b (nth (i mod length ks) ks 0) :: xor_stream ks (S i) t
  end.

(* src/protocol/hysteria/src/salamander.rs:7-20 encode_packet *)
Definition encode_packet (salt shared_key payload : bytes) : bytes :=
  salt ++ xor_stream (derive_key_stream salt shared_key) 0 payload.

(** The buffer afterwards ([copy_within] leaves its last bytes in place)
    and the length of the decoded packet. *)
(* src/protocol/hysteria/src/salamander.rs:22-33 decode_in_place *)
Definition decode_in_place (shared_key buf : bytes) : option (nat * bytes) :=
  if (length buf <? 8)%nat then None
  else
    let salt := take 8 buf in
    let payload := xor_stream (derive_key_stream salt shared_key) 0 (drop 8 buf) in
    let buf := salt ++ payload in
    Some ((length buf - 8)%nat, drop 8 buf ++ drop (length buf - 8) buf).

(** One datagram read from the socket into a buffer: the packet handed to
    QUIC, or [None] when the loop reads the next one. *)
(* src/protocol/hysteria/src/transport.rs:90-111 poll_recv *)
Definition transport_recv (salamander_key : option bytes) (datagram : bytes) : option bytes :=
  match salamander_key with
  | Some key =>
    if (length datagram <? 8)%nat then None
    else match decode_in_place key datagram with
         | Some (new_len, buf) => Some (take new_len buf)
         | None => None
         end
  | None => Some datagram
  end.

(* src/protocol/hysteria/src/transport.rs:51-71 try_send *)
Definition transport_send (salamander_key : option bytes) (salt : bytes)
    (segment_size : option Z) (contents : bytes) : res bytes :=
  match segment_size with
  | Some _ => Err EInvalidInput
  | None =>
    match salamander_key with
    | Some key => Ok (encode_packet salt key contents)
    | None => Ok contents
    end
  end.
End Salamander.

(** ** Authentication *)

(** The parts of an HTTP/3 request the server looks at; header values that
    are not visible ASCII are absent ([to_str().ok()]). *)
Record AuthRequest : Type := mkAuthRequest {
  ar_post : bool;
  ar_path : bytes;
  ar_authority : option bytes;
  ar_host : option bytes;
  ar_hysteria_auth : option bytes;
  ar_authorization : option bytes }.

(* src/protocol/hysteria/src/server.rs:202-242 is_auth_request *)
Definition is_auth_request (req : AuthRequest) (auth : bytes) : bool :=
  if negb (ar_post req) then false
  else if negb (bool_decide (ar_path req = lit "/auth")) then false
  else
    let host_ok :=
      match ar_authority req with
      | Some a => eq_ignore_case a (lit "hysteria")
      | None =>
        match ar_host req with
        | Some h => eq_ignore_case h (lit "hysteria")
        | None => false
        end
      end in
    if negb host_ok then false
    else match ar_hysteria_auth req with
         | Some a => bool_decide (a = auth)
         | None =>
           match ar_authorization req with
           | None => false
           | Some a =>
             bool_decide (a = auth) ||
             match strip_prefix (lit "Bearer ") a with
             | Some v => bool_decide (v = auth)
             | None => false
             end
           end
         end.

(** The request loop: the first request that authenticates ends it; the
    answers are the status codes sent. *)
(* src/protocol/hysteria/src/server.rs:183-200 hy2_auth_server *)
Fixpoint hy2_auth_server (auth : bytes) (reqs : list AuthRequest) : list Z * res unit :=
  match reqs with
  | [] => ([], Err (EOther "hysteria: no auth request"))
  | req :: rest =>
    if is_auth_request req auth then ([233], Ok tt)
    else let '(sent, r) := hy2_auth_server auth rest in (404 :: sent, r)
  end.

(** The request the client sends, as the server sees it, and how the client
    reads the answer. *)
(* src/protocol/hysteria/src/client.rs:185-195 hy2_auth *)
Definition hy2_auth_request (auth : bytes) : res AuthRequest :=
  if forallb header_byte auth
  then Ok (mkAuthRequest true (lit "/auth") (Some (lit "hysteria")) None (header_str auth) None)
  else Err (EOther "failed to parse header value").

(* src/protocol/hysteria/src/client.rs:210-223 hy2_auth *)
Definition hy2_auth_response (status : Z) (hysteria_udp : option bytes) : res bool :=
  if negb (status =? 233) then Err (EOther "HY2 auth failed")
  else Ok (match hysteria_udp with
           | Some v => eq_ignore_case v (lit "true")
           | None => false
           end).

(* src/protocol/hysteria/src/client.rs:226-236 resolve_server_name *)
Definition resolve_server_name (server_name : option bytes) (server : Address) : res bytes :=
  match server_name with
  | Some sni => Ok sni
  | None =>
    match server with
    | ADomain host _ => Ok host
    | ASocket _ => Err (EOther "hysteria: server_name is required when server is an IP")
    end
  end.

(* src/protocol/hysteria/src/client.rs:238-248 resolve_server_addr *)
Definition resolve_server_addr (lookup_host : Address -> res (list SocketAddr))
    (server : Address) : res SocketAddr :=
  match server with
  | ASocket sa => Ok sa
  | ADomain _ _ =>
    l ← lookup_host server;
    ok_or (EOther "hysteria: failed to resolve server address") (head l)
  end.

End HyCodec.
Export HyCodec.

(** ** Lemmas *)

Module HyCodecLemmas.

Lemma lor_tag3 (x : Z) :
  0 <= x < 2 ^ 64 -> Z.lor x (Z.shiftl 3 62) = x mod 2 ^ 62 + 3 * 2 ^ 62.
Proof.
  intros Hx. assert (H3 : 0 <= x / 2 ^ 62 < 4)
    by (Z.to_euclidean_division_equations; lia).
  pose proof (Z.mod_pos_bound x (2 ^ 62) ltac:(lia)) as Hm.
  assert (Hs : x = Z.lor (x mod 2 ^ 62) (Z.shiftl (x / 2 ^ 62) 62)).
  { rewrite lor_shiftl_add by lia. pose proof (Z_div_mod_eq_full x (2 ^ 62)). lia. }
  rewrite Hs at 1. rewrite <- Z.lor_assoc, <- Z.shiftl_lor.
  replace (Z.lor (x / 2 ^ 62) 3) with 3.
  - rewrite lor_shiftl_add by lia. done.
  - assert (x / 2 ^ 62 = 0 \/ x / 2 ^ 62 = 1 \/ x / 2 ^ 62 = 2 \/ x / 2 ^ 62 = 3)
      as [-> | [-> | [-> | ->]]] by lia; done.
Qed.

Lemma pow_tag (k : nat) : 2 ^ (8 * Z.of_nat k + 6) = 64 * 256 ^ Z.of_nat k.
Proof. rewrite Z.pow_add_r, Z.pow_mul_r by lia. change (2 ^ 8) with 256. lia. Qed.

(** The first byte of a tagged value carries the tag in its upper bits and
    the top of the value in the others. *)
Lemma tagged_first (k : nat) (t x : Z) :
  0 <= t < 4 -> 0 <= x < 2 ^ (8 * Z.of_nat k + 6) ->
  let v := x + t * 2 ^ (8 * Z.of_nat k + 6) in
  let first := (v / 256 ^ Z.of_nat k) mod 256 in
  Z.shiftr first 6 = t /\ be_val (Z.land first 63 :: be_bytes k v) = x.
Proof.
  intros Ht. cbv zeta. rewrite pow_tag. intros Hx.
  pose proof (pow256_pos k) as Hp. set (P := 256 ^ Z.of_nat k) in *.
  set (first := ((x + t * (64 * P)) / P) mod 256).
  assert (Hf : first = x / P + 64 * t).
  { unfold first. replace (x + t * (64 * P)) with (x + (64 * t) * P) by ring.
    rewrite Z.div_add by lia. apply Z.mod_small.
    assert (0 <= x / P < 64) by (split; [apply Z.div_pos; lia|apply Z.div_lt_upper_bound; lia]). lia. }
  assert (Hq : 0 <= x / P < 64) by (split; [apply Z.div_pos; lia|apply Z.div_lt_upper_bound; lia]).
  split.
  - rewrite Hf, Z.shiftr_div_pow2 by lia. change (2 ^ 6) with 64.
    replace (x / P + 64 * t) with (x / P + t * 64) by ring.
    rewrite Z.div_add, (Z.div_small (x / P)) by lia. lia.
  - change 63 with (Z.ones 6). rewrite Z.land_ones by lia. change (2 ^ 6) with 64.
    cbn [be_val]. rewrite length_be_bytes, be_val_be_bytes_mod. fold P.
    rewrite Hf. replace (x / P + 64 * t) with (x / P + t * 64) by ring.
    rewrite Z.mod_add, (Z.mod_small (x / P)) by lia.
    replace (x + t * (64 * P)) with (x + (t * 64) * P) by ring. rewrite Z.mod_add by lia.
    pose proof (Z_div_mod_eq_full x P). lia.
Qed.

Lemma decode_tagged (k : nat) (t x : Z) (r : bytes) :
  (k = 1 \/ k = 3 \/ k = 7)%nat -> t = (if decide (k = 1)%nat then 1 else if decide (k = 3)%nat then 2 else 3) ->
  0 <= x < 2 ^ (8 * Z.of_nat k + 6) ->
  decode_varint (be_bytes (S k) (x + t * 2 ^ (8 * Z.of_nat k + 6)) ++ r) = Some (x, S k).
Proof.
  intros Hk Ht Hx.
  destruct (tagged_first k t x) as [H1 H2]; [subst t; repeat case_decide; lia|done|].
  cbn [be_bytes]. rewrite <- app_comm_cons. unfold decode_varint. rewrite H1.
  set (first := ((x + t * 2 ^ (8 * Z.of_nat k + 6)) / 256 ^ Z.of_nat k) mod 256).
  set (body := be_bytes k (x + t * 2 ^ (8 * Z.of_nat k + 6))).
  assert (Hb : length body = k) by apply length_be_bytes.
  assert (Hl : forall n, Nat.ltb (length (first :: body ++ r)) n = Nat.ltb (S k + length r) n).
  { intros n. cbn [length]. by rewrite length_app, Hb. }
  rewrite !Hl.
  assert (Ht' : take k (body ++ r) = body) by (rewrite <- Hb at 1; apply take_app_length).
  fold first body in H2.
  clearbody first body. clear Hx H1 Hl.
  destruct Hk as [-> | [-> | ->]]; simpl in Ht; subst t; cbn [Z.eqb Pos.eqb];
    replace (Nat.ltb _ _) with false by (symmetry; apply Nat.ltb_ge; lia);
    rewrite Ht'; by rewrite H2.
Qed.

Lemma decode_write_varint (x : Z) (r : bytes) :
  0 <= x < 2 ^ 64 ->
  decode_varint (write_varint x ++ r) = Some (x mod 2 ^ 62, varint_len x) /\
  length (write_varint x) = varint_len x.
Proof.
  intros Hx. unfold write_varint, varint_len.
  destruct (x <? 2 ^ 6) eqn:E1; bools.
  { rewrite !Z.mod_small by lia. split; [|done]. unfold decode_varint. cbn [app].
    rewrite Z.shiftr_div_pow2, Z.div_small by lia. cbn [Z.eqb].
    change 63 with (Z.ones 6). rewrite Z.land_ones, Z.mod_small by lia. done. }
  destruct (x <? 2 ^ 14) eqn:E2; bools.
  { split; [|apply length_be_bytes]. rewrite lor_shiftl_add, (Z.mod_small x) by lia.
    by apply (decode_tagged 1 1); [lia| |lia]. }
  destruct (x <? 2 ^ 30) eqn:E3; bools.
  { split; [|apply length_be_bytes]. rewrite lor_shiftl_add, (Z.mod_small x) by lia.
    by apply (decode_tagged 3 2); [lia| |lia]. }
  split; [|apply length_be_bytes]. rewrite lor_tag3 by lia.
  apply (decode_tagged 7 3); [lia|done|]. apply Z.mod_pos_bound. lia.
Qed.

Lemma decode_varint_bounds (s : bytes) (v : Z) (n : nat) :
  bytes_ok s -> decode_varint s = Some (v, n) -> 0 <= v < 2 ^ 62 /\ (1 <= n <= length s)%nat.
Proof.
  destruct s as [|b s]; [done|]. intros Hok. apply bytes_ok_cons in Hok as [Hb Hs].
  unfold decode_varint. change 63 with (Z.ones 6). rewrite Z.land_ones by lia.
  pose proof (Z.mod_pos_bound b (2 ^ 6) ltac:(lia)) as Hm.
  assert (Hv : forall k, 0 <= be_val (b mod 2 ^ 6 :: take k s) < 64 * 256 ^ Z.of_nat (length (take k s))).
  { intros k. cbn [be_val]. pose proof (be_val_bound (take k s) (bytes_ok_take _ _ Hs)).
    pose proof (pow256_pos (length (take k s))). nia. }
  assert (Hl : forall k, (k <= 7)%nat -> 256 ^ Z.of_nat (length (take k s)) <= 256 ^ 7)
    by (intros k Hk; apply Z.pow_le_mono_r; [lia|len]).
  intros H. repeat case_match; simplify_eq; bools; split; try (simpl in *; lia);
    (match goal with |- context [take ?k s] =>
       specialize (Hv k); specialize (Hl k ltac:(lia)) end; lia).
Qed.

(** Reading a varint from a stream. *)
Lemma read_write_varint (x : Z) (r : bytes) :
  0 <= x < 2 ^ 62 -> read_quic_varint (write_varint x ++ r) = Ok (x, r).
Proof.
  intros Hx. destruct (decode_write_varint x [] ltac:(lia)) as [Hd Hl].
  rewrite app_nil_r, Z.mod_small in Hd by lia.
  destruct (write_varint x) as [|f t] eqn:E; [done|].
  assert (Hlen : length t = (varint_len x - 1)%nat) by (simpl in Hl; lia).
  unfold read_quic_varint. rewrite bind_reader. unfold rmap_err.
  change ((f :: t) ++ r) with ([f] ++ (t ++ r)).
  rewrite (read_exact_app_n 1) by done. cbn [map_err]. rewrite bind_reader.
  set (n := if Z.shiftr f 6 =? 0 then 1%nat else
    if Z.shiftr f 6 =? 1 then 2%nat else if Z.shiftr f 6 =? 2 then 4%nat
    else if Z.shiftr f 6 =? 3 then 8%nat else 1%nat).
  assert (Hn : n = varint_len x).
  { unfold n. unfold decode_varint in Hd. repeat case_match; simplify_eq; done. }
  cbv zeta. change (default 0 (head [f])) with f. fold n. clearbody n. subst n.
  destruct (1 <? varint_len x)%nat eqn:E1; bools.
  - rewrite (read_exact_app_n _ t) by done. cbn [map_err]. rewrite bind_reader.
    change ([f] ++ t) with (f :: t). unfold rlift. by rewrite Hd.
  - destruct t; [|simpl in Hlen; lia]. cbn [app]. unfold mret at 1, reader_ret. rewrite bind_reader.
    change ([f] ++ []) with [f]. unfold rlift. by rewrite Hd.
Qed.

Lemma discard_loop_app (fuel : nat) (chunk : Z) (p rest : bytes) :
  (length p <= fuel)%nat -> (0 < Z.of_nat (length p) -> 0 < chunk) ->
  discard_loop fuel chunk (Z.of_nat (length p)) (p ++ rest) = Ok (tt, rest).
Proof.
  revert p. induction fuel as [|fuel IH]; intros p Hf Hc; simpl.
  { destruct p; [done|simpl in Hf; lia]. }
  destruct (Z.of_nat (length p) <=? 0) eqn:E; bools.
  { destruct p; [done|simpl in E; lia]. }
  rewrite bind_reader. unfold rmap_err.
  set (n := Z.min chunk (Z.of_nat (length p))). assert (0 < n <= Z.of_nat (length p)) by lia.
  replace (p ++ rest) with (take (Z.to_nat n) p ++ (drop (Z.to_nat n) p ++ rest))
    by (by rewrite app_assoc, take_drop).
  rewrite read_exactZ_app by len. cbn [map_err].
  replace (Z.of_nat (length p) - n) with (Z.of_nat (length (drop (Z.to_nat n) p))) by len.
  apply IH; [len|lia].
Qed.

Lemma discard_padding_app (p rest : bytes) :
  discard_padding (Z.of_nat (length p)) (p ++ rest) = Ok (tt, rest).
Proof. unfold discard_padding. apply discard_loop_app; [len|lia]. Qed.

Lemma address_to_host_port_show (a : Address) : address_to_host_port a = show_address a.
Proof. by destruct a. Qed.

(** ** XOR streams *)

Lemma length_xor_stream (ks : bytes) (i : nat) (p : bytes) :
  length (xor_stream ks i p) = length p.
Proof. revert i. induction p; intros i; simpl; [done|by f_equal]. Qed.

Lemma xor_stream_involutive (ks : bytes) (i : nat) (p : bytes) :
  xor_stream ks i (xor_stream ks i p) = p.
Proof.
  revert i. induction p as [|b p IH]; intros i; simpl; [done|].
  by rewrite Z.lxor_assoc, Z.lxor_nilpotent, Z.lxor_0_r, IH.
Qed.

(** ** The TCP handshake *)

Lemma read_written_request (target : Address) (padding rest : bytes) :
  addr_ok target -> utf8_valid (show_address target) = true ->
  Z.of_nat (length (show_address target)) < 2 ^ 62 -> Z.of_nat (length padding) < 2 ^ 62 ->
  hy2_read_tcp_request (write_tcp_request_with_padding target padding ++ rest) =
    (if (1024 <? length (show_address target))%nat
     then Err (EOther "hysteria: invalid tcp address length")
     else Ok (to_normalized target, rest)).
Proof.
  intros Hok Hutf Hlen Hpad.
  assert (Hne : Z.of_nat (length (show_address target)) <> 0).
  { pose proof (into_address_split_nil target). destruct (show_address target); [done|simpl; lia]. }
  unfold hy2_read_tcp_request, write_tcp_request_with_padding.
  rewrite address_to_host_port_show, <- !app_assoc.
  rstep ltac:(apply read_write_varint; unfold HY2_TCP_REQUEST; lia).
  rstep ltac:(by apply rlift_ensure_true).
  rstep ltac:(apply read_write_varint; lia).
  destruct (1024 <? length (show_address target))%nat eqn:E; bools.
  { apply rbind_err, rlift_ensure_false. apply negb_false_iff, orb_true_iff. right.
    apply Z.ltb_lt. lia. }
  rstep ltac:(apply rlift_ensure_true, negb_true_iff, orb_false_iff;
    split; [by apply Z.eqb_neq|apply Z.ltb_ge; lia]).
  rstep ltac:(by apply read_exactZ_app).
  rstep ltac:(by apply rlift_ensure_true).
  rstep ltac:(apply read_write_varint; lia).
  rstep ltac:(apply discard_padding_app).
  unfold rlift. by rewrite into_address_show_lemma.
Qed.

Lemma read_ok_response (padding rest : bytes) : Z.of_nat (length padding) < 2 ^ 62 ->
  read_tcp_response (write_tcp_response_ok padding ++ rest) = Ok (tt, rest).
Proof.
  intros Hpad. unfold read_tcp_response, write_tcp_response_ok, write_tcp_response.
  rewrite <- !app_assoc. cbn [app].
  rstep ltac:(apply read_u8_cons). rstep ltac:(apply read_write_varint; simpl; lia).
  change (0 <? Z.of_nat (length [])) with false. cbv iota. cbn [app].
  rstep ltac:(apply read_write_varint; lia). by rstep ltac:(apply discard_padding_app).
Qed.

Lemma read_error_response (msg padding rest : bytes) : Z.of_nat (length padding) < 2 ^ 62 -> Z.of_nat (length msg) < 2 ^ 62 ->
  is_ok (read_tcp_response (write_tcp_response_error msg padding ++ rest)) = false.
Proof.
  intros Hpad Hmsg. unfold read_tcp_response, write_tcp_response_error, write_tcp_response.
  rewrite <- !app_assoc. cbn [app].
  rstep ltac:(apply read_u8_cons). rstep ltac:(apply read_write_varint; lia).
  destruct (0 <? Z.of_nat (length msg)) eqn:E; bools.
  - rstep ltac:(by apply read_exactZ_app). rstep ltac:(apply read_write_varint; lia).
    by rstep ltac:(apply discard_padding_app).
  - destruct msg; [|simpl in E; lia]. cbn [app].
    rstep ltac:(apply read_write_varint; lia). by rstep ltac:(apply discard_padding_app).
Qed.

(** ** Authentication *)

Lemma client_request_accepted secret auth r : hy2_auth_request secret = Ok r ->
  is_auth_request r auth = true <-> header_str secret = Some auth.
Proof.
  unfold hy2_auth_request. destruct (forallb header_byte secret); [|done]. intros [= <-].
  unfold is_auth_request. cbn [ar_post ar_path ar_authority ar_hysteria_auth ar_authorization negb].
  rewrite bool_decide_true by done. cbn [negb]. replace (eq_ignore_case (lit "hysteria") (lit "hysteria")) with true by reflexivity. cbn [negb].
  destruct (header_str secret) as [v|]; [rewrite bool_decide_eq_true|]; naive_solver.
Qed.

Lemma header_str_id s v : header_str s = Some v -> v = s.
Proof. unfold header_str. destruct (forallb _ s); congruence. Qed.

End HyCodecLemmas.
Export HyCodecLemmas.

(** ** Properties *)

(** QUIC variable-length integers round trip: every value below 2^62 is
    decoded to itself with the length [varint_len] announced, whatever
    follows, both from a slice and from a stream; a [u64] of 2^62 or more
    loses its two top bits. *)
Theorem varint_roundtrip (x : Z) (r : bytes) :
  0 <= x < 2 ^ 64 ->
  decode_varint (write_varint x ++ r) = Some (x mod 2 ^ 62, varint_len x) /\
  length (write_varint x) = varint_len x /\
  (x < 2 ^ 62 -> x mod 2 ^ 62 = x /\ read_quic_varint (write_varint x ++ r) = Ok (x, r)).
Proof.
  intros Hx. destruct (decode_write_varint x r Hx) as [H1 H2].
  split; [done|split; [done|]]. intros Hs. split; [apply Z.mod_small|apply read_write_varint]; lia.
Qed.

Lemma varint_roundtrip_witness :
  0 <= 1025 < 2 ^ 64 /\ decode_varint (write_varint 1025 ++ [7]) = Some (1025, 2%nat).
Proof.
  split; [lia|].
  exact (proj1 (varint_roundtrip 1025 [7] (conj (Zle_bool_imp_le 0 1025 eq_refl) eq_refl))).
Defined.

(** the TCP handshake of Hysteria 2 round trips.  The server reads from
    a client's request exactly the requested address in normal form, leaves
    the stream at the payload, and rejects an address text longer than 1024
    bytes; the client reads the server's positive answer as success and a
    negative one as an error, each time leaving the stream at the payload. *)
Theorem hy2_tcp_handshake (target : Address) (padding rest msg : bytes) :
  addr_ok target -> utf8_valid (show_address target) = true ->
  Z.of_nat (length (show_address target)) < 2 ^ 62 ->
  Z.of_nat (length padding) < 2 ^ 62 -> Z.of_nat (length msg) < 2 ^ 62 ->
  hy2_read_tcp_request (write_tcp_request_with_padding target padding ++ rest) =
    (if (1024 <? length (show_address target))%nat
     then Err (EOther "hysteria: invalid tcp address length")
     else Ok (to_normalized target, rest)) /\
  read_tcp_response (write_tcp_response_ok padding ++ rest) = Ok (tt, rest) /\
  is_ok (read_tcp_response (write_tcp_response_error msg padding ++ rest)) = false.
Proof.
  intros Hok Hutf Hlen Hpad Hmsg. split; [by apply read_written_request|].
  split; [by apply read_ok_response | by apply read_error_response].
Qed.

Lemma hy2_tcp_handshake_witness :
  hy2_read_tcp_request
    (write_tcp_request_with_padding (ADomain (lit "example.com") 443) [1; 2; 3] ++ lit "GET")
  = Ok (ADomain (lit "example.com") 443, lit "GET").
Proof.
  refine (proj1 (hy2_tcp_handshake (ADomain (lit "example.com") 443) [1; 2; 3] (lit "GET")
    [] _ _ _ _ _)).
  - split; [apply bytes_okb_spec; reflexivity|unfold port_ok; lia].
  - reflexivity.
  - reflexivity.
  - reflexivity.
  - reflexivity.
Defined.

(** Salamander obfuscation round trips: for any 8-byte salt and any key,
    what the transport sends is read back as the packet that was sent, the
    wire form being 8 bytes longer and its first bytes the salt; and with the
    obfuscation off the packet travels unchanged. *)
Theorem salamander_roundtrip (blake2b : bytes -> bytes -> bytes)
    (salt key payload : bytes) (Hsalt : length salt = 8%nat) :
  (exists w, transport_send blake2b (Some key) salt None payload = Ok w /\
    length w = (8 + length payload)%nat /\ take 8 w = salt /\
    transport_recv blake2b (Some key) w = Some payload) /\
  transport_send blake2b None salt None payload = Ok payload /\
  transport_recv blake2b None payload = Some payload.
Proof.
  split; [|by split]. exists (encode_packet blake2b salt key payload).
  unfold transport_send, encode_packet, transport_recv, decode_in_place.
  set (ks := derive_key_stream blake2b salt key).
  assert (Hl : length (salt ++ xor_stream ks 0 payload) = (8 + length payload)%nat)
    by (rewrite length_app, length_xor_stream; lia).
  assert (Ht : take 8 (salt ++ xor_stream ks 0 payload) = salt)
    by (rewrite <- Hsalt; apply take_app_length).
  assert (Hd : drop 8 (salt ++ xor_stream ks 0 payload) = xor_stream ks 0 payload)
    by (rewrite <- Hsalt; apply drop_app_length).
  repeat split; [done|done|].
  replace (Nat.ltb _ 8) with false by (symmetry; apply Nat.ltb_ge; lia).
  rewrite Ht, Hd. fold ks. rewrite xor_stream_involutive, length_app, Hsalt.
  replace (drop 8 (salt ++ payload)) with payload
    by (rewrite <- Hsalt; symmetry; apply drop_app_length).
  f_equal. rewrite take_app_le by lia. apply take_ge. lia.
Qed.

Lemma salamander_roundtrip_witness :
  transport_recv (fun k s => k ++ s) (Some [1; 2]) (encode_packet (fun k s => k ++ s)
    [10; 11; 12; 13; 14; 15; 16; 17] [1; 2] [200; 201]) = Some [200; 201].
Proof.
  destruct (salamander_roundtrip (fun k s => k ++ s) [10; 11; 12; 13; 14; 15; 16; 17] [1; 2]
    [200; 201] eq_refl) as [(w & Hw & _ & _ & Hr) _].
  injection Hw as <-. exact Hr.
Defined.

(** Authentication: a request is accepted only if it is a [POST] for
    [/auth] of host [hysteria] and presents the configured secret (directly,
    or after [Bearer ] in [Authorization]); the request the client builds is
    accepted exactly by the server with the same secret, of visible ASCII, at
    the first position, every earlier rejected request being answered 404; and
    the client accepts only the status 233 such a server sends. *)
Theorem hy2_auth_sound_complete (req : AuthRequest) (auth secret : bytes) (pre rest : list AuthRequest) :
  (is_auth_request req auth = true ->
     ar_post req = true /\ ar_path req = lit "/auth" /\
     (ar_hysteria_auth req = Some auth \/
      ar_authorization req = Some auth \/ ar_authorization req = Some (lit "Bearer " ++ auth))) /\
  (forall r, hy2_auth_request secret = Ok r -> (is_auth_request r auth = true <-> secret = auth /\ header_str auth = Some auth)) /\
  (forall r, hy2_auth_request auth = Ok r -> header_str auth = Some auth -> Forall (fun r => is_auth_request r auth = false) pre ->
     hy2_auth_server auth (pre ++ r :: rest)
     = (replicate (length pre) 404 ++ [233], Ok tt)) /\
  (forall st, is_ok (hy2_auth_response st None) = true <-> st = 233).
Proof.
  split; [|split; [|split]].
  - unfold is_auth_request. intros H.
    repeat case_match; bools; try done;
      repeat match goal with
      | H : bool_decide _ = true |- _ => apply bool_decide_eq_true in H
      | H : bool_decide _ = false |- _ => apply bool_decide_eq_false in H
      | H : orb _ _ = true |- _ => apply orb_true_iff in H as [H|H]
      | H : strip_prefix _ _ = Some _ |- _ => apply strip_prefix_spec in H
      end; subst; auto; try done; destruct (decide (ar_path req = lit "/auth")); naive_solver.
  - intros r Hr. rewrite (client_request_accepted _ _ _ Hr). split; [intros H; pose proof (header_str_id _ _ H) as ->; by split | by intros [-> ?]].
  - intros r0 Er Hv. assert (Ha : is_auth_request r0 auth = true) by (by rewrite (client_request_accepted _ _ _ Er)).
    induction 1 as [|r pre Hr _ IH]; cbn [app hy2_auth_server length replicate].
    + by rewrite Ha.
    + by rewrite Hr, IH.
  - intros st. unfold hy2_auth_response. destruct (st =? 233) eqn:E; bools; simpl; split; done || congruence.
Qed.

Lemma hy2_auth_sound_complete_witness : exists no pw,
  hy2_auth_request (lit "no") = Ok no /\ hy2_auth_request (lit "pw") = Ok pw /\
  hy2_auth_server (lit "pw") [no; pw] = ([404; 233], Ok tt).
Proof.
  eexists _, _. split; [reflexivity|]. split; [reflexivity|].
  refine (proj1 (proj2 (proj2 (hy2_auth_sound_complete (mkAuthRequest true [] None None None None) (lit "pw") (lit "pw") [_] []))) _ eq_refl eq_refl _).
  by constructor.
Defined.

(** A server whose secret is not visible ASCII accepts no client, the header
    with the secret being as good as absent. *)
Lemma hy2_non_ascii_secret (secret : bytes) (r : AuthRequest) : hy2_auth_request secret = Ok r ->
  header_str secret = None -> is_auth_request r secret = false.
Proof.
  intros E Hv. apply not_true_is_false. intros H. apply (proj1 (client_request_accepted _ _ _ E)) in H. congruence.
Qed.
