(* ===== verification/HyUdp.v ===== *)
(** * Hysteria 2 UDP: [protocol/hysteria/src/udp.rs] (client) and the UDP
    part of [protocol/hysteria/src/server.rs].

    Instants are milliseconds ([Z]); the QUIC connection is a sequence of
    received datagrams and, for sending, the outcome of each
    [send_datagram]. *)

From S2P Require Import Prelude Address Hysteria.

Module HyUdp.

(** ** State *)

(* src/protocol/hysteria/src/udp.rs:58-63 Reassembly *)
Record Reassembly : Type := mkReassembly {
  frag_count : Z;
  frags : list (option bytes);
  received : Z;
  created_at : Z }.

(* src/protocol/hysteria/src/udp.rs:75-80 Session *)
Record Session : Type := mkSession {
  session_id : Z;
  address_str : bytes;
  next_packet_id : Z }.

(* src/protocol/hysteria/src/udp.rs:65-73 SessionEntry *)
Inductive SessionEntry : Type :=
| SReady (s : Session)
| SResolving (address_str : bytes).

(* src/protocol/hysteria/src/udp.rs:38-44 Hy2UdpState *)
Record Hy2UdpState : Type := mkState {
  next_session_id : Z;
  sessions : gmap Address SessionEntry;
  id_to_peer : gmap Z SocketAddr;
  reassembly : gmap (Z * Z) Reassembly;
  last_prune : Z }.

Definition set_reassembly (st : Hy2UdpState) (m : gmap (Z * Z) Reassembly) : Hy2UdpState :=
  mkState (next_session_id st) (sessions st) (id_to_peer st) m (last_prune st).

(* src/protocol/hysteria/src/udp.rs:83-89 Hy2Udp::new *)
Definition Hy2Udp_new (random now : Z) : Hy2UdpState := mkState random ∅ ∅ ∅ now.

(* src/protocol/hysteria/src/udp.rs:209-209 REASSEMBLY_TTL *)
Definition REASSEMBLY_TTL : Z := 10000.
(* src/protocol/hysteria/src/udp.rs:210-210 REASSEMBLY_PRUNE_INTERVAL *)
Definition REASSEMBLY_PRUNE_INTERVAL : Z := 1000.
(* src/protocol/hysteria/src/udp.rs:211-211 REASSEMBLY_MAX_ENTRIES *)
Definition REASSEMBLY_MAX_ENTRIES : nat := 2048.

(** [Instant::duration_since] saturates at zero. *)
Definition duration_since (now t : Z) : Z := Z.max 0 (now - t).

(** ** Receiving *)

(** The prune both sides run before each datagram: the table and the time of
    the last prune. *)
(* src/protocol/hysteria/src/udp.rs:213-226 prune_reassembly *)
Definition prune_reassembly (now : Z) (m : gmap (Z * Z) Reassembly) (last : Z)
    : gmap (Z * Z) Reassembly * Z :=
  if (duration_since now last <? REASSEMBLY_PRUNE_INTERVAL)
     && (size m <? REASSEMBLY_MAX_ENTRIES)%nat
  then (m, last)
  else
    let m := filter (fun kv => duration_since now (created_at kv.2) <= REASSEMBLY_TTL) m in
    (if (REASSEMBLY_MAX_ENTRIES <? size m)%nat then ∅ else m, now).

(** A parsed datagram: session, packet, fragment number and count, address
    text and payload. *)
Record Datagram : Type := mkDatagram {
  d_session : Z; d_packet : Z; d_frag : Z; d_count : Z; d_addr : bytes; d_payload : bytes }.

(* src/protocol/hysteria/src/udp.rs:131-150 recv_loop *)
Definition parse_datagram (datagram : bytes) : option Datagram :=
  if (length datagram <? 4 + 2 + 1 + 1)%nat then None
  else
    let session_id := be_val (take 4 datagram) in
    let packet_id := be_val (take 2 (drop 4 datagram)) in
    let frag_id := nth 6 datagram 0 in
    let frag_count := nth 7 datagram 0 in
    let rest := drop 8 datagram in
    match decode_varint rest with
    | None => None
    | Some (addr_len, vi_len) =>
      let rest := drop vi_len rest in
      if Z.of_nat (length rest) <? addr_len then None
      else Some (mkDatagram session_id packet_id frag_id frag_count
                   (take (Z.to_nat addr_len) rest) (drop (Z.to_nat addr_len) rest))
    end.

(** Storing a fragment: [if slot.is_none() { *slot = ..; received += 1 }]. *)
Definition store_frag (e : Reassembly) (frag_id : Z) (payload : bytes) : Reassembly :=
  match frags e !! Z.to_nat frag_id with
  | Some None =>
    mkReassembly (frag_count e) (<[Z.to_nat frag_id := Some payload]> (frags e))
      (Z.min 255 (received e + 1)) (created_at e)
  | _ => e
  end.

Definition join_frags (l : list (option bytes)) : bytes :=
  concat (map (fun f => match f with Some b => b | None => [] end) l).

Definition new_reassembly (frag_count now : Z) : Reassembly :=
  mkReassembly frag_count (replicate (Z.to_nat frag_count) None) 0 now.

(** The client's handling of the fragments of a packet: the table afterwards
    and the packet completed by this fragment. *)
(* src/protocol/hysteria/src/udp.rs:160-200 recv_loop *)
Definition client_reassemble (now : Z) (m : gmap (Z * Z) Reassembly) (d : Datagram)
    : gmap (Z * Z) Reassembly * option bytes :=
  if d_count d <=? 1 then (m, Some (d_payload d))
  else
    let key := (d_session d, d_packet d) in
    let entry := default (new_reassembly (d_count d) now) (m !! key) in
    if negb (frag_count entry =? d_count d) then (delete key m, None)
    else if REASSEMBLY_TTL <? duration_since now (created_at entry) then (delete key m, None)
    else if d_count d <=? d_frag d then (<[key := entry]> m, None)
    else
      let entry := store_frag entry (d_frag d) (d_payload d) in
      if received entry =? d_count d then (delete key m, Some (join_frags (frags entry)))
      else (<[key := entry]> m, None).

Record IncomingPacket : Type := mkIncoming { in_peer : SocketAddr; in_payload : bytes }.

(** One round of the receive loop at time [now]. *)
(* src/protocol/hysteria/src/udp.rs:121-207 recv_loop *)
Definition recv_datagram (now : Z) (st : Hy2UdpState) (datagram : bytes)
    : Hy2UdpState * option IncomingPacket :=
  match parse_datagram datagram with
  | None => (st, None)
  | Some d =>
    let '(m, lp) := prune_reassembly now (reassembly st) (last_prune st) in
    let st := mkState (next_session_id st) (sessions st) (id_to_peer st) m lp in
    match id_to_peer st !! d_session d with
    | None => (st, None)
    | Some peer =>
      let '(m, complete) := client_reassemble now (reassembly st) d in
      (set_reassembly st m, mkIncoming peer <$> complete)
    end
  end.

(** The loop over timed datagrams; [read_datagram] failing ends it. *)
Fixpoint recv_loop (st : Hy2UdpState) (l : list (Z * bytes)) : Hy2UdpState * list IncomingPacket :=
  match l with
  | [] => (st, [])
  | (now, dg) :: l =>
    let '(st, o) := recv_datagram now st dg in
    let '(st, out) := recv_loop st l in
    (st, option_list o ++ out)
  end.

(** ** [Hy2UdpSocket] *)

(** What the broadcast subscription yields. *)
Inductive BroadcastItem : Type := BPacket (p : IncomingPacket) | BLagged (n : Z) | BClosed.

(** Items already available; [None] is pending.  The result is the peer and
    the bytes put into a buffer with [remaining] free bytes, and the items
    left. *)
(* src/protocol/hysteria/src/udp.rs:242-269 poll_recv_from *)
Fixpoint poll_recv_from (remaining : nat) (items : list BroadcastItem)
    : poll (res (SocketAddr * bytes)) * list BroadcastItem :=
  match items with
  | [] => (Pending, [])
  | BClosed :: l => (Ready (Err EBrokenPipe), BClosed :: l)
  | BPacket p :: l =>
    (Ready (Ok (in_peer p, take (Nat.min (length (in_payload p)) remaining) (in_payload p))), l)
  | BLagged _ :: l => poll_recv_from remaining l
  end.

(** The outcome of polling the spawned lookup task: the outer result is the
    join, the inner one the lookup. *)
Definition JoinPoll : Type := poll (res (res SocketAddr)).

(* src/protocol/hysteria/src/udp.rs:401-407 poll_get_or_create_session *)
Definition resolve_task (lookup : res (list SocketAddr)) : res SocketAddr :=
  l ← lookup; ok_or (EOther "failed to resolve udp target") (head l).

(* src/protocol/hysteria/src/udp.rs:350-431 poll_get_or_create_session *)
Definition poll_get_or_create_session (join : JoinPoll) (st : Hy2UdpState) (target : Address)
    : Hy2UdpState * poll (res Session) :=
  let fresh (st : Hy2UdpState) (address_str : bytes) (peer : SocketAddr) :=
    let sid := next_session_id st in
    let session := mkSession sid address_str 0 in
    (mkState ((sid + 1) mod 2 ^ 32) (<[target := SReady session]> (sessions st))
       (<[sid := peer]> (id_to_peer st)) (reassembly st) (last_prune st),
     Ready (Ok session)) in
  let set_sessions (s : gmap Address SessionEntry) :=
    mkState (next_session_id st) s (id_to_peer st) (reassembly st) (last_prune st) in
  match sessions st !! target with
  | Some (SReady s) => (st, Ready (Ok s))
  | Some (SResolving a) =>
    match join with
    | Pending => (st, Pending)
    | Ready (Ok (Ok peer)) => fresh st a peer
    | Ready (Ok (Err e)) => (set_sessions (delete target (sessions st)), Ready (Err (EBoxed e)))
    | Ready (Err e) => (set_sessions (delete target (sessions st)), Ready (Err (EBoxed e)))
    end
  | None =>
    match target with
    | ADomain domain port =>
      (set_sessions (<[target := SResolving (domain ++ 58 :: show_uint port)]> (sessions st)), Pending)
    | ASocket sa => fresh st (show_sa sa) sa
    end
  end.

(** The datagrams of a payload cut into pieces of [per_frag] bytes. *)
(* src/protocol/hysteria/src/udp.rs:326-338 poll_send_to *)
Definition make_fragments (sid pid : Z) (addr : bytes) (per_frag count : nat) (buf : bytes)
    : list bytes :=
  map (fun frag_id : nat =>
    let payload := take (Nat.min ((frag_id + 1) * per_frag) (length buf) - frag_id * per_frag)
                     (drop (frag_id * per_frag) buf) in
    be_bytes 4 sid ++ be_bytes 2 pid ++ [Z.of_nat frag_id mod 256] ++ [Z.of_nat count mod 256] ++
    write_varint (Z.of_nat (length addr)) ++ addr ++ payload)
  (seq 0 count).

(** [(len + per_frag - 1) / per_frag].max(1). *)
Definition frag_count_of (len per_frag : nat) : nat := Nat.max ((len + per_frag - 1) / per_frag) 1.

(** Datagrams go out in order until one fails; [fails n] is the outcome of
    the [n]-th. *)
(* src/protocol/hysteria/src/udp.rs:340-343 poll_send_to *)
Fixpoint send_datagrams (fails : nat -> option error) (n : nat) (l : list bytes)
    : list bytes * option error :=
  match l with
  | [] => ([], None)
  | d :: l => match fails n with
              | Some e => ([], Some (EBoxed e))
              | None => let '(s, r) := send_datagrams fails (S n) l in (d :: s, r)
              end
  end.

Definition bump_packet_id (s : Session) : Session :=
  mkSession (session_id s) (address_str s) ((next_packet_id s + 1) mod 2 ^ 16).

(* src/protocol/hysteria/src/udp.rs:271-346 poll_send_to *)
Definition poll_send_to (max_datagram_size : option nat) (join : JoinPoll)
    (fails : nat -> option error) (st : Hy2UdpState) (buf : bytes) (target : Address)
    : Hy2UdpState * list bytes * poll (res nat) :=
  match max_datagram_size with
  | None => (st, [], Ready (Err EUnsupported))
  | Some max =>
    match poll_get_or_create_session join st target with
    | (st, Pending) => (st, [], Pending)
    | (st, Ready (Err e)) => (st, [], Ready (Err e))
    | (st, Ready (Ok session)) =>
      let addr_bytes := address_str session in
      let addr_len_vi := varint_len (Z.of_nat (length addr_bytes)) in
      let header_len := (4 + 2 + 1 + 1 + addr_len_vi + length addr_bytes)%nat in
      if (max <=? header_len)%nat then (st, [], Ready (Err EInvalidInput))
      else
        let per_frag := (max - header_len)%nat in
        let frag_count := frag_count_of (length buf) per_frag in
        if (255 <? frag_count)%nat then (st, [], Ready (Err EInvalidInput))
        else
          match sessions st !! target with
          | Some (SReady entry) =>
            let st := mkState (next_session_id st)
              (<[target := SReady (bump_packet_id entry)]> (sessions st))
              (id_to_peer st) (reassembly st) (last_prune st) in
            let '(sent, r) := send_datagrams fails 0
              (make_fragments (session_id entry) (next_packet_id entry) addr_bytes per_frag frag_count buf) in
            (st, sent, Ready (match r with Some e => Err e | None => Ok (length buf) end))
          | _ => (st, [], Ready (Err (EOther "session ready")))
          end
    end
  end.

(** ** The server's side *)

(** A session is known by its place among those ever created. *)
(* src/protocol/hysteria/src/server.rs:450-455 UdpState *)
Record UdpState : Type := mkUdpState {
  us_sessions : gmap Z nat;
  us_id_to_addr : gmap Z bytes;
  us_reassembly : gmap (Z * Z) Reassembly;
  us_last_prune : Z }.

(* src/protocol/hysteria/src/server.rs:379-415 hy2_udp_loop *)
Definition server_reassemble (now : Z) (m : gmap (Z * Z) Reassembly) (d : Datagram)
    : gmap (Z * Z) Reassembly * option bytes :=
  if d_count d <=? 1 then (m, Some (d_payload d))
  else
    let key := (d_session d, d_packet d) in
    let entry := default (new_reassembly (d_count d) now) (m !! key) in
    if REASSEMBLY_TTL <? duration_since now (created_at entry) then (delete key m, None)
    else if negb (frag_count entry =? d_count d) || (d_count d <=? d_frag d)
    then (delete key m, None)
    else
      let entry := store_frag entry (d_frag d) (d_payload d) in
      if received entry =? d_count d then (delete key m, Some (join_frags (frags entry)))
      else (<[key := entry]> m, None).

(** One round of the server's loop; a completed payload is handed to
    [udp_send_to_target] with its session. *)
(* src/protocol/hysteria/src/server.rs:333-429 hy2_udp_loop *)
Definition hy2_udp_datagram (now : Z) (st : UdpState) (datagram : bytes)
    : UdpState * option (Z * bytes) :=
  match parse_datagram datagram with
  | None => (st, None)
  | Some d =>
    if negb (utf8_valid (d_addr d)) then (st, None)
    else
      let '(m, lp) := prune_reassembly now (us_reassembly st) (us_last_prune st) in
      let '(ss, ids) :=
        match us_id_to_addr st !! d_session d with
        | Some old =>
          if bool_decide (old = d_addr d) then (us_sessions st, us_id_to_addr st)
          else (delete (d_session d) (us_sessions st), <[d_session d := d_addr d]> (us_id_to_addr st))
        | None => (us_sessions st, <[d_session d := d_addr d]> (us_id_to_addr st))
        end in
      let '(m, complete) := server_reassemble now m d in
      (mkUdpState ss ids m lp, pair (d_session d) <$> complete)
  end.

Fixpoint hy2_udp_loop (st : UdpState) (l : list (Z * bytes)) : UdpState * list (Z * bytes) :=
  match l with
  | [] => (st, [])
  | (now, dg) :: l =>
    let '(st, o) := hy2_udp_datagram now st dg in
    let '(st, out) := hy2_udp_loop st l in
    (st, option_list o ++ out)
  end.

(** The answer datagrams for one packet received from the target. *)
(* src/protocol/hysteria/src/server.rs:544-593 udp_session_loop *)
Definition session_reply (max : option nat) (sid pid : Z) (addr data : bytes) : list bytes * Z :=
  let max := default 1200%nat max in
  let header_len := (4 + 2 + 1 + 1 + varint_len (Z.of_nat (length addr)) + length addr)%nat in
  let per_frag := Nat.max (max - header_len) 1 in
  let count := frag_count_of (length data) per_frag in
  (if (255 <? count)%nat then [] else make_fragments sid pid addr per_frag count data,
   (pid + 1) mod 2 ^ 16).

End HyUdp.
Export HyUdp.

(** ** Lemmas *)

Module HyUdpLemmas.

Section Fragments.
Context (sid pid : Z) (addr buf : bytes) (p n : nat).

Definition chunk (i : nat) : bytes :=
  take (Nat.min ((i + 1) * p) (length buf) - i * p) (drop (i * p) buf).

Definition dgram (i : nat) : Datagram :=
  mkDatagram sid pid (Z.of_nat i) (Z.of_nat n) addr (chunk i).

Lemma chunk_alt (i : nat) : chunk i = take p (drop (i * p) buf).
Proof.
  unfold chunk. destruct (Nat.le_ge_cases ((i + 1) * p) (length buf)).
  - f_equal. lia.
  - rewrite !take_ge; [done|len|len].
Qed.

Lemma concat_chunks (k : nat) : concat (map chunk (seq 0 k)) = take (k * p) buf.
Proof.
  induction k as [|k IH]; [done|].
  rewrite seq_S, map_app, concat_app, IH. simpl. rewrite app_nil_r, chunk_alt.
  rewrite take_take_drop. f_equal. lia.
Qed.

Lemma concat_all_chunks : (length buf <= n * p)%nat -> concat (map chunk (seq 0 n)) = buf.
Proof. intros H. rewrite concat_chunks. by apply take_ge. Qed.

Definition fragment (i : nat) : bytes :=
  be_bytes 4 sid ++ be_bytes 2 pid ++ [Z.of_nat i mod 256] ++ [Z.of_nat n mod 256] ++
  write_varint (Z.of_nat (length addr)) ++ addr ++ chunk i.

Lemma make_fragments_map : make_fragments sid pid addr p n buf = map fragment (seq 0 n).
Proof. done. Qed.

(** The entry after the fragments [S] have arrived. *)
Definition slots (S : list nat) : list (option bytes) :=
  map (fun i => if decide (i ∈ S) then Some (chunk i) else None) (seq 0 n).

Definition entry_of (t : Z) (S : list nat) : Reassembly :=
  mkReassembly (Z.of_nat n) (slots S) (Z.of_nat (length S)) t.

Lemma slots_lookup (S : list nat) (i : nat) :
  (i < n)%nat -> slots S !! i = Some (if decide (i ∈ S) then Some (chunk i) else None).
Proof.
  intros Hi. unfold slots. rewrite list_lookup_fmap.
  rewrite lookup_seq_lt by done. done.
Qed.

Lemma slots_insert (S : list nat) (i : nat) :
  (i < n)%nat -> <[i := Some (chunk i)]> (slots S) = slots (S ++ [i]).
Proof.
  intros Hi. apply list_eq. intros j.
  assert (Hls : forall S, length (slots S) = n)
    by (intros; unfold slots; by rewrite length_map, length_seq).
  destruct (Nat.lt_ge_cases j n) as [Hj|Hj].
  - rewrite (slots_lookup (S ++ [i])) by done. destruct (decide (i = j)) as [->|Hne].
    + rewrite list_lookup_insert_eq by (by rewrite Hls). rewrite decide_True by set_solver. done.
    + rewrite list_lookup_insert_ne, slots_lookup by done.
      destruct (decide (j ∈ S)); [rewrite decide_True by set_solver|rewrite decide_False by set_solver]; done.
  - rewrite !lookup_ge_None_2; [done|by rewrite Hls|by rewrite length_insert, Hls].
Qed.

Lemma store_fresh (t : Z) (S : list nat) (i : nat) :
  (n <= 255)%nat -> (i < n)%nat -> i ∉ S -> (length S < n)%nat ->
  store_frag (entry_of t S) (d_frag (dgram i)) (d_payload (dgram i)) = entry_of t (S ++ [i]).
Proof.
  intros Hn Hi HS Hlen. unfold store_frag, entry_of, dgram. cbn [frags d_frag d_payload frag_count received created_at].
  rewrite Nat2Z.id, slots_lookup by done. rewrite decide_False by done.
  rewrite slots_insert by done. f_equal. len.
Qed.

Lemma slots_nil : slots [] = replicate n None.
Proof.
  unfold slots. assert (G : forall k j, map (fun i : nat => if decide (i ∈ []) then Some (chunk i) else None) (seq j k)
    = replicate k None); [|apply G].
  induction k as [|k IH]; intros j; [done|]. cbn [seq map replicate].
  rewrite decide_False by apply not_elem_of_nil. by rewrite IH.
Qed.

Lemma entry_of_nil (t : Z) : new_reassembly (Z.of_nat n) t = entry_of t [].
Proof. unfold new_reassembly, entry_of. by rewrite Nat2Z.id, slots_nil. Qed.

Lemma join_slots_full (S : list nat) :
  (forall i, (i < n)%nat -> i ∈ S) -> (length buf <= n * p)%nat -> join_frags (slots S) = buf.
Proof.
  intros HS Hb. etrans; [|apply (concat_all_chunks Hb)]. unfold join_frags, slots.
  rewrite map_map. f_equal. apply map_ext_in. intros i Hi.
  apply in_seq in Hi. rewrite decide_True; [done|]. apply HS. lia.
Qed.
Hypothesis Hsid : 0 <= sid < 2 ^ 32.
Hypothesis Hpid : 0 <= pid < 2 ^ 16.
Hypothesis Haddr : Z.of_nat (length addr) < 2 ^ 62.
Hypothesis Hn : (n <= 255)%nat.

Lemma parse_fragment (i : nat) : (i < n)%nat -> parse_datagram (fragment i) = Some (dgram i).
Proof.
  intros Hi. unfold parse_datagram, fragment, dgram.
  set (tail := write_varint (Z.of_nat (length addr)) ++ addr ++ chunk i).
  pose proof (be_val_be_bytes 4 sid ltac:(lia)) as E4.
  pose proof (be_val_be_bytes 2 pid ltac:(lia)) as E2.
  pose proof (length_be_bytes 4 sid) as L4. pose proof (length_be_bytes 2 pid) as L2.
  destruct (be_bytes 4 sid) as [|a0 [|a1 [|a2 [|a3 [|]]]]]; try done.
  destruct (be_bytes 2 pid) as [|b0 [|b1 [|]]]; try done.
  cbn [app]. cbn [length take drop nth]. rewrite E4, E2.
  replace (Nat.ltb _ _) with false by (symmetry; apply Nat.ltb_ge; lia).
  rewrite !Z.mod_small by lia. subst tail. rewrite drop_0.
  destruct (decode_write_varint (Z.of_nat (length addr)) (addr ++ chunk i) ltac:(lia)) as [-> Hl].
  rewrite Z.mod_small by lia. rewrite <- Hl, drop_app_length, length_app.
  replace (Z.ltb _ _) with false by (symmetry; apply Z.ltb_ge; lia).
  by rewrite Nat2Z.id, take_app_length, drop_app_length.
Qed.
End Fragments.

(** What both sides do with a fragment of a live packet. *)
Definition accept_frag (now : Z) (m : gmap (Z * Z) Reassembly) (e : Reassembly) (d : Datagram)
    : gmap (Z * Z) Reassembly * option bytes :=
  let key := (d_session d, d_packet d) in
  let entry := store_frag e (d_frag d) (d_payload d) in
  if received entry =? d_count d then (delete key m, Some (join_frags (frags entry)))
  else (<[key := entry]> m, None).

Definition Reassembler : Type :=
  Z -> gmap (Z * Z) Reassembly -> Datagram -> gmap (Z * Z) Reassembly * option bytes.

(** The contract of a reassembler: single-fragment packets pass through, and
    fragments of a live entry of the same count are accepted. *)
Class ReassemblerSpec (R : Reassembler) : Prop := {
  reassemble_single now m d : d_count d <= 1 -> R now m d = (m, Some (d_payload d));
  reassemble_live now m d e :
    1 < d_count d -> d_frag d < d_count d ->
    default (new_reassembly (d_count d) now) (m !! (d_session d, d_packet d)) = e ->
    frag_count e = d_count d -> duration_since now (created_at e) <= REASSEMBLY_TTL ->
    R now m d = accept_frag now m e d }.

#[global] Instance client_reassembler : ReassemblerSpec client_reassemble.
Proof.
  split.
  - intros now m d H. unfold client_reassemble. by apply Z.leb_le in H as ->.
  - intros now m d e H1 H2 He Hc Ht. unfold client_reassemble, accept_frag.
    rewrite He, Hc, Z.eqb_refl.
    apply Z.leb_gt in H1 as ->. apply Z.leb_gt in H2 as ->. by apply Z.ltb_ge in Ht as ->.
Qed.

#[global] Instance server_reassembler : ReassemblerSpec server_reassemble.
Proof.
  split.
  - intros now m d H. unfold server_reassemble. by apply Z.leb_le in H as ->.
  - intros now m d e H1 H2 He Hc Ht. unfold server_reassemble, accept_frag.
    rewrite He, Hc, Z.eqb_refl.
    apply Z.leb_gt in H1 as ->. apply Z.leb_gt in H2 as ->. by apply Z.ltb_ge in Ht as ->.
Qed.

(** The part of the state both loops share, and one round of it. *)
Definition round (R : Reassembler) (now : Z) (s : gmap (Z * Z) Reassembly * Z) (d : Datagram)
    : (gmap (Z * Z) Reassembly * Z) * option bytes :=
  let '(m, lp) := prune_reassembly now s.1 s.2 in
  let '(m, o) := R now m d in ((m, lp), o).

Fixpoint rounds (R : Reassembler) (s : gmap (Z * Z) Reassembly * Z) (l : list (Z * Datagram))
    : (gmap (Z * Z) Reassembly * Z) * list bytes :=
  match l with
  | [] => (s, [])
  | (now, d) :: l =>
    let '(s, o) := round R now s d in
    let '(s, out) := rounds R s l in
    (s, option_list o ++ out)
  end.

Lemma prune_size (now : Z) (m : gmap (Z * Z) Reassembly) (lp : Z) :
  (size (prune_reassembly now m lp).1 <= size m)%nat /\
  (size (prune_reassembly now m lp).1 <= REASSEMBLY_MAX_ENTRIES)%nat.
Proof.
  unfold prune_reassembly. destruct (_ && _) eqn:E; bools; cbn [fst].
  { unfold REASSEMBLY_MAX_ENTRIES in *. lia. }
  set (m' := filter _ m). assert (size m' <= size m)%nat.
  { apply map_subseteq_size, map_filter_subseteq. }
  destruct (_ <? size m')%nat eqn:E'; bools; [rewrite map_size_empty; lia|lia].
Qed.

Lemma prune_lookup_none (now : Z) (m : gmap (Z * Z) Reassembly) (lp : Z) (k : Z * Z) :
  m !! k = None -> (prune_reassembly now m lp).1 !! k = None.
Proof.
  intros H. unfold prune_reassembly. destruct (_ && _); [done|]. cbn [fst].
  destruct (_ <? _)%nat; [apply lookup_empty|]. rewrite map_lookup_filter, H. done.
Qed.

Lemma prune_lookup_live (now : Z) (m : gmap (Z * Z) Reassembly) (lp : Z) (k : Z * Z) (e : Reassembly) :
  m !! k = Some e -> duration_since now (created_at e) <= REASSEMBLY_TTL ->
  (size m <= REASSEMBLY_MAX_ENTRIES)%nat ->
  (prune_reassembly now m lp).1 !! k = Some e.
Proof.
  intros H Ht Hs. unfold prune_reassembly. destruct (_ && _); [done|]. cbn [fst].
  replace (Nat.ltb _ _) with false.
  - by rewrite map_lookup_filter_Some.
  - symmetry. apply Nat.ltb_ge. etrans; [apply map_subseteq_size, map_filter_subseteq|done].
Qed.

Section Delivery.
Context (R : Reassembler) `{!ReassemblerSpec R}.
Context (sid pid : Z) (addr buf : bytes) (p n : nat) (t0 : Z).
Hypothesis Hn : (1 <= n <= 255)%nat.
Hypothesis Hbuf : (length buf <= n * p)%nat.

Notation key := (sid, pid).
Notation dg := (dgram sid pid addr buf p n).

(** The table while the fragments [S] have arrived, the first at time [t]. *)
Definition partial (S : list nat) (m : gmap (Z * Z) Reassembly) : Prop :=
  (S = [] /\ m !! key = None /\ (size m < REASSEMBLY_MAX_ENTRIES)%nat) \/
  (S <> [] /\ (exists t, t0 <= t /\ m !! key = Some (entry_of buf p n t S)) /\
   (size m <= REASSEMBLY_MAX_ENTRIES)%nat).

Lemma round_step (now : Z) (S : list nat) (i : nat) (s : gmap (Z * Z) Reassembly * Z) :
  (1 < n)%nat -> (i < n)%nat -> i ∉ S -> (length S < n)%nat ->
  t0 <= now <= t0 + REASSEMBLY_TTL -> partial S s.1 ->
  exists s', round R now s (dg i) =
    (s', if (length S + 1 =? n)%nat then Some (join_frags (slots buf p n (S ++ [i]))) else None) /\
    (if (length S + 1 =? n)%nat then s'.1 !! key = None else partial (S ++ [i]) s'.1).
Proof.
  intros H1 Hi HS Hlen Hnow Hp. unfold round.
  pose proof (prune_size now s.1 s.2) as [Hsz Hmax].
  destruct (prune_reassembly now s.1 s.2) as [m lp] eqn:Epr. cbn [fst] in *.
  assert (exists t, t0 <= t /\
    default (new_reassembly (Z.of_nat n) now) (m !! key) = entry_of buf p n t S /\
    (size (<[key := entry_of buf p n t (S ++ [i])]> m) <= REASSEMBLY_MAX_ENTRIES)%nat)
    as (t & Ht & He & Hsize).
  { pose proof (f_equal fst Epr) as Em. cbn [fst] in Em.
    destruct Hp as [(-> & Hk & Hs)|(Hne & (t & Ht & Hk) & Hs)].
    - exists now. pose proof (prune_lookup_none now _ s.2 _ Hk) as Hm. rewrite Em in Hm.
      rewrite Hm. split; [lia|]. split; [apply entry_of_nil|].
      rewrite map_size_insert_None by done. lia.
    - exists t. assert (Hm : m !! key = Some (entry_of buf p n t S)).
      { rewrite <- Em. apply prune_lookup_live; [done| |done].
        cbn [created_at entry_of]. unfold duration_since. lia. }
      rewrite Hm. split; [lia|]. split; [done|].
      rewrite map_size_insert_Some by (by eexists). done. }
  rewrite (reassemble_live now m (dg i) (entry_of buf p n t S));
    [|cbn; lia|cbn; lia|done|done|cbn [created_at entry_of]; unfold duration_since; lia].
  unfold accept_frag. rewrite store_fresh by (done || lia). cbn [d_session d_packet d_count dgram].
  cbn [received frags entry_of]. rewrite length_app. cbn [length].
  destruct (length S + 1 =? n)%nat eqn:E; bools.
  - replace (Z.eqb _ _) with true by (symmetry; apply Z.eqb_eq; lia).
    eexists. split; [done|]. cbn [fst]. apply lookup_delete_eq.
  - replace (Z.eqb _ _) with false by (symmetry; apply Z.eqb_neq; lia).
    eexists. split; [done|]. cbn [fst]. right. split; [by destruct S|]. split; [|done].
    exists t. split; [lia|]. apply lookup_insert_eq.
Qed.

(** From a partial packet, the missing fragments in any order complete it. *)
Lemma rounds_complete (l : list (Z * nat)) (S : list nat) (s : gmap (Z * Z) Reassembly * Z) :
  (1 < n)%nat -> l <> [] ->
  Permutation (S ++ map snd l) (seq 0 n) ->
  Forall (fun ti => t0 <= fst ti <= t0 + REASSEMBLY_TTL) l ->
  partial S s.1 ->
  exists s', rounds R s (map (fun ti => (fst ti, dg (snd ti))) l) = (s', [buf]) /\ s'.1 !! key = None.
Proof.
  intros H1. revert S s. induction l as [|[now i] l IH]; intros S s Hne Hperm Ht Hp; [done|].
  cbn [map fst snd] in *.
  assert (Hlen : (length S + 1 + length l = n)%nat).
  { apply Permutation_length in Hperm. rewrite length_app, length_seq in Hperm.
    cbn [length] in Hperm. rewrite length_map in Hperm. lia. }
  assert (Hnd : NoDup (S ++ i :: map snd l)) by (rewrite Hperm; apply NoDup_seq).
  assert (Hi : (i < n)%nat).
  { assert (i ∈ seq 0 n) as Hin by (rewrite <- Hperm; set_solver).
    apply elem_of_seq in Hin. lia. }
  apply NoDup_app in Hnd as (_ & Hdis & _).
  assert (HiS : i ∉ S) by (intros Hin; apply (Hdis i Hin); set_solver).
  apply Forall_cons in Ht as [Hnow Ht]. cbn [fst] in Hnow.
  destruct (round_step now S i s H1 Hi HiS ltac:(lia) Hnow Hp) as (s1 & Hr & Hs1).
  cbn [rounds]. rewrite Hr. destruct l as [|ti l].
  - replace (length S + 1 =? n)%nat with true in Hs1 |- *
      by (symmetry; apply Nat.eqb_eq; simpl in Hlen; lia).
    exists s1. split; [|done]. cbn [map rounds]. f_equal. simpl. f_equal.
    apply join_slots_full; [|done]. intros j Hj.
    assert (j ∈ seq 0 n) as Hin by (apply elem_of_seq; lia). by rewrite <- Hperm in Hin.
  - replace (length S + 1 =? n)%nat with false in Hs1 |- *
      by (symmetry; apply Nat.eqb_neq; simpl in Hlen; lia).
    destruct (IH (S ++ [i]) s1) as (s' & Hr' & Hs'); [done|by rewrite <- app_assoc|done|done|].
    rewrite Hr'. by exists s'.
Qed.

Lemma rounds_deliver (l : list (Z * nat)) (s : gmap (Z * Z) Reassembly * Z) :
  Permutation (map snd l) (seq 0 n) ->
  Forall (fun ti => t0 <= fst ti <= t0 + REASSEMBLY_TTL) l ->
  s.1 !! key = None -> (size s.1 < REASSEMBLY_MAX_ENTRIES)%nat ->
  exists s', rounds R s (map (fun ti => (fst ti, dg (snd ti))) l) = (s', [buf]) /\ s'.1 !! key = None.
Proof.
  intros Hperm Ht Hk Hs. destruct (decide (n = 1)%nat) as [Hn1|Hn1].
  - rewrite Hn1 in Hperm. cbn [seq] in Hperm. symmetry in Hperm. apply Permutation_singleton_l in Hperm.
    destruct l as [|[now i] [|]]; simplify_eq/=. unfold round.
    pose proof (prune_lookup_none now _ s.2 _ Hk) as Hm.
    destruct (prune_reassembly now s.1 s.2) as [m lp]. rewrite reassemble_single by (cbn; lia).
    exists (m, lp). split; [|done]. cbn [d_payload dgram rounds map fst snd]. f_equal. simpl. f_equal.
    rewrite chunk_alt. cbn [Nat.mul]. rewrite drop_0. apply take_ge. lia.
  - apply (rounds_complete l []); [lia| |done|done|].
    + intros ->. apply Permutation_length in Hperm. rewrite length_seq in Hperm. simpl in Hperm. lia.
    + left. done.
Qed.
End Delivery.


(** The loops of both sides, on datagrams that parse, are these rounds. *)
Lemma recv_loop_rounds (f : nat -> bytes) (dg : nat -> Datagram) (peer : SocketAddr)
    (l : list (Z * nat)) (st : Hy2UdpState) :
  Forall (fun ti => parse_datagram (f (snd ti)) = Some (dg (snd ti)) /\
                    id_to_peer st !! d_session (dg (snd ti)) = Some peer) l ->
  let '(s, out) := rounds client_reassemble (reassembly st, last_prune st)
                     (map (fun ti => (fst ti, dg (snd ti))) l) in
  recv_loop st (map (fun ti => (fst ti, f (snd ti))) l) =
    (mkState (next_session_id st) (sessions st) (id_to_peer st) s.1 s.2, map (mkIncoming peer) out).
Proof.
  revert st. induction l as [|[now i] l IH]; intros st H.
  - simpl. by destruct st.
  - apply Forall_cons in H as [[Hp Hid] H]. cbn [map rounds recv_loop fst snd] in *.
    unfold recv_datagram. rewrite Hp. unfold round. cbn [fst snd].
    destruct (prune_reassembly now (reassembly st) (last_prune st)) as [m lp].
    cbn [id_to_peer reassembly]. rewrite Hid.
    destruct (client_reassemble now m (dg i)) as [m' o].
    specialize (IH (mkState (next_session_id st) (sessions st) (id_to_peer st) m' lp)).
    cbn [id_to_peer reassembly last_prune next_session_id sessions] in IH. specialize (IH H).
    unfold set_reassembly. cbn [id_to_peer reassembly last_prune next_session_id sessions].
    destruct (rounds client_reassemble (m', lp) _) as [s out]. rewrite IH.
    f_equal. rewrite map_app. f_equal. by destruct o.
Qed.

Lemma hy2_udp_loop_rounds (f : nat -> bytes) (dg : nat -> Datagram) (sid : Z) (addr : bytes)
    (l : list (Z * nat)) (st : UdpState) :
  utf8_valid addr = true ->
  Forall (fun ti => parse_datagram (f (snd ti)) = Some (dg (snd ti)) /\
                    d_session (dg (snd ti)) = sid /\ d_addr (dg (snd ti)) = addr) l ->
  let '(s, out) := rounds server_reassemble (us_reassembly st, us_last_prune st)
                     (map (fun ti => (fst ti, dg (snd ti))) l) in
  exists st', hy2_udp_loop st (map (fun ti => (fst ti, f (snd ti))) l) = (st', map (pair sid) out) /\
    us_reassembly st' = s.1 /\ (l <> [] -> us_id_to_addr st' !! sid = Some addr).
Proof.
  intros Hu. assert (G : forall l st,
    Forall (fun ti => parse_datagram (f (snd ti)) = Some (dg (snd ti)) /\
                    d_session (dg (snd ti)) = sid /\ d_addr (dg (snd ti)) = addr) l ->
    let '(s, out) := rounds server_reassemble (us_reassembly st, us_last_prune st)
                     (map (fun ti => (fst ti, dg (snd ti))) l) in
    exists st', hy2_udp_loop st (map (fun ti => (fst ti, f (snd ti))) l) = (st', map (pair sid) out) /\
      us_reassembly st' = s.1 /\
      (l <> [] \/ us_id_to_addr st !! sid = Some addr -> us_id_to_addr st' !! sid = Some addr)).
  2:{ intros H. specialize (G l st H). destruct (rounds _ _ _) as [s out].
      destruct G as (st' & ? & ? & ?). exists st'. auto. }
  clear l st. intros l. induction l as [|[now i] l IH]; intros st H.
  - simpl. exists st. split; [done|]. split; [done|]. by intros [?|?].
  - apply Forall_cons in H as [(Hp & Hs & Ha) H]. cbn [map rounds hy2_udp_loop fst snd] in *.
    unfold hy2_udp_datagram. rewrite Hp, Ha, Hu. cbn [negb]. unfold round. cbn [fst snd].
    destruct (prune_reassembly now (us_reassembly st) (us_last_prune st)) as [m lp].
    destruct (match us_id_to_addr st !! d_session (dg i) with | Some old => _ | None => _ end)
      as [ss ids] eqn:E.
    assert (Hids : ids !! sid = Some addr).
    { subst sid addr. revert E. destruct (us_id_to_addr st !! d_session (dg i)) as [old|] eqn:Eo.
      - case_bool_decide; intros [= <- <-]; [by subst|apply lookup_insert_eq].
      - intros [= <- <-]. apply lookup_insert_eq. }
    destruct (server_reassemble now m (dg i)) as [m' o].
    specialize (IH (mkUdpState ss ids m' lp) H). cbn [us_reassembly us_last_prune us_id_to_addr] in IH.
    destruct (rounds server_reassemble (m', lp) _) as [s out].
    destruct IH as (st' & HR & Hm & Hid). exists st'. rewrite HR. split; [|split; [done|auto]].
    f_equal. rewrite map_app, Hs. f_equal. by destruct o.
Qed.

(** A timed permutation of an enumerated list is an enumeration by a
    permutation of the indices. *)
Lemma permutation_indices {A} (f : nat -> A) (n : nat) (l : list (Z * A)) :
  Permutation (map snd l) (map f (seq 0 n)) ->
  exists li : list (Z * nat), l = map (fun ti => (fst ti, f (snd ti))) li /\
    Permutation (map snd li) (seq 0 n) /\ map fst li = map fst l.
Proof.
  intros H. apply Permutation_map_inv in H as (ids & Hl & Hp).
  exists (zip (map fst l) ids).
  assert (Hlen : length ids = length l) by (apply (f_equal length) in Hl; by rewrite !length_map in Hl).
  assert (Hf : map fst (zip (map fst l) ids) = map fst l)
    by (apply fst_zip; rewrite length_map; lia).
  assert (Hs : map snd (zip (map fst l) ids) = ids)
    by (apply snd_zip; rewrite length_map; lia).
  split; [|split; [by rewrite Hs|done]].
  clear Hf Hs Hp. revert ids Hl Hlen. induction l as [|[t a] l IH]; intros ids Hl Hlen.
  - by destruct ids.
  - destruct ids as [|i ids]; [done|]. cbn [map fst snd zip zip_with] in *.
    injection Hl as -> Hl. f_equal. apply IH; [done|by injection Hlen].
Qed.

Lemma Forall_times (P : Z -> Prop) {A} (l : list (Z * A)) (li : list (Z * nat)) :
  map fst li = map fst l -> Forall (fun ti => P (fst ti)) l -> Forall (fun ti => P (fst ti)) li.
Proof.
  intros He H. apply List.Forall_map. rewrite He. by apply List.Forall_map.
Qed.

Lemma frag_count_covers (len p : nat) :
  (0 < p)%nat -> (len <= frag_count_of len p * p)%nat /\ (1 <= frag_count_of len p)%nat.
Proof.
  intros Hp. unfold frag_count_of.
  pose proof (Nat.div_mod_eq (len + p - 1) p).
  pose proof (Nat.mod_upper_bound (len + p - 1) p ltac:(lia)). nia.
Qed.

Lemma length_fragment (sid pid : Z) (addr buf : bytes) (p n i : nat) :
  Z.of_nat (length addr) < 2 ^ 62 ->
  (length (fragment sid pid addr buf p n i)
    <= 4 + 2 + 1 + 1 + varint_len (Z.of_nat (length addr)) + length addr + p)%nat.
Proof.
  intros Ha. unfold fragment.
  destruct (decode_write_varint (Z.of_nat (length addr)) [] ltac:(lia)) as [_ Hl].
  rewrite chunk_alt, !length_app, !length_be_bytes, Hl, length_take. simpl length. lia.
Qed.

Lemma send_datagrams_all (l : list bytes) (k : nat) :
  send_datagrams (fun _ => None) k l = (l, None).
Proof. revert k. induction l as [|d l IH]; intros k; [done|]. cbn [send_datagrams]. by rewrite IH. Qed.

(** A session obtained for a target is the one stored for it. *)
Lemma session_obtained (join : JoinPoll) (st st' : Hy2UdpState) (target : Address) (s : Session) :
  0 <= next_session_id st < 2 ^ 32 ->
  (forall s, sessions st !! target = Some (SReady s) ->
     0 <= session_id s < 2 ^ 32 /\ 0 <= next_packet_id s < 2 ^ 16 /\ address_str s = show_address target) ->
  (forall a, sessions st !! target = Some (SResolving a) -> a = show_address target) ->
  poll_get_or_create_session join st target = (st', Ready (Ok s)) ->
  sessions st' !! target = Some (SReady s) /\ 0 <= session_id s < 2 ^ 32 /\
  0 <= next_packet_id s < 2 ^ 16 /\ address_str s = show_address target.
Proof.
  intros Hnext Hready Hres Hg. unfold poll_get_or_create_session in Hg.
  destruct (sessions st !! target) as [[s0|a]|] eqn:E.
  - simplify_eq. destruct (Hready s eq_refl) as (? & ? & ?). done.
  - destruct join as [|[[peer|e]|e]]; simplify_eq/=. rewrite lookup_insert_eq. auto with lia.
  - destruct target as [sa|d p]; simplify_eq/=. rewrite lookup_insert_eq. auto with lia.
Qed.

Lemma indices_parse (sid pid : Z) (addr buf : bytes) (p n : nat) (li : list (Z * nat)) :
  0 <= sid < 2 ^ 32 -> 0 <= pid < 2 ^ 16 -> Z.of_nat (length addr) < 2 ^ 62 -> (n <= 255)%nat ->
  Permutation (map snd li) (seq 0 n) ->
  Forall (fun ti => parse_datagram (fragment sid pid addr buf p n (snd ti))
                      = Some (dgram sid pid addr buf p n (snd ti)) /\
    d_session (dgram sid pid addr buf p n (snd ti)) = sid /\
    d_addr (dgram sid pid addr buf p n (snd ti)) = addr) li.
Proof.
  intros Hs Hp Ha Hn Hperm. apply Forall_forall. intros [t i] Hin. cbn [snd].
  assert (i ∈ seq 0 n) as Hi%elem_of_seq.
  { rewrite <- Hperm. apply list_elem_of_In, (in_map snd li (t, i)). by apply list_elem_of_In. }
  split; [apply parse_fragment; (done || lia)|done].
Qed.

(** ** The reassembly table *)

Definition count_some (l : list (option bytes)) : nat :=
  length (filter (fun o : option bytes => is_Some o) l).

(** An incomplete packet: one slot per fragment, [received] of them filled. *)
Definition entry_ok (e : Reassembly) : Prop :=
  1 < frag_count e <= 255 /\ Z.of_nat (length (frags e)) = frag_count e /\
  received e = Z.of_nat (count_some (frags e)) /\ received e < frag_count e.

Definition table_ok (m : gmap (Z * Z) Reassembly) : Prop :=
  map_Forall (fun _ e => entry_ok e) m /\ (size m <= S REASSEMBLY_MAX_ENTRIES)%nat.

Lemma count_some_insert (l : list (option bytes)) (i : nat) (b : bytes) :
  l !! i = Some None -> count_some (<[i := Some b]> l) = S (count_some l).
Proof.
  unfold count_some. revert i. induction l as [|o l IH]; intros i H; [done|].
  destruct i as [|i]; simpl in H.
  - simplify_eq. cbn [insert list_insert]. rewrite filter_cons_True by done.
    rewrite filter_cons_False by (by intros [? ?]). done.
  - cbn [insert list_insert]. destruct (decide (is_Some o)).
    + rewrite !filter_cons_True by done. cbn [length]. f_equal. by apply IH.
    + rewrite !filter_cons_False by done. by apply IH.
Qed.

Lemma count_some_le (l : list (option bytes)) : (count_some l <= length l)%nat.
Proof. apply length_filter. Qed.

Lemma new_reassembly_ok (n now : Z) : 1 < n <= 255 -> entry_ok (new_reassembly n now).
Proof.
  intros Hn. unfold new_reassembly, entry_ok. cbn [frag_count frags received].
  split; [done|]. rewrite length_replicate. split; [lia|].
  assert (H0 : forall k, count_some (replicate k None) = 0%nat).
  { intros k. unfold count_some. induction k as [|k IH]; [done|]. cbn [replicate].
    by rewrite filter_cons_False by (by intros [? ?]). }
  rewrite H0. lia.
Qed.

Lemma store_frag_ok (e : Reassembly) (i : Z) (b : bytes) :
  entry_ok e ->
  let e' := store_frag e i b in
  frag_count e' = frag_count e /\ (received e' = frag_count e' \/ entry_ok e').
Proof.
  intros (H1 & H2 & H3 & H4). unfold store_frag.
  destruct (frags e !! Z.to_nat i) as [[x|]|] eqn:E; try (split; [done|by right]).
  cbv zeta. cbn [frag_count received]. split; [done|].
  assert (Hle : (count_some (<[Z.to_nat i := Some b]> (frags e)) <= length (frags e))%nat)
    by (etrans; [apply count_some_le|by rewrite length_insert]).
  rewrite count_some_insert in Hle by done.
  destruct (decide (Z.min 255 (received e + 1) = frag_count e)) as [Heq|Hne]; [by left|right].
  unfold entry_ok. cbn [frag_count received frags]. rewrite length_insert, count_some_insert by done.
  repeat split; lia.
Qed.

Lemma prune_table_ok (now : Z) (m : gmap (Z * Z) Reassembly) (lp : Z) :
  map_Forall (fun _ e => entry_ok e) m ->
  map_Forall (fun _ e => entry_ok e) (prune_reassembly now m lp).1 /\
  (size (prune_reassembly now m lp).1 <= REASSEMBLY_MAX_ENTRIES)%nat.
Proof.
  intros H. split; [|apply prune_size].
  unfold prune_reassembly. destruct (_ && _); [done|]. cbn [fst].
  destruct (_ <? _)%nat; [apply map_Forall_empty|].
  intros k e Hk. apply map_lookup_filter_Some in Hk as [Hk _]. by apply (H k).
Qed.

Lemma accept_table_ok (now : Z) (m : gmap (Z * Z) Reassembly) (e : Reassembly) (d : Datagram) :
  map_Forall (fun _ e => entry_ok e) m -> (size m <= REASSEMBLY_MAX_ENTRIES)%nat ->
  entry_ok e -> frag_count e = d_count d -> table_ok (accept_frag now m e d).1.
Proof.
  intros Hm Hs He Hc. unfold accept_frag.
  destruct (store_frag_ok e (d_frag d) (d_payload d) He) as [Hc' Hor].
  destruct (_ =? _) eqn:E; bools; cbn [fst].
  - split; [by apply map_Forall_delete|]. rewrite map_size_delete. case_match; unfold id; lia.
  - split; [|rewrite map_size_insert; case_match; unfold id; lia].
    apply map_Forall_insert_2; [|done]. destruct Hor as [Hor|]; [|done]. congruence.
Qed.

Lemma parse_count (dgr : bytes) (d : Datagram) :
  bytes_ok dgr -> parse_datagram dgr = Some d -> 0 <= d_count d <= 255.
Proof.
  intros Hok H. unfold parse_datagram in H. repeat case_match; simplify_eq.
  cbn [d_count]. destruct (nth_in_or_default 7 dgr 0) as [Hin|Hd]; [|rewrite Hd; lia].
  apply list_elem_of_In in Hin. unfold bytes_ok in Hok. rewrite Forall_forall in Hok.
  specialize (Hok _ Hin). unfold byte_ok in Hok. lia.
Qed.

Lemma default_entry_ok (now : Z) (m : gmap (Z * Z) Reassembly) (k : Z * Z) (n : Z) :
  1 < n <= 255 -> map_Forall (fun _ e => entry_ok e) m ->
  entry_ok (default (new_reassembly n now) (m !! k)).
Proof.
  intros Hn Hm. destruct (m !! k) as [e|] eqn:E; [by apply (Hm k)|by apply new_reassembly_ok].
Qed.

(** Deleting, or storing a well-formed entry, keeps the table in bounds. *)
Lemma table_ok_delete (m : gmap (Z * Z) Reassembly) (k : Z * Z) :
  map_Forall (fun _ e => entry_ok e) m -> (size m <= REASSEMBLY_MAX_ENTRIES)%nat ->
  table_ok (delete k m).
Proof.
  intros Hm Hs. split; [by apply map_Forall_delete|].
  rewrite map_size_delete. case_match; unfold id; lia.
Qed.

Lemma table_ok_insert (m : gmap (Z * Z) Reassembly) (k : Z * Z) (e : Reassembly) :
  map_Forall (fun _ e => entry_ok e) m -> (size m <= REASSEMBLY_MAX_ENTRIES)%nat ->
  entry_ok e -> table_ok (<[k := e]> m).
Proof.
  intros Hm Hs He. split; [by apply map_Forall_insert_2|].
  rewrite map_size_insert. case_match; unfold id; lia.
Qed.

Lemma client_table_ok (now : Z) (m : gmap (Z * Z) Reassembly) (d : Datagram) :
  d_count d <= 255 -> map_Forall (fun _ e => entry_ok e) m ->
  (size m <= REASSEMBLY_MAX_ENTRIES)%nat -> table_ok (client_reassemble now m d).1.
Proof.
  intros Hc Hm Hs. unfold client_reassemble.
  destruct (d_count d <=? 1) eqn:E1; bools; [split; [done|cbn [fst]; lia]|].
  pose proof (default_entry_ok now m (d_session d, d_packet d) (d_count d) ltac:(lia) Hm) as He.
  destruct (negb _) eqn:E2; [by apply table_ok_delete|]. bools.
  destruct (_ <? _) eqn:E3; [by apply table_ok_delete|].
  destruct (d_count d <=? d_frag d); [by apply table_ok_insert|].
  by apply (accept_table_ok now m _ d).
Qed.

Lemma server_table_ok (now : Z) (m : gmap (Z * Z) Reassembly) (d : Datagram) :
  d_count d <= 255 -> map_Forall (fun _ e => entry_ok e) m ->
  (size m <= REASSEMBLY_MAX_ENTRIES)%nat -> table_ok (server_reassemble now m d).1.
Proof.
  intros Hc Hm Hs. unfold server_reassemble.
  destruct (d_count d <=? 1) eqn:E1; bools; [split; [done|cbn [fst]; lia]|].
  pose proof (default_entry_ok now m (d_session d, d_packet d) (d_count d) ltac:(lia) Hm) as He.
  destruct (_ <? _) eqn:E3; [by apply table_ok_delete|].
  destruct (negb _ || _) eqn:E2; [by apply table_ok_delete|]. bools.
  by apply (accept_table_ok now m _ d).
Qed.

Lemma recv_table_ok (now : Z) (st : Hy2UdpState) (dgr : bytes) :
  bytes_ok dgr -> table_ok (reassembly st) -> table_ok (reassembly (recv_datagram now st dgr).1).
Proof.
  intros Hok. unfold recv_datagram. destruct (parse_datagram dgr) as [d|] eqn:Ed; [|done].
  pose proof (parse_count _ _ Hok Ed) as [_ Hcount].
  intros [Hm Hs]. pose proof (prune_table_ok now _ (last_prune st) Hm) as [Hm' Hs'].
  destruct (prune_reassembly now (reassembly st) (last_prune st)) as [m lp]. cbn [fst id_to_peer reassembly] in *.
  destruct (id_to_peer st !! d_session d) as [peer|]; [|split; [done|cbn; lia]].
  pose proof (client_table_ok now m d Hcount Hm' Hs') as H.
  by destruct (client_reassemble now m d).
Qed.

Lemma hy2_udp_table_ok (now : Z) (srv : UdpState) (dgr : bytes) :
  bytes_ok dgr -> table_ok (us_reassembly srv) -> table_ok (us_reassembly (hy2_udp_datagram now srv dgr).1).
Proof.
  intros Hok. unfold hy2_udp_datagram. destruct (parse_datagram dgr) as [d|] eqn:Ed; [|done].
  pose proof (parse_count _ _ Hok Ed) as [_ Hcount].
  intros [Hm Hs]. destruct (negb _); [done|].
  pose proof (prune_table_ok now _ (us_last_prune srv) Hm) as [Hm' Hs'].
  destruct (prune_reassembly now (us_reassembly srv) (us_last_prune srv)) as [m lp]. cbn [fst] in *.
  destruct (match us_id_to_addr srv !! d_session d with | Some old => _ | None => _ end) as [ss ids].
  pose proof (server_table_ok now m d Hcount Hm' Hs') as H.
  by destruct (server_reassemble now m d).
Qed.

Lemma table_ok_empty : table_ok ∅.
Proof. split; [apply map_Forall_empty|]. rewrite map_size_empty. lia. Qed.

End HyUdpLemmas.
Export HyUdpLemmas.

(** ** Properties *)

(** C13: UDP fragmentation, client to server.  Whenever the client's
    [poll_send_to] succeeds, it reports the whole payload, no datagram exceeds
    the connection's limit, and a server that has no half-received packet
    under the same key and fewer than [REASSEMBLY_MAX_ENTRIES] half-received
    packets in all (at that number a prune may drop the packet between its
    fragments), and that receives these datagrams in any order within the
    reassembly time and nothing else between them, hands exactly the original
    payload to the session, whose target is then the address the client sent
    to. *)
Theorem hy2_udp_client_to_server (max : nat) (join : JoinPoll) (st st' : Hy2UdpState)
    (buf : bytes) (target : Address) (sent : list bytes) (k : nat) :
  Z.of_nat max < 2 ^ 62 ->
  0 <= next_session_id st < 2 ^ 32 ->
  (forall s, sessions st !! target = Some (SReady s) ->
     0 <= session_id s < 2 ^ 32 /\ 0 <= next_packet_id s < 2 ^ 16 /\ address_str s = show_address target) ->
  (forall a, sessions st !! target = Some (SResolving a) -> a = show_address target) ->
  utf8_valid (show_address target) = true ->
  poll_send_to (Some max) join (fun _ => None) st buf target = (st', sent, Ready (Ok k)) ->
  k = length buf /\ Forall (fun d => (length d <= max)%nat) sent /\
  exists st1 s, poll_get_or_create_session join st target = (st1, Ready (Ok s)) /\
  sessions st' !! target = Some (SReady (bump_packet_id s)) /\
  forall (srv : UdpState) (t0 : Z) (l : list (Z * bytes)),
    Permutation (map snd l) sent ->
    Forall (fun td => t0 <= fst td <= t0 + REASSEMBLY_TTL) l ->
    us_reassembly srv !! (session_id s, next_packet_id s) = None ->
    (size (us_reassembly srv) < REASSEMBLY_MAX_ENTRIES)%nat ->
    exists srv', hy2_udp_loop srv l = (srv', [(session_id s, buf)]) /\
      us_id_to_addr srv' !! session_id s = Some (show_address target) /\
      us_reassembly srv' !! (session_id s, next_packet_id s) = None.
Proof.
  intros Hmax Hnext Hready Hres Hutf Hsend. unfold poll_send_to in Hsend.
  destruct (poll_get_or_create_session join st target) as [st1 [|[s0|e]]] eqn:Eg;
    [by simplify_eq| |by simplify_eq].
  assert (Hs0 : sessions st1 !! target = Some (SReady s0) /\ 0 <= session_id s0 < 2 ^ 32 /\
    0 <= next_packet_id s0 < 2 ^ 16 /\ address_str s0 = show_address target)
    by (by eapply session_obtained).
  destruct Hs0 as (Hlook & Hsid & Hpid & Haddr). rewrite Haddr, Hlook in Hsend.
  set (addr := show_address target) in *.
  set (hl := (4 + 2 + 1 + 1 + varint_len (Z.of_nat (length addr)) + length addr)%nat) in *.
  destruct (max <=? hl)%nat eqn:E1; [by simplify_eq|]. bools.
  destruct (255 <? frag_count_of (length buf) (max - hl))%nat eqn:E2; [by simplify_eq|]. bools.
  rewrite send_datagrams_all in Hsend. injection Hsend as <- <- <-.
  destruct (frag_count_covers (length buf) (max - hl) ltac:(lia)) as [Hcov Hone].
  assert (Ha : Z.of_nat (length addr) < 2 ^ 62) by lia.
  set (n := frag_count_of (length buf) (max - hl)) in *. rewrite make_fragments_map.
  split; [done|]. split.
  { apply List.Forall_map, Forall_true. intros i.
    pose proof (length_fragment (session_id s0) (next_packet_id s0) addr buf (max - hl) n i Ha). lia. }
  exists st1, s0. split; [done|]. split; [apply lookup_insert_eq|].
  intros srv t0 l Hperm Ht Hnone Hsize.
  destruct (permutation_indices _ n l Hperm) as (li & -> & Hp & Hfst).
  apply (Forall_times (fun t => t0 <= t <= t0 + REASSEMBLY_TTL) _ li) in Ht; [|by rewrite Hfst].
  pose proof (hy2_udp_loop_rounds (fragment (session_id s0) (next_packet_id s0) addr buf (max - hl) n)
    (dgram (session_id s0) (next_packet_id s0) addr buf (max - hl) n) (session_id s0) addr li srv Hutf) as HL.
  destruct (rounds_deliver server_reassemble (session_id s0) (next_packet_id s0) addr buf (max - hl) n t0
    ltac:(lia) Hcov li (us_reassembly srv, us_last_prune srv) Hp Ht Hnone Hsize) as (s' & Hr & Hk).
  rewrite Hr in HL. destruct HL as (srv' & Hloop & Hm & Hid).
  { eapply indices_parse; eauto; lia. }
  exists srv'. split; [done|]. split; [|by rewrite Hm].
  apply Hid. intros ->. apply Permutation_length in Hp. rewrite length_seq in Hp. simpl in Hp. lia.
Qed.

Lemma hy2_udp_client_to_server_witness :
  exists srv', hy2_udp_loop (mkUdpState ∅ ∅ ∅ 0)
    (rev (map (pair 5) (make_fragments 7 0 (lit "a:53") 2 3 [1; 2; 3; 4; 5])))
    = (srv', [(7, [1; 2; 3; 4; 5])]).
Proof.
  set (target := ADomain (lit "a") 53). set (buf := [1; 2; 3; 4; 5]).
  set (st := mkState 8 {[ target := SReady (mkSession 7 (lit "a:53") 0) ]} ∅ ∅ 0).
  assert (Hl : sessions st !! target = Some (SReady (mkSession 7 (lit "a:53") 0)))
    by apply lookup_insert_eq.
  assert (Hsend : poll_send_to (Some 15%nat) Pending (fun _ => None) st buf target =
    (mkState 8 (<[target := SReady (mkSession 7 (lit "a:53") 1)]> (sessions st)) ∅ ∅ 0,
     make_fragments 7 0 (lit "a:53") 2 3 buf, Ready (Ok 5%nat))).
  { unfold poll_send_to, poll_get_or_create_session. rewrite Hl. cbv iota. rewrite Hl. reflexivity. }
  destruct (hy2_udp_client_to_server 15 Pending st _ buf target _ 5 ltac:(reflexivity)
    ltac:(split; [discriminate|reflexivity])
    ltac:(intros s Hs; rewrite Hl in Hs; injection Hs as <-; cbn; split; [lia|split; [lia|reflexivity]])
    ltac:(intros a Ha; rewrite Hl in Ha; discriminate) eq_refl Hsend) as (_ & _ & st1 & s & Hs & _ & H).
  unfold poll_get_or_create_session in Hs. rewrite Hl in Hs. injection Hs as <- <-.
  destruct (H (mkUdpState ∅ ∅ ∅ 0) 0
    (rev (map (pair 5) (make_fragments 7 0 (lit "a:53") 2 3 buf)))) as (srv' & Hr & _).
  - apply (Permutation_map snd (l' := map (pair 5) (make_fragments 7 0 (lit "a:53") 2 3 buf))).
    symmetry. apply Permutation_rev.
  - apply List.Forall_rev, List.Forall_map, Forall_true. intros d. cbn. unfold REASSEMBLY_TTL. lia.
  - reflexivity.
  - apply Nat.ltb_lt. reflexivity.
  - exists srv'. exact Hr.
Defined.

(** UDP fragmentation, server to client.  The datagrams a server session
    sends for a packet of the target (at most 255 of them, or none), received
    by the client in any order within the reassembly time, yield exactly that
    packet, from the peer the session was opened for. *)
Theorem hy2_udp_server_to_client (max : option nat) (sid pid : Z) (addr data : bytes)
    (st : Hy2UdpState) (peer : SocketAddr) (t0 : Z) (l : list (Z * bytes)) :
  0 <= sid < 2 ^ 32 -> 0 <= pid < 2 ^ 16 -> Z.of_nat (length addr) < 2 ^ 62 ->
  id_to_peer st !! sid = Some peer ->
  reassembly st !! (sid, pid) = None ->
  (size (reassembly st) < REASSEMBLY_MAX_ENTRIES)%nat ->
  Permutation (map snd l) (session_reply max sid pid addr data).1 ->
  Forall (fun td => t0 <= fst td <= t0 + REASSEMBLY_TTL) l ->
  exists st', recv_loop st l = (st', if decide (l = []) then [] else [mkIncoming peer data]) /\
    reassembly st' !! (sid, pid) = None /\ id_to_peer st' = id_to_peer st.
Proof.
  intros Hsid Hpid Ha Hpeer Hnone Hsize Hperm Ht. unfold session_reply in Hperm.
  set (hl := (4 + 2 + 1 + 1 + varint_len (Z.of_nat (length addr)) + length addr)%nat) in *.
  set (p := Nat.max (default 1200%nat max - hl) 1) in *. cbn [fst] in Hperm.
  destruct (frag_count_covers (length data) p ltac:(lia)) as [Hcov Hone].
  destruct (255 <? frag_count_of (length data) p)%nat eqn:E; bools.
  { apply Permutation_nil_r in Hperm. destruct l; [|done]. by exists st. }
  set (n := frag_count_of (length data) p) in *. rewrite make_fragments_map in Hperm.
  destruct (permutation_indices _ n l Hperm) as (li & -> & Hp & Hfst).
  apply (Forall_times (fun t => t0 <= t <= t0 + REASSEMBLY_TTL) _ li) in Ht; [|by rewrite Hfst].
  pose proof (recv_loop_rounds (fragment sid pid addr data p n) (dgram sid pid addr data p n) peer li st) as HL.
  destruct (rounds_deliver client_reassemble sid pid addr data p n t0 ltac:(lia) Hcov li
    (reassembly st, last_prune st) Hp Ht Hnone Hsize) as (s' & Hr & Hk).
  rewrite Hr in HL. rewrite HL; clear HL.
  - exists (mkState (next_session_id st) (sessions st) (id_to_peer st) s'.1 s'.2).
    split; [|by split]. f_equal. rewrite decide_False; [done|].
    intros Hnil. apply map_eq_nil in Hnil as ->.
    apply Permutation_length in Hp. rewrite length_seq in Hp. simpl in Hp. lia.
  - eapply Forall_impl; [eapply (indices_parse sid pid addr data p n li); (done || lia)|].
    intros [t i] (H1 & H2 & _). cbn [snd] in *. by rewrite H2.
Qed.

Lemma hy2_udp_server_to_client_witness :
  exists st', recv_loop (mkState 8 ∅ {[ 7 := mkSocketAddr (V4 1) 53 ]} ∅ 0)
    (rev (map (pair 5) (session_reply (Some 15%nat) 7 9 (lit "a:53") [1; 2; 3; 4; 5]).1))
    = (st', [mkIncoming (mkSocketAddr (V4 1) 53) [1; 2; 3; 4; 5]]).
Proof.
  destruct (hy2_udp_server_to_client (Some 15%nat) 7 9 (lit "a:53") [1; 2; 3; 4; 5]
    (mkState 8 ∅ {[ 7 := mkSocketAddr (V4 1) 53 ]} ∅ 0) (mkSocketAddr (V4 1) 53) 0
    (rev (map (pair 5) (session_reply (Some 15%nat) 7 9 (lit "a:53") [1; 2; 3; 4; 5]).1)))
    as (st' & H & _).
  - lia.
  - lia.
  - reflexivity.
  - apply lookup_insert_eq.
  - reflexivity.
  - apply Nat.ltb_lt. reflexivity.
  - apply (Permutation_map snd
      (l' := map (pair 5) (session_reply (Some 15%nat) 7 9 (lit "a:53") [1; 2; 3; 4; 5]).1)).
    symmetry. apply Permutation_rev.
  - apply List.Forall_rev, List.Forall_map, Forall_true. intros d. cbn. unfold REASSEMBLY_TTL. lia.
  - exists st'. exact H.
Defined.


(** Two of three fragments of a packet, of which one twice, and one fragment
    of a second packet: two incomplete packets on either side; and the
    missing fragment completes the first. *)
Definition sample_fragments : list (Z * bytes) :=
  let p := make_fragments 7 0 (lit "a:53") 2 3 [1; 2; 3; 4; 5] in
  let q := make_fragments 7 1 (lit "a:53") 2 2 [6; 7; 8] in
  map (pair 5) (take 2 p ++ take 1 p ++ drop 1 q).
Definition sample_last : Z * bytes := (6, default [] (last (make_fragments 7 0 (lit "a:53") 2 3 [1; 2; 3; 4; 5]))).
Definition sample_client : Hy2UdpState := mkState 8 ∅ {[ 7 := mkSocketAddr (V4 1) 53 ]} ∅ 0.
Definition sample_srv : UdpState := mkUdpState ∅ ∅ ∅ 0.


(** The constant is exceeded: a table full of live packets takes one more. *)
Lemma prune_full_live (now : Z) (m : gmap (Z * Z) Reassembly) (lp : Z) :
  size m = REASSEMBLY_MAX_ENTRIES -> map_Forall (fun _ e => duration_since now (created_at e) <= REASSEMBLY_TTL) m ->
  prune_reassembly now m lp = (m, now).
Proof.
  intros Hs Hl. unfold prune_reassembly. rewrite Hs, Nat.ltb_irrefl, andb_false_r. rewrite map_filter_id by (intros k e; apply Hl).
  by rewrite Hs, Nat.ltb_irrefl.
Qed.

Lemma hy2_table_over_max (now : Z) (m : gmap (Z * Z) Reassembly) (lp : Z) (d : Datagram) :
  size m = REASSEMBLY_MAX_ENTRIES -> map_Forall (fun _ e => duration_since now (created_at e) <= REASSEMBLY_TTL) m ->
  m !! (d_session d, d_packet d) = None -> 1 < d_count d <= 255 -> 0 <= d_frag d < d_count d ->
  size (client_reassemble now (prune_reassembly now m lp).1 d).1 = S REASSEMBLY_MAX_ENTRIES.
Proof.
  intros Hs Hl Hn Hc Hf. rewrite prune_full_live by done. cbn [fst].
  rewrite (reassemble_live (R := client_reassemble) now m d (new_reassembly (d_count d) now)); try lia; [|by rewrite Hn|done|].
  2: { cbn [new_reassembly created_at]. unfold duration_since, REASSEMBLY_TTL. lia. }
  unfold accept_frag, store_frag. cbn [new_reassembly frags frag_count received created_at].
  rewrite (proj2 (lookup_replicate _ _ _ _)) by (split; [done | lia]). cbn [received].
  replace (Z.min 255 (0 + 1) =? d_count d) with false by (symmetry; apply Z.eqb_neq; lia).
  cbn [fst]. rewrite map_size_insert, Hn. by f_equal.
Qed.
