(* ===== verification/HyNet.v ===== *)
(** * Hysteria2, the net and the server around the codecs:
    [protocol/hysteria/src/client.rs] and [server.rs]

    The client's one connection, the server's gate, and the server's UDP
    sessions as concurrent tasks on a shared table.  A run of the server is a
    sequence of steps, one for each stretch of a task between two awaits;
    nothing happens in a step that another task could see half done. *)

From S2P Require Import Prelude Text Io Address Hysteria HyUdp.

Module HyNet.

(** ** The server's UDP sessions *)

(** The task of a session. *)
(* src/protocol/hysteria/src/server.rs:535-550 udp_session_loop (task) *)
Record SessionTask : Type := mkTask {
  tk_sid : Z;
  tk_target : Address;
  tk_addr : bytes;
  tk_queue : list bytes;
  tk_max : option nat;
  tk_packet_id : Z;
  tk_alive : bool }.

(** [udp_send_to_target], at its start, after its first lookup, and with the
    session it sends to. *)
Inductive SendTask : Type :=
| SendStart (sid : Z) (payload : bytes)
| SendBinding (sid : Z) (payload addr_str : bytes) (target : Address)
| SendQueue (sid : Z) (h : nat) (payload : bytes)
| SendDone.

Record UdpServer : Type := mkUdpServer {
  us : UdpState;
  us_tasks : list SessionTask;
  us_sends : list SendTask }.

(** The capacity of a session's channel. *)
Definition CHANNEL : nat := 1024.

Inductive UdpStep : Type :=
| UDatagram (now : Z) (d : bytes)
| USend (i : nat)
| UBound (i : nat) (r : res ()) (max : option nat)
| UQueue (i : nat)
| UOut (h : nat)
| UIn (h : nat) (r : res bytes) (sent : nat -> bool)
| UIdle (h : nat).

(** What is seen of a step: a task is spawned for a payload; a session sends
    a datagram to its target; datagrams go to the client. *)
Inductive UdpAct : Type :=
| ASpawn (sid : Z) (payload : bytes)
| ASendTo (sid : Z) (target : Address) (payload : bytes)
| AClient (l : list bytes).

Definition set_send (s : UdpServer) (i : nat) (t : SendTask) : UdpServer :=
  mkUdpServer (us s) (us_tasks s) (<[i := t]> (us_sends s)).
Definition set_task (s : UdpServer) (h : nat) (t : SessionTask) : UdpServer :=
  mkUdpServer (us s) (<[h := t]> (us_tasks s)) (us_sends s).
Definition with_queue (t : SessionTask) (q : list bytes) : SessionTask :=
  mkTask (tk_sid t) (tk_target t) (tk_addr t) q (tk_max t) (tk_packet_id t) (tk_alive t).

(** Both locks of the first lines are taken without an await in between. *)
(* src/protocol/hysteria/src/server.rs:486-500 udp_send_to_target (lookup) *)
Definition udp_send_start (st : UdpState) (sid : Z) (payload : bytes) : SendTask :=
  match us_sessions st !! sid with
  | Some h => SendQueue sid h payload
  | None =>
    match us_id_to_addr st !! sid with
    | None => SendDone
    | Some addr_str =>
      match into_address addr_str with
      | Err _ => SendDone
      | Ok target => SendBinding sid payload addr_str target
      end
    end
  end.

(** After [udp_bind]: the session is created unless another task did so
    meanwhile. *)
(* src/protocol/hysteria/src/server.rs:501-526 udp_send_to_target (session) *)
Definition udp_send_bound (s : UdpServer) (i : nat) (sid : Z) (payload addr_str : bytes) (target : Address) (r : res ()) (max : option nat) : UdpServer :=
  match r with
  | Err _ => set_send s i SendDone
  | Ok _ =>
    match us_sessions (us s) !! sid with
    | Some h => set_send s i (SendQueue sid h payload)
    | None =>
      let h := length (us_tasks s) in
      let st := us s in
      mkUdpServer (mkUdpState (<[sid := h]> (us_sessions st)) (us_id_to_addr st) (us_reassembly st) (us_last_prune st))
        (us_tasks s ++ [mkTask sid target addr_str [] max 0 true]) (<[i := SendQueue sid h payload]> (us_sends s))
    end
  end.

(** The channel's receiver goes with the task. *)
(* src/protocol/hysteria/src/server.rs:527-532 udp_send_to_target (send) *)
Definition udp_send_queue (s : UdpServer) (i h : nat) (payload : bytes) : UdpServer :=
  match us_tasks s !! h with
  | Some t =>
    if tk_alive t then
      if (length (tk_queue t) <? CHANNEL)%nat then set_send (set_task s h (with_queue t (tk_queue t ++ [payload]))) i SendDone else s
    else set_send s i SendDone
  | None => s
  end.

Definition kill (t : SessionTask) (pid : Z) : SessionTask := mkTask (tk_sid t) (tk_target t) (tk_addr t) [] (tk_max t) pid false.

(** A session's task takes what is queued first. *)
(* src/protocol/hysteria/src/server.rs:552-559 udp_session_loop (out) *)
Definition session_out (s : UdpServer) (h : nat) (t : SessionTask) : UdpServer * list UdpAct :=
  match tk_queue t with
  | [] => (s, [])
  | p :: q => (set_task s h (with_queue t q), [ASendTo (tk_sid t) (tk_target t) p])
  end.

(** Until one cannot be sent. *)
Fixpoint sent_prefix (k : nat) (sent : nat -> bool) (l : list bytes) : list bytes * bool :=
  match l with
  | [] => ([], true)
  | d :: l => if sent k then let '(o, b) := sent_prefix (S k) sent l in (d :: o, b) else ([], false)
  end.

(** An error of either side ends the task, which leaves the table as it is. *)
(* src/protocol/hysteria/src/server.rs:560-594 udp_session_loop (in) *)
Definition session_in (s : UdpServer) (h : nat) (t : SessionTask) (r : res bytes) (sent : nat -> bool)
    : UdpServer * list UdpAct :=
  match r with
  | Err _ => (set_task s h (kill t (tk_packet_id t)), [])
  | Ok data =>
    let '(l, pid) := session_reply (tk_max t) (tk_sid t) (tk_packet_id t) (tk_addr t) data in
    let '(o, all) := sent_prefix 0 sent l in
    if all then (set_task s h (mkTask (tk_sid t) (tk_target t) (tk_addr t) (tk_queue t) (tk_max t) pid true), [AClient o])
    else (set_task s h (kill t pid), [AClient o])
  end.

(** The idle time is over. *)
(* src/protocol/hysteria/src/server.rs:595-602 udp_session_loop (idle) *)
Definition session_idle (s : UdpServer) (h : nat) (t : SessionTask) : UdpServer :=
  let st := us s in
  set_task (mkUdpServer (mkUdpState (delete (tk_sid t) (us_sessions st)) (delete (tk_sid t) (us_id_to_addr st))
    (us_reassembly st) (us_last_prune st)) (us_tasks s) (us_sends s)) h (kill t (tk_packet_id t)).

(** With a live task. *)
Definition with_task (s : UdpServer) (h : nat) (f : SessionTask -> UdpServer * list UdpAct) : UdpServer * list UdpAct :=
  match us_tasks s !! h with
  | Some t => if tk_alive t then f t else (s, [])
  | None => (s, [])
  end.

Definition udp_step (s : UdpServer) (e : UdpStep) : UdpServer * list UdpAct :=
  match e with
  | UDatagram now d =>
    let '(st, o) := hy2_udp_datagram now (us s) d in
    match o with
    | Some (sid, p) => (mkUdpServer st (us_tasks s) (us_sends s ++ [SendStart sid p]), [ASpawn sid p])
    | None => (mkUdpServer st (us_tasks s) (us_sends s), [])
    end
  | USend i =>
    match us_sends s !! i with
    | Some (SendStart sid p) => (set_send s i (udp_send_start (us s) sid p), [])
    | _ => (s, [])
    end
  | UBound i r max =>
    match us_sends s !! i with
    | Some (SendBinding sid p a t) => (udp_send_bound s i sid p a t r max, [])
    | _ => (s, [])
    end
  | UQueue i =>
    match us_sends s !! i with
    | Some (SendQueue _ h p) => (udp_send_queue s i h p, [])
    | _ => (s, [])
    end
  | UOut h => with_task s h (session_out s h)
  | UIn h r sent =>
    with_task s h (fun t => match tk_queue t with [] => session_in s h t r sent | _ => (s, []) end)
  | UIdle h =>
    with_task s h (fun t => match tk_queue t with [] => (session_idle s h t, []) | _ => (s, []) end)
  end.

Fixpoint udp_run (s : UdpServer) (l : list UdpStep) : UdpServer * list UdpAct :=
  match l with
  | [] => (s, [])
  | e :: l => let '(s, a) := udp_step s e in let '(s, b) := udp_run s l in (s, a ++ b)
  end.

Definition udp_server_new (now : Z) : UdpServer := mkUdpServer (mkUdpState ∅ ∅ ∅ now) [] [].

(** ** Counting payloads *)

Definition spawned (l : list UdpAct) : list (Z * bytes) := l ≫= fun a => match a with ASpawn sid p => [(sid, p)] | _ => [] end.
Definition sent (l : list UdpAct) : list (Z * bytes) := l ≫= fun a => match a with ASendTo sid _ p => [(sid, p)] | _ => [] end.
Definition queued (t : SessionTask) : list (Z * bytes) := pair (tk_sid t) <$> tk_queue t.
Definition sending (d : SendTask) : list (Z * bytes) :=
  match d with
  | SendStart sid p | SendBinding sid p _ _ | SendQueue sid _ p => [(sid, p)]
  | SendDone => []
  end.

Definition occ (x : Z * bytes) (l : list (Z * bytes)) : nat := length (filter (fun y => y = x) l).

Lemma occ_app x l k : occ x (l ++ k) = (occ x l + occ x k)%nat.
Proof. unfold occ. by rewrite filter_app, length_app. Qed.

Lemma occ_cons x y l : occ x (y :: l) = (occ x [y] + occ x l)%nat.
Proof. apply (occ_app x [y] l). Qed.

Lemma occ_insert {A} x (f : A -> list (Z * bytes)) l i y z : l !! i = Some y ->
  (occ x (<[i := z]> l ≫= f) + occ x (f y) = occ x (l ≫= f) + occ x (f z))%nat.
Proof.
  intros H. pose proof (lookup_lt_Some _ _ _ H). rewrite insert_take_drop by done.
  rewrite <- (take_drop_middle l i y H) at 3. rewrite !bind_app, !bind_cons, !occ_app. lia.
Qed.

Lemma occ_snoc {A} x (f : A -> list (Z * bytes)) l y : occ x ((l ++ [y]) ≫= f) = (occ x (l ≫= f) + occ x (f y))%nat.
Proof. rewrite bind_app, occ_app. cbn. by rewrite app_nil_r. Qed.

Lemma elem_of_insert_inv {A} (l : list A) i x y : x ∈ <[i := y]> l -> x = y \/ x ∈ l.
Proof.
  intros (j & Hj)%list_elem_of_lookup. apply list_lookup_insert_Some in Hj as [(-> & -> & _)|[_ Hj]]; [by left|].
  right. by eapply list_elem_of_lookup_2.
Qed.

(** What refers to a session refers to one of its number, and every payload
    is sent, queued or on its way at most as often as it was complete. *)
Definition refers (s : UdpServer) (sid : Z) (h : nat) : Prop := exists t, us_tasks s !! h = Some t /\ tk_sid t = sid.

Record udp_ok (acts : list UdpAct) (s : UdpServer) : Prop := mkUdpOk {
  ok_table sid h : us_sessions (us s) !! sid = Some h -> refers s sid h;
  ok_sends sid h p : SendQueue sid h p ∈ us_sends s -> refers s sid h;
  ok_count x : (occ x (sent acts) + occ x (us_tasks s ≫= queued) + occ x (us_sends s ≫= sending) <= occ x (spawned acts))%nat }.

Lemma refers_task s h t t' sid k : us_tasks s !! h = Some t -> tk_sid t' = tk_sid t -> refers s sid k -> refers (set_task s h t') sid k.
Proof.
  intros H E (u & Hu & <-). unfold refers, set_task. cbn [us_tasks]. destruct (decide (k = h)) as [->|Hn].
  - rewrite list_lookup_insert_eq by (by eapply lookup_lt_Some). simplify_eq. eauto.
  - rewrite list_lookup_insert_ne by done. eauto.
Qed.

Lemma send_ok acts s i d d' : us_sends s !! i = Some d -> udp_ok acts s ->
  (forall sid h p, d' = SendQueue sid h p -> refers s sid h) -> (forall x, (occ x (sending d') <= occ x (sending d))%nat) ->
  udp_ok acts (set_send s i d').
Proof.
  intros H [H1 H2 H3] Hr Hx. split; [done| |].
  - intros sid h p Hin. cbn [set_send us_sends] in Hin. apply elem_of_insert_inv in Hin as [E|Hin]; [by eapply Hr|by eapply H2].
  - intros x. cbn [set_send us_sends us_tasks]. pose proof (occ_insert x sending (us_sends s) i d d' H). specialize (Hx x). specialize (H3 x). lia.
Qed.

Lemma conn_task_ok acts acts' s h t t' : us_tasks s !! h = Some t -> udp_ok acts s -> tk_sid t' = tk_sid t ->
  spawned acts' = spawned acts ->
  (forall x, (occ x (sent acts') + occ x (queued t') <= occ x (sent acts) + occ x (queued t))%nat) ->
  udp_ok acts' (set_task s h t').
Proof.
  intros H [H1 H2 H3] Hs Hsp Hx. split.
  - intros sid k Hk. eapply refers_task; eauto.
  - intros sid k p Hk. eapply refers_task; eauto.
  - intros x. cbn [set_task us_sends us_tasks]. pose proof (occ_insert x queued (us_tasks s) h t t' H). specialize (Hx x). specialize (H3 x).
    rewrite Hsp. lia.
Qed.

Lemma datagram_sessions now st d sid h : us_sessions (hy2_udp_datagram now st d).1 !! sid = Some h -> us_sessions st !! sid = Some h.
Proof.
  unfold hy2_udp_datagram. destruct (parse_datagram d) as [dd|]; [|done]. destruct (negb _); [done|].
  destruct (prune_reassembly _ _ _) as [m lp]. destruct (us_id_to_addr st !! d_session dd) as [old|].
  - destruct (bool_decide _).
    + by destruct (server_reassemble _ _ _).
    + destruct (server_reassemble _ _ _). cbn. intros H. by apply lookup_delete_Some in H as [_ H].
  - by destruct (server_reassemble _ _ _).
Qed.

Lemma bound_ok acts s i sid p a t r max : us_sends s !! i = Some (SendBinding sid p a t) -> udp_ok acts s ->
  udp_ok acts (udp_send_bound s i sid p a t r max).
Proof.
  intros H Hok. unfold udp_send_bound. destruct r as [[]|e]; [|by eapply send_ok; [done..|intros; cbn; lia]].
  destruct (us_sessions (us s) !! sid) as [h|] eqn:E.
  { eapply send_ok; [done..| |intros; cbn; lia]. intros ? ? ? [= <- <- _]. by eapply ok_table. }
  pose proof Hok as [H1 H2 H3].
  set (new := mkTask sid t a [] max 0 true).
  assert (Hw : forall k j, refers s k j -> exists u, (us_tasks s ++ [new]) !! j = Some u /\ tk_sid u = k).
  { intros k j (u & Hu & <-). exists u. split; [by apply lookup_app_l_Some | done]. }
  assert (Hl : (us_tasks s ++ [new]) !! length (us_tasks s) = Some new) by (by apply list_lookup_middle).
  split.
  - intros k j Hk. cbn in Hk. apply lookup_insert_Some in Hk as [[<- <-]|[_ Hk]]; [by exists new|]. by apply Hw, H1.
  - intros k j q Hin. cbn in Hin. apply elem_of_insert_inv in Hin as [[= -> -> ->]|Hin]; [by exists new|]. by eapply Hw, H2.
  - intros x. cbn [us_tasks us_sends]. pose proof (occ_insert x sending (us_sends s) i _ (SendQueue sid (length (us_tasks s)) p) H).
    rewrite occ_snoc. specialize (H3 x). cbn [sending] in *. change (queued new) with (@nil (Z * bytes)). cbn [occ]. unfold occ at 3. cbn. lia.
Qed.

Lemma queue_ok acts s i sid h p : us_sends s !! i = Some (SendQueue sid h p) -> udp_ok acts s -> udp_ok acts (udp_send_queue s i h p).
Proof.
  intros H Hok. unfold udp_send_queue. destruct (us_tasks s !! h) as [t|] eqn:Et; [|done].
  assert (Hdrop : udp_ok acts (set_send s i SendDone)) by (eapply send_ok; [done..|intros; cbn; lia]).
  destruct (tk_alive t); [|done]. destruct (_ <? _)%nat; [|done].
  destruct (ok_sends _ _ Hok sid h p) as (t0 & Et0 & Hsid); [by eapply list_elem_of_lookup_2|]. simplify_eq.
  pose proof Hok as [H1 H2 H3]. set (t' := with_queue t (tk_queue t ++ [p])). split.
  - intros k j Hk. apply (refers_task s h t t'); eauto.
  - intros k j q Hin. cbn in Hin. apply elem_of_insert_inv in Hin as [[=]|Hin]. apply (refers_task s h t t'); eauto.
  - intros x. cbn [set_send set_task us_tasks us_sends].
    pose proof (occ_insert x sending (us_sends s) i _ SendDone H). pose proof (occ_insert x queued (us_tasks s) h t t' Et).
    assert (occ x (queued t') = occ x (queued t) + occ x [(tk_sid t, p)])%nat.
    { unfold queued, t', with_queue. cbn [tk_sid tk_queue]. by rewrite fmap_app, occ_app. }
    specialize (H3 x). cbn [sending] in *. unfold occ in *. cbn [filter list_filter length] in *. lia.
Qed.

Lemma spawned_snoc acts l : Forall (fun a => match a with ASpawn _ _ => False | _ => True end) l -> spawned (acts ++ l) = spawned acts.
Proof.
  intros H. unfold spawned. rewrite bind_app. rewrite <- (app_nil_r (acts ≫= _)) at 2. f_equal.
  induction H as [|a l Ha _ IH]; [done|]. by destruct a.
Qed.

Lemma killed_ok acts s h t pid out : us_tasks s !! h = Some t -> udp_ok acts s -> udp_ok (acts ++ [AClient out]) (set_task s h (kill t pid)).
Proof.
  intros H Hok. eapply conn_task_ok; [done..|by apply spawned_snoc; repeat constructor|].
  intros x. unfold sent. rewrite occ_snoc. cbn [kill queued tk_queue fmap list_fmap]. unfold occ at 2 3. cbn. lia.
Qed.

Lemma datagram_ok acts s now d : udp_ok acts s -> udp_ok (acts ++ (udp_step s (UDatagram now d)).2) (udp_step s (UDatagram now d)).1.
Proof.
  intros [H1 H2 H3]. cbn [udp_step]. pose proof (datagram_sessions now (us s) d) as Hd.
  destruct (hy2_udp_datagram now (us s) d) as [st o]. cbn [fst] in Hd.
  assert (Ht : forall sid h, us_sessions st !! sid = Some h -> refers s sid h) by (intros sid h Hh; by apply H1, Hd).
  destruct o as [[sid p]|]; cbn [fst snd].
  - split; [exact Ht| |].
    + intros k h q Hin. apply elem_of_app in Hin as [Hin|Hin]; [by eapply H2|]. by apply list_elem_of_singleton in Hin.
    + intros x. cbn [us_tasks us_sends]. unfold spawned, sent. rewrite !occ_snoc. cbn [sending]. fold (sent acts) (spawned acts).
      specialize (H3 x). unfold occ at 2. cbn [filter list_filter length]. lia.
  - rewrite app_nil_r. by split.
Qed.

Lemma udp_step_ok acts s e : udp_ok acts s -> udp_ok (acts ++ (udp_step s e).2) (udp_step s e).1.
Proof.
  intros Hok. assert (Hid : udp_ok (acts ++ []) s) by (by rewrite app_nil_r).
  destruct e as [now d|i|i r max|i|h|h r out|h]; [by apply datagram_ok| | | | | |]; cbn [udp_step].
  - destruct (us_sends s !! i) as [[sid p| | |]|] eqn:E; try done. cbn [fst snd]. rewrite app_nil_r.
    eapply send_ok; [done..| |].
    + unfold udp_send_start. intros k h q. destruct (us_sessions (us s) !! sid) as [h0|] eqn:Es; [intros [= <- <- _]; by eapply ok_table|].
      destruct (us_id_to_addr (us s) !! sid) as [a|]; [by destruct (into_address a)|done].
    + intros x. unfold udp_send_start. destruct (us_sessions (us s) !! sid); [done|].
      destruct (us_id_to_addr (us s) !! sid) as [a|]; [destruct (into_address a)|]; cbn; lia.
  - destruct (us_sends s !! i) as [[|sid p a t| |]|] eqn:E; try done. cbn [fst snd]. rewrite app_nil_r. by eapply bound_ok.
  - destruct (us_sends s !! i) as [[| |sid h p|]|] eqn:E; try done. cbn [fst snd]. rewrite app_nil_r. by eapply queue_ok.
  - unfold with_task. destruct (us_tasks s !! h) as [t|] eqn:Et; [|done]. destruct (tk_alive t); [|done].
    unfold session_out. destruct (tk_queue t) as [|p q] eqn:Eq; [done|]. cbn [fst snd].
    eapply conn_task_ok; [exact Et|exact Hok|done|by apply spawned_snoc; repeat constructor|].
    intros x. unfold sent. rewrite occ_snoc. fold (sent acts). unfold queued, with_queue. rewrite Eq. cbn [tk_sid tk_queue].
    rewrite fmap_cons, (occ_cons x (tk_sid t, p) (pair (tk_sid t) <$> q)). lia.
  - unfold with_task. destruct (us_tasks s !! h) as [t|] eqn:Et; [|done]. destruct (tk_alive t); [|done].
    destruct (tk_queue t) as [|p q] eqn:Eq; [|done]. unfold session_in. destruct r as [data|e].
    + destruct (session_reply _ _ _ _ _) as [l pid]. destruct (sent_prefix 0 out l) as [o []]; [|by apply killed_ok].
      cbn [fst snd]. eapply conn_task_ok; [exact Et|exact Hok|done|by apply spawned_snoc; repeat constructor|].
      intros x. unfold sent. rewrite occ_snoc. fold (sent acts). change (occ x []) with 0%nat. unfold queued. cbn [tk_sid tk_queue]. lia.
    + cbn [fst snd]. eapply conn_task_ok; [exact Et|exact Hok|done|by rewrite app_nil_r|]. intros x. rewrite app_nil_r. change (occ x (queued (kill t (tk_packet_id t)))) with 0%nat. lia.
  - unfold with_task. destruct (us_tasks s !! h) as [t|] eqn:Et; [|done]. destruct (tk_alive t); [|done].
    destruct (tk_queue t) as [|p q] eqn:Eq; [|done]. cbn [fst snd]. rewrite app_nil_r. unfold session_idle.
    eapply conn_task_ok; [exact Et| | done | done |]; [|intros x; change (occ x (queued (kill t (tk_packet_id t)))) with 0%nat; lia].
    destruct Hok as [H1 H2 H3]. split; [|done|done]. intros k j Hk. cbn in Hk. apply lookup_delete_Some in Hk as [_ Hk]. by apply H1.
Qed.

Lemma udp_run_ok l : forall acts s, udp_ok acts s -> udp_ok (acts ++ (udp_run s l).2) (udp_run s l).1.
Proof.
  induction l as [|e l IH]; intros acts s Hok; cbn [udp_run]; [by rewrite app_nil_r|].
  pose proof (udp_step_ok acts s e Hok) as H. destruct (udp_step s e) as [s1 a]. specialize (IH _ _ H).
  cbn [fst snd] in IH. destruct (udp_run s1 l) as [s2 b]. cbn [fst snd] in *. by rewrite <- app_assoc in IH.
Qed.

(** ** Targets *)

Section Target.
Context (sid : Z) (a : bytes).

(** The session's datagrams name the address [a]. *)
Definition names (e : UdpStep) : Prop :=
  match e with
  | UDatagram _ d => forall dd, parse_datagram d = Some dd -> d_session dd = sid -> d_addr dd = a
  | _ => True
  end.

Definition to_target (t : Address) : Prop := into_address a = Ok t.

Record target_ok (s : UdpServer) : Prop := mkTargetOk {
  tok_ids b : us_id_to_addr (us s) !! sid = Some b -> b = a;
  tok_tasks t : t ∈ us_tasks s -> tk_sid t = sid -> to_target (tk_target t);
  tok_sends p b t : SendBinding sid p b t ∈ us_sends s -> to_target t }.

Definition act_ok (x : UdpAct) : Prop := match x with ASendTo k t _ => k = sid -> to_target t | _ => True end.

Lemma target_send s i d : target_ok s -> (forall p b t, d = SendBinding sid p b t -> to_target t) -> target_ok (set_send s i d).
Proof.
  intros [H1 H2 H3] Hd. split; [done|done|]. intros p b t Hin. cbn in Hin. apply elem_of_insert_inv in Hin as [E|Hin]; [by eapply Hd|by eapply H3].
Qed.

Lemma target_task s h t t' : us_tasks s !! h = Some t -> target_ok s -> tk_sid t' = tk_sid t -> tk_target t' = tk_target t -> target_ok (set_task s h t').
Proof.
  intros H [H1 H2 H3] Es Et. split; [done| |done]. intros u Hin. cbn in Hin. apply elem_of_insert_inv in Hin as [->|Hin]; [|by apply H2].
  rewrite Es, Et. apply H2. by eapply list_elem_of_lookup_2.
Qed.

Lemma datagram_ids now st d b : names (UDatagram now d) -> (forall b, us_id_to_addr st !! sid = Some b -> b = a) ->
  us_id_to_addr (hy2_udp_datagram now st d).1 !! sid = Some b -> b = a.
Proof.
  intros Hn H. unfold hy2_udp_datagram. destruct (parse_datagram d) as [dd|] eqn:Ed; [|apply H]. destruct (negb _); [apply H|].
  destruct (prune_reassembly _ _ _) as [m lp].
  assert (Hi : forall c, <[d_session dd := d_addr dd]> (us_id_to_addr st) !! sid = Some c -> c = a).
  { intros c Hc. apply lookup_insert_Some in Hc as [[E <-]|[_ Hc]]; [by apply (Hn dd)|by apply H]. }
  destruct (us_id_to_addr st !! d_session dd) as [old|].
  - destruct (bool_decide _); destruct (server_reassemble _ _ _); [apply H|apply Hi].
  - destruct (server_reassemble _ _ _). apply Hi.
Qed.

Lemma udp_step_target s e : names e -> target_ok s -> target_ok (udp_step s e).1 /\ Forall act_ok (udp_step s e).2.
Proof.
  intros Hn Hok. pose proof Hok as [H1 H2 H3].
  destruct e as [now d|i|i r max|i|h|h r out|h]; cbn [udp_step].
  - pose proof (fun b => datagram_ids now (us s) d b Hn H1) as Hi. destruct (hy2_udp_datagram now (us s) d) as [st [[k p]|]]; cbn [fst snd] in *.
    + split; [|by repeat constructor]. split; [done|done|]. intros q b t Hin. apply elem_of_app in Hin as [Hin|Hin]; [by eapply H3|].
      by apply list_elem_of_singleton in Hin.
    + by split.
  - destruct (us_sends s !! i) as [[k p| | |]|]; try by split. split; [|constructor]. apply target_send; [done|]. intros q b t.
    unfold udp_send_start. destruct (us_sessions (us s) !! k); [done|]. destruct (us_id_to_addr (us s) !! k) as [c|] eqn:Ec; [|done].
    destruct (into_address c) as [t0|] eqn:Et; [|done]. intros [= -> -> -> ->]. unfold to_target. by rewrite <- (H1 b).
  - destruct (us_sends s !! i) as [[|k p c t| |]|] eqn:E; try by split. split; [|constructor]. unfold udp_send_bound.
    destruct r as [[]|e]; [|by apply target_send]. destruct (us_sessions (us s) !! k); [by apply target_send|].
    apply (target_send _ i (SendQueue k (length (us_tasks s)) p)) in Hok as [G1 G2 G3]; [|done]. split; [done| |done].
    intros u Hin Hu. apply elem_of_app in Hin as [Hin|Hin]; [by apply H2|]. apply list_elem_of_singleton in Hin as ->. cbn in Hu. subst k.
    eapply H3, list_elem_of_lookup_2, E.
  - destruct (us_sends s !! i) as [[| |k h p|]|]; try by split. split; [|constructor]. unfold udp_send_queue.
    destruct (us_tasks s !! h) as [t|] eqn:Et; [|done]. destruct (tk_alive t); [|by apply target_send].
    destruct (_ <? _)%nat; [|done]. apply target_send; [|done]. by eapply target_task.
  - unfold with_task. destruct (us_tasks s !! h) as [t|] eqn:Et; [|by split]. destruct (tk_alive t); [|by split].
    unfold session_out. destruct (tk_queue t) as [|p q]; [by split|]. split; [by eapply target_task|].
    constructor; [|constructor]. intros Hs. apply H2; [by eapply list_elem_of_lookup_2|done].
  - unfold with_task. destruct (us_tasks s !! h) as [t|] eqn:Et; [|by split]. destruct (tk_alive t); [|by split].
    destruct (tk_queue t); [|by split]. unfold session_in. destruct r as [data|e]; [|split; [by eapply target_task|constructor]].
    destruct (session_reply _ _ _ _ _) as [l pid]. destruct (sent_prefix 0 out l) as [o []]; (split; [by eapply target_task|by repeat constructor]).
  - unfold with_task. destruct (us_tasks s !! h) as [t|] eqn:Et; [|by split]. destruct (tk_alive t); [|by split].
    destruct (tk_queue t); [|by split]. split; [|constructor]. unfold session_idle. eapply target_task; [exact Et| |done..].
    split; [|done|done]. intros b Hb. cbn in Hb. apply lookup_delete_Some in Hb as [_ Hb]. by apply H1.
Qed.

Lemma udp_run_target l : forall s, Forall names l -> target_ok s -> Forall act_ok (udp_run s l).2.
Proof.
  induction l as [|e l IH]; intros s Hl Hs; cbn [udp_run]; [constructor|]. inversion_clear Hl as [|? ? He Hl'].
  destruct (udp_step_target s e He Hs) as [Hs1 Ha]. destruct (udp_step s e) as [s1 x]. specialize (IH s1 Hl' Hs1).
  destruct (udp_run s1 l) as [s2 y]. by apply Forall_app.
Qed.

End Target.

(** A session whose task has ended stays in the table: as long as the client
    goes on with the address, nothing is sent for it any more. *)
Section Dead.
Context (sid : Z) (a : bytes) (h : nat).

Record dead (s : UdpServer) : Prop := mkDead {
  dead_ids : us_id_to_addr (us s) !! sid = Some a;
  dead_table : us_sessions (us s) !! sid = Some h;
  dead_tasks t : t ∈ us_tasks s -> tk_sid t = sid -> tk_alive t = false }.

Definition silent (x : UdpAct) : Prop := match x with ASendTo k _ _ => k <> sid | _ => True end.

Lemma dead_send s i d : dead s -> dead (set_send s i d).
Proof. by intros []. Qed.

Lemma dead_task s k t t' : us_tasks s !! k = Some t -> dead s -> tk_sid t' = tk_sid t -> tk_alive t = true -> dead (set_task s k t').
Proof.
  intros H [H1 H2 H3] E Ha. split; [done|done|]. intros u Hin Hu. cbn in Hin. apply elem_of_insert_inv in Hin as [->|Hin]; [|by apply H3].
  rewrite E in Hu. rewrite (H3 t) in Ha; [done | by eapply list_elem_of_lookup_2 | done].
Qed.

Lemma dead_datagram now s d : names sid a (UDatagram now d) -> dead s ->
  us_id_to_addr (hy2_udp_datagram now (us s) d).1 !! sid = Some a /\ us_sessions (hy2_udp_datagram now (us s) d).1 !! sid = Some h.
Proof.
  intros Hn [H1 H2 _]. unfold hy2_udp_datagram. destruct (parse_datagram d) as [dd|] eqn:Ed; [|done]. destruct (negb _); [done|].
  destruct (prune_reassembly _ _ _) as [m lp]. destruct (decide (d_session dd = sid)) as [E|Hs].
  - rewrite E, H1, bool_decide_true by (symmetry; by apply (Hn dd)). by destruct (server_reassemble _ _ _).
  - assert (Hi : <[d_session dd := d_addr dd]> (us_id_to_addr (us s)) !! sid = Some a) by (by rewrite lookup_insert_ne).
    destruct (us_id_to_addr (us s) !! d_session dd) as [old|]; [destruct (bool_decide _)|]; destruct (server_reassemble _ _ _); cbn;
      (split; [done|]); try done. by rewrite lookup_delete_ne.
Qed.

Lemma dead_step s e : names sid a e -> dead s -> dead (udp_step s e).1 /\ Forall silent (udp_step s e).2.
Proof.
  intros Hn Hd. pose proof Hd as [H1 H2 H3].
  assert (Hlive : forall k t, us_tasks s !! k = Some t -> tk_alive t = true -> tk_sid t <> sid).
  { intros k t Hk Ha Hs. rewrite (H3 t) in Ha; [done | by eapply list_elem_of_lookup_2 | done]. }
  destruct e as [now d|i|i r max|i|k|k r out|k]; cbn [udp_step].
  - pose proof (dead_datagram now s d Hn Hd) as [G1 G2]. destruct (hy2_udp_datagram now (us s) d) as [st [[q p]|]]; (split; [by split|by repeat constructor]).
  - by destruct (us_sends s !! i) as [[]|]; split.
  - destruct (us_sends s !! i) as [[|q p c t| |]|]; try by split. split; [|constructor]. unfold udp_send_bound.
    destruct r as [[]|e]; [|by apply dead_send]. destruct (us_sessions (us s) !! q) eqn:Eq; [by apply dead_send|].
    assert (q <> sid) by congruence. split; [done|cbn; by rewrite lookup_insert_ne|].
    intros u Hin Hu. apply elem_of_app in Hin as [Hin|Hin]; [by apply H3|]. apply list_elem_of_singleton in Hin as ->. cbn in Hu. done.
  - destruct (us_sends s !! i) as [[| |q k p|]|]; try by split. split; [|constructor]. unfold udp_send_queue.
    destruct (us_tasks s !! k) as [t|] eqn:Et; [|done]. destruct (tk_alive t) eqn:Ea; [|by apply dead_send].
    destruct (_ <? _)%nat; [|done]. apply dead_send. by eapply dead_task.
  - unfold with_task. destruct (us_tasks s !! k) as [t|] eqn:Et; [|by split]. destruct (tk_alive t) eqn:Ea; [|by split].
    unfold session_out. destruct (tk_queue t) as [|p q]; [by split|]. split; [by eapply dead_task|].
    constructor; [|constructor]. cbn. by eapply Hlive.
  - unfold with_task. destruct (us_tasks s !! k) as [t|] eqn:Et; [|by split]. destruct (tk_alive t) eqn:Ea; [|by split].
    destruct (tk_queue t); [|by split]. unfold session_in. destruct r as [data|e]; [|split; [by eapply dead_task|constructor]].
    destruct (session_reply _ _ _ _ _) as [l pid]. destruct (sent_prefix 0 out l) as [o []]; (split; [by eapply dead_task|by repeat constructor]).
  - unfold with_task. destruct (us_tasks s !! k) as [t|] eqn:Et; [|by split]. destruct (tk_alive t) eqn:Ea; [|by split].
    destruct (tk_queue t); [|by split]. split; [|constructor]. unfold session_idle. pose proof (Hlive k t Et Ea) as Hs.
    eapply dead_task; [exact Et| |done..]. split; cbn; [by rewrite lookup_delete_ne..|done].
Qed.

Theorem hy2_udp_dead_session l : forall s, Forall (names sid a) l -> dead s -> Forall silent (udp_run s l).2.
Proof.
  induction l as [|e l IH]; intros s Hl Hs; cbn [udp_run]; [constructor|]. inversion_clear Hl as [|? ? He Hl'].
  destruct (dead_step s e He Hs) as [Hs1 Hx]. destruct (udp_step s e) as [s1 x]. specialize (IH s1 Hl' Hs1).
  destruct (udp_run s1 l) as [s2 y]. by apply Forall_app.
Qed.

End Dead.

(** C22: The server's UDP relay, however its tasks run: a payload is sent by a
    session at most as often as it was completed for that session, so that
    nothing is invented or sent twice; and a session whose datagrams name one
    address, as those of the client do, sends to that address only. *)
Theorem hy2_udp_server_exact now l :
  let acts := (udp_run (udp_server_new now) l).2 in
  (forall x, (occ x (sent acts) <= occ x (spawned acts))%nat) /\
  (forall sid a, Forall (names sid a) l -> forall t p, ASendTo sid t p ∈ acts -> into_address a = Ok t).
Proof.
  cbv zeta. split.
  - intros x. pose proof (udp_run_ok l [] (udp_server_new now)) as H. cbn [app] in H.
    destruct H as [_ _ H]; [split; [done|by intros ? ? ? ?%elem_of_nil|intros y; cbn; unfold occ; cbn; lia]|]. specialize (H x). lia.
  - intros sid a Hl t p Hin. pose proof (udp_run_target sid a l (udp_server_new now) Hl) as H.
    rewrite Forall_forall in H. apply (H ltac:(split; [done|by intros ? ?%elem_of_nil|by intros ? ? ? ?%elem_of_nil]) _ Hin). done.
Qed.

Lemma run_cons s e l : (udp_run s (e :: l)).2 = (udp_step s e).2 ++ (udp_run (udp_step s e).1 l).2.
Proof. cbn [udp_run]. destruct (udp_step s e) as [s1 x]. cbn [fst snd]. by destruct (udp_run s1 l). Qed.

Lemma insert_end {A} (l : list A) x y : <[length l := y]> (l ++ [x]) = (l ++ [y]).
Proof. by rewrite insert_app_r_alt, Nat.sub_diag by lia. Qed.

Lemma lookup_end {A} (l : list A) x : (l ++ [x]) !! length l = Some x.
Proof. by apply list_lookup_middle. Qed.

(** A payload on its way to a live session that has nothing queued. *)
Lemma queue_out st tasks sends sid h p k : tasks !! h = Some k -> tk_alive k = true -> tk_queue k = [] ->
  (udp_run (mkUdpServer st tasks (sends ++ [SendQueue sid h p])) [UQueue (length sends); UOut h]).2 = [ASendTo (tk_sid k) (tk_target k) p].
Proof.
  intros Hk Ha Hq. rewrite run_cons. cbn [udp_step us_sends]. rewrite lookup_end. unfold udp_send_queue. cbn [us_tasks].
  rewrite Hk, Ha, Hq. cbn [fst snd app length]. replace (0 <? CHANNEL)%nat with true by reflexivity.
  unfold set_send, set_task. cbn [us us_tasks us_sends]. rewrite insert_end, run_cons. cbn [udp_step]. unfold with_task. cbn [us_tasks].
  rewrite list_lookup_insert_eq by (by eapply lookup_lt_Some). cbn [with_queue tk_alive]. by rewrite Ha.
Qed.

(** Undisturbed, a payload gets through: the first one of a session, for which
    the session is made, and with the session there. *)
Theorem hy2_udp_delivered s now d st sid p a t max : hy2_udp_datagram now (us s) d = (st, Some (sid, p)) ->
  us_id_to_addr st !! sid = Some a -> into_address a = Ok t ->
  let i := length (us_sends s) in
  match us_sessions st !! sid with
  | None => (udp_run s [UDatagram now d; USend i; UBound i (Ok ()) max; UQueue i; UOut (length (us_tasks s))]).2 = [ASpawn sid p; ASendTo sid t p]
  | Some h => forall k, us_tasks s !! h = Some k -> tk_sid k = sid -> tk_alive k = true -> tk_target k = t -> tk_queue k = [] ->
      (udp_run s [UDatagram now d; USend i; UQueue i; UOut h]).2 = [ASpawn sid p; ASendTo sid t p]
  end.
Proof.
  intros E Ha Ht. cbv zeta.
  assert (H1 : udp_step s (UDatagram now d) = (mkUdpServer st (us_tasks s) (us_sends s ++ [SendStart sid p]), [ASpawn sid p]))
    by (cbn [udp_step]; by rewrite E).
  assert (H2 : forall x, udp_send_start st sid p = x ->
    udp_step (mkUdpServer st (us_tasks s) (us_sends s ++ [SendStart sid p])) (USend (length (us_sends s))) =
    (mkUdpServer st (us_tasks s) (us_sends s ++ [x]), [])).
  { intros x <-. cbn [udp_step us_sends]. rewrite lookup_end. unfold set_send. cbn [us us_tasks us_sends]. by rewrite insert_end. }
  unfold udp_send_start in H2. destruct (us_sessions st !! sid) as [h|] eqn:Es.
  - intros k Hk <- Hal <- Hq. rewrite run_cons, H1. cbn [fst snd app]. rewrite run_cons, (H2 _ eq_refl). cbn [fst snd app].
    by rewrite (queue_out _ _ _ _ _ _ k).
  - rewrite Ha, Ht in H2. rewrite run_cons, H1. cbn [fst snd app]. rewrite run_cons, (H2 _ eq_refl). cbn [fst snd app].
    rewrite run_cons. cbn [udp_step us_sends]. rewrite lookup_end. unfold udp_send_bound. cbn [us us_tasks us_sends].
    rewrite Es, insert_end. cbn [fst snd app]. rewrite (queue_out _ _ _ _ _ _ (mkTask sid t a [] max 0 true)); [done|apply lookup_end|done..].
Qed.

(** ** A connection of the server *)

(** What ends [accept_bi]: the peer closes the connection, or anything else. *)
Inductive ConnEvent : Type := EvStream (input : bytes) | EvClosed | EvError (e : error).

(** What is done for a connection: the answers to its requests; whether the
    UDP loop is started; the streams that are served; how it ends, and which of
    the two tasks are aborted then. *)
Record Served : Type := mkServed {
  sv_statuses : list Z;
  sv_udp : bool;
  sv_streams : list bytes;
  sv_result : res ();
  sv_udp_aborted : bool;
  sv_guard_aborted : bool }.

(** The loop; a connection that goes on waits for ever, [None]. *)
Fixpoint accept_loop (events : list ConnEvent) : list bytes * option (res ()) :=
  match events with
  | [] => ([], None)
  | EvStream s :: l => let '(ss, r) := accept_loop l in (s :: ss, r)
  | EvClosed :: _ => ([], Some (Ok ()))
  | EvError e :: _ => ([], Some (Err (map_other e)))
  end.

(* src/protocol/hysteria/src/server.rs:137-181 handle_connection *)
Definition handle_connection (auth : bytes) (udp : bool) (reqs : list AuthRequest) (events : list ConnEvent) : option Served :=
  match hy2_auth_server auth reqs with
  | (st, Err e) => Some (mkServed st false [] (Err e) false false)
  | (st, Ok _) =>
    match accept_loop events with
    | (_, None) => None
    | (ss, Some (Ok _)) => Some (mkServed st udp ss (Ok ()) udp true)
    | (ss, Some (Err e)) => Some (mkServed st udp ss (Err e) false false)
    end
  end.

(** ** The client *)

(* src/protocol/hysteria/src/client.rs:24-56 HysteriaNetConfig *)
Record HysteriaNetConfig : Type := mkHysteriaNetConfig {
  c_server : Address;
  c_auth : bytes;
  c_server_name : option bytes;
  c_ca_pem : option bytes;
  c_bind : option bytes;
  c_salamander : option bytes;
  c_udp : bool;
  c_padding : bool;
  c_cc_rx : Z;
  c_net : nat }.

Section Client.
(** A QUIC connection and the roots of certificates.  [parse_bind] is
    [SocketAddr::from_str]; [quic_connect] makes a socket and connects from
    it; [auth_exchange] sends a request and gives the answer's status and its
    [hysteria-udp]. *)
Context {Conn Roots : Type}.
Context (lookup_host : Address -> res (list SocketAddr)) (load_roots : option bytes -> res Roots) (parse_bind : bytes -> res SocketAddr).
Context (quic_connect : Roots -> SocketAddr -> option bytes -> SocketAddr -> bytes -> res Conn).
Context (auth_exchange : Conn -> AuthRequest -> res (Z * option bytes)).

(* src/protocol/hysteria/src/client.rs:64-70 Hy2Client *)
Record Hy2Client : Type := mkHy2Client { hc_conn : Conn; hc_udp : bool }.

(* src/protocol/hysteria/src/client.rs:172-224 hy2_auth (exchange) *)
Definition hy2_auth (cfg : HysteriaNetConfig) (conn : Conn) : res bool :=
  req ← hy2_auth_request (c_auth cfg);
  '(status, hysteria_udp) ← auth_exchange conn req;
  hy2_auth_response status hysteria_udp.

(* src/protocol/hysteria/src/client.rs:93-160 Hy2Client::connect *)
Definition hy2_connect (cfg : HysteriaNetConfig) : res Hy2Client :=
  server_addr ← resolve_server_addr lookup_host (c_server cfg);
  server_name ← resolve_server_name (c_server_name cfg) (c_server cfg);
  roots ← load_roots (c_ca_pem cfg);
  let default_bind := if is_ipv4 (sa_ip server_addr) then lit "0.0.0.0:0" else lit "[::]:0" in
  bind ← map_err map_other (parse_bind (default default_bind (c_bind cfg)));
  conn ← quic_connect roots bind (c_salamander cfg) server_addr server_name;
  udp_supported ← hy2_auth cfg conn;
  Ok (mkHy2Client conn (c_udp cfg && udp_supported)).

(** The net's state is its [OnceCell].  [connected] is what connecting would
    give now. *)
(* src/protocol/hysteria/src/client.rs:81-89 HysteriaNet::get_client *)
Definition get_client (cell : option Hy2Client) (connected : res Hy2Client) : option Hy2Client * res Hy2Client :=
  match cell with
  | Some c => (cell, Ok c)
  | None => match connected with Ok c => (Some c, Ok c) | Err e => (None, Err e) end
  end.

(** [open_bi conn request] opens a stream, sends the request, and gives what
    is read from it. *)
Context (open_bi : Conn -> bytes -> res bytes).

(** The bytes of the stream that are left, and the request that was sent. *)
(* src/protocol/hysteria/src/client.rs:272-300 HysteriaNet::tcp_connect *)
Definition hy2_tcp_connect (cfg : HysteriaNetConfig) (random : bytes) (cell : option Hy2Client) (connected : res Hy2Client) (addr : Address)
    : option Hy2Client * res (bytes * bytes) :=
  let '(cell, c) := get_client cell connected in
  (cell,
   client ← c;
   let padding := if c_padding cfg then random else [] in
   let req := write_tcp_request_with_padding addr padding in
   answer ← open_bi (hc_conn client) req;
   '(_, rest) ← read_tcp_response answer;
   Ok (req, rest)).

(* src/protocol/hysteria/src/client.rs:305-317 HysteriaNet::udp_bind *)
Definition hy2_udp_bind (cfg : HysteriaNetConfig) (cell : option Hy2Client) (connected : res Hy2Client) : option Hy2Client * res Conn :=
  if negb (c_udp cfg) then (cell, Err ENotEnabled)
  else
    let '(cell, c) := get_client cell connected in
    (cell, client ← c; if hc_udp client then Ok (hc_conn client) else Err ENotEnabled).

(** ** Facts *)

(** Connections made one after the other, each with what connecting would
    give and what opening a stream gives at the time. *)
Fixpoint hy2_connects (cfg : HysteriaNetConfig) (cell : option Hy2Client) (l : list (res Hy2Client * Address))
    : option Hy2Client * list (res (bytes * bytes)) :=
  match l with
  | [] => (cell, [])
  | (c, a) :: l =>
    let '(cell, r) := hy2_tcp_connect cfg [] cell c a in
    let '(cell, rs) := hy2_connects cfg cell l in (cell, r :: rs)
  end.

Lemma get_client_some c connected : get_client (Some c) connected = (Some c, Ok c).
Proof. reflexivity. Qed.

(** Once connected, the net keeps the connection: when it is lost, nothing
    can be connected any more, whatever a new connection would give. *)
Lemma hy2_never_reconnects cfg client e l : (forall req, open_bi (hc_conn client) req = Err e) ->
  hy2_connects cfg (Some client) l = (Some client, map (fun _ => Err e) l).
Proof.
  intros H. induction l as [|[c a] l IH]; cbn [hy2_connects map]; [done|].
  unfold hy2_tcp_connect. rewrite get_client_some. cbn. rewrite H. cbn. by rewrite IH.
Qed.

End Client.

(** ** Client and server *)

Section EndToEnd.
Context (secret : bytes) (udp : bool) (show_err : error -> bytes) (connect : Address -> bytes -> res bytes).

(** The server's side of a request of a connection, and of a stream:
    [connect a rest] is what comes back from the target when [rest] is sent. *)
Definition server_auth (req : AuthRequest) : res (Z * option bytes) :=
  match hy2_auth_server secret [req] with
  | ([status], _) => Ok (status, if status =? 233 then Some (lit (if udp then "true" else "false")) else None)
  | _ => Err (EOther "unreachable")
  end.

Definition server_stream (request : bytes) : res bytes :=
  '(addr, rest) ← hy2_read_tcp_request request;
  match hy2_answer_tcp show_err (connect addr rest) with
  | (answer, Ok back) => Ok (answer ++ back)
  | (answer, Err _) => Ok answer
  end.

(** C33: A net and a server with the same secret, one that a header carries as
    text (visible ASCII, spaces and tabs): the net is let in, and knows whether
    the server relays UDP; every stream it opens to a well-formed address whose
    UTF-8 text is at most 1024 bytes long is connected by the server to the address asked for,
    what comes back from there is what is read, and when the server cannot
    connect the net fails.  With another secret the net is refused, and so it
    is with a secret that is not such text even where the server has the
    same. *)
Theorem hy2_end_to_end {Conn : Type} cfg (conn : Conn) random addr :
  (forall req, hy2_auth_request (c_auth cfg) = Ok req ->
     if decide (c_auth cfg = secret /\ header_str secret = Some secret)
     then hy2_auth (fun _ => server_auth) cfg conn = Ok udp
     else is_ok (hy2_auth (fun _ => server_auth) cfg conn) = false) /\
  (addr_ok addr -> utf8_valid (show_address addr) = true -> (length (show_address addr) <= 1024)%nat ->
   Z.of_nat (length random) < 2 ^ 62 -> (forall e, Z.of_nat (length (show_err e)) < 2 ^ 62) ->
   forall cell connected client, get_client cell connected = (Some client, Ok client) ->
   let req := write_tcp_request_with_padding addr (if c_padding cfg then random else []) in
   match connect (to_normalized addr) [] with
   | Ok back => hy2_tcp_connect (fun _ : Conn => server_stream) cfg random cell connected addr = (Some client, Ok (req, back))
   | Err _ => is_ok (hy2_tcp_connect (fun _ : Conn => server_stream) cfg random cell connected addr).2 = false
   end).
Proof.
  split.
  - intros req Er. unfold hy2_auth. rewrite Er. cbn [mbind res_bind]. unfold server_auth, hy2_auth_server.
    pose proof (client_request_accepted _ secret _ Er) as Ha.
    destruct (is_auth_request req secret) eqn:Ei.
    + pose proof (proj1 Ha eq_refl) as Hh. pose proof (header_str_id _ _ Hh) as E. rewrite <- E in Hh. rewrite decide_True by done. by destruct udp.
    + destruct (decide _) as [[E1 E2]|]; [|done]. rewrite E1 in Ha. by pose proof (proj2 Ha E2).
  - intros Hok Hutf Hlen Hrand Herr cell connected client Hc req. unfold hy2_tcp_connect. rewrite Hc. cbn [mbind res_bind].
    fold req. unfold server_stream. assert (Hp : Z.of_nat (length (if c_padding cfg then random else [])) < 2 ^ 62) by (by destruct (c_padding cfg)).
    pose proof (read_written_request addr (if c_padding cfg then random else []) [] Hok Hutf ltac:(lia) Hp) as Hr.
    rewrite app_nil_r in Hr. fold req in Hr. replace (1024 <? length (show_address addr))%nat with false in Hr by (symmetry; apply Nat.ltb_ge; lia).
    rewrite Hr. cbn [mbind res_bind]. destruct (connect (to_normalized addr) []) as [back|e]; unfold hy2_answer_tcp; cbn [mbind res_bind].
    + rewrite read_ok_response by done. done.
    + pose proof (read_error_response (show_err e) [] [] ltac:(done) (Herr e)) as He. rewrite app_nil_r in He.
      by destruct (read_tcp_response (write_tcp_response_error (show_err e) [])) as [[]|].
Qed.

(** Nothing is served for a connection, neither streams nor datagrams, before
    a request with the secret; every request before it is answered with 404. *)
Theorem hy2_server_gate reqs events r : handle_connection secret udp reqs events = Some r ->
  (exists pre req rest, reqs = pre ++ req :: rest /\ Forall (fun q => is_auth_request q secret = false) pre /\
     is_auth_request req secret = true /\ sv_statuses r = replicate (length pre) 404 ++ [233] /\ sv_udp r = udp) \/
  (Forall (fun q => is_auth_request q secret = false) reqs /\ sv_statuses r = replicate (length reqs) 404 /\
     sv_streams r = [] /\ sv_udp r = false /\ is_ok (sv_result r) = false).
Proof.
  assert (H : forall st x, hy2_auth_server secret reqs = (st, x) ->
    (exists pre req rest, reqs = pre ++ req :: rest /\ Forall (fun q => is_auth_request q secret = false) pre /\
       is_auth_request req secret = true /\ st = replicate (length pre) 404 ++ [233] /\ x = Ok ()) \/
    (Forall (fun q => is_auth_request q secret = false) reqs /\ st = replicate (length reqs) 404 /\ is_ok x = false)).
  { induction reqs as [|q reqs IH]; intros st x; cbn [hy2_auth_server]; [intros [= <- <-]; by right|].
    destruct (is_auth_request q secret) eqn:Eq; [intros [= <- <-]; left; by exists [], q, reqs|].
    destruct (hy2_auth_server secret reqs) as [st' x']. intros [= <- <-].
    destruct (IH _ _ eq_refl) as [(pre & req & rest & -> & F & Hr & -> & ->)|(F & -> & Hx)].
    - left. exists (q :: pre), req, rest. split; [done|]. split; [by constructor|]. done.
    - right. split; [by constructor|]. done. }
  unfold handle_connection. destruct (hy2_auth_server secret reqs) as [st x]. specialize (H _ _ eq_refl). destruct x as [[]|e].
  - destruct H as [(pre & req & rest & Hreq & F & Hr & -> & _)|(_ & _ & H)]; [|done].
    destruct (accept_loop events) as [ss [[[]|e]|]]; intros [= <-]; left; by exists pre, req, rest.
  - destruct H as [(? & ? & ? & _ & _ & _ & _ & H)|(F & -> & _)]; [done|]. intros [= <-]. by right.
Qed.

(** When a connection ends with an error, the task that keeps its HTTP/3
    connection, which waits for ever, is not aborted. *)
Lemma hy2_guard_leaks reqs events st ss e : hy2_auth_server secret reqs = (st, Ok ()) -> accept_loop events = (ss, Some (Err e)) ->
  exists r, handle_connection secret udp reqs events = Some r /\ sv_guard_aborted r = false.
Proof. intros H1 H2. unfold handle_connection. rewrite H1, H2. eauto. Qed.

End EndToEnd.

(** ** Samples *)

Definition dgram (addr : string) (p : Z) : bytes := default [] (head (make_fragments 7 0 (lit addr) 10 1 [p])).
Definition open_session (i h : nat) : list UdpStep := [USend i; UBound i (Ok ()) None; UQueue i; UOut h].

Lemma dgram_parse : parse_datagram (dgram "a:53" 1) = Some (mkDatagram 7 0 0 1 (lit "a:53") [1]).
Proof. reflexivity. Qed.

Lemma hy2_udp_server_exact_witness :
  let acts := (udp_run (udp_server_new 0) (UDatagram 0 (dgram "a:53" 1) :: open_session 0 0)).2 in
  acts = [ASpawn 7 [1]; ASendTo 7 (ADomain (lit "a") 53) [1]] /\ into_address (lit "a:53") = Ok (ADomain (lit "a") 53).
Proof.
  cbv zeta. pose proof (hy2_udp_server_exact 0 (UDatagram 0 (dgram "a:53" 1) :: open_session 0 0)) as [_ H].
  assert (E : (udp_run (udp_server_new 0) (UDatagram 0 (dgram "a:53" 1) :: open_session 0 0)).2 = [ASpawn 7 [1]; ASendTo 7 (ADomain (lit "a") 53) [1]])
    by (vm_compute; reflexivity).
  split; [exact E|]. apply (H 7 (lit "a:53")) with (p := [1]).
  - constructor; [|by repeat constructor]. intros dd Hd _. rewrite dgram_parse in Hd. by injection Hd as <-.
  - rewrite E. by right; left.
Defined.

(** A payload waits for its socket while a later datagram of the same session
    names another address: it is sent there. *)
Lemma hy2_udp_misdirected :
  (udp_run (udp_server_new 0) ([UDatagram 0 (dgram "a:53" 1); UDatagram 0 (dgram "b:53" 2)] ++ open_session 0 0)).2 =
  [ASpawn 7 [1]; ASpawn 7 [2]; ASendTo 7 (ADomain (lit "b") 53) [1]].
Proof. vm_compute. reflexivity. Qed.

(** A session that was replaced when the address changed ends: it takes the
    new one, which is alive, out of the table. *)
Lemma hy2_udp_idle_removes_other :
  let s := (udp_run (udp_server_new 0) ([UDatagram 0 (dgram "a:53" 1)] ++ open_session 0 0 ++
    [UDatagram 0 (dgram "b:53" 2)] ++ open_session 1 1 ++ [UIdle 0])).1 in
  us_sessions (us s) !! 7 = None /\ us_id_to_addr (us s) !! 7 = None /\ map tk_alive (us_tasks s) = [false; true].
Proof. vm_compute. done. Qed.

(** A session whose socket failed. *)
Lemma hy2_udp_dead_session_witness :
  let s := (udp_run (udp_server_new 0) ([UDatagram 0 (dgram "a:53" 1)] ++ open_session 0 0 ++ [UIn 0 (Err EBrokenPipe) (fun _ => true)])).1 in
  Forall (silent 7) (udp_run s (UDatagram 1 (dgram "a:53" 1) :: open_session 1 0)).2.
Proof.
  cbv zeta. apply (hy2_udp_dead_session 7 (lit "a:53") 0).
  - constructor; [|by repeat constructor]. intros dd Hd _. rewrite dgram_parse in Hd. by injection Hd as <-.
  - split; [vm_compute; reflexivity | vm_compute; reflexivity|]. intros t Hin _.
    assert (E : forallb (fun t => negb (tk_alive t)) (us_tasks (udp_run (udp_server_new 0) ([UDatagram 0 (dgram "a:53" 1)] ++ open_session 0 0 ++ [UIn 0 (Err EBrokenPipe) (fun _ => true)])).1) = true)
      by (vm_compute; reflexivity).
    rewrite forallb_forall in E. specialize (E t ltac:(by apply list_elem_of_In)). by destruct (tk_alive t).
Defined.

Lemma hy2_udp_delivered_witness :
  (udp_run (udp_server_new 0) [UDatagram 0 (dgram "a:53" 1); USend 0; UBound 0 (Ok ()) None; UQueue 0; UOut 0]).2 =
  [ASpawn 7 [1]; ASendTo 7 (ADomain (lit "a") 53) [1]].
Proof.
  exact (hy2_udp_delivered (udp_server_new 0) 0 (dgram "a:53" 1) (hy2_udp_datagram 0 (us (udp_server_new 0)) (dgram "a:53" 1)).1
    7 [1] (lit "a:53") (ADomain (lit "a") 53) None ltac:(vm_compute; reflexivity) ltac:(vm_compute; reflexivity) eq_refl).
Defined.

Definition sample_hy2 : HysteriaNetConfig :=
  mkHysteriaNetConfig (ADomain (lit "h.example") 443) (lit "pw") None None None None true false 0 0.

Lemma hy2_end_to_end_witness : exists req,
  hy2_auth (fun _ : unit => server_auth (lit "pw") true) sample_hy2 tt = Ok true /\
  hy2_tcp_connect (fun _ : unit => server_stream (fun _ => []) (fun _ _ => Ok (lit "hello"))) sample_hy2 [] None
    (Ok (mkHy2Client tt true)) (ADomain (lit "example.com") 80) = (Some (mkHy2Client tt true), Ok (req, lit "hello")).
Proof.
  destruct (hy2_end_to_end (lit "pw") true (fun _ => []) (fun _ _ => Ok (lit "hello")) sample_hy2 tt [] (ADomain (lit "example.com") 80)) as [H1 H2].
  eexists. split.
  - specialize (H1 _ eq_refl). rewrite decide_True in H1 by (by vm_compute). exact H1.
  - apply H2; [split; [apply bytes_okb_spec; reflexivity|unfold port_ok; lia]|reflexivity|apply Nat.leb_le; reflexivity|reflexivity|reflexivity|reflexivity].
Defined.

Lemma hy2_server_gate_witness : exists r, handle_connection (lit "pw") true [mkAuthRequest true (lit "/") None None None None] [EvStream [1]] = Some r /\
  sv_statuses r = [404] /\ sv_streams r = [].
Proof.
  eexists. split; [reflexivity|].
  destruct (hy2_server_gate (lit "pw") true [mkAuthRequest true (lit "/") None None None None] [EvStream [1]] _ eq_refl)
    as [(pre & req & rest & E & _ & Ha & _)|(_ & H1 & H2 & _)]; [|by split].
  destruct pre as [|? [|? ?]]; [|discriminate|discriminate]. injection E as <- _. discriminate Ha.
Defined.

End HyNet.
