(* ===== verification/Vless.v ===== *)
(** * VLESS: [protocol/vless/src/common.rs].

    [VlessHeader]: request header, addons and addresses; [VlessStreams]: the
    stream wrappers that prepend the request header and skip the response
    header; [Vision]: the XTLS Vision framing; [Xudp]: packets over a stream. *)

From S2P Require Import Prelude Io Address.

Module VlessHeader.

(* src/protocol/vless/src/common.rs:24-24 VLESS_VERSION *)
Definition VLESS_VERSION : Z := 0.
(* src/protocol/vless/src/common.rs:25-25 COMMAND_TCP *)
Definition COMMAND_TCP : Z := 1.
(* src/protocol/vless/src/common.rs:26-26 COMMAND_MUX *)
Definition COMMAND_MUX : Z := 3.
(* src/protocol/vless/src/common.rs:27-27 FLOW_VISION *)
Definition FLOW_VISION : bytes := lit "xtls-rprx-vision".
(* src/protocol/vless/src/common.rs:28-28 MUX_DOMAIN *)
Definition MUX_DOMAIN : bytes := lit "v1.mux.cool".
(* src/protocol/vless/src/common.rs:29-29 MUX_PORT *)
Definition MUX_PORT : Z := 666.
(* src/protocol/vless/src/common.rs:30-30 ADDRESS_TYPE_IPV4 *)
Definition ADDRESS_TYPE_IPV4 : Z := 1.
(* src/protocol/vless/src/common.rs:31-31 ADDRESS_TYPE_DOMAIN *)
Definition ADDRESS_TYPE_DOMAIN : Z := 2.
(* src/protocol/vless/src/common.rs:32-32 ADDRESS_TYPE_IPV6 *)
Definition ADDRESS_TYPE_IPV6 : Z := 3.

(* src/protocol/vless/src/common.rs:42-43 NormalizedFlow *)
Definition NormalizedFlow : Type := option bytes.

(* src/protocol/vless/src/common.rs:46-54 NormalizedFlow::parse *)
Definition normalized_flow_parse (flow : option bytes) : res NormalizedFlow :=
  match flow with
  | None => Ok None
  | Some f =>
    let f := trim f in
    if bool_decide (f = []) then Ok None
    else if bool_decide (f = FLOW_VISION) then Ok (Some FLOW_VISION)
    else Err (EOther "unsupported vless flow")
  end.

(* src/protocol/vless/src/common.rs:60-62 NormalizedFlow::is_vision *)
Definition is_vision (f : NormalizedFlow) : bool := bool_decide (f = Some FLOW_VISION).

(* src/protocol/vless/src/common.rs:78-83 RequestHeader *)
Record RequestHeader : Type := mkRequestHeader {
  rh_command : Z; rh_addr : Address; rh_flow : NormalizedFlow }.

(* src/protocol/vless/src/common.rs:947-967 write_addons *)
Definition write_addons (flow : option bytes) : res bytes :=
  match flow with
  | None => Ok [0]
  | Some flow =>
    _ ← ensure (bool_decide (flow = FLOW_VISION)) EInvalidInput;
    _ ← ensure (negb (127 <? length flow)%nat) EInvalidInput;
    Ok ([(Z.of_nat (length flow) + 2) mod 256; 10; Z.of_nat (length flow) mod 256] ++ flow)
  end.

(* src/protocol/vless/src/common.rs:969-998 read_addons *)
Definition read_addons : reader NormalizedFlow :=
  len ← read_u8;
  if len =? 0 then mret None
  else
    buf ← read_exactZ len;
    _ ← rlift (ensure (negb ((length buf <? 2)%nat || negb (nth 0 buf 0 =? 10))) EInvalidData);
    let str_len := nth 1 buf 0 in
    _ ← rlift (ensure (Z.of_nat (length buf) =? str_len + 2) EInvalidData);
    _ ← rlift (ensure (utf8_valid (drop 2 buf)) EInvalidData);
    rlift (normalized_flow_parse (Some (drop 2 buf))).

(* src/protocol/vless/src/common.rs:1000-1028 write_address *)
Definition write_address (addr : Address) : res bytes :=
  match addr with
  | ASocket socket =>
    match sa_ip socket with
    | V4 ip => Ok (be_bytes 2 (sa_port socket) ++ [ADDRESS_TYPE_IPV4] ++ be_bytes 4 ip)
    | V6 ip => Ok (be_bytes 2 (sa_port socket) ++ [ADDRESS_TYPE_IPV6] ++ be_bytes 16 ip)
    end
  | ADomain domain port =>
    if (255 <? length domain)%nat then Err EInvalidInput
    else Ok (be_bytes 2 port ++ [ADDRESS_TYPE_DOMAIN] ++ [Z.of_nat (length domain) mod 256] ++ domain)
  end.

(* src/protocol/vless/src/common.rs:1030-1066 read_address *)
Definition read_address : reader Address :=
  port ← read_u16;
  atyp ← read_u8;
  if atyp =? ADDRESS_TYPE_IPV4 then
    ip ← read_exact 4; mret (ASocket (mkSocketAddr (V4 (be_val ip)) port))
  else if atyp =? ADDRESS_TYPE_IPV6 then
    ip ← read_exact 16; mret (ASocket (mkSocketAddr (V6 (be_val ip)) port))
  else if atyp =? ADDRESS_TYPE_DOMAIN then
    len ← read_u8;
    domain ← read_exactZ len;
    _ ← rlift (ensure (utf8_valid domain) EInvalidData);
    mret (ADomain domain port)
  else rfail EInvalidData.

(* src/protocol/vless/src/common.rs:100-115 build_request_header *)
Definition build_request_header (user_id : bytes) (flow : NormalizedFlow) (command : Z) (addr : Address)
    : res bytes :=
  addons ← write_addons flow;
  a ← (if negb (command =? COMMAND_MUX) then write_address addr else Ok []);
  Ok ([VLESS_VERSION] ++ user_id ++ addons ++ [command] ++ a).

(* src/protocol/vless/src/common.rs:117-152 read_request_header *)
Definition read_request_header (expected : bytes) : reader RequestHeader :=
  version ← read_u8;
  _ ← rlift (ensure (version =? VLESS_VERSION) EInvalidData);
  user ← read_exact 16;
  _ ← rlift (ensure (bool_decide (user = expected)) EPermissionDenied);
  flow ← read_addons;
  command ← read_u8;
  addr ← (if command =? COMMAND_MUX then mret (ADomain MUX_DOMAIN MUX_PORT) else read_address);
  mret (mkRequestHeader command addr flow).

(* src/protocol/vless/src/common.rs:154-160 write_response_header *)
Definition write_response_header : bytes := [VLESS_VERSION; 0].

End VlessHeader.
Export VlessHeader.

Module VlessStreams.

(** ** [PrefixWriteStream] *)

(* src/protocol/vless/src/common.rs:171-176 PrefixWriteStream *)
Record PrefixWriteStream : Type := mkPrefix {
  pw_inner : Wr;
  pending : bytes;
  pending_payload_len : nat;
  prefix_sent : bool }.

(* src/protocol/vless/src/common.rs:178-186 PrefixWriteStream::new *)
Definition prefix_new (inner : Wr) (prefix : bytes) : PrefixWriteStream :=
  mkPrefix inner prefix 0 false.

(* src/protocol/vless/src/common.rs:188-205 poll_drain_pending *)
Definition poll_drain_pending (s : PrefixWriteStream) : PrefixWriteStream * poll (res unit) :=
  match pending s with
  | [] => (mkPrefix (pw_inner s) [] (pending_payload_len s) true, Ready (Ok tt))
  | _ =>
    match inner_write (pw_inner s) (pending s) with
    | (w, Ready (Ok n)) =>
      match drop n (pending s) with
      | [] => (mkPrefix w [] (pending_payload_len s) true, Ready (Ok tt))
      | rest => (mkPrefix w rest (pending_payload_len s) (prefix_sent s), Pending)
      end
    | (w, Ready (Err e)) =>
      (mkPrefix w (pending s) (pending_payload_len s) (prefix_sent s), Ready (Err e))
    | (w, Pending) => (mkPrefix w (pending s) (pending_payload_len s) (prefix_sent s), Pending)
    end
  end.

(** The reads, flushes and shutdowns first drain what is pending; [k] is the
    inner stream's answer. *)
(* src/protocol/vless/src/common.rs:212-225 PrefixWriteStream::poll_read *)
Definition prefix_drain_then {A} (s : PrefixWriteStream) (k : poll (res A))
    : PrefixWriteStream * poll (res A) :=
  match pending s with
  | [] => (s, k)
  | _ => match poll_drain_pending s with
         | (s, Ready (Ok _)) => (s, k)
         | (s, Ready (Err e)) => (s, Ready (Err e))
         | (s, Pending) => (s, Pending)
         end
  end.

(* src/protocol/vless/src/common.rs:232-253 PrefixWriteStream::poll_write *)
Definition prefix_poll_write (s : PrefixWriteStream) (buf : bytes) : PrefixWriteStream * poll (res nat) :=
  if negb (prefix_sent s) then
    let s := if (pending_payload_len s =? 0)%nat && negb (bool_decide (buf = []))
             then mkPrefix (pw_inner s) (pending s ++ buf) (length buf) (prefix_sent s)
             else s in
    match poll_drain_pending s with
    | (s, Ready (Ok _)) =>
      (mkPrefix (pw_inner s) (pending s) 0 (prefix_sent s), Ready (Ok (pending_payload_len s)))
    | (s, Ready (Err e)) => (s, Ready (Err e))
    | (s, Pending) => (s, Pending)
    end
  else
    let '(w, r) := inner_write (pw_inner s) buf in
    (mkPrefix w (pending s) (pending_payload_len s) (prefix_sent s), r).

(** ** [ResponseHeaderStream] *)

(* src/protocol/vless/src/common.rs:162-169 ResponseHeaderStream *)
Record ResponseHeaderStream : Type := mkResponse {
  rs_inner : list rans;
  header : bytes;
  skipped_len : nat;
  skipped_read : nat;
  ready : bool }.

(* src/protocol/vless/src/common.rs:278-288 ResponseHeaderStream::new *)
Definition response_new (inner : list rans) : ResponseHeaderStream := mkResponse inner [] 0 0 false.

(** The loop; [header] holds the [header_read] bytes read so far and the
    skipped bytes are only counted.  At most two reads of the header, 255 of
    the skipped bytes and one round that finishes are needed. *)
(* src/protocol/vless/src/common.rs:290-349 poll_ready_header *)
Fixpoint poll_ready_header (fuel : nat) (s : ResponseHeaderStream)
    : ResponseHeaderStream * option (poll (res unit)) :=
  if ready s then (s, Some (Ready (Ok tt)))
  else
  match fuel with
  | O => (s, None)
  | S fuel =>
    if (length (header s) <? 2)%nat then
      match inner_read (2 - length (header s)) (rs_inner s) with
      | (r, Ready (Ok d)) =>
        match d with
        | [] => (mkResponse r (header s) (skipped_len s) (skipped_read s) false, Some (Ready (Err EUnexpectedEof)))
        | _ => poll_ready_header fuel (mkResponse r (header s ++ d) (skipped_len s) (skipped_read s) false)
        end
      | (r, Ready (Err e)) => (mkResponse r (header s) (skipped_len s) (skipped_read s) false, Some (Ready (Err e)))
      | (r, Pending) => (mkResponse r (header s) (skipped_len s) (skipped_read s) false, Some Pending)
      end
    else if negb (nth 0 (header s) 0 =? VLESS_VERSION) then (s, Some (Ready (Err EInvalidData)))
    else
      let len := if (skipped_len s =? 0)%nat then Z.to_nat (nth 1 (header s) 0) else skipped_len s in
      if (len =? 0)%nat then
        (mkResponse (rs_inner s) (header s) 0 (skipped_read s) true, Some (Ready (Ok tt)))
      else if (skipped_read s <? len)%nat then
        match inner_read (len - skipped_read s) (rs_inner s) with
        | (r, Ready (Ok d)) =>
          match d with
          | [] => (mkResponse r (header s) len (skipped_read s) false, Some (Ready (Err EUnexpectedEof)))
          | _ => poll_ready_header fuel (mkResponse r (header s) len (skipped_read s + length d) false)
          end
        | (r, Ready (Err e)) => (mkResponse r (header s) len (skipped_read s) false, Some (Ready (Err e)))
        | (r, Pending) => (mkResponse r (header s) len (skipped_read s) false, Some Pending)
        end
      else poll_ready_header fuel (mkResponse (rs_inner s) (header s) len (skipped_read s) true)
  end.

Definition response_poll_with (fuel cap : nat) (s : ResponseHeaderStream)
    : ResponseHeaderStream * option (poll (res bytes)) :=
  match poll_ready_header fuel s with
  | (s, Some (Ready (Ok _))) =>
    let '(r, p) := inner_read cap (rs_inner s) in
    (mkResponse r (header s) (skipped_len s) (skipped_read s) (ready s), Some p)
  | (s, Some (Ready (Err e))) => (s, Some (Ready (Err e)))
  | (s, Some Pending) => (s, Some Pending)
  | (s, None) => (s, None)
  end.

(* src/protocol/vless/src/common.rs:352-367 ResponseHeaderStream::poll_read *)
Definition response_poll_read (cap : nat) (s : ResponseHeaderStream)
    : ResponseHeaderStream * option (poll (res bytes)) := response_poll_with 260 cap s.

End VlessStreams.
Export VlessStreams.

Module Vision.

(* src/protocol/vless/src/common.rs:33-33 MAX_VISION_CONTENT *)
Definition MAX_VISION_CONTENT : nat := Z.to_nat 65535.

(** The writing half of [VisionStream]. *)
(* src/protocol/vless/src/common.rs:390-395 VisionStream *)
Record VisionWriter : Type := mkVW {
  vw_inner : Wr;
  vw_user_id : bytes;
  wrote_uuid : bool;
  write_pending : bytes;
  write_payload_len : nat }.

(** The reading half; [shared_raw] is the shared [AtomicBool]. *)
(* src/protocol/vless/src/common.rs:396-405 VisionStream *)
Record VisionReader : Type := mkVR {
  vr_user_id : bytes;
  read_buf : bytes;
  read_pending : bytes;
  expect_uuid : bool;
  remaining_header : nat;
  current_command : Z;
  remaining_content : nat;
  remaining_padding : nat;
  direct_mode : bool;
  shared_raw : bool }.

(* src/protocol/vless/src/common.rs:416-433 VisionStream::new *)
Definition vision_reader_new (user_id : bytes) : VisionReader :=
  mkVR user_id [] [] true 0%nat 0 0%nat 0%nat false false.
Definition vision_writer_new (inner : Wr) (user_id : bytes) : VisionWriter :=
  mkVW inner user_id false [] 0.

(* src/protocol/vless/src/common.rs:434-446 enqueue_write *)
Definition enqueue_write (s : VisionWriter) (buf : bytes) : VisionWriter * nat :=
  let payload_len := Nat.min (length buf) MAX_VISION_CONTENT in
  let p := if wrote_uuid s then write_pending s else write_pending s ++ vw_user_id s in
  let p := p ++ [0] ++ be_bytes 2 (Z.of_nat payload_len) ++ be_bytes 2 0 ++ take payload_len buf in
  (mkVW (vw_inner s) (vw_user_id s) true p payload_len, payload_len).

(** [direct_mode = true] and the rest of [read_buf] to [read_pending]. *)
Definition go_direct (s : VisionReader) (shared : bool) : VisionReader :=
  mkVR (vr_user_id s) [] (read_pending s ++ read_buf s) (expect_uuid s) (remaining_header s)
    (current_command s) (remaining_content s) (remaining_padding s) true shared.

(** The [while remaining_header > 0] loop: one byte of the frame header per
    round, [read_buf] being long enough. *)
Fixpoint read_frame_header (n : nat) (s : VisionReader) : VisionReader :=
  match n with
  | O => s
  | S n' =>
    match read_buf s with
    | [] => s
    | b :: rest =>
      let cmd := if (n =? 5)%nat then b else current_command s in
      let hi := Z.to_nat (Z.shiftl b 8) in
      let lo (v : nat) := Z.to_nat (Z.lor (Z.of_nat v) b) in
      let content := if (n =? 4)%nat then hi
                     else if (n =? 3)%nat then lo (remaining_content s) else remaining_content s in
      let padding := if (n =? 2)%nat then hi
                     else if (n =? 1)%nat then lo (remaining_padding s) else remaining_padding s in
      read_frame_header n'
        (mkVR (vr_user_id s) rest (read_pending s) (expect_uuid s) n' cmd content padding
           (direct_mode s) (shared_raw s))
    end
  end.

(** The first frame is preceded by the user's id, which is dropped. *)
(* src/protocol/vless/src/common.rs:471-474 try_decode_frames *)
Definition strip_uuid (s : VisionReader) : VisionReader :=
  if expect_uuid s
  then mkVR (vr_user_id s) (drop 16 (read_buf s)) (read_pending s) false 5 (current_command s)
         (remaining_content s) (remaining_padding s) (direct_mode s) (shared_raw s)
  else s.

(** Content and padding of a frame whose header has been read, and what its
    command means for the frames to come. *)
(* src/protocol/vless/src/common.rs:494-524 try_decode_frames *)
Definition body_step (s : VisionReader) : VisionReader * bool :=
  let content := remaining_content s in
  let padding := remaining_padding s in
  if (length (read_buf s) <? content + padding)%nat then (s, false)
  else
    let rest := drop (content + padding) (read_buf s) in
    let pending := read_pending s ++ take content (read_buf s) in
    if current_command s =? 0 then
      (mkVR (vr_user_id s) rest pending (expect_uuid s) 5 (current_command s) 0%nat 0%nat (direct_mode s)
         (shared_raw s), true)
    else
      (go_direct (mkVR (vr_user_id s) rest pending (expect_uuid s) (remaining_header s)
                    (current_command s) 0%nat 0%nat (direct_mode s) (shared_raw s))
         (if current_command s =? 2 then true else shared_raw s), false).

(* src/protocol/vless/src/common.rs:476-524 try_decode_frames *)
Definition frame_step (s : VisionReader) : VisionReader * bool :=
  if (length (read_buf s) <? remaining_header s)%nat then (s, false)
  else body_step (read_frame_header (remaining_header s) s).

(** [self.read_buf[..n] != self.user_id[..n]] for the common length. *)
Definition uuid_mismatch (s : VisionReader) : bool :=
  let n := Nat.min (length (read_buf s)) (length (vr_user_id s)) in
  (0 <? n)%nat && negb (bool_decide (take n (read_buf s) = take n (vr_user_id s))).

(** One round of the loop: the state, and whether the loop goes on. *)
(* src/protocol/vless/src/common.rs:449-525 try_decode_frames *)
Definition decode_step (s : VisionReader) : VisionReader * bool :=
  if direct_mode s then (go_direct s (shared_raw s), false)
  else if expect_uuid s && uuid_mismatch s then (go_direct s (shared_raw s), false)
  else if expect_uuid s && (length (read_buf s) <? 21)%nat then (s, false)
  else frame_step (strip_uuid s).

(** The loop: a round that goes on consumes at least one byte, or finishes
    the frame whose header an earlier call has read. *)
(* src/protocol/vless/src/common.rs:448-526 try_decode_frames *)
Fixpoint decode_loop (fuel : nat) (s : VisionReader) : VisionReader :=
  match fuel with
  | O => s
  | S fuel => let '(s, more) := decode_step s in if more then decode_loop fuel s else s
  end.

Definition try_decode_frames (s : VisionReader) : VisionReader :=
  decode_loop (S (S (length (read_buf s)))) s.

(** [read_pending.split_to(n)]. *)
Definition take_pending (cap : nat) (s : VisionReader) : VisionReader * bytes :=
  let n := Nat.min (length (read_pending s)) cap in
  (mkVR (vr_user_id s) (read_buf s) (drop n (read_pending s)) (expect_uuid s) (remaining_header s)
     (current_command s) (remaining_content s) (remaining_padding s) (direct_mode s) (shared_raw s),
   take n (read_pending s)).

Definition append_read (s : VisionReader) (d : bytes) : VisionReader :=
  mkVR (vr_user_id s) (read_buf s ++ d) (read_pending s) (expect_uuid s) (remaining_header s)
    (current_command s) (remaining_content s) (remaining_padding s) (direct_mode s) (shared_raw s).

(** The read loop over the inner reader's answers. *)
Fixpoint vision_read_loop (fuel : nat) (cap : nat) (s : VisionReader) (r : list rans)
    : VisionReader * list rans * option (poll (res bytes)) :=
  match fuel with
  | O => (s, r, None)
  | S fuel =>
    let s := try_decode_frames s in
    match read_pending s with
    | _ :: _ => let '(s, d) := take_pending cap s in (s, r, Some (Ready (Ok d)))
    | [] =>
      match inner_read 4096 r with
      | (r, Ready (Ok d)) =>
        match d with
        | [] => (s, r, Some (Ready (Ok [])))
        | _ => vision_read_loop fuel cap (append_read s d) r
        end
      | (r, Ready (Err e)) => (s, r, Some (Ready (Err e)))
      | (r, Pending) => (s, r, Some Pending)
      end
    end
  end.

(* src/protocol/vless/src/common.rs:533-575 VisionStream::poll_read *)
Definition vision_poll_read (cap : nat) (s : VisionReader) (r : list rans)
    : VisionReader * list rans * option (poll (res bytes)) :=
  match read_pending s with
  | _ :: _ => let '(s, d) := take_pending cap s in (s, r, Some (Ready (Ok d)))
  | [] =>
    if direct_mode s then let '(r, p) := inner_read cap r in (s, r, Some p)
    else vision_read_loop (S (length (r_bytes r) + length r)) cap s r
  end.

Definition set_write (s : VisionWriter) (w : Wr) (p : bytes) (n : nat) : VisionWriter :=
  mkVW w (vw_user_id s) (wrote_uuid s) p n.

(* src/protocol/vless/src/common.rs:582-622 VisionStream::poll_write *)
Definition vision_poll_write (s : VisionWriter) (buf : bytes) : VisionWriter * poll (res nat) :=
  match write_pending s with
  | _ :: _ =>
    match inner_write (vw_inner s) (write_pending s) with
    | (w, Ready (Ok n)) =>
      match drop n (write_pending s) with
      | [] => (set_write s w [] 0, Ready (Ok (write_payload_len s)))
      | rest => (set_write s w rest (write_payload_len s), Pending)
      end
    | (w, Ready (Err e)) => (set_write s w (write_pending s) (write_payload_len s), Ready (Err e))
    | (w, Pending) => (set_write s w (write_pending s) (write_payload_len s), Pending)
    end
  | [] =>
    match buf with
    | [] => (s, Ready (Ok 0%nat))
    | _ =>
      let '(s, payload_len) := enqueue_write s buf in
      match inner_write (vw_inner s) (write_pending s) with
      | (w, Ready (Ok n)) =>
        match drop n (write_pending s) with
        | [] => (set_write s w [] 0, Ready (Ok payload_len))
        | rest => (set_write s w rest (write_payload_len s), Pending)
        end
      | (w, Ready (Err e)) => (set_write s w (write_pending s) (write_payload_len s), Ready (Err e))
      | (w, Pending) => (set_write s w (write_pending s) (write_payload_len s), Pending)
      end
    end
  end.

(** The drain loop of [poll_flush] and [poll_shutdown], then the inner answer
    [k]; each round uses one answer of the inner writer. *)
Fixpoint vision_drain (fuel : nat) (s : VisionWriter) (k : poll (res unit)) : VisionWriter * poll (res unit) :=
  match write_pending s with
  | [] => (s, k)
  | _ :: _ =>
    match fuel with
    | O => (s, Pending)
    | S fuel =>
      match inner_write (vw_inner s) (write_pending s) with
      | (w, Ready (Ok n)) =>
        vision_drain fuel (set_write s w (drop n (write_pending s)) (write_payload_len s)) k
      | (w, Ready (Err e)) => (set_write s w (write_pending s) (write_payload_len s), Ready (Err e))
      | (w, Pending) => (set_write s w (write_pending s) (write_payload_len s), Pending)
      end
    end
  end.

(* src/protocol/vless/src/common.rs:624-652 VisionStream::poll_flush *)
Definition vision_poll_flush (s : VisionWriter) (k : poll (res unit)) : VisionWriter * poll (res unit) :=
  vision_drain (S (length (w_script (vw_inner s)))) s k.

End Vision.
Export Vision.

Module Xudp.

(* src/protocol/vless/src/common.rs:655-667 XudpCodec *)
Record XudpCodec : Type := mkXudp { last_addr : option Address }.

(** The codec and what is appended to [dst]. *)
(* src/protocol/vless/src/common.rs:669-698 XudpCodec::encode *)
Definition xudp_encode (c : XudpCodec) (data : bytes) (addr : Address) : XudpCodec * res bytes :=
  if (Z.to_nat 65535 <? length data)%nat then (c, Err EInvalidData)
  else
    let use_compact := bool_decide (last_addr c = Some addr) in
    let meta0 := be_bytes 2 0 ++ [if use_compact then 2 else 1] ++ [1] in
    match (if use_compact then Ok (meta0, c)
           else match write_address addr with
                | Ok a => Ok (meta0 ++ [2] ++ a, mkXudp (Some addr))
                | Err e => Err e
                end) with
    | Err e => (c, Err e)
    | Ok (meta, c) =>
      (c, Ok (be_bytes 2 (Z.of_nat (length meta)) ++ meta ++ be_bytes 2 (Z.of_nat (length data)) ++ data))
    end.

(* src/protocol/vless/src/common.rs:1075-1118 read_address_buf *)
Definition read_address_buf : reader Address := fun buf =>
  if (length buf <? 3)%nat then Err EUnexpectedEof
  else
    (port ← read_u16;
     atyp ← read_u8;
     if atyp =? ADDRESS_TYPE_IPV4 then
       ip ← read_exact 4; mret (ASocket (mkSocketAddr (V4 (be_val ip)) port))
     else if atyp =? ADDRESS_TYPE_IPV6 then
       ip ← read_exact 16; mret (ASocket (mkSocketAddr (V6 (be_val ip)) port))
     else if atyp =? ADDRESS_TYPE_DOMAIN then
       len ← read_u8;
       domain ← read_exactZ len;
       _ ← rlift (ensure (utf8_valid domain) EInvalidData);
       mret (ADomain domain port)
     else rfail EInvalidData) buf.

(** The codec, the bytes left in [src], and the decoded packet. *)
(* src/protocol/vless/src/common.rs:814-882 XudpCodec::decode *)
Definition xudp_decode (c : XudpCodec) (src : bytes) : XudpCodec * bytes * res (option (bytes * Address)) :=
  if (length src <? 2)%nat then (c, src, Ok None)
  else
    let meta_len := be_val (take 2 src) in
    if meta_len <? 4 then (c, src, Err EInvalidData)
    else if Z.of_nat (length src) <? 2 + meta_len + 2 then (c, src, Ok None)
    else
      let packet_type := nth 4 src 0 in
      let body := drop (Z.to_nat (2 + meta_len)) src in
      let payload_len := be_val (take 2 body) in
      if packet_type =? 4 then
        if Z.of_nat (length body) <? 2 + payload_len then (c, body, Ok None)
        else (c, drop (Z.to_nat (2 + payload_len)) body, Ok None)
      else if negb (packet_type =? 1) && negb (packet_type =? 2) then (c, src, Err EInvalidData)
      else
        let meta := drop 6 (take (Z.to_nat (2 + meta_len)) src) in
        let parsed :=
          match meta with
          | [] => match last_addr c with
                  | Some a => Ok (a, c)
                  | None => Err EInvalidData
                  end
          | network :: rest =>
            if negb (network =? 2) then Err EInvalidData
            else match read_address_buf rest with
                 | Ok (a, _) => Ok (a, mkXudp (Some a))
                 | Err e => Err e
                 end
          end in
        match parsed with
        | Err e => (c, body, Err e)
        | Ok (addr, c) =>
          if (length body <? 2)%nat then (c, body, Ok None)
          else if Z.of_nat (length body) <? 2 + payload_len then (c, body, Ok None)
          else (c, drop (Z.to_nat (2 + payload_len)) body,
                Ok (Some (take (Z.to_nat payload_len) (drop 2 body), addr)))
        end.

End Xudp.
Export Xudp.

(** ** Lemmas *)

Module VlessLemmas.

Definition addr_utf8 (a : Address) : Prop :=
  addr_ok a /\ match a with ADomain d _ => utf8_valid d = true | ASocket _ => True end.

Lemma read_u16_be (v : Z) (k : bytes) : 0 <= v < 2 ^ 16 -> read_u16 (be_bytes 2 v ++ k) = Ok (v, k).
Proof. intros H. apply (read_be_app 2). done. Qed.

Lemma read_address_write (a : Address) (w r : bytes) :
  addr_utf8 a -> write_address a = Ok w -> read_address (w ++ r) = Ok (a, r).
Proof.
  intros [Hok Hutf] Hw. unfold read_address. destruct a as [[[v|v] p]|d p]; cbn [write_address sa_ip sa_port] in Hw.
  - apply Ok_inj in Hw as <-. destruct Hok as [Hi Hp]. cbn [ip_ok sa_ip sa_port] in *.
    rewrite <- !app_assoc. rstep ltac:(by apply read_u16_be).
    rstep ltac:(apply read_u8_cons). cbn [Z.eqb Pos.eqb ADDRESS_TYPE_IPV4 ADDRESS_TYPE_IPV6].
    rstep ltac:(apply read_exact_app_n, length_be_bytes). by rewrite be_val_be_bytes.
  - apply Ok_inj in Hw as <-. destruct Hok as [Hi Hp]. cbn [ip_ok sa_ip sa_port] in *.
    rewrite <- !app_assoc. rstep ltac:(by apply read_u16_be).
    rstep ltac:(apply read_u8_cons). cbn [Z.eqb Pos.eqb ADDRESS_TYPE_IPV4 ADDRESS_TYPE_IPV6].
    rstep ltac:(apply read_exact_app_n, length_be_bytes). by rewrite be_val_be_bytes.
  - destruct (255 <? length d)%nat eqn:E; [done|]. bools. apply Ok_inj in Hw as <-. destruct Hok as [_ Hp].
    rewrite <- !app_assoc. rstep ltac:(by apply read_u16_be).
    rstep ltac:(apply read_u8_cons). cbn [Z.eqb Pos.eqb ADDRESS_TYPE_IPV4 ADDRESS_TYPE_IPV6 ADDRESS_TYPE_DOMAIN].
    rstep ltac:(apply read_u8_cons). rewrite Z.mod_small by lia.
    rstep ltac:(by apply read_exactZ_app). by rstep ltac:(by apply rlift_ensure_true).
Qed.

#[export] Instance vless_codec : AddressCodec := {|
  ac_write := write_address;
  ac_read := read_address;
  ac_wf := addr_utf8;
  ac_roundtrip := read_address_write |}.

Lemma read_address_buf_write (a : Address) (w r : bytes) :
  addr_utf8 a -> write_address a = Ok w -> read_address_buf (w ++ r) = Ok (a, r).
Proof.
  intros H Hw. unfold read_address_buf.
  replace (Nat.ltb _ _) with false.
  - by apply read_address_write.
  - symmetry. apply Nat.ltb_ge. rewrite length_app.
    destruct a as [[[v|v] p]|d p]; cbn [write_address sa_ip sa_port] in Hw.
    + apply Ok_inj in Hw as <-. rewrite !length_app, length_be_bytes. simpl. lia.
    + apply Ok_inj in Hw as <-. rewrite !length_app, length_be_bytes. simpl. lia.
    + destruct (255 <? length d)%nat; [done|]. apply Ok_inj in Hw as <-.
      rewrite !length_app, length_be_bytes. simpl. lia.
Qed.

(** A normal form is written as addons that are read back. *)
Lemma read_addons_write (f : NormalizedFlow) (w r : bytes) :
  f = None \/ f = Some FLOW_VISION -> write_addons f = Ok w -> read_addons (w ++ r) = Ok (f, r).
Proof.
  intros [-> | ->] Hw; apply Ok_inj in Hw as <-.
  - unfold read_addons. by rstep ltac:(apply read_u8_cons).
  - change ([(Z.of_nat (length FLOW_VISION) + 2) mod 256; 10; Z.of_nat (length FLOW_VISION) mod 256]
      ++ FLOW_VISION) with (18 :: ([10; 16] ++ FLOW_VISION)).
    unfold read_addons. rewrite <- app_comm_cons.
    rstep ltac:(apply read_u8_cons). cbn [Z.eqb].
    rstep ltac:(by apply (read_exactZ_app 18 ([10; 16] ++ FLOW_VISION))).
    by repeat (rstep ltac:(by apply rlift_ensure_true)).
Qed.

Lemma normalized_flow_cases (o : option bytes) (f : NormalizedFlow) :
  normalized_flow_parse o = Ok f -> f = None \/ f = Some FLOW_VISION.
Proof. unfold normalized_flow_parse. destruct o as [b|]; repeat case_match; intros; simplify_eq; auto. Qed.

(** ** Prefix streams *)

(** What the stream has accepted, still owes and has put on the wire: before
    the prefix is out, the wire and the pending bytes are the prefix and the
    buffer in flight; afterwards nothing is pending and the wire is the prefix
    followed by the accepted bytes. *)
Definition prefix_inv (prefix acc inflight : bytes) (s : PrefixWriteStream) : Prop :=
  if prefix_sent s then pending s = [] /\ pending_payload_len s = 0%nat /\ inflight = [] /\
                        w_out (pw_inner s) = prefix ++ acc
  else acc = [] /\ pending_payload_len s = length inflight /\
       w_out (pw_inner s) ++ pending s = prefix ++ inflight.

Lemma drain_inv (s s' : PrefixWriteStream) (p : poll (res unit)) :
  poll_drain_pending s = (s', p) ->
  w_out (pw_inner s') ++ pending s' = w_out (pw_inner s) ++ pending s /\
  pending_payload_len s' = pending_payload_len s /\
  (p = Ready (Ok tt) -> pending s' = [] /\ prefix_sent s' = true) /\
  (p <> Ready (Ok tt) -> prefix_sent s' = prefix_sent s).
Proof.
  unfold poll_drain_pending. destruct (pending s) as [|b t] eqn:E.
  { intros [= <- <-]. cbn. by rewrite app_nil_r. }
  destruct (inner_write (pw_inner s) (b :: t)) as [w [|[n|e]]] eqn:W; apply inner_write_out in W.
  - intros [= <- <-]. cbn. rewrite W. by repeat split.
  - destruct W as [Hn W]. destruct (drop n (b :: t)) as [|b' t'] eqn:D; intros [= <- <-]; cbn.
    + rewrite app_nil_r, W. assert (take n (b :: t) = b :: t) as ->; [|by repeat split].
      rewrite <- (take_drop n (b :: t)) at 2. by rewrite D, app_nil_r.
    + rewrite W, <- app_assoc, <- D, take_drop. by repeat split.
  - intros [= <- <-]. cbn. rewrite W. by repeat split.
Qed.

(** ** Response headers *)

(** The number of bytes announced to be skipped, once the header is known. *)
Definition announced (s : ResponseHeaderStream) : nat :=
  Z.to_nat (nth 1 (header s ++ r_bytes (rs_inner s)) 0).

(** What the stream still has to deliver: everything after the two header
    bytes and the skipped ones. *)
Definition resp_payload (s : ResponseHeaderStream) : bytes :=
  drop (2 - length (header s) + (announced s - skipped_read s)) (r_bytes (rs_inner s)).

Definition resp_inv (s : ResponseHeaderStream) : Prop :=
  (length (header s) <= 2)%nat /\ (announced s <= 255)%nat /\
  (skipped_read s <= announced s)%nat /\
  ((length (header s) < 2)%nat -> skipped_read s = 0%nat /\ skipped_len s = 0%nat /\ ready s = false) /\
  (skipped_len s <> 0%nat -> skipped_len s = announced s) /\
  (skipped_len s = 0%nat -> skipped_read s = 0%nat) /\
  (ready s = true -> skipped_read s = announced s).

Lemma poll_ready_header_spec (fuel : nat) (s : ResponseHeaderStream) :
  resp_inv s -> (2 - length (header s) + (255 - skipped_read s) + 2 <= fuel)%nat ->
  exists s' p, poll_ready_header fuel s = (s', Some p) /\ resp_inv s' /\
    resp_payload s' = resp_payload s /\ (p = Ready (Ok tt) -> ready s' = true).
Proof.
  revert s. induction fuel as [|fuel IH]; intros s Hinv Hf; [lia|].
  cbn [poll_ready_header]. destruct (ready s) eqn:Er; [by exists s, (Ready (Ok tt))|].
  pose proof Hinv as (Hh & Ha & Hs & Hlt & Hsl & Hsz & _).
  destruct (length (header s) <? 2)%nat eqn:E2; bools.
  - destruct (Hlt E2) as (Hs0 & Hl0 & _). clear Hlt Hsl Hsz.
    destruct (inner_read _ (rs_inner s)) as [r [|[d|e]]] eqn:Ei; apply inner_read_bytes in Ei.
    + eexists _, _. split; [done|]. unfold resp_inv, resp_payload, announced in *. cbn [header rs_inner skipped_read skipped_len ready] in *.
      rewrite <- Ei. repeat split; try done; lia.
    + destruct Ei as [Ei Hd]. destruct d as [|b d].
      * eexists _, _. split; [done|]. unfold resp_inv, resp_payload, announced in *. cbn [header rs_inner skipped_read skipped_len ready app] in *.
        rewrite <- Ei. repeat split; try done; lia.
      * assert (Hann : announced (mkResponse r (header s ++ b :: d) (skipped_len s) (skipped_read s) false) = announced s).
        { unfold announced. cbn [header rs_inner]. by rewrite Ei, <- app_assoc. }
        destruct (IH (mkResponse r (header s ++ b :: d) (skipped_len s) (skipped_read s) false)) as (s' & p & Hp & Hi & Hpay & Hr).
        { unfold resp_inv. rewrite Hann. cbn [header skipped_read skipped_len ready].
          rewrite length_app. repeat split; try done; simpl length in *; lia. }
        { cbn [header skipped_read]. rewrite length_app. simpl length in *. lia. }
        exists s', p. split; [done|]. split; [done|]. split; [|done]. rewrite Hpay.
        unfold resp_payload. rewrite Hann. cbn [header skipped_read rs_inner].
        rewrite Ei, drop_app, length_app. rewrite (drop_ge (b :: d)) by (simpl length in *; lia).
        simpl app. f_equal. simpl length in *. lia.
    + eexists _, _. split; [done|]. unfold resp_inv, resp_payload, announced in *. cbn [header rs_inner skipped_read skipped_len ready] in *.
      rewrite <- Ei. repeat split; try done; lia.
  - assert (Hann : announced s = Z.to_nat (nth 1 (header s) 0)).
    { unfold announced. rewrite app_nth1 by lia. done. }
    destruct (negb _); [by exists s, (Ready (Err EInvalidData))|].
    set (len := if (skipped_len s =? 0)%nat then Z.to_nat (nth 1 (header s) 0) else skipped_len s).
    assert (Hlen : len = announced s).
    { unfold len. destruct (skipped_len s =? 0)%nat eqn:E; bools; [done|auto]. }
    clearbody len.
    assert (Hany : forall r k l y, announced (mkResponse r (header s) l k y) = announced s).
    { intros. unfold announced. cbn [header rs_inner]. by rewrite !app_nth1 by lia. }
    destruct (len =? 0)%nat eqn:E0; bools.
    { eexists _, _. split; [done|]. unfold resp_inv, resp_payload. rewrite !Hany.
      cbn [header rs_inner skipped_read skipped_len ready]. repeat split; try done; lia. }
    destruct (skipped_read s <? len)%nat eqn:Es; bools.
    + destruct (inner_read _ (rs_inner s)) as [r [|[d|e]]] eqn:Ei; apply inner_read_bytes in Ei.
      * eexists _, _. split; [done|]. unfold resp_inv, resp_payload. rewrite !Hany.
        cbn [header rs_inner skipped_read skipped_len ready]. rewrite <- Ei. repeat split; try done; lia.
      * destruct Ei as [Ei Hd]. destruct d as [|b d].
        { eexists _, _. split; [done|]. unfold resp_inv, resp_payload. rewrite !Hany.
          cbn [header rs_inner skipped_read skipped_len ready app] in *. rewrite <- Ei.
          repeat split; try done; lia. }
        destruct (IH (mkResponse r (header s) len (skipped_read s + length (b :: d)) false)) as (s' & p & Hp & Hi & Hpay & Hr).
        { unfold resp_inv. rewrite Hany. cbn [header skipped_read skipped_len ready].
          repeat split; try done; simpl length in *; lia. }
        { cbn [header skipped_read]. simpl length in *. lia. }
        exists s', p. split; [done|]. split; [done|]. split; [|done]. rewrite Hpay.
        unfold resp_payload. rewrite !Hany. cbn [header skipped_read rs_inner].
        rewrite Ei, drop_app. rewrite (drop_ge (b :: d)) by (simpl length in *; lia).
        simpl app. f_equal. simpl length in *. lia.
      * eexists _, _. split; [done|]. unfold resp_inv, resp_payload. rewrite !Hany.
        cbn [header rs_inner skipped_read skipped_len ready]. rewrite <- Ei. repeat split; try done; lia.
    + destruct fuel as [|fuel]; [lia|]. cbn [poll_ready_header ready].
      eexists _, _. split; [done|]. unfold resp_inv, resp_payload. rewrite !Hany.
      cbn [header rs_inner skipped_read skipped_len ready]. repeat split; try done; lia.
Qed.

(** Once the header is gone, reads pass through. *)
Lemma response_read_inv (cap : nat) (s : ResponseHeaderStream) (r : list rans) (q : poll (res bytes)) :
  resp_inv s -> ready s = true -> inner_read cap (rs_inner s) = (r, q) ->
  let s' := mkResponse r (header s) (skipped_len s) (skipped_read s) (ready s) in
  resp_inv s' /\
  match q with
  | Ready (Ok d) => resp_payload s = d ++ resp_payload s'
  | _ => resp_payload s' = resp_payload s
  end.
Proof.
  intros (Hh & Ha & Hs & Hlt & Hsl & Hsz & Hr) Hready Hq%inner_read_bytes. cbv zeta.
  assert (Hlen : length (header s) = 2%nat).
  { destruct (Nat.lt_ge_cases (length (header s)) 2) as [Hc|]; [|lia].
    destruct (Hlt Hc) as (_ & _ & ?). congruence. }
  assert (Hany : announced (mkResponse r (header s) (skipped_len s) (skipped_read s) (ready s)) = announced s).
  { unfold announced. cbn [header rs_inner]. by rewrite !app_nth1 by lia. }
  specialize (Hr Hready). split.
  - unfold resp_inv. rewrite Hany. cbn [header skipped_len skipped_read ready]. repeat split; auto; lia.
  - unfold resp_payload. rewrite Hany. cbn [header rs_inner skipped_read].
    replace (2 - length (header s) + (announced s - skipped_read s))%nat with 0%nat by lia.
    rewrite !drop_0. destruct q as [|[d|e]]; [done|apply Hq|done].
Qed.

Lemma response_poll_spec (fuel cap : nat) (s s' : ResponseHeaderStream) (o : option (poll (res bytes))) :
  resp_inv s -> (259 <= fuel)%nat -> response_poll_with fuel cap s = (s', o) ->
  resp_inv s' /\
  match o with
  | Some (Ready (Ok d)) => resp_payload s = d ++ resp_payload s'
  | Some _ => resp_payload s' = resp_payload s
  | None => False
  end.
Proof.
  intros Hinv Hf H. unfold response_poll_with in H.
  destruct (poll_ready_header_spec fuel s Hinv) as (s1 & p & Hp & Hi & Hpay & Hr); [lia|].
  rewrite Hp in H. destruct p as [|[[]|e]]; [by simplify_eq| |by simplify_eq].
  specialize (Hr eq_refl). destruct (inner_read cap (rs_inner s1)) as [r q] eqn:Ei.
  apply (response_read_inv cap _ r q Hi Hr) in Ei. rewrite <- Hpay. by simplify_eq.
Qed.

End VlessLemmas.
Export VlessLemmas.

(** ** Properties *)

(** The header that is written is the header that is read. *)
Lemma request_header_read (user : bytes) (flow : NormalizedFlow) (command : Z) (addr : Address) (w rest : bytes) :
  length user = 16%nat -> flow = None \/ flow = Some FLOW_VISION -> addr_utf8 addr ->
  build_request_header user flow command addr = Ok w ->
  read_request_header user (w ++ rest) =
    Ok (mkRequestHeader command (if command =? COMMAND_MUX then ADomain MUX_DOMAIN MUX_PORT else addr) flow, rest).
Proof.
  intros Hu Hf Ha. unfold build_request_header.
  destruct (write_addons flow) as [adds|e] eqn:Ea; [|done]. cbn [mbind res_bind].
  destruct (if negb (command =? COMMAND_MUX) then write_address addr else Ok []) as [x|e] eqn:Ew; [|done].
  cbn [mbind res_bind]. intros E%Ok_inj. subst w. unfold read_request_header. rewrite <- !app_assoc.
  rstep ltac:(apply read_u8_cons). rstep ltac:(by apply rlift_ensure_true).
  rstep ltac:(by apply read_exact_app_n). rstep ltac:(apply rlift_ensure_true; by apply bool_decide_eq_true).
  rstep ltac:(by apply read_addons_write). rstep ltac:(apply read_u8_cons).
  destruct (command =? COMMAND_MUX); cbn [negb] in Ew.
  - injection Ew as <-. done.
  - by rstep ltac:(by apply read_address_write).
Qed.

(** the VLESS request header round trips: for every user, flow in normal
    form, command and address the header can be written exactly when the
    address is a domain of at most 255 bytes, a socket address, or not sent
    ([MUX]); the server reads back command, flow and address (the MUX address
    for [MUX]) and stops at the payload; with another user's id it refuses
    with [PermissionDenied]. *)
Theorem vless_request_roundtrip (user other : bytes) (flow : NormalizedFlow) (command : Z)
    (addr : Address) (rest : bytes) :
  length user = 16%nat -> flow = None \/ flow = Some FLOW_VISION -> addr_utf8 addr ->
  match build_request_header user flow command addr with
  | Ok w =>
    read_request_header user (w ++ rest) =
      Ok (mkRequestHeader command (if command =? COMMAND_MUX then ADomain MUX_DOMAIN MUX_PORT else addr) flow,
          rest) /\
    (other <> user -> read_request_header other (w ++ rest) = Err EPermissionDenied)
  | Err e => e = EInvalidInput /\ command <> COMMAND_MUX /\
             exists d p, addr = ADomain d p /\ (255 < length d)%nat
  end.
Proof.
  intros Hu Hf Ha. destruct (build_request_header user flow command addr) as [w|e] eqn:Eb.
  - split; [by apply request_header_read|]. intros Hne. revert Eb. unfold build_request_header.
    destruct (write_addons flow) as [adds|e]; [|done]. cbn [mbind res_bind].
    destruct (if negb (command =? COMMAND_MUX) then write_address addr else Ok []) as [x|e]; [|done].
    cbn [mbind res_bind]. intros E%Ok_inj. subst w. unfold read_request_header. rewrite <- !app_assoc.
    rstep ltac:(apply read_u8_cons). rstep ltac:(by apply rlift_ensure_true).
    rstep ltac:(by apply read_exact_app_n).
    apply rbind_err, rlift_ensure_false. apply bool_decide_eq_false. congruence.
  - revert Eb. unfold build_request_header.
    destruct (write_addons flow) as [adds|e'] eqn:Ea; [|by destruct Hf as [-> | ->]]. cbn [mbind res_bind].
    destruct (if negb (command =? COMMAND_MUX) then write_address addr else Ok []) as [w|e'] eqn:Ew; [done|].
    cbn [mbind res_bind]. intros [= ->]. destruct (command =? COMMAND_MUX) eqn:Ec; cbn [negb] in Ew; [done|]. bools.
    destruct addr as [[[v|v] p]|d p]; cbn [write_address sa_ip sa_port] in Ew; try done.
    destruct (255 <? length d)%nat eqn:El; bools; simplify_eq. eauto 10.
Qed.

Lemma vless_request_roundtrip_witness :
  exists w, build_request_header (replicate 16 7) (Some FLOW_VISION) COMMAND_TCP
    (ADomain (lit "example.com") 443) = Ok w /\
  read_request_header (replicate 16 7) (w ++ lit "GET") =
    Ok (mkRequestHeader COMMAND_TCP (ADomain (lit "example.com") 443) (Some FLOW_VISION), lit "GET").
Proof.
  assert (Ha : addr_utf8 (ADomain (lit "example.com") 443)).
  { split; [split; [apply bytes_okb_spec; reflexivity|unfold port_ok; lia]|reflexivity]. }
  pose proof (vless_request_roundtrip (replicate 16 7) [] (Some FLOW_VISION) COMMAND_TCP
    (ADomain (lit "example.com") 443) (lit "GET") eq_refl (or_intror eq_refl) Ha) as H.
  destruct (build_request_header _ _ _ _) as [w|e] eqn:E; [|vm_compute in E; discriminate].
  exists w. split; [reflexivity|]. exact (proj1 H).
Defined.

(** a VLESS client's prefixed stream sends the request header exactly
    once, immediately before the payload, however the connection splits the
    writes, as long as a write that was pending is retried with the same
    buffer: this is kept by every write, and a write reported as done has put
    exactly its bytes on the wire. *)
Theorem prefix_stream_exact (prefix acc inflight buf : bytes) (s s' : PrefixWriteStream)
    (r : poll (res nat)) :
  prefix_inv prefix acc inflight s -> inflight = [] \/ inflight = buf ->
  prefix_poll_write s buf = (s', r) ->
  match r with
  | Ready (Ok n) => (n <= length buf)%nat /\ prefix_inv prefix (acc ++ take n buf) [] s'
  | Pending => exists inflight', (inflight' = [] \/ inflight' = buf) /\ prefix_inv prefix acc inflight' s'
  | Ready (Err _) => True
  end.
Proof.
  intros Hinv Hb Hw. unfold prefix_poll_write in Hw. unfold prefix_inv in Hinv.
  destruct (prefix_sent s) eqn:Es; cbn [negb] in Hw.
  - destruct Hinv as (Hp & Hl & -> & Ho).
    destruct (inner_write (pw_inner s) buf) as [w [|[n|e]]] eqn:W; injection Hw as <- <-; [| |done];
      apply inner_write_out in W.
    + exists []. split; [by left|]. unfold prefix_inv. cbn. by rewrite W.
    + destruct W as [Hn W]. split; [done|]. unfold prefix_inv. cbn. by rewrite W, Ho, app_assoc.
  - destruct Hinv as (-> & Hl & Ho).
    set (s1 := if _ && _ then _ else s) in Hw.
    assert (H1 : prefix_sent s1 = false /\ pending_payload_len s1 = length buf /\
      w_out (pw_inner s1) ++ pending s1 = prefix ++ buf).
    { unfold s1. destruct (pending_payload_len s =? 0)%nat eqn:E0; bools; cbn [andb].
      - assert (inflight = []) as -> by (destruct inflight; [done|simpl in Hl; lia]).
        rewrite app_nil_r in Ho. destruct (bool_decide (buf = [])) eqn:Eb; cbn [negb].
        + apply bool_decide_eq_true in Eb as ->. by rewrite app_nil_r.
        + cbn. by rewrite app_assoc, Ho.
      - destruct Hb as [-> | ->]; [simpl in Hl; lia|]. done. }
    clearbody s1. clear Hl Ho Es Hb. destruct H1 as (Es & Hl & Ho).
    destruct (poll_drain_pending s1) as [s2 [|[[]|e]]] eqn:D; injection Hw as <- <-; [| |done];
      apply drain_inv in D as (Ho2 & Hl2 & Hok & Hnok).
    + exists buf. split; [by right|]. unfold prefix_inv. rewrite Hnok, Es by done.
      by rewrite Hl2, Ho2.
    + destruct (Hok eq_refl) as [Hp Hsent]. rewrite Hl2, Hl. split; [done|].
      unfold prefix_inv. cbn. rewrite Hsent, Hp. rewrite Hp, app_nil_r in Ho2.
      rewrite take_ge by done. by rewrite Ho2, Ho.
Qed.

Lemma prefix_stream_exact_witness :
  let s := prefix_new (mkWr [] [WOk 2; WOk 9] false) [1; 2; 3] in
  prefix_inv [1; 2; 3] [] [] s /\
  exists inflight', (inflight' = [] \/ inflight' = [4; 5]) /\
    prefix_inv [1; 2; 3] [] inflight' (prefix_poll_write s [4; 5]).1.
Proof.
  cbv zeta. set (s := prefix_new (mkWr [] [WOk 2; WOk 9] false) [1; 2; 3]).
  assert (H : prefix_inv [1; 2; 3] [] [] s) by (split; [reflexivity|split; reflexivity]).
  split; [exact H|].
  exact (prefix_stream_exact [1; 2; 3] [] [] [4; 5] s _ _ H (or_introl eq_refl) eq_refl).
Defined.

(** ** Vision lemmas *)

Module VisionLemmas.

(** The measure of the loop: unread bytes, plus one for a frame whose header
    has already been read. *)
Definition measure (s : VisionReader) : nat :=
  length (read_buf s) + (if (remaining_header s =? 0)%nat && negb (expect_uuid s) then 1 else 0).

Lemma read_frame_header_append (n : nat) (s : VisionReader) (b : bytes) :
  (n <= length (read_buf s))%nat ->
  read_frame_header n (append_read s b) = append_read (read_frame_header n s) b.
Proof.
  revert s. induction n as [|n IH]; intros s Hn; [done|]. cbn [read_frame_header append_read read_buf].
  destruct (read_buf s) as [|x t] eqn:E; [simpl in Hn; lia|]. cbn [app].
  rewrite <- IH by (cbn [read_buf]; simpl in Hn; lia). by destruct s.
Qed.

Lemma read_frame_header_fields (n : nat) (s : VisionReader) :
  (n <= length (read_buf s))%nat ->
  read_buf (read_frame_header n s) = drop n (read_buf s) /\
  remaining_header (read_frame_header n s) = (if (n =? 0)%nat then remaining_header s else 0%nat) /\
  expect_uuid (read_frame_header n s) = expect_uuid s /\
  direct_mode (read_frame_header n s) = direct_mode s /\
  vr_user_id (read_frame_header n s) = vr_user_id s /\
  read_pending (read_frame_header n s) = read_pending s.
Proof.
  revert s. induction n as [|n IH]; intros s Hn; [by rewrite drop_0|]. cbn [read_frame_header].
  destruct (read_buf s) as [|x t] eqn:E; [simpl in Hn; lia|].
  match goal with |- context [read_frame_header n ?x] =>
    destruct (IH x) as (H1 & H2 & H3 & H4 & H5 & H6); [cbn [read_buf]; simpl in Hn; lia|] end.
  rewrite H1, H2, H3, H4, H5, H6. cbn [read_buf remaining_header expect_uuid direct_mode vr_user_id read_pending].
  repeat split. destruct n; done.
Qed.

Lemma body_step_measure (s s' : VisionReader) :
  body_step s = (s', true) ->
  remaining_header s' = 5%nat /\ (length (read_buf s') <= length (read_buf s))%nat /\
  direct_mode s' = direct_mode s /\ expect_uuid s' = expect_uuid s.
Proof.
  unfold body_step. destruct (_ <? _)%nat; [done|]. destruct (_ =? 0); [|done].
  intros [= <-]. cbn [remaining_header read_buf direct_mode expect_uuid]. repeat split. len.
Qed.

Lemma strip_uuid_len (s : VisionReader) :
  length (read_buf (strip_uuid s)) = (length (read_buf s) - if expect_uuid s then 16 else 0)%nat /\
  remaining_header (strip_uuid s) = (if expect_uuid s then 5%nat else remaining_header s) /\
  expect_uuid (strip_uuid s) = false /\ direct_mode (strip_uuid s) = direct_mode s.
Proof.
  unfold strip_uuid. destruct (expect_uuid s) eqn:E; cbn; [|rewrite E]; repeat split; len.
Qed.

Lemma decode_step_measure (s s' : VisionReader) :
  decode_step s = (s', true) -> (measure s' < measure s)%nat.
Proof.
  unfold decode_step. destruct (direct_mode s); [done|]. destruct (expect_uuid s && _); [done|].
  destruct (expect_uuid s && (length (read_buf s) <? 21)%nat) eqn:E21; [done|].
  destruct (strip_uuid_len s) as (Hl & Hr & He & _).
  intros Hb. unfold frame_step in Hb.
  destruct (Nat.ltb (length (read_buf (strip_uuid s))) (remaining_header (strip_uuid s))) eqn:Eh;
    [discriminate|]. bools.
  destruct (read_frame_header_fields (remaining_header (strip_uuid s)) (strip_uuid s) Eh)
    as (H1 & H2 & H3 & _).
  apply body_step_measure in Hb as (B1 & B2 & _ & B4). unfold measure. rewrite B1. cbn [Nat.eqb andb].
  rewrite H1, length_drop, Hl, Hr in B2. destruct (expect_uuid s); bools; cbn [negb andb].
  - rewrite andb_false_r. cbn [andb] in E21. bools. lia.
  - rewrite andb_true_r. destruct (remaining_header s =? 0)%nat eqn:E; bools; lia.
Qed.

Lemma decode_loop_fuel (f1 f2 : nat) (s : VisionReader) :
  (measure s < f1)%nat -> (measure s < f2)%nat -> decode_loop f1 s = decode_loop f2 s.
Proof.
  revert f2 s. induction f1 as [|f1 IH]; intros f2 s H1 H2; [lia|]. destruct f2 as [|f2]; [lia|].
  cbn [decode_loop]. destruct (decode_step s) as [s' []] eqn:E; [|done].
  apply decode_step_measure in E. apply IH; lia.
Qed.

Lemma measure_fuel (s : VisionReader) : (measure s < S (S (length (read_buf s))))%nat.
Proof. unfold measure. destruct (_ && _); lia. Qed.

Lemma decode_loop_S (f : nat) (s : VisionReader) :
  decode_loop (S f) s = let '(s', more) := decode_step s in if more then decode_loop f s' else s'.
Proof. done. Qed.

(** The loop's unfolding, free of fuel. *)
Lemma try_decode_step (s : VisionReader) :
  try_decode_frames s =
    let '(s', more) := decode_step s in if more then try_decode_frames s' else s'.
Proof.
  unfold try_decode_frames at 1. rewrite decode_loop_S. destruct (decode_step s) as [s' []] eqn:E; [|done].
  apply decode_loop_fuel; [|apply measure_fuel].
  apply decode_step_measure in E. pose proof (measure_fuel s). lia.
Qed.

Lemma body_step_append (s : VisionReader) (b : bytes) (s' : VisionReader) (more : bool) :
  body_step s = (s', more) -> more = true \/ direct_mode s' = true ->
  direct_mode s = false ->
  body_step (append_read s b) =
    ((if more then append_read s' b else go_direct (append_read s' b) (shared_raw s')), more).
Proof.
  unfold body_step. intros H Hor Hd.
  cbn [append_read read_buf remaining_content remaining_padding current_command].
  destruct (length (read_buf s) <? _)%nat eqn:E.
  { simplify_eq. destruct Hor; congruence. }
  bools. replace (length (read_buf s ++ b) <? _)%nat with false by (symmetry; apply Nat.ltb_ge; len).
  rewrite drop_app_le, take_app_le by lia.
  destruct (current_command s =? 0) eqn:Ec; simplify_eq; [done|].
  unfold go_direct, append_read. cbn. by rewrite app_nil_r || (rewrite <- !app_assoc; done).
Qed.

Lemma strip_uuid_append (s : VisionReader) (b : bytes) :
  (expect_uuid s = true -> (21 <= length (read_buf s))%nat) ->
  strip_uuid (append_read s b) = append_read (strip_uuid s) b.
Proof.
  intros H. unfold strip_uuid. cbn [append_read expect_uuid read_buf].
  destruct (expect_uuid s); [|done]. specialize (H eq_refl).
  rewrite drop_app_le by lia. done.
Qed.

Lemma uuid_mismatch_append (s : VisionReader) (b : bytes) :
  uuid_mismatch s = true -> uuid_mismatch (append_read s b) = true.
Proof.
  unfold uuid_mismatch. cbn [append_read read_buf vr_user_id]. rewrite !andb_true_iff.
  intros [H1 H2]. bools. apply bool_decide_eq_false in H2. split.
  - apply Nat.ltb_lt. len.
  - apply negb_true_iff, bool_decide_eq_false. intros He. apply H2.
    apply (f_equal (take (length (read_buf s) `min` length (vr_user_id s)))) in He.
    rewrite !take_take in He. revert He.
    replace (_ `min` (length (read_buf s ++ b) `min` _))%nat
      with (length (read_buf s) `min` length (vr_user_id s))%nat by len.
    by rewrite take_app_le by lia.
Qed.

Lemma uuid_match_append (s : VisionReader) (b : bytes) :
  (length (vr_user_id s) <= length (read_buf s))%nat ->
  uuid_mismatch s = false -> uuid_mismatch (append_read s b) = false.
Proof.
  unfold uuid_mismatch. cbn [append_read read_buf vr_user_id]. intros Hl H.
  replace (length (read_buf s ++ b) `min` _)%nat
    with (length (read_buf s) `min` length (vr_user_id s))%nat by len.
  by rewrite take_app_le by lia.
Qed.

(** When neither the id nor the frame header is incomplete, a round is the
    body of the frame, before and after more data arrives. *)
Lemma decode_step_body (s : VisionReader) (b : bytes) :
  length (vr_user_id s) = 16%nat -> direct_mode s = false ->
  expect_uuid s && uuid_mismatch s = false ->
  expect_uuid s && (length (read_buf s) <? 21)%nat = false ->
  (remaining_header (strip_uuid s) <= length (read_buf (strip_uuid s)))%nat ->
  decode_step (append_read s b) =
    body_step (append_read (read_frame_header (remaining_header (strip_uuid s)) (strip_uuid s)) b).
Proof.
  intros Hu Hd Hm Hl Hh. unfold decode_step. cbn [append_read direct_mode]. rewrite Hd.
  fold (append_read s b). cbn [expect_uuid append_read]. fold (append_read s b).
  assert (H21 : expect_uuid s = true -> (21 <= length (read_buf s))%nat)
    by (intros He; rewrite He in Hl; cbn [andb] in Hl; by bools).
  assert (expect_uuid s && uuid_mismatch (append_read s b) = false) as ->.
  { destruct (expect_uuid s); [|done]. cbn [andb] in *. apply uuid_match_append; [|done].
    specialize (H21 eq_refl). lia. }
  assert (expect_uuid s && (length (read_buf (append_read s b)) <? 21)%nat = false) as ->.
  { destruct (expect_uuid s); [|done]. specialize (H21 eq_refl). cbn [andb append_read read_buf].
    apply Nat.ltb_ge. len. }
  rewrite strip_uuid_append by done. unfold frame_step.
  replace (length (read_buf (append_read (strip_uuid s) b)) <? _)%nat with false
    by (symmetry; apply Nat.ltb_ge; cbn [append_read read_buf remaining_header]; len).
  by rewrite read_frame_header_append.
Qed.

Lemma decode_step_nil (s : VisionReader) :
  length (vr_user_id s) = 16%nat -> direct_mode s = false ->
  expect_uuid s && uuid_mismatch s = false ->
  expect_uuid s && (length (read_buf s) <? 21)%nat = false ->
  (remaining_header (strip_uuid s) <= length (read_buf (strip_uuid s)))%nat ->
  decode_step s = body_step (read_frame_header (remaining_header (strip_uuid s)) (strip_uuid s)).
Proof.
  assert (Ha : forall t, append_read t [] = t)
    by (intros t; unfold append_read; rewrite app_nil_r; by destruct t).
  intros. rewrite <- (Ha s) at 1. rewrite decode_step_body by done. by rewrite Ha.
Qed.

Lemma decode_step_frame (t : VisionReader) (b : bytes) :
  length (vr_user_id t) = 16%nat -> direct_mode t = false -> expect_uuid t = false ->
  remaining_header t = 0%nat ->
  body_step (append_read t b) = decode_step (append_read t b).
Proof.
  intros Hu Hd He Hr. rewrite decode_step_body; try done.
  - unfold strip_uuid. by rewrite He, Hr.
  - by rewrite He.
  - by rewrite He.
  - unfold strip_uuid. rewrite He, Hr. lia.
Qed.

Lemma go_direct_append (s : VisionReader) (b : bytes) (x : bool) :
  try_decode_frames (append_read (go_direct s x) b) = go_direct (append_read s b) x.
Proof.
  rewrite try_decode_step. unfold decode_step. cbn [append_read go_direct direct_mode].
  unfold go_direct, append_read. cbn. by rewrite app_assoc.
Qed.

(** Data that arrives after a round has the effect it would have had before. *)
Lemma step_append (s s1 : VisionReader) (more : bool) (b : bytes) :
  length (vr_user_id s) = 16%nat -> decode_step s = (s1, more) ->
  try_decode_frames (append_read s b) = try_decode_frames (append_read s1 b) /\
  vr_user_id s1 = vr_user_id s.
Proof.
  intros Hu H. destruct (direct_mode s) eqn:Hd.
  { unfold decode_step in H. rewrite Hd in H. injection H as <- <-. split; [|done].
    rewrite go_direct_append. rewrite try_decode_step. unfold decode_step.
    cbn [append_read direct_mode]. by rewrite Hd. }
  destruct (expect_uuid s && uuid_mismatch s) eqn:Hm.
  { unfold decode_step in H. rewrite Hd, Hm in H. injection H as <- <-. split; [|done].
    rewrite go_direct_append. rewrite try_decode_step. unfold decode_step.
    cbn [append_read direct_mode expect_uuid]. rewrite Hd. fold (append_read s b).
    apply andb_true_iff in Hm as [-> Hm]. by rewrite uuid_mismatch_append. }
  destruct (expect_uuid s && (length (read_buf s) <? 21)%nat) eqn:Hl.
  { unfold decode_step in H. rewrite Hd, Hm, Hl in H. by injection H as <- <-. }
  destruct (Nat.le_gt_cases (remaining_header (strip_uuid s)) (length (read_buf (strip_uuid s)))) as [Hh|Hh].
  - pose proof (decode_step_body s b Hu Hd Hm Hl Hh) as Hb.
    rewrite decode_step_nil in H by done.
    destruct (strip_uuid_len s) as (_ & _ & He & Hd'). rewrite Hd in Hd'.
    destruct (read_frame_header_fields _ (strip_uuid s) Hh) as (F1 & F2 & F3 & F4 & F5 & F6).
    set (t := read_frame_header _ (strip_uuid s)) in *.
    assert (Hu' : vr_user_id t = vr_user_id s) by (rewrite F5; unfold strip_uuid; by destruct (expect_uuid s)).
    assert (Hr : remaining_header t = 0%nat)
      by (rewrite F2; destruct (remaining_header (strip_uuid s)); done).
    assert (Hus : vr_user_id s1 = vr_user_id s).
    { rewrite <- Hu'. revert H. unfold body_step. repeat case_match; intros [= <- <-]; done. }
    split; [|done]. rewrite try_decode_step, Hb.
    destruct more.
    + by rewrite (body_step_append t b s1 true) by (rewrite ?F4; auto).
    + destruct (direct_mode s1) eqn:Ed.
      * rewrite (body_step_append t b s1 false) by (rewrite ?F4; auto).
        rewrite try_decode_step. unfold decode_step. cbn [append_read direct_mode]. by rewrite Ed.
      * assert (s1 = t) as ->.
        { revert H. unfold body_step. repeat case_match; intros Hx; simplify_eq; try done;
            by cbn in Ed. }
        rewrite (try_decode_step (append_read t b)).
        rewrite <- (decode_step_frame t b); [done|congruence|congruence|congruence|done].
  - assert (expect_uuid s = false) as He.
    { destruct (strip_uuid_len s) as (L1 & L2 & _). rewrite L1, L2 in Hh.
      destruct (expect_uuid s); [|done]. cbn [andb] in Hl. bools. lia. }
    unfold decode_step in H. rewrite Hd, Hm, Hl in H. unfold frame_step in H.
    apply Nat.ltb_lt in Hh. rewrite Hh in H. injection H as <- <-.
    unfold strip_uuid. by rewrite He.
Qed.

(** Decoding does not depend on how the wire is cut into reads. *)
Lemma decode_confluent (s : VisionReader) (b : bytes) :
  length (vr_user_id s) = 16%nat ->
  try_decode_frames (append_read (try_decode_frames s) b) = try_decode_frames (append_read s b).
Proof.
  remember (measure s) as m eqn:Em. revert s Em.
  induction (lt_wf m) as [m _ IH]. intros s -> Hu.
  rewrite (try_decode_step s). destruct (decode_step s) as [s1 more] eqn:E.
  destruct (step_append s s1 more b Hu E) as [-> Hu']. destruct more; [|done].
  apply (IH (measure s1)); [by apply decode_step_measure|done|congruence].
Qed.


(** ** Encoding *)

Definition vision_frame (c : bytes) : bytes :=
  [0] ++ be_bytes 2 (Z.of_nat (length c)) ++ be_bytes 2 0 ++ c.

(** What a writer puts on the wire for a sequence of writes. *)
Definition vision_wire (user : bytes) (chunks : list bytes) : bytes :=
  write_pending (fold_left (fun s c => (enqueue_write s c).1) chunks
                   (vision_writer_new (mkWr [] [] false) user)).

Lemma max_content (c : bytes) : Z.of_nat (length c) < 2 ^ 16 -> Nat.min (length c) MAX_VISION_CONTENT = length c.
Proof. intros H. unfold MAX_VISION_CONTENT. rewrite Nat.min_l; [done|]. apply Nat2Z.inj_le. rewrite Z2Nat.id; lia. Qed.

Lemma vision_wire_frames (user : bytes) (chunks : list bytes) :
  Forall (fun c => Z.of_nat (length c) < 2 ^ 16) chunks -> chunks <> [] ->
  vision_wire user chunks = user ++ concat (map vision_frame chunks).
Proof.
  intros H Hne. unfold vision_wire.
  assert (G : forall cs s, Forall (fun c => Z.of_nat (length c) < 2 ^ 16) cs -> wrote_uuid s = true ->
    write_pending (fold_left (fun s c => (enqueue_write s c).1) cs s)
    = write_pending s ++ concat (map vision_frame cs)).
  { induction cs as [|c cs IH]; intros s Hs Hw; [by rewrite app_nil_r|].
    apply Forall_cons in Hs as [Hc Hs]. cbn [fold_left map concat].
    rewrite IH by done. unfold enqueue_write, vision_frame. cbn [fst write_pending].
    rewrite Hw, max_content, take_ge by (done || lia). by rewrite <- !app_assoc. }
  destruct chunks as [|c cs]; [done|]. apply Forall_cons in H as [Hc H].
  cbn [fold_left map concat]. rewrite G by done.
  unfold enqueue_write, vision_frame. cbn [fst write_pending wrote_uuid vision_writer_new vw_user_id].
  rewrite max_content, take_ge by (done || lia). by rewrite <- !app_assoc.
Qed.

(** The reader between two frames. *)
Definition at_frame (user pend buf : bytes) (shared : bool) : VisionReader :=
  mkVR user buf pend false 5 0 0%nat 0%nat false shared.

Lemma be2_pair (v : Z) : 0 <= v < 2 ^ 16 -> be_bytes 2 v = [v / 256; v mod 256].
Proof.
  intros H. cbn [be_bytes Z.of_nat]. change (256 ^ 1) with 256. change (256 ^ 0) with 1.
  rewrite Z.div_1_r, (Z.mod_small (v / 256)); [done|].
  split; [apply Z.div_pos; lia|apply Z.div_lt_upper_bound; lia].
Qed.

Lemma lor_bytes (v : Z) : 0 <= v < 2 ^ 16 ->
  Z.to_nat (Z.lor (Z.of_nat (Z.to_nat (Z.shiftl (v / 256) 8))) (v mod 256)) = Z.to_nat v.
Proof.
  intros H. assert (Hd : 0 <= v / 256) by (apply Z.div_pos; lia).
  rewrite Z2Nat.id by (apply Z.shiftl_nonneg; lia).
  pose proof (Z.mod_pos_bound v 256 ltac:(lia)).
  rewrite Z.lor_comm, (lor_shiftl_add (v mod 256) (v / 256) 8) by lia. f_equal. pose proof (Z_div_mod_eq_full v 256). lia.
Qed.

Lemma frame_header_read (user pend : bytes) (c rest : bytes) (shared : bool) :
  Z.of_nat (length c) < 2 ^ 16 ->
  read_frame_header 5 (at_frame user pend (vision_frame c ++ rest) shared)
  = mkVR user (c ++ rest) pend false 0 0 (length c) 0%nat false shared.
Proof.
  intros H. unfold vision_frame. rewrite !be2_pair by lia. change (0 / 256) with 0. change (0 mod 256) with 0.
  cbn [app read_frame_header at_frame read_buf Nat.eqb vr_user_id read_pending expect_uuid current_command
       remaining_content remaining_padding direct_mode shared_raw].
  rewrite lor_bytes by lia. by rewrite Nat2Z.id.
Qed.

Lemma frame_body (user pend c rest : bytes) (shared : bool) :
  body_step (mkVR user (c ++ rest) pend false 0 0 (length c) 0%nat false shared)
  = (at_frame user (pend ++ c) rest shared, true).
Proof.
  unfold body_step. cbn [remaining_content remaining_padding read_buf current_command].
  replace (length (c ++ rest) <? length c + 0)%nat with false by (symmetry; apply Nat.ltb_ge; len).
  cbn [Z.eqb vr_user_id read_pending expect_uuid direct_mode shared_raw].
  by rewrite Nat.add_0_r, drop_app_length, take_app_length.
Qed.

Lemma decode_frame (user pend c rest : bytes) (shared : bool) :
  Z.of_nat (length c) < 2 ^ 16 ->
  decode_step (at_frame user pend (vision_frame c ++ rest) shared)
  = (at_frame user (pend ++ c) rest shared, true).
Proof.
  intros H. unfold decode_step. cbn [at_frame direct_mode expect_uuid andb].
  fold (at_frame user pend (vision_frame c ++ rest) shared).
  unfold strip_uuid, frame_step. cbn [at_frame expect_uuid remaining_header read_buf].
  fold (at_frame user pend (vision_frame c ++ rest) shared).
  replace (length (vision_frame c ++ rest) <? 5)%nat with false.
  - rewrite frame_header_read by done. apply frame_body.
  - symmetry. apply Nat.ltb_ge. unfold vision_frame. rewrite !length_app, !length_be_bytes. simpl. lia.
Qed.

Lemma decode_first_frame (user c rest : bytes) :
  length user = 16%nat -> Z.of_nat (length c) < 2 ^ 16 ->
  decode_step (append_read (vision_reader_new user) (user ++ vision_frame c ++ rest))
  = (at_frame user c rest false, true).
Proof.
  intros Hu H.
  change (append_read (vision_reader_new user) (user ++ vision_frame c ++ rest))
    with (mkVR user (user ++ vision_frame c ++ rest) [] true 0 0 0%nat 0%nat false false).
  unfold decode_step. cbn [direct_mode expect_uuid andb read_buf].
  assert (Hl : (5 <= length (vision_frame c ++ rest))%nat).
  { unfold vision_frame. rewrite !length_app, !length_be_bytes. simpl. lia. }
  assert (uuid_mismatch (mkVR user (user ++ vision_frame c ++ rest) [] true 0 0 0%nat 0%nat false false) = false) as ->.
  { unfold uuid_mismatch. cbn [read_buf vr_user_id]. rewrite length_app, Hu.
    replace ((16 + length (vision_frame c ++ rest)) `min` 16)%nat with 16%nat by lia.
    rewrite take_app_le, !take_ge by lia. by rewrite bool_decide_eq_true_2. }
  replace (length (user ++ vision_frame c ++ rest) <? 21)%nat with false
    by (symmetry; apply Nat.ltb_ge; rewrite length_app; lia).
  unfold strip_uuid, frame_step. cbn [expect_uuid read_buf vr_user_id read_pending current_command remaining_content remaining_padding direct_mode shared_raw remaining_header].
  replace (drop 16 (user ++ vision_frame c ++ rest)) with (vision_frame c ++ rest)
    by (rewrite <- Hu; symmetry; apply drop_app_length).
  replace (length (vision_frame c ++ rest) <? 5)%nat with false by (symmetry; apply Nat.ltb_ge; lia).
  fold (at_frame user [] (vision_frame c ++ rest) false).
  rewrite frame_header_read by done. by rewrite frame_body.
Qed.

Lemma decode_frames (user pend : bytes) (chunks : list bytes) (shared : bool) :
  Forall (fun c => Z.of_nat (length c) < 2 ^ 16) chunks ->
  try_decode_frames (at_frame user pend (concat (map vision_frame chunks)) shared)
  = at_frame user (pend ++ concat chunks) [] shared.
Proof.
  intros H. revert pend. induction H as [|c cs Hc _ IH]; intros pend; cbn [map concat].
  - rewrite try_decode_step. by rewrite app_nil_r.
  - rewrite try_decode_step, decode_frame by done. rewrite IH. by rewrite app_assoc.
Qed.

Lemma vision_wire_decodes (user : bytes) (chunks : list bytes) :
  length user = 16%nat -> Forall (fun c => Z.of_nat (length c) < 2 ^ 16) chunks -> chunks <> [] ->
  try_decode_frames (append_read (vision_reader_new user) (vision_wire user chunks))
  = at_frame user (concat chunks) [] false.
Proof.
  intros Hu H Hne. rewrite vision_wire_frames by done. destruct chunks as [|c cs]; [done|].
  apply Forall_cons in H as [Hc H]. cbn [map concat].
  rewrite try_decode_step, decode_first_frame by done. by rewrite decode_frames.
Qed.

Lemma try_decode_user (s : VisionReader) : length (vr_user_id s) = 16%nat ->
  vr_user_id (try_decode_frames s) = vr_user_id s.
Proof.
  remember (measure s) as m eqn:Em. revert s Em.
  induction (lt_wf m) as [m _ IH]. intros s -> Hu.
  rewrite try_decode_step. destruct (decode_step s) as [s1 more] eqn:E.
  destruct (step_append s s1 more [] Hu E) as [_ Hu']. destruct more; [|done].
  rewrite <- Hu'. apply (IH (measure s1)); [by apply decode_step_measure|done|congruence].
Qed.

(** Feeding the wire piece by piece. *)
Lemma decode_pieces (pieces : list bytes) (s : VisionReader) :
  length (vr_user_id s) = 16%nat -> pieces <> [] ->
  fold_left (fun s p => try_decode_frames (append_read s p)) pieces s
  = try_decode_frames (append_read s (concat pieces)).
Proof.
  intros Hu Hne. destruct pieces as [|p ps]; [done|]. clear Hne. cbn [fold_left concat].
  revert s p Hu. induction ps as [|q ps IH]; intros s p Hu.
  - cbn. by rewrite app_nil_r.
  - cbn [fold_left concat]. rewrite IH by (rewrite try_decode_user; done).
    assert (Happ : forall t a b, append_read (append_read t a) b = append_read t (a ++ b))
      by (intros t a b; unfold append_read; cbn; by rewrite app_assoc).
    rewrite decode_confluent by done. by rewrite Happ.
Qed.

End VisionLemmas.
Export VisionLemmas.

(** C14: XTLS Vision framing round trips, however the connection cuts the
    wire: for any writes of at most 65535 bytes, feeding the bytes the writer
    produced (the user's id, then one frame per write) in any pieces to the
    reader of the same user yields the written bytes in order, in framed
    mode, with nothing left over. *)
Theorem vision_roundtrip (user : bytes) (chunks pieces : list bytes) :
  length user = 16%nat -> Forall (fun c => Z.of_nat (length c) < 2 ^ 16) chunks -> chunks <> [] ->
  concat pieces = vision_wire user chunks ->
  let s := fold_left (fun s p => try_decode_frames (append_read s p)) pieces (vision_reader_new user) in
  read_pending s = concat chunks /\ read_buf s = [] /\ direct_mode s = false.
Proof.
  intros Hu H Hne Hp. cbv zeta. rewrite decode_pieces; [|done|].
  - rewrite Hp, vision_wire_decodes by done. done.
  - intros ->. rewrite vision_wire_frames in Hp by done. apply (f_equal length) in Hp.
    rewrite length_app, Hu in Hp. simpl in Hp. lia.
Qed.

Lemma vision_roundtrip_witness :
  let user := replicate 16 7 in
  let w := vision_wire user [[1; 2]; [3]] in
  read_pending (fold_left (fun s p => try_decode_frames (append_read s p)) [take 3 w; drop 3 w]
                  (vision_reader_new user)) = [1; 2; 3].
Proof.
  cbv zeta.
  refine (proj1 (vision_roundtrip (replicate 16 7) [[1; 2]; [3]]
    [take 3 (vision_wire (replicate 16 7) [[1; 2]; [3]]); drop 3 (vision_wire (replicate 16 7) [[1; 2]; [3]])]
    _ _ _ _)).
  - reflexivity.
  - repeat constructor.
  - discriminate.
  - reflexivity.
Defined.

(** the response header is skipped exactly: on a fresh stream, and after
    any polls, every read of a VLESS client delivers the next bytes of what
    follows the two header bytes and the announced addons, whatever the sizes
    of the inner reads; a poll always finishes, and a pending one loses
    nothing. *)
Theorem response_header_skipped (cap : nat) (s s' : ResponseHeaderStream) (o : option (poll (res bytes))) :
  resp_inv s -> response_poll_read cap s = (s', o) ->
  resp_inv s' /\
  match o with
  | Some (Ready (Ok d)) => resp_payload s = d ++ resp_payload s'
  | Some _ => resp_payload s' = resp_payload s
  | None => False
  end.
Proof. intros Hinv. apply response_poll_spec; [done|]. clear. lia. Qed.

Lemma response_header_skipped_witness :
  let s := response_new [RData [0]; RData [1; 9; 104]; RData [105]] in
  resp_inv s /\ exists s', response_poll_read 10 s = (s', Some (Ready (Ok [104]))) /\
    resp_payload s = [104] ++ resp_payload s'.
Proof.
  cbv zeta. set (s := response_new [RData [0]; RData [1; 9; 104]; RData [105]]).
  assert (Hi : resp_inv s).
  { unfold resp_inv, announced. cbn. repeat split; lia || discriminate || (intros; lia). }
  split; [exact Hi|]. eexists. split; [reflexivity|].
  exact (proj2 (response_header_skipped 10 s _ (Some (Ready (Ok [104]))) Hi eq_refl)).
Defined.

(** ** XUDP lemmas *)

Module XudpLemmas.

Lemma write_address_len (a : Address) (w : bytes) :
  write_address a = Ok w -> (0 < length w <= 259)%nat.
Proof.
  destruct a as [[[v|v] p]|d p]; cbn [write_address sa_ip sa_port].
  - intros H. apply Ok_inj in H as <-. rewrite !length_app, !length_be_bytes. simpl. lia.
  - intros H. apply Ok_inj in H as <-. rewrite !length_app, !length_be_bytes. simpl. lia.
  - destruct (255 <? length d)%nat eqn:E; [done|]. bools.
    intros H. apply Ok_inj in H as <-. rewrite !length_app, !length_be_bytes. simpl. lia.
Qed.

Lemma payload_bound (data : bytes) : (Z.to_nat 65535 <? length data)%nat = false -> Z.of_nat (length data) < 2 ^ 16.
Proof. intros H. bools. lia. Qed.

(** A packet as the encoder lays it out is decoded with what follows left in
    place. *)
Lemma decode_packet (c : XudpCodec) (ty opt : Z) (ext data rest : bytes) :
  ty = 1 \/ ty = 2 -> (length ext <= 260)%nat -> Z.of_nat (length data) < 2 ^ 16 ->
  xudp_decode c
    (be_bytes 2 (Z.of_nat (4 + length ext)) ++ (be_bytes 2 0 ++ [ty] ++ [opt] ++ ext) ++
     be_bytes 2 (Z.of_nat (length data)) ++ data ++ rest) =
  match (match ext with
         | [] => match last_addr c with Some a => Ok (a, c) | None => Err EInvalidData end
         | network :: r =>
           if negb (network =? 2) then Err EInvalidData
           else match read_address_buf r with
                | Ok (a, _) => Ok (a, mkXudp (Some a))
                | Err e => Err e
                end
         end) with
  | Ok (a, c') => (c', rest, Ok (Some (data, a)))
  | Err e => (c, be_bytes 2 (Z.of_nat (length data)) ++ data ++ rest, Err e)
  end.
Proof.
  intros Hty Hext Hdata.
  set (body := be_bytes 2 (Z.of_nat (length data)) ++ data ++ rest).
  assert (Hbody : length body = (2 + (length data + length rest))%nat)
    by (unfold body; by rewrite !length_app, length_be_bytes).
  assert (Htake : take 2 body = be_bytes 2 (Z.of_nat (length data)))
    by (unfold body; rewrite take_app_le by (rewrite length_be_bytes; lia); apply take_ge; rewrite length_be_bytes; lia).
  assert (Hdrop : drop 2 body = data ++ rest)
    by (unfold body; rewrite drop_app_ge by (rewrite length_be_bytes; lia); by rewrite length_be_bytes).
  assert (Hpl : be_val (take 2 body) = Z.of_nat (length data))
    by (rewrite Htake; apply be_val_be_bytes; lia).
  clearbody body.
  pose proof (length_be_bytes 2 (Z.of_nat (4 + length ext))) as L.
  pose proof (be_val_be_bytes 2 (Z.of_nat (4 + length ext)) ltac:(lia)) as V.
  destruct (be_bytes 2 (Z.of_nat (4 + length ext))) as [|m0 [|m1 [|]]]; try done.
  change (be_bytes 2 0) with [0; 0]. cbn [app]. unfold xudp_decode. cbn [take nth]. rewrite V.
  replace (Nat.ltb (length _) 2) with false by (symmetry; apply Nat.ltb_ge; cbn [length]; lia).
  replace (Z.of_nat (4 + length ext) <? 4) with false by (symmetry; apply Z.ltb_ge; lia).
  replace (Z.of_nat (length _) <? _) with false
    by (symmetry; apply Z.ltb_ge; cbn [length]; rewrite length_app; lia).
  replace (Z.to_nat (2 + Z.of_nat (4 + length ext))) with (S (S (S (S (S (S (length ext))))))) by lia.
  cbn [drop take]. rewrite drop_app_length, take_app_length, Hpl.
  replace (ty =? 4) with false by (destruct Hty as [-> | ->]; done).
  replace (negb (ty =? 1) && negb (ty =? 2)) with false by (destruct Hty as [-> | ->]; done).
  rewrite drop_0. destruct (match ext with [] => _ | _ => _ end) as [[a c']|e]; [|done].
  replace (length body <? 2)%nat with false by (symmetry; apply Nat.ltb_ge; lia).
  replace (Z.of_nat (length body) <? _) with false by (symmetry; apply Z.ltb_ge; lia).
  replace (Z.to_nat (2 + Z.of_nat (length data))) with (2 + length data)%nat by lia.
  rewrite <- drop_drop, Hdrop, Nat2Z.id, drop_app_length, take_app_length. done.
Qed.

Lemma encode_decode_one (c c' d : XudpCodec) (data w rest : bytes) (a : Address) :
  addr_utf8 a -> last_addr d = last_addr c ->
  xudp_encode c data a = (c', Ok w) ->
  exists d', xudp_decode d (w ++ rest) = (d', rest, Ok (Some (data, a))) /\ last_addr d' = last_addr c'.
Proof.
  intros Ha Hd He. unfold xudp_encode in He.
  destruct (Z.to_nat 65535 <? length data)%nat eqn:Ed; [done|]. apply payload_bound in Ed.
  destruct (bool_decide (last_addr c = Some a)) eqn:Ec.
  - apply bool_decide_eq_true in Ec.
    assert (c' = c) as -> by congruence.
    assert (w = be_bytes 2 (Z.of_nat (4 + length (@nil Z))) ++ (be_bytes 2 0 ++ [2] ++ [1] ++ []) ++
      be_bytes 2 (Z.of_nat (length data)) ++ data) as -> by (apply (f_equal snd) in He; by apply Ok_inj in He as <-).
    exists d. split; [|done]. rewrite <- !app_assoc.
    pose proof (decode_packet d 2 1 [] data rest ltac:(auto) ltac:(simpl; lia) Ed) as P.
    rewrite <- !app_assoc in P. rewrite P. by rewrite Hd, Ec.
  - destruct (write_address a) as [wa|e] eqn:Ew; [|done].
    pose proof (write_address_len a wa Ew) as Hl.
    assert (c' = mkXudp (Some a)) as -> by congruence.
    assert (w = be_bytes 2 (Z.of_nat (4 + length (2 :: wa))) ++ (be_bytes 2 0 ++ [1] ++ [1] ++ 2 :: wa) ++
      be_bytes 2 (Z.of_nat (length data)) ++ data) as -> by (apply (f_equal snd) in He; by apply Ok_inj in He as <-).
    exists (mkXudp (Some a)). split; [|done]. rewrite <- !app_assoc.
    pose proof (decode_packet d 1 1 (2 :: wa) data rest ltac:(auto) ltac:(simpl; lia) Ed) as P.
    rewrite <- !app_assoc in P. rewrite P. cbn [Z.eqb Pos.eqb negb].
    pose proof (read_address_buf_write a wa [] Ha Ew) as R. rewrite app_nil_r in R. by rewrite R.
Qed.

End XudpLemmas.
Export XudpLemmas.

(** Encoding a sequence of packets, and decoding until [n] packets are out. *)
Fixpoint xudp_encode_all (c : XudpCodec) (l : list (bytes * Address)) : option bytes :=
  match l with
  | [] => Some []
  | (data, a) :: l =>
    match xudp_encode c data a with
    | (c, Ok w) => (app w) <$> xudp_encode_all c l
    | (_, Err _) => None
    end
  end.

Fixpoint xudp_decode_n (n : nat) (c : XudpCodec) (src : bytes) : bytes * list (bytes * Address) :=
  match n with
  | O => (src, [])
  | S n => match xudp_decode c src with
           | (c, src, Ok (Some p)) => let '(r, l) := xudp_decode_n n c src in (r, p :: l)
           | (_, src, _) => (src, [])
           end
  end.

(** XUDP round trips: whatever sequence of packets one end encodes onto a
    stream, compact follow-ups to the same address included, the other end
    decodes to the same payloads and addresses in order, and leaves the bytes
    that follow. *)
Theorem xudp_roundtrip (l : list (bytes * Address)) (c d : XudpCodec) (w rest : bytes) :
  Forall (fun p => addr_utf8 p.2) l -> last_addr d = last_addr c ->
  xudp_encode_all c l = Some w -> xudp_decode_n (length l) d (w ++ rest) = (rest, l).
Proof.
  intros H. revert c d w. induction H as [|[data a] l Ha _ IH]; intros c d w Hd He; cbn [xudp_encode_all] in He.
  - by injection He as <-.
  - destruct (xudp_encode c data a) as [c' [w1|e]] eqn:E; [|done].
    apply fmap_Some in He as (w2 & He & ->).
    destruct (encode_decode_one c c' d data w1 (w2 ++ rest) a Ha Hd E) as (d' & Hdec & Hlast).
    cbn [length xudp_decode_n]. rewrite <- app_assoc, Hdec. by rewrite (IH c' d' w2 Hlast He).
Qed.

Lemma xudp_roundtrip_witness :
  exists w, xudp_encode_all (mkXudp None)
    [([1], ADomain (lit "a.b") 53); ([2; 3], ADomain (lit "a.b") 53)] = Some w /\
  xudp_decode_n 2 (mkXudp None) (w ++ [9])
    = ([9], [([1], ADomain (lit "a.b") 53); ([2; 3], ADomain (lit "a.b") 53)]).
Proof.
  eexists. split; [reflexivity|].
  eapply (xudp_roundtrip [([1], ADomain (lit "a.b") 53); ([2; 3], ADomain (lit "a.b") 53)] (mkXudp None) (mkXudp None)).
  - repeat constructor; try (apply bytes_okb_spec; reflexivity); cbn; lia.
  - reflexivity.
  - reflexivity.
Defined.

(** an incomplete packet makes the XUDP decoder lose its place: for a
    packet whose metadata has arrived but whose payload has not, [decode] asks
    for more data after having dropped the metadata, so that the next call
    takes the payload's length field for a metadata length; a stream cut
    there, unlike the whole stream, does not decode to the packet sent. *)
Theorem xudp_fragment_desync :
  let a := ADomain (lit "a.b") 53 in
  exists w head tail c src,
    xudp_encode_all (mkXudp None) [([1; 2; 3], a)] = Some w /\ w = head ++ tail /\
    xudp_decode (mkXudp None) w = (mkXudp (Some a), [], Ok (Some ([1; 2; 3], a))) /\
    xudp_decode (mkXudp None) head = (c, src, Ok None) /\
    length src = (length head - 14)%nat /\
    xudp_decode c (src ++ tail) <> (mkXudp (Some a), [], Ok (Some ([1; 2; 3], a))) /\
    (exists c' s', xudp_decode c (src ++ tail) = (c', s', Err EInvalidData)).
Proof.
  cbv zeta.
  set (w := default [] (xudp_encode_all (mkXudp None) [([1; 2; 3], ADomain (lit "a.b") 53)])).
  exists w, (take 17 w), (drop 17 w), (mkXudp (Some (ADomain (lit "a.b") 53))), (drop 14 (take 17 w)).
  split; [reflexivity|]. split; [reflexivity|]. split; [vm_compute; reflexivity|].
  split; [vm_compute; reflexivity|]. split; [reflexivity|]. split; [vm_compute; discriminate|].
  exists (mkXudp (Some (ADomain (lit "a.b") 53))), (drop 14 w). vm_compute. reflexivity.
Qed.

(** a write that is pending on a VLESS client's prefixed stream may be
    sent twice: if the connection takes only part of it and the stream is then
    read (which drains what is pending), the retried write puts the same
    payload on the wire again. *)
Theorem prefix_read_duplicates :
  let s := prefix_new (mkWr [] [WOk 4; WOk 9; WOk 9] false) (lit "hdr") in
  let '(s, r1) := prefix_poll_write s (lit "abc") in
  let '(s, _) := prefix_drain_then s (Ready (Ok [7])) in
  let '(s, r2) := prefix_poll_write s (lit "abc") in
  r1 = Pending /\ r2 = Ready (Ok 3%nat) /\ w_out (pw_inner s) = lit "hdrabcabc".
Proof. vm_compute. done. Qed.

(** after a partial write, Vision's [poll_write] returns pending although
    the inner writer was ready, so nobody has registered the task's waker;
    and a flush between the two calls makes the retry send the payload a
    second time. *)
Theorem vision_write_hazards :
  let s := vision_writer_new (mkWr [] [WOk 20; WOk 99; WOk 99] false) (replicate 16 7) in
  let '(s1, r1) := vision_poll_write s (lit "abc") in
  let '(s2, r2) := vision_poll_flush s1 (Ready (Ok tt)) in
  let '(s3, r3) := vision_poll_write s2 (lit "abc") in
  r1 = Pending /\ w_waker (vw_inner s1) = false /\ r2 = Ready (Ok tt) /\ r3 = Ready (Ok 3%nat) /\
  read_pending (try_decode_frames (append_read (vision_reader_new (replicate 16 7)) (w_out (vw_inner s3))))
    = lit "abcabc".
Proof. vm_compute. done. Qed.
