(* ===== verification/AnyTls.v ===== *)
(** * AnyTLS: [protocol/anytls/src/proto.rs] and [client.rs].

    Frames, padding schemes, the padding of outgoing packets, and the tasks
    and the stream of a client session.  SHA-256 and MD5 are parameters, the
    random draws are arguments, and a failed [assert!] is [None]. *)

From S2P Require Import Prelude Text Io Address.

Module AnyTls.

(* src/protocol/anytls/src/proto.rs:4-4 CMD_WASTE *)
Definition CMD_WASTE : Z := 0.
(* src/protocol/anytls/src/proto.rs:5-5 CMD_SYN *)
Definition CMD_SYN : Z := 1.
(* src/protocol/anytls/src/proto.rs:6-6 CMD_PSH *)
Definition CMD_PSH : Z := 2.
(* src/protocol/anytls/src/proto.rs:7-7 CMD_FIN *)
Definition CMD_FIN : Z := 3.
(* src/protocol/anytls/src/proto.rs:8-8 CMD_SETTINGS *)
Definition CMD_SETTINGS : Z := 4.
(* src/protocol/anytls/src/proto.rs:9-9 CMD_ALERT *)
Definition CMD_ALERT : Z := 5.
(* src/protocol/anytls/src/proto.rs:10-10 CMD_UPDATE_PADDING_SCHEME *)
Definition CMD_UPDATE_PADDING_SCHEME : Z := 6.
(* src/protocol/anytls/src/proto.rs:12-12 CMD_HEART_REQUEST *)
Definition CMD_HEART_REQUEST : Z := 8.
(* src/protocol/anytls/src/proto.rs:13-13 CMD_HEART_RESPONSE *)
Definition CMD_HEART_RESPONSE : Z := 9.
(* src/protocol/anytls/src/proto.rs:16-16 HEADER_LEN *)
Definition HEADER_LEN : nat := 7.
(* src/protocol/anytls/src/proto.rs:17-17 CHECK_MARK *)
Definition CHECK_MARK : Z := -1.

(* src/protocol/anytls/src/proto.rs:20-25 Frame *)
Record Frame : Type := mkFrame { f_cmd : Z; f_sid : Z; f_data : bytes }.

(* src/protocol/anytls/src/proto.rs:34-38 PaddingPart *)
Inductive PaddingPart : Type :=
| PCheck
| PRange (min max : Z).

(* src/protocol/anytls/src/proto.rs:27-32 PaddingScheme *)
Record PaddingScheme : Type := mkScheme {
  ps_raw : bytes; ps_stop : Z; ps_scheme : gmap Z (list PaddingPart) }.

(** One item of a packet's list; [None] is skipped. *)
(* src/protocol/anytls/src/proto.rs:62-81 PaddingScheme::parse *)
Definition parse_part (raw_part : bytes) : option PaddingPart :=
  if bool_decide (raw_part = lit "c") then Some PCheck
  else
    '(min, max) ← split_once 45 raw_part;
    min ← parse_uint 64 min;
    max ← parse_uint 64 max;
    if (min =? 0) || (max =? 0) then None
    else if max <? min then Some (PRange max min) else Some (PRange min max).

Definition parse_line (acc : option Z * gmap Z (list PaddingPart)) (line : bytes)
    : option Z * gmap Z (list PaddingPart) :=
  let '(stop, scheme) := acc in
  match split_once 61 line with
  | None => acc
  | Some (key, value) =>
    if bool_decide (key = lit "stop") then (parse_uint 32 value, scheme)
    else match parse_uint 32 key with
         | None => acc
         | Some pkt => (stop, <[pkt := omap parse_part (split_on 44 value)]> scheme)
         end
  end.

(* src/protocol/anytls/src/proto.rs:45-90 PaddingScheme::parse *)
Definition scheme_parse (raw : bytes) : option PaddingScheme :=
  if negb (utf8_valid raw) then None
  else
    let '(stop, scheme) := fold_left parse_line (lines raw) (None, ∅) in
    stop ← stop; Some (mkScheme raw stop scheme).

(* src/protocol/anytls/src/proto.rs:18-18 DEFAULT_PADDING_SCHEME *)
Definition DEFAULT_PADDING_SCHEME : bytes :=
  lit "stop=8" ++ [10] ++ lit "0=30-30" ++ [10] ++ lit "1=100-400" ++ [10] ++
  lit "2=400-500,c,500-1000,c,500-1000,c,500-1000,c,500-1000" ++ [10] ++
  lit "3=9-9,500-1000" ++ [10] ++ lit "4=500-1000" ++ [10] ++ lit "5=500-1000" ++ [10] ++
  lit "6=500-1000" ++ [10] ++ lit "7=500-1000".

(** [x as i32] of a [usize]. *)
Definition as_i32 (x : Z) : Z :=
  let y := x mod 2 ^ 32 in if y <? 2 ^ 31 then y else y - 2 ^ 32.

(** [random_range(min..max)] for the draw [r]. *)
Definition random_range (r min max : Z) : Z := min + r mod (max - min).

(** Sizes for a packet, one draw per part. *)
(* src/protocol/anytls/src/proto.rs:96-118 generate_record_payload_sizes *)
Definition generate_record_payload_sizes (rnd : nat -> Z) (p : PaddingScheme) (pkt : Z) : list Z :=
  if ps_stop p <=? pkt then []
  else
    imap (fun i part =>
      match part with
      | PCheck => CHECK_MARK
      | PRange min max => if min =? max then as_i32 min else as_i32 (random_range (rnd i) min max)
      end) (default [] (ps_scheme p !! pkt)).

(* src/protocol/anytls/src/proto.rs:121-129 encode_frame *)
Definition encode_frame (f : Frame) : option bytes :=
  if (Z.to_nat 65535 <? length (f_data f))%nat then None
  else Some ([f_cmd f] ++ be_bytes 4 (f_sid f) ++ be_bytes 2 (Z.of_nat (length (f_data f))) ++ f_data f).

(* src/protocol/anytls/src/proto.rs:131-137 decode_header *)
Definition decode_header (header : bytes) : Z * Z * Z :=
  (nth 0 header 0, be_val (take 4 (drop 1 header)), be_val (take 2 (drop 5 header))).

(* src/protocol/anytls/src/proto.rs:139-166 encode_socks_addr *)
Definition encode_socks_addr (addr : Address) : res bytes :=
  match addr with
  | ASocket socket =>
    Ok (match sa_ip socket with
        | V4 ip => [1] ++ be_bytes 4 ip
        | V6 ip => [4] ++ be_bytes 16 ip
        end ++ be_bytes 2 (sa_port socket))
  | ADomain domain port =>
    if (255 <? length domain)%nat then Err (EOther "domain name too long")
    else Ok ([3] ++ [Z.of_nat (length domain) mod 256] ++ domain ++ be_bytes 2 port)
  end.

(* src/protocol/anytls/src/proto.rs:187-193 encode_waste_frame *)
Definition encode_waste_frame (padding_len : Z) : option bytes :=
  if 65535 <? padding_len then None
  else encode_frame (mkFrame CMD_WASTE 0 (replicate (Z.to_nat padding_len) 0)).

(** [size as usize] of an [i32]. *)
Definition as_usize (x : Z) : Z := x mod 2 ^ 64.

(** The loop over the sizes: the chunks so far and the payload left. *)
(* src/protocol/anytls/src/proto.rs:207-227 apply_padding *)
Fixpoint padding_loop (sizes : list Z) (payload : bytes) : option (list bytes * bytes) :=
  match sizes with
  | [] => Some ([], payload)
  | size :: sizes =>
    if size =? CHECK_MARK then
      match payload with
      | [] => Some ([], [])
      | _ => padding_loop sizes payload
      end
    else
      let size := as_usize size in
      let len := Z.of_nat (length payload) in
      if size <? len then
        '(out, rest) ← padding_loop sizes (drop (Z.to_nat size) payload);
        Some (take (Z.to_nat size) payload :: out, rest)
      else match payload with
           | _ :: _ =>
             let padding_len := Z.max 0 (size - (len + Z.of_nat HEADER_LEN)) in
             waste ← (if 0 <? padding_len then encode_waste_frame padding_len else Some []);
             '(out, rest) ← padding_loop sizes [];
             Some ((payload ++ waste) :: out, rest)
           | [] =>
             waste ← encode_waste_frame size;
             '(out, rest) ← padding_loop sizes [];
             Some (waste :: out, rest)
           end
  end.

(* src/protocol/anytls/src/proto.rs:195-236 apply_padding *)
Definition apply_padding (rnd : nat -> Z) (pkt : Z) (padding : PaddingScheme) (payload : bytes)
    : option (list bytes) :=
  match generate_record_payload_sizes rnd padding pkt with
  | [] => Some [payload]
  | sizes =>
    '(out, payload) ← padding_loop sizes payload;
    let out := match payload with [] => out | _ => out ++ [payload] end in
    Some (match out with [] => [[]] | _ => out end)
  end.

Section Digests.
Variable md5_hex sha256 : bytes -> bytes.

(* src/protocol/anytls/src/proto.rs:168-170 encode_settings *)
Definition encode_settings (padding : PaddingScheme) : bytes :=
  lit "v=2" ++ [10] ++ lit "client=rdp/anytls" ++ [10] ++ lit "padding-md5=" ++ md5_hex (ps_raw padding).

(* src/protocol/anytls/src/proto.rs:172-185 auth_prefix *)
Definition auth_prefix (rnd : nat -> Z) (password : bytes) (padding : PaddingScheme) : option bytes :=
  let len := match generate_record_payload_sizes rnd padding 0 with
             | l :: _ => if 0 <? l then l else 0
             | [] => 0
             end in
  if 65535 <? len then None
  else Some (sha256 password ++ be_bytes 2 len ++ replicate (Z.to_nat len) 0).

(** What [tcp_connect] queues first. *)
(* src/protocol/anytls/src/client.rs:208-226 AnyTlsNet::tcp_connect *)
Definition initial_payload (sid : Z) (padding : PaddingScheme) (addr : Address) : option (res bytes) :=
  settings ← encode_frame (mkFrame CMD_SETTINGS 0 (encode_settings padding));
  syn ← encode_frame (mkFrame CMD_SYN sid []);
  match encode_socks_addr addr with
  | Err e => Some (Err e)
  | Ok a => psh ← encode_frame (mkFrame CMD_PSH sid a); Some (Ok (settings ++ syn ++ psh))
  end.
End Digests.

(** ** The session's tasks *)

(** The writer task: each queued payload, with the padding scheme in force
    when it is taken, becomes the packet with the next number; empty chunks
    are not written.  The result is the wire. *)
(* src/protocol/anytls/src/client.rs:152-166 AnyTlsNet::tcp_connect *)
Fixpoint writer_task (pkt : Z) (queue : list (bytes * PaddingScheme * (nat -> Z))) : option bytes :=
  match queue with
  | [] => Some []
  | (payload, padding, rnd) :: queue =>
    chunks ← apply_padding rnd pkt padding payload;
    rest ← writer_task (Z.min (2 ^ 32 - 1) (pkt + 1)) queue;
    Some (concat chunks ++ rest)
  end.

(** Reading one frame, as both ends do. *)
(* src/protocol/anytls/src/client.rs:171-180 AnyTlsNet::tcp_connect *)
Definition read_frame : reader Frame :=
  header ← read_exact HEADER_LEN;
  let '(cmd, sid, len) := decode_header header in
  data ← read_exactZ len;
  mret (mkFrame cmd sid data).

(** The reader task's state: what has been delivered to the stream, the
    padding scheme, and the answers queued for the writer. *)
Record ReaderTask : Type := mkReader {
  rt_delivered : list bytes; rt_padding : PaddingScheme; rt_replies : list bytes }.

(** One frame: the new state and whether the task goes on; [open] says
    whether the stream still listens. *)
(* src/protocol/anytls/src/client.rs:181-204 AnyTlsNet::tcp_connect *)
Definition handle_frame (open : bool) (sid : Z) (s : ReaderTask) (f : Frame) : ReaderTask * bool :=
  if (f_cmd f =? CMD_PSH) && (f_sid f =? sid) then
    if open then (mkReader (rt_delivered s ++ [f_data f]) (rt_padding s) (rt_replies s), true)
    else (s, false)
  else if (f_cmd f =? CMD_FIN) && (f_sid f =? sid) then (s, false)
  else if f_cmd f =? CMD_ALERT then (s, false)
  else if f_cmd f =? CMD_UPDATE_PADDING_SCHEME then
    match scheme_parse (f_data f) with
    | Some p => (mkReader (rt_delivered s) p (rt_replies s), true)
    | None => (s, true)
    end
  else if f_cmd f =? CMD_HEART_REQUEST then
    match encode_frame (mkFrame CMD_HEART_RESPONSE (f_sid f) []) with
    | Some r => (mkReader (rt_delivered s) (rt_padding s) (rt_replies s ++ [r]), true)
    | None => (s, true)
    end
  else (s, true).

(** The loop over the incoming bytes; a frame takes at least seven of them. *)
(* src/protocol/anytls/src/client.rs:170-206 AnyTlsNet::tcp_connect *)
Fixpoint reader_task (fuel : nat) (open : bool) (sid : Z) (s : ReaderTask) (input : bytes) : ReaderTask :=
  match fuel with
  | O => s
  | S fuel =>
    match read_frame input with
    | Err _ => s
    | Ok (f, input) =>
      let '(s, more) := handle_frame open sid s f in
      if more then reader_task fuel open sid s input else s
    end
  end.

(** ** [AnyTlsStream] *)

(** [write_tx] and [read_rx] are the queues; [as_open] says whether the
    writer task still takes payloads, [as_eof] whether the reader task has
    ended. *)
(* src/protocol/anytls/src/client.rs:245-251 AnyTlsStream *)
Record AnyTlsStream : Type := mkStream {
  as_sid : Z;
  as_write : list bytes;
  as_open : bool;
  as_read : list bytes;
  as_eof : bool;
  as_buf : bytes;
  as_closed : bool }.

(* src/protocol/anytls/src/client.rs:263-277 AnyTlsStream::poll_read *)
Definition stream_poll_read (cap : nat) (s : AnyTlsStream) : AnyTlsStream * poll (res bytes) :=
  let deliver (s : AnyTlsStream) (buf : bytes) (q : list bytes) :=
    let n := Nat.min (length buf) cap in
    (mkStream (as_sid s) (as_write s) (as_open s) q (as_eof s) (drop n buf) (as_closed s),
     Ready (Ok (take n buf))) in
  match as_buf s with
  | [] =>
    match as_read s with
    | data :: q => deliver s data q
    | [] => if as_eof s then (s, Ready (Ok [])) else (s, Pending)
    end
  | buf => deliver s buf (as_read s)
  end.

(** [write_tx.send]. *)
Definition send_frame (s : AnyTlsStream) (f : Frame) (closed : bool) : option (AnyTlsStream * bool) :=
  w ← encode_frame f;
  Some (mkStream (as_sid s) (if as_open s then as_write s ++ [w] else as_write s) (as_open s)
          (as_read s) (as_eof s) (as_buf s) closed, as_open s).

(* src/protocol/anytls/src/client.rs:279-295 AnyTlsStream::poll_write *)
Definition stream_poll_write (s : AnyTlsStream) (buf : bytes) : option (AnyTlsStream * poll (res nat)) :=
  if as_closed s then Some (s, Ready (Err EBrokenPipe))
  else match buf with
       | [] => Some (s, Ready (Ok 0%nat))
       | _ =>
         let n := Nat.min (length buf) (Z.to_nat 65535) in
         '(s, ok) ← send_frame s (mkFrame CMD_PSH (as_sid s) (take n buf)) (as_closed s);
         Some (s, Ready (if ok : bool then Ok n else Err EBrokenPipe))
       end.

(* src/protocol/anytls/src/client.rs:301-311 AnyTlsStream::poll_shutdown *)
Definition stream_poll_shutdown (s : AnyTlsStream) : option (AnyTlsStream * poll (res unit)) :=
  if as_closed s then Some (s, Ready (Ok tt))
  else '(s, _) ← send_frame s (mkFrame CMD_FIN (as_sid s) []) true; Some (s, Ready (Ok tt)).

End AnyTls.
Export AnyTls.

(** ** Lemmas *)

Module AnyTlsLemmas.

(** A frame the Rust type can hold, short enough to be encoded. *)
Definition frame_ok (f : Frame) : Prop :=
  byte_ok (f_cmd f) /\ 0 <= f_sid f < 2 ^ 32 /\ Z.of_nat (length (f_data f)) < 2 ^ 16.

Definition encoded (f : Frame) : bytes :=
  [f_cmd f] ++ be_bytes 4 (f_sid f) ++ be_bytes 2 (Z.of_nat (length (f_data f))) ++ f_data f.

Lemma encode_frame_ok (f : Frame) : frame_ok f -> encode_frame f = Some (encoded f).
Proof.
  intros (_ & _ & H). unfold encode_frame.
  replace (Nat.ltb _ _) with false; [done|]. symmetry. apply Nat.ltb_ge. lia.
Qed.

Lemma decode_header_encoded (f : Frame) (r : bytes) :
  frame_ok f ->
  read_exact HEADER_LEN (encoded f ++ r) =
    Ok ([f_cmd f] ++ be_bytes 4 (f_sid f) ++ be_bytes 2 (Z.of_nat (length (f_data f))), f_data f ++ r) /\
  decode_header ([f_cmd f] ++ be_bytes 4 (f_sid f) ++ be_bytes 2 (Z.of_nat (length (f_data f))))
    = (f_cmd f, f_sid f, Z.of_nat (length (f_data f))).
Proof.
  intros (Hc & Hs & Hd). split.
  - unfold encoded. rewrite <- !app_assoc.
    change ([f_cmd f] ++ be_bytes 4 (f_sid f) ++ be_bytes 2 (Z.of_nat (length (f_data f))) ++ f_data f ++ r)
      with (([f_cmd f] ++ be_bytes 4 (f_sid f) ++ be_bytes 2 (Z.of_nat (length (f_data f)))) ++ f_data f ++ r).
    apply read_exact_app_n. by rewrite !length_app, !length_be_bytes.
  - unfold decode_header. cbn [app nth drop].
    pose proof (length_be_bytes 4 (f_sid f)) as L4.
    pose proof (be_val_be_bytes 4 (f_sid f) ltac:(lia)) as V4.
    pose proof (length_be_bytes 2 (Z.of_nat (length (f_data f)))) as L2.
    pose proof (be_val_be_bytes 2 (Z.of_nat (length (f_data f))) ltac:(lia)) as V2.
    destruct (be_bytes 4 (f_sid f)) as [|a [|b [|c [|d [|]]]]]; try done.
    destruct (be_bytes 2 (Z.of_nat (length (f_data f)))) as [|x [|y [|]]]; try done.
    cbn [app take drop]. by rewrite V4, V2.
Qed.

Lemma read_frame_encoded (f : Frame) (r : bytes) :
  frame_ok f -> read_frame (encoded f ++ r) = Ok (f, r).
Proof.
  intros H. destruct (decode_header_encoded f r H) as [H1 H2].
  unfold read_frame. rewrite bind_reader, H1, H2.
  rstep ltac:(by apply read_exactZ_app). by destruct f.
Qed.

(** All the frames of a byte string, and those that are not padding. *)
Fixpoint frames_of (fuel : nat) (input : bytes) : list Frame :=
  match fuel with
  | O => []
  | S fuel => match read_frame input with
              | Ok (f, input) => f :: frames_of fuel input
              | Err _ => []
              end
  end.

Definition significant (l : list Frame) : list Frame := filter (fun f => f_cmd f <> CMD_WASTE) l.

Lemma frames_of_encoded (fs : list Frame) (fuel : nat) :
  Forall frame_ok fs -> (length fs <= fuel)%nat -> frames_of fuel (concat (map encoded fs)) = fs.
Proof.
  intros H. revert fuel. induction H as [|f fs Hf _ IH]; intros fuel Hl.
  - by destruct fuel.
  - destruct fuel as [|fuel]; [simpl in Hl; lia|]. cbn [map concat frames_of].
    rewrite read_frame_encoded by done. rewrite IH; [done|simpl in Hl; lia].
Qed.

Lemma encoded_length (f : Frame) : (7 <= length (encoded f))%nat.
Proof. unfold encoded. rewrite !length_app, !length_be_bytes. simpl. lia. Qed.

Lemma concat_encoded_length (fs : list Frame) : (length fs <= length (concat (map encoded fs)))%nat.
Proof.
  induction fs as [|f fs IH]; [done|]. cbn [map concat length]. rewrite length_app.
  pose proof (encoded_length f). lia.
Qed.

Definition waste_ok (f : Frame) : Prop := frame_ok f /\ f_cmd f = CMD_WASTE.

Lemma encode_waste_ok (n : Z) (w : bytes) :
  0 <= n -> encode_waste_frame n = Some w -> exists f, waste_ok f /\ w = encoded f.
Proof.
  intros Hn. unfold encode_waste_frame. destruct (65535 <? n) eqn:E; [done|]. bools.
  assert (Hf : frame_ok (mkFrame CMD_WASTE 0 (replicate (Z.to_nat n) 0))).
  { unfold frame_ok, byte_ok. cbn [f_cmd f_sid f_data]. rewrite length_replicate. unfold CMD_WASTE. lia. }
  rewrite encode_frame_ok by done. intros [= <-].
  by exists (mkFrame CMD_WASTE 0 (replicate (Z.to_nat n) 0)).
Qed.

(** Padding adds waste frames after the payload and nothing else. *)
Lemma padding_loop_spec (sizes : list Z) (payload rest : bytes) (out : list bytes) :
  padding_loop sizes payload = Some (out, rest) ->
  exists ws, Forall waste_ok ws /\ concat out ++ rest = payload ++ concat (map encoded ws).
Proof.
  revert payload rest out. induction sizes as [|size sizes IH]; intros payload rest out H; cbn [padding_loop] in H.
  { simplify_eq. exists []. split; [constructor|]. by rewrite app_nil_r. }
  destruct (size =? CHECK_MARK).
  { destruct payload as [|b t]; [simplify_eq; by exists []|]. by apply IH. }
  assert (Hsz : 0 <= as_usize size) by (unfold as_usize; apply Z.mod_pos_bound; lia).
  destruct (as_usize size <? Z.of_nat (length payload)) eqn:E; bools.
  - apply bind_Some in H as ([out' rest'] & H & Hr). simplify_eq.
    apply IH in H as (ws & Hws & H). exists ws. split; [done|].
    cbn [concat]. rewrite <- app_assoc, H, app_assoc. by rewrite take_drop.
  - destruct payload as [|b t].
    + apply bind_Some in H as (w & Hw & H). apply bind_Some in H as ([out' rest'] & H & Hr). simplify_eq.
      apply encode_waste_ok in Hw as (f & Hf & ->); [|done].
      apply IH in H as (ws & Hws & H). exists (f :: ws). split; [by constructor|].
      cbn [concat map]. by rewrite <- app_assoc, H.
    + apply bind_Some in H as (w & Hw & H). apply bind_Some in H as ([out' rest'] & H & Hr). simplify_eq.
      apply IH in H as (ws & Hws & H). cbn [concat]. rewrite <- !app_assoc, H. cbn [app].
      destruct (0 <? _) eqn:E0 in Hw.
      * apply encode_waste_ok in Hw as (f & Hf & ->); [|lia].
        exists (f :: ws). split; [by constructor|]. cbn [map concat]. done.
      * simplify_eq. by exists ws.
Qed.

Lemma apply_padding_spec (rnd : nat -> Z) (pkt : Z) (p : PaddingScheme) (payload : bytes) (chunks : list bytes) :
  apply_padding rnd pkt p payload = Some chunks ->
  exists ws, Forall waste_ok ws /\ concat chunks = payload ++ concat (map encoded ws).
Proof.
  unfold apply_padding. destruct (generate_record_payload_sizes rnd p pkt) as [|z l].
  { intros [= <-]. exists []. by split. }
  intros H. apply bind_Some in H as ([out rest] & H & Hc). cbv zeta in Hc.
  apply padding_loop_spec in H as (ws & Hws & H). exists ws. split; [done|]. rewrite <- H.
  injection Hc as <-. destruct rest as [|b t].
  - rewrite app_nil_r. by destruct out.
  - assert (concat (out ++ [b :: t]) = concat out ++ b :: t) as Ho
      by (rewrite concat_app; cbn [concat]; by rewrite app_nil_r).
    destruct (out ++ [b :: t]) eqn:Eo; [by destruct out|done].
Qed.

Lemma significant_waste (ws : list Frame) : Forall waste_ok ws -> significant ws = [].
Proof.
  unfold significant. induction 1 as [|w ws [_ Hw] _ IH]; [done|].
  rewrite filter_cons_False; [done|]. auto.
Qed.

(** The wire of the writer task, as frames. *)
Lemma writer_task_frames (pkt : Z) (queue : list (list Frame * PaddingScheme * (nat -> Z))) (wire : bytes) :
  Forall (fun q => Forall frame_ok q.1.1) queue ->
  writer_task pkt (map (fun q => (concat (map encoded q.1.1), q.1.2, q.2)) queue) = Some wire ->
  exists fs, Forall frame_ok fs /\ wire = concat (map encoded fs) /\
    significant fs = significant (concat (map (fun q => q.1.1) queue)).
Proof.
  intros H. revert pkt wire. induction H as [|[[g p] rnd] queue Hg _ IH]; intros pkt wire Hw.
  { cbn in Hw. simplify_eq. by exists []. }
  cbn [map writer_task fst snd] in Hw.
  apply bind_Some in Hw as (chunks & Hc & Hw). apply bind_Some in Hw as (rest & Hr & Hw). simplify_eq.
  apply apply_padding_spec in Hc as (ws & Hws & Hc). apply IH in Hr as (fs & Hfs & -> & Hsig).
  exists (g ++ ws ++ fs). split; [|split].
  - apply Forall_app. split; [done|]. apply Forall_app. split; [|done].
    eapply Forall_impl; [exact Hws|]. by intros f [? _].
  - rewrite Hc, !map_app, !concat_app. by rewrite app_assoc.
  - cbn [map concat fst]. unfold significant in *. rewrite !filter_app. f_equal.
    pose proof (significant_waste ws Hws) as Hn. unfold significant in Hn. by rewrite Hn.
Qed.

(** ** Schemes *)

Definition part_ok (p : PaddingPart) : Prop :=
  match p with PCheck => True | PRange min max => 1 <= min <= max end.
Definition scheme_ok (p : PaddingScheme) : Prop :=
  map_Forall (fun _ l => Forall part_ok l) (ps_scheme p).

(** All ranges fit a frame. *)
Definition part_small (p : PaddingPart) : Prop :=
  match p with PCheck => True | PRange min max => 1 <= min <= max /\ max <= 65535 end.
Definition scheme_small (p : PaddingScheme) : Prop :=
  map_Forall (fun _ l => Forall part_small l) (ps_scheme p).

#[export] Instance part_small_dec (p : PaddingPart) : Decision (part_small p).
Proof. destruct p; cbn; apply _. Defined.
#[export] Instance scheme_small_dec (p : PaddingScheme) : Decision (scheme_small p).
Proof. unfold scheme_small. apply _. Defined.

Lemma parse_part_ok (r : bytes) (p : PaddingPart) : parse_part r = Some p -> part_ok p.
Proof.
  unfold parse_part. case_bool_decide; [by intros [= <-]|].
  intros Hp. apply bind_Some in Hp as ([a b] & _ & Hp).
  apply bind_Some in Hp as (x & Hx & Hp). apply bind_Some in Hp as (y & Hy & Hp).
  apply parse_uint_nonneg in Hx, Hy.
  destruct ((x =? 0) || (y =? 0)) eqn:E; [done|]. bools.
  destruct (y <? x) eqn:E2; bools; simplify_eq; simpl; lia.
Qed.

Lemma parse_line_ok (acc : option Z * gmap Z (list PaddingPart)) (line : bytes) :
  map_Forall (fun _ l => Forall part_ok l) acc.2 ->
  map_Forall (fun _ l => Forall part_ok l) (parse_line acc line).2.
Proof.
  intros H. unfold parse_line. destruct acc as [stop scheme].
  destruct (split_once 61 line) as [[key value]|]; [|done].
  case_bool_decide; [done|]. destruct (parse_uint 32 key) as [pkt|]; [|done].
  cbn [snd]. apply map_Forall_insert_2; [|done].
  apply Forall_forall. intros p Hp. apply list_elem_of_omap in Hp as (r & _ & Hr).
  by eapply parse_part_ok.
Qed.

Lemma scheme_parse_ok (raw : bytes) (p : PaddingScheme) : scheme_parse raw = Some p -> scheme_ok p.
Proof.
  unfold scheme_parse. destruct (negb _); [done|].
  assert (G : forall ls acc, map_Forall (fun _ l => Forall part_ok l) acc.2 ->
    map_Forall (fun _ l => Forall part_ok l) (fold_left parse_line ls acc).2).
  { induction ls as [|l ls IH]; intros acc H; [done|]. cbn [fold_left]. apply IH. by apply parse_line_ok. }
  specialize (G (lines raw) (None, ∅) (map_Forall_empty _)).
  destruct (fold_left parse_line (lines raw) (None, ∅)) as [[stop|] scheme]; [|done].
  intros H. cbn in H. by simplify_eq.
Qed.

Lemma sizes_small (rnd : nat -> Z) (p : PaddingScheme) (pkt : Z) :
  scheme_small p ->
  Forall (fun z => z = CHECK_MARK \/ 1 <= z <= 65535) (generate_record_payload_sizes rnd p pkt).
Proof.
  intros Hp. unfold generate_record_payload_sizes. destruct (_ <=? _); [constructor|].
  assert (Hl : Forall part_small (default [] (ps_scheme p !! pkt))).
  { destruct (ps_scheme p !! pkt) as [l|] eqn:E; [by apply (Hp pkt)|constructor]. }
  revert Hl. generalize (default [] (ps_scheme p !! pkt)). intros l Hl.
  apply Forall_forall. intros z Hz. apply list_elem_of_lookup in Hz as (i & Hi).
  rewrite list_lookup_imap in Hi. apply fmap_Some in Hi as (q & Hq & ->).
  rewrite Forall_forall in Hl. specialize (Hl q (list_elem_of_lookup_2 _ _ _ Hq)).
  assert (Hid : forall v, 1 <= v <= 65535 -> as_i32 v = v).
  { intros v Hv. unfold as_i32. rewrite Z.mod_small by lia.
    by replace (v <? 2 ^ 31) with true by (symmetry; apply Z.ltb_lt; lia). }
  destruct q as [|min max]; [by left|right]. destruct Hl as [Hl1 Hl2].
  destruct (min =? max) eqn:E; bools; [rewrite Hid; lia|].
  assert (min <= random_range (rnd i) min max < max)
    by (unfold random_range; pose proof (Z.mod_pos_bound (rnd i) (max - min) ltac:(lia)); lia).
  rewrite Hid; lia.
Qed.

Lemma encode_waste_total (n : Z) : 0 <= n <= 65535 -> exists w, encode_waste_frame n = Some w.
Proof.
  intros Hn. unfold encode_waste_frame.
  replace (65535 <? n) with false by (symmetry; apply Z.ltb_ge; lia).
  eexists. apply encode_frame_ok. unfold frame_ok, byte_ok. cbn [f_cmd f_sid f_data].
  rewrite length_replicate. unfold CMD_WASTE. lia.
Qed.

Lemma padding_loop_total (sizes : list Z) (payload : bytes) :
  Forall (fun z => z = CHECK_MARK \/ 1 <= z <= 65535) sizes -> exists r, padding_loop sizes payload = Some r.
Proof.
  intros H. revert payload. induction H as [|z sizes Hz _ IH]; intros payload; cbn [padding_loop]; [by eexists|].
  destruct (z =? CHECK_MARK) eqn:Ec; [destruct payload; [by eexists|apply IH]|]. bools.
  destruct Hz as [Hz|Hz]; [done|].
  assert (as_usize z = z) as -> by (unfold as_usize; apply Z.mod_small; lia).
  destruct (_ <? _).
  - destruct (IH (drop (Z.to_nat z) payload)) as [[o r] ->]. by eexists.
  - destruct (IH []) as [[o r] Hr]. rewrite Hr.
    destruct payload as [|b t].
    + destruct (encode_waste_total z) as [w ->]; [lia|]. by eexists.
    + destruct (0 <? _) eqn:E0; [|by eexists]. bools.
      match goal with |- context [encode_waste_frame ?n] =>
        destruct (encode_waste_total n) as [w ->]; [unfold HEADER_LEN in *; lia|] end. by eexists.
Qed.

End AnyTlsLemmas.
Export AnyTlsLemmas.

(** ** Properties *)

(** AnyTLS padding is transparent: whatever padding schemes are in force
    and whatever is drawn, if the writer task does not fail, the frames a
    server reads off the wire, [WASTE] frames dropped, are exactly the frames
    that were queued, in order; nothing is left unread. *)
Theorem anytls_wire_transparent (queue : list (list Frame * PaddingScheme * (nat -> Z))) (wire : bytes) :
  Forall (fun q => Forall frame_ok q.1.1) queue ->
  Forall (fun q => significant q.1.1 = q.1.1) queue ->
  writer_task 1 (map (fun q => (concat (map encoded q.1.1), q.1.2, q.2)) queue) = Some wire ->
  significant (frames_of (length wire) wire) = concat (map (fun q => q.1.1) queue).
Proof.
  intros H Hsig Hw. destruct (writer_task_frames 1 queue wire H Hw) as (fs & Hfs & -> & Hf).
  rewrite frames_of_encoded; [|done|apply concat_encoded_length]. rewrite Hf. clear -Hsig.
  induction Hsig as [|q queue Hq _ IH]; [done|]. cbn [map concat].
  unfold significant in *. by rewrite filter_app, Hq, IH.
Qed.

Lemma anytls_wire_transparent_witness :
  let p := mkScheme [] 8 {[ 1 := [PRange 5 5; PCheck; PRange 12 12; PRange 9 9] ]} in
  exists wire, writer_task 1 [(encoded (mkFrame CMD_PSH 1 [7; 8]), p, fun _ => 0)] = Some wire /\
    significant (frames_of (length wire) wire) = [mkFrame CMD_PSH 1 [7; 8]].
Proof.
  cbv zeta. eexists. split; [reflexivity|].
  refine (anytls_wire_transparent [([mkFrame CMD_PSH 1 [7; 8]],
    mkScheme [] 8 {[ 1 := [PRange 5 5; PCheck; PRange 12 12; PRange 9 9] ]}, fun _ => 0)] _ _ _ _).
  - constructor; [|constructor]. constructor; [|constructor].
    unfold frame_ok, byte_ok, CMD_PSH. cbn. lia.
  - constructor; [reflexivity|constructor].
  - reflexivity.
Defined.

(** padding schemes: every scheme that parses has well-formed ranges
    (the draws are never from an empty range), the built-in scheme parses, and
    with any scheme whose ranges stay within a frame the writer task never
    fails, for any queue and any draws. *)
Theorem anytls_schemes_safe :
  (forall raw p, scheme_parse raw = Some p -> scheme_ok p) /\
  (exists p, scheme_parse DEFAULT_PADDING_SCHEME = Some p /\ scheme_small p /\ ps_stop p = 8) /\
  (forall pkt (queue : list (bytes * PaddingScheme * (nat -> Z))),
     Forall (fun q => scheme_small q.1.2) queue -> exists wire, writer_task pkt queue = Some wire).
Proof.
  split; [exact scheme_parse_ok|]. split.
  - eexists. split; [reflexivity|]. split; [|reflexivity].
    apply (bool_decide_unpack _). vm_compute. exact I.
  - intros pkt queue H. revert pkt. induction H as [|[[payload p] rnd] queue Hp _ IH]; intros pkt; [by eexists|].
    cbn [writer_task fst snd] in *. unfold apply_padding.
    destruct (IH (Z.min (2 ^ 32 - 1) (pkt + 1))) as [rest Hr].
    pose proof (sizes_small rnd p pkt Hp) as Hs.
    destruct (generate_record_payload_sizes rnd p pkt) as [|z l]; [cbn; rewrite Hr; by eexists|].
    destruct (padding_loop_total (z :: l) payload Hs) as [[o r] Hl].
    rewrite Hl. cbn [mbind option_bind]. rewrite Hr. by eexists.
Qed.

(** a server can make an AnyTLS client's writer task panic: a scheme with
    a size above 65535 is accepted by the parser and installed by the reader
    task, and padding the next packet then fails the frame-length assertion. *)
Theorem anytls_oversized_scheme_panics :
  let raw := lit "stop=8" ++ [10] ++ lit "2=70000-70000" in
  let upd := mkFrame CMD_UPDATE_PADDING_SCHEME 0 raw in
  let s := reader_task 9 true 1 (mkReader [] (mkScheme [] 8 ∅) []) (encoded upd) in
  ps_raw (rt_padding s) = raw /\
  forall rnd, apply_padding rnd 2 (rt_padding s) [1; 2; 3] = None.
Proof. split; [reflexivity|]. intros rnd. reflexivity. Qed.

(** the client's reader task delivers exactly the payloads of the [PSH]
    frames of its stream, in order, and answers every heartbeat, as long as
    neither [FIN] for its stream nor [ALERT] arrives; an incomplete frame at
    the end changes nothing. *)
Theorem anytls_reader_delivers (sid : Z) (s : ReaderTask) (fs : list Frame) (rest : bytes) (fuel : nat) :
  Forall frame_ok fs ->
  Forall (fun f => ~ (f_cmd f = CMD_FIN /\ f_sid f = sid) /\ f_cmd f <> CMD_ALERT) fs ->
  (length rest < 7)%nat -> (length fs < fuel)%nat ->
  let s' := reader_task fuel true sid s (concat (map encoded fs) ++ rest) in
  rt_delivered s' = rt_delivered s ++
    map f_data (filter (fun f => f_cmd f = CMD_PSH /\ f_sid f = sid) fs) /\
  rt_replies s' = rt_replies s ++
    map (fun f => encoded (mkFrame CMD_HEART_RESPONSE (f_sid f) []))
      (filter (fun f => f_cmd f = CMD_HEART_REQUEST) fs).
Proof.
  intros H. revert s fuel. induction H as [|f fs Hf _ IH]; intros s fuel Hn Hrest Hfuel; cbv zeta.
  - destruct fuel as [|fuel]; [lia|]. cbn [map concat app reader_task filter].
    unfold read_frame. rewrite bind_reader, read_exact_short by done. by rewrite !app_nil_r.
  - destruct fuel as [|fuel]; [simpl in Hfuel; lia|].
    apply Forall_cons in Hn as [[Hn1 Hn2] Hn].
    cbn [map concat reader_task]. rewrite <- app_assoc, read_frame_encoded by done.
    assert (Hh : frame_ok (mkFrame CMD_HEART_RESPONSE (f_sid f) []))
      by (destruct Hf as (? & ? & ?); unfold frame_ok, byte_ok, CMD_HEART_RESPONSE; cbn; lia).
    specialize (fun s => IH s fuel Hn Hrest ltac:(simpl in Hfuel; lia)). cbv zeta in IH.
    unfold handle_frame.
    destruct ((f_cmd f =? CMD_PSH) && (f_sid f =? sid)) eqn:E1; bools.
    { rewrite filter_cons_True by done. rewrite (filter_cons_False _ f) by (rewrite H; done).
      destruct (IH (mkReader (rt_delivered s ++ [f_data f]) (rt_padding s) (rt_replies s))) as [-> ->].
      cbn [rt_delivered rt_replies map]. by rewrite <- app_assoc. }
    rewrite (filter_cons_False _ f) by (intros [Ha Hb]; rewrite Ha, Hb, !Z.eqb_refl in E1; done).
    destruct ((f_cmd f =? CMD_FIN) && (f_sid f =? sid)) eqn:E2; bools; [by exfalso; apply Hn1|].
    destruct (f_cmd f =? CMD_ALERT) eqn:E3; bools; [done|].
    destruct (f_cmd f =? CMD_UPDATE_PADDING_SCHEME) eqn:E4; bools.
    { rewrite (filter_cons_False _ f) by (rewrite E4; done).
      destruct (scheme_parse (f_data f)) as [p|]; [|apply IH].
      apply (IH (mkReader (rt_delivered s) p (rt_replies s))). }
    destruct (f_cmd f =? CMD_HEART_REQUEST) eqn:E5; bools.
    + rewrite (filter_cons_True _ f) by done. rewrite encode_frame_ok by done.
      destruct (IH (mkReader (rt_delivered s) (rt_padding s)
        (rt_replies s ++ [encoded (mkFrame CMD_HEART_RESPONSE (f_sid f) [])]))) as [-> ->].
      cbn [rt_delivered rt_replies map]. by rewrite <- app_assoc.
    + rewrite (filter_cons_False _ f) by done. apply IH.
Qed.

Lemma anytls_reader_delivers_witness :
  rt_delivered (reader_task 3 true 1 (mkReader [] (mkScheme [] 8 ∅) [])
    (encoded (mkFrame CMD_PSH 1 [5]) ++ encoded (mkFrame CMD_HEART_REQUEST 0 []))) = [[5]].
Proof.
  refine (proj1 (anytls_reader_delivers 1 (mkReader [] (mkScheme [] 8 ∅) [])
    [mkFrame CMD_PSH 1 [5]; mkFrame CMD_HEART_REQUEST 0 []] [] 3 _ _ _ _)).
  - repeat constructor; discriminate.
  - repeat constructor; try (intros [? ?]); discriminate.
  - apply Nat.ltb_lt. reflexivity.
  - apply Nat.ltb_lt. reflexivity.
Defined.

(** an empty [PSH] frame makes the stream report end of file although
    more data is queued behind it. *)
Theorem anytls_empty_push_reads_as_eof :
  let s := mkStream 1 [] true [[]; [1; 2]] false [] false in
  let '(s1, r1) := stream_poll_read 10 s in
  r1 = Ready (Ok []) /\ as_eof s1 = false /\ (stream_poll_read 10 s1).2 = Ready (Ok [1; 2]).
Proof. vm_compute. done. Qed.
