(* ===== verification/AnyTlsNet.v ===== *)
(** * The AnyTLS net: [protocol/anytls/src/client.rs]

    A connection is a stream and two tasks around one TLS connection: the
    writer pads what is queued and writes it, the reader takes frames apart.
    The padding scheme is one for all connections of the net, and any of them
    may replace it.  A run is a sequence of steps of the streams' owners, of
    the tasks and of the network, in any interleaving. *)

From S2P Require Import Prelude Io Address AnyTls.

Module AnyTlsNet.

Section Net.
Context (md5_hex sha256 : bytes -> bytes) (password : bytes).

(** Until the first payload is queued the connection belongs to
    [tcp_connect]; dropped are [write_tx] and [read_rx]. *)
Inductive Stage : Type := Opening (addr : Address) | Opened | Dropped.

(** The stream holds both queues.  [cn_chunks] is what the writer has still to
    write of the payload it took; [cn_wire] what the TLS connection was given,
    [cn_shut] whether it was shut down; [cn_input] what has come and the
    reader has not taken, [cn_end] that nothing more comes. *)
Record Conn : Type := mkConn {
  cn_stage : Stage;
  cn_stream : AnyTlsStream;
  cn_pkt : Z;
  cn_chunks : list bytes;
  cn_wire : bytes;
  cn_shut : bool;
  cn_input : bytes;
  cn_end : bool }.

Definition with_stage (c : Conn) (g : Stage) : Conn :=
  mkConn g (cn_stream c) (cn_pkt c) (cn_chunks c) (cn_wire c) (cn_shut c) (cn_input c) (cn_end c).
Definition with_stream (c : Conn) (s : AnyTlsStream) : Conn :=
  mkConn (cn_stage c) s (cn_pkt c) (cn_chunks c) (cn_wire c) (cn_shut c) (cn_input c) (cn_end c).
Definition with_input (c : Conn) (i : bytes) : Conn :=
  mkConn (cn_stage c) (cn_stream c) (cn_pkt c) (cn_chunks c) (cn_wire c) (cn_shut c) i (cn_end c).

Definition with_queue (s : AnyTlsStream) (q : list bytes) (open : bool) : AnyTlsStream :=
  mkStream (as_sid s) q open (as_read s) (as_eof s) (as_buf s) (as_closed s).
Definition with_reads (s : AnyTlsStream) (q : list bytes) (eof : bool) : AnyTlsStream :=
  mkStream (as_sid s) (as_write s) (as_open s) q eof (as_buf s) (as_closed s).

(** What is seen of a connection from outside. *)
Inductive Act : Type :=
| AOpened (padding : PaddingScheme) (addr : Address)
| AWrote (d : bytes)
| AFinished
| AReply (sid : Z)
| ARead (d : bytes)
| AGot (d : bytes).

(** A TLS connection was made; [None] is a panic. *)
(* src/protocol/anytls/src/client.rs:142-150 AnyTlsNet::tcp_connect (start) *)
Definition conn_start (rnd : nat -> Z) (padding : PaddingScheme) (addr : Address) : option Conn :=
  auth ← auth_prefix sha256 rnd password padding;
  Some (mkConn (Opening addr) (mkStream 1 [] true [] false [] false) 1 [] auth false [] false).

(** The rest of [tcp_connect], once the tasks are spawned. *)
(* src/protocol/anytls/src/client.rs:208-235 AnyTlsNet::tcp_connect (end) *)
Definition conn_init (padding : PaddingScheme) (c : Conn) : Conn * list Act :=
  match cn_stage c with
  | Opening addr =>
    match initial_payload md5_hex 1 padding addr with
    | Some (Ok p) =>
      let s := cn_stream c in
      if as_open s then (with_stage (with_stream c (with_queue s (as_write s ++ [p]) true)) Opened, [AOpened padding addr])
      else (with_stage c Dropped, [])
    | _ => (with_stage c Dropped, [])
    end
  | _ => (c, [])
  end.

(** What the stream's owner calls; a call on a stream that was not handed out
    or is gone does nothing. *)
Inductive Call : Type := CWrite (buf : bytes) | CRead (cap : nat) | CShutdown | CDrop.

Definition conn_call (c : Conn) (k : Call) : Conn * list Act :=
  match cn_stage c with
  | Opened =>
    let s := cn_stream c in
    match k with
    | CWrite buf =>
      match stream_poll_write s buf with
      | Some (s', Ready (Ok n)) => (with_stream c s', [AWrote (take n buf)])
      | _ => (c, [])
      end
    | CRead cap =>
      let '(s', r) := stream_poll_read cap s in
      (with_stream c s', match r with Ready (Ok d) => [ARead d] | _ => [] end)
    | CShutdown =>
      match stream_poll_shutdown s with
      | Some (s', _) => (with_stream c s', if negb (as_closed s) && as_open s then [AFinished] else [])
      | None => (c, [])
      end
    | CDrop => (with_stage c Dropped, [])
    end
  | Opening _ => match k with CDrop => (with_stage c Dropped, []) | _ => (c, []) end
  | Dropped => (c, [])
  end.

(** The writer ends: the queue goes with it. *)
Definition writer_end (c : Conn) (shut : bool) : Conn :=
  mkConn (cn_stage c) (with_queue (cn_stream c) [] false) (cn_pkt c) [] (cn_wire c) shut (cn_input c) (cn_end c).

(** Both senders of the queue are gone. *)
Definition senders_gone (c : Conn) : bool :=
  match cn_stage c with Dropped => as_eof (cn_stream c) | _ => false end.

(** The writer takes the next payload, once it has written the last one. *)
(* src/protocol/anytls/src/client.rs:153-157 AnyTlsNet::tcp_connect (take) *)
Definition writer_take (rnd : nat -> Z) (padding : PaddingScheme) (c : Conn) : Conn :=
  let s := cn_stream c in
  match as_open s, cn_chunks c with
  | true, [] =>
    match as_write s with
    | payload :: q =>
      match apply_padding rnd (cn_pkt c) padding payload with
      | None => writer_end c false
      | Some chunks =>
        mkConn (cn_stage c) (with_queue s q true) (Z.min (2 ^ 32 - 1) (cn_pkt c + 1)) chunks (cn_wire c) (cn_shut c) (cn_input c) (cn_end c)
      end
    | [] => if senders_gone c then writer_end c true else c
    end
  | _, _ => c
  end.

(** One chunk; when it fails [k] bytes of it are out. *)
(* src/protocol/anytls/src/client.rs:158-163 AnyTlsNet::tcp_connect (write) *)
Definition writer_chunk (r : res ()) (k : nat) (c : Conn) : Conn :=
  match as_open (cn_stream c), cn_chunks c with
  | true, chunk :: chunks =>
    let out w l := mkConn (cn_stage c) (cn_stream c) (cn_pkt c) l w (cn_shut c) (cn_input c) (cn_end c) in
    match chunk, r with
    | [], _ | _, Ok _ => out (cn_wire c ++ chunk) chunks
    | _, Err _ => writer_end (out (cn_wire c ++ take k chunk) []) true
    end
  | _, _ => c
  end.

(** The answer to a heartbeat, if there was one. *)
Definition replies_of (f : Frame) (l : list bytes) : list Act := match l with [] => [] | _ => [AReply (f_sid f)] end.

(** The reader takes the next frame, or sees that there is none. *)
(* src/protocol/anytls/src/client.rs:168-206 AnyTlsNet::tcp_connect (read) *)
Definition reader_step (padding : PaddingScheme) (c : Conn) : Conn * PaddingScheme * list Act :=
  let s := cn_stream c in
  if as_eof s then (c, padding, []) else
  match read_frame (cn_input c) with
  | Err _ => (if cn_end c then with_stream c (with_reads s (as_read s) true) else c, padding, [])
  | Ok (f, rest) =>
    let open := match cn_stage c with Dropped => false | _ => true end in
    let '(t, more) := handle_frame open 1 (mkReader [] padding []) f in
    let s' := with_reads s (as_read s ++ rt_delivered t) (negb more) in
    (with_input (with_stream c (if as_open s then with_queue s' (as_write s ++ rt_replies t) true else s')) rest, rt_padding t, if as_open s then replies_of f (rt_replies t) else [])
  end.

(** ** The net *)

Inductive Ev : Type :=
| EInit
| ECall (k : Call)
| ETake (rnd : nat -> Z)
| EChunk (r : res ()) (k : nat)
| EData (d : bytes)
| EEnd
| EFrame.

Definition conn_step (padding : PaddingScheme) (c : Conn) (e : Ev) : Conn * PaddingScheme * list Act :=
  match e with
  | EInit => let '(c, a) := conn_init padding c in (c, padding, a)
  | ECall k => let '(c, a) := conn_call c k in (c, padding, a)
  | ETake rnd => (writer_take rnd padding c, padding, [])
  | EChunk r k => (writer_chunk r k c, padding, [])
  | EData d => if cn_end c then (c, padding, []) else (with_input c (cn_input c ++ d), padding, [AGot d])
  | EEnd => (mkConn (cn_stage c) (cn_stream c) (cn_pkt c) (cn_chunks c) (cn_wire c) (cn_shut c) (cn_input c) true, padding, [])
  | EFrame => reader_step padding c
  end.

(* src/protocol/anytls/src/client.rs:42-49 AnyTlsNet *)
Record AnyTlsNet : Type := mkNet { an_padding : PaddingScheme; an_conns : list Conn }.

Inductive NetEv : Type := NConnect (addr : Address) (rnd : nat -> Z) | NConn (i : nat) (e : Ev).

Definition net_step (n : AnyTlsNet) (e : NetEv) : AnyTlsNet * list (nat * Act) :=
  match e with
  | NConnect addr rnd =>
    match conn_start rnd (an_padding n) addr with
    | Some c => (mkNet (an_padding n) (an_conns n ++ [c]), [])
    | None => (n, [])
    end
  | NConn i e =>
    match an_conns n !! i with
    | Some c =>
      let '(c, p, a) := conn_step (an_padding n) c e in
      (mkNet p (<[i := c]> (an_conns n)), map (pair i) a)
    | None => (n, [])
    end
  end.

Fixpoint net_run (n : AnyTlsNet) (l : list NetEv) : AnyTlsNet * list (nat * Act) :=
  match l with
  | [] => (n, [])
  | e :: l => let '(n, a) := net_step n e in let '(n, b) := net_run n l in (n, a ++ b)
  end.

(** ** What is sent *)

Definition addr_frame (addr : Address) : bytes := match encode_socks_addr addr with Ok b => b | Err _ => [] end.

(** The frames that stand for what was done. *)
Definition act_frames (a : Act) : list Frame :=
  match a with
  | AOpened p addr => [mkFrame CMD_SETTINGS 0 (encode_settings md5_hex p); mkFrame CMD_SYN 1 []; mkFrame CMD_PSH 1 (addr_frame addr)]
  | AWrote [] => []
  | AWrote d => [mkFrame CMD_PSH 1 d]
  | AFinished => [mkFrame CMD_FIN 1 []]
  | AReply sid => [mkFrame CMD_HEART_RESPONSE sid []]
  | ARead _ | AGot _ => []
  end.
Definition log (a : list Act) : list Frame := concat (map act_frames a).

Definition enc (l : list Frame) : bytes := concat (map encoded l).

Lemma enc_app l k : enc (l ++ k) = enc l ++ enc k.
Proof. unfold enc. by rewrite map_app, concat_app. Qed.

Lemma log_app a b : log (a ++ b) = log a ++ log b.
Proof. unfold log. by rewrite map_app, concat_app. Qed.

(** Frames that can be written and are not padding. *)
Definition real (f : Frame) : Prop := frame_ok f /\ f_cmd f <> CMD_WASTE.

Lemma significant_real l : Forall real l -> significant l = l.
Proof. unfold significant. induction 1 as [|f l [_ Hf] _ IH]; [done|]. rewrite filter_cons_True by done. by rewrite IH. Qed.

Lemma real_ok l : Forall real l -> Forall frame_ok l.
Proof. intros H. eapply Forall_impl; [exact H|]. by intros f []. Qed.

Definition sends_ok (c : Conn) (a : list Act) : Prop :=
  exists rnd p auth fs rest tail,
    auth_prefix sha256 rnd password p = Some auth /\
    cn_wire c ++ tail = auth ++ enc fs /\ Forall frame_ok fs /\ significant fs ++ rest = log a /\
    (as_open (cn_stream c) = true -> tail = concat (cn_chunks c) /\
       exists qs, as_write (cn_stream c) = map enc qs /\ concat qs = rest /\ Forall (Forall real) qs).

(** What is queued is sent after what was queued before. *)
Lemma sends_queue c a c' b l : sends_ok c a -> as_open (cn_stream c) = true ->
  cn_wire c' = cn_wire c -> cn_chunks c' = cn_chunks c -> as_write (cn_stream c') = as_write (cn_stream c) ++ [enc l] ->
  log b = l -> Forall real l -> sends_ok c' (a ++ b).
Proof.
  intros (rnd & p & auth & fs & rest & tail & Ha & Hw & Hok & Hs & Hq) Ho Ew Ec Eq <- Hl.
  destruct (Hq Ho) as (-> & qs & Hqs & <- & Hqok).
  exists rnd, p, auth, fs, (concat (qs ++ [log b])), (concat (cn_chunks c)). rewrite Ew, Ec, log_app, <- Hs.
  split; [done|]. split; [done|]. split; [done|]. split; [by rewrite concat_app, <- app_assoc; cbn; rewrite app_nil_r|].
  intros _. split; [done|]. exists (qs ++ [log b]). rewrite Eq, Hqs, map_app. split; [done|]. split; [done|]. apply Forall_app. by repeat constructor.
Qed.

(** Nothing is queued. *)
Lemma sends_same c a c' b : sends_ok c a -> cn_wire c' = cn_wire c -> cn_chunks c' = cn_chunks c ->
  as_write (cn_stream c') = as_write (cn_stream c) -> as_open (cn_stream c') = as_open (cn_stream c) -> log b = [] -> sends_ok c' (a ++ b).
Proof.
  intros (rnd & p & auth & fs & rest & tail & H) Ew Ec Eq Eo Eb. exists rnd, p, auth, fs, rest, tail.
  by rewrite Ew, Ec, Eq, Eo, log_app, Eb, app_nil_r.
Qed.

Lemma sends_end c a w shut : sends_ok c a -> as_open (cn_stream c) = true ->
  (exists k, w ++ k = cn_wire c ++ concat (cn_chunks c)) -> forall c', cn_wire c' = w ->
  sends_ok (writer_end c' shut) a.
Proof.
  intros (rnd & p & auth & fs & rest & tail & Ha & Hw & Hok & Hs & Hq) Ho [k Hk] c' Ec'. destruct (Hq Ho) as [-> _].
  exists rnd, p, auth, fs, rest, k. cbn. rewrite Ec'. repeat split; [done|by rewrite Hk|done..].
Qed.

(** A list of frames that are known to be short enough. *)
Ltac reals := repeat first [apply Forall_nil_2 | apply Forall_cons_2]; (split; [first [done | by vm_compute] | by vm_compute]).

Lemma encode_frame_inv f w : encode_frame f = Some w -> byte_ok (f_cmd f) -> 0 <= f_sid f < 2 ^ 32 -> w = encoded f /\ frame_ok f.
Proof.
  unfold encode_frame. destruct (_ <? _)%nat eqn:E; [done|]. intros [= <-] Hc Hs. split; [done|]. apply Nat.ltb_ge in E. split; [done|]. split; [done|]. lia.
Qed.

Lemma initial_frames p addr w : initial_payload md5_hex 1 p addr = Some (Ok w) ->
  w = enc (act_frames (AOpened p addr)) /\ Forall real (act_frames (AOpened p addr)).
Proof.
  unfold initial_payload. intros H. apply bind_Some in H as (w1 & E1 & H). apply bind_Some in H as (w2 & E2 & H).
  cbn [act_frames]. unfold addr_frame. destruct (encode_socks_addr addr) as [a|e]; [|done]. apply bind_Some in H as (w3 & E3 & H). injection H as <-.
  apply encode_frame_inv in E1 as [-> F1]; [|by vm_compute..]. apply encode_frame_inv in E2 as [-> F2]; [|by vm_compute..].
  apply encode_frame_inv in E3 as [-> F3]; [|by vm_compute..].
  split; [unfold enc; cbn [map concat]; by rewrite app_nil_r|]. reals.
Qed.

Lemma auth_of rnd p addr c : conn_start rnd p addr = Some c -> sends_ok c [] /\ cn_input c = [] /\
  cn_stage c = Opening addr /\ cn_stream c = mkStream 1 [] true [] false [] false.
Proof.
  unfold conn_start. intros H. apply bind_Some in H as (auth & Ha & [= <-]). split; [|done].
  exists rnd, p, auth, [], [], []. cbn. repeat split; [done| by constructor|]. exists []. done.
Qed.

Definition sid_ok (c : Conn) : Prop := as_sid (cn_stream c) = 1.

Lemma call_sends c k a : sid_ok c -> sends_ok c a -> let '(c', b) := conn_call c k in sends_ok c' (a ++ b) /\ sid_ok c'.
Proof.
  intros Hsid Hs. unfold conn_call, sid_ok in *. assert (Hnil : sends_ok c (a ++ [])) by (by rewrite app_nil_r).
  destruct (cn_stage c); [destruct k; by split|..|by split]. destruct k as [buf|cap| |]; [..|by split].
  - unfold stream_poll_write. destruct (as_closed _); [by split|]. destruct buf as [|x buf]; [split; [by eapply sends_same|done]|].
    set (n := Nat.min (length (x :: buf)) (Z.to_nat 65535)). unfold send_frame. rewrite Hsid.
    assert (En : exists y t, take n (x :: buf) = y :: t) by (unfold n; cbn [length]; destruct (Z.to_nat 65535) eqn:Em; [lia|by eexists _, _]).
    clearbody n. destruct (take n (x :: buf)) as [|y t] eqn:Et; [by destruct En as (? & ? & ?)|].
    destruct (encode_frame _) as [w|] eqn:Ef; cbn [mbind option_bind]; [|by split].
    apply encode_frame_inv in Ef as [-> Hf]; [|by vm_compute..]. destruct (as_open (cn_stream c)) eqn:Eo; [|by split]. rewrite Et.
    split; [|done]. eapply (sends_queue _ _ _ _ [mkFrame CMD_PSH 1 (y :: t)]); [exact Hs|exact Eo|done|done| |done|reals].
    cbn. by rewrite app_nil_r.
  - unfold stream_poll_read. destruct (as_buf _) as [|y t]; [destruct (as_read _); [destruct (as_eof _)|]|];
      (split; [by eapply sends_same|done]).
  - unfold stream_poll_shutdown. destruct (as_closed _); [split; [by eapply sends_same|done]|]. unfold send_frame. rewrite Hsid.
    change (encode_frame (mkFrame CMD_FIN 1 [])) with (Some (encoded (mkFrame CMD_FIN 1 []))). cbn [mbind option_bind negb andb].
    destruct (as_open (cn_stream c)) eqn:Eo; cbn; (split; [|done]).
    + eapply (sends_queue _ _ _ _ [mkFrame CMD_FIN 1 []]); [exact Hs|exact Eo|done..|reals].
    + by eapply sends_same.
Qed.

Lemma take_sends rnd p c a : sends_ok c a -> sends_ok (writer_take rnd p c) a.
Proof.
  intros Hs. unfold writer_take. destruct (as_open (cn_stream c)) eqn:Eo; [|done]. destruct (cn_chunks c) eqn:Ec; [|done].
  assert (Hend : forall shut, sends_ok (writer_end c shut) a) by (intros shut; eapply sends_end; [exact Hs|done|exists []; by rewrite Ec|done]).
  destruct (as_write (cn_stream c)) as [|w q] eqn:Ew; [by destruct (senders_gone c)|]. destruct (apply_padding _ _ _ _) as [chunks|] eqn:Ep; [|done].
  apply apply_padding_spec in Ep as (ws & Hws & Eg). destruct Hs as (r & p0 & auth & fs & rest & tail & Ha & Hw & Hok & Hs & Hq).
  destruct (Hq Eo) as (-> & qs & Hqs & <- & Hqok). rewrite Ew in Hqs. destruct qs as [|g qs]; [done|]. injection Hqs as -> ->.
  inversion_clear Hqok as [|? ? Hg Hqs]. rewrite Ec, app_nil_r in Hw.
  exists r, p0, auth, (fs ++ g ++ ws), (concat qs), (concat chunks). cbn. split; [done|]. split; [by rewrite Hw, Eg, !enc_app, !app_assoc|]. split.
  - rewrite !Forall_app. split; [done|]. split; [by apply real_ok|]. eapply Forall_impl; [exact Hws|]. by intros f [].
  - split; [|intros _; split; [done|by exists qs]]. rewrite <- Hs. unfold significant. rewrite !filter_app. fold (significant fs) (significant g) (significant ws).
    by rewrite (significant_waste ws), (significant_real g), app_nil_r, <- app_assoc by done.
Qed.

Lemma chunk_sends r k c a : sends_ok c a -> sends_ok (writer_chunk r k c) a.
Proof.
  intros Hs. unfold writer_chunk. destruct (as_open (cn_stream c)) eqn:Eo; [|done]. destruct (cn_chunks c) as [|chunk chunks] eqn:Ec; [done|].
  assert (Hout : sends_ok (mkConn (cn_stage c) (cn_stream c) (cn_pkt c) chunks (cn_wire c ++ chunk) (cn_shut c) (cn_input c) (cn_end c)) a).
  { destruct Hs as (rnd & p & auth & fs & rest & tail & Ha & Hw & Hok & Hs & Hq). destruct (Hq Eo) as (-> & Hqs).
    exists rnd, p, auth, fs, rest, (concat chunks). cbn. rewrite Ec in Hw. cbn in Hw. rewrite <- app_assoc. by repeat split. }
  destruct chunk as [|x chunk]; [done|]. destruct r as [|e]; [done|].
  eapply (sends_end c a (cn_wire c ++ take k (x :: chunk))); [done|done| |done]. exists (drop k (x :: chunk) ++ concat chunks).
  rewrite Ec. cbn [concat]. by rewrite <- !app_assoc, (app_assoc (take _ _)), take_drop.
Qed.
(** ** What is received *)

Definition reads (a : list Act) : bytes := concat (omap (fun x => match x with ARead d => Some d | _ => None end) a).
Definition received (a : list Act) : bytes := concat (omap (fun x => match x with AGot d => Some d | _ => None end) a).

Lemma reads_app a b : reads (a ++ b) = reads a ++ reads b.
Proof. unfold reads. by rewrite omap_app, concat_app. Qed.
Lemma received_app a b : received (a ++ b) = received a ++ received b.
Proof. unfold received. by rewrite omap_app, concat_app. Qed.

(** The frames the server pushes on the stream, and those that end it. *)
Definition is_push (f : Frame) : Prop := f_cmd f = CMD_PSH /\ f_sid f = 1.
#[local] Instance is_push_dec f : Decision (is_push f).
Proof. unfold is_push. apply _. Defined.
Definition pushed (l : list Frame) : list bytes := map f_data (filter is_push l).
Definition ends (f : Frame) : Prop := (f_cmd f = CMD_FIN /\ f_sid f = 1) \/ f_cmd f = CMD_ALERT.

Lemma pushed_app l k : pushed (l ++ k) = pushed l ++ pushed k.
Proof. unfold pushed. by rewrite filter_app, map_app. Qed.

Lemma pushed_one f : pushed [f] = if decide (is_push f) then [f_data f] else [].
Proof. unfold pushed. rewrite filter_cons, filter_nil. by destruct (decide _). Qed.

(** The part of a frame is not one. *)
Lemma read_frame_part f input r : frame_ok f -> input ++ r = encoded f -> r <> [] -> exists e, read_frame input = Err e.
Proof.
  intros Hf E Hr. unfold read_frame. rewrite bind_reader. destruct (decide (length input < HEADER_LEN)%nat) as [Hl|Hl]; [rewrite read_exact_short by done; by eexists|].
  destruct (decode_header_encoded f [] Hf) as [H1 H2]. rewrite !app_nil_r, <- E in H1. apply read_exact_ok in H1 as [E1 L1].

  assert (Ei : take HEADER_LEN input = [f_cmd f] ++ be_bytes 4 (f_sid f) ++ be_bytes 2 (Z.of_nat (length (f_data f))) /\ drop HEADER_LEN input ++ r = f_data f).
  { apply app_inj_1; [rewrite L1, length_take; lia|by rewrite app_assoc, take_drop]. }
  destruct Ei as [Ei Ed]. rewrite <- (take_drop HEADER_LEN input), read_exact_app_n by (rewrite length_take; lia).
  rewrite Ei, H2, bind_reader. unfold read_exactZ. apply (f_equal length) in Ed. rewrite length_app in Ed.
  destruct r as [|x r]; [done|]. cbn [length] in Ed. destruct (_ <? _); [by eexists|]. rewrite Nat2Z.id, read_exact_short by lia. by eexists.
Qed.

(** Why the reader has ended: after the [k] frames it took the connection ended
    without another whole one, or a frame came that ends the stream; [got] is
    all that has come. *)
Definition ended (ss : list Frame) (got : bytes) (over : bool) (k : nat) : Prop :=
  (over = true /\ exists part, got = enc (take k ss) ++ part /\
     forall f, ss !! k = Some f -> (length part < length (encoded f))%nat) \/
  (exists f rest, ss !! k = Some f /\ ends f /\ got = enc (take (S k) ss) ++ rest).

(** [k] of the server's frames were taken, and none of them ends the stream;
    the last one may have come when nobody listened any more. *)
Record reads_ok (ss : list Frame) (c : Conn) (a : list Act) (k : nat) : Prop := {
  rd_taken : as_eof (cn_stream c) = false -> received a = enc (take k ss) ++ cn_input c;
  rd_data : reads a ++ as_buf (cn_stream c) ++ concat (as_read (cn_stream c)) = concat (pushed (take k ss));
  rd_queue : exists l, pushed (take k ss) = l ++ as_read (cn_stream c);
  rd_on : Forall (fun f => ~ ends f) (take k ss);
  rd_eof : as_eof (cn_stream c) = true -> cn_stage c = Dropped \/ ended ss (received a) (cn_end c) k }.

(** What neither reads nor receives. *)
Lemma reads_same ss c a k c' b : reads_ok ss c a k -> cn_input c' = cn_input c -> as_eof (cn_stream c') = as_eof (cn_stream c) ->
  as_buf (cn_stream c') = as_buf (cn_stream c) -> as_read (cn_stream c') = as_read (cn_stream c) -> cn_end c' = cn_end c ->
  (cn_stage c = Dropped -> cn_stage c' = Dropped) -> reads b = [] -> received b = [] -> reads_ok ss c' (a ++ b) k.
Proof.
  intros [H1 H2 Hq H3 H4] Ei Ee Eb Er En Es Ea Eg. split; rewrite ?reads_app, ?received_app, ?Ea, ?Eg, ?app_nil_r, ?Ei, ?Ee, ?Eb, ?Er, ?En; [done..|].
  intros He. destruct (H4 He) as [H|H]; auto.
Qed.

(** Some of what is there is read. *)
Lemma reads_given ss c a k s d : reads_ok ss c a k -> as_eof s = as_eof (cn_stream c) ->
  d ++ as_buf s ++ concat (as_read s) = as_buf (cn_stream c) ++ concat (as_read (cn_stream c)) ->
  (exists l, as_read (cn_stream c) = l ++ as_read s) -> reads_ok ss (with_stream c s) (a ++ [ARead d]) k.
Proof.
  intros [H1 H2 [l Hq] H3 H4] Ee Ed [l' Hl]. split; cbn [cn_stream with_stream cn_input cn_stage cn_end]; rewrite ?Ee;
    [|..|by rewrite received_app, app_nil_r].
  - intros E. rewrite received_app, app_nil_r. by apply H1.
  - rewrite reads_app, <- H2, <- Ed. unfold reads at 2. cbn. by rewrite app_nil_r, <- app_assoc.
  - exists (l ++ l'). by rewrite Hq, Hl, app_assoc.
  - done.
Qed.

Lemma call_reads ss c k a n : reads_ok ss c a n -> let '(c', b) := conn_call c k in reads_ok ss c' (a ++ b) n.
Proof.
  intros H. unfold conn_call. assert (Hn : reads_ok ss c (a ++ []) n) by (by rewrite app_nil_r).
  assert (Hd : reads_ok ss (with_stage c Dropped) (a ++ []) n) by (by apply (reads_same ss c a n)).
  destruct (cn_stage c) eqn:Eg; [by destruct k|..|done]. destruct k as [buf|cap| |]; [..|done].
  - unfold stream_poll_write, send_frame. destruct (as_closed _); [done|]. destruct buf as [|x buf]; [by apply (reads_same ss c a n)|].
    destruct (encode_frame _); cbn [mbind option_bind]; [|done]. destruct (as_open (cn_stream c)); [|done].
    by apply (reads_same ss c a n).
  - unfold stream_poll_read. destruct (as_buf (cn_stream c)) as [|y t] eqn:Eb.
    + destruct (as_read (cn_stream c)) as [|d q] eqn:Er; [destruct (as_eof (cn_stream c)) eqn:Ee|].
      * apply (reads_given ss c a n); [done|done| |by exists []]. by rewrite Eb, Er.
      * by apply (reads_same ss c a n).
      * apply (reads_given ss c a n); [done|done| |by exists [d]; rewrite Er]. cbn [as_buf as_read].
        by rewrite Eb, Er, app_assoc, take_drop.
    + apply (reads_given ss c a n); [done|done| |by exists []]. cbn [as_buf as_read]. by rewrite Eb, app_assoc, take_drop.
  - unfold stream_poll_shutdown, send_frame. destruct (as_closed _); [by apply (reads_same ss c a n)|].
    destruct (encode_frame _); cbn [mbind option_bind]; [|done]. apply (reads_same ss c a n); try done; by destruct (as_open _).
Qed.
Lemma read_frame_nil : exists e, read_frame [] = Err e.
Proof. unfold read_frame. rewrite bind_reader, read_exact_short by (unfold HEADER_LEN; cbn; lia). by eexists. Qed.

(** What is there is less than the next frame, or starts with it. *)
Lemma next_frame ss k input a fut : Forall frame_ok ss -> a = enc (take k ss) ++ input -> a ++ fut = enc ss ->
  ((exists e, read_frame input = Err e) /\ forall f, ss !! k = Some f -> (length input < length (encoded f))%nat) \/
  exists f rest, ss !! k = Some f /\ frame_ok f /\ input = encoded f ++ rest /\ read_frame input = Ok (f, rest).
Proof.
  intros Hok -> E. assert (E' : enc ss = enc (take k ss) ++ enc (drop k ss)) by (by rewrite <- enc_app, take_drop).
  rewrite E', <- app_assoc in E.
  apply app_inv_head in E. destruct (drop k ss) as [|f l] eqn:Ed.
  - destruct input; [|done]. left. split; [apply read_frame_nil|]. intros f Hf.
    apply lookup_lt_Some in Hf. apply (f_equal length) in Ed. rewrite length_drop in Ed. cbn in Ed. lia.
  - assert (Hk : ss !! k = Some f) by (by rewrite <- (Nat.add_0_r k), <- lookup_drop, Ed).
    assert (Hf : frame_ok f) by (by eapply Forall_lookup_1).
    unfold enc in E. cbn [map concat] in E. destruct (app_eq_inv _ _ _ _ E) as [(r & -> & _)|(r & Er & _)].
    + right. exists f, r. split; [done|]. split; [done|]. split; [done|]. by apply read_frame_encoded.
    + destruct r as [|x r].
      2: { left. split; [by eapply (read_frame_part f _ (x :: r))|]. intros f' Hf'. assert (f' = f) as -> by congruence.
        rewrite Er, length_app. cbn. lia. }
      rewrite app_nil_r in Er. subst input.
      right. exists f, []. rewrite app_nil_r. split; [done|]. split; [done|]. split; [done|].
      rewrite <- (app_nil_r (encoded f)). by apply read_frame_encoded.
Qed.

Lemma handle_spec open p f : frame_ok f ->
  let '(t, more) := handle_frame open 1 (mkReader [] p []) f in
  (more = false -> rt_delivered t = [] /\ rt_replies t = [] /\ (ends f \/ open = false)) /\
  (more = true -> ~ ends f /\ rt_delivered t = pushed [f] /\
     (rt_replies t = [] \/ rt_replies t = [encoded (mkFrame CMD_HEART_RESPONSE (f_sid f) [])])).
Proof.
  intros (Hc & Hs & _). rewrite pushed_one. unfold handle_frame, ends, is_push.
  assert (Hw : encode_frame (mkFrame CMD_HEART_RESPONSE (f_sid f) []) = Some (encoded (mkFrame CMD_HEART_RESPONSE (f_sid f) []))) by done.
  destruct (Z.eqb_spec (f_cmd f) CMD_PSH) as [E|E]; [destruct (Z.eqb_spec (f_sid f) 1) as [E1|E1]; cbn [andb]|].
  - rewrite decide_True by done. rewrite E. destruct open; split; try done; cbn; [|by auto]. intros _. split; [|by auto]. by intros [[? _]|?].
  - rewrite decide_False by (by intros []). rewrite E. cbn. split; [done|]. intros _. split; [by intros [[? _]|?]|by auto].
  - rewrite decide_False by (by intros []). cbn [andb]. destruct (Z.eqb_spec (f_cmd f) CMD_FIN) as [E2|E2]; [destruct (Z.eqb_spec (f_sid f) 1) as [E1|E1]; cbn [andb]|cbn [andb]].
    + split; [|done]. intros _. cbn. split; [done|]. split; [done|]. left. by left.
    + rewrite E2. cbn. split; [done|]. intros _. split; [by intros [[_ ?]|?]|by auto].
    + destruct (Z.eqb_spec (f_cmd f) CMD_ALERT) as [E3|E3]; [split; [|done]; cbn; by auto|].
      assert (He : ~ (f_cmd f = CMD_FIN /\ f_sid f = 1 \/ f_cmd f = CMD_ALERT)) by (by intros [[? _]|?]).
      destruct (f_cmd f =? CMD_UPDATE_PADDING_SCHEME); [destruct (scheme_parse _); split; cbn; by auto|].
      destruct (f_cmd f =? CMD_HEART_REQUEST); [rewrite Hw|]; split; cbn; by auto.
Qed.

Lemma reply_sends c a c' f l : sends_ok c a -> frame_ok f -> l = [] \/ l = [encoded (mkFrame CMD_HEART_RESPONSE (f_sid f) [])] ->
  cn_wire c' = cn_wire c -> cn_chunks c' = cn_chunks c -> as_open (cn_stream c') = as_open (cn_stream c) ->
  as_write (cn_stream c') = (if as_open (cn_stream c) then as_write (cn_stream c) ++ l else as_write (cn_stream c)) ->
  sends_ok c' (a ++ if as_open (cn_stream c) then replies_of f l else []).
Proof.
  intros Hs (Hc & Hf & _) Hl Ew Ec Eo Eq. destruct (as_open (cn_stream c)) eqn:E; [|eapply sends_same; try done; congruence].
  destruct Hl as [-> | ->]; cbn [replies_of]; [eapply sends_same; try done; [by rewrite app_nil_r in Eq|congruence]|].
  eapply (sends_queue _ _ _ _ [mkFrame CMD_HEART_RESPONSE (f_sid f) []]); try done.
  apply Forall_cons_2; [|apply Forall_nil_2]. by split; [split; [by vm_compute|]|].
Qed.

Lemma reader_ok ss p c a k : Forall frame_ok ss -> (exists fut, received a ++ fut = enc ss) -> sends_ok c a -> sid_ok c -> reads_ok ss c a k ->
  let '(c', _, b) := reader_step p c in sends_ok c' (a ++ b) /\ sid_ok c' /\ exists k', reads_ok ss c' (a ++ b) k'.
Proof.
  intros Hok [fut Hfut] Hs Hsid Hr. unfold reader_step. assert (Hn : sends_ok c (a ++ []) /\ sid_ok c /\ exists k', reads_ok ss c (a ++ []) k') by (rewrite app_nil_r; eauto).
  destruct (as_eof (cn_stream c)) eqn:Ee; [done|]. pose proof (rd_taken _ _ _ _ Hr Ee) as Ht.
  destruct (next_frame ss k _ _ fut Hok Ht Hfut) as [[[e ->] Hpart]|(f & rest & Hk & Hf & Ei & ->)].
  - destruct (cn_end c) eqn:En; [|done]. split; [by eapply sends_same|]. split; [done|]. exists k. destruct Hr as [H1 H2 Hq H3 H4].
    split; cbn; rewrite ?app_nil_r; auto; try done. intros _. right. left. split; [done|]. by exists (cn_input c).
  - pose proof (handle_spec (match cn_stage c with Dropped => false | _ => true end) p f Hf) as Hh.
    destruct (handle_frame _ _ _ _) as [t more]. destruct Hh as [Hno Hyes]. set (c' := with_input _ rest).
    assert (Hread : reads (if as_open (cn_stream c) then replies_of f (rt_replies t) else []) = [] /\
      received (if as_open (cn_stream c) then replies_of f (rt_replies t) else []) = []).
    { destruct (as_open _); [|done]. by destruct (rt_replies t). }
    destruct Hread as [Hrd Hrc]. split; [|split].
    + apply (reply_sends c a c' f (rt_replies t)); [done|done| |unfold c'; cbn; by destruct (as_open (cn_stream c)) eqn:?..].
      destruct more; [apply Hyes; done|left; apply Hno; done].
    + unfold sid_ok, c'. cbn. by destruct (as_open (cn_stream c)) eqn:?.
    + destruct Hr as [H1 H2 [l Hq] H3 H4]. assert (Es : as_buf (cn_stream c') = as_buf (cn_stream c) /\ as_eof (cn_stream c') = negb more /\
        as_read (cn_stream c') = as_read (cn_stream c) ++ rt_delivered t) by (unfold c'; cbn; by destruct (as_open (cn_stream c)) eqn:?).
      destruct Es as (Eb & Ef & Er). destruct more.
      * destruct (Hyes eq_refl) as (Hne & Hd & _). exists (S k). assert (Etk : take (S k) ss = take k ss ++ [f]) by (by apply take_S_r).
        split; rewrite ?reads_app, ?received_app, ?Hrd, ?Hrc, ?app_nil_r, ?Etk; [| | |by apply Forall_app; repeat constructor|by rewrite Ef].
        -- intros _. rewrite Ht, Ei, enc_app. change (enc [f]) with (encoded f ++ []). change (cn_input c') with rest. by rewrite app_nil_r, <- app_assoc.
        -- rewrite Eb, Er, concat_app, pushed_app, concat_app, <- H2, Hd. by rewrite !app_assoc.
        -- exists l. by rewrite Er, pushed_app, Hq, Hd, app_assoc.
      * destruct (Hno eq_refl) as (Hd & _ & Hend). exists k.
        split; rewrite ?reads_app, ?received_app, ?Hrd, ?Hrc, ?app_nil_r, ?Ef; [done|by rewrite Eb, Er, Hd, app_nil_r|by exists l; rewrite Er, Hd, app_nil_r|done|].
        intros _. destruct Hend as [?|Hg]; [|left; unfold c'; cbn; by destruct (cn_stage c)].
        right. right. exists f, rest. split; [done|]. split; [done|]. rewrite (take_S_r _ _ f), enc_app by done.
        rewrite Ht, Ei. unfold enc at 3. cbn [map concat]. by rewrite app_nil_r, <- app_assoc.
Qed.
(** ** Runs *)

Definition conn_inv (ss : list Frame) (c : Conn) (a : list Act) : Prop :=
  (exists fut, received a ++ fut = enc ss) -> sends_ok c a /\ sid_ok c /\ exists k, reads_ok ss c a k.

Lemma start_inv ss rnd p addr c : conn_start rnd p addr = Some c -> conn_inv ss c [].
Proof.
  intros H _. destruct (auth_of _ _ _ _ H) as (Hs & Hi & Hg & Hc). unfold sid_ok. rewrite Hc. split; [done|]. split; [done|].
  exists 0%nat. split; rewrite ?Hc, ?Hi; try done. by exists [].
Qed.

Lemma init_inv ss p c a : sends_ok c a /\ sid_ok c /\ (exists k, reads_ok ss c a k) ->
  let '(c', b) := conn_init p c in sends_ok c' (a ++ b) /\ sid_ok c' /\ exists k, reads_ok ss c' (a ++ b) k.
Proof.
  intros (Hs & Hsid & k & Hr). assert (Hn : forall g, (g = Dropped \/ g = cn_stage c) -> sends_ok (with_stage c g) (a ++ []) /\ sid_ok c /\ exists k, reads_ok ss (with_stage c g) (a ++ []) k).
  { intros g Hg. split; [by eapply sends_same|]. split; [done|]. exists k. apply (reads_same ss c a k); try done. cbn. intros. by destruct Hg as [-> | ->]. }
  pose proof (Hn Dropped (or_introl eq_refl)) as Hd. unfold conn_init. destruct (cn_stage c) as [addr| |] eqn:Eg; [|rewrite app_nil_r; eauto..].
  destruct (initial_payload _ _ _ _) as [[w|e]|] eqn:Ei; [|exact Hd..]. destruct (as_open (cn_stream c)) eqn:Eo; [|exact Hd].
  apply initial_frames in Ei as [-> Hreal]. split; [|split; [done|]].
  - eapply (sends_queue _ _ _ _ (act_frames (AOpened p addr))); [exact Hs|exact Eo|done..| |exact Hreal]. unfold log. by rewrite <- (app_nil_r (act_frames _)).
  - exists k. apply (reads_same ss c a k); try done. by rewrite Eg.
Qed.

Lemma take_same rnd p c : let c' := writer_take rnd p c in cn_input c' = cn_input c /\ cn_end c' = cn_end c /\ cn_stage c' = cn_stage c /\
  (cn_stream c' = cn_stream c \/ exists q o, cn_stream c' = with_queue (cn_stream c) q o).
Proof.
  unfold writer_take. destruct (as_open _); [|by auto]. destruct (cn_chunks c); [|by auto].
  destruct (as_write _) as [|w q]; [destruct (senders_gone c)|destruct (apply_padding _ _ _ _)]; cbn; eauto 10.
Qed.

Lemma conn_step_inv ss p c e a : Forall frame_ok ss -> conn_inv ss c a ->
  let '(c', _, b) := conn_step p c e in conn_inv ss c' (a ++ b).
Proof.
  intros Hok H. assert (Hsub : forall b, (exists fut, received (a ++ b) ++ fut = enc ss) -> exists fut, received a ++ fut = enc ss).
  { intros b [fut E]. rewrite received_app, <- app_assoc in E. by eexists. }
  destruct e as [|k|rnd|r k|d| |]; cbn [conn_step].
  - pose proof (fun h => init_inv ss p c a (H h)) as Hi. destruct (conn_init p c) as [c' b]. intros Hf. by apply Hi, (Hsub b).
  - pose proof (fun Hs Hsid => call_sends c k a Hs Hsid) as Hs. pose proof (fun n Hr => call_reads ss c k a n Hr) as Hr.
    destruct (conn_call c k) as [c' b]. intros Hf%Hsub. destruct (H Hf) as (H1 & H2 & n & H3). destruct (Hs H2 H1). eauto.
  - rewrite app_nil_r. intros Hf. destruct (H Hf) as (H1 & H2 & n & H3). split; [by apply take_sends|].
    destruct (take_same rnd p c) as (Ei & Ee & Eg & Ec). split; [unfold sid_ok in *; by destruct Ec as [-> | (? & ? & ->)]|]. exists n.
    rewrite <- (app_nil_r a). apply (reads_same ss c a n); try done; try (by destruct Ec as [-> | (? & ? & ->)]). by rewrite Eg.
  - rewrite app_nil_r. intros Hf. destruct (H Hf) as (H1 & H2 & n & H3). split; [by apply chunk_sends|].
    unfold writer_chunk. destruct (as_open _), (cn_chunks c) as [|[|x ch] chunks]; try (by eauto); [|destruct r];
      (split; [done|]; exists n; rewrite <- (app_nil_r a); by apply (reads_same ss c a n)).
  - destruct (cn_end c) eqn:En; [rewrite app_nil_r; exact H|].
    intros Hf. destruct (H (Hsub _ Hf)) as (H1 & H2 & n & [R1 R2 Rq R3 R4]). split; [by eapply sends_same|]. split; [done|]. exists n.
    split; rewrite ?received_app, ?reads_app; cbn; rewrite ?app_nil_r; [intros E; by rewrite R1, <- app_assoc|done..|].
    intros E. destruct (R4 E) as [?|[[? _]|(f & rest & ? & ? & ->)]]; [by left|congruence|right; right].
    exists f, (rest ++ d). split; [done|]. split; [done|]. by rewrite app_assoc.
  - rewrite app_nil_r. intros Hf. destruct (H Hf) as (H1 & H2 & n & [R1 R2 Rq R3 R4]). split; [done|]. split; [done|]. exists n. split; [done..|].
    intros E. destruct (R4 E) as [?|[[_ ?]|?]]; [by left|right; by left|right; by right].
  - destruct (reader_step p c) as [[c' p'] b] eqn:Er. intros Hf%Hsub. destruct (H Hf) as (H1 & H2 & n & H3).
    pose proof (reader_ok ss p c a n Hok Hf H1 H2 H3) as Hr. by rewrite Er in Hr.
Qed.

(** What was seen of one connection. *)
Definition acts_of (i : nat) (l : list (nat * Act)) : list Act := omap (fun x => if decide (x.1 = i) then Some x.2 else None) l.

Lemma acts_of_app i a b : acts_of i (a ++ b) = acts_of i a ++ acts_of i b.
Proof. apply omap_app. Qed.
Lemma acts_of_self i a : acts_of i (map (pair i) a) = a.
Proof. unfold acts_of. induction a as [|x a IH]; [done|]. cbn. by rewrite decide_True, IH. Qed.
Lemma acts_of_other i j a : j <> i -> acts_of i (map (pair j) a) = [].
Proof. intros Hne. unfold acts_of. induction a as [|x a IH]; [done|]. cbn. by rewrite decide_False, IH. Qed.

Lemma net_run_inv ss i l : Forall frame_ok ss -> forall n acc,
  (forall c, an_conns n !! i = Some c -> conn_inv ss c acc) -> (an_conns n !! i = None -> acc = []) ->
  forall c, an_conns (net_run n l).1 !! i = Some c -> conn_inv ss c (acc ++ acts_of i (net_run n l).2).
Proof.
  intros Hok. induction l as [|e l IH]; intros n acc Hn Hacc c; cbn [net_run]; [rewrite app_nil_r; apply Hn|].
  destruct (net_step n e) as [n' a] eqn:Es. specialize (IH n' (acc ++ acts_of i a)). destruct (net_run n' l) as [n2 b]. cbn [fst snd] in *.
  rewrite acts_of_app, app_assoc. apply IH; clear IH c.
  - intros c Hc. destruct e as [addr rnd|j e]; cbn [net_step] in Es.
    + destruct (conn_start rnd (an_padding n) addr) as [c1|] eqn:Ec; injection Es as <- <-; cbn; rewrite app_nil_r; [|by apply Hn].
      cbn in Hc. apply lookup_app_Some in Hc as [Hc|[Hi Hc]]; [by apply Hn|]. rewrite Hacc by (by apply lookup_ge_None_2).
      apply list_lookup_singleton_Some in Hc as [_ <-]. by eapply start_inv.
    + destruct (an_conns n !! j) as [c1|] eqn:Ej; [|injection Es as <- <-; cbn; rewrite app_nil_r; by apply Hn].
      pose proof (fun H => conn_step_inv ss (an_padding n) c1 e acc Hok H) as Hs. destruct (conn_step _ c1 e) as [[c2 p2] a2]. injection Es as <- <-. cbn in Hc.
      destruct (decide (j = i)) as [->|Hne].
      * rewrite list_lookup_insert_eq in Hc by (by eapply lookup_lt_Some). injection Hc as <-. rewrite acts_of_self. by apply Hs, Hn.
      * rewrite list_lookup_insert_ne in Hc by done. rewrite acts_of_other, app_nil_r by done. by apply Hn.
  - intros Hc. destruct e as [addr rnd|j e]; cbn [net_step] in Es.
    + assert (an_conns n !! i = None /\ a = []) as [? ->]; [|cbn; rewrite app_nil_r; by apply Hacc].
      destruct (conn_start _ _ _); injection Es as <- <-; [|done]. split; [|done]. apply lookup_ge_None_2. apply lookup_ge_None in Hc. cbn in Hc. rewrite length_app in Hc. lia.
    + destruct (an_conns n !! j) as [c1|] eqn:Ej; [|injection Es as <- <-; cbn; rewrite app_nil_r; by apply Hacc].
      destruct (conn_step _ c1 e) as [[c2 p2] a2]. injection Es as <- <-. cbn in Hc.
      destruct (decide (j = i)) as [->|Hne]; [|rewrite acts_of_other, app_nil_r by done; apply Hacc; by rewrite list_lookup_insert_ne in Hc].
      exfalso. rewrite list_lookup_insert_eq in Hc by (by eapply lookup_lt_Some). done.
Qed.

(** A read gives nothing at the end, or for an empty frame. *)
Lemma empty_read cap s s' : (0 < cap)%nat -> stream_poll_read cap s = (s', Ready (Ok [])) ->
  (as_eof s = true /\ as_buf s = [] /\ as_read s = []) \/ (as_buf s = [] /\ exists q, as_read s = [] :: q).
Proof.
  unfold stream_poll_read. intros Hc. assert (Ht : forall d : bytes, take (Nat.min (length d) cap) d = [] -> d = []).
  { intros d E. apply (f_equal length) in E. rewrite length_take in E. destruct d; [done|]. cbn [length] in E. lia. }
  destruct (as_buf s) as [|x d]; [|intros [= _ E]; by apply (Ht (x :: d)) in E].
  destruct (as_read s) as [|d q]; [destruct (as_eof s); [by left|done]|].
  intros [= _ E]. right. split; [done|]. exists q. by rewrite (Ht d E).
Qed.

(** C17: However the streams' owners, the tasks and the network interleave, on each
    connection: the bytes given to the TLS connection, with some that may
    still follow, are the authentication and then frames, which, padding left
    out, are what the owner did, in order, as far as they go, and all of it
    when nothing is queued; and what the owner has read and what waits for it
    are the bytes the server pushed in the frames taken so far, in order, none
    of which ends the stream.  The reader ends, while the stream is there,
    only at a frame that ends it, or when the connection has ended and no
    whole frame is left of what came.  A read that gives nothing tells that
    end, all of those bytes having been read - unless the server pushed an
    empty frame, which gives such a read too. *)
Theorem anytls_session_exact ss padding l i c : Forall frame_ok ss ->
  let '(n, acts) := net_run (mkNet padding []) l in
  let a := acts_of i acts in let s := cn_stream c in
  an_conns n !! i = Some c -> (exists fut, received a ++ fut = enc ss) ->
  (exists rnd p auth fs rest tail, auth_prefix sha256 rnd password p = Some auth /\
     cn_wire c ++ tail = auth ++ enc fs /\ significant fs ++ rest = log a /\
     (as_open s = true -> as_write s = [] -> cn_chunks c = [] -> tail = [] /\ rest = [])) /\
  (exists k, Forall (fun f => ~ ends f) (take k ss) /\
     reads a ++ as_buf s ++ concat (as_read s) = concat (pushed (take k ss)) /\
     (if as_eof s then cn_stage c = Dropped \/ ended ss (received a) (cn_end c) k
      else received a = enc (take k ss) ++ cn_input c) /\
     (forall cap s', (0 < cap)%nat -> stream_poll_read cap s = (s', Ready (Ok [])) ->
        (as_eof s = true /\ reads a = concat (pushed (take k ss))) \/ In [] (pushed (take k ss)))).
Proof.
  intros Hok. pose proof (net_run_inv ss i l Hok (mkNet padding []) [] ltac:(done) ltac:(done) c) as H.
  destruct (net_run (mkNet padding []) l) as [n acts]. intros a s Hc Hf. subst a s.
  destruct (H Hc Hf) as (Hs & _ & k & [Htk Hd [l' Hl] Hon He]). split.
  - destruct Hs as (rnd & p & auth & fs & rest & tail & Ha & Hw & _ & Hsig & Hq). exists rnd, p, auth, fs, rest, tail. split; [done|]. split; [done|]. split; [done|].
    intros Ho Hq0 Hc0. destruct (Hq Ho) as (-> & qs & Eq & <- & _). rewrite Hc0. split; [done|]. rewrite Hq0 in Eq. by destruct qs.
  - exists k. split; [done|]. split; [done|]. split; [destruct (as_eof _); auto|]. intros cap s' Hcap. cbn [app] in Hd.
    intros E0. apply (empty_read _ _ _ Hcap) in E0 as [(E & Eb & Er)|(Eb & q & Er)]; [left|right].
    + split; [done|]. by rewrite Eb, Er, !app_nil_r in Hd.
    + rewrite Hl, Er. apply in_or_app. right. by left.
Qed.

(** A connection whose stream is gone while the server stays silent. *)
Definition abandoned (c : Conn) : Prop :=
  cn_stage c = Dropped /\ as_eof (cn_stream c) = false /\ as_open (cn_stream c) = true /\ as_write (cn_stream c) = [] /\ cn_chunks c = [] /\
  cn_shut c = false /\ (exists e, read_frame (cn_input c) = Err e) /\ cn_end c = false.

(** It stays open: the reader keeps a sender of the queue, so the writer does
    not end, and the reader does not look at the stream until the server
    pushes data on it. *)
Lemma anytls_abandoned_stays p c e : abandoned c -> (match e with EData _ | EEnd => False | _ => True end) -> abandoned (conn_step p c e).1.1.
Proof.
  intros (Hg & He & Ho & Hq & Hc & Hs & [x Hr] & Hn) Hev. assert (Ha : abandoned c) by (repeat split; eauto).
  destruct e as [|k|rnd|r k|d| |]; [..|done|done|]; cbn [conn_step fst].
  - unfold conn_init. by rewrite Hg.
  - unfold conn_call. by rewrite Hg.
  - unfold writer_take, senders_gone. by rewrite Ho, Hc, Hq, Hg, He.
  - unfold writer_chunk. by rewrite Ho, Hc.
  - unfold reader_step. by rewrite He, Hr, Hn.
Qed.

(** [tcp_connect] leaves one behind when the address cannot be written. *)
Lemma anytls_long_domain_abandons p c d port : cn_stage c = Opening (ADomain d port) -> (255 < length d)%nat ->
  cn_stage (conn_init p c).1 = Dropped /\ cn_stream (conn_init p c).1 = cn_stream c.
Proof.
  intros Hg Hd. unfold conn_init. rewrite Hg. unfold initial_payload. cbn [encode_socks_addr].
  replace (255 <? length d)%nat with true by (symmetry; by apply Nat.ltb_lt).
  by destruct (encode_frame (mkFrame CMD_SETTINGS 0 _)).
Qed.

End Net.

(** ** A sample *)

Definition toy_digest (_ : bytes) : bytes := replicate 32 97.
Definition toy_scheme : PaddingScheme := mkScheme [] 3 {[ 0 := [PRange 2 2]; 1 := [PRange 20 20; PCheck; PRange 9 9]; 2 := [PRange 12 12] ]}.
Definition toy_ss : list Frame := [mkFrame 7 1 []; mkFrame CMD_HEART_REQUEST 0 []; mkFrame CMD_PSH 1 [5; 6]; mkFrame CMD_FIN 1 []].

(** The address is padded, the server's first frames come in two pieces, its
    heartbeat is answered and its data read up to the end. *)
Definition toy_run : list NetEv :=
  [NConnect (ASocket (mkSocketAddr (V4 1) 80)) (fun _ => 0); NConn 0 EInit; NConn 0 (ETake (fun _ => 0));
   NConn 0 (EChunk (Ok ()) 0); NConn 0 (ECall (CWrite [1; 2; 3])); NConn 0 (EData (take 10 (enc toy_ss))); NConn 0 EFrame; NConn 0 EFrame;
   NConn 0 (EData (drop 10 (enc toy_ss))); NConn 0 EFrame; NConn 0 (EChunk (Ok ()) 0); NConn 0 (EChunk (Ok ()) 0); NConn 0 (EChunk (Ok ()) 0);
   NConn 0 (ETake (fun _ => 0)); NConn 0 (EChunk (Ok ()) 0); NConn 0 EFrame; NConn 0 EFrame; NConn 0 (ECall (CRead 1)); NConn 0 (ECall (CRead 9));
   NConn 0 (ECall (CRead 9)); NConn 0 (ECall CShutdown)].

Example toy_session :
  let '(n, acts) := net_run toy_digest toy_digest (lit "pw") (mkNet toy_scheme []) toy_run in
  acts_of 0 acts = [AOpened toy_scheme (ASocket (mkSocketAddr (V4 1) 80)); AWrote [1; 2; 3]; AGot (take 10 (enc toy_ss)); AGot (drop 10 (enc toy_ss));
    AReply 0; ARead [5]; ARead [6]; ARead []; AFinished].
Proof. vm_compute. reflexivity. Qed.

(** What is left of a stream that was dropped. *)
Example toy_abandoned : match an_conns (net_run toy_digest toy_digest (lit "pw") (mkNet toy_scheme []) (take 4 toy_run ++
    [NConn 0 (EChunk (Ok ()) 0); NConn 0 (EChunk (Ok ()) 0); NConn 0 (EChunk (Ok ()) 0); NConn 0 (ECall CDrop)])).1 !! 0%nat with
  | Some c => abandoned c
  | None => False
  end.
Proof. vm_compute. repeat split; try reflexivity. by eexists. Qed.

Lemma anytls_session_exact_witness : exists c fs rest tail auth k,
  an_conns (net_run toy_digest toy_digest (lit "pw") (mkNet toy_scheme []) toy_run).1 !! 0%nat = Some c /\
  cn_wire c ++ tail = auth ++ enc fs /\
  significant fs ++ rest = log toy_digest (acts_of 0 (net_run toy_digest toy_digest (lit "pw") (mkNet toy_scheme []) toy_run).2) /\
  as_eof (cn_stream c) = true /\ cn_stage c = Opened /\
  ended toy_ss (received (acts_of 0 (net_run toy_digest toy_digest (lit "pw") (mkNet toy_scheme []) toy_run).2)) (cn_end c) k.
Proof.
  assert (Hok : Forall frame_ok toy_ss) by (repeat apply Forall_cons_2; try apply Forall_nil_2; (split; [split; vm_compute; congruence|split; [split; vm_compute; congruence|by vm_compute]])).
  pose proof (fun c => anytls_session_exact toy_digest toy_digest (lit "pw") toy_ss toy_scheme toy_run 0 c Hok) as H.
  destruct (net_run toy_digest toy_digest (lit "pw") (mkNet toy_scheme []) toy_run) as [n acts] eqn:En.
  assert (Ec : exists c, an_conns n !! 0%nat = Some c /\ as_eof (cn_stream c) = true /\ cn_stage c = Opened)
    by (vm_compute in En; injection En as <- _; by eexists).
  destruct Ec as (c & Ec & Ee & Eg). destruct (H c Ec) as [(rnd & p & auth & fs & rest & tail & _ & Hw & Hs & _) (k & _ & _ & He & _)].
  - vm_compute in En. injection En as _ <-. exists []. vm_compute. reflexivity.
  - rewrite Ee in He. exists c, fs, rest, tail, auth, k. split; [exact Ec|]. split; [exact Hw|]. split; [exact Hs|].
    split; [exact Ee|]. split; [exact Eg|]. destruct He as [He|He]; [congruence|exact He].
Defined.

End AnyTlsNet.
