(* ===== verification/ConnMgr.v ===== *)
(** * Connections: [rabbit-digger/src/rabbit_digger/connection_manager.rs],
    [event.rs], and the wrappers of [running.rs] that count traffic.

    A connection's id is the [Uuid]'s value; a [oneshot] stop channel is the
    id of its sender.  Counters are [u64] with wrap-around. *)

From S2P Require Import Prelude Io Address.

Module ConnMgr.

Definition u64 (x : Z) : Z := x mod 2 ^ 64.

Section Value.
(** [serde_json::Value], which the manager only stores. *)
Context {Value : Type}.

(* src/rabbit-digger/src/rabbit_digger/event.rs:8-20 EventType *)
Inductive EventType : Type :=
| NewTcp (a : Address) (ctx : Value)
| NewUdp (a : Address) (ctx : Value)
| SetStopper (sender : Z)
| CloseConnection
| EvWrite (n : Z)
| EvRead (n : Z)
| EvSendTo (a : Address) (n : Z)
| EvRecvFrom (a : Address) (n : Z).

(* src/rabbit-digger/src/rabbit_digger/event.rs:31-36 Event *)
Record Event : Type := mkEvent { ev_uuid : Z; ev_events : list EventType; ev_time : Z }.

(* src/rabbit-digger/src/rabbit_digger/connection_manager.rs:39-44 Protocol *)
Inductive Protocol : Type := Tcp | Udp.

(* src/rabbit-digger/src/rabbit_digger/connection_manager.rs:46-58 ConnectionInfo *)
Record ConnectionInfo : Type := mkInfo {
  protocol : Protocol;
  ci_addr : Address;
  start_time : Z;
  ci_ctx : Value;
  upload : Z;
  download : Z;
  stop_sender : option Z }.

(* src/rabbit-digger/src/rabbit_digger/connection_manager.rs:60-67 ConnectionState *)
Record ConnectionState : Type := mkConns {
  connections : gmap Z ConnectionInfo;
  total_upload : Z;
  total_download : Z }.

(* src/rabbit-digger/src/rabbit_digger/connection_manager.rs:70-76 ConnectionState::new *)
Definition conns_new : ConnectionState := mkConns ∅ 0 0.

Definition new_info (p : Protocol) (a : Address) (ctx : Value) (time : Z) : ConnectionInfo :=
  mkInfo p a time ctx 0 0 None.

Definition add_upload (uuid n : Z) (s : ConnectionState) : ConnectionState :=
  match connections s !! uuid with
  | Some c =>
    mkConns (<[uuid := mkInfo (protocol c) (ci_addr c) (start_time c) (ci_ctx c)
                        (u64 (upload c + n)) (download c) (stop_sender c)]> (connections s))
      (u64 (total_upload s + n)) (total_download s)
  | None => s
  end.

Definition add_download (uuid n : Z) (s : ConnectionState) : ConnectionState :=
  match connections s !! uuid with
  | Some c =>
    mkConns (<[uuid := mkInfo (protocol c) (ci_addr c) (start_time c) (ci_ctx c)
                        (upload c) (u64 (download c + n)) (stop_sender c)]> (connections s))
      (total_upload s) (u64 (total_download s + n))
  | None => s
  end.

(** One event of a connection at a time in seconds. *)
(* src/rabbit-digger/src/rabbit_digger/connection_manager.rs:81-143 ConnectionState::input_event *)
Definition input_one (uuid time : Z) (s : ConnectionState) (e : EventType) : ConnectionState :=
  match e with
  | NewTcp a ctx => mkConns (<[uuid := new_info Tcp a ctx time]> (connections s)) (total_upload s) (total_download s)
  | NewUdp a ctx => mkConns (<[uuid := new_info Udp a ctx time]> (connections s)) (total_upload s) (total_download s)
  | SetStopper sender =>
    match connections s !! uuid with
    | Some c =>
      mkConns (<[uuid := mkInfo (protocol c) (ci_addr c) (start_time c) (ci_ctx c)
                          (upload c) (download c) (Some sender)]> (connections s))
        (total_upload s) (total_download s)
    | None => s
    end
  | EvRead n => add_download uuid n s
  | EvWrite n => add_upload uuid n s
  | EvRecvFrom _ n => add_download uuid n s
  | EvSendTo _ n => add_upload uuid n s
  | CloseConnection => mkConns (delete uuid (connections s)) (total_upload s) (total_download s)
  end.

(* src/rabbit-digger/src/rabbit_digger/connection_manager.rs:77-145 ConnectionState::input_event *)
Definition input_event (s : ConnectionState) (e : Event) : ConnectionState :=
  fold_left (input_one (ev_uuid e) (ev_time e)) (ev_events e) s.

(* src/rabbit-digger/src/rabbit_digger/connection_manager.rs:189-194 ManagerInner::recv_event *)
Definition recv_event (s : ConnectionState) (l : list Event) : ConnectionState := fold_left input_event l s.

(* src/rabbit-digger/src/rabbit_digger/connection_manager.rs:146-148 connection_count *)
Definition connection_count (s : ConnectionState) : nat := size (connections s).

Definition take_sender (c : ConnectionInfo) : ConnectionInfo :=
  mkInfo (protocol c) (ci_addr c) (start_time c) (ci_ctx c) (upload c) (download c) None.

(** [listening] says whether the receiver of a stop channel still exists; the
    result is the state, the channel signalled, and what is returned. *)
(* src/rabbit-digger/src/rabbit_digger/connection_manager.rs:224-232 stop_connection *)
Definition stop_connection (listening : Z -> bool) (s : ConnectionState) (uuid : Z)
    : ConnectionState * option Z * bool :=
  match connections s !! uuid with
  | Some c =>
    match stop_sender c with
    | Some sender =>
      (mkConns (<[uuid := take_sender c]> (connections s)) (total_upload s) (total_download s),
       Some sender, listening sender)
    | None => (s, None, false)
    end
  | None => (s, None, false)
  end.

(* src/rabbit-digger/src/rabbit_digger/connection_manager.rs:233-243 stop_connections *)
Definition stop_connections (listening : Z -> bool) (s : ConnectionState)
    : ConnectionState * list Z * nat :=
  let senders := omap (fun kv : Z * ConnectionInfo => stop_sender kv.2) (map_to_list (connections s)) in
  (mkConns (take_sender <$> connections s) (total_upload s) (total_download s),
   senders, length (List.filter listening senders)).

(** ** A connection's side *)

(* src/rabbit-digger/src/rabbit_digger/connection_manager.rs:263-267 Tcp *)
Record TcpCount : Type := mkTcp { tc_read : Z; tc_write : Z }.

(* src/rabbit-digger/src/rabbit_digger/connection_manager.rs:273-284 Tcp::get_events *)
Definition tcp_get_events (c : TcpCount) : TcpCount * list EventType :=
  (mkTcp 0 0,
   (if 0 <? tc_read c then [EvRead (tc_read c)] else []) ++
   (if 0 <? tc_write c then [EvWrite (tc_write c)] else [])).

(* src/rabbit-digger/src/rabbit_digger/connection_manager.rs:286-290 Udp *)
Record UdpCount : Type := mkUdp { uc_recv_from : gmap Address Z; uc_send_to : gmap Address Z }.

(* src/rabbit-digger/src/rabbit_digger/connection_manager.rs:296-305 Udp::get_events *)
Definition udp_get_events (c : UdpCount) : UdpCount * list EventType :=
  (mkUdp ∅ ∅,
   map (fun kv : Address * Z => EvRecvFrom kv.1 kv.2) (map_to_list (uc_recv_from c)) ++
   map (fun kv : Address * Z => EvSendTo kv.1 kv.2) (map_to_list (uc_send_to c))).

(** The events of a new connection. *)
(* src/rabbit-digger/src/rabbit_digger/connection_manager.rs:322-342 Connection::new *)
Definition connection_new (uuid stopper time : Z) (p : Protocol) (a : Address) (ctx : Value) : Event :=
  mkEvent uuid [(match p with Tcp => NewTcp a ctx | Udp => NewUdp a ctx end); SetStopper stopper] time.

(** [send]: nothing is sent for no events. *)
(* src/rabbit-digger/src/rabbit_digger/connection_manager.rs:365-369 Connection::send *)
Definition conn_send (uuid time : Z) (l : list EventType) : list Event :=
  match l with [] => [] | _ => [mkEvent uuid l time] end.

(** [poll]: counters go out on a heartbeat, and a stopped connection fails. *)
(* src/rabbit-digger/src/rabbit_digger/connection_manager.rs:343-356 Connection::poll *)
Definition conn_poll {C} (get_events : C -> C * list EventType) (uuid time : Z)
    (heartbeat stopped : bool) (c : C) : C * list Event * res unit :=
  let '(c, out) := if heartbeat then let '(c, l) := get_events c in (c, conn_send uuid time l) else (c, []) in
  (c, out, if stopped then Err EConnectionAborted else Ok tt).

(* src/rabbit-digger/src/rabbit_digger/connection_manager.rs:372-379 Connection::read *)
Definition tcp_read (n : Z) (c : TcpCount) : TcpCount := mkTcp (u64 (tc_read c + n)) (tc_write c).
Definition tcp_write (n : Z) (c : TcpCount) : TcpCount := mkTcp (tc_read c) (u64 (tc_write c + n)).

Definition bump (m : gmap Address Z) (a : Address) (n : Z) : gmap Address Z :=
  <[a := match m !! a with Some x => u64 (x + n) | None => n end]> m.

(* src/rabbit-digger/src/rabbit_digger/connection_manager.rs:381-396 Connection::recv_from *)
Definition udp_recv_from (a : Address) (n : Z) (c : UdpCount) : UdpCount :=
  mkUdp (bump (uc_recv_from c) a n) (uc_send_to c).
Definition udp_send_to (a : Address) (n : Z) (c : UdpCount) : UdpCount :=
  mkUdp (uc_recv_from c) (bump (uc_send_to c) a n).

(* src/rabbit-digger/src/rabbit_digger/connection_manager.rs:398-404 Connection::drop *)
Definition conn_drop {C} (get_events : C -> C * list EventType) (uuid time : Z) (c : C) : list Event :=
  conn_send uuid time (get_events c).2 ++ conn_send uuid time [CloseConnection].

(** ** [WrapTcpStream] and [WrapUdpSocket] *)

(** What happens to a wrapped stream: a read or a write with the inner
    stream's answer, reads having first polled the connection.  The result is
    the counters, the events sent and the answer given. *)
(* src/rabbit-digger/src/rabbit_digger/running.rs:296-311 WrapTcpStream::poll_read *)
Definition wrap_tcp_read (uuid time : Z) (heartbeat stopped : bool) (inner : poll (res bytes)) (c : TcpCount)
    : TcpCount * list Event * poll (res bytes) :=
  let '(c, out, r) := conn_poll tcp_get_events uuid time heartbeat stopped c in
  match r with
  | Err e => (c, out, Ready (Err e))
  | Ok _ =>
    match inner with
    | Ready (Ok d) => (tcp_read (Z.of_nat (length d)) c, out, Ready (Ok d))
    | r => (c, out, r)
    end
  end.

(* src/rabbit-digger/src/rabbit_digger/running.rs:313-321 WrapTcpStream::poll_write *)
Definition wrap_tcp_write (inner : poll (res nat)) (c : TcpCount) : TcpCount * poll (res nat) :=
  match inner with
  | Ready (Ok s) => (tcp_write (Z.of_nat s) c, Ready (Ok s))
  | r => (c, r)
  end.

(* src/rabbit-digger/src/rabbit_digger/running.rs:242-252 WrapUdpSocket::poll_recv_from *)
Definition wrap_udp_recv (uuid time : Z) (heartbeat stopped : bool) (filled : bytes)
    (inner : poll (res (SocketAddr * bytes))) (c : UdpCount)
    : UdpCount * list Event * poll (res (SocketAddr * bytes)) :=
  let '(c, out, r) := conn_poll udp_get_events uuid time heartbeat stopped c in
  match r with
  | Err e => (c, out, Ready (Err e))
  | Ok _ =>
    match inner with
    | Ready (Ok (a, d)) =>
      (udp_recv_from (ASocket a) (Z.of_nat (length (filled ++ d))) c, out, Ready (Ok (a, d)))
    | r => (c, out, r)
    end
  end.

(* src/rabbit-digger/src/rabbit_digger/running.rs:254-264 WrapUdpSocket::poll_send_to *)
Definition wrap_udp_send (buf : bytes) (target : Address) (inner : poll (res nat)) (c : UdpCount)
    : UdpCount * poll (res nat) :=
  match inner with
  | Ready (Ok r) => (udp_send_to target (Z.of_nat (length buf)) c, Ready (Ok r))
  | r => (c, r)
  end.

(** A wrapped TCP stream's life: its operations in order. *)
Inductive TcpOp : Type :=
| OpRead (time : Z) (heartbeat stopped : bool) (inner : poll (res bytes))
| OpWrite (inner : poll (res nat)).

Definition run_op (uuid : Z) (c : TcpCount) (o : TcpOp) : TcpCount * list Event :=
  match o with
  | OpRead t h st inner => let '(c, out, _) := wrap_tcp_read uuid t h st inner c in (c, out)
  | OpWrite inner => ((wrap_tcp_write inner c).1, [])
  end.

Fixpoint run_ops (uuid : Z) (c : TcpCount) (l : list TcpOp) : TcpCount * list Event :=
  match l with
  | [] => (c, [])
  | o :: l => let '(c, e1) := run_op uuid c o in let '(c, e2) := run_ops uuid c l in (c, e1 ++ e2)
  end.

(** All the events of a wrapped stream, from [new] to its drop. *)
(* src/rabbit-digger/src/rabbit_digger/running.rs:267-284 WrapTcpStream::new *)
Definition tcp_life (uuid stopper time tend : Z) (a : Address) (ctx : Value) (ops : list TcpOp) : list Event :=
  connection_new uuid stopper time Tcp a ctx ::
  (run_ops uuid (mkTcp 0 0) ops).2 ++ conn_drop tcp_get_events uuid tend (run_ops uuid (mkTcp 0 0) ops).1.

(** The bytes the inner stream has read and written. *)
Definition op_read (o : TcpOp) : Z :=
  match o with OpRead _ _ false (Ready (Ok d)) => Z.of_nat (length d) | _ => 0 end.
Definition op_written (o : TcpOp) : Z :=
  match o with OpWrite (Ready (Ok n)) => Z.of_nat n | _ => 0 end.

(** A sequence of requests to stop connections, and the stop channels they
    signal. *)
Inductive StopReq : Type := StopOne (uuid : Z) | StopAll.

Definition run_stop (s : ConnectionState) (r : StopReq) : ConnectionState * list Z :=
  match r with
  | StopOne u => let '(s, sig, _) := stop_connection (fun _ => true) s u in (s, match sig with Some k => [k] | None => [] end)
  | StopAll => let '(s, sigs, _) := stop_connections (fun _ => true) s in (s, sigs)
  end.

Fixpoint run_stops (s : ConnectionState) (l : list StopReq) : ConnectionState * list Z :=
  match l with
  | [] => (s, [])
  | r :: l => let '(s, k1) := run_stop s r in let '(s, k2) := run_stops s l in (s, k1 ++ k2)
  end.

(** The stop channels the manager holds. *)
Definition senders (s : ConnectionState) : list Z :=
  omap (fun kv : Z * ConnectionInfo => stop_sender kv.2) (map_to_list (connections s)).

(** ** Accounting *)

(** An interleaving of two sequences of events, each in its order: what the
    one unbounded channel of the manager delivers. *)
Inductive interleave {A} : list A -> list A -> list A -> Prop :=
| il_nil : interleave [] [] []
| il_left x l1 l2 l : interleave l1 l2 l -> interleave (x :: l1) l2 (x :: l)
| il_right x l1 l2 l : interleave l1 l2 l -> interleave l1 (x :: l2) (x :: l).

Definition wf_totals (s : ConnectionState) : Prop :=
  u64 (total_upload s) = total_upload s /\ u64 (total_download s) = total_download s.

Lemma u64_add a b : u64 (u64 a + b) = u64 (a + b).
Proof. apply Zplus_mod_idemp_l. Qed.
Lemma u64_add_r a b : u64 (a + u64 b) = u64 (a + b).
Proof. apply Zplus_mod_idemp_r. Qed.
Lemma u64_u64 a : u64 (u64 a) = u64 a.
Proof. apply Zmod_mod. Qed.

(** Traffic an event list reports. *)
Definition ev_up (e : EventType) : Z := match e with EvWrite n => n | EvSendTo _ n => n | _ => 0 end.
Definition ev_down (e : EventType) : Z := match e with EvRead n => n | EvRecvFrom _ n => n | _ => 0 end.
Definition is_traffic (e : EventType) : bool :=
  match e with EvWrite _ => true | EvSendTo _ _ => true | EvRead _ => true | EvRecvFrom _ _ => true | _ => false end.
Definition sum_of {A} (f : A -> Z) (l : list A) : Z := fold_right (fun x n => f x + n) 0 l.

Lemma sum_of_app {A} (f : A -> Z) l1 l2 : sum_of f (l1 ++ l2) = sum_of f l1 + sum_of f l2.
Proof. unfold sum_of. induction l1; cbn; [done | lia]. Qed.

(** [s1] is [s2] with one more connection [u], described by [info], and with
    [up] and [down] more bytes in the totals. *)
Record sim (u : Z) (info : option ConnectionInfo) (up down : Z) (s1 s2 : ConnectionState) : Prop := mkSim {
  sim_conns : connections s1 = match info with Some c => <[u := c]> (connections s2) | None => connections s2 end;
  sim_fresh : connections s2 !! u = None;
  sim_up : total_upload s1 = u64 (total_upload s2 + up);
  sim_down : total_download s1 = u64 (total_download s2 + down) }.

Lemma sim_refl u s : wf_totals s -> connections s !! u = None -> sim u None 0 0 s s.
Proof. intros [H1 H2] Hn. constructor; try rewrite Z.add_0_r; congruence. Qed.

Lemma sim_lookup u info up down s1 s2 v :
  v <> u -> sim u info up down s1 s2 -> connections s1 !! v = connections s2 !! v.
Proof.
  intros Hv [Hc _ _ _]. rewrite Hc. destruct info; [|done]. by rewrite lookup_insert_ne by congruence.
Qed.

Lemma sim_other u info up down s1 s2 v t e :
  v <> u -> sim u info up down s1 s2 -> sim u info up down (input_one v t s1 e) (input_one v t s2 e).
Proof.
  intros Hv Hs. pose proof (sim_lookup _ _ _ _ _ _ _ Hv Hs) as Hl. destruct Hs as [Hc Hf Hu Hd].
  assert (Hi : forall c, match info with
      | Some c0 => <[u:=c0]> (<[v:=c]> (connections s2)) | None => <[v:=c]> (connections s2) end
      = <[v:=c]> (connections s1)).
  { intros c. rewrite Hc. destruct info; [|done]. by rewrite insert_insert_ne by congruence. }
  destruct e; cbn; unfold add_upload, add_download; rewrite ?Hl;
    try (destruct (connections s2 !! v) as [c|]; cbn); try (by constructor);
    constructor; cbn; rewrite ?lookup_insert_ne, ?lookup_delete_ne, ?Hu, ?Hd, ?Hi, ?u64_add by congruence; try done;
    try (f_equal; lia).
  all: rewrite ?u64_add, ?u64_add_r, ?u64_u64; try (f_equal; lia).
  all: rewrite Hc; destruct info; [|done]; by rewrite delete_insert_ne by congruence.
Qed.

Lemma sim_event u info up down s1 s2 e :
  ev_uuid e <> u -> sim u info up down s1 s2 -> sim u info up down (input_event s1 e) (input_event s2 e).
Proof.
  intros Hv. unfold input_event. revert s1 s2. induction (ev_events e) as [|x l IH]; intros s1 s2 Hs; cbn; [done|].
  apply IH. by apply sim_other.
Qed.

Lemma sim_traffic u t c up down s1 s2 e :
  is_traffic e = true -> sim u (Some c) up down s1 s2 ->
  exists c', sim u (Some c') (up + ev_up e) (down + ev_down e) (input_one u t s1 e) s2 /\
    stop_sender c' = stop_sender c /\ u64 (upload c') = u64 (upload c + ev_up e) /\
    u64 (download c') = u64 (download c + ev_down e).
Proof.
  intros He [Hc Hf Hu Hd].
  assert (Hl : connections s1 !! u = Some c) by (rewrite Hc; apply lookup_insert_eq).
  destruct e; cbn in He |- *; try done; unfold add_upload, add_download; rewrite Hl;
    (eexists; split; [constructor; cbn; [by rewrite Hc, insert_insert_eq | done |..];
      rewrite ?Hu, ?Hd, ?u64_add, ?Z.add_0_r; f_equal; lia | cbn; rewrite ?u64_u64, ?Z.add_0_r; done]).
Qed.

Lemma sim_traffics u t es c up down s1 s2 :
  forallb is_traffic es = true -> sim u (Some c) up down s1 s2 ->
  exists c', sim u (Some c') (up + sum_of ev_up es) (down + sum_of ev_down es) (fold_left (input_one u t) es s1) s2 /\
    stop_sender c' = stop_sender c /\ u64 (upload c') = u64 (upload c + sum_of ev_up es) /\
    u64 (download c') = u64 (download c + sum_of ev_down es).
Proof.
  revert c up down s1. induction es as [|e es IH]; intros c up down s1; cbn; intros Hb Hs.
  - exists c. rewrite !Z.add_0_r. done.
  - apply andb_prop in Hb as [Hb1 Hb2].
    destruct (sim_traffic u t c up down s1 s2 e Hb1 Hs) as (c1 & Hs1 & Hst1 & Hu1 & Hd1).
    destruct (IH _ _ _ _ Hb2 Hs1) as (c2 & Hs2 & Hst2 & Hu2 & Hd2).
    exists c2. rewrite !Z.add_assoc. split; [done|]. split; [congruence|].
    split; [rewrite Hu2, <- u64_add, Hu1, u64_add | rewrite Hd2, <- u64_add, Hd1, u64_add]; done.
Qed.

Definition traffic_of (u : Z) (e : Event) : Prop := ev_uuid e = u /\ forallb is_traffic (ev_events e) = true.

(** The middle of a connection's life, interleaved with others. *)
Lemma sim_middle u mid others l :
  interleave mid others l -> Forall (traffic_of u) mid -> Forall (fun e => ev_uuid e <> u) others ->
  forall c up down s1 s2, sim u (Some c) up down s1 s2 ->
  exists c', sim u (Some c') (up + sum_of (fun e => sum_of ev_up (ev_events e)) mid)
      (down + sum_of (fun e => sum_of ev_down (ev_events e)) mid) (recv_event s1 l) (recv_event s2 others) /\
    stop_sender c' = stop_sender c /\
    u64 (upload c') = u64 (upload c + sum_of (fun e => sum_of ev_up (ev_events e)) mid) /\
    u64 (download c') = u64 (download c + sum_of (fun e => sum_of ev_down (ev_events e)) mid).
Proof.
  induction 1 as [|e mid others l Hi IH|e mid others l Hi IH]; intros Hm Ho c up down s1 s2 Hs.
  - exists c. cbn. rewrite !Z.add_0_r. done.
  - inversion_clear Hm as [|? ? [He1 He2] Hm']. cbn.
    destruct (sim_traffics u (ev_time e) (ev_events e) c up down s1 s2 He2 Hs) as (c1 & Hs1 & Hst1 & Hu1 & Hd1).
    assert (Hin : input_event s1 e = fold_left (input_one u (ev_time e)) (ev_events e) s1)
      by (unfold input_event; by rewrite He1).
    rewrite <- Hin in Hs1.
    destruct (IH Hm' Ho _ _ _ _ _ Hs1) as (c2 & Hs2 & Hst2 & Hu2 & Hd2).
    exists c2. rewrite !Z.add_assoc. split; [done|]. split; [congruence|].
    split; [rewrite Hu2, <- u64_add, Hu1, u64_add | rewrite Hd2, <- u64_add, Hd1, u64_add]; done.
  - inversion_clear Ho as [|? ? He Ho']. cbn. apply (IH Hm Ho'). by apply sim_event.
Qed.

Lemma interleave_app_l {A} (a b o l : list A) :
  interleave (a ++ b) o l -> exists o1 o2 l1 l2, o = o1 ++ o2 /\ l = l1 ++ l2 /\ interleave a o1 l1 /\ interleave b o2 l2.
Proof.
  revert a. intros a H. remember (a ++ b) as ab eqn:E. revert a b E.
  induction H as [|x l1 l2 l H IH|x l1 l2 l H IH]; intros a b E.
  - destruct a, b; try done. exists [], [], [], []. repeat split; constructor.
  - destruct a as [|y a]; cbn in E.
    + subst b. exists [], l2, [], (x :: l). repeat split; [constructor | by constructor].
    + injection E as <- ->. destruct (IH a b eq_refl) as (o1 & o2 & la & lb & -> & -> & H1 & H2).
      exists o1, o2, (x :: la), lb. repeat split; [by constructor | done].
  - destruct (IH a b E) as (o1 & o2 & la & lb & -> & -> & H1 & H2).
    exists (x :: o1), o2, (x :: la), lb. repeat split; [by constructor | done].
Qed.

Lemma sim_others u others l info up down s1 s2 :
  interleave [] others l -> Forall (fun e => ev_uuid e <> u) others ->
  sim u info up down s1 s2 -> sim u info up down (recv_event s1 l) (recv_event s2 others).
Proof.
  intros Hi. remember [] as m eqn:E. revert E s1 s2. induction Hi as [|? ? ? ? ? IH|x m o l Hi IH]; intros E s1 s2 Ho Hs.
  - done.
  - done.
  - inversion_clear Ho. cbn. apply IH; [done..|]. by apply sim_event.
Qed.

(** *** A wrapped stream's own events *)

Notation mid_up l := (sum_of (fun e => sum_of ev_up (ev_events e)) l).
Notation mid_down l := (sum_of (fun e => sum_of ev_down (ev_events e)) l).

(** What a list of events and the counters that follow it account for. *)
Definition accounts (u : Z) (c : TcpCount) (mid : list Event) (c' : TcpCount) (r w : Z) : Prop :=
  Forall (traffic_of u) mid /\ 0 <= tc_read c' /\ 0 <= tc_write c' /\
  u64 (mid_up mid + tc_write c') = u64 (tc_write c + w) /\ u64 (mid_down mid + tc_read c') = u64 (tc_read c + r).

Lemma u64_nonneg x : 0 <= u64 x.
Proof. apply Z.mod_pos_bound. lia. Qed.

Lemma flush_accounts u t c : 0 <= tc_read c -> 0 <= tc_write c ->
  accounts u c (conn_send u t (tcp_get_events c).2) (mkTcp 0 0) 0 0.
Proof.
  intros Hr Hw. unfold accounts, conn_send, tcp_get_events, sum_of. cbn [snd tc_read tc_write].
  destruct (Z.ltb_spec 0 (tc_read c)); destruct (Z.ltb_spec 0 (tc_write c)); cbn;
    (split; [repeat constructor|]); repeat split; try lia; f_equal; lia.
Qed.

Lemma accounts_trans u c1 m1 c2 m2 c3 r1 w1 r2 w2 :
  accounts u c1 m1 c2 r1 w1 -> accounts u c2 m2 c3 r2 w2 -> accounts u c1 (m1 ++ m2) c3 (r1 + r2) (w1 + w2).
Proof.
  intros (F1 & _ & _ & U1 & D1) (F2 & Hr & Hw & U2 & D2). unfold accounts. rewrite !sum_of_app.
  split; [by apply Forall_app|]. do 2 (split; [done|]).
  split; rewrite <- Z.add_assoc, <- u64_add_r; [rewrite U2 | rewrite D2]; rewrite u64_add_r, !Z.add_assoc.
  - rewrite <- u64_add, U1, u64_add. done.
  - rewrite <- u64_add, D1, u64_add. done.
Qed.

Lemma poll_accounts u t h st c : 0 <= tc_read c -> 0 <= tc_write c ->
  accounts u c (conn_poll tcp_get_events u t h st c).1.2 (conn_poll tcp_get_events u t h st c).1.1 0 0.
Proof.
  intros Hr Hw. unfold conn_poll. destruct h.
  - destruct (tcp_get_events c) as [c' l] eqn:E. cbn.
    pose proof (flush_accounts u t c Hr Hw) as H. unfold tcp_get_events in E. invc E. exact H.
  - cbn. unfold accounts. cbn. rewrite !Z.add_0_r. repeat split; [constructor | lia..].
Qed.

Lemma run_op_accounts u c o : 0 <= tc_read c -> 0 <= tc_write c ->
  accounts u c (run_op u c o).2 (run_op u c o).1 (op_read o) (op_written o).
Proof.
  intros Hr Hw. destruct o as [t h st inner|inner]; cbn.
  - unfold wrap_tcp_read. pose proof (poll_accounts u t h st c Hr Hw) as Hp.
    destruct (conn_poll tcp_get_events u t h st c) as [[c1 out] r] eqn:E. cbn in Hp.
    assert (Hres : r = if st then Err EConnectionAborted else Ok tt).
    { unfold conn_poll in E. destruct h; [destruct (tcp_get_events c)|]; by invc E. }
    subst r. destruct st; [done|]. destruct inner as [|[d|e]]; try done. cbn.
    destruct Hp as (F & Hr1 & Hw1 & HU & HD). unfold accounts. cbn. rewrite Z.add_0_r in HD.
    split; [done|]. split; [apply u64_nonneg|]. split; [done|]. split; [done|].
    rewrite u64_add_r, Z.add_assoc, <- u64_add, HD, u64_add. done.
  - destruct inner as [|[n|e]]; cbn; unfold accounts; cbn; rewrite ?Z.add_0_r;
      (split; [constructor|]); repeat split; try lia; try apply u64_nonneg. apply u64_u64.
Qed.

Lemma run_ops_accounts u ops : forall c, 0 <= tc_read c -> 0 <= tc_write c ->
  accounts u c (run_ops u c ops).2 (run_ops u c ops).1 (sum_of op_read ops) (sum_of op_written ops).
Proof.
  induction ops as [|o ops IH]; intros c Hr Hw; cbn.
  - unfold accounts. cbn. rewrite !Z.add_0_r. repeat split; [constructor | lia..].
  - pose proof (run_op_accounts u c o Hr Hw) as H1. destruct (run_op u c o) as [c1 e1]. cbn in H1.
    assert (0 <= tc_read c1 /\ 0 <= tc_write c1) as [Hr1 Hw1] by (destruct H1 as (_ & ? & ? & _); done).
    pose proof (IH c1 Hr1 Hw1) as H2. destruct (run_ops u c1 ops) as [c2 e2]. cbn in H2 |- *.
    eapply accounts_trans; eassumption.
Qed.

(** The state after [connection_new]. *)
Lemma sim_new u st t p a ctx s1 s2 : sim u None 0 0 s1 s2 ->
  exists c, sim u (Some c) 0 0 (input_event s1 (connection_new u st t p a ctx)) s2 /\
    protocol c = p /\ ci_addr c = a /\ ci_ctx c = ctx /\ start_time c = t /\
    stop_sender c = Some st /\ upload c = 0 /\ download c = 0.
Proof.
  intros [Hc Hf Hu Hd]. exists (mkInfo p a t ctx 0 0 (Some st)).
  split; [|done]. destruct p; cbn; rewrite lookup_insert_eq; cbn; constructor; cbn; rewrite ?Hc, ?insert_insert_eq; done.
Qed.

Lemma sim_close u t c up down s1 s2 : sim u (Some c) up down s1 s2 ->
  sim u None up down (input_event s1 (mkEvent u [CloseConnection] t)) s2.
Proof.
  intros [Hc Hf Hu Hd]. constructor; cbn; [|done..]. rewrite Hc. by apply delete_insert_id.
Qed.

(** Up to its last event, and with any other connections' events in between. *)
Lemma sim_life u st t p a ctx mid others l s :
  interleave (connection_new u st t p a ctx :: mid) others l -> Forall (traffic_of u) mid ->
  Forall (fun e => ev_uuid e <> u) others -> wf_totals s -> connections s !! u = None ->
  exists c, sim u (Some c) (mid_up mid) (mid_down mid) (recv_event s l) (recv_event s others) /\
    stop_sender c = Some st /\ u64 (upload c) = u64 (mid_up mid) /\ u64 (download c) = u64 (mid_down mid).
Proof.
  intros Hi Hm Ho Hw Hn. apply (interleave_app_l [_]) in Hi as (o1 & o2 & l1 & l2 & -> & -> & H1 & H2).
  apply Forall_app in Ho as [Ho1 Ho2].
  assert (exists x y z w, o1 = x ++ y /\ l1 = z ++ connection_new u st t p a ctx :: w /\ interleave [] x z /\ interleave [] y w)
    as (x & y & z & w & -> & -> & Hx & Hy).
  { clear -H1. remember [_] as m eqn:E. induction H1 as [|? ? ? ? H _|e ? ? ? H IH]; [done| |].
    - injection E as -> ->. exists [], l2, [], l. repeat split; [constructor | done].
    - destruct (IH E) as (x & y & z & w & -> & -> & Hx & Hy). exists (e :: x), y, (e :: z), w.
      repeat split; [by constructor | done]. }
  apply Forall_app in Ho1 as [Hox Hoy].
  unfold recv_event. rewrite !fold_left_app. cbn [fold_left].
  pose proof (sim_others u _ _ _ _ _ _ _ Hx Hox (sim_refl u s Hw Hn)) as S1.
  destruct (sim_new u st t p a ctx _ _ S1) as (c & S2 & _ & _ & _ & _ & Hst & Hup & Hdn).
  pose proof (sim_others u _ _ _ _ _ _ _ Hy Hoy S2) as S3.
  destruct (sim_middle u mid o2 l2 H2 Hm Ho2 _ _ _ _ _ S3) as (c' & S4 & Hst' & HU & HD).
  exists c'. rewrite !Z.add_0_l in S4. rewrite Hup, Hdn, !Z.add_0_l in *. split; [exact S4|].
  split; [congruence | done].
Qed.

Lemma sim_last u tend others l c up down s1 s2 :
  interleave [mkEvent u [CloseConnection] tend] others l -> Forall (fun e => ev_uuid e <> u) others ->
  sim u (Some c) up down s1 s2 -> sim u None up down (recv_event s1 l) (recv_event s2 others).
Proof.
  intros Hi. remember [_] as m eqn:E. revert E s1 s2.
  induction Hi as [|x m o l Hi _|x m o l Hi IH]; intros E s1 s2 Ho Hs; [done| |].
  - injection E as -> ->. cbn. apply (sim_others u o l None up down _ s2 Hi Ho). by apply (sim_close u tend c).
  - inversion_clear Ho. cbn. apply IH; [done..|]. by apply sim_event.
Qed.

Lemma omap_take_sender (m : gmap Z ConnectionInfo) :
  omap (fun kv : Z * ConnectionInfo => stop_sender kv.2) (map_to_list (take_sender <$> m)) = [].
Proof.
  rewrite map_to_list_fmap. induction (map_to_list m) as [|[k c] l IH]; [done | exact IH].
Qed.

Lemma omap_perm {A B} (f : A -> option B) l1 l2 : l1 ≡ₚ l2 -> omap f l1 ≡ₚ omap f l2.
Proof. intros H. by rewrite H. Qed.

Lemma run_stop_senders s r : (run_stop s r).2 ++ senders (run_stop s r).1 ≡ₚ senders s.
Proof.
  destruct r as [u|]; cbn.
  - unfold stop_connection. destruct (connections s !! u) as [c|] eqn:E; [|done].
    destruct (stop_sender c) as [k|] eqn:Ek; [|done]. cbn. unfold senders. cbn.
    rewrite <- insert_delete_eq.
    rewrite (omap_perm _ _ _ (map_to_list_insert _ _ _ (lookup_delete_eq (connections s) u))).
    rewrite <- (insert_id _ _ _ E) at 2. rewrite <- insert_delete_eq.
    rewrite (omap_perm _ _ _ (map_to_list_insert _ _ _ (lookup_delete_eq (connections s) u))).
    cbn. rewrite Ek. done.
  - unfold senders at 1. cbn. rewrite omap_take_sender, app_nil_r. done.
Qed.

Lemma run_stops_frame s l :
  total_upload (run_stops s l).1 = total_upload s /\ total_download (run_stops s l).1 = total_download s /\
  dom (connections (run_stops s l).1) = dom (connections s).
Proof.
  revert s. induction l as [|r l IH]; intros s; [done|]. cbn.
  assert (H : total_upload (run_stop s r).1 = total_upload s /\ total_download (run_stop s r).1 = total_download s /\
      dom (connections (run_stop s r).1) = dom (connections s)).
  { destruct r as [u|]; cbn.
    - unfold stop_connection. destruct (connections s !! u) as [c|] eqn:E; [|done].
      destruct (stop_sender c); [|done]. cbn. split; [done|]. split; [done|].
      apply dom_insert_lookup_L. by rewrite E.
    - split; [done|]. split; [done|]. apply dom_fmap_L. }
  destruct (run_stop s r) as [s1 k1]. specialize (IH s1). destruct (run_stops s1 l) as [s2 k2]. cbn in *.
  destruct IH as (-> & -> & ->). exact H.
Qed.

(** C12: The manager's accounting is exact, whatever else is going on: a
    wrapped TCP stream sends its opening event, heartbeats, and on drop its
    last counters and [CloseConnection]; however these interleave with the
    events of other connections, the manager ends in the state it would have
    reached without the stream, the connection being gone, but with the bytes
    the inner stream has written and read added to the totals (mod 2^64, as
    [fetch_add] wraps).  Bytes are neither lost nor counted twice, also when
    the stream is stopped or its reads fail. *)
Theorem tcp_life_accounted u st t tend a ctx ops others l s :
  interleave (tcp_life u st t tend a ctx ops) others l ->
  Forall (fun e => ev_uuid e <> u) others -> wf_totals s -> connections s !! u = None ->
  recv_event s l =
  mkConns (connections (recv_event s others))
    (u64 (total_upload (recv_event s others) + sum_of op_written ops))
    (u64 (total_download (recv_event s others) + sum_of op_read ops)).
Proof.
  intros Hi Ho Hw Hn. unfold tcp_life, conn_drop in Hi.
  pose proof (run_ops_accounts u ops (mkTcp 0 0) ltac:(cbn; lia) ltac:(cbn; lia)) as Ha.
  destruct (run_ops u (mkTcp 0 0) ops) as [c out]. cbn in Ha.
  assert (0 <= tc_read c /\ 0 <= tc_write c) as [Hr0 Hw0] by (destruct Ha as (_ & ? & ? & _); done).
  pose proof (accounts_trans _ _ _ _ _ _ _ _ _ _ Ha (flush_accounts u tend c Hr0 Hw0)) as (F & _ & _ & HU & HD).
  rewrite app_assoc, app_comm_cons in Hi.
  apply interleave_app_l in Hi as (o1 & o2 & l1 & l2 & -> & -> & H1 & H2).
  apply Forall_app in Ho as [Ho1 Ho2].
  destruct (sim_life u st t Tcp a ctx _ _ _ s H1 F Ho1 Hw Hn) as (ci & S1 & _).
  change (conn_send u tend [CloseConnection]) with [mkEvent u [CloseConnection] tend] in H2.
  apply (sim_last u tend o2 l2 ci _ _ _ _ H2 Ho2) in S1.
  unfold recv_event in *. rewrite !fold_left_app in *. destruct S1 as [Sc _ Su Sd].
  cbn [tc_read tc_write] in HU, HD. rewrite ?Z.add_0_r, ?Z.add_0_l in HU, HD.
  rewrite <- (u64_add_r _ (sum_of op_written ops)), <- (u64_add_r _ (sum_of op_read ops)), <- HU, <- HD, !u64_add_r.
  cbn [fst snd] in Su, Sd. rewrite <- Su, <- Sd, <- Sc. by destruct (fold_left input_event l2 _).
Qed.

(** While a wrapped TCP stream is open, the manager holds exactly one
    entry for it, with the stop channel of its opening event; the entry's
    counters plus the stream's own unsent ones are the bytes the inner stream
    has written and read, so the view lags by at most one heartbeat; and
    stopping the connection signals that channel and no other, once: a second
    request finds nothing to signal. *)
Theorem conn_live_view u st t a ctx ops others l s :
  interleave (connection_new u st t Tcp a ctx :: (run_ops u (mkTcp 0 0) ops).2) others l ->
  Forall (fun e => ev_uuid e <> u) others -> wf_totals s -> connections s !! u = None ->
  exists c, connections (recv_event s l) !! u = Some c /\ stop_sender c = Some st /\
    u64 (upload c + tc_write (run_ops u (mkTcp 0 0) ops).1) = u64 (sum_of op_written ops) /\
    u64 (download c + tc_read (run_ops u (mkTcp 0 0) ops).1) = u64 (sum_of op_read ops) /\
    forall listening, exists s1, stop_connection listening (recv_event s l) u = (s1, Some st, listening st) /\
      stop_connection listening s1 u = (s1, None, false).
Proof.
  intros Hi Ho Hw Hn.
  pose proof (run_ops_accounts u ops (mkTcp 0 0) ltac:(cbn; lia) ltac:(cbn; lia)) as Ha.
  destruct (run_ops u (mkTcp 0 0) ops) as [c out]. cbn in Ha, Hi |- *. destruct Ha as (F & _ & _ & HU & HD).
  destruct (sim_life u st t Tcp a ctx _ _ _ s Hi F Ho Hw Hn) as (ci & [Sc _ _ _] & Hst & Hup & Hdn).
  exists ci. assert (Hl : connections (recv_event s l) !! u = Some ci) by (rewrite Sc; apply lookup_insert_eq).
  split; [done|]. split; [done|]. rewrite <- u64_add, Hup, u64_add, HU. split; [done|].
  rewrite <- u64_add, Hdn, u64_add, HD. split; [done|].
  intros listening. unfold stop_connection. rewrite Hl, Hst. eexists. split; [done|].
  cbn. rewrite lookup_insert_eq. done.
Qed.

(** Every stop channel is signalled at most once: over any sequence of
    requests to stop one or all connections, the channels signalled together
    with those still held are exactly the ones held before, the traffic
    totals and the set of connections do not change, and stopping all leaves
    none. *)
Theorem stops_signal_once s l :
  (run_stops s l).2 ++ senders (run_stops s l).1 ≡ₚ senders s /\
  total_upload (run_stops s l).1 = total_upload s /\ total_download (run_stops s l).1 = total_download s /\
  dom (connections (run_stops s l).1) = dom (connections s) /\
  senders (run_stop s StopAll).1 = [].
Proof.
  split; [|split; [|split; [|split]]].
  - revert s. induction l as [|r l IH]; intros s; [done|]. cbn. pose proof (run_stop_senders s r) as H.
    destruct (run_stop s r) as [s1 k1]. specialize (IH s1). destruct (run_stops s1 l) as [s2 k2]. cbn in *.
    rewrite <- app_assoc, IH. done.
  - apply run_stops_frame.
  - apply run_stops_frame.
  - apply run_stops_frame.
  - cbn. unfold senders. cbn. by rewrite omap_take_sender.
Qed.

End Value.
Arguments EventType : clear implicits.
Arguments Event : clear implicits.
Arguments ConnectionInfo : clear implicits.
Arguments ConnectionState : clear implicits.

(** A stream that writes 5 bytes, reads 3 with a heartbeat before, is stopped
    and dropped, among the events of another connection. *)
Definition sample_ops : list TcpOp :=
  [OpWrite (Ready (Ok 5%nat)); OpRead 11 true false (Ready (Ok [1;2;3])); OpRead 12 true true Pending].
Definition sample_other : list (Event unit) :=
  [connection_new 2 20 1 Udp (ADomain [97] 53) tt; mkEvent 2 [EvSendTo (ADomain [97] 53) 40] 9].
Definition sample_channel (own : list (Event unit)) : list (Event unit) :=
  match own, sample_other with
  | x :: own, [o1; o2] => o1 :: x :: o2 :: own
  | _, _ => []
  end.

Lemma tcp_life_accounted_witness :
  recv_event conns_new (sample_channel (tcp_life 1 10 2 20 (ADomain [98] 80) tt sample_ops)) =
  mkConns (connections (recv_event conns_new sample_other)) 45 3.
Proof.
  etransitivity.
  - apply (tcp_life_accounted 1 10 2 20 (ADomain [98] 80) tt sample_ops sample_other).
    + cbv. apply il_right, il_left, il_right. repeat apply il_left. apply il_nil.
    + repeat constructor; cbv; discriminate.
    + split; reflexivity.
    + reflexivity.
  - vm_compute. reflexivity.
Defined.

Lemma conn_live_view_witness :
  exists c, connections (recv_event conns_new (sample_channel
      (connection_new 1 10 2 Tcp (ADomain [98] 80) tt :: (run_ops 1 (mkTcp 0 0) sample_ops).2))) !! 1 = Some c /\
    stop_sender c = Some 10.
Proof.
  destruct (conn_live_view 1 10 2 (ADomain [98] 80) tt sample_ops sample_other (sample_channel
      (connection_new 1 10 2 Tcp (ADomain [98] 80) tt :: (run_ops 1 (mkTcp 0 0) sample_ops).2)) conns_new)
    as (c & H1 & H2 & _).
  - cbv. apply il_right, il_left, il_right. repeat apply il_left. apply il_nil.
  - repeat constructor; cbv; discriminate.
  - split; reflexivity.
  - reflexivity.
  - exists c. split; assumption.
Defined.

End ConnMgr.
Export ConnMgr.
