(* ===== verification/Build.v ===== *)
(** * Building a configuration: [rabbit-digger/src/config.rs],
    [registry.rs], [rd-interface/src/registry.rs] and the [BuildContext] of
    [rabbit_digger.rs]

    A net or server plugin is a [Builder]: how its configuration is read from
    and written to JSON, the net references it holds with their paths, and
    how the item is built once they are resolved.  Nets that have been built
    are [Arc]s, modelled as indices into an append-only arena. *)

From S2P Require Import Prelude ConnContext.

Module Build.

(** ** [IndexMap] *)

Section IndexMap.
Context {A : Type}.

Fixpoint im_get (m : list (bytes * A)) (k : bytes) : option A :=
  match m with
  | [] => None
  | (k', v) :: m => if decide (k = k') then Some v else im_get m k
  end.

(** [insert]: an existing key keeps its place. *)
Fixpoint im_insert (m : list (bytes * A)) (k : bytes) (v : A) : list (bytes * A) :=
  match m with
  | [] => [(k, v)]
  | (k', v') :: m => if decide (k = k') then (k, v) :: m else (k', v') :: im_insert m k v
  end.

Definition im_extend (m l : list (bytes * A)) : list (bytes * A) :=
  fold_left (fun m kv => im_insert m kv.1 kv.2) l m.

Lemma im_get_insert m k v k' :
  im_get (im_insert m k v) k' = if decide (k' = k) then Some v else im_get m k'.
Proof.
  induction m as [|[k0 v0] m IH]; cbn.
  - destruct (decide (k' = k)); done.
  - destruct (decide (k = k0)) as [->|Hk]; cbn.
    + destruct (decide (k' = k0)); done.
    + rewrite IH. destruct (decide (k' = k0)) as [->|]; [|done].
      destruct (decide (k0 = k)); [congruence | done].
Qed.

Lemma im_get_extend m l k :
  NoDup l.*1 -> im_get (im_extend m l) k = match im_get l k with Some v => Some v | None => im_get m k end.
Proof.
  unfold im_extend. revert m. induction l as [|[k0 v0] l IH]; intros m Hnd; cbn; [done|].
  apply NoDup_cons in Hnd as [Hn Hnd]. rewrite IH, im_get_insert by done. cbn.
  destruct (decide (k = k0)) as [->|]; [|done].
  assert (im_get l k0 = None) as ->; [|done].
  clear -Hn. induction l as [|[k v] l IHl]; [done|]. cbn in *.
  destruct (decide (k0 = k)) as [->|]; [destruct Hn; left|]. apply IHl. intros H. apply Hn. by right.
Qed.

End IndexMap.

(** ** The configuration *)

(* src/rabbit-digger/src/config.rs:22-28 Net *)
Record Net : Type := mkNet { net_type : bytes; net_opt : Value }.

(* src/rabbit-digger/src/config.rs:33-42 Server *)
Record Server : Type := mkServer { server_type : bytes; server_opt : Value }.

(* src/rabbit-digger/src/config.rs:9-9 ConfigNet *)
Definition ConfigNet : Type := list (bytes * Net).
(* src/rabbit-digger/src/config.rs:10-10 ConfigServer *)
Definition ConfigServer : Type := list (bytes * Server).

(* src/rabbit-digger/src/config.rs:12-20 Config *)
Record Config : Type := mkConfig { cfg_id : bytes; cfg_net : ConfigNet; cfg_server : ConfigServer }.

(* src/rabbit-digger/src/config.rs:44-49 Config::merge *)
Definition merge (c other : Config) : Config :=
  mkConfig (cfg_id c) (im_extend (cfg_net c) (cfg_net other)) (im_extend (cfg_server c) (cfg_server other)).

Definition default_net (name : bytes) (opt : Value) (c : ConfigNet) : ConfigNet :=
  match im_get c name with Some _ => c | None => im_insert c name (mkNet name opt) end.

(** [local_default] is [LocalNetConfig::default()] as JSON. *)
(* src/rabbit-digger/src/config.rs:105-128 init_default_net *)
Definition init_default_net (local_default : Value) (c : ConfigNet) : ConfigNet :=
  default_net (lit "local") local_default
    (default_net (lit "blackhole") VNull (default_net (lit "noop") VNull c)).

(** [serde_json::from_value] at [config::Net]: the tag [type], the other
    entries being the options. *)
(* src/rabbit-digger/src/config.rs:22-28 Net::deserialize *)
Definition net_of_value (v : Value) : res Net :=
  match v with
  | VObj l =>
    match im_get l (lit "type") with
    | Some (VStr t) => Ok (mkNet t (VObj (List.filter (fun kv => negb (bool_decide (kv.1 = lit "type"))) l)))
    | Some _ => Err (EOther "invalid type")
    | None => Err (EOther "missing field type")
    end
  | _ => Err (EOther "invalid type")
  end.

(** ** Plugins and the registry *)

(** An [Arc<RunningNet>]. *)
Abbreviation Handle := nat (only parsing).

(** A net reference: its JSON, and the net once resolved. *)
(* src/rd-interface/src/config/resolvable.rs:11-18 Resolvable *)
Record NetRef (N : Type) : Type := mkRef { represent : Value; ref_value : option N }.
Arguments mkRef {N}.
Arguments represent {N}.
Arguments ref_value {N}.

(** The run of a builder: it ends with a result, or panics; [OutOfFuel] is
    not a behaviour of the code. *)
Inductive run (A : Type) : Type :=
| OutOfFuel
| Panic
| Done (r : res A).
Arguments OutOfFuel {A}.
Arguments Panic {A}.
Arguments Done {A} r.

Definition run_bind {A B} (x : run A) (f : A -> run B) : run B :=
  match x with
  | OutOfFuel => OutOfFuel
  | Panic => Panic
  | Done (Err e) => Done (Err e)
  | Done (Ok a) => f a
  end.

Definition run_context (c : string) {A} (x : run A) : run A :=
  match x with Done (Err e) => Done (Err (EWithContext c e)) | _ => x end.

(** A plugin whose references resolve to [H] and that builds a [T].  Its
    configuration type is what is left of it besides the references, which
    come in visiting order with their paths. *)
(* src/rd-interface/src/registry.rs:51-57 Builder *)
Record Builder (H T : Type) : Type := mkBuilder {
  from_value : Value -> res (Value * list (list bytes * Value));
  to_value : Value -> list (list bytes * Value) -> res Value;
  build : Value -> list (list bytes * Value * H) -> res T }.
Arguments mkBuilder {H T}.
Arguments from_value {H T}.
Arguments to_value {H T}.
Arguments build {H T}.

(* src/rabbit-digger/src/registry.rs:14-18 Item *)
Record Item (H T : Type) : Type := mkItem { item_id : bytes; plugin_name : bytes; resolver : Builder H T }.
Arguments mkItem {H T}.
Arguments item_id {H T}.
Arguments plugin_name {H T}.
Arguments resolver {H T}.

Section Registry.
(** [N] and [S] are the plugins' own items; a server's references resolve to
    nets wrapped with the server's name ([RunningServerNet]). *)
Context {N S : Type}.

(* src/rabbit-digger/src/rabbit_digger/running.rs:114-128 RunningServerNet *)
Record RunningServerNet : Type := mkRsn { rsn_server_name : bytes; rsn_net : Handle }.

(* src/rabbit-digger/src/registry.rs:43-46 Registry *)
Record Registry : Type := mkRegistry {
  reg_net : gmap bytes (Item Handle N);
  reg_server : gmap bytes (Item RunningServerNet S) }.

(** [rd_interface::Registry]: what one plugin crate registers. *)
(* src/rd-interface/src/registry.rs:15-18 Registry *)
Record PluginRegistry : Type := mkPlugins {
  plug_net : gmap bytes (Builder Handle N);
  plug_server : gmap bytes (Builder RunningServerNet S) }.

(* src/rabbit-digger/src/registry.rs:115-138 Registry::add_registry *)
Definition add_registry (r : Registry) (plugin : bytes) (p : PluginRegistry) : Registry :=
  mkRegistry
    (map_imap (fun id b => Some (mkItem id plugin b)) (plug_net p) ∪ reg_net r)
    (map_imap (fun id b => Some (mkItem id plugin b)) (plug_server p) ∪ reg_server r).

(* src/rabbit-digger/src/registry.rs:145-149 Registry::get_net *)
Definition registry_get_net (r : Registry) (t : bytes) : res (Item Handle N) :=
  match reg_net r !! t with Some i => Ok i | None => Err (EOther "Net type is not loaded") end.

(* src/rabbit-digger/src/registry.rs:150-154 Registry::get_server *)
Definition registry_get_server (r : Registry) (t : bytes) : res (Item RunningServerNet S) :=
  match reg_server r !! t with Some i => Ok i | None => Err (EOther "Server type is not loaded") end.

(** ** Resolving references *)

Section Visit.
(** [NetGetter]: may change the reference and the state it works on. *)
Context {St H T : Type} (getter : St -> Value -> list bytes -> run (St * Value * H)).

(* src/rd-interface/src/registry.rs:94-108 resolve_net *)
Fixpoint resolve_net (st : St) (refs : list (list bytes * Value))
    : run (St * list (list bytes * Value * H)) :=
  match refs with
  | [] => Done (Ok (st, []))
  | (path, r) :: refs =>
    run_bind (getter st r path) (fun '(st, r, h) =>
    run_bind (resolve_net st refs) (fun '(st, l) => Done (Ok (st, (path, r, h) :: l))))
  end.

(** The new options are returned with the item. *)
(* src/rd-interface/src/registry.rs:61-68 BuilderExt::build_dyn *)
Definition build_dyn (b : Builder H T) (st : St) (cfg : Value) : run (St * Value * T) :=
  match from_value b cfg with
  | Err e => Done (Err e)
  | Ok (rest, refs) =>
    run_bind (resolve_net st refs) (fun '(st, l) =>
    match to_value b rest (map fst l) with
    | Err e => Done (Err e)
    | Ok cfg =>
      match build b rest l with
      | Err e => Done (Err e)
      | Ok t => Done (Ok (st, cfg, t))
      end
    end)
  end.

(** [what] names the kind of item in the error. *)
(* src/rabbit-digger/src/registry.rs:26-40 Item::build *)
Definition item_build (what : string) (i : Item H T) (st : St) (cfg : Value) : run (St * Value * T) :=
  run_context what (build_dyn (resolver i) st cfg).

End Visit.

(* src/rabbit-digger/src/rabbit_digger.rs:595-609 Registry::build_net *)
Definition build_net {St} (reg : Registry) (getter : St -> Value -> list bytes -> run (St * Value * Handle))
    (st : St) (i : Net) : run (St * Net * N) :=
  match registry_get_net reg (net_type i) with
  | Err e => Done (Err e)
  | Ok item =>
    run_bind (run_context "Failed to build net. Please check your config." (item_build getter "Failed to build net" item st (net_opt i)))
      (fun '(st, opt, n) => Done (Ok (st, mkNet (net_type i) opt, n)))
  end.

(* src/rabbit-digger/src/rabbit_digger.rs:611-628 Registry::build_server *)
Definition build_server {St} (reg : Registry)
    (getter : St -> Value -> list bytes -> run (St * Value * RunningServerNet))
    (st : St) (i : Server) : run (St * Server * S) :=
  match registry_get_server reg (server_type i) with
  | Err e => Done (Err e)
  | Ok item =>
    run_bind (run_context "Failed to build server. Please check your config." (item_build getter "Failed to build server" item st (server_opt i)))
      (fun '(st, opt, n) => Done (Ok (st, mkServer (server_type i) opt, n)))
  end.

(** ** [BuildContext] *)

(* src/rabbit-digger/src/rabbit_digger/running.rs:26-29 RunningNet *)
Record RunningNet : Type := mkRunningNet { rn_name : bytes; rn_net : N }.

(** The configuration being built, the cache of built nets, and the arena of
    their [Arc]s. *)
(* src/rabbit-digger/src/rabbit_digger.rs:679-684 BuildContext *)
Record BuildContext : Type := mkBuild {
  bc_config : ConfigNet;
  net_cache : gmap bytes Handle;
  arena : list RunningNet }.

Definition placeholder : Net := mkNet (lit "circular reference") VNull.

(** The reference's name; an inline net goes into the configuration under a
    generated one. *)
(* src/rabbit-digger/src/rabbit_digger.rs:706-722 BuildContext::get_net *)
Definition ref_name (bc : BuildContext) (r : Value) (path : list bytes) (prefix : CompactVecString)
    : res (BuildContext * bytes) :=
  match r with
  | VStr name => Ok (bc, name)
  | net_cfg =>
    let generated := cvs_join (lit "/") (cvs_extend prefix path) in
    match net_of_value net_cfg with
    | Err e => Err e
    | Ok n => Ok (mkBuild (im_insert (bc_config bc) generated n) (net_cache bc) (arena bc), generated)
    end
  end.

(* src/rabbit-digger/src/rabbit_digger.rs:698-756 BuildContext::get_net *)
Fixpoint get_net (fuel : nat) (reg : Registry) (prefix : CompactVecString)
    (bc : BuildContext) (r : Value) (path : list bytes) : run (BuildContext * Value * Handle) :=
  match fuel with
  | O => OutOfFuel
  | Datatypes.S fuel =>
    match ref_name bc r path prefix with
    | Err e => Done (Err e)
    | Ok (bc, name) =>
      match net_cache bc !! name with
      | Some h => Done (Ok (bc, VStr name, h))
      | None =>
        match im_get (bc_config bc) name with
        | None => Done (Err (ENotFound name))
        | Some cfg =>
          let bc := mkBuild (im_insert (bc_config bc) name placeholder) (net_cache bc) (arena bc) in
          let prefix := cvs_from_iter [lit "net"; name] in
          run_bind (build_net reg (fun bc r path => get_net fuel reg prefix bc r path) bc cfg)
            (fun '(bc, cfg, n) =>
            match im_get (bc_config bc) name with
            | None => Panic (* expect("It must exist") *)
            | Some _ =>
              Done (Ok (mkBuild (im_insert (bc_config bc) name cfg)
                          (<[name := length (arena bc)]> (net_cache bc))
                          (arena bc ++ [mkRunningNet name n]),
                        VStr name, length (arena bc)))
            end)
        end
      end
    end
  end.

(* src/rabbit-digger/src/rabbit_digger.rs:757-769 BuildContext::get_server_net *)
Definition get_server_net (fuel : nat) (reg : Registry) (server_name : bytes)
    (bc : BuildContext) (r : Value) (path : list bytes) : run (BuildContext * Value * RunningServerNet) :=
  run_bind (get_net fuel reg (cvs_from_iter [lit "server"; server_name]) bc r path)
    (fun '(bc, r, h) => Done (Ok (bc, r, mkRsn server_name h))).

(* src/rabbit-digger/src/rabbit_digger.rs:46-51 ServerRuntimeStatus *)
Inductive ServerRuntimeStatus : Type := SRunning | SStopped | SError.

(** A running server holds its task and the semaphore the task closes, here
    together as the number of the task. *)
(* src/rabbit-digger/src/rabbit_digger/running.rs:332-338 State *)
Inductive RunState : Type := RIdle | RRunning (task : nat).

(* src/rabbit-digger/src/rabbit_digger/running.rs:340-347 RunningServer *)
Record RunningServer : Type := mkRunningServer {
  rs_name : bytes;
  rs_type : bytes;
  rs_server : S;
  rs_state : RunState }.

(* src/rabbit-digger/src/rabbit_digger/running.rs:363-370 RunningServer::new *)
Definition running_server_new (name type : bytes) (server : S) : RunningServer :=
  mkRunningServer name type server RIdle.

(* src/rabbit-digger/src/rabbit_digger.rs:569-575 ServerInfo *)
Record ServerInfo : Type := mkInfoS {
  si_name : bytes;
  si_running : RunningServer;
  si_config : Value;
  si_status : ServerRuntimeStatus;
  si_message : option bytes }.

(** The servers in the order of the configuration; the new configuration is
    returned.  [Ok] results go into a [BTreeMap]. *)
(* src/rabbit-digger/src/rabbit_digger.rs:642-670 Registry::build_entities *)
Fixpoint build_servers (fuel : nat) (reg : Registry) (bc : BuildContext) (l : ConfigServer)
    (servers : gmap bytes ServerInfo) : run (BuildContext * ConfigServer * gmap bytes ServerInfo) :=
  match l with
  | [] => Done (Ok (bc, [], servers))
  | (name, i) :: l =>
    run_bind (run_context "Loading server" (build_server reg (get_server_net fuel reg name) bc i))
      (fun '(bc, i, s) =>
      run_bind (build_servers fuel reg bc l
          (<[name := mkInfoS name (running_server_new name (server_type i) s) (server_opt i) SStopped None]> servers))
        (fun '(bc, l, servers) => Done (Ok (bc, (name, i) :: l, servers))))
  end.

(* src/rabbit-digger/src/rabbit_digger.rs:75-78 RunningEntities *)
Record RunningEntities : Type := mkEntities {
  re_nets : gmap bytes Handle;
  re_arena : list RunningNet;
  re_servers : gmap bytes ServerInfo }.

(* src/rabbit-digger/src/rabbit_digger.rs:631-676 Registry::build_entities *)
Definition build_entities (fuel : nat) (reg : Registry) (local_default : Value) (c : Config)
    : run (Config * RunningEntities) :=
  let bc := mkBuild (init_default_net local_default (cfg_net c)) ∅ [] in
  run_bind (build_servers fuel reg bc (cfg_server c) ∅) (fun '(bc, server, servers) =>
    Done (Ok (mkConfig (cfg_id c) (bc_config bc) server,
              mkEntities (net_cache bc) (arena bc) servers))).

(** ** Lemmas *)

Section VisitLemmas.
Context {St H T : Type} (getter : St -> Value -> list bytes -> run (St * Value * H)).

(** An invariant [I], an order [le] along which states grow, references [A]
    that may be asked for at a path, and a fact [G] about a resolved one that growth
    keeps. *)
Context (I : St -> Prop) (le : St -> St -> Prop) (A : list bytes -> Value -> Prop) (G : St -> list bytes -> Value -> Value -> H -> Prop).
Context (le_refl : forall st, le st st) (le_trans : forall a b c, le a b -> le b c -> le a c).
Context (G_mono : forall st st' p r r' h, le st st' -> G st p r r' h -> G st' p r r' h).
Context (getter_ok : forall st r path st' r' h, I st -> A path r -> getter st r path = Done (Ok (st', r', h)) ->
  I st' /\ le st st' /\ G st' path r r' h).

Definition resolved (st : St) (a : list bytes * Value) (b : list bytes * Value * H) : Prop :=
  b.1.1 = a.1 /\ G st a.1 a.2 b.1.2 b.2.

Lemma resolve_net_ok refs : forall st st' l,
  I st -> Forall (fun pr => A pr.1 pr.2) refs -> resolve_net getter st refs = Done (Ok (st', l)) ->
  I st' /\ le st st' /\ Forall2 (resolved st') refs l.
Proof.
  induction refs as [|[path r] refs IH]; intros st st' l Hi HA E; cbn in E.
  - invc E. split; [done|]. split; [apply le_refl | constructor].
  - inversion_clear HA as [|? ? HA1 HA2].
    destruct (getter st r path) as [| |[[[st1 r1] h1]|]] eqn:E1; try discriminate. cbn in E.
    destruct (getter_ok _ _ _ _ _ _ Hi HA1 E1) as (Hi1 & L1 & G1).
    destruct (resolve_net getter st1 refs) as [| |[[st2 l2]|]] eqn:E2; try discriminate. cbn in E. invc E.
    destruct (IH _ _ _ Hi1 HA2 E2) as (Hi2 & L2 & F2).
    split; [done|]. split; [by eapply le_trans|]. constructor; [|done]. split; [done|]. cbn. by eapply G_mono.
Qed.

Lemma build_dyn_ok (b : Builder H T) st cfg st' cfg' t :
  I st -> (forall rest refs, from_value b cfg = Ok (rest, refs) -> Forall (fun pr => A pr.1 pr.2) refs) ->
  build_dyn getter b st cfg = Done (Ok (st', cfg', t)) ->
  I st' /\ le st st' /\ exists rest refs l, from_value b cfg = Ok (rest, refs) /\
    Forall2 (resolved st') refs l /\ to_value b rest (map fst l) = Ok cfg' /\ build b rest l = Ok t.
Proof.
  unfold build_dyn. intros Hi HA E. destruct (from_value b cfg) as [[rest refs]|]; [|done].
  destruct (resolve_net getter st refs) as [| |[[st1 l]|]] eqn:E1; try done. cbn in E.
  destruct (to_value b rest (map fst l)) as [c|] eqn:E2; [|done].
  destruct (build b rest l) eqn:E3; [|done]. invc E.
  destruct (resolve_net_ok _ _ _ _ Hi (HA _ _ eq_refl) E1) as (Hi1 & L1 & F1).
  split; [done|]. split; [done|]. exists rest, refs, l. done.
Qed.

End VisitLemmas.

Lemma run_context_ok c {A} (x : run A) a : run_context c x = Done (Ok a) -> x = Done (Ok a).
Proof. by destruct x as [| |[]]. Qed.

(** *** Termination *)

(** What is left to build: the options of the nets not in the cache.  A
    placeholder counts for nothing. *)
Definition net_weight (n : Net) : nat :=
  if decide (net_type n = net_type placeholder) then 0%nat else vsize (net_opt n).

Fixpoint weight (cache : gmap bytes Handle) (c : ConfigNet) : nat :=
  match c with
  | [] => 0
  | (k, n) :: c => ((match cache !! k with Some _ => 0 | None => net_weight n end) + weight cache c)%nat
  end.

Definition bc_weight (bc : BuildContext) : nat := weight (net_cache bc) (bc_config bc).

Lemma weight_insert cache c k n : (weight cache (im_insert c k n) <= weight cache c + net_weight n)%nat.
Proof.
  induction c as [|[k' n'] c IH]; cbn.
  - destruct (cache !! k); lia.
  - destruct (decide (k = k')) as [->|]; cbn; [destruct (cache !! k') |]; lia.
Qed.

Lemma net_weight_placeholder : net_weight placeholder = 0%nat.
Proof. unfold net_weight. by rewrite decide_True. Qed.

Lemma weight_take cache c k n : cache !! k = None -> im_get c k = Some n ->
  (weight cache (im_insert c k placeholder) + net_weight n)%nat = weight cache c.
Proof.
  intros Hc. induction c as [|[k' n'] c IH]; cbn; [done|].
  destruct (decide (k = k')) as [->|]; cbn; intros E.
  - invc E. rewrite Hc, net_weight_placeholder. lia.
  - rewrite <- (IH E). lia.
Qed.

Lemma weight_cache cache c k h : (weight (<[k := h]> cache) c <= weight cache c)%nat.
Proof.
  induction c as [|[k' n'] c IH]; cbn; [lia|].
  destruct (decide (k' = k)) as [->|]; [rewrite lookup_insert_eq; lia|].
  rewrite lookup_insert_ne by done. lia.
Qed.

Lemma weight_done cache c k h n : (weight (<[k := h]> cache) (im_insert c k n) <= weight cache c)%nat.
Proof.
  etransitivity; [|apply (weight_cache cache c k h)].
  induction c as [|[k' n'] c IH]; cbn; [by rewrite lookup_insert_eq|].
  destruct (decide (k = k')) as [->|]; cbn; [rewrite !lookup_insert_eq; lia | lia].
Qed.

Lemma sum_filter (f : bytes * Value -> bool) l :
  (fold_right (fun kv n => vsize kv.2 + n)%nat 0%nat (List.filter f l) <=
   fold_right (fun kv n => vsize kv.2 + n)%nat 0%nat l)%nat.
Proof. induction l as [|kv l IH]; cbn; [done|]. destruct (f kv); cbn; lia. Qed.

Lemma net_of_value_weight v n : net_of_value v = Ok n -> (net_weight n <= vsize v)%nat.
Proof.
  intros E. destruct v as [| | | | |l]; try done. unfold net_of_value in E.
  destruct (im_get l (lit "type")) as [[| | |t| |]|]; try done. invc E.
  unfold net_weight. cbn [net_type net_opt]. destruct (decide _); [lia|]. cbn. apply le_n_S, sum_filter.
Qed.

(** What a reference adds to the configuration: a name adds nothing, whether
    it was written or is the default of a missing field; an inline net its
    options. *)
Definition inline_size (r : Value) : nat := match r with VStr _ => 0 | _ => vsize r end.
Definition refs_inline (refs : list (list bytes * Value)) : nat :=
  fold_right (fun pr n => inline_size pr.2 + n)%nat 0%nat refs.

Definition keys_kept (bc bc' : BuildContext) : Prop :=
  forall k, im_get (bc_config bc) k <> None -> im_get (bc_config bc') k <> None.

(** A getter that always ends, within [fuel]. *)
Definition getter_total {H} (fuel : nat) (getter : BuildContext -> Value -> list bytes -> run (BuildContext * Value * H)) : Prop :=
  forall bc r path, (bc_weight bc + inline_size r < fuel)%nat ->
  exists x, getter bc r path = Done x /\
    forall bc' r' h, x = Ok (bc', r', h) -> (bc_weight bc' <= bc_weight bc + inline_size r)%nat /\ keys_kept bc bc'.

Lemma resolve_net_total {H} fuel getter : @getter_total H fuel getter -> forall refs bc,
  (bc_weight bc + refs_inline refs < fuel)%nat ->
  exists x, resolve_net getter bc refs = Done x /\
    forall bc' l, x = Ok (bc', l) -> (bc_weight bc' <= bc_weight bc + refs_inline refs)%nat /\ keys_kept bc bc'.
Proof.
  intros Hg. induction refs as [|[path r] refs IH]; intros bc Hf; cbn.
  - eexists. split; [done|]. intros bc' l E. invc E. split; [cbn; lia | by intros k].
  - cbn in Hf. destruct (Hg bc r path) as (x & -> & Hx); [lia|]. destruct x as [[[bc1 r1] h1]|e]; cbn; [|by eexists].
    destruct (Hx _ _ _ eq_refl) as [Hw1 Hk1].
    destruct (IH bc1) as (y & -> & Hy); [unfold refs_inline in *; lia|]. destruct y as [[bc2 l2]|e]; cbn; [|by eexists].
    destruct (Hy _ _ eq_refl) as [Hw2 Hk2]. eexists. split; [done|]. intros bc' l E. invc E.
    split; [unfold refs_inline in *; cbn in *; lia|]. intros k Hk. auto.
Qed.

(** The inline nets among a plugin's references are distinct parts of its
    options; a reference by name may be a default the options do not hold. *)
Definition parses_parts {H T} (b : Builder H T) : Prop :=
  forall v rest refs, from_value b v = Ok (rest, refs) -> (refs_inline refs < vsize v)%nat.

Lemma build_dyn_total {H T} fuel getter (b : Builder H T) bc cfg :
  getter_total fuel getter -> parses_parts b -> (bc_weight bc + vsize cfg <= fuel)%nat ->
  exists x, build_dyn getter b bc cfg = Done x /\
    forall bc' cfg' t, x = Ok (bc', cfg', t) -> (bc_weight bc' <= bc_weight bc + vsize cfg)%nat /\ keys_kept bc bc'.
Proof.
  intros Hg Hb Hf. unfold build_dyn. destruct (from_value b cfg) as [[rest refs]|] eqn:E; [|by eexists].
  pose proof (Hb _ _ _ E) as Hs.
  destruct (resolve_net_total fuel getter Hg refs bc) as (x & -> & Hx); [lia|].
  destruct x as [[bc1 l]|]; cbn; [|by eexists]. destruct (Hx _ _ eq_refl) as [Hw Hk].
  destruct (to_value b rest (map fst l)); [|by eexists]. destruct (build b rest l); [|by eexists].
  eexists. split; [done|]. intros bc' cfg' t' E'. invc E'. split; [lia | done].
Qed.

Lemma run_context_total c {A} (x : res A) :
  exists y, run_context c (Done x) = Done y /\ forall a, y = Ok a -> x = Ok a.
Proof. destruct x; eexists; cbn; split; try done. Qed.

Section Total.
Context (reg : Registry).
Context (no_circular : reg_net reg !! net_type placeholder = None).
Context (net_parts : forall t i, reg_net reg !! t = Some i -> parses_parts (resolver i)).

Lemma build_net_total fuel getter bc cfg :
  getter_total fuel getter -> (bc_weight bc + net_weight cfg <= fuel)%nat ->
  exists x, build_net reg getter bc cfg = Done x /\
    forall bc' cfg' n, x = Ok (bc', cfg', n) -> (bc_weight bc' <= bc_weight bc + net_weight cfg)%nat /\ keys_kept bc bc'.
Proof.
  intros Hg Hf. unfold build_net, registry_get_net.
  destruct (reg_net reg !! net_type cfg) as [i|] eqn:Ei; [|by eexists].
  assert (Hw : net_weight cfg = vsize (net_opt cfg)).
  { unfold net_weight. destruct (decide _) as [E|]; [|done]. rewrite E, no_circular in Ei. done. }
  rewrite Hw in Hf |- *.
  destruct (build_dyn_total fuel getter (resolver i) bc (net_opt cfg) Hg (net_parts _ _ Ei) Hf) as (x & Ex & Hx).
  unfold item_build. rewrite Ex. destruct x as [[[bc1 o] n]|]; cbn; [|by eexists].
  eexists. split; [done|]. intros bc' cfg' n' E'. invc E'. by apply (Hx _ _ _ eq_refl).
Qed.

Lemma ref_name_total bc r path prefix bc' name :
  ref_name bc r path prefix = Ok (bc', name) ->
  (bc_weight bc' <= bc_weight bc + inline_size r)%nat /\ keys_kept bc bc' /\
  net_cache bc' = net_cache bc /\ arena bc' = arena bc.
Proof.
  assert (H : forall v, match net_of_value v with
      | Ok n => Ok (mkBuild (im_insert (bc_config bc) (cvs_join (lit "/") (cvs_extend prefix path)) n) (net_cache bc) (arena bc),
                    cvs_join (lit "/") (cvs_extend prefix path))
      | Err e => Err e end = Ok (bc', name) ->
      (bc_weight bc' <= bc_weight bc + vsize v)%nat /\ keys_kept bc bc' /\ net_cache bc' = net_cache bc /\ arena bc' = arena bc).
  { intros v E. destruct (net_of_value v) as [n|] eqn:En; [|done]. invc E.
    pose proof (net_of_value_weight _ _ En). unfold bc_weight. cbn [bc_config net_cache].
    pose proof (weight_insert (net_cache bc) (bc_config bc) (cvs_join (lit "/") (cvs_extend prefix path)) n).
    split; [lia|]. split; [|done]. intros k. cbn [bc_config]. rewrite im_get_insert. by destruct (decide _). }
  destruct r; unfold ref_name; try (match goal with |- context [inline_size ?v] => exact (H v) end).
  intros E. invc E. split; [cbn; lia|]. split; [by intros k|]. done.
Qed.

Lemma get_net_total fuel : forall prefix, getter_total fuel (get_net fuel reg prefix).
Proof.
  induction fuel as [|fuel IH]; intros prefix bc r path Hf; [lia|]. cbn [get_net].
  destruct (ref_name bc r path prefix) as [[bc1 name]|] eqn:Er; [|by eexists].
  destruct (ref_name_total _ _ _ _ _ _ Er) as (Hw1 & Hk1 & Hc1 & _).
  destruct (net_cache bc1 !! name) as [h|] eqn:Ec.
  { eexists. split; [done|]. intros bc' r' h' E. by invc E. }
  destruct (im_get (bc_config bc1) name) as [cfg|] eqn:Eg; [|by eexists].
  set (bc2 := mkBuild (im_insert (bc_config bc1) name placeholder) (net_cache bc1) (arena bc1)).
  pose proof (weight_take (net_cache bc1) (bc_config bc1) name cfg Ec Eg) as Ht.
  change (weight (net_cache bc1) (im_insert (bc_config bc1) name placeholder)) with (bc_weight bc2) in Ht.
  change (weight (net_cache bc1) (bc_config bc1)) with (bc_weight bc1) in Ht.
  destruct (build_net_total fuel (fun bc r path => get_net fuel reg (cvs_from_iter [lit "net"; name]) bc r path) bc2 cfg)
    as (x & -> & Hx); [apply IH | lia |].
  destruct x as [[[bc3 cfg3] n]|]; cbn; [|by eexists]. destruct (Hx _ _ _ eq_refl) as [Hw3 Hk3].
  destruct (im_get (bc_config bc3) name) as [c3|] eqn:E3.
  2: { destruct (Hk3 name); [|done]. cbn. rewrite im_get_insert. by rewrite decide_True. }
  eexists. split; [done|]. intros bc' r' h' E. invc E. split.
  - pose proof (weight_done (net_cache bc3) (bc_config bc3) name (length (arena bc3)) cfg3).
    change (weight (net_cache bc3) (bc_config bc3)) with (bc_weight bc3) in H.
    match goal with |- (?a <= _)%nat =>
      change a with (weight (<[name:=length (arena bc3)]> (net_cache bc3)) (im_insert (bc_config bc3) name cfg3)) end.
    etransitivity; [exact H | lia].
  - intros k Hk. cbn. rewrite im_get_insert. destruct (decide (k = name)); [done|].
    apply Hk3. cbn. rewrite im_get_insert, decide_False by done. by apply Hk1.
Qed.

End Total.

(** *** The nets that are built *)

(** The name [get_net] generates for an inline net found at [path]. *)
Definition generated (prefix : CompactVecString) (path : list bytes) : bytes :=
  cvs_join (lit "/") (cvs_extend prefix path).

Definition net_prefix (name : bytes) : CompactVecString := cvs_from_iter [lit "net"; name].
Definition server_prefix (name : bytes) : CompactVecString := cvs_from_iter [lit "server"; name].

(** The name of the net a reference stands for. *)
Definition ref_target (prefix : CompactVecString) (path : list bytes) (r : Value) : bytes :=
  match r with VStr name => name | _ => generated prefix path end.

(** Among the references these options hold there is, inline, the net [n],
    whose generated name is [k]. *)
Definition inline_in {H T} (b : Builder H T) (opt : Value) (prefix : CompactVecString) (k : bytes) (n : Net) : Prop :=
  exists rest refs path r, from_value b opt = Ok (rest, refs) /\ In (path, r) refs /\
    net_of_value r = Ok n /\ k = generated prefix path.

Section Graph.
Context (reg : Registry).
Context (no_circular : reg_net reg !! net_type placeholder = None).
(** The nets and the servers of the configuration. *)
Context (cn : ConfigNet) (all : ConfigServer).

(** [n] is what the configuration says of the net [k]: its entry for [k], or
    a net written inline in the options of a server or of a net that is
    itself configured so, [k] being the name generated for its place. *)
Inductive configured : bytes -> Net -> Prop :=
| conf_own k n : im_get cn k = Some n -> configured k n
| conf_inline k n : inline_net k n -> configured k n
with inline_net : bytes -> Net -> Prop :=
| inline_net_in k n i k' n' : configured k n -> reg_net reg !! net_type n = Some i ->
    inline_in (resolver i) (net_opt n) (net_prefix k) k' n' -> inline_net k' n'
| inline_server_in k s i k' n' : In (k, s) all -> reg_server reg !! server_type s = Some i ->
    inline_in (resolver i) (server_opt s) (server_prefix k) k' n' -> inline_net k' n'.

(** What a reference holds inline is configured under its generated name. *)
Definition allowed (prefix : CompactVecString) (path : list bytes) (r : Value) : Prop :=
  forall n, net_of_value r = Ok n -> inline_net (generated prefix path) n.

(** A reference resolved to the net it stands for, and now names it. *)
Definition names_net (ar : list RunningNet) (prefix : CompactVecString) (path : list bytes) (r r' : Value) (h : Handle) : Prop :=
  r' = VStr (ref_target prefix path r) /\ rn_name <$> ar !! h = Some (ref_target prefix path r).

(** [rn] was built by its plugin, from what is configured under its name, out
    of nets of [ar]; [opt] are its options with the references resolved. *)
Definition built_as (ar : list RunningNet) (rn : RunningNet) (cfg : Net) (opt : Value) : Prop :=
  configured (rn_name rn) cfg /\ exists i rest refs l, reg_net reg !! net_type cfg = Some i /\
    from_value (resolver i) (net_opt cfg) = Ok (rest, refs) /\
    Forall2 (fun a b => b.1.1 = a.1 /\ names_net ar (net_prefix (rn_name rn)) a.1 a.2 b.1.2 b.2) refs l /\
    to_value (resolver i) rest (map fst l) = Ok opt /\ build (resolver i) rest l = Ok (rn_net rn).

Definition wf_arena (ar : list RunningNet) : Prop :=
  forall h rn, ar !! h = Some rn -> exists cfg opt, built_as (firstn h ar) rn cfg opt.

(** A name in the table stands for a net of that name, and the configuration
    holds its resolved options (unless the name is also one generated for an
    inline net, met later, which then stands there). *)
Definition wf_cache (bc : BuildContext) : Prop :=
  forall name h, net_cache bc !! name = Some h -> exists rn cfg opt,
    arena bc !! h = Some rn /\ rn_name rn = name /\ built_as (firstn h (arena bc)) rn cfg opt /\
    (im_get (bc_config bc) name = Some (mkNet (net_type cfg) opt) \/
     exists n, inline_net name n /\ im_get (bc_config bc) name = Some n).

Record wf_build (bc : BuildContext) : Prop := mkWf {
  wfb_arena : wf_arena (arena bc);
  wfb_cache : wf_cache bc;
  wfb_config : forall k n, im_get (bc_config bc) k = Some n -> net_cache bc !! k = None ->
    configured k n \/ n = placeholder }.

Definition grows (bc bc' : BuildContext) : Prop := arena bc `prefix_of` arena bc'.

Lemma grows_refl bc : grows bc bc.
Proof. unfold grows. reflexivity. Qed.
Lemma grows_trans a b c : grows a b -> grows b c -> grows a c.
Proof. unfold grows. intros; by etransitivity. Qed.

Lemma names_net_mono ar ar' prefix path r r' h :
  ar `prefix_of` ar' -> names_net ar prefix path r r' h -> names_net ar' prefix path r r' h.
Proof.
  intros Hp (? & E). split; [done|].
  destruct (ar !! h) as [rn|] eqn:Eh; [|done]. by rewrite (prefix_lookup_Some _ _ _ _ Eh Hp).
Qed.

Lemma wf_cache_grow bc bc' : net_cache bc' = net_cache bc -> arena bc' = arena bc ->
  (forall name h n, net_cache bc !! name = Some h -> im_get (bc_config bc) name = Some n ->
     im_get (bc_config bc') name = Some n \/ exists n, inline_net name n /\ im_get (bc_config bc') name = Some n) ->
  wf_cache bc -> wf_cache bc'.
Proof.
  intros Ec Ea Hn Hw name h. rewrite Ec, Ea. intros Eh.
  destruct (Hw name h Eh) as (rn & cfg & opt & ? & ? & ? & Hc). exists rn, cfg, opt.
  split; [done|]. split; [done|]. split; [done|].
  destruct Hc as [E|(n & Hi & E)]; destruct (Hn name h _ Eh E) as [?|?]; eauto.
Qed.

Lemma ref_name_wf bc r path prefix bc' name :
  wf_build bc -> allowed prefix path r -> ref_name bc r path prefix = Ok (bc', name) ->
  wf_build bc' /\ arena bc' = arena bc /\ name = ref_target prefix path r.
Proof.
  intros Hw Ha E. destruct r; try (by injection E as <- <-);
    unfold ref_name in E; change (cvs_join (lit "/") (cvs_extend prefix path)) with (generated prefix path) in E;
    (match type of E with context [net_of_value ?v] => destruct (net_of_value v) as [n|] eqn:En end; [|done]);
    injection E as <- <-; (split; [|done]);
    (constructor; [apply Hw | |]).
  all: try (apply (wf_cache_grow bc); [done | done | | apply Hw]; intros k h m Eh Em; cbn; rewrite im_get_insert;
      destruct (decide (k = _)) as [->|]; [right; exists n; split; [by apply Ha | done] | by left]).
  all: intros k m; cbn; rewrite im_get_insert; destruct (decide (k = _)) as [->|];
      [intros [= <-] _; left; apply conf_inline; by apply Ha | apply (wfb_config bc Hw)].
Qed.

Lemma lookup_snoc_cases (l : list RunningNet) x h y :
  (l ++ [x]) !! h = Some y -> l !! h = Some y \/ (h = length l /\ y = x).
Proof.
  intros E. apply lookup_app_Some in E as [E|[Hge E]]; [by left|]. right.
  apply list_lookup_singleton_Some in E as [E ->]. split; [lia | done].
Qed.

(** A net that has been built is added. *)
Lemma wf_build_add bc rn cfg opt :
  wf_build bc -> built_as (arena bc) rn cfg opt ->
  wf_build (mkBuild (im_insert (bc_config bc) (rn_name rn) (mkNet (net_type cfg) opt))
              (<[rn_name rn := length (arena bc)]> (net_cache bc)) (arena bc ++ [rn])).
Proof.
  intros Hw Hb. constructor; cbn.
  - intros h x E. apply lookup_snoc_cases in E as [E|[-> ->]].
    + rewrite take_app_le by (apply lookup_lt_Some in E; lia). by apply Hw.
    + rewrite take_app_length. by exists cfg, opt.
  - intros k h. cbn. rewrite im_get_insert. destruct (decide (k = rn_name rn)) as [->|Hk].
    + rewrite lookup_insert_eq. intros [= <-]. exists rn, cfg, opt.
      rewrite lookup_app_r, Nat.sub_diag, take_app_length by done. auto.
    + rewrite lookup_insert_ne by done. intros Eh. destruct (wfb_cache bc Hw k h Eh) as (x & c & o & Ex & ?).
      exists x, c, o. rewrite take_app_le by (apply lookup_lt_Some in Ex; lia).
      split; [by apply lookup_app_l_Some | done].
  - intros k x. rewrite im_get_insert. destruct (decide (k = rn_name rn)) as [->|Hk].
    + by rewrite lookup_insert_eq.
    + rewrite lookup_insert_ne by done. apply (wfb_config bc Hw).
Qed.

Lemma allowed_refs {H T} (b : Builder H T) opt prefix :
  (forall k n, inline_in b opt prefix k n -> inline_net k n) ->
  forall rest refs, from_value b opt = Ok (rest, refs) -> Forall (fun pr => allowed prefix pr.1 pr.2) refs.
Proof.
  intros Hi rest refs E. apply List.Forall_forall. intros [path r] Hin n En. apply Hi. by exists rest, refs, path, r.
Qed.

Lemma get_net_wf fuel : forall prefix bc r path bc' r' h,
  wf_build bc -> allowed prefix path r -> get_net fuel reg prefix bc r path = Done (Ok (bc', r', h)) ->
  wf_build bc' /\ grows bc bc' /\ names_net (arena bc') prefix path r r' h.
Proof.
  induction fuel as [|fuel IH]; intros prefix bc r path bc' r' h Hw Ha E; [done|]. cbn [get_net] in E.
  destruct (ref_name bc r path prefix) as [[bc1 name]|] eqn:Er; [|done].
  destruct (ref_name_wf _ _ _ _ _ _ Hw Ha Er) as (Hw1 & Har1 & Hn). unfold grows, names_net. rewrite <- Har1, <- Hn.
  clear Er Har1 Hw Hn Ha.
  destruct (net_cache bc1 !! name) as [h1|] eqn:Ec.
  { invc E. split; [done|]. split; [done|]. split; [done|].
    destruct (wfb_cache bc' Hw1 name h Ec) as (rn & _ & _ & -> & <- & _). done. }
  destruct (im_get (bc_config bc1) name) as [cfg|] eqn:Eg; [|done].
  set (bc2 := mkBuild (im_insert (bc_config bc1) name placeholder) (net_cache bc1) (arena bc1)) in E.
  assert (Hw2 : wf_build bc2).
  { constructor; [apply Hw1 | |].
    - apply (wf_cache_grow bc1); [done | done | | apply Hw1]. intros k h' n Eh En. cbn. rewrite im_get_insert.
      destruct (decide (k = name)) as [->|]; [congruence | by left].
    - intros k n. cbn. rewrite im_get_insert.
      destruct (decide (k = name)) as [->|]; [intros [= <-]; by right | apply (wfb_config bc1 Hw1)]. }
  destruct (build_net reg _ bc2 cfg) as [| |[[[bc3 cfg3] n]|]] eqn:Eb; cbn [run_bind] in E; try done.
  destruct (im_get (bc_config bc3) name) as [c3|]; [|done]. invc E.
  unfold build_net, registry_get_net in Eb. destruct (reg_net reg !! net_type cfg) as [i|] eqn:Ei; [|done].
  assert (HP : configured name cfg).
  { destruct (wfb_config bc1 Hw1 name cfg Eg Ec) as [?| ->]; [done|]. by rewrite no_circular in Ei. }
  destruct (run_context _ _) as [| |[[[bc3' o] n']|]] eqn:Ex in Eb; cbn in Eb; try done. invc Eb.
  apply run_context_ok, run_context_ok in Ex.
  apply (build_dyn_ok _ wf_build grows (allowed (net_prefix name)) (fun bc => names_net (arena bc) (net_prefix name))) in Ex.
  - destruct Ex as (Hw3 & L3 & rest & refs & l & Ef & F & ET & EB).
    split; [|split].
    + apply (wf_build_add bc3 (mkRunningNet name n) cfg o Hw3). split; [done|]. by exists i, rest, refs, l.
    + cbn. etransitivity; [exact L3 | by eexists].
    + split; [done|]. cbn. by rewrite lookup_app_r, Nat.sub_diag.
  - apply grows_refl.
  - apply grows_trans.
  - intros a b p x y hh L. by apply names_net_mono.
  - intros st x p st' x' hh Hs Hx Eq. by apply (IH _ _ _ _ _ _ _ Hs Hx Eq).
  - done.
  - apply allowed_refs. intros k' m Hi. by apply (inline_net_in name cfg i).
Qed.

(** A server, built from its entry by its plugin out of nets wrapped with its
    name; it is stopped, and its options have the references resolved. *)
Definition server_built (ar : list RunningNet) (name : bytes) (s : Server) (si : ServerInfo) : Prop :=
  exists i rest refs l sv opt, reg_server reg !! server_type s = Some i /\
    from_value (resolver i) (server_opt s) = Ok (rest, refs) /\
    Forall2 (fun a b => b.1.1 = a.1 /\ rsn_server_name b.2 = name /\
      names_net ar (server_prefix name) a.1 a.2 b.1.2 (rsn_net b.2)) refs l /\
    to_value (resolver i) rest (map fst l) = Ok opt /\ build (resolver i) rest l = Ok sv /\
    si = mkInfoS name (running_server_new name (server_type s) sv) opt SStopped None.

(** An entry of the configuration, and of the one that is returned. *)
Definition server_resolved (ar : list RunningNet) (ni ni' : bytes * Server) : Prop :=
  ni'.1 = ni.1 /\ exists si, server_built ar ni.1 ni.2 si /\ ni'.2 = mkServer (server_type ni.2) (si_config si).

Lemma server_built_mono ar ar' name s si : ar `prefix_of` ar' -> server_built ar name s si -> server_built ar' name s si.
Proof.
  intros Hp (i & rest & refs & l & sv & opt & ? & ? & F & ?). exists i, rest, refs, l, sv, opt.
  split; [done|]. split; [done|]. split; [|done].
  eapply Forall2_impl; [exact F|]. intros a b (? & ? & ?). split; [done|]. split; [done|]. by eapply names_net_mono.
Qed.

Lemma names_net_In {B} ar prefix (f : B -> Handle) (g : B -> list bytes * Value) refs l p m :
  Forall2 (fun a b => (g b).1 = a.1 /\ names_net ar prefix a.1 a.2 (g b).2 (f b)) refs l -> In (p, VStr m) refs ->
  exists h, rn_name <$> ar !! h = Some m.
Proof.
  intros F. induction F as [|[p' r'] b refs l (_ & _ & E) F IH]; [done|].
  intros [[= -> ->]|H]; [by exists (f b) | by apply IH].
Qed.

(** Every reference by name of a server that was built is to a net. *)
Lemma server_built_names ar name s si i rest refs p m : server_built ar name s si ->
  reg_server reg !! server_type s = Some i -> from_value (resolver i) (server_opt s) = Ok (rest, refs) ->
  In (p, VStr m) refs -> exists h, rn_name <$> ar !! h = Some m.
Proof.
  intros (j & rest' & refs' & l & sv & opt & E1 & E2 & F & _) F1 F2.
  assert (j = i) as -> by congruence. assert (refs' = refs) as -> by congruence.
  apply (names_net_In _ (server_prefix name) (fun b => rsn_net b.2) fst refs l).
  eapply Forall2_impl; [exact F|]. by intros a b (? & ? & ?).
Qed.

Lemma build_server_wf fuel name s bc bc' s' sv :
  wf_build bc -> In (name, s) all ->
  build_server reg (get_server_net fuel reg name) bc s = Done (Ok (bc', s', sv)) ->
  wf_build bc' /\ grows bc bc' /\ server_type s' = server_type s /\
  server_built (arena bc') name s (mkInfoS name (running_server_new name (server_type s') sv) (server_opt s') SStopped None).
Proof.
  intros Hw Hin Ex. unfold build_server, registry_get_server in Ex.
  destruct (reg_server reg !! server_type s) as [it|] eqn:Ei; [|done].
  destruct (run_context _ _) as [| |[[[bc1' o] s1']|]] eqn:Ey in Ex; cbn [run_bind] in Ex; try done. invc Ex.
  apply run_context_ok, run_context_ok in Ey.
  apply (build_dyn_ok _ wf_build grows (allowed (server_prefix name))
    (fun bc p r r' h => rsn_server_name h = name /\ names_net (arena bc) (server_prefix name) p r r' (rsn_net h))) in Ey.
  - destruct Ey as (Hw1 & L1 & rest & refs & lr & Ef & F & ET & EB).
    split; [done|]. split; [done|]. split; [done|]. by exists it, rest, refs, lr, sv, o.
  - apply grows_refl.
  - apply grows_trans.
  - intros a b p x y hh L [? ?]. split; [done|]. by eapply names_net_mono.
  - intros st x p st' x' hh Hss Hx Eq. unfold get_server_net in Eq.
    destruct (get_net _ _ _ _ _ _) as [| |[[[bcg rg] hg]|]] eqn:Eg in Eq; cbn [run_bind] in Eq; try done. invc Eq.
    destruct (get_net_wf _ _ _ _ _ _ _ _ Hss Hx Eg) as (? & ? & ?). done.
  - done.
  - apply allowed_refs. intros k' m Hi. by apply (inline_server_in name s it).
Qed.

Lemma build_servers_wf fuel l : incl l all -> forall bc servers bc' l' servers',
  wf_build bc -> build_servers fuel reg bc l servers = Done (Ok (bc', l', servers')) ->
  wf_build bc' /\ grows bc bc' /\ Forall2 (server_resolved (arena bc')) l l' /\
  (forall name si, servers' !! name = Some si -> servers !! name = Some si \/
     exists s, In (name, s) l /\ In (name, mkServer (server_type s) (si_config si)) l' /\
       server_built (arena bc') name s si) /\
  dom servers' = dom servers ∪ list_to_set l.*1.
Proof.
  induction l as [|[name i] l IH]; intros Hal bc servers bc' l' servers' Hw E; cbn [build_servers] in E.
  - invc E. split; [done|]. split; [apply grows_refl|]. split; [constructor|]. split; [by left | set_solver].
  - apply incl_cons_inv in Hal as [Hal1 Hal2].
    destruct (run_context _ _) as [| |[[[bc1 i1] s1]|]] eqn:Ex in E; cbn [run_bind] in E; try done.
    apply run_context_ok in Ex. destruct (build_server_wf _ _ _ _ _ _ _ Hw Hal1 Ex) as (Hw1 & L1 & Et & Hb).
    set (si1 := mkInfoS _ _ _ _ _) in *.
    destruct (build_servers _ _ _ _ _) as [| |[[[bc2 l2] servers2]|]] eqn:Es in E; cbn [run_bind] in E; try done. invc E.
    destruct (IH Hal2 _ _ _ _ _ Hw1 Es) as (Hw2 & L2 & F2 & Hs2 & Hd).
    assert (Hb2 : server_built (arena bc') name i si1) by (by eapply server_built_mono).
    assert (Hi1 : i1 = mkServer (server_type i) (si_config si1)) by (rewrite <- Et; by destruct i1).
    split; [done|]. split; [by eapply grows_trans|]. split; [|split].
    + constructor; [|done]. split; [done|]. by exists si1.
    + intros k si E. destruct (Hs2 k si E) as [E'|(s & ? & ? & ?)].
      * apply lookup_insert_Some in E' as [[<- <-]|[_ E']]; [|by left]. right. exists i.
        split; [by left|]. split; [left; by rewrite Hi1 | done].
      * right. exists s. split; [by right|]. split; [by right | done].
    + rewrite Hd, dom_insert_L. clear. set_solver.
Qed.

Lemma wf_build_start : wf_build (mkBuild cn ∅ []).
Proof. constructor; [by intros h rn | by intros n h | left; by apply conf_own]. Qed.

End Graph.

(** ** Properties *)

(** Everything there is to build. *)
Definition config_weight (local_default : Value) (c : Config) : nat :=
  (weight ∅ (init_default_net local_default (cfg_net c)) +
   fold_right (fun ni n => vsize (server_opt ni.2) + n)%nat 0%nat (cfg_server c))%nat.

(** What holds of any registry: the type of the placeholder is no plugin's
    name, and inline references are parts of the options they are read from. *)
Record sane_registry (reg : Registry) : Prop := mkSane {
  sane_placeholder : reg_net reg !! net_type placeholder = None;
  sane_net : forall t i, reg_net reg !! t = Some i -> parses_parts (resolver i);
  sane_server : forall t i, reg_server reg !! t = Some i -> parses_parts (resolver i) }.

Lemma build_servers_total fuel reg l : sane_registry reg -> forall bc servers,
  (bc_weight bc + fold_right (fun ni n => vsize (server_opt ni.2) + n)%nat 0%nat l <= fuel)%nat ->
  exists x, build_servers fuel reg bc l servers = Done x.
Proof.
  intros [H1 H2 H3]. induction l as [|[name i] l IH]; intros bc servers Hf; cbn [build_servers]; [by eexists|].
  cbn in Hf. unfold build_server, registry_get_server.
  destruct (reg_server reg !! server_type i) as [it|] eqn:Ei; [|by eexists].
  assert (Hg : getter_total fuel (get_server_net fuel reg name)).
  { intros b r path Hb. unfold get_server_net.
    destruct (get_net_total reg H1 H2 fuel (cvs_from_iter [lit "server"; name]) b r path Hb) as (x & -> & Hx).
    destruct x as [[[b1 r1] h1]|]; cbn; [|by eexists]. eexists. split; [done|].
    intros b' r' h' E. invc E. by apply (Hx _ _ _ eq_refl). }
  destruct (build_dyn_total fuel _ (resolver it) bc (server_opt i) Hg (H3 _ _ Ei)) as (x & Ex & Hx); [lia|].
  unfold item_build. rewrite Ex. destruct x as [[[bc1 o] sv]|]; cbn [run_context run_bind]; [|by eexists].
  destruct (Hx _ _ _ eq_refl) as [Hw _].
  destruct (IH bc1 (<[name:=mkInfoS name (running_server_new name (server_type i) sv) o SStopped None]> servers)) as (y & Ey); [lia|].
  cbn [server_type server_opt]. rewrite Ey. destruct y as [[[? ?] ?]|]; by eexists.
Qed.

(** C25: Building a configuration always ends with a result: whatever the
    nesting of inline nets and however the nets refer to each other, by
    written names or by a plugin's default ones, with fuel beyond the size of
    the configuration [build_entities] neither runs on nor panics on a
    missing entry.  Of the plugins it takes only that the inline nets they
    read are parts of their options. *)
Theorem build_entities_total fuel reg local_default c :
  sane_registry reg -> (config_weight local_default c <= fuel)%nat ->
  exists x, build_entities fuel reg local_default c = Done x.
Proof.
  intros Hs Hf. unfold build_entities.
  destruct (build_servers_total fuel reg (cfg_server c) Hs
    (mkBuild (init_default_net local_default (cfg_net c)) ∅ []) ∅ Hf) as (x & ->).
  destruct x as [[[? ?] ?]|]; by eexists.
Qed.

(** C1: What is built is what the configuration says.  Every net was built by
    the plugin of its type from what is configured under its own name: the
    entry of that name, or the net written inline at the place the name was
    generated for.  Each of its references resolved to the net it stands for,
    one built before it, so the nets form no circle.  Every server was
    likewise built, from its own entry, seeing its nets under its own name; it
    is stopped, and there is one for each name in the configuration.  The
    name table points at nets of those names, and the configuration that is
    returned holds, for the nets built and for every server, the same type and
    the options with every reference now a name (where a name generated for an
    inline net is also another net's, either may stand). *)
Theorem build_entities_sound fuel reg local_default c c' e :
  let cn := init_default_net local_default (cfg_net c) in
  reg_net reg !! net_type placeholder = None ->
  build_entities fuel reg local_default c = Done (Ok (c', e)) ->
  wf_arena reg cn (cfg_server c) (re_arena e) /\
  wf_cache reg cn (cfg_server c) (mkBuild (cfg_net c') (re_nets e) (re_arena e)) /\
  Forall2 (server_resolved reg (re_arena e)) (cfg_server c) (cfg_server c') /\
  (forall name si, re_servers e !! name = Some si -> exists s, In (name, s) (cfg_server c) /\
     In (name, mkServer (server_type s) (si_config si)) (cfg_server c') /\ server_built reg (re_arena e) name s si) /\
  dom (re_servers e) = list_to_set (cfg_server c).*1 /\ cfg_id c' = cfg_id c.
Proof.
  intros cn Hn E. unfold build_entities in E. fold cn in E.
  destruct (build_servers _ _ _ _ _) as [| |[[[bc' l'] sv]|]] eqn:Es in E; cbn [run_bind] in E; try done. invc E.
  destruct (build_servers_wf reg Hn cn (cfg_server c) fuel _ (incl_refl _) _ _ _ _ _ (wf_build_start _ _ _) Es)
    as (Hw & _ & F & Hs & Hd).
  split; [apply Hw|]. split; [by destruct bc'; apply Hw|]. split; [done|]. split; [|split; [|done]].
  - intros name si E. by destruct (Hs name si E) as [E'|?]; [|].
  - cbn. rewrite Hd. set_solver.
Qed.

(** The nets a net of a configuration refers to by name. *)
Definition refers_to (reg : Registry) (cn : ConfigNet) (k m : bytes) : Prop :=
  exists n i rest refs p, im_get cn k = Some n /\ reg_net reg !! net_type n = Some i /\
    from_value (resolver i) (net_opt n) = Ok (rest, refs) /\ In (p, VStr m) refs.

Definition server_refers_to (reg : Registry) (c : Config) (m : bytes) : Prop :=
  exists name s i rest refs p, In (name, s) (cfg_server c) /\ reg_server reg !! server_type s = Some i /\
    from_value (resolver i) (server_opt s) = Ok (rest, refs) /\ In (p, VStr m) refs.

(** All references of a configuration are by name. *)
Definition flat (reg : Registry) (cn : ConfigNet) (c : Config) : Prop :=
  (forall k n i rest refs, im_get cn k = Some n -> reg_net reg !! net_type n = Some i ->
     from_value (resolver i) (net_opt n) = Ok (rest, refs) -> Forall (fun pr => exists m, pr.2 = VStr m) refs) /\
  (forall name s i rest refs, In (name, s) (cfg_server c) -> reg_server reg !! server_type s = Some i ->
     from_value (resolver i) (server_opt s) = Ok (rest, refs) -> Forall (fun pr => exists m, pr.2 = VStr m) refs).

(** In such a configuration there are no inline nets. *)
Lemma flat_no_inline reg cn c : flat reg cn c ->
  (forall k n, configured reg cn (cfg_server c) k n -> im_get cn k = Some n) /\
  (forall k n, inline_net reg cn (cfg_server c) k n -> False).
Proof.
  intros [Fn Fs].
  assert (H : forall H T (b : Builder H T) opt prefix k n,
    (forall rest refs, from_value b opt = Ok (rest, refs) -> Forall (fun pr => exists m, pr.2 = VStr m) refs) ->
    inline_in b opt prefix k n -> False).
  { intros H T b opt prefix k n HF (rest & refs & path & r & E & Hin & En & _).
    specialize (HF _ _ E). rewrite List.Forall_forall in HF. destruct (HF _ Hin) as [m Em]. cbn in Em. by subst r. }
  assert (Hi : forall k n, inline_net reg cn (cfg_server c) k n -> False).
  { fix IH 3. intros k n Hk. destruct Hk as [k n i k' n' Hc Ei Hin|k s i k' n' Hs Ei Hin].
    - destruct Hc as [k n Ek|k n Hk]; [|exact (IH k n Hk)].
      apply (H _ _ _ _ _ _ _ (fun rest refs => Fn k n i rest refs Ek Ei) Hin).
    - apply (H _ _ _ _ _ _ _ (fun rest refs => Fs k s i rest refs Hs Ei) Hin). }
  split; [|exact Hi]. intros k n [? ? ?|? ? Hk]; [done | by destruct (Hi _ _ Hk)].
Qed.

Lemma arena_acc reg cn c ar : flat reg cn c -> wf_arena reg cn (cfg_server c) ar ->
  forall h rn, ar !! h = Some rn -> Acc (fun m k => refers_to reg cn k m) (rn_name rn).
Proof.
  intros Hfl Hw. induction h as [h IH] using lt_wf_ind. intros rn E.
  destruct (Hw h rn E) as (cfg & opt & Hc & i & rest & refs & l & E2 & E3 & F & _).
  apply (proj1 (flat_no_inline _ _ _ Hfl)) in Hc as E1. constructor.
  intros m (n' & i' & rest' & refs' & p & F1 & F2 & F3 & F4).
  assert (n' = cfg) as -> by congruence. assert (i' = i) as -> by congruence. assert (refs' = refs) as -> by congruence.
  destruct (names_net_In _ _ snd fst refs l p m F F4) as [h' Eh].
  destruct (firstn h ar !! h') as [rn'|] eqn:El; [|done]. apply lookup_take_Some in El as [El Hlt].
  injection Eh as <-. by apply (IH h' Hlt).
Qed.

Lemma acc_no_chain {A} (R : A -> A -> Prop) x :
  Acc R x -> forall f : nat -> A, f 0%nat = x -> (forall j, R (f (Datatypes.S j)) (f j)) -> False.
Proof.
  induction 1 as [x _ IH]. intros f E H. apply (IH (f 1%nat)) with (f := fun j => f (Datatypes.S j)); [|done|].
  - rewrite <- E. apply H.
  - intros j. apply H.
Qed.


(** The default nets [noop], [blackhole] and [local] exist in every
    configuration that is built; what the user configured under those or any
    other names is kept, and in its place. *)
Theorem init_default_net_spec local_default (c : ConfigNet) k :
  im_get (init_default_net local_default c) k =
  match im_get c k with
  | Some n => Some n
  | None =>
    if bool_decide (k = lit "noop") then Some (mkNet k VNull)
    else if bool_decide (k = lit "blackhole") then Some (mkNet k VNull)
    else if bool_decide (k = lit "local") then Some (mkNet k local_default)
    else None
  end.
Proof.
  assert (H : forall name opt d, im_get (default_net name opt d) k =
      match im_get d k with Some n => Some n | None => if decide (k = name) then Some (mkNet name opt) else None end).
  { intros name opt d. unfold default_net. destruct (im_get d name) as [n|] eqn:E.
    - destruct (im_get d k) eqn:Ek; [done|]. destruct (decide (k = name)) as [->|]; [congruence | done].
    - rewrite im_get_insert. destruct (decide (k = name)) as [->|]; [by rewrite E|]. by destruct (im_get d k). }
  unfold init_default_net. rewrite !H. destruct (im_get c k); [done|].
  repeat case_bool_decide; destruct (decide (k = lit "noop")); destruct (decide (k = lit "blackhole"));
    destruct (decide (k = lit "local")); congruence.
Qed.

End Registry.

(** *** A registry with one net and one server plugin, each with a reference
    [net] that defaults to [local], and configurations over it *)

Definition sample_from_value (v : Value) : res (Value * list (list bytes * Value)) :=
  match v with
  | VObj l => Ok (VNull, [([lit "net"], match im_get l (lit "net") with Some r => r | None => VStr (lit "local") end)])
  | _ => Ok (v, [])
  end.
Definition sample_to_value (v : Value) (refs : list (list bytes * Value)) : res Value :=
  Ok (match refs with (_, r) :: _ => VObj [(lit "net", r)] | [] => v end).
Definition sample_builder {H} : Builder H (list H) := mkBuilder sample_from_value sample_to_value (fun _ l => Ok (map snd l)).

Definition sample_registry : @Registry (list nat) (list RunningServerNet) :=
  add_registry (mkRegistry ∅ ∅) (lit "sample")
    (mkPlugins {[ lit "chain" := sample_builder; lit "local" := sample_builder ]} {[ lit "srv" := sample_builder ]}).

Definition named (n : string) : Value := VObj [(lit "net", VStr (lit n))].
Definition sample_server (n : string) : ConfigServer := [(lit "s", mkServer (lit "srv") (named n))].

(** The server uses [a], which wraps an inline net over [b]; [b] names no net
    and so is over [local]. *)
Definition sample_config : Config :=
  mkConfig (lit "id")
    [(lit "a", mkNet (lit "chain") (VObj [(lit "net", VObj [(lit "type", VStr (lit "chain")); (lit "net", VStr (lit "b"))])]));
     (lit "b", mkNet (lit "chain") (VObj []))]
    (sample_server "a").

(** [a] and [b] refer to each other. *)
Definition circular_config : Config :=
  mkConfig (lit "id") [(lit "a", mkNet (lit "chain") (named "b")); (lit "b", mkNet (lit "chain") (named "a"))]
    (sample_server "a").

Lemma sample_parses_parts H : parses_parts (@sample_builder H).
Proof.
  intros v rest refs E. destruct v as [| | | | |l]; try (injection E as _ <-; cbn; lia).
  injection E as _ <-. unfold refs_inline. cbn [fold_right snd].
  assert (Hs : forall k, (match im_get l k with Some r => inline_size r | None => 0 end
      <= fold_right (fun kv n => vsize kv.2 + n)%nat 0%nat l)%nat).
  { intros k. induction l as [|[k' v'] l IH]; [done|]. cbn. destruct (decide (k = k')); [|lia].
    destruct v'; cbn; lia. }
  specialize (Hs (lit "net")). cbn [vsize]. destruct (im_get l (lit "net")); cbn [inline_size] in *; lia.
Qed.

Lemma sample_net t i : reg_net sample_registry !! t = Some i -> resolver i = sample_builder.
Proof.
  unfold sample_registry, add_registry. cbn [reg_net plug_net]. intros E.
  apply lookup_union_Some_raw in E as [E|[_ E]]; [|by rewrite lookup_empty in E].
  rewrite map_lookup_imap in E. apply bind_Some in E as (b & Eb & E). injection E as <-. cbn [resolver].
  apply lookup_insert_Some in Eb as [[_ <-]|[_ Eb]]; [done|].
  by apply lookup_singleton_Some in Eb as [_ <-].
Qed.

Lemma sample_srv t i : reg_server sample_registry !! t = Some i -> resolver i = sample_builder.
Proof.
  unfold sample_registry, add_registry. cbn [reg_server plug_server]. intros E.
  apply lookup_union_Some_raw in E as [E|[_ E]]; [|by rewrite lookup_empty in E].
  rewrite map_lookup_imap in E. apply bind_Some in E as (b & Eb & E). injection E as <-. cbn [resolver].
  by apply lookup_singleton_Some in Eb as [_ <-].
Qed.

Lemma sample_registry_sane : sane_registry sample_registry.
Proof.
  constructor.
  - vm_compute. reflexivity.
  - intros t i E. rewrite (sample_net t i E). apply sample_parses_parts.
  - intros t i E. rewrite (sample_srv t i E). apply sample_parses_parts.
Qed.

Lemma build_entities_total_witness : exists x, build_entities 30 sample_registry VNull sample_config = Done x.
Proof. apply build_entities_total; [exact sample_registry_sane | vm_compute; lia]. Defined.

Lemma build_entities_sound_witness : exists c' e,
  build_entities 30 sample_registry VNull sample_config = Done (Ok (c', e)) /\
  wf_arena sample_registry (init_default_net VNull (cfg_net sample_config)) (cfg_server sample_config) (re_arena e) /\
  map rn_name (re_arena e) = [lit "local"; lit "b"; lit "net/a/net"; lit "a"].
Proof.
  eexists _, _. split; [vm_compute; reflexivity|]. split; [|reflexivity].
  eapply (build_entities_sound 30 sample_registry VNull sample_config).
  - exact (sane_placeholder _ sample_registry_sane).
  - vm_compute. reflexivity.
Defined.


End Build.
Export Build.
