(* ===== verification/ConfigVisit.v ===== *)
(** * Configurations of plugins: [rd-interface/src/config.rs],
    [config/resolvable.rs], [registry.rs], and the code [rd-derive] generates

    A plugin's configuration is visited for the nets it refers to.  [Build]
    takes a plugin as a [Builder], which names its references by itself; here
    is how they are found and resolved, and that this is such a [Builder]. *)

From S2P Require Import Prelude ConnContext Build.

Module ConfigVisit.

Section Conf.
(** What a reference is resolved to. *)
Context {H : Type}.
#[local] Abbreviation NetRef := (@NetRef H).

(** Sequences and options, maps, and what [rd-derive] makes of structs and of
    the variants of enums. *)
Inductive Kind : Type := KSeq | KMap | KStruct | KVariant (name : bytes).

(** A configuration, with the names its parts are visited under. *)
(* src/rd-interface/src/config.rs:86-88 Config (trait) *)
Inductive Conf : Type :=
| Empty (v : Value)
| Ref (r : NetRef)
| Node (k : Kind) (l : list (bytes * Conf))
| Pair (a b : Conf).

Section Ind.
Context (P : Conf -> Prop) (HE : forall v, P (Empty v)) (HR : forall r, P (Ref r))
  (HN : forall k l, Forall (fun x => P x.2) l -> P (Node k l)) (HP : forall a b, P (Pair a b)).
Fixpoint Conf_nested_ind (c : Conf) : P c :=
  match c with
  | Empty v => HE v
  | Ref r => HR r
  | Node k l => HN k l ((fix go (l : list (bytes * Conf)) : Forall (fun x => P x.2) l :=
      match l with [] => Forall_nil_2 _ | x :: l => Forall_cons_2 _ _ _ (Conf_nested_ind x.2) (go l) end) l)
  | Pair a b => HP a b
  end.
End Ind.

(* src/rd-interface/src/config.rs:116-130 impl_container_config (macro) *)
Definition container (l : list Conf) : Conf := Node KSeq (imap (fun key i => (show_uint (Z.of_nat key), i)) l).
(* src/rd-interface/src/config.rs:131-145 impl_key_container_config (macro) *)
Definition key_container (l : list (bytes * Conf)) : Conf := Node KMap l.
(* src/rd-derive/src/lib.rs:29-37 MyFieldReceiver::to_token *)
Definition struct_ (fields : list (bytes * Conf)) : Conf := Node KStruct fields.
(** The fields of a tuple-like variant are [i0], [i1], ... *)
(* src/rd-derive/src/lib.rs:41-106 RDConfigReceiver::call_all *)
Definition variant (name : bytes) (fields : list (bytes * Conf) + list Conf) : Conf :=
  Node (KVariant name)
    match fields with
    | inl fields => fields
    | inr fields => imap (fun i c => (lit "i" ++ show_uint (Z.of_nat i), c)) fields
    end.

(** ** Visiting *)

Section Visit.
Context {St : Type} (visit_net_ref : St -> VisitorContext -> NetRef -> run (St * NetRef)).

(* src/rd-interface/src/config.rs:90-163 Config::visit (impls) *)
Fixpoint visit (c : Conf) (st : St) (ctx : VisitorContext) : run (St * VisitorContext * Conf) :=
  match c with
  | Empty v => Done (Ok (st, ctx, Empty v))
  | Ref r => run_bind (visit_net_ref st ctx r) (fun '(st, r) => Done (Ok (st, ctx, Ref r)))
  | Node k l =>
    run_bind ((fix visit_all (l : list (bytes * Conf)) (st : St) (ctx : VisitorContext) : run (St * VisitorContext * list (bytes * Conf)) :=
      match l with
      | [] => Done (Ok (st, ctx, []))
      | (key, i) :: l =>
        run_bind (visit i st (cvs_push ctx key)) (fun '(st, ctx, i) =>
        run_bind (visit_all l st (cvs_pop ctx)) (fun '(st, ctx, l) => Done (Ok (st, ctx, (key, i) :: l))))
      end) l st ctx) (fun '(st, ctx, l) => Done (Ok (st, ctx, Node k l)))
  | Pair a b => Done (Ok (st, ctx, Pair a b))
  end.
End Visit.

(** ** References *)

(** What is visited, in that order, with its path. *)
Fixpoint refs (path : list bytes) (c : Conf) : list (list bytes * NetRef) :=
  match c with
  | Empty _ | Pair _ _ => []
  | Ref r => [(path, r)]
  | Node _ l => concat (map (fun x => refs (path ++ [x.1]) x.2) l)
  end.

(** The references of the list in place of those of the configuration. *)
Fixpoint fill (c : Conf) (l : list NetRef) : Conf * list NetRef :=
  match c with
  | Empty _ | Pair _ _ => (c, l)
  | Ref r => match l with [] => (Ref r, []) | r :: l => (Ref r, l) end
  | Node k fields =>
    let '(fields, l) := (fix fill_all (fields : list (bytes * Conf)) (l : list NetRef) : list (bytes * Conf) * list NetRef :=
      match fields with
      | [] => ([], l)
      | (key, i) :: fields => let '(i, l) := fill i l in let '(fields, l) := fill_all fields l in ((key, i) :: fields, l)
      end) fields l in
    (Node k fields, l)
  end.

(* src/rd-interface/src/config/resolvable.rs:36-41 Resolvable::new *)
Definition ref_new (represent : Value) : NetRef := mkRef represent None.

(** [None] is the panic of [expect]. *)
(* src/rd-interface/src/config/resolvable.rs:69-71 Resolvable::value_cloned *)
Definition value_cloned (r : NetRef) : option H := ref_value r.

Section Resolve.
Context {St T : Type} (getter : St -> Value -> list bytes -> run (St * Value * H)).

(* src/rd-interface/src/registry.rs:98-102 ResolveNetVisitor::visit_net_ref *)
Definition resolve_net_visitor (st : St) (ctx : VisitorContext) (net_ref : NetRef) : run (St * NetRef) :=
  run_bind (getter st (represent net_ref) (cvs_iter ctx)) (fun '(st, r, net) => Done (Ok (st, mkRef r (Some net)))).

(* src/rd-interface/src/registry.rs:94-108 resolve_net *)
Definition resolve_conf (st : St) (config : Conf) : run (St * Conf) :=
  run_bind (visit resolve_net_visitor config st cvs_new) (fun '(st, _, config) => Done (Ok (st, config))).

(** [from_value] and [to_value] are serde's, [make] is the plugin's own. *)
Context (from_value : Value -> res Conf) (to_value : Conf -> res Value) (make : Conf -> res T).

(* src/rd-interface/src/registry.rs:61-68 BuilderExt::build_dyn *)
Definition build_dyn_conf (st : St) (cfg : Value) : run (St * Value * T) :=
  match from_value cfg with
  | Err e => Done (Err e)
  | Ok config =>
    run_bind (resolve_conf st config) (fun '(st, config) =>
    match to_value config with
    | Err e => Done (Err e)
    | Ok cfg => match make config with Err e => Done (Err e) | Ok t => Done (Ok (st, cfg, t)) end
    end)
  end.

(** The plugin as [Build] takes it: what is left of its configuration is the
    JSON it is read from. *)
Definition builder_of : Builder H T :=
  mkBuilder
    (fun v => c ← from_value v; Ok (v, map (fun x => (x.1, represent x.2)) (refs [] c)))
    (fun v l => c ← from_value v; to_value (fill c (map (fun x => ref_new x.2) l)).1)
    (fun v l => c ← from_value v; make (fill c (map (fun x => mkRef x.1.2 (Some x.2)) l)).1).
End Resolve.

(** ** Facts *)

Lemma run_bind_assoc {A B C} (x : run A) (f : A -> run B) (g : B -> run C) :
  run_bind (run_bind x f) g = run_bind x (fun a => run_bind (f a) g).
Proof. by destruct x as [| |[a|e]]. Qed.

Lemma run_bind_ext {A B} (x : run A) (f g : A -> run B) : (forall a, x = Done (Ok a) -> f a = g a) -> run_bind x f = run_bind x g.
Proof. intros E. destruct x as [| |[a|e]]; try done. by apply E. Qed.

Section ResolveFacts.
Context {St T : Type} (getter : St -> Value -> list bytes -> run (St * Value * H)).

Lemma resolve_net_app a b : forall st, Build.resolve_net getter st (a ++ b) =
  run_bind (Build.resolve_net getter st a) (fun '(st, la) => run_bind (Build.resolve_net getter st b) (fun '(st, lb) => Done (Ok (st, la ++ lb)))).
Proof.
  induction a as [|[path r] a IH]; intros st; cbn [app Build.resolve_net].
  - cbn. by destruct (Build.resolve_net getter st b) as [| |[[]|]].
  - rewrite run_bind_assoc. apply run_bind_ext. intros [[st1 r1] h] _. rewrite IH, !run_bind_assoc. apply run_bind_ext. intros [st2 la] _.
    cbn [run_bind]. rewrite run_bind_assoc. apply run_bind_ext. by intros [st3 lb] _.
Qed.

Lemma resolve_net_keeps l : forall st st' l', Build.resolve_net getter st l = Done (Ok (st', l')) -> map (fun x => x.1.1) l' = map fst l.
Proof.
  induction l as [|[path r] l IH]; intros st st' l' E; cbn [Build.resolve_net] in E; [by injection E as _ <-|].
  destruct (getter st r path) as [| |[[[st1 r1] h]|e]]; try done. cbn [run_bind] in E.
  destruct (Build.resolve_net getter st1 l) as [| |[[st2 l2]|e]] eqn:E2; try done. cbn [run_bind] in E. injection E as _ <-. cbn. by rewrite (IH _ _ _ E2).
Qed.

(** A reference as it is after it was resolved. *)
Definition to_ref (x : list bytes * Value * H) : NetRef := mkRef x.1.2 (Some x.2).
Definition asked (x : list bytes * NetRef) : list bytes * Value := (x.1, represent x.2).

Definition fill_all : list (bytes * Conf) -> list NetRef -> list (bytes * Conf) * list NetRef :=
  fix fill_all fields l :=
    match fields with
    | [] => ([], l)
    | (key, i) :: fields => let '(i, l) := fill i l in let '(fields, l) := fill_all fields l in ((key, i) :: fields, l)
    end.

Lemma fill_node k fields l : fill (Node k fields) l = (Node k (fill_all fields l).1, (fill_all fields l).2).
Proof. cbn [fill]. fold fill_all. by destruct (fill_all fields l). Qed.

(** Just as many as there are references are used. *)
Lemma fill_app c : forall path l rest, length l = length (refs path c) -> fill c (l ++ rest) = ((fill c l).1, rest) /\ (fill c l).2 = [].
Proof.
  induction c as [v|r|k fields IH|a b] using Conf_nested_ind; intros path l rest E; cbn in E.
  - by destruct l.
  - destruct l as [|x [|? ?]]; try done.
  - rewrite !fill_node. cbn [fst snd].
    assert (G : forall l rest, length l = length (concat (map (fun x => refs (path ++ [x.1]) x.2) fields)) ->
      fill_all fields (l ++ rest) = ((fill_all fields l).1, rest) /\ (fill_all fields l).2 = []).
    { clear l rest E. induction IH as [|[key i] fields Hi _ IHf]; intros l rest E; cbn in E; [by destruct l|].
      rewrite length_app in E. cbn [fill_all]. fold fill_all. cbn [fst snd] in *. set (n := length (refs (path ++ [key]) i)) in *.
      assert (En : length (take n l) = n) by (rewrite length_take; lia).
      rewrite <- (take_drop n l), <- app_assoc. destruct (Hi (path ++ [key]) (take n l) (drop n l ++ rest) En) as [-> Hn].
      destruct (Hi (path ++ [key]) (take n l) (drop n l) En) as [-> _].
      destruct (IHf (drop n l) rest ltac:(rewrite length_drop; lia)) as [-> Hd]. by destruct (fill_all fields (drop n l)). }
    destruct (G l rest E) as [-> Hn]. done.
  - by destruct l.
Qed.

Definition visit_all (v : St -> VisitorContext -> NetRef -> run (St * NetRef)) :
    list (bytes * Conf) -> St -> VisitorContext -> run (St * VisitorContext * list (bytes * Conf)) :=
  fix visit_all l st ctx :=
    match l with
    | [] => Done (Ok (st, ctx, []))
    | (key, i) :: l =>
      run_bind (visit v i st (cvs_push ctx key)) (fun '(st, ctx, i) =>
      run_bind (visit_all l st (cvs_pop ctx)) (fun '(st, ctx, l) => Done (Ok (st, ctx, (key, i) :: l))))
    end.

Lemma visit_node v k l st ctx : visit v (Node k l) st ctx = run_bind (visit_all v l st ctx) (fun '(st, ctx, l) => Done (Ok (st, ctx, Node k l))).
Proof. done. Qed.

Lemma visit_resolves c : forall st path, visit (resolve_net_visitor getter) c st (cvs_of path) =
  run_bind (Build.resolve_net getter st (map asked (refs path c))) (fun '(st, l) => Done (Ok (st, cvs_of path, (fill c (map to_ref l)).1))).
Proof.
  induction c as [v|r|k fields IH|a b] using Conf_nested_ind; intros st path; [done| | |done].
  - cbn [visit refs map asked Build.resolve_net fst snd]. unfold resolve_net_visitor. rewrite cvs_iter_of, !run_bind_assoc.
    apply run_bind_ext. by intros [[st1 v] h] _.
  - rewrite visit_node. cbn [refs]. set (go := visit_all (resolve_net_visitor getter)).
    assert (G : forall st, go fields st (cvs_of path) =
      run_bind (Build.resolve_net getter st (map asked (concat (map (fun x => refs (path ++ [x.1]) x.2) fields))))
        (fun '(st, l) => Done (Ok (st, cvs_of path, (fill_all fields (map to_ref l)).1)))).
    { clear st. induction IH as [|[key i] fields Hi _ IHf]; intros st; [done|]. unfold go. cbn [visit_all map concat fst snd]. fold go.
      cbn [fst snd] in Hi. rewrite cvs_push_of, Hi, map_app, resolve_net_app, !run_bind_assoc. apply run_bind_ext. intros [st1 la] Ea. cbn [run_bind].
      rewrite cvs_pop_of, removelast_last, IHf, !run_bind_assoc. apply run_bind_ext. intros [st2 lb] Eb. cbn [run_bind].
      cbn [fill_all]. fold fill_all. rewrite map_app.
      assert (En : length (map to_ref la) = length (refs (path ++ [key]) i)).
      { apply resolve_net_keeps in Ea. apply (f_equal length) in Ea. rewrite !length_map in Ea. by rewrite length_map. }
      destruct (fill_app i (path ++ [key]) (map to_ref la) (map to_ref lb) En) as [-> _]. by destruct (fill_all fields (map to_ref lb)). }
    rewrite G, run_bind_assoc. apply run_bind_ext. intros [st1 l] _. cbn [run_bind]. by rewrite fill_node.
Qed.

Lemma refs_fill c : forall path l, length l = length (refs path c) -> refs path (fill c l).1 = zip (map fst (refs path c)) l.
Proof.
  induction c as [v|r|k fields IH|a b] using Conf_nested_ind; intros path l E; cbn in E.
  - by destruct l.
  - by destruct l as [|x [|? ?]].
  - rewrite fill_node. cbn [fst refs]. revert l E. induction IH as [|[key i] fields Hi _ IHf]; intros l E; [by destruct l|].
    cbn [map concat fst snd] in E. rewrite length_app in E. cbn [fill_all]. fold fill_all. cbn [fst snd] in *. set (n := length (refs (path ++ [key]) i)) in *.
    assert (En : length (take n l) = n) by (rewrite length_take; lia). rewrite <- (take_drop n l) at 1.
    destruct (fill_app i (path ++ [key]) (take n l) (drop n l) En) as [-> _]. specialize (IHf (drop n l) ltac:(rewrite length_drop; lia)).
    destruct (fill_all fields (drop n l)) as [fields' rest]. cbn [map concat fst snd] in *. rewrite (Hi _ _ En), IHf, map_app.
    rewrite <- (take_drop n l) at 3. rewrite zip_with_app; [done|]. by rewrite length_map, En.
  - by destruct l.
Qed.

(** Resolving a configuration asks for each of its references once, in the
    order of its fields, with the path of the field, and ends with the first
    that fails; the plugin then finds every reference it can see resolved to
    the answer, and the rest of the configuration is as it was. *)
Theorem config_resolved st c :
  resolve_conf getter st c =
    run_bind (Build.resolve_net getter st (map asked (refs [] c))) (fun '(st, l) => Done (Ok (st, (fill c (map to_ref l)).1))) /\
  forall st' l, Build.resolve_net getter st (map asked (refs [] c)) = Done (Ok (st', l)) ->
    refs [] (fill c (map to_ref l)).1 = map (fun x => (x.1.1, to_ref x)) l /\
    Forall (fun x => is_Some (value_cloned x.2)) (refs [] (fill c (map to_ref l)).1) /\
    map fst (refs [] (fill c (map to_ref l)).1) = map fst (refs [] c).
Proof.
  split.
  - unfold resolve_conf. change cvs_new with (cvs_of []). rewrite visit_resolves, run_bind_assoc. apply run_bind_ext. by intros [st1 l] _.
  - intros st' l E. apply resolve_net_keeps in E. rewrite map_map in E. change (map (fun x => fst (asked x)) (refs [] c)) with (map fst (refs [] c)) in E.
    assert (En : length (map to_ref l) = length (refs [] c)) by (apply (f_equal length) in E; rewrite !length_map in E; by rewrite length_map).
    assert (Er : refs [] (fill c (map to_ref l)).1 = map (fun x => (x.1.1, to_ref x)) l).
    { rewrite refs_fill by done. rewrite <- E. clear. induction l as [|x l IH]; [done|]. cbn. by rewrite IH. }
    split; [done|]. split.
    + rewrite Er. clear. induction l as [|x l IH]; [constructor|]. constructor; [by eexists|done].
    + rewrite Er, <- E, map_map. done.
Qed.

(** The references as they are written. *)
Fixpoint blank (c : Conf) : Conf :=
  match c with
  | Empty v => Empty v
  | Ref r => Ref (ref_new (represent r))
  | Node k l => Node k (map (fun x => (x.1, blank x.2)) l)
  | Pair a b => Pair (blank a) (blank b)
  end.

Definition written_alike (r r' : NetRef) : Prop := represent r = represent r'.

Lemma fill_blank c : forall l l', Forall2 written_alike l l' ->
  blank (fill c l).1 = blank (fill c l').1 /\ Forall2 written_alike (fill c l).2 (fill c l').2.
Proof.
  induction c as [v|r|k fields IH|a b] using Conf_nested_ind; intros l l' F; [by split| | |by split].
  - destruct F as [|x x' l l' E F]; [by split|]. cbn. by rewrite E.
  - rewrite !fill_node. cbn [fst snd blank]. assert (G : map (fun x => (x.1, blank x.2)) (fill_all fields l).1 = map (fun x => (x.1, blank x.2)) (fill_all fields l').1 /\
      Forall2 written_alike (fill_all fields l).2 (fill_all fields l').2).
    { revert l l' F. induction IH as [|[key i] fields Hi _ IHf]; intros l l' F; [by split|]. cbn [fill_all]. fold fill_all.
      destruct (Hi l l' F) as [E1 F1]. cbn [snd] in *. destruct (fill i l) as [i1 l1], (fill i l') as [i1' l1']. cbn [fst snd] in *.
      destruct (IHf l1 l1' F1) as [E2 F2]. destruct (fill_all fields l1), (fill_all fields l1'). cbn [fst snd map] in *. by rewrite E1, E2. }
    destruct G as [-> G]. by split.
Qed.

(** C26: A plugin whose configuration is written as serde writes it, which does not
    show what references were resolved to, is a [Builder]: what is proved of
    building nets and servers from [Builder]s holds of it. *)
Theorem plugin_is_builder (from_value : Value -> res Conf) (to_value : Conf -> res Value) (make : Conf -> res T) st cfg :
  (forall c c', blank c = blank c' -> to_value c = to_value c') ->
  build_dyn_conf getter from_value to_value make st cfg = build_dyn getter (builder_of from_value to_value make) st cfg.
Proof.
  intros Hw. unfold build_dyn_conf, build_dyn, builder_of. cbn [Build.from_value Build.to_value Build.build].
  destruct (from_value cfg) as [c|e] eqn:Ev; cbn [mbind res_bind]; [|done].
  rewrite (proj1 (config_resolved st c)), run_bind_assoc. fold (map asked (refs [] c)). apply run_bind_ext. intros [st1 l] El. cbn [run_bind].
  assert (E : to_value (fill c (map to_ref l)).1 = to_value (fill c (map (fun x => ref_new x.2) (map fst l))).1).
  { apply Hw, fill_blank. rewrite map_map. clear. induction l; cbn; by constructor. }
  rewrite Ev. cbn [mbind res_bind]. rewrite <- E. by destruct (to_value (fill c (map to_ref l)).1).
Qed.

(** A reference inside of a pair is not visited: it stays without a value,
    and the plugin that uses it panics. *)
Lemma pair_not_resolved st r c : resolve_conf getter st (Pair (Ref (ref_new r)) c) = Done (Ok (st, Pair (Ref (ref_new r)) c)) /\
  value_cloned (ref_new r) = None.
Proof. done. Qed.

End ResolveFacts.
End Conf.

(** ** A sample *)

(** A net that refers to two others, and lists a third. *)
Definition sample_from (v : Value) : res (@Conf nat) :=
  match v with
  | VArr [a; b; c] => Ok (struct_ [(lit "net", Ref (ref_new a)); (lit "more", container [Ref (ref_new b)]);
      (lit "mode", variant (lit "Tcp") (inr [Empty (VNum 1); Ref (ref_new c)]))])
  | _ => Err (EOther "invalid type")
  end.
Definition sample_to (c : @Conf nat) : res Value := Ok (VArr (map (fun x => represent x.2) (refs [] (blank c)))).
Definition sample_make (c : @Conf nat) : res (list (option nat)) := Ok (map (fun x => value_cloned x.2) (refs [] c)).
(** The getter keeps the paths, and answers with their number. *)
Definition sample_getter (st : list (list bytes)) (r : Value) (path : list bytes) : run (list (list bytes) * Value * nat) :=
  Done (Ok (st ++ [path], r, length st)).

Example sample_paths : build_dyn_conf sample_getter sample_from sample_to sample_make [] (VArr [VStr (lit "a"); VStr (lit "b"); VStr (lit "c")]) =
  Done (Ok ([[lit "net"]; [lit "more"; lit "0"]; [lit "mode"; lit "i1"]], VArr [VStr (lit "a"); VStr (lit "b"); VStr (lit "c")], [Some 0%nat; Some 1%nat; Some 2%nat])).
Proof. vm_compute. reflexivity. Qed.

Lemma plugin_is_builder_witness :
  build_dyn sample_getter (builder_of sample_from sample_to sample_make) [] (VArr [VStr (lit "a"); VStr (lit "b"); VStr (lit "c")]) =
  Done (Ok ([[lit "net"]; [lit "more"; lit "0"]; [lit "mode"; lit "i1"]], VArr [VStr (lit "a"); VStr (lit "b"); VStr (lit "c")], [Some 0%nat; Some 1%nat; Some 2%nat])).
Proof.
  rewrite <- (plugin_is_builder sample_getter sample_from sample_to sample_make []); [vm_compute; reflexivity|].
  intros c c' E. unfold sample_to. rewrite E. reflexivity.
Defined.

Lemma config_resolved_witness : exists st' l, resolve_conf sample_getter [] (container [Ref (ref_new VNull); Ref (ref_new (VNum 1))]) = Done (Ok (st', l)) /\
  map fst (refs [] l) = [[lit "0"]; [lit "1"]] /\ Forall (fun x => is_Some (value_cloned x.2)) (refs [] l).
Proof.
  destruct (config_resolved sample_getter [] (container [Ref (ref_new VNull); Ref (ref_new (VNum 1))])) as [E F].
  eexists _, _. rewrite E. split; [vm_compute; reflexivity|]. destruct (F _ _ ltac:(vm_compute; reflexivity)) as (_ & F1 & F2).
  split; [exact F2|exact F1].
Defined.

End ConfigVisit.
