(* ===== verification/Engine.v ===== *)
(** * The engine: [rabbit-digger/src/rabbit_digger.rs] and the server half of
    [running.rs]

    Server tasks are spawned into a table and never removed from it, so that
    what becomes of them can be stated; an operation that waits for something
    that has not happened is [Pending].  What the outside does between two
    operations (a task returns or panics, a configuration arrives) is an
    input. *)

From S2P Require Import Prelude Io Address ConnContext Build ConnMgr.

Module Engine.

(** A [BTreeMap] in key order. *)
Fixpoint bytes_leb (a b : bytes) : bool :=
  match a, b with
  | [], _ => true
  | _ :: _, [] => false
  | x :: a, y :: b => (x <? y) || ((x =? y) && bytes_leb a b)
  end.

Fixpoint insert_sorted {A} (kv : bytes * A) (l : list (bytes * A)) : list (bytes * A) :=
  match l with
  | [] => [kv]
  | x :: l => if bytes_leb kv.1 x.1 then kv :: x :: l else x :: insert_sorted kv l
  end.

Definition btree_list {A} (m : gmap bytes A) : list (bytes * A) :=
  fold_right insert_sorted [] (map_to_list m).

Lemma insert_sorted_perm {A} (kv : bytes * A) l : insert_sorted kv l ≡ₚ kv :: l.
Proof.
  induction l as [|x l IH]; cbn; [done|]. destruct (bytes_leb kv.1 x.1); [done|].
  rewrite IH. constructor.
Qed.

Lemma btree_list_perm {A} (m : gmap bytes A) : btree_list m ≡ₚ map_to_list m.
Proof.
  unfold btree_list. induction (map_to_list m) as [|kv l IH]; cbn; [done|]. by rewrite insert_sorted_perm, IH.
Qed.

(** ** Tasks *)

(** How a spawned task ends by itself, and what its [JoinHandle] then gives;
    an aborted task that has not ended is cancelled. *)
Inductive TaskEnd : Type := Returned (r : res unit) | Panicked.
Inductive JoinResult : Type := Joined (r : res unit) | JoinPanic | JoinCancelled.

Record Task : Type := mkTask { t_end : option TaskEnd; t_aborted : bool; t_closed : bool }.

(** The task ends: [s2.close()] comes after the server's [start] returns. *)
(* src/rabbit-digger/src/rabbit_digger/running.rs:382-388 RunningServer::start *)
Definition task_finish (o : TaskEnd) (t : Task) : Task :=
  match t_end t with
  | Some _ => t
  | None => mkTask (Some o) (t_aborted t) (t_closed t || match o with Returned _ => true | Panicked => false end)
  end.

Definition task_abort (t : Task) : Task := mkTask (t_end t) true true.

(** [handle.await]. *)
Definition join (t : Task) : poll JoinResult :=
  match t_end t with
  | Some (Returned r) => Ready (Joined r)
  | Some Panicked => Ready JoinPanic
  | None => if t_aborted t then Ready JoinCancelled else Pending
  end.

(** A task that may still do something. *)
Definition t_live (t : Task) : bool := match t_end t with Some _ => false | None => negb (t_aborted t) end.

Section Engine.
Context {N S : Type}.
Notation RunningServer := (@RunningServer S).
Notation ServerInfo := (@ServerInfo S).
Notation RunningEntities := (@RunningEntities N S).
Notation Registry := (@Registry N S).

(** [{e}] of an error, and the text of a failed join. *)
Context (show_error : error -> bytes) (show_join_panic : bytes).
(** [serde_json] on [Config], with all fields and with the common ones. *)
Context (ser_all ser_simple : Config -> res bytes) (de_all : bytes -> res Config).
Context (reg : Registry) (local_default : Value) (fuel : nat).

(** ** [RunningServer] *)

Definition set_state (r : RunningServer) (s : RunState) : RunningServer :=
  mkRunningServer (rs_name r) (rs_type r) (rs_server r) s.

(** [wait_finished] would return. *)
(* src/rabbit-digger/src/rabbit_digger/running.rs:410-416 RunningServer::wait_finished *)
Definition wait_finished (ts : list Task) (r : RunningServer) : bool :=
  match rs_state r with
  | RIdle => true
  | RRunning tid => match ts !! tid with Some t => t_closed t | None => false end
  end.

(** The wait at its end never blocks: [stop] has closed the semaphore. *)
(* src/rabbit-digger/src/rabbit_digger/running.rs:394-407 RunningServer::stop *)
Definition rs_stop (ts : list Task) (r : RunningServer) : list Task :=
  match rs_state r with
  | RRunning tid => alter task_abort tid ts
  | RIdle => ts
  end.

(* src/rabbit-digger/src/rabbit_digger/running.rs:375-393 RunningServer::start *)
Definition rs_start (ts : list Task) (r : RunningServer) : list Task * RunningServer :=
  let ts := rs_stop ts r in
  (ts ++ [mkTask None false false], set_state r (RRunning (length ts))).

(* src/rabbit-digger/src/rabbit_digger/running.rs:421-430 RunningServer::take_result *)
Definition take_result (ts : list Task) (r : RunningServer) : poll (RunningServer * option JoinResult) :=
  if wait_finished ts r then
    match rs_state r with
    | RIdle => Ready (r, None)
    | RRunning tid =>
      match ts !! tid with
      | Some t => match join t with Ready j => Ready (set_state r RIdle, Some j) | Pending => Pending end
      | None => Pending
      end
    end
  else Pending.

(* src/rabbit-digger/src/rabbit_digger/running.rs:432-443 RunningServer::take_result_if_finished *)
Definition take_result_if_finished (ts : list Task) (r : RunningServer) : poll (RunningServer * option JoinResult) :=
  let finished := match rs_state r with
    | RRunning tid => match ts !! tid with Some t => t_closed t | None => false end
    | RIdle => false end in
  if finished then take_result ts r else Ready (r, None).

(** ** The engine's state *)

(* src/rabbit-digger/src/rabbit_digger.rs:38-44 ServerSnapshot *)
Record ServerSnapshot : Type := mkSnapshot {
  ss_name : bytes; ss_type : bytes; ss_status : ServerRuntimeStatus; ss_message : option bytes }.

(* src/rabbit-digger/src/rabbit_digger.rs:56-62 EngineStatus *)
Inductive EngineStatus : Type :=
| ESIdle
| ESStarting (message : bytes)
| ESRunning (servers : list ServerSnapshot)
| ESStopping
| ESError (message : bytes).

(* src/rabbit-digger/src/rabbit_digger.rs:68-73 ServerEvent *)
Inductive ServerEvent : Type := StatusChanged (s : EngineStatus) | ConfigChanged.

(* src/rabbit-digger/src/rabbit_digger.rs:80-84 SerializedConfig *)
Record SerializedConfig : Type := mkSer { sc_id : bytes; all_fields : bytes; simple_fields : bytes }.

(* src/rabbit-digger/src/rabbit_digger.rs:92-95 State *)
Inductive EState : Type :=
| WaitConfig
| Running (config : SerializedConfig) (entities : RunningEntities).

(** [log] is what subscribers have been sent, in order. *)
(* src/rabbit-digger/src/rabbit_digger.rs:106-112 Inner *)
Record Inner : Type := mkInner {
  state : EState;
  current_status : EngineStatus;
  log : list ServerEvent;
  tasks : list Task }.

(* src/rabbit-digger/src/rabbit_digger.rs:133-152 RabbitDigger::new *)
Definition engine_new : Inner := mkInner WaitConfig ESIdle [] [].

(* src/rabbit-digger/src/rabbit_digger.rs:158-160 RabbitDigger::emit *)
Definition emit (ev : ServerEvent) (e : Inner) : Inner :=
  mkInner (state e) (current_status e) (log e ++ [ev]) (tasks e).

(* src/rabbit-digger/src/rabbit_digger.rs:153-156 RabbitDigger::set_status *)
Definition set_status (s : EngineStatus) (e : Inner) : Inner :=
  emit (StatusChanged s) (mkInner (state e) s (log e) (tasks e)).

(* src/rabbit-digger/src/rabbit_digger.rs:162-168 RabbitDigger::server_error_message *)
Definition server_error_message (name : bytes) (j : JoinResult) : option bytes :=
  match j with
  | JoinCancelled => None
  | JoinPanic => Some (lit "Server " ++ name ++ lit " task failed: " ++ show_join_panic)
  | Joined (Err e) => Some (lit "Server " ++ name ++ lit " stopped with error: " ++ show_error e)
  | Joined (Ok _) => None
  end.

(* src/rabbit-digger/src/rabbit_digger.rs:170-180 RabbitDigger::server_snapshots *)
Definition server_snapshots (servers : gmap bytes ServerInfo) : list ServerSnapshot :=
  map (fun kv : bytes * ServerInfo =>
    mkSnapshot kv.1 (rs_type (si_running kv.2)) (si_status kv.2) (si_message kv.2)) (btree_list servers).

Definition with_servers (en : RunningEntities) (m : gmap bytes ServerInfo) : RunningEntities :=
  mkEntities (re_nets en) (re_arena en) m.

(** *** [stop] *)

(** Every server's result is taken; what they are is only logged. *)
Fixpoint drain_servers (ts : list Task) (l : list (bytes * ServerInfo)) : bool :=
  match l with
  | [] => true
  | (_, i) :: l => match take_result ts (si_running i) with Ready _ => drain_servers ts l | Pending => false end
  end.

(* src/rabbit-digger/src/rabbit_digger.rs:238-259 RabbitDigger::drain *)
Definition drain (e : Inner) : poll Inner :=
  let ready := match state e with
    | Running _ en => drain_servers (tasks e) (btree_list (re_servers en))
    | WaitConfig => true end in
  if ready then Ready (set_status ESIdle (mkInner WaitConfig (current_status e) (log e) (tasks e))) else Pending.

(* src/rabbit-digger/src/rabbit_digger.rs:193-215 RabbitDigger::stop *)
Definition stop (e : Inner) : poll Inner :=
  match state e with
  | Running _ en =>
    let e := set_status ESStopping e in
    drain (mkInner (state e) (current_status e) (log e)
             (fold_left (fun ts kv => rs_stop ts (si_running kv.2)) (btree_list (re_servers en)) (tasks e)))
  | WaitConfig => drain e
  end.

(** [wait_any_exit] would return. *)
(* src/rabbit-digger/src/rabbit_digger.rs:219-235 RabbitDigger::wait_any_exit *)
Definition wait_any_exit (e : Inner) : bool :=
  match state e with
  | Running _ en =>
    match btree_list (re_servers en) with
    | [] => true
    | l => existsb (fun kv => wait_finished (tasks e) (si_running kv.2)) l
    end
  | WaitConfig => true
  end.

(** What a finished server's information becomes; [what] ends the message of
    one that stopped. *)
Definition finished_info (name what : bytes) (i : ServerInfo) (r : RunningServer) (j : option JoinResult) : ServerInfo :=
  match j with
  | None => i
  | Some (Joined (Ok _)) => mkInfoS (si_name i) r (si_config i) SStopped (Some (lit "Server " ++ name ++ what))
  | Some j =>
    mkInfoS (si_name i) r (si_config i) SError
      (Some (match server_error_message name j with
             | Some m => m
             | None => lit "Server " ++ name ++ what end))
  end.

(** One pass over the servers; the flag is [changed]. *)
Fixpoint collect_pass (what : bytes) (ts : list Task) (l : list (bytes * ServerInfo)) (m : gmap bytes ServerInfo)
    (changed : bool) : poll (gmap bytes ServerInfo * bool) :=
  match l with
  | [] => Ready (m, changed)
  | (name, i) :: l =>
    match take_result_if_finished ts (si_running i) with
    | Pending => Pending
    | Ready (r, None) => collect_pass what ts l m changed
    | Ready (r, Some j) => collect_pass what ts l (<[name := finished_info name what i r (Some j)]> m) true
    end
  end.

(* src/rabbit-digger/src/rabbit_digger.rs:261-302 RabbitDigger::collect_finished_servers *)
Definition collect_finished_servers (e : Inner) : poll Inner :=
  match state e with
  | WaitConfig => Ready e
  | Running c en =>
    match collect_pass (lit " stopped") (tasks e) (btree_list (re_servers en)) (re_servers en) false with
    | Pending => Pending
    | Ready (m, changed) =>
      let e := mkInner (Running c (with_servers en m)) (current_status e) (log e) (tasks e) in
      Ready (if changed then set_status (ESRunning (server_snapshots m)) e else e)
    end
  end.

(** *** [start] *)

Definition start_one (acc : list Task * gmap bytes ServerInfo) (kv : bytes * ServerInfo) : list Task * gmap bytes ServerInfo :=
  let '(ts, m) := acc in
  let '(ts, r) := rs_start ts (si_running kv.2) in
  (ts, <[kv.1 := mkInfoS (si_name kv.2) r (si_config kv.2) SRunning None]> m).

(* src/rabbit-digger/src/rabbit_digger.rs:347-356 RabbitDigger::start *)
Definition start_servers (ts : list Task) (m : gmap bytes ServerInfo) : list Task * gmap bytes ServerInfo :=
  fold_left start_one (btree_list m) (ts, m).

(** Tasks that end: their numbers and how. *)
Definition env_step (ends : list (nat * TaskEnd)) (ts : list Task) : list Task :=
  fold_left (fun ts io => alter (task_finish io.2) io.1 ts) ends ts.

(** [during] are the tasks that end during [yield_now].  The model's own
    out-of-fuel and panic outcomes of building count as not returning. *)
(* src/rabbit-digger/src/rabbit_digger.rs:321-392 RabbitDigger::start *)
Definition start (e : Inner) (config : Config) (during : list (nat * TaskEnd)) : poll (Inner * res unit) :=
  let e := set_status (ESStarting (lit "Building config...")) e in
  match build_entities fuel reg local_default config with
  | OutOfFuel => Pending
  | Panic => Pending
  | Done (Err err) => Ready (e, Err (EWithContext "Failed to build server" err))
  | Done (Ok (config, entities)) =>
    match stop e with
    | Pending => Pending
    | Ready e =>
      let '(ts, m) := start_servers (tasks e) (re_servers entities) in
      let ts := env_step during ts in
      match collect_pass (lit " stopped during startup") ts (btree_list m) m false with
      | Pending => Pending
      | Ready (m, _) =>
        let e := mkInner (state e) (current_status e) (log e) ts in
        match ser_all config, ser_simple config with
        | Ok a, Ok s =>
          let e := mkInner (Running (mkSer (cfg_id config) a s) (with_servers entities m)) (current_status e) (log e) ts in
          Ready (emit ConfigChanged (set_status (ESRunning (server_snapshots m)) e), Ok tt)
        | Err err, _ => Ready (e, Err err)
        | _, Err err => Ready (e, Err err)
        end
      end
    end
  end.

(* src/rabbit-digger/src/rabbit_digger.rs:394-396 RabbitDigger::is_running *)
Definition is_running (e : Inner) : bool := match state e with Running _ _ => true | WaitConfig => false end.

(* src/rabbit-digger/src/rabbit_digger.rs:539-545 RabbitDigger::get_id *)
Definition get_id (e : Inner) : option bytes :=
  match state e with Running c _ => Some (sc_id c) | WaitConfig => None end.

(* src/rabbit-digger/src/rabbit_digger.rs:547-556 RabbitDigger::get_config *)
Definition get_config (e : Inner) : res bytes :=
  match state e with Running c _ => Ok (simple_fields c) | WaitConfig => Err (EOther "Not running") end.

(* src/rabbit-digger/src/rabbit_digger.rs:478-487 RabbitDigger::get_net *)
Definition engine_get_net (e : Inner) (name : bytes) : res (option nat) :=
  match state e with Running _ en => Ok (re_nets en !! name) | WaitConfig => Err (EOther "Not running") end.

(** *** [update_net] *)

Definition named_getter (nets : gmap bytes nat) (_ : unit) (r : Value) (_ : list bytes) : run (unit * Value * nat) :=
  match r with
  | VStr name => match nets !! name with Some h => Done (Ok (tt, r, h)) | None => Done (Err (ENotFound name)) end
  | _ => Done (Err (EOther "Net not found"))
  end.

(** [RunningNet::update_net]: the [Arc] stays, what it holds changes. *)
(* src/rabbit-digger/src/rabbit_digger/running.rs:38-40 RunningNet::update_net *)
Definition running_net_update (h : nat) (n : N) (ar : list (@RunningNet N)) : list (@RunningNet N) :=
  alter (fun rn => mkRunningNet (rn_name rn) n) h ar.

(** The net is replaced before the configuration is serialised, and each
    serialised form is stored as it is made: an error there leaves what was
    done before it.  As with [start], the outcomes out-of-fuel and panic of
    building count as not returning. *)
(* src/rabbit-digger/src/rabbit_digger.rs:490-537 RabbitDigger::update_net *)
Definition update_net (e : Inner) (net_name : bytes) (update : Net -> Net) : poll (Inner * res unit) :=
  match state e with
  | WaitConfig => Ready (e, Err (EOther "Not running"))
  | Running sc en =>
    match de_all (all_fields sc) with
    | Err err => Ready (e, Err err)
    | Ok config =>
      match im_get (cfg_net config) net_name, re_nets en !! net_name with
      | Some cfg, Some h =>
        match build_net reg (named_getter (re_nets en)) tt (update cfg) with
        | OutOfFuel => Pending
        | Panic => Pending
        | Done (Err err) => Ready (e, Err err)
        | Done (Ok (_, cfg, net)) =>
          let en := mkEntities (re_nets en) (running_net_update h net (re_arena en)) (re_servers en) in
          let config := mkConfig (cfg_id config) (im_insert (cfg_net config) net_name cfg) (cfg_server config) in
          let with_config sc := mkInner (Running sc en) (current_status e) (log e) (tasks e) in
          match ser_all config with
          | Err err => Ready (with_config sc, Err err)
          | Ok a =>
            match ser_simple config with
            | Err err => Ready (with_config (mkSer (sc_id sc) a (simple_fields sc)), Err err)
            | Ok s => Ready (with_config (mkSer (sc_id sc) a s), Ok tt)
            end
          end
        end
      | _, _ => Ready (e, Ok tt)
      end
    end
  end.

(** *** [start_stream] *)

(** What happens around one configuration: tasks that end while it starts,
    then before the next item of the stream, then before that item is acted
    on; and the item. *)
Record Round : Type := mkRound {
  r_starting : list (nat * TaskEnd);
  r_waiting : list (nat * TaskEnd);
  r_after : list (nat * TaskEnd);
  r_next : res (option Config) }.

Definition env (ends : list (nat * TaskEnd)) (e : Inner) : Inner :=
  mkInner (state e) (current_status e) (log e) (env_step ends (tasks e)).

(** The loop, to its [break]. *)
(* src/rabbit-digger/src/rabbit_digger.rs:414-455 RabbitDigger::start_stream *)
Fixpoint stream_loop (e : Inner) (config : Config) (rounds : list Round) : poll (Inner * res unit) :=
  match rounds with
  | [] => Pending
  | rd :: rounds =>
    match start e config (r_starting rd) with
    | Pending => Pending
    | Ready (e, Err err) =>
      let e := env (r_waiting rd) (set_status (ESError (show_error err)) e) in
      match r_next rd with
      | Ok (Some config) => stream_loop e config rounds
      | Ok None => Ready (e, Ok tt)
      | Err err => Ready (e, Err err)
      end
    | Ready (e, Ok _) =>
      let e := env (r_waiting rd) e in
      match (if wait_any_exit e then collect_finished_servers e else Ready e) with
      | Pending => Pending
      | Ready e =>
        let e := env (r_after rd) e in
        match r_next rd with
        | Ok (Some config) =>
          match stop e with
          | Pending => Pending
          | Ready e => stream_loop e config rounds
          end
        | Ok None => Ready (e, Ok tt)
        | Err err => Ready (e, Err err)
        end
      end
    end
  end.

(** The final loop: connections are stopped, and a batch of their events
    arrives, until there are none. *)
(* src/rabbit-digger/src/rabbit_digger.rs:465-471 RabbitDigger::start_stream *)
Fixpoint close_connections {V} (listening : Z -> bool) (batches : list (list (Event V))) (cs : ConnectionState V)
    (close_count : nat) : poll (ConnectionState V * nat) :=
  if (connection_count cs =? 0)%nat then Ready (cs, close_count)
  else
    match batches with
    | [] => Pending
    | b :: batches =>
      let '(cs, _, n) := stop_connections listening cs in
      close_connections listening batches (recv_event cs b) (close_count + n)
    end.

(** What the stream gives within 30 seconds. *)
Inductive FirstConfig : Type := FirstCfg (c : Config) | FirstErr (e : error) | FirstNone.

(* src/rabbit-digger/src/rabbit_digger.rs:398-476 RabbitDigger::start_stream *)
Definition start_stream {V} (e : Inner) (cs : ConnectionState V) (first : FirstConfig) (rounds : list Round)
    (listening : Z -> bool) (batches : list (list (Event V))) : poll (Inner * ConnectionState V * res unit) :=
  match first with
  | FirstErr err => Ready (e, cs, Err (EWithContext "Failed to get first config." err))
  | FirstNone => Ready (e, cs, Err (EOther "Waiting too long for first config_stream, can not start."))
  | FirstCfg config =>
    match stream_loop e config rounds with
    | Pending => Pending
    | Ready (e, _) =>
      match stop e with
      | Pending => Pending
      | Ready e =>
        match close_connections listening batches cs 0 with
        | Pending => Pending
        | Ready (cs, _) => Ready (e, cs, Ok tt)
        end
      end
    end
  end.

(** ** Lemmas *)

Lemma In_btree {A} (m : gmap bytes A) k v : (k, v) ∈ btree_list m <-> m !! k = Some v.
Proof. rewrite (btree_list_perm m). apply elem_of_map_to_list. Qed.

Lemma btree_keys {A} (m : gmap bytes A) : NoDup (btree_list m).*1.
Proof. rewrite (btree_list_perm m). apply NoDup_fst_map_to_list. Qed.

Definition holds (m : gmap bytes ServerInfo) (tid : nat) : Prop :=
  exists k i, m !! k = Some i /\ rs_state (si_running i) = RRunning tid.

(** The table is in order: a closed semaphore means the task has ended or
    been aborted. *)
Definition tasks_ok (ts : list Task) : Prop := forall tid t, ts !! tid = Some t -> t_closed t = true -> t_live t = false.

Definition servers_ok (m : gmap bytes ServerInfo) (ts : list Task) : Prop :=
  forall tid, holds m tid -> (tid < length ts)%nat.

Definition live_held (e : Inner) : Prop :=
  forall tid t, tasks e !! tid = Some t -> t_live t = true ->
  match state e with Running _ en => holds (re_servers en) tid | WaitConfig => False end.

(** Subscribers and [status()] agree. *)
Definition last_status (l : list ServerEvent) : EngineStatus :=
  fold_left (fun s ev => match ev with StatusChanged s => s | ConfigChanged => s end) l ESIdle.

Record engine_ok (e : Inner) : Prop := mkEngineOk {
  eo_tasks : tasks_ok (tasks e);
  eo_servers : match state e with Running _ en => servers_ok (re_servers en) (tasks e) | WaitConfig => True end;
  eo_live : live_held e;
  eo_status : current_status e = last_status (log e) }.

Lemma join_dead t : t_live t = false -> exists j, join t = Ready j.
Proof.
  unfold t_live, join. destruct (t_end t) as [[r|]|]; intros H; [by eexists..|].
  destruct (t_aborted t); [by eexists | done].
Qed.

Lemma take_result_ready ts r : tasks_ok ts -> wait_finished ts r = true ->
  exists r' j, take_result ts r = Ready (r', j).
Proof.
  intros Ht Hw. unfold take_result. rewrite Hw. unfold wait_finished in Hw.
  destruct (rs_state r) as [|tid]; [by eexists _, _|]. destruct (ts !! tid) as [t|] eqn:E; [|done].
  destruct (join_dead t (Ht tid t E Hw)) as [j ->]. by eexists _, _.
Qed.

Lemma last_status_snoc l s : last_status (l ++ [StatusChanged s]) = s.
Proof. unfold last_status. by rewrite fold_left_app. Qed.

Lemma task_finish_dead o t : t_live t = false -> t_live (task_finish o t) = false.
Proof. unfold t_live, task_finish. by destruct (t_end t) eqn:E; cbn; rewrite ?E. Qed.

Lemma alter_lookup_cases (f : Task -> Task) (ts : list Task) (i j : nat) (t : Task) :
  alter f i ts !! j = Some t -> exists t0, ts !! j = Some t0 /\ t = (if decide (i = j) then f t0 else t0).
Proof.
  intros E. destruct (decide (i = j)) as [->|Hn].
  - rewrite list_lookup_alter_eq in E. apply fmap_Some in E as (t0 & E0 & ->). by exists t0.
  - rewrite list_lookup_alter_ne in E by done. by exists t.
Qed.

(** Tasks that end keep the table in order, and none comes to life. *)
Definition tasks_le (ts ts' : list Task) : Prop :=
  length ts' = length ts /\
  forall tid t', ts' !! tid = Some t' -> exists t, ts !! tid = Some t /\ (t_live t' = true -> t_live t = true).

Lemma tasks_le_refl ts : tasks_le ts ts.
Proof. split; [done|]. intros tid t E. by exists t. Qed.
Lemma tasks_le_trans a b c : tasks_le a b -> tasks_le b c -> tasks_le a c.
Proof.
  intros [L1 H1] [L2 H2]. split; [congruence|]. intros tid t E.
  destruct (H2 tid t E) as (t2 & E2 & ?). destruct (H1 tid t2 E2) as (t1 & E1 & ?). exists t1. auto.
Qed.

Lemma alter_ok (f : Task -> Task) (tid : nat) (ts : list Task) :
  (forall t, t_live (f t) = true -> t_live t = true) ->
  (forall t, (t_closed t = true -> t_live t = false) -> t_closed (f t) = true -> t_live (f t) = false) ->
  tasks_ok ts -> tasks_ok (alter f tid ts) /\ tasks_le ts (alter f tid ts).
Proof.
  intros H1 H2 Ht. split.
  - intros j t E. apply alter_lookup_cases in E as (t0 & E0 & ->). destruct (decide (tid = j)); [|by apply (Ht j)].
    apply H2. apply (Ht j t0 E0).
  - split; [apply length_alter|]. intros j t E. apply alter_lookup_cases in E as (t0 & E0 & ->). exists t0.
    split; [done|]. destruct (decide (tid = j)); auto.
Qed.

Lemma finish_ok o (tid : nat) (ts : list Task) : tasks_ok ts -> tasks_ok (alter (task_finish o) tid ts) /\ tasks_le ts (alter (task_finish o) tid ts).
Proof.
  apply alter_ok; intros t; unfold task_finish, t_live; destruct (t_end t) eqn:E; cbn; rewrite ?E; auto; done.
Qed.

Lemma abort_ok (tid : nat) (ts : list Task) : tasks_ok ts -> tasks_ok (alter task_abort tid ts) /\ tasks_le ts (alter task_abort tid ts).
Proof. apply alter_ok; intros t; unfold task_abort, t_live; cbn; destruct (t_end t); done. Qed.

Lemma env_step_ok ends ts : tasks_ok ts -> tasks_ok (env_step ends ts) /\ tasks_le ts (env_step ends ts).
Proof.
  unfold env_step. revert ts. induction ends as [|io ends IH]; intros ts Ht; cbn; [split; [done | apply tasks_le_refl]|].
  destruct (finish_ok io.2 io.1 ts Ht) as [H1 L1]. destruct (IH _ H1) as [H2 L2].
  split; [done | by eapply tasks_le_trans].
Qed.

Lemma engine_ok_tasks e ts : engine_ok e -> tasks_ok ts -> tasks_le (tasks e) ts ->
  engine_ok (mkInner (state e) (current_status e) (log e) ts).
Proof.
  intros [H1 H2 H3 H4] Ht [L Hl]. constructor; cbn; [done| | |done].
  - destruct (state e); [done|]. intros tid Hh. rewrite L. by apply H2.
  - intros tid t E Hlive. cbn in E |- *. destruct (Hl tid t E) as (t0 & E0 & Hi).
    apply (H3 tid t0 E0 (Hi Hlive)).
Qed.

Lemma env_ok ends e : engine_ok e -> engine_ok (env ends e).
Proof.
  intros He. destruct (env_step_ok ends (tasks e) (eo_tasks e He)). by apply engine_ok_tasks.
Qed.

Lemma set_status_ok s e : engine_ok e -> engine_ok (set_status s e).
Proof. intros [H1 H2 H3 H4]. constructor; cbn; try done. symmetry; apply last_status_snoc. Qed.

(** Stopping every server leaves no live task of theirs. *)
Lemma stop_all_ok (l : list (bytes * ServerInfo)) : forall ts, tasks_ok ts ->
  let ts' := fold_left (fun ts kv => rs_stop ts (si_running kv.2)) l ts in
  tasks_ok ts' /\ tasks_le ts ts' /\
  forall k i tid, (k, i) ∈ l -> rs_state (si_running i) = RRunning tid -> (tid < length ts)%nat ->
    exists t, ts' !! tid = Some t /\ t_closed t = true /\ t_live t = false.
Proof.
  induction l as [|[k0 i0] l IH]; intros ts Ht; cbn.
  { split; [done|]. split; [apply tasks_le_refl|]. intros k i tid Hin. by apply elem_of_nil in Hin. }
  assert (H : tasks_ok (rs_stop ts (si_running i0)) /\ tasks_le ts (rs_stop ts (si_running i0))).
  { unfold rs_stop. destruct (rs_state (si_running i0)); [split; [done | apply tasks_le_refl]|]. by apply abort_ok. }
  destruct H as [H0 L0]. destruct (IH _ H0) as (H1 & L1 & Hd).
  split; [done|]. split; [by eapply tasks_le_trans|]. intros k i tid Hin Hr Hlt.
  apply elem_of_cons in Hin as [[= -> ->]|Hin].
  2: { apply (Hd k i tid Hin Hr). destruct L0 as [-> _]. done. }
  (* stopped here, and nothing later undoes it *)
  assert (Hc : exists t, rs_stop ts (si_running i0) !! tid = Some t /\ t_closed t = true /\ t_live t = false).
  { unfold rs_stop. rewrite Hr, list_lookup_alter_eq. destruct (lookup_lt_is_Some_2 ts tid Hlt) as [t ->].
    eexists. split; [reflexivity|]. unfold t_live. cbn. by destruct (t_end t). }
  clear -Hc. revert Hc. generalize (rs_stop ts (si_running i0)). clear ts.
  induction l as [|[k1 i1] l IHl]; intros ts Hc; cbn; [done|]. apply IHl.
  unfold rs_stop. destruct (rs_state (si_running i1)) as [|tid1]; [done|].
  destruct Hc as (t & E & Hcl & Hlv). destruct (decide (tid1 = tid)) as [->|Hne].
  - rewrite list_lookup_alter_eq, E. eexists. split; [reflexivity|]. unfold t_live. cbn. by destruct (t_end t).
  - rewrite list_lookup_alter_ne by done. by exists t.
Qed.

Lemma drain_ready ts l : tasks_ok ts ->
  (forall k i, (k, i) ∈ l -> wait_finished ts (si_running i) = true) -> drain_servers ts l = true.
Proof.
  intros Ht. induction l as [|[k i] l IH]; intros H; cbn; [done|].
  destruct (take_result_ready ts (si_running i) Ht) as (r & j & ->); [apply (H k); by left|].
  apply IH. intros k' i' Hin. apply (H k'). by right.
Qed.

Lemma stop_spec e : engine_ok e -> exists e', stop e = Ready e' /\ engine_ok e' /\
  state e' = WaitConfig /\ current_status e' = ESIdle /\ tasks_le (tasks e) (tasks e').
Proof.
  intros He. pose proof He as [Ht Hs Hl Hst]. unfold stop. destruct (state e) as [|sc en] eqn:E.
  - unfold drain. rewrite E. eexists. split; [reflexivity|]. cbn. split; [|split; [done|]; split; [done | apply tasks_le_refl]].
    apply set_status_ok. constructor; cbn; [done|done| |done]. intros tid t Et Hlive. cbn in Et |- *.
    pose proof (Hl tid t Et Hlive) as H. by rewrite E in H.
  - destruct (stop_all_ok (btree_list (re_servers en)) (tasks e) Ht) as (Ht' & Hle & Hd). cbn in Ht', Hle, Hd.
    set (ts' := fold_left _ _ _) in *. unfold drain. cbn [state tasks set_status emit]. rewrite E.
    rewrite drain_ready; [|done|].
    + eexists. split; [reflexivity|]. cbn. split; [|done]. apply set_status_ok.
      constructor; cbn; [done|done| |symmetry; apply last_status_snoc].
      intros tid t Et Hlive. cbn in Et |- *. destruct Hle as [Hlen Hback]. destruct (Hback tid t Et) as (t0 & E0 & Hi).
      pose proof (Hl tid t0 E0 (Hi Hlive)) as Hh. rewrite E in Hh. destruct Hh as (k & i & Ek & Er).
      destruct (Hd k i tid) as (t1 & E1 & _ & Hdead); [by apply In_btree | done | by eapply lookup_lt_Some|].
      assert (t1 = t) as -> by congruence. congruence.
    + intros k i Hin. unfold wait_finished. destruct (rs_state (si_running i)) as [|tid] eqn:Er; [done|].
      destruct (Hd k i tid Hin Er) as (t & -> & Hc & _); [|done]. apply Hs. exists k, i. split; [by apply In_btree | done].
Qed.

Definition is_finished (ts : list Task) (i : ServerInfo) : bool :=
  match rs_state (si_running i) with
  | RRunning tid => match ts !! tid with Some t => t_closed t | None => false end
  | RIdle => false
  end.

Definition collected (what : bytes) (ts : list Task) (name : bytes) (i : ServerInfo) : ServerInfo :=
  match take_result_if_finished ts (si_running i) with
  | Ready (r, Some j) => finished_info name what i r (Some j)
  | _ => i
  end.

Lemma take_if_finished ts i : tasks_ok ts ->
  if is_finished ts i then exists j, take_result_if_finished ts (si_running i) = Ready (set_state (si_running i) RIdle, Some j)
  else take_result_if_finished ts (si_running i) = Ready (si_running i, None).
Proof.
  intros Ht. unfold take_result_if_finished, is_finished. destruct (rs_state (si_running i)) as [|tid] eqn:Er; [done|].
  destruct (ts !! tid) as [t|] eqn:Et; [|done]. destruct (t_closed t) eqn:Ec; [|done].
  destruct (join_dead t (Ht tid t Et Ec)) as [j Hj]. exists j.
  unfold take_result, wait_finished. by rewrite Er, Et, Ec, Hj.
Qed.

Lemma collect_pass_spec (what : bytes) (ts : list Task) l : tasks_ok ts -> NoDup l.*1 -> forall m ch,
  (forall k i, (k, i) ∈ l -> m !! k = Some i) ->
  exists m', collect_pass what ts l m ch = Ready (m', ch || existsb (fun kv => is_finished ts kv.2) l) /\
    (forall k i, (k, i) ∈ l -> m' !! k = Some (collected what ts k i)) /\
    (forall k, k ∉ l.*1 -> m' !! k = m !! k).
Proof.
  intros Ht. induction l as [|[k i] l IH]; intros Hnd m ch Hm; cbn [collect_pass existsb snd].
  { exists m. rewrite orb_false_r. split; [done|]. split; [|done]. intros k i Hin. by apply elem_of_nil in Hin. }
  cbn in Hnd. apply NoDup_cons in Hnd as [Hk Hnd].
  assert (Hne : forall k' i', (k', i') ∈ l -> k' <> k).
  { intros k' i' Hin ->. apply Hk. apply list_elem_of_fmap. by exists (k, i'). }
  pose proof (take_if_finished ts i Ht) as Hf. destruct (is_finished ts i) eqn:Ef.
  - destruct Hf as [j Hj]. rewrite Hj. cbv iota beta.
    set (x := finished_info k what i (set_state (si_running i) RIdle) (Some j)).
    destruct (IH Hnd (<[k := x]> m) true) as (m' & E & H1 & H2).
    { intros k' i' Hin. rewrite lookup_insert_ne by (symmetry; by eapply Hne). apply Hm. by right. }
    exists m'. rewrite E. cbn. rewrite orb_true_r. split; [done|]. split.
    + intros k' i' Hin. apply elem_of_cons in Hin as [[= -> ->]|Hin]; [|by apply H1].
      rewrite H2 by done. rewrite lookup_insert_eq. unfold collected. by rewrite Hj.
    + intros k' Hn. apply not_elem_of_cons in Hn as [Hn1 Hn2]. rewrite H2 by done. by rewrite lookup_insert_ne by done.
  - rewrite Hf. destruct (IH Hnd m ch) as (m' & E & H1 & H2); [intros; apply Hm; by right|].
    exists m'. rewrite E. cbn. split; [done|]. split.
    + intros k' i' Hin. apply elem_of_cons in Hin as [[= -> ->]|Hin]; [|by apply H1].
      rewrite H2 by done. unfold collected. rewrite Hf. apply Hm. by left.
    + intros k' Hn. apply not_elem_of_cons in Hn as [Hn1 Hn2]. by apply H2.
Qed.

Lemma collect_pass_map (what : bytes) (ts : list Task) (m : gmap bytes ServerInfo) ch : tasks_ok ts ->
  collect_pass what ts (btree_list m) m ch =
  Ready (map_imap (fun k i => Some (collected what ts k i)) m,
         ch || existsb (fun kv => is_finished ts kv.2) (btree_list m)).
Proof.
  intros Ht. destruct (collect_pass_spec what ts (btree_list m) Ht (btree_keys m) m ch) as (m' & E & H1 & H2).
  { intros k i. by apply In_btree. }
  rewrite E. do 2 f_equal. apply map_eq. intros k. rewrite map_lookup_imap.
  destruct (m !! k) as [i|] eqn:Ek; cbn; [by apply H1, In_btree|].
  rewrite H2; [done|]. intros Hin. apply list_elem_of_fmap in Hin as ([k' i] & -> & Hin).
  apply In_btree in Hin. cbn in Ek. congruence.
Qed.

(** Collecting keeps hold of whatever is live. *)
Lemma collected_holds (what : bytes) (ts : list Task) (m : gmap bytes ServerInfo) (tid : nat) : tasks_ok ts ->
  let m' := map_imap (fun k i => Some (collected what ts k i)) m in
  (holds m' tid -> holds m tid) /\
  (forall t, ts !! tid = Some t -> t_live t = true -> holds m tid -> holds m' tid).
Proof.
  intros Ht. cbn. split.
  - intros (k & i' & E & Er). rewrite map_lookup_imap in E. destruct (m !! k) as [i|] eqn:Ek; [|done].
    cbn in E. injection E as <-. exists k, i. split; [done|]. unfold collected in Er.
    pose proof (take_if_finished ts i Ht) as Hf. destruct (is_finished ts i); [destruct Hf as [j Hf]|]; rewrite Hf in Er; [|done].
    cbn in Er. by destruct j as [[]| |].
  - intros t Et Hl (k & i & Ek & Er). exists k, i. split; [|done]. rewrite map_lookup_imap, Ek. cbn.
    unfold collected. pose proof (take_if_finished ts i Ht) as Hf.
    destruct (is_finished ts i) eqn:Ef; [|by rewrite Hf]. unfold is_finished in Ef. rewrite Er, Et in Ef.
    rewrite (Ht tid t Et Ef) in Hl. done.
Qed.

Lemma collect_spec e : engine_ok e -> exists e', collect_finished_servers e = Ready e' /\ engine_ok e' /\
  tasks e' = tasks e /\ is_running e' = is_running e.
Proof.
  intros [Ht Hs Hl Hst]. unfold collect_finished_servers. destruct (state e) as [|sc en] eqn:E.
  { exists e. split; [done|]. split; [|done]. constructor; [done | by rewrite E | done | done]. }
  rewrite collect_pass_map by done. eexists. split; [reflexivity|].
  set (m' := map_imap _ _). set (e1 := mkInner _ _ _ _).
  assert (Hok : engine_ok e1).
  { constructor; cbn; [done| | |done].
    - intros tid Hh. apply Hs. by apply (collected_holds (lit " stopped") (tasks e) (re_servers en) tid Ht).
    - intros tid t Et Hlive. cbn. pose proof (Hl tid t Et Hlive) as Hh. rewrite E in Hh.
      by apply (collected_holds (lit " stopped") (tasks e) (re_servers en) tid Ht) with t. }
  unfold is_running. rewrite E. cbn [orb]. destruct (existsb _ _); (split; [|done]); [by apply set_status_ok | done].
Qed.

(** *** [start] *)

Definition fresh : Task := mkTask None false false.

Definition started (i : ServerInfo) (tid : nat) : ServerInfo :=
  mkInfoS (si_name i) (set_state (si_running i) (RRunning tid)) (si_config i) SRunning None.

Lemma start_servers_spec l : forall ts m, NoDup l.*1 ->
  (forall k i, (k, i) ∈ l -> rs_state (si_running i) = RIdle) ->
  exists m', fold_left start_one l (ts, m) = (ts ++ replicate (length l) fresh, m') /\
    (forall j k i, l !! j = Some (k, i) -> m' !! k = Some (started i (length ts + j)%nat)) /\
    (forall k, k ∉ l.*1 -> m' !! k = m !! k).
Proof.
  induction l as [|[k i] l IH]; intros ts m Hnd Hidle; cbn [fold_left length replicate].
  { exists m. rewrite app_nil_r. split; [done|]. split; [|done]. intros j k i E. done. }
  cbn in Hnd. apply NoDup_cons in Hnd as [Hk Hnd].
  unfold start_one at 2, rs_start, rs_stop. cbn [snd fst]. rewrite (Hidle k i) by left.
  destruct (IH (ts ++ [fresh]) (<[k := started i (length ts)]> m) Hnd) as (m' & E & H1 & H2).
  { intros k' i' Hin. apply (Hidle k'). by right. }
  exists m'. unfold started, fresh in E |- *. rewrite E, <- app_assoc. split; [done|]. split.
  - intros [|j] k' i' El; cbn in El.
    + injection El as <- <-. rewrite H2 by done. rewrite lookup_insert_eq, Nat.add_0_r. done.
    + rewrite (H1 j k' i' El), length_app. replace (length ts + Datatypes.S j)%nat with (length ts + length [fresh] + j)%nat; [done | cbn; lia].
  - intros k' Hn. apply not_elem_of_cons in Hn as [Hn1 Hn2]. rewrite H2 by done. by rewrite lookup_insert_ne by done.
Qed.

(** What the engine says of a server and what the server does agree. *)
Definition server_agrees (ts : list Task) (i : ServerInfo) : Prop :=
  match si_status i with
  | SRunning => exists tid, rs_state (si_running i) = RRunning tid /\ si_message i = None /\ is_finished ts i = false
  | _ => rs_state (si_running i) = RIdle /\ si_message i <> None
  end.

Lemma collected_agrees (what : bytes) (ts : list Task) k i : tasks_ok ts ->
  (exists tid, rs_state (si_running i) = RRunning tid) -> si_status i = SRunning -> si_message i = None ->
  server_agrees ts (collected what ts k i).
Proof.
  intros Ht [tid Hr] Hs Hm. unfold collected. pose proof (take_if_finished ts i Ht) as Hf.
  destruct (is_finished ts i) eqn:Ef.
  - destruct Hf as [j ->]. unfold server_agrees, finished_info. by destruct j as [[[]|]| |].
  - rewrite Hf. unfold server_agrees. rewrite Hs. by exists tid.
Qed.

Context (ser_all_ok : forall c, exists b, ser_all c = Ok b) (ser_simple_ok : forall c, exists b, ser_simple c = Ok b).
Context (reg_sane : sane_registry reg).

(** What [start] leaves when it succeeds. *)
Record started_with (c : Config) (e e' : Inner) : Prop := mkStarted {
  sw_state : exists sc en, state e' = Running sc en /\ sc_id sc = cfg_id c /\
    current_status e' = ESRunning (server_snapshots (re_servers en)) /\
    dom (re_servers en) = list_to_set (cfg_server c).*1 /\
    map_Forall (fun _ i => server_agrees (tasks e') i) (re_servers en);
  sw_old : forall tid t, (tid < length (tasks e))%nat -> tasks e' !! tid = Some t -> t_live t = false;
  sw_count : length (tasks e') = (length (tasks e) + size (list_to_set (C := gset bytes) (cfg_server c).*1))%nat }.

Lemma build_entities_lemma c : (config_weight local_default c <= fuel)%nat ->
  exists x, build_entities fuel reg local_default c = Done x /\
    forall c' en, x = Ok (c', en) -> cfg_id c' = cfg_id c /\ dom (re_servers en) = list_to_set (cfg_server c).*1 /\
      map_Forall (fun _ i => rs_state (si_running i) = RIdle) (re_servers en).
Proof.
  intros Hf. unfold build_entities.
  destruct (build_servers_total fuel reg (cfg_server c) reg_sane
    (mkBuild (init_default_net local_default (cfg_net c)) ∅ []) ∅ Hf) as (x & E).
  rewrite E. destruct x as [[[bc' l'] sv]|]; cbn [run_bind]; eexists; (split; [reflexivity|]); [|done].
  intros c' en E'. injection E' as <- <-. cbn.
  destruct (build_servers_wf reg (sane_placeholder reg reg_sane) _ (cfg_server c) fuel _ (incl_refl _) _ _ _ _ _
    (wf_build_start _ _ _) E) as (_ & _ & _ & Hs & Hd).
  split; [done|]. split; [rewrite Hd; clear; set_solver|].
  intros k si Ek. destruct (Hs k si Ek) as [?|(s & _ & _ & (i & rest & refs & l & s1 & o & _ & _ & _ & _ & _ & ->))]; done.
Qed.

Lemma length_btree {A} (m : gmap bytes A) : length (btree_list m) = size m.
Proof. by rewrite (btree_list_perm m), length_map_to_list. Qed.

(** The servers are running, in a table in order that holds what is live. *)
Lemma start_servers_ok (ts : list Task) (m : gmap bytes ServerInfo) : tasks_ok ts ->
  map_Forall (fun _ i => rs_state (si_running i) = RIdle) m ->
  exists m', start_servers ts m = (ts ++ replicate (size m) fresh, m') /\ dom m' = dom m /\
    tasks_ok (ts ++ replicate (size m) fresh) /\ servers_ok m' (ts ++ replicate (size m) fresh) /\
    (forall tid, (length ts <= tid < length ts + size m)%nat -> holds m' tid) /\
    map_Forall (fun _ i => (exists tid, rs_state (si_running i) = RRunning tid) /\ si_status i = SRunning /\ si_message i = None) m'.
Proof.
  intros Ht Hidle. destruct (start_servers_spec (btree_list m) ts m (btree_keys m)) as (m' & E & H1 & H2).
  { intros k i Hin. apply (Hidle k). by apply In_btree. }
  exists m'. unfold start_servers. rewrite E, length_btree. split; [done|].
  assert (Hm' : forall k i', m' !! k = Some i' -> exists j i, btree_list m !! j = Some (k, i) /\ i' = started i (length ts + j)%nat).
  { intros k i' Ei. destruct (m !! k) as [i|] eqn:Ek.
    - apply In_btree, list_elem_of_lookup in Ek as [j Ej]. exists j, i. rewrite (H1 j k i Ej) in Ei. by injection Ei as <-.
    - rewrite H2 in Ei; [congruence|]. intros Hin. apply list_elem_of_fmap in Hin as ([k' i] & -> & Hin).
      apply In_btree in Hin. cbn in Ek. congruence. }
  split; [|split; [|split; [|split]]].
  - apply set_eq. intros k. rewrite !elem_of_dom. split.
    + intros [i' Ei]. destruct (Hm' k i' Ei) as (j & i & Ej & _). exists i. apply In_btree. by eapply list_elem_of_lookup_2.
    + intros [i Ei]. apply In_btree, list_elem_of_lookup in Ei as [j Ej]. rewrite (H1 j k i Ej). by eexists.
  - intros tid t Et Hc. apply lookup_app_Some in Et as [Et|[_ Et]]; [by apply (Ht tid)|].
    by apply lookup_replicate in Et as [-> _].
  - intros tid (k & i' & Ei & Er). destruct (Hm' k i' Ei) as (j & i & Ej & ->). injection Er as <-.
    rewrite length_app, length_replicate, <- length_btree. apply lookup_lt_Some in Ej. lia.
  - intros tid Hr. destruct (lookup_lt_is_Some_2 (btree_list m) (tid - length ts)) as [[k i] Ej].
    { rewrite length_btree. lia. }
    exists k, (started i tid). split; [|done]. rewrite (H1 _ _ _ Ej). do 2 f_equal. lia.
  - intros k i' Ei. destruct (Hm' k i' Ei) as (j & i & Ej & ->). split; [by eexists | done].
Qed.

Lemma start_spec e c during : engine_ok e -> (config_weight local_default c <= fuel)%nat ->
  exists e' r, start e c during = Ready (e', r) /\ engine_ok e' /\
    match r with
    | Ok _ => started_with c e e'
    | Err _ => state e' = state e /\ tasks e' = tasks e /\ current_status e' = ESStarting (lit "Building config...")
    end.
Proof.
  intros He Hf. unfold start. set (e0 := set_status _ e).
  assert (He0 : engine_ok e0) by (by apply set_status_ok).
  destruct (build_entities_lemma c Hf) as (x & -> & Hx). destruct x as [[c1 en]|err]; [|by eexists _, _].
  destruct (Hx c1 en eq_refl) as (Hid & Hdom & Hidle). clear Hx.
  destruct (stop_spec e0 He0) as (e1 & -> & He1 & Hst1 & _ & Hle1).
  destruct (start_servers_ok (tasks e1) (re_servers en) (eo_tasks _ He1) Hidle) as (m & -> & Hd & Ht & Hs & Hh & Hr).
  set (ts := tasks e1 ++ replicate (size (re_servers en)) fresh) in *.
  destruct (env_step_ok during ts Ht) as [Ht' [Hlen Hback]]. set (ts' := env_step during ts) in *.
  rewrite collect_pass_map by done. set (m' := map_imap _ m).
  destruct (ser_all_ok c1) as [a ->]. destruct (ser_simple_ok c1) as [s ->].
  eexists _, _. split; [reflexivity|].
  assert (Hold : forall tid t, (tid < length (tasks e))%nat -> ts' !! tid = Some t -> t_live t = false).
  { intros tid t Hlt Et. destruct (t_live t) eqn:El; [|done]. destruct (Hback tid t Et) as (t1 & E1 & Hi).
    assert (tasks e1 !! tid = Some t1) as E1'.
    { rewrite <- E1. symmetry. unfold ts. apply lookup_app_l. destruct Hle1 as [-> _]. done. }
    pose proof (eo_live e1 He1 tid t1 E1' (Hi El)) as F. by rewrite Hst1 in F. }
  assert (Hlen' : length ts' = (length (tasks e) + size (re_servers en))%nat).
  { rewrite Hlen. unfold ts. rewrite length_app, length_replicate. destruct Hle1 as [-> _]. done. }
  split.
  - constructor; cbn; [done| | |].
    + intros tid Hm. rewrite Hlen. apply Hs. by apply (collected_holds _ ts' m tid Ht') in Hm.
    + intros tid t Et Hlive. cbn in Et |- *. apply (collected_holds _ ts' m tid Ht') with t; [done|done|].
      apply Hh. apply lookup_lt_Some in Et as Hlt. rewrite Hlen' in Hlt. destruct Hle1 as [Hl1 _].
      change (length (tasks e0)) with (length (tasks e)) in Hl1. rewrite Hl1.
      split; [|done]. destruct (le_lt_dec (length (tasks e)) tid) as [|Hlt']; [done|].
      rewrite (Hold tid t Hlt' Et) in Hlive. done.
    + unfold last_status. rewrite fold_left_app. cbn. symmetry. apply last_status_snoc.
  - constructor; cbn; [|exact Hold|].
    + eexists _, _. split; [reflexivity|]. cbn. split; [done|]. split; [done|]. split.
      * rewrite <- Hdom, <- Hd. apply set_eq. intros k. rewrite !elem_of_dom. unfold m'. rewrite map_lookup_imap.
        destruct (m !! k); [split; by eexists | done].
      * intros k i Ei. unfold m' in Ei. rewrite map_lookup_imap in Ei. destruct (m !! k) as [i0|] eqn:E0; [|done].
        cbn in Ei. injection Ei as <-. destruct (Hr k i0 E0) as (? & ? & ?). by apply collected_agrees.
    + rewrite Hlen', <- Hdom. by rewrite size_dom.
Qed.

(** ** Properties *)

(** [start] either fails while building, and then nothing is stopped and
    nothing changes but the status, which stays [Starting]; or it succeeds:
    every task of an earlier configuration has ended or been aborted, exactly
    one task is spawned per server, the engine is running under the new
    configuration's id with the servers it names, the broadcast status is the
    snapshot of those very servers, and each server's entry agrees with its
    task: a server said to be running has an unfinished task and no message,
    one that stopped or failed while starting has given its task up and
    carries a message.  [start] never blocks. *)
Theorem engine_start_spec e c during : engine_ok e -> (config_weight local_default c <= fuel)%nat ->
  exists e' r, start e c during = Ready (e', r) /\
    match r with
    | Ok _ => started_with c e e'
    | Err _ => state e' = state e /\ tasks e' = tasks e /\ current_status e' = ESStarting (lit "Building config...")
    end.
Proof.
  intros He Hf. destruct (start_spec e c during He Hf) as (e' & r & E & _ & H). by exists e', r.
Qed.

(** The engine's operations as its callers use them. *)
Inductive EngineOp : Type :=
| OpStart (c : Config) (during : list (nat * TaskEnd))
| OpStop
| OpCollect
| OpUpdateNet (name : bytes) (update : Net -> Net)
| OpTasksEnd (ends : list (nat * TaskEnd)).

Definition run_engine_op (e : Inner) (o : EngineOp) : poll Inner :=
  match o with
  | OpStart c during => match start e c during with Ready (e, _) => Ready e | Pending => Pending end
  | OpStop => stop e
  | OpCollect => collect_finished_servers e
  | OpUpdateNet name update =>
    match update_net e name update with Ready (e, _) => Ready e | Pending => Pending end
  | OpTasksEnd ends => Ready (env ends e)
  end.

Fixpoint run_engine (e : Inner) (l : list EngineOp) : poll Inner :=
  match l with
  | [] => Ready e
  | o :: l => match run_engine_op e o with Ready e => run_engine e l | Pending => Pending end
  end.

Definition op_fits (o : EngineOp) : Prop :=
  match o with OpStart c _ => (config_weight local_default c <= fuel)%nat | _ => True end.

Lemma named_getter_total nets refs : exists x, resolve_net (named_getter nets) tt refs = Done x.
Proof.
  induction refs as [|[p r] refs [x IH]]; cbn; [by eexists|].
  assert (H : exists y, named_getter nets tt r p = Done y).
  { destruct r; try by eexists. cbn. destruct (nets !! s); by eexists. }
  destruct H as [[[[[] r'] h]|] ->]; cbn; [|by eexists]. rewrite IH. destruct x as [[? ?]|]; by eexists.
Qed.

Lemma build_net_named nets i : exists x, build_net reg (named_getter nets) tt i = Done x.
Proof.
  unfold build_net. destruct (registry_get_net reg (net_type i)) as [it|]; [|by eexists].
  unfold item_build, build_dyn. destruct (from_value _ _) as [[rest refs]|]; [|by eexists].
  destruct (named_getter_total nets refs) as [x ->]. destruct x as [[[] l]|]; cbn; [|by eexists].
  destruct (to_value _ _ _); [|by eexists]. destruct (build _ _ _); by eexists.
Qed.

Lemma update_net_frame e name update : exists e' r, update_net e name update = Ready (e', r) /\
  tasks e' = tasks e /\ log e' = log e /\ current_status e' = current_status e /\
    (state e' = state e \/ exists sc en sc' en', state e = Running sc en /\ state e' = Running sc' en' /\
       re_servers en' = re_servers en /\ re_nets en' = re_nets en /\ sc_id sc' = sc_id sc).
Proof.
  unfold update_net. destruct (state e) as [|sc en] eqn:E; [eexists e, _; rewrite E; split; [reflexivity|]; by auto|].
  destruct (de_all (all_fields sc)) as [c|]; [|eexists e, _; rewrite E; split; [reflexivity|]; by auto].
  destruct (im_get (cfg_net c) name) as [cfg|]; [|eexists e, _; rewrite E; split; [reflexivity|]; by auto].
  destruct (re_nets en !! name) as [h|]; [|eexists e, _; rewrite E; split; [reflexivity|]; by auto].
  destruct (build_net_named (re_nets en) (update cfg)) as [x ->].
  destruct x as [[[u cfg'] n]|]; [|eexists e, _; rewrite E; split; [reflexivity|]; by auto].
  destruct (ser_all _); [destruct (ser_simple _)|]; eexists _, _; (split; [reflexivity|]); cbn;
    repeat (split; [done|]); right; by eexists _, _, _, _.
Qed.

Lemma run_engine_op_ok e o : engine_ok e -> op_fits o -> exists e', run_engine_op e o = Ready e' /\ engine_ok e'.
Proof.
  intros He Ho. destruct o as [c during| | |name update|ends]; cbn [run_engine_op].
  - destruct (start_spec e c during He Ho) as (e' & r & -> & H & _). by exists e'.
  - destruct (stop_spec e He) as (e' & -> & H & _). by exists e'.
  - destruct (collect_spec e He) as (e' & -> & H & _). by exists e'.
  - destruct (update_net_frame e name update) as (e' & r & -> & E1 & E2 & E3 & E4).
    exists e'. split; [done|]. destruct He as [H1 H2 H3 H4].
    assert (Hs : match state e' with Running _ en => exists sc0 en0, state e = Running sc0 en0 /\ re_servers en = re_servers en0
        | WaitConfig => state e = WaitConfig end).
    { destruct E4 as [->|(? & ? & ? & ? & -> & -> & Hr & _)]; [destruct (state e); [done | by eexists _, _]|].
      by eexists _, _. }
    constructor; rewrite ?E1, ?E2, ?E3; [done| | |done].
    + destruct (state e') as [|sc en]; [done|]. destruct Hs as (? & ? & Es & ->). by rewrite Es in H2.
    + intros tid t Et Hl. rewrite E1 in Et. pose proof (H3 tid t Et Hl) as H. destruct (state e') as [|sc en].
      * by rewrite Hs in H.
      * destruct Hs as (? & ? & Es & ->). by rewrite Es in H.
  - eexists. split; [reflexivity|]. by apply env_ok.
Qed.

Lemma engine_new_ok : engine_ok engine_new.
Proof. constructor; [intros tid t E; done | done | intros tid t E; done | done]. Qed.

(** C16: Whatever order starts, stops, collections, net updates and endings of
    server tasks come in, no operation of the engine blocks, the status it
    reports is the last one it broadcast, and no server task is ever lost
    track of: one that may still run belongs to a server of the running
    configuration, so a stopped engine has none. *)
Theorem engine_consistent l : Forall op_fits l ->
  exists e, run_engine engine_new l = Ready e /\ current_status e = last_status (log e) /\
    (forall tid t, tasks e !! tid = Some t -> t_live t = true ->
      exists sc en k i, state e = Running sc en /\ re_servers en !! k = Some i /\ rs_state (si_running i) = RRunning tid).
Proof.
  intros Hl. assert (H : exists e, run_engine engine_new l = Ready e /\ engine_ok e).
  { generalize engine_new_ok. generalize engine_new. induction Hl as [|o l Ho _ IH]; intros e He; cbn [run_engine]; [by exists e|].
    destruct (run_engine_op_ok e o He Ho) as (e1 & -> & He1). by apply IH. }
  destruct H as (e & E & [H1 H2 H3 H4]). exists e. split; [done|]. split; [done|].
  intros tid t Et Hlive. pose proof (H3 tid t Et Hlive) as H. destruct (state e) as [|sc en]; [done|].
  destruct H as (k & i & ? & ?). by exists sc, en, k, i.
Qed.

(** [update_net] rebuilds one net in place: when it succeeds, the names,
    servers, id, tasks and status stay, every other net is untouched, and the
    updated one keeps its handle and name, so whoever refers to it now uses
    the net its plugin built from the updated options and nets that are
    running; both serialised forms are of the configuration with those
    options. *)
Theorem update_net_spec e name update sc en c cfg h e' :
  state e = Running sc en -> de_all (all_fields sc) = Ok c ->
  im_get (cfg_net c) name = Some cfg -> re_nets en !! name = Some h ->
  update_net e name update = Ready (e', Ok tt) ->
  exists n cfg' a s ar', build_net reg (named_getter (re_nets en)) tt (update cfg) = Done (Ok (tt, cfg', n)) /\
    ser_all (mkConfig (cfg_id c) (im_insert (cfg_net c) name cfg') (cfg_server c)) = Ok a /\
    ser_simple (mkConfig (cfg_id c) (im_insert (cfg_net c) name cfg') (cfg_server c)) = Ok s /\
    e' = mkInner (Running (mkSer (sc_id sc) a s) (mkEntities (re_nets en) ar' (re_servers en)))
           (current_status e) (log e) (tasks e) /\
    (forall h', h' <> h -> ar' !! h' = re_arena en !! h') /\
    ar' !! h = (fun rn => mkRunningNet (rn_name rn) n) <$> re_arena en !! h /\
    rn_name <$> ar' = rn_name <$> re_arena en.
Proof.
  intros Hs Hd Hc Hh E. unfold update_net in E. rewrite Hs, Hd, Hc, Hh in E.
  destruct (build_net _ _ _ _) as [| |[[[[] cfg'] n]|]] eqn:Eb; try done.
  cbn [cfg_id cfg_net cfg_server re_nets re_arena re_servers] in E.
  destruct (ser_all _) as [a|] eqn:Ea; [|done]. destruct (ser_simple _) as [s|] eqn:Es; [|done].
  injection E as <-. exists n, cfg', a, s, (running_net_update h n (re_arena en)).
  split; [done|]. split; [done|]. split; [done|]. split; [done|]. unfold running_net_update.
  split; [intros h' Hn; by apply list_lookup_alter_ne|]. split; [apply list_lookup_alter_eq|].
  apply list_eq. intros j. rewrite !list_lookup_fmap. destruct (decide (h = j)) as [->|Hn].
  - rewrite list_lookup_alter_eq. by destruct (re_arena en !! j).
  - by rewrite list_lookup_alter_ne.
Qed.

(** The net is replaced even where the new configuration then cannot be
    written down; [update_net] fails, the net stays the new one, and the
    serialised forms not yet made stay the old ones. *)
Theorem update_net_unserialised e name update sc en c cfg h n cfg' err :
  state e = Running sc en -> de_all (all_fields sc) = Ok c ->
  im_get (cfg_net c) name = Some cfg -> re_nets en !! name = Some h ->
  build_net reg (named_getter (re_nets en)) tt (update cfg) = Done (Ok (tt, cfg', n)) ->
  ser_all (mkConfig (cfg_id c) (im_insert (cfg_net c) name cfg') (cfg_server c)) = Err err ->
  update_net e name update =
    Ready (mkInner (Running sc (mkEntities (re_nets en) (running_net_update h n (re_arena en)) (re_servers en)))
             (current_status e) (log e) (tasks e), Err err).
Proof. intros Hs Hd Hc Hh Hb Ha. unfold update_net. by rewrite Hs, Hd, Hc, Hh, Hb, Ha. Qed.

Lemma stream_loop_ok rounds : forall e config,
  engine_ok e -> (config_weight local_default config <= fuel)%nat ->
  Forall (fun rd => forall c, r_next rd = Ok (Some c) -> (config_weight local_default c <= fuel)%nat) rounds ->
  (exists rd, last rounds = Some rd /\ forall c, r_next rd <> Ok (Some c)) ->
  exists e' r, stream_loop e config rounds = Ready (e', r) /\ engine_ok e'.
Proof.
  induction rounds as [|rd rounds IH]; intros e config He Hf Hr (rl & Hl & Hlast); [done|].
  inversion_clear Hr as [|? ? Hr1 Hr2].
  assert (Hgo : forall c, r_next rd = Ok (Some c) -> exists rd', last rounds = Some rd' /\ forall c, r_next rd' <> Ok (Some c)).
  { intros c Ec. destruct rounds as [|rd' rounds]; [|by exists rl].
    cbn in Hl. injection Hl as <-. by destruct (Hlast c). }
  cbn [stream_loop].
  destruct (start_spec e config (r_starting rd) He Hf) as (e1 & r1 & -> & He1 & _).
  destruct r1 as [[]|err].
  - pose proof (env_ok (r_waiting rd) e1 He1) as He2.
    assert (exists e3, (if wait_any_exit (env (r_waiting rd) e1) then collect_finished_servers (env (r_waiting rd) e1)
        else Ready (env (r_waiting rd) e1)) = Ready e3 /\ engine_ok e3) as (e3 & -> & He3).
    { destruct (wait_any_exit _); [|by eexists]. destruct (collect_spec _ He2) as (e3 & -> & ? & _). by exists e3. }
    pose proof (env_ok (r_after rd) e3 He3) as He4.
    destruct (r_next rd) as [[c|]|] eqn:En; [|by eexists _, _..].
    destruct (stop_spec _ He4) as (e5 & -> & He5 & _). apply IH; [done | by apply Hr1 | done | by eapply Hgo].
  - pose proof (env_ok (r_waiting rd) _ (set_status_ok (ESError (show_error err)) e1 He1)) as He2.
    destruct (r_next rd) as [[c|]|] eqn:En; [|by eexists _, _..]. apply IH; [done | by apply Hr1 | done | by eapply Hgo].
Qed.

Lemma close_connections_none {V} listening (batches : list (list (Event V))) : forall cs n cs' n',
  close_connections listening batches cs n = Ready (cs', n') -> connection_count cs' = 0%nat.
Proof.
  induction batches as [|b batches IH]; intros cs n cs' n'; cbn [close_connections];
    destruct (Nat.eqb_spec (connection_count cs) 0); intros E; try (injection E as <- <-; done); [done|].
  by apply IH in E.
Qed.

(** C36: The engine's main loop shuts down clean: whatever configurations come
    and whether they build, however servers end, once the stream ends or
    fails (its error is dropped: the result is [Ok]) and the connections'
    events let the closing loop finish, [start_stream] returns with the
    engine waiting for a configuration, its status idle and broadcast as
    such, no server task alive and no connection open. *)
Theorem start_stream_shutdown {V} (cs : ConnectionState V) config rounds listening batches cs' n :
  (config_weight local_default config <= fuel)%nat ->
  Forall (fun rd => forall c, r_next rd = Ok (Some c) -> (config_weight local_default c <= fuel)%nat) rounds ->
  (exists rd, last rounds = Some rd /\ forall c, r_next rd <> Ok (Some c)) ->
  close_connections listening batches cs 0 = Ready (cs', n) ->
  exists e', start_stream engine_new cs (FirstCfg config) rounds listening batches = Ready (e', cs', Ok tt) /\
    state e' = WaitConfig /\ current_status e' = ESIdle /\ last_status (log e') = ESIdle /\
    (forall tid t, tasks e' !! tid = Some t -> t_live t = false) /\ connection_count cs' = 0%nat.
Proof.
  intros Hf Hr Hl Hc. unfold start_stream.
  destruct (stream_loop_ok rounds engine_new config engine_new_ok Hf Hr Hl) as (e1 & r1 & -> & He1).
  destruct (stop_spec e1 He1) as (e2 & -> & He2 & Hst & Hcs & _). rewrite Hc. exists e2. split; [done|].
  split; [done|]. split; [done|]. split; [rewrite <- (eo_status e2 He2); done|]. split; [|by eapply close_connections_none].
  intros tid t Et. destruct (t_live t) eqn:El; [|done]. pose proof (eo_live e2 He2 tid t Et El) as H. by rewrite Hst in H.
Qed.

(** A server whose task panics goes unnoticed: its semaphore is not
    closed, so as long as no other server ends the engine does not wake, and
    collecting leaves it reported as it was. *)
Theorem server_panic_unnoticed sc en st lg ts :
  let panicked := map (task_finish Panicked) ts in
  Forall (fun t => t = fresh) ts -> tasks_ok panicked ->
  map_Forall (fun _ i => exists tid, rs_state (si_running i) = RRunning tid /\ (tid < length ts)%nat) (re_servers en) ->
  re_servers en <> ∅ ->
  let e := mkInner (Running sc en) st lg panicked in
  wait_any_exit e = false /\
  exists en', collect_finished_servers e = Ready (mkInner (Running sc en') st lg panicked) /\ re_servers en' = re_servers en.
Proof.
  intros panicked Hfr Ht Hr Hne e.
  assert (Hnf : forall k i, re_servers en !! k = Some i -> is_finished panicked i = false /\ wait_finished panicked (si_running i) = false).
  { intros k i Ei. destruct (Hr k i Ei) as (tid & Er & Hlt). unfold is_finished, wait_finished. rewrite Er.
    unfold panicked. change (map (task_finish Panicked) ts) with (task_finish Panicked <$> ts). rewrite list_lookup_fmap.
    destruct (lookup_lt_is_Some_2 ts tid Hlt) as [t Et]. rewrite Et.
    rewrite List.Forall_forall in Hfr. rewrite (Hfr t); [done|]. apply list_elem_of_In. by eapply list_elem_of_lookup_2. }
  split.
  - unfold wait_any_exit. cbn [state e tasks].
    assert (existsb (fun kv => wait_finished panicked (si_running kv.2)) (btree_list (re_servers en)) = false) as Hex.
    { apply not_true_is_false. intros H. apply existsb_exists in H as ([k i] & Hin & Hw).
      apply list_elem_of_In, In_btree in Hin. cbn in Hw. destruct (Hnf k i Hin) as [_ Hx]. congruence. }
    destruct (btree_list (re_servers en)) as [|x l] eqn:El; [|exact Hex].
    destruct Hne. apply map_size_empty_inv. by rewrite <- length_btree, El.
  - unfold collect_finished_servers. cbn [state e tasks current_status log]. rewrite collect_pass_map by done.
    assert (existsb (fun kv => is_finished panicked kv.2) (btree_list (re_servers en)) = false) as ->.
    { apply not_true_is_false. intros H. apply existsb_exists in H as ([k i] & Hin & Hw).
      apply list_elem_of_In, In_btree in Hin. cbn in Hw. destruct (Hnf k i Hin) as [Hx _]. congruence. }
    cbn [orb]. eexists. split; [reflexivity|]. cbn. apply map_eq. intros k. rewrite map_lookup_imap.
    destruct (re_servers en !! k) as [i|] eqn:Ei; [|done]. cbn. f_equal. unfold collected.
    pose proof (take_if_finished panicked i Ht) as Hf. destruct (Hnf k i Ei) as [Ef _]. rewrite Ef in Hf. by rewrite Hf.
Qed.

End Engine.

(** *** The engine over the sample registry *)

Definition sample_ser (c : Config) : res bytes := Ok (cfg_id c).
(** The flattened form of [sample_config], which is what the engine stored. *)
Definition sample_flat : Config :=
  match build_entities 30 sample_registry VNull sample_config with Done (Ok (c, _)) => c | _ => sample_config end.
Definition sample_de (_ : bytes) : res Config := Ok sample_flat.

Notation sample_start := (start (fun _ => []) [] sample_ser sample_ser sample_registry VNull 30).

Lemma sample_ser_ok c : exists b, sample_ser c = Ok b.
Proof. by eexists. Qed.

Definition sample_new : @Inner (list nat) (list RunningServerNet) := engine_new.

(** The server of [sample_config] fails while starting. *)
Lemma engine_start_spec_witness :
  exists e' r, sample_start sample_new sample_config [(0%nat, Returned (Err EConnectionReset))] = Ready (e', r) /\
    match r with
    | Ok _ => started_with sample_config sample_new e'
    | Err _ => state e' = state sample_new /\ tasks e' = tasks sample_new /\
        current_status e' = ESStarting (lit "Building config...")
    end.
Proof.
  apply engine_start_spec; [exact sample_ser_ok | exact sample_ser_ok | exact sample_registry_sane | |].
  - exact engine_new_ok.
  - vm_compute. lia.
Defined.

Definition sample_ops_engine : list EngineOp :=
  [OpStart sample_config []; OpStart circular_config []; OpTasksEnd [(0%nat, Panicked)]; OpCollect; OpStop].

Lemma engine_consistent_witness : exists e,
  run_engine (fun _ => []) [] sample_ser sample_ser sample_de sample_registry VNull 30 engine_new sample_ops_engine = Ready e /\
  current_status e = last_status (log e).
Proof.
  destruct (engine_consistent (fun _ => []) [] sample_ser sample_ser sample_de sample_registry VNull 30
    sample_ser_ok sample_ser_ok sample_registry_sane sample_ops_engine) as (e & H1 & H2 & _).
  - repeat constructor; vm_compute; lia.
  - exists e. split; assumption.
Defined.

(** The first configuration runs and its server ends, the second does not
    build, then the stream fails; one connection is open at the end. *)
Definition sample_rounds : list Round :=
  [mkRound [] [(0%nat, Returned (Ok tt))] [] (Ok (Some circular_config)); mkRound [] [] [] (Err EUnexpectedEof)].
Definition sample_conns : ConnectionState unit :=
  recv_event conns_new [connection_new 1 10 0 Tcp (ADomain [98] 80) tt].
Definition sample_batches : list (list (Event unit)) := [[]; [mkEvent 1 [CloseConnection] 5]].

Lemma start_stream_shutdown_witness : exists e' cs',
  start_stream (fun _ => []) [] sample_ser sample_ser sample_registry VNull 30 engine_new sample_conns
    (FirstCfg sample_config) sample_rounds (fun _ => true) sample_batches = Ready (e', cs', Ok tt) /\
  state e' = WaitConfig.
Proof.
  edestruct (start_stream_shutdown (fun _ => []) [] sample_ser sample_ser sample_registry VNull 30
    sample_ser_ok sample_ser_ok sample_registry_sane sample_conns sample_config sample_rounds (fun _ => true) sample_batches)
    as (e' & H1 & H2 & _).
  - vm_compute. lia.
  - apply Forall_cons. split; [|apply Forall_cons; split; [|apply Forall_nil; exact I]].
    + intros c H. injection H as <-. vm_compute. lia.
    + intros c H. discriminate H.
  - exists (mkRound [] [] [] (Err EUnexpectedEof)). split; [reflexivity|]. intros c H. discriminate H.
  - vm_compute. reflexivity.
  - eexists _, _. split; [exact H1 | exact H2].
Defined.

(** The engine running [sample_config]. *)
Definition sample_engine : Inner :=
  match sample_start engine_new sample_config [] with Ready (e, _) => e | Pending => engine_new end.

(** [b] is made to refer to [a], which wraps it. *)
Definition to_a (n : Net) : Net := mkNet (net_type n) (named "a").

Lemma update_net_spec_witness : exists e' n cfg',
  update_net sample_ser sample_ser sample_de sample_registry sample_engine (lit "b") to_a = Ready (e', Ok tt) /\
  build_net sample_registry (named_getter {[ lit "local" := 0%nat; lit "b" := 1%nat; lit "net/a/net" := 2%nat; lit "a" := 3%nat ]}) tt
    (to_a (mkNet (lit "chain") (VObj []))) = Done (Ok (tt, cfg', n)).
Proof.
  assert (H : exists sc en cfg e', state sample_engine = Running sc en /\
      sample_de (all_fields sc) = Ok sample_flat /\ im_get (cfg_net sample_flat) (lit "b") = Some cfg /\
      re_nets en !! lit "b" = Some 1%nat /\
      update_net sample_ser sample_ser sample_de sample_registry sample_engine (lit "b") to_a = Ready (e', Ok tt) /\
      to_a cfg = to_a (mkNet (lit "chain") (VObj [])) /\
      re_nets en = {[ lit "local" := 0%nat; lit "b" := 1%nat; lit "net/a/net" := 2%nat; lit "a" := 3%nat ]}).
  { eexists _, _, _, _. split; [vm_compute; reflexivity|]. split; [reflexivity|].
    split; [vm_compute; reflexivity|]. split; [vm_compute; reflexivity|]. split; [vm_compute; reflexivity|].
    split; vm_compute; reflexivity. }
  destruct H as (sc & en & cfg & e' & H1 & H2 & H3 & H4 & H5 & H6 & H7).
  destruct (update_net_spec sample_ser sample_ser sample_de sample_registry sample_engine (lit "b") to_a
    sc en sample_flat cfg 1 e' H1 H2 H3 H4 H5) as (n & cfg' & a & s & ar' & Hb & _).
  exists e', n, cfg'. split; [exact H5|]. rewrite <- H6, <- H7. exact Hb.
Defined.

(** Nets can be made circular while the engine runs: [update_net] checks
    that names exist, not that they do not lead back.  After [b] is updated
    to refer to [a], whose inline net refers to [b], each of the three nets
    holds the next, and the update is accepted. *)
Theorem update_net_allows_circle :
  match update_net sample_ser sample_ser sample_de sample_registry sample_engine (lit "b") to_a with
  | Ready (e, Ok _) =>
    match state e with
    | Running _ en => map (fun rn => (rn_name rn, rn_net rn)) (re_arena en) =
        [(lit "local", []); (lit "b", [3%nat]); (lit "net/a/net", [1%nat]); (lit "a", [2%nat])]
    | WaitConfig => False
    end
  | _ => False
  end.
Proof. vm_compute. reflexivity. Qed.

Lemma server_panic_unnoticed_witness :
  match state sample_engine with
  | Running sc en => wait_any_exit (mkInner (Running sc en) ESIdle [] [task_finish Panicked fresh]) = false
  | WaitConfig => False
  end.
Proof.
  assert (H : exists sc en, state sample_engine = Running sc en /\
      map_Forall (fun _ i => exists tid, rs_state (si_running i) = RRunning tid /\ (tid < length [fresh])%nat) (re_servers en) /\
      size (re_servers en) = 1%nat).
  { eexists _, _. split; [vm_compute; reflexivity|]. split; [|vm_compute; reflexivity].
    apply map_Forall_to_list. vm_compute. apply Forall_singleton. exists 0%nat. split; [reflexivity | lia]. }
  destruct H as (sc & en & -> & Hr & Hsz).
  destruct (server_panic_unnoticed (fun _ => []) [] sc en ESIdle [] [fresh]) as [Hw _].
  - repeat constructor.
  - intros tid t E Hc. destruct tid as [|tid]; [|destruct tid; discriminate E]. injection E as <-. reflexivity.
  - exact Hr.
  - intros E. rewrite E, map_size_empty in Hsz. discriminate Hsz.
  - exact Hw.
Defined.

End Engine.
Export Engine.
