(* ===== verification/Secrets.v ===== *)
(** * Fields that are not always serialized: [rd-interface/src/config.rs],
    and the configurations of the nets that have them

    A plugin's secrets, and its large fields, are marked so that the
    configuration shown to the user lacks them, while the one the engine
    keeps for [update_net] has them.  Here is the marking, what serde makes
    of a struct with marked fields, and what the engine keeps. *)

From S2P Require Import Prelude ConnContext Build Engine.

Module Secrets.

(* src/rd-interface/src/config.rs:201-208 ConfigField *)
Inductive ConfigField : Type := Common | Detail | Sensitive.

#[export] Instance config_field_eq_dec : EqDecision ConfigField.
Proof. solve_decision. Defined.

(* src/rd-interface/src/config.rs:210-214 ALL_SERIALIZE_FIELDS *)
Definition ALL_SERIALIZE_FIELDS : list ConfigField := [Common; Detail; Sensitive].

(** What the thread's [SERIALIZE_FIELDS] starts as. *)
(* src/rd-interface/src/config.rs:215-215 SERIALIZE_FIELDS *)
Definition SERIALIZE_FIELDS : list ConfigField := [Common].

(* src/rd-interface/src/config.rs:217-219 detailed_field *)
Definition detailed_field (thread : list ConfigField) : bool := negb (bool_decide (Detail ∈ thread)).

(* src/rd-interface/src/config.rs:221-223 sensitive_field *)
Definition sensitive_field (thread : list ConfigField) : bool := negb (bool_decide (Sensitive ∈ thread)).

(** [f] runs on the thread; it may itself change the thread's fields. *)
(* src/rd-interface/src/config.rs:225-232 serialize_with_fields *)
Definition serialize_with_fields {T} (fields : list ConfigField) (f : list ConfigField -> T * list ConfigField)
    (thread : list ConfigField) : T * list ConfigField :=
  let old_fields := thread in
  let '(ret, _) := f fields in
  (ret, old_fields).

(** ** Structs *)

(** A field of a configuration: its key, what [serde(default)] gives it (an
    [Option]'s is [None]), the [skip_serializing_if] it has, whether it is a
    reference to a net, and how its value is read. *)
Record Field : Type := mkField {
  f_key : bytes;
  f_default : option Value;
  f_skip : option (list ConfigField -> bool);
  f_ref : bool;
  f_parse : Value -> res Value }.

(** What the derived [Deserialize] and [Serialize] make of a field. *)
Definition de_field (l : list (bytes * Value)) (f : Field) : res Value :=
  match im_get l (f_key f) with
  | Some v => f_parse f v
  | None => match f_default f with Some v => Ok v | None => Err (EOther "missing field") end
  end.

Fixpoint de_fields (l : list (bytes * Value)) (d : list Field) : res (list (Field * Value)) :=
  match d with
  | [] => Ok []
  | f :: d => v ← de_field l f; vs ← de_fields l d; Ok ((f, v) :: vs)
  end.

Definition skipped (thread : list ConfigField) (f : Field) : bool :=
  match f_skip f with Some skip => skip thread | None => false end.

Definition ser_fields (thread : list ConfigField) (vs : list (Field * Value)) : list (bytes * Value) :=
  map (fun x => (f_key x.1, x.2)) (List.filter (fun x => negb (skipped thread x.1)) vs).

(** The names and values of a struct's fields, as one value. *)
Definition fields_value (vs : list (Field * Value)) : Value := VObj (map (fun x => (f_key x.1, x.2)) vs).

Definition field_refs (vs : list (Field * Value)) : list (list bytes * Value) :=
  map (fun x => ([f_key x.1], x.2)) (List.filter (fun x => f_ref x.1) vs).

(** The references, in order, in place of the fields' values. *)
Fixpoint with_refs (refs : list (list bytes * Value)) (vs : list (Field * Value)) : list (Field * Value) :=
  match vs with
  | [] => []
  | (f, v) :: vs =>
    if f_ref f then match refs with [] => (f, v) :: with_refs [] vs | r :: refs => (f, r.2) :: with_refs refs vs end
    else (f, v) :: with_refs refs vs
  end.

Section Struct.
Context {H T : Type} (d : list Field) (make : list (Field * Value) -> list (list bytes * Value * H) -> res T).

Definition struct_de (v : Value) : res (list (Field * Value)) :=
  match v with VObj l => de_fields l d | _ => Err (EOther "invalid type") end.

(** A plugin with such a configuration, built on a thread with these
    fields. *)
Definition struct_builder (thread : list ConfigField) : Builder H T :=
  mkBuilder
    (fun v => vs ← struct_de v; Ok (fields_value vs, field_refs vs))
    (fun rest refs => vs ← struct_de rest; Ok (VObj (ser_fields thread (with_refs refs vs))))
    (fun rest l => vs ← struct_de rest; make vs l).
End Struct.

(** ** The configurations with such a field *)

Definition plain (k : string) (d : option Value) : Field := mkField (lit k) d None false Ok.
Definition detailed (k : string) : Field := mkField (lit k) None (Some detailed_field) false Ok.
Definition net_field : Field := mkField (lit "net") (Some (VStr (lit "local"))) None true Ok.

Section Configs.
(** How the values of the fields' types are read. *)
Context (address cipher websocket bool_ string u64 : Value -> res Value).
Definition typed (p : Value -> res Value) (f : Field) : Field := mkField (f_key f) (f_default f) (f_skip f) (f_ref f) p.
Definition opt (p : Value -> res Value) (v : Value) : res Value := match v with VNull => Ok VNull | _ => p v end.

(* src/protocol/ss/src/client.rs:16-32 SSNetConfig *)
Definition SSNetConfig : list Field :=
  [typed address (plain "server" None); typed string (detailed "password");
   typed bool_ (plain "udp" (Some (VBool false))); typed cipher (plain "cipher" None); net_field].

(* src/protocol/trojan/src/client.rs:73-97 TrojanNetConfig *)
Definition TrojanNetConfig : list Field :=
  [net_field; typed address (plain "server" None); typed string (detailed "password");
   typed (opt string) (plain "sni" (Some VNull)); typed bool_ (plain "skip_cert_verify" (Some (VBool false)));
   typed (opt websocket) (plain "websocket" (Some VNull)); typed (opt u64) (plain "handshake_timeout" (Some VNull))].

(* src/protocol/trojan/src/client.rs:100-117 TrojancNetConfig *)
Definition TrojancNetConfig : list Field :=
  [net_field; typed address (plain "server" None); typed string (detailed "password");
   typed (opt websocket) (plain "websocket" (Some VNull)); typed (opt u64) (plain "handshake_timeout" (Some VNull))].
End Configs.

(** ** Facts *)

Lemma serialize_with_fields_restores {T} fields (f : list ConfigField -> T * list ConfigField) thread :
  (serialize_with_fields fields f thread).2 = thread /\ (serialize_with_fields fields f thread).1 = (f fields).1.
Proof. unfold serialize_with_fields. by destruct (f fields). Qed.

Lemma skip_all : detailed_field ALL_SERIALIZE_FIELDS = false /\ sensitive_field ALL_SERIALIZE_FIELDS = false.
Proof. by vm_compute. Qed.
Lemma skip_default : detailed_field SERIALIZE_FIELDS = true /\ sensitive_field SERIALIZE_FIELDS = true.
Proof. by vm_compute. Qed.

Lemma de_fields_keys l d : forall vs, de_fields l d = Ok vs -> map fst vs = d.
Proof.
  induction d as [|f d IH]; intros vs E; cbn in E; [by injection E as <-|].
  destruct (de_field l f); [|done]. destruct (de_fields l d); [|done]. injection E as <-. cbn. f_equal. by apply IH.
Qed.

Lemma de_fields_missing l d f :
  In f d -> f_default f = None -> im_get l (f_key f) = None -> exists e, de_fields l d = Err e.
Proof.
  intros Hin Hd Hl. induction d as [|f' d IH]; [done|]. cbn.
  destruct (de_field l f') as [v|e] eqn:Ev; [|by eexists]. cbn.
  destruct Hin as [->|Hin]; [unfold de_field in Ev; by rewrite Hl, Hd in Ev|].
  destruct (IH Hin) as [e ->]. by eexists.
Qed.

Lemma de_fields_id l : forall vs,
  (forall f v, In (f, v) vs -> im_get l (f_key f) = Some v /\ f_parse f v = Ok v) -> de_fields l (map fst vs) = Ok vs.
Proof.
  induction vs as [|[f v] vs IH]; intros H; [done|]. cbn. destruct (H f v (or_introl eq_refl)) as [H1 H2].
  unfold de_field at 1. rewrite H1, H2. cbn. rewrite IH; [done|]. intros f' v' Hin. apply H. by right.
Qed.

Lemma im_get_in {V} (l : list (bytes * V)) k v : NoDup (map fst l) -> In (k, v) l -> im_get l k = Some v.
Proof.
  induction l as [|[k' v'] l IH]; intros Hn Hin; [done|]. cbn in *. apply NoDup_cons in Hn as [Hn1 Hn].
  destruct Hin as [E|Hin].
  - injection E as -> ->. by rewrite decide_True.
  - rewrite decide_False; [by apply IH|]. intros ->. apply Hn1. apply list_elem_of_In.
    by apply (in_map fst) in Hin.
Qed.

Lemma im_get_none {V} (l : list (bytes * V)) k : ~ In k (map fst l) -> im_get l k = None.
Proof.
  induction l as [|[k' v'] l IH]; intros H; [done|]. cbn in *.
  rewrite decide_False by (intros ->; tauto). apply IH. tauto.
Qed.

Lemma ser_fields_keys thread vs k :
  In k (map fst (ser_fields thread vs)) -> exists f v, In (f, v) vs /\ f_key f = k /\ skipped thread f = false.
Proof.
  unfold ser_fields. rewrite map_map. intros ([f v] & E & Hin)%in_map_iff. apply filter_In in Hin as [H1 H2].
  exists f, v. split; [done|]. split; [exact E|]. by apply negb_true_iff.
Qed.

Lemma with_refs_keys vs : forall refs, map fst (with_refs refs vs) = map fst vs.
Proof.
  induction vs as [|[f v] vs IH]; intros refs; [done|]. cbn.
  destruct (f_ref f); [destruct refs|]; cbn; by rewrite IH.
Qed.

Lemma with_refs_refs vs : forall refs, map fst refs = map fst (field_refs vs) -> field_refs (with_refs refs vs) = refs.
Proof.
  induction vs as [|[f v] vs IH]; intros refs E; [by destruct refs|]. unfold field_refs in *. cbn in *.
  destruct (f_ref f) eqn:Ef; cbn in *; [|rewrite Ef; by apply IH].
  destruct refs as [|[p r] refs]; [done|]. cbn in *. rewrite Ef. cbn. injection E as -> E. f_equal. by apply IH.
Qed.

Lemma with_refs_in vs : forall refs f v, In (f, v) (with_refs refs vs) -> In (f, v) vs \/ In v (map snd refs).
Proof.
  induction vs as [|[g w] vs IH]; intros refs f v Hin; [done|]. cbn in Hin.
  destruct (f_ref g); [destruct refs as [|r refs]|]; cbn in *; destruct Hin as [E|Hin];
    try (injection E as -> ->; tauto); apply IH in Hin; cbn in *; tauto.
Qed.

(** Keys of a struct are its fields' names. *)
Lemma in_key (d : list Field) f g : NoDup (map f_key d) -> In f d -> In g d -> f_key f = f_key g -> f = g.
Proof.
  induction d as [|a d IH]; intros Hn Hf Hg E; [done|]. cbn in Hn. apply NoDup_cons in Hn as [Hn1 Hn].
  destruct Hf as [->|Hf], Hg as [->|Hg]; [done| | |by apply IH]; exfalso; apply Hn1; apply list_elem_of_In.
  - rewrite E. by apply in_map.
  - rewrite <- E. by apply in_map.
Qed.

(** A value read by a field is read as itself. *)
Definition stable (d : list Field) : Prop :=
  Forall (fun f => (forall v w, f_parse f v = Ok w -> f_parse f w = Ok w) /\
    (forall w, f_default f = Some w -> f_parse f w = Ok w)) d.

Lemma de_fields_stable l d : stable d -> forall vs, de_fields l d = Ok vs -> forall f v, In (f, v) vs -> f_parse f v = Ok v.
Proof.
  induction 1 as [|f d [H1 H2] _ IH]; intros vs E g v Hin; cbn in E; [by injection E as <-|].
  destruct (de_field l f) as [w|] eqn:Ew; [|done]. destruct (de_fields l d) as [ws|]; [|done]. injection E as <-.
  destruct Hin as [Eg|Hin]; [|by eapply IH]. injection Eg as <- <-. unfold de_field in Ew.
  destruct (im_get l (f_key f)); [by eapply H1|]. destruct (f_default f); [|done]. injection Ew as <-. by apply H2.
Qed.

Section Rebuild.
Context {H T : Type} (d : list Field) (make : list (Field * Value) -> list (list bytes * Value * H) -> res T).
Context (Hnd : NoDup (map f_key d)).
#[local] Abbreviation builder := (struct_builder d make).

Lemma de_object vs : map fst vs = d -> (forall f v, In (f, v) vs -> f_parse f v = Ok v) ->
  struct_de d (fields_value vs) = Ok vs.
Proof.
  intros E Hs. unfold struct_de, fields_value. rewrite <- E. apply de_fields_id. intros f v Hin. split; [|by apply Hs].
  apply im_get_in; [|by apply (in_map (fun x => (f_key x.1, x.2))) in Hin].
  rewrite map_map. change (NoDup (map (fun x => f_key (fst x)) vs)). rewrite <- (map_map fst f_key), E. exact Hnd.
Qed.

(** What is read of what is written, when nothing is skipped. *)
Lemma reread thread v rest refs refs' v' :
  Forall (fun f => skipped thread f = false) d -> stable d ->
  from_value (builder thread) v = Ok (rest, refs) ->
  map fst refs' = map fst refs -> Forall (fun r => forall f, In f d -> f_parse f r.2 = Ok r.2) refs' ->
  to_value (builder thread) rest refs' = Ok v' ->
  exists rest', from_value (builder thread) v' = Ok (rest', refs').
Proof.
  intros Hk Hs E Er Hr Ev. cbn in *. destruct (struct_de d v) as [vs|] eqn:Ed; [|done]. cbn in E. injection E as <- <-.
  destruct v as [| | | | |l]; [done..|]. cbn in Ed.
  pose proof (de_fields_keys _ _ _ Ed) as Ekeys. pose proof (de_fields_stable _ _ Hs _ Ed) as Hst.
  rewrite de_object in Ev by done. cbn in Ev. injection Ev as <-.
  assert (ser_fields thread (with_refs refs' vs) = map (fun x => (f_key x.1, x.2)) (with_refs refs' vs)) as ->.
  { unfold ser_fields. rewrite forallb_filter_id; [done|]. apply forallb_forall. intros [f v] Hin. cbn.
    rewrite List.Forall_forall in Hk. rewrite Hk; [done|]. rewrite <- Ekeys, <- (with_refs_keys vs refs').
    by apply (in_map fst) in Hin. }
  change (VObj _) with (fields_value (with_refs refs' vs)). rewrite de_object; cbn.
  - eexists. by rewrite with_refs_refs.
  - by rewrite with_refs_keys.
  - intros f v Hin. pose proof Hin as Hin'. apply with_refs_in in Hin as [Hin|Hin]; [by apply Hst|].
    apply in_map_iff in Hin as (r & <- & Hin). rewrite List.Forall_forall in Hr. apply Hr; [done|].
    rewrite <- Ekeys, <- (with_refs_keys vs refs'). by apply (in_map fst) in Hin'.
Qed.

(** What is read of what is written, when a field it needs is skipped. *)
Lemma reread_fails thread f rest refs v' :
  In f d -> f_default f = None -> skipped thread f = true ->
  to_value (builder thread) rest refs = Ok v' -> exists e, from_value (builder thread) v' = Err e.
Proof.
  intros Hf Hd Hk Ev. cbn in *. destruct rest as [| | | | |l]; [done..|]. cbn in Ev.
  destruct (de_fields l d) as [vs|] eqn:Ed; [|done]. cbn in Ev. injection Ev as <-. cbn.
  destruct (de_fields_missing (ser_fields thread (with_refs refs vs)) d f Hf Hd) as [e ->]; [|by eexists].
  apply im_get_none. intros (g & w & Hin & Eg & Hg)%ser_fields_keys.
  assert (In g d) as Hg'. { rewrite <- (de_fields_keys _ _ _ Ed), <- (with_refs_keys vs refs). by apply (in_map fst) in Hin. }
  rewrite (in_key d g f Hnd Hg' Hf Eg) in Hg. congruence.
Qed.

(** A net whose configuration has a secret is built from options that it
    cannot be built from again: what [build_dyn] leaves in their place has
    been written with the thread's fields. *)
Theorem built_once {St} (getter getter' : St -> Value -> list bytes -> run (St * Value * H)) thread f st v st' v' t st2 :
  In f d -> f_default f = None -> skipped thread f = true ->
  build_dyn getter (builder thread) st v = Done (Ok (st', v', t)) ->
  exists e, build_dyn getter' (builder thread) st2 v' = Done (Err e).
Proof.
  intros Hf Hd Hk E. unfold build_dyn in E.
  destruct (from_value (builder thread) v) as [[rest refs]|]; [|done].
  destruct (resolve_net getter st refs) as [| |[[st1 l]|]]; cbn [run_bind] in E; try done.
  destruct (to_value (builder thread) rest (map fst l)) as [w|] eqn:Ew; [|done].
  destruct (build (builder thread) rest l); [|done]. injection E as _ <- _.
  destruct (reread_fails thread f rest _ w Hf Hd Hk Ew) as [e Ee]. exists e. unfold build_dyn. by rewrite Ee.
Qed.
End Rebuild.

(** ** A Shadowsocks net in the engine *)

Definition ss_fields : list Field := SSNetConfig Ok Ok Ok Ok.

Lemma ss_fields_keys : NoDup (map f_key ss_fields).
Proof. apply (bool_decide_eq_true (NoDup (map f_key ss_fields))). vm_compute. reflexivity. Qed.

Definition ss_builder (thread : list ConfigField) : Builder nat (list nat) :=
  struct_builder ss_fields (fun _ l => Ok (map snd l)) thread.

Definition ss_registry (thread : list ConfigField) : @Registry (list nat) (list RunningServerNet) :=
  add_registry (mkRegistry ∅ ∅) (lit "ss")
    (mkPlugins {[ lit "shadowsocks" := ss_builder thread; lit "local" := sample_builder ]} {[ lit "srv" := sample_builder ]}).

Definition ss_options : Value :=
  VObj [(lit "server", VStr (lit "example.com:8388")); (lit "password", VStr (lit "secret")); (lit "cipher", VStr (lit "aes-128-gcm"))].

Definition ss_config : Config := mkConfig (lit "id") [(lit "a", mkNet (lit "shadowsocks") ss_options)] (sample_server "a").

Definition ss_getter (st : unit) (r : Value) (_ : list bytes) : run (unit * Value * nat) := Done (Ok (st, r, 0%nat)).

Lemma built_once_witness :
  exists v' e, build_dyn ss_getter (ss_builder SERIALIZE_FIELDS) tt ss_options = Done (Ok (tt, v', [0%nat])) /\
    build_dyn ss_getter (ss_builder SERIALIZE_FIELDS) tt v' = Done (Err e).
Proof.
  assert (H : exists v', build_dyn ss_getter (ss_builder SERIALIZE_FIELDS) tt ss_options = Done (Ok (tt, v', [0%nat]))).
  { eexists. vm_compute. reflexivity. }
  destruct H as [v' E].
  destruct (built_once ss_fields _ ss_fields_keys ss_getter ss_getter SERIALIZE_FIELDS (detailed "password") _ _ _ _ _ tt
    ltac:(right; left; reflexivity) eq_refl (proj1 skip_default) E) as [e He].
  exists v', e. split; [exact E | exact He].
Defined.

(** The engine running [ss_config]; [thread] are the fields of the thread
    its registry builds on, [SERIALIZE_FIELDS] in the code. *)
Definition ss_flat (thread : list ConfigField) : Config :=
  match build_entities 30 (ss_registry thread) VNull ss_config with Done (Ok (c, _)) => c | _ => ss_config end.
Definition ss_engine (thread : list ConfigField) : poll (Inner * res unit) :=
  start (fun _ => []) [] sample_ser sample_ser (ss_registry thread) VNull 30 engine_new ss_config [].
Definition ss_update (thread : list ConfigField) (update : Net -> Net) : option (poll (@Inner (list nat) (list RunningServerNet) * res unit)) :=
  match ss_engine thread with
  | Ready (e, Ok _) => Some (update_net sample_ser sample_ser (fun _ => Ok (ss_flat thread)) (ss_registry thread) e (lit "a") update)
  | _ => None
  end.

(** The engine keeps no password, so no update of the net succeeds, not even
    one that changes nothing; had [build_net] run with all the fields, this
    one would. *)
Theorem update_net_loses_secret :
  match ss_update SERIALIZE_FIELDS (fun n => n) with
  | Some (Ready (_, r)) => r = Err (EWithContext "Failed to build net. Please check your config."
      (EWithContext "Failed to build net" (EOther "missing field")))
  | _ => False
  end /\
  match ss_update ALL_SERIALIZE_FIELDS (fun n => n) with Some (Ready (_, Ok _)) => True | _ => False end.
Proof. split; vm_compute; [reflexivity | exact I]. Qed.
End Secrets.
Export Secrets.
