(* ===== verification/Lru.v ===== *)
(** * The interface of [lru_time_cache::LruCache]

    What the code relies on of the third-party cache, as a class: the clients
    (the rule net, the NAT table of the gateway) are verified against it. *)

From S2P Require Import Prelude.

Module Lru.

(** [held] is what a cache of keys [K] and values [V] holds.  A lookup gives
    what is held and may reorder or drop entries; an insertion holds the new
    entry, and otherwise what was held or less. *)
Class LruCache (K V C : Type) : Type := {
  held : C -> K -> option V;
  lru_new : nat -> C;
  lru_get : C -> K -> C * option V;
  lru_insert : C -> K -> V -> C;
  lru_new_empty : forall n k, held (lru_new n) k = None;
  lru_get_held : forall c k, (lru_get c k).2 = held c k;
  lru_get_keeps : forall c k k' v, held (lru_get c k).1 k' = Some v -> held c k' = Some v;
  lru_insert_held : forall c k v, held (lru_insert c k v) k = Some v;
  lru_insert_keeps : forall c k v k' v', held (lru_insert c k v) k' = Some v' ->
    (k' = k /\ v' = v) \/ (k' <> k /\ held c k' = Some v') }.

(** *** A cache of bounded size *)

Section Bounded.
Context {K V : Type} `{EqDecision K}.

Fixpoint assoc_get (c : list (K * V)) (k : K) : option V :=
  match c with
  | [] => None
  | (k', v) :: c => if decide (k = k') then Some v else assoc_get c k
  end.

Lemma assoc_get_take n c k v : assoc_get (take n c) k = Some v -> assoc_get c k = Some v.
Proof.
  revert n. induction c as [|[k' w] c IH]; intros [|n] E; cbn in E |- *; try discriminate E.
  destruct (decide (k = k')); [exact E | exact (IH n E)].
Qed.

(** Four entries, the latest first. *)
#[local] Instance bounded_cache : LruCache K V (list (K * V)).
Proof.
  refine {| held := assoc_get; lru_new := fun _ => []; lru_get := fun c k => (c, assoc_get c k);
            lru_insert := fun c k v => take 4 ((k, v) :: c) |}.
  - reflexivity.
  - reflexivity.
  - intros c k k' v E. exact E.
  - intros c k v. cbn. destruct (decide (k = k)) as [_|n]; [reflexivity | destruct (n eq_refl)].
  - intros c k v k' v' E. apply assoc_get_take in E. cbn in E.
    destruct (decide (k' = k)) as [->|]; [left; injection E as ->; split; reflexivity | right; split; assumption].
Defined.

End Bounded.

End Lru.
Export Lru.
