(* ===== verification/Rule.v ===== *)
(** * Rules: [rd-std/src/rule/] and [rd-std/src/util/udp_connector.rs]

    The matchers, the rule net with its cache, the socket that binds when its
    first packet is sent, and the merging of rules of the Clash importer.
    CIDR containment ([smoltcp]) and the country lookup ([maxminddb]) are
    parameters; the cache ([lru_time_cache]) is an interface with the laws a
    cache has. *)

From S2P Require Import Prelude Text Io Address ConnContext Lru Build.

Module Rule.

(** ** [SingleOrVec] *)

(* src/rd-interface/src/config/single_or_vec.rs:11-14 SingleOrVec *)
Inductive SingleOrVec (T : Type) : Type := Single (x : T) | Vec (l : list T).
Arguments Single {T} x.
Arguments Vec {T} l.

(* src/rd-interface/src/config/single_or_vec.rs:76-81 SingleOrVec::iter *)
Definition sov_iter {T} (s : SingleOrVec T) : list T := match s with Single t => [t] | Vec v => v end.

(* src/rd-interface/src/config/single_or_vec.rs:70-75 SingleOrVec::into_vec *)
Definition into_vec {T} (s : SingleOrVec T) : list T := match s with Single t => [t] | Vec v => v end.

(* src/rd-interface/src/config/single_or_vec.rs:30-45 SingleOrVec::extend *)
Definition sov_extend {T} (s : SingleOrVec T) (l : list T) : SingleOrVec T :=
  match s with
  | Single i => Vec (i :: l)
  | Vec v => Vec (v ++ l)
  end.

Lemma sov_iter_extend {T} (s : SingleOrVec T) l : sov_iter (sov_extend s l) = sov_iter s ++ l.
Proof. by destruct s. Qed.

(** ** The configuration *)

(* src/rd-std/src/rule/config.rs:13-20 DomainMatcherMethod *)
Inductive DomainMatcherMethod : Type := Keyword | Suffix | Match.

#[global] Instance method_eq_dec : EqDecision DomainMatcherMethod.
Proof. solve_decision. Defined.

(* src/rd-std/src/rule/domain.rs:7-18 DomainMatcherMethod::try_from *)
Definition method_try_from (s : bytes) : res DomainMatcherMethod :=
  if bool_decide (s = lit "keyword") then Ok Keyword
  else if bool_decide (s = lit "suffix") then Ok Suffix
  else if bool_decide (s = lit "match") then Ok Match
  else Err (EOther "Unsupported method").

(* src/rd-std/src/rule/config.rs:22-29 DomainMatcher *)
Record DomainMatcher : Type := mkDomainMatcher { dm_method : DomainMatcherMethod; dm_domain : CompactVecString }.

Section Rule.
(** [wire::IpCidr] with [contains_addr]; [Reader::lookup], which fails or
    gives the country's code if the database has one; serde of a socket
    address. *)
Context {IpCidr : Type} (contains_addr : IpCidr -> IpAddr -> bool).
Context (geoip_lookup : IpAddr -> option (option bytes)).
Context (sa_to_value : SocketAddr -> Value) (sa_from_value : Value -> res SocketAddr).

(* src/rd-std/src/rule/config.rs:101-111 Matcher *)
Inductive Matcher : Type :=
| MDomain (m : DomainMatcher)
| MIpCidr (ipcidr : SingleOrVec IpCidr)
| MSrcIpCidr (ipcidr : SingleOrVec IpCidr)
| MGeoIp (country : bytes)
| MAny.

(** [merge]: the new matcher, or [None] for [false]. *)
(* src/rd-std/src/rule/config.rs:113-140 Matcher::merge *)
Definition matcher_merge (self other : Matcher) : option Matcher :=
  match self, other with
  | MDomain d, MDomain d' => Some (MDomain (mkDomainMatcher (dm_method d) (cvs_extend (dm_domain d) (cvs_iter (dm_domain d')))))
  | MIpCidr c, MIpCidr c' => Some (MIpCidr (sov_extend c (sov_iter c')))
  | MSrcIpCidr c, MSrcIpCidr c' => Some (MSrcIpCidr (sov_extend c (sov_iter c')))
  | MAny, MAny => Some MAny
  | _, _ => None
  end.

(** A rule with its target, [N] being resolved nets. *)
Context {N : Type}.

(* src/rd-std/src/rule/config.rs:142-149 RuleItem *)
Record RuleItem : Type := mkRule { target_name : bytes; rule_target : N; matcher : Matcher }.

(* src/rd-std/src/rule/config.rs:151-159 RuleItem::merge *)
Definition rule_merge (self other : RuleItem) : option RuleItem :=
  if bool_decide (target_name self = target_name other) then
    match matcher_merge (matcher self) (matcher other) with
    | Some m => Some (mkRule (target_name self) (rule_target self) m)
    | None => None
    end
  else None.

(** The fold over the rules of a Clash configuration. *)
(* src/src/config/importer/clash.rs:618-630 Clash::process *)
Definition merge_step (state : list RuleItem) (item : RuleItem) : list RuleItem :=
  match reverse state with
  | last :: before =>
    match rule_merge last item with
    | Some last => reverse (last :: before)
    | None => state ++ [item]
    end
  | [] => state ++ [item]
  end.
Definition merge_rules (items : list RuleItem) : list RuleItem := fold_left merge_step items [].

(** ** Matching *)

(* src/rd-std/src/rule/domain.rs:20-38 DomainMatcher::test *)
Definition domain_test (m : DomainMatcher) (domain : bytes) : bool :=
  let domains := cvs_iter (dm_domain m) in
  match dm_method m with
  | Keyword => existsb (fun d => contains d domain) domains
  | Match => existsb (fun d =>
      if starts_with (lit "+.") d then
        match strip_prefix (lit "+") d with Some i => ends_with i domain | None => false end
        || match strip_prefix (lit "+.") d with Some d => bool_decide (domain = d) | None => false end
      else bool_decide (domain = d)) domains
  | Suffix => existsb (fun d => ends_with d domain) domains
  end.

(* src/rd-std/src/rule/matcher.rs:44-50 MatchContext *)
Record MatchContext : Type := mkMatch {
  mc_address : Address;
  src_ip_addr : option IpAddr;
  dest_socket_addr : option SocketAddr;
  dest_domain : option AddressDomain }.

#[local] Instance AddressDomain_eq_dec : EqDecision AddressDomain.
Proof. solve_decision. Defined.
#[local] Instance MatchContext_eq_dec : EqDecision MatchContext.
Proof. solve_decision. Defined.

(** The common fields of a context. *)
(* src/rd-interface/src/context.rs:190-195 SrcSocketAddr *)
Definition SrcSocketAddr : CommonField SocketAddr :=
  {| KEY := lit "src_socket_addr"; field_to_value := sa_to_value; field_from_value := sa_from_value |}.
(* src/rd-interface/src/context.rs:74-79 Context::from_socketaddr *)
Definition from_socketaddr (addr : SocketAddr) : Context := @insert_common _ SrcSocketAddr ctx_new addr.
(* src/rd-interface/src/context.rs:183-188 DestSocketAddr *)
Definition DestSocketAddr : CommonField SocketAddr :=
  {| KEY := lit "dest_socket_addr"; field_to_value := sa_to_value; field_from_value := sa_from_value |}.
(* src/rd-interface/src/context.rs:175-181 DestDomain *)
Definition DestDomain : CommonField AddressDomain :=
  {| KEY := lit "dest_domain";
     field_to_value := fun a => VStr (show_address_domain a);
     field_from_value := fun v => match v with VStr s => address_domain_from_str s | _ => Err (EOther "invalid type") end |}.

(* src/rd-std/src/rule/matcher.rs:53-63 MatchContext::from_context_address *)
Definition from_context_address (ctx : Context) (addr : Address) : res MatchContext :=
  match @get_common _ SrcSocketAddr ctx with
  | Err e => Err e
  | Ok src =>
    match @get_common _ DestSocketAddr ctx with
    | Err e => Err e
    | Ok dst =>
      match @get_common _ DestDomain ctx with
      | Err e => Err e
      | Ok dom => Ok (mkMatch (to_normalized addr) (sa_ip <$> src) dst dom)
      end
    end
  end.

(* src/rd-std/src/rule/matcher.rs:76-87 MatchContext::get_domain *)
Definition get_domain (mc : MatchContext) : option (bytes * Z) :=
  match mc_address mc with
  | ADomain d p => Some (d, p)
  | ASocket _ => match dest_domain mc with Some a => Some (ad_domain a, ad_port a) | None => None end
  end.

(* src/rd-std/src/rule/matcher.rs:88-102 MatchContext::get_socket_addr *)
Definition get_socket_addr (mc : MatchContext) : option SocketAddr :=
  match mc_address mc with
  | ASocket a => Some a
  | ADomain _ _ =>
    match to_socket_addr (mc_address mc) with
    | Ok a => Some a
    | Err _ => dest_socket_addr mc
    end
  end.

(* src/rd-std/src/rule/ipcidr.rs:5-10 IpCidrMatcher::test *)
Definition ipcidr_test (l : SingleOrVec IpCidr) (a : IpAddr) : bool := existsb (fun c => contains_addr c a) (sov_iter l).

(* src/rd-std/src/rule/geoip.rs:41-66 GeoIpMatcher::test *)
Definition geoip_test (country : bytes) (a : IpAddr) : bool :=
  match geoip_lookup a with
  | Some (Some c) => bool_decide (c = country)
  | Some None => match country with [] => true | _ => false end
  | None => false
  end.

(* src/rd-std/src/rule/config.rs:176-186 Matcher::match_rule *)
Definition match_rule (m : Matcher) (mc : MatchContext) : bool :=
  match m with
  | MDomain d => match get_domain mc with Some (domain, _) => domain_test d domain | None => false end
  | MIpCidr c => match get_socket_addr mc with Some a => ipcidr_test c (sa_ip a) | None => false end
  | MSrcIpCidr c => match src_ip_addr mc with Some a => ipcidr_test c a | None => false end
  | MGeoIp country => match get_socket_addr mc with Some a => geoip_test country (sa_ip a) | None => false end
  | MAny => true
  end.

(** ** [Rule] and its cache *)

(** The loop of [get_rule]. *)
(* src/rd-std/src/rule/rule_net.rs:72-78 Rule::get_rule *)
Fixpoint scan (i : nat) (rules : list RuleItem) (mc : MatchContext) : option (nat * RuleItem) :=
  match rules with
  | [] => None
  | r :: rules => if match_rule (matcher r) mc then Some (i, r) else scan (S i) rules mc
  end.

Section Cache.
Context {C : Type} `{LruCache MatchContext nat C}.

(** A cached index beyond the rules would panic: [None]. *)
(* src/rd-std/src/rule/rule_net.rs:62-82 Rule::get_rule *)
Definition get_rule (rules : list RuleItem) (c : C) (ctx : Context) (target : Address) : option (C * res RuleItem) :=
  match from_context_address ctx target with
  | Err e => Some (c, Err e)
  | Ok mc =>
    let '(c, hit) := lru_get c mc in
    match hit with
    | Some i => match rules !! i with Some r => Some (c, Ok r) | None => None end
    | None =>
      match scan 0 rules mc with
      | Some (i, r) => Some (lru_insert c mc i, Ok r)
      | None => Some (c, Err ENotMatched)
      end
    end
  end.

(** What concurrent calls do to the shared cache: a lookup and a later
    insertion are separate steps. *)
Inductive CacheStep : Type := CGet (mc : MatchContext) | CInsert (mc : MatchContext).

Definition run_cache_step (rules : list RuleItem) (c : C) (s : CacheStep) : C :=
  match s with
  | CGet mc => (lru_get c mc).1
  | CInsert mc => match scan 0 rules mc with Some (i, _) => lru_insert c mc i | None => c end
  end.

(* src/rd-std/src/rule/rule_net.rs:27-60 Rule::new *)
Definition rule_new (rules : list RuleItem) (lru_cache_size : nat) : list RuleItem * C := (rules, lru_new lru_cache_size).

End Cache.

(** What a connection's context holds when it comes through a server's net. *)
(* src/rabbit-digger/src/rabbit_digger/running.rs:146-154 RunningServerNet::tcp_connect *)
Definition prepare_context (server_name : bytes) (ctx : Context) (addr : Address) : Context :=
  let ctx := append_net ctx server_name in
  match addr with
  | ADomain domain port => @insert_common _ DestDomain ctx (mkAddressDomain domain port)
  | ASocket a => @insert_common _ DestSocketAddr ctx a
  end.

(** ** [UdpConnector] *)

(* src/rd-std/src/util/udp_connector.rs:17-25 State *)
Inductive UcState : Type :=
| UcIdle
| UcBinding (target : Address) (buf : bytes) (completed : bool)
| UcBinded.

(** The permits of the semaphore come with the state. *)
(* src/rd-std/src/util/udp_connector.rs:28-31 UdpConnector *)
Record UdpConnector : Type := mkUc { uc_state : UcState; permits : nat }.

(* src/rd-std/src/util/udp_connector.rs:34-41 UdpConnector::new *)
Definition uc_new : UdpConnector := mkUc UcIdle 0.

(** The outcome of a call that may panic. *)
Inductive uc_result (A : Type) : Type := UcPanic | UcPoll (r : poll (res A)).
Arguments UcPanic {A}.
Arguments UcPoll {A} r.

(** [connect] is what polling the connector's future gives, [inner] what the
    bound socket's [poll_send_to] gives.  The last component is what reaches
    the bound socket: the rule net's connector sends the packet it is called
    with before it returns the socket.  A future polled again after it
    completed panics. *)
(* src/rd-std/src/util/udp_connector.rs:70-104 UdpConnector::poll_send_to *)
Fixpoint uc_poll_send_to (fuel : nat) (connect : poll (res unit)) (inner : poll (res nat))
    (u : UdpConnector) (buf : bytes) (target : Address) : UdpConnector * uc_result nat * list (bytes * Address) :=
  match fuel with
  | O => (u, UcPoll Pending, [])
  | S fuel =>
    match uc_state u with
    | UcBinded =>
      match inner with
      | Pending => (u, UcPoll Pending, [])
      | Ready (Ok n) => (u, UcPoll (Ready (Ok n)), [(buf, target)])
      | Ready (Err e) => (u, UcPoll (Ready (Err e)), [])
      end
    | UcBinding t0 b0 true => (u, UcPanic, [])
    | UcBinding t0 b0 false =>
      match connect with
      | Pending => (u, UcPoll Pending, [])
      | Ready r =>
        match r with
        | Err e => (mkUc (UcBinding t0 b0 true) (S (permits u)), UcPoll (Ready (Err e)), [])
        | Ok _ =>
          let '(u, r, sent) := uc_poll_send_to fuel connect inner (mkUc UcBinded (S (permits u))) buf target in
          (u, r, (b0, t0) :: sent)
        end
      end
    | UcIdle => uc_poll_send_to fuel connect inner (mkUc (UcBinding target buf false) (permits u)) buf target
    end
  end.

(** [recv] on the bound socket; otherwise a permit is waited for. *)
(* src/rd-std/src/util/udp_connector.rs:55-68 UdpConnector::poll_recv_from *)
Fixpoint uc_poll_recv_from (fuel : nat) {A} (inner : poll (res A)) (u : UdpConnector) : UdpConnector * poll (res A) :=
  match fuel with
  | O => (u, Pending)
  | S fuel =>
    match uc_state u with
    | UcBinded => (u, inner)
    | _ =>
      match permits u with
      | O => (u, Pending)
      | S p => uc_poll_recv_from fuel inner (mkUc (uc_state u) p)
      end
    end
  end.

(** ** Lemmas *)

Lemma ends_with_spec (p s : bytes) : ends_with p s = true <-> exists t, s = t ++ p.
Proof.
  unfold ends_with. destruct (strip_suffix p s) as [t|] eqn:E.
  - apply strip_suffix_spec in E. split; [by exists t | done].
  - split; [done|]. intros (t & Et). apply strip_suffix_spec in Et. congruence.
Qed.

Lemma address_domain_roundtrip d p : port_ok p ->
  address_domain_from_str (show_address_domain (mkAddressDomain d p)) = Ok (mkAddressDomain d p).
Proof.
  intros Hp. unfold address_domain_from_str, show_address_domain. cbn [ad_domain ad_port].
  rewrite rsplit_port by done. cbv beta iota. rewrite parse_show_uint by (unfold port_ok in Hp; lia). done.
Qed.

Lemma scan_spec rules mc : forall i, match scan i rules mc with
  | Some (j, r) => (i <= j)%nat /\ rules !! (j - i)%nat = Some r /\ match_rule (matcher r) mc = true /\
      forall k r', (k < j - i)%nat -> rules !! k = Some r' -> match_rule (matcher r') mc = false
  | None => forall r, r ∈ rules -> match_rule (matcher r) mc = false
  end.
Proof.
  induction rules as [|r rules IH]; intros i; cbn [scan].
  - intros r Hr. by apply elem_of_nil in Hr.
  - destruct (match_rule (matcher r) mc) eqn:E.
    + split; [lia|]. rewrite Nat.sub_diag. split; [done|]. split; [done|]. intros k r' Hk. lia.
    + specialize (IH (S i)). destruct (scan (S i) rules mc) as [[j r0]|].
      * destruct IH as (Hj & Hl & Hm & Hb). split; [lia|]. replace (j - i)%nat with (S (j - S i)) by lia.
        split; [done|]. split; [done|]. intros [|k] r' Hk Hr; cbn in Hr; [congruence|]. apply (Hb k); [lia | done].
      * intros r' Hr. apply elem_of_cons in Hr as [->|Hr]; [done | by apply IH].
Qed.

(** The first rule that matches. *)
Definition first_match (rules : list RuleItem) (mc : MatchContext) : res RuleItem :=
  match List.find (fun r => match_rule (matcher r) mc) rules with Some r => Ok r | None => Err ENotMatched end.

Lemma scan_find rules mc : forall i, snd <$> scan i rules mc = List.find (fun r => match_rule (matcher r) mc) rules.
Proof. induction rules as [|r rules IH]; intros i; cbn; [done|]. by destruct (match_rule (matcher r) mc). Qed.

Section CacheLemmas.
Context {C : Type} `{LruCache MatchContext nat C}.

(** Everything held is the index of a first match. *)
Definition cache_ok (rules : list RuleItem) (c : C) : Prop :=
  forall mc i, held c mc = Some i -> exists r, scan 0 rules mc = Some (i, r).

Lemma cache_step_ok rules c s : cache_ok rules c -> cache_ok rules (run_cache_step rules c s).
Proof.
  intros Hc. destruct s as [mc|mc]; cbn [run_cache_step].
  - intros mc' i Hh. apply Hc. by eapply lru_get_keeps.
  - destruct (scan 0 rules mc) as [[i r]|] eqn:E; [|done].
    intros mc' j Hh. apply lru_insert_keeps in Hh as [[-> ->]|[_ Hh]]; [by exists r | by apply Hc].
Qed.

End CacheLemmas.

(** Merging. *)
Definition matcher_ok (m : Matcher) : Prop := match m with MDomain d => exists l, dm_domain d = cvs_of l | _ => True end.

Definition same_method (a b : Matcher) : Prop :=
  match a, b with MDomain d, MDomain d' => dm_method d = dm_method d' | _, _ => True end.

Lemma existsb_app' {A} (f : A -> bool) l1 l2 : existsb f (l1 ++ l2) = existsb f l1 || existsb f l2.
Proof. apply existsb_app. Qed.

Lemma matcher_merge_spec a b m : matcher_ok a -> matcher_ok b -> same_method a b -> matcher_merge a b = Some m ->
  matcher_ok m /\ (forall mc, match_rule m mc = match_rule a mc || match_rule b mc) /\
  (forall x, same_method b x -> same_method m x).
Proof.
  intros Ha Hb Hs E. destruct a as [d|c|c|c|], b as [d'|c'|c'|c'|]; try discriminate; injection E as <-; cbn [matcher_ok].
  - destruct Ha as [l Hl], Hb as [l' Hl']. cbn in Hs. cbn [dm_domain dm_method].
    rewrite Hl, Hl', cvs_iter_of, cvs_extend_of. split; [by eexists|]. split.
    + intros mc. cbn. destruct (get_domain mc) as [[dom p]|]; [|done].
      unfold domain_test. cbn [dm_domain dm_method]. rewrite Hl, Hl', !cvs_iter_of, <- Hs.
      destruct (dm_method d); apply existsb_app.
    + intros x. destruct x; cbn; congruence.
  - split; [done|]. split; [|done]. intros mc. cbn. destruct (get_socket_addr mc); [|done].
    unfold ipcidr_test. rewrite sov_iter_extend. apply existsb_app.
  - split; [done|]. split; [|done]. intros mc. cbn. destruct (src_ip_addr mc); [|done].
    unfold ipcidr_test. rewrite sov_iter_extend. apply existsb_app.
  - split; [done|]. split; [|done]. by intros mc.
Qed.

(** Where a list of rules sends a connection. *)
Definition route (rules : list RuleItem) (mc : MatchContext) : option bytes :=
  target_name <$> List.find (fun r => match_rule (matcher r) mc) rules.

Lemma route_app l1 l2 mc : route (l1 ++ l2) mc = match route l1 mc with Some t => Some t | None => route l2 mc end.
Proof. unfold route. induction l1 as [|r l1 IH]; cbn; [done|]. by destruct (match_rule (matcher r) mc). Qed.

(** Neighbouring rules of one target that match domains do so by one method. *)
Definition neighbours_agree (items : list RuleItem) : Prop :=
  forall i a b, items !! i = Some a -> items !! S i = Some b -> target_name a = target_name b ->
  same_method (matcher a) (matcher b).

(** The last rule of the fold stands for the last item. *)
Definition stands_for (r a : RuleItem) : Prop :=
  target_name r = target_name a /\ matcher_ok (matcher r) /\ forall x, same_method (matcher a) x -> same_method (matcher r) x.

Lemma merge_rules_inv items : Forall (fun r => matcher_ok (matcher r)) items -> neighbours_agree items ->
  (forall mc, route (merge_rules items) mc = route items mc) /\
  match last items with
  | Some a => exists before r, merge_rules items = before ++ [r] /\ stands_for r a
  | None => merge_rules items = []
  end.
Proof.
  induction items as [|x items IH] using rev_ind; intros Hok Hn; [done|].
  apply Forall_app in Hok as [Hok Hx]. apply List.Forall_inv in Hx.
  assert (Hn' : neighbours_agree items).
  { intros i a b E1 E2. apply (Hn i); by apply lookup_app_l_Some. }
  specialize (IH Hok Hn') as [IHr IHl].
  unfold merge_rules. rewrite fold_left_app. cbn [fold_left]. fold (merge_rules items).
  rewrite last_snoc.
  assert (Hpush : (forall mc, route (merge_rules items ++ [x]) mc = route (items ++ [x]) mc) /\
      exists before r, merge_rules items ++ [x] = before ++ [r] /\ stands_for r x).
  { split; [intros mc; by rewrite !route_app, IHr|]. exists (merge_rules items), x. split; [done|]. split; [done|]. split; [exact Hx | done]. }
  unfold merge_step. destruct (last items) as [a|] eqn:El.
  2: { rewrite IHl in Hpush |- *. exact Hpush. }
  destruct IHl as (before & r & E & Hst & Hrok & Hsm). rewrite E, reverse_snoc. rewrite E in Hpush, IHr.
  destruct (rule_merge r x) as [m|] eqn:Em; [|exact Hpush].
  unfold rule_merge in Em. case_bool_decide as Ht; [|done].
  destruct (matcher_merge (matcher r) (matcher x)) as [mm|] eqn:Emm; [|done]. injection Em as <-.
  assert (Hax : same_method (matcher r) (matcher x)).
  { apply Hsm. rewrite last_lookup in El.
    apply (Hn (pred (length items))); [by apply lookup_app_l_Some| |congruence].
    apply lookup_lt_Some in El as Hlt. replace (S (pred (length items))) with (length items) by lia.
    rewrite lookup_app_r, Nat.sub_diag by lia. done. }
  destruct (matcher_merge_spec _ _ _ Hrok Hx Hax Emm) as (Hmok & Hmm & Hms).
  rewrite reverse_cons, reverse_involutive. split.
  - intros mc. rewrite (route_app items), <- (IHr mc), !route_app. destruct (route before mc); [done|].
    unfold route. cbn. rewrite Hmm. destruct (match_rule (matcher r) mc); [done|]. cbn.
    destruct (match_rule (matcher x) mc); cbn; [by rewrite Ht | done].
  - eexists _, _. split; [done|]. split; [done|]. split; [done|]. exact Hms.
Qed.

(** ** Properties *)

(** C5: The rule cache is transparent, also under concurrent connections:
    whatever lookups and insertions other calls have made in whatever order,
    [get_rule] returns the first rule that matches the context and the
    normalised address, or [NotMatched] if there is none; a cached index is
    always in range, and the cache it leaves is one that such calls leave. *)
Theorem rule_cache_transparent {C} `{LruCache MatchContext nat C} rules n steps ctx target :
  let c := fold_left (run_cache_step rules) steps (lru_new n) in
  exists c' more, get_rule rules c ctx target =
    Some (c', match from_context_address ctx target with Err e => Err e | Ok mc => first_match rules mc end) /\
    c' = fold_left (run_cache_step rules) (steps ++ more) (lru_new n).
Proof.
  intros c. assert (Hc : cache_ok rules c).
  { unfold c. assert (H0 : cache_ok rules (lru_new n)) by (intros mc i Hh; by rewrite lru_new_empty in Hh).
    revert H0. generalize (lru_new n). induction steps as [|s steps IH]; intros c0 H0; cbn; [done|].
    apply IH. by apply cache_step_ok. }
  unfold get_rule. destruct (from_context_address ctx target) as [mc|e].
  2: { exists c, []. split; [done|]. by rewrite app_nil_r. }
  destruct (lru_get c mc) as [c1 hit] eqn:Eg. assert (Ec1 : c1 = run_cache_step rules c (CGet mc)) by (cbn; by rewrite Eg).
  unfold first_match. rewrite <- (scan_find rules mc 0). destruct hit as [i|].
  - assert (Hh : held c mc = Some i) by (rewrite <- lru_get_held; by rewrite Eg).
    destruct (Hc mc i Hh) as [r Hs]. pose proof (scan_spec rules mc 0) as Hsp. rewrite Hs in Hsp |- *.
    destruct Hsp as (_ & Hl & _). rewrite Nat.sub_0_r in Hl. rewrite Hl.
    exists c1, [CGet mc]. split; [done|]. rewrite fold_left_app. exact Ec1.
  - destruct (scan 0 rules mc) as [[i r]|] eqn:Es; cbn.
    + exists (lru_insert c1 mc i), [CGet mc; CInsert mc]. split; [done|]. rewrite fold_left_app. cbn. fold c.
      rewrite Eg, Es. done.
    + exists c1, [CGet mc]. split; [done|]. rewrite fold_left_app. exact Ec1.
Qed.

(** What the domain methods mean: [keyword] is a substring, [suffix] a
    suffix of the name's bytes (not necessarily at a dot), [match] equality,
    or with a leading [+.] the name itself and every subdomain of it; one
    entry of the list is enough, and an empty list matches nothing. *)
Theorem domain_test_spec (method : DomainMatcherMethod) (l : list bytes) (domain : bytes) :
  domain_test (mkDomainMatcher method (cvs_from_iter l)) domain = true <->
  exists d, In d l /\
    match method with
    | Keyword => exists a b, domain = a ++ d ++ b
    | Suffix => exists a, domain = a ++ d
    | Match =>
      (exists base, d = lit "+." ++ base /\ (domain = base \/ exists sub, domain = sub ++ lit "." ++ base)) \/
      ((forall base, d <> lit "+." ++ base) /\ domain = d)
    end.
Proof.
  unfold domain_test. cbn [dm_domain dm_method]. rewrite cvs_from_iter_of, cvs_iter_of.
  destruct method; rewrite existsb_exists; (split; intros (d & Hin & Hd); exists d; (split; [exact Hin|])).
  - by apply contains_spec.
  - by apply contains_spec.
  - by apply ends_with_spec.
  - by apply ends_with_spec.
  - destruct (starts_with (lit "+.") d) eqn:Es.
    + apply starts_with_spec in Es as (base & ->). left. exists base. split; [done|].
      apply orb_true_iff in Hd as [Hd|Hd].
      * change (lit "+." ++ base) with (lit "+" ++ lit "." ++ base) in Hd.
        rewrite (proj2 (strip_prefix_spec (lit "+") _ _) eq_refl) in Hd.
        apply ends_with_spec in Hd as (sub & ->). right. by exists sub.
      * rewrite (proj2 (strip_prefix_spec (lit "+.") _ _) eq_refl) in Hd. left. by case_bool_decide.
    + right. split; [|by case_bool_decide]. intros base ->.
      assert (starts_with (lit "+.") (lit "+." ++ base) = true) by (apply starts_with_spec; by exists base). congruence.
  - destruct Hd as [(base & -> & Hd)|[Hn ->]].
    + rewrite (proj2 (starts_with_spec (lit "+.") _)) by (by exists base).
      apply orb_true_iff. destruct Hd as [->|(sub & ->)].
      * right. rewrite (proj2 (strip_prefix_spec (lit "+.") _ _) eq_refl). by rewrite bool_decide_true.
      * left. change (lit "+." ++ base) with (lit "+" ++ lit "." ++ base).
        rewrite (proj2 (strip_prefix_spec (lit "+") _ _) eq_refl). apply ends_with_spec. by exists sub.
    + destruct (starts_with (lit "+.") d) eqn:Es; [|by rewrite bool_decide_true].
      apply starts_with_spec in Es as (base & ->). by destruct (Hn base).
Qed.

(** C34: Merging the rules of a Clash configuration does not change where any
    connection goes: the merged list sends every context to the same target
    as the list it was merged from, provided that neighbouring domain rules
    of one target use one method (the merge keeps the first rule's method for
    all). *)
Theorem merge_rules_route items : 
  Forall (fun r => matcher_ok (matcher r)) items -> neighbours_agree items ->
  forall mc, route (merge_rules items) mc = route items mc.
Proof. intros H1 H2. apply (merge_rules_inv items H1 H2). Qed.

(** A connection that enters through a server carries its destination to
    the rules, whatever address a net on the way passes on: to a rule net
    further down the context still has the source, and the destination domain
    (or socket address) the server was asked for, so a domain rule sees that
    domain even when the address has meanwhile been resolved. *)
Theorem server_destination_kept name ctx d p a mc :
  (forall x, sa_from_value (sa_to_value x) = Ok x) -> port_ok p ->
  from_context_address ctx a = Ok mc ->
  (forall a', from_context_address (prepare_context name ctx (ADomain d p)) a' =
     Ok (mkMatch (to_normalized a') (src_ip_addr mc) (dest_socket_addr mc) (Some (mkAddressDomain d p)))) /\
  (forall s a', from_context_address (prepare_context name ctx (ASocket s)) a' =
     Ok (mkMatch (to_normalized a') (src_ip_addr mc) (Some s) (dest_domain mc))) /\
  (forall s' mc', from_context_address (prepare_context name ctx (ADomain d p)) (ASocket s') = Ok mc' ->
     get_domain mc' = Some (d, p) /\ get_socket_addr mc' = Some s').
Proof.
  intros Hsa Hp E.
  assert (Hd : forall a', from_context_address (prepare_context name ctx (ADomain d p)) a' =
     Ok (mkMatch (to_normalized a') (src_ip_addr mc) (dest_socket_addr mc) (Some (mkAddressDomain d p)))).
  { intros a'. revert E. unfold from_context_address, prepare_context, get_common, insert_common, insert_value.
    cbn [data KEY SrcSocketAddr DestSocketAddr DestDomain field_from_value field_to_value append_net].
    rewrite lookup_insert_eq, !lookup_insert_ne by (vm_compute; discriminate).
    rewrite address_domain_roundtrip by done.
    destruct (data ctx !! lit "src_socket_addr") as [v1|]; [destruct (sa_from_value v1); [|done]|];
      (destruct (data ctx !! lit "dest_socket_addr") as [v2|]; [destruct (sa_from_value v2); [|done]|]);
      (destruct (data ctx !! lit "dest_domain") as [v3|];
       [destruct (match v3 with VStr s => address_domain_from_str s | _ => Err (EOther "invalid type") end); [|done]|]);
      intros [= <-]; done. }
  split; [exact Hd|]. split.
  - intros s a'. revert E. unfold from_context_address, prepare_context, get_common, insert_common, insert_value.
    cbn [data KEY SrcSocketAddr DestSocketAddr DestDomain field_from_value field_to_value append_net].
    rewrite lookup_insert_eq, !lookup_insert_ne by (vm_compute; discriminate).
    rewrite Hsa.
    destruct (data ctx !! lit "src_socket_addr") as [v1|]; [destruct (sa_from_value v1); [|done]|];
      (destruct (data ctx !! lit "dest_socket_addr") as [v2|]; [destruct (sa_from_value v2); [|done]|]);
      (destruct (data ctx !! lit "dest_domain") as [v3|];
       [destruct (match v3 with VStr s => address_domain_from_str s | _ => Err (EOther "invalid type") end); [|done]|]);
      intros [= <-]; done.
  - intros s' mc' E'. rewrite Hd in E'. injection E' as <-. done.
Qed.

(** A call to [poll_send_to] with what it finds: the connector's future, and
    the bound socket's answer. *)
Record SendCall : Type := mkCall {
  sc_connect : poll (res unit); sc_inner : poll (res nat); sc_buf : bytes; sc_target : Address }.

(** A sequence of sends: their results and what reaches the bound socket. *)
Fixpoint run_sends (fuel : nat) (u : UdpConnector) (l : list SendCall)
    : UdpConnector * list (uc_result nat) * list (bytes * Address) :=
  match l with
  | [] => (u, [], [])
  | c :: l =>
    let '(u, r, now) := uc_poll_send_to fuel (sc_connect c) (sc_inner c) u (sc_buf c) (sc_target c) in
    let '(u, rs, sent) := run_sends fuel u l in
    (u, r :: rs, now ++ sent)
  end.

(** The packets whose send succeeded. *)
Fixpoint accepted (l : list SendCall) (rs : list (uc_result nat)) : list (bytes * Address) :=
  match l, rs with
  | c :: l, UcPoll (Ready (Ok _)) :: rs => (sc_buf c, sc_target c) :: accepted l rs
  | _ :: l, _ :: rs => accepted l rs
  | _, _ => []
  end.

Lemma run_sends_bound fuel l : (3 <= fuel)%nat -> forall k,
  let '(u, rs, sent) := run_sends fuel (mkUc UcBinded k) l in
  length rs = length l /\ (UcPanic ∉ rs) /\ uc_state u = UcBinded /\ sent = accepted l rs.
Proof.
  intros Hf k. destruct fuel as [|fuel]; [lia|]. induction l as [|[c i b t] l IH]; cbn.
  { repeat split. by intros ?%elem_of_nil. }
  destruct i as [|[n|e]]; destruct (run_sends _ _ l) as [[u rs] sent]; destruct IH as (Hn & Hp & Hu & ->);
    cbn; rewrite not_elem_of_cons; repeat split; congruence || done.
Qed.

Lemma run_sends_binding fuel l b0 t0 : (3 <= fuel)%nat ->
  Forall (fun c => sc_connect c = Pending \/ sc_connect c = Ready (Ok tt)) l -> forall k,
  let '(u, rs, sent) := run_sends fuel (mkUc (UcBinding t0 b0 false) k) l in
  length rs = length l /\ (UcPanic ∉ rs) /\
  match uc_state u with
  | UcBinded => sent = (b0, t0) :: accepted l rs
  | UcBinding _ _ completed => completed = false /\ sent = [] /\ Forall (fun r => r = UcPoll Pending) rs
  | UcIdle => False /\ sent = []
  end.
Proof.
  intros Hf Hl k. pose proof (fun l => run_sends_bound fuel l Hf) as Hb. destruct fuel as [|[|fuel]]; [lia..|].
  induction l as [|[c i b t] l IH]; cbn.
  { repeat split; [by intros ?%elem_of_nil | constructor]. }
  apply Forall_cons in Hl as [Hc Hl]. cbn [sc_connect] in Hc. destruct Hc as [-> | ->]; cbn.
  - specialize (IH Hl). destruct (run_sends _ _ l) as [[u rs] sent]. destruct IH as (Hn & Hp & Hu). cbn.
    rewrite not_elem_of_cons. repeat split; [congruence|done|done|]. destruct (uc_state u); [done| |done].
    destruct Hu as (-> & -> & Hr). repeat split. by constructor.
  - specialize (Hb l (S k)). destruct i as [|[n|e]]; destruct (run_sends _ _ l) as [[u rs] sent];
      destruct Hb as (Hn & Hp & -> & ->); cbn; rewrite not_elem_of_cons; repeat split; congruence || done.
Qed.

(** The socket of a rule net over any sequence of sends.  As long as
    binding does not fail no send panics, packets reach the bound socket in
    order and only those whose send succeeded, with one exception: the very
    first packet offered is sent by the connector as well, so it goes ahead of
    all others and once more when its own send, or a later one in its place,
    succeeds.  A binding that fails is reported by the send that finds out,
    nothing has been sent, and the next send panics.  Receiving on a bound
    socket is the bound socket's. *)
Theorem rule_udp_delivery fuel l buf target :
  (3 <= fuel)%nat -> Forall (fun c => sc_connect c = Pending \/ sc_connect c = Ready (Ok tt)) l ->
  (forall c, hd_error l = Some c -> sc_buf c = buf /\ sc_target c = target) ->
  let '(u, rs, sent) := run_sends fuel uc_new l in
  length rs = length l /\ (UcPanic ∉ rs) /\
  match uc_state u with
  | UcBinded => sent = (buf, target) :: accepted l rs
  | _ => sent = [] /\ Forall (fun r => r = UcPoll Pending) rs
  end /\
  (forall e i b t b' t' i' c', uc_state u <> UcBinded ->
    let '(u', r, now) := uc_poll_send_to fuel (Ready (Err e)) i u b t in
    r = UcPoll (Ready (Err e)) /\ now = [] /\ (uc_poll_send_to fuel c' i' u' b' t').1.2 = UcPanic) /\
  (forall A (inner : poll (res A)), uc_state u = UcBinded -> uc_poll_recv_from fuel inner u = (u, inner)).
Proof.
  intros Hf Hl Hhd. destruct l as [|[c i b t] l].
  { cbn. repeat split; [by intros ?%elem_of_nil|by constructor| |done].
    intros. destruct fuel as [|[|[|fuel]]]; [lia..|]. repeat split. }
  destruct (Hhd _ eq_refl) as [<- <-]. apply Forall_cons in Hl as [Hc Hl]. cbn [sc_connect sc_buf sc_target] in *.
  pose proof (run_sends_bound fuel l Hf) as Hb. pose proof (run_sends_binding fuel l b t Hf Hl) as Hw.
  destruct fuel as [|[|[|fuel]]]; [lia..|].
  destruct Hc as [-> | ->].
  - cbn. specialize (Hw 0%nat). destruct (run_sends _ _ l) as [[u rs] sent]. destruct Hw as (Hn & Hp & Hu).
    split; [cbn; by rewrite Hn|]. split; [rewrite not_elem_of_cons; by split|].
    destruct (uc_state u) as [|t0 b0 dn|] eqn:Eu.
    + by destruct Hu as [? _].
    + destruct Hu as (Hd & -> & Hr). subst dn. split; [split; [done | by constructor]|]. split; [|done].
      intros. repeat split.
    + done.
  - cbn. specialize (Hb 1%nat). destruct i as [|[n|e]]; destruct (run_sends _ _ l) as [[u rs] sent];
      destruct Hb as (Hn & Hp & Hu & ->); rewrite Hu;
      (split; [cbn; by rewrite Hn|]); (split; [rewrite not_elem_of_cons; by split|]); (split; [done|]);
      done.
Qed.

End Rule.

Arguments UcPanic {A}.
Arguments UcPoll {A} r.

(** *** A cache of a few entries, and rules over one-address CIDRs *)

#[local] Instance sample_cache : LruCache MatchContext nat (list (MatchContext * nat)) :=
  @bounded_cache MatchContext nat MatchContext_eq_dec.

Definition sample_contains (c a : IpAddr) : bool := bool_decide (c = a).
Definition sample_rules : list (@RuleItem IpAddr nat) :=
  [mkRule (lit "proxy") 0%nat (MDomain (mkDomainMatcher Match (cvs_from_iter [lit "+.example.com"])));
   mkRule (lit "proxy") 0%nat (MDomain (mkDomainMatcher Match (cvs_from_iter [lit "example.net"])));
   mkRule (lit "direct") 1%nat (MIpCidr (Single (V4 1)));
   mkRule (lit "direct") 1%nat (MIpCidr (Single (V4 2)))].
Definition sample_sa_to (s : SocketAddr) : Value :=
  VArr [match sa_ip s with V4 a => VNum a | V6 a => VArr [VNum a] end; VNum (sa_port s)].
Definition sample_sa_from (v : Value) : res SocketAddr :=
  match v with
  | VArr [VNum a; VNum p] => Ok (mkSocketAddr (V4 a) p)
  | VArr [VArr [VNum a]; VNum p] => Ok (mkSocketAddr (V6 a) p)
  | _ => Err (EOther "invalid type")
  end.
Definition sample_geoip (_ : IpAddr) : option (option bytes) := None.

Definition sample_mc : MatchContext := mkMatch (ADomain (lit "www.example.com") 80) None None None.

Lemma rule_cache_transparent_witness : exists c' more,
  get_rule sample_contains sample_geoip sample_sa_to sample_sa_from sample_rules
    (fold_left (run_cache_step sample_contains sample_geoip sample_rules) [CInsert sample_mc] (lru_new 2)) ctx_new
    (ADomain (lit "www.example.com") 80) =
  Some (c', match from_context_address sample_sa_to sample_sa_from ctx_new (ADomain (lit "www.example.com") 80) with
            | Err e => Err e
            | Ok mc => first_match sample_contains sample_geoip sample_rules mc end) /\
  c' = fold_left (run_cache_step sample_contains sample_geoip sample_rules) ([CInsert sample_mc] ++ more) (lru_new 2).
Proof.
  exact (rule_cache_transparent sample_contains sample_geoip sample_sa_to sample_sa_from sample_rules 2
    [CInsert sample_mc] ctx_new (ADomain (lit "www.example.com") 80)).
Defined.

Lemma merge_rules_route_witness :
  length (merge_rules sample_rules) = 2%nat /\
  route sample_contains sample_geoip (merge_rules sample_rules) sample_mc =
  route sample_contains sample_geoip sample_rules sample_mc.
Proof.
  split; [vm_compute; reflexivity|]. apply (merge_rules_route sample_contains sample_geoip).
  - do 2 (constructor; [eexists; apply cvs_from_iter_of|]). do 2 (constructor; [exact I|]). constructor.
  - intros i a b E1 E2 _. destruct i as [|[|[|[|i]]]]; cbn in E1, E2; try discriminate E1; try discriminate E2;
      injection E1 as <-; injection E2 as <-; reflexivity || exact I.
Defined.

Lemma server_destination_kept_witness :
  from_context_address sample_sa_to sample_sa_from
    (prepare_context sample_sa_to sample_sa_from (lit "socks") ctx_new (ADomain (lit "www.example.com") 80))
    (ASocket (mkSocketAddr (V4 1) 80)) =
  Ok (mkMatch (ASocket (mkSocketAddr (V4 1) 80)) None None (Some (mkAddressDomain (lit "www.example.com") 80))).
Proof.
  apply (server_destination_kept sample_sa_to sample_sa_from (lit "socks") ctx_new (lit "www.example.com") 80
    (ASocket (mkSocketAddr (V4 1) 80)) (mkMatch (ASocket (mkSocketAddr (V4 1) 80)) None None None)).
  - intros [[a|a] p]; reflexivity.
  - unfold port_ok. lia.
  - reflexivity.
Defined.

(** The second send finds the net bound, the third is refused, the fourth
    is taken. *)
Lemma rule_udp_delivery_witness :
  let dns := ADomain (lit "dns") 53 in
  let l := [mkCall Pending Pending [7] dns; mkCall (Ready (Ok tt)) (Ready (Ok 1%nat)) [7] dns;
            mkCall Pending Pending [8] dns; mkCall Pending (Ready (Ok 1%nat)) [9] dns] in
  (run_sends 3 uc_new l).2 = ([7], dns) :: accepted l (run_sends 3 uc_new l).1.2 /\
  (run_sends 3 uc_new l).2 = [([7], dns); ([7], dns); ([9], dns)].
Proof.
  intros dns l. split; [|reflexivity].
  destruct (rule_udp_delivery 3 l [7] dns) as (_ & _ & Hs & _).
  - lia.
  - repeat constructor; cbn; tauto.
  - intros c [= <-]. split; reflexivity.
  - exact Hs.
Defined.

(** Rules of one target with different methods: after merging, the keyword
    [google] has become a suffix and no longer matches. *)
Lemma merge_loses_method :
  let items : list (@RuleItem IpAddr nat) :=
    [mkRule (lit "proxy") 0%nat (MDomain (mkDomainMatcher Suffix (cvs_from_iter [lit "example.com"])));
     mkRule (lit "proxy") 0%nat (MDomain (mkDomainMatcher Keyword (cvs_from_iter [lit "google"])))] in
  let mc := mkMatch (ADomain (lit "www.google.com") 443) None None None in
  route sample_contains sample_geoip items mc = Some (lit "proxy") /\
  route sample_contains sample_geoip (merge_rules items) mc = None.
Proof. vm_compute. split; reflexivity. Qed.

End Rule.
Export Rule.
