(* ===== verification/SideEffect.v ===== *)
(** * Reversible side effects: [rd-interface/src/side_effect.rs]

    The journal that a server's system changes are kept in, its roll-back and
    its recovery after a crash.  The world is a file system and whatever else
    commands act on; running a command, serde_json and what the disk does with
    a write, a removal or a reading are parameters, so that a journal may be
    refused or torn. *)

From S2P Require Import Prelude.

Module SideEffect.

(* src/rd-interface/src/side_effect.rs:13-23 SideEffectUndo *)
Inductive SideEffectUndo : Type :=
| UCommand (cmd : bytes) (args : list bytes)
| UWriteFile (path content : bytes)
| UDeleteFile (path : bytes).

(* src/rd-interface/src/side_effect.rs:5-11 SideEffectEntry *)
Record SideEffectEntry : Type := mkEntry { description : bytes; undo : SideEffectUndo }.

Section SideEffect.
Context {Sys : Type}.

Record World : Type := mkWorld { files : gmap bytes bytes; sys : Sys }.

(** What becomes of [std::fs::write], which first truncates the file: it is
    written; it is not opened, and stays; or the writing fails, or the machine
    does, when some but not all of the content is written. *)
Inductive WriteOutcome : Type := Written | Refused | Torn (n : nat).

(** The outcome of a write, and whether files can be removed and read; it may
    depend on the state of the rest of the system, its time and all. *)
Record Disk : Type := mkDisk {
  d_write : Sys -> bytes -> bytes -> WriteOutcome;
  d_remove : Sys -> bytes -> bool;
  d_read : Sys -> bytes -> bool }.

(** A command's effect and whether it succeeded; the disk; [serde_json] on the
    entries. *)
Context (run_command : bytes -> list bytes -> World -> World * bool) (disk : Disk).
Context (encode : list SideEffectEntry -> bytes) (decode : bytes -> option (list SideEffectEntry)).

Definition put_file (path content : bytes) (w : World) : World := mkWorld (<[path := content]> (files w)) (sys w).

(** [std::fs::write], [remove_file] and [read_to_string]. *)
Definition fs_write (path content : bytes) (w : World) : World * bool :=
  match d_write disk (sys w) path content with
  | Written => (put_file path content w, true)
  | Refused => (w, false)
  | Torn n => (put_file path (take (Nat.min n (pred (length content))) content) w, false)
  end.
Definition fs_remove (path : bytes) (w : World) : World * bool :=
  if d_remove disk (sys w) path then
    match files w !! path with
    | Some _ => (mkWorld (delete path (files w)) (sys w), true)
    | None => (w, false)
    end
  else (w, false).
Definition fs_read (path : bytes) (w : World) : option bytes :=
  if d_read disk (sys w) path then c ← files w !! path; if utf8_valid c then Some c else None else None.

Definition of_bool (m : string) (b : bool) : res unit := if b then Ok tt else Err (EOther m).

(* src/rd-interface/src/side_effect.rs:25-47 SideEffectUndo::execute *)
Definition execute (u : SideEffectUndo) (w : World) : World * res unit :=
  match u with
  | UCommand cmd args => let '(w, ok) := run_command cmd args w in (w, of_bool "command failed" ok)
  | UWriteFile path content => let '(w, ok) := fs_write path content w in (w, of_bool "write" ok)
  | UDeleteFile path => let '(w, ok) := fs_remove path w in (w, of_bool "delete" ok)
  end.

(* src/rd-interface/src/side_effect.rs:54-58 SideEffectManager *)
Record SideEffectManager : Type := mkManager { entries : list SideEffectEntry; persist_path : option bytes }.

(* src/rd-interface/src/side_effect.rs:61-67 SideEffectManager::new *)
Definition manager_new (path : bytes) : SideEffectManager := mkManager [] (Some path).

(* src/rd-interface/src/side_effect.rs:69-75 SideEffectManager::in_memory *)
Definition in_memory : SideEffectManager := mkManager [] None.

(** A failed write is only logged. *)
(* src/rd-interface/src/side_effect.rs:146-154 SideEffectManager::persist *)
Definition persist (m : SideEffectManager) (w : World) : World :=
  match persist_path m with
  | Some path => (fs_write path (encode (entries m)) w).1
  | None => w
  end.

(* src/rd-interface/src/side_effect.rs:156-160 SideEffectManager::clear_persisted *)
Definition clear_persisted (m : SideEffectManager) (w : World) : World :=
  match persist_path m with
  | Some path => (fs_remove path w).1
  | None => w
  end.

Definition Action : Type := World -> World * res unit.

(* src/rd-interface/src/side_effect.rs:77-90 SideEffectManager::apply *)
Definition apply (m : SideEffectManager) (desc : bytes) (action : Action) (u : SideEffectUndo) (w : World)
    : SideEffectManager * World * res unit :=
  let '(w, r) := action w in
  match r with
  | Err e => (m, w, Err e)
  | Ok _ =>
    let m := mkManager (entries m ++ [mkEntry desc u]) (persist_path m) in
    (m, persist m w, Ok tt)
  end.

(** Undoing a list of entries from its end; failures are only logged. *)
(* src/rd-interface/src/side_effect.rs:94-99 SideEffectManager::rollback_all *)
Definition undo_all (l : list SideEffectEntry) (w : World) : World :=
  fold_left (fun w e => (execute (undo e) w).1) (reverse l) w.

(* src/rd-interface/src/side_effect.rs:92-101 SideEffectManager::rollback_all *)
Definition rollback_all (m : SideEffectManager) (w : World) : SideEffectManager * World :=
  (mkManager [] (persist_path m), clear_persisted m (undo_all (entries m) w)).

(* src/rd-interface/src/side_effect.rs:163-167 SideEffectManager::drop *)
Definition manager_drop (m : SideEffectManager) (w : World) : World := (rollback_all m w).2.

(* src/rd-interface/src/side_effect.rs:103-144 SideEffectManager::recover *)
Definition recover (path : bytes) (w : World) : World :=
  match fs_read path w with
  | None => w
  | Some [] => w
  | Some content =>
    match decode content with
    | None => (fs_remove path w).1
    | Some [] => (fs_remove path w).1
    | Some l => (fs_remove path (undo_all l w)).1
    end
  end.

(** ** Using a manager *)

(** The side effects a server applies, each with its undo; it goes on after
    one that fails. *)
Fixpoint apply_all (m : SideEffectManager) (l : list (bytes * Action * SideEffectUndo)) (w : World)
    : SideEffectManager * World :=
  match l with
  | [] => (m, w)
  | (d, a, u) :: l => let '(m, w, _) := apply m d a u w in apply_all m l w
  end.

Section Crash.
Context (path : bytes).
(** JSON is text, not empty, and no part of it is JSON. *)
Context (decode_encode : forall l, decode (encode l) = Some l) (encode_nonempty : forall l, encode l <> []).
Context (encode_text : forall l, utf8_valid (encode l) = true).
Context (decode_torn : forall l n, (n < length (encode l))%nat -> decode (take n (encode l)) = None).

(** The journal can be read and removed, and can be written. *)
Definition journal_usable : Prop := forall s, d_read disk s path = true /\ d_remove disk s path = true.
Definition journal_whole : Prop := forall s c, d_write disk s path c = Written.
Context (usable : journal_usable).

(** The world with the given journal. *)
Definition with_journal (j : option bytes) (w : World) : World :=
  mkWorld (match j with Some c => <[path := c]> (files w) | None => delete path (files w) end) (sys w).

(** An operation that has nothing to do with the journal. *)
Definition apart {A} (f : World -> World * A) : Prop :=
  (forall w, files (f w).1 !! path = files w !! path) /\
  (forall j w, f (with_journal j w) = (with_journal j (f w).1, (f w).2)).

Definition undo_apart (u : SideEffectUndo) : Prop := apart (execute u).

Lemma with_journal_id w : with_journal (files w !! path) w = w.
Proof.
  unfold with_journal. destruct w as [f s]. cbn. destruct (f !! path) eqn:E; f_equal.
  - by apply insert_id.
  - by apply delete_id.
Qed.

Lemma with_journal_twice j j' w : with_journal j (with_journal j' w) = with_journal j w.
Proof.
  unfold with_journal. cbn. f_equal. destruct j, j'.
  - apply insert_insert_eq.
  - apply insert_delete_eq.
  - apply delete_insert_eq.
  - apply delete_delete_eq.
Qed.

Lemma with_journal_lookup j w : files (with_journal j w) !! path = j.
Proof. unfold with_journal. cbn. destruct j; [apply lookup_insert_eq | apply lookup_delete_eq]. Qed.

Lemma undo_all_apart l w j : Forall (fun e => undo_apart (undo e)) l ->
  undo_all l (with_journal j w) = with_journal j (undo_all l w) /\ files (undo_all l w) !! path = files w !! path.
Proof.
  intros H. unfold undo_all. apply Forall_reverse in H. revert w.
  induction H as [|e l0 [H1 H2] _ IH]; intros w; cbn; [done|].
  rewrite H2. cbn. destruct (IH (execute (undo e) w).1) as [E1 E2]. split; [done|]. by rewrite E2.
Qed.

Lemma remove_journal w : (fs_remove path w).1 = with_journal None w.
Proof.
  unfold fs_remove. rewrite (proj2 (usable (sys w))). destruct (files w !! path) eqn:E; [done|].
  rewrite <- E. symmetry. apply with_journal_id.
Qed.

Lemma fs_read_journal w : fs_read path w = c ← files w !! path; if utf8_valid c then Some c else None.
Proof. unfold fs_read. by rewrite (proj1 (usable (sys w))). Qed.

(** Reading the journal back. *)
Lemma recover_whole l w : l <> [] -> files w !! path = Some (encode l) -> recover path w = (fs_remove path (undo_all l w)).1.
Proof.
  intros Hl E. unfold recover. rewrite fs_read_journal, E. cbn [mbind option_bind]. rewrite encode_text.
  destruct (encode l) as [|c cs] eqn:Ec; [by destruct (encode_nonempty l)|]. rewrite <- Ec, decode_encode. by destruct l.
Qed.

Lemma recover_none w : files w !! path = None -> recover path w = w.
Proof. intros E. unfold recover. by rewrite fs_read_journal, E. Qed.

Lemma recover_torn l n w : (n < length (encode l))%nat -> files w !! path = Some (take n (encode l)) ->
  (recover path w = w \/ recover path w = with_journal None w) /\ recover path (recover path w) = recover path w.
Proof.
  intros Hn E. assert (Hr : recover path w = w \/ recover path w = with_journal None w).
  { unfold recover. rewrite fs_read_journal, E. cbn [mbind option_bind].
    destruct (utf8_valid _); [|by left]. destruct (take n (encode l)) as [|c cs] eqn:Ec; [by left|].
    rewrite <- Ec, decode_torn by done. right. apply remove_journal. }
  split; [done|]. destruct Hr as [H | H]; [by rewrite !H|]. rewrite H. apply recover_none. apply with_journal_lookup.
Qed.

(** *** A journal whose writes may fail *)

(** What the journal holds when [es] are the entries in force: the first [k] of
    them, or a part of what was to be written. *)
Definition holds (g : option nat) (es : list SideEffectEntry) (w : World) : Prop :=
  match g with
  | Some O => files w !! path = None
  | Some k => (k <= length es)%nat /\ files w !! path = Some (encode (take k es))
  | None => exists l n, (n < length (encode l))%nat /\ files w !! path = Some (take n (encode l))
  end.

(** How many entries the journal holds after these writes, each of one entry
    more than the one before; [None] once a torn one has not been made good. *)
Definition note (g : option nat * nat) (o : WriteOutcome) : option nat * nat :=
  (match o with Written => Some (S g.2) | Refused => g.1 | Torn _ => None end, S g.2).
Definition kept (os : list WriteOutcome) : option nat := (fold_left note os (Some O, O)).1.
Definition survivors (os : list WriteOutcome) (es : list SideEffectEntry) : list SideEffectEntry :=
  match kept os with Some k => take k es | None => [] end.

(** The outcomes of the journal's writes while side effects are applied. *)
Fixpoint outcomes (m : SideEffectManager) (l : list (bytes * Action * SideEffectUndo)) (w : World) : list WriteOutcome :=
  match l with
  | [] => []
  | (d, a, u) :: l =>
    let '(m', w', r) := apply m d a u w in
    match r with Ok _ => [d_write disk (sys (a w).1) path (encode (entries m'))] | Err _ => [] end ++ outcomes m' l w'
  end.

Definition ops_apart (l : list (bytes * Action * SideEffectUndo)) : Prop :=
  Forall (fun x => apart x.1.2 /\ undo_apart x.2) l.

Definition managed (m : SideEffectManager) (w : World) (g : option nat) : Prop :=
  persist_path m = Some path /\ Forall (fun e => undo_apart (undo e)) (entries m) /\ holds g (entries m) w.

Lemma holds_snoc g es e w w1 : files w1 !! path = files w !! path -> holds g es w -> holds g (es ++ [e]) w1.
Proof.
  intros E. unfold holds. rewrite E. destruct g as [[|k]|]; [done| |done]. intros [Hk ->].
  rewrite length_app. split; [cbn; lia|]. by rewrite take_app_le.
Qed.

Lemma apply_managed m d a u w g : managed m w g -> apart a -> undo_apart u ->
  let '(m', w', r) := apply m d a u w in
  match r with
  | Ok _ => length (entries m') = S (length (entries m)) /\
      managed m' w' (note (g, length (entries m)) (d_write disk (sys (a w).1) path (encode (entries m')))).1
  | Err _ => m' = m /\ managed m w' g
  end.
Proof.
  intros (Hp & Hf & Hj) Ha Hu. unfold apply. pose proof (proj1 Ha w) as Hk. destruct (a w) as [w1 r]. cbn [fst] in Hk |- *.
  destruct r as [[]|e].
  2: { split; [done|]. split; [done|]. split; [done|]. unfold holds in *. by rewrite Hk. }
  cbn [entries]. rewrite length_app. split; [cbn; lia|]. split; [done|].
  split; [apply Forall_app; split; [done | by constructor]|].
  set (es := entries m ++ [mkEntry d u]). unfold persist. cbn [persist_path entries]. rewrite Hp. fold es. unfold fs_write, note.
  cbn [fst snd]. destruct (d_write disk (sys w1) path (encode es)) as [| |n]; cbn [fst].
  - unfold holds, put_file. cbn [files]. rewrite lookup_insert_eq. unfold es. rewrite length_app. split; [cbn; lia|].
    by rewrite take_ge by (rewrite length_app; cbn; lia).
  - by eapply holds_snoc.
  - unfold holds, put_file. cbn [files]. rewrite lookup_insert_eq. exists es, (Nat.min n (pred (length (encode es)))).
    split; [|done]. pose proof (encode_nonempty es). destruct (encode es); [done|]. cbn [length pred]. lia.
Qed.

Lemma apply_all_managed l : forall m w g, managed m w g -> ops_apart l ->
  let '(m', w') := apply_all m l w in
  managed m' w' (fold_left note (outcomes m l w) (g, length (entries m))).1 /\
  length (entries m') = (length (entries m) + length (outcomes m l w))%nat.
Proof.
  induction l as [|[[d a] u] l IH]; intros m w g Hj Hl; cbn [apply_all outcomes].
  - cbn. by rewrite Nat.add_0_r.
  - inversion_clear Hl as [|? ? [Ha Hu] Hl']. pose proof (apply_managed m d a u w g Hj Ha Hu) as H.
    destruct (apply m d a u w) as [[m1 w1] [[]|e]]; cbn [app fold_left].
    + destruct H as [Hlen Hm]. specialize (IH m1 w1 _ Hm Hl'). destruct (apply_all m1 l w1) as [m2 w2].
      cbn [length]. rewrite Hlen in IH. destruct IH as [IH1 IH2]. split; [exact IH1 | lia].
    + destruct H as [-> Hm]. by apply IH.
Qed.

Lemma recover_holds g es w : Forall (fun e => undo_apart (undo e)) es -> holds g es w ->
  with_journal None (recover path w) = with_journal None (undo_all (match g with Some k => take k es | None => [] end) w) /\
  recover path (recover path w) = recover path w.
Proof.
  intros Hu Hh. destruct g as [[|k]|]; cbn [holds] in Hh.
  - rewrite !recover_none by done. done.
  - destruct Hh as [Hk E]. rewrite (recover_whole (take (S k) es)); [|destruct es; [cbn in Hk; lia|done]|done].
    rewrite remove_journal, with_journal_twice. split; [done|]. apply recover_none, with_journal_lookup.
  - destruct Hh as (l & n & Hn & E). destruct (recover_torn l n w Hn E) as [Hr Hi]. split; [|done].
    destruct Hr as [-> | ->]; [done|]. by rewrite with_journal_twice.
Qed.

Lemma kept_last os : last os = Some Written -> kept os = Some (length os).
Proof.
  intros H. apply last_Some in H as [l ->]. unfold kept. rewrite fold_left_app. cbn [fold_left note fst].
  assert (Hn : forall l g, (fold_left note l g).2 = (g.2 + length l)%nat).
  { clear. induction l as [|o l IH]; intros g; cbn; [lia|]. rewrite IH. cbn. lia. }
  rewrite Hn, length_app. cbn. f_equal. lia.
Qed.


(** *** A journal that is always written *)

Section Whole.
Context (whole : journal_whole).

Lemma persist_journal m w : persist_path m = Some path -> persist m w = with_journal (Some (encode (entries m))) w.
Proof. intros H. unfold persist, fs_write. by rewrite H, whole. Qed.

(** The journal holds what the manager holds. *)
Definition journaled (m : SideEffectManager) (w : World) : Prop :=
  persist_path m = Some path /\ Forall (fun e => undo_apart (undo e)) (entries m) /\
  files w !! path = match entries m with [] => None | l => Some (encode l) end.

Lemma recover_journaled m w : journaled m w -> recover path w = manager_drop m w.
Proof.
  intros (Hp & Hu & Hj). unfold manager_drop, rollback_all, clear_persisted. cbn. rewrite Hp.
  destruct (entries m) as [|e l] eqn:E.
  - rewrite recover_none by done. cbn. rewrite remove_journal, <- Hj. symmetry. apply with_journal_id.
  - by apply recover_whole.
Qed.

Lemma apply_journaled m d a u w : journaled m w -> apart a -> undo_apart u ->
  let '(m', w', _) := apply m d a u w in journaled m' w'.
Proof.
  intros (Hp & Hf & Hj) Ha Hu. unfold apply. destruct (a w) as [w1 r] eqn:E.
  assert (Hk : files w1 !! path = files w !! path) by (pose proof (proj1 Ha w) as H; by rewrite E in H).
  destruct r as [[]|e]; [|split; [done|]; split; [done | by rewrite Hk]].
  rewrite persist_journal by done. split; [done|]. cbn [entries].
  split; [apply Forall_app; split; [done | by constructor]|].
  rewrite with_journal_lookup. by destruct (entries m).
Qed.

Lemma apply_all_journaled l : forall m w, journaled m w -> ops_apart l ->
  let '(m', w') := apply_all m l w in journaled m' w'.
Proof.
  induction l as [|[[d a] u] l IH]; intros m w Hj Hl; cbn; [done|].
  inversion_clear Hl as [|? ? [Ha Hu] Hl']. pose proof (apply_journaled m d a u w Hj Ha Hu) as H.
  destruct (apply m d a u w) as [[m1 w1] r]. by apply IH.
Qed.

Lemma new_journaled w : files w !! path = None -> journaled (manager_new path) w.
Proof. intros Hn. split; [done|]. split; [constructor | done]. Qed.

(** An action and its undo: done, it can be undone; failed, it did nothing. *)
Definition reverses_at (a : Action) (u : SideEffectUndo) (w : World) : Prop :=
  match a w with
  | (w', Ok _) => (execute u w').1 = w
  | (w', Err _) => w' = w
  end.
Definition reverses (a : Action) (u : SideEffectUndo) : Prop := forall w, reverses_at a u w.

Lemma undo_snoc l e w : undo_all (l ++ [e]) w = undo_all l (execute (undo e) w).1.
Proof. unfold undo_all. by rewrite reverse_snoc. Qed.

(** What dropping the manager would leave, but for the journal. *)
Definition undone (m : SideEffectManager) (w : World) : World := with_journal None (undo_all (entries m) w).

Lemma apply_undone m d a u w : journaled m w -> undo_apart u -> reverses_at a u w ->
  let '(m', w', _) := apply m d a u w in undone m' w' = undone m w.
Proof.
  intros (Hp & Hf & _) Hu Hw. unfold apply, reverses_at, undone in *. destruct (a w) as [w1 [[]|e]]; [|by rewrite Hw].
  cbn [entries]. rewrite persist_journal by done. rewrite undo_snoc.
  cbn [undo]. rewrite (proj2 Hu). cbn [fst]. rewrite Hw.
  rewrite (proj1 (undo_all_apart (entries m) w _ Hf)), with_journal_twice. done.
Qed.

Lemma apply_all_undone l : forall m w, journaled m w -> ops_apart l ->
  Forall (fun x => reverses x.1.2 x.2) l ->
  let '(m', w') := apply_all m l w in undone m' w' = undone m w.
Proof.
  induction l as [|[[d a] u] l IH]; intros m w Hj Hl Hr; cbn; [done|].
  inversion_clear Hl as [|? ? [Ha Hu] Hl']. inversion_clear Hr as [|? ? Hr1 Hr2]. cbn in *.
  pose proof (apply_journaled m d a u w Hj Ha Hu) as Hj1. pose proof (apply_undone m d a u w Hj Hu (Hr1 w)) as H.
  destruct (apply m d a u w) as [[m1 w1] r]. pose proof (IH m1 w1 Hj1 Hl' Hr2) as H2.
  destruct (apply_all m1 l w1) as [m2 w2]. by rewrite H2.
Qed.

(** A manager whose effects can all be undone leaves no trace. *)
Lemma drop_undone m w w0 : journaled m w -> files w0 !! path = None -> undone m w = undone (manager_new path) w0 ->
  manager_drop m w = w0 /\ recover path w = w0.
Proof.
  intros Hj Hn Hu. rewrite (recover_journaled m w Hj). assert (manager_drop m w = w0) as ->; [|done].
  destruct Hj as (Hp & _). unfold manager_drop, rollback_all, clear_persisted. cbn.
  rewrite Hp, remove_journal. fold (undone m w). rewrite Hu. unfold undone. cbn. rewrite <- Hn. apply with_journal_id.
Qed.

(** Shutting down leaves no trace where the journal is always written: if every action is undone by the undo
    it is registered with, then after any sequence of side effects, failed
    ones included, both a drop of the manager and a recovery after a crash
    restore the world as it was before the first of them. *)
Theorem side_effects_undone l w : ops_apart l -> Forall (fun x => reverses x.1.2 x.2) l ->
  files w !! path = None ->
  let '(m, w') := apply_all (manager_new path) l w in
  manager_drop m w' = w /\ recover path w' = w.
Proof.
  intros Hl Hr Hn. pose proof (new_journaled w Hn) as Hj0.
  pose proof (apply_all_journaled l _ w Hj0 Hl) as Hj. pose proof (apply_all_undone l _ w Hj0 Hl Hr) as Hu.
  destruct (apply_all (manager_new path) l w) as [m w']. by apply drop_undone.
Qed.

End Whole.

End Crash.

End SideEffect.

(** *** A system with a counter that [inc] and [dec] change *)

Definition undo_tuple (u : SideEffectUndo) : Z * bytes * bytes * list bytes :=
  match u with
  | UCommand c args => (0, c, [], args)
  | UWriteFile p c => (1, p, c, [])
  | UDeleteFile p => (2, p, [], [])
  end.
Definition undo_of_tuple (t : Z * bytes * bytes * list bytes) : SideEffectUndo :=
  let '(k, a, b, l) := t in
  if k =? 0 then UCommand a l else if k =? 1 then UWriteFile a b else UDeleteFile a.
Definition entry_tuple (e : SideEffectEntry) : bytes * (Z * bytes * bytes * list bytes) := (description e, undo_tuple (undo e)).
Definition entry_of_tuple (t : bytes * (Z * bytes * bytes * list bytes)) : SideEffectEntry := mkEntry t.1 (undo_of_tuple t.2).

(** A number as a text of its binary digits with a full stop. *)
Fixpoint digits (p : positive) : bytes := match p with xH => [46] | xO p => 48 :: digits p | xI p => 49 :: digits p end.
Fixpoint of_digits (c : bytes) : option positive :=
  match c with
  | [b] => if b =? 46 then Some xH else None
  | b :: c => if b =? 48 then xO <$> of_digits c else xI <$> of_digits c
  | [] => None
  end.

Definition sample_encode (l : list SideEffectEntry) : bytes := digits (countable.encode (map entry_tuple l)).
Definition sample_decode (c : bytes) : option (list SideEffectEntry) :=
  p ← of_digits c; map entry_of_tuple <$> countable.decode p.

Lemma digits_nonempty p : digits p <> [].
Proof. by destruct p. Qed.

Lemma of_digits_cons b p : of_digits (b :: digits p) = if b =? 48 then xO <$> of_digits (digits p) else xI <$> of_digits (digits p).
Proof. cbn. by destruct (digits p) eqn:E; [destruct (digits_nonempty p)|]. Qed.

Lemma of_digits_digits p : of_digits (digits p) = Some p.
Proof. induction p as [p IH|p IH|]; [| |done]; cbn [digits]; rewrite of_digits_cons, IH; done. Qed.

Lemma of_digits_part p n : (n < length (digits p))%nat -> of_digits (take n (digits p)) = None.
Proof.
  revert n. induction p as [p IH|p IH|]; intros [|n] Hn; try done; cbn [digits length take] in *; try lia.
  all: specialize (IH n ltac:(lia)); destruct (take n (digits p)) as [|b c] eqn:E; [done|].
  all: change (of_digits (?x :: b :: c)) with (if x =? 48 then xO <$> of_digits (b :: c) else xI <$> of_digits (b :: c)); by rewrite IH.
Qed.

Lemma digits_text p : utf8_valid (digits p) = true.
Proof. apply utf8_ascii. induction p as [p IH|p IH|]; cbn [digits]; constructor; try done; try lia. Qed.

Lemma sample_decode_encode l : sample_decode (sample_encode l) = Some l.
Proof.
  unfold sample_decode, sample_encode. rewrite of_digits_digits. cbn. rewrite countable.decode_encode. cbn. f_equal.
  induction l as [|[d u] l IH]; cbn; [done|]. rewrite IH. by destruct u.
Qed.

Lemma sample_nonempty l : sample_encode l <> [].
Proof. apply digits_nonempty. Qed.
Lemma sample_text l : utf8_valid (sample_encode l) = true.
Proof. apply digits_text. Qed.
Lemma sample_torn l n : (n < length (sample_encode l))%nat -> sample_decode (take n (sample_encode l)) = None.
Proof. intros H. unfold sample_decode, sample_encode in *. by rewrite of_digits_part. Qed.

Definition sample_command (cmd : bytes) (_ : list bytes) (w : @World Z) : World * bool :=
  if bool_decide (cmd = lit "inc") then (mkWorld (files w) (sys w + 1), true)
  else if bool_decide (cmd = lit "dec") then (mkWorld (files w) (sys w - 1), true)
  else (w, false).

Definition run_as_action (cmd : bytes) : @Action Z :=
  fun w => let '(w, ok) := sample_command cmd [] w in (w, of_bool "command failed" ok).

Definition sample_effects : list (bytes * @Action Z * SideEffectUndo) :=
  [(lit "route", run_as_action (lit "inc"), UCommand (lit "dec") []);
   (lit "no such command", run_as_action (lit "fail"), UCommand (lit "dec") [])].

Definition sample_world : @World Z := mkWorld {[ lit "resolv.conf" := [1;2;3] ]} 7.

Lemma sample_command_apart path cmd args : apart path (fun w => let '(w, ok) := sample_command cmd args w in (w, of_bool "command failed" ok)).
Proof.
  split.
  - intros w. unfold sample_command. by repeat case_bool_decide.
  - intros j w. unfold sample_command. by repeat case_bool_decide.
Qed.

(** Disks: one that works, and ones that fail once the counter is above 7. *)
Definition good_disk : @Disk Z := mkDisk (fun _ _ _ => Written) (fun _ _ => true) (fun _ _ => true).
Definition failing_disk (o : WriteOutcome) : @Disk Z :=
  mkDisk (fun s _ _ => if 8 <? s then o else Written) (fun _ _ => true) (fun _ _ => true).

Lemma good_usable {S} (f : S -> bytes -> bytes -> WriteOutcome) path : journal_usable (mkDisk f (fun _ _ => true) (fun _ _ => true)) path.
Proof. by split. Qed.

Lemma sample_effects_apart disk path : ops_apart sample_command disk path sample_effects.
Proof.
  repeat constructor; cbn -[sample_command lit].
  all: intros; unfold run_as_action, execute, sample_command; by repeat case_bool_decide.
Qed.

Lemma inc_dec : reverses sample_command good_disk (run_as_action (lit "inc")) (UCommand (lit "dec") []).
Proof.
  intros w.
  change (run_as_action (lit "inc") w) with (mkWorld (files w) (sys w + 1), @Ok unit tt).
  change (mkWorld (files w) (sys w + 1 - 1) = w). destruct w as [f x]. cbn. f_equal. lia.
Qed.

(** The second effect is applied and the journal torn, then the third fails;
    with a good disk, one more. *)
Definition sample_torn_effects : list (bytes * @Action Z * SideEffectUndo) := take 1 sample_effects ++ sample_effects.

Lemma sample_torn_apart disk path : ops_apart sample_command disk path sample_torn_effects.
Proof. apply Forall_app. split; [apply Forall_take|]; apply sample_effects_apart. Qed.


Lemma side_effects_undone_witness :
  let '(m, w') := apply_all good_disk sample_encode (manager_new (lit "journal")) sample_effects sample_world in
  manager_drop sample_command good_disk m w' = sample_world /\
  recover sample_command good_disk sample_decode (lit "journal") w' = sample_world.
Proof.
  apply (side_effects_undone sample_command good_disk sample_encode sample_decode (lit "journal")
    sample_decode_encode sample_nonempty sample_text (good_usable _ _) (fun _ _ => eq_refl) sample_effects sample_world (sample_effects_apart _ _)).
  - constructor; [exact inc_dec|]. constructor; [|constructor]. intros w. reflexivity.
  - reflexivity.
Defined.

(** Two managers on one file, as two servers of one engine have: the journal
    of the first is overwritten by the second, and recovery undoes only the
    second's effect. *)
Lemma shared_journal_loses :
  let journal := lit "journal" in
  let '(m1, w1, _) := apply good_disk sample_encode (manager_new journal) (lit "a")
    (run_as_action (lit "inc")) (UCommand (lit "dec") []) sample_world in
  let '(m2, w2, _) := apply good_disk sample_encode (manager_new journal) (lit "b")
    (run_as_action (lit "inc")) (UCommand (lit "dec") []) w1 in
  sys w2 = 9 /\ sys (recover sample_command good_disk sample_decode journal w2) = 8.
Proof. vm_compute. split; reflexivity. Qed.

(** The journal is overwritten in place: one write that is torn, or one crash
    in it, and no effect at all is undone in the next run, not even those of
    the journal before. *)
Lemma torn_journal_loses :
  let run o := (apply_all (failing_disk o) sample_encode (manager_new (lit "journal")) sample_torn_effects sample_world).2 in
  let rec o := recover sample_command (failing_disk o) sample_decode (lit "journal") (run o) in
  (sys (run (Torn 3)), sys (rec (Torn 3)), sys (rec Refused), sys (rec Written)) = (9, 9, 8, 7).
Proof. vm_compute. reflexivity. Qed.

End SideEffect.
Export SideEffect.
