(* ===== verification/Route.v ===== *)
(** * The routes of a TUN server: [protocol/raw/src/route_setup.rs]

    What [setup_routes] does on Linux and on macOS, each change with its undo.
    The tools it runs ([ip], [route], [networksetup]) are a parameter;
    [IpTool] and [MacTools] state what is used of their documentation. *)

From S2P Require Import Prelude Text SideEffect.

Module Route.

(* src/protocol/raw/src/route_setup.rs:13-18 RouteSetupConfig *)
Record RouteSetupConfig : Type := mkRouteConfig { tun_name : bytes; tun_gateway : bytes; fwmark : Z; dns_ip : bytes }.

(* src/protocol/raw/src/route_setup.rs:11-11 TUN_TABLE *)
Definition TUN_TABLE : bytes := lit "2468".

(** The system the program is compiled for. *)
Inductive Os : Type := Linux | MacOs | OtherOs.

(* src/protocol/raw/src/route_setup.rs:35-40 cmd_undo *)
Definition cmd_undo (cmd : bytes) (args : list bytes) : SideEffectUndo := UCommand cmd args.

Section Route.
Context {Sys : Type}.
#[local] Abbreviation World := (@World Sys).
#[local] Abbreviation Action := (@Action Sys).

(** [Command::output]: what a command does to the world and, unless it cannot
    be started, whether it succeeded and what it wrote, as text. *)
Context (output : bytes -> list bytes -> World -> World * option (bool * bytes)).
Context (disk : @Disk Sys) (encode : list SideEffectEntry -> bytes).

(* src/protocol/raw/src/route_setup.rs:42-54 run *)
Definition run (cmd : bytes) (args : list bytes) : Action := fun w =>
  match output cmd args w with
  | (w, None) => (w, Err (EOther "cannot be run"))
  | (w, Some (false, _)) => (w, Err (EOther "command failed"))
  | (w, Some (true, _)) => (w, Ok ())
  end.

(** The same command as [SideEffectUndo::execute] runs it. *)
Definition run_command (cmd : bytes) (args : list bytes) (w : World) : World * bool :=
  let '(w, o) := output cmd args w in (w, match o with Some (true, _) => true | _ => false end).

(** A function on the manager and the world; the first error ends it. *)
Definition Setup : Type := SideEffectManager * World -> SideEffectManager * World * res ().
Definition done_ : Setup := fun s => (s, Ok ()).
Definition and_then (a b : Setup) : Setup := fun s =>
  match a s with (s, Err e) => (s, Err e) | (s, Ok _) => b s end.
(** [let _ = a;] *)
Definition ignoring (a b : Setup) : Setup := fun s => b (a s).1.

Definition mgr_apply (desc : bytes) (action : Action) (undo : SideEffectUndo) : Setup :=
  fun '(m, w) => apply disk encode m desc action undo w.

(** [read_to_string], of a file that may be read. *)
Definition read_to_string (p : bytes) (w : World) : option bytes :=
  c ← files w !! p; if utf8_valid c then Some c else None.

(** ** Linux *)

Definition resolv_conf : bytes := lit "/etc/resolv.conf".

Definition write_resolv (content : bytes) : Action := fun w =>
  let '(w, ok) := fs_write disk resolv_conf content w in (w, of_bool "write resolv.conf" ok).

(** Step 6. *)
(* src/protocol/raw/src/route_setup.rs:169-182 setup_linux (DNS) *)
Definition set_dns_linux (config : RouteSetupConfig) (rest : Setup) : Setup := fun s =>
  let original_dns := read_to_string resolv_conf s.2 in
  let content := lit "nameserver " ++ dns_ip config ++ [10] in
  ignoring (mgr_apply (lit "Set DNS to " ++ dns_ip config) (write_resolv content)
    (UWriteFile resolv_conf (default (lit "nameserver 1.1.1.1" ++ [10]) original_dns))) rest s.

(* src/protocol/raw/src/route_setup.rs:61-185 setup_linux *)
Definition setup_linux (config : RouteSetupConfig) : Setup :=
  let mark_str := show_uint (fwmark config) in
  let ip := lit "ip" in
  and_then (mgr_apply (lit "ip route add default dev " ++ tun_name config ++ lit " table " ++ TUN_TABLE)
    (run ip [lit "route"; lit "add"; lit "default"; lit "dev"; tun_name config; lit "table"; TUN_TABLE])
    (cmd_undo ip [lit "route"; lit "del"; lit "default"; lit "dev"; tun_name config; lit "table"; TUN_TABLE]))
  (and_then (mgr_apply (lit "ip rule add fwmark " ++ mark_str ++ lit " table main priority 50")
    (run ip [lit "rule"; lit "add"; lit "fwmark"; mark_str; lit "table"; lit "main"; lit "priority"; lit "50"])
    (cmd_undo ip [lit "rule"; lit "del"; lit "priority"; lit "50"]))
  (and_then (mgr_apply (lit "ip rule add table main suppress_prefixlength 0 priority 100")
    (run ip [lit "rule"; lit "add"; lit "table"; lit "main"; lit "suppress_prefixlength"; lit "0"; lit "priority"; lit "100"])
    (cmd_undo ip [lit "rule"; lit "del"; lit "priority"; lit "100"]))
  (and_then (mgr_apply (lit "ip rule add not fwmark " ++ mark_str ++ lit " table " ++ TUN_TABLE ++ lit " priority 200")
    (run ip [lit "rule"; lit "add"; lit "not"; lit "fwmark"; mark_str; lit "table"; TUN_TABLE; lit "priority"; lit "200"])
    (cmd_undo ip [lit "rule"; lit "del"; lit "priority"; lit "200"]))
  (ignoring (mgr_apply (lit "ip rule add not fwmark " ++ mark_str ++ lit " dport 53 table " ++ TUN_TABLE ++ lit " priority 201")
    (run ip [lit "rule"; lit "add"; lit "not"; lit "fwmark"; mark_str; lit "dport"; lit "53"; lit "table"; TUN_TABLE; lit "priority"; lit "201"])
    (cmd_undo ip [lit "rule"; lit "del"; lit "priority"; lit "201"]))
  (set_dns_linux config done_))))).

(** ** macOS *)

(** The last word of the first line that contains [key]. *)
Definition word_of (key stdout : bytes) : option bytes :=
  l ← head (filter (fun l => contains key l = true) (lines stdout)); last (split_whitespace l).

(** A command that is run for what it writes, succeed or not. *)
Definition stdout_of (cmd : bytes) (args : list bytes) (w : World) : World * option bytes :=
  let '(w, o) := output cmd args w in (w, snd <$> o).

(* src/protocol/raw/src/route_setup.rs:267-289 get_default_route_macos *)
Definition get_default_route_macos (w : World) : World * res (bytes * bytes) :=
  match stdout_of (lit "route") [lit "-n"; lit "get"; lit "default"] w with
  | (w, None) => (w, Err (EOther "route -n get default"))
  | (w, Some stdout) =>
    (w, gateway ← ok_or (EOther "No default gateway found") (word_of (lit "gateway:") stdout);
        interface ← ok_or (EOther "No default interface found") (word_of (lit "interface:") stdout);
        Ok (gateway, interface))
  end.

(** The loop over the lines. *)
Fixpoint find_service (device : bytes) (last_service : option bytes) (l : list bytes) : option bytes :=
  match l with
  | [] => None
  | line :: l =>
    let name := t ← strip_prefix [40] line; trim <$> split_on 41 t !! 1%nat in
    let last_service := match name with
      | Some [] | None => last_service
      | Some name => Some name
      end in
    if contains (lit "Device: " ++ device) line then last_service else find_service device last_service l
  end.

(* src/protocol/raw/src/route_setup.rs:292-314 get_network_service_macos *)
Definition get_network_service_macos (interface : bytes) (w : World) : World * option bytes :=
  match stdout_of (lit "networksetup") [lit "-listnetworkserviceorder"] w with
  | (w, None) => (w, None)
  | (w, Some stdout) => (w, find_service interface None (lines stdout))
  end.

(* src/protocol/raw/src/route_setup.rs:317-333 get_dns_macos *)
Definition get_dns_macos (service : bytes) (w : World) : World * list bytes :=
  match stdout_of (lit "networksetup") [lit "-getdnsservers"; service] w with
  | (w, None) => (w, [])
  | (w, Some stdout) => (w, if contains (lit "aren't any") stdout then [] else lines stdout)
  end.

(* src/protocol/raw/src/route_setup.rs:192-264 setup_macos *)
Definition setup_macos (config : RouteSetupConfig) : Setup := fun '(m, w) =>
  match get_default_route_macos w with
  | (w, Err e) => (m, w, Err e)
  | (w, Ok (gw, iface)) =>
    let '(w, service) := get_network_service_macos iface w in
    let service := default (lit "Wi-Fi") service in
    let '(w, original_dns) := get_dns_macos service w in
    let route := lit "route" in
    and_then (mgr_apply (lit "route delete default")
      (fun w => ((run route [lit "delete"; lit "default"] w).1, Ok ()))
      (cmd_undo route [lit "add"; lit "default"; gw]))
    (and_then (mgr_apply (lit "route add default " ++ tun_gateway config ++ lit " -interface " ++ tun_name config)
      (run route [lit "add"; lit "default"; tun_gateway config; lit "-interface"; tun_name config])
      (cmd_undo route [lit "delete"; lit "default"]))
    (ignoring (mgr_apply (lit "route add default " ++ gw ++ lit " -ifscope " ++ iface)
      (run route [lit "add"; lit "default"; gw; lit "-ifscope"; iface])
      (cmd_undo route [lit "delete"; lit "default"; lit "-ifscope"; iface]))
    (ignoring (mgr_apply (lit "networksetup -setdnsservers " ++ service ++ lit " " ++ dns_ip config)
      (run (lit "networksetup") [lit "-setdnsservers"; service; dns_ip config])
      (match original_dns with
       | [] => cmd_undo (lit "networksetup") [lit "-setdnsservers"; service; lit "Empty"]
       | _ => UCommand (lit "networksetup") ([lit "-setdnsservers"; service] ++ original_dns)
       end))
    done_))) (m, w)
  end.

(* src/protocol/raw/src/route_setup.rs:22-29 setup_routes *)
Definition setup_routes (os : Os) (config : RouteSetupConfig) : Setup :=
  match os with
  | Linux => setup_linux config
  | MacOs => setup_macos config
  | OtherOs => done_
  end.

(** ** What is registered *)

Definition linux_undos (config : RouteSetupConfig) : list SideEffectUndo :=
  [cmd_undo (lit "ip") [lit "route"; lit "del"; lit "default"; lit "dev"; tun_name config; lit "table"; TUN_TABLE];
   cmd_undo (lit "ip") [lit "rule"; lit "del"; lit "priority"; lit "50"];
   cmd_undo (lit "ip") [lit "rule"; lit "del"; lit "priority"; lit "100"];
   cmd_undo (lit "ip") [lit "rule"; lit "del"; lit "priority"; lit "200"]].

(** [x] registers the undos [l] and ends as [r] tells. *)
Definition registers (s : SideEffectManager * World) (x : SideEffectManager * World * res ()) (l : list SideEffectUndo) : Prop :=
  map undo (entries x.1.1) = map undo (entries s.1) ++ l.

Lemma apply_registers d a u s : registers s (mgr_apply d a u s) (match (mgr_apply d a u s).2 with Ok _ => [u] | Err _ => [] end).
Proof.
  destruct s as [m w]. unfold registers, mgr_apply, apply. destruct (a w) as [w1 [[]|e]]; cbn.
  - by rewrite map_app.
  - by rewrite app_nil_r.
Qed.

Lemma registers_trans s x y l1 l2 : registers s x l1 -> registers x.1 y l2 -> registers s y (l1 ++ l2).
Proof. unfold registers. intros H1 H2. by rewrite H2, H1, app_assoc. Qed.

(** The steps with the undos [us] were all done, or those before the one that failed. *)
Definition upto (us : list SideEffectUndo) (r : res ()) (l : list SideEffectUndo) : Prop :=
  match r with
  | Ok _ => us `prefix_of` l
  | Err _ => exists k, (k < length us)%nat /\ l = take k us
  end.

Lemma and_then_registers d a u us b s : (forall s', exists l, registers s' (b s') l /\ upto us (b s').2 l) ->
  exists l, registers s (and_then (mgr_apply d a u) b s) l /\ upto (u :: us) (and_then (mgr_apply d a u) b s).2 l.
Proof.
  intros Hb. pose proof (apply_registers d a u s) as H. unfold and_then. destruct (mgr_apply d a u s) as [s' [[]|e]]; cbn in H.
  - destruct (Hb s') as (l & Hl & HP). exists (u :: l). split; [by apply (registers_trans s (s', Ok ()) (b s') [u] l)|].
    destruct (b s') as [s2 [[]|e]]; cbn in *; [by apply prefix_cons|].
    destruct HP as (k & Hk & ->). exists (Datatypes.S k). split; [lia | done].
  - exists []. split; [done|]. exists 0%nat. cbn. split; [lia | done].
Qed.

Lemma ignoring_registers d a u b s : (forall s', exists l, registers s' (b s') l /\ (b s').2 = Ok ()) ->
  exists l, registers s (ignoring (mgr_apply d a u) b s) l /\ (ignoring (mgr_apply d a u) b s).2 = Ok ().
Proof.
  intros Hb. pose proof (apply_registers d a u s) as H. unfold ignoring. destruct (mgr_apply d a u s) as [s' r].
  destruct (Hb s') as (l & Hl & HP). eexists. split; [|done]. exact (registers_trans _ _ _ _ _ H Hl).
Qed.

(** Setting up fails exactly when one of the first four steps does, and then
    nothing more is tried: the undos registered are those of the steps before
    it.  Otherwise all four are registered, and what fails of the other two is
    left out. *)
Theorem linux_setup_registers config s :
  let x := setup_routes Linux config s in
  exists l, registers s x l /\ upto (linux_undos config) x.2 l.
Proof.
  cbv zeta. cbn [setup_routes]. unfold setup_linux, linux_undos.
  do 4 (apply and_then_registers; intros ?).
  match goal with |- exists l, registers ?t (ignoring (mgr_apply ?d ?a ?u) ?b _) _ /\ _ =>
    destruct (ignoring_registers d a u b t) as (l & Hl & E) end.
  - intros s1. apply ignoring_registers. intros s2. exists []. split; [|done]. unfold registers. by rewrite app_nil_r.
  - exists l. split; [done|]. rewrite E. apply prefix_nil.
Qed.

(** ** Steps that can be undone *)

#[local] Opaque lit resolv_conf TUN_TABLE.

Section Undo.
Context (path : bytes) (usable : journal_usable disk path) (whole : journal_whole disk path).
Local Abbreviation journaled := (journaled run_command disk encode path).
Local Abbreviation undone := (undone run_command disk path).
Local Abbreviation undo_apart := (undo_apart run_command disk path).
Local Abbreviation reverses_at := (reverses_at run_command disk).

(** [w0] is the world before the first step; [P] holds of the world now,
    but for the journal. *)
Definition good (w0 : World) (P : World -> Prop) (s : SideEffectManager * World) : Prop :=
  journaled s.1 s.2 /\ undone s.1 s.2 = undone (manager_new path) w0 /\ P (with_journal path None s.2).

Lemma good_weaken w0 (P Q : World -> Prop) s : (forall w, P w -> Q w) -> good w0 P s -> good w0 Q s.
Proof. intros H (Hj & Hu & HP). split; [done|]. split; [done|]. by apply H. Qed.

Lemma good_new w0 (P : World -> Prop) : files w0 !! path = None -> P w0 -> good w0 P (manager_new path, w0).
Proof.
  intros Hn HP. split; [by apply new_journaled|]. split; [done|]. cbn. rewrite <- Hn. by rewrite with_journal_id.
Qed.

Lemma reverses_journal (a : Action) u j w : apart path a -> undo_apart u -> reverses_at a u w -> reverses_at a u (with_journal path j w).
Proof.
  unfold reverses_at. intros [_ Ha] [_ Hu] H. rewrite Ha. destruct (a w) as [w1 [[]|e]]; cbn [fst snd] in *.
  - rewrite Hu. cbn. by rewrite H.
  - by rewrite H.
Qed.

Lemma world_journal (w : World) : exists j, w = with_journal path j (with_journal path None w).
Proof. exists (files w !! path). by rewrite with_journal_twice, with_journal_id. Qed.

(** One step: an error leaves everything as it was. *)
Lemma step_good w0 (P Q : World -> Prop) d a u s : apart path a -> undo_apart u ->
  (forall w, P w -> reverses_at a u w /\ match a w with (w1, Ok _) => Q w1 | (_, Err _) => True end) ->
  good w0 P s -> match mgr_apply d a u s with (s', Ok _) => good w0 Q s' | (s', Err _) => good w0 P s' end.
Proof.
  destruct s as [m w]. intros Ha Hu Hs (Hj & Hd & HP). cbn [fst snd] in *. unfold mgr_apply.
  destruct (Hs _ HP) as [Hr HQ]. destruct (world_journal w) as [j Ew].
  assert (Hr' : reverses_at a u w) by (rewrite Ew; by apply reverses_journal).
  pose proof (apply_journaled run_command disk encode path whole m d a u w Hj Ha Hu) as Hj1.
  pose proof (apply_undone run_command disk encode path whole m d a u w Hj Hu Hr') as Hd1.
  pose proof (proj2 Ha None w) as Hn. unfold apply, reverses_at in *. rewrite Hn in HQ.
  destruct (a w) as [w1 [[]|e]]; cbn [fst snd] in *.
  - rewrite (persist_journal disk encode path whole) in Hj1, Hd1 |- * by apply Hj. split; [done|]. split; [exact (eq_trans Hd1 Hd)|].
    cbn [snd]. by rewrite with_journal_twice.
  - subst w1. by split.
Qed.

Lemma and_then_good w0 P Q a b s :
  match a s with (s', Ok _) => good w0 Q s' | (s', Err _) => good w0 P s' end ->
  (forall s', good w0 Q s' -> good w0 (fun _ => True) (b s').1) -> good w0 (fun _ => True) (and_then a b s).1.
Proof.
  intros Ha Hb. unfold and_then. destruct (a s) as [s' [?|e]]; [by apply Hb|]. by eapply good_weaken; [|exact Ha].
Qed.

Lemma ignoring_good w0 P Q a b s :
  match a s with (s', Ok _) => good w0 Q s' | (s', Err _) => good w0 P s' end -> (forall w, P w -> Q w) ->
  (forall s', good w0 Q s' -> good w0 (fun _ => True) (b s').1) -> good w0 (fun _ => True) (ignoring a b s).1.
Proof.
  intros Ha Hw Hb. unfold ignoring. apply Hb. destruct (a s) as [s' [?|e]]; [done|]. by eapply good_weaken; [|exact Ha].
Qed.

(** A command that only acts on the system has nothing to do with files. *)
Definition on_sys (f : World -> World * option (bool * bytes)) (g : Sys -> Sys * option (bool * bytes)) : Prop :=
  forall w, f w = (mkWorld (files w) (g (sys w)).1, (g (sys w)).2).

Lemma run_apart cmd args g : on_sys (output cmd args) g -> apart path (run cmd args).
Proof.
  intros H. split; [intros w | intros j w]; unfold run; rewrite !H; cbn; by destruct (g (sys w)) as [s' [[[] ?]|]].
Qed.

Lemma command_apart cmd args g : on_sys (output cmd args) g -> undo_apart (UCommand cmd args).
Proof.
  intros H. split; [intros w | intros j w]; unfold execute, run_command; rewrite !H; cbn; by destruct (g (sys w)) as [s' [[[] ?]|]].
Qed.

Lemma write_apart p c m : p <> path ->
  apart path (fun w : World => let '(w, ok) := fs_write disk p c w in (w, of_bool m ok)).
Proof.
  intros Hp. unfold fs_write. split.
  - intros w. destruct (d_write _ _ _ _); cbn; try done; by rewrite lookup_insert_ne.
  - intros j w. cbn [sys with_journal]. destruct (d_write _ _ _ _); cbn; try done;
      unfold with_journal, put_file; cbn; f_equal; f_equal;
      (destruct j; [by apply insert_insert_ne | symmetry; by apply delete_insert_ne]).
Qed.

(** *** Linux *)

Definition succeeded (o : option (bool * bytes)) : bool := match o with Some (true, _) => true | _ => false end.

Definition rule_add (spec : list bytes) (prio : bytes) : list bytes := [lit "rule"; lit "add"] ++ spec ++ [lit "priority"; prio].
Definition rule_del (prio : bytes) : list bytes := [lit "rule"; lit "del"; lit "priority"; prio].
Definition route_cmd (what dev table : bytes) : list bytes := [lit "route"; what; lit "default"; lit "dev"; dev; lit "table"; table].

(** [ip]: it acts on the kernel's tables only; what fails changes nothing;
    deleting by priority takes back the rule that was added when no other has
    that priority, and so for the default route of a table. *)
Class IpTool : Type := {
  ip_run : list bytes -> Sys -> Sys * option (bool * bytes);
  ip_on_sys args : on_sys (output (lit "ip") args) (ip_run args);
  rule_free : bytes -> Sys -> Prop;
  route_free : bytes -> Sys -> Prop;
  rule_add_fails spec p s : succeeded (ip_run (rule_add spec p) s).2 = false -> (ip_run (rule_add spec p) s).1 = s;
  rule_add_del spec p s : rule_free p s -> succeeded (ip_run (rule_add spec p) s).2 = true ->
    (ip_run (rule_del p) (ip_run (rule_add spec p) s).1).1 = s;
  rule_add_other spec p q s : q <> p -> rule_free q s -> rule_free q (ip_run (rule_add spec p) s).1;
  route_add_fails dev t s : succeeded (ip_run (route_cmd (lit "add") dev t) s).2 = false -> (ip_run (route_cmd (lit "add") dev t) s).1 = s;
  route_add_del dev t s : route_free t s -> succeeded (ip_run (route_cmd (lit "add") dev t) s).2 = true ->
    (ip_run (route_cmd (lit "del") dev t) (ip_run (route_cmd (lit "add") dev t) s).1).1 = s;
  route_add_rules dev t q s : rule_free q s -> rule_free q (ip_run (route_cmd (lit "add") dev t) s).1 }.

Section Linux.
Context {IP : IpTool} (dns : bytes) (dns_valid : utf8_valid dns = true).

(** The priorities of [ps] are free and the name servers can be read. *)
Definition linux_ready (ps : list bytes) (w : World) : Prop :=
  Forall (fun p => rule_free p (sys w)) ps /\ files w !! resolv_conf = Some dns.

Lemma ip_reverses add del w : (succeeded (ip_run add (sys w)).2 = false -> (ip_run add (sys w)).1 = sys w) ->
  (succeeded (ip_run add (sys w)).2 = true -> (ip_run del (ip_run add (sys w)).1).1 = sys w) ->
  reverses_at (run (lit "ip") add) (cmd_undo (lit "ip") del) w.
Proof.
  intros Hf Hd. unfold SideEffect.reverses_at, run. rewrite ip_on_sys.
  destruct (ip_run add (sys w)) as [s [[[] out]|]] eqn:E; cbn in *.
  - unfold run_command. rewrite ip_on_sys. cbn. rewrite (Hd eq_refl). by destruct w.
  - rewrite (Hf eq_refl). by destruct w.
  - rewrite (Hf eq_refl). by destruct w.
Qed.

(** What [run] leaves of the files, and of the system when it succeeds. *)
Lemma ip_run_ok (Q : World -> Prop) args w : Q (mkWorld (files w) (ip_run args (sys w)).1) ->
  match run (lit "ip") args w with (w1, Ok _) => Q w1 | (_, Err _) => True end.
Proof. unfold run. rewrite ip_on_sys. by destruct (ip_run args (sys w)) as [s [[[] out]|]]. Qed.

Lemma rule_step w0 d spec p ps s : p ∉ ps -> good w0 (linux_ready (p :: ps)) s ->
  match mgr_apply d (run (lit "ip") (rule_add spec p)) (cmd_undo (lit "ip") (rule_del p)) s with
  | (s', Ok _) => good w0 (linux_ready ps) s'
  | (s', Err _) => good w0 (linux_ready (p :: ps)) s'
  end.
Proof.
  intros Hp. apply step_good; [eapply run_apart, ip_on_sys | eapply command_apart, ip_on_sys|].
  intros w [[Hfree Hps]%Forall_cons Hdns]. split.
  - apply ip_reverses; [apply rule_add_fails | by apply rule_add_del].
  - apply ip_run_ok. split; [|done]. cbn. rewrite !Forall_forall in *. intros q Hq.
    apply rule_add_other; [by intros -> | by apply Hps].
Qed.

Lemma route_step w0 d dev ps s : good w0 (fun w => route_free TUN_TABLE (sys w) /\ linux_ready ps w) s ->
  match mgr_apply d (run (lit "ip") (route_cmd (lit "add") dev TUN_TABLE))
          (cmd_undo (lit "ip") (route_cmd (lit "del") dev TUN_TABLE)) s with
  | (s', Ok _) => good w0 (linux_ready ps) s'
  | (s', Err _) => good w0 (fun w => route_free TUN_TABLE (sys w) /\ linux_ready ps w) s'
  end.
Proof.
  apply step_good; [eapply run_apart, ip_on_sys | eapply command_apart, ip_on_sys|].
  intros w (Hfree & Hps & Hdns). split.
  - apply ip_reverses; [apply route_add_fails | by apply route_add_del].
  - apply ip_run_ok. split; [|done]. cbn. eapply Forall_impl; [exact Hps|]. intros q. apply route_add_rules.
Qed.

(** Whether [resolv.conf] can be written does not change, and it is never torn. *)
Definition resolv_steady : Prop :=
  (forall s c, d_write disk s resolv_conf c = Written) \/ (forall s c, d_write disk s resolv_conf c = Refused).

Lemma dns_step w0 config s : resolv_steady -> path <> resolv_conf -> good w0 (linux_ready []) s ->
  good w0 (fun _ => True) (set_dns_linux config done_ s).1.
Proof.
  intros Hst Hp Hg. pose proof Hg as (_ & _ & _ & Hc).
  assert (E : read_to_string resolv_conf s.2 = Some dns).
  { unfold read_to_string. unfold with_journal in Hc. cbn in Hc. rewrite lookup_delete_ne in Hc by done.
    rewrite Hc. cbn. by rewrite dns_valid. }
  unfold set_dns_linux. rewrite E. cbn [default].
  eapply (ignoring_good w0 (linux_ready []) (fun _ => True)); [|done|by intros].
  apply step_good; [by apply write_apart | by apply (write_apart resolv_conf dns)| |done].
  intros w [_ Hw]. split; [|by destruct (write_resolv _ w) as [? []]].
  unfold SideEffect.reverses_at, write_resolv, fs_write. destruct Hst as [Ha|Ha]; rewrite Ha; cbn; [|done].
  unfold fs_write. rewrite Ha. unfold put_file. cbn. rewrite insert_insert_eq, insert_id by done. by destruct w.
Qed.

Lemma priorities_distinct : NoDup [lit "50"; lit "100"; lit "200"; lit "201"].
Proof. apply (bool_decide_eq_true_1 _). vm_compute. reflexivity. Qed.

(** C21: On Linux, whichever of the steps of the setup fails, and whether the
    manager is dropped or the process crashes and recovers, the world is
    afterwards as it was before: the routes, the rules, the name servers and
    all other files.  The conditions: the table 2468 has no default route and
    no rule has the priorities 50, 100, 200 or 201; [/etc/resolv.conf] is there
    and is text, and is either writable throughout or not at all; [ip] does
    what is documented, in particular a deletion of what was added succeeds;
    there is no journal at the start, it is not [resolv.conf], no other
    manager uses it, and it can be read, removed and written whole. *)
Theorem linux_routes_undone decode config w :
  (forall l, decode (encode l) = Some l) -> (forall l, encode l <> []) -> (forall l, utf8_valid (encode l) = true) ->
  resolv_steady -> path <> resolv_conf -> files w !! path = None -> files w !! resolv_conf = Some dns ->
  route_free TUN_TABLE (sys w) -> Forall (fun p => rule_free p (sys w)) [lit "50"; lit "100"; lit "200"; lit "201"] ->
  let '((m, w'), r) := setup_routes Linux config (manager_new path, w) in
  manager_drop run_command disk m w' = w /\ recover run_command disk decode path w' = w.
Proof.
  intros Hde Hne Htx Hst Hp Hj Hdns Hroute Hrules. pose proof priorities_distinct as Hd. rewrite !NoDup_cons in Hd. destruct Hd as (D1 & D2 & D3 & D4 & _).
  assert (Hg : good w (fun _ => True) (setup_linux config (manager_new path, w)).1).
  { unfold setup_linux.
    eapply and_then_good; [apply (route_step w _ (tun_name config) [lit "50"; lit "100"; lit "200"; lit "201"]), good_new; done|].
    intros s1 G1. eapply and_then_good; [by apply (rule_step w _ [lit "fwmark"; show_uint (fwmark config); lit "table"; lit "main"])|].
    intros s2 G2. eapply and_then_good; [by apply (rule_step w _ [lit "table"; lit "main"; lit "suppress_prefixlength"; lit "0"])|].
    intros s3 G3. eapply and_then_good; [by apply (rule_step w _ [lit "not"; lit "fwmark"; show_uint (fwmark config); lit "table"; TUN_TABLE])|].
    intros s4 G4. eapply (ignoring_good w _ (linux_ready []));
      [by apply (rule_step w _ [lit "not"; lit "fwmark"; show_uint (fwmark config); lit "dport"; lit "53"; lit "table"; TUN_TABLE])| |].
    - intros w1 [_ H]. by split.
    - intros s5 G5. by apply dns_step. }
  cbn [setup_routes]. destruct (setup_linux config (manager_new path, w)) as [[m w'] r]. destruct Hg as (G1 & G2 & _).
  eapply drop_undone; eauto.
Qed.

End Linux.

End Undo.

(** ** What macOS is asked *)

Lemma filter_none (P : bytes -> Prop) `{forall x, Decision (P x)} l : Forall (fun y => ~ P y) l -> filter P l = [].
Proof. induction 1 as [|x l Hx _ IH]; [done|]. by rewrite filter_cons_False. Qed.

(** The word after the key, of the first line with the key. *)
Lemma word_of_line key pre a w post : w <> [] -> Forall visible w ->
  Forall (fun l => contains key l = false) pre -> Forall is_line (pre ++ (a ++ key ++ 32 :: w) :: post) ->
  word_of key (unlines (pre ++ (a ++ key ++ 32 :: w) :: post)) = Some w.
Proof.
  intros Hne Hv Hpre Hl. unfold word_of. rewrite lines_unlines by done.
  rewrite filter_app, filter_cons_True by (apply contains_spec; by exists a, (32 :: w)).
  rewrite filter_none by (eapply Forall_impl; [exact Hpre|]; by intros l ->).
  cbn. rewrite app_assoc. by apply last_word.
Qed.

(** The default route is read off what [route] prints, wherever its two lines
    are among the others. *)
Theorem default_route_parsed w w' ok gw iface pre a mid b post :
  let gl := a ++ lit "gateway:" ++ 32 :: gw in
  let il := b ++ lit "interface:" ++ 32 :: iface in
  output (lit "route") [lit "-n"; lit "get"; lit "default"] w = (w', Some (ok, unlines (pre ++ gl :: mid ++ il :: post))) ->
  gw <> [] -> Forall visible gw -> iface <> [] -> Forall visible iface ->
  Forall is_line (pre ++ gl :: mid ++ il :: post) ->
  Forall (fun l => contains (lit "gateway:") l = false) pre ->
  Forall (fun l => contains (lit "interface:") l = false) (pre ++ gl :: mid) ->
  get_default_route_macos w = (w', Ok (gw, iface)).
Proof.
  intros gl il E Hg Hgv Hi Hiv Hl Hpg Hpi. unfold get_default_route_macos, stdout_of. rewrite E. cbn [snd fmap option_fmap option_map].
  unfold gl. rewrite word_of_line by done. fold gl. cbn [ok_or mbind res_bind].
  replace (pre ++ gl :: mid ++ il :: post) with ((pre ++ gl :: mid) ++ il :: post) in * by (by rewrite <- app_assoc).
  unfold il in *. by rewrite word_of_line.
Qed.

(** A service as [networksetup] lists it: its number, name, port and device. *)
Record Service : Type := mkService { sv_number : bytes; sv_name : bytes; sv_port : bytes; sv_device : bytes }.

Definition service_lines (sv : Service) : list bytes :=
  [40 :: sv_number sv ++ 41 :: 32 :: sv_name sv;
   40 :: lit "Hardware Port: " ++ sv_port sv ++ lit ", Device: " ++ sv_device sv ++ [41];
   []].

(** No closing parentheses but those of the format. *)
Definition plain_service (sv : Service) : Prop :=
  (41 ∉ sv_number sv) /\ (41 ∉ sv_name sv) /\ (41 ∉ sv_port sv) /\ (41 ∉ sv_device sv) /\
  trim (32 :: sv_name sv) = sv_name sv /\ sv_name sv <> [].

Lemma find_service_line device last line l :
  contains (lit "Device: " ++ device) line = false ->
  find_service device last (line :: l) =
  find_service device (match (t ← strip_prefix [40] line; trim <$> split_on 41 t !! 1%nat) with Some (b :: n) => Some (b :: n) | _ => last end) l.
Proof. intros H. cbn [find_service]. rewrite H. by destruct (strip_prefix [40] line ≫= _) as [[|b n]|]. Qed.

Lemma strip_open {A} t (f : bytes -> option A) : (strip_prefix [40] (40 :: t) ≫= f) = f t.
Proof. reflexivity. Qed.

Lemma service_name last sv : plain_service sv ->
  match (t ← strip_prefix [40] (40 :: sv_number sv ++ 41 :: 32 :: sv_name sv); trim <$> split_on 41 t !! 1%nat) with
  | Some (b :: n) => Some (b :: n) | _ => last end = Some (sv_name sv).
Proof.
  intros (Hn & Hm & _ & _ & Ht & Hne). rewrite strip_open.
  rewrite split_on_app, (split_on_none 41 (32 :: sv_name sv)) by (done || by rewrite not_elem_of_cons).
  change (match Some (trim (32 :: sv_name sv)) with Some (b :: n) => Some (b :: n) | _ => last end = Some (sv_name sv)).
  rewrite Ht. by destruct (sv_name sv).
Qed.

Lemma service_port last sv : plain_service sv ->
  match (t ← strip_prefix [40] (40 :: lit "Hardware Port: " ++ sv_port sv ++ lit ", Device: " ++ sv_device sv ++ [41]);
         trim <$> split_on 41 t !! 1%nat) with
  | Some (b :: n) => Some (b :: n) | _ => last end = last.
Proof.
  intros (_ & _ & Hp & Hd & _). rewrite strip_open.
  replace (lit "Hardware Port: " ++ sv_port sv ++ lit ", Device: " ++ sv_device sv ++ [41])
    with ((lit "Hardware Port: " ++ sv_port sv ++ lit ", Device: " ++ sv_device sv) ++ 41 :: []) by (by rewrite <- !app_assoc).
  rewrite split_on_app; [done|]. rewrite !not_elem_of_app. split_and!; try done; apply (bool_decide_eq_true_1 _); vm_compute; reflexivity.
Qed.

Lemma find_service_skip device svs : Forall plain_service svs ->
  Forall (fun l => contains (lit "Device: " ++ device) l = false) (svs ≫= service_lines) ->
  forall last l, exists last', find_service device last ((svs ≫= service_lines) ++ l) = find_service device last' l.
Proof.
  induction 1 as [|sv svs Hs _ IH]; intros Hc last l; [by exists last|].
  cbn [mbind list_bind service_lines app] in *. inversion_clear Hc as [|? ? H1 Hc']. inversion_clear Hc' as [|? ? H2 Hc''].
  inversion_clear Hc'' as [|? ? H3 Hc3]. rewrite !find_service_line by done. by apply IH.
Qed.

(** The name servers are set for the service of the default route's device:
    the first listed whose line names the device. *)
Theorem network_service_found w w' ok device head_ svs sv post :
  output (lit "networksetup") [lit "-listnetworkserviceorder"] w =
    (w', Some (ok, unlines (head_ :: (svs ≫= service_lines) ++ service_lines sv ++ post))) ->
  Forall is_line (head_ :: (svs ≫= service_lines) ++ service_lines sv ++ post) ->
  Forall plain_service svs -> plain_service sv -> sv_device sv = device ->
  Forall (fun l => contains (lit "Device: " ++ device) l = false)
    (head_ :: (svs ≫= service_lines) ++ [40 :: sv_number sv ++ 41 :: 32 :: sv_name sv]) ->
  get_network_service_macos device w = (w', Some (sv_name sv)).
Proof.
  intros E Hl Hs Hv Hd Hc. unfold get_network_service_macos, stdout_of. rewrite E. cbn [snd fmap option_fmap option_map].
  rewrite lines_unlines by done. f_equal. inversion_clear Hc as [|? ? H1 Hc']. apply Forall_app in Hc' as [Hc1 Hc2].
  rewrite Forall_cons in Hc2. destruct Hc2 as [Hc2 _]. rewrite find_service_line by done.
  destruct (find_service_skip device svs Hs Hc1 (match (t ← strip_prefix [40] head_; trim <$> split_on 41 t !! 1%nat) with Some (b :: n) => Some (b :: n) | _ => None end)
    (service_lines sv ++ post)) as [last' ->].
  cbn [service_lines app]. rewrite find_service_line by done. rewrite service_name by done.
  cbn [find_service]. pose proof (service_port (Some (sv_name sv)) sv Hv) as Hp.
  replace (contains _ _) with true.
  - destruct (strip_prefix [40] _ ≫= _) as [[|b n]|]; done.
  - symmetry. apply contains_spec. exists (40 :: lit "Hardware Port: " ++ sv_port sv ++ lit ", "), [41]. rewrite Hd.
    cbn. f_equal. rewrite <- !app_assoc. done.
Qed.

End Route.

#[local] Transparent lit resolv_conf TUN_TABLE.

(** ** Samples *)

(** Rules with their priorities, the oldest first, and the default routes of
    the tables.  A command that is not understood fails. *)
Record Tables : Type := mkTables { t_rules : list (bytes * list bytes); t_routes : list (bytes * bytes) }.

Fixpoint remove_first {A} (f : A -> bool) (l : list A) : option (list A) :=
  match l with
  | [] => None
  | x :: l => if f x then Some l else cons x <$> remove_first f l
  end.

Definition parse_add (args : list bytes) : option (list bytes * bytes) :=
  match args with
  | a :: b :: rest =>
    if bool_decide ([a; b] = [lit "rule"; lit "add"]) then
      match reverse rest with p :: _ :: spec => Some (reverse spec, p) | _ => None end
    else None
  | _ => None
  end.

Definition toy_ip (args : list bytes) (s : Tables) : Tables * option (bool * bytes) :=
  let fail := (s, Some (false, [])) in
  let ok s := (s, Some (true, [])) in
  match parse_add args, args with
  | Some (spec, p), _ => ok (mkTables (t_rules s ++ [(p, spec)]) (t_routes s))
  | None, [a; b; c; p] =>
    match remove_first (fun r => bool_decide (r.1 = p)) (t_rules s) with
    | Some l => ok (mkTables l (t_routes s)) | None => fail end
  | None, [_; what; _; _; dev; _; t] =>
    if bool_decide (what = lit "add") then
      if bool_decide (t ∈ map fst (t_routes s)) then fail else ok (mkTables (t_rules s) ((t, dev) :: t_routes s))
    else match remove_first (fun r => bool_decide (r = (t, dev))) (t_routes s) with
      | Some l => ok (mkTables (t_rules s) l) | None => fail end
  | _, _ => fail
  end.

Definition toy_output (cmd : bytes) (args : list bytes) (w : @World Tables) : @World Tables * option (bool * bytes) :=
  if bool_decide (cmd = lit "ip") then (mkWorld (files w) (toy_ip args (sys w)).1, (toy_ip args (sys w)).2) else (w, None).

Lemma parse_rule_add spec p : parse_add (rule_add spec p) = Some (spec, p).
Proof.
  unfold parse_add, rule_add. cbn [app]. rewrite bool_decide_true by done.
  replace (reverse (spec ++ [lit "priority"; p])) with (p :: lit "priority" :: reverse spec) by (by rewrite reverse_app).
  cbn. by rewrite reverse_involutive.
Qed.

Lemma toy_add spec p s : toy_ip (rule_add spec p) s = (mkTables (t_rules s ++ [(p, spec)]) (t_routes s), Some (true, [])).
Proof. unfold toy_ip. by rewrite parse_rule_add. Qed.

Lemma toy_route_add dev t s : toy_ip (route_cmd (lit "add") dev t) s =
  if bool_decide (t ∈ map fst (t_routes s)) then (s, Some (false, [])) else (mkTables (t_rules s) ((t, dev) :: t_routes s), Some (true, [])).
Proof. reflexivity. Qed.

Lemma toy_route_del dev t s : toy_ip (route_cmd (lit "del") dev t) s =
  match remove_first (fun r => bool_decide (r = (t, dev))) (t_routes s) with
  | Some l => (mkTables (t_rules s) l, Some (true, [])) | None => (s, Some (false, [])) end.
Proof. reflexivity. Qed.

Lemma remove_last {A} (f : A -> bool) l x : Forall (fun y => f y = false) l -> f x = true -> remove_first f (l ++ [x]) = Some l.
Proof. intros H Hx. induction H as [|y l Hy _ IH]; cbn; [by rewrite Hx|]. by rewrite Hy, IH. Qed.

#[global] Instance toy_tool : IpTool toy_output.
Proof.
  refine {| ip_run := toy_ip; rule_free p s := Forall (fun r => r.1 <> p) (t_rules s); route_free t s := t ∉ map fst (t_routes s) |}.
  - intros args w. reflexivity.
  - intros spec p s. by rewrite toy_add.
  - intros spec p s Hf _. rewrite toy_add. cbn [fst]. unfold toy_ip. cbn -[remove_first].
    rewrite remove_last; [by destruct s | | by apply bool_decide_true]. eapply Forall_impl; [exact Hf|].
    intros r Hr. by apply bool_decide_false.
  - intros spec p q s Hq Hf. rewrite toy_add. cbn. apply Forall_app. split; [done|]. constructor; [|constructor]. cbn. congruence.
  - intros dev t s. rewrite toy_route_add. by case_bool_decide.
  - intros dev t s Hf _. rewrite toy_route_add, bool_decide_false by done. cbn [fst].
    rewrite toy_route_del. cbn [remove_first t_routes]. rewrite bool_decide_true by done. by destruct s.
  - intros dev t q s Hf. rewrite toy_route_add. by case_bool_decide.
Defined.

Definition toy_config : RouteSetupConfig := mkRouteConfig (lit "tun0") (lit "10.0.0.1") 255 (lit "10.0.0.1").
Definition toy_dns : bytes := lit "nameserver 9.9.9.9".
Definition toy_world (dns : option bytes) (rules : list (bytes * list bytes)) : @World Tables :=
  mkWorld (match dns with Some c => {[ resolv_conf := c ]} | None => ∅ end) (mkTables rules []).
Definition toy_path : bytes := lit "/var/journal".
Definition toy_disk : @Disk Tables := mkDisk (fun _ _ _ => Written) (fun _ _ => true) (fun _ _ => true).
Definition toy_setup (w : @World Tables) := setup_routes toy_output toy_disk sample_encode Linux toy_config (manager_new toy_path, w).
Definition toy_drop (x : SideEffectManager * @World Tables * res ()) : @World Tables :=
  manager_drop (run_command toy_output) toy_disk x.1.1 x.1.2.

Lemma linux_routes_undone_witness : toy_drop (toy_setup (toy_world (Some toy_dns) [(lit "0", [])])) = toy_world (Some toy_dns) [(lit "0", [])].
Proof.
  pose proof (linux_routes_undone toy_output toy_disk sample_encode toy_path (good_usable _ _) (fun _ _ => eq_refl) toy_dns eq_refl
    sample_decode toy_config (toy_world (Some toy_dns) [(lit "0", [])]) sample_decode_encode sample_nonempty sample_text
    (or_introl (fun _ _ => eq_refl)) ltac:(discriminate) eq_refl eq_refl) as H.
  unfold toy_drop, toy_setup. destruct (setup_routes _ _ _ _ _ _) as [[m w'] r]. apply H.
  - cbn. apply not_elem_of_nil.
  - repeat constructor; discriminate.
Defined.

(** The rules of the running setup. *)
Lemma sample_linux : let x := toy_setup (toy_world (Some toy_dns) []) in
  x.2 = Ok () /\ map fst (t_rules (sys x.1.2)) = [lit "50"; lit "100"; lit "200"; lit "201"] /\
  files x.1.2 !! resolv_conf = Some (lit "nameserver 10.0.0.1" ++ [10]).
Proof. vm_compute. done. Qed.

(** Without a name server file, one is made up when the routes are removed. *)
Lemma routes_invent_dns :
  files (toy_drop (toy_setup (toy_world None []))) !! resolv_conf = Some (lit "nameserver 1.1.1.1" ++ [10]).
Proof. vm_compute. done. Qed.

(** A rule of someone else with priority 50 is deleted in place of the one
    that was added, which stays. *)
Lemma routes_delete_foreign_rule :
  t_rules (sys (toy_drop (toy_setup (toy_world (Some toy_dns) [(lit "50", [lit "theirs"])])))) =
  [(lit "50", [lit "fwmark"; lit "255"; lit "table"; lit "main"])].
Proof. vm_compute. done. Qed.

(** A name with parentheses is cut at the first that closes. *)
Lemma service_name_cut :
  find_service (lit "en5") None (service_lines (mkService (lit "1") (lit "USB (2) LAN") (lit "LAN") (lit "en5"))) = Some (lit "USB (2").
Proof. vm_compute. done. Qed.

(** A device whose name goes on after the one looked for is taken for it. *)
Lemma service_of_other_device :
  find_service (lit "en1") None ([mkService (lit "1") (lit "Thunderbolt") (lit "A") (lit "en10"); mkService (lit "2") (lit "Wi-Fi") (lit "B") (lit "en1")] ≫= service_lines)
  = Some (lit "Thunderbolt").
Proof. vm_compute. done. Qed.

Definition mac_output (cmd : bytes) (args : list bytes) (w : @World unit) : @World unit * option (bool * bytes) :=
  (w, Some (true,
    if bool_decide (cmd = lit "route") then
      unlines [lit "destination: default"; lit "    gateway: 192.168.1.1"; lit "  interface: en0"; lit "      flags: <UP>"]
    else unlines (lit "An asterisk (*) denotes that a network service is disabled." ::
      ([mkService (lit "1") (lit "LAN") (lit "LAN") (lit "en5"); mkService (lit "2") (lit "Wi-Fi") (lit "Wi-Fi") (lit "en0")] ≫= service_lines)))).

Definition is_lineb (l : bytes) : bool := bool_decide (10 ∉ l) && bool_decide (strip_suffix [13] l = None).

Lemma is_lines ls : forallb is_lineb ls = true -> Forall is_line ls.
Proof.
  intros H. apply Forall_forall. intros l Hl. rewrite forallb_forall in H. specialize (H l ltac:(by apply list_elem_of_In)).
  apply andb_prop in H as [H1%bool_decide_eq_true H2%bool_decide_eq_true]. by split.
Qed.

Lemma visible_word l : forallb (fun b => (33 <=? b) && (b <? 127)) l = true -> Forall visible l.
Proof.
  intros H. apply Forall_forall. intros b Hb. rewrite forallb_forall in H. specialize (H b ltac:(by apply list_elem_of_In)).
  apply andb_prop in H. unfold visible. lia.
Qed.

Definition mac_world : @World unit := mkWorld ∅ tt.

Lemma default_route_parsed_witness : get_default_route_macos mac_output mac_world = (mac_world, Ok (lit "192.168.1.1", lit "en0")).
Proof.
  apply (default_route_parsed mac_output mac_world mac_world true (lit "192.168.1.1") (lit "en0") [lit "destination: default"] (lit "    ") [] (lit "  ") [lit "      flags: <UP>"]).
  - reflexivity.
  - done.
  - by apply visible_word.
  - done.
  - by apply visible_word.
  - apply is_lines. reflexivity.
  - repeat constructor.
  - repeat constructor.
Defined.

Lemma network_service_found_witness : get_network_service_macos mac_output (lit "en0") mac_world = (mac_world, Some (lit "Wi-Fi")).
Proof.
  apply (network_service_found mac_output mac_world mac_world true (lit "en0") (lit "An asterisk (*) denotes that a network service is disabled.")
    [mkService (lit "1") (lit "LAN") (lit "LAN") (lit "en5")] (mkService (lit "2") (lit "Wi-Fi") (lit "Wi-Fi") (lit "en0")) []).
  - reflexivity.
  - apply is_lines. reflexivity.
  - constructor; [|constructor]. unfold plain_service. split_and!; try (apply (bool_decide_eq_true_1 _); reflexivity).
  - unfold plain_service. split_and!; try (apply (bool_decide_eq_true_1 _); reflexivity).
  - reflexivity.
  - repeat constructor.
Defined.

End Route.
