(* ===== verification/Raw.v ===== *)
(** * The TUN server and gateway: [protocol/raw/src/fake_ip.rs],
    [gateway.rs], [tun_server.rs] and [forward/source.rs]

    The pool of fake IPs for domains, the device that redirects TCP flows to
    the proxy's listener and back, the choice of a connection's target, and
    the sending side of the raw UDP socket.  Packets are what [smoltcp]'s
    views show of them: checksums and the fields the code does not look at
    are left out.  [u32] arithmetic wraps, as in a release build. *)

From S2P Require Import Prelude Io Address Lru.

Module Raw.

Definition u32 (x : Z) : Z := x mod 2 ^ 32.

(** ** The fake IP pool *)

(* src/protocol/raw/src/fake_ip.rs:14-20 FakeIpPool *)
Record FakeIpPool : Type := mkPool {
  fp_min : Z;
  fp_max : Z;
  cursor : Z;
  domain_to_ip : gmap bytes Z;
  ip_to_domain : gmap Z bytes }.

(** [None] is a panic. *)
(* src/protocol/raw/src/fake_ip.rs:134-139 parse_cidr *)
Definition parse_cidr (cidr : bytes) : option (Z * Z) :=
  match split_on 47 cidr with
  | ip :: prefix :: _ =>
    match parse_ip ip, parse_uint 32 prefix with
    | Some (V4 a), Some p => Some (a, p)
    | _, _ => None
    end
  | _ => None
  end.

(* src/protocol/raw/src/fake_ip.rs:24-41 FakeIpPool::new *)
Definition pool_new (cidr : bytes) : option FakeIpPool :=
  match parse_cidr cidr with
  | None => None
  | Some (base, prefix_len) =>
    let host_bits := u32 (32 - prefix_len) in
    let network_size := u32 (Z.shiftl 1 (host_bits mod 32)) in
    let mn := u32 (base + 2) in
    let mx := u32 (u32 (base + network_size) - 2) in
    Some (mkPool mn mx mn ∅ ∅)
  end.

(** The remainder by zero panics. *)
(* src/protocol/raw/src/fake_ip.rs:94-100 FakeIpPool::next_ip *)
Definition next_ip (p : FakeIpPool) : option (FakeIpPool * Z) :=
  let current := cursor p in
  let size := u32 (u32 (fp_max p - fp_min p) + 1) in
  if size =? 0 then None
  else
    Some (mkPool (fp_min p) (fp_max p) (u32 (current + 1)) (domain_to_ip p) (ip_to_domain p),
          u32 (fp_min p + u32 (current - fp_min p) mod size)).

(* src/protocol/raw/src/fake_ip.rs:44-71 FakeIpPool::allocate *)
Definition allocate (p : FakeIpPool) (domain : bytes) : option (FakeIpPool * Z) :=
  match domain_to_ip p !! domain with
  | Some ip => Some (p, ip)
  | None =>
    match next_ip p with
    | None => None
    | Some (p, ip) =>
      let d2i := match ip_to_domain p !! ip with
        | Some old_domain => delete old_domain (domain_to_ip p)
        | None => domain_to_ip p end in
      Some (mkPool (fp_min p) (fp_max p) (cursor p) (<[domain := ip]> d2i) (<[ip := domain]> (ip_to_domain p)), ip)
    end
  end.

(* src/protocol/raw/src/fake_ip.rs:74-76 FakeIpPool::lookup *)
Definition lookup_ip (p : FakeIpPool) (ip : Z) : option bytes := ip_to_domain p !! ip.

(* src/protocol/raw/src/fake_ip.rs:79-87 FakeIpPool::contains *)
Definition pool_contains (p : FakeIpPool) (ip : IpAddr) : bool :=
  match ip with V4 n => (fp_min p <=? n) && (n <=? fp_max p) | V6 _ => false end.

(* src/protocol/raw/src/fake_ip.rs:90-92 FakeIpPool::gateway *)
Definition pool_gateway (p : FakeIpPool) : Z := u32 (fp_min p - 1).

Fixpoint allocate_all (p : FakeIpPool) (l : list bytes) : option FakeIpPool :=
  match l with
  | [] => Some p
  | d :: l => match allocate p d with Some (p, _) => allocate_all p l | None => None end
  end.

(** [trim_end_matches('.')]. *)
Fixpoint trim_start_dots (s : bytes) : bytes :=
  match s with 46 :: s => trim_start_dots s | _ => s end.
Definition trim_end_dots (s : bytes) : bytes := reverse (trim_start_dots (reverse s)).

(** DNS messages are [simple_dns]'s: the first question of a query, whether
    it asks for an A record, and the reply to a query with an address. *)
(* src/protocol/raw/src/fake_ip.rs:105-132 generate_fake_response *)
Definition generate_fake_response (first_question : bytes -> option (bytes * bool))
    (reply : bytes -> Z -> option bytes) (p : FakeIpPool) (request : bytes) : option (FakeIpPool * option bytes) :=
  match first_question request with
  | None => Some (p, None)
  | Some (_, false) => Some (p, None)
  | Some (qname, true) =>
    match allocate p (trim_end_dots qname) with
    | None => None
    | Some (p, ip) => Some (p, reply request ip)
    end
  end.

(** Where a redirected connection goes. *)
(* src/protocol/raw/src/tun_server.rs:240-248 TunHandler::serve_tcp *)
Definition tun_target (p : FakeIpPool) (orig_addr : SocketAddr) : Address :=
  if pool_contains p (sa_ip orig_addr) then
    match sa_ip orig_addr with
    | V4 ip =>
      match lookup_ip p ip with
      | Some domain => host_to_address domain (sa_port orig_addr)
      | None => ASocket orig_addr
      end
    | V6 _ => ASocket orig_addr
    end
  else ASocket orig_addr.

(** *** Invariant *)

Record pool_ok (p : FakeIpPool) : Prop := mkPoolOk {
  po_min : 0 <= fp_min p;
  po_order : fp_min p <= fp_max p;
  po_max : fp_max p < 2 ^ 32 - 1;
  po_inverse : forall d ip, domain_to_ip p !! d = Some ip <-> ip_to_domain p !! ip = Some d;
  po_range : forall d ip, domain_to_ip p !! d = Some ip -> fp_min p <= ip <= fp_max p }.

Lemma u32_small x : 0 <= x < 2 ^ 32 -> u32 x = x.
Proof. apply Z.mod_small. Qed.

Lemma pool_size p : pool_ok p -> u32 (u32 (fp_max p - fp_min p) + 1) = fp_max p - fp_min p + 1.
Proof. intros [? ? ? _ _]. rewrite (u32_small (_ - _)) by lia. apply u32_small. lia. Qed.

Lemma next_ip_spec p : pool_ok p -> exists p' ip, next_ip p = Some (p', ip) /\
  p' = mkPool (fp_min p) (fp_max p) (u32 (cursor p + 1)) (domain_to_ip p) (ip_to_domain p) /\
  ip = fp_min p + u32 (cursor p - fp_min p) mod (fp_max p - fp_min p + 1) /\ fp_min p <= ip <= fp_max p.
Proof.
  intros Hp. pose proof Hp as [H1 H2 H3 _ _]. unfold next_ip. rewrite pool_size by done.
  destruct (Z.eqb_spec (fp_max p - fp_min p + 1) 0); [lia|]. eexists _, _. split; [reflexivity|]. split; [done|].
  pose proof (Z.mod_pos_bound (u32 (cursor p - fp_min p)) (fp_max p - fp_min p + 1) ltac:(lia)) as Hm.
  rewrite u32_small by lia. split; [done | lia].
Qed.

Lemma allocate_spec p d : pool_ok p -> exists p' ip, allocate p d = Some (p', ip) /\ pool_ok p' /\
  fp_min p' = fp_min p /\ fp_max p' = fp_max p /\
  domain_to_ip p' !! d = Some ip /\ allocate p' d = Some (p', ip) /\
  match domain_to_ip p !! d with
  | Some ip0 => p' = p /\ ip = ip0
  | None => cursor p' = u32 (cursor p + 1) /\
      ip = fp_min p + u32 (cursor p - fp_min p) mod (fp_max p - fp_min p + 1) /\
      forall ip', ip' <> ip -> ip_to_domain p' !! ip' = ip_to_domain p !! ip'
  end.
Proof.
  intros Hp. unfold allocate. destruct (domain_to_ip p !! d) as [ip0|] eqn:Ed.
  { exists p, ip0. rewrite Ed. done. }
  destruct (next_ip_spec p Hp) as (p1 & ip & -> & -> & Eip & Hr). cbn [fp_min fp_max cursor domain_to_ip ip_to_domain].
  destruct Hp as [H1 H2 H3 H4 H5]. set (d2i := match ip_to_domain p !! ip with Some _ => _ | None => _ end).
  assert (Hd2i : forall d' i, d2i !! d' = Some i <-> domain_to_ip p !! d' = Some i /\ i <> ip).
  { intros d' i. unfold d2i. destruct (ip_to_domain p !! ip) as [old|] eqn:Eo.
    - rewrite lookup_delete_Some. apply H4 in Eo. split.
      + intros [Hne Hl]. split; [done|]. intros ->. apply H4 in Hl, Eo. congruence.
      + intros [Hl Hne]. split; [|done]. intros ->. congruence.
    - split; [|by intros []]. intros Hl. split; [done|]. intros ->. apply H4 in Hl. congruence. }
  eexists _, ip. split; [reflexivity|]. cbn [domain_to_ip ip_to_domain cursor fp_min fp_max].
  split; [|split; [done|]; split; [done|]; split; [apply lookup_insert_eq|]; split; [|split; [done|]; split; [done|]]].
  - constructor; cbn; try done.
    + intros d' i. rewrite !lookup_insert_Some, Hd2i, H4. split.
      * intros [[<- <-]|(Hne & Hl & Hi)]; [by left | right]. split; [congruence | done].
      * intros [[<- <-]|(Hne & Hl)]; [by left | right]. split; [|split; [done | congruence]].
        intros ->. apply H4 in Hl. congruence.
    + intros d' i. rewrite lookup_insert_Some, Hd2i. intros [[<- <-]|(_ & Hl & _)]; [lia | by apply (H5 d')].
  - by rewrite lookup_insert_eq.
  - intros ip' Hne. by rewrite lookup_insert_ne by congruence.
Qed.

Lemma allocate_all_spec l : forall p, pool_ok p -> exists p', allocate_all p l = Some p' /\ pool_ok p' /\
  fp_min p' = fp_min p /\ fp_max p' = fp_max p.
Proof.
  induction l as [|d l IH]; intros p Hp; cbn; [by exists p|].
  destruct (allocate_spec p d Hp) as (p1 & ip & -> & Hp1 & E1 & E2 & _).
  destruct (IH p1 Hp1) as (p2 & -> & Hp2 & F1 & F2). exists p2. split; [done|]. split; [done|]. split; congruence.
Qed.

Lemma pool_new_ok cidr base prefix : parse_cidr cidr = Some (base, prefix) -> 1 <= prefix <= 30 ->
  0 <= base -> base + 2 ^ (32 - prefix) <= 2 ^ 32 ->
  exists p, pool_new cidr = Some p /\ pool_ok p /\ fp_min p = base + 2 /\ fp_max p = base + 2 ^ (32 - prefix) - 2 /\
    cursor p = fp_min p.
Proof.
  intros E Hp Hb Hs. unfold pool_new. rewrite E.
  assert (H4 : 2 ^ 2 <= 2 ^ (32 - prefix)) by (apply Z.pow_le_mono_r; lia).
  assert (H31 : 2 ^ (32 - prefix) <= 2 ^ 31) by (apply Z.pow_le_mono_r; lia).
  rewrite (u32_small (32 - prefix)) by lia. rewrite Z.mod_small by lia. rewrite Z.shiftl_1_l.
  rewrite (u32_small (2 ^ (32 - prefix))) by lia. rewrite (u32_small (base + 2)) by lia.
  assert (Hmx : u32 (u32 (base + 2 ^ (32 - prefix)) - 2) = base + 2 ^ (32 - prefix) - 2).
  { unfold u32. rewrite Zminus_mod_idemp_l. apply Z.mod_small. lia. }
  rewrite Hmx. eexists. split; [reflexivity|]. cbn. split; [|done].
  constructor; cbn; try lia.
  - intros d ip. by rewrite !lookup_empty.
  - intros d ip. by rewrite lookup_empty.
Qed.

(** The fake IP pool is a one-to-one mapping: over a network of four to
    2^31 addresses, whatever domains have been allocated, allocating never
    fails, gives an address of the pool, inside the network and neither its
    first two addresses nor its last, gives the same one when asked again,
    and looking the address up gives the domain back; two domains never share
    an address, and a domain that has lost its address to another is
    forgotten on both sides. *)
Theorem fake_ip_one_to_one cidr base prefix l d :
  parse_cidr cidr = Some (base, prefix) -> 1 <= prefix <= 30 -> 0 <= base -> base + 2 ^ (32 - prefix) <= 2 ^ 32 ->
  exists p0 p p' ip, pool_new cidr = Some p0 /\ allocate_all p0 l = Some p /\ allocate p d = Some (p', ip) /\
    lookup_ip p' ip = Some d /\ allocate p' d = Some (p', ip) /\
    base + 2 <= ip <= base + 2 ^ (32 - prefix) - 2 /\ pool_contains p' (V4 ip) = true /\
    pool_gateway p' = base + 1 /\
    forall d' i, domain_to_ip p' !! d' = Some i <-> lookup_ip p' i = Some d'.
Proof.
  intros E Hp Hb Hs. destruct (pool_new_ok cidr base prefix E Hp Hb Hs) as (p0 & E0 & H0 & Emin & Emax & _).
  destruct (allocate_all_spec l p0 H0) as (p & El & Hpl & Fmin & Fmax).
  destruct (allocate_spec p d Hpl) as (p' & ip & Ea & Hp' & Gmin & Gmax & Hd & Hagain & _).
  exists p0, p, p', ip. split; [done|]. split; [done|]. split; [done|].
  split; [by apply (po_inverse p' Hp')|]. split; [done|].
  pose proof (po_range p' Hp' d ip Hd) as Hr. split; [lia|]. unfold pool_contains, pool_gateway. split.
  - apply andb_true_intro. split; lia.
  - split; [|intros d' i; apply (po_inverse p' Hp')].
    replace (fp_min p' - 1) with (base + 1) by lia. apply u32_small.
    assert (0 < 2 ^ (32 - prefix)) by (apply Z.pow_pos_nonneg; lia). lia.
Qed.

Lemma mod_differs a b n : 0 < n -> a < b < a + n -> a mod n <> b mod n.
Proof.
  intros Hn Hab E. assert (Hz : (b - a) mod n = 0) by (rewrite Zminus_mod, E, Z.sub_diag; apply Z.mod_0_l; lia).
  rewrite Z.mod_small in Hz by lia. lia.
Qed.

Lemma retained l : forall p ip d k, pool_ok p -> ip_to_domain p !! ip = Some d ->
  fp_min p <= k < cursor p -> ip = fp_min p + (k - fp_min p) mod (fp_max p - fp_min p + 1) ->
  cursor p + Z.of_nat (length l) <= k + (fp_max p - fp_min p + 1) -> cursor p + Z.of_nat (length l) < 2 ^ 32 ->
  exists p', allocate_all p l = Some p' /\ fp_min p' = fp_min p /\ fp_max p' = fp_max p /\ ip_to_domain p' !! ip = Some d.
Proof.
  induction l as [|x l IH]; intros p ip d k Hp Hl Hk Eip Hlen Hw; cbn [allocate_all]; [by exists p|].
  destruct (allocate_spec p x Hp) as (p1 & ip1 & -> & Hp1 & E1 & E2 & _ & _ & H).
  cbn [length] in Hlen, Hw. destruct Hp as [Q1 Q2 Q3 _ _].
  destruct (domain_to_ip p !! x).
  - destruct H as [-> _]. apply (IH p ip d k); [done..|lia|lia].
  - destruct H as (Ec & Ei & Hsame). rewrite u32_small in Ec by lia. rewrite u32_small in Ei by lia.
    assert (Hne : ip <> ip1).
    { rewrite Eip, Ei. intros E. apply (mod_differs (k - fp_min p) (cursor p - fp_min p) (fp_max p - fp_min p + 1)); lia. }
    destruct (IH p1 ip d k) as (p2 & E & F1 & F2 & F3); rewrite ?E1, ?E2, ?Ec; try done; try lia.
    + by rewrite Hsame.
    + exists p2. split; [done|]. split; [congruence|]. split; [congruence | done].
Qed.

(** The address of a new domain, after some more were allocated. *)
Lemma allocated_kept p d l port : pool_ok p -> fp_min p <= cursor p ->
  cursor p + Z.of_nat (length l) + 1 < 2 ^ 32 -> Z.of_nat (length l) < fp_max p - fp_min p + 1 -> domain_to_ip p !! d = None ->
  exists p1 ip p2, allocate p d = Some (p1, ip) /\ fp_min p <= ip <= fp_max p /\ allocate_all p1 l = Some p2 /\
    tun_target p2 (mkSocketAddr (V4 ip) port) = host_to_address d port /\
    (forall s, pool_contains p2 (sa_ip s) = false -> tun_target p2 s = ASocket s).
Proof.
  intros Hp Hc Hw Hlen Hn. destruct (allocate_spec p d Hp) as (p1 & ip & Ea & Hp1 & E1 & E2 & Hd & _ & H).
  rewrite Hn in H. destruct H as (Ec & Ei & _). destruct Hp as [Q1 Q2 Q3 _ _].
  rewrite u32_small in Ec by lia. rewrite u32_small in Ei by lia. pose proof (po_range p1 Hp1 _ ip Hd) as Hr.
  destruct (retained l p1 ip d (cursor p)) as (p2 & E & F1 & F2 & F3);
    rewrite ?E1, ?E2, ?Ec; try done; try lia; [by apply (po_inverse p1 Hp1)|].
  exists p1, ip, p2. split; [done|]. split; [lia|]. split; [done|]. unfold tun_target. cbn [sa_ip sa_port]. split; [|by intros s ->].
  assert (pool_contains p2 (V4 ip) = true) as -> by (unfold pool_contains; apply andb_true_intro; split; lia). unfold lookup_ip. by rewrite F3.
Qed.

(** A fake address stays good until the pool has gone round: a query for
    a new domain is answered with an address, and as long as fewer other
    domains are asked for than the pool has addresses (and its 32-bit cursor
    has not wrapped), a connection to any port of that address is made to the
    domain.  Addresses outside the pool are connected to as they are. *)
Theorem fake_ip_connects_to_domain first_question reply p request qname l port :
  pool_ok p -> fp_min p <= cursor p ->
  cursor p + Z.of_nat (length l) + 1 < 2 ^ 32 -> Z.of_nat (length l) < fp_max p - fp_min p + 1 ->
  first_question request = Some (qname, true) -> domain_to_ip p !! trim_end_dots qname = None ->
  exists p1 ip p2, generate_fake_response first_question reply p request = Some (p1, reply request ip) /\
    allocate_all p1 l = Some p2 /\
    tun_target p2 (mkSocketAddr (V4 ip) port) = host_to_address (trim_end_dots qname) port /\
    (forall s, pool_contains p2 (sa_ip s) = false -> tun_target p2 s = ASocket s).
Proof.
  intros Hp Hc Hw Hlen Eq Hn. destruct (allocated_kept p (trim_end_dots qname) l port Hp Hc Hw Hlen Hn) as (p1 & ip & p2 & Ea & _ & H).
  exists p1, ip, p2. unfold generate_fake_response. by rewrite Eq, Ea.
Qed.

(** ** The gateway device *)

(** What [smoltcp]'s views show of the payload of an IPv4 packet: a TCP
    segment's ports, with whether the whole segment passes [new_checked]; or
    too few bytes to hold ports. *)
Inductive L4 : Type :=
| Tcp (sport dport : Z) (checked : bool)
| TcpShort
| Udp4 (sport dport : Z) (checked : bool)
| UdpShort
| OtherL4.

Record Ipv4Packet : Type := mkIp { ip_src : Z; ip_dst : Z; ip_l4 : L4 }.

Record ArpPacket : Type := mkArp { arp_request : bool; arp_hw : Z; arp_src_ip : Z }.

(** A frame's payload by its type; [None]: it fails [new_checked]. *)
Inductive EthPayload : Type := EIpv4 (ip : option Ipv4Packet) | EArp (arp : option ArpPacket) | EOther.

(** A packet as the device's layer has it. *)
(* src/protocol/raw/src/gateway.rs:67-86 GatewayDevice::payload *)
Inductive Packet : Type :=
| PL3 (ip : option Ipv4Packet)
| PL2 (frame : option (Z * Z * EthPayload)).

Definition SockV4 : Type := Z * Z.

Definition BROADCAST : Z := 2 ^ 48 - 1.

(* src/protocol/raw/src/gateway.rs:24-29 Action *)
Inductive Action : Type := Pass | Rewrite | Drop.

(* src/protocol/raw/src/gateway.rs:283-291 get_src_addr *)
Definition get_src_addr (ip : Ipv4Packet) : option SockV4 :=
  match ip_l4 ip with
  | Tcp sp _ true => Some (ip_src ip, sp)
  | Udp4 sp _ true => Some (ip_src ip, sp)
  | _ => None
  end.

(* src/protocol/raw/src/gateway.rs:293-301 get_dst_addr *)
Definition get_dst_addr (ip : Ipv4Packet) : option SockV4 :=
  match ip_l4 ip with
  | Tcp _ dp true => Some (ip_dst ip, dp)
  | Udp4 _ dp true => Some (ip_dst ip, dp)
  | _ => None
  end.

(** [None]: the segment is too short for its ports, and reading them
    unchecked panics. *)
(* src/protocol/raw/src/gateway.rs:257-281 set_dst_addr *)
Definition set_dst_addr (ip : Ipv4Packet) (dst : SockV4) : option (Ipv4Packet * option (SockV4 * SockV4)) :=
  match ip_l4 ip with
  | Tcp sp dp c => Some (mkIp (ip_src ip) dst.1 (Tcp sp dst.2 c), Some ((ip_src ip, sp), (ip_dst ip, dp)))
  | TcpShort => None
  | _ => Some (ip, None)
  end.

(* src/protocol/raw/src/gateway.rs:303-321 set_src_addr *)
Definition set_src_addr (ip : Ipv4Packet) (src : SockV4) : Ipv4Packet :=
  match ip_l4 ip with
  | Tcp sp dp true => mkIp src.1 (ip_dst ip) (Tcp src.2 dp true)
  | Tcp sp dp false => mkIp src.1 (ip_dst ip) (Tcp sp dp false)
  | TcpShort => mkIp src.1 (ip_dst ip) TcpShort
  | _ => ip
  end.

Section Gateway.
(** The interface's address and network ([smoltcp]'s [IpCidr]), the device's
    own hardware address, and the proxy's listener. *)
Context (cidr_addr : Z) (cidr_contains : Z -> bool) (ethernet_addr : Z) (override_v4 : SockV4).
Context {C : Type} `{LruCache SockV4 SockV4 C}.

(* src/protocol/raw/src/gateway.rs:89-106 GatewayDevice::accept_packet (process_ip) *)
Definition accept_ip (ip : option Ipv4Packet) : Action :=
  match ip with
  | None => Drop
  | Some f =>
    if bool_decide (get_src_addr f = Some override_v4) then Rewrite
    else if (cidr_addr =? ip_src f) || (cidr_addr =? ip_dst f) then Pass
    else if cidr_contains (ip_src f) || cidr_contains (ip_dst f) then Rewrite
    else Drop
  end.

(* src/protocol/raw/src/gateway.rs:87-137 GatewayDevice::accept_packet *)
Definition accept_packet (p : Packet) : Action :=
  match p with
  | PL3 ip => accept_ip ip
  | PL2 None => Drop
  | PL2 (Some (dst, src, payload)) =>
    if (dst =? BROADCAST) || (src =? ethernet_addr) || (dst =? ethernet_addr) then
      match payload with
      | EIpv4 ip => accept_ip ip
      | EArp _ => if (src =? ethernet_addr) && (dst =? BROADCAST) then Rewrite else Pass
      | EOther => Pass
      end
    else Drop
  end.

(** The outcome of handling a packet, with the table it leaves. *)
Inductive gw_result : Type := GwPanic | GwDone (map : C) (out : option Packet).

(** [f] on the IPv4 packet carried, if there is one. *)
(* src/protocol/raw/src/gateway.rs:67-86 GatewayDevice::payload *)
Definition on_payload (p : Packet) (m : C) (f : Ipv4Packet -> option (C * Ipv4Packet)) : gw_result :=
  match p with
  | PL3 (Some ip) =>
    match f ip with Some (m, ip) => GwDone m (Some (PL3 (Some ip))) | None => GwPanic end
  | PL2 (Some (dst, src, EIpv4 (Some ip))) =>
    match f ip with Some (m, ip) => GwDone m (Some (PL2 (Some (dst, src, EIpv4 (Some ip))))) | None => GwPanic end
  | _ => GwDone m (Some p)
  end.

(* src/protocol/raw/src/gateway.rs:138-148 GatewayDevice::map_in *)
Definition map_in (m : C) (p : Packet) : gw_result :=
  match accept_packet p with
  | Pass => GwDone m (Some p)
  | Drop => GwDone m None
  | Rewrite =>
    on_payload p m (fun ip =>
      match set_dst_addr ip override_v4 with
      | None => None
      | Some (ip, Some (src_addr, ori_addr)) => Some (lru_insert m src_addr ori_addr, ip)
      | Some (ip, None) => Some (m, ip)
      end)
  end.

(* src/protocol/raw/src/gateway.rs:165-179 GatewayDevice::correct_arp_request *)
Definition correct_arp_request (p : Packet) : Packet :=
  match p with
  | PL2 (Some (dst, src, EArp (Some a))) =>
    if arp_request a && (arp_hw a =? ethernet_addr) then
      PL2 (Some (dst, src, EArp (Some (mkArp true (arp_hw a) override_v4.1))))
    else p
  | _ => p
  end.

(* src/protocol/raw/src/gateway.rs:149-163 GatewayDevice::map_out *)
Definition map_out (m : C) (p : Packet) : gw_result :=
  match accept_packet p with
  | Pass => GwDone m (Some p)
  | Drop => GwDone m None
  | Rewrite =>
    on_payload (correct_arp_request p) m (fun ip =>
      match get_dst_addr ip with
      | None => Some (m, ip)
      | Some d =>
        let '(m, hit) := lru_get m d in
        match hit with
        | Some src => Some (m, set_src_addr ip src)
        | None => Some (m, ip)
        end
      end)
  end.

(** A packet of either layer that carries this IPv4 packet. *)
Definition carry (l2 : option (Z * Z)) (ip : Ipv4Packet) : Packet :=
  match l2 with
  | None => PL3 (Some ip)
  | Some (dst, src) => PL2 (Some (dst, src, EIpv4 (Some ip)))
  end.

(** What passes through the device. *)
Inductive Traffic : Type := TIn (p : Packet) | TOut (p : Packet).

Definition run_traffic (m : option C) (t : Traffic) : option C :=
  match m with
  | None => None
  | Some m =>
    match (match t with TIn p => map_in m p | TOut p => map_out m p end) with
    | GwDone m _ => Some m
    | GwPanic => None
    end
  end.

(** A packet from the client [s] to somewhere. *)
Definition carried (p : Packet) : option Ipv4Packet :=
  match p with
  | PL3 ip => ip
  | PL2 (Some (_, _, EIpv4 ip)) => ip
  | _ => None
  end.
Definition from_client (s : SockV4) (t : Traffic) : bool :=
  match t with
  | TIn p => match carried p with
    | Some (mkIp src _ (Tcp sp _ _)) => bool_decide ((src, sp) = s)
    | _ => false end
  | TOut _ => false
  end.

Lemma map_in_held m p s d m' out : map_in m p = GwDone m' out -> from_client s (TIn p) = false ->
  held m' s = Some d -> held m s = Some d.
Proof.
  unfold map_in. destruct (accept_packet p); [by intros [= <- _]| |by intros [= <- _]].
  intros E Hn Hh. destruct p as [[ip|]|[[[dst src] [[ip|]|a|]]|]]; cbn [on_payload] in E; try (injection E as <- _; done).
  all: unfold set_dst_addr in E; destruct ip as [src0 dst0 [sp dp c| |sp dp c| |]]; cbn in E; try done;
    try (injection E as <- _; done).
  all: injection E as <- _; cbn in Hn; case_bool_decide as Hs; [done|];
    apply lru_insert_keeps in Hh as [[-> _]|[_ Hh]]; [done | exact Hh].
Qed.

Lemma map_out_held m p s d m' out : map_out m p = GwDone m' out -> held m' s = Some d -> held m s = Some d.
Proof.
  unfold map_out. destruct (accept_packet p); [by intros [= <- _]| |by intros [= <- _]].
  intros E Hh. destruct (correct_arp_request p) as [[ip|]|[[[dst src] [[ip|]|a|]]|]]; cbn [on_payload] in E;
    try (injection E as <- _; done).
  all: destruct (get_dst_addr ip) as [x|]; [|injection E as <- _; done];
    pose proof (lru_get_keeps m x s d) as Hk; destruct (lru_get m x) as [m1 hit]; cbn [fst] in Hk;
    destruct hit; injection E as <- _; by apply Hk.
Qed.

Lemma traffic_held l : forall m s d m', fold_left run_traffic l (Some m) = Some m' ->
  forallb (fun t => negb (from_client s t)) l = true -> held m' s = Some d -> held m s = Some d.
Proof.
  induction l as [|t l IH]; intros m s d m' E Hl Hh; cbn [fold_left] in E; [by injection E as <-|].
  cbn in Hl. apply andb_prop in Hl as [Ht Hl]. apply negb_true_iff in Ht.
  assert (Hnone : forall l', fold_left run_traffic l' None = None) by (induction l'; done).
  unfold run_traffic at 2 in E. destruct t as [p|p].
  - destruct (map_in m p) as [|m1 out] eqn:Ei; [by rewrite Hnone in E|].
    apply (map_in_held m p s d m1 out Ei Ht). by eapply IH.
  - destruct (map_out m p) as [|m1 out] eqn:Eo; [by rewrite Hnone in E|].
    apply (map_out_held m p s d m1 out Eo). by eapply IH.
Qed.

(** C32: The gateway redirects a TCP flow and hides that it did: a client's
    segment that is to be rewritten reaches the stack with the proxy's
    listener as its destination and all else unchanged, and whatever other
    traffic passes, as long as the client sends nothing else from that port
    and the table still holds the client, a segment the listener sends back
    leaves the device with the original destination as its source, again with
    all else unchanged, so that to the client it is the server that answers. *)
Theorem gateway_nat_roundtrip l2 l2' m src sport dst dport c l :
  accept_packet (carry l2 (mkIp src dst (Tcp sport dport c))) = Rewrite ->
  match l2' with None => True | Some (_, hw) => hw = ethernet_addr end ->
  forallb (fun t => negb (from_client (src, sport) t)) l = true ->
  exists m1, map_in m (carry l2 (mkIp src dst (Tcp sport dport c))) =
      GwDone m1 (Some (carry l2 (mkIp src override_v4.1 (Tcp sport override_v4.2 c)))) /\
    held m1 (src, sport) = Some (dst, dport) /\
    forall m2, fold_left run_traffic l (Some m1) = Some m2 -> held m2 (src, sport) <> None ->
      exists m3, map_out m2 (carry l2' (mkIp override_v4.1 src (Tcp override_v4.2 sport true))) =
        GwDone m3 (Some (carry l2' (mkIp dst src (Tcp dport sport true)))).
Proof.
  intros Ha H2 Hl. exists (lru_insert m (src, sport) (dst, dport)).
  split; [unfold map_in; rewrite Ha; by destruct l2 as [[]|]|].
  split; [apply lru_insert_held|]. intros m2 E Hne.
  destruct (held m2 (src, sport)) as [d|] eqn:Eh; [|done].
  pose proof (traffic_held l _ _ _ _ E Hl Eh) as Hd. rewrite lru_insert_held in Hd. injection Hd as <-.
  assert (Ho : accept_packet (carry l2' (mkIp override_v4.1 src (Tcp override_v4.2 sport true))) = Rewrite).
  { assert (Hip : accept_ip (Some (mkIp override_v4.1 src (Tcp override_v4.2 sport true))) = Rewrite).
    { unfold accept_ip. rewrite bool_decide_true; [done|]. cbn. by destruct override_v4. }
    destruct l2' as [[bd hw]|]; cbn [carry accept_packet]; [|exact Hip]. subst hw.
    rewrite Z.eqb_refl, orb_true_r. exact Hip. }
  unfold map_out. rewrite Ho. pose proof (lru_get_held m2 (src, sport)) as Hg. rewrite Eh in Hg.
  destruct (lru_get m2 (src, sport)) as [m3 hit] eqn:Eg. cbn in Hg. subst hit. exists m3.
  assert (Hf : get_dst_addr (mkIp override_v4.1 src (Tcp override_v4.2 sport true)) = Some (src, sport)) by done.
  destruct l2' as [[]|]; cbn [carry correct_arp_request on_payload]; rewrite Hf;
    (match goal with |- context [lru_get m2 ?k] => replace (lru_get m2 k) with (m3, Some (dst, dport)) by exact (eq_sym Eg) end);
    reflexivity.
Qed.

(** A TCP packet without room for its ports stops the process. *)
Lemma short_segment_panics m src dst : cidr_addr <> src -> cidr_addr <> dst -> cidr_contains src = true ->
  map_in m (PL3 (Some (mkIp src dst TcpShort))) = GwPanic.
Proof.
  intros H1 H2 H3. unfold map_in, accept_packet, accept_ip. cbn. rewrite H3.
  rewrite (proj2 (Z.eqb_neq _ _) H1), (proj2 (Z.eqb_neq _ _) H2). done.
Qed.

End Gateway.

(** ** The raw UDP socket's sending side *)

(** [packed] is [pack_udp] of the endpoint and buffer; [raw] is the raw
    socket's answer; what it took comes last. *)
(* src/protocol/raw/src/forward/source.rs:71-88 Source::poll_send *)
Definition source_poll_send (send_buf : bytes) (packed : option bytes) (raw : poll (res unit))
    : bytes * poll (res unit) * option bytes :=
  let next := match send_buf with [] => packed | _ => Some send_buf end in
  match next with
  | None => ([], Ready (Ok tt), None)
  | Some b =>
    match raw with
    | Pending => (b, Pending, None)
    | Ready (Err e) => (b, Ready (Err e), None)
    | Ready (Ok _) => ([], Ready (Ok tt), Some b)
    end
  end.

(** A packet whose sending was given up while pending, as the fake DNS reply
    is, is sent in place of the next one, which is lost. *)
Lemma source_sends_stale (a b : bytes) : a <> [] ->
  source_poll_send (source_poll_send [] (Some a) Pending).1.1 (Some b) (Ready (Ok tt)) = ([], Ready (Ok tt), Some a).
Proof. intros H. destruct a; [done | reflexivity]. Qed.

(** *** Samples *)

Lemma fake_ip_one_to_one_witness : exists p0 p p' ip,
  pool_new (lit "198.18.0.0/15") = Some p0 /\ allocate_all p0 [lit "a.com"; lit "b.com"] = Some p /\
  allocate p (lit "c.com") = Some (p', ip) /\ lookup_ip p' ip = Some (lit "c.com").
Proof.
  destruct (fake_ip_one_to_one (lit "198.18.0.0/15") 3323068416 15 [lit "a.com"; lit "b.com"] (lit "c.com"))
    as (p0 & p & p' & ip & H1 & H2 & H3 & H4 & _); [vm_compute; reflexivity | lia | lia | lia |].
  exists p0, p, p', ip. repeat split; assumption.
Defined.

Definition sample_pool : FakeIpPool := mkPool 10 14 10 ∅ ∅.
Lemma sample_pool_ok : pool_ok sample_pool.
Proof.
  constructor; cbn; try lia; intros d ip; rewrite !lookup_empty; [split; discriminate | discriminate].
Qed.

Definition sample_reply (_ : bytes) (ip : Z) : option bytes := Some [ip].

Lemma fake_ip_connects_to_domain_witness : exists p1 ip p2,
  generate_fake_response (fun r => Some (r, true)) sample_reply sample_pool (lit "a.com.") = Some (p1, Some [ip]) /\
  allocate_all p1 [lit "b.com"; lit "c.com"] = Some p2 /\
  tun_target p2 (mkSocketAddr (V4 ip) 443) = ADomain (lit "a.com") 443.
Proof.
  destruct (fake_ip_connects_to_domain (fun r => Some (r, true)) sample_reply sample_pool (lit "a.com.") (lit "a.com.")
    [lit "b.com"; lit "c.com"] 443) as (p1 & ip & p2 & H1 & H2 & H3 & _).
  - exact sample_pool_ok.
  - cbn. lia.
  - cbn. lia.
  - cbn. lia.
  - reflexivity.
  - apply lookup_empty.
  - exists p1, ip, p2. split; [exact H1|]. split; [exact H2|]. rewrite H3. vm_compute. reflexivity.
Defined.

#[local] Instance sample_map : LruCache SockV4 SockV4 (list (SockV4 * SockV4)) := bounded_cache.

(** The client 2:1000 connects to 9:443 through the listener 5:1; another
    client connects before the reply. *)
Lemma gateway_nat_roundtrip_witness : exists m1 m3,
  map_in 0 (fun _ => true) 0 (5, 1) (@lru_new SockV4 SockV4 _ sample_map 16) (PL3 (Some (mkIp 2 9 (Tcp 1000 443 true)))) =
    GwDone m1 (Some (PL3 (Some (mkIp 2 5 (Tcp 1000 1 true))))) /\
  map_out 0 (fun _ => true) 0 (5, 1) (lru_insert m1 (3, 7) (8, 80)) (PL3 (Some (mkIp 5 2 (Tcp 1 1000 true)))) =
    GwDone m3 (Some (PL3 (Some (mkIp 9 2 (Tcp 443 1000 true))))).
Proof.
  destruct (gateway_nat_roundtrip 0 (fun _ => true) 0 (5, 1) None None (lru_new 16) 2 1000 9 443 true
    [TIn (PL3 (Some (mkIp 3 8 (Tcp 7 80 true))))]) as (m1 & H1 & _ & H2).
  - reflexivity.
  - exact I.
  - reflexivity.
  - exists m1. injection H1 as <-. destruct (H2 _ eq_refl) as (m3 & H3); [vm_compute; discriminate|].
    exists m3. split; [reflexivity | exact H3].
Defined.

End Raw.
Export Raw.
