(* ===== verification/RawNet.v ===== *)
(** * The raw net and its devices: [protocol/raw/src/net.rs], [config.rs],
    [device.rs], [device/unix.rs], [wrap.rs] and the streams of [gateway.rs]

    How a raw net is made from its configuration, the settings of the device it
    makes, the gateway as the stream and sink of packets that smoltcp works on,
    and the datagram sockets.  Parsing of networks, the system's devices and
    smoltcp are third-party code.  Devices of libpcap, a feature that is not on
    by default, are not modelled. *)

From S2P Require Import Prelude Text Io Address Lru Raw.

Module RawNet.
Import Raw.Raw.

(** ** The configuration *)

(* src/protocol/raw/src/config.rs:9-12 TunTap *)
Inductive TunTap : Type := Tap | Tun.

(* src/protocol/raw/src/config.rs:15-21 TunTapConfig *)
Record TunTapConfig : Type := mkTunTapConfig { tuntap : TunTap; tt_name : option bytes; host_addr : bytes }.

(* src/protocol/raw/src/config.rs:38-41 Layer *)
Inductive Layer : Type := L2 | L3.

(** smoltcp's. *)
Inductive Medium : Type := Ethernet | Ip.

(* src/protocol/raw/src/config.rs:60-65 Layer::from *)
Definition layer_of_tuntap (t : TunTap) : Layer := match t with Tap => L2 | Tun => L3 end.

(* src/protocol/raw/src/config.rs:69-76 Layer::from *)
Definition layer_of_medium (m : Medium) : Layer := match m with Ethernet => L2 | Ip => L3 end.

(* src/protocol/raw/src/config.rs:80-85 Medium::from *)
Definition medium_of_layer (l : Layer) : Medium := match l with L2 => Ethernet | L3 => Ip end.

(* src/protocol/raw/src/config.rs:89-100 RawNetConfig *)
Record RawNetConfig : Type := mkRawNetConfig {
  c_device : TunTapConfig; c_gateway : option bytes; c_ip_addr : bytes; c_mtu : Z; c_forward : bool }.

Definition IpCidr : Type := IpAddr * Z.

(* src/protocol/raw/src/config.rs:102-109 TunTapSetup *)
Record TunTapSetup : Type := mkSetup { su_name : option bytes; su_addr : Z; su_destination : IpCidr; su_mtu : Z; su_layer : Layer }.

(** ** The device *)

(** What the [tun] crate is asked for, the netmask as a number. *)
Record TunConfiguration : Type := mkTunConf {
  t_address : Z; t_destination : IpAddr; t_netmask : Z; t_layer : Layer; t_tun_name : option bytes }.

(** [!0u32 >> (32 - prefix_len)] with its overflow checks: [None] is a panic,
    for a prefix of more than 32 bits and for one of none. *)
(* src/protocol/raw/src/device/unix.rs:26-26 get_tun(netmask) (part) *)
Definition tun_netmask (prefix_len : Z) : option Z :=
  if (32 <? prefix_len) || (prefix_len =? 0) then None else Some (Z.shiftr (2 ^ 32 - 1) (32 - prefix_len)).

(* src/protocol/raw/src/device/unix.rs:24-40 get_tun (part) *)
Definition tun_configuration (cfg : TunTapSetup) : option TunConfiguration :=
  match tun_netmask (su_destination cfg).2 with
  | None => None
  | Some netmask => Some (mkTunConf (su_addr cfg) (su_destination cfg).1 netmask (su_layer cfg) (su_name cfg))
  end.

Section Make.
(** smoltcp's parsers, the device of the system, with its name, and the
    hardware address of an interface. *)
Context (smol_cidr : bytes -> option IpCidr) (smol_ip : bytes -> option IpAddr) {Dev : Type}.
Context (create_as_async : TunConfiguration -> res (bytes * Dev)) (interface_address : bytes -> res Z).

(** A device, its medium and size; [None] is a panic. *)
(* src/protocol/raw/src/device/unix.rs:24-62 get_tun *)
Definition get_tun (cfg : TunTapSetup) : option (res (bytes * Dev * Medium * Z)) :=
  match tun_configuration cfg with
  | None => None
  | Some config =>
    match create_as_async config with
    | Err e => Some (Err (map_other e))
    | Ok (name, dev) => Some (Ok (name, dev, medium_of_layer (su_layer cfg), su_mtu cfg))
    end
  end.

(** A TUN device has no hardware address of its own. *)
(* src/protocol/raw/src/device.rs:25-94 get_device *)
Definition get_device (config : RawNetConfig) : option (res (Z * (bytes * Dev * Medium * Z))) :=
  match smol_cidr (c_ip_addr config) with
  | None => Some (Err (Prelude.EOther "Failed to parse server_addr"))
  | Some destination_addr =>
    let cfg := c_device config in
    match parse_ip (host_addr cfg) with
    | Some (V4 host) =>
      match get_tun (mkSetup (tt_name cfg) host destination_addr (c_mtu config) (layer_of_tuntap (tuntap cfg))) with
      | None => None
      | Some (Err e) => Some (Err e)
      | Some (Ok device) =>
        match tuntap cfg with
        | Tun => Some (Ok (BROADCAST, device))
        | Tap =>
          match interface_address device.1.1.1 with
          | Err e => Some (Err (EWithContext "Failed to get interface info" e))
          | Ok a => Some (Ok (a, device))
          end
        end
      end
    | _ => Some (Err (Prelude.EOther "Failed to parse host_addr"))
    end
  end.

(** A gateway around a device, with an empty table of this capacity. *)
(* src/protocol/raw/src/gateway.rs:31-40 GatewayDevice *)
Record GatewayDevice : Type := mkGateway {
  g_inner : Dev; g_lru_size : nat; g_ethernet_addr : Z; g_cidr : IpCidr; g_override : SockV4; g_layer : Layer }.

(* src/protocol/raw/src/gateway.rs:46-62 GatewayDevice::new *)
Definition gateway_new (inner : Dev) (m : Medium) (ethernet_addr : Z) (lru_size : nat) (ip_cidr : IpCidr) (override_v4 : SockV4) : GatewayDevice :=
  mkGateway inner lru_size ethernet_addr ip_cidr override_v4 (layer_of_medium m).

(** What smoltcp is started with. *)
Inductive SmolDevice : Type := Bare (d : Dev) | Gated (g : GatewayDevice).
Record SmoltcpNet : Type := mkSmol { sm_device : SmolDevice; sm_hardware : Z; sm_cidr : IpCidr; sm_gateways : list IpAddr }.

(** [params]: whether a server may take the gateway's table. *)
(* src/protocol/raw/src/net.rs:29-32 RawNet *)
Record RawNet : Type := mkRawNet { smoltcp_net : SmoltcpNet; params : option (SmoltcpNet * IpCidr) }.

(* src/protocol/raw/src/net.rs:35-87 RawNet::new *)
Definition raw_net_new (config : RawNetConfig) : option (res RawNet) :=
  match smol_cidr (c_ip_addr config) with
  | None => Some (Err (Prelude.EOther "Failed to parse ip_addr"))
  | Some (V6 _, _) => Some (Err (Prelude.EOther "RawNet only support IPv4"))
  | Some (V4 v4, len) =>
    let ip_cidr := (V4 v4, len) in
    let gateways := match c_gateway config with
                    | None => Ok []
                    | Some g => match smol_ip g with Some a => Ok [a] | None => Err (Prelude.EOther "Failed to parse gateway") end
                    end in
    match gateways with
    | Err e => Some (Err e)
    | Ok gateways =>
      match get_device config with
      | None => None
      | Some (Err e) => Some (Err e)
      | Some (Ok (ethernet_addr, (_, dev, medium, _))) =>
        if c_forward config then
          let n := mkSmol (Gated (gateway_new dev medium ethernet_addr 100 ip_cidr (v4, 1))) ethernet_addr ip_cidr gateways in
          Some (Ok (mkRawNet n (Some (n, ip_cidr))))
        else Some (Ok (mkRawNet (mkSmol (Bare dev) ethernet_addr ip_cidr gateways) None))
      end
    end
  end.
(** What is made is IPv4, and a server may take the table exactly when
    forwarding is on; the gateway then rewrites to port 1 of the net's address. *)
Lemma raw_net_made config n : raw_net_new config = Some (Ok n) ->
  exists v4 len, smol_cidr (c_ip_addr config) = Some (V4 v4, len) /\ sm_cidr (smoltcp_net n) = (V4 v4, len) /\ len <= 32 /\ len <> 0 /\
    params n = (if c_forward config then Some (smoltcp_net n, (V4 v4, len)) else None) /\
    match sm_device (smoltcp_net n) with
    | Gated g => c_forward config = true /\ g_override g = (v4, 1) /\ g_layer g = layer_of_tuntap (tuntap (c_device config))
    | Bare _ => c_forward config = false
    end.
Proof.
  unfold raw_net_new, get_device. destruct (smol_cidr (c_ip_addr config)) as [[[v4|v6] len]|]; [|done..].
  destruct (match c_gateway config with Some _ => _ | None => _ end) as [gs|e]; [|done].
  destruct (parse_ip (host_addr (c_device config))) as [[h|h]|]; [|done..].
  unfold get_tun, tun_configuration, tun_netmask. cbn [su_destination su_layer su_mtu snd].
  destruct ((32 <? len) || (len =? 0)) eqn:El; [done|]. bools.
  destruct (create_as_async _) as [[name dev]|e]; [|done].
  assert (Em : layer_of_medium (medium_of_layer (layer_of_tuntap (tuntap (c_device config)))) = layer_of_tuntap (tuntap (c_device config)))
    by (by destruct (tuntap (c_device config))).
  destruct (tuntap (c_device config)); [destruct (interface_address _) as [a|e]; [|done]|];
    (destruct (c_forward config); intros [= <-]; exists v4, len; cbn [smoltcp_net params sm_device sm_cidr g_override g_layer gateway_new]; by split_and!).
Qed.
End Make.

(** ** The netmask *)

(** An address whose bytes are those of the number, in either order. *)
Definition netmask_be (m : Z) : Z := m.
Definition netmask_le (m : Z) : Z := be_val (reverse (be_bytes 4 m)).
Definition right_netmask (len : Z) : Z := 2 ^ 32 - 2 ^ (32 - len).

(** The netmask of a device is that of its network for prefixes of whole bytes,
    if the number is read with its lowest byte first, and for no other prefix in
    any order. *)
Lemma tun_netmask_exact len : 1 <= len <= 32 -> exists m, tun_netmask len = Some m /\
  (netmask_le m = right_netmask len <-> len mod 8 = 0) /\ (netmask_be m = right_netmask len <-> len = 32).
Proof.
  intros H. set (ok len := match tun_netmask len with
    | Some m => Bool.eqb (netmask_le m =? right_netmask len) (len mod 8 =? 0) && Bool.eqb (netmask_be m =? right_netmask len) (len =? 32)
    | None => false end).
  assert (A : forallb ok (map Z.of_nat (seq 1 32)) = true) by (by vm_compute).
  rewrite forallb_forall in A. specialize (A len).
  assert (In len (map Z.of_nat (seq 1 32))) as Hin by (apply in_map_iff; exists (Z.to_nat len); split; [lia|apply in_seq; lia]).
  specialize (A Hin). unfold ok in A. destruct (tun_netmask len) as [m|]; [|done]. exists m. split; [done|].
  apply andb_true_iff in A as [A1 A2]. apply Bool.eqb_prop in A1, A2. split.
  - rewrite <- Z.eqb_eq, A1. apply Z.eqb_eq.
  - rewrite <- Z.eqb_eq, A2. apply Z.eqb_eq.
Qed.

(** A /20: 255.255.15.0 is no netmask. *)
Lemma tun_netmask_20 : option_map (fun m => show_ipv4 (netmask_le m)) (tun_netmask 20) = Some (lit "255.255.15.0").
Proof. by vm_compute. Qed.

(** ** The gateway as a stream and a sink *)

Section Stream.
Context (cidr_addr : Z) (cidr_contains : Z -> bool) (ethernet_addr : Z) (override_v4 : SockV4).
Context {C : Type} `{LruCache SockV4 SockV4 C}.

#[local] Abbreviation map_in := (@map_in cidr_addr cidr_contains ethernet_addr override_v4 C _).
#[local] Abbreviation map_out := (@map_out cidr_addr cidr_contains ethernet_addr override_v4 C _).

Inductive Polled (A : Type) : Type := PolledPanic | Polled_ (m : C) (l : list (poll (option (res Packet)))) (p : poll A).
Arguments PolledPanic {A}.
Arguments Polled_ {A}.

(** [l]: the answers of the device to come. *)
(* src/protocol/raw/src/gateway.rs:188-199 GatewayDevice::poll_next *)
Fixpoint gateway_poll_next (m : C) (l : list (poll (option (res Packet)))) : Polled (option (res Packet)) :=
  match l with
  | [] => Polled_ m [] Pending
  | Pending :: l => Polled_ m l Pending
  | Ready (Some (Ok item)) :: l =>
    match map_in m item with
    | GwPanic => PolledPanic
    | GwDone m (Some item) => Polled_ m l (Ready (Some (Ok item)))
    | GwDone m None => gateway_poll_next m l
    end
  | Ready r :: l => Polled_ m l (Ready r)
  end.

(** What is sent to the device, if anything; the device's sink is ready. *)
(* src/protocol/raw/src/gateway.rs:212-218 GatewayDevice::start_send *)
Definition gateway_start_send (send : Packet -> res unit) (m : C) (item : Packet) : option (C * res unit) :=
  match map_out m item with
  | GwPanic => None
  | GwDone m (Some item) => Some (m, send item)
  | GwDone m None => Some (m, Ok tt)
  end.

(** The packets let in, one after the other; [None] is a panic. *)
Fixpoint let_in (m : C) (l : list Packet) : option (C * list Packet) :=
  match l with
  | [] => Some (m, [])
  | p :: l =>
    match map_in m p with
    | GwPanic => None
    | GwDone m out =>
      match let_in m l with
      | None => None
      | Some (m, outs) => Some (m, match out with Some q => q :: outs | None => outs end)
      end
    end
  end.

(** All the packets of the stream, polled as often as the device answers. *)
Fixpoint gateway_drain (fuel : nat) (m : C) (l : list (poll (option (res Packet)))) : option (C * list Packet) :=
  match fuel with
  | O => Some (m, [])
  | S fuel =>
    match gateway_poll_next m l with
    | PolledPanic => None
    | Polled_ m l (Ready (Some (Ok p))) => match gateway_drain fuel m l with Some (m, ps) => Some (m, p :: ps) | None => None end
    | Polled_ m l (Ready _) => Some (m, [])
    | Polled_ m l Pending => gateway_drain fuel m l
    end
  end.

Definition device_packets (l : list (poll (option (res Packet)))) : list Packet :=
  omap (fun a => match a with Ready (Some (Ok p)) => Some p | _ => None end) l.

Definition no_end (a : poll (option (res Packet))) : Prop := match a with Pending | Ready (Some (Ok _)) => True | _ => False end.

Lemma poll_next_spec l : Forall no_end l -> forall m,
  match gateway_poll_next m l with
  | PolledPanic => let_in m (device_packets l) = None
  | Polled_ m' l' p =>
    Forall no_end l' /\ (length l' <= pred (length l))%nat /\
    match p with
    | Pending => let_in m (device_packets l) = let_in m' (device_packets l')
    | Ready (Some (Ok q)) => let_in m (device_packets l) =
        match let_in m' (device_packets l') with Some (m, o) => Some (m, q :: o) | None => None end
    | Ready _ => False
    end
  end.
Proof.
  induction 1 as [|a l Ha Hl IH]; intros m; [by split_and!|]. cbn [gateway_poll_next].
  destruct a as [|[[p|e]|]]; [split_and!; [done|cbn; lia|done]| |done..].
  change (device_packets (Ready (Some (Ok p)) :: l)) with (p :: device_packets l). cbn [let_in].
  destruct (map_in m p) as [|m1 [q|]]; [done|split_and!; [done|cbn; lia|done]|].
  specialize (IH m1). destruct (gateway_poll_next m1 l) as [|m2 l2 x]; [by rewrite IH|].
  destruct IH as (H1 & H2 & H3). split; [done|]. split; [cbn; lia|].
  destruct x as [|[[y|e]|]]; try done; rewrite H3; by destruct (let_in m2 _) as [[? ?]|].
Qed.

(** However the device's answers are spread over the polls, and however many
    packets in a row are not let in, the stream gives the packets of the device
    that are let in, each once, rewritten and in order, with the table that
    comes of them; it does not end before the device does. *)
Theorem gateway_stream_exact fuel : forall m l, Forall no_end l -> (length l <= fuel)%nat ->
  gateway_drain fuel m l = let_in m (device_packets l).
Proof.
  induction fuel as [|fuel IH]; intros m l Hl Hf; [by destruct l; [|cbn in Hf; lia]|]. cbn [gateway_drain].
  pose proof (poll_next_spec l Hl m) as H'. destruct (gateway_poll_next m l) as [|m1 l1 p]; [done|].
  destruct H' as (H1 & H2 & H3). assert (Hf1 : (length l1 <= fuel)%nat) by lia.
  destruct p as [|[[q|e]|]]; try done; rewrite H3, (IH m1 l1 H1 Hf1); done.
Qed.
End Stream.

(** ** Datagrams *)

Section Udp.
(** smoltcp's socket. *)
Context {Sock : Type} (poll_send : Sock -> bytes -> SocketAddr -> Sock * poll (res nat)).

(** A name is refused, and so is a datagram that is not sent whole. *)
(* src/protocol/raw/src/wrap.rs:77-96 UdpSocketWrap::poll_send_to *)
Definition wrap_poll_send_to (s : Sock) (buf : bytes) (target : Address) : Sock * poll (res nat) :=
  match to_socket_addr target with
  | Err e => (s, Ready (Err e))
  | Ok a =>
    match poll_send s buf a with
    | (s, Ready (Ok size)) =>
      (s, if (size =? length buf)%nat then Ready (Ok size) else Ready (Err (EIoOther (Prelude.EOther "failed to send all bytes"))))
    | (s, p) => (s, p)
    end
  end.

Lemma wrap_sends_whole s buf target s' n : wrap_poll_send_to s buf target = (s', Ready (Ok n)) ->
  n = length buf /\ exists a, to_socket_addr target = Ok a /\ poll_send s buf a = (s', Ready (Ok n)).
Proof.
  unfold wrap_poll_send_to. destruct (to_socket_addr target) as [a|e]; [|done].
  destruct (poll_send s buf a) as [s1 [|[m|e]]] eqn:E; [done| |done]. destruct (m =? _)%nat eqn:En; [|done]. bools.
  intros [= <- <-]. by split; [|exists a].
Qed.
End Udp.

(** ** Samples *)

Definition sample_config : RawNetConfig := mkRawNetConfig (mkTunTapConfig Tun None (lit "10.0.0.1")) (Some (lit "10.0.0.254")) (lit "10.0.0.2/24") 1500 true.
Definition sample_cidr (s : bytes) : option IpCidr := if bool_decide (s = lit "10.0.0.2/24") then Some (V4 167772162, 24) else None.

Lemma raw_net_made_witness : exists n,
  raw_net_new sample_cidr parse_ip (fun c => Ok (lit "tun0", t_netmask c)) (fun _ => Err ENotFoundIO) sample_config = Some (Ok n) /\
  exists v4 len, sample_cidr (lit "10.0.0.2/24") = Some (V4 v4, len) /\ params n = Some (smoltcp_net n, (V4 v4, len)).
Proof.
  eexists. split; [vm_compute; reflexivity|].
  destruct (raw_net_made sample_cidr parse_ip (fun c => Ok (lit "tun0", t_netmask c)) (fun _ => Err ENotFoundIO) sample_config _ eq_refl)
    as (v4 & len & H1 & _ & _ & _ & H2 & _). exists v4, len. split; [exact H1|exact H2].
Defined.

(** Rubbish, a pause, and a segment to the proxy's side. *)
Definition sample_packet : Packet := PL3 (Some (mkIp 7 8 (Tcp 4000 80 true))).

#[local] Instance raw_sample_map : LruCache SockV4 SockV4 (list (SockV4 * SockV4)) := bounded_cache.

Lemma gateway_stream_exact_witness :
  (fun x => snd <$> x) (gateway_drain 0 (fun _ => true) 0 (9, 1) 3 (@lru_new SockV4 SockV4 _ raw_sample_map 4) [Ready (Some (Ok (PL3 None))); Pending; Ready (Some (Ok sample_packet))]) =
  Some [PL3 (Some (mkIp 7 9 (Tcp 4000 1 true)))].
Proof.
  rewrite (gateway_stream_exact 0 (fun _ => true) 0 (9, 1) 3); [reflexivity|repeat constructor|apply Nat.le_refl].
Defined.
End RawNet.
