(* ===== verification/Socks.v ===== *)
(** * SOCKS5 and Shadowsocks datagrams: [rd-std/src/socks5/] and
    [protocol/ss/src/]

    SOCKS5: the packing of datagrams, the client's UDP socket, the server's
    UDP channel and the server's handling of a connection.  Shadowsocks: the
    datagram format, the client's socket and the server's source.  The address
    format is the [socks5-protocol] crate's ([S5Codec]) and the ciphers are the
    [shadowsocks] crate's ([SSCipher]); both are interfaces with laws. *)

From S2P Require Import Prelude Io Address.

Module Socks.

(** [socks5_protocol::Address]. *)
Inductive S5Addr : Type := S5Socket (s : SocketAddr) | S5Domain (d : bytes) (p : Z).

(* src/rd-std/src/socks5/common.rs:49-54 sa2ra *)
Definition sa2ra (a : S5Addr) : Address :=
  match a with S5Domain d p => ADomain d p | S5Socket s => ASocket s end.

(* src/rd-std/src/socks5/common.rs:55-60 ra2sa *)
Definition ra2sa (a : Address) : S5Addr :=
  match a with ADomain d p => S5Domain d p | ASocket s => S5Socket s end.

Definition s5_ok (a : S5Addr) : Prop :=
  match a with
  | S5Socket s => sa_ok s
  | S5Domain d p => bytes_ok d /\ port_ok p /\ utf8_valid d = true /\ (0 < length d < 256)%nat
  end.

(** The format of RFC 1928: a type byte, the address (a domain with its
    length first) and the port.  [s5_partial] is what a failing write leaves
    behind. *)
Class S5Codec : Type := {
  s5_write : S5Addr -> res bytes;
  s5_partial : S5Addr -> bytes;
  s5_read : reader S5Addr;
  s5_write_v4 a p : s5_write (S5Socket (mkSocketAddr (V4 a) p)) = Ok (1 :: be_bytes 4 a ++ be_bytes 2 p);
  s5_write_v6 a p : s5_write (S5Socket (mkSocketAddr (V6 a) p)) = Ok (4 :: be_bytes 16 a ++ be_bytes 2 p);
  s5_write_domain d p : (length d < 256)%nat ->
    s5_write (S5Domain d p) = Ok (3 :: Z.of_nat (length d) :: d ++ be_bytes 2 p);
  s5_roundtrip a w r : s5_ok a -> s5_write a = Ok w -> s5_read (w ++ r) = Ok (a, r) }.

Lemma s5_write_ok `{S5Codec} a : s5_ok a -> exists w, s5_write a = Ok w.
Proof.
  destruct a as [[[a|a] p]|d p]; intros Ha; eexists;
    [apply s5_write_v4 | apply s5_write_v6 | apply s5_write_domain; destruct Ha as (_ & _ & _ & ?); lia].
Qed.

Lemma sa2ra_ra2sa a : sa2ra (ra2sa a) = a.
Proof. by destruct a. Qed.
Lemma ra2sa_sa2ra a : ra2sa (sa2ra a) = a.
Proof. by destruct a. Qed.

Section Socks5.
Context `{S5Codec}.

(** ** The datagram header *)

(** On the filled part of a buffer; what is left in the buffer comes first. *)
(* src/rd-std/src/socks5/common.rs:12-37 parse_udp *)
Definition parse_udp (filled : bytes) : res (bytes * Address) :=
  match read_exact 3 filled with
  | Err e => Err e
  | Ok (header, rest) =>
    if bool_decide (header = [0; 0; 0]) then
      match s5_read rest with
      | Ok (a, payload) => Ok (payload, sa2ra a)
      | Err e => Err e
      end
    else Err EInvalidData
  end.

(** What the vector holds afterwards, and whether packing succeeded. *)
(* src/rd-std/src/socks5/common.rs:39-47 pack_udp *)
Definition pack_udp (addr : Address) (buf : bytes) : bytes * res unit :=
  match s5_write (ra2sa addr) with
  | Ok w => ([0; 0; 0] ++ w ++ buf, Ok tt)
  | Err e => ([0; 0; 0] ++ s5_partial (ra2sa addr), Err e)
  end.

(** ** The client's socket *)

(* src/rd-std/src/socks5/client.rs:27-32 Socks5UdpSocket *)
Record ClientUdp : Type := mkClientUdp { cu_server : SocketAddr; cu_send_buf : bytes }.

(** The inner socket appends to the caller's buffer, which a datagram from
    elsewhere leaves as it is. *)
(* src/rd-std/src/socks5/client.rs:40-55 Socks5UdpSocket::poll_recv_from *)
Fixpoint client_poll_recv (cap : nat) (server : SocketAddr) (filled : bytes) (r : list (uans SocketAddr))
    : list (uans SocketAddr) * bytes * poll (res SocketAddr) :=
  match r with
  | [] => ([], filled, Pending)
  | UPending :: r => (r, filled, Pending)
  | UErr e :: r => (r, filled, Ready (Err e))
  | UData d from :: r =>
    let filled := filled ++ take (cap - length filled) d in
    if bool_decide (from = server) then
      match parse_udp filled with
      | Err e => (r, filled, Ready (Err e))
      | Ok (payload, addr) => (r, payload, Ready (to_socket_addr addr))
      end
    else client_poll_recv cap server filled r
  end.

(* src/rd-std/src/socks5/client.rs:57-78 Socks5UdpSocket::poll_send_to *)
Definition client_poll_send (s : ClientUdp) (w : UWr Address) (buf : bytes) (target : Address)
    : ClientUdp * UWr Address * poll (res nat) :=
  let '(sb, w, r) := buffered_send (pack_udp target buf) (cu_send_buf s) (ASocket (cu_server s)) w in
  (mkClientUdp (cu_server s) sb, w,
   match r with Ready (Ok _) => Ready (Ok (length buf)) | Ready (Err e) => Ready (Err e) | Pending => Pending end).

(** ** The server's channel *)

(* src/rd-std/src/socks5/server.rs:151-157 Socks5UdpSocket *)
Record ServerUdp : Type := mkServerUdp { su_endpoint : option SocketAddr; su_send_buf : bytes }.

(** [tcp] is what reading the control connection gives. *)
(* src/rd-std/src/socks5/server.rs:160-164 Socks5UdpSocket::poll_tcp_close *)
Definition poll_tcp_close (tcp : poll (res bytes)) : poll bool :=
  match tcp with
  | Pending => Pending
  | Ready r => Ready (negb (is_ok r))
  end.

(** The datagram of a client: the payload is left in the buffer. *)
(* src/rd-std/src/socks5/server.rs:168-181 Socks5UdpSocket::poll_send_to *)
Definition server_poll_send (cap : nat) (s : ServerUdp) (r : list (uans SocketAddr))
    : ServerUdp * list (uans SocketAddr) * bytes * poll (res Address) :=
  match udp_recv cap r with
  | (r, Pending) => (s, r, [], Pending)
  | (r, Ready (Err e)) => (s, r, [], Ready (Err e))
  | (r, Ready (Ok (d, from))) =>
    let s := mkServerUdp (Some (match su_endpoint s with Some a => a | None => from end)) (su_send_buf s) in
    match parse_udp d with
    | Err e => (s, r, d, Ready (Err e))
    | Ok (payload, addr) => (s, r, payload, Ready (Ok addr))
    end
  end.

(** A datagram for the client. *)
(* src/rd-std/src/socks5/server.rs:183-220 Socks5UdpSocket::poll_recv_from *)
Definition server_poll_recv (tcp : poll (res bytes)) (s : ServerUdp) (w : UWr Address) (buf : bytes)
    (target : SocketAddr) : ServerUdp * UWr Address * poll (res nat) :=
  match poll_tcp_close tcp with
  | Ready true => (s, w, Ready (Err EConnectionAborted))
  | _ =>
    match su_endpoint s with
    | Some endpoint =>
      let '(sb, w, r) := buffered_send (pack_udp (ASocket target) buf) (su_send_buf s) (ASocket endpoint) w in
      (mkServerUdp (su_endpoint s) sb, w,
       match r with Ready (Ok _) => Ready (Ok (length buf)) | Ready (Err e) => Ready (Err e) | Pending => Pending end)
    | None =>
      let '(sb, r) := match su_send_buf s with [] => pack_udp (ASocket target) buf | sb => (sb, Ok tt) end in
      (mkServerUdp None sb, w,
       match r with Err e => Ready (Err e) | Ok _ => Ready (Err EInvalidData) end)
    end
  end.

(** ** The server's handling of a connection *)

(** [socks5_protocol::Command]. *)
Inductive S5Command : Type := CmdConnect | CmdBind | CmdUdpAssociate.

(** What is written to the client: the version, the chosen method ([None]: no
    acceptable one), replies, and where the writer is flushed. *)
Inductive S5Out : Type :=
| OVersion
| OMethod (m : option Z)
| OSuccess (bound : S5Addr)
| OError (e : error)
| OAddressTypeNotSupported
| OFlush.

(** What the client sends, as the crate's readers give it, and how the nets
    answer; a connected stream or bound socket answers its local address. *)
Record ServeEnv : Type := mkServeEnv {
  sv_local_ip : res IpAddr;
  sv_version : res unit;
  sv_auth : res (list Z);
  sv_command : res (S5Command * S5Addr);
  sv_tcp_connect : Address -> res (res SocketAddr);
  sv_udp_bind : Address -> res unit;
  sv_listen_udp_bind : Address -> res (res SocketAddr) }.

(** How a connection ends: relayed, answered and closed, or failed. *)
Inductive S5End : Type :=
| RelayTcp (dst : Address)
| RelayUdp (bind : Address)
| Closed
| Failed (e : error).

(** [AuthRequest::select_from(&[Noauth])]; [Noauth] is method 0. *)
Definition select_noauth (methods : list Z) : option Z := if bool_decide (0 ∈ methods) then Some 0 else None.

(* src/rd-std/src/socks5/server.rs:34-52 Socks5Server::handle_command_request *)
Definition handle_command_request (env : ServeEnv) : list S5Out * res (S5Command * S5Addr) :=
  match sv_version env with
  | Err e => ([], Err e)
  | Ok _ =>
    match sv_auth env with
    | Err e => ([], Err e)
    | Ok methods => ([OVersion; OMethod (select_noauth methods); OFlush], sv_command env)
    end
  end.

(* src/rd-std/src/socks5/server.rs:53-61 Socks5Server::response_command_error *)
Definition response_command_error (e : error) : list S5Out * S5End := ([OError e; OFlush], Closed).

Definition default_addr : SocketAddr := mkSocketAddr (V4 0) 0.

(* src/rd-std/src/socks5/server.rs:63-143 Socks5Server::serve_connection *)
Definition serve_connection (env : ServeEnv) (peer : SocketAddr) : list S5Out * S5End :=
  match sv_local_ip env with
  | Err e => ([], Failed e)
  | Ok local_ip =>
    let '(out, req) := handle_command_request env in
    match req with
    | Err e => (out, Failed e)
    | Ok (CmdConnect, address) =>
      let dst := sa2ra address in
      match sv_tcp_connect env dst with
      | Err e => let '(o, r) := response_command_error e in (out ++ o, r)
      | Ok local =>
        let addr := match local with Ok a => a | Err _ => default_addr end in
        (out ++ [OSuccess (S5Socket addr); OFlush], RelayTcp dst)
      end
    | Ok (CmdUdpAssociate, address) =>
      match address with
      | S5Socket a =>
        let dst := any_addr_port a in
        match sv_udp_bind env dst with
        | Err e => let '(o, r) := response_command_error e in (out ++ o, r)
        | Ok _ =>
          match sv_listen_udp_bind env (any_addr_port peer) with
          | Err e => (out, Failed e)
          | Ok (Err e) => let '(o, r) := response_command_error e in (out ++ o, r)
          | Ok (Ok bound) =>
            (out ++ [OSuccess (S5Socket (mkSocketAddr local_ip (sa_port bound))); OFlush], RelayUdp dst)
          end
        end
      | S5Domain _ _ => (out ++ [OAddressTypeNotSupported; OFlush], Closed)
      end
    | Ok (CmdBind, _) => (out, Closed)
    end
  end.

(** ** The client's handshake *)

(** What the client writes. *)
Inductive C5Out : Type :=
| CVersion
| CMethods (l : list Z)
| CFlush
| CRequest (c : S5Command) (a : S5Addr).

(** What the server and the nets answer to the client. *)
Record ClientEnv : Type := mkClientEnv {
  cv_version : res unit;
  cv_method : res (option Z);
  cv_response : res S5Addr;
  cv_lookup_host : res (list SocketAddr);
  cv_tcp_connect : Address -> res unit;
  cv_udp_bind : Address -> res unit;
  cv_to_socket_addr : S5Addr -> res SocketAddr }.

(* src/rd-std/src/socks5/client.rs:163-188 Socks5Client::send_command *)
Definition send_command (env : ClientEnv) (req : S5Command * S5Addr) : list C5Out * res S5Addr :=
  let out := [CVersion; CMethods [0]; CFlush] in
  match cv_version env with
  | Err e => (out, Err e)
  | Ok _ =>
    match cv_method env with
    | Err e => (out, Err e)
    | Ok m =>
      if bool_decide (m = Some 0) then (out ++ [CRequest req.1 req.2; CFlush], cv_response env)
      else (out, Err (EOther "Auth failed"))
    end
  end.

(* src/rd-std/src/socks5/client.rs:96-107 Socks5Client::tcp_connect *)
Definition client_tcp_connect (env : ClientEnv) (server addr : Address) : list C5Out * res unit :=
  match cv_tcp_connect env server with
  | Err e => ([], Err e)
  | Ok _ => let '(out, r) := send_command env (CmdConnect, ra2sa addr) in (out, fmap (fun _ => tt) r)
  end.

(* src/rd-std/src/socks5/client.rs:112-146 Socks5Client::udp_bind *)
Definition client_udp_bind (env : ClientEnv) (server addr : Address) : list C5Out * res ClientUdp :=
  match cv_lookup_host env with
  | Err e => ([], Err e)
  | Ok [] => ([], Err EAddrNotAvailable)
  | Ok (server_addr :: _) =>
    match cv_tcp_connect env (ASocket server_addr) with
    | Err e => ([], Err e)
    | Ok _ =>
      let '(out, r) := send_command env (CmdUdpAssociate, ra2sa addr) in
      (out,
       resp ← r;
       _ ← cv_udp_bind env (any_addr_port server_addr);
       a ← cv_to_socket_addr env resp;
       Ok (mkClientUdp a []))
    end
  end.

End Socks5.

(** ** Shadowsocks *)

Inductive CipherCategory : Type := CatNone | CatStream | CatAead.

(** A cipher in place on a packet: a stream cipher keeps the length, an AEAD
    cipher works on a plaintext followed by room for its tag, and decrypting
    also says whether the packet is genuine. *)
Class SSCipher : Type := {
  ss_category : CipherCategory;
  ss_iv_len : nat;
  ss_tag_len : nat;
  ss_encrypt : bytes -> bytes -> bytes -> bytes;
  ss_decrypt : bytes -> bytes -> bytes -> bool * bytes;
  ss_encrypt_length key iv m : length (ss_encrypt key iv m) = length m;
  ss_stream_law key iv m : ss_category = CatStream ->
    ss_decrypt key iv (ss_encrypt key iv m) = (true, m);
  ss_aead_law key iv m z : ss_category = CatAead -> length z = ss_tag_len ->
    exists z', length z' = ss_tag_len /\ ss_decrypt key iv (ss_encrypt key iv (m ++ z)) = (true, m ++ z') }.

(** The salt of an AEAD cipher is as long as [ss_iv_len] says. *)
Section Shadowsocks.
Context `{S5Codec} `{SSCipher}.

(** [copy_within(start..end, 0)]. *)
Definition copy_within (s e : nat) (buf : bytes) : bytes := take (e - s) (drop s buf) ++ drop (e - s) buf.

(** [iv]: the random salt; the new contents of the empty [dst] come first.
    The room for the tag is not initialised: [junk]. *)
(* src/protocol/ss/src/udp.rs:31-36 write_to_buf *)
Definition write_to_buf (addr : S5Addr) (dst : bytes) : bytes * res unit :=
  match s5_write addr with Ok w => (dst ++ w, Ok tt) | Err e => (dst ++ s5_partial addr, Err e) end.

(* src/protocol/ss/src/udp.rs:59-88 encrypt_payload_stream *)
Definition encrypt_payload_stream (key iv : bytes) (addr : S5Addr) (payload : bytes) : bytes * res unit :=
  match s5_write addr with
  | Err e => ([], Err e) (* serialized_len *)
  | Ok _ =>
    match write_to_buf addr iv with
    | (dst, Err e) => (dst, Err e)
    | (dst, Ok _) => let dst := dst ++ payload in (iv ++ ss_encrypt key iv (drop (length iv) dst), Ok tt)
    end
  end.

(* src/protocol/ss/src/udp.rs:90-124 encrypt_payload_aead *)
Definition encrypt_payload_aead (key iv junk : bytes) (addr : S5Addr) (payload : bytes) : bytes * res unit :=
  match s5_write addr with
  | Err e => ([], Err e)
  | Ok _ =>
    match write_to_buf addr iv with
    | (dst, Err e) => (dst, Err e)
    | (dst, Ok _) => let dst := dst ++ payload ++ junk in (iv ++ ss_encrypt key iv (drop (length iv) dst), Ok tt)
    end
  end.

(* src/protocol/ss/src/udp.rs:39-57 encrypt_payload *)
Definition encrypt_payload (key iv junk : bytes) (addr : S5Addr) (payload : bytes) : bytes * res unit :=
  match ss_category with
  | CatNone =>
    match s5_write addr with
    | Err e => ([], Err e)
    | Ok _ => match write_to_buf addr [] with
              | (dst, Ok _) => (dst ++ payload, Ok tt)
              | (dst, Err e) => (dst, Err e)
              end
    end
  | CatStream => encrypt_payload_stream key iv addr payload
  | CatAead => encrypt_payload_aead key iv junk addr payload
  end.

(** The address and how much of the input it takes. *)
(* src/protocol/ss/src/udp.rs:225-237 parse_packet *)
Definition parse_packet (buf : bytes) : res (nat * S5Addr) :=
  match s5_read buf with
  | Ok (a, rest) => Ok ((length buf - length rest)%nat, a)
  | Err _ => Err EInvalidData
  end.

(** The buffer afterwards and the result; [None] is a failed [assert!]. *)
(* src/protocol/ss/src/udp.rs:154-180 decrypt_payload_stream *)
Definition decrypt_payload_stream (key payload : bytes) : option (bytes * res (nat * S5Addr)) :=
  if (length payload <? ss_iv_len)%nat then Some (payload, Err EInvalidData)
  else
    let iv := take ss_iv_len payload in
    let '(ok, data) := ss_decrypt key iv (drop ss_iv_len payload) in
    if ok then
      let payload := iv ++ data in
      match parse_packet data with
      | Err e => Some (payload, Err e)
      | Ok (dn, addr) =>
        let start := (ss_iv_len + dn)%nat in
        Some (copy_within start (length payload) payload, Ok ((length payload - start)%nat, addr))
      end
    else None.

(* src/protocol/ss/src/udp.rs:182-223 decrypt_payload_aead *)
Definition decrypt_payload_aead (key payload : bytes) : bytes * res (nat * S5Addr) :=
  if (length payload <? ss_iv_len)%nat then (payload, Err EInvalidData)
  else
    let salt := take ss_iv_len payload in
    let data := drop ss_iv_len payload in
    if (length data <? ss_tag_len)%nat then (payload, Err (EOther "udp packet too short for tag"))
    else
      let '(ok, data) := ss_decrypt key salt data in
      let payload := salt ++ data in
      if ok then
        let data_len := (length data - ss_tag_len)%nat in
        match parse_packet (take data_len data) with
        | Err e => (payload, Err e)
        | Ok (dn, addr) =>
          let data_length := (data_len - dn)%nat in
          let start := (ss_iv_len + dn)%nat in
          (copy_within start (start + data_length) payload, Ok (data_length, addr))
        end
      else (payload, Err (EOther "invalid tag-in")).

(* src/protocol/ss/src/udp.rs:127-152 decrypt_payload *)
Definition decrypt_payload (key payload : bytes) : option (bytes * res (nat * S5Addr)) :=
  match ss_category with
  | CatNone =>
    match s5_read payload with
    | Ok (a, rest) =>
      let pos := (length payload - length rest)%nat in
      Some (copy_within pos (length payload) payload, Ok ((length payload - pos)%nat, a))
    | Err _ => Some (payload, Err EInvalidData)
    end
  | CatStream => decrypt_payload_stream key payload
  | CatAead => Some (decrypt_payload_aead key payload)
  end.

(** A call that may panic. *)
Inductive ss_result (A : Type) : Type := SsPanic | SsPoll (r : poll (res A)).
Arguments SsPanic {A}.
Arguments SsPoll {A} r.

(** The client's socket reads one datagram and takes the address of a domain
    to be impossible. *)
(* src/protocol/ss/src/wrapper.rs:197-211 WrapSSUdp::poll_recv_from *)
Definition ss_client_poll_recv {A} (key : bytes) (cap : nat) (r : list (uans A))
    : list (uans A) * bytes * ss_result SocketAddr :=
  match udp_recv cap r with
  | (r, Pending) => (r, [], SsPoll Pending)
  | (r, Ready (Err e)) => (r, [], SsPoll (Ready (Err e)))
  | (r, Ready (Ok (d, _))) =>
    match decrypt_payload key d with
    | None => (r, [], SsPanic)
    | Some (buf, Err e) => (r, buf, SsPoll (Ready (Err e)))
    | Some (buf, Ok (n, S5Socket s)) => (r, take n buf, SsPoll (Ready (Ok s)))
    | Some (buf, Ok (n, S5Domain _ _)) => (r, take n buf, SsPanic)
    end
  end.

(* src/protocol/ss/src/wrapper.rs:213-230 WrapSSUdp::poll_send_to *)
Definition ss_client_poll_send (key iv junk : bytes) (server : SocketAddr) (send_buf : bytes) (w : UWr Address)
    (buf : bytes) (target : Address) : bytes * UWr Address * poll (res nat) :=
  let '(sb, w, r) := buffered_send (encrypt_payload key iv junk (ra2sa target) buf) send_buf (ASocket server) w in
  (sb, w, match r with Ready (Ok _) => Ready (Ok (length buf)) | Ready (Err e) => Ready (Err e) | Pending => Pending end).

(** The server's source goes on with the same buffer after a datagram it
    cannot use. *)
(* src/protocol/ss/src/server/source.rs:35-60 UdpSource::poll_recv *)
Fixpoint ss_source_poll_recv {A} (key : bytes) (cap : nat) (filled : bytes) (r : list (uans A))
    : list (uans A) * bytes * ss_result (A * SocketAddr) :=
  match r with
  | [] => ([], filled, SsPoll Pending)
  | UPending :: r => (r, filled, SsPoll Pending)
  | UErr e :: r => (r, filled, SsPoll (Ready (Err e)))
  | UData d from :: r =>
    match decrypt_payload key (filled ++ take (cap - length filled) d) with
    | None => (r, [], SsPanic)
    | Some (buf, Err _) => ss_source_poll_recv key cap buf r
    | Some (buf, Ok (n, S5Domain _ _)) => ss_source_poll_recv key cap (take n buf) r
    | Some (buf, Ok (n, S5Socket s)) => (r, take n buf, SsPoll (Ready (Ok (from, s))))
    end
  end.

(* src/protocol/ss/src/server/source.rs:62-84 UdpSource::poll_send *)
Definition ss_source_poll_send (key iv junk send_buf : bytes) (w : UWr Address) (buf : bytes)
    (from to : SocketAddr) : bytes * UWr Address * poll (res unit) :=
  buffered_send (encrypt_payload key iv junk (S5Socket from) buf) send_buf (ASocket to) w.

End Shadowsocks.

Arguments SsPanic {A}.
Arguments SsPoll {A} r.

(** ** Lemmas *)

Lemma pack_udp_ok `{S5Codec} a buf : s5_ok (ra2sa a) ->
  exists p, pack_udp a buf = (p, Ok tt) /\ p <> [] /\ parse_udp p = Ok (buf, a).
Proof.
  intros Ha. destruct (s5_write_ok _ Ha) as (w & Hw). exists ([0; 0; 0] ++ w ++ buf).
  unfold pack_udp. rewrite Hw. split; [done|]. split; [done|].
  unfold parse_udp. rewrite (read_exact_app_n 3 [0; 0; 0]) by done.
  rewrite bool_decide_true by done. by rewrite (s5_roundtrip _ _ buf Ha Hw), sa2ra_ra2sa.
Qed.

(** What goes through an exchange: a payload and an address. *)
Definition udp_fits `{S5Codec} (cap : nat) (x : bytes * Address) : Prop :=
  s5_ok (ra2sa x.2) /\ (length (pack_udp x.2 x.1).1 <= cap)%nat.

Definition client_sends `{S5Codec} (s : ClientUdp) (w : UWr Address) (l : list (bytes * Address)) :=
  send_all (fun s w x => client_poll_send s w x.1 x.2) s w l.

Definition server_recv_step `{S5Codec} (cap : nat) (s : ServerUdp * list (uans SocketAddr)) :=
  let '(s, r, d, p) := server_poll_send cap s.1 s.2 in
  ((s, r), match p with Ready (Ok a) => Ready (Ok (d, a)) | Ready (Err e) => Ready (Err e) | Pending => Pending end).
Definition server_recvs `{S5Codec} (cap n : nat) (s : ServerUdp) (r : list (uans SocketAddr)) :=
  recv_all n (server_recv_step cap) (s, r).

Definition server_sends `{S5Codec} (s : ServerUdp) (w : UWr Address) (l : list (bytes * SocketAddr)) :=
  send_all (fun s w x => server_poll_recv Pending s w x.1 x.2) s w l.

Definition client_recv_step `{S5Codec} (cap : nat) (server : SocketAddr) (s : unit * list (uans SocketAddr)) :=
  let '(r, d, p) := client_poll_recv cap server [] s.2 in
  ((tt, r), match p with Ready (Ok a) => Ready (Ok (d, a)) | Ready (Err e) => Ready (Err e) | Pending => Pending end).
Definition client_recvs `{S5Codec} (cap n : nat) (server : SocketAddr) (r : list (uans SocketAddr)) :=
  recv_all n (client_recv_step cap server) (tt, r).

Section Exchange.
Context `{S5Codec} (server c : SocketAddr) (cap : nat).

(** Both senders are [buffered_send] of a packed datagram. *)
Lemma client_sends_all up ks : Forall (udp_fits cap) up -> length ks = length up ->
  client_sends (mkClientUdp server []) (mkUWr [] (concat (map busy ks))) up =
    (mkClientUdp server [], mkUWr (map (fun x => ((pack_udp x.2 x.1).1, ASocket server)) up) [], []).
Proof.
  intros Hup Hk. rewrite List.Forall_forall in Hup. unfold client_sends.
  rewrite (send_all_busy _ _ (fun x => ((pack_udp x.2 x.1).1, ASocket server)) (fun x => length x.1)); [done| |done].
  intros [buf a] Hx k fuel out rest Hf. apply list_elem_of_In, Hup in Hx as [Ha _].
  destruct (pack_udp_ok a buf Ha) as (p & Hp & Hne & _). cbn [fst snd] in *. rewrite Hp.
  apply (buffered_busy (fun sb => mkClientUdp server sb) p (ASocket server) (length buf)); try done; [|by left].
  intros sb w. unfold client_poll_send. cbn. rewrite Hp. by destruct (buffered_send _ _ _ _) as [[? ?] ?].
Qed.

Lemma server_sends_all down ks : Forall (fun x => udp_fits cap (x.1, ASocket x.2)) down -> length ks = length down ->
  server_sends (mkServerUdp (Some c) []) (mkUWr [] (concat (map busy ks))) down =
    (mkServerUdp (Some c) [], mkUWr (map (fun x => ((pack_udp (ASocket x.2) x.1).1, ASocket c)) down) [], []).
Proof.
  intros Hdown Hk. rewrite List.Forall_forall in Hdown. unfold server_sends.
  rewrite (send_all_busy _ _ (fun x => ((pack_udp (ASocket x.2) x.1).1, ASocket c)) (fun x => length x.1)); [done| |done].
  intros [buf a] Hx k fuel out rest Hf. apply list_elem_of_In, Hdown in Hx as [Ha _].
  destruct (pack_udp_ok (ASocket a) buf Ha) as (p & Hp & Hne & _). cbn [fst snd] in *. rewrite Hp.
  apply (buffered_busy (fun sb => mkServerUdp (Some c) sb) p (ASocket c) (length buf)); try done; [|by left].
  intros sb w. unfold server_poll_recv. cbn. rewrite Hp. by destruct (buffered_send _ _ _ _) as [[? ?] ?].
Qed.

Lemma server_recvs_all up : Forall (udp_fits cap) up -> up <> [] ->
  server_recvs cap (S (length up)) (mkServerUdp None []) (map (fun x => UData (pack_udp x.2 x.1).1 c) up) =
    ((mkServerUdp (Some c) [], []), up).
Proof.
  intros Hup Hne. rewrite List.Forall_forall in Hup. set (f := server_recv_step cap).
  destruct up as [|[buf0 a0] up]; [done|].
  assert (Hr : forall x r s, x ∈ (buf0, a0) :: up -> su_send_buf s = [] -> su_endpoint s = None \/ su_endpoint s = Some c ->
    f (s, UData (pack_udp x.2 x.1).1 c :: r) = ((mkServerUdp (Some c) [], r), Ready (Ok x))).
  { intros [buf a] r [ep sb] Hx Hs He. cbn in Hs, He. subst sb. apply list_elem_of_In, Hup in Hx as [Ha Hc].
    destruct (pack_udp_ok a buf Ha) as (p & Hp & _ & Hpp). cbn [fst snd] in *. rewrite Hp in Hc. cbn in Hc.
    unfold f, server_recv_step, server_poll_send, udp_recv. rewrite Hp. cbn [fst snd]. rewrite take_ge by done.
    rewrite Hpp. cbn. by destruct He as [-> | ->]. }
  cbn [map length]. unfold server_recvs. rewrite recv_all_S. fold f. rewrite (Hr (buf0, a0)); [|left|done|by left].
  destruct (recv_all_items (fun s => s = mkServerUdp (Some c) []) f (fun x => UData (pack_udp x.2 x.1).1 c) up)
    with (s := mkServerUdp (Some c) []) as (s' & -> & E); [|done|done|].
  - intros x r s Hx ->. eexists. split; [|apply Hr]; [done|by right|done|by right].
  - by rewrite E.
Qed.

Lemma client_recvs_all down : Forall (fun x => udp_fits cap (x.1, ASocket x.2)) down ->
  client_recvs cap (S (length down)) server (map (fun x => UData (pack_udp (ASocket x.2) x.1).1 server) down) =
    ((tt, []), down).
Proof.
  intros Hdown. rewrite List.Forall_forall in Hdown. unfold client_recvs. set (f := client_recv_step cap server).
  destruct (recv_all_items (fun _ => True) f (fun x => UData (pack_udp (ASocket x.2) x.1).1 server) down)
    with (s := tt) as ([] & _ & E); [|by intros []|done|done].
  intros [buf a] r [] Hx _. exists tt. split; [done|]. apply list_elem_of_In, Hdown in Hx as [Ha Hc].
  destruct (pack_udp_ok (ASocket a) buf Ha) as (p & Hp & _ & Hpp). cbn [fst snd] in *. rewrite Hp in Hc |- *. cbn [fst] in *.
  unfold f, client_recv_step. cbn [snd client_poll_recv length app].
  rewrite Nat.sub_0_r, take_ge, bool_decide_true by done. by rewrite Hpp.
Qed.

End Exchange.

(** C31: SOCKS5 datagrams.  Whatever the client sends, one at least, to
    addresses of any kind that fit a SOCKS5 header and with payloads that fit,
    header included, the receiving buffer of [cap] bytes ([udp_fits]; the
    relay's buffer has 2048, and what is longer is cut), and through a socket
    that is busy in between, leaves as one datagram each for the server, which
    hands on the same payloads for the same targets in the same order and
    learns the client's address from the first; whatever of such a size the
    server then has for the client, the control connection being quiet, goes
    to that address, and the client reads the same payloads from the same
    sources in order. *)
Theorem socks5_udp_exchange `{S5Codec} server c cap up down ks ks' :
  Forall (udp_fits cap) up -> Forall (fun x => udp_fits cap (x.1, ASocket x.2)) down ->
  length ks = length up -> length ks' = length down -> up <> [] ->
  exists sent back,
    client_sends (mkClientUdp server []) (mkUWr [] (concat (map busy ks))) up =
      (mkClientUdp server [], mkUWr (map (fun p => (p, ASocket server)) sent) [], []) /\
    server_recvs cap (S (length up)) (mkServerUdp None []) (map (fun p => UData p c) sent) =
      ((mkServerUdp (Some c) [], []), up) /\
    server_sends (mkServerUdp (Some c) []) (mkUWr [] (concat (map busy ks'))) down =
      (mkServerUdp (Some c) [], mkUWr (map (fun p => (p, ASocket c)) back) [], []) /\
    client_recvs cap (S (length down)) server (map (fun p => UData p server) back) = ((tt, []), down).
Proof.
  intros Hup Hdown Hk Hk' Hne.
  exists (map (fun x => (pack_udp x.2 x.1).1) up), (map (fun x => (pack_udp (ASocket x.2) x.1).1) down).
  rewrite !map_map. split; [by apply (client_sends_all server cap)|]. split; [by apply server_recvs_all|].
  split; [by apply (server_sends_all c cap) | by apply client_recvs_all].
Qed.

(** A datagram from elsewhere stays in the buffer in front of the server's,
    so that it is what the client reads. *)
Lemma socks5_foreign_datagram `{S5Codec} cap server other d a buf rest :
  other <> server -> (length d + length rest <= cap)%nat -> s5_ok (ra2sa (ASocket a)) ->
  (pack_udp (ASocket a) buf).1 = d ->
  client_poll_recv cap server [] [UData d other; UData rest server] = ([], buf ++ rest, Ready (Ok a)).
Proof.
  intros Ho Hc Ha Hd. destruct (pack_udp_ok (ASocket a) (buf ++ rest) Ha) as (p & Hp & _ & Hpp).
  unfold pack_udp in Hp, Hd. destruct (s5_write (ra2sa (ASocket a))) as [w|]; [|done]. injection Hp as <-.
  cbn [fst] in Hd. assert (E : [0; 0; 0] ++ w ++ buf ++ rest = d ++ rest) by (subst d; by rewrite <- !app_assoc).
  change (parse_udp ([0; 0; 0] ++ w ++ buf ++ rest) = Ok (buf ++ rest, ASocket a)) in Hpp.
  rewrite E in Hpp. cbn [client_poll_recv]. rewrite bool_decide_false, bool_decide_true by done.
  rewrite app_nil_l, (take_ge d) by (cbn; lia). rewrite take_ge by lia. by rewrite Hpp.
Qed.

(** The end of the control connection is not an error of reading it, and so
    goes unnoticed. *)
Lemma socks5_tcp_close_unnoticed : poll_tcp_close (Ready (Ok [])) = Ready false.
Proof. done. Qed.

(** A target that cannot be packed leaves the start of a header behind, which
    is sent in place of the next datagram. *)
Lemma socks5_failed_pack_sent `{S5Codec} server bad e buf good buf' :
  s5_write (ra2sa bad) = Err e ->
  let '(s, w, r) := client_poll_send (mkClientUdp server []) (mkUWr [] [WOk 0]) buf bad in
  r = Ready (Err e) /\
  client_poll_send s w buf' good =
    (mkClientUdp server [], mkUWr [([0; 0; 0] ++ s5_partial (ra2sa bad), ASocket server)] [], Ready (Ok (length buf'))).
Proof. intros E. unfold client_poll_send, pack_udp, buffered_send. cbn. rewrite E. by cbn. Qed.

(** ** The server's answers *)

Definition is_reply (o : S5Out) : bool :=
  match o with OSuccess _ | OError _ | OAddressTypeNotSupported => true | _ => false end.

(** A SOCKS5 server answers a request once, and only then relays: at most
    one reply is written and nothing is left unflushed; a TCP relay is to the
    address asked for, after its connection was made and success was replied
    with that connection's local address; a UDP relay is bound to the wildcard
    address of the family asked for, and success was replied with the port of
    the socket that listens for the client. *)
Theorem socks5_serve_answers env peer :
  let '(out, e) := serve_connection env peer in
  (out = [] \/ exists o, out = o ++ [OFlush]) /\
  (length (List.filter is_reply out) <= 1)%nat /\
  match e with
  | RelayTcp dst => exists a local, sv_command env = Ok (CmdConnect, a) /\ dst = sa2ra a /\
      sv_tcp_connect env dst = Ok local /\
      OSuccess (S5Socket (match local with Ok l => l | Err _ => default_addr end)) ∈ out
  | RelayUdp bind => exists a bound ip, sv_command env = Ok (CmdUdpAssociate, S5Socket a) /\
      bind = any_addr_port a /\ sv_udp_bind env bind = Ok tt /\
      sv_listen_udp_bind env (any_addr_port peer) = Ok (Ok bound) /\ sv_local_ip env = Ok ip /\
      OSuccess (S5Socket (mkSocketAddr ip (sa_port bound))) ∈ out
  | Closed => (exists a, sv_command env = Ok (CmdBind, a)) \/
      Exists (fun o => is_reply o = true /\ forall a, o <> OSuccess a) out
  | Failed _ => Forall (fun o => is_reply o = false) out
  end.
Proof.
  assert (Hf : forall (o : S5Out) l, exists l', [OVersion; OMethod l; OFlush] ++ [o; OFlush] = l' ++ [OFlush])
    by (intros o l; by exists [OVersion; OMethod l; OFlush; o]).
  unfold serve_connection, handle_command_request, response_command_error.
  destruct (sv_local_ip env) as [ip|]; [|by repeat split; [left|cbn; lia|constructor]].
  destruct (sv_version env) as [[]|]; [|by repeat split; [left|cbn; lia|constructor]].
  destruct (sv_auth env) as [mt|]; [|by repeat split; [left|cbn; lia|constructor]].
  destruct (sv_command env) as [[cmd a]|] eqn:Ec.
  2: { split; [right; by exists [OVersion; OMethod (select_noauth mt)]|]. split; [cbn; lia|]. by repeat constructor. }
  destruct cmd.
  - destruct (sv_tcp_connect env (sa2ra a)) as [local|e] eqn:Et; cbn [app];
      (split; [right; apply Hf|]); (split; [cbn; lia|]).
    + exists a, local. repeat split; try done. set_solver.
    + right. do 3 right. left. done.
  - split; [right; by exists [OVersion; OMethod (select_noauth mt)]|]. split; [cbn; lia|]. left. by exists a.
  - destruct a as [sa|d p].
    + destruct (sv_udp_bind env (any_addr_port sa)) as [[]|e] eqn:Eb.
      * destruct (sv_listen_udp_bind env (any_addr_port peer)) as [[bound|e]|e] eqn:El; cbn [app].
        -- split; [right; apply Hf|]. split; [cbn; lia|]. exists sa, bound, ip. repeat split; try done. set_solver.
        -- split; [right; apply Hf|]. split; [cbn; lia|]. right. do 3 right. left. done.
        -- split; [right; by exists [OVersion; OMethod (select_noauth mt)]|]. split; [cbn; lia|]. by repeat constructor.
      * cbn [app]. split; [right; apply Hf|]. split; [cbn; lia|]. right. do 3 right. left. done.
    + cbn [app]. split; [right; apply Hf|]. split; [cbn; lia|]. right. do 3 right. left. done.
Qed.

(** ** Shadowsocks *)

Section SsLemmas.
Context `{S5Codec} `{SSCipher}.

Lemma copy_within_take s e buf n : (s <= e)%nat -> (e <= length buf)%nat -> n = (e - s)%nat ->
  take n (copy_within s e buf) = take n (drop s buf).
Proof. intros H1 H2 ->. unfold copy_within. rewrite take_app_le by len. by rewrite take_take, Nat.min_id. Qed.

Lemma parse_packet_write a w r : s5_ok a -> s5_write a = Ok w -> parse_packet (w ++ r) = Ok (length w, a).
Proof. intros Ha Hw. unfold parse_packet. rewrite (s5_roundtrip _ _ r Ha Hw). repeat f_equal. len. Qed.

Lemma s5_write_nonempty a w : s5_ok a -> s5_write a = Ok w -> w <> [].
Proof.
  destruct a as [[[x|x] p]|d p]; intros Ha; [rewrite s5_write_v4|rewrite s5_write_v6|rewrite s5_write_domain];
    [by intros [= <-]..|]. destruct Ha as (_ & _ & _ & ?). lia.
Qed.

(** The three kinds of cipher at once. *)
Lemma ss_decrypt_encrypt key iv junk a payload :
  s5_ok a -> length iv = ss_iv_len -> length junk = ss_tag_len ->
  exists p buf, encrypt_payload key iv junk a payload = (p, Ok tt) /\ p <> [] /\
    decrypt_payload key p = Some (buf, Ok (length payload, a)) /\ take (length payload) buf = payload.
Proof.
  intros Ha Hi Hj. destruct (s5_write_ok _ Ha) as (w & Hw). pose proof (s5_write_nonempty _ _ Ha Hw) as Hne.
  unfold encrypt_payload, decrypt_payload, encrypt_payload_stream, encrypt_payload_aead, write_to_buf. rewrite Hw.
  destruct ss_category eqn:Ec.
  - eexists _, _. split; [done|]. rewrite app_nil_l, (s5_roundtrip _ _ payload Ha Hw).
    split; [by destruct w|]. split; [repeat f_equal; len|]. rewrite copy_within_take; [|len..].
    replace (length (w ++ payload) - length payload)%nat with (length w) by len.
    by rewrite drop_app_length, firstn_all.
  - eexists _, _. split; [done|]. rewrite <- app_assoc, drop_app_length.
    set (c := ss_encrypt key iv (w ++ payload)). assert (Hlc : length c = length (w ++ payload)) by apply ss_encrypt_length.
    assert (Hlw : (0 < length w)%nat) by (destruct w; [done | cbn; lia]).
    split; [intros E; apply (f_equal length) in E; revert E Hlc; len|].
    unfold decrypt_payload_stream. rewrite (proj2 (Nat.ltb_ge _ _)) by len.
    rewrite <- Hi, drop_app_length, take_app_length. unfold c. rewrite ss_stream_law, (parse_packet_write a w payload Ha Hw) by done.
    split; [repeat f_equal; len|]. rewrite copy_within_take; [|len..].
    rewrite <- drop_drop, drop_app_length, drop_app_length. by rewrite firstn_all.
  - destruct (ss_aead_law key iv (w ++ payload) junk Ec Hj) as (z & Hz & Hd). rewrite <- app_assoc in Hd.
    eexists _, _. split; [done|]. rewrite <- app_assoc, drop_app_length.
    set (c := ss_encrypt key iv (w ++ payload ++ junk)) in *.
    assert (Hlc : length c = length (w ++ payload ++ junk)) by apply ss_encrypt_length.
    assert (Hlw : (0 < length w)%nat) by (destruct w; [done | cbn; lia]).
    split; [intros E; apply (f_equal length) in E; revert E Hlc; len|].
    unfold decrypt_payload_aead. rewrite (proj2 (Nat.ltb_ge _ _)) by len.
    rewrite <- Hi, drop_app_length, take_app_length. rewrite (proj2 (Nat.ltb_ge _ _)) by (revert Hlc; len).
    rewrite Hd. replace (length ((w ++ payload) ++ z) - ss_tag_len)%nat with (length (w ++ payload)) by len.
    rewrite take_app_length, (parse_packet_write a w payload Ha Hw). cbv beta iota zeta.
    replace (length (w ++ payload) - length w)%nat with (length payload) by len.
    split; [done|]. rewrite copy_within_take; [|len..].
    by rewrite <- drop_drop, drop_app_length, <- app_assoc, drop_app_length, take_app_length.
Qed.

End SsLemmas.

(** A datagram of an exchange: the salt, the tag's room, the payload and the
    address. *)
Definition ss_fits `{S5Codec} `{SSCipher} (key : bytes) (cap : nat) (x : bytes * bytes * bytes * SocketAddr) : Prop :=
  let '(iv, junk, buf, a) := x in
  sa_ok a /\ length iv = ss_iv_len /\ length junk = ss_tag_len /\
  (length (encrypt_payload key iv junk (S5Socket a) buf).1 <= cap)%nat.

Definition ss_wire `{S5Codec} `{SSCipher} (key : bytes) (x : bytes * bytes * bytes * SocketAddr) : bytes :=
  let '(iv, junk, buf, a) := x in (encrypt_payload key iv junk (S5Socket a) buf).1.

Definition ss_source_step `{S5Codec} `{SSCipher} {A} key cap (s : unit * list (uans A)) :
    (unit * list (uans A)) * poll (res (A * bytes * SocketAddr)) :=
  match ss_source_poll_recv key cap [] s.2 with
  | (r, buf, SsPoll (Ready (Ok (from, to)))) => ((tt, r), Ready (Ok (from, buf, to)))
  | (r, _, SsPoll (Ready (Err e))) => ((tt, r), Ready (Err e))
  | (r, _, _) => ((tt, r), Pending)
  end.

Definition ss_client_step `{S5Codec} `{SSCipher} {A} key cap (s : unit * list (uans A)) :
    (unit * list (uans A)) * poll (res (bytes * SocketAddr)) :=
  match ss_client_poll_recv key cap s.2 with
  | (r, buf, SsPoll (Ready (Ok from))) => ((tt, r), Ready (Ok (buf, from)))
  | (r, _, SsPoll (Ready (Err e))) => ((tt, r), Ready (Err e))
  | (r, _, _) => ((tt, r), Pending)
  end.

Section SsExchange.
Context `{S5Codec} `{SSCipher} (key : bytes) (server c : SocketAddr) (cap : nat).

Lemma ss_client_sends_all up ks : Forall (ss_fits key cap) up -> length ks = length up ->
  send_all (fun s w x => let '(iv, junk, buf, a) := x in ss_client_poll_send key iv junk server s w buf (ASocket a))
    [] (mkUWr [] (concat (map busy ks))) up = ([], mkUWr (map (fun x => (ss_wire key x, ASocket server)) up) [], []).
Proof.
  intros Hup Hk. rewrite List.Forall_forall in Hup.
  rewrite (send_all_busy _ _ (fun x => (ss_wire key x, ASocket server)) (fun x => length x.1.2)); [done| |done].
  intros [[[iv junk] buf] a] Hx k fuel out rest Hf. apply list_elem_of_In, Hup in Hx as (Ha & Hi & Hj & _).
  destruct (ss_decrypt_encrypt key iv junk (S5Socket a) buf Ha Hi Hj) as (p & b & Hp & Hne & _).
  unfold ss_wire. rewrite Hp.
  apply (buffered_busy (fun sb => sb) p (ASocket server) (length buf)); try done; [|by left].
  intros sb w. unfold ss_client_poll_send. cbn [ra2sa]. rewrite Hp. by destruct (buffered_send _ _ _ _) as [[? ?] ?].
Qed.

Lemma ss_source_sends_all down ks : Forall (ss_fits key cap) down -> length ks = length down ->
  send_all (fun s w x => let '(iv, junk, buf, a) := x in ss_source_poll_send key iv junk s w buf a c)
    [] (mkUWr [] (concat (map busy ks))) down = ([], mkUWr (map (fun x => (ss_wire key x, ASocket c)) down) [], []).
Proof.
  intros Hdown Hk. rewrite List.Forall_forall in Hdown.
  rewrite (send_all_busy _ _ (fun x => (ss_wire key x, ASocket c)) (fun _ => tt)); [done| |done].
  intros [[[iv junk] buf] a] Hx k fuel out rest Hf. apply list_elem_of_In, Hdown in Hx as (Ha & Hi & Hj & _).
  destruct (ss_decrypt_encrypt key iv junk (S5Socket a) buf Ha Hi Hj) as (p & b & Hp & Hne & _).
  unfold ss_wire. rewrite Hp.
  apply (buffered_busy (fun sb => sb) p (ASocket c) tt); try done; [|by left].
  intros sb w. unfold ss_source_poll_send. rewrite Hp. by destruct (buffered_send _ _ _ _) as [[? ?] [|[[]|]]].
Qed.

Lemma ss_source_recvs_all up : Forall (ss_fits key cap) up ->
  (recv_all (S (length up)) (ss_source_step key cap) (tt, map (fun x => UData (ss_wire key x) c) up)).2 =
    map (fun x => (c, x.1.2, x.2)) up.
Proof.
  intros Hup. induction Hup as [|[[[iv junk] buf] a] up (Ha & Hi & Hj & Hc) _ IH]; [done|].
  destruct (ss_decrypt_encrypt key iv junk (S5Socket a) buf Ha Hi Hj) as (p & b & Hp & _ & Hd & Ht).
  cbn [length map]. rewrite recv_all_S. unfold ss_source_step at 1. cbn [snd ss_source_poll_recv]. unfold ss_wire at 1.
  rewrite Hp in *. cbn [fst] in *. rewrite app_nil_l, Nat.sub_0_r, take_ge by done. rewrite Hd, Ht.
  destruct (recv_all _ _ _) as [? l]. cbn [snd] in IH |- *. by rewrite IH.
Qed.

Lemma ss_client_recvs_all down : Forall (ss_fits key cap) down ->
  (recv_all (S (length down)) (ss_client_step key cap) (tt, map (fun x => UData (ss_wire key x) server) down)).2 =
    map (fun x => (x.1.2, x.2)) down.
Proof.
  intros Hd0. induction Hd0 as [|[[[iv junk] buf] a] down (Ha & Hi & Hj & Hc) _ IH]; [done|].
  destruct (ss_decrypt_encrypt key iv junk (S5Socket a) buf Ha Hi Hj) as (p & b & Hp & _ & Hd & Ht).
  cbn [length map]. rewrite recv_all_S. unfold ss_client_step at 1, ss_client_poll_recv. cbn [snd udp_recv]. unfold ss_wire at 1.
  rewrite Hp in *. cbn [fst] in *. rewrite take_ge by done. rewrite Hd, Ht.
  destruct (recv_all _ _ _) as [? l]. cbn [snd] in IH |- *. by rewrite IH.
Qed.

End SsExchange.

(** Shadowsocks datagrams, with any cipher the crate has (none, stream or
    AEAD), fresh salts and sockets that are busy in between: what a client
    sends to socket addresses arrives at the server with the same payloads
    and targets in order, one datagram each, and what the server sends back
    arrives at the client with the same payloads and sources. *)
Theorem ss_udp_exchange `{S5Codec} `{SSCipher} key server c cap up down ks ks' :
  Forall (ss_fits key cap) up -> Forall (ss_fits key cap) down ->
  length ks = length up -> length ks' = length down ->
  exists sent back,
    send_all (fun s w x => let '(iv, junk, buf, a) := x in ss_client_poll_send key iv junk server s w buf (ASocket a))
      [] (mkUWr [] (concat (map busy ks))) up = ([], mkUWr (map (fun p => (p, ASocket server)) sent) [], []) /\
    (recv_all (S (length up)) (ss_source_step key cap) (tt, map (fun p => UData p c) sent)).2 =
      map (fun x => (c, x.1.2, x.2)) up /\
    send_all (fun s w x => let '(iv, junk, buf, a) := x in ss_source_poll_send key iv junk s w buf a c)
      [] (mkUWr [] (concat (map busy ks'))) down = ([], mkUWr (map (fun p => (p, ASocket c)) back) [], []) /\
    (recv_all (S (length down)) (ss_client_step key cap) (tt, map (fun p => UData p server) back)).2 =
      map (fun x => (x.1.2, x.2)) down.
Proof.
  intros Hup Hdown Hk Hk'. exists (map (ss_wire key) up), (map (ss_wire key) down). rewrite !map_map.
  split; [by apply (ss_client_sends_all key server cap)|]. split; [by apply ss_source_recvs_all|].
  split; [by apply (ss_source_sends_all key c cap) | by apply ss_client_recvs_all].
Qed.

(** *** The address format of RFC 1928, and samples *)

Definition rfc1928_write (a : S5Addr) : res bytes :=
  match a with
  | S5Socket s =>
    match sa_ip s with
    | V4 x => Ok (1 :: be_bytes 4 x ++ be_bytes 2 (sa_port s))
    | V6 x => Ok (4 :: be_bytes 16 x ++ be_bytes 2 (sa_port s))
    end
  | S5Domain d p =>
    if (255 <? length d)%nat then Err EInvalidInput
    else Ok (3 :: Z.of_nat (length d) :: d ++ be_bytes 2 p)
  end.

Definition rfc1928_read : reader S5Addr :=
  t ← read_u8;
  if t =? 1 then x ← read_exact 4; p ← read_u16; mret (S5Socket (mkSocketAddr (V4 (be_val x)) p))
  else if t =? 4 then x ← read_exact 16; p ← read_u16; mret (S5Socket (mkSocketAddr (V6 (be_val x)) p))
  else if t =? 3 then
    n ← read_u8; d ← read_exactZ n; _ ← rlift (ensure (utf8_valid d) EInvalidData);
    p ← read_u16; mret (S5Domain d p)
  else rfail EInvalidData.

Lemma rfc1928_roundtrip a w r : s5_ok a -> rfc1928_write a = Ok w -> rfc1928_read (w ++ r) = Ok (a, r).
Proof.
  unfold rfc1928_read, read_u16.
  destruct a as [[[x|x] p]|d p]; cbn [rfc1928_write sa_ip sa_port s5_ok].
  - intros [Hx Hp] E. apply Ok_inj in E as <-. cbn [app]. rewrite <- app_assoc.
    rewrite bind_reader, read_u8_cons. cbn [Z.eqb Pos.eqb]. rewrite bind_reader.
    rewrite (read_exact_app_n 4) by apply length_be_bytes. rewrite bind_reader, read_be_app by exact Hp.
    cbn in Hx. rewrite be_val_be_bytes by exact Hx. done.
  - intros [Hx Hp] E. apply Ok_inj in E as <-. cbn [app]. rewrite <- app_assoc.
    rewrite bind_reader, read_u8_cons. cbn [Z.eqb Pos.eqb]. rewrite bind_reader.
    rewrite (read_exact_app_n 16) by apply length_be_bytes. rewrite bind_reader, read_be_app by exact Hp.
    cbn in Hx. rewrite be_val_be_bytes by exact Hx. done.
  - intros (Hd & Hp & Hu & Hl). destruct (255 <? length d)%nat; [done|]. intros E. apply Ok_inj in E as <-. cbn [app]. rewrite <- app_assoc.
    rewrite bind_reader, read_u8_cons. cbn [Z.eqb Pos.eqb]. rewrite bind_reader, read_u8_cons, bind_reader.
    rewrite read_exactZ_app by done. rewrite bind_reader, Hu. cbn [ensure rlift]. rewrite bind_reader, read_be_app by exact Hp. done.
Qed.

Lemma rfc1928_write_domain d p : (length d < 256)%nat ->
  rfc1928_write (S5Domain d p) = Ok (3 :: Z.of_nat (length d) :: d ++ be_bytes 2 p).
Proof. intros H. unfold rfc1928_write. by rewrite (proj2 (Nat.ltb_ge _ _)) by lia. Qed.

#[export] Instance rfc1928 : S5Codec := {
  s5_write := rfc1928_write; s5_partial := fun _ => []; s5_read := rfc1928_read;
  s5_write_v4 := fun _ _ => eq_refl; s5_write_v6 := fun _ _ => eq_refl;
  s5_write_domain := rfc1928_write_domain; s5_roundtrip := rfc1928_roundtrip }.

(** An AEAD cipher that leaves the packet as it is. *)
Lemma plain_aead_law (m z : bytes) : length z = 1%nat ->
  exists z' : bytes, length z' = 1%nat /\ (true, m ++ z) = (true, m ++ z').
Proof. intros Hz. by exists z. Qed.

#[local] Instance plain_aead : SSCipher := {
  ss_category := CatAead; ss_iv_len := 2%nat; ss_tag_len := 1%nat;
  ss_encrypt := fun _ _ m => m; ss_decrypt := fun _ _ m => (true, m);
  ss_encrypt_length := fun _ _ _ => eq_refl;
  ss_stream_law := fun _ _ _ H => ltac:(discriminate H);
  ss_aead_law := fun _ _ m z _ Hz => plain_aead_law m z Hz }.

Definition sample_sa (n : Z) : SocketAddr := mkSocketAddr (V4 n) 53.

Lemma socks5_udp_exchange_witness : exists sent back,
  client_sends (mkClientUdp (sample_sa 1) []) (mkUWr [] (concat (map busy [2%nat; 0%nat]))) [([7], ADomain (lit "a.b") 53); ([8], ASocket (sample_sa 9))] =
    (mkClientUdp (sample_sa 1) [], mkUWr (map (fun p => (p, ASocket (sample_sa 1))) sent) [], []) /\
  client_recvs 100 2 (sample_sa 1) (map (fun p => UData p (sample_sa 1)) back) = ((tt, []), [([5], sample_sa 9)]).
Proof.
  destruct (socks5_udp_exchange (sample_sa 1) (sample_sa 2) 100 [([7], ADomain (lit "a.b") 53); ([8], ASocket (sample_sa 9))]
    [([5], sample_sa 9)] [2%nat; 0%nat] [1%nat]) as (sent & back & H1 & _ & _ & H4).
  - repeat constructor; cbn; try lia; unfold byte_ok; lia.
  - repeat constructor; cbn; lia.
  - reflexivity.
  - reflexivity.
  - discriminate.
  - exists sent, back. split; [exact H1 | exact H4].
Defined.

Lemma ss_udp_exchange_witness : exists sent,
  send_all (fun s w x => let '(iv, junk, buf, a) := x in ss_client_poll_send [] iv junk (sample_sa 1) s w buf (ASocket a))
    [] (mkUWr [] (concat (map busy [1%nat]))) [([3; 4], [0], [7; 8], sample_sa 9)] =
    ([], mkUWr (map (fun p => (p, ASocket (sample_sa 1))) sent) [], []) /\
  (recv_all 2 (ss_source_step [] 100) (tt, map (fun p => UData p (sample_sa 2)) sent)).2 = [(sample_sa 2, [7; 8], sample_sa 9)].
Proof.
  destruct (ss_udp_exchange [] (sample_sa 1) (sample_sa 2) 100 [([3; 4], [0], [7; 8], sample_sa 9)] [] [1%nat] [])
    as (sent & back & H1 & H2 & _).
  - repeat constructor; cbn; lia.
  - constructor.
  - reflexivity.
  - reflexivity.
  - exists sent. split; [exact H1 | exact H2].
Defined.

(** A datagram the server cannot decode takes the next one with it. *)
Lemma ss_bad_datagram_poisons :
  let good := (encrypt_payload [] [3; 4] [0] (S5Socket (sample_sa 9)) [7; 8]).1 in
  ss_source_poll_recv [] 100 [] [UData good (sample_sa 2)] =
    ([], [7; 8], SsPoll (Ready (Ok (sample_sa 2, sample_sa 9)))) /\
  (ss_source_poll_recv [] 100 [] [UData [0; 0; 0] (sample_sa 5); UData good (sample_sa 2)]).2 = SsPoll Pending.
Proof. vm_compute. split; reflexivity. Qed.

(** A server that answers with a domain as the source stops the client. *)
Lemma ss_domain_reply_panics :
  (ss_client_poll_recv [] 100 [UData (encrypt_payload [] [3; 4] [0] (S5Domain (lit "a.b") 53) [7; 8]).1 tt]).2 = SsPanic.
Proof. vm_compute. reflexivity. Qed.

End Socks.
Export Socks.
