(* ===== verification/SsNet.v ===== *)
(** * The Shadowsocks net and server: [protocol/ss/src/client.rs],
    [server.rs] and the glue of [wrapper.rs]

    The datagrams are [Socks]'; here are the connections.  The encrypted
    streams are the [shadowsocks] crate's, an interface with its laws. *)

From S2P Require Import Prelude Text Io Address Socks.

Module SsNet.

(** ** Ciphers *)

(* src/protocol/ss/src/wrapper.rs:52-143 Cipher *)
Inductive Cipher : Type :=
| NONE | SS_TABLE | SS_RC4_MD5 | AES_128_CTR | AES_192_CTR | AES_256_CTR
| AES_128_CFB1 | AES_128_CFB8 | AES_128_CFB128 | AES_192_CFB1 | AES_192_CFB8 | AES_192_CFB128
| AES_256_CFB1 | AES_256_CFB8 | AES_256_CFB128 | AES_128_OFB | AES_192_OFB | AES_256_OFB
| CAMELLIA_128_CTR | CAMELLIA_192_CTR | CAMELLIA_256_CTR | CAMELLIA_128_CFB1 | CAMELLIA_128_CFB8 | CAMELLIA_128_CFB128
| CAMELLIA_192_CFB1 | CAMELLIA_192_CFB8 | CAMELLIA_192_CFB128 | CAMELLIA_256_CFB1 | CAMELLIA_256_CFB8 | CAMELLIA_256_CFB128
| CAMELLIA_128_OFB | CAMELLIA_192_OFB | CAMELLIA_256_OFB | RC4 | CHACHA20 | AES_128_GCM
| AES_256_GCM | CHACHA20_POLY1305 | AES_128_CCM | AES_256_CCM | AES_128_GCM_SIV | AES_256_GCM_SIV
| XCHACHA20_POLY1305 | SM4_GCM | SM4_CCM.

(** Its name, as serde writes it. *)
(* src/protocol/ss/src/wrapper.rs:52-143 Cipher *)
Definition cipher_name (c : Cipher) : bytes :=
  match c with
  | NONE => lit "none"
  | SS_TABLE => lit "table"
  | SS_RC4_MD5 => lit "rc4-md5"
  | AES_128_CTR => lit "aes-128-ctr"
  | AES_192_CTR => lit "aes-192-ctr"
  | AES_256_CTR => lit "aes-256-ctr"
  | AES_128_CFB1 => lit "aes-128-cfb1"
  | AES_128_CFB8 => lit "aes-128-cfb8"
  | AES_128_CFB128 => lit "aes-128-cfb"
  | AES_192_CFB1 => lit "aes-192-cfb1"
  | AES_192_CFB8 => lit "aes-192-cfb8"
  | AES_192_CFB128 => lit "aes-192-cfb"
  | AES_256_CFB1 => lit "aes-256-cfb1"
  | AES_256_CFB8 => lit "aes-256-cfb8"
  | AES_256_CFB128 => lit "aes-256-cfb"
  | AES_128_OFB => lit "aes-128-ofb"
  | AES_192_OFB => lit "aes-192-ofb"
  | AES_256_OFB => lit "aes-256-ofb"
  | CAMELLIA_128_CTR => lit "camellia-128-ctr"
  | CAMELLIA_192_CTR => lit "camellia-192-ctr"
  | CAMELLIA_256_CTR => lit "camellia-256-ctr"
  | CAMELLIA_128_CFB1 => lit "camellia-128-cfb1"
  | CAMELLIA_128_CFB8 => lit "camellia-128-cfb8"
  | CAMELLIA_128_CFB128 => lit "camellia-128-cfb"
  | CAMELLIA_192_CFB1 => lit "camellia-192-cfb1"
  | CAMELLIA_192_CFB8 => lit "camellia-192-cfb8"
  | CAMELLIA_192_CFB128 => lit "camellia-192-cfb"
  | CAMELLIA_256_CFB1 => lit "camellia-256-cfb1"
  | CAMELLIA_256_CFB8 => lit "camellia-256-cfb8"
  | CAMELLIA_256_CFB128 => lit "camellia-256-cfb"
  | CAMELLIA_128_OFB => lit "camellia-128-ofb"
  | CAMELLIA_192_OFB => lit "camellia-192-ofb"
  | CAMELLIA_256_OFB => lit "camellia-256-ofb"
  | RC4 => lit "rc4"
  | CHACHA20 => lit "chacha20-ietf"
  | AES_128_GCM => lit "aes-128-gcm"
  | AES_256_GCM => lit "aes-256-gcm"
  | CHACHA20_POLY1305 => lit "chacha20-ietf-poly1305"
  | AES_128_CCM => lit "aes-128-ccm"
  | AES_256_CCM => lit "aes-256-ccm"
  | AES_128_GCM_SIV => lit "aes-128-gcm-siv"
  | AES_256_GCM_SIV => lit "aes-256-gcm-siv"
  | XCHACHA20_POLY1305 => lit "xchacha20-ietf-poly1305"
  | SM4_GCM => lit "sm4-gcm"
  | SM4_CCM => lit "sm4-ccm"
  end.

Definition ciphers : list Cipher :=
  [NONE; SS_TABLE; SS_RC4_MD5; AES_128_CTR; AES_192_CTR; AES_256_CTR; AES_128_CFB1; AES_128_CFB8;
   AES_128_CFB128; AES_192_CFB1; AES_192_CFB8; AES_192_CFB128; AES_256_CFB1; AES_256_CFB8; AES_256_CFB128;
   AES_128_OFB; AES_192_OFB; AES_256_OFB; CAMELLIA_128_CTR; CAMELLIA_192_CTR; CAMELLIA_256_CTR;
   CAMELLIA_128_CFB1; CAMELLIA_128_CFB8; CAMELLIA_128_CFB128; CAMELLIA_192_CFB1; CAMELLIA_192_CFB8;
   CAMELLIA_192_CFB128; CAMELLIA_256_CFB1; CAMELLIA_256_CFB8; CAMELLIA_256_CFB128; CAMELLIA_128_OFB;
   CAMELLIA_192_OFB; CAMELLIA_256_OFB; RC4; CHACHA20; AES_128_GCM; AES_256_GCM; CHACHA20_POLY1305;
   AES_128_CCM; AES_256_CCM; AES_128_GCM_SIV; AES_256_GCM_SIV; XCHACHA20_POLY1305; SM4_GCM; SM4_CCM].

#[export] Instance cipher_eq_dec : EqDecision Cipher.
Proof. solve_decision. Defined.

(** serde's reading of a name. *)
Definition cipher_of_name (s : bytes) : option Cipher := List.find (fun c => bool_decide (cipher_name c = s)) ciphers.

Lemma ciphers_all c : In c ciphers.
Proof. destruct c; cbn; tauto. Qed.

Lemma cipher_names_apart : NoDup (map cipher_name ciphers).
Proof. apply (bool_decide_unpack (NoDup (map cipher_name ciphers))). vm_compute. exact I. Qed.

(** A cipher's name is read as that cipher. *)
Lemma cipher_name_read c : cipher_of_name (cipher_name c) = Some c.
Proof. destruct c; vm_compute; reflexivity. Qed.

Lemma cipher_name_inj c c' : cipher_name c = cipher_name c' -> c = c'.
Proof. intros E. pose proof (cipher_name_read c) as H. rewrite E, cipher_name_read in H. congruence. Qed.

(** ** Addresses *)

(** [shadowsocks::relay::socks5::Address]. *)
Inductive SSAddress : Type := SocketAddress (s : SocketAddr) | DomainNameAddress (d : bytes) (p : Z).

(* src/protocol/ss/src/wrapper.rs:32-37 SSAddress::from *)
Definition ss_address (w : Address) : SSAddress :=
  match w with ADomain domain port => DomainNameAddress domain port | ASocket s => SocketAddress s end.

(* src/protocol/ss/src/wrapper.rs:41-46 S5Addr::from *)
Definition s5_address (w : Address) : S5Addr :=
  match w with ADomain domain port => S5Domain domain port | ASocket s => S5Socket s end.

(** Both crates write an address in the format of RFC 1928. *)
Definition s5_of_ss (a : SSAddress) : S5Addr :=
  match a with SocketAddress s => S5Socket s | DomainNameAddress d p => S5Domain d p end.

(** ** Streams *)

(** The crate's encrypted streams: [ss_client_wire] is what a client's stream
    to an address sends for what is written to it, [ss_server_wire] what a
    server's stream sends, and [ss_open] what the other side's stream reads,
    or that it is not genuine.  A client's stream sends its address before
    what is first written. *)
Class SSStream `{S5Codec} : Type := {
  ss_client_wire : Cipher -> bytes -> bytes -> SSAddress -> list bytes -> bytes;
  ss_server_wire : Cipher -> bytes -> bytes -> list bytes -> bytes;
  ss_open : Cipher -> bytes -> bytes -> option bytes;
  ss_client_open c key salt a ws w : ws <> [] -> s5_write (s5_of_ss a) = Ok w ->
    ss_open c key (ss_client_wire c key salt a ws) = Some (w ++ concat ws);
  ss_server_open c key salt ws : ss_open c key (ss_server_wire c key salt ws) = Some (concat ws) }.

Section Net.
Context `{SSStream}.
(** [ServerConfig::new]: the key that comes from a password. *)
Context (key_of : Cipher -> bytes -> res bytes).

(* src/protocol/ss/src/client.rs:16-32 SSNetConfig *)
Record SSNetConfig : Type := mkSSNetConfig { nc_server : Address; nc_password : bytes; nc_udp : bool; nc_cipher : Cipher; nc_net : nat }.

(** The key and the cipher are [ServerConfig]'s. *)
(* src/protocol/ss/src/client.rs:34-40 SSNet *)
Record SSNet : Type := mkSSNet { key : bytes; method : Cipher; addr : Address; udp : bool; net : nat }.

(* src/protocol/ss/src/client.rs:43-58 SSNet::new *)
Definition ss_net_new (config : SSNetConfig) : res SSNet :=
  match key_of (nc_cipher config) (nc_password config) with
  | Err e => Err (map_other e)
  | Ok k => Ok (mkSSNet k (nc_cipher config) (nc_server config) (nc_udp config) (nc_net config))
  end.

(** A [ProxyClientStream] over a stream. *)
(* src/protocol/ss/src/wrapper.rs:153-153 WrapSSTcp *)
Record WrapSSTcp (Stream : Type) : Type := mkSSTcp { ss_inner : Stream; ss_key : bytes; ss_method : Cipher; ss_target : SSAddress }.
Arguments mkSSTcp {Stream}.
Arguments ss_inner {Stream}.
Arguments ss_key {Stream}.
Arguments ss_method {Stream}.
Arguments ss_target {Stream}.

Section Connect.
Context {Stream Socket : Type} (dial : nat -> Address -> res Stream).
Context (lookup_host : nat -> Address -> res (list SocketAddr)) (bind : nat -> Address -> res Socket).

(* src/protocol/ss/src/client.rs:63-77 SSNet::tcp_connect *)
Definition ss_tcp_connect (n : SSNet) (a : Address) : res (WrapSSTcp Stream) :=
  stream ← dial (net n) (addr n);
  Ok (mkSSTcp stream (key n) (method n) (ss_address a)).

(** What the stream puts on the wire. *)
Definition ss_tcp_wire (s : WrapSSTcp Stream) (salt : bytes) (writes : list bytes) : bytes :=
  ss_client_wire (ss_method s) (ss_key s) salt (ss_target s) writes.

(** The socket, the key and where it sends; what is kept to be sent is
    [Socks]'. *)
(* src/protocol/ss/src/wrapper.rs:168-174 WrapSSUdp *)
Record WrapSSUdp : Type := mkSSUdp { su_socket : Socket; su_method : Cipher; su_key : bytes; su_server : SocketAddr; su_buf : bytes }.

(* src/protocol/ss/src/wrapper.rs:177-188 WrapSSUdp::new *)
Definition ss_udp_new (socket : Socket) (n : SSNet) (server_addr : SocketAddr) : WrapSSUdp :=
  mkSSUdp socket (method n) (key n) server_addr [].

(* src/protocol/ss/src/client.rs:82-107 SSNet::udp_bind *)
Definition ss_udp_bind (n : SSNet) (_ : Address) : res WrapSSUdp :=
  _ ← ensure (udp n) ENotEnabled;
  addrs ← lookup_host (net n) (addr n);
  server_addr ← ok_or EAddrNotAvailable (head addrs);
  a ← to_any_addr_port (ASocket server_addr);
  socket ← bind (net n) a;
  Ok (ss_udp_new socket n server_addr).
End Connect.

(** ** The server *)

(* src/protocol/ss/src/server.rs:19-31 SSServerConfig *)
Record SSServerConfig : Type := mkSSServerConfig {
  sc_bind : Address; sc_password : bytes; sc_udp : bool; sc_cipher : Cipher; sc_net : nat; sc_listen : nat }.

(* src/protocol/ss/src/server.rs:33-39 SSServer *)
Record SSServer : Type := mkSSServer { s_bind : Address; s_key : bytes; s_method : Cipher; s_listen : nat; s_net : nat }.

(* src/protocol/ss/src/server.rs:52-65 SSServer::new *)
Definition ss_server_new (cfg : SSServerConfig) : res SSServer :=
  match key_of (sc_cipher cfg) (sc_password cfg) with
  | Err e => Err (map_other e)
  | Ok k => Ok (mkSSServer (sc_bind cfg) k (sc_cipher cfg) (sc_listen cfg) (sc_net cfg))
  end.

(** What becomes of a connection: it is relayed to another, whose first data
    is what is left of the stream, or it is closed. *)
Inductive Served : Type := Relayed (target : Address) (rest : bytes) | Refused (e : error).

(** [input]: the bytes that come in; the end of a stream that is not genuine
    is an error of the crate's. *)
(* src/protocol/ss/src/server.rs:103-125 SSServer::serve_connection *)
Definition ss_serve_connection (s : SSServer) (connect : Address -> res unit) (input : bytes) : Served :=
  match ss_open (s_method s) (s_key s) input with
  | None => Refused (EOther "decrypt error")
  | Some plain =>
    match s5_read plain with
    | Err e => Refused (to_io_err e)
    | Ok (target, rest) =>
      let target := match target with S5Domain d p => ADomain d p | S5Socket s => ASocket s end in
      match connect target with
      | Err e => Refused e
      | Ok _ => Relayed target rest
      end
    end
  end.

(** What runs: connections and datagrams, until one of the two ends. *)
Inductive Service : Type := ServeTcp (listen : nat) (bind : Address) | ServeUdp (listen : nat) (bind : Address).

(* src/protocol/ss/src/server.rs:43-48 SSServer::start *)
Definition ss_server_start (s : SSServer) : list Service := [ServeTcp (s_listen s) (s_bind s); ServeUdp (s_listen s) (s_bind s)].

(** ** Facts *)

Lemma ss_net_parts c n : ss_net_new c = Ok n ->
  key_of (nc_cipher c) (nc_password c) = Ok (key n) /\ method n = nc_cipher c /\ addr n = nc_server c /\ udp n = nc_udp c /\ net n = nc_net c.
Proof. unfold ss_net_new. destruct (key_of _ _) as [k|e] eqn:E; [|done]. by intros [= <-]. Qed.

Lemma ss_server_parts c s : ss_server_new c = Ok s ->
  key_of (sc_cipher c) (sc_password c) = Ok (s_key s) /\ s_method s = sc_cipher c.
Proof. unfold ss_server_new. destruct (key_of _ _) as [k|e] eqn:E; [|done]. by intros [= <-]. Qed.

Lemma ss_s5_address a : s5_of_ss (ss_address a) = ra2sa a /\ s5_address a = ra2sa a.
Proof. by destruct a. Qed.

(** A connection through a Shadowsocks net to its server is the connection
    asked for: made from the same password and the same name of a cipher, the
    net dials its server, and the server, once something is written, connects
    to the very address and relays exactly what is written. *)
Theorem ss_tcp_end_to_end {Stream} (dial : nat -> Address -> res Stream) c n sc s a conn salt writes connect :
  ss_net_new c = Ok n -> ss_server_new sc = Ok s ->
  nc_password c = sc_password sc -> cipher_name (nc_cipher c) = cipher_name (sc_cipher sc) ->
  s5_ok (ra2sa a) -> ss_tcp_connect dial n a = Ok conn -> writes <> [] ->
  dial (nc_net c) (nc_server c) = Ok (ss_inner conn) /\
  ss_serve_connection s connect (ss_tcp_wire conn salt writes) =
    match connect a with Ok _ => Relayed a (concat writes) | Err e => Refused e end.
Proof.
  intros Hn Hs Ep Ec%cipher_name_inj Ha E Hw.
  destruct (ss_net_parts c n Hn) as (Hk & Hm & Had & _ & Hnet). destruct (ss_server_parts sc s Hs) as (Hk' & Hm').
  assert (key n = s_key s) as Hkey by (rewrite Ep, Ec, Hk' in Hk; congruence).
  unfold ss_tcp_connect, mbind, res_bind in E. rewrite Had, Hnet in E. destruct (dial _ _) as [st|e] eqn:Ed; [|done].
  injection E as <-. cbn [ss_inner]. split; [done|].
  unfold ss_serve_connection, ss_tcp_wire. cbn [ss_method ss_key ss_target].
  destruct (s5_write_ok _ Ha) as [w Hww]. destruct (ss_s5_address a) as [Ea _].
  rewrite Hm, Hm', <- Ec, <- Hkey. rewrite (ss_client_open _ _ _ _ _ w Hw) by (by rewrite Ea).
  rewrite (s5_roundtrip _ _ (concat writes) Ha Hww). by destruct a.
Qed.

(** A net that is to have datagrams binds a socket that sends to the first
    address of its server. *)
Lemma ss_udp_bound {Socket} lookup (bind : nat -> Address -> res Socket) n a :
  match ss_udp_bind lookup bind n a with
  | Ok u => udp n = true /\ su_buf u = [] /\ su_key u = key n /\ su_method u = method n /\
      exists l, lookup (net n) (addr n) = Ok (su_server u :: l) /\
        bind (net n) (any_addr_port (su_server u)) = Ok (su_socket u)
  | Err e => udp n = false /\ e = ENotEnabled \/ udp n = true /\
      (lookup (net n) (addr n) = Err e \/ lookup (net n) (addr n) = Ok [] /\ e = EAddrNotAvailable \/
       exists s l, lookup (net n) (addr n) = Ok (s :: l) /\ bind (net n) (any_addr_port s) = Err e)
  end.
Proof.
  unfold ss_udp_bind, ensure, mbind, res_bind. destruct (udp n); [|by left]. destruct (lookup _ _) as [[|s l]|e]; cbn.
  - right. split; [done|]. right. by left.
  - destruct (bind (net n) (any_addr_port s)) as [u|e] eqn:E; cbn.
    + split; [done|]. split; [done|]. split; [done|]. split; [done|]. by exists l.
    + right. split; [done|]. right. right. by exists s, l.
  - right. split; [done|]. by left.
Qed.

(** The server serves datagrams whatever its configuration says about them. *)
Lemma ss_server_ignores_udp b p c n l :
  ss_server_new (mkSSServerConfig b p false c n l) = ss_server_new (mkSSServerConfig b p true c n l) /\
  forall s, In (ServeUdp (s_listen s) (s_bind s)) (ss_server_start s).
Proof. split; [done|]. intros s. right. by left. Qed.
End Net.

(** *** The cipher [none], whose streams are what they carry *)

#[export] Instance none_stream : @SSStream rfc1928.
Proof.
  refine {|
    ss_client_wire := fun _ _ _ a ws => match s5_write (s5_of_ss a) with Ok w => w ++ concat ws | Err _ => [] end;
    ss_server_wire := fun _ _ _ ws => concat ws;
    ss_open := fun _ _ x => Some x |}.
  - intros c key salt a ws w _ ->. done.
  - done.
Defined.

Definition sample_key (_ : Cipher) (p : bytes) : res bytes := Ok p.
Definition sample_net_config : SSNetConfig := mkSSNetConfig (ADomain (lit "ss.example.com") 8388) (lit "pw") false NONE 0.
Definition sample_server_config : SSServerConfig := mkSSServerConfig (ADomain (lit "localhost") 8388) (lit "pw") false NONE 0 0.

Lemma ss_tcp_end_to_end_witness :
  ss_serve_connection (mkSSServer (ADomain (lit "localhost") 8388) (lit "pw") NONE 0 0) (fun _ => Ok tt)
    (ss_tcp_wire (mkSSTcp unit tt (lit "pw") NONE (ss_address (ADomain (lit "example.com") 80))) [] [[1; 2]; [3]]) =
  Relayed (ADomain (lit "example.com") 80) [1; 2; 3].
Proof.
  destruct (ss_tcp_end_to_end sample_key (fun _ _ => Ok tt) sample_net_config
    (mkSSNet (lit "pw") NONE (ADomain (lit "ss.example.com") 8388) false 0) sample_server_config
    (mkSSServer (ADomain (lit "localhost") 8388) (lit "pw") NONE 0 0) (ADomain (lit "example.com") 80)
    (mkSSTcp unit tt (lit "pw") NONE (ss_address (ADomain (lit "example.com") 80))) [] [[1; 2]; [3]] (fun _ => Ok tt))
    as [_ H]; [reflexivity | reflexivity | reflexivity | reflexivity | | reflexivity | discriminate | exact H].
  split; [apply bytes_okb_spec; reflexivity|]. split; [unfold port_ok; lia|]. split; [reflexivity | cbn; lia].
Defined.
End SsNet.
