(* ===== verification/Trojan.v ===== *)
(** * Trojan: [protocol/trojan/src/]

    The request header, the TCP stream that sends it with the first data, the
    datagram codec and its socket ([client.rs], [client/tcp.rs],
    [client/udp.rs]), and the WebSocket transport ([websocket.rs]).  SHA-224,
    the address format ([S5Codec]), tokio's [Framed] and the WebSocket library
    are third-party. *)

From S2P Require Import Prelude Io Address Socks.

Module Trojan.

Definition CRLF : bytes := [13; 10].

(* src/protocol/trojan/src/client.rs:148-153 ra2sa *)
Definition ra2sa (a : Address) : S5Addr :=
  match a with ASocket s => S5Socket s | ADomain d p => S5Domain d p end.

(** ** The TCP stream *)

(** The stream's two halves come first; [tt_elapsed]: the 100 ms are over. *)
(* src/protocol/trojan/src/client/tcp.rs:8-13 TrojanTcp *)
Record TrojanTcp : Type := mkTrojanTcp {
  tt_w : Wr;
  tt_r : list rans;
  tt_head : option bytes;
  is_first : bool }.

(* src/protocol/trojan/src/client/tcp.rs:16-23 TrojanTcp::new *)
Definition trojan_tcp_new (w : Wr) (r : list rans) (head : bytes) : TrojanTcp := mkTrojanTcp w r (Some head) true.

(** The rounds of the loop; each takes an answer of the writer. *)
(* src/protocol/trojan/src/client/tcp.rs:29-55 TrojanTcp::poll_send_head (loop) *)
Fixpoint send_head_loop (fuel : nat) (w : Wr) (head : bytes) : Wr * bytes * poll (res unit) :=
  match fuel with
  | O => (w, head, Pending)
  | S fuel =>
    match inner_write w head with
    | (w, Pending) => (w, head, Pending)
    | (w, Ready (Err e)) => (w, head, Ready (Err e))
    | (w, Ready (Ok sent)) =>
      let head := drop sent head in
      match head with [] => (w, [], Ready (Ok tt)) | _ => send_head_loop fuel w head end
    end
  end.

(* src/protocol/trojan/src/client/tcp.rs:24-58 TrojanTcp::poll_send_head *)
Definition poll_send_head (s : TrojanTcp) (buf : bytes) : TrojanTcp * poll (res nat) :=
  match tt_head s with
  | None => (s, Ready (Ok 0%nat))
  | Some head =>
    let head := if is_first s then head ++ buf else head in
    match send_head_loop (S (length (w_script (tt_w s)))) (tt_w s) head with
    | (w, _, Ready (Ok _)) => (mkTrojanTcp w (tt_r s) None false, Ready (Ok (length buf)))
    | (w, head, Ready (Err e)) => (mkTrojanTcp w (tt_r s) (Some head) false, Ready (Err e))
    | (w, head, Pending) => (mkTrojanTcp w (tt_r s) (Some head) false, Pending)
    end
  end.

(* src/protocol/trojan/src/client/tcp.rs:71-83 TrojanTcp::poll_read *)
Definition trojan_poll_read (elapsed : bool) (cap : nat) (s : TrojanTcp) : TrojanTcp * poll (res bytes) :=
  let '(s, p) := if elapsed then poll_send_head s [] else (s, Ready (Ok 0%nat)) in
  match p with
  | Pending => (s, Pending)
  | Ready (Err e) => (s, Ready (Err e))
  | Ready (Ok _) =>
    let '(r, d) := inner_read cap (tt_r s) in
    (mkTrojanTcp (tt_w s) r (tt_head s) (is_first s), d)
  end.

(* src/protocol/trojan/src/client/tcp.rs:85-96 TrojanTcp::poll_write *)
Definition trojan_poll_write (s : TrojanTcp) (buf : bytes) : TrojanTcp * poll (res nat) :=
  match poll_send_head s buf with
  | (s, Pending) => (s, Pending)
  | (s, Ready (Err e)) => (s, Ready (Err e))
  | (s, Ready (Ok len)) =>
    if (0 <? len)%nat then (s, Ready (Ok len))
    else
      let '(w, p) := inner_write (tt_w s) buf in
      (mkTrojanTcp w (tt_r s) (tt_head s) (is_first s), p)
  end.

(** ** Headers and datagrams *)

Section Codec.
Context `{S5Codec}.

(** [password] is the hexadecimal digest kept in [TrojanNet]. *)
(* src/protocol/trojan/src/client.rs:121-133 TrojanNet::make_head *)
Definition make_head (password : bytes) (cmd : Z) (addr : S5Addr) : res bytes :=
  match s5_write addr with
  | Err e => Err e
  | Ok w => Ok (password ++ CRLF ++ [cmd] ++ w ++ CRLF)
  end.

(* src/protocol/trojan/src/client/udp.rs:11-11 UDP_MAX_SIZE *)
Definition UDP_MAX_SIZE : Z := 65535.

(** [head]: what is still to go in front of the first datagram. *)
(* src/protocol/trojan/src/client/udp.rs:20-49 UdpCodec::encode *)
Definition udp_encode (head : bytes) (item : bytes * Address) (dst : bytes) : bytes * bytes * res unit :=
  if UDP_MAX_SIZE <? Z.of_nat (length item.1) then (head, dst, Err EInvalidData)
  else
    match s5_write (ra2sa item.2) with
    | Err e => (head, dst, Err e)
    | Ok w =>
      ([], dst ++ head ++ w ++ be_bytes 2 (Z.of_nat (length item.1)) ++ CRLF ++ item.1, Ok tt)
    end.

(** [decode]'s result: more input is needed, an item, an error, or a panic
    of [split_to] or [get_u16]. *)
Inductive udp_decoded : Type :=
| DMore
| DItem (payload : bytes) (from : SocketAddr)
| DErr (e : error)
| DPanic.

(** [to_sa] is the address's [to_socket_addr].  What a failing read of the
    address leaves of the buffer does not matter: a [Framed] ends with an
    error. *)
(* src/protocol/trojan/src/client/udp.rs:62-93 UdpCodec::decode *)
Definition udp_decode (to_sa : S5Addr -> res SocketAddr) (src : bytes) : bytes * udp_decoded :=
  match src with
  | h0 :: h1 :: _ =>
    match (if h0 =? 1 then Some 7 else if h0 =? 3 then Some (1 + h1 + 2) else if h0 =? 4 then Some 19 else None) with
    | None => (src, DErr EInvalidData)
    | Some addr_size =>
      let addr_size := Z.to_nat addr_size in
      if (length src <? addr_size + 4)%nat then (src, DMore)
      else
        let len := Z.to_nat (be_val (take 2 (drop addr_size src))) in
        if (length src <? addr_size + 4 + len)%nat then (src, DMore)
        else
          match s5_read src with
          | Err e => (src, DErr e)
          | Ok (address, src) =>
            if (length src <? 4 + len)%nat then (src, DPanic)
            else
              let src := drop 4 src in
              match to_sa address with
              | Err e => (drop len src, DErr e)
              | Ok a => (drop len src, DItem (take len src) a)
              end
          end
    end
  | _ => (src, DMore)
  end.

End Codec.

(** ** The datagram socket *)

(** The codec's head and the framed writer's buffer; [flush] and [ready] are
    what [Framed] answers, [next] its next item. *)
(* src/protocol/trojan/src/client/udp.rs:96-99 TrojanUdp *)
Record TrojanUdp : Type := mkTrojanUdp { tu_head : bytes; tu_wire : bytes; tu_flushing : bool }.

(* src/protocol/trojan/src/client/udp.rs:102-108 TrojanUdp::new *)
Definition trojan_udp_new (head : bytes) : TrojanUdp := mkTrojanUdp head [] false.

(* src/protocol/trojan/src/client/udp.rs:117-133 TrojanUdp::poll_recv_from *)
Definition trojan_udp_recv (cap : nat) (next : poll (option (res (bytes * SocketAddr)))) : poll (res (bytes * SocketAddr)) :=
  match next with
  | Pending => Pending
  | Ready None => Ready (Err EUnexpectedEof)
  | Ready (Some (Err e)) => Ready (Err e)
  | Ready (Some (Ok (d, from))) => Ready (Ok (take cap d, from))
  end.

(** The part of the loop that waits for the flush. *)
(* src/protocol/trojan/src/client/udp.rs:142-146 TrojanUdp::poll_send_to (flushing) *)
Definition trojan_udp_flush (flush : poll (res unit)) (s : TrojanUdp) (buf : bytes) : TrojanUdp * poll (res nat) :=
  match flush with
  | Pending => (s, Pending)
  | Ready (Err e) => (s, Ready (Err e))
  | Ready (Ok _) => (mkTrojanUdp (tu_head s) (tu_wire s) false, Ready (Ok (length buf)))
  end.

(* src/protocol/trojan/src/client/udp.rs:135-152 TrojanUdp::poll_send_to *)
Definition trojan_udp_send `{S5Codec} (ready flush : poll (res unit)) (s : TrojanUdp) (buf : bytes) (target : Address)
    : TrojanUdp * poll (res nat) :=
  if tu_flushing s then trojan_udp_flush flush s buf
  else
    match ready with
    | Pending => (s, Pending)
    | Ready (Err e) => (s, Ready (Err e))
    | Ready (Ok _) =>
      match udp_encode (tu_head s) (buf, target) (tu_wire s) with
      | (head, wire, Err e) => (mkTrojanUdp head wire false, Ready (Err e))
      | (head, wire, Ok _) => trojan_udp_flush flush (mkTrojanUdp head wire true) buf
      end
    end.

(** ** The WebSocket transport *)

Inductive WsMsg : Type := WsBinary (b : bytes) | WsClose | WsOther.

(** What the client's stream of messages answers. *)
Inductive WsAns : Type := WsPending | WsMessage (m : WsMsg) | WsErr (e : error) | WsEnd.

(** The messages handed to the client, the bytes read ahead, and how many
    bytes the message being flushed has. *)
(* src/protocol/trojan/src/websocket.rs:13-17 WebSocketStream *)
Record WebSocketStream : Type := mkWs { ws_sent : list bytes; ws_read : bytes; ws_wrote : nat }.

(** The messages until one with data, or an end. *)
(* src/protocol/trojan/src/websocket.rs:39-51 WebSocketStream::poll_read (messages) *)
Fixpoint ws_next (r : list WsAns) : list WsAns * poll (res (option bytes)) :=
  match r with
  | [] => ([], Pending)
  | WsPending :: r => (r, Pending)
  | WsErr e :: r => (r, Ready (Err e))
  | WsEnd :: r => (r, Ready (Ok None))
  | WsMessage (WsBinary b) :: r => (r, Ready (Ok (Some b)))
  | WsMessage WsClose :: r => (r, Ready (Ok None))
  | WsMessage WsOther :: r => ws_next r
  end.

(** [first]: how long the first of the queue's two slices is. *)
(* src/protocol/trojan/src/websocket.rs:33-64 WebSocketStream::poll_read *)
Definition ws_poll_read (first cap : nat) (s : WebSocketStream) (r : list WsAns)
    : WebSocketStream * list WsAns * poll (res bytes) :=
  let '(s, r, p) :=
    match ws_read s with
    | [] =>
      match ws_next r with
      | (r, Ready (Ok (Some b))) => (mkWs (ws_sent s) b (ws_wrote s), r, Ready (Ok true))
      | (r, Ready (Ok None)) => (s, r, Ready (Ok false))
      | (r, Ready (Err e)) => (s, r, Ready (Err e))
      | (r, Pending) => (s, r, Pending)
      end
    | _ => (s, r, Ready (Ok true))
    end in
  match p with
  | Pending => (s, r, Pending)
  | Ready (Err e) => (s, r, Ready (Err e))
  | Ready (Ok false) => (s, r, Ready (Ok []))
  | Ready (Ok true) =>
    let to_read := Nat.min (Nat.min first (length (ws_read s))) cap in
    (mkWs (ws_sent s) (drop to_read (ws_read s)) (ws_wrote s), r, Ready (Ok (take to_read (ws_read s))))
  end.

(* src/protocol/trojan/src/websocket.rs:72-91 WebSocketStream::poll_write *)
Definition ws_poll_write (ready flush : poll (res unit)) (s : WebSocketStream) (buf : bytes)
    : WebSocketStream * poll (res nat) :=
  let '(s, p) :=
    if (ws_wrote s =? 0)%nat then
      match ready with
      | Ready (Ok _) => (mkWs (ws_sent s ++ [buf]) (ws_read s) (length buf), Ready (Ok tt))
      | r => (s, r)
      end
    else (s, Ready (Ok tt)) in
  match p with
  | Pending => (s, Pending)
  | Ready (Err e) => (s, Ready (Err e))
  | Ready (Ok _) =>
    match flush with
    | Pending => (s, Pending)
    | Ready (Err e) => (s, Ready (Err e))
    | Ready (Ok _) => (mkWs (ws_sent s) (ws_read s) 0, Ready (Ok (ws_wrote s)))
    end
  end.

(** ** The stream's life *)

(** The bytes of a write's buffer that were taken. *)
Definition taken (buf : bytes) (p : poll (res nat)) : bytes :=
  match p with Ready (Ok n) => take n buf | _ => [] end.

(** How far the header is: not begun; begun by a call that adds [first] to it;
    or out, the call that finished it having been called with [told]. *)
Inductive header : Type := Unsent | Sending (first : bytes) | Sent (first told : bytes).

Definition header_next (h : header) (s' : TrojanTcp) (buf : bytes) : header :=
  match h, tt_head s' with
  | Unsent, Some _ => if is_first s' then Unsent else Sending buf
  | Unsent, None => Sent buf buf
  | Sending first, Some _ => Sending first
  | Sending first, None => Sent first buf
  | Sent first told, _ => Sent first told
  end.

(** A history of a TCP stream: the stream, what its writes have accepted,
    what its reads have given, and how far the header is.  Reads and writes
    come in any order; a read sends the header, with nothing added, once the
    100 ms are over. *)
Inductive tstep : TrojanTcp * bytes * bytes * header -> TrojanTcp * bytes * bytes * header -> Prop :=
| ts_write s acc rd h buf s' p :
    trojan_poll_write s buf = (s', p) -> tstep (s, acc, rd, h) (s', acc ++ taken buf p, rd, header_next h s' buf)
| ts_read s acc rd h elapsed cap s' p :
    trojan_poll_read elapsed cap s = (s', p) ->
    tstep (s, acc, rd, h) (s', acc, rd ++ match p with Ready (Ok d) => d | _ => [] end, header_next h s' []).

Definition tinv (w0 head r0 : bytes) (x : TrojanTcp * bytes * bytes * header) : Prop :=
  let '(s, acc, rd, h) := x in
  rd ++ r_bytes (tt_r s) = r0 /\
  match h, tt_head s with
  | Unsent, Some k => acc = [] /\ is_first s = true /\ w_out (tt_w s) = w0 /\ k = head
  | Sending first, Some k => acc = [] /\ is_first s = false /\ w_out (tt_w s) ++ k = w0 ++ head ++ first
  | Sent first told, None => exists later, w_out (tt_w s) = w0 ++ head ++ first ++ later /\ acc = told ++ later
  | _, _ => False
  end.

Lemma send_head_loop_out fuel : forall w head w' h' p, send_head_loop fuel w head = (w', h', p) ->
  w_out w' ++ h' = w_out w ++ head /\ match p with Ready (Ok _) => h' = [] | _ => True end.
Proof.
  induction fuel as [|fuel IH]; intros w head w' h' p; cbn [send_head_loop]; [by intros [= <- <- <-]|].
  destruct (inner_write w head) as [w1 [|[n|e]]] eqn:Ew; apply inner_write_out in Ew;
    [intros [= <- <- <-]; by rewrite Ew | | intros [= <- <- <-]; by rewrite Ew].
  destruct Ew as [Hn Ew]. assert (Hd : w_out w1 ++ drop n head = w_out w ++ head)
    by (by rewrite Ew, <- app_assoc, take_drop).
  destruct (drop n head) as [|c h] eqn:Eh.
  - intros [= <- <- <-]. split; [by rewrite Hd|done].
  - rewrite <- Eh in *. intros E. apply IH in E as [E1 E2]. by rewrite E1, Hd.
Qed.

(** What goes out with the header. *)
Definition added (h : header) (buf : bytes) : bytes := match h with Sending first => first | _ => buf end.

(** One call that sends the header. *)
Lemma poll_send_head_inv w0 head r0 s acc rd h buf s' p :
  tinv w0 head r0 (s, acc, rd, h) -> poll_send_head s buf = (s', p) ->
  tt_r s' = tt_r s /\
  match tt_head s with
  | None => s' = s /\ p = Ready (Ok 0%nat)
  | Some _ =>
    acc = [] /\ is_first s' = false /\ (forall f t, h <> Sent f t) /\
    match tt_head s' with
    | None => p = Ready (Ok (length buf)) /\ w_out (tt_w s') = w0 ++ head ++ added h buf
    | Some k => w_out (tt_w s') ++ k = w0 ++ head ++ added h buf /\ forall n, p <> Ready (Ok n)
    end
  end.
Proof.
  intros [Hr Hi]. unfold poll_send_head. destruct (tt_head s) as [k|]; [|by intros [= <- <-]].
  assert (Hh : acc = [] /\ (forall f t, h <> Sent f t) /\
    w_out (tt_w s) ++ (if is_first s then k ++ buf else k) = w0 ++ head ++ added h buf).
  { destruct h as [|f|f t]; [| |done]; destruct Hi as (-> & -> & Hi); (split; [done|]; split; [done|]);
      [by destruct Hi as [-> ->]|done]. }
  destruct Hh as (-> & Hns & Hh).
  destruct (send_head_loop _ _ _) as [[w k'] q] eqn:E. apply send_head_loop_out in E as [E1 E2]. rewrite Hh in E1.
  destruct q as [|[[]|e]]; intros [= <- <-]; cbn; repeat split; try done.
  subst k'. by rewrite app_nil_r in E1.
Qed.

(** The history after such a call. *)
Lemma header_next_inv w0 head r0 s acc rd h buf s' p :
  tinv w0 head r0 (s, acc, rd, h) -> poll_send_head s buf = (s', p) ->
  tt_r s' = tt_r s /\
  match p with
  | Ready (Ok n) => tinv w0 head r0 (s', acc ++ take n buf, rd, header_next h s' buf) /\ tt_head s' = None /\
      (n = length buf \/ n = 0%nat)
  | _ => tinv w0 head r0 (s', acc, rd, header_next h s' buf)
  end.
Proof.
  intros Hi E. destruct (poll_send_head_inv _ _ _ _ _ _ _ _ _ _ Hi E) as [Hr Hs]. destruct Hi as [Hrd Hi].
  split; [done|]. rewrite <- Hr in Hrd. destruct (tt_head s) as [k|] eqn:Ek.
  - destruct Hs as (-> & Hf & Hns & Hs). destruct (tt_head s') as [k'|] eqn:Ek'.
    + destruct Hs as [Ho Hp]. destruct p as [|[n|e]]; [|by destruct (Hp n)|]; (split; [done|]);
        destruct h as [|f|f t]; [| |by destruct (Hns f t) | | |by destruct (Hns f t)]; cbn in *; rewrite ?Ek', ?Hf; done.
    + destruct Hs as [-> Ho]. split; [|by auto]. split; [done|]. cbn. rewrite firstn_all.
      destruct h as [|f|f t]; [| |by destruct (Hns f t)]; cbn in *; rewrite ?Ek'; cbn; rewrite ?Ek';
        exists []; by rewrite !app_nil_r.
  - destruct Hs as [-> ->]. split; [|by auto]. split; [done|]. destruct h as [|f|f t]; [done|done|]. cbn in *. rewrite Ek.
    destruct Hi as (later & Hw & Ha). exists later. by rewrite app_nil_r.
Qed.

(** What comes after the header: a write or a read of the stream below. *)
Lemma tinv_write w0 head r0 s acc rd h buf w p :
  tinv w0 head r0 (s, acc, rd, h) -> tt_head s = None -> inner_write (tt_w s) buf = (w, p) ->
  tinv w0 head r0 (mkTrojanTcp w (tt_r s) (tt_head s) (is_first s), acc ++ taken buf p, rd, h).
Proof.
  intros [Hr Hi] Hh E. apply inner_write_out in E. split; [done|]. cbn. rewrite Hh in *. destruct h as [|f|f t]; [done|done|].
  destruct Hi as (later & Ho & ->). destruct p as [|[n|e]]; cbn; [|destruct E as [_ E]|];
    [exists later; by rewrite E, app_nil_r | exists (later ++ take n buf) | exists later; by rewrite E, app_nil_r].
  by rewrite E, Ho, <- !app_assoc.
Qed.

Lemma tinv_read w0 head r0 s acc rd h cap r d :
  tinv w0 head r0 (s, acc, rd, h) -> inner_read cap (tt_r s) = (r, d) ->
  tinv w0 head r0 (mkTrojanTcp (tt_w s) r (tt_head s) (is_first s), acc,
    rd ++ match d with Ready (Ok d) => d | _ => [] end, h).
Proof.
  intros [Hr Hi] E. apply inner_read_bytes in E. split; [|done]. cbn. rewrite <- Hr.
  destruct d as [|[d|e]]; [by rewrite E, app_nil_r| |by rewrite E, app_nil_r]. destruct E as [-> _]. by rewrite <- app_assoc.
Qed.

Lemma header_next_same s h buf w r : header_next h (mkTrojanTcp w r (tt_head s) (is_first s)) buf = header_next h s buf.
Proof. done. Qed.

Lemma tstep_inv w0 head r0 x y : tstep x y -> tinv w0 head r0 x -> tinv w0 head r0 y.
Proof.
  intros [s acc rd h buf s' p Hp | s acc rd h elapsed cap s' p Hp] Hi.
  - unfold trojan_poll_write in Hp. destruct (poll_send_head s buf) as [s1 q] eqn:E.
    destruct (header_next_inv _ _ _ _ _ _ _ _ _ _ Hi E) as [_ Hs].
    destruct q as [|[n|e]]; [injection Hp as <- <-; by rewrite app_nil_r| |injection Hp as <- <-; by rewrite app_nil_r].
    destruct Hs as (Hs & Hh & Hn). destruct (0 <? n)%nat eqn:E0; [by injection Hp as <- <-|].
    destruct (inner_write (tt_w s1) buf) as [w q] eqn:Ew. injection Hp as <- <-. rewrite header_next_same.
    apply Nat.ltb_ge in E0. assert (n = 0%nat) as -> by lia. rewrite take_0, app_nil_r in Hs. by apply tinv_write.
  - unfold trojan_poll_read in Hp. destruct elapsed.
    + destruct (poll_send_head s []) as [s1 q] eqn:E. destruct (header_next_inv _ _ _ _ _ _ _ _ _ _ Hi E) as [_ Hs].
      destruct q as [|[n|e]]; [injection Hp as <- <-; by rewrite app_nil_r| |injection Hp as <- <-; by rewrite app_nil_r].
      destruct Hs as (Hs & _). rewrite firstn_nil, app_nil_r in Hs.
      destruct (inner_read cap (tt_r s1)) as [r d] eqn:Er. injection Hp as <- <-. rewrite header_next_same. by eapply tinv_read.
    + destruct (inner_read cap (tt_r s)) as [r d] eqn:Er. injection Hp as <- <-. rewrite header_next_same.
      assert (header_next h s [] = h) as ->.
      { destruct Hi as [_ Hi]. unfold header_next. destruct h as [|f|f t], (tt_head s); try done. by destruct Hi as (_ & -> & _). }
      by eapply tinv_read.
Qed.

(** C29: A Trojan stream, in every history of reads and writes: the server has
    received a prefix of the header and of [first], the data of the call
    that began to send it, while nothing has been accepted from the caller;
    and once the header is out, the header, [first], and exactly the bytes
    accepted since.  The caller has been told, of the data sent along with
    the header, that [told] was accepted, the data of the call that finished
    it: so what the server has received is the header and exactly the bytes
    accepted if and only if the call that finished the header had the data
    of the one that began it.  What is read is what the server
    sent, in order. *)
Theorem trojan_tcp_exact w r head s acc rd h :
  w_out w = [] -> rtc tstep (trojan_tcp_new w r head, [], [], Unsent) (s, acc, rd, h) ->
  rd ++ r_bytes (tt_r s) = r_bytes r /\
  match h, tt_head s with
  | Unsent, Some _ => acc = [] /\ w_out (tt_w s) = []
  | Sending first, Some rest => acc = [] /\ w_out (tt_w s) ++ rest = head ++ first
  | Sent first told, None =>
    (exists later, w_out (tt_w s) = head ++ first ++ later /\ acc = told ++ later) /\
    (w_out (tt_w s) = head ++ acc <-> first = told)
  | _, _ => False
  end.
Proof.
  intros Hw Hs. assert (Hi : tinv [] head (r_bytes r) (s, acc, rd, h)).
  { apply (rtc_ind_r (fun y => tinv [] head (r_bytes r) y) (trojan_tcp_new w r head, [], [], Unsent)) in Hs; [done|done|].
    intros y z _ Hyz Hy. by eapply tstep_inv. }
  destruct Hi as [Hr Hi]. split; [done|]. destruct h as [|f|f t], (tt_head s) as [k|]; try done; [by destruct Hi as (? & _ & ? & _)|by destruct Hi as (? & _ & ?)|].
  destruct Hi as (later & Ho & Ha). cbn in Ho. split; [by exists later|]. rewrite Ho, Ha. split; [|by intros ->].
  intros E%app_inv_head. by apply app_inv_tail in E.
Qed.

(** A write that finds the header half sent by a read is answered with
    success, though its data never went out. *)
Lemma trojan_write_lost :
  let s0 := trojan_tcp_new (mkWr [] [WOk 2; WPending; WOk 100; WOk 100] false) [] [1; 2; 3] in
  let '(s1, p1) := trojan_poll_read true 100 s0 in
  let '(s2, p2) := trojan_poll_write s1 [7; 8] in
  p1 = Pending /\ p2 = Ready (Ok 2%nat) /\ w_out (tt_w s2) = [1; 2; 3].
Proof. vm_compute. repeat split. Qed.

(** A write whose header a read finishes in between is sent twice when it is
    repeated. *)
Lemma trojan_write_twice :
  let s0 := trojan_tcp_new (mkWr [] [WOk 2; WPending; WOk 100; WOk 100] false) [] [1; 2; 3] in
  let '(s1, p1) := trojan_poll_write s0 [7; 8] in
  let '(s2, p2) := trojan_poll_read true 100 s1 in
  let '(s3, p3) := trojan_poll_write s2 [7; 8] in
  p1 = Pending /\ p3 = Ready (Ok 2%nat) /\ w_out (tt_w s3) = [1; 2; 3; 7; 8; 7; 8].
Proof. vm_compute. repeat split. Qed.

(** ** Datagrams *)

Section Datagrams.
Context `{S5Codec} (to_sa : S5Addr -> res SocketAddr) (to_sa_socket : forall s, to_sa (S5Socket s) = Ok s).

Definition udp_ok (x : bytes * SocketAddr) : Prop := sa_ok x.2 /\ Z.of_nat (length x.1) <= UDP_MAX_SIZE.

Definition udp_frame (x : bytes * SocketAddr) : bytes := (udp_encode [] (x.1, ASocket x.2) []).1.2.

Definition udp_item (src : bytes) : bytes * option (bytes * SocketAddr) :=
  match udp_decode to_sa src with
  | (src, DItem d a) => (src, Some (d, a))
  | (src, _) => (src, None)
  end.

(** A frame's parts. *)
Lemma udp_frame_parts d a : udp_ok (d, a) -> exists t w,
  s5_write (S5Socket a) = Ok (t :: w) /\ (t = 1 /\ length w = 6%nat \/ t = 4 /\ length w = 18%nat) /\
  udp_frame (d, a) = (t :: w) ++ be_bytes 2 (Z.of_nat (length d)) ++ CRLF ++ d.
Proof.
  intros [_ Hl]. unfold udp_frame, udp_encode. cbn [fst snd ra2sa] in *. rewrite (proj2 (Z.ltb_ge _ _)) by done.
  destruct a as [[x|x] p]; [rewrite s5_write_v4 | rewrite s5_write_v6];
    (eexists _, _; split; [done|]); (split; [|done]); [left|right]; (split; [done|]);
    by rewrite length_app, !length_be_bytes.
Qed.

(** How [decode] starts on a buffer with the first bytes of a frame. *)
Lemma udp_decode_start t (w src k : bytes) : (t = 1 /\ length w = 6%nat \/ t = 4 /\ length w = 18%nat) ->
  src = t :: k -> k <> [] ->
  udp_decode to_sa src =
    let n := S (length w) in
    if (length src <? n + 4)%nat then (src, DMore)
    else
      let len := Z.to_nat (be_val (take 2 (drop n src))) in
      if (length src <? n + 4 + len)%nat then (src, DMore)
      else
        match s5_read src with
        | Err e => (src, DErr e)
        | Ok (address, src) =>
          if (length src <? 4 + len)%nat then (src, DPanic)
          else
            let src := drop 4 src in
            match to_sa address with
            | Err e => (drop len src, DErr e)
            | Ok a => (drop len src, DItem (take len src) a)
            end
        end.
Proof.
  intros Ht -> Hk. destruct k as [|h1 k]; [done|]. unfold udp_decode.
  by destruct Ht as [[-> Hw] | [-> Hw]]; rewrite Hw.
Qed.

Lemma udp_item_frame x rest : udp_ok x -> udp_item (udp_frame x ++ rest) = (rest, Some x).
Proof.
  destruct x as [d a]. intros Hx. destruct (udp_frame_parts d a Hx) as (t & w & Hw & Ht & ->). destruct Hx as [Ha Hl].
  unfold UDP_MAX_SIZE in Hl. cbn [fst snd] in *.
  set (body := be_bytes 2 (Z.of_nat (length d)) ++ CRLF ++ d).
  assert (Hlb : length body = (4 + length d)%nat) by (unfold body; rewrite !length_app, length_be_bytes; done).
  unfold udp_item. rewrite <- app_assoc.
  rewrite (udp_decode_start t w _ (w ++ body ++ rest) Ht); [|done|by destruct w; [destruct Ht as [[_ ?]|[_ ?]]|]].
  cbv zeta. rewrite (proj2 (Nat.ltb_ge _ _)) by (rewrite !length_app; cbn; lia).
  assert (Hlen : Z.to_nat (be_val (take 2 (drop (S (length w)) ((t :: w) ++ body ++ rest)))) = length d).
  { change (S (length w)) with (length (t :: w)). rewrite drop_app_length. unfold body. rewrite <- app_assoc.
    rewrite (take_app_length' (be_bytes 2 _)) by (by rewrite length_be_bytes). rewrite be_val_be_bytes; [lia|].
    cbn. lia. }
  rewrite Hlen, (proj2 (Nat.ltb_ge _ _)) by (rewrite !length_app; cbn; lia).
  rewrite (s5_roundtrip (S5Socket a) _ (body ++ rest) Ha Hw), (proj2 (Nat.ltb_ge _ _)) by (rewrite length_app; lia).
  rewrite to_sa_socket.
  assert (Hd : drop 4 (body ++ rest) = d ++ rest).
  { unfold body. rewrite !app_assoc, <- (app_assoc _ d). apply drop_app_length'. by rewrite length_app, length_be_bytes. }
  by rewrite Hd, drop_app_length, take_app_length.
Qed.

Lemma udp_item_prefix x p q : udp_ok x -> udp_frame x = p ++ q -> q <> [] -> udp_item p = (p, None).
Proof.
  destruct x as [d a]. intros Hx. destruct (udp_frame_parts d a Hx) as (t & w & Hw & Ht & ->). destruct Hx as [_ Hl].
  unfold UDP_MAX_SIZE in Hl. cbn [fst snd] in *. intros E Hq. unfold udp_item.
  destruct p as [|t' p]; [done|]. destruct p as [|h p]; [done|]. cbn [app] in E.
  pose proof (f_equal (List.hd 0) E) as E0. apply (f_equal (@List.tl Z)) in E. cbn [List.hd List.tl] in E0, E. subst t'.
  rewrite (udp_decode_start t w _ (h :: p) Ht) by done. cbv zeta.
  destruct (length (t :: h :: p) <? S (length w) + 4)%nat eqn:E1; [done|]. apply Nat.ltb_ge in E1.
  assert (Hlen : Z.to_nat (be_val (take 2 (drop (S (length w)) (t :: h :: p)))) = length d).
  { cbn [drop]. assert (Hp : take (length w + 2) (h :: p) = w ++ be_bytes 2 (Z.of_nat (length d))).
    { apply (f_equal (take (length w + 2))) in E. change (h :: p ++ q) with ((h :: p) ++ q) in E.
      rewrite (take_app_le (h :: p)) in E by (cbn in *; lia). rewrite <- E, app_assoc.
      apply take_app_length'. rewrite length_app, length_be_bytes. lia. }
    assert (Hp' : take 2 (drop (length w) (h :: p)) = be_bytes 2 (Z.of_nat (length d))).
    { rewrite take_drop_commute, Hp. apply drop_app_length. }
    rewrite Hp'. rewrite be_val_be_bytes; [lia|]. cbn. lia. }
  rewrite Hlen. apply (f_equal length) in E. revert E. change (h :: p ++ q) with ((h :: p) ++ q).
  rewrite !length_app, length_be_bytes. cbn [length CRLF]. intros E.
  rewrite (proj2 (Nat.ltb_lt _ _)); [done|]. destruct q; [done|]. cbn in *. lia.
Qed.

End Datagrams.

(** Sending datagrams through a connection that is never busy. *)
Definition udp_send_all `{S5Codec} (s : TrojanUdp) (l : list (bytes * Address)) : TrojanUdp :=
  fold_left (fun s x => (trojan_udp_send (Ready (Ok tt)) (Ready (Ok tt)) s x.1 x.2).1) l s.

(** Trojan datagrams: the first goes out behind the header, each is
    framed by its address and length, and a stream of such frames from socket
    addresses, cut into pieces of any size, is decoded to exactly the
    datagrams that were framed, in order; a datagram above 65535 bytes is
    refused and sends nothing. *)
Theorem trojan_udp_roundtrip `{S5Codec} to_sa (to_sa_socket : forall s, to_sa (S5Socket s) = Ok s) head l pieces :
  Forall udp_ok l ->
  tu_wire (udp_send_all (trojan_udp_new head) (map (fun x => (x.1, ASocket x.2)) l)) =
    (if bool_decide (l = []) then [] else head) ++ concat (map udp_frame l) /\
  (concat pieces = concat (map udp_frame l) ->
    fold_left (feed (udp_item to_sa)) pieces ([], []) = ([], l)) /\
  (forall s big a, UDP_MAX_SIZE < Z.of_nat (length big) -> tu_flushing s = false ->
    trojan_udp_send (Ready (Ok tt)) (Ready (Ok tt)) s big a = (s, Ready (Err EInvalidData))).
Proof.
  intros Hl. split; [|split].
  - assert (Hs : forall l hd wire, Forall udp_ok l ->
      udp_send_all (mkTrojanUdp hd wire false) (map (fun x => (x.1, ASocket x.2)) l) =
      mkTrojanUdp (if bool_decide (l = []) then hd else [])
        (wire ++ (if bool_decide (l = []) then [] else hd) ++ concat (map udp_frame l)) false).
    { clear. induction l as [|[d a] l IH]; intros hd wire Hl; [cbn; by rewrite app_nil_r|].
      apply Forall_cons in Hl as [[Ha Hd] Hl]. cbn [map]. unfold udp_send_all in *. cbn [fold_left].
      unfold trojan_udp_send at 2. cbn [tu_flushing tu_head tu_wire]. unfold udp_encode. cbn [fst snd ra2sa] in *.
      rewrite (proj2 (Z.ltb_ge _ _)) by done. destruct (s5_write_ok (S5Socket a) Ha) as (w & Hw). rewrite Hw.
      cbn [trojan_udp_flush fst]. rewrite IH by done. rewrite (bool_decide_false (_ :: _ = [])) by done.
      assert (Hf : udp_frame (d, a) = w ++ be_bytes 2 (Z.of_nat (length d)) ++ CRLF ++ d).
      { unfold udp_frame, udp_encode. cbn [fst snd ra2sa]. rewrite (proj2 (Z.ltb_ge _ _)) by done. by rewrite Hw. }
      cbn [concat map]. rewrite Hf. destruct (bool_decide (l = [])); cbn [tu_head tu_wire]; rewrite ?app_nil_l, <- !app_assoc; reflexivity. }
    unfold trojan_udp_new. rewrite Hs by done. cbn [tu_wire]. by rewrite app_nil_l.
  - intros E. rewrite (feed_pieces (udp_item to_sa) udp_frame udp_ok) with (l := l); try done.
    + intros x rest Hx. by apply udp_item_frame.
    + intros x p q Hx. by apply udp_item_prefix.
    + intros x Hx E'. pose proof (udp_item_frame to_sa to_sa_socket x [] Hx) as E1. by rewrite E' in E1.
    + by left.
  - intros [hd wire fl] big a Hb Hf. cbn in Hf. subst fl. unfold trojan_udp_send, udp_encode. cbn [tu_flushing tu_head tu_wire fst].
    by rewrite (proj2 (Z.ltb_lt _ _)).
Qed.

(** *** Samples *)

Definition sample_to_sa (a : S5Addr) : res SocketAddr :=
  match a with S5Socket s => Ok s | S5Domain _ _ => Err EAddrNotAvailable end.

Lemma trojan_udp_roundtrip_witness :
  let l := [([7; 8], sample_sa 9); ([], sample_sa 3)] in
  fold_left (feed (udp_item sample_to_sa)) (map (fun b => [b]) (concat (map udp_frame l))) ([], []) = ([], l).
Proof.
  intros l. apply (trojan_udp_roundtrip sample_to_sa (fun s => eq_refl) [] l).
  - apply List.Forall_forall. intros x [<- | [<- | []]]; (split; [split; [cbn; lia | unfold port_ok; cbn; lia] | cbn; unfold UDP_MAX_SIZE; lia]).
  - vm_compute. reflexivity.
Defined.

(** A write that is repeated, and a read that flushes the header in between
    and is finished by a write. *)
Lemma trojan_tcp_exact_witness : exists s s',
  rtc tstep (trojan_tcp_new (mkWr [] [WOk 2; WPending; WOk 100] false) [] [1; 2; 3], [], [], Unsent) (s, [7], [], Sent [7] [7]) /\
  w_out (tt_w s) = [1; 2; 3] ++ [7] /\
  rtc tstep (trojan_tcp_new (mkWr [] [WOk 2; WPending; WOk 100; WOk 100] false) [] [1; 2; 3], [], [], Unsent)
    (s', [7; 8], [], Sent [] [7; 8]) /\
  (w_out (tt_w s') = [1; 2; 3] ++ [7; 8] <-> [] = [7; 8]).
Proof.
  set (s0 := trojan_tcp_new (mkWr [] [WOk 2; WPending; WOk 100] false) [] [1; 2; 3]).
  set (s1 := (trojan_poll_write s0 [7]).1). set (s2 := (trojan_poll_write s1 [7]).1).
  set (t0 := trojan_tcp_new (mkWr [] [WOk 2; WPending; WOk 100; WOk 100] false) [] [1; 2; 3]).
  set (t1 := (trojan_poll_read true 100 t0).1). set (t2 := (trojan_poll_write t1 [7; 8]).1). exists s2, t2.
  assert (Hr : rtc tstep (s0, [], [], Unsent) (s2, [7], [], Sent [7] [7])).
  { eapply rtc_l; [exact (ts_write s0 [] [] Unsent [7] s1 Pending eq_refl)|].
    eapply rtc_l; [exact (ts_write s1 [] [] (Sending [7]) [7] s2 (Ready (Ok 1%nat)) eq_refl)|]. apply rtc_refl. }
  assert (Ht : rtc tstep (t0, [], [], Unsent) (t2, [7; 8], [], Sent [] [7; 8])).
  { eapply rtc_l; [exact (ts_read t0 [] [] Unsent true 100 t1 Pending eq_refl)|].
    eapply rtc_l; [exact (ts_write t1 [] [] (Sending []) [7; 8] t2 (Ready (Ok 2%nat)) eq_refl)|]. apply rtc_refl. }
  split; [exact Hr|]. split; [reflexivity|]. split; [exact Ht|].
  destruct (trojan_tcp_exact (mkWr [] [WOk 2; WPending; WOk 100; WOk 100] false) [] [1; 2; 3] t2 [7; 8] [] (Sent [] [7; 8]) eq_refl Ht) as [_ [_ H]].
  exact H.
Defined.

(** A frame from a domain is not understood: its address is taken to be one
    byte shorter than it is.  Complete frames wait for more input, give an
    empty datagram and leave their payload to be read as a frame, or panic. *)
Lemma trojan_domain_misread :
  let frame port := (udp_encode [] ([7; 8], ADomain (lit "a.b") port) []).1.2 in
  udp_decode sample_to_sa (frame 53) = (frame 53, DMore) /\
  udp_decode (fun _ => Ok (sample_sa 9)) (frame 256) = ([7; 8], DItem [] (sample_sa 9)) /\
  (udp_decode sample_to_sa (take 10 (frame 256))).2 = DPanic.
Proof. vm_compute. repeat split. Qed.

(** A datagram given up while it is being flushed takes the next one's place. *)
Lemma trojan_send_stale (a b : bytes) (target : Address) s :
  tu_flushing s = true -> trojan_udp_send (Ready (Ok tt)) (Ready (Ok tt)) s b target =
    (mkTrojanUdp (tu_head s) (tu_wire s) false, Ready (Ok (length b))).
Proof. intros E. unfold trojan_udp_send. by rewrite E. Qed.

End Trojan.
Export Trojan.
