(* ===== verification/Relay.v ===== *)
(** * Relaying between streams: [rd-std/src/context/connect_tcp.rs]

    The loops that copy between two streams.  The other ends are scripts of
    the answers they will give, so that a theorem over all scripts is one over
    all behaviours; a loop that has no fuel left answers [None], and is shown
    never to.  The scripted streams serve other files too. *)

From S2P Require Import Prelude Io Address Lru.

Module Relay.

(** ** Streams *)

(** A reader, and whether its last answer was pending. *)
Record Src : Type := mkSrc { src_r : list rans; src_wait : bool }.

(** A writer: what it took, how much of that it has flushed, whether it was
    shut down, and whether its last answer was pending. *)
Record Snk : Type := mkSnk {
  sk_out : bytes;
  sk_writes : list wans;
  sk_flushes : list (poll (res unit));
  sk_shutdowns : list (poll (res unit));
  sk_flushed : nat;
  sk_closed : bool;
  sk_wait : bool }.

Definition pending_read (p : poll (res bytes)) : bool := match p with Pending => true | _ => false end.

Definition src_read (cap : nat) (s : Src) : Src * poll (res bytes) :=
  let '(r, p) := inner_read cap (src_r s) in (mkSrc r (pending_read p), p).

Definition snk_write (s : Snk) (buf : bytes) : Snk * poll (res nat) :=
  match sk_writes s with
  | WErr e :: l => (mkSnk (sk_out s) l (sk_flushes s) (sk_shutdowns s) (sk_flushed s) (sk_closed s) false, Ready (Err e))
  | WOk n :: l =>
    let n := Nat.min n (length buf) in
    (mkSnk (sk_out s ++ take n buf) l (sk_flushes s) (sk_shutdowns s) (sk_flushed s) (sk_closed s) false, Ready (Ok n))
  | l => (mkSnk (sk_out s) (tail l) (sk_flushes s) (sk_shutdowns s) (sk_flushed s) (sk_closed s) true, Pending)
  end.

Definition snk_flush (s : Snk) : Snk * poll (res unit) :=
  match sk_flushes s with
  | Ready (Err e) :: l => (mkSnk (sk_out s) (sk_writes s) l (sk_shutdowns s) (sk_flushed s) (sk_closed s) false, Ready (Err e))
  | Ready (Ok _) :: l => (mkSnk (sk_out s) (sk_writes s) l (sk_shutdowns s) (length (sk_out s)) (sk_closed s) false, Ready (Ok tt))
  | l => (mkSnk (sk_out s) (sk_writes s) (tail l) (sk_shutdowns s) (sk_flushed s) (sk_closed s) true, Pending)
  end.

Definition snk_shutdown (s : Snk) : Snk * poll (res unit) :=
  match sk_shutdowns s with
  | Ready (Err e) :: l => (mkSnk (sk_out s) (sk_writes s) (sk_flushes s) l (sk_flushed s) (sk_closed s) false, Ready (Err e))
  | Ready (Ok _) :: l => (mkSnk (sk_out s) (sk_writes s) (sk_flushes s) l (sk_flushed s) true false, Ready (Ok tt))
  | l => (mkSnk (sk_out s) (sk_writes s) (sk_flushes s) (tail l) (sk_flushed s) (sk_closed s) true, Pending)
  end.

(** ** TCP *)

(** [cb_buf] is [buf[..cap]]. *)
(* src/rd-std/src/context/connect_tcp.rs:15-22 CopyBuffer *)
Record CopyBuffer : Type := mkCopy { read_done : bool; need_flush : bool; cb_pos : nat; cb_buf : bytes; amt : Z }.

(* src/rd-std/src/context/connect_tcp.rs:25-34 CopyBuffer::new *)
Definition copy_new : CopyBuffer := mkCopy false false 0 [] 0.

(** The [while] loop that writes the buffer out. *)
(* src/rd-std/src/context/connect_tcp.rs:78-90 CopyBuffer::poll_copy (write loop) *)
Fixpoint write_out (fuel : nat) (c : CopyBuffer) (w : Snk) : option (CopyBuffer * Snk * poll (res unit)) :=
  if (cb_pos c <? length (cb_buf c))%nat then
    match fuel with
    | O => None
    | S fuel =>
      match snk_write w (drop (cb_pos c) (cb_buf c)) with
      | (w, Pending) => Some (c, w, Pending)
      | (w, Ready (Err e)) => Some (c, w, Ready (Err e))
      | (w, Ready (Ok O)) => Some (c, w, Ready (Err EWriteZero))
      | (w, Ready (Ok i)) =>
        write_out fuel (mkCopy (read_done c) true (cb_pos c + i) (cb_buf c) ((amt c + Z.of_nat i) mod 2 ^ 64)) w
      end
    end
  else Some (c, w, Ready (Ok tt)).

(** The part of a round that reads; [size] is the buffer's. *)
(* src/rd-std/src/context/connect_tcp.rs:47-75 CopyBuffer::poll_copy (reading) *)
Definition read_in (size : nat) (c : CopyBuffer) (r : Src) (w : Snk) : CopyBuffer * Src * Snk * poll (res unit) :=
  if (cb_pos c =? length (cb_buf c))%nat && negb (read_done c) then
    match src_read size r with
    | (r, Ready (Err e)) => (c, r, w, Ready (Err e))
    | (r, Pending) =>
      if need_flush c then
        match snk_flush w with
        | (w, Pending) => (c, r, w, Pending)
        | (w, Ready (Err e)) => (c, r, w, Ready (Err e))
        | (w, Ready (Ok _)) => (mkCopy (read_done c) false (cb_pos c) (cb_buf c) (amt c), r, w, Pending)
        end
      else (c, r, w, Pending)
    | (r, Ready (Ok [])) => (mkCopy true (need_flush c) (cb_pos c) (cb_buf c) (amt c), r, w, Ready (Ok tt))
    | (r, Ready (Ok d)) => (mkCopy (read_done c) (need_flush c) 0 d (amt c), r, w, Ready (Ok tt))
    end
  else (c, r, w, Ready (Ok tt)).

(* src/rd-std/src/context/connect_tcp.rs:36-100 CopyBuffer::poll_copy *)
Fixpoint poll_copy (fuel size : nat) (c : CopyBuffer) (r : Src) (w : Snk)
    : option (CopyBuffer * Src * Snk * poll (res Z)) :=
  match fuel with
  | O => None
  | S fuel =>
    match read_in size c r w with
    | (c, r, w, Pending) => Some (c, r, w, Pending)
    | (c, r, w, Ready (Err e)) => Some (c, r, w, Ready (Err e))
    | (c, r, w, Ready (Ok _)) =>
      match write_out (length (cb_buf c)) c w with
      | None => None
      | Some (c, w, Pending) => Some (c, r, w, Pending)
      | Some (c, w, Ready (Err e)) => Some (c, r, w, Ready (Err e))
      | Some (c, w, Ready (Ok _)) =>
        if (cb_pos c =? length (cb_buf c))%nat && read_done c then
          match snk_flush w with
          | (w, Pending) => Some (c, r, w, Pending)
          | (w, Ready (Err e)) => Some (c, r, w, Ready (Err e))
          | (w, Ready (Ok _)) => Some (c, r, w, Ready (Ok (amt c)))
          end
        else poll_copy fuel size c r w
      end
    end
  end.

(* src/rd-std/src/context/connect_tcp.rs:103-107 TransferState *)
Inductive TransferState : Type := Transferring (c : CopyBuffer) | ShuttingDown (n : Z) | TransferDone (n : Z).

(** The rounds a poll can take before it answers: one per answer of the
    reader, as an answer larger than the buffer counts for each of its parts. *)
Definition copy_fuel (r : Src) : nat := S (S (length (src_r r) + length (r_bytes (src_r r)))).

(* src/rd-std/src/context/connect_tcp.rs:116-143 transfer_one_direction *)
Definition transfer_one_direction (size : nat) (st : TransferState) (r : Src) (w : Snk)
    : option (TransferState * Src * Snk * poll (res Z)) :=
  let shut st r w n :=
    match snk_shutdown w with
    | (w, Pending) => Some (st, r, w, Pending)
    | (w, Ready (Err e)) => Some (st, r, w, Ready (Err e))
    | (w, Ready (Ok _)) => Some (TransferDone n, r, w, Ready (Ok n))
    end in
  match st with
  | Transferring c =>
    match poll_copy (copy_fuel r) size c r w with
    | None => None
    | Some (c, r, w, Pending) => Some (Transferring c, r, w, Pending)
    | Some (c, r, w, Ready (Err e)) => Some (Transferring c, r, w, Ready (Err e))
    | Some (c, r, w, Ready (Ok n)) => shut (ShuttingDown n) r w n
    end
  | ShuttingDown n => shut st r w n
  | TransferDone n => Some (st, r, w, Ready (Ok n))
  end.

(** Two streams, each with its reader and its writer. *)
(* src/rd-std/src/context/connect_tcp.rs:109-114 CopyBidirectional *)
Record CopyBidirectional : Type := mkBidi {
  bi_ar : Src; bi_aw : Snk; bi_br : Src; bi_bw : Snk;
  a_to_b : TransferState; b_to_a : TransferState }.

(* src/rd-std/src/context/connect_tcp.rs:152-168 CopyBidirectional::poll *)
Definition bidi_poll (size : nat) (s : CopyBidirectional) : option (CopyBidirectional * poll (res unit)) :=
  match transfer_one_direction size (a_to_b s) (bi_ar s) (bi_bw s) with
  | None => None
  | Some (ab, ar, bw, p) =>
    let s := mkBidi ar (bi_aw s) (bi_br s) bw ab (b_to_a s) in
    match p with
    | Ready (Err e) => Some (s, Ready (Err e))
    | _ =>
      match transfer_one_direction size (b_to_a s) (bi_br s) (bi_aw s) with
      | None => None
      | Some (ba, br, aw, q) =>
        let s := mkBidi (bi_ar s) aw br (bi_bw s) (a_to_b s) ba in
        match q with
        | Ready (Err e) => Some (s, Ready (Err e))
        | _ =>
          match p, q with
          | Pending, Pending => Some (s, Pending)
          | _, _ => Some (s, Ready (Ok tt))
          end
        end
      end
    end
  end.

(** [connect_tcp] relays with buffers of 8192 bytes. *)
(* src/rd-std/src/context/connect_tcp.rs:173-192 connect_tcp *)
Definition bidi_new (ar br : list rans) (aw bw : Snk) : CopyBidirectional :=
  mkBidi (mkSrc ar false) aw (mkSrc br false) bw (Transferring copy_new) (Transferring copy_new).

(** *** Lemmas *)

(** What a reader gives up to its end of file, an empty read. *)
Fixpoint r_stream (r : list rans) : bytes :=
  match r with
  | [] => []
  | RData [] :: _ => []
  | RData d :: s => d ++ r_stream s
  | _ :: s => r_stream s
  end.

Definition answers (r : list rans) : nat := (length r + length (r_bytes r))%nat.

Lemma src_read_spec cap r r' p : (0 < cap)%nat -> src_read cap r = (r', p) ->
  match p with
  | Pending => r_stream (src_r r) = r_stream (src_r r') /\ src_wait r' = true
  | Ready (Err _) => r_stream (src_r r) = r_stream (src_r r')
  | Ready (Ok []) => r_stream (src_r r) = []
  | Ready (Ok d) => r_stream (src_r r) = d ++ r_stream (src_r r') /\ (answers (src_r r') < answers (src_r r))%nat
  end.
Proof.
  intros Hc. unfold src_read, inner_read, answers. destruct (src_r r) as [|[|e|d] l]; cbn; try (by intros [= <- <-]).
  destruct (length d <=? cap)%nat eqn:E; intros [= <- <-]; bools.
  - destruct d as [|x d]; [done|]. cbn. split; [done|]. rewrite length_app. lia.
  - destruct d as [|x d]; [cbn in E; lia|]. destruct cap as [|cap]; [lia|]. cbn [take src_r r_stream].
    cbn in E. assert (Hd : drop (S cap) (x :: d) <> []) by (intros E'; apply (f_equal length) in E'; revert E'; len).
    cbn [drop] in *. destruct (drop cap d) as [|y d'] eqn:Ed; [done|]. split.
    + rewrite <- Ed. cbn. f_equal. by rewrite app_assoc, take_drop.
    + rewrite <- Ed. cbn. rewrite !length_app. len.
Qed.

Definition cinv (all : bytes) (c : CopyBuffer) (r : Src) (w : Snk) : Prop :=
  (cb_pos c <= length (cb_buf c))%nat /\
  sk_out w ++ drop (cb_pos c) (cb_buf c) ++ (if read_done c then [] else r_stream (src_r r)) = all /\
  (need_flush c = false -> sk_flushed w = length (sk_out w)) /\
  amt c = Z.of_nat (length (sk_out w)) mod 2 ^ 64.

Lemma snk_write_spec w buf w' p : snk_write w buf = (w', p) ->
  sk_flushed w' = sk_flushed w /\
  match p with
  | Pending => sk_out w' = sk_out w /\ sk_wait w' = true
  | Ready (Err _) => sk_out w' = sk_out w
  | Ready (Ok n) => (n <= length buf)%nat /\ sk_out w' = sk_out w ++ take n buf
  end.
Proof.
  unfold snk_write. destruct (sk_writes w) as [|[|e|n] l]; intros [= <- <-]; cbn; try done.
  repeat split. lia.
Qed.

Lemma snk_flush_spec w w' p : snk_flush w = (w', p) ->
  sk_out w' = sk_out w /\
  match p with
  | Pending => sk_wait w' = true /\ sk_flushed w' = sk_flushed w
  | Ready (Err _) => sk_flushed w' = sk_flushed w
  | Ready (Ok _) => sk_flushed w' = length (sk_out w)
  end.
Proof. unfold snk_flush. by destruct (sk_flushes w) as [|[|[?|?]] l]; intros [= <- <-]. Qed.

Lemma write_out_spec all r fuel : forall c w, cinv all c r w -> (length (cb_buf c) - cb_pos c <= fuel)%nat ->
  exists c' w' p, write_out fuel c w = Some (c', w', p) /\ cinv all c' r w' /\
    cb_buf c' = cb_buf c /\ read_done c' = read_done c /\
    match p with
    | Pending => sk_wait w' = true
    | Ready (Ok _) => cb_pos c' = length (cb_buf c')
    | Ready (Err _) => True
    end.
Proof.
  induction fuel as [|fuel IH]; intros c w Hi Hf; cbn [write_out]; pose proof Hi as (Hp & Ha & Hn & Hm);
    destruct (cb_pos c <? length (cb_buf c))%nat eqn:E; bools.
  1: lia.
  1, 3: exists c, w, (Ready (Ok tt)); repeat split; try done; lia.
  destruct (snk_write w (drop (cb_pos c) (cb_buf c))) as [w1 q] eqn:Ew. apply snk_write_spec in Ew as [Hfl Hq].
  destruct q as [|[n|e]].
  - exists c, w1, Pending. destruct Hq as [Ho Hw]. repeat split; rewrite ?Ho, ?Hfl; try done.
  - destruct Hq as [Hn' Ho]. destruct n as [|n].
    + exists c, w1, (Ready (Err EWriteZero)). rewrite take_0, app_nil_r in Ho. repeat split; rewrite ?Ho, ?Hfl; done.
    + rewrite length_drop in Hn'.
      destruct (IH (mkCopy (read_done c) true (cb_pos c + S n) (cb_buf c) ((amt c + Z.of_nat (S n)) mod 2 ^ 64)) w1)
        as (c' & w' & p & E1 & Hi' & Hb & Hr & Hpost); [|cbn; lia|by exists c', w', p].
      split; [cbn; lia|]. split; [|split; [done|]].
      * cbn [cb_pos cb_buf read_done]. rewrite Ho, <- drop_drop, <- app_assoc.
        rewrite (app_assoc (take _ _)), take_drop. exact Ha.
      * cbn [amt]. rewrite Hm, Ho, length_app, length_take, length_drop, Z.add_mod_idemp_l by lia. f_equal. lia.
  - exists c, w1, (Ready (Err e)). repeat split; rewrite ?Hq, ?Hfl; done.
Qed.

Lemma read_in_spec all size c r w c' r' w' p : (0 < size)%nat -> cinv all c r w ->
  read_in size c r w = (c', r', w', p) -> cinv all c' r' w' /\
  match p with
  | Pending => sk_wait w' = true \/ src_wait r' = true /\ cb_pos c' = length (cb_buf c') /\ sk_flushed w' = length (sk_out w')
  | Ready (Ok _) =>
    ((cb_pos c <? length (cb_buf c))%nat = true /\ r' = r \/ read_done c' = true \/
     (answers (src_r r') < answers (src_r r))%nat)
  | Ready (Err _) => True
  end.
Proof.
  intros Hs Hi. pose proof Hi as (Hp & Ha & Hn & Hm). unfold read_in.
  destruct ((cb_pos c =? length (cb_buf c))%nat && negb (read_done c)) eqn:E.
  2: { intros [= <- <- <- <-]. split; [done|]. apply andb_false_iff in E as [E|E].
       - left. split; [|done]. apply Nat.eqb_neq in E. apply Nat.ltb_lt. lia.
       - right. left. by destruct (read_done c). }
  apply andb_true_iff in E as [E H]. bools. destruct (src_read size r) as [r1 q] eqn:Er. apply src_read_spec in Er; [|done].
  rewrite E, drop_all in Ha. rewrite H in Ha. cbn in Ha.
  assert (Hd : drop (cb_pos c) (cb_buf c) = []) by (by rewrite E, drop_all).
  destruct q as [|[d|e]].
  - destruct Er as [Er Hw]. destruct (need_flush c) eqn:Enf.
    + destruct (snk_flush w) as [w1 q] eqn:Ef. apply snk_flush_spec in Ef as [Ho Hq].
      destruct q as [|[[]|e]]; intros [= <- <- <- <-].
      * destruct Hq as [Hwt Hfl]. split; [|by left]. split; [done|]. rewrite Hd, H, Ho, <- Er. split; [done|].
        split; [by rewrite Enf|done].
      * split; [|right; cbn; rewrite Hq, Ho; done]. split; [done|]. cbn. rewrite Hd, H, Ho, <- Er, Hq.
        split; [done|]. split; [done|done].
      * split; [|done]. split; [done|]. rewrite Hd, H, Ho, <- Er. split; [done|]. split; [by rewrite Enf|done].
    + intros [= <- <- <- <-]. split; [|right; auto]. split; [done|]. rewrite Hd, H, <- Er. split; [done|]. by rewrite Enf.
  - destruct d as [|x d]; intros [= <- <- <- <-].
    + split; [|right; by left]. split; [done|]. cbn. rewrite Hd, Er, app_nil_r in *. split; [done|]. done.
    + destruct Er as [Er Hlt]. split; [|right; by right]. split; [cbn; lia|]. cbn [cb_pos cb_buf read_done drop need_flush amt].
      rewrite H, <- Er. split; [done|]. done.
  - intros [= <- <- <- <-]. split; [|done]. split; [done|]. rewrite Hd, H, <- Er. split; [done|]. done.
Qed.

(** What keeps a transfer waiting: the writer, or the reader with everything
    it gave written and flushed. *)
Definition waits (c : CopyBuffer) (r : Src) (w : Snk) : Prop :=
  sk_wait w = true \/ src_wait r = true /\ cb_pos c = length (cb_buf c) /\ sk_flushed w = length (sk_out w).

Lemma poll_copy_spec all size fuel : (0 < size)%nat -> forall c r w, cinv all c r w ->
  (answers (src_r r) + (if (cb_pos c <? length (cb_buf c))%nat then 1 else 0) < fuel)%nat ->
  exists c' r' w' p, poll_copy fuel size c r w = Some (c', r', w', p) /\ cinv all c' r' w' /\
    match p with
    | Pending => waits c' r' w'
    | Ready (Ok n) => sk_out w' = all /\ sk_flushed w' = length all /\ n = Z.of_nat (length all) mod 2 ^ 64
    | Ready (Err _) => True
    end.
Proof.
  intros Hs. induction fuel as [|fuel IH]; intros c r w Hi Hf; [lia|]. cbn [poll_copy].
  destruct (read_in size c r w) as [[[c1 r1] w1] q] eqn:Er. apply (read_in_spec all) in Er as [Hi1 Hq]; [|done..].
  destruct q as [|[[]|e]]; [by exists c1, r1, w1, Pending| |by exists c1, r1, w1, (Ready (Err e))].
  destruct (write_out_spec all r1 (length (cb_buf c1)) c1 w1 Hi1) as (c2 & w2 & p & E & Hi2 & Hb & Hrd & Hpost); [lia|].
  rewrite E. destruct p as [|[[]|e]]; [exists c2, r1, w2, Pending; split; [done|]; split; [done|by left]| |by exists c2, r1, w2, (Ready (Err e))].
  rewrite Hpost, Nat.eqb_refl. cbn [andb]. destruct (read_done c2) eqn:Ed.
  - destruct (snk_flush w2) as [w3 q] eqn:Ef. apply snk_flush_spec in Ef as [Ho Hq3]. destruct Hi2 as (Hp2 & Ha2 & Hn2 & Hm2).
    assert (Hall : sk_out w2 = all) by (rewrite Hpost, drop_all, Ed in Ha2; by rewrite !app_nil_r in Ha2).
    destruct q as [|[[]|e]].
    + exists c2, r1, w3, Pending. destruct Hq3 as [Hw Hfl]. split; [done|]. split; [|by left]. split; [done|].
      rewrite Ho, Hfl. done.
    + exists c2, r1, w3, (Ready (Ok (amt c2))). split; [done|]. split; [split; [done|]; by rewrite Ho, Hq3|].
      rewrite Ho, Hq3, Hm2, Hall. done.
    + exists c2, r1, w3, (Ready (Err e)). split; [done|]. split; [|done]. split; [done|]. by rewrite Ho, Hq3.
  - apply IH; [done|]. rewrite Hpost, Nat.ltb_irrefl. destruct Hq as [[Hlt ->] | [Hrd1 | Hlt]].
    + rewrite Hlt in Hf. lia.
    + congruence.
    + lia.
Qed.

(** The state of one direction: what was written is the start of the stream,
    and all of it, flushed, once the copying is over. *)
Definition dinv (all : bytes) (st : TransferState) (r : Src) (w : Snk) : Prop :=
  match st with
  | Transferring c => cinv all c r w
  | ShuttingDown n | TransferDone n =>
    sk_out w = all /\ sk_flushed w = length all /\ n = Z.of_nat (length all) mod 2 ^ 64 /\
    (match st with TransferDone _ => sk_closed w = true | _ => True end)
  end.

Definition dwaits (st : TransferState) (r : Src) (w : Snk) : Prop :=
  match st with
  | Transferring c => waits c r w
  | ShuttingDown _ => sk_wait w = true
  | TransferDone _ => False
  end.

Lemma snk_shutdown_spec w w' p : snk_shutdown w = (w', p) ->
  sk_out w' = sk_out w /\ sk_flushed w' = sk_flushed w /\
  match p with Pending => sk_wait w' = true | Ready (Ok _) => sk_closed w' = true | _ => True end.
Proof. unfold snk_shutdown. by destruct (sk_shutdowns w) as [|[|[?|?]] l]; intros [= <- <-]. Qed.

Lemma transfer_spec all size st r w : (0 < size)%nat -> dinv all st r w ->
  exists st' r' w' p, transfer_one_direction size st r w = Some (st', r', w', p) /\ dinv all st' r' w' /\
    match p with
    | Pending => dwaits st' r' w'
    | Ready (Ok n) => st' = TransferDone n
    | Ready (Err _) => True
    end.
Proof.
  intros Hs Hi. unfold transfer_one_direction.
  assert (Hshut : forall st0 r0 w0 n, st0 = ShuttingDown n -> dinv all st0 r0 w0 ->
    exists st' r' w' p, match snk_shutdown w0 with
      | (w, Pending) => Some (st0, r0, w, Pending)
      | (w, Ready (Err e)) => Some (st0, r0, w, Ready (Err e))
      | (w, Ready (Ok _)) => Some (TransferDone n, r0, w, Ready (Ok n))
      end = Some (st', r', w', p) /\ dinv all st' r' w' /\
      match p with Pending => dwaits st' r' w' | Ready (Ok n) => st' = TransferDone n | Ready (Err _) => True end).
  { intros st0 r0 w0 n -> (Ho & Hfl & Hn & _). destruct (snk_shutdown w0) as [w1 q] eqn:E.
    apply snk_shutdown_spec in E as (Ho1 & Hfl1 & Hq).
    destruct q as [|[[]|e]]; eexists _, _, _, _; (split; [done|]); cbn; rewrite Ho1, Hfl1; auto. }
  destruct st as [c|n|n].
  - destruct (poll_copy_spec all size (copy_fuel r) Hs c r w Hi) as (c' & r' & w' & p & E & Hi' & Hp).
    { unfold copy_fuel, answers. destruct (cb_pos c <? length (cb_buf c))%nat; lia. }
    rewrite E. destruct p as [|[n|e]]; [by exists (Transferring c'), r', w', Pending| |by exists (Transferring c'), r', w', (Ready (Err e))].
    apply Hshut; [done|]. by destruct Hp as (? & ? & ?).
  - by apply Hshut.
  - exists (TransferDone n), r, w, (Ready (Ok n)). done.
Qed.

(** Both directions, [a] and [b] being what each side sends. *)
Definition bidi_inv (a b : bytes) (s : CopyBidirectional) : Prop :=
  dinv a (a_to_b s) (bi_ar s) (bi_bw s) /\ dinv b (b_to_a s) (bi_br s) (bi_aw s).

(** Polling [n] times, as long as the relay goes on. *)
Fixpoint bidi_polls (n size : nat) (s : CopyBidirectional) : option (CopyBidirectional * poll (res unit)) :=
  match n with
  | O => Some (s, Pending)
  | S n =>
    match bidi_poll size s with
    | Some (s, Pending) => bidi_polls n size s
    | r => r
    end
  end.

Lemma bidi_poll_spec a b size s : (0 < size)%nat -> bidi_inv a b s ->
  exists s' p, bidi_poll size s = Some (s', p) /\ bidi_inv a b s' /\
    match p with
    | Pending => dwaits (a_to_b s') (bi_ar s') (bi_bw s') /\ dwaits (b_to_a s') (bi_br s') (bi_aw s')
    | Ready (Ok _) => (exists n, a_to_b s' = TransferDone n) \/ (exists n, b_to_a s' = TransferDone n)
    | Ready (Err _) => True
    end.
Proof.
  intros Hs [Ha Hb]. unfold bidi_poll.
  destruct (transfer_spec a size _ _ _ Hs Ha) as (ab & ar & bw & p & E & Ha' & Hp). rewrite E.
  destruct (transfer_spec b size _ _ _ Hs Hb) as (ba & br & aw & q & E2 & Hb' & Hq). cbn [b_to_a bi_br bi_aw] in *.
  destruct p as [|[n|e]]; [..|by eexists _, _; split; [done|]; split]; rewrite E2;
    (destruct q as [|[m|e']]; eexists _, _; (split; [done|]); (split; [done|]); cbn; eauto).
Qed.

(** C4: A TCP relay, over any behaviour of its two sides (reads and writes of
    any size, answers that are pending, errors) and however often it is
    polled: it never spins; each side receives a prefix of what the other
    sends, in order; while it waits, each direction waits for its writer, or
    for its reader with all that was read written and flushed, so nothing is
    held back; and when it ends without an error one direction is complete:
    all that its side sent, up to the end of file, has been written, flushed
    and shut down. *)
Theorem relay_tcp_exact size n (ar br : list rans) (aw bw : Snk) :
  (0 < size)%nat -> sk_out aw = [] -> sk_out bw = [] -> sk_flushed aw = 0%nat -> sk_flushed bw = 0%nat ->
  exists s p, bidi_polls n size (bidi_new ar br aw bw) = Some (s, p) /\
    sk_out (bi_bw s) `prefix_of` r_stream ar /\ sk_out (bi_aw s) `prefix_of` r_stream br /\
    match p with
    | Pending => (0 < n)%nat -> dwaits (a_to_b s) (bi_ar s) (bi_bw s) /\ dwaits (b_to_a s) (bi_br s) (bi_aw s)
    | Ready (Ok _) =>
      sk_out (bi_bw s) = r_stream ar /\ sk_flushed (bi_bw s) = length (r_stream ar) /\ sk_closed (bi_bw s) = true \/
      sk_out (bi_aw s) = r_stream br /\ sk_flushed (bi_aw s) = length (r_stream br) /\ sk_closed (bi_aw s) = true
    | Ready (Err _) => True
    end.
Proof.
  intros Hs Ha Hb Hfa Hfb.
  assert (Hi : bidi_inv (r_stream ar) (r_stream br) (bidi_new ar br aw bw)).
  { split; (split; [done|]); cbn; rewrite ?Ha, ?Hb, ?Hfa, ?Hfb; done. }
  assert (Hpre : forall all st r w, dinv all st r w -> sk_out w `prefix_of` all).
  { intros all [c|m|m] r w; [intros (_ & <- & _); by eexists | by intros (-> & _) ..]. }
  enough (Hg : forall s0, bidi_inv (r_stream ar) (r_stream br) s0 ->
    exists s p, bidi_polls n size s0 = Some (s, p) /\ bidi_inv (r_stream ar) (r_stream br) s /\
      match p with
      | Pending => (0 < n)%nat -> dwaits (a_to_b s) (bi_ar s) (bi_bw s) /\ dwaits (b_to_a s) (bi_br s) (bi_aw s)
      | Ready (Ok _) => (exists n, a_to_b s = TransferDone n) \/ (exists n, b_to_a s = TransferDone n)
      | Ready (Err _) => True
      end).
  { destruct (Hg _ Hi) as (s & p & E & [Hia Hib] & Hp). exists s, p. split; [done|]. split; [by eapply Hpre|].
    split; [by eapply Hpre|]. destruct p as [|[[]|e]]; [done| |done].
    destruct Hp as [[m Hm]|[m Hm]]; [left; rewrite Hm in Hia; destruct Hia as (? & ? & _ & ?)
      | right; rewrite Hm in Hib; destruct Hib as (? & ? & _ & ?)]; done. }
  clear Hi. induction n as [|n IH]; intros s0 Hi; [exists s0, Pending; split; [done|]; split; [done|lia]|].
  destruct (bidi_poll_spec _ _ size s0 Hs Hi) as (s1 & p & E & Hi1 & Hp). cbn [bidi_polls]. rewrite E.
  destruct p as [|r]; [|by exists s1, (Ready r)].
  destruct n as [|n]; [by exists s1, Pending|]. destruct (IH s1 Hi1) as (s & p & E2 & Hi2 & Hp2).
  exists s, p. split; [done|]. split; [done|]. destruct p as [|[|]]; [|done..]. intros _. apply Hp2. lia.
Qed.

(** [a] sends three bytes in two reads and then its end, over a writer that
    takes a byte at a time and is pending in between. *)
Definition relay_sample_ar : list rans := [RData [1; 2]; RPending; RData [3]; RData []].
Definition relay_sample_w : Snk :=
  mkSnk [] [WOk 1; WPending; WOk 1; WOk 5] [Ready (Ok tt); Ready (Ok tt)] [Ready (Ok tt)] 0 false false.

Example relay_sample_run :
  exists s, bidi_polls 4 (8 * 1024) (bidi_new relay_sample_ar [] relay_sample_w relay_sample_w) = Some (s, Ready (Ok tt)) /\
    sk_out (bi_bw s) = [1; 2; 3] /\ sk_closed (bi_bw s) = true.
Proof. eexists. vm_compute. done. Qed.

Example relay_tcp_exact_witness :
  exists s p, bidi_polls 4 (8 * 1024) (bidi_new relay_sample_ar [] relay_sample_w relay_sample_w) = Some (s, p) /\
    sk_out (bi_bw s) `prefix_of` r_stream relay_sample_ar.
Proof.
  destruct (relay_tcp_exact (8 * 1024) 4 relay_sample_ar [] relay_sample_w relay_sample_w) as (s & p & E & H & _);
    [lia | reflexivity .. |].
  exists s, p. split; [exact E | exact H].
Defined.

End Relay.
Export Relay.
