(* ===== verification/Tls.v ===== *)
(** * TLS over a net: [rd-std/src/tls.rs] and [tls/rustls.rs]

    The net that speaks TLS over another, its verifier of certificates and
    [PushingStream], which flushes each write.  The TLS library, rustls, is a
    parameter; [Snk] is the stream of its connection. *)

From S2P Require Import Prelude Text Io Address Relay.

Module Tls.

(** ** Verifiers *)

(** What the library asks of a verifier of certificates.  [Cert], [Sig] and
    [ServerName] are the library's. *)
Class TlsLib : Type := {
  ServerName : Type;
  Cert : Type;
  Sig : Type;
  server_name : bytes -> option ServerName;
  webpki_chain : Cert -> list Cert -> ServerName -> Z -> bool;
  webpki_tls12 : bytes -> Cert -> Sig -> bool;
  webpki_tls13 : bytes -> Cert -> Sig -> bool;
  webpki_schemes : list Z;
  server_name_bracket s : server_name (91 :: s) = None }.

Section Net.
Context {TL : TlsLib}.

Record Verifier : Type := mkVerifier {
  verify_server_cert : Cert -> list Cert -> ServerName -> Z -> bool;
  verify_tls12_signature : bytes -> Cert -> Sig -> bool;
  verify_tls13_signature : bytes -> Cert -> Sig -> bool;
  supported_verify_schemes : list Z }.

Definition webpki : Verifier := mkVerifier webpki_chain webpki_tls12 webpki_tls13 webpki_schemes.

(* src/rd-std/src/tls/rustls.rs:22-56 AllowAnyCert (part) *)
Definition allow_any_cert (inner : Verifier) : Verifier :=
  mkVerifier (fun _ _ _ _ => true) (verify_tls12_signature inner) (verify_tls13_signature inner) (supported_verify_schemes inner).

(* src/rd-std/src/tls/rustls.rs:70-92 TlsConnector::new *)
Definition tls_connector_new (skip_cert_verify : bool) : Verifier :=
  if skip_cert_verify then allow_any_cert webpki else webpki.

(** [PushingStream]'s state: what the inner stream took of the last write,
    where it is not yet flushed. *)
(* src/rd-std/src/tls/rustls.rs:103-106 State *)
Inductive PushState : Type := SWrite | SFlush (wrote : nat).

(* src/rd-std/src/tls/rustls.rs:108-111 PushingStream *)
Record PushingStream : Type := mkPushing { ps_inner : Snk; ps_state : PushState }.

(* src/rd-std/src/tls/rustls.rs:162-167 PushingStream::new *)
Definition pushing_new (inner : Snk) : PushingStream := mkPushing inner SWrite.

(* src/rd-std/src/tls/rustls.rs:141-145 PushingStream::poll_write(flush) *)
Definition push_flush (w : Snk) (wrote : nat) : PushingStream * poll (res nat) :=
  match snk_flush w with
  | (w, Ready (Ok _)) => (mkPushing w SWrite, Ready (Ok wrote))
  | (w, Ready (Err e)) => (mkPushing w (SFlush wrote), Ready (Err e))
  | (w, Pending) => (mkPushing w (SFlush wrote), Pending)
  end.

(* src/rd-std/src/tls/rustls.rs:130-150 PushingStream::poll_write *)
Definition pushing_poll_write (s : PushingStream) (buf : bytes) : PushingStream * poll (res nat) :=
  match ps_state s with
  | SFlush wrote => push_flush (ps_inner s) wrote
  | SWrite =>
    match snk_write (ps_inner s) buf with
    | (w, Ready (Ok wrote)) => push_flush w wrote
    | (w, Ready (Err e)) => (mkPushing w SWrite, Ready (Err e))
    | (w, Pending) => (mkPushing w SWrite, Pending)
    end
  end.

(* src/rd-std/src/tls/rustls.rs:152-154 PushingStream::poll_flush *)
Definition pushing_poll_flush (s : PushingStream) : PushingStream * poll (res unit) :=
  let '(w, p) := snk_flush (ps_inner s) in (mkPushing w (ps_state s), p).

(* src/rd-std/src/tls/rustls.rs:156-158 PushingStream::poll_shutdown *)
Definition pushing_poll_shutdown (s : PushingStream) : PushingStream * poll (res unit) :=
  let '(w, p) := snk_shutdown (ps_inner s) in (mkPushing w (ps_state s), p).

(** ** The net *)

(* src/rd-std/src/tls.rs:25-36 TlsNetConfig *)
Record TlsNetConfig : Type := mkTlsNetConfig { c_skip_cert_verify : bool; c_sni : option bytes; c_net : nat }.

(* src/rd-std/src/tls.rs:38-42 TlsNet *)
Record TlsNet : Type := mkTlsNet { connector : Verifier; sni : option bytes; net : nat }.

(* src/rd-std/src/tls.rs:74-82 TlsNet::build *)
Definition tls_net_build (cfg : TlsNetConfig) : TlsNet :=
  mkTlsNet (tls_connector_new (c_skip_cert_verify cfg)) (c_sni cfg) (c_net cfg).

Section Connect.
(** [handshake] is rustls's connection with a verifier and a name. *)
Context {Stream : Type} (dial : nat -> Address -> res Stream) (handshake : Verifier -> ServerName -> Stream -> res Snk).

(* src/rd-std/src/tls/rustls.rs:93-100 TlsConnector::connect *)
Definition tls_connect (v : Verifier) (domain : bytes) (stream : Stream) : res PushingStream :=
  name ← ok_or (EBoxed EInvalidInput) (server_name domain);
  conn ← handshake v name stream;
  Ok (pushing_new conn).

(* src/rd-std/src/tls.rs:46-58 TlsNet::tcp_connect *)
Definition tls_tcp_connect (n : TlsNet) (addr : Address) : res PushingStream :=
  stream ← dial (net n) addr;
  match sni n with
  | Some d => tls_connect (connector n) d stream
  | None => tls_connect (connector n) (host addr) stream
  end.
End Connect.

(** ** The TLS of an AnyTLS net *)

(* src/protocol/anytls/src/client.rs:29-40 AnyTlsNetConfig *)
Record AnyTlsNetConfig : Type := mkAnyTlsConfig {
  ac_net : nat; ac_server : Address; ac_password : bytes; ac_sni : option bytes; ac_skip_cert_verify : bool }.

(** The parts that make a connection; the padding scheme is [AnyTlsNet]'s. *)
(* src/protocol/anytls/src/client.rs:42-49 AnyTlsNet *)
Record AnyTlsClient : Type := mkAnyTlsClient {
  a_net : nat; a_server : Address; a_password : bytes; a_server_name : bytes; a_connector : Verifier }.

(* src/protocol/anytls/src/client.rs:54-87 AllowAnyCert *)
Definition anytls_allow_any_cert (inner : Verifier) : Verifier :=
  mkVerifier (fun _ _ _ _ => true) (verify_tls12_signature inner) (verify_tls13_signature inner) (supported_verify_schemes inner).

(* src/protocol/anytls/src/client.rs:90-124 AnyTlsNet::new *)
Definition anytls_new (config : AnyTlsNetConfig) : AnyTlsClient :=
  mkAnyTlsClient (ac_net config) (ac_server config) (ac_password config)
    (match ac_sni config with Some s => s | None => host (ac_server config) end)
    (if ac_skip_cert_verify config then anytls_allow_any_cert webpki else webpki).

(** The connection that the session runs on. *)
(* src/protocol/anytls/src/client.rs:134-141 AnyTlsNet::tcp_connect(tls) *)
Definition anytls_dial {Stream} (dial : nat -> Address -> res Stream) (handshake : Verifier -> ServerName -> Stream -> res Snk)
    (n : AnyTlsClient) : res Snk :=
  stream ← dial (a_net n) (a_server n);
  server_name ← ok_or (EBoxed EInvalidInput) (server_name (a_server_name n));
  map_err map_other (handshake (a_connector n) server_name stream).

(** ** Writing *)

(** A caller that repeats its buffer until there is an answer. *)
Fixpoint push_until (fuel : nat) (s : PushingStream) (buf : bytes) : option (PushingStream * res nat) :=
  match fuel with
  | O => None
  | S fuel =>
    match pushing_poll_write s buf with
    | (s, Ready x) => Some (s, x)
    | (s, Pending) => push_until fuel s buf
    end
  end.

(** The inner stream after a write of [n] bytes of [buf], flushed or about to be. *)
Definition took (w : Snk) (buf : bytes) (n : nat) (w' : Snk) : Prop :=
  (n <= length buf)%nat /\ sk_out w' = sk_out w ++ take n buf.

Lemma push_flush_spec w n s p : push_flush w n = (s, p) ->
  sk_out (ps_inner s) = sk_out w /\
  match p with
  | Ready (Ok m) => m = n /\ ps_state s = SWrite /\ sk_flushed (ps_inner s) = length (sk_out w)
  | _ => ps_state s = SFlush n
  end.
Proof.
  unfold push_flush. destruct (snk_flush w) as [w1 q] eqn:E. apply snk_flush_spec in E as [Ho Hq].
  destruct q as [|[u|e]]; intros [= <- <-]; cbn [ps_inner ps_state]; by rewrite ?Hq.
Qed.

Lemma push_until_flush fuel : forall s n buf s' x, ps_state s = SFlush n -> push_until fuel s buf = Some (s', x) ->
  sk_out (ps_inner s') = sk_out (ps_inner s) /\
  match x with
  | Ok m => m = n /\ ps_state s' = SWrite /\ sk_flushed (ps_inner s') = length (sk_out (ps_inner s'))
  | Err _ => ps_state s' = SFlush n
  end.
Proof.
  induction fuel as [|fuel IH]; intros s n buf s' x Hs; [done|]. cbn [push_until]. unfold pushing_poll_write. rewrite Hs.
  destruct (push_flush (ps_inner s) n) as [s1 p] eqn:E. apply push_flush_spec in E as [Ho Hp]. destruct p as [|y].
  - intros H. destruct (IH _ _ _ _ _ Hp H) as [H1 H2]. split; [by rewrite H1|exact H2].
  - intros [= <- <-]. split; [done|]. destruct y as [m|e]; [|done]. destruct Hp as (-> & ? & ->). by rewrite Ho.
Qed.

(** A write on a [PushingStream] that is repeated until it is answered: it
    takes a first part of the buffer, gives exactly this part to the inner
    stream, once, and answers only when all the inner stream has taken is
    flushed.  A failure leaves the stream as it was, or with the part taken but
    not flushed, and the number still to be answered. *)
Theorem pushing_exact fuel : forall s buf s' x, ps_state s = SWrite -> push_until fuel s buf = Some (s', x) ->
  match x with
  | Ok n => took (ps_inner s) buf n (ps_inner s') /\ ps_state s' = SWrite /\
      sk_flushed (ps_inner s') = length (sk_out (ps_inner s'))
  | Err _ => ps_state s' = SWrite /\ sk_out (ps_inner s') = sk_out (ps_inner s) \/
      exists n, ps_state s' = SFlush n /\ took (ps_inner s) buf n (ps_inner s')
  end.
Proof.
  induction fuel as [|fuel IH]; intros s buf s' x Hs; [done|]. cbn [push_until]. unfold pushing_poll_write. rewrite Hs.
  destruct (snk_write (ps_inner s) buf) as [w q] eqn:Ew. apply snk_write_spec in Ew as [_ Ho].
  destruct q as [|[n|e]].
  - intros H. apply IH in H; [|done]. cbn [ps_inner] in H. destruct Ho as [Ho _]. unfold took in *. by rewrite Ho in H.
  - destruct (push_flush w n) as [s1 p] eqn:E. apply push_flush_spec in E as [Ho1 Hp]. unfold took.
    destruct p as [|y].
    + intros H. destruct (push_until_flush _ _ _ _ _ _ Hp H) as [H1 H2]. rewrite H1, Ho1.
      destruct x as [m|e]; [|right; by exists n]. destruct H2 as (-> & H2 & H3). by rewrite H3, H1, Ho1.
    + intros [= <- <-]. rewrite Ho1. destruct y as [m|e]; [|right; by exists n]. by destruct Hp as (-> & ? & ->).
  - intros [= <- <-]. by left.
Qed.

Definition answered (a : wans) : Prop := a <> WPending.

Lemma push_flush_ends fuel : forall s n buf, ps_state s = SFlush n -> (length (sk_flushes (ps_inner s)) < fuel)%nat ->
  Exists (fun a => a <> Pending) (sk_flushes (ps_inner s)) -> push_until fuel s buf <> None.
Proof.
  induction fuel as [|fuel IH]; intros s n buf Hs Hf He; [lia|]. cbn [push_until]. unfold pushing_poll_write, push_flush, snk_flush.
  rewrite Hs. destruct (sk_flushes (ps_inner s)) as [|[|[u|e]] l]; [by apply Exists_nil in He| |done..].
  apply Exists_cons in He as [He|He]; [done|]. eapply IH; [done|cbn [tail sk_flushes length ps_inner] in *; lia|done].
Qed.

(** It is answered if the inner stream answers a write and a flush. *)
Lemma pushing_ends fuel : forall s buf, ps_state s = SWrite ->
  (length (sk_writes (ps_inner s)) + length (sk_flushes (ps_inner s)) < fuel)%nat ->
  Exists answered (sk_writes (ps_inner s)) -> Exists (fun a => a <> Pending) (sk_flushes (ps_inner s)) ->
  push_until fuel s buf <> None.
Proof.
  induction fuel as [|fuel IH]; intros s buf Hs Hf Hw He; [lia|]. cbn [push_until]. unfold pushing_poll_write, snk_write.
  rewrite Hs. destruct (sk_writes (ps_inner s)) as [|[|e|n] l] eqn:El; [by apply Exists_nil in Hw| |done|].
  - apply Exists_cons in Hw as [Hw|Hw]; [done|]. apply IH; cbn [tail sk_writes sk_flushes length ps_inner ps_state] in *; [done|lia|done|done].
  - set (w := mkSnk _ _ _ _ _ _ _). pose proof (push_flush_ends (S fuel) (mkPushing w (SFlush (Nat.min n (length buf)))) _ buf eq_refl) as H.
    cbn [push_until pushing_poll_write ps_state ps_inner] in H. apply H; subst w; cbn [sk_flushes length] in *; [lia|done].
Qed.

(** ** Verifying and connecting *)

(** With [skip_cert_verify] any certificate will do, for any name and at any
    time, but the server must still own its key; without it the library's own
    verifier decides. *)
Lemma tls_verifies skip : let v := tls_connector_new skip in
  (forall c l n t, verify_server_cert v c l n t = skip || webpki_chain c l n t) /\
  verify_tls12_signature v = webpki_tls12 /\ verify_tls13_signature v = webpki_tls13.
Proof. by destruct skip. Qed.

(** The name that is verified: the one configured, else the host of the address. *)
Lemma tls_connect_exact {Stream} dial (handshake : Verifier -> ServerName -> Stream -> res Snk) cfg addr s :
  tls_tcp_connect dial handshake (tls_net_build cfg) addr = Ok s <->
  exists stream name w, dial (c_net cfg) addr = Ok stream /\
    server_name (match c_sni cfg with Some d => d | None => host addr end) = Some name /\
    handshake (tls_connector_new (c_skip_cert_verify cfg)) name stream = Ok w /\ s = pushing_new w.
Proof.
  unfold tls_tcp_connect, tls_connect, mbind, res_bind. cbn [tls_net_build net sni connector].
  destruct (dial (c_net cfg) addr) as [stream|e]; [|by split; [|intros (? & ? & ? & [=] & _)]].
  set (d := match c_sni cfg with Some d => d | None => host addr end).
  assert (E : match c_sni cfg with Some d => tls_connect handshake (tls_connector_new (c_skip_cert_verify cfg)) d stream
    | None => tls_connect handshake (tls_connector_new (c_skip_cert_verify cfg)) (host addr) stream end
    = tls_connect handshake (tls_connector_new (c_skip_cert_verify cfg)) d stream) by (unfold d; by destruct (c_sni cfg)).
  unfold tls_connect, mbind, res_bind in E. rewrite E. clear E.
  destruct (server_name d) as [name|]; cbn [ok_or]; [|by split; [|intros (? & ? & ? & _ & [=] & _)]].
  destruct (handshake _ name stream) as [w|e] eqn:Eh.
  - split; [intros [= <-]; by exists stream, name, w|]. intros (? & ? & ? & [= <-] & [= <-] & Ew & ->). rewrite Eh in Ew. by simplify_eq.
  - split; [done|]. intros (? & ? & ? & [= <-] & [= <-] & Ew & _). by rewrite Eh in Ew.
Qed.

(** A server given as an IPv6 address cannot be reached unless a name is
    configured: its host is in brackets, which no name and no address has. *)
Lemma tls_ipv6_needs_sni {Stream} dial (handshake : Verifier -> ServerName -> Stream -> res Snk) skip n a p :
  forall s, tls_tcp_connect dial handshake (tls_net_build (mkTlsNetConfig skip None n)) (ASocket (mkSocketAddr (V6 a) p)) <> Ok s.
Proof.
  intros s (stream & name & w & _ & Hn & _)%tls_connect_exact. cbn [c_sni host sa_ip] in Hn.
  by rewrite (server_name_bracket (show_ipv6 a ++ lit "]")) in Hn.
Qed.
(** The same holds of an AnyTLS net, which verifies as a TLS net does. *)
Lemma anytls_ipv6_needs_sni {Stream} (dial : nat -> Address -> res Stream) handshake net a p password skip :
  (forall s, anytls_dial dial handshake (anytls_new (mkAnyTlsConfig net (ASocket (mkSocketAddr (V6 a) p)) password None skip)) <> Ok s) /\
  a_connector (anytls_new (mkAnyTlsConfig net (ASocket (mkSocketAddr (V6 a) p)) password None skip)) = tls_connector_new skip.
Proof.
  split; [|by destruct skip]. intros s. unfold anytls_dial, anytls_new, mbind, res_bind. cbn [a_server_name ac_sni ac_server a_net ac_net a_server].
  destruct (dial net _); [|done]. cbn [host sa_ip]. by rewrite (server_name_bracket (show_ipv6 a ++ lit "]")).
Qed.
End Net.

(** ** Samples *)

Definition toy_lib : TlsLib := {|
  ServerName := bytes; Cert := bytes; Sig := bytes;
  server_name := fun s => if bool_decide (head s = Some 91) then None else Some s;
  webpki_chain := fun c _ n _ => bool_decide (c = n);
  webpki_tls12 := fun m c s => bool_decide (s = c ++ m);
  webpki_tls13 := fun m c s => bool_decide (s = c ++ m);
  webpki_schemes := [];
  server_name_bracket := fun s => eq_refl |}.

(** A connection by name to a server whose certificate is for that name. *)
Lemma toy_connects :
  @tls_tcp_connect toy_lib bytes (fun _ _ => Ok (lit "example.com"))
    (fun v n c => if @verify_server_cert toy_lib v c [] n 0 then Ok (mkSnk [] [] [] [] 0 false false) else Err EInvalidData)
    (@tls_net_build toy_lib (mkTlsNetConfig false None 0)) (ADomain (lit "example.com") 443) =
  Ok (pushing_new (mkSnk [] [] [] [] 0 false false)).
Proof. reflexivity. Qed.

Definition sample_snk (w : list wans) (f : list (poll (res unit))) : Snk := mkSnk [] w f [] 0 false false.

Lemma pushing_exact_witness : exists s',
  push_until 9 (pushing_new (sample_snk [WPending; WOk 2] [Pending; Ready (Ok tt)])) [1; 2; 3] = Some (s', Ok 2%nat) /\
  sk_out (ps_inner s') = [1; 2] /\ sk_flushed (ps_inner s') = 2%nat.
Proof.
  eexists. split; [vm_compute; reflexivity|].
  destruct (pushing_exact 9 (pushing_new (sample_snk [WPending; WOk 2] [Pending; Ready (Ok tt)])) [1; 2; 3] _ (Ok 2%nat)
    eq_refl eq_refl) as ((_ & H1) & _ & H2). split; [exact H1|exact H2].
Defined.

(** A write that the caller gives up while the flush is pending: the next one,
    of other data, is answered with the number of the first, more than its
    buffer has, and its data goes nowhere. *)
Lemma pushing_other_buffer :
  let s := pushing_new (sample_snk [WOk 3] [Pending; Ready (Ok tt)]) in
  let '(s, p) := pushing_poll_write s [1; 2; 3] in
  let '(s', q) := pushing_poll_write s [9] in
  p = Pending /\ q = Ready (Ok 3%nat) /\ sk_out (ps_inner s') = [1; 2; 3].
Proof. by vm_compute. Qed.
End Tls.
