(* ===== verification/TrojanNet.v ===== *)
(** * The Trojan net: [protocol/trojan/src/client.rs]

    How a connection to the server comes about, over TLS or over another net
    and through a web socket where one is configured, all of it within one
    timeout; and the request that is sent on it, against what a server of the
    protocol reads.  SHA-224 and the web socket's handshake are third-party
    code. *)

From S2P Require Import Prelude Text Io Address Socks Trojan Relay Tls.

Module TrojanNet.
Import Trojan Tls.

(** An answer and when it comes, in milliseconds; [None] never comes. *)
Definition Timed (A : Type) : Type := option (Z * res A).

Definition timed {A} (t : option Z) (x : res A) : Timed A := match t with Some t => Some (t, x) | None => None end.

Definition then_ {A B} (x : Timed A) (f : A -> Timed B) : Timed B :=
  match x with
  | None => None
  | Some (t, Err e) => Some (t, Err e)
  | Some (t, Ok a) => match f a with None => None | Some (u, y) => Some (t + u, y) end
  end.

(** [timeout(d, f).await?], whose inner answer counts where both are due. *)
Definition timeout {A} (ms : Z) (x : Timed A) : Z * res A :=
  match x with
  | Some (t, y) => if t <=? ms then (t, y) else (ms, Err ETimeout)
  | None => (ms, Err ETimeout)
  end.

(* src/protocol/trojan/src/client.rs:64-69 WebSocket *)
Record WebSocket : Type := mkWebSocket { ws_host : bytes; ws_path : bytes }.

(* src/protocol/trojan/src/client.rs:73-97 TrojanNetConfig *)
Record TrojanNetConfig : Type := mkTrojanNetConfig {
  tn_net : nat; tn_server : Address; tn_password : bytes; tn_sni : option bytes; tn_skip_cert_verify : bool;
  tn_websocket : option WebSocket; tn_handshake_timeout : option Z }.

(* src/protocol/trojan/src/client.rs:100-117 TrojancNetConfig *)
Record TrojancNetConfig : Type := mkTrojancNetConfig {
  tc_net : nat; tc_server : Address; tc_password : bytes; tc_websocket : option WebSocket; tc_handshake_timeout : option Z }.

(** [hex::encode]. *)
Definition hex_encode (l : bytes) : bytes := concat (map (fun b => [hex_digit (b / 16); hex_digit (b mod 16)]) l).

(** The path of the URL has one slash before it. *)
(* src/protocol/trojan/src/websocket.rs:20-21 WebSocketStream::connect(url) *)
Definition ws_url (w : WebSocket) : bytes :=
  lit "wss://" ++ ws_host w ++ [47] ++
  (fix trim_start (s : bytes) : bytes := match s with 47 :: s => trim_start s | _ => s end) (ws_path w).

Section Net.
Context {TL : TlsLib} `{S5Codec} (sha224 : bytes -> bytes).

(** Connections are made over TLS, by [new_trojan], or over the net itself. *)
Inductive Carrier : Type := OverTls (n : TlsNet) | OverNet (n : nat).

(* src/protocol/trojan/src/client.rs:21-27 TrojanNet *)
Record TrojanNet : Type := mkTrojanNet {
  t_net : Carrier; server : Address; password : bytes; websocket : option WebSocket; handshake_timeout : option Z }.

(* src/protocol/trojan/src/client.rs:30-48 TrojanNet::new_trojan *)
Definition new_trojan (config : TrojanNetConfig) : TrojanNet :=
  let tls_config := mkTlsNetConfig (tn_skip_cert_verify config) (tn_sni config) (tn_net config) in
  mkTrojanNet (OverTls (tls_net_build tls_config)) (tn_server config) (hex_encode (sha224 (tn_password config)))
    (tn_websocket config) (tn_handshake_timeout config).

(* src/protocol/trojan/src/client.rs:49-59 TrojanNet::new_trojanc *)
Definition new_trojanc (config : TrojancNetConfig) : TrojanNet :=
  mkTrojanNet (OverNet (tc_net config)) (tc_server config) (hex_encode (sha224 (tc_password config)))
    (tc_websocket config) (tc_handshake_timeout config).

Section Connect.
Context {Stream : Type}.

(** A connection, TLS over one, or a web socket over either, by its URL. *)
Inductive IOStream : Type := Plain (s : Stream) | Secured (p : PushingStream) | Socketed (url : bytes) (s : IOStream).

(** [dial] and [handshake] are [Tls]'s, [ws_handshake] the web socket's
    library; [dial_time] and [ws_time] are how long it takes. *)
Context (dial : nat -> Address -> res Stream) (handshake : Verifier -> ServerName -> Stream -> res Snk).
Context (ws_handshake : bytes -> IOStream -> res unit).
Context (dial_time : Carrier -> Address -> option Z) (ws_time : bytes -> IOStream -> option Z).

Definition carrier_connect (c : Carrier) (a : Address) : res IOStream :=
  match c with
  | OverTls t => p ← tls_tcp_connect dial handshake t a; Ok (Secured p)
  | OverNet n => s ← dial n a; Ok (Plain s)
  end.

(* src/protocol/trojan/src/websocket.rs:20-30 WebSocketStream::connect *)
Definition ws_connect (w : WebSocket) (s : IOStream) : res IOStream :=
  match ws_handshake (ws_url w) s with Ok _ => Ok (Socketed (ws_url w) s) | Err e => Err (map_other e) end.

(* src/protocol/trojan/src/client.rs:134-140 TrojanNet::connect_stream *)
Definition connect_stream (n : TrojanNet) : Timed IOStream :=
  then_ (timed (dial_time (t_net n) (server n)) (carrier_connect (t_net n) (server n)))
    (fun stream =>
       match websocket n with
       | Some ws => timed (ws_time (ws_url ws) stream) (ws_connect ws stream)
       | None => timed (Some 0) (Ok stream)
       end).

Definition timeout_ms (n : TrojanNet) : Z := match handshake_timeout n with Some t => t | None => 10 end * 1000.

(* src/protocol/trojan/src/client.rs:141-145 TrojanNet::get_stream *)
Definition get_stream (n : TrojanNet) : Z * res IOStream := timeout (timeout_ms n) (connect_stream n).

(** A stream to the server and the request that goes first. *)
(* src/protocol/trojan/src/client.rs:157-167 TrojanNet::tcp_connect *)
Definition trojan_tcp_connect (n : TrojanNet) (addr : Address) : res (IOStream * bytes) :=
  stream ← snd (get_stream n);
  head ← make_head (password n) 1 (ra2sa addr);
  Ok (stream, head).

(* src/protocol/trojan/src/client.rs:172-183 TrojanNet::udp_bind *)
Definition trojan_udp_bind (n : TrojanNet) (addr : Address) : res (IOStream * bytes) :=
  stream ← snd (get_stream n);
  head ← make_head (password n) 3 (ra2sa addr);
  Ok (stream, head).
(** ** What a server reads *)

Definition read_crlf : reader unit := x ← read_exact 2; rlift (ensure (bool_decide (x = CRLF)) EInvalidData).

(** The request of the protocol: the digest in hexadecimal, the command, the
    address, and what follows is the data. *)
Definition read_request : reader (bytes * Z * S5Addr) :=
  h ← read_exact 56; _ ← read_crlf; cmd ← read_u8; a ← s5_read; _ ← read_crlf; mret (h, cmd, a).

(** ** Facts *)

Lemma hex_length l : length (hex_encode l) = (2 * length l)%nat.
Proof. induction l as [|b l IH]; [done|]. unfold hex_encode in *. cbn [map concat app length]. rewrite IH. lia. Qed.

Lemma timeout_spec {A} ms (x : Timed A) :
  (forall a, snd (timeout ms x) = Ok a <-> exists t, x = Some (t, Ok a) /\ t <= ms) /\
  (fst (timeout ms x) <= ms).
Proof.
  unfold timeout. destruct x as [[t y]|]; cbn [fst snd]; [|split; [|lia]; split; [done|by intros (t & ? & _)]].
  destruct (t <=? ms) eqn:E; bools; cbn [fst snd]; (split; [|lia]); intros a; (split; [|intros (u & Hx & Hu)]).
  all: try (intros ->; by exists t). all: try by simplify_eq. all: simplify_eq; lia.
Qed.

(** The request is read as what was asked for, and the data after it as data. *)
Lemma request_read h cmd a head data : length h = 56%nat -> s5_ok a -> make_head h cmd a = Ok head ->
  read_request (head ++ data) = Ok ((h, cmd, a), data).
Proof.
  intros Hh Ha. unfold make_head. destruct (s5_write a) as [w|e] eqn:Ew; [|done]. intros [= <-].
  assert (Ec : forall k, read_crlf (CRLF ++ k) = Ok (tt, k)).
  { intros k. unfold read_crlf. rewrite bind_reader, (read_exact_app_n 2) by done. done. }
  match goal with |- _ (?i ++ data) = _ => replace (i ++ data) with (h ++ CRLF ++ cmd :: w ++ CRLF ++ data)
    by (rewrite <- app_assoc; cbn [app CRLF]; by rewrite <- app_assoc) end.
  unfold read_request. rewrite bind_reader, (read_exact_app_n 56), bind_reader, Ec, bind_reader, read_u8_cons by done.
  by rewrite bind_reader, (s5_roundtrip _ _ _ Ha Ew), bind_reader, Ec.
Qed.

(** A connection or a datagram socket of a Trojan net: it is there exactly when
    the net below, TLS and the web socket are, all within the one timeout, of ten
    seconds where none is configured; and what goes first is read by a server of
    the protocol as the digest of the password, the command and the address,
    whatever data follows. *)
Theorem trojan_net_exact n addr : (forall p, length (sha224 p) = 28%nat) -> s5_ok (ra2sa addr) ->
  (exists p, password n = hex_encode (sha224 p)) ->
  fst (get_stream n) <= timeout_ms n /\
  (forall op cmd, op = trojan_tcp_connect /\ cmd = 1 \/ op = trojan_udp_bind /\ cmd = 3 ->
    (forall s, (exists head, op n addr = Ok (s, head)) <-> exists t, connect_stream n = Some (t, Ok s) /\ t <= timeout_ms n) /\
    (forall s head data, op n addr = Ok (s, head) -> read_request (head ++ data) = Ok ((password n, cmd, ra2sa addr), data))).
Proof.
  intros Hsha Ha [p Hp]. unfold trojan_tcp_connect, trojan_udp_bind, get_stream.
  destruct (timeout_spec (timeout_ms n) (connect_stream n)) as [Ht Hm]. split; [done|].
  assert (Hh : length (password n) = 56%nat) by (rewrite Hp, hex_length, Hsha; done).
  assert (Hc : forall cmd, exists head, make_head (password n) cmd (ra2sa addr) = Ok head).
  { intros cmd. unfold make_head. destruct (s5_write_ok _ Ha) as [w ->]. by eexists. }
  intros op cmd Hop. destruct (Hc cmd) as [head Eh].
  assert (Eop : op n addr = (s ← snd (timeout (timeout_ms n) (connect_stream n)); Ok (s, head))).
  { destruct Hop as [[-> ->]|[-> ->]]; unfold mbind, res_bind; by rewrite Eh. }
  rewrite Eop. unfold mbind, res_bind. split.
  - intros s. rewrite <- Ht. destruct (snd _) as [s'|e]; split; intros H'.
    + destruct H' as [h [= <- <-]]. done.
    + simplify_eq. by exists head.
    + by destruct H'.
    + done.
  - intros s h data. destruct (snd _) as [s'|e]; [|done]. intros [= <- <-]. by apply request_read.
Qed.
End Connect.

(** A Trojan server given as an IPv6 address needs a name for TLS. *)
Lemma trojan_ipv6_needs_sni {Stream} dial handshake ws dt wt config a p :
  tn_server config = ASocket (mkSocketAddr (V6 a) p) -> tn_sni config = None ->
  forall s, snd (@get_stream Stream dial handshake ws dt wt (new_trojan config)) <> Ok s.
Proof.
  intros Es En s Hs. apply timeout_spec in Hs as (t & Hc & _). revert Hc. unfold connect_stream. cbn [new_trojan t_net server].
  unfold timed, then_, carrier_connect, mbind, res_bind. destruct (dt _ _) as [u|]; [|done].
  destruct (tls_tcp_connect _ _ _ _) as [q|e] eqn:E; [|done]. rewrite Es, En in E. by apply tls_ipv6_needs_sni in E.
Qed.
End Net.

(** ** Samples *)

#[local] Existing Instance toy_lib.

Definition sample_sha (p : bytes) : bytes := replicate 28 171.
Definition sample_net : TrojanNet := mkTrojanNet (OverNet 0) (ADomain (lit "t.example.com") 443) (hex_encode (sample_sha [])) 
  (Some (mkWebSocket (lit "t.example.com") (lit "//ws"))) None.

(** A connection that takes four seconds and a web socket that takes three. *)
Definition sample_get (ws : Z) : Z * res (IOStream (Stream := bytes)) :=
  @get_stream toy_lib bytes (fun _ _ => Ok []) (fun _ _ _ => Err ETimedOut) (fun _ _ => Ok tt) (fun _ _ => Some 4000) (fun _ _ => Some ws) sample_net.

Lemma trojan_net_exact_witness :
  exists s head, @trojan_tcp_connect toy_lib rfc1928 bytes (fun _ _ => Ok []) (fun _ _ _ => Err ETimedOut) (fun _ _ => Ok tt)
      (fun _ _ => Some 4000) (fun _ _ => Some 3000) sample_net (ADomain (lit "example.com") 80) = Ok (s, head) /\
    @read_request rfc1928 (head ++ [7; 8]) = Ok ((hex_encode (sample_sha []), 1, S5Domain (lit "example.com") 80), [7; 8]).
Proof.
  eexists _, _. split; [vm_compute; reflexivity|].
  refine (proj2 (proj2 (@trojan_net_exact toy_lib rfc1928 sample_sha bytes (fun _ _ => Ok []) (fun _ _ _ => Err ETimedOut) (fun _ _ => Ok tt)
    (fun _ _ => Some 4000) (fun _ _ => Some 3000) sample_net (ADomain (lit "example.com") 80) _ _ _) _ 1 (or_introl (conj eq_refl eq_refl))) _ _ [7; 8] _).
  - reflexivity.
  - split; [apply bytes_okb_spec; reflexivity|]. split; [unfold port_ok; lia|]. split; [reflexivity | cbn; lia].
  - by exists [].
  - vm_compute. reflexivity.
Defined.

(** The path's slashes, and the timeout that is not of the TLS handshake alone:
    a web socket that is slow ends a connection that was there after four seconds. *)
Lemma trojan_timeout_covers_all :
  ws_url (mkWebSocket (lit "t.example.com") (lit "//ws")) = lit "wss://t.example.com/ws" /\
  (exists s, sample_get 3000 = (7000, Ok s)) /\ sample_get 6001 = (10000, Err ETimeout).
Proof. split; [by vm_compute|]. split; [by eexists|done]. Qed.
End TrojanNet.
