(* ===== verification/RelayUdp.v ===== *)
(** * Relaying datagrams: [rd-std/src/context/connect_udp.rs]

    A channel and a socket joined by two queues of at most 16 packets.  What a
    side promises is a class of its own, so that the relay is verified
    against it: sockets that answer by a script, and the back channel of the
    forwarder ([ForwardUdp.v]), are its instances. *)

From S2P Require Import Prelude Io Address.

Module RelayUdp.

(** ** The two ends *)

(** What gives datagrams: [ds_items] are those still to come, [ds_wait] is
    whether its last answer was pending.  What does not fit is cut off. *)
Class DgramSource (R A : Type) : Type := {
  ds_recv : nat -> R -> R * poll (res (bytes * A));
  ds_items : R -> list (bytes * A);
  ds_wait : R -> bool;
  ds_recv_spec : forall cap r r' p, ds_recv cap r = (r', p) ->
    match p with
    | Pending => ds_items r' = ds_items r /\ ds_wait r' = true
    | Ready (Err _) => ds_items r' = ds_items r
    | Ready (Ok (d, a)) => exists d0, ds_items r = (d0, a) :: ds_items r' /\ d = take cap d0
    end }.

(** What takes datagrams, one at a time and whole: [dk_got] is what it took. *)
Class DgramSink (W D : Type) : Type := {
  dk_send : W -> bytes -> D -> W * poll (res nat);
  dk_got : W -> list (bytes * D);
  dk_wait : W -> bool;
  dk_send_spec : forall w d a w' p, dk_send w d a = (w', p) ->
    match p with
    | Pending => dk_got w' = dk_got w /\ dk_wait w' = true
    | Ready (Err _) => dk_got w' = dk_got w
    | Ready (Ok _) => dk_got w' = dk_got w ++ [(d, a)]
    end }.

(** A socket that answers by a script. *)
Record USrc (A : Type) : Type := mkUSrc { us_script : list (uans A); us_wait : bool }.
Arguments mkUSrc {A} us_script us_wait.
Arguments us_script {A} u.
Arguments us_wait {A} u.

Record USnk (D : Type) : Type := mkUSnk { uk_wr : UWr D; uk_wait : bool }.
Arguments mkUSnk {D} uk_wr uk_wait.
Arguments uk_wr {D} u.
Arguments uk_wait {D} u.

Fixpoint u_items {A} (r : list (uans A)) : list (bytes * A) :=
  match r with
  | [] => []
  | UData d a :: r => (d, a) :: u_items r
  | _ :: r => u_items r
  end.

Definition is_pending {A} (p : poll A) : bool := match p with Pending => true | _ => false end.

#[export] Instance script_source A : DgramSource (USrc A) A.
Proof.
  refine {|
    ds_recv := fun cap s => let '(r, p) := udp_recv cap (us_script s) in (mkUSrc r (is_pending p), p);
    ds_items := fun s => u_items (us_script s);
    ds_wait := us_wait |}.
  intros cap [s wt] r' p. destruct s as [|[|e|d a] s]; intros [= <- <-]; cbn; try done. by exists d.
Defined.

#[export] Instance script_sink D : DgramSink (USnk D) D.
Proof.
  refine {|
    dk_send := fun s d a => let '(w, p) := udp_send (uk_wr s) d a in (mkUSnk w (is_pending p), p);
    dk_got := fun s => u_out (uk_wr s);
    dk_wait := uk_wait |}.
  intros [[out s] wt] d a w' p. destruct s as [|[|e|n] s]; intros [= <- <-]; cbn; done.
Defined.

(** ** Packets and their queue *)

(* src/rd-std/src/context/connect_udp.rs:8-8 UDP_BUFFER_SIZE *)
Definition UDP_BUFFER_SIZE : nat := 2 * 1024.

(** [filled] is the data in the buffer and the address. *)
(* src/rd-std/src/context/connect_udp.rs:12-15 PacketBuffer *)
Record PacketBuffer : Type := mkPacket { filled : option (bytes * Address) }.

(* src/rd-std/src/context/connect_udp.rs:30-35 PacketBuffer::new *)
Definition packet_new : PacketBuffer := mkPacket None.

(* src/rd-std/src/context/connect_udp.rs:43-47 CopyBuffer *)
Record CopyBuffer : Type := mkCopyBuffer { pool : list PacketBuffer; queue : list PacketBuffer; max_buffer_size : nat }.

(* src/rd-std/src/context/connect_udp.rs:50-56 CopyBuffer::new *)
Definition copy_buffer_new (buffer_size max : nat) : CopyBuffer := mkCopyBuffer (repeat packet_new buffer_size) [] max.

(* src/rd-std/src/context/connect_udp.rs:60-65 CopyBuffer::pop_front *)
Definition pop_front (q : CopyBuffer) : CopyBuffer :=
  match queue q with
  | [] => q
  | _ :: l => mkCopyBuffer (pool q ++ [mkPacket None]) l (max_buffer_size q)
  end.

(* src/rd-std/src/context/connect_udp.rs:76-82 CopyBuffer::grow *)
Definition grow (q : CopyBuffer) : CopyBuffer :=
  match pool q with
  | [] =>
    let goal := Nat.min (max_buffer_size q) (length (queue q) * 2) in
    mkCopyBuffer (repeat packet_new (goal - length (queue q))) (queue q) (max_buffer_size q)
  | _ => q
  end.

(** [Vec::pop] takes the last of the pool; [false] is [None]. *)
(* src/rd-std/src/context/connect_udp.rs:66-75 CopyBuffer::borrow_back *)
Definition borrow_back (q : CopyBuffer) : CopyBuffer * bool :=
  match last (queue q) with
  | Some (mkPacket None) => (q, true)
  | _ =>
    let q := grow q in
    match last (pool q) with
    | None => (q, false)
    | Some p => (mkCopyBuffer (take (length (pool q) - 1) (pool q)) (queue q ++ [p]) (max_buffer_size q), true)
    end
  end.

(** [packet.filled = Some(..)] for the packet borrowed from the back. *)
Definition fill_back (q : CopyBuffer) (d : bytes) (a : Address) : CopyBuffer :=
  mkCopyBuffer (pool q) (take (length (queue q) - 1) (queue q) ++ [mkPacket (Some (d, a))]) (max_buffer_size q).

(** ** One direction *)

Inductive pump_ans : Type := PumpPending | PumpErr (e : error) | PumpPanic.

Section Pump.
Context {R A W D : Type} `{DgramSource R A} `{DgramSink W D}.
(** How an address is kept in the packet and turned into a target;
    [None] is the [unreachable!()]. *)
Context (conv : A -> Address) (dest : Address -> option D).

(** The loop that fills the queue: whether it registered the waker. *)
(* src/rd-std/src/context/connect_udp.rs:101-112 CopyBidirectional::poll_send_to (receive loop) *)
Fixpoint fill (fuel : nat) (q : CopyBuffer) (r : R) : option (CopyBuffer * R * res bool) :=
  match fuel with
  | O => None
  | S fuel =>
    match borrow_back q with
    | (q, false) => Some (q, r, Ok false)
    | (q, true) =>
      match ds_recv UDP_BUFFER_SIZE r with
      | (r, Pending) => Some (q, r, Ok true)
      | (r, Ready (Err e)) => Some (q, r, Err e)
      | (r, Ready (Ok (d, a))) => fill fuel (fill_back q d (conv a)) r
      end
    end
  end.

(** The loop that empties it. *)
(* src/rd-std/src/context/connect_udp.rs:113-128 CopyBidirectional::poll_send_to (send loop) *)
Fixpoint empty (fuel : nat) (q : CopyBuffer) (w : W) (registered : bool) : option (CopyBuffer * W * (pump_ans + bool)) :=
  match queue q with
  | mkPacket (Some (d, a)) :: _ =>
    match dest a with
    | None => Some (q, w, inl PumpPanic)
    | Some t =>
      match dk_send w d t with
      | (w, Pending) => Some (q, w, inr true)
      | (w, Ready (Err e)) => Some (q, w, inl (PumpErr e))
      | (w, Ready (Ok _)) =>
        match fuel with
        | O => None
        | S fuel => empty fuel (pop_front q) w registered
        end
      end
    end
  | _ => Some (q, w, inr registered)
  end.

(* src/rd-std/src/context/connect_udp.rs:94-133 CopyBidirectional::poll_send_to *)
Fixpoint pump (fuel : nat) (q : CopyBuffer) (r : R) (w : W) : option (CopyBuffer * R * W * pump_ans) :=
  match fuel with
  | O => None
  | S fuel =>
    match fill (S (max_buffer_size q)) q r with
    | None => None
    | Some (q, r, Err e) => Some (q, r, w, PumpErr e)
    | Some (q, r, Ok registered) =>
      match empty (length (queue q)) q w registered with
      | None => None
      | Some (q, w, inl x) => Some (q, r, w, x)
      | Some (q, w, inr true) => Some (q, r, w, PumpPending)
      | Some (q, w, inr false) => pump fuel q r w
      end
    end
  end.

End Pump.

(** ** Both directions *)

(* src/rd-std/src/context/connect_udp.rs:158-161 CopyBidirectional::poll_recv_from (unreachable) *)
Definition dest_of (a : Address) : option SocketAddr :=
  match a with ASocket s => Some s | ADomain _ _ => None end.

Section Bidirectional.
Context {AR AW BR BW : Type} `{DgramSource AR Address} `{DgramSink AW SocketAddr} `{DgramSource BR SocketAddr} `{DgramSink BW Address}.

(** The channel [a] and the socket [b], each with its two halves. *)
(* src/rd-std/src/context/connect_udp.rs:85-91 CopyBidirectional *)
Record CopyBidirectional : Type := mkBidi {
  ch_r : AR; ch_w : AW; so_r : BR; so_w : BW; send_queue : CopyBuffer; recv_queue : CopyBuffer }.

(** A round at least takes a datagram or sends one. *)
Definition pump_fuel {R A} `{DgramSource R A} (q : CopyBuffer) (r : R) : nat :=
  S (length (queue q) + length (ds_items r)).

(* src/rd-std/src/context/connect_udp.rs:94-133 CopyBidirectional::poll_send_to *)
Definition poll_send_to (s : CopyBidirectional) : option (CopyBidirectional * pump_ans) :=
  match pump (fun a => a) Some (pump_fuel (send_queue s) (ch_r s)) (send_queue s) (ch_r s) (so_w s) with
  | None => None
  | Some (q, r, w, p) => Some (mkBidi r (ch_w s) (so_r s) w q (recv_queue s), p)
  end.

(* src/rd-std/src/context/connect_udp.rs:134-180 CopyBidirectional::poll_recv_from *)
Definition poll_recv_from (s : CopyBidirectional) : option (CopyBidirectional * pump_ans) :=
  match pump ASocket dest_of (pump_fuel (recv_queue s) (so_r s)) (recv_queue s) (so_r s) (ch_w s) with
  | None => None
  | Some (q, r, w, p) => Some (mkBidi (ch_r s) w r (so_w s) (send_queue s) q, p)
  end.

(** The directions never end by themselves: what is left of the last match
    is that both are pending. *)
(* src/rd-std/src/context/connect_udp.rs:186-194 CopyBidirectional::poll *)
Definition bidi_poll (s : CopyBidirectional) : option (CopyBidirectional * pump_ans) :=
  match poll_send_to s with
  | None => None
  | Some (s, PumpPending) => poll_recv_from s
  | r => r
  end.

(* src/rd-std/src/context/connect_udp.rs:199-214 connect_udp *)
Definition connect_udp (ar : AR) (aw : AW) (br : BR) (bw : BW) : CopyBidirectional :=
  mkBidi ar aw br bw (copy_buffer_new 1 16) (copy_buffer_new 1 16).

(** Polling [n] times, as long as the relay goes on. *)
Fixpoint bidi_polls (n : nat) (s : CopyBidirectional) : option (CopyBidirectional * pump_ans) :=
  match n with
  | O => Some (s, PumpPending)
  | S n =>
    match bidi_poll s with
    | Some (s, PumpPending) => bidi_polls n s
    | r => r
    end
  end.

End Bidirectional.

(** *** The queue *)

Section PumpLemmas.
Context {R A W D : Type} `{DgramSource R A} `{DgramSink W D}.
Context (conv : A -> Address) (dest : Address -> option D) (tgt : A -> D).
Context (dest_conv : forall a, dest (conv a) = Some (tgt a)).

(** [l] is queued, [u] that there is an empty packet at the back. *)
Definition queued (l : list (bytes * A)) (u : bool) : list PacketBuffer :=
  map (fun '(d, a) => mkPacket (Some (d, conv a))) l ++ (if u then [packet_new] else []).

Definition qis (q : CopyBuffer) (l : list (bytes * A)) (u : bool) : Prop :=
  queue q = queued l u /\
  exists n, pool q = repeat packet_new n /\ (1 <= n + length (queue q) <= max_buffer_size q)%nat.

Definition cut (l : list (bytes * A)) : list (bytes * A) := map (fun '(d, a) => (take UDP_BUFFER_SIZE d, a)) l.
Definition to_tgt (l : list (bytes * A)) : list (bytes * D) := map (fun '(d, a) => (d, tgt a)) l.

Lemma length_queued l u : length (queued l u) = (length l + if u then 1 else 0)%nat.
Proof. unfold queued. rewrite length_app, length_map. by destruct u. Qed.

Lemma last_queued l : last (queued l false) = (fun '(d, a) => mkPacket (Some (d, conv a))) <$> last l.
Proof. unfold queued. rewrite app_nil_r. apply fmap_last. Qed.

Lemma last_repeat {X} (x : X) n : last (repeat x n) = if (n =? 0)%nat then None else Some x.
Proof. destruct n as [|n]; [done|]. cbn [repeat]. by rewrite repeat_cons, last_snoc. Qed.

Lemma take_repeat_pred {X} (x : X) n : take (length (repeat x n) - 1) (repeat x n) = repeat x (n - 1).
Proof.
  destruct n as [|n]; [done|]. cbn [repeat]. rewrite repeat_cons, length_app, take_app_length'; [f_equal; lia|cbn; lia].
Qed.

Lemma grow_spec q l u : qis q l u -> qis (grow q) l u /\ queue (grow q) = queue q /\
  max_buffer_size (grow q) = max_buffer_size q /\
  (pool (grow q) = [] -> length (queue q) = max_buffer_size q).
Proof.
  intros (E & n & Hp & Hn). unfold grow. destruct n as [|n]; rewrite Hp; cbn [repeat].
  - split; [|split; [done|split; [done|]]].
    + split; [exact E|]. eexists. split; [done|]. cbn [queue max_buffer_size]. cbn in Hn. lia.
    + cbn. intros Hr. apply (f_equal length) in Hr. rewrite repeat_length in Hr. cbn in Hr. lia.
  - split; [|by rewrite Hp]. split; [done|]. by exists (S n).
Qed.

Lemma borrow_back_spec q l u : qis q l u ->
  let '(q', b) := borrow_back q in
  qis q' l b /\ max_buffer_size q' = max_buffer_size q /\ (b = false -> length l = max_buffer_size q).
Proof.
  intros Hq. unfold borrow_back. destruct u.
  - destruct Hq as [E Hq]. rewrite E. unfold queued. rewrite last_snoc. cbn. split; [by split|done].
  - pose proof Hq as [E _]. apply grow_spec in Hq as (Hq & Eq & Em & Hf). rewrite E, last_queued.
    assert (Hgo : let '(q', b) := match last (pool (grow q)) with
        | None => (grow q, false)
        | Some p => (mkCopyBuffer (take (length (pool (grow q)) - 1) (pool (grow q))) (queue (grow q) ++ [p])
            (max_buffer_size (grow q)), true)
        end in qis q' l b /\ max_buffer_size q' = max_buffer_size q /\ (b = false -> length l = max_buffer_size q)).
    { pose proof Hq as (Eg & n & Hp & Hn). rewrite Hp, last_repeat. destruct n as [|n]; cbn [Nat.eqb].
      - split; [done|]. split; [done|]. intros _. rewrite <- (Hf Hp), E, length_queued. lia.
      - split; [|done]. split.
        + cbn [queue]. rewrite Eg. unfold queued. by rewrite app_nil_r.
        + exists n. cbn [pool queue max_buffer_size]. rewrite take_repeat_pred, length_app. split; [f_equal; lia|cbn; lia]. }
    by destruct (last l) as [[d a]|].
Qed.

Lemma fill_back_spec q l d a : qis q l true ->
  qis (fill_back q d (conv a)) (l ++ [(d, a)]) false.
Proof.
  intros (E & n & Hp & Hn). rewrite E in Hn. unfold fill_back, qis. cbn [queue pool max_buffer_size]. split.
  - rewrite E, length_queued. unfold queued. rewrite app_nil_r, map_app. f_equal. apply take_app_length'. rewrite length_map. lia.
  - exists n. split; [done|]. rewrite E, length_app, length_take. cbn. rewrite length_queued in *. lia.
Qed.

Lemma pop_front_spec q d a l u : qis q ((d, a) :: l) u -> qis (pop_front q) l u.
Proof.
  intros (E & n & Hp & Hn). unfold pop_front, qis. rewrite E in *. cbn in *. split; [done|].
  exists (S n). split; [by rewrite Hp, <- repeat_cons|]. lia.
Qed.

(** *** One direction *)

Lemma fill_spec fuel : forall q r l u, qis q l u -> (max_buffer_size q - length l < fuel)%nat ->
  exists q' r' l' p, fill conv fuel q r = Some (q', r', p) /\
    max_buffer_size q' = max_buffer_size q /\
    l' ++ cut (ds_items r') = l ++ cut (ds_items r) /\
    (length l' + length (ds_items r') = length l + length (ds_items r))%nat /\
    match p with
    | Ok true => qis q' l' true /\ ds_wait r' = true
    | Ok false => qis q' l' false /\ length l' = max_buffer_size q
    | Err _ => qis q' l' true
    end.
Proof.
  induction fuel as [|fuel IH]; intros q r l u Hq Hf; [lia|]. cbn [fill].
  apply borrow_back_spec in Hq. destruct (borrow_back q) as [q1 b]. destruct Hq as (Hq & Hm & Hb).
  destruct b.
  2: { exists q1, r, l, (Ok false). rewrite Hm. auto 12. }
  destruct (ds_recv UDP_BUFFER_SIZE r) as [r1 p] eqn:E. apply ds_recv_spec in E.
  destruct p as [|[[d a]|e]].
  - destruct E as [E Hw]. exists q1, r1, l, (Ok true). rewrite E. auto 12.
  - destruct E as (d0 & E & ->). apply (fill_back_spec _ _ (take UDP_BUFFER_SIZE d0) a) in Hq as Hq2.
    destruct (IH _ r1 _ _ Hq2) as (q' & r' & l' & p & E2 & Hm2 & Hl & Hn & Hp).
    + destruct Hq as (Eq & n & _ & Hn). rewrite Eq, length_queued in Hn. cbn [fill_back max_buffer_size]. rewrite length_app. cbn. lia.
    + exists q', r', l', p. rewrite E2, Hm2. cbn [fill_back max_buffer_size] in Hp |- *. rewrite Hm in *. split; [done|].
      split; [done|]. rewrite Hl, Hn, E, <- app_assoc, length_app. cbn. split; [done|]. split; [lia|done].
  - exists q1, r1, l, (Err e). rewrite E. auto 12.
Qed.

Lemma empty_spec l : forall q u w fuel registered, qis q l u -> (length l <= fuel)%nat ->
  exists q' w' l' p, empty dest fuel q w registered = Some (q', w', p) /\ qis q' l' u /\
    max_buffer_size q' = max_buffer_size q /\ (length l' <= length l)%nat /\
    dk_got w' ++ to_tgt l' = dk_got w ++ to_tgt l /\
    match p with
    | inr true => registered = true /\ l' = [] \/ dk_wait w' = true
    | inr false => registered = false /\ l' = []
    | inl (PumpErr _) => True
    | inl _ => False
    end.
Proof.
  induction l as [|[d a] l IH]; intros q u w fuel registered Hq Hf.
  - exists q, w, [], (inr registered). pose proof Hq as [E _].
    assert (Hd : empty dest fuel q w registered = Some (q, w, inr registered)) by (destruct fuel, u; cbn; by rewrite E).
    split; [done|]. destruct registered; auto 12.
  - pose proof Hq as [E _].
    assert (Hd : empty dest fuel q w registered = match dk_send w d (tgt a) with
      | (w, Pending) => Some (q, w, inr true)
      | (w, Ready (Err e)) => Some (q, w, inl (PumpErr e))
      | (w, Ready (Ok _)) => match fuel with O => None | S fuel => empty dest fuel (pop_front q) w registered end
      end) by (destruct fuel; cbn; rewrite E; cbn; by rewrite dest_conv).
    destruct fuel as [|fuel]; [cbn in Hf; lia|]. rewrite Hd. destruct (dk_send w d (tgt a)) as [w1 p] eqn:Ew.
    apply dk_send_spec in Ew. destruct p as [|[n|e]].
    + destruct Ew as [Ew Hw]. exists q, w1, ((d, a) :: l), (inr true). rewrite Ew. auto 12.
    + apply pop_front_spec in Hq. destruct (IH _ u w1 fuel registered Hq) as (q' & w' & l' & p & E2 & Hq' & Hm & Hl & Hg & Hp).
      { cbn in Hf. lia. }
      exists q', w', l', p. rewrite E2. split; [done|]. split; [done|]. split.
      { rewrite Hm. unfold pop_front. by destruct (queue q). }
      split; [cbn; lia|]. split; [|done]. rewrite Hg, Ew, <- app_assoc. done.
    + exists q, w1, ((d, a) :: l), (inl (PumpErr e)). rewrite Ew. auto 12.
Qed.

(** What a direction has in hand: sent, queued, and still to be received. *)
Definition in_hand (l : list (bytes * A)) (r : R) (w : W) : list (bytes * D) :=
  dk_got w ++ to_tgt (l ++ cut (ds_items r)).

Definition pump_waits (l : list (bytes * A)) (r : R) (w : W) : Prop :=
  ds_wait r = true /\ l = [] \/ dk_wait w = true.

Lemma pump_spec fuel : forall q r w l u, qis q l u -> (length l + length (ds_items r) < fuel)%nat ->
  exists q' r' w' l' u' p, pump conv dest fuel q r w = Some (q', r', w', p) /\ qis q' l' u' /\
    max_buffer_size q' = max_buffer_size q /\ in_hand l' r' w' = in_hand l r w /\
    match p with PumpPending => pump_waits l' r' w' | PumpErr _ => True | PumpPanic => False end.
Proof.
  unfold in_hand, to_tgt. induction fuel as [|fuel IH]; intros q r w l u Hq Hf; [lia|]. cbn [pump].
  destruct (fill_spec (S (max_buffer_size q)) q r l u Hq) as (q1 & r1 & l1 & p & E & Hm & Hl & Hn & Hp); [lia|]. rewrite E.
  assert (Hq1 : exists u1, qis q1 l1 u1) by (destruct p as [[]|]; [destruct Hp; eauto .. | eauto]).
  rewrite <- Hl. destruct p as [reg|e].
  2: { destruct Hq1 as [u1 Hq1]. exists q1, r1, w, l1, u1, (PumpErr e). auto 12. }
  destruct Hq1 as [u1 Hq1]. pose proof Hq1 as [E1 _].
  destruct (empty_spec l1 q1 u1 w (length (queue q1)) reg Hq1) as (q2 & w2 & l2 & p2 & E2 & Hq2 & Hm2 & Hl2 & Hg & Hp2).
  { rewrite E1, length_queued. lia. }
  unfold to_tgt in Hg. assert (Hh : forall x, dk_got w2 ++ map (fun '(d, a) => (d, tgt a)) (l2 ++ x) = dk_got w ++ map (fun '(d, a) => (d, tgt a)) (l1 ++ x))
    by (intros x; by rewrite !map_app, !app_assoc, Hg).
  rewrite E2. destruct p2 as [x|[]].
  - exists q2, r1, w2, l2, u1, x. rewrite Hm2. destruct x; [done| |done]. auto 12.
  - exists q2, r1, w2, l2, u1, PumpPending. rewrite Hm2. repeat (split; [done || auto|]). unfold pump_waits.
    destruct Hp2 as [[-> ->]|]; [left; by destruct Hp | by right].
  - destruct Hp2 as [-> ->]. destruct Hp as [_ Hfull]. pose proof Hq1 as (_ & n & _ & Hn1).
    destruct (IH q2 r1 w2 [] u1 Hq2) as (q' & r' & w' & l' & u' & p & E3 & Hq' & Hm' & Hg' & Hp').
    { rewrite E1, length_queued in Hn1. cbn. lia. }
    exists q', r', w', l', u', p. rewrite Hm', Hm2, Hm, E3, Hg', <- (Hh (cut (ds_items r1))). auto 12.
Qed.

(** What every send keeps of the sink, the relay keeps. *)
Lemma empty_sink (P : W -> Prop) : (forall w d t w' p, dk_send w d t = (w', p) -> P w -> P w') ->
  forall fuel q w reg q' w' p, empty dest fuel q w reg = Some (q', w', p) -> P w -> P w'.
Proof.
  intros HP fuel. induction fuel as [|fuel IH]; intros q w reg q' w' p; cbn [empty];
    (destruct (queue q) as [|[[[d a]|]] l]; [by intros [= <- <- <-]| |by intros [= <- <- <-]]);
    (destruct (dest a) as [t|]; [|by intros [= <- <- <-]]);
    destruct (dk_send w d t) as [w1 [|[n|e]]] eqn:Ew; try done;
    try (intros [= <- <- <-] Hw; by eapply HP).
  intros E Hw. eapply IH; [done|]. by eapply HP.
Qed.

Lemma pump_sink (P : W -> Prop) : (forall w d t w' p, dk_send w d t = (w', p) -> P w -> P w') ->
  forall fuel q r w q' r' w' p, pump conv dest fuel q r w = Some (q', r', w', p) -> P w -> P w'.
Proof.
  intros HP fuel. induction fuel as [|fuel IH]; intros q r w q' r' w' p; cbn [pump]; [done|].
  destruct (fill conv _ q r) as [[[q1 r1] [reg|e]]|]; [|by intros [= <- <- <- <-]|done].
  destruct (empty dest _ q1 w reg) as [[[q2 w2] [x|[]]]|] eqn:E; intros E2 Hw; simplify_eq; try by eapply empty_sink.
  eapply IH; [done|]. by eapply empty_sink.
Qed.

End PumpLemmas.

(** *** Both directions *)

Definition packets (q : CopyBuffer) : list (bytes * Address) := omap filled (queue q).

Definition of_socket (l : list (bytes * SocketAddr)) : list (bytes * Address) := map (fun '(d, a) => (d, ASocket a)) l.

Lemma map_pair_id {X} (l : list (bytes * X)) : map (fun '(d, a) => (d, a)) l = l.
Proof. induction l as [|[d x] l IH]; cbn; [done|by rewrite IH]. Qed.

Lemma qis_packets {A} (conv : A -> Address) q l u : qis conv q l u ->
  packets q = map (fun '(d, a) => (d, conv a)) l /\ (length (packets q) <= max_buffer_size q)%nat.
Proof.
  intros (E & n & _ & Hn). unfold packets. rewrite E in *. rewrite length_queued in Hn. unfold queued.
  rewrite omap_app. replace (omap filled (if u then [packet_new] else [])) with (@nil (bytes * Address)) by (by destruct u).
  rewrite app_nil_r. replace (omap _ _) with (map (fun '(d, a) => (d, conv a)) l).
  - rewrite length_map. split; [done|]. destruct u; lia.
  - clear. induction l as [|[d a] l IH]; cbn; [done|]. by rewrite IH.
Qed.

Section Main.
Context {AR AW BR BW : Type} `{DgramSource AR Address} `{DgramSink AW SocketAddr} `{DgramSource BR SocketAddr} `{DgramSink BW Address}.

Definition waits {R W A D} `{DgramSource R A} `{DgramSink W D} (q : CopyBuffer) (r : R) (w : W) : Prop :=
  ds_wait r = true /\ packets q = [] \/ dk_wait w = true.

(** Each direction's queue is well formed, and what is in hand is conserved. *)
Definition binv (a : list (bytes * Address)) (b : list (bytes * SocketAddr)) (s : @CopyBidirectional AR AW BR BW) : Prop :=
  max_buffer_size (send_queue s) = 16%nat /\ max_buffer_size (recv_queue s) = 16%nat /\
  (exists l u, qis (fun a => a) (send_queue s) l u /\ in_hand (fun a => a) l (ch_r s) (so_w s) = a) /\
  (exists l u, qis ASocket (recv_queue s) l u /\ in_hand (fun a => a) l (so_r s) (ch_w s) = b).

Lemma udp_bidi_poll_spec a b s : binv a b s ->
  exists s' p, bidi_poll s = Some (s', p) /\ binv a b s' /\
    match p with
    | PumpPending => waits (send_queue s') (ch_r s') (so_w s') /\ waits (recv_queue s') (so_r s') (ch_w s')
    | PumpErr _ => True
    | PumpPanic => False
    end.
Proof.
  intros (Hms & Hmr & (l & u & Hq & Ha) & (l' & u' & Hq' & Hb)). unfold bidi_poll, poll_send_to.
  assert (Hw : forall R W A D (H : DgramSource R A) (H' : DgramSink W D) conv q l u (r : R) (w : W),
    qis conv q l u -> pump_waits l r w -> waits q r w).
  { intros ???????????? Hq1 [[Hr ->]|Hr]; [left | by right]. split; [done|]. by apply qis_packets in Hq1 as [-> _]. }
  destruct (pump_spec (fun a => a) Some (fun a => a) (fun _ => eq_refl) (pump_fuel (send_queue s) (ch_r s))
    (send_queue s) (ch_r s) (so_w s) l u Hq) as (q1 & r1 & w1 & l1 & u1 & p & E & Hq1 & Hm1 & Hh1 & Hp).
  { unfold pump_fuel. destruct Hq as [-> _]. rewrite length_queued. lia. }
  rewrite E. assert (Hi : binv a b (mkBidi r1 (ch_w s) (so_r s) w1 q1 (recv_queue s))).
  { repeat split; cbn; [congruence|done|exists l1, u1; split; [done|congruence]|by exists l', u']. }
  destruct p as [|e|]; [|by eexists _, _|done]. unfold poll_recv_from. cbn [recv_queue so_r ch_w ch_r so_w send_queue].
  destruct (pump_spec ASocket dest_of (fun a => a) (fun _ => eq_refl) (pump_fuel (recv_queue s) (so_r s))
    (recv_queue s) (so_r s) (ch_w s) l' u' Hq') as (q2 & r2 & w2 & l2 & u2 & p & E2 & Hq2 & Hm2 & Hh2 & Hp2).
  { unfold pump_fuel. destruct Hq' as [-> _]. rewrite length_queued. lia. }
  rewrite E2. eexists _, p. split; [done|]. split.
  { repeat split; cbn; [congruence..|exists l1, u1; split; [done|congruence]|exists l2, u2; split; [done|congruence]]. }
  destruct p; [cbn; eauto | done..].
Qed.

Lemma binv_new (ar : AR) (aw : AW) (br : BR) (bw : BW) :
  binv (dk_got bw ++ cut (ds_items ar)) (dk_got aw ++ cut (ds_items br)) (connect_udp ar aw br bw).
Proof.
  split; [done|]. split; [done|]. split; (exists [], false; split; [split; [done|exists 1%nat; cbn; split; [done|lia]]|]);
    unfold in_hand, to_tgt; cbn [app]; by rewrite map_pair_id.
Qed.

(** The sinks only go by what sends do to them. *)
Lemma bidi_poll_sink (P : AW -> Prop) : (forall w d t w' p, dk_send w d t = (w', p) -> P w -> P w') ->
  forall (s s' : @CopyBidirectional AR AW BR BW) p, bidi_poll s = Some (s', p) -> P (ch_w s) -> P (ch_w s').
Proof.
  intros HP s s' p. unfold bidi_poll, poll_send_to, poll_recv_from.
  destruct (pump _ _ _ (send_queue s) _ _) as [[[[q r] w] [|e|]]|]; [|by intros [= <- <-]..|done].
  cbn [recv_queue so_r ch_w ch_r so_w send_queue].
  destruct (pump _ _ _ (recv_queue s) _ _) as [[[[q2 r2] w2] p2]|] eqn:E; [|done].
  intros [= <- <-] Hw. exact (pump_sink _ _ P HP _ _ _ _ _ _ _ _ E Hw).
Qed.

(** C18: A UDP relay, over any two ends (any order of datagrams, pending
    answers and errors) and however often it is polled: it never spins and
    never reaches its [unreachable!()]; in each direction what was sent, then
    what is queued, then what is still to come is exactly the sequence that
    was given, each datagram cut to 2048 bytes, so that nothing is lost,
    repeated or reordered, not even by an error; at most 16 packets are
    queued; and while it waits, each direction waits for its sink, or for its
    source with nothing queued. *)
Theorem relay_udp_exact n (ar : AR) (aw : AW) (br : BR) (bw : BW) :
  exists s p, bidi_polls n (connect_udp ar aw br bw) = Some (s, p) /\
    dk_got (so_w s) ++ packets (send_queue s) ++ cut (ds_items (ch_r s)) = dk_got bw ++ cut (ds_items ar) /\
    of_socket (dk_got (ch_w s)) ++ packets (recv_queue s) ++ of_socket (cut (ds_items (so_r s))) =
      of_socket (dk_got aw ++ cut (ds_items br)) /\
    (length (packets (send_queue s)) <= 16)%nat /\ (length (packets (recv_queue s)) <= 16)%nat /\
    match p with
    | PumpPending => (0 < n)%nat ->
      waits (send_queue s) (ch_r s) (so_w s) /\ waits (recv_queue s) (so_r s) (ch_w s)
    | PumpErr _ => True
    | PumpPanic => False
    end.
Proof.
  set (a := dk_got bw ++ cut (ds_items ar)). set (b := dk_got aw ++ cut (ds_items br)).
  pose proof (binv_new ar aw br bw : binv a b _) as Hi.
  assert (Hg : forall s0, binv a b s0 -> exists s p, bidi_polls n s0 = Some (s, p) /\ binv a b s /\
    match p with
    | PumpPending => (0 < n)%nat -> waits (send_queue s) (ch_r s) (so_w s) /\ waits (recv_queue s) (so_r s) (ch_w s)
    | PumpErr _ => True
    | PumpPanic => False
    end).
  { clear Hi. induction n as [|n IH]; intros s0 Hi; [exists s0, PumpPending; split; [done|]; split; [done|lia]|].
    destruct (udp_bidi_poll_spec a b s0 Hi) as (s1 & p & E & Hi1 & Hp). cbn [bidi_polls]. rewrite E.
    destruct p; [|by eexists _, _|done]. destruct n as [|n]; [by exists s1, PumpPending|].
    destruct (IH s1 Hi1) as (s & p & E2 & Hi2 & Hp2). exists s, p. split; [done|]. split; [done|].
    destruct p; [|done..]. intros _. apply Hp2. lia. }
  destruct (Hg _ Hi) as (s & p & E & (Hms & Hmr & (l & u & Hq & Ha) & (l' & u' & Hq' & Hb)) & Hp).
  exists s, p. split; [done|]. apply qis_packets in Hq as [El Hl], Hq' as [El' Hl'].
  rewrite <- Hb, <- Ha. unfold in_hand, to_tgt. rewrite El, El', !map_pair_id. split; [done|]. split.
  { unfold of_socket. by rewrite !map_app. }
  rewrite El, map_pair_id, Hms in Hl. rewrite El', Hmr in Hl'. auto.
Qed.

End Main.

(** Over the buffers' size the tail of a datagram is lost, though
    [forward_udp.rs] reads datagrams of up to 8192 bytes. *)
Lemma relay_udp_cuts (d : bytes) (a : Address) : (UDP_BUFFER_SIZE < length d)%nat ->
  exists s, bidi_polls 1 (connect_udp (mkUSrc [UData d a] false) (mkUSnk (@mkUWr SocketAddr [] []) false)
      (mkUSrc [] false) (mkUSnk (mkUWr [] [WOk 0]) false)) = Some (s, PumpPending) /\
    dk_got (so_w s) = [(take UDP_BUFFER_SIZE d, a)].
Proof. intros _. by eexists. Qed.

Definition udp_sample (n : nat) : list (uans Address) :=
  [UPending; UData (repeat 7 n) (ADomain (lit "a.test") 53); UData [1] (ADomain (lit "b.test") 53)].

(** The socket is busy once, so the first datagram waits in the queue. *)
Example relay_udp_sample :
  exists s, bidi_polls 1 (connect_udp (mkUSrc (tail (udp_sample 3)) false) (mkUSnk (@mkUWr SocketAddr [] []) false)
      (mkUSrc [] false) (mkUSnk (mkUWr [] [WOk 0; WPending; WOk 0]) false)) = Some (s, PumpPending) /\
    dk_got (so_w s) = [([7; 7; 7], ADomain (lit "a.test") 53)] /\ packets (send_queue s) = [([1], ADomain (lit "b.test") 53)].
Proof. by eexists. Qed.

End RelayUdp.
Export RelayUdp.
