(* ===== verification/ForwardUdp.v ===== *)
(** * The UDP forwarder: [rd-std/src/util/forward_udp.rs], [forward_udp/connection.rs], [send_back.rs]

    One future reads datagrams from a source and hands each to the connection
    of its sender, a task of its own that relays between a channel and a
    socket ([RelayUdp.v]); the tasks send the answers back over one queue.
    The interleaving of the future and the tasks is a step relation. *)

From S2P Require Import Prelude Io Address Lru RelayUdp.

Module ForwardUdp.

(* src/rd-std/src/util/forward_udp.rs:26-30 UdpPacket *)
Record UdpPacket : Type := mkUdpPacket { p_from : SocketAddr; p_to : SocketAddr; p_data : bytes }.

(** ** The back channel of a connection *)

(** What the code relies on of [tokio_util::sync::PollSender]: [ps_sent] is
    what was put on the queue with it; flushing has nothing to wait for. *)
Class PollSender (S : Type) : Type := {
  ps_sent : S -> list UdpPacket;
  ps_poll_ready : S -> S * poll (res unit);
  ps_start_send : S -> UdpPacket -> S * res unit;
  ps_poll_flush : S -> S * poll (res unit);
  ps_ready_sent : forall s, ps_sent (ps_poll_ready s).1 = ps_sent s;
  ps_start_sent : forall s x, match ps_start_send s x with
    | (s', Ok _) => ps_sent s' = ps_sent s ++ [x]
    | (s', Err _) => ps_sent s' = ps_sent s
    end;
  ps_flushed : forall s, (ps_poll_flush s).2 = Ready (Ok tt) /\ ps_sent (ps_poll_flush s).1 = ps_sent s }.

Section BackChannel.
Context {S : Type} `{PollSender S}.

(** The receiving half: the queue of the connection, and whether all its
    senders are gone. *)
Record BackRecv : Type := mkBackRecv { br_queue : list (bytes * SocketAddr); br_closed : bool; br_wait : bool }.

(* src/rd-std/src/util/forward_udp/send_back.rs:36-54 BackChannel::poll_send_to *)
Definition back_poll_send_to (cap : nat) (b : BackRecv) : BackRecv * poll (res (bytes * Address)) :=
  match br_queue b with
  | (item, addr) :: q => (mkBackRecv q (br_closed b) false, Ready (Ok (take cap item, ASocket addr)))
  | [] =>
    if br_closed b then (mkBackRecv [] true false, Ready (Err (EOther "channel closed")))
    else (mkBackRecv [] false true, Pending)
  end.

(** The sending half; [bk_wait] is whether its last answer was pending. *)
(* src/rd-std/src/util/forward_udp/send_back.rs:13-18 BackChannel *)
Record BackSend : Type := mkBackSend { bk_to : SocketAddr; sender : S; flushing : bool; bk_wait : bool }.

Definition set_sender (b : BackSend) (s : S) (f w : bool) : BackSend := mkBackSend (bk_to b) s f w.

(* src/rd-std/src/util/forward_udp/send_back.rs:56-84 BackChannel::poll_recv_from *)
Fixpoint back_poll_recv_from (fuel : nat) (b : BackSend) (buf : bytes) (target : SocketAddr) : option (BackSend * poll (res nat)) :=
  match fuel with
  | O => None
  | Datatypes.S fuel =>
    if flushing b then
      match ps_poll_flush (sender b) with
      | (s, Pending) => Some (set_sender b s true true, Pending)
      | (s, Ready (Err e)) => Some (set_sender b s true false, Ready (Err (map_other e)))
      | (s, Ready (Ok _)) => Some (set_sender b s false false, Ready (Ok (length buf)))
      end
    else
      match ps_poll_ready (sender b) with
      | (s, Pending) => Some (set_sender b s false true, Pending)
      | (s, Ready (Err e)) => Some (set_sender b s false false, Ready (Err (map_other e)))
      | (s, Ready (Ok _)) =>
        match ps_start_send s (mkUdpPacket target (bk_to b) buf) with
        | (s, Err e) => Some (set_sender b s false false, Ready (Err (map_other e)))
        | (s, Ok _) => back_poll_recv_from fuel (set_sender b s true false) buf target
        end
      end
  end.

(* src/rd-std/src/util/forward_udp/send_back.rs:21-32 BackChannel::new *)
Definition back_new (to : SocketAddr) (s : S) : BackSend := mkBackSend to s false false.

(** Two rounds are enough, and it is never left flushing. *)
Lemma back_poll_spec b buf target : flushing b = false ->
  exists b' p, back_poll_recv_from 2 b buf target = Some (b', p) /\ flushing b' = false /\ bk_to b' = bk_to b /\
    match p with
    | Ready (Ok n) => n = length buf /\ ps_sent (sender b') = ps_sent (sender b) ++ [mkUdpPacket target (bk_to b) buf]
    | Pending => ps_sent (sender b') = ps_sent (sender b) /\ bk_wait b' = true
    | Ready (Err _) => ps_sent (sender b') = ps_sent (sender b)
    end.
Proof.
  intros Hf. cbn [back_poll_recv_from]. rewrite Hf. pose proof (ps_ready_sent (sender b)) as Hr.
  destruct (ps_poll_ready (sender b)) as [s [|[[]|e]]]; cbn in Hr; [by eexists _, _| |by eexists _, _].
  pose proof (ps_start_sent s (mkUdpPacket target (bk_to b) buf)) as Hs.
  destruct (ps_start_send s _) as [s1 [[]|e]]; [|eexists _, _; split; [done|]; cbn; by rewrite Hs].
  cbn [flushing set_sender sender]. destruct (ps_flushed s1) as [Hp Hfl].
  destruct (ps_poll_flush s1) as [s2 p]. cbn in Hp, Hfl. subst p. eexists _, _. split; [done|]. cbn. by rewrite Hfl, Hs, Hr.
Qed.

(** The channel between two calls, when it is not flushing, as the relay sees
    it; [back_poll_spec] is that nothing is forgotten. *)
Record BackIdle : Type := mkIdle { id_to : SocketAddr; id_sender : S; id_wait : bool }.

Definition idle_back (b : BackIdle) : BackSend := mkBackSend (id_to b) (id_sender b) false (id_wait b).

Definition back_send (b : BackIdle) (buf : bytes) (target : SocketAddr) : BackIdle * poll (res nat) :=
  match back_poll_recv_from 2 (idle_back b) buf target with
  | Some (b, p) => (mkIdle (bk_to b) (sender b) (bk_wait b), p)
  | None => (b, Pending)
  end.

(** What it has put on the queue, all of it addressed to the connection's
    source. *)
Definition back_got (b : BackIdle) : list (bytes * SocketAddr) := map (fun p => (p_data p, p_from p)) (ps_sent (id_sender b)).

Lemma back_send_spec b buf target b' p : back_send b buf target = (b', p) ->
  id_to b' = id_to b /\
  match p with
  | Ready (Ok _) => ps_sent (id_sender b') = ps_sent (id_sender b) ++ [mkUdpPacket target (id_to b) buf]
  | Pending => ps_sent (id_sender b') = ps_sent (id_sender b) /\ id_wait b' = true
  | Ready (Err _) => ps_sent (id_sender b') = ps_sent (id_sender b)
  end.
Proof.
  unfold back_send. destruct (back_poll_spec (idle_back b) buf target eq_refl) as (b1 & p1 & E & _ & Ht & Hp).
  rewrite E. intros [= <- <-]. cbn. split; [done|]. destruct p1 as [|[n|e]]; [done| |done]. by destruct Hp.
Qed.

#[export] Instance back_source : DgramSource BackRecv Address.
Proof.
  refine {|
    ds_recv := back_poll_send_to;
    ds_items := fun b => map (fun '(d, a) => (d, ASocket a)) (br_queue b);
    ds_wait := br_wait |}.
  intros cap [[|[d a] q] c w] r' p; unfold back_poll_send_to; cbn.
  - by destruct c; intros [= <- <-].
  - intros [= <- <-]. by exists d.
Defined.

#[export] Instance back_sink : DgramSink BackIdle SocketAddr.
Proof.
  refine {| dk_send := back_send; dk_got := back_got; dk_wait := id_wait |}.
  intros w d a w' p E. apply back_send_spec in E as [_ E]. unfold back_got.
  destruct p as [|[n|e]]; [destruct E as [-> ?]; done | rewrite E; by rewrite map_app | by rewrite E].
Defined.

End BackChannel.

(** ** The future and its tasks *)

Section Forward.
Context {S C : Type} `{PollSender S} `{LruCache SocketAddr nat C}.

(* src/rd-interface/src/constant.rs:1-1 UDP_BUFFER_SIZE *)
Definition RECV_BUFFER_SIZE : nat := 8 * 1024.

Definition Relay : Type := @CopyBidirectional BackRecv (BackIdle (S := S)) (USrc SocketAddr) (USnk Address).

(** The task of a connection: binding its socket, relaying, or ended with
    what the relay then was; [t_queue] is its queue before it relays. *)
Inductive TaskState : Type :=
| Binding (q : list (bytes * SocketAddr))
| Relaying (r : Relay)
| Ended (r : option Relay).

(** For the theorems, [t_given] is all that was put on its queue and
    [t_socket] all that its socket will give. *)
Record Task : Type := mkTask {
  bind_from : SocketAddr; bind_addr : Address; t_state : TaskState;
  t_given : list (bytes * SocketAddr); t_socket : list (bytes * SocketAddr) }.

(* src/rd-std/src/util/forward_udp/connection.rs:18-40 UdpConnection::new *)
Definition conn_new (from : SocketAddr) (addr : Address) : Task := mkTask from addr (Binding []) [] [].

Definition set_recv (r : Relay) (b : BackRecv) : Relay :=
  mkBidi b (ch_w r) (so_r r) (so_w r) (send_queue r) (recv_queue r).

(** [try_send] fails when the queue is full or the task has ended. *)
(* src/rd-std/src/util/forward_udp/connection.rs:41-45 UdpConnection::send *)
Definition conn_send (channel_size : nat) (t : Task) (p : bytes * SocketAddr) : Task * res unit :=
  let put (q : list (bytes * SocketAddr)) (f : list (bytes * SocketAddr) -> TaskState) :=
    if (length q <? channel_size)%nat
    then (mkTask (bind_from t) (bind_addr t) (f (q ++ [p])) (t_given t ++ [p]) (t_socket t), Ok tt)
    else (t, Err (EOther "no available capacity")) in
  match t_state t with
  | Binding q => put q Binding
  | Relaying r => put (br_queue (ch_r r)) (fun q => Relaying (set_recv r (mkBackRecv q (br_closed (ch_r r)) (br_wait (ch_r r)))))
  | Ended _ => (t, Err (EOther "channel closed"))
  end.

(** The connections are numbered in the order of their creation; the cache
    holds the number, [tasks] the tasks.  [got] is, for the theorems, what the
    source gave, and [pushed] what each connection put on [recv_back]. *)
(* src/rd-std/src/util/forward_udp.rs:54-63 ForwardUdp *)
Record ForwardUdp : Type := mkForward {
  s_recv : list (uans (SocketAddr * SocketAddr));
  s_send : UWr (SocketAddr * SocketAddr);
  conn : C;
  recv_back : list UdpPacket;
  channel_size : nat;
  send_buf : option UdpPacket;
  tasks : list Task;
  got : list (bytes * (SocketAddr * SocketAddr));
  pushed : list (nat * UdpPacket) }.

(* src/rd-std/src/util/forward_udp.rs:69-82 ForwardUdp::new *)
Definition forward_new (r : list (uans (SocketAddr * SocketAddr))) (w : UWr (SocketAddr * SocketAddr)) (size : nat) : ForwardUdp :=
  mkForward r w (lru_new 256) [] size None [] [] [].

(* src/rd-std/src/util/forward_udp.rs:89-99 ForwardUdp::get *)
Definition fwd_get (c : C) (ts : list Task) (from : SocketAddr) : C * list Task * nat :=
  match lru_get c from with
  | (c, Some i) => (c, ts, i)
  | (c, None) => (lru_insert c from (length ts), ts ++ [conn_new from (any_addr_port from)], length ts)
  end.

(** A round for a datagram received. *)
(* src/rd-std/src/util/forward_udp.rs:104-110 ForwardUdp::poll_recv_packet (datagram) *)
Definition on_packet (f : ForwardUdp) (r : list (uans (SocketAddr * SocketAddr))) (d : bytes) (from to : SocketAddr) : ForwardUdp :=
  let '(c, ts, i) := fwd_get (conn f) (tasks f) from in
  let ts := match ts !! i with Some t => <[i := (conn_send (channel_size f) t (d, to)).1]> ts | None => ts end in
  mkForward r (s_send f) c (recv_back f) (channel_size f) (send_buf f) ts (got f ++ [(d, (from, to))]) (pushed f).

(* src/rd-std/src/util/forward_udp.rs:100-112 ForwardUdp::poll_recv_packet *)
Fixpoint poll_recv_packet (fuel : nat) (f : ForwardUdp) : option (ForwardUdp * poll (res unit)) :=
  match fuel with
  | O => None
  | Datatypes.S fuel =>
    let skip r := mkForward r (s_send f) (conn f) (recv_back f) (channel_size f) (send_buf f) (tasks f) (got f) (pushed f) in
    match udp_recv RECV_BUFFER_SIZE (s_recv f) with
    | (r, Pending) => Some (skip r, Pending)
    | (r, Ready (Err e)) => Some (skip r, Ready (Err e))
    | (r, Ready (Ok (d, (from, to)))) => poll_recv_packet fuel (on_packet f r d from to)
    end
  end.

Definition set_back (f : ForwardUdp) (w : UWr (SocketAddr * SocketAddr)) (q : list UdpPacket) (b : option UdpPacket) : ForwardUdp :=
  mkForward (s_recv f) w (conn f) q (channel_size f) b (tasks f) (got f) (pushed f).

(** The queue is never closed, as [ForwardUdp] holds a sender itself. *)
(* src/rd-std/src/util/forward_udp.rs:113-137 ForwardUdp::poll_send_back *)
Fixpoint poll_send_back (fuel : nat) (f : ForwardUdp) : option (ForwardUdp * poll (res unit)) :=
  match fuel with
  | O => None
  | Datatypes.S fuel =>
    match send_buf f with
    | Some p =>
      match udp_send (s_send f) (p_data p) (p_from p, p_to p) with
      | (w, Pending) => Some (set_back f w (recv_back f) (Some p), Pending)
      | (w, Ready (Err e)) => Some (set_back f w (recv_back f) (Some p), Ready (Err e))
      | (w, Ready (Ok _)) => poll_send_back fuel (set_back f w (recv_back f) None)
      end
    | None =>
      match recv_back f with
      | p :: q => poll_send_back fuel (set_back f (s_send f) q (Some p))
      | [] => Some (f, Pending)
      end
    end
  end.

(** Clearing expired connections is [step_expire] below. *)
(* src/rd-std/src/util/forward_udp.rs:146-155 ForwardUdp::poll *)
Definition forward_poll (f : ForwardUdp) : option (ForwardUdp * poll (res unit)) :=
  match poll_recv_packet (Datatypes.S (length (s_recv f))) f with
  | None => None
  | Some (f, Ready (Err e)) => Some (f, Ready (Err e))
  | Some (f, a_to_b) =>
    match poll_send_back (2 * length (recv_back f) + 3) f with
    | None => None
    | Some (f, Ready (Err e)) => Some (f, Ready (Err e))
    | Some (f, b_to_a) =>
      match a_to_b, b_to_a with
      | Pending, Pending => Some (f, Pending)
      | _, _ => Some (f, Ready (Ok tt))
      end
    end
  end.

Definition set_task (f : ForwardUdp) (i : nat) (t : Task) (ps : list UdpPacket) : ForwardUdp :=
  mkForward (s_recv f) (s_send f) (conn f) (recv_back f ++ ps) (channel_size f) (send_buf f) (<[i := t]> (tasks f))
    (got f) (pushed f ++ map (fun p => (i, p)) ps).

Definition set_conn (f : ForwardUdp) (c : C) : ForwardUdp :=
  mkForward (s_recv f) (s_send f) c (recv_back f) (channel_size f) (send_buf f) (tasks f) (got f) (pushed f).

Definition set_state (t : Task) (st : TaskState) : Task := mkTask (bind_from t) (bind_addr t) st (t_given t) (t_socket t).

Definition set_bound (t : Task) (r : Relay) : Task :=
  mkTask (bind_from t) (bind_addr t) (Relaying r) (t_given t) (ds_items (so_r r)).

(** The senders of a connection are gone when the cache holds it no more. *)
Definition dropped (f : ForwardUdp) (i : nat) (t : Task) : bool := bool_decide (held (conn f) (bind_from t) <> Some i).

(** What happens: the future is polled; a task's socket is bound, to any
    socket, or fails; a task is polled; connections expire; a dropped
    connection is aborted.  Once the future has answered it is not polled
    again; a theorem about more steps holds of fewer. *)
(* src/rd-std/src/util/forward_udp/connection.rs:27-52 UdpConnection (task and drop) *)
Inductive step (f : ForwardUdp) : ForwardUdp -> Prop :=
| step_poll f' p : forward_poll f = Some (f', p) -> step f f'
| step_bind i t q s br bw : tasks f !! i = Some t -> t_state t = Binding q -> ps_sent s = [] -> u_out (uk_wr bw) = [] ->
    step f (set_task f i (set_bound t (connect_udp (mkBackRecv q (dropped f i t) false) (mkIdle (bind_from t) s false) br bw)) [])
| step_bind_failed i t q : tasks f !! i = Some t -> t_state t = Binding q -> step f (set_task f i (set_state t (Ended None)) [])
| step_task i t r r' p : tasks f !! i = Some t -> t_state t = Relaying r ->
    bidi_poll (set_recv r (mkBackRecv (br_queue (ch_r r)) (dropped f i t) (br_wait (ch_r r)))) = Some (r', p) ->
    step f (set_task f i (set_state t (match p with PumpPending => Relaying r' | _ => Ended (Some r') end))
      (drop (length (ps_sent (id_sender (ch_w r)))) (ps_sent (id_sender (ch_w r')))))
| step_expire c : (forall k i, held c k = Some i -> held (conn f) k = Some i) -> step f (set_conn f c)
| step_abort i t : tasks f !! i = Some t -> dropped f i t = true ->
    step f (set_task f i (set_state t (Ended (match t_state t with Relaying r => Some r | Ended r => r | Binding _ => None end))) []).

(** *** Invariants *)

Definition cut_sa (l : list (bytes * SocketAddr)) : list (bytes * Address) :=
  map (fun '(d, a) => (take UDP_BUFFER_SIZE d, ASocket a)) l.

(** What connection [i] put on the queue, and what the source gave from [k]. *)
Definition of_conn (i : nat) (l : list (nat * UdpPacket)) : list UdpPacket :=
  omap (fun '(j, p) => if decide (j = i) then Some p else None) l.

Definition from_source (k : SocketAddr) (l : list (bytes * (SocketAddr * SocketAddr))) : list (bytes * SocketAddr) :=
  omap (fun '(d, (from, to)) => if decide (from = k) then Some (d, to) else None) l.

Definition handed (f : ForwardUdp) : list UdpPacket :=
  map (fun '(d, (from, to)) => mkUdpPacket from to d) (u_out (s_send f)).

Definition relay_of (t : Task) : option Relay :=
  match t_state t with Relaying r => Some r | Ended r => r | Binding _ => None end.

Definition relay_ok (t : Task) (c : list UdpPacket) (r : Relay) : Prop :=
  binv (cut_sa (t_given t)) (cut (t_socket t)) r /\ c = ps_sent (id_sender (ch_w r)) /\
  Forall (fun p => p_to p = bind_from t) c /\ id_to (ch_w r) = bind_from t.

Definition task_ok (t : Task) (c : list UdpPacket) (g : list (bytes * (SocketAddr * SocketAddr))) : Prop :=
  bind_addr t = any_addr_port (bind_from t) /\ t_given t `sublist_of` from_source (bind_from t) g /\
  match relay_of t with Some r => relay_ok t c r | None => c = [] end /\
  (forall q, t_state t = Binding q -> q = t_given t).

Definition finv (f : ForwardUdp) : Prop :=
  handed f ++ option_list (send_buf f) ++ recv_back f = map snd (pushed f) /\
  (forall i t, tasks f !! i = Some t -> task_ok t (of_conn i (pushed f)) (got f)) /\
  (forall k i, held (conn f) k = Some i -> exists t, tasks f !! i = Some t /\ bind_from t = k) /\
  Forall (fun '(i, _) => (i < length (tasks f))%nat) (pushed f).

Lemma from_source_app k l l' : from_source k (l ++ l') = from_source k l ++ from_source k l'.
Proof. apply omap_app. Qed.

Lemma of_conn_app i l l' : of_conn i (l ++ l') = of_conn i l ++ of_conn i l'.
Proof. apply omap_app. Qed.

Lemma of_conn_tag i j ps : of_conn i (map (fun p => (j, p)) ps) = if decide (j = i) then ps else [].
Proof.
  induction ps as [|p ps IH]; cbn; [by destruct (decide (j = i))|].
  unfold of_conn in IH |- *. cbn. rewrite IH. by destruct (decide (j = i)).
Qed.

Lemma of_conn_fresh n l : Forall (fun '(i, _) => (i < n)%nat) l -> of_conn n l = [].
Proof.
  induction 1 as [|[i p] l Hi Hl IH]; [done|]. unfold of_conn in *. cbn. rewrite decide_False by lia. exact IH.
Qed.

Lemma task_ok_more t c g x : task_ok t c g -> task_ok t c (g ++ x).
Proof.
  intros (Ha & Hg & H'). split; [done|]. split; [|done]. rewrite from_source_app. by apply sublist_inserts_r.
Qed.

(** Other queue flags, or a datagram more on the queue. *)
Lemma binv_recv a b (r : Relay) q' c w x : binv a b r -> q' = br_queue (ch_r r) ++ x ->
  binv (a ++ cut_sa x) b (set_recv r (mkBackRecv q' c w)).
Proof.
  intros (Hms & Hmr & (l & u & Hq & Ha) & Hr) ->. split; [done|]. split; [done|]. split; [|done].
  exists l, u. split; [done|]. cbn [set_recv ch_r so_w]. revert Ha. unfold in_hand, to_tgt, cut, cut_sa. cbn.
  intros <-. rewrite !map_app, !app_assoc. f_equal. rewrite !map_map. apply map_ext. by intros [d y].
Qed.

Lemma conn_send_spec n t c g d to : task_ok t c g ->
  task_ok (conn_send n t (d, to)).1 c (g ++ [(d, (bind_from t, to))]) /\ bind_from (conn_send n t (d, to)).1 = bind_from t.
Proof.
  intros Hok. pose proof (task_ok_more t c g [(d, (bind_from t, to))] Hok) as Hmore.
  destruct Hok as (Ha & Hg & Hr & Hb).
  assert (Hsub : t_given t ++ [(d, to)] `sublist_of` from_source (bind_from t) (g ++ [(d, (bind_from t, to))])).
  { rewrite from_source_app. apply sublist_app; [done|]. unfold from_source. cbn. by rewrite decide_True. }
  unfold conn_send. unfold relay_of in Hr. destruct (t_state t) as [q|r|o] eqn:Est; [| |done].
  - destruct (length q <? n)%nat; [|done]. split; [|done]. split; [done|]. split; [done|]. split; [done|].
    intros q' [= <-]. cbn. by rewrite (Hb q eq_refl).
  - destruct (length _ <? n)%nat; [|done]. split; [|done]. split; [done|]. split; [done|]. split; [|done].
    destruct Hr as (Hi & Hc & Hto & Hid). split; [|done]. cbn. unfold cut_sa. rewrite map_app. by apply binv_recv.
Qed.

Lemma fwd_get_spec f from : finv f ->
  let '(c, ts, i) := fwd_get (conn f) (tasks f) from in
  exists t, ts !! i = Some t /\ bind_from t = from /\ (length (tasks f) <= length ts)%nat /\
    (forall j t, ts !! j = Some t -> task_ok t (of_conn j (pushed f)) (got f)) /\
    (forall k j, held c k = Some j -> exists t, ts !! j = Some t /\ bind_from t = k).
Proof.
  intros (_ & Ht & Hc & Hp). unfold fwd_get. pose proof (lru_get_held (conn f) from) as Hget.
  pose proof (lru_get_keeps (conn f) from) as Hkeep. destruct (lru_get (conn f) from) as [c [i|]]; cbn in *.
  - destruct (Hc from i) as (t & Hi & Hf); [done|]. exists t. split_and!; try done. intros k j Hj. eauto.
  - exists (conn_new from (any_addr_port from)). split_and!.
    + by apply list_lookup_middle.
    + done.
    + rewrite length_app. lia.
    + intros j t Hj. apply lookup_app_Some in Hj as [Hj|[Hlt Hj]]; [by apply Ht|].
      apply list_lookup_singleton_Some in Hj as [Hj <-]. replace j with (length (tasks f)) by lia.
      rewrite of_conn_fresh by done. split; [done|]. split; [apply sublist_nil_l|]. split; [done|]. by intros q [= <-].
    + intros k j Hj. apply lru_insert_keeps in Hj as [[-> ->]|[_ Hj]].
      * exists (conn_new from (any_addr_port from)). split; [by apply list_lookup_middle|done].
      * apply Hkeep in Hj. destruct (Hc k j Hj) as (t & Hi & Hf). exists t. split; [|done]. by apply lookup_app_l_Some.
Qed.

Lemma on_packet_finv f r d from to : finv f -> finv (on_packet f r d from to).
Proof.
  intros Hf. pose proof (fwd_get_spec f from Hf) as Hget. destruct Hf as (Hh & _ & _ & Hp). unfold on_packet.
  destruct (fwd_get (conn f) (tasks f) from) as [[c ts] i]. destruct Hget as (t & Hi & <- & Hlen & Ht & Hc).
  rewrite Hi. split; [done|]. split; [|split].
  - intros j t' Hj. cbn in Hj |- *. apply list_lookup_insert_Some in Hj as [(<- & <- & _)|[Hne Hj]].
    + by apply conn_send_spec, Ht.
    + by apply task_ok_more, Ht.
  - intros k j Hj. cbn in Hj |- *. destruct (Hc k j Hj) as (t' & Ht' & Hk). destruct (decide (i = j)) as [<-|Hne].
    + rewrite Hi in Ht'. injection Ht' as <-. exists (conn_send (channel_size f) t (d, to)).1. split.
      * rewrite list_lookup_insert_eq; [done|by eapply lookup_lt_Some].
      * rewrite <- Hk. by eapply conn_send_spec, Ht.
    + exists t'. by rewrite list_lookup_insert_ne.
  - cbn. rewrite length_insert. eapply Forall_impl; [done|]. intros [j p]. lia.
Qed.

Lemma poll_recv_packet_spec fuel : forall f, finv f -> (length (s_recv f) < fuel)%nat ->
  exists f' p, poll_recv_packet fuel f = Some (f', p) /\ finv f'.
Proof.
  induction fuel as [|fuel IH]; intros f Hf Hn; [lia|]. cbn [poll_recv_packet].
  unfold udp_recv. destruct (s_recv f) as [|[|e|d [from to]] l] eqn:E; try by eexists _, _.
  apply IH; [by apply on_packet_finv|]. cbn in Hn. unfold on_packet.
  destruct (fwd_get _ _ _) as [[c ts] i]. cbn. lia.
Qed.

Definition to_send (f : ForwardUdp) : nat := (2 * length (recv_back f) + match send_buf f with Some _ => 1 | None => 0 end)%nat.

Lemma poll_send_back_spec fuel : forall f, (to_send f < fuel)%nat ->
  exists f' p, poll_send_back fuel f = Some (f', p) /\
    tasks f' = tasks f /\ conn f' = conn f /\ got f' = got f /\ pushed f' = pushed f /\
    handed f' ++ option_list (send_buf f') ++ recv_back f' = handed f ++ option_list (send_buf f) ++ recv_back f.
Proof.
  unfold to_send. induction fuel as [|fuel IH]; intros f Hn; [lia|]. cbn [poll_send_back].
  destruct (send_buf f) as [p|] eqn:Eb.
  - unfold udp_send. destruct (u_script (s_send f)) as [|[|e|n] l] eqn:Es;
      [by (eexists _, _; split; [done|]; split_and!) .. |].
    destruct (IH (set_back f (mkUWr (u_out (s_send f) ++ [(p_data p, (p_from p, p_to p))]) l) (recv_back f) None))
      as (f' & q & E & H1 & H2 & H3 & H4 & H5); [cbn; lia|].
    exists f', q. rewrite E. split_and!; try done. rewrite H5. unfold handed. cbn. rewrite map_app, <- app_assoc. by destruct p.
  - destruct (recv_back f) as [|p q] eqn:Er.
    + exists f, Pending. split_and!; try done. by rewrite Eb, Er.
    + destruct (IH (set_back f (s_send f) q (Some p))) as (f' & x & E & H1 & H2 & H3 & H4 & H5); [cbn in *; lia|].
      exists f', x. rewrite E. by split_and!.
Qed.

(** A poll of the future always answers, and keeps the invariant. *)
Lemma forward_poll_spec f : finv f -> exists f' p, forward_poll f = Some (f', p) /\ finv f'.
Proof.
  intros Hf. unfold forward_poll.
  destruct (poll_recv_packet_spec (Datatypes.S (length (s_recv f))) f Hf) as (f1 & p & E & Hf1); [lia|]. rewrite E.
  assert (Hsb : exists f' q, poll_send_back (2 * length (recv_back f1) + 3) f1 = Some (f', q) /\ finv f').
  { destruct (poll_send_back_spec (2 * length (recv_back f1) + 3) f1) as (f2 & q & E2 & H1 & H2 & H3 & H4 & H5).
    { unfold to_send. destruct (send_buf f1); lia. }
    exists f2, q. split; [done|]. destruct Hf1 as (Hh & Ht & Hc & Hp). unfold finv. rewrite H1, H2, H3, H4, H5. done. }
  destruct Hsb as (f2 & q & E2 & Hf2).
  destruct p as [|[x|e]]; [..|by eexists _, _]; rewrite E2; destruct q as [|[y|e]]; by eexists _, _.
Qed.

(** A step of one task. *)
Lemma set_task_finv f i t t' ps : finv f -> tasks f !! i = Some t -> bind_from t' = bind_from t ->
  task_ok t' (of_conn i (pushed f) ++ ps) (got f) -> finv (set_task f i t' ps).
Proof.
  intros (Hh & Ht & Hc & Hp) Hi Hf Hok. pose proof (lookup_lt_Some _ _ _ Hi) as Hlt. split; [|split; [|split]].
  - cbn. rewrite map_app, map_map, map_id, <- Hh. by rewrite !app_assoc.
  - intros j t0 Hj. cbn [set_task tasks pushed got] in Hj |- *. rewrite of_conn_app, of_conn_tag.
    apply list_lookup_insert_Some in Hj as [(<- & <- & _)|[Hne Hj]].
    + by rewrite decide_True.
    + rewrite decide_False, app_nil_r by done. by apply Ht.
  - intros k j Hj. cbn in Hj |- *. destruct (Hc k j Hj) as (t0 & Ht0 & Hk). destruct (decide (i = j)) as [<-|Hne].
    + exists t'. split; [by apply list_lookup_insert_eq|]. by simplify_eq.
    + exists t0. by rewrite list_lookup_insert_ne.
  - cbn. rewrite length_insert. apply Forall_app. split; [done|]. apply Forall_map, Forall_forall. intros p _. done.
Qed.

Lemma back_sent (w0 : BackIdle (S := S)) :
  let P w := exists new, ps_sent (id_sender w) = ps_sent (id_sender w0) ++ new /\
    Forall (fun p => p_to p = id_to w0) new /\ id_to w = id_to w0 in
  forall w d t w' p, dk_send w d t = (w', p) -> P w -> P w'.
Proof.
  intros P w d t w' p E (new & En & Ht & Hid). apply back_send_spec in E as [Hid' E].
  destruct p as [|[n|e]]; [destruct E as [E _]| |]; rewrite En in E;
    [exists new|exists (new ++ [mkUdpPacket t (id_to w) d])|exists new];
    (split; [by rewrite E, <- ?app_assoc|]); (split; [|congruence]); [done| |done].
  apply Forall_app. split; [done|]. by constructor.
Qed.

Lemma relay_poll_ok t c (r r' : Relay) cl p : relay_ok t c r ->
  bidi_poll (set_recv r (mkBackRecv (br_queue (ch_r r)) cl (br_wait (ch_r r)))) = Some (r', p) ->
  exists new, drop (length (ps_sent (id_sender (ch_w r)))) (ps_sent (id_sender (ch_w r'))) = new /\ relay_ok t (c ++ new) r'.
Proof.
  intros (Hi & -> & Hto & Hid) E.
  apply (binv_recv _ _ _ (br_queue (ch_r r)) cl (br_wait (ch_r r)) []) in Hi; [|by rewrite app_nil_r].
  cbn [cut_sa map] in Hi. rewrite app_nil_r in Hi. destruct (udp_bidi_poll_spec _ _ _ Hi) as (r1 & p1 & E1 & Hi1 & _).
  rewrite E in E1. injection E1 as <- <-.
  destruct (bidi_poll_sink _ (back_sent (ch_w r)) _ _ _ E) as (new & En & Ht & Hid').
  { exists []. cbn. by rewrite app_nil_r. }
  exists new. split; [rewrite En; by apply drop_app_length|]. split; [done|]. split; [done|]. split; [|congruence].
  apply Forall_app. split; [done|]. by rewrite <- Hid.
Qed.

Lemma step_finv f f' : finv f -> step f f' -> finv f'.
Proof.
  intros Hf Hs. pose proof Hf as (_ & Ht & Hc & _).
  destruct Hs as [f' p E|i t q s br bw Hi Hb Hs Hw|i t q Hi Hb|i t r r' p Hi Hr E|c Hsub|i t Hi Hd].
  - destruct (forward_poll_spec f Hf) as (f1 & p1 & E1 & Hf1). rewrite E in E1. by injection E1 as <- <-.
  - eapply set_task_finv; [done..|]. destruct (Ht i t Hi) as (Ha & Hg & Hr & Hq). unfold relay_of in Hr. rewrite Hb in Hr.
    split; [done|]. split; [done|]. split; [|done]. cbn. rewrite Hr. split; [|cbn; rewrite Hs; by split_and!].
    pose proof (binv_new (mkBackRecv q (dropped f i t) false) (mkIdle (bind_from t) s false) br bw) as Hn.
    cbn [set_bound t_given t_socket]. replace (cut_sa (t_given t)) with (dk_got bw ++ cut (ds_items (mkBackRecv q (dropped f i t) false))).
    2: { cbn. rewrite Hw, <- (Hq q Hb). cbn. unfold cut, cut_sa. rewrite map_map. apply map_ext. by intros [d a]. }
    cbn [dk_got back_sink] in Hn. unfold back_got in Hn. cbn [id_sender] in Hn. rewrite Hs in Hn.
    exact Hn.
  - eapply set_task_finv; [done..|]. destruct (Ht i t Hi) as (Ha & Hg & Hr & Hq). unfold relay_of in Hr. rewrite Hb in Hr.
    rewrite Hr. by split_and!.
  - eapply set_task_finv; [done..|]. destruct (Ht i t Hi) as (Ha & Hg & Hr' & Hq). unfold relay_of in Hr'. rewrite Hr in Hr'.
    destruct (relay_poll_ok _ _ _ _ _ _ Hr' E) as (new & -> & Hok). split; [done|]. split; [done|]. by destruct p.
  - destruct Hf as (Hh & _ & _ & Hp). split; [done|]. split; [done|]. split; [|done]. intros k j Hj. by apply Hc, Hsub.
  - eapply set_task_finv; [done..|]. rewrite app_nil_r. destruct (Ht i t Hi) as (Ha & Hg & Hr & Hq).
    split; [done|]. split; [done|]. split; [|done]. unfold relay_of in Hr |- *. cbn. by destruct (t_state t).
Qed.

(** C24: The UDP forwarder, over any interleaving of its future, the tasks of
    its connections, expiry and aborts, and any behaviour of the source and
    the sockets.  A poll always answers.  Each connection binds the wildcard
    address of its source's family; the datagrams its socket is given are, in
    order and cut to 2048 bytes, a prefix of those put on its queue, which
    were all received from its source (those that find the queue full are
    dropped); the answers it sends back are, in order and cut likewise, a
    prefix of what its socket received, addressed to its source.  And what
    the source is handed, then the packet waiting for it, then the queue, is
    exactly what the connections sent back, in the order they did. *)
Theorem forward_udp_exact r w size f : u_out w = [] -> rtc step (forward_new r w size) f ->
  (exists f' p, forward_poll f = Some (f', p)) /\
  handed f ++ option_list (send_buf f) ++ recv_back f = map snd (pushed f) /\
  forall i t, tasks f !! i = Some t ->
    bind_addr t = any_addr_port (bind_from t) /\
    t_given t `sublist_of` from_source (bind_from t) (got f) /\
    match relay_of t with
    | Some r =>
      dk_got (so_w r) `prefix_of` cut_sa (t_given t) /\
      of_conn i (pushed f) = map (fun '(d, a) => mkUdpPacket a (bind_from t) d) (dk_got (ch_w r)) /\
      dk_got (ch_w r) `prefix_of` cut (t_socket t)
    | None => of_conn i (pushed f) = []
    end.
Proof.
  intros Hw Hs. assert (Hf : finv f).
  { assert (Hi : finv (forward_new r w size)).
    { split; [unfold handed; cbn; by rewrite Hw|]. split; [by intros i t Hi|]. split; [|by constructor].
      intros k i Hi. cbn in Hi. by rewrite lru_new_empty in Hi. }
    revert Hi. induction Hs as [|? ? ? Hs1 Hs2 IH]; [done|]. intros Hi. apply IH. by eapply step_finv. }
  destruct (forward_poll_spec f Hf) as (f' & p & E & _). split; [by exists f', p|]. destruct Hf as (Hh & Ht & _).
  split; [done|]. intros i t Hi. destruct (Ht i t Hi) as (Ha & Hg & Hr & _). split; [done|]. split; [done|].
  destruct (relay_of t) as [rl|]; [|done]. destruct Hr as (Hb & Hc & Hto & Hid).
  destruct Hb as (_ & _ & (l & u & _ & Hb1) & (l' & u' & _ & Hb2)). split; [rewrite <- Hb1; by eexists|]. split.
  - rewrite Hc in Hto |- *. cbn. unfold back_got. rewrite map_map. symmetry. rewrite <- (map_id (ps_sent _)) at 2.
    apply map_ext_in. intros x Hx%list_elem_of_In. rewrite Forall_forall in Hto. specialize (Hto x Hx). destruct x. cbn in *. by subst.
  - rewrite <- Hb2. unfold in_hand, to_tgt. rewrite map_pair_id. by eexists.
Qed.

(** A connection whose task has ended, because its socket failed once, stays
    in the cache, and everything from its source is dropped: the code says
    "udp send buffer full". *)
Lemma forward_dead_connection f r d from to i t :
  held (conn f) from = Some i -> tasks f !! i = Some t -> (exists o, t_state t = Ended o) ->
  tasks (on_packet f r d from to) = tasks f.
Proof.
  intros Hh Ht [o Ho]. unfold on_packet, fwd_get. pose proof (lru_get_held (conn f) from) as Hg.
  destruct (lru_get (conn f) from) as [c j]. cbn in Hg. subst j. rewrite Hh, Ht. unfold conn_send. rewrite Ho. cbn.
  by apply list_insert_id.
Qed.

End Forward.

(** *** A run *)

(** A sender whose queue has room when the script says so. *)
Record ScriptSender : Type := mkScriptSender { ss_sent : list UdpPacket; ss_ready : list (poll (res unit)) }.

#[local] Instance script_sender : PollSender ScriptSender.
Proof.
  refine {|
    ps_sent := ss_sent;
    ps_poll_ready := fun s => match ss_ready s with
      | p :: l => (mkScriptSender (ss_sent s) l, p)
      | [] => (s, Pending)
      end;
    ps_start_send := fun s x => (mkScriptSender (ss_sent s ++ [x]) (ss_ready s), Ok tt);
    ps_poll_flush := fun s => (s, Ready (Ok tt)) |}.
  - intros [q [|p l]]; reflexivity.
  - reflexivity.
  - split; reflexivity.
Defined.

#[local] Instance fw_cache : LruCache SocketAddr nat (list (SocketAddr * nat)) := bounded_cache.

Definition fw_a : SocketAddr := mkSocketAddr (V4 2130706433) 54321.
Definition fw_b : SocketAddr := mkSocketAddr (V4 2130706433) 12345.

Definition Fwd : Type := @ForwardUdp ScriptSender (list (SocketAddr * nat)).

(** [a] sends "hello" to [b], whose answer goes back. *)
Definition fw_start : Fwd :=
  forward_new [UData (lit "hello") (fw_a, fw_b)] (mkUWr [] [WPending; WOk 0]) 128.
Definition fw_polled (f : Fwd) : Fwd := match forward_poll f with Some (f, _) => f | None => f end.
Definition fw_bound (f : Fwd) : Fwd :=
  match tasks f !! 0%nat with
  | Some t => set_task f 0 (set_bound t (connect_udp (mkBackRecv [(lit "hello", fw_b)] false false)
      (mkIdle fw_a (mkScriptSender [] [Ready (Ok tt)]) false)
      (mkUSrc [UData (lit "hi") fw_b] false) (mkUSnk (mkUWr [] [WOk 0]) false))) []
  | None => f
  end.
Definition fw_task (f : Fwd) : Fwd :=
  match tasks f !! 0%nat with
  | Some t =>
    match t_state t with
    | Relaying r =>
      match bidi_poll (set_recv r (mkBackRecv (br_queue (ch_r r)) false (br_wait (ch_r r)))) with
      | Some (r', p) => set_task f 0 (set_state t (match p with PumpPending => Relaying r' | _ => Ended (Some r') end))
          (drop (length (ps_sent (id_sender (ch_w r)))) (ps_sent (id_sender (ch_w r'))))
      | None => f
      end
    | _ => f
    end
  | None => f
  end.
Definition fw_end : Fwd := fw_polled (fw_polled (fw_task (fw_bound (fw_polled fw_start)))).

Lemma fw_run : rtc step fw_start fw_end.
Proof.
  eapply rtc_l; [eapply step_poll; vm_compute; reflexivity|].
  eapply rtc_l; [eapply (step_bind _ 0) with (br := mkUSrc [UData (lit "hi") fw_b] false) (bw := mkUSnk (mkUWr [] [WOk 0]) false)
    (s := mkScriptSender [] [Ready (Ok tt)]); vm_compute; reflexivity|].
  eapply rtc_l; [eapply (step_task _ 0); vm_compute; reflexivity|].
  eapply rtc_l; [eapply step_poll; vm_compute; reflexivity|].
  eapply rtc_l; [eapply step_poll; vm_compute; reflexivity|].
  vm_compute. apply rtc_refl.
Qed.

Example fw_answered : handed fw_end = [mkUdpPacket fw_b fw_a (lit "hi")].
Proof. reflexivity. Qed.

Example forward_udp_exact_witness :
  (exists f' p, forward_poll fw_end = Some (f', p)) /\ handed fw_end = [mkUdpPacket fw_b fw_a (lit "hi")].
Proof.
  split; [|reflexivity].
  apply (forward_udp_exact [UData (lit "hello") (fw_a, fw_b)] (mkUWr [] [WPending; WOk 0]) 128 fw_end);
    [reflexivity | exact fw_run].
Defined.

End ForwardUdp.
Export ForwardUdp.
