(* ===== verification/Nets.v ===== *)
(** * The nets: [rd-interface/src/interface.rs], the nets of
    [rd-std/src/builtin/], [src/select.rs] and the nets of
    [rabbit-digger/src/rabbit_digger/running.rs]

    A net offers up to four operations; the nets of a configuration stand in
    an arena (the one [Build] makes), and a net reaches another through its
    handle there.  An operation is run against the arena as it is when it is
    called.  Operations of other plugins are functions of the nets they
    refer to. *)

From S2P Require Import Prelude Address ConnContext Build Rule Engine.

Module Nets.

(** ** Operations *)

(** An operation works on a state and answers, or [None]: it does not return
    (the fuel ran out). *)
Definition Op (St A : Type) : Type := St -> option (res A * St).

Definition op_ret {St A} (a : A) : Op St A := fun s => Some (Ok a, s).
Definition op_fail {St A} (e : error) : Op St A := fun s => Some (Err e, s).
Definition op_diverge {St A} : Op St A := fun _ => None.
(** [x.await?] followed by [f]. *)
Definition op_bind {St A B} (f : A -> Op St B) (m : Op St A) : Op St B := fun s =>
  match m s with
  | None => None
  | Some (Err e, s) => Some (Err e, s)
  | Some (Ok a, s) => f a s
  end.
Definition op_map_err {St A} (f : error -> error) (m : Op St A) : Op St A := fun s =>
  match m s with None => None | Some (r, s) => Some (map_err f r, s) end.

#[local] Instance op_mret {St} : MRet (Op St) := fun A => op_ret.
#[local] Instance op_mbind {St} : MBind (Op St) := fun A B => op_bind.

Section Nets.
(** The world outside; the streams, listeners and sockets of the plugins. *)
Context {W S L U : Type}.

(** The lookups do not take the connection's context. *)
Definition CtxOp (A : Type) : Type := Op (Context * W) A.
Definition with_world {A} (m : Op W A) : CtxOp A := fun '(c, w) =>
  match m w with None => None | Some (r, w) => Some (r, (c, w)) end.

(** [BlackItem] answers for itself; [WrapTcpStream] and [WrapUdpSocket] carry
    what their connection was opened with. *)
Inductive TcpStream : Type :=
| PluginStream (s : S)
| BlackStream
| WrapTcpStream (inner : TcpStream) (addr : Address) (ctx : Context).
Inductive TcpListener : Type :=
| PluginListener (l : L)
| BlackListener.
Inductive UdpSocket : Type :=
| PluginSocket (u : U)
| BlackSocket
| WrapUdpSocket (inner : UdpSocket) (addr : Address) (ctx : Context).

(** What a net provides; the default is [None]. *)
(* src/rd-interface/src/interface.rs:247-264 INet (trait) *)
Record INet : Type := mkINet {
  provide_tcp_connect : option (Address -> CtxOp TcpStream);
  provide_tcp_bind : option (Address -> CtxOp TcpListener);
  provide_udp_bind : option (Address -> CtxOp UdpSocket);
  provide_lookup_host : option (Address -> Op W (list SocketAddr)) }.

(* src/rd-interface/src/interface.rs:306-312 Net::tcp_connect *)
Definition tcp_connect (n : INet) (addr : Address) : CtxOp TcpStream :=
  match provide_tcp_connect n with Some f => f addr | None => op_fail ENotImplemented end.
(* src/rd-interface/src/interface.rs:313-319 Net::tcp_bind *)
Definition tcp_bind (n : INet) (addr : Address) : CtxOp TcpListener :=
  match provide_tcp_bind n with Some f => f addr | None => op_fail ENotImplemented end.
(* src/rd-interface/src/interface.rs:320-326 Net::udp_bind *)
Definition udp_bind (n : INet) (addr : Address) : CtxOp UdpSocket :=
  match provide_udp_bind n with Some f => f addr | None => op_fail ENotImplemented end.
(* src/rd-interface/src/interface.rs:327-333 Net::lookup_host *)
Definition lookup_host (n : INet) (addr : Address) : Op W (list SocketAddr) :=
  match provide_lookup_host n with Some f => f addr | None => op_fail ENotImplemented end.

(** [Address::resolve] with an asynchronous resolver. *)
(* src/rd-interface/src/address.rs:211-220 Address::resolve (asynchronous) *)
Definition resolve_op (f : bytes -> Z -> Op W (list SocketAddr)) (a : Address) : Op W (list SocketAddr) :=
  match normalize a with
  | inl s => op_ret [s]
  | inr (d, p) => f d p
  end.

(** The addresses in turn until one answers; the last error, or [none] when
    there was no address.  The context keeps what a failed attempt did to it. *)
Fixpoint try_each {St A} (none : error) (f : SocketAddr -> Op St A) (addrs : list SocketAddr)
    (last_err : option error) : Op St A := fun s =>
  match addrs with
  | [] => Some (Err (default none last_err), s)
  | addr :: addrs =>
    match f addr s with
    | None => None
    | Some (Ok x, s) => Some (Ok x, s)
    | Some (Err e, s) => try_each none f addrs (Some e) s
    end
  end.

(** ** The nets that forward to others *)

Section Forward.
Context (net : nat -> INet).

(* src/rd-std/src/builtin/alias.rs:11-27 AliasNet (INet) *)
Definition alias_net (n : nat) : INet :=
  mkINet (provide_tcp_connect (net n)) (provide_tcp_bind (net n))
    (provide_udp_bind (net n)) (provide_lookup_host (net n)).

(* src/rd-std/src/builtin/combine.rs:10-26 CombineNet (INet) *)
Definition combine_net (tcp_connect tcp_bind udp_bind lookup_host : nat) : INet :=
  mkINet (provide_tcp_connect (net tcp_connect)) (provide_tcp_bind (net tcp_bind))
    (provide_udp_bind (net udp_bind)) (provide_lookup_host (net lookup_host)).

(* src/src/select.rs:35-51 SelectNet (INet) *)
Definition select_net (selected : nat) : INet :=
  mkINet (provide_tcp_connect (net selected)) (provide_tcp_bind (net selected))
    (provide_udp_bind (net selected)) (provide_lookup_host (net selected)).

(* src/rd-std/src/builtin/resolve.rs:36-50 ResolveNet::new *)
Definition resolver (resolve_net : nat) (ipv4 ipv6 : bool) (domain : bytes) (port : Z) : Op W (list SocketAddr) :=
  addrs ← op_map_err to_io_err (lookup_host (net resolve_net) (ADomain domain port));
  mret (filter (fun i => ipv4 && is_ipv4 (sa_ip i) || ipv6 && negb (is_ipv4 (sa_ip i)) = true) addrs).

(* src/rd-std/src/builtin/resolve.rs:55-73 ResolveNet::tcp_connect *)
Definition resolve_tcp_connect (inner resolve_net : nat) (ipv4 ipv6 : bool) (addr : Address) : CtxOp TcpStream :=
  addrs ← with_world (resolve_op (resolver resolve_net ipv4 ipv6) addr);
  try_each ENotFoundIO (fun a => tcp_connect (net inner) (ASocket a)) addrs None.

(* src/rd-std/src/builtin/resolve.rs:78-92 ResolveNet::udp_bind *)
Definition resolve_udp_bind (inner resolve_net : nat) (ipv4 ipv6 : bool) (addr : Address) : CtxOp UdpSocket :=
  addrs ← with_world (resolve_op (resolver resolve_net ipv4 ipv6) addr);
  try_each ENotFoundIO (fun a => udp_bind (net inner) (ASocket a)) addrs None.

(* src/rd-std/src/builtin/resolve.rs:95-111 ResolveNet (INet) *)
Definition resolve_net (inner resolve_net : nat) (ipv4 ipv6 : bool) : INet :=
  mkINet (Some (resolve_tcp_connect inner resolve_net ipv4 ipv6)) (provide_tcp_bind (net inner))
    (Some (resolve_udp_bind inner resolve_net ipv4 ipv6)) (provide_lookup_host (net inner)).

End Forward.

(* src/rd-std/src/builtin/blackhole.rs:92-134 BlackholeNet (INet) *)
Definition blackhole_net : INet :=
  mkINet (Some (fun _ => op_ret BlackStream)) (Some (fun _ => op_ret BlackListener))
    (Some (fun _ => op_ret BlackSocket)) None.

(* src/rd-std/src/util/net.rs:4-6 NotImplementedNet (INet) *)
Definition not_implemented_net : INet := mkINet None None None None.

(** [lookup_ip] is the resolver of the DNS library; its errors are wrapped. *)
(* src/rd-std/src/builtin/dns.rs:40-66 DnsNet (LookupHost) *)
Definition dns_net (lookup_ip : bytes -> Op W (list IpAddr)) : INet :=
  mkINet None None None (Some (resolve_op (fun host port =>
    ips ← op_map_err EIoOther (lookup_ip host);
    mret (map (fun ip => mkSocketAddr ip port) ips)))).

(** ** The nets of a configuration *)

(** [PluginNet refs f]: a net of another plugin, which may call the nets
    [refs].  [ty] tells the Rust types apart. *)
Inductive NetNode : Type :=
| AliasNet (net : nat)
| CombineNet (tcp_connect tcp_bind udp_bind lookup_host : nat)
| SelectNet (selected : nat)
| ResolveNet (net resolve_net : nat) (ipv4 ipv6 : bool)
| BlackholeNet
| NotImplementedNet
| DnsNet (lookup_ip : bytes -> Op W (list IpAddr))
| PluginNet (ty : bytes) (refs : list nat) (f : (nat -> INet) -> INet).

Definition node_refs (n : NetNode) : list nat :=
  match n with
  | AliasNet a => [a]
  | CombineNet a b c d => [a; b; c; d]
  | SelectNet a => [a]
  | ResolveNet a b _ _ => [a; b]
  | PluginNet _ refs _ => refs
  | _ => []
  end.

Definition node_net (net : nat -> INet) (n : NetNode) : INet :=
  match n with
  | AliasNet a => alias_net net a
  | CombineNet a b c d => combine_net net a b c d
  | SelectNet a => select_net net a
  | ResolveNet a b v4 v6 => resolve_net net a b v4 v6
  | BlackholeNet => blackhole_net
  | NotImplementedNet => not_implemented_net
  | DnsNet f => dns_net f
  | PluginNet _ _ f => f net
  end.

(* src/src/select.rs:20-28 SelectNet::new *)
Definition select_new (selected : nat) (list : list nat) : res NetNode :=
  match list with
  | [] => Err (EOther "select list is empty")
  | _ => Ok (SelectNet selected)
  end.

Definition append_net_op (name : bytes) : CtxOp () := fun '(c, w) => Some (Ok (), (append_net c name, w)).

(** The net a [RunningNet] holds, behind its name.  It provides everything,
    whatever the net it holds provides. *)
(* src/rabbit-digger/src/rabbit_digger/running.rs:58-112 RunningNet (INet) *)
Definition running_net (name : bytes) (inner : INet) : INet :=
  mkINet
    (Some (fun addr => append_net_op name ≫= fun _ => tcp_connect inner addr))
    (Some (fun addr => append_net_op name ≫= fun _ => tcp_bind inner addr))
    (Some (fun addr => append_net_op name ≫= fun _ => udp_bind inner addr))
    (Some (lookup_host inner)).

Definition diverging : INet :=
  mkINet (Some (fun _ => op_diverge)) (Some (fun _ => op_diverge)) (Some (fun _ => op_diverge)) (Some (fun _ => op_diverge)).

(** The net of a handle. *)
Fixpoint net_at (fuel : nat) (ar : list (@RunningNet NetNode)) (h : nat) : INet :=
  match fuel with
  | O => diverging
  | Datatypes.S fuel =>
    match ar !! h with
    | Some rn => running_net (rn_name rn) (node_net (net_at fuel ar) (rn_net rn))
    | None => diverging
    end
  end.

(** ** A server's net *)

Section ServerNet.
Context (sa_to_value : SocketAddr -> Value) (sa_from_value : Value -> res SocketAddr).

(* src/rabbit-digger/src/rabbit_digger/running.rs:141-161 RunningServerNet::tcp_connect *)
Definition server_tcp_connect (server_name : bytes) (net : INet) (addr : Address) : CtxOp TcpStream := fun '(ctx, w) =>
  let ctx := prepare_context sa_to_value sa_from_value server_name ctx addr in
  match tcp_connect net addr (ctx, w) with
  | None => None
  | Some (Err e, s) => Some (Err e, s)
  | Some (Ok tcp, (ctx, w)) => Some (Ok (WrapTcpStream tcp addr ctx), (ctx, w))
  end.

(* src/rabbit-digger/src/rabbit_digger/running.rs:168-176 RunningServerNet::tcp_bind *)
Definition server_tcp_bind (server_name : bytes) (net : INet) (addr : Address) : CtxOp TcpListener :=
  append_net_op server_name ≫= fun _ => tcp_bind net addr.

(* src/rabbit-digger/src/rabbit_digger/running.rs:182-192 RunningServerNet::udp_bind *)
Definition server_udp_bind (server_name : bytes) (net : INet) (addr : Address) : CtxOp UdpSocket := fun '(ctx, w) =>
  let ctx := append_net ctx server_name in
  match udp_bind net addr (ctx, w) with
  | None => None
  | Some (Err e, s) => Some (Err e, s)
  | Some (Ok udp, (ctx, w)) => Some (Ok (WrapUdpSocket udp addr ctx), (ctx, w))
  end.

(* src/rabbit-digger/src/rabbit_digger/running.rs:195-215 RunningServerNet (INet) *)
Definition running_server_net (server_name : bytes) (net : INet) : INet :=
  mkINet (Some (server_tcp_connect server_name net)) (Some (server_tcp_bind server_name net))
    (Some (server_udp_bind server_name net)) (provide_lookup_host net).

End ServerNet.

(** ** Looking through the wrappers *)

(** An [Arc<dyn INet>]: a server's view of a net, a net of the arena, or the
    net one of them holds. *)
Inductive NetArc : Type :=
| ArcServer (net : nat)
| ArcRunning (h : nat)
| ArcNode (n : NetNode).

(* src/rd-interface/src/interface.rs:261-263 INet::get_inner (trait) *)
Definition get_inner (ar : list (@RunningNet NetNode)) (a : NetArc) : option NetArc :=
  match a with
  | ArcServer h => Some (ArcRunning h)
  | ArcRunning h => ArcNode ∘ rn_net <$> ar !! h
  | ArcNode _ => None
  end.

(** The loop, for a type told by [same_type]; it has no bound in the code. *)
(* src/rd-interface/src/interface.rs:334-345 Net::get_inner_net_by *)
Fixpoint get_inner_net_by (fuel : nat) (ar : list (@RunningNet NetNode)) (same_type : NetArc -> bool) (a : NetArc)
    : option (option NetArc) :=
  match fuel with
  | O => None
  | Datatypes.S fuel =>
    if same_type a then Some (Some a)
    else match get_inner ar a with
         | Some n => get_inner_net_by fuel ar same_type n
         | None => Some None
         end
  end.

(** ** Nets that do the same *)

Definition opt_rel {A} (R : A -> A -> Prop) (a b : option A) : Prop :=
  match a, b with Some f, Some g => R f g | None, None => True | _, _ => False end.

#[export] Instance inet_equiv : Equiv INet := fun a b =>
  opt_rel (fun f g => forall addr s, f addr s = g addr s) (provide_tcp_connect a) (provide_tcp_connect b) /\
  opt_rel (fun f g => forall addr s, f addr s = g addr s) (provide_tcp_bind a) (provide_tcp_bind b) /\
  opt_rel (fun f g => forall addr s, f addr s = g addr s) (provide_udp_bind a) (provide_udp_bind b) /\
  opt_rel (fun f g => forall addr s, f addr s = g addr s) (provide_lookup_host a) (provide_lookup_host b).

Lemma opt_rel_refl {A} (R : A -> A -> Prop) a : (forall x, R x x) -> opt_rel R a a.
Proof. by destruct a; cbn. Qed.
Lemma opt_rel_sym {A} (R : A -> A -> Prop) a b : (forall x y, R x y -> R y x) -> opt_rel R a b -> opt_rel R b a.
Proof. destruct a, b; cbn; auto. Qed.
Lemma opt_rel_trans {A} (R : A -> A -> Prop) a b c :
  (forall x y z, R x y -> R y z -> R x z) -> opt_rel R a b -> opt_rel R b c -> opt_rel R a c.
Proof. destruct a, b, c; cbn; eauto; done. Qed.

#[export] Instance inet_equivalence : @Equivalence INet equiv.
Proof.
  split.
  - intros a. repeat split; apply opt_rel_refl; done.
  - intros a b (?&?&?&?). repeat split; (eapply opt_rel_sym; [|eassumption]); intros f g E x y; by rewrite E.
  - intros a b c (?&?&?&?) (?&?&?&?).
    repeat split; (eapply opt_rel_trans; [|eassumption..]); intros f g k E1 E2 x y; by rewrite E1.
Qed.

Lemma tcp_connect_eq a b addr s : a ≡ b -> tcp_connect a addr s = tcp_connect b addr s.
Proof. intros (H & _). unfold tcp_connect. by destruct (provide_tcp_connect a), (provide_tcp_connect b). Qed.
Lemma tcp_bind_eq a b addr s : a ≡ b -> tcp_bind a addr s = tcp_bind b addr s.
Proof. intros (_ & H & _). unfold tcp_bind. by destruct (provide_tcp_bind a), (provide_tcp_bind b). Qed.
Lemma udp_bind_eq a b addr s : a ≡ b -> udp_bind a addr s = udp_bind b addr s.
Proof. intros (_ & _ & H & _). unfold udp_bind. by destruct (provide_udp_bind a), (provide_udp_bind b). Qed.
Lemma lookup_host_eq a b addr s : a ≡ b -> lookup_host a addr s = lookup_host b addr s.
Proof. intros (_ & _ & _ & H). unfold lookup_host. by destruct (provide_lookup_host a), (provide_lookup_host b). Qed.

#[export] Instance running_net_proper name : Proper (equiv ==> equiv) (running_net name).
Proof.
  intros a b E. repeat split; intros addr; [intros [c w]..|intros w]; cbn; unfold mbind, op_mbind, op_bind; cbn;
    [by apply tcp_connect_eq | by apply tcp_bind_eq | by apply udp_bind_eq | by apply lookup_host_eq].
Qed.

Lemma try_each_ext {St A} none (f g : SocketAddr -> Op St A) l last s :
  (forall a s, f a s = g a s) -> try_each none f l last s = try_each none g l last s.
Proof.
  intros E. revert last s. induction l as [|a l IH]; intros last s; [done|]. cbn. rewrite E.
  by destruct (g a s) as [[[x|e] s']|].
Qed.

(** ** Nets that answer *)

Definition answers {X St A} (f : X -> Op St A) : Prop := forall x s, is_Some (f x s).
Definition opt_all {A} (P : A -> Prop) (a : option A) : Prop := match a with Some x => P x | None => True end.

Definition net_total (n : INet) : Prop :=
  opt_all answers (provide_tcp_connect n) /\ opt_all answers (provide_tcp_bind n) /\
  opt_all answers (provide_udp_bind n) /\ opt_all answers (provide_lookup_host n).

Lemma op_bind_total {St A B} (f : A -> Op St B) m s :
  (forall s, is_Some (m s)) -> (forall a s, is_Some (f a s)) -> is_Some (op_bind f m s).
Proof. intros Hm Hf. unfold op_bind. destruct (Hm s) as [[[a|e] s'] ->]; eauto. Qed.

Lemma try_each_total {St A} none (f : SocketAddr -> Op St A) l last s :
  answers f -> is_Some (try_each none f l last s).
Proof.
  intros Hf. revert last s. induction l as [|a l IH]; intros last s; cbn; [eauto|].
  destruct (Hf a s) as [[[x|e] s'] ->]; eauto.
Qed.

Lemma net_total_ops n : net_total n ->
  (forall a s, is_Some (tcp_connect n a s)) /\ (forall a s, is_Some (tcp_bind n a s)) /\
  (forall a s, is_Some (udp_bind n a s)) /\ (forall a s, is_Some (lookup_host n a s)).
Proof.
  intros (H1 & H2 & H3 & H4). unfold tcp_connect, tcp_bind, udp_bind, lookup_host. repeat split; intros a s.
  - destruct (provide_tcp_connect n); [apply H1 | unfold op_fail; eauto].
  - destruct (provide_tcp_bind n); [apply H2 | unfold op_fail; eauto].
  - destruct (provide_udp_bind n); [apply H3 | unfold op_fail; eauto].
  - destruct (provide_lookup_host n); [apply H4 | unfold op_fail; eauto].
Qed.

Lemma running_net_total name n : net_total n -> net_total (running_net name n).
Proof.
  intros (H1 & H2 & H3 & H4)%net_total_ops. repeat split; cbn; intros a s; [apply op_bind_total.. | apply H4];
    try (intros [c w]; unfold append_net_op; eauto); intros _; [apply H1 | apply H2 | apply H3].
Qed.

(** What is asked of a plugin: it depends on the nets it refers to only, and
    answers when they do. *)
Definition plugin_ok (refs : list nat) (f : (nat -> INet) -> INet) : Prop :=
  (forall n1 n2, (forall h, In h refs -> n1 h ≡ n2 h) -> f n1 ≡ f n2) /\
  (forall net, (forall h, In h refs -> net_total (net h)) -> net_total (f net)).

Definition node_ok (n : NetNode) : Prop :=
  match n with
  | DnsNet f => answers f
  | PluginNet _ refs f => plugin_ok refs f
  | _ => True
  end.

(** The references of an arena are well founded: each goes to a net of lower
    rank.  In an arena of [Build] the rank is the handle itself. *)
Definition arena_ok (rank : nat -> nat) (ar : list (@RunningNet NetNode)) : Prop :=
  forall h rn, ar !! h = Some rn ->
    Forall (fun k => (k < length ar)%nat /\ (rank k < rank h)%nat) (node_refs (rn_net rn)) /\ node_ok (rn_net rn).

(** The nets that forward do so by the nets they refer to. *)
Lemma node_net_ext node n1 n2 : node_ok node ->
  (forall h, In h (node_refs node) -> n1 h ≡ n2 h) -> node_net n1 node ≡ node_net n2 node.
Proof.
  destruct node as [a|a b c d|a|a b v4 v6| | |f|ty refs f]; cbn [node_ok node_refs node_net]; intros Hok H; try done.
  - destruct (H a (or_introl eq_refl)) as (?&?&?&?). by repeat split.
  - destruct (H a) as (?&_); [cbn; tauto|]. destruct (H b) as (_&?&_); [cbn; tauto|].
    destruct (H c) as (_&_&?&_); [cbn; tauto|]. destruct (H d) as (_&_&_&?); [cbn; tauto|]. by repeat split.
  - destruct (H a (or_introl eq_refl)) as (?&?&?&?). by repeat split.
  - pose proof (H a) as Ha. pose proof (H b) as Hb. cbn in Ha, Hb.
    assert (Hr : forall d p s, resolver n1 b v4 v6 d p s = resolver n2 b v4 v6 d p s).
    { intros d p s. unfold resolver, mbind, op_mbind, op_bind, op_map_err.
      rewrite (lookup_host_eq (n1 b) (n2 b)) by (apply Hb; tauto). done. }
    assert (Hw : forall addr s, with_world (resolve_op (resolver n1 b v4 v6) addr) s = with_world (resolve_op (resolver n2 b v4 v6) addr) s).
    { intros addr [c w]. cbn. unfold resolve_op. destruct (normalize addr) as [sa|[d p]]; [done|]. by rewrite Hr. }
    destruct (Ha (or_introl eq_refl)) as (?&?&?&?).
    repeat split; cbn; try done; intros addr s; unfold resolve_tcp_connect, resolve_udp_bind, mbind, op_mbind, op_bind;
      rewrite Hw; destruct (with_world _ s) as [[[l|e] s']|]; try done; apply try_each_ext; intros sa s2;
      [apply tcp_connect_eq | apply udp_bind_eq]; apply Ha; tauto.
  - by apply Hok.
Qed.

Lemma node_net_total node net : node_ok node ->
  (forall h, In h (node_refs node) -> net_total (net h)) -> net_total (node_net net node).
Proof.
  destruct node as [a|a b c d|a|a b v4 v6| | |f|ty refs f]; cbn [node_ok node_refs node_net]; intros Hok H.
  - destruct (H a (or_introl eq_refl)) as (?&?&?&?). by repeat split.
  - destruct (H a) as (?&_); [cbn; tauto|]. destruct (H b) as (_&?&_); [cbn; tauto|].
    destruct (H c) as (_&_&?&_); [cbn; tauto|]. destruct (H d) as (_&_&_&?); [cbn; tauto|]. by repeat split.
  - destruct (H a (or_introl eq_refl)) as (?&?&?&?). by repeat split.
  - assert (Hw : forall addr s, is_Some (with_world (resolve_op (resolver net b v4 v6) addr) s)).
    { intros addr [c w]. cbn.
      assert (Hr : is_Some (resolve_op (resolver net b v4 v6) addr w)).
      { unfold resolve_op. destruct (normalize addr) as [sa|[d p]]; [unfold op_ret; eauto|]. apply op_bind_total.
        - intros w'. unfold op_map_err. destruct (net_total_ops (net b)) as (_ & _ & _ & Hl); [apply H; cbn; tauto|].
          destruct (Hl (ADomain d p) w') as [[r w2] ->]. eauto.
        - intros. unfold mret, op_mret, op_ret. eauto. }
      destruct Hr as [[r w'] ->]. eauto. }
    destruct (H a (or_introl eq_refl)) as (?&?&?&?). destruct (net_total_ops (net a)) as (Ht & _ & Hu & _); [by repeat split|].
    repeat split; cbn; try done; intros addr s; apply op_bind_total; auto; intros l s'; apply try_each_total; intros x s2; auto.
  - repeat split; cbn; intros x s'; unfold op_ret; eauto.
  - by repeat split.
  - repeat split; cbn. intros addr w. unfold resolve_op. destruct (normalize addr) as [sa|[d p]]; [unfold op_ret; eauto|].
    apply op_bind_total.
    + intros w'. unfold op_map_err. destruct (Hok d w') as [[r w2] ->]. eauto.
    + intros. unfold mret, op_mret, op_ret. eauto.
  - by apply Hok.
Qed.

Section Arena.
Context (rank : nat -> nat) (ar : list (@RunningNet NetNode)) (Hok : arena_ok rank ar).

Lemma refs_below h rn k : ar !! h = Some rn -> In k (node_refs (rn_net rn)) -> (k < length ar)%nat /\ (rank k < rank h)%nat.
Proof. intros E Hk. destruct (Hok h rn E) as [F _]. rewrite List.Forall_forall in F. by apply F. Qed.

Lemma node_at_fuel h rn f1 f2 (IH : forall k, (rank k < rank h)%nat -> (k < length ar)%nat -> net_at f1 ar k ≡ net_at f2 ar k) :
  ar !! h = Some rn -> node_net (net_at f1 ar) (rn_net rn) ≡ node_net (net_at f2 ar) (rn_net rn).
Proof. intros E. apply node_net_ext; [by apply (Hok h)|]. intros k Hk. destruct (refs_below h rn k E Hk). by apply IH. Qed.

Lemma net_at_fuel n : forall h f1 f2, (rank h < n)%nat -> (h < length ar)%nat -> (rank h < f1)%nat -> (rank h < f2)%nat ->
  net_at f1 ar h ≡ net_at f2 ar h.
Proof.
  induction n as [|n IH]; intros h [|f1] [|f2] Hn Hl H1 H2; try lia. cbn.
  destruct (ar !! h) as [rn|] eqn:E; [|done]. f_equiv. apply (node_at_fuel h); [|done]. intros k Hk Hk'. apply IH; lia.
Qed.

Lemma net_at_total n : forall h f, (rank h < n)%nat -> (h < length ar)%nat -> (rank h < f)%nat -> net_total (net_at f ar h).
Proof.
  induction n as [|n IH]; intros h [|f] Hn Hl Hf; try lia. cbn.
  destruct (lookup_lt_is_Some_2 ar h Hl) as [rn E]. rewrite E. apply running_net_total, node_net_total; [by apply (Hok h)|].
  intros k Hk. destruct (refs_below h rn k E Hk). apply IH; lia.
Qed.

(** The net of a handle is its name in front of what it holds. *)
Lemma net_at_unfold h f rn : ar !! h = Some rn -> (rank h < f)%nat ->
  net_at f ar h ≡ running_net (rn_name rn) (node_net (net_at f ar) (rn_net rn)).
Proof.
  intros E Hf. pose proof (lookup_lt_Some _ _ _ E). destruct f as [|f]; [lia|].
  transitivity (running_net (rn_name rn) (node_net (net_at f ar) (rn_net rn))); [cbn; by rewrite E|].
  f_equiv. apply (node_at_fuel h); [|done]. intros k Hk Hk'. apply (net_at_fuel (Datatypes.S (rank k))); lia.
Qed.

End Arena.

(** A net that is built answers every call, whatever chain of nets the call
    goes through, and the fuel beyond its rank does not matter. *)
Theorem nets_answer rank ar h fuel : arena_ok rank ar -> (h < length ar)%nat -> (rank h < fuel)%nat ->
  net_total (net_at fuel ar h) /\ forall fuel', (rank h < fuel')%nat -> net_at fuel' ar h ≡ net_at fuel ar h.
Proof.
  intros Hok Hl Hf. split; [by eapply (net_at_total rank ar Hok (Datatypes.S (rank h))); [lia|..]|].
  intros f' Hf'. apply (net_at_fuel rank ar Hok (Datatypes.S (rank h))); lia.
Qed.

(** ** The way of a connection *)

(** The names passed by a TCP connection through the nets that forward it, and
    the net that makes it. *)
Fixpoint tcp_route (fuel : nat) (ar : list (@RunningNet NetNode)) (h : nat) : option (list bytes * nat) :=
  match fuel with
  | O => None
  | Datatypes.S fuel =>
    match ar !! h with
    | None => None
    | Some rn =>
      match rn_net rn with
      | AliasNet a | SelectNet a | CombineNet a _ _ _ =>
        match tcp_route fuel ar a with
        | Some (names, leaf) => Some (rn_name rn :: names, leaf)
        | None => None
        end
      | _ => Some ([rn_name rn], h)
      end
    end
  end.

Definition forwards (n : NetNode) : bool :=
  match n with AliasNet _ | SelectNet _ | CombineNet _ _ _ _ => true | _ => false end.

Lemma running_connect name n addr c w : tcp_connect (running_net name n) addr (c, w) = tcp_connect n addr (append_net c name, w).
Proof. done. Qed.

Lemma connect_at rank ar h f rn addr c w : arena_ok rank ar -> ar !! h = Some rn -> (rank h < f)%nat ->
  tcp_connect (net_at f ar h) addr (c, w) = tcp_connect (node_net (net_at f ar) (rn_net rn)) addr (append_net c (rn_name rn), w).
Proof.
  intros Hok E Hf. erewrite tcp_connect_eq; [|by eapply net_at_unfold]. apply running_connect.
Qed.

Lemma route_from rank ar fuel n : arena_ok rank ar -> forall h, (h < length ar)%nat -> (rank h < n)%nat -> (rank h < fuel)%nat ->
  exists names j rn, tcp_route n ar h = Some (names, j) /\ ar !! j = Some rn /\ forwards (rn_net rn) = false /\
    forall addr c w, tcp_connect (net_at fuel ar h) addr (c, w) =
      tcp_connect (node_net (net_at fuel ar) (rn_net rn)) addr (fold_left append_net names c, w).
Proof.
  intros Hok. induction n as [|n IH]; intros h Hl Hn Hf; [lia|].
  destruct (lookup_lt_is_Some_2 ar h Hl) as [rn E]. cbn [tcp_route]. rewrite E.
  assert (Hstep : forall a, In a (node_refs (rn_net rn)) ->
    (forall addr s, tcp_connect (node_net (net_at fuel ar) (rn_net rn)) addr s = tcp_connect (net_at fuel ar a) addr s) ->
    exists names j rn', match tcp_route n ar a with Some (names, leaf) => Some (rn_name rn :: names, leaf) | None => None end = Some (names, j) /\
      ar !! j = Some rn' /\ forwards (rn_net rn') = false /\
      forall addr c w, tcp_connect (net_at fuel ar h) addr (c, w) =
        tcp_connect (node_net (net_at fuel ar) (rn_net rn')) addr (fold_left append_net names c, w)).
  { intros a Ha Hfw. destruct (refs_below rank ar Hok h rn a E Ha).
    destruct (IH a) as (names & j & rn' & -> & Hj & Hlf & Hc); [done|lia|lia|].
    exists (rn_name rn :: names), j, rn'. repeat split; try done. intros addr c w.
    rewrite (connect_at rank ar h fuel rn) by done. by rewrite Hfw, Hc. }
  destruct (rn_net rn) as [a|a b c d|a|a b v4 v6| | |f|ty refs f] eqn:En;
    try (apply (Hstep a); [by left | done]);
    (eexists _, h, rn; repeat split; [done| by rewrite En |]; intros addr c0 w; by rewrite (connect_at rank ar h fuel rn), En by done).
Qed.

(** C6: Aliases, selections and combinations are transparent: a connection made
    through them is the one the net at the end of the way makes, and its
    context records the names of all nets passed, in order. *)
Theorem connect_route rank ar h fuel : arena_ok rank ar -> (h < length ar)%nat -> (rank h < fuel)%nat ->
  exists names j rn, tcp_route fuel ar h = Some (names, j) /\ ar !! j = Some rn /\ forwards (rn_net rn) = false /\
    forall addr c w l, net_list c = cvs_of l -> exists c', net_list c' = cvs_of (l ++ names) /\ data c' = data c /\
      tcp_connect (net_at fuel ar h) addr (c, w) = tcp_connect (node_net (net_at fuel ar) (rn_net rn)) addr (c', w).
Proof.
  intros Hok Hl Hf. destruct (route_from rank ar fuel fuel Hok h Hl Hf Hf) as (names & j & rn & Hr & Hj & Hlf & Hc).
  exists names, j, rn. repeat split; try done. intros addr c w l E.
  exists (fold_left append_net names c). rewrite Hc. assert (forall names c l, net_list c = cvs_of l ->
    net_list (fold_left append_net names c) = cvs_of (l ++ names) /\ data (fold_left append_net names c) = data c) as Hfold.
  { clear. induction names as [|x names IH]; intros c l E; cbn [fold_left]; [by rewrite app_nil_r|].
    destruct (IH (append_net c x) (l ++ [x])) as [H1 H2]; [unfold append_net; cbn; by rewrite E, cvs_push_of|].
    by rewrite H1, <-app_assoc, H2. }
  destruct (Hfold names c l E). done.
Qed.

(** ** Replacing a net *)

Definition refers (ar : list (@RunningNet NetNode)) (h k : nat) : Prop :=
  exists rn, ar !! h = Some rn /\ In k (node_refs (rn_net rn)).
Definition reaches (ar : list (@RunningNet NetNode)) : nat -> nat -> Prop := rtc (refers ar).

Lemma update_elsewhere rank ar ar' (h : nat) fuel n : arena_ok rank ar ->
  (forall k, k <> h -> ar' !! k = ar !! k) ->
  forall h', (rank h' < n)%nat -> (h' < length ar)%nat -> (rank h' < fuel)%nat -> ~ reaches ar h' h ->
  net_at fuel ar' h' ≡ net_at fuel ar h'.
Proof.
  intros Hok Hk. revert fuel. induction n as [|n IH]; intros [|fuel] h' Hn Hl Hf Hr; try lia. cbn.
  rewrite Hk by (intros ->; by apply Hr).
  destruct (ar !! h') as [rn|] eqn:E; [|done]. f_equiv. apply node_net_ext; [by apply (Hok h')|].
  intros k Hin. destruct (refs_below rank ar Hok h' rn k E Hin). apply IH; [lia..|].
  intros Hre. apply Hr. eapply rtc_l; [|exact Hre]. by exists rn.
Qed.

(** Replacing what a net of the arena holds (the engine does it when a
    selection or an option changes) takes effect for every call through that
    net, under the same name, and for no net from which it is not reached. *)
Theorem replace_net_exact rank ar h rn n fuel :
  arena_ok rank ar -> arena_ok rank (running_net_update h n ar) -> ar !! h = Some rn -> (rank h < fuel)%nat ->
  net_at fuel (running_net_update h n ar) h ≡ running_net (rn_name rn) (node_net (net_at fuel ar) n) /\
  forall h', (h' < length ar)%nat -> (rank h' < fuel)%nat -> ~ reaches ar h' h ->
    net_at fuel (running_net_update h n ar) h' ≡ net_at fuel ar h'.
Proof.
  intros Hok Hok' E Hf.
  assert (Hk : forall k, k <> h -> running_net_update h n ar !! k = ar !! k).
  { intros k Hk. unfold running_net_update. by apply list_lookup_alter_ne. }
  assert (E' : running_net_update h n ar !! h = Some (mkRunningNet (rn_name rn) n)).
  { unfold running_net_update. by rewrite list_lookup_alter_eq, E. }
  split.
  - rewrite (net_at_unfold rank _ Hok' h fuel _ E' Hf). cbn [rn_name rn_net]. f_equiv.
    destruct (Hok' _ _ E') as [_ Hn]. apply node_net_ext; [done|]. intros k Hin.
    destruct (refs_below rank _ Hok' h _ k E' Hin) as [Hl Hlt].
    unfold running_net_update in Hl. rewrite length_alter in Hl.
    apply (update_elsewhere rank ar _ h fuel (Datatypes.S (rank k))); [done..|lia|done|lia|].
    intros Hr. assert (forall x y, reaches ar x y -> (rank y <= rank x)%nat) as Hmono; [|specialize (Hmono _ _ Hr); lia].
    clear -Hok. intros x y Hxy. induction Hxy as [|x y z (rn & E & Hin) _ IH]; [done|].
    destruct (refs_below rank ar Hok x rn y E Hin). lia.
  - intros h' Hl Hf' Hr. by apply (update_elsewhere rank ar _ h fuel (Datatypes.S (rank h'))); [..|lia|done|done|done].
Qed.

(** ** Resolving before connecting *)

(** [l] fails address by address, from one state to another. *)
Inductive all_fail {St A} (f : SocketAddr -> Op St A) : list SocketAddr -> St -> list error -> St -> Prop :=
| all_fail_nil s : all_fail f [] s [] s
| all_fail_cons a l s e s1 es s2 : f a s = Some (Err e, s1) -> all_fail f l s1 es s2 ->
    all_fail f (a :: l) s (e :: es) s2.

Lemma try_each_all_fail {St A} none (f : SocketAddr -> Op St A) l s es s' : all_fail f l s es s' ->
  forall last l2, try_each none f (l ++ l2) last s =
    try_each none f l2 (match es with [] => last | _ => List.last (map Some es) None end) s'.
Proof.
  induction 1 as [|a l s e s1 es s2 E H IH]; intros last l2; [done|]. cbn [app try_each]. rewrite E, IH.
  by destruct es.
Qed.

Lemma all_fail_split {St A} (f : SocketAddr -> Op St A) l s : answers f ->
  (exists l1 a l2 es s1 x s2, l = l1 ++ a :: l2 /\ all_fail f l1 s es s1 /\ f a s1 = Some (Ok x, s2)) \/
  (exists es s1, all_fail f l s es s1).
Proof.
  intros Hf. revert s. induction l as [|a l IH]; intros s; [right; eexists _, _; constructor|].
  destruct (Hf a s) as [[[x|e] s1] E].
  - left. exists [], a, l, [], s, x, s1. repeat split; [constructor | done].
  - destruct (IH s1) as [(l1 & b & l2 & es & s2 & x & s3 & -> & H & E2)|(es & s2 & H)].
    + left. exists (a :: l1), b, l2, (e :: es), s2, x, s3. repeat split; [by econstructor | done].
    + right. exists (e :: es), s2. by econstructor.
Qed.

Lemma resolver_eq net r v4 v6 d p w l w' : lookup_host (net r) (ADomain d p) w = Some (Ok l, w') ->
  resolver net r v4 v6 d p w =
    Some (Ok (filter (fun i => v4 && is_ipv4 (sa_ip i) || v6 && negb (is_ipv4 (sa_ip i)) = true) l), w').
Proof. intros E. unfold resolver, mbind, op_mbind, op_bind, op_map_err. by rewrite E. Qed.

(** A resolving net looks a domain up in its second net, keeps the addresses
    of the wanted families, and tries them in order at its first net, which
    never sees a domain: the first that answers is the answer, and when all
    fail the error is the last one, or that nothing was found.  An address
    that needs no lookup is passed on as it is. *)
Theorem resolve_connects net n r v4 v6 addr c w : net_total (net n) ->
  match normalize addr with
  | inl sa => resolve_tcp_connect net n r v4 v6 addr (c, w) = tcp_connect (net n) (ASocket sa) (c, w)
  | inr (d, p) =>
    match lookup_host (net r) (ADomain d p) w with
    | None => resolve_tcp_connect net n r v4 v6 addr (c, w) = None
    | Some (Err e, w') => resolve_tcp_connect net n r v4 v6 addr (c, w) = Some (Err (to_io_err e), (c, w'))
    | Some (Ok l, w') =>
      let wanted := filter (fun i => v4 && is_ipv4 (sa_ip i) || v6 && negb (is_ipv4 (sa_ip i)) = true) l in
      let connect a := tcp_connect (net n) (ASocket a) in
      (exists l1 a l2 es s1 tcp s2, wanted = l1 ++ a :: l2 /\ all_fail connect l1 (c, w') es s1 /\
         connect a s1 = Some (Ok tcp, s2) /\ resolve_tcp_connect net n r v4 v6 addr (c, w) = Some (Ok tcp, s2)) \/
      (exists es s1, all_fail connect wanted (c, w') es s1 /\
         resolve_tcp_connect net n r v4 v6 addr (c, w) = Some (Err (List.last es ENotFoundIO), s1))
    end
  end.
Proof.
  intros (Hn & _)%net_total_ops. unfold resolve_tcp_connect, mbind, op_mbind, op_bind, with_world, resolve_op.
  destruct (normalize addr) as [sa|[d p]]; cbn [op_ret].
  - cbn. by destruct (tcp_connect (net n) (ASocket sa) (c, w)) as [[[x|e] s']|].
  - destruct (lookup_host (net r) (ADomain d p) w) as [[[l|e] w']|] eqn:E.
    + rewrite (resolver_eq net r v4 v6 d p w l w' E). cbn zeta.
      set (wanted := filter _ l). set (connect := fun a => tcp_connect (net n) (ASocket a)).
      destruct (all_fail_split connect wanted (c, w')) as [(l1 & a & l2 & es & s1 & x & s2 & El & Hf & Ea)|(es & s1 & Hf)].
      * intros a s. apply Hn.
      * left. exists l1, a, l2, es, s1, x, s2. repeat split; try done. rewrite El.
        rewrite (try_each_all_fail _ _ _ _ _ _ Hf). cbn [try_each]. by rewrite Ea.
      * right. exists es, s1. split; [done|].
        pose proof (try_each_all_fail ENotFoundIO _ _ _ _ _ Hf None []) as Ht. rewrite app_nil_r in Ht.
        rewrite Ht. cbn. do 3 f_equal. clear. destruct es as [|e es]; [done|].
        induction es as [|e' es IH] in e |- *; [done|]. apply (IH e').
    + unfold resolver, mbind, op_mbind, op_bind, op_map_err. by rewrite E.
    + unfold resolver, mbind, op_mbind, op_bind, op_map_err. by rewrite E.
Qed.

(** ** A server's view *)

(** A server's connection is made through its net with the context prepared
    for it; what comes back is wrapped with the context the connection was
    made with, and a failure is passed on. *)
Lemma server_connect_spec to from name net addr c w :
  match tcp_connect net addr (prepare_context to from name c addr, w) with
  | Some (Ok tcp, (c', w')) => server_tcp_connect to from name net addr (c, w) = Some (Ok (WrapTcpStream tcp addr c'), (c', w'))
  | r => server_tcp_connect to from name net addr (c, w) = r
  end.
Proof. unfold server_tcp_connect. by destruct (tcp_connect net addr _) as [[[x|e] [c' w']]|]. Qed.

(** Looking for a net by its type ends after the server's view, the net of
    the arena and the net it holds: it goes no further than that, so a net
    behind an alias is not found. *)
Theorem get_inner_net_by_spec ar same_type h rn fuel : ar !! h = Some rn -> (3 <= fuel)%nat ->
  get_inner_net_by fuel ar same_type (ArcServer h) =
    Some (if same_type (ArcServer h) then Some (ArcServer h)
          else if same_type (ArcRunning h) then Some (ArcRunning h)
          else if same_type (ArcNode (rn_net rn)) then Some (ArcNode (rn_net rn)) else None).
Proof.
  intros E Hf. destruct fuel as [|[|[|fuel]]]; try lia. cbn. destruct (same_type (ArcServer h)); [done|].
  destruct (same_type (ArcRunning h)); [done|]. cbn. rewrite E. cbn. by destruct (same_type (ArcNode (rn_net rn))).
Qed.

End Nets.

(** ** Samples *)

(** The world records the addresses connected to; [a1] refuses. *)
Definition a1 : SocketAddr := mkSocketAddr (V4 16909060) 80.
Definition a2 : SocketAddr := mkSocketAddr (V6 1) 80.
Definition a3 : SocketAddr := mkSocketAddr (V4 16909061) 80.

Abbreviation Node := (@NetNode (list Address) unit unit unit).
Abbreviation SNet := (@INet (list Address) unit unit unit).

Definition out_net (_ : nat -> SNet) : SNet :=
  mkINet (Some (fun addr '(c, w) => Some (if decide (addr = ASocket a1) then Err EConnectionRefused else Ok (PluginStream ()), (c, w ++ [addr]))))
    None None None.
Definition hosts_net (_ : nat -> SNet) : SNet :=
  mkINet None None None (Some (fun _ w => Some (Ok [a1; a2; a3], w))).

Definition sample_arena : list (@RunningNet Node) :=
  [ mkRunningNet (lit "out") (PluginNet (lit "out") [] out_net);
    mkRunningNet (lit "hosts") (PluginNet (lit "hosts") [] hosts_net);
    mkRunningNet (lit "v4") (ResolveNet 0 1 true false);
    mkRunningNet (lit "pick") (SelectNet 2);
    mkRunningNet (lit "main") (CombineNet 3 0 0 1) ].

Lemma out_net_ok : plugin_ok [] out_net.
Proof. split; [done|]. intros net _. repeat split; cbn. intros a [c w]. eauto. Qed.
Lemma hosts_net_ok : plugin_ok [] hosts_net.
Proof. split; [done|]. intros net _. repeat split; cbn. intros a w. eauto. Qed.
Ltac sample_node :=
  split; [cbn [rn_net node_refs]; repeat constructor; cbv; lia | cbn [rn_net node_ok]; first [apply out_net_ok | apply hosts_net_ok | exact I]].

Lemma sample_arena_ok : arena_ok id sample_arena.
Proof.
  intros h rn. destruct h as [|[|[|[|[|h]]]]]; intros E; [injection E as <-; sample_node..|discriminate E].
Qed.

Definition sample_addr : Address := ADomain (lit "www.example.com") 80.

Lemma nets_answer_witness : net_total (net_at 5 sample_arena 4).
Proof. apply (nets_answer id sample_arena 4 5 sample_arena_ok); [vm_compute|cbv]; lia. Defined.

Lemma connect_route_witness : exists names j rn, tcp_route 5 sample_arena 4 = Some (names, j) /\
  sample_arena !! j = Some rn /\ names = [lit "main"; lit "pick"; lit "v4"].
Proof.
  destruct (connect_route id sample_arena 4 5 sample_arena_ok) as (names & j & rn & E & Ej & _); [vm_compute; lia|cbv; lia|].
  exists names, j, rn. split; [exact E|]. split; [exact Ej|]. vm_compute in E. injection E as <- _. reflexivity.
Defined.

(** The first address refuses, the second is of the other family; the context
    records the net that was tried twice. *)
Lemma sample_resolve :
  match tcp_connect (net_at 5 sample_arena 4) sample_addr (ctx_new, []) with
  | Some (r, (c, w)) => r = Ok (PluginStream ()) /\ w = [ASocket a1; ASocket a3] /\
      cvs_iter (net_list c) = [lit "main"; lit "pick"; lit "v4"; lit "out"; lit "out"]
  | None => False
  end.
Proof. vm_compute. done. Qed.

Lemma resolve_connects_witness : exists r s,
  resolve_tcp_connect (net_at 5 sample_arena) 0 1 true false sample_addr (ctx_new, []) = Some (r, s).
Proof.
  pose proof (resolve_connects (net_at 5 sample_arena) 0 1 true false sample_addr ctx_new []
    (net_at_total id sample_arena sample_arena_ok 1 0 5 ltac:(cbv; lia) ltac:(vm_compute; lia) ltac:(cbv; lia))) as E.
  vm_compute in E. destruct E as [(l1 & a & l2 & es & s1 & tcp & s2 & _ & _ & _ & E)|(es & s1 & _ & E)].
  - eexists _, _. vm_compute. exact E.
  - eexists _, _. vm_compute. exact E.
Defined.

(** The selection moved from the resolving net to the one that connects. *)
Lemma replace_net_exact_witness :
  net_at 5 (running_net_update 3 (SelectNet 0) sample_arena) 3 ≡ running_net (lit "pick") (node_net (net_at 5 sample_arena) (SelectNet 0)).
Proof.
  apply (replace_net_exact id sample_arena 3 (mkRunningNet (lit "pick") (SelectNet 2)) (SelectNet 0) 5 sample_arena_ok).
  - intros h rn. destruct h as [|[|[|[|[|h]]]]]; intros E; [injection E as <-; sample_node..|discriminate E].
  - reflexivity.
  - cbv; lia.
Defined.

Lemma get_inner_net_by_spec_witness :
  get_inner_net_by 3 sample_arena (fun a => match a with ArcNode (PluginNet ty _ _) => bool_decide (ty = lit "out") | _ => false end) (ArcServer 0)
    = Some (Some (ArcNode (PluginNet (lit "out") [] out_net))).
Proof.
  rewrite (get_inner_net_by_spec sample_arena _ 0 (mkRunningNet (lit "out") (PluginNet (lit "out") [] out_net)) 3 eq_refl) by lia.
  reflexivity.
Defined.

(** A connection through nets that refer to each other in a circle, which
    replacing a net of a running engine can build, never comes back. *)
Theorem circle_never_answers : forall fuel (h : nat) addr s, (h < 3)%nat ->
  tcp_connect (net_at fuel [mkRunningNet (lit "b") (AliasNet 2 : Node);
    mkRunningNet (lit "net/a/net") (AliasNet 0); mkRunningNet (lit "a") (AliasNet 1)] h) addr s = None.
Proof.
  induction fuel as [|fuel IH]; intros h addr [c w] Hh; [done|].
  destruct h as [|[|[|h]]]; try lia; cbn [net_at lookup list_lookup]; rewrite running_connect; apply IH; lia.
Qed.

End Nets.
