(* ===== verification/Dns.v ===== *)
(** * The DNS net's runtime: [rd-std/src/builtin/dns.rs]

    What the resolver is built from, and the sockets it is given: a datagram
    socket is bound on the configured net when it is first used.  The lookups
    themselves are [Nets]'; the resolver is third-party code, and so are the
    name servers of Google and Cloudflare. *)

From S2P Require Import Prelude Text Io Address.

Module Dns.

(* src/rd-std/src/builtin/dns.rs:21-25 DnsServer *)
Inductive DnsServer : Type := Google | Cloudflare | Custom (nameserver : list SocketAddr).

(* src/rd-std/src/builtin/dns.rs:29-33 DnsConfig *)
Record DnsConfig : Type := mkDnsConfig { server : DnsServer; dns_net : option nat }.

Inductive Protocol : Type := PUdp | PTcp.

(** The library's; [tls_dns_name] and [bind_addr] are unset. *)
Record NameServerConfig : Type := mkNameServer { socket_addr : SocketAddr; protocol : Protocol; trust_negative_responses : bool }.

(* src/rd-std/src/builtin/dns.rs:100-108 nameserver_config *)
Definition nameserver_config (s : SocketAddr) : NameServerConfig := mkNameServer s PUdp false.

(** The net a connection is made on: one of the configuration, or a new
    [LocalNet], and the system's own where no net is asked. *)
Inductive Via : Type := OnNet (n : nat) | OnLocal | OnSystem.

(* src/rd-std/src/builtin/dns.rs:202-204 RDRuntime *)
Record RDRuntime : Type := mkRuntime { rt_net : Via }.

Section Runtime.
Context (google cloudflare : list NameServerConfig).

(* src/rd-std/src/builtin/dns.rs:73-97 DnsNet::build *)
Definition dns_build (config : DnsConfig) : list NameServerConfig * RDRuntime :=
  let net := match dns_net config with Some n => OnNet n | None => OnLocal end in
  let resolver_config :=
    match server config with
    | Google => google
    | Cloudflare => cloudflare
    | Custom nameserver => map nameserver_config nameserver
    end in
  (resolver_config, mkRuntime net).

(** Where a connection to a name server is made. *)
(* src/rd-std/src/builtin/dns.rs:216-224 RDRuntime::connect_tcp *)
Definition connect_tcp (_ : RDRuntime) (_ : SocketAddr) : Via := OnSystem.

Context {Sock : Type}.

(** The future that binds: what its polls will answer, until it is finished. *)
Inductive Fut : Type := Polls (l : list (poll (res Sock))) | Finished.

(** [None]: a finished future panics when it is polled. *)
Definition poll_fut (f : Fut) : option (Fut * poll (res Sock)) :=
  match f with
  | Polls [] => Some (Polls [], Pending)
  | Polls (Pending :: l) => Some (Polls l, Pending)
  | Polls (Ready x :: _) => Some (Finished, Ready x)
  | Finished => None
  end.

(* src/rd-std/src/builtin/dns.rs:129-132 Inner *)
Inductive Inner : Type := Connecting (fut : Fut) | Connected (socket : Sock).

(** The bind itself starts with the first poll. *)
(* src/rd-std/src/builtin/dns.rs:226-243 RDRuntime::bind_udp *)
Definition bind_udp (bind : Via -> SocketAddr -> list (poll (res Sock))) (r : RDRuntime) (local_addr : SocketAddr) : Inner :=
  Connecting (Polls (bind (rt_net r) local_addr)).

(** The loop goes round once, when the bind ends well. *)
(* src/rd-std/src/builtin/dns.rs:140-154 RDUdpSocket::poll_udp *)
Definition poll_udp {R} (f : Sock -> Sock * poll (res R)) (i : Inner) : option (Inner * poll (res R)) :=
  let run s := let '(s, x) := f s in Some (Connected s, x) in
  match i with
  | Connected s => run s
  | Connecting fut =>
    match poll_fut fut with
    | None => None
    | Some (fut, Pending) => Some (Connecting fut, Pending)
    | Some (fut, Ready (Err e)) => Some (Connecting fut, Ready (Err e))
    | Some (_, Ready (Ok s)) => run s
    end
  end.

(** The socket of the net. *)
Context (poll_recv : Sock -> nat -> Sock * poll (res (bytes * SocketAddr))).
Context (poll_send : Sock -> bytes -> Address -> Sock * poll (res nat)).

(* src/rd-std/src/builtin/dns.rs:161-173 RDUdpSocket::poll_recv_from *)
Definition rd_poll_recv_from (i : Inner) (cap : nat) : option (Inner * poll (res (nat * SocketAddr * bytes))) :=
  poll_udp (fun s =>
    let '(s, p) := poll_recv s cap in
    (s, match p with
        | Ready (Ok (d, addr)) => Ready (Ok (length d, addr, d))
        | Ready (Err e) => Ready (Err e)
        | Pending => Pending
        end)) i.

(* src/rd-std/src/builtin/dns.rs:175-182 RDUdpSocket::poll_send_to *)
Definition rd_poll_send_to (i : Inner) (buf : bytes) (target : SocketAddr) : option (Inner * poll (res nat)) :=
  poll_udp (fun s => poll_send s buf (ASocket target)) i.

(** ** Runs *)

Inductive op : Type := ORecv (cap : nat) | OSend (buf : bytes) (target : SocketAddr).
Inductive answer : Type := ARecv (p : poll (res (nat * SocketAddr * bytes))) | ASend (p : poll (res nat)).

Definition not_yet (o : op) : answer := match o with ORecv _ => ARecv Pending | OSend _ _ => ASend Pending end.
Definition failed (e : error) (o : op) : answer := match o with ORecv _ => ARecv (Ready (Err e)) | OSend _ _ => ASend (Ready (Err e)) end.

Definition dns_step (i : Inner) (o : op) : option (Inner * answer) :=
  match o with
  | ORecv cap => match rd_poll_recv_from i cap with Some (i, p) => Some (i, ARecv p) | None => None end
  | OSend buf target => match rd_poll_send_to i buf target with Some (i, p) => Some (i, ASend p) | None => None end
  end.

Fixpoint dns_run (i : Inner) (ops : list op) : option (Inner * list answer) :=
  match ops with
  | [] => Some (i, [])
  | o :: ops =>
    match dns_step i o with
    | None => None
    | Some (i, a) => match dns_run i ops with Some (i, l) => Some (i, a :: l) | None => None end
    end
  end.

(** The same operations on a socket that is bound. *)
Definition sock_step (s : Sock) (o : op) : Sock * answer :=
  match o with
  | ORecv cap =>
    let '(s, p) := poll_recv s cap in
    (s, ARecv (match p with Ready (Ok (d, addr)) => Ready (Ok (length d, addr, d)) | Ready (Err e) => Ready (Err e) | Pending => Pending end))
  | OSend buf target => let '(s, p) := poll_send s buf (ASocket target) in (s, ASend p)
  end.

Fixpoint sock_run (s : Sock) (ops : list op) : Sock * list answer :=
  match ops with
  | [] => (s, [])
  | o :: ops => let '(s, a) := sock_step s o in let '(s, l) := sock_run s ops in (s, a :: l)
  end.

Lemma dns_step_connected s o : dns_step (Connected s) o = Some (Connected (sock_step s o).1, (sock_step s o).2).
Proof.
  destruct o as [cap|buf target]; unfold dns_step, rd_poll_recv_from, rd_poll_send_to, poll_udp, sock_step.
  - by destruct (poll_recv s cap).
  - by destruct (poll_send s buf (ASocket target)).
Qed.

Lemma dns_run_connected ops : forall s, dns_run (Connected s) ops = Some (Connected (sock_run s ops).1, (sock_run s ops).2).
Proof.
  induction ops as [|o ops IH]; intros s; [done|]. cbn [dns_run sock_run]. rewrite dns_step_connected.
  destruct (sock_step s o) as [s1 a]. cbn [fst snd]. rewrite IH. by destruct (sock_run s1 ops).
Qed.

Lemma dns_step_waits l o : dns_step (Connecting (Polls (Pending :: l))) o = Some (Connecting (Polls l), not_yet o).
Proof. by destruct o. Qed.

Lemma dns_step_binds s l o : dns_step (Connecting (Polls (Ready (Ok s) :: l))) o = dns_step (Connected s) o.
Proof. by destruct o. Qed.

Lemma dns_step_fails e l o : dns_step (Connecting (Polls (Ready (Err e) :: l))) o = Some (Connecting Finished, failed e o).
Proof. by destruct o. Qed.

(** A socket of the resolver is the net's socket, bound late: as long as the
    bind takes nothing is sent and nothing received, and from the poll on in
    which it ends, that one included, every operation is the socket's own; where
    the bind fails, the operation has its error. *)
Theorem dns_socket_refines k rest ops :
  (forall s, let r := sock_run s (drop k ops) in
    dns_run (Connecting (Polls (replicate k Pending ++ Ready (Ok s) :: rest))) ops =
      Some (if (k <? length ops)%nat then Connected r.1
            else Connecting (Polls (replicate (k - length ops) Pending ++ Ready (Ok s) :: rest)),
            map not_yet (take k ops) ++ r.2)) /\
  (forall e o, k = length ops ->
    dns_run (Connecting (Polls (replicate k Pending ++ Ready (Err e) :: rest))) (ops ++ [o]) =
      Some (Connecting Finished, map not_yet ops ++ [failed e o])).
Proof.
  split.
  - intros s. revert k. induction ops as [|o ops IH]; intros [|k]; cbn [drop].
    + done.
    + cbn [sock_run fst snd]. by rewrite Nat.sub_0_r.
    + cbn [replicate app]. cbn [dns_run]. rewrite dns_step_binds, dns_step_connected. cbn [sock_run].
      destruct (sock_step s o) as [s1 a]. cbn [fst snd]. rewrite dns_run_connected. by destruct (sock_run s1 ops).
    + cbn [replicate app dns_run]. rewrite dns_step_waits. specialize (IH k).
      cbv zeta in IH. rewrite IH. done.
  - intros e o ->. induction ops as [|o' ops IH]; cbn [length replicate app dns_run].
    + by rewrite dns_step_fails.
    + rewrite dns_step_waits, IH. done.
Qed.

(** Once the bind has failed the socket must not be used: its future is
    finished, and to poll it again is a panic. *)
Lemma dns_socket_after_failure o : dns_step (Connecting Finished) o = None.
Proof. by destruct o. Qed.

(** Datagrams go over the configured net, connections do not. *)
Lemma dns_tcp_direct bind config n local addr : dns_net config = Some n ->
  bind_udp bind (dns_build config).2 local = Connecting (Polls (bind (OnNet n) local)) /\
  connect_tcp (dns_build config).2 addr = OnSystem.
Proof. intros E. unfold dns_build, bind_udp. rewrite E. by split. Qed.

(** Name servers of one's own are asked by datagrams alone. *)
Lemma dns_custom_udp l n : Forall (fun c => protocol c = PUdp) (dns_build (mkDnsConfig (Custom l) n)).1 /\
  map socket_addr (dns_build (mkDnsConfig (Custom l) n)).1 = l.
Proof.
  cbn [dns_build server fst]. rewrite Forall_map, map_map. split; [by apply Forall_true|]. apply map_id.
Qed.
End Runtime.

Lemma dns_socket_refines_witness :
  let recv (s : list bytes) (cap : nat) : list bytes * poll (res (bytes * SocketAddr)) := (s, Pending) in
  let send (s : list bytes) (b : bytes) (_ : Address) : list bytes * poll (res nat) := (b :: s, Ready (Ok (length b))) in
  let a := mkSocketAddr (V4 1) 53 in
  dns_run recv send (Connecting (Polls [Pending; Ready (Err ETimedOut)])) [OSend [1] a; OSend [1] a] =
    Some (Connecting Finished, [ASend Pending; ASend (Ready (Err ETimedOut))]).
Proof.
  cbv zeta. apply (proj2 (dns_socket_refines (fun (s : list bytes) (_ : nat) => (s, Pending))
    (fun (s : list bytes) (b : bytes) (_ : Address) => (b :: s, Ready (Ok (length b)))) 1 [] [OSend [1] (mkSocketAddr (V4 1) 53)])). reflexivity.
Defined.
End Dns.
