(* ===== verification/Local.v ===== *)
(** * Local nets: [rd-std/src/builtin/local.rs]

    What is done to a socket before it is used, the attempts of a TCP
    connection and their timing, binding, and the UDP socket that resolves
    its target while it sends.  The operating system is a parameter: what it
    answers to each call, and when. *)

From Stdlib Require Import QArith Sorting.Sorted Sorting.Permutation.
From S2P Require Import Prelude Io Address Nets.
Import Nets.Nets.
Open Scope Z_scope.

Module Local.

(** ** Settings of a socket *)

(** An [f64]: a finite one is [m * 2^e]. *)
Inductive f64 : Type := FNan | FInf (negative : bool) | FFin (m e : Z).

Definition f64_pos (x : f64) : bool :=
  match x with FNan => false | FInf n => negb n | FFin m _ => 0 <? m end.

(** The nearest integer to [n / d], ties to even. *)
Definition round_even (n d : Z) : Z :=
  let q := n / d in
  let r := 2 * (n mod d) in
  if r <? d then q else if d <? r then q + 1 else if Z.even q then q else q + 1.

(** [Duration::from_secs_f64], in nanoseconds; [None] is its panic, on a
    value that is negative, not a number or beyond [u64] seconds. *)
Definition from_secs_f64 (x : f64) : option Z :=
  match x with
  | FNan | FInf _ => None
  | FFin m e =>
    if m <? 0 then None
    else
      let n := m * 10 ^ 9 in
      let v := if 0 <=? e then n * 2 ^ e else round_even n (2 ^ (- e)) in
      if v <? 2 ^ 64 * 10 ^ 9 then Some v else None
  end.

(** [lookup_host] is the net that resolves instead of the system. *)
(* src/rd-std/src/builtin/local.rs:26-62 LocalNetConfig *)
Record LocalNetConfig : Type := mkLocalNetConfig {
  ttl : option Z;
  nodelay : option bool;
  mark : option Z;
  bind_device : option bytes;
  bind_addr : option IpAddr;
  connect_timeout : option Z;
  tcp_keepalive : option f64;
  recv_buffer_size : option Z;
  send_buffer_size : option Z;
  cfg_lookup_host : option nat }.

(** The calls to the system. *)
Inductive SysCall : Type :=
| NewSocket (v6 is_tcp : bool)
| SetNonblocking
| SetRecvBufferSize (n : Z)
| SetSendBufferSize (n : Z)
| Bind (a : SocketAddr)
| SetTtl (n : Z)
| SetTcpNodelay (b : bool)
| SetTcpKeepalive (nanos : Z)
| SetMark (m : Z)
| BindDevice (d : bytes)
| Connect (a : SocketAddr).

(** A statement: a call whose error ends the function, or a panic. *)
Inductive Stmt : Type := Call (c : SysCall) | PanicHere.

Definition when {A} (o : option A) (f : A -> SysCall) : list Stmt :=
  match o with Some a => [Call (f a)] | None => [] end.

(** The statements of [set_socket] on Linux, in their order. *)
(* src/rd-std/src/builtin/local.rs:90-151 LocalNetConfig::set_socket *)
Definition set_socket (cfg : LocalNetConfig) (is_tcp is_accept : bool) : list Stmt :=
  [Call SetNonblocking] ++
  when (recv_buffer_size cfg) SetRecvBufferSize ++
  when (send_buffer_size cfg) SetSendBufferSize ++
  (if is_accept then [] else when (bind_addr cfg) (fun ip => Bind (mkSocketAddr ip 0))) ++
  when (ttl cfg) SetTtl ++
  (if is_tcp then
     [Call (SetTcpNodelay (default true (nodelay cfg)))] ++
     (let keepalive_duration := default (FFin 600 0) (tcp_keepalive cfg) in
      if f64_pos keepalive_duration then
        match from_secs_f64 keepalive_duration with
        | Some d => [Call (SetTcpKeepalive d)]
        | None => [PanicHere]
        end
      else [])
   else []) ++
  when (mark cfg) SetMark ++
  (if is_accept then [] else when (bind_device cfg) BindDevice).

Inductive Outcome : Type := Finished | Failed (e : error) | Panicked.

(** The calls that are made, and how the statements end. *)
Fixpoint run (sys : SysCall -> res unit) (l : list Stmt) : list SysCall * Outcome :=
  match l with
  | [] => ([], Finished)
  | PanicHere :: _ => ([], Panicked)
  | Call c :: l =>
    match sys c with
    | Err e => ([c], Failed e)
    | Ok _ => let '(t, o) := run sys l in (c :: t, o)
    end
  end.

Definition is_v6 (a : SocketAddr) : bool := negb (is_ipv4 (sa_ip a)).

(** ** Connecting *)

(** An attempt ends some milliseconds after its start, or never. *)
Inductive Attempt (A : Type) : Type :=
| Ends (after : Z) (r : res A)
| Never
| Panics.
Arguments Ends {A} after r.
Arguments Never {A}.
Arguments Panics {A}.

(** [timeout(d, f).await??]: the attempt is polled before the clock. *)
Definition timeout {A} (ms : Z) (a : Attempt A) : Attempt A :=
  match a with
  | Ends t r => if t <=? ms then Ends t r else Ends ms (Err ETimeout)
  | Never => Ends ms (Err ETimeout)
  | Panics => Panics
  end.

Section Connect.
(** What the system answers to the calls on the socket of an address, and how
    long the connecting takes. *)
Context {A : Type} (sys : SocketAddr -> SysCall -> res unit) (dial : SocketAddr -> Attempt A).

(* src/rd-std/src/builtin/local.rs:174-200 LocalNet::tcp_connect_single *)
Definition tcp_connect_single (cfg : LocalNetConfig) (addr : SocketAddr) : list SysCall * Attempt A :=
  match run (sys addr) (Call (NewSocket (is_v6 addr) true) :: set_socket cfg true false) with
  | (t, Failed e) => (t, Ends 0 (Err e))
  | (t, Panicked) => (t, Panics)
  | (t, Finished) =>
    (t ++ [Connect addr],
     match connect_timeout cfg with
     | None => dial addr
     | Some secs => timeout (secs * 1000) (dial addr)
     end)
  end.

(** [itertools::interleave]: in turns, then what is left of either. *)
Fixpoint interleave {X} (a b : list X) : list X :=
  match a, b with
  | [], _ => b
  | _, [] => a
  | x :: a, y :: b => x :: y :: interleave a b
  end.

Definition v6_first (addrs : list SocketAddr) : list SocketAddr :=
  interleave (filter (fun a => is_v6 a = true) addrs) (filter (fun a => is_v6 a = false) addrs).

(** Attempt number [i] starts after [i * 250] milliseconds; when it ends, and
    how ([None]: it panics). *)
Definition ended (i : nat) (a : Attempt A) : option (Z * option (res A)) :=
  match a with
  | Ends t r => Some (250 * Z.of_nat i + t, Some r)
  | Panics => Some (250 * Z.of_nat i, None)
  | Never => None
  end.
Fixpoint ends_from (i : nat) (l : list (Attempt A)) : list (Z * option (res A)) :=
  match l with
  | [] => []
  | a :: l => match ended i a with Some e => [e] | None => [] end ++ ends_from (Datatypes.S i) l
  end.
Definition ends (l : list (Attempt A)) : list (Z * option (res A)) := ends_from 0 l.

(** The attempts that end do so by their times, in any order at the same time. *)
Definition in_order (l : list (Attempt A)) (order : list (Z * option (res A))) : Prop :=
  Permutation order (ends l) /\ StronglySorted (fun a b => a.1 <= b.1) order.

(** [unordered.next()] until one succeeds; [None] is a panic. *)
Fixpoint first_ok (order : list (Z * option (res A))) (last_err : option error) : option (res A) :=
  match order with
  | [] => Some (Err (default EInvalidInput last_err))
  | (_, Some (Ok x)) :: _ => Some (Ok x)
  | (_, Some (Err e)) :: order => first_ok order (Some e)
  | (_, None) :: _ => None
  end.

Definition attempts (cfg : LocalNetConfig) (addrs : list SocketAddr) : list (Attempt A) :=
  map (fun a => (tcp_connect_single cfg a).2) (v6_first addrs).

(** What connecting to the resolved addresses gives when the attempts end in
    [order]; without a success it waits for those that never end. *)
(* src/rd-std/src/builtin/local.rs:201-235 LocalNet::tcp_connect_happy_eyeballs *)
Definition happy_eyeballs (cfg : LocalNetConfig) (addrs : list SocketAddr) (order : list (Z * option (res A)))
    : poll (option (res A)) :=
  match first_ok order None with
  | Some (Err e) => if (length order =? length (attempts cfg addrs))%nat then Ready (Some (Err e)) else Pending
  | r => Ready r
  end.

(** *** Facts *)

Lemma run_app l1 l2 :
  forall s, run s (l1 ++ l2) = match run s l1 with (t, Finished) => let '(t', o) := run s l2 in (t ++ t', o) | r => r end.
Proof.
  intros s. induction l1 as [|[c|] l1 IH]; cbn; [by destruct (run s l2)| |done].
  destruct (s c); [|done]. rewrite IH. destruct (run s l1) as [t [| |]]; try done. by destruct (run s l2).
Qed.

Lemma run_finished s l t : run s l = (t, Finished) -> map Call t = l /\ Forall (fun c => exists u, s c = Ok u) t.
Proof.
  revert t. induction l as [|[c|] l IH]; intros t; cbn; [intros [= <-]; by split| |done].
  destruct (s c) as [u|e] eqn:E; [|done]. destruct (run s l) as [t' o]. intros [= <- ->].
  destruct (IH t' eq_refl) as [<- F]. split; [done|]. constructor; eauto.
Qed.

(** A connection is attempted only on a socket on which every setting of the
    configuration has been made: the mark that keeps it out of the proxy, the
    device and the address it is bound to. *)
Theorem connect_after_settings cfg addr : forall t a, tcp_connect_single cfg addr = (t, a) -> In (Connect addr) t ->
  exists t0, t = NewSocket (is_v6 addr) true :: t0 ++ [Connect addr] /\
    Forall (fun c => exists u, sys addr c = Ok u) (NewSocket (is_v6 addr) true :: t0) /\
    (forall m, mark cfg = Some m -> In (SetMark m) t0) /\
    (forall d, bind_device cfg = Some d -> In (BindDevice d) t0) /\
    (forall ip, bind_addr cfg = Some ip -> In (Bind (mkSocketAddr ip 0)) t0) /\
    In SetNonblocking t0.
Proof.
  intros t a E Hin. unfold tcp_connect_single in E. destruct (run (sys addr) _) as [t1 o] eqn:Er.
  assert (Hnot : forall l, ~ In (Call (Connect addr)) l -> forall c, In c (run (sys addr) l).1 -> c <> Connect addr).
  { clear. induction l as [|[c|] l IH]; cbn; [tauto| |tauto]. intros Hl c' Hin ->.
    destruct (sys addr c); [|destruct Hin as [->|[]]; apply Hl; by left].
    destruct (run (sys addr) l) as [t' o']. destruct Hin as [->|Hin]; [apply Hl; by left|].
    eapply IH; [|exact Hin|done]. tauto. }
  assert (Hset : ~ In (Call (Connect addr)) (Call (NewSocket (is_v6 addr) true) :: set_socket cfg true false)).
  { unfold set_socket. destruct cfg as [t0 n mk bd ba ct [k|] rb sb lh]; cbn; [destruct (f64_pos k), (from_secs_f64 k)|];
      destruct t0, mk, bd, ba, rb, sb; cbn; intros Hc; repeat destruct Hc as [Hc|Hc]; try discriminate Hc; done. }
  destruct o; injection E as <- _; 
    try (exfalso; eapply (Hnot _ Hset); [rewrite Er; exact Hin | done]).
  destruct (run_finished _ _ _ Er) as [Em F]. destruct t1 as [|c t0]; [done|]. injection Em as <- Em.
  exists t0. split; [done|]. split; [done|].
  assert (Hmem : forall x, In (Call x) (set_socket cfg true false) -> In x t0).
  { intros x Hx. rewrite <- Em in Hx. by apply in_map_iff in Hx as (y & [= ->] & Hx). }
  repeat split; [intros m E|intros d E|intros ip E|]; apply Hmem; unfold set_socket; rewrite ?E, !in_app_iff; cbn; tauto.
Qed.

(** *** The order of the addresses *)

Lemma interleave_perm {X} (a b : list X) : Permutation (interleave a b) (a ++ b).
Proof.
  revert b. induction a as [|x a IH]; intros [|y b]; cbn; [done..|by rewrite app_nil_r|].
  constructor. rewrite IH. apply Permutation_middle.
Qed.

Lemma interleave_lookup {X} (a b : list X) k x :
  (a !! k = Some x -> exists i, (i <= 2 * k)%nat /\ interleave a b !! i = Some x) /\
  (b !! k = Some x -> exists i, (i <= 2 * k + 1)%nat /\ interleave a b !! i = Some x).
Proof.
  revert b k. induction a as [|y a IH]; intros [|z b] k; cbn [interleave]; split; intros E; try done.
  - exists k. split; [lia | done].
  - exists k. split; [lia | done].
  - destruct k as [|k]; [exists 0%nat; split; [lia | done]|]. destruct (proj1 (IH b k) E) as (i & Hi & Ei).
    exists (2 + i)%nat. split; [lia | done].
  - destruct k as [|k]; [exists 1%nat; split; [lia | done]|]. destruct (proj2 (IH b k) E) as (i & Hi & Ei).
    exists (2 + i)%nat. split; [lia | done].
Qed.

(** Every resolved address is tried, and none twice; the [k]-th IPv6 address
    is at most the [2k]-th attempt and the [k]-th IPv4 address at most the one
    after it, so neither family waits for the other. *)
Theorem v6_first_fair addrs :
  Permutation (v6_first addrs) addrs /\
  (forall k a, filter (fun a => is_v6 a = true) addrs !! k = Some a -> exists i, (i <= 2 * k)%nat /\ v6_first addrs !! i = Some a) /\
  (forall k a, filter (fun a => is_v6 a = false) addrs !! k = Some a -> exists i, (i <= 2 * k + 1)%nat /\ v6_first addrs !! i = Some a).
Proof.
  unfold v6_first. split; [|split; intros k a; apply interleave_lookup].
  rewrite interleave_perm. induction addrs as [|x l IH]; [done|].
  rewrite !filter_cons. destruct (is_v6 x) eqn:E; repeat case_decide; try congruence.
  - cbn [app]. by constructor.
  - rewrite <- Permutation_middle. by constructor.
Qed.

(** *** The first success *)

Lemma ends_from_in i l ev : In ev (ends_from i l) <-> exists k a, l !! k = Some a /\ ended (i + k) a = Some ev.
Proof.
  revert i. induction l as [|a l IH]; intros i; cbn; [split; [done | by intros (k & a & E & _)]|].
  rewrite in_app_iff, IH. split.
  - intros [Hin|(k & b & E & Ev)]; [exists 0%nat, a|exists (Datatypes.S k), b].
    + destruct (ended i a) eqn:Ea; [|done]. destruct Hin as [->|[]]. by rewrite Nat.add_0_r.
    + split; [done|]. by rewrite <- Nat.add_succ_comm.
  - intros ([|k] & b & E & Ev); [left; injection E as ->; rewrite Nat.add_0_r in Ev; rewrite Ev; by left|].
    right. exists k, b. split; [done|]. by rewrite Nat.add_succ_comm.
Qed.

Lemma ends_in l ev : In ev (ends l) <-> exists i a, l !! i = Some a /\ ended i a = Some ev.
Proof. apply ends_from_in. Qed.

Lemma ends_length_from l : forall i, (length (ends_from i l) <= length l)%nat /\
  (length (ends_from i l) = length l -> ~ In Never l).
Proof.
  induction l as [|a l IH]; intros i; cbn; [split; [lia | tauto]|]. destruct (IH (Datatypes.S i)) as [H1 H2].
  rewrite length_app. destruct a; cbn; (split; [lia|]); intros Hl [Hn|Hn]; try discriminate Hn; try lia; (apply H2; [lia|done]).
Qed.

Lemma ends_complete l : ~ In Never l -> forall i, length (ends_from i l) = length l.
Proof.
  induction l as [|a l IH]; intros Hn i; [done|]. cbn. rewrite length_app, IH by (intros H; apply Hn; by right).
  destruct a; cbn; [done| |done]. exfalso. apply Hn. by left.
Qed.

Lemma never_dec (l : list (Attempt A)) : In Never l \/ ~ In Never l.
Proof.
  induction l as [|a l [IH|IH]]; cbn; [tauto|tauto|].
  destruct a; [right|left; by left|right]; (intros [Ha|Ha]; [discriminate Ha | tauto]).
Qed.

(** [order] up to its first success or panic. *)
Lemma first_ok_spec order : forall last,
  match first_ok order last with
  | Some (Ok x) => exists o1 t o2, order = o1 ++ (t, Some (Ok x)) :: o2 /\ Forall (fun ev => exists e, ev.2 = Some (Err e)) o1
  | Some (Err e) => Forall (fun ev => exists e, ev.2 = Some (Err e)) order /\
      ((order = [] /\ e = default EInvalidInput last) \/ exists o1 t, order = o1 ++ [(t, Some (Err e))])
  | None => exists o1 t o2, order = o1 ++ (t, None) :: o2 /\ Forall (fun ev => exists e, ev.2 = Some (Err e)) o1
  end.
Proof.
  induction order as [|[t [[x|e]|]] order IH]; intros last; cbn [first_ok].
  - split; [constructor | by left].
  - exists [], t, order. split; [done | constructor].
  - specialize (IH (Some e)). destruct (first_ok order (Some e)) as [[x|e']|].
    + destruct IH as (o1 & t' & o2 & -> & F). exists ((t, Some (Err e)) :: o1), t', o2. split; [done|]. constructor; eauto.
    + destruct IH as (F & [[-> ->]|(o1 & t' & ->)]).
      * split; [constructor; eauto|]. right. by exists [], t.
      * split; [constructor; eauto|]. right. by exists ((t, Some (Err e)) :: o1), t'.
    + destruct IH as (o1 & t' & o2 & -> & F). exists ((t, Some (Err e)) :: o1), t', o2. split; [done|]. constructor; eauto.
  - exists [], t, order. split; [done | constructor].
Qed.

Lemma sorted_split (o1 o2 : list (Z * option (res A))) ev x :
  StronglySorted (fun a b => a.1 <= b.1) (o1 ++ ev :: o2) -> In x (o1 ++ ev :: o2) -> In x o1 \/ ev.1 <= x.1.
Proof.
  induction o1 as [|y o1 IH]; cbn; intros Hs Hin; inversion Hs as [|? ? Hs' F]; subst.
  - right. destruct Hin as [->|Hin]; [lia|]. rewrite List.Forall_forall in F. by apply F.
  - destruct Hin as [->|Hin]; [by left; left|]. destruct (IH Hs' Hin); [by left; right|by right].
Qed.

Lemma sorted_last (o1 : list (Z * option (res A))) ev x :
  StronglySorted (fun a b => a.1 <= b.1) (o1 ++ [ev]) -> In x (o1 ++ [ev]) -> x.1 <= ev.1.
Proof.
  induction o1 as [|y o1 IH]; cbn; intros Hs Hin; inversion Hs as [|? ? Hs' F]; subst.
  - destruct Hin as [->|[]]; lia.
  - destruct Hin as [->|Hin]; [|by apply IH]. rewrite List.Forall_forall in F. apply F. rewrite in_app_iff. right. by left.
Qed.

(** Waiting for ever takes an attempt that never ends. *)
Lemma pending_never cfg addrs order : in_order (attempts cfg addrs) order ->
  happy_eyeballs cfg addrs order = Pending -> In Never (attempts cfg addrs).
Proof.
  intros [Hp _]. unfold happy_eyeballs. destruct (first_ok order None) as [[x|e]|]; [done| |done].
  rewrite (Permutation_length Hp). destruct (Nat.eqb_spec (length (ends (attempts cfg addrs))) (length (attempts cfg addrs))) as [En|Hn]; [done|].
  intros _. destruct (never_dec (attempts cfg addrs)); [done|]. exfalso. by apply Hn, ends_complete.
Qed.

(** C15: The connection is the one whose attempt succeeded first: no attempt to
    any of the addresses succeeded earlier.  An error is given only when
    every attempt has failed, and is the one of an attempt that failed last
    (or, without addresses, an error of its own). *)
Theorem happy_eyeballs_first cfg addrs order : in_order (attempts cfg addrs) order ->
  let l := attempts cfg addrs in
  match happy_eyeballs cfg addrs order with
  | Ready (Some (Ok x)) => exists t, In (t, Some (Ok x)) (ends l) /\ forall t' y, In (t', Some (Ok y)) (ends l) -> t <= t'
  | Ready (Some (Err e)) => (forall a, In a l -> exists t e, a = Ends t (Err e)) /\
      ((addrs = [] /\ e = EInvalidInput) \/
       exists t, In (t, Some (Err e)) (ends l) /\ forall ev, In ev (ends l) -> ev.1 <= t)
  | Ready None => exists t, In (t, None) (ends l) /\ forall t' y, In (t', Some (Ok y)) (ends l) -> t <= t'
  | Pending => In Never l /\ forall t' y, ~ In (t', Some (Ok y)) (ends l)
  end.
Proof.
  intros [Hp Hs] l. unfold happy_eyeballs. fold l in Hp |- *.
  assert (Hin : forall ev, In ev order <-> In ev (ends l)) by (intros ev; split; apply Permutation_in; [done|by symmetry]).
  pose proof (first_ok_spec order None) as Hf. destruct (first_ok order None) as [[x|e]|].
  - destruct Hf as (o1 & t & o2 & -> & F). exists t. split; [apply Hin, in_app_iff; right; by left|].
    intros t' y Hy%Hin. destruct (sorted_split _ _ _ _ Hs Hy) as [H1|H1]; [|done].
    rewrite List.Forall_forall in F. by destruct (F _ H1) as (e & [= ]).
  - destruct Hf as (F & Hl). rewrite List.Forall_forall in F. rewrite (Permutation_length Hp).
    destruct (Nat.eqb_spec (length (ends l)) (length l)) as [En|Hn].
    + split.
      * intros a Ha. assert (a <> Never) by (intros ->; by apply (proj2 (ends_length_from l 0) En)).
        apply list_elem_of_In in Ha. apply list_elem_of_lookup in Ha as [i Hi].
        destruct (ended i a) as [ev|] eqn:Ee; [|by destruct a].
        destruct (F ev) as (e' & Ev); [apply Hin, ends_in; by exists i, a|].
        destruct a; cbn in Ee; simplify_eq; cbn in Ev; simplify_eq. eauto.
      * destruct Hl as [[-> ->]|(o1 & t & ->)].
        -- left. split; [|done]. assert (Hlen : length (ends l) = 0%nat) by (by rewrite <- (Permutation_length Hp)).
           rewrite En in Hlen. unfold l, attempts in Hlen. rewrite length_map, (Permutation_length (proj1 (v6_first_fair addrs))) in Hlen.
           by destruct addrs.
        -- right. exists t. split; [apply Hin, in_app_iff; right; by left|]. intros ev Hev%Hin. apply (sorted_last _ _ _ Hs Hev).
    + split.
      * destruct (never_dec l); [done|]. exfalso. by apply Hn, ends_complete.
      * intros t' y Hy%Hin. by destruct (F _ Hy) as (e' & [= ]).
  - destruct Hf as (o1 & t & o2 & -> & F). exists t. split; [apply Hin, in_app_iff; right; by left|].
    intros t' y Hy%Hin. destruct (sorted_split _ _ _ _ Hs Hy) as [H1|H1]; [|done].
    rewrite List.Forall_forall in F. by destruct (F _ H1) as (e & [= ]).
Qed.

Lemma single_timed cfg addr secs : connect_timeout cfg = Some secs -> 0 <= secs ->
  match (tcp_connect_single cfg addr).2 with Ends t _ => t <= 1000 * secs | Never => False | Panics => True end.
Proof.
  intros E Hs. unfold tcp_connect_single. destruct (run _ _) as [t [|e|]]; cbn [snd]; [|lia|done].
  rewrite E. unfold timeout. destruct (dial addr) as [t' r| |]; [|lia|done]. destruct (Z.leb_spec t' (secs * 1000)); cbn; lia.
Qed.

(** With a timeout configured, connecting never waits for ever: every attempt
    ends within the timeout after its start, however the system behaves. *)
Theorem happy_eyeballs_bounded cfg addrs order secs :
  connect_timeout cfg = Some secs -> 0 <= secs -> in_order (attempts cfg addrs) order ->
  happy_eyeballs cfg addrs order <> Pending /\
  forall ev, In ev order -> ev.1 <= 250 * (Z.of_nat (length addrs) - 1) + 1000 * secs.
Proof.
  intros E Hs Ho.
  assert (Hl : forall i a, attempts cfg addrs !! i = Some a ->
      (i < length addrs)%nat /\ match a with Ends t _ => t <= 1000 * secs | Never => False | Panics => True end).
  { intros i a Hi. unfold attempts in Hi. rewrite list_lookup_fmap in Hi.
    destruct (v6_first addrs !! i) as [sa|] eqn:Ei; [|done]. injection Hi as <-. split; [|by apply single_timed].
    apply lookup_lt_Some in Ei. by rewrite (Permutation_length (proj1 (v6_first_fair addrs))) in Ei. }
  split.
  - intros Hn%(pending_never _ _ _ Ho).
    apply list_elem_of_In in Hn. apply list_elem_of_lookup in Hn as [i Hi]. by destruct (Hl _ _ Hi) as [_ []].
  - intros ev Hev. eapply Permutation_in in Hev; [|apply Ho]. apply ends_in in Hev as (i & a & Hi & He).
    destruct (Hl i a Hi) as [Hi' Ha]. destruct a; cbn in He; simplify_eq; cbn; lia.
Qed.

End Connect.

(** ** Lookups and binding *)

Section Bind.
Context {W S L U Lst : Type} (sys_lookup : bytes -> Z -> Op W (list SocketAddr)).

(* src/rd-std/src/builtin/local.rs:158-163 Resolver::lookup_host *)
Definition resolver_lookup (net : option (@INet W S L U)) (domain : bytes) (port : Z) : Op W (list SocketAddr) :=
  match net with
  | Some net => op_map_err to_io_err (lookup_host net (ADomain domain port))
  | None => sys_lookup domain port
  end.

(* src/rd-std/src/builtin/local.rs:451-456 LocalNet::lookup_host *)
Definition local_lookup_host (net : option (@INet W S L U)) (addr : Address) : Op W (list SocketAddr) :=
  resolve_op (resolver_lookup net) addr.

(** [listen a]: [net::TcpListener::bind] of the runtime; no setting is made
    on the listening socket. *)
(* src/rd-std/src/builtin/local.rs:391-415 LocalNet::tcp_bind *)
Definition local_tcp_bind (listen : SocketAddr -> Op W Lst) (net : option (@INet W S L U)) (addr : Address) : Op W Lst :=
  op_bind (fun addrs => try_each EInvalidInput listen addrs None) (resolve_op (resolver_lookup net) addr).

(** The calls on a new UDP socket. *)
(* src/rd-std/src/builtin/local.rs:241-257 LocalNet::udp_bind_single *)
Definition udp_bind_single (cfg : LocalNetConfig) (addr : SocketAddr) : list Stmt :=
  Call (NewSocket (is_v6 addr) false) :: set_socket cfg false false ++
  match bind_addr cfg with None => [Call (Bind addr)] | Some _ => [] end.

(** [sys a]: what the system answers on the socket for [a]. *)
(* src/rd-std/src/builtin/local.rs:421-445 LocalNet::udp_bind *)
Definition local_udp_bind (cfg : LocalNetConfig) (sys : SocketAddr -> SysCall -> res unit)
    (net : option (@INet W S L U)) (addr : Address) : Op W (SocketAddr * list SysCall) :=
  op_bind (fun addrs => try_each EInvalidInput (fun a w =>
      match run (sys a) (udp_bind_single cfg a) with
      | (t, Finished) => Some (Ok (a, t), w)
      | (_, Failed e) => Some (Err e, w)
      | (_, Panicked) => None
      end) addrs None)
    (resolve_op (resolver_lookup net) addr).

(** A UDP socket is bound once: to the address asked for, or, when the
    configuration has an address to bind to, to that address and any port,
    whatever was asked for. *)
Theorem udp_bound_to cfg sys net addr w a t w' :
  local_udp_bind cfg sys net addr w = Some (Ok (a, t), w') ->
  filter (fun c => match c with Bind _ => true | _ => false end = true) t =
    [Bind (match bind_addr cfg with Some ip => mkSocketAddr ip 0 | None => a end)].
Proof.
  unfold local_udp_bind, op_bind. destruct (resolve_op _ addr w) as [[[addrs|e] w1]|]; try done.
  generalize (@None error). revert w1. induction addrs as [|b addrs IH]; intros w1 last E; [done|]. cbn [try_each] in E.
  destruct (run (sys b) (udp_bind_single cfg b)) as [t' [|e|]] eqn:Er; [|by eapply IH|done]. injection E as <- <- _.
  apply run_finished in Er as [Em _].
  assert (Hf : forall l : list SysCall, filter (fun c => match c with Bind _ => true | _ => false end = true) l =
    omap (fun s => match s with Call (Bind x) => Some (Bind x) | _ => None end) (map Call l)).
  { induction l as [|c l IHl]; [done|]. rewrite filter_cons. cbn. destruct c; case_decide; try done; by rewrite IHl. }
  rewrite Hf, Em. unfold udp_bind_single, set_socket.
  destruct cfg as [t0 n mk bd ba ct k rb sb lh]. cbn [recv_buffer_size send_buffer_size bind_addr Local.ttl mark bind_device].
  by destruct t0, mk, bd, ba, rb, sb.
Qed.

End Bind.

(** ** The UDP socket *)

(** A lookup in flight, which has completed or not. *)
(* src/rd-std/src/builtin/local.rs:65-69 UdpState *)
Inductive UdpState : Type :=
| Idle
| LookupHost (completed : bool)
| Sending (addr : SocketAddr).

(** With the socket's answers come those of the lookups, one for each poll of
    a lookup. *)
(* src/rd-std/src/builtin/local.rs:78-82 Udp *)
Record Udp : Type := mkUdp {
  inner : UWr SocketAddr;
  state : UdpState;
  lookups : list (poll (res (list SocketAddr))) }.

Definition set_udp (u : Udp) (s : UdpState) : Udp := mkUdp (inner u) s (lookups u).

(** The loop; [None] is the panic of a future polled again after it has
    completed. *)
(* src/rd-std/src/builtin/local.rs:307-329 Udp::poll_send_to_ready *)
Fixpoint poll_send_to_ready (fuel : nat) (u : Udp) (buf : bytes) : option (Udp * poll (res unit)) :=
  match fuel with
  | O => None
  | Datatypes.S fuel =>
    match state u with
    | Idle => Some (u, Ready (Ok ()))
    | LookupHost true => None
    | LookupHost false =>
      match lookups u with
      | [] => Some (u, Pending)
      | Pending :: l => Some (mkUdp (inner u) (LookupHost false) l, Pending)
      | Ready (Err e) :: l => Some (mkUdp (inner u) (LookupHost true) l, Ready (Err e))
      | Ready (Ok []) :: l => Some (mkUdp (inner u) (LookupHost true) l, Ready (Err EAddrNotAvailable))
      | Ready (Ok (addr :: _)) :: l => poll_send_to_ready fuel (mkUdp (inner u) (Sending addr) l) buf
      end
    | Sending addr =>
      match udp_send (inner u) buf addr with
      | (w, Pending) => Some (mkUdp w (state u) (lookups u), Pending)
      | (w, Ready (Err e)) => Some (mkUdp w (state u) (lookups u), Ready (Err e))
      | (w, Ready (Ok _)) => poll_send_to_ready fuel (mkUdp w Idle (lookups u)) buf
      end
    end
  end.

(* src/rd-std/src/builtin/local.rs:348-373 Udp::poll_send_to *)
Definition poll_send_to (u : Udp) (buf : bytes) (target : Address) : option (Udp * poll (res nat)) :=
  let u := match state u with
           | Idle => match target with
                     | ASocket s => set_udp u (Sending s)
                     | ADomain _ _ => set_udp u (LookupHost false)
                     end
           | _ => u
           end in
  match poll_send_to_ready 3 u buf with
  | None => None
  | Some (u, Pending) => Some (u, Pending)
  | Some (u, Ready (Err e)) => Some (u, Ready (Err e))
  | Some (u, Ready (Ok _)) => Some (u, Ready (Ok (length buf)))
  end.

(** [send_to]: polled with the same datagram until it is done. *)
Fixpoint send_until (fuel : nat) (u : Udp) (buf : bytes) (target : Address) : option (Udp * poll (res nat)) :=
  match fuel with
  | O => Some (u, Pending)
  | Datatypes.S fuel =>
    match poll_send_to u buf target with
    | Some (u, Pending) => send_until fuel u buf target
    | r => r
    end
  end.

(** A datagram to send, and what happens while it is sent: polls that find the
    lookup unfinished, the addresses found, polls that find the socket busy. *)
Record Job : Type := mkJob {
  jb_data : bytes; jb_target : Address; jb_waits : nat; jb_found : SocketAddr; jb_more : list SocketAddr; jb_busy : nat }.

Definition job_lookups (j : Job) : list (poll (res (list SocketAddr))) :=
  match jb_target j with
  | ASocket _ => []
  | ADomain _ _ => repeat Pending (jb_waits j) ++ [Ready (Ok (jb_found j :: jb_more j))]
  end.
Definition job_dest (j : Job) : SocketAddr := match jb_target j with ASocket s => s | ADomain _ _ => jb_found j end.

Fixpoint send_jobs (fuel : nat) (u : Udp) (l : list Job) : option (Udp * list (res nat)) :=
  match l with
  | [] => Some (u, [])
  | j :: l =>
    match send_until fuel u (jb_data j) (jb_target j) with
    | Some (u, Ready r) =>
      match send_jobs fuel u l with Some (u, rs) => Some (u, r :: rs) | None => None end
    | _ => None
    end
  end.

Lemma send_sending out k rest lk a buf target fuel : (k < fuel)%nat ->
  send_until fuel (mkUdp (mkUWr out (busy k ++ rest)) (Sending a) lk) buf target =
    Some (mkUdp (mkUWr (out ++ [(buf, a)]) rest) Idle lk, Ready (Ok (length buf))).
Proof.
  revert fuel. induction k as [|k IH]; intros [|fuel] Hf; try lia; cbn; [done|]. apply IH. lia.
Qed.

Lemma send_looking out k rest j a more lk buf target fuel : (j + k < fuel)%nat ->
  send_until fuel (mkUdp (mkUWr out (busy k ++ rest)) (LookupHost false) (repeat Pending j ++ Ready (Ok (a :: more)) :: lk)) buf target =
    Some (mkUdp (mkUWr (out ++ [(buf, a)]) rest) Idle lk, Ready (Ok (length buf))).
Proof.
  revert fuel. induction j as [|j IH]; intros [|fuel] Hf; try lia; cbn; [|apply IH; lia].
  destruct k as [|k]; cbn; [done|]. apply send_sending. lia.
Qed.

Lemma send_one out k rest lk j fuel : jb_busy j = k -> (jb_waits j + k < fuel)%nat ->
  send_until fuel (mkUdp (mkUWr out (busy k ++ rest)) Idle (job_lookups j ++ lk)) (jb_data j) (jb_target j) =
    Some (mkUdp (mkUWr (out ++ [(jb_data j, job_dest j)]) rest) Idle lk, Ready (Ok (length (jb_data j)))).
Proof.
  intros Ek Hf. unfold job_lookups, job_dest. destruct (jb_target j) as [s|d p].
  - destruct fuel as [|fuel]; [lia|].
    pose proof (send_sending out k rest lk s (jb_data j) (ASocket s) (Datatypes.S fuel)) as E.
    rewrite <- E by lia. reflexivity.
  - rewrite <- app_assoc. cbn [app]. destruct fuel as [|fuel]; [lia|].
    pose proof (send_looking out k rest (jb_waits j) (jb_found j) (jb_more j) lk (jb_data j) (ADomain d p) (Datatypes.S fuel)) as E.
    rewrite <- E by lia. reflexivity.
Qed.

(** Datagrams sent one after the other, each to its own target, are sent once
    each, in order and whole, to the first address their target resolves to,
    however long the lookups and the socket take. *)
Theorem local_udp_sends fuel l : Forall (fun j => (jb_waits j + jb_busy j < fuel)%nat) l -> forall out,
  send_jobs fuel (mkUdp (mkUWr out (concat (map (fun j => busy (jb_busy j)) l))) Idle (concat (map job_lookups l))) l =
    Some (mkUdp (mkUWr (out ++ map (fun j => (jb_data j, job_dest j)) l) []) Idle [],
          map (fun j => Ok (length (jb_data j))) l).
Proof.
  induction 1 as [|j l Hj F IH]; intros out; cbn [map concat send_jobs]; [by rewrite app_nil_r|].
  rewrite (send_one out (jb_busy j)) by done. rewrite IH. by rewrite <- app_assoc.
Qed.

(** A lookup that fails, or finds no address, leaves its future in place: the
    next datagram sent, to whatever target, panics. *)
Theorem udp_failed_lookup_panics w d p buf r l : (exists e, r = Err e) \/ r = Ok [] ->
  exists u e, poll_send_to (mkUdp w Idle (Ready r :: l)) buf (ADomain d p) = Some (u, Ready (Err e)) /\
    forall buf' target, poll_send_to u buf' target = None.
Proof. intros [[e ->]| ->]; eexists _, _; split; [reflexivity| |reflexivity|]; by intros. Qed.

(** After the socket has refused a datagram, the next one goes to the target
    of the refused one, and is reported as sent. *)
Theorem udp_error_misdirects out s lk e a buf buf' target :
  exists u, poll_send_to (mkUdp (mkUWr out (WErr e :: WOk 0 :: s)) Idle lk) buf (ASocket a) = Some (u, Ready (Err e)) /\
    poll_send_to u buf' target = Some (mkUdp (mkUWr (out ++ [(buf', a)]) s) Idle lk, Ready (Ok (length buf'))).
Proof. eexists. split; reflexivity. Qed.

(** The same when a caller gives up a datagram that had to wait and sends
    another. *)
Theorem udp_abandoned_misdirects out s lk a buf buf' target :
  exists u, poll_send_to (mkUdp (mkUWr out (WPending :: WOk 0 :: s)) Idle lk) buf (ASocket a) = Some (u, Pending) /\
    poll_send_to u buf' target = Some (mkUdp (mkUWr (out ++ [(buf', a)]) s) Idle lk, Ready (Ok (length buf'))).
Proof. eexists. split; reflexivity. Qed.

(** A keepalive time beyond what a [Duration] holds makes every connection
    panic. *)
Theorem keepalive_too_long_panics {A} sys (dial : SocketAddr -> Attempt A) cfg addr k :
  (forall c, sys addr c = Ok ()) -> tcp_keepalive cfg = Some k -> f64_pos k = true -> from_secs_f64 k = None ->
  (tcp_connect_single sys dial cfg addr).2 = Panics.
Proof.
  intros Hs Ek Hp Hn. unfold tcp_connect_single.
  assert (E : (run (sys addr) (Call (NewSocket (is_v6 addr) true) :: set_socket cfg true false)).2 = Panicked).
  { assert (Hr : forall l, In PanicHere l -> (run (sys addr) l).2 = Panicked).
    { induction l as [|[c|] l IH]; cbn; [tauto| |done]. intros [[=]|Hin]. rewrite Hs. specialize (IH Hin).
      by destruct (run (sys addr) l). }
    apply Hr. right. unfold set_socket. rewrite Ek. change (default (FFin 600 0) (Some k)) with k. cbv zeta. rewrite Hp, Hn, !in_app_iff. cbn. tauto. }
  destruct (run _ _) as [t o]. cbn in E. by rewrite E.
Qed.

(** ** Samples *)

Definition l1 : SocketAddr := mkSocketAddr (V4 16909060) 80.
Definition l2 : SocketAddr := mkSocketAddr (V6 1) 80.
Definition l3 : SocketAddr := mkSocketAddr (V4 16909061) 80.

Definition sample_cfg : LocalNetConfig :=
  mkLocalNetConfig None None (Some 7) (Some (lit "eth0")) None (Some 3) None None None None.
Definition sample_sys (_ : SocketAddr) (_ : SysCall) : res unit := Ok ().
(** [l2] refuses at once, [l1] answers after a second, [l3] never. *)
Definition sample_dial (a : SocketAddr) : Attempt nat :=
  if decide (a = l2) then Ends 20 (Err EConnectionRefused) else if decide (a = l1) then Ends 1000 (Ok 1%nat) else Never.

Definition sample_order : list (Z * option (res nat)) :=
  [(20, Some (Err EConnectionRefused)); (1250, Some (Ok 1%nat)); (3500, Some (Err ETimeout))].

Lemma sample_in_order : in_order (attempts sample_sys sample_dial sample_cfg [l1; l2; l3]) sample_order.
Proof. split; [reflexivity|]. repeat constructor; cbn; lia. Qed.

Lemma sample_connected : happy_eyeballs sample_sys sample_dial sample_cfg [l1; l2; l3] sample_order = Ready (Some (Ok 1%nat)).
Proof. reflexivity. Qed.

Lemma happy_eyeballs_first_witness :
  exists t, In (t, Some (Ok 1%nat)) (ends (attempts sample_sys sample_dial sample_cfg [l1; l2; l3])).
Proof.
  pose proof (happy_eyeballs_first sample_sys sample_dial sample_cfg [l1; l2; l3] sample_order sample_in_order) as E.
  destruct E as (t & E & _). exists t. exact E.
Defined.

Lemma happy_eyeballs_bounded_witness : forall ev, In ev sample_order -> ev.1 <= 3500.
Proof. apply (happy_eyeballs_bounded sample_sys sample_dial sample_cfg [l1; l2; l3] sample_order 3 eq_refl ltac:(lia) sample_in_order). Defined.

Lemma connect_after_settings_witness :
  exists t0, (tcp_connect_single sample_sys sample_dial sample_cfg l1).1 = NewSocket false true :: t0 ++ [Connect l1] /\
    In (SetMark 7) t0.
Proof.
  destruct (connect_after_settings sample_sys sample_dial sample_cfg l1
    (tcp_connect_single sample_sys sample_dial sample_cfg l1).1 (Ends 1000 (Ok 1%nat)) eq_refl) as (t0 & E & _ & Hm & _).
  - vm_compute. tauto.
  - exists t0. split; [exact E | apply Hm; reflexivity].
Defined.

Lemma udp_bound_to_witness :
  filter (fun c => match c with Bind _ => true | _ => false end = true) [NewSocket false false; SetNonblocking; Bind l1] = [Bind l1].
Proof.
  apply (udp_bound_to (W := unit) (S := unit) (L := unit) (U := unit) (fun _ _ => op_fail ENotFoundIO)
    (mkLocalNetConfig None None None None None None None None None None) sample_sys None (ASocket l1) tt l1 _ tt).
  reflexivity.
Defined.

Definition sample_jobs : list Job :=
  [mkJob [1] (ADomain (lit "a") 53) 2 l1 [l2] 1; mkJob [2; 3] (ASocket l3) 0 l1 [] 3].

Lemma local_udp_sends_witness : exists u, send_jobs 6
    (mkUdp (mkUWr [] (concat (map (fun j => busy (jb_busy j)) sample_jobs))) Idle (concat (map job_lookups sample_jobs))) sample_jobs =
  Some (u, [Ok 1%nat; Ok 2%nat]) /\ u_out (inner u) = [([1], l1); ([2; 3], l3)].
Proof.
  eexists. split; [apply (local_udp_sends 6 sample_jobs); repeat constructor; cbn; lia | reflexivity].
Defined.

Lemma udp_failed_lookup_panics_witness : exists u e,
  poll_send_to (mkUdp (mkUWr [] []) Idle [Ready (Ok [])]) [1] (ADomain (lit "a") 53) = Some (u, Ready (Err e)) /\
  poll_send_to u [2] (ASocket l1) = None.
Proof.
  destruct (udp_failed_lookup_panics (mkUWr [] []) (lit "a") 53 [1] (Ok []) [] (or_intror eq_refl)) as (u & e & E & Hp).
  exists u, e. split; [exact E | apply Hp].
Defined.

(** 2{^64} seconds, a plain number of a configuration file. *)
Lemma keepalive_too_long_panics_witness :
  (tcp_connect_single sample_sys sample_dial
    (mkLocalNetConfig None None None None None None (Some (FFin 1 64)) None None None) l1).2 = Panics.
Proof. apply (keepalive_too_long_panics _ _ _ _ (FFin 1 64)); [intros c; reflexivity | reflexivity..]. Defined.

End Local.
