(* ===== verification/Servers.v ===== *)
(** * The forwarding and the mixed server: [rd-std/src/builtin/forward.rs],
    [rd-std/src/util/poll_future.rs], [rd-std/src/util/peekable_tcpstream.rs]
    and [rd-std/src/mixed.rs]

    The datagram source of the forwarding server, which resolves its target
    again when the interval is over, and the stream that is looked into
    before it is given to the server its first byte tells. *)

From Stdlib Require Import Sorting.Sorted.
From S2P Require Import Prelude Io Address.

Module Servers.

(** ** Futures that are polled by hand *)

(** A future that is running is polled with the answer it gives. *)
(* src/rd-std/src/util/poll_future.rs:8-12 PollFuture *)
Inductive PollFuture (T : Type) : Type := PFEmpty | PFReady (v : T) | PFFuture.
Arguments PFEmpty {T}.
Arguments PFReady {T} v.
Arguments PFFuture {T}.

(** [None] is the panic of an empty future. *)
(* src/rd-std/src/util/poll_future.rs:21-37 PollFuture::poll *)
Definition pf_poll {T} (answer : poll T) (f : PollFuture T) : option (PollFuture T * poll T) :=
  match f with
  | PFEmpty => None
  | PFReady v => Some (PFEmpty, Ready v)
  | PFFuture => match answer with Ready v => Some (PFEmpty, Ready v) | Pending => Some (PFFuture, Pending) end
  end.

(* src/rd-std/src/util/poll_future.rs:38-44 PollFuture::is_ready *)
Definition pf_is_ready {T} (f : PollFuture T) : bool := match f with PFFuture => false | _ => true end.

(** ** The source of the forwarding server *)

(** [resolve_target], when its lookup has answered. *)
(* src/rd-std/src/builtin/forward.rs:155-168 resolve_target *)
Definition resolve_target (lookup : bytes -> Z -> res (list SocketAddr)) (target : Address) : res SocketAddr :=
  match resolve lookup target with
  | Err e => Err e
  | Ok [] => Err ENotFoundIO
  | Ok (a :: _) => Ok a
  end.

(** Times are in nanoseconds; [answers] are those of the lookups, one for
    each poll of one, and [listen_udp] the datagrams that arrive. *)
(* src/rd-std/src/builtin/forward.rs:170-178 UdpSource *)
Record UdpSource : Type := mkSource {
  listen_udp : list (uans SocketAddr);
  answers : list (poll (res SocketAddr));
  resolve_future : PollFuture (res SocketAddr);
  resolved : option SocketAddr;
  resolve_at : option Z }.

(* src/rd-std/src/builtin/forward.rs:181-196 UdpSource::new *)
Definition source_new (udp : list (uans SocketAddr)) (ans : list (poll (res SocketAddr))) : UdpSource :=
  mkSource udp ans PFFuture None None.

(* src/rd-std/src/util/forward_udp.rs:20-23 UdpEndpoint *)
Record UdpEndpoint : Type := mkEndpoint { ep_from : SocketAddr; ep_to : SocketAddr }.

Definition expired (interval : option Z) (now : Z) (u : UdpSource) : bool :=
  match resolve_at u, interval with
  | Some at_, Some i => i <=? now - at_
  | _, _ => false
  end.

Definition renew (u : UdpSource) : UdpSource := mkSource (listen_udp u) (answers u) PFFuture None None.

(** The head of the script; a lookup whose answers are used up stays pending. *)
Definition next_answer (u : UdpSource) : poll (res SocketAddr) * list (poll (res SocketAddr)) :=
  match answers u with [] => (Pending, []) | a :: l => (a, l) end.

(* src/rd-std/src/builtin/forward.rs:200-237 UdpSource::poll_recv *)
Definition poll_recv (interval : option Z) (now : Z) (cap : nat) (u : UdpSource)
    : option (UdpSource * poll (res (bytes * UdpEndpoint))) :=
  let u := if expired interval now u then renew u else u in
  let next :=
    match resolved u with
    | Some to => Some (u, Ready (Ok to))
    | None =>
      let '(a, l) := match resolve_future u with PFFuture => next_answer u | _ => (Pending, answers u) end in
      match pf_poll a (resolve_future u) with
      | None => None
      | Some (f, Pending) => Some (mkSource (listen_udp u) l f (resolved u) (resolve_at u), Pending)
      | Some (f, Ready (Err e)) => Some (mkSource (listen_udp u) l f (resolved u) (resolve_at u), Ready (Err e))
      | Some (f, Ready (Ok to)) => Some (mkSource (listen_udp u) l f (Some to) (resolve_at u), Ready (Ok to))
      end
    end in
  match next with
  | None => None
  | Some (u, Pending) => Some (u, Pending)
  | Some (u, Ready (Err e)) => Some (u, Ready (Err e))
  | Some (u, Ready (Ok to)) =>
    let at_ := match resolve_at u with None => Some now | a => a end in
    match udp_recv cap (listen_udp u) with
    | (r, Pending) => Some (mkSource r (answers u) (resolve_future u) (resolved u) at_, Pending)
    | (r, Ready (Err e)) => Some (mkSource r (answers u) (resolve_future u) (resolved u) at_, Ready (Err e))
    | (r, Ready (Ok (d, from))) =>
      Some (mkSource r (answers u) (resolve_future u) (resolved u) at_, Ready (Ok (d, mkEndpoint from to)))
    end
  end.

(** A reply goes where its endpoint says. *)
(* src/rd-std/src/builtin/forward.rs:239-248 UdpSource::poll_send *)
Definition poll_send (w : UWr Address) (buf : bytes) (endpoint : UdpEndpoint) : UWr Address * poll (res unit) :=
  match udp_send w buf (ASocket (ep_to endpoint)) with
  | (w, Pending) => (w, Pending)
  | (w, Ready (Err e)) => (w, Ready (Err e))
  | (w, Ready (Ok _)) => (w, Ready (Ok ()))
  end.

(** *** Facts *)

(** Between two polls without an error: a target is known with the time it
    was found, or a lookup is running. *)
Definition source_ok (u : UdpSource) : Prop :=
  (exists to t, resolved u = Some to /\ resolve_at u = Some t) \/
  (resolved u = None /\ resolve_at u = None /\ resolve_future u = PFFuture).

(** What a task sees: a lookup has given a target, a datagram was given out. *)
Inductive Event : Type :=
| Looked (t : Z) (to : SocketAddr)
| Given (t : Z) (d : bytes) (ep : UdpEndpoint).

(** The target found by the last poll, if it has used up an answer. *)
Definition looked (t : Z) (u u' : UdpSource) : list Event :=
  match resolved u' with
  | Some to => if (length (answers u') <? length (answers u))%nat then [Looked t to] else []
  | None => []
  end.

(** The polls of a task, one at each of the times; it stops at an error. *)
Fixpoint run (interval : option Z) (cap : nat) (times : list Z) (u : UdpSource)
    : option (UdpSource * list Event * res unit) :=
  match times with
  | [] => Some (u, [], Ok ())
  | t :: times =>
    match poll_recv interval t cap u with
    | None => None
    | Some (u', Ready (Err e)) => Some (u', looked t u u', Err e)
    | Some (u', r) =>
      match run interval cap times u' with
      | Some (u2, l, e) =>
        Some (u2, looked t u u' ++ match r with Ready (Ok (d, ep)) => [Given t d ep] | _ => [] end ++ l, e)
      | None => None
      end
    end
  end.

(** One poll: the target given out is either the one known, and not expired,
    or the answer of a lookup that has come in this very poll. *)
Lemma poll_recv_spec interval now cap u : source_ok u ->
  exists u' r, poll_recv interval now cap u = Some (u', r) /\
  (source_ok u' \/ (resolved u' = None /\ exists e, r = Ready (Err e))) /\
  (forall to t, resolved u' = Some to -> resolve_at u' = Some t ->
     (resolved u = Some to /\ resolve_at u = Some t /\ expired interval now u = false /\ answers u' = answers u) \/
     (t = now /\ answers u = Ready (Ok to) :: answers u' /\ (resolved u = None \/ expired interval now u = true))) /\
  match r with
  | Ready (Ok (d, ep)) => resolved u' = Some (ep_to ep) /\ (exists t, resolve_at u' = Some t) /\
      udp_recv cap (listen_udp u) = (listen_udp u', Ready (Ok (d, ep_from ep)))
  | _ => True
  end.
Proof.
  intros Hok. unfold poll_recv, next_answer. destruct (expired interval now u) eqn:Ex; cbv beta iota zeta; unfold renew; cbv beta iota zeta.
  - destruct (answers u) as [|[|[to|e]] l] eqn:Ea; cbn.
    + eexists _, _. split; [done|]. cbn. split; [left; by right|]. done.
    + eexists _, _. split; [done|]. cbn. split; [left; by right|]. done.
    + destruct (udp_recv cap (listen_udp u)) as [r [|[[d from]|e]]]; cbn;
        (eexists _, _; split; [reflexivity|]; cbn; split; [left; left; eauto|]; split; [|eauto]);
        intros ? ? [= <-] [= <-]; right; auto.
    + eexists _, _. split; [done|]. cbn. split; [right; eauto | done].
  - destruct Hok as [(to & t & Er & Et)|(Er & Et & Ef)]; rewrite Er.
    + rewrite Et. destruct (udp_recv cap (listen_udp u)) as [r [|[[d from]|e]]]; cbn; rewrite ?Er, ?Et;
        (eexists _, _; split; [reflexivity|]; cbn; split; [left; left; eauto|]; split; [|eauto]);
        intros ? ? [= <-] [= <-]; left; rewrite ?Et; auto.
    + rewrite Ef. destruct (answers u) as [|[|[to|e]] l] eqn:Ea; cbn.
      * eexists _, _. split; [done|]. cbn. split; [left; by right|]. done.
      * eexists _, _. split; [done|]. cbn. split; [left; by right|]. done.
      * rewrite Et. destruct (udp_recv cap (listen_udp u)) as [r [|[[d from]|e]]]; cbn;
          (eexists _, _; split; [reflexivity|]; cbn; split; [left; left; eauto|]; split; [|eauto]);
          intros ? ? [= <-] [= <-]; right; auto.
      * eexists _, _. split; [done|]. cbn. split; [right; eauto | done].
Qed.

(** Every datagram goes to the target looked up last; with an interval that
    was less than the interval ago, or in the same poll; without one there is
    a single lookup. *)
Fixpoint targets_ok (interval : option Z) (last : option (Z * SocketAddr)) (l : list Event) : Prop :=
  match l with
  | [] => True
  | Looked t to :: l => (interval = None -> last = None) /\ targets_ok interval (Some (t, to)) l
  | Given t _ ep :: l =>
    (exists tr, last = Some (tr, ep_to ep) /\ tr <= t /\ forall i, interval = Some i -> t - tr < i \/ tr = t) /\
    targets_ok interval last l
  end.

Definition in_step (interval : option Z) (last : option (Z * SocketAddr)) (u : UdpSource) : Prop :=
  (forall to t, resolved u = Some to -> resolve_at u = Some t -> last = Some (t, to)) /\
  (interval = None -> resolved u = None -> last = None).

Lemma looked_spec interval now u u' last : source_ok u -> source_ok u' -> in_step interval last u ->
  (length (answers u') <= length (answers u))%nat ->
  (forall to t, resolved u' = Some to -> resolve_at u' = Some t ->
     (resolved u = Some to /\ resolve_at u = Some t /\ expired interval now u = false /\ answers u' = answers u) \/
     (t = now /\ answers u = Ready (Ok to) :: answers u' /\ (resolved u = None \/ expired interval now u = true))) ->
  (interval = None -> resolved u' = None -> resolved u = None) ->
  exists last', in_step interval last' u' /\ (last' = last \/ exists to, last' = Some (now, to)) /\
    forall l, targets_ok interval last' l -> targets_ok interval last (looked now u u' ++ l).
Proof.
  intros Hok Hok' [H1 H2] Hlen Hs Hn. unfold looked.
  destruct Hok' as [(to & t & Er & Et)|(Er & Et & Ef)]; rewrite Er.
  - destruct (Hs to t Er Et) as [(Ho & Ht & _ & ->)|(-> & Ea & Hex)].
    + rewrite Nat.ltb_irrefl. exists last. split; [|by split; [left|]]. split; [|by rewrite Er].
      intros to' t' E1 E2. rewrite Er in E1. rewrite Et in E2. simplify_eq. by apply H1.
    + rewrite Ea. cbn [length]. rewrite (proj2 (Nat.ltb_lt _ _)) by lia.
      exists (Some (now, to)). split; [split; [|by rewrite Er]|split; [by right; exists to|]].
      * intros to' t' E1 E2. rewrite Er in E1. rewrite Et in E2. by simplify_eq.
      * intros l Hl. cbn. split; [|done]. intros Ei. apply H2; [done|]. destruct Hex as [?|Hex]; [done|].
        exfalso. unfold expired in Hex. rewrite Ei in Hex. by destruct (resolve_at u).
  - exists last. split; [|by split; [left|]]. split; [by rewrite Er|]. intros Ei _. by apply H2, Hn.
Qed.

Lemma poll_recv_answers interval now cap u u' r : poll_recv interval now cap u = Some (u', r) ->
  (length (answers u') <= length (answers u))%nat /\
  (interval = None -> resolved u' = None -> resolved u = None).
Proof.
  assert (Ha : answers (if expired interval now u then renew u else u) = answers u) by (by destruct (expired _ _ _)).
  assert (Hr : interval = None -> resolved (if expired interval now u then renew u else u) = resolved u).
  { intros ->. unfold expired. by destruct (resolve_at u). }
  unfold poll_recv, next_answer. cbv zeta. destruct (if expired interval now u then renew u else u) as [lu an rf re ra].
  cbn [answers resolved resolve_future listen_udp resolve_at] in *. subst an.
  destruct re as [to|].
  - cbn. destruct (udp_recv cap lu) as [x [|[[d f]|e]]]; intros E; injection E as Eu _; subst u'; by split.
  - intros E. split; [|intros Hi _; by rewrite <- Hr]. revert E.
    destruct rf as [|v|]; [done| |destruct (answers u) as [|[|v] l]]; cbn -[udp_recv];
      [|intros E; injection E as Eu _; subst u'; cbn; lia..|];
      (destruct v as [to|e]; [destruct (udp_recv _ _) as [x [|[[d f]|e]]]|]; cbn -[udp_recv];
       intros E; injection E as Eu _; subst u'; cbn; lia).
Qed.

Lemma run_targets interval cap times : forall u last, source_ok u -> in_step interval last u ->
  (forall tr to, last = Some (tr, to) -> Forall (Z.le tr) times) -> StronglySorted Z.le times ->
  exists u' l r, run interval cap times u = Some (u', l, r) /\ targets_ok interval last l.
Proof.
  induction times as [|now times IH]; intros u last Hok Hi Hle Hs; [eexists _, _, _; done|].
  inversion Hs as [|? ? Hs' F]; subst. cbn [run].
  destruct (poll_recv_spec interval now cap u Hok) as (u' & r & E & Hok' & Ht & Hr). rewrite E.
  destruct (poll_recv_answers _ _ _ _ _ _ E) as [Hl Hn].
  assert (Hstep : source_ok u' -> exists last', in_step interval last' u' /\
      (forall tr to, last' = Some (tr, to) -> Forall (Z.le tr) times /\ tr <= now) /\
      forall l, targets_ok interval last' l -> targets_ok interval last (looked now u u' ++ l)).
  { intros Hu'. destruct (looked_spec interval now u u' last Hok Hu' Hi Hl Ht Hn) as (last' & H1 & H2 & H3).
    exists last'. split; [done|]. split; [|done]. intros tr to ->. destruct H2 as [<-|[to' [= -> ->]]].
    - specialize (Hle tr to eq_refl). inversion Hle; subst. by split.
    - split; [done|lia]. }
  assert (Hu' : source_ok u' \/ (resolved u' = None /\ exists e, r = Ready (Err e))) by exact Hok'. clear Hok'.
  destruct r as [|[[d ep]|e]].
  - assert (Hok' : source_ok u') by (destruct Hu' as [?|(_ & ? & [=])]; done). destruct (Hstep Hok') as (last' & Hi' & Hle' & Hg).
    destruct (IH u' last' Hok' Hi') as (u2 & l & r & -> & Hl2); [intros ? ? ?; by eapply Hle'|done|].
    eexists _, _, _. split; [done|]. by apply Hg.
  - assert (Hok' : source_ok u') by (destruct Hu' as [?|(_ & ? & [=])]; done).
    destruct (Hstep Hok') as (last' & Hi' & Hle' & Hg). destruct Hr as (Hr & (tr & Et) & _).
    destruct (IH u' last' Hok' Hi') as (u2 & l & r & -> & Hl2); [intros ? ? ?; by eapply Hle'|done|].
    eexists _, _, _. split; [done|]. apply Hg. cbn. split; [|done].
    pose proof (proj1 Hi' _ _ Hr Et) as El. exists tr. split; [done|]. split; [by eapply Hle'|].
    intros i ->. destruct (Ht _ _ Hr Et) as [(_ & Eu & Ex & _)|(-> & _)]; [left|by right].
    unfold expired in Ex. rewrite Eu in Ex. lia.
  - eexists _, _, _. split; [done|]. destruct Hu' as [Hu'|[Hu' _]].
    + destruct (Hstep Hu') as (last' & _ & _ & Hg). specialize (Hg []). rewrite app_nil_r in Hg. by apply Hg.
    + unfold looked. by rewrite Hu'.
Qed.

(** The forwarding server's source, polled at any times and whatever the
    lookups and the socket answer, never panics before its first error, and
    gives every datagram the target of the last lookup: with an interval, one
    that answered less than the interval ago or in the same poll, without one
    that of a single lookup. *)
Theorem forward_target_fresh interval cap times udp ans : StronglySorted Z.le times ->
  exists u l r, run interval cap times (source_new udp ans) = Some (u, l, r) /\ targets_ok interval None l.
Proof.
  intros Hs. apply run_targets; [by right| |done|done]. split; [done|]. done.
Qed.

(** A lookup that fails when the interval is over is the end: the target
    known before is forgotten, the error is passed on, and a further poll
    would panic. *)
Theorem forward_lookup_failure interval now now' cap u e l :
  expired interval now u = true -> answers u = Ready (Err e) :: l ->
  exists u', poll_recv interval now cap u = Some (u', Ready (Err e)) /\ poll_recv interval now' cap u' = None.
Proof.
  intros Ex Ea. unfold poll_recv. rewrite Ex. cbn. unfold next_answer. cbn. rewrite Ea. cbn. eexists. split; [done|]. done.
Qed.

(** ** Looking into a stream *)

(* src/rd-std/src/util/peekable_tcpstream.rs:11-14 PeekableTcpStream *)
Record PeekableTcpStream : Type := mkPeek { tcp : list rans; peek_buf : bytes }.

(* src/rd-std/src/util/peekable_tcpstream.rs:47-52 PeekableTcpStream::new *)
Definition peekable_new (r : list rans) : PeekableTcpStream := mkPeek r [].

(** [read_exact] of [n] bytes, awaited: [Pending] when the script ends first;
    an error loses what was read. *)
Fixpoint read_exact_script (fuel n : nat) (r : list rans) : list rans * poll (res bytes) :=
  match n, fuel with
  | O, _ => (r, Ready (Ok []))
  | _, O => (r, Pending)
  | _, Datatypes.S fuel =>
    match inner_read n r with
    | (r, Pending) => read_exact_script fuel n r
    | (r, Ready (Err e)) => (r, Ready (Err e))
    | (r, Ready (Ok [])) => (r, Ready (Err EUnexpectedEof))
    | (r, Ready (Ok d)) =>
      match read_exact_script fuel (n - length d) r with
      | (r, Ready (Ok d')) => (r, Ready (Ok (d ++ d')))
      | x => x
      end
    end
  end.

(** Every step uses up an answer or gives at least a byte. *)
Definition read_fuel (n : nat) (r : list rans) : nat := length r + n.

(* src/rd-std/src/util/peekable_tcpstream.rs:54-62 PeekableTcpStream::fill_buf *)
Definition fill_buf (size : nat) (s : PeekableTcpStream) : PeekableTcpStream * poll (res unit) :=
  if (length (peek_buf s) <? size)%nat then
    let to_read := (size - length (peek_buf s))%nat in
    match read_exact_script (read_fuel to_read (tcp s)) to_read (tcp s) with
    | (r, Pending) => (mkPeek r (peek_buf s), Pending)
    | (r, Ready (Err e)) => (mkPeek r (peek_buf s), Ready (Err e))
    | (r, Ready (Ok d)) => (mkPeek r (peek_buf s ++ d), Ready (Ok ()))
    end
  else (s, Ready (Ok ())).

(* src/rd-std/src/util/peekable_tcpstream.rs:63-69 PeekableTcpStream::peek_exact *)
Definition peek_exact (n : nat) (s : PeekableTcpStream) : PeekableTcpStream * poll (res bytes) :=
  match fill_buf n s with
  | (s, Pending) => (s, Pending)
  | (s, Ready (Err e)) => (s, Ready (Err e))
  | (s, Ready (Ok _)) => (s, Ready (Ok (take n (peek_buf s))))
  end.

(** [first]: how much of the buffer its first slice holds, not nothing of a
    buffer that is not empty. *)
(* src/rd-std/src/util/peekable_tcpstream.rs:28-43 PeekableTcpStream::poll_read *)
Definition peek_poll_read (first cap : nat) (s : PeekableTcpStream) : PeekableTcpStream * poll (res bytes) :=
  match take first (peek_buf s) with
  | [] => let '(r, x) := inner_read cap (tcp s) in (mkPeek r (peek_buf s), x)
  | slice =>
    let read := Nat.min (length slice) cap in
    (mkPeek (tcp s) (drop read (peek_buf s)), Ready (Ok (take read slice)))
  end.

(* src/rd-std/src/util/peekable_tcpstream.rs:70-72 PeekableTcpStream::into_inner *)
Definition into_inner (s : PeekableTcpStream) : list rans * bytes := (tcp s, peek_buf s).

(** The bytes a reader of the stream still gets. *)
Definition peek_bytes (s : PeekableTcpStream) : bytes := peek_buf s ++ r_bytes (tcp s).

(** What to do with a connection of the mixed server. *)
Inductive Served : Type := ServeSocks5 (s : PeekableTcpStream) | ServeHttp (s : PeekableTcpStream) | ServeNothing.

(* src/rd-std/src/mixed.rs:26-48 HttpSocks5Server::serve_connection *)
Definition mixed_serve (r : list rans) : poll Served :=
  match peek_exact 1 (peekable_new r) with
  | (_, Pending) => Pending
  | (_, Ready (Err _)) => Ready ServeNothing
  | (s, Ready (Ok buf)) =>
    match buf with
    | 5 :: _ => Ready (ServeSocks5 s)
    | _ => Ready (ServeHttp s)
    end
  end.

(** *** Facts *)

Lemma peek_inner_read_bytes cap r r' x : inner_read cap r = (r', x) ->
  match x with
  | Ready (Ok d) => r_bytes r = d ++ r_bytes r' /\ (length d <= cap)%nat
  | _ => r_bytes r = r_bytes r'
  end.
Proof.
  destruct r as [|[|e|d] r]; cbn; try (by intros [= <- <-]).
  destruct (Nat.leb_spec (length d) cap); intros [= <- <-]; cbn; [by split|].
  rewrite app_assoc, firstn_skipn. split; [done|]. rewrite length_take. lia.
Qed.

(** A read of exactly [n] bytes gives [n] bytes, the next ones. *)
Lemma read_exact_script_ok fuel : forall n r r' d, read_exact_script fuel n r = (r', Ready (Ok d)) ->
  length d = n /\ r_bytes r = d ++ r_bytes r'.
Proof.
  induction fuel as [|fuel IH]; intros [|n] r r' d E; cbn [read_exact_script] in E; try (by injection E as <- <-); [done|].
  destruct (inner_read (Datatypes.S n) r) as [r1 x] eqn:Er. pose proof (peek_inner_read_bytes _ _ _ _ Er) as Hr.
  destruct x as [|[[|b d1]|e]].
  { rewrite Hr. by apply IH. }
  1, 3: done.
  destruct Hr as [-> Hl]. destruct (read_exact_script fuel _ r1) as [r2 [|[d2|]]] eqn:E2; try done.
  injection E as <- <-. destruct (IH _ _ _ _ E2) as [H1 ->]. split; [|by rewrite app_assoc].
  change (length ((b :: d1) ++ d2) = Datatypes.S n). rewrite length_app, H1. lia.
Qed.

(** Nothing is lost or added by looking: what a peek shows is the front of
    the stream, and reading afterwards gives the stream from its start. *)
Theorem peek_keeps_stream n s s' d : peek_exact n s = (s', Ready (Ok d)) ->
  d = take n (peek_bytes s) /\ length d = n /\ peek_bytes s' = peek_bytes s /\
  forall first cap s2 x, (0 < first)%nat -> peek_poll_read first cap s' = (s2, Ready (Ok x)) ->
    peek_bytes s' = x ++ peek_bytes s2 /\ (length x <= cap)%nat.
Proof.
  intros E. unfold peek_exact, fill_buf in E.
  assert (Hd : d = take n (peek_buf s') /\ (n <= length (peek_buf s'))%nat /\ peek_bytes s' = peek_bytes s).
  { destruct (Nat.ltb_spec (length (peek_buf s)) n) as [Hlt|Hge].
    - destruct (read_exact_script _ _ (tcp s)) as [r [|[x|]]] eqn:Er; try done. injection E as <- <-.
      destruct (read_exact_script_ok _ _ _ _ _ Er) as [Hl Hb]. cbn. rewrite length_app, Hl. split; [done|]. split; [lia|].
      unfold peek_bytes. cbn. by rewrite Hb, app_assoc.
    - injection E as <- <-. split; [done|]. split; [lia|done]. }
  destruct Hd as (-> & Hn & Hb). split; [|split; [rewrite length_take; lia|split; [done|]]].
  - rewrite <- Hb. unfold peek_bytes. by rewrite take_app_le.
  - intros first cap s2 x Hf. unfold peek_poll_read, peek_bytes. destruct (take first (peek_buf s')) as [|b sl] eqn:Et.
    + destruct (inner_read cap (tcp s')) as [r y] eqn:Er. intros [= <- ->]. cbn.
      destruct (peek_inner_read_bytes _ _ _ _ Er) as [-> Hl]. split; [|done].
      destruct (peek_buf s') as [|b l]; [done|]. by destruct first; [lia|].
    + rewrite <- Et. remember (Nat.min (length (take first (peek_buf s'))) cap) as k eqn:Ek.
      rewrite length_take in Ek. intros [= <- <-]. cbn [peek_buf tcp]. rewrite take_take, length_take. split; [|lia].
      rewrite app_assoc. f_equal. rewrite <- (firstn_skipn k (peek_buf s')) at 1. f_equal. f_equal. lia.
Qed.

(** The mixed server gives a connection to the SOCKS5 server when its first
    byte is 5 and to the HTTP server otherwise, as a stream that still has
    this byte and all that follow; one that ends before its first byte is
    closed without an error. *)
Theorem mixed_dispatch r :
  match mixed_serve r with
  | Ready (ServeSocks5 s) => exists t, r_bytes r = 5 :: t /\ peek_bytes s = r_bytes r
  | Ready (ServeHttp s) => exists b t, b <> 5 /\ r_bytes r = b :: t /\ peek_bytes s = r_bytes r
  | _ => True
  end.
Proof.
  unfold mixed_serve. destruct (peek_exact 1 (peekable_new r)) as [s [|[d|e]]] eqn:E; [done| |done].
  destruct (peek_keeps_stream _ _ _ _ E) as (Hd & Hl & Hb & _). change (peek_bytes (peekable_new r)) with (r_bytes r) in *.
  destruct d as [|b [|? ?]]; try done. destruct (r_bytes r) as [|b' t] eqn:Er; [done|]. injection Hd as ->.
  destruct (decide (b' = 5)) as [->|Hne]; [by exists t|].
  assert (Hh : match b' with 5 => Ready (ServeSocks5 s) | _ => Ready (ServeHttp s) end = Ready (ServeHttp s))
    by (destruct b' as [|p|p]; [done| |done]; destruct p as [[p|[p|p|]|]|p|]; done).
  cbn. rewrite Hh. by exists b', t.
Qed.

(** *** Samples *)

Definition fw_t1 : SocketAddr := mkSocketAddr (V4 167772161) 53.
Definition fw_t2 : SocketAddr := mkSocketAddr (V4 167772162) 53.
Definition fw_c : SocketAddr := mkSocketAddr (V4 2130706433) 4000.

(** Two datagrams after the first lookup, a third after the interval. *)
Lemma forward_target_fresh_witness : exists u,
  run (Some 100) 2048 [0; 10; 50; 120; 130] (source_new [UData [1] fw_c; UData [2] fw_c; UData [3] fw_c] [Pending; Ready (Ok fw_t1); Pending; Ready (Ok fw_t2)])
  = Some (u, [Looked 10 fw_t1; Given 10 [1] (mkEndpoint fw_c fw_t1); Given 50 [2] (mkEndpoint fw_c fw_t1);
              Looked 130 fw_t2; Given 130 [3] (mkEndpoint fw_c fw_t2)], Ok ()).
Proof.
  destruct (forward_target_fresh (Some 100) 2048 [0; 10; 50; 120; 130]
    [UData [1] fw_c; UData [2] fw_c; UData [3] fw_c] [Pending; Ready (Ok fw_t1); Pending; Ready (Ok fw_t2)]) as (u & l & r & E & _).
  - repeat constructor; lia.
  - exists u. rewrite E. vm_compute in E. injection E as _ <- <-. reflexivity.
Defined.

Lemma peek_keeps_stream_witness :
  peek_exact 3 (peekable_new [RData [5; 1]; RPending; RData [0; 9]]) =
    (mkPeek [RData [9]] [5; 1; 0], Ready (Ok [5; 1; 0])) /\
  peek_bytes (mkPeek [RData [9]] [5; 1; 0]) = [5; 1; 0; 9].
Proof.
  split; [reflexivity|].
  apply (peek_keeps_stream 3 (peekable_new [RData [5; 1]; RPending; RData [0; 9]]) (mkPeek [RData [9]] [5; 1; 0]) [5; 1; 0] eq_refl).
Defined.

Lemma forward_lookup_failure_witness : exists u',
  poll_recv (Some 100) 150 2048 (mkSource [] [Ready (Err ENotFoundIO)] PFEmpty (Some fw_t1) (Some 10)) = Some (u', Ready (Err ENotFoundIO)).
Proof.
  destruct (forward_lookup_failure (Some 100) 150 151 2048 (mkSource [] [Ready (Err ENotFoundIO)] PFEmpty (Some fw_t1) (Some 10))
    ENotFoundIO [] eq_refl eq_refl) as (u' & E & _).
  exists u'. exact E.
Defined.

End Servers.
