(* ===== verification/Transparent.v ===== *)
(** * Transparent proxying: [rd-std/src/transparent/socket.rs], [tproxy.rs],
    [redir.rs], and the address helpers of [rd-std/src/util.rs]

    The sockets of the TPROXY server are made by a sequence of system calls;
    its source of datagrams answers a client from the address the client had
    sent to, with one socket for each such address, kept in a cache. *)

From S2P Require Import Prelude Address ConnContext Rule Lru Nets Servers.
Import Rule.Rule Nets.Nets Servers.Servers.

Module Transparent.

(** ** Addresses *)

Definition octet (a : Z) (i : nat) : Z := Z.land (Z.shiftr a (8 * (3 - Z.of_nat i))) 255.

(* src/rd-std/src/util.rs:23-28 to_ipv4_mapped *)
Definition to_ipv4_mapped (a : Z) : option Z := if Z.shiftr a 32 =? 65535 then Some (Z.land a (2 ^ 32 - 1)) else None.

(* src/rd-std/src/util.rs:30-38 resolve_mapped_socket_addr *)
Definition resolve_mapped_socket_addr (s : SocketAddr) : SocketAddr :=
  match sa_ip s with
  | V6 a => match to_ipv4_mapped a with Some v => mkSocketAddr (V4 v) (sa_port s) | None => s end
  | V4 _ => s
  end.

(** [Ipv4Addr::is_private], [is_loopback]; [Ipv6Addr::is_unicast_link_local]. *)
Definition is_private (a0 a1 : Z) : bool :=
  (a0 =? 10) || ((a0 =? 172) && (16 <=? a1) && (a1 <=? 31)) || ((a0 =? 192) && (a1 =? 168)).

(* src/rd-std/src/util.rs:41-64 is_reserved *)
Definition is_reserved (addr : IpAddr) : bool :=
  match addr with
  | V4 a =>
    let a0 := octet a 0 in let a1 := octet a 1 in
    (a =? 0) || (a0 =? 0) || (a0 =? 127) || is_private a0 a1 || ((a0 =? 169) && (a1 =? 254)) ||
    ((224 <=? a0) && (a0 <=? 239)) || ((240 <=? a0) && (a0 <=? 255))
  | V6 a =>
    let seg0 := Z.land (Z.shiftr a 112) 65535 in
    (a =? 0) || (a =? 1) || (Z.land seg0 65024 =? 64512) || (Z.land seg0 65472 =? 65152)
  end.

(** ** Making a socket *)

Inductive TCall : Type :=
| TSocket (v6 is_tcp : bool)
| TTransparent (v6 : bool)
| TRecvOrigDst (v6 : bool)
| TNonblocking
| TReuseAddr
| TReusePort
| TMark (m : Z)
| TBind (a : SocketAddr)
| TListen (n : Z).

Definition is_v6 (a : SocketAddr) : bool := negb (is_ipv4 (sa_ip a)).

(** The calls up to the first that fails, and how they end. *)
Fixpoint call_all (sys : TCall -> res ()) (l : list TCall) : list TCall * res () :=
  match l with
  | [] => ([], Ok ())
  | c :: l =>
    match sys c with
    | Err e => ([c], Err e)
    | Ok _ => let '(t, r) := call_all sys l in (c :: t, r)
    end
  end.

(* src/rd-std/src/transparent/socket.rs:20-60 create_tcp_listener *)
Definition create_tcp_listener (addr : SocketAddr) : list TCall :=
  [TSocket (is_v6 addr) true; TTransparent (is_v6 addr); TReuseAddr; TBind addr; TListen 128].

(* src/rd-std/src/transparent/socket.rs:88-137 set_socket_before_bind *)
Definition set_socket_before_bind (addr : SocketAddr) : list TCall := [TTransparent (is_v6 addr); TRecvOrigDst (is_v6 addr)].

(* src/rd-std/src/transparent/socket.rs:65-86 create_udp_socket *)
Definition create_udp_socket (addr : SocketAddr) (reuse_port : bool) (mark : option Z) : list TCall :=
  [TSocket (is_v6 addr) false] ++ set_socket_before_bind addr ++ [TNonblocking; TReuseAddr] ++
  (if reuse_port then [TReusePort] else []) ++ (match mark with Some m => [TMark m] | None => [] end) ++ [TBind addr].

(* src/rd-std/src/transparent/socket.rs:266-268 TransparentUdp::listen *)
Definition listen (addr : SocketAddr) : list TCall := create_udp_socket addr false None.

(* src/rd-std/src/transparent/socket.rs:269-273 TransparentUdp::bind_any *)
Definition bind_any (addr : SocketAddr) (mark : option Z) : list TCall := create_udp_socket addr true mark.

(** ** The destination of a datagram *)

(** A control message: its level, its type, and its data. *)
Record Cmsg : Type := mkCmsg { cmsg_level : Z; cmsg_type : Z; cmsg_data : bytes }.

Definition SOL_IP : Z := 0.
Definition IP_RECVORIGDSTADDR : Z := 20.
Definition SOL_IPV6 : Z := 41.
Definition IPV6_RECVORIGDSTADDR : Z := 74.

Definition is_orig_dst (m : Cmsg) : bool :=
  (cmsg_level m =? SOL_IP) && (cmsg_type m =? IP_RECVORIGDSTADDR) ||
  (cmsg_level m =? SOL_IPV6) && (cmsg_type m =? IPV6_RECVORIGDSTADDR).

Section Recv.
(** [SockAddr::as_socket], for [AF_INET] and [AF_INET6]. *)
Context (as_socket : bytes -> option SocketAddr).

(** [None] is the panic of [expect]. *)
(* src/rd-std/src/transparent/socket.rs:139-180 get_destination_addr *)
Fixpoint get_destination_addr (l : list Cmsg) : option (res SocketAddr) :=
  match l with
  | [] => Some (Err EInvalidData)
  | m :: l =>
    if is_orig_dst m then Ok <$> as_socket (cmsg_data m) else get_destination_addr l
  end.

(** [recvmsg] gave the data, the sender's address and the control messages. *)
(* src/rd-std/src/transparent/socket.rs:182-228 recv_dest_from *)
Definition recv_dest_from (r : res (bytes * bytes * list Cmsg)) : option (res (bytes * SocketAddr * SocketAddr)) :=
  match r with
  | Err e => Some (Err e)
  | Ok (data, src, control) =>
    from ← as_socket src;
    to ← get_destination_addr control;
    Some (to ← to; Ok (data, from, to))
  end.

End Recv.

(** ** The destination of a connection *)

(** [getsockopt]: for IPv4 and for IPv6; [None] is the panic of [expect]. *)
(* src/rd-std/src/transparent/origin_addr.rs:10-43 OriginAddrExt::origin_addr *)
Definition origin_addr (as_socket : bytes -> option SocketAddr) (getsockopt : bool -> res bytes) : option (res SocketAddr) :=
  match getsockopt false with
  | Ok d => Ok <$> as_socket d
  | Err _ => match getsockopt true with Ok d => Ok <$> as_socket d | Err e => Some (Err e) end
  end.

Section Redirect.
(** How serde_json writes and reads a socket address. *)
Context (sa_to_value : SocketAddr -> Value) (sa_from_value : Value -> res SocketAddr).

(** What is relayed is the stream that comes back; the context is that of the
    client's address. *)
(* src/rd-std/src/transparent/redir.rs:53-61 RedirServer::serve_connection (part) *)
Definition redir_serve {W S L U} (net : @INet W S L U) (origin : res SocketAddr) (addr : SocketAddr) : Op W (TcpStream * Context) := fun w =>
  match origin with
  | Err e => Some (Err e, w)
  | Ok target =>
    match tcp_connect net (ASocket target) (from_socketaddr sa_to_value sa_from_value addr, w) with
    | None => None
    | Some (Err e, (_, w)) => Some (Err e, w)
    | Some (Ok s, (ctx, w)) => Some (Ok (s, ctx), w)
    end
  end.

(** A connection the kernel redirected here has the address it was made to as
    its local one. *)
(* src/rd-std/src/transparent/tproxy.rs:93-101 TProxyServer::serve_connection (part) *)
Definition tproxy_serve {W S L U} (net : @INet W S L U) (local_addr : res SocketAddr) (addr : SocketAddr) : Op W (TcpStream * Context) :=
  redir_serve net local_addr addr.

End Redirect.

(** ** The source of the TPROXY server *)

(** The cache also forgets entries, when asked to or when they are too old. *)
Class LruRemove (K V C : Type) `{LruCache K V C} : Type := {
  lru_remove : C -> K -> C;
  lru_expire : C -> C;
  lru_remove_keeps c k k' v : held (lru_remove c k) k' = Some v -> k' <> k /\ held c k' = Some v;
  lru_expire_keeps c k v : held (lru_expire c) k = Some v -> held c k = Some v }.

(** A socket: the address it is bound to. *)
Record TransparentUdp : Type := mkTudp { tu_addr : SocketAddr; tu_mark : option Z }.

Section Source.
Context {C : Type} `{LC : LruCache SocketAddr TransparentUdp C} `{LR : !LruRemove SocketAddr TransparentUdp C}.

(** A datagram that went out. *)
Record Sent : Type := mkSent { sent_socket : TransparentUdp; sent_to : SocketAddr; sent_data : bytes }.

(** What is found in the cache, or put there; [None]: it cannot be bound. *)
Definition get_or_bind (sys : TCall -> res ()) (mark : option Z) (c : C) (from : SocketAddr) : C * option (option TransparentUdp) :=
  match lru_get c from with
  | (c, Some udp) => (c, Some (Some udp))
  | (c, None) =>
    match (call_all sys (bind_any from mark)).2 with
    | Err _ => (c, Some None)
    | Ok _ =>
      match lru_get (lru_insert c from (mkTudp from mark)) from with
      | (c, Some udp) => (c, Some (Some udp))
      | (c, None) => (c, None)
      end
    end
  end.

(** [sending]: what [poll_send_to] of the socket answers.  With the answer
    comes what was sent; [None] is the panic of [expect]. *)
(* src/rd-std/src/transparent/tproxy.rs:147-190 UdpSource::poll_send *)
Definition poll_send (sys : TCall -> res ()) (mark : option Z) (sending : poll (res nat)) (c : C) (buf : bytes) (endpoint : UdpEndpoint)
    : option (C * option Sent * poll (res ())) :=
  let from := ep_from endpoint in
  match get_or_bind sys mark c from with
  | (_, None) => None
  | (c, Some None) => Some (c, None, Ready (Ok ()))
  | (c, Some (Some udp)) =>
    match sending with
    | Pending => Some (c, None, Pending)
    | Ready r =>
      let c := if is_reserved (sa_ip from) then lru_remove c from else c in
      Some (c, match r with Ok _ => Some (mkSent udp (ep_to endpoint) buf) | Err _ => None end, Ready (Ok ()))
    end
  end.

(** [r]: what [poll_recv] of the listening socket answers. *)
(* src/rd-std/src/transparent/tproxy.rs:133-145 UdpSource::poll_recv *)
Definition poll_recv (r : poll (res (bytes * SocketAddr * SocketAddr))) (c : C) : C * poll (res (bytes * UdpEndpoint)) :=
  (lru_expire c,
   match r with
   | Pending => Pending
   | Ready (Err e) => Ready (Err e)
   | Ready (Ok (data, from, to)) => Ready (Ok (data, mkEndpoint from to))
   end).

(* src/rd-std/src/transparent/tproxy.rs:123-129 UdpSource::new *)
Definition source_new : C := lru_new 128.

(** ** Facts *)

(** What is asked of the source, one after the other. *)
Inductive Op : Type :=
| ORecv (r : poll (res (bytes * SocketAddr * SocketAddr)))
| OSend (sys : TCall -> res ()) (sending : poll (res nat)) (buf : bytes) (ep : UdpEndpoint).

Fixpoint run (mark : option Z) (c : C) (l : list Op) : option (C * list (option Sent)) :=
  match l with
  | [] => Some (c, [])
  | ORecv r :: l => '(c, o) ← run mark (poll_recv r c).1 l; Some (c, None :: o)
  | OSend sys sending buf ep :: l =>
    '(c, s, _) ← poll_send sys mark sending c buf ep;
    '(c, o) ← run mark c l; Some (c, s :: o)
  end.

(** What an operation may send. *)
Definition answers (mark : option Z) (op : Op) (o : option Sent) : Prop :=
  match op with
  | ORecv _ => o = None
  | OSend sys sending buf ep =>
    match sending with
    | Ready (Ok _) =>
      o = Some (mkSent (mkTudp (ep_from ep) mark) (ep_to ep) buf) \/
      (o = None /\ exists e, (call_all sys (bind_any (ep_from ep) mark)).2 = Err e)
    | _ => o = None
    end
  end.

Definition waits (op : Op) : Prop := match op with OSend _ Pending _ _ => True | _ => False end.

(** Every socket is bound to the address it is kept for. *)
Definition bound_right (mark : option Z) (c : C) : Prop := forall k u, held c k = Some u -> u = mkTudp k mark.
Definition none_reserved (c : C) : Prop := forall k u, held c k = Some u -> is_reserved (sa_ip k) = false.

Lemma bound_sub mark c c' : (forall k u, held c' k = Some u -> held c k = Some u) -> bound_right mark c -> bound_right mark c'.
Proof. intros H Hb k u Hk. by apply Hb, H. Qed.

Lemma get_or_bind_spec sys mark c from : bound_right mark c ->
  exists c' o, get_or_bind sys mark c from = (c', Some o) /\ bound_right mark c' /\
    (forall k u, held c' k = Some u -> k = from \/ held c k = Some u) /\
    match o with Some u => u = mkTudp from mark | None => (exists e, (call_all sys (bind_any from mark)).2 = Err e) /\ forall k u, held c' k = Some u -> held c k = Some u end.
Proof.
  intros Hb. unfold get_or_bind. pose proof (lru_get_held c from) as Hg. pose proof (fun k v => lru_get_keeps c from k v) as Hk.
  destruct (lru_get c from) as [c1 [u|]]; cbn [fst snd] in *.
  - exists c1, (Some u). split; [done|]. split; [by eapply bound_sub|]. split; [by eauto|]. by apply Hb.
  - destruct ((call_all sys (bind_any from mark)).2) as [[]|e]; [|exists c1, None; repeat split; eauto; by eapply bound_sub].
    pose proof (lru_get_held (lru_insert c1 from (mkTudp from mark)) from) as Hg2. rewrite lru_insert_held in Hg2.
    pose proof (fun k v => lru_get_keeps (lru_insert c1 from (mkTudp from mark)) from k v) as Hk2.
    destruct (lru_get (lru_insert c1 from (mkTudp from mark)) from) as [c2 o]. cbn [fst snd] in *. subst o.
    exists c2, (Some (mkTudp from mark)). split; [done|].
    assert (Hc2 : forall k u, held c2 k = Some u -> (k = from /\ u = mkTudp from mark) \/ held c k = Some u).
    { intros k u H%Hk2. apply lru_insert_keeps in H as [[-> ->]|[_ H]]; [by left|right; by apply Hk]. }
    split; [|split; [|done]]; intros k u H; destruct (Hc2 k u H) as [[-> ->]|H']; eauto.
Qed.

Lemma poll_send_spec sys mark sending c buf ep : bound_right mark c ->
  exists c' o r, poll_send sys mark sending c buf ep = Some (c', o, r) /\ bound_right mark c' /\ answers mark (OSend sys sending buf ep) o /\
    (none_reserved c -> sending <> Pending -> none_reserved c').
Proof.
  intros Hb. unfold poll_send. destruct (get_or_bind_spec sys mark c (ep_from ep) Hb) as (c1 & o & -> & Hb1 & Hs & Ho).
  destruct o as [u|].
  - subst u. destruct sending as [|r].
    + exists c1, None, Pending. repeat split; [done..|]. by intros _ [].
    + eexists _, _, _. split; [done|]. destruct (is_reserved (sa_ip (ep_from ep))) eqn:Er.
      * split; [eapply bound_sub; [|done]; intros k u [_ Hh]%lru_remove_keeps; exact Hh|].
        split; [destruct r; cbn; auto|]. intros Hn _ k u [Hne Hh]%lru_remove_keeps.
        destruct (Hs k u Hh) as [->|H']; [done|by eapply Hn].
      * split; [done|]. split; [destruct r; cbn; auto|]. intros Hn _ k u H. destruct (Hs k u H) as [->|H']; [done|by eapply Hn].
  - exists c1, None, (Ready (Ok ())). split; [done|]. split; [done|]. destruct Ho as [He Hsub].
    split; [cbn; destruct sending as [|[]]; auto|]. intros Hn _ k u H. by eapply Hn, Hsub.
Qed.

Lemma run_spec mark l : forall c, bound_right mark c ->
  exists c' o, run mark c l = Some (c', o) /\ bound_right mark c' /\ Forall2 (answers mark) l o /\
    (none_reserved c -> Forall (fun op => ~ waits op) l -> none_reserved c').
Proof.
  induction l as [|op l IH]; intros c Hb; cbn [run]; [by exists c, []; repeat split|]. destruct op as [r|sys sending buf ep].
  - destruct (IH (poll_recv r c).1) as (c' & o & E & Hb' & F & Hn); [by eapply bound_sub; [intros k u; apply lru_expire_keeps|]|].
    rewrite E. exists c', (None :: o). split; [done|]. split; [done|]. split; [by constructor|].
    intros Hc Hw. inversion_clear Hw. apply Hn; [|done]. intros k u Hh%lru_expire_keeps. by eapply Hc.
  - destruct (poll_send_spec sys mark sending c buf ep Hb) as (c1 & o1 & r & E1 & Hb1 & Ha & Hn1). rewrite E1. cbn.
    destruct (IH c1 Hb1) as (c' & o & E & Hb' & F & Hn). rewrite E. exists c', (o1 :: o). split; [done|]. split; [done|].
    split; [by constructor|]. intros Hc Hw. inversion_clear Hw as [|? ? Hw1 Hw2]. apply Hn; [|done]. apply Hn1; [done|]. by intros ->.
Qed.

(** The source of the TPROXY server never panics; a datagram for a client
    leaves from the very address the client had sent to, once, with the mark,
    unless that address cannot be bound or the socket refuses it; and the
    sockets of reserved addresses are not kept. *)
Theorem tproxy_replies mark l :
  exists c o, run mark source_new l = Some (c, o) /\ Forall2 (answers mark) l o /\
    (Forall (fun op => ~ waits op) l -> forall k, is_reserved (sa_ip k) = true -> held c k = None).
Proof.
  destruct (run_spec mark l source_new) as (c & o & E & _ & F & Hn); [intros k u; unfold source_new; by rewrite lru_new_empty|].
  exists c, o. split; [done|]. split; [done|]. intros Hw k Hk. destruct (held c k) as [u|] eqn:Eu; [|done].
  rewrite (Hn ltac:(intros j v; unfold source_new; by rewrite lru_new_empty) Hw k u Eu) in Hk. done.
Qed.

End Source.

(** A socket is bound only when everything it needs has been set: it may then
    have an address that is not the machine's own, and tells where a datagram
    was sent to. *)
Theorem transparent_before_bind sys addr reuse_port mark t r : call_all sys (create_udp_socket addr reuse_port mark) = (t, r) ->
  forall a, In (TBind a) t -> a = addr /\ t = create_udp_socket addr reuse_port mark /\
    forall c, In c t -> c <> TBind addr -> sys c = Ok ().
Proof.
  assert (H : forall pre t r, call_all sys (pre ++ [TBind addr]) = (t, r) -> Forall (fun c => forall a, c <> TBind a) pre ->
    forall a, In (TBind a) t -> a = addr /\ t = (pre ++ [TBind addr]) /\ forall c, In c t -> c <> TBind addr -> sys c = Ok ()).
  { clear t r. induction pre as [|c pre IH]; intros t r E F a Hin; cbn [app call_all] in E.
    - assert (t = [TBind addr]) as -> by (by destruct (sys (TBind addr)) as [[]|e]; injection E as <- _).
      destruct Hin as [[= ->]|[]]. split; [done|]. split; [done|]. by intros c [<-|[]].
    - inversion_clear F as [|? ? Hc F']. destruct (sys c) as [[]|e] eqn:Es.
      + destruct (call_all sys (pre ++ [TBind addr])) as [t' r'] eqn:E'. injection E as <- _.
        destruct Hin as [->|Hin]; [by destruct (Hc a)|]. destruct (IH _ _ eq_refl F' a Hin) as (-> & -> & Ha).
        split; [done|]. split; [done|]. intros d [<-|Hd]; [done|by apply Ha].
      + injection E as <- _. destruct Hin as [->|[]]. by destruct (Hc a). }
  intros E. unfold create_udp_socket in *. rewrite !app_assoc in *. apply (H _ _ _ E).
  repeat (apply Forall_app; split); repeat constructor; try done; destruct reuse_port, mark; repeat constructor; done.
Qed.

(** The destination is that of the first control message that tells it. *)
Theorem destination_of_datagram as_socket l :
  match get_destination_addr as_socket l with
  | Some (Ok a) => exists pre m post, l = pre ++ m :: post /\ Forall (fun x => is_orig_dst x = false) pre /\
      is_orig_dst m = true /\ as_socket (cmsg_data m) = Some a
  | Some (Err _) => Forall (fun x => is_orig_dst x = false) l
  | None => exists m, In m l /\ is_orig_dst m = true /\ as_socket (cmsg_data m) = None
  end.
Proof.
  induction l as [|m l IH]; cbn [get_destination_addr]; [done|]. destruct (is_orig_dst m) eqn:Em.
  - destruct (as_socket (cmsg_data m)) as [a|] eqn:Ea; cbn; [by exists [], m, l|]. exists m. split; [by left|done].
  - destruct (get_destination_addr as_socket l) as [[a|e]|].
    + destruct IH as (pre & x & post & -> & F & Hx & Ha). exists (m :: pre), x, post. split; [done|]. split; [by constructor|done].
    + by constructor.
    + destruct IH as (x & Hin & Hx). exists x. split; [by right|done].
Qed.

(** A redirected connection goes to where its client sent it, and the rules
    see the client's address. *)
Theorem redirect_exact {W S L U} sa_to_value sa_from_value (net : @INet W S L U) target addr w s ctx w' :
  (forall a, sa_from_value (sa_to_value a) = Ok a) ->
  redir_serve sa_to_value sa_from_value net (Ok target) addr w = Some (Ok (s, ctx), w') ->
  exists c0, tcp_connect net (ASocket target) (c0, w) = Some (Ok s, (ctx, w')) /\ @get_common _ (SrcSocketAddr sa_to_value sa_from_value) c0 = Ok (Some addr) /\ net_list c0 = cvs_new.
Proof.
  unfold redir_serve. intros Hsa E. destruct (tcp_connect _ _ _) as [[[x|e] [c' w1]]|] eqn:Et; try discriminate. injection E as -> -> ->.
  exists (from_socketaddr sa_to_value sa_from_value addr). split; [done|]. split; [|done].
  unfold from_socketaddr, get_common, insert_common, insert_value. cbn [data KEY SrcSocketAddr field_to_value field_from_value].
  rewrite lookup_insert_eq. cbn. by rewrite Hsa.
Qed.

(** *** Reserved addresses *)

Lemma land_ones8 x : Z.land x 255 = x mod 256.
Proof. change 255 with (Z.ones 8). by rewrite Z.land_ones by lia. Qed.

Lemma octet_0 a : 0 <= a < 2 ^ 32 -> octet a 0 = a / 2 ^ 24.
Proof. intros H. unfold octet. rewrite land_ones8, Z.shiftr_div_pow2 by lia. cbn. apply Z.mod_small. Z.to_euclidean_division_equations; lia. Qed.

Lemma octet_1 a : 0 <= a < 2 ^ 32 -> octet a 1 = a / 2 ^ 16 mod 256.
Proof. intros H. unfold octet. rewrite land_ones8, Z.shiftr_div_pow2 by lia. done. Qed.

(** The prefix [p]/[n] of IPv4. *)
Definition in_prefix (p n a : Z) : Prop := a / 2 ^ (32 - n) = p / 2 ^ (32 - n).

(** Reserved are exactly the addresses of 0/8, 10/8, 127/8, 169.254/16,
    172.16/12, 192.168/16 and everything from 224.0.0.0 on. *)
Theorem is_reserved_v4 a : 0 <= a < 2 ^ 32 ->
  is_reserved (V4 a) = true <->
  in_prefix 0 8 a \/ in_prefix (10 * 2 ^ 24) 8 a \/ in_prefix (127 * 2 ^ 24) 8 a \/
  in_prefix (169 * 2 ^ 24 + 254 * 2 ^ 16) 16 a \/ in_prefix (172 * 2 ^ 24 + 16 * 2 ^ 16) 12 a \/
  in_prefix (192 * 2 ^ 24 + 168 * 2 ^ 16) 16 a \/ 224 * 2 ^ 24 <= a.
Proof.
  intros H. unfold is_reserved, is_private, in_prefix. rewrite octet_0, octet_1 by done. cbn -[Z.mul Z.div Z.modulo Z.add].
  rewrite !orb_true_iff, !andb_true_iff, !Z.eqb_eq, !Z.leb_le.
  Z.to_euclidean_division_equations. lia.
Qed.


Lemma land_high x m k : 0 <= k -> 0 <= x < 2 ^ (k + m) -> 0 <= m -> Z.land x (Z.shiftl (Z.ones m) k) = 2 ^ k * (x / 2 ^ k).
Proof.
  intros Hk Hx Hm. rewrite <- Z.shiftr_div_pow2, Z.mul_comm, <- Z.shiftl_mul_pow2 by done. apply Z.bits_inj'. intros n Hn.
  rewrite Z.land_spec. destruct (Z.ltb_spec n k).
  - rewrite !Z.shiftl_spec_low by done. apply andb_false_r.
  - rewrite !Z.shiftl_spec, Z.shiftr_spec by lia. replace (n - k + k) with n by lia. destruct (Z.ltb_spec (n - k) m).
    + rewrite Z.ones_spec_low by lia. apply andb_true_r.
    + rewrite Z.ones_spec_high by lia. rewrite andb_false_r. symmetry. destruct (decide (x = 0)) as [->|]; [apply Z.bits_0|].
      apply Z.bits_above_log2; [lia|]. apply Z.log2_lt_pow2; [lia|]. eapply Z.lt_le_trans; [apply Hx|]. apply Z.pow_le_mono_r; lia.
Qed.

(** The prefix [p]/[n] of IPv6. *)
Definition in_prefix6 (p n a : Z) : Prop := a / 2 ^ (128 - n) = p / 2 ^ (128 - n).

(** ::, ::1, fc00::/7 and fe80::/10. *)
Theorem is_reserved_v6 a : 0 <= a < 2 ^ 128 ->
  is_reserved (V6 a) = true <->
  a = 0 \/ a = 1 \/ in_prefix6 (64512 * 2 ^ 112) 7 a \/ in_prefix6 (65152 * 2 ^ 112) 10 a.
Proof.
  intros H. unfold is_reserved, in_prefix6. change 65535 with (Z.ones 16). rewrite Z.land_ones, Z.shiftr_div_pow2 by lia.
  rewrite (Z.mod_small (a / 2 ^ 112)) by (Z.to_euclidean_division_equations; lia).
  change 65024 with (Z.shiftl (Z.ones 7) 9). change 65472 with (Z.shiftl (Z.ones 10) 6).
  rewrite !land_high by (first [lia | cbn; Z.to_euclidean_division_equations; lia]).
  rewrite !orb_true_iff, !Z.eqb_eq. rewrite !Z.div_div by lia. cbn -[Z.mul Z.div Z.modulo Z.add].
  Z.to_euclidean_division_equations. lia.
Qed.

(** The IPv4 address mapped into an IPv6 address comes back; every other
    address stays as it is. *)
Theorem mapped_resolved s : match sa_ip s with
  | V6 a => 0 <= a < 2 ^ 128 ->
    if decide (2 ^ 48 - 2 ^ 32 <= a < 2 ^ 48) then resolve_mapped_socket_addr s = mkSocketAddr (V4 (a - (2 ^ 48 - 2 ^ 32))) (sa_port s)
    else resolve_mapped_socket_addr s = s
  | V4 _ => resolve_mapped_socket_addr s = s
  end.
Proof.
  destruct s as [[a|a] p]; unfold resolve_mapped_socket_addr, to_ipv4_mapped; cbn [sa_ip sa_port]; [done|]. intros H.
  rewrite Z.shiftr_div_pow2 by lia. change (2 ^ 32 - 1) with (Z.ones 32). rewrite Z.land_ones by lia.
  destruct (decide _) as [Hd|Hd]; destruct (Z.eqb_spec (a / 2 ^ 32) 65535) as [E|E]; try done.
  - f_equal. f_equal. Z.to_euclidean_division_equations; lia.
  - exfalso. apply E. Z.to_euclidean_division_equations; lia.
  - exfalso. apply Hd. Z.to_euclidean_division_equations; lia.
Qed.

(** ** Samples *)

#[local] Existing Instance bounded_cache.

Lemma assoc_get_filter (c : list (SocketAddr * TransparentUdp)) k k' v :
  assoc_get (filter (fun e => e.1 <> k) c) k' = Some v -> k' <> k /\ assoc_get c k' = Some v.
Proof.
  induction c as [|[j u] c IH]; [done|]. rewrite filter_cons. cbn [fst]. destruct (decide (j <> k)) as [Hj|Hj].
  - cbn. destruct (decide (k' = j)) as [->|]; [by intros [= ->]|exact IH].
  - apply dec_stable in Hj as ->. intros Hh. destruct (IH Hh) as [Hne Hv]. split; [done|]. cbn. by rewrite decide_False.
Qed.

(** A cache of four sockets, from which nothing goes for its age. *)
#[local] Program Instance bounded_remove : LruRemove SocketAddr TransparentUdp (list (SocketAddr * TransparentUdp)) :=
  {| lru_remove c k := filter (fun e => e.1 <> k) c; lru_expire c := c |}.
Next Obligation. intros c k k' v. apply assoc_get_filter. Qed.
Next Obligation. done. Qed.

Definition tp_dns : SocketAddr := mkSocketAddr (V4 134744072) 53.
Definition tp_lan : SocketAddr := mkSocketAddr (V4 3232235777) 53.
Definition tp_client : SocketAddr := mkSocketAddr (V4 3232235786) 4000.

(** The answers of 8.8.8.8 leave from one socket, which is kept; the one for
    192.168.1.1 is not; a second that waits has left nothing. *)
Example sample_replies :
  exists c, run (Some 7) source_new
    [OSend (fun _ => Ok ()) (Ready (Ok 1%nat)) [1] (mkEndpoint tp_dns tp_client);
     OSend (fun _ => Err EInvalidData) (Ready (Ok 1%nat)) [2] (mkEndpoint tp_dns tp_client);
     OSend (fun _ => Ok ()) (Ready (Ok 1%nat)) [3] (mkEndpoint tp_lan tp_client);
     OSend (fun _ => Err EInvalidData) (Ready (Ok 1%nat)) [4] (mkEndpoint tp_lan tp_client)] =
  Some (c, [Some (mkSent (mkTudp tp_dns (Some 7)) tp_client [1]); Some (mkSent (mkTudp tp_dns (Some 7)) tp_client [2]);
            Some (mkSent (mkTudp tp_lan (Some 7)) tp_client [3]); None]) /\ map fst c = [tp_dns].
Proof. eexists. split; [vm_compute; reflexivity|reflexivity]. Qed.

(** Without the privilege nothing is bound. *)
Lemma transparent_before_bind_witness : ~ In (TBind tp_dns)
  (call_all (fun c => match c with TTransparent _ => Err EInvalidData | _ => Ok () end) (bind_any tp_dns None)).1.
Proof.
  intros Hin. destruct (transparent_before_bind (fun c => match c with TTransparent _ => Err EInvalidData | _ => Ok () end)
    tp_dns true None _ _ (surjective_pairing _) tp_dns Hin) as (_ & _ & Ht).
  cbn in Hin. destruct Hin as [?|[?|[]]]; discriminate.
Defined.

Definition tp_value (a : SocketAddr) : Value := VArr (match sa_ip a with V4 i => [VNum 4; VNum i; VNum (sa_port a)] | V6 i => [VNum 6; VNum i; VNum (sa_port a)] end).
Definition tp_addr (v : Value) : res SocketAddr :=
  match v with
  | VArr [VNum 4; VNum i; VNum p] => Ok (mkSocketAddr (V4 i) p)
  | VArr [VNum 6; VNum i; VNum p] => Ok (mkSocketAddr (V6 i) p)
  | _ => Err EInvalidData
  end.

(** A net that gives the address it is asked for as the stream. *)
Definition tp_net : @INet nat Address unit unit := mkINet (Some (fun a '(c, w) => Some (Ok (PluginStream a), (c, S w)))) None None None.

Lemma redirect_exact_witness : exists s ctx, redir_serve tp_value tp_addr tp_net (Ok tp_dns) tp_client 0%nat = Some (Ok (s, ctx), 1%nat) /\
  exists c0, tcp_connect tp_net (ASocket tp_dns) (c0, 0%nat) = Some (Ok s, (ctx, 1%nat)) /\
    @get_common _ (SrcSocketAddr tp_value tp_addr) c0 = Ok (Some tp_client).
Proof.
  eexists _, _. split; [reflexivity|].
  destruct (redirect_exact tp_value tp_addr tp_net tp_dns tp_client 0%nat _ _ _ ltac:(by intros [[] p]) eq_refl) as (c0 & E & G & _).
  exists c0. split; [exact E|exact G].
Defined.

Lemma is_reserved_v4_witness : is_reserved (V4 3232235777) = true.
Proof. apply (is_reserved_v4 3232235777); [lia|]. do 5 right. left. reflexivity. Defined.

Lemma is_reserved_v6_witness : is_reserved (V6 (2 ^ 127 - 1)) <> true.
Proof.
  intros E. apply (is_reserved_v6 (2 ^ 127 - 1)) in E; [|lia]. unfold in_prefix6 in E. vm_compute in E.
  destruct E as [E|[E|[E|E]]]; discriminate E.
Defined.

End Transparent.
