(* ===== verification/Tun.v ===== *)
(** * The TUN server: [protocol/raw/src/tun_server.rs], [forward/source.rs],
    [forward.rs], [server.rs]

    What becomes of the connections and datagrams of a TUN device: queries
    for names are answered with fake IPs, connections to those go to the
    names through the net.  [smoltcp]'s views of packets are an interface. *)

From S2P Require Import Prelude Address ConnContext Build Lru Rule SideEffect Route Raw Nets Servers.
Import Rule.Rule SideEffect.SideEffect Route.Route Raw.Raw Nets.Nets Servers.Servers.

Module Tun.

(** What is used of [smoltcp]'s IPv4 and UDP packets: the views of a packet
    that passes [new_checked], and what [emit] writes. *)
Class SmolUdp : Type := {
  ip_checked : bytes -> option (Z * Z * bytes);
  udp_checked : bytes -> option (Z * Z * bytes);
  udp_emit : SockV4 -> SockV4 -> bytes -> bytes;
  ip_range : forall b src dst payload, ip_checked b = Some (src, dst, payload) -> 0 <= src < 2 ^ 32 /\ 0 <= dst < 2 ^ 32;
  emit_checked : forall src dst payload, (28 + length payload <= Z.to_nat 65535)%nat ->
    0 <= src.1 < 2 ^ 32 -> 0 <= dst.1 < 2 ^ 32 -> port_ok src.2 -> port_ok dst.2 ->
    udp_emit src dst payload <> [] /\
    exists ip_payload, ip_checked (udp_emit src dst payload) = Some (src.1, dst.1, ip_payload) /\
      udp_checked ip_payload = Some (src.2, dst.2, payload) }.

(* src/protocol/raw/src/tun_server.rs:31-36 DnsMode *)
Inductive DnsMode : Type := FakeIp | RedirHost.

Section Source.
Context `{SmolUdp}.

(** The interface's address and, unless the network is too small, its
    broadcast address. *)
Context (cidr_address : Z) (cidr_broadcast : option Z).

(* src/protocol/raw/src/forward/source.rs:92-101 parse_udp *)
Definition parse_udp (buf : bytes) : option (SocketAddr * SocketAddr * bytes) :=
  '(src, dst, payload) ← ip_checked buf;
  '(sport, dport, data) ← udp_checked payload;
  Some (mkSocketAddr (V4 src) sport, mkSocketAddr (V4 dst) dport, data).

(* src/protocol/raw/src/forward/source.rs:103-139 pack_udp *)
Definition pack_udp (src dst : SocketAddr) (payload : bytes) : option bytes :=
  match sa_ip src, sa_ip dst with
  | V4 s, V4 d => Some (udp_emit (s, sa_port src) (d, sa_port dst) payload)
  | _, _ => None
  end.

Definition is_multicast (ip : IpAddr) : bool :=
  match ip with V4 a => (224 <=? Z.shiftr a 24) && (Z.shiftr a 24 <=? 239) | V6 a => Z.shiftr a 120 =? 255 end.

(** Datagrams to the network itself are not taken. *)
Definition ignored (to : SocketAddr) : bool :=
  bool_decide (V4 <$> cidr_broadcast = Some (sa_ip to)) || is_multicast (sa_ip to) || bool_decide (sa_ip to = V4 cidr_address).

(** The raw socket gives a packet, cut to the buffer, or is pending. *)
(* src/protocol/raw/src/forward/source.rs:35-69 Source::poll_recv *)
Fixpoint source_poll_recv (raw : list (poll (res bytes))) : list (poll (res bytes)) * poll (res (bytes * UdpEndpoint)) :=
  match raw with
  | [] => ([], Pending)
  | Pending :: raw => (raw, Pending)
  | Ready (Err e) :: raw => (raw, Ready (Err e))
  | Ready (Ok packet) :: raw =>
    match parse_udp packet with
    | Some (from, to, data) => if ignored to then source_poll_recv raw else (raw, Ready (Ok (data, mkEndpoint from to)))
    | None => source_poll_recv raw
    end
  end.

(** ** The source of the TUN server *)

(** [first_question] and [reply] are [simple_dns]'s; see [Raw]. *)
Context (first_question : bytes -> option (bytes * bool)) (reply : bytes -> Z -> option bytes).

(** The raw socket's answers to receiving and to sending, and what it sent. *)
(* src/protocol/raw/src/tun_server.rs:288-292 DnsInterceptSource *)
Record DnsInterceptSource : Type := mkIntercept {
  di_raw : list (poll (res bytes));
  di_sends : list (poll (res unit));
  di_sent : list bytes;
  di_buf : bytes;
  fake_ip : FakeIpPool;
  dns_mode : DnsMode }.

(* src/protocol/raw/src/tun_server.rs:327-334 DnsInterceptSource::poll_send *)
Definition intercept_poll_send (s : DnsInterceptSource) (buf : bytes) (ep : UdpEndpoint) : DnsInterceptSource * poll (res unit) :=
  let packed := pack_udp (ep_from ep) (ep_to ep) buf in
  let asked := match di_buf s, packed with [], None => false | _, _ => true end in
  let '(answer, rest) := match di_sends s with [] => (Pending, []) | x :: l => (x, l) end in
  let '(b, r, out) := source_poll_send (di_buf s) packed answer in
  (mkIntercept (di_raw s) (if asked then rest else di_sends s) (di_sent s ++ option_list out) b (fake_ip s) (dns_mode s), r).

(** One turn of the loop: [None] is a panic; [inl] goes round again. *)
Definition intercept_turn (s : DnsInterceptSource) : option (DnsInterceptSource * (unit + poll (res (bytes * UdpEndpoint)))) :=
  let '(raw, r) := source_poll_recv (di_raw s) in
  let s := mkIntercept raw (di_sends s) (di_sent s) (di_buf s) (fake_ip s) (dns_mode s) in
  match r with
  | Ready (Ok (data, ep)) =>
    match dns_mode s with
    | FakeIp =>
      if sa_port (ep_to ep) =? 53 then
        match generate_fake_response first_question reply (fake_ip s) data with
        | None => None
        | Some (p, answer) =>
          let s := mkIntercept raw (di_sends s) (di_sent s) (di_buf s) p (dns_mode s) in
          match answer with
          | Some response => Some ((intercept_poll_send s response (mkEndpoint (ep_to ep) (ep_from ep))).1, inl ())
          | None => Some (s, inr r)
          end
        end
      else Some (s, inr r)
    | RedirHost => Some (s, inr r)
    end
  | _ => Some (s, inr r)
  end.

(** The fuel is at least the number of packets to come. *)
(* src/protocol/raw/src/tun_server.rs:295-325 DnsInterceptSource::poll_recv *)
Fixpoint intercept_poll_recv (fuel : nat) (s : DnsInterceptSource) : option (DnsInterceptSource * poll (res (bytes * UdpEndpoint))) :=
  match fuel with
  | O => Some (s, Pending)
  | S fuel =>
    '(s, r) ← intercept_turn s;
    match r with inl _ => intercept_poll_recv fuel s | inr r => Some (s, r) end
  end.

Definition recv_fuel (s : DnsInterceptSource) : nat := S (length (di_raw s)).

(** What the forwarder does with the source: it receives until there is
    nothing more. *)
Fixpoint drain (n : nat) (s : DnsInterceptSource) : option (DnsInterceptSource * list (res (bytes * UdpEndpoint))) :=
  match n with
  | O => Some (s, [])
  | S n =>
    '(s, r) ← intercept_poll_recv (recv_fuel s) s;
    '(s, l) ← drain n s;
    Some (s, match r with Ready x => x :: l | Pending => l end)
  end.

(** ** What it does, packet by packet *)

(** One datagram: the pool after it, the packet sent back for it, and what is
    handed on. *)
Definition handle_datagram (mode : DnsMode) (p : FakeIpPool) (data : bytes) (ep : UdpEndpoint)
    : option (FakeIpPool * option bytes * option (bytes * UdpEndpoint)) :=
  match mode with
  | RedirHost => Some (p, None, Some (data, ep))
  | FakeIp =>
    if sa_port (ep_to ep) =? 53 then
      '(p, answer) ← generate_fake_response first_question reply p data;
      Some (match answer with
      | Some response => (p, pack_udp (ep_to ep) (ep_from ep) response, None)
      | None => (p, None, Some (data, ep))
      end)
    else Some (p, None, Some (data, ep))
  end.

Definition handle_packet (mode : DnsMode) (p : FakeIpPool) (packet : bytes) : option (FakeIpPool * option bytes * option (bytes * UdpEndpoint)) :=
  match parse_udp packet with
  | None => Some (p, None, None)
  | Some (from, to, data) => if ignored to then Some (p, None, None) else handle_datagram mode p data (mkEndpoint from to)
  end.

Fixpoint handle_packets (mode : DnsMode) (p : FakeIpPool) (l : list (poll (res bytes)))
    : option (FakeIpPool * list bytes * list (res (bytes * UdpEndpoint))) :=
  match l with
  | [] => Some (p, [], [])
  | Pending :: l => handle_packets mode p l
  | Ready (Err e) :: l => '(p, sent, out) ← handle_packets mode p l; Some (p, sent, Err e :: out)
  | Ready (Ok packet) :: l =>
    '(p, a, d) ← handle_packet mode p packet;
    '(p, sent, out) ← handle_packets mode p l;
    Some (p, option_list a ++ sent, (Ok <$> option_list d) ++ out)
  end.

(** ** It does that *)

(** What is handled after [x] was. *)
Definition after (x : option (FakeIpPool * option bytes * option (bytes * UdpEndpoint))) (mode : DnsMode) (l : list (poll (res bytes)))
    : option (FakeIpPool * list bytes * list (res (bytes * UdpEndpoint))) :=
  '(p, a, d) ← x;
  '(p, sent, out) ← handle_packets mode p l;
  Some (p, option_list a ++ sent, (Ok <$> option_list d) ++ out).

Lemma source_handles mode p raw : let '(rest, r) := source_poll_recv raw in
  handle_packets mode p raw =
    match r with
    | Pending => handle_packets mode p rest
    | Ready (Err e) => '(p, sent, out) ← handle_packets mode p rest; Some (p, sent, Err e :: out)
    | Ready (Ok (data, ep)) => after (handle_datagram mode p data ep) mode rest
    end /\ (length rest <= pred (length raw))%nat.
Proof.
  induction raw as [|x raw IH]; [by split|]. destruct x as [|[packet|e]]; cbn [source_poll_recv handle_packets length pred]; [by split| |by split].
  unfold handle_packet. assert (Hskip : after (Some (p, None, None)) mode raw = handle_packets mode p raw).
  { unfold after. cbn. by destruct (handle_packets mode p raw) as [[[]]|]. }
  destruct (parse_udp packet) as [[[from to] data]|]; [destruct (ignored to); [|by split]|];
    (destruct (source_poll_recv raw) as [rest r]; destruct IH as [IH Hl]; split; [etrans; [exact Hskip|exact IH]|lia]).
Qed.

(** Nothing waits to be sent, and nothing will. *)
Definition ready (s : DnsInterceptSource) : Prop :=
  di_buf s = [] /\ Forall (fun x => x = Ready (Ok tt)) (di_sends s) /\ (length (di_raw s) <= length (di_sends s))%nat.

Lemma send_ready s buf ep : di_buf s = [] -> Forall (fun x => x = Ready (Ok tt)) (di_sends s) -> (0 < length (di_sends s))%nat ->
  exists l, Forall (fun x => x = Ready (Ok tt)) l /\ (pred (length (di_sends s)) <= length l)%nat /\
  (intercept_poll_send s buf ep).1 =
    mkIntercept (di_raw s) l (di_sent s ++ option_list (pack_udp (ep_from ep) (ep_to ep) buf)) [] (fake_ip s) (dns_mode s).
Proof.
  intros Hb Hf Hl. unfold intercept_poll_send. rewrite Hb. destruct Hf as [|x l -> Hf]; [cbn in Hl; lia|].
  unfold source_poll_send. destruct (pack_udp _ _ _) as [b|]; cbn; [exists l; by split|].
  exists (Ready (Ok tt) :: l). split; [by constructor|]. split; [cbn; lia|done].
Qed.

(** One turn of the loop does what the packets it takes ask for. *)
Lemma turn_handles s : ready s ->
  match intercept_turn s with
  | None => handle_packets (dns_mode s) (fake_ip s) (di_raw s) = None
  | Some (s', r) => ready s' /\ dns_mode s' = dns_mode s /\ (length (di_raw s') <= pred (length (di_raw s)))%nat /\
      (r = inl () -> (0 < length (di_raw s))%nat) /\
      exists sent1, di_sent s' = di_sent s ++ sent1 /\ handle_packets (dns_mode s) (fake_ip s) (di_raw s) =
        '(p, sent, out) ← handle_packets (dns_mode s) (fake_ip s') (di_raw s');
        Some (p, sent1 ++ sent, match r with inr (Ready x) => x :: out | _ => out end)
  end.
Proof.
  intros (Hb & Hf & Hl). unfold intercept_turn. pose proof (source_handles (dns_mode s) (fake_ip s) (di_raw s)) as Hs.
  destruct (source_poll_recv (di_raw s)) as [rest r] eqn:Er. destruct Hs as [Hs Hrest].
  assert (Hready : forall p, ready (mkIntercept rest (di_sends s) (di_sent s) (di_buf s) p (dns_mode s))) by (intros p; repeat split; [done..|cbn; lia]).
  assert (Hnil : forall x : option (FakeIpPool * list bytes * list (res (bytes * UdpEndpoint))),
    x = ('(p, sent, out) ← x; Some (p, [] ++ sent, out))) by (intros [[[]]|]; done).
  assert (Hok : forall d, r = Ready (Ok d) -> (0 < length (di_raw s))%nat) by (intros d ->; destruct (di_raw s); [done|cbn; lia]).
  destruct r as [|[[data ep]|e]].
  - split; [done|]. split; [done|]. split; [done|]. split; [done|]. exists []. rewrite app_nil_r. split; [done|]. rewrite Hs. apply Hnil.
  - assert (Hon : forall p, handle_packets (dns_mode s) (fake_ip s) (di_raw s) = after (Some (p, None, Some (data, ep))) (dns_mode s) rest ->
      ready (mkIntercept rest (di_sends s) (di_sent s) (di_buf s) p (dns_mode s)) /\ dns_mode s = dns_mode s /\ (length rest <= pred (length (di_raw s)))%nat /\
      (@inr () _ (Ready (Ok (data, ep))) = inl () -> (0 < length (di_raw s))%nat) /\
      exists sent1, di_sent s = di_sent s ++ sent1 /\ handle_packets (dns_mode s) (fake_ip s) (di_raw s) =
        '(p, sent, out) ← handle_packets (dns_mode s) p rest; Some (p, sent1 ++ sent, Ok (data, ep) :: out)).
    { intros p E. split; [done|]. split; [done|]. split; [done|]. split; [done|]. exists []. rewrite app_nil_r. split; [done|]. exact E. }
    unfold handle_datagram in Hs. cbn [di_raw di_sends di_sent di_buf fake_ip dns_mode]. destruct (dns_mode s) eqn:Em; [|exact (Hon _ Hs)]. destruct (sa_port (ep_to ep) =? 53); [|exact (Hon _ Hs)].
    destruct (generate_fake_response first_question reply (fake_ip s) data) as [[p [response|]]|]; [|exact (Hon p Hs)|exact Hs].
    pose proof (Hok _ eq_refl) as Hpos. destruct (send_ready (mkIntercept rest (di_sends s) (di_sent s) (di_buf s) p FakeIp) response
      (mkEndpoint (ep_to ep) (ep_from ep)) Hb Hf ltac:(cbn; lia)) as (l & Hlf & Hll & ->). cbn in Hll |- *.
    split; [repeat split; [done|cbn; lia]|]. split; [done|]. split; [done|]. split; [done|]. eexists. split; [done|]. exact Hs.
  - split; [done|]. split; [done|]. split; [done|]. split; [done|]. exists []. rewrite app_nil_r. split; [done|]. exact Hs.
Qed.

Lemma poll_handles fuel : forall s, ready s -> (length (di_raw s) < fuel)%nat ->
  match intercept_poll_recv fuel s with
  | None => handle_packets (dns_mode s) (fake_ip s) (di_raw s) = None
  | Some (s', r) => ready s' /\ dns_mode s' = dns_mode s /\ (length (di_raw s') <= pred (length (di_raw s)))%nat /\
      exists sent1, di_sent s' = di_sent s ++ sent1 /\ handle_packets (dns_mode s) (fake_ip s) (di_raw s) =
        '(p, sent, out) ← handle_packets (dns_mode s) (fake_ip s') (di_raw s');
        Some (p, sent1 ++ sent, match r with Ready x => x :: out | _ => out end)
  end.
Proof.
  induction fuel as [|fuel IH]; intros s Hr Hl; [lia|]. cbn [intercept_poll_recv]. pose proof (turn_handles s Hr) as Ht.
  destruct (intercept_turn s) as [[s1 r]|]; [|exact Ht]. cbn [mbind option_bind]. destruct Ht as (Hr1 & Em & Hl1 & Hpos & sent1 & Es & Eh).
  destruct r as [[]|r]; [|by eauto 10]. specialize (Hpos eq_refl). specialize (IH s1 Hr1 ltac:(lia)). rewrite Em in IH.
  destruct (intercept_poll_recv fuel s1) as [[s2 r]|]; [|by rewrite Eh, IH].
  destruct IH as (Hr2 & Em2 & Hl2 & sent2 & Es2 & Eh2). split; [done|]. split; [congruence|]. split; [lia|]. exists (sent1 ++ sent2).
  rewrite Es2, Es, app_assoc. split; [done|]. rewrite Eh, Eh2. destruct (handle_packets _ (fake_ip s2) _) as [[[p sent] out]|]; cbn; [|done].
  by rewrite app_assoc.
Qed.

(** All of what the source does is done for each packet on its own. *)
Lemma drain_handles n s : ready s -> (length (di_raw s) < n)%nat ->
  match handle_packets (dns_mode s) (fake_ip s) (di_raw s) with
  | None => drain n s = None
  | Some (p, sent, out) => exists s', drain n s = Some (s', out) /\ fake_ip s' = p /\ di_sent s' = di_sent s ++ sent /\ di_raw s' = [] /\ di_buf s' = []
  end.
Proof.
  revert s. induction n as [|n IH]; intros s Hr Hl; [lia|]. cbn [drain]. pose proof (poll_handles (recv_fuel s) s Hr ltac:(unfold recv_fuel; lia)) as Hp.
  destruct (intercept_poll_recv (recv_fuel s) s) as [[s1 r]|]; [|by rewrite Hp]. cbn [mbind option_bind].
  destruct Hp as (Hr1 & Em & Hl1 & sent1 & Es & ->). destruct (decide (di_raw s = [])) as [E0|Hne].
  - assert (Hraw1 : di_raw s1 = []) by (rewrite E0 in Hl1; destruct (di_raw s1); [done|cbn in Hl1; lia]).
    assert (Hd : forall m s, di_raw s = [] -> drain m s = Some (s, [])).
    { clear. induction m as [|m IHm]; intros s E; [done|]. cbn [drain]. unfold recv_fuel. cbn [intercept_poll_recv]. unfold intercept_turn. rewrite E. cbn.
      replace (mkIntercept _ _ _ _ _ _) with s by (destruct s; cbn in E; by subst). by rewrite IHm. }
    rewrite Hraw1, Hd by done. cbn. exists s1. destruct Hr1 as [Hb _]. rewrite app_nil_r. by destruct r.
  - assert (Hlt : (length (di_raw s1) < n)%nat) by (destruct (di_raw s); [done|cbn in Hl, Hl1; lia]).
    specialize (IH s1 Hr1 Hlt). rewrite Em in IH. destruct (handle_packets _ (fake_ip s1) _) as [[[p sent] out]|]; cbn; [|by rewrite IH].
    destruct IH as (s' & -> & Ep & Es' & Er' & Eb'). exists s'. cbn. rewrite Es', Es, app_assoc. destruct r; by repeat split.
Qed.

(** ** What it is to do *)

(** A packet that carries a datagram from a port of an address to another. *)
Definition carries (packet : bytes) (src : SockV4) (dst : SockV4) (data : bytes) : Prop :=
  exists body, ip_checked packet = Some (src.1, dst.1, body) /\ udp_checked body = Some (src.2, dst.2, data).

(** The network's own addresses: the interface's, its broadcast address, and
    the multicast addresses, 224.0.0.0 to 239.255.255.255. *)
Definition network_own (ip : Z) : Prop :=
  ip = cidr_address \/ cidr_broadcast = Some ip \/ 224 * 2 ^ 24 <= ip < 240 * 2 ^ 24.

(** The name of a question, without the dots at its end. *)
Definition undotted (q d : bytes) : Prop := (exists n, q = d ++ repeat 46 n) /\ last d <> Some 46.

(** The address of a name: the one it has, or the next of the pool in turn,
    which any name that had it loses, no other losing its own. *)
Definition assigned (p : FakeIpPool) (d : bytes) (ip : Z) (p' : FakeIpPool) : Prop :=
  pool_ok p' /\ fp_min p' = fp_min p /\ fp_max p' = fp_max p /\
  fp_min p <= ip <= fp_max p /\ ip_to_domain p' !! ip = Some d /\
  ((ip_to_domain p !! ip = Some d /\ p' = p) \/
   ((forall i, ip_to_domain p !! i <> Some d) /\
    ip = fp_min p + (cursor p - fp_min p) mod 2 ^ 32 mod (fp_max p - fp_min p + 1) /\ cursor p' = (cursor p + 1) mod 2 ^ 32 /\
    forall i, i <> ip -> ip_to_domain p' !! i = ip_to_domain p !! i)).

(** A packet in the mode: the pool before and after, the packets sent for it,
    and the datagrams handed on. *)
Inductive treated (mode : DnsMode) (p : FakeIpPool) (packet : bytes) : FakeIpPool -> list bytes -> list (bytes * UdpEndpoint) -> Prop :=
| not_udp : (forall src dst data, ~ carries packet src dst data) -> treated mode p packet p [] []
| own src dst data : carries packet src dst data -> network_own dst.1 -> treated mode p packet p [] []
| answered src dst data q d ip p' msg : carries packet src dst data -> ~ network_own dst.1 ->
    mode = FakeIp -> dst.2 = 53 -> first_question data = Some (q, true) -> undotted q d -> assigned p d ip p' ->
    reply data ip = Some msg -> treated mode p packet p' [udp_emit dst src msg] []
| no_answer src dst data q d ip p' : carries packet src dst data -> ~ network_own dst.1 ->
    mode = FakeIp -> dst.2 = 53 -> first_question data = Some (q, true) -> undotted q d -> assigned p d ip p' ->
    reply data ip = None ->
    treated mode p packet p' [] [(data, mkEndpoint (mkSocketAddr (V4 src.1) src.2) (mkSocketAddr (V4 dst.1) dst.2))]
| handed_on src dst data : carries packet src dst data -> ~ network_own dst.1 ->
    (mode = RedirHost \/ dst.2 <> 53 \/ forall q, first_question data <> Some (q, true)) ->
    treated mode p packet p [] [(data, mkEndpoint (mkSocketAddr (V4 src.1) src.2) (mkSocketAddr (V4 dst.1) dst.2))].

(** All that the raw socket gives, in order; its errors are handed on. *)
Inductive treated_all (mode : DnsMode) : FakeIpPool -> list (poll (res bytes)) -> FakeIpPool -> list bytes -> list (res (bytes * UdpEndpoint)) -> Prop :=
| all_none p : treated_all mode p [] p [] []
| all_pending p l p' sent out : treated_all mode p l p' sent out -> treated_all mode p (Pending :: l) p' sent out
| all_error p e l p' sent out : treated_all mode p l p' sent out -> treated_all mode p (Ready (Err e) :: l) p' sent (Err e :: out)
| all_packet p packet p1 sent1 out1 l p' sent out : treated mode p packet p1 sent1 out1 -> treated_all mode p1 l p' sent out ->
    treated_all mode p (Ready (Ok packet) :: l) p' (sent1 ++ sent) (map Ok out1 ++ out).

Lemma parse_udp_carries packet :
  match parse_udp packet with
  | Some (from, to, data) => exists src dst, from = mkSocketAddr (V4 src.1) src.2 /\ to = mkSocketAddr (V4 dst.1) dst.2 /\ carries packet src dst data
  | None => forall src dst data, ~ carries packet src dst data
  end.
Proof.
  unfold parse_udp, carries. destruct (ip_checked packet) as [[[s d] body]|]; cbn; [|intros ? ? ? (? & ? & _); congruence].
  destruct (udp_checked body) as [[[sp dp] data]|] eqn:E; cbn.
  - exists (s, sp), (d, dp). split; [done|]. split; [done|]. by exists body.
  - intros src dst data (body' & Eb & Eu). injection Eb as _ _ <-. congruence.
Qed.

Lemma ignored_own ip port : 0 <= ip < 2 ^ 32 -> ignored (mkSocketAddr (V4 ip) port) = true <-> network_own ip.
Proof.
  intros Hip. unfold ignored, network_own. cbn [sa_ip is_multicast]. rewrite !orb_true_iff, andb_true_iff, !bool_decide_eq_true, !Z.leb_le.
  rewrite Z.shiftr_div_pow2 by lia. assert (Hm : 224 <= ip / 2 ^ 24 /\ ip / 2 ^ 24 <= 239 <-> 224 * 2 ^ 24 <= ip < 240 * 2 ^ 24).
  { pose proof (Z.div_mod ip (2 ^ 24) ltac:(lia)). pose proof (Z.mod_pos_bound ip (2 ^ 24) ltac:(lia)). lia. }
  rewrite Hm. destruct cidr_broadcast as [b|]; cbn; naive_solver congruence.
Qed.

Lemma trim_start_dots_spec s : exists n, s = repeat 46 n ++ trim_start_dots s /\ head (trim_start_dots s) <> Some 46.
Proof.
  induction s as [|c s IH]; [by exists 0%nat|]. destruct (decide (c = 46)) as [->|Hc].
  - destruct IH as (n & E & Hh). exists (S n). cbn. by rewrite <- E.
  - exists 0%nat. replace (trim_start_dots (c :: s)) with (c :: s); [split; [done|]; cbn; congruence|].
    cbn. destruct c as [|c|c]; try done. repeat (destruct c as [c|c|]; try done).
Qed.

Lemma trim_undotted q : undotted q (trim_end_dots q).
Proof.
  unfold undotted, trim_end_dots. destruct (trim_start_dots_spec (reverse q)) as (n & E & Hh). split.
  - exists n. rewrite <- (reverse_involutive q) at 1. rewrite E at 1. rewrite reverse_app. f_equal.
    clear. induction n as [|n IH]; [done|]. cbn [repeat]. rewrite reverse_cons, IH. clear. induction n as [|n IH]; [done|]. cbn. by rewrite IH.
  - rewrite last_reverse. exact Hh.
Qed.

Lemma allocate_assigned p d : pool_ok p -> exists p' ip, allocate p d = Some (p', ip) /\ assigned p d ip p'.
Proof.
  intros Hp. destruct (allocate_spec p d Hp) as (p' & ip & E & Hp' & E1 & E2 & Hd & _ & Hc). exists p', ip. split; [done|].
  pose proof (po_range p' Hp' d ip Hd) as Hr. rewrite E1, E2 in Hr. apply (po_inverse p' Hp') in Hd. unfold assigned. split_and!; try done; try lia.
  destruct (domain_to_ip p !! d) as [ip0|] eqn:Ed.
  - destruct Hc as [-> ->]. by left.
  - destruct Hc as (Ec & Ei & Hs). right. unfold u32 in *. split; [|done]. intros i Hi. apply (po_inverse p Hp) in Hi. congruence.
Qed.

Lemma handle_packet_treated mode p packet : pool_ok p -> exists p' a d, handle_packet mode p packet = Some (p', a, d) /\ pool_ok p' /\ treated mode p packet p' (option_list a) (option_list d).
Proof.
  intros Hp. unfold handle_packet. pose proof (parse_udp_carries packet) as Hc.
  destruct (parse_udp packet) as [[[from to] data]|]; [|eexists _, _, _; split; [done|]; split; [done|]; by apply not_udp].
  destruct Hc as (src & dst & -> & -> & Hc). assert (Hdst : 0 <= dst.1 < 2 ^ 32) by (destruct Hc as (body & Hb & _); by eapply ip_range).
  pose proof (ignored_own dst.1 dst.2 Hdst) as Hi. destruct (ignored _).
  { eexists _, _, _. split; [done|]. split; [done|]. eapply own; [done|]. by apply Hi. }
  assert (Hno : ~ network_own dst.1) by (intros Ho; by apply Hi in Ho). clear Hi. unfold handle_datagram. cbn [ep_to ep_from sa_port].
  assert (Hon : mode = RedirHost \/ dst.2 <> 53 \/ (forall q, first_question data <> Some (q, true)) ->
    exists p' a d, Some (p, @None bytes, Some (data, mkEndpoint (mkSocketAddr (V4 src.1) src.2) (mkSocketAddr (V4 dst.1) dst.2))) = Some (p', a, d) /\
      pool_ok p' /\ treated mode p packet p' (option_list a) (option_list d)).
  { intros H1. eexists _, _, _. split; [done|]. split; [done|]. by apply handed_on. }
  destruct mode; [|apply Hon; by left]. destruct (Z.eqb_spec dst.2 53) as [E53|]; [|apply Hon; by auto].
  unfold generate_fake_response. destruct (first_question data) as [[q [|]]|] eqn:Eq; [|apply Hon; right; right; congruence..].
  destruct (allocate_assigned p (trim_end_dots q) Hp) as (p' & ip & -> & Ha). cbn [mbind option_bind].
  pose proof (trim_undotted q) as Hu. destruct (reply data ip) as [msg|] eqn:Em.
  - eexists _, _, _. split; [reflexivity|]. split; [apply Ha|]. cbn [pack_udp sa_ip sa_port option_list].
    replace (dst.1, dst.2) with dst by (by destruct dst). replace (src.1, src.2) with src by (by destruct src). by eapply answered.
  - eexists _, _, _. split; [reflexivity|]. split; [apply Ha|]. by eapply no_answer.
Qed.

Lemma handle_packets_treated mode l : forall p, pool_ok p -> exists p' sent out, handle_packets mode p l = Some (p', sent, out) /\ treated_all mode p l p' sent out.
Proof.
  induction l as [|[|[packet|e]] l IH]; intros p Hp; cbn [handle_packets].
  - eexists _, _, _. split; [done|]. constructor.
  - destruct (IH p Hp) as (p' & sent & out & E & Ht). exists p', sent, out. split; [done|]. by constructor.
  - destruct (handle_packet_treated mode p packet Hp) as (p1 & a & d & -> & Hp1 & Ht). cbn [mbind option_bind].
    destruct (IH p1 Hp1) as (p' & sent & out & -> & Hta). eexists _, _, _. split; [reflexivity|]. by eapply all_packet.
  - destruct (IH p Hp) as (p' & sent & out & -> & Ht). eexists _, _, _. split; [reflexivity|]. by constructor.
Qed.

(** C37: The source of the TUN server, whose raw socket takes what it sends and
    whose pool has at least one address: it never panics, and takes the
    packets in the order of arrival.  In fake-ip mode every query for an
    address ([A]) that comes for port 53 is answered, from where it was sent
    to, with the fake IP of its domain, and is not handed on; the fake IP is
    the one the domain has, or the pool's next in turn, which the domain that
    had it, if any, loses.  Every other datagram, one whose answer cannot be
    made too, and in the other mode every datagram, is handed on unchanged;
    but one to the interface's own address, to the network's broadcast
    address or to a multicast address, a query too, is ignored, and what is
    not UDP is skipped. *)
Theorem tun_source_exact n s : ready s -> (length (di_raw s) < n)%nat -> pool_ok (fake_ip s) ->
  exists s' sent out, drain n s = Some (s', out) /\ treated_all (dns_mode s) (fake_ip s) (di_raw s) (fake_ip s') sent out /\
    di_sent s' = di_sent s ++ sent /\ di_raw s' = [] /\ di_buf s' = [].
Proof.
  intros Hr Hl Hp. destruct (handle_packets_treated (dns_mode s) (di_raw s) (fake_ip s) Hp) as (p & sent & out & E & Ht).
  pose proof (drain_handles n s Hr Hl) as Hd. rewrite E in Hd. destruct Hd as (s' & Ed & <- & Es & Er & Eb). by exists s', sent, out.
Qed.

(** A datagram to a fake IP that is not a query is handed on as it is, with
    the fake IP, which nothing translates: the net is asked to send it there. *)
Theorem tun_udp_not_translated p from ip port data packet : parse_udp packet = Some (from, mkSocketAddr (V4 ip) port, data) ->
  ignored (mkSocketAddr (V4 ip) port) = false -> port <> 53 ->
  handle_packet FakeIp p packet = Some (p, None, Some (data, mkEndpoint from (mkSocketAddr (V4 ip) port))).
Proof.
  intros E Hi Hp. unfold handle_packet, handle_datagram. rewrite E, Hi. cbn [ep_to sa_port]. by rewrite (proj2 (Z.eqb_neq port 53)).
Qed.

(** A query sent to the address of the interface is neither answered nor
    handed on. *)
Theorem tun_own_dns_ignored mode p from port data packet : parse_udp packet = Some (from, mkSocketAddr (V4 cidr_address) port, data) ->
  handle_packet mode p packet = Some (p, None, None).
Proof.
  intros E. unfold handle_packet. rewrite E. unfold ignored. cbn [sa_ip]. rewrite (bool_decide_true (V4 cidr_address = _)) by done. by rewrite orb_true_r.
Qed.

End Source.

(** ** Connections *)

Section Tcp.
Context (sa_to_value : SocketAddr -> Value) (sa_from_value : Value -> res SocketAddr).
Context {W S L U C : Type} `{LruCache SockV4 SockV4 C}.

(** The stream that is relayed; the context is that of the client. *)
Definition connect_for (net : @INet W S L U) (target : Address) (addr : SocketAddr) : Op W (TcpStream * Context) := fun w =>
  match tcp_connect net target (from_socketaddr sa_to_value sa_from_value addr, w) with
  | None => None
  | Some (Err e, (_, w)) => Some (Err e, w)
  | Some (Ok s, (ctx, w)) => Some (Ok (s, ctx), w)
  end.

(** [MapTable::get]. *)
(* src/protocol/raw/src/gateway.rs:252-254 MapTable::get *)
Definition map_get (c : C) (addr : SocketAddr) : C * option SockV4 :=
  match sa_ip addr with V4 ip => @lru_get SockV4 SockV4 C _ c (ip, sa_port addr) | V6 _ => (c, None) end.

(** A connection the listener accepts; [None]: where it was made to is not known. *)
(* src/protocol/raw/src/tun_server.rs:224-273 TunHandler::serve_tcp *)
Definition tun_serve_tcp (net : @INet W S L U) (c : C) (p : FakeIpPool) (addr : SocketAddr) : C * option (Op W (TcpStream * Context)) :=
  let '(c, orig_addr) := map_get c addr in
  (c, orig ← orig_addr; Some (connect_for net (tun_target p (mkSocketAddr (V4 orig.1) orig.2)) addr)).

(* src/protocol/raw/src/forward.rs:51-70 Forward::serve_tcp *)
Definition forward_serve_tcp (net : @INet W S L U) (c : C) (addr : SocketAddr) : C * option (Op W (TcpStream * Context)) :=
  let '(c, orig_addr) := map_get c addr in
  (c, orig ← orig_addr; Some (connect_for net (ASocket (mkSocketAddr (V4 orig.1) orig.2)) addr)).

(** A program looks a new name up and connects: the query is answered, with
    an address of the pool, as if by the server it was sent to; and as long
    as fewer other names are looked up than the pool has addresses, a
    connection to that address is made to the name, for the program. *)
Theorem tun_name_connects `{SmolUdp} cidr_address cidr_broadcast first_question reply p packet from to query qname response l net c addr cip cport port :
  pool_ok p -> fp_min p <= cursor p -> cursor p + Z.of_nat (length l) + 1 < 2 ^ 32 -> Z.of_nat (length l) < fp_max p - fp_min p + 1 ->
  parse_udp packet = Some (from, to, query) -> ignored cidr_address cidr_broadcast to = false -> sa_port to = 53 ->
  first_question query = Some (qname, true) -> domain_to_ip p !! trim_end_dots qname = None -> (forall ip, reply query ip = Some (response ip)) ->
  exists p1 ip p2, fp_min p <= ip <= fp_max p /\
    handle_packet cidr_address cidr_broadcast first_question reply FakeIp p packet = Some (p1, pack_udp to from (response ip), None) /\
    allocate_all p1 l = Some p2 /\
    (addr = mkSocketAddr (V4 cip) cport -> @held SockV4 SockV4 C _ c (cip, cport) = Some (ip, port) ->
     (tun_serve_tcp net c p2 addr).2 = Some (connect_for net (host_to_address (trim_end_dots qname) port) addr)).
Proof.
  intros Hp Hc Hw Hlen Eq Hi Hport Eqn Hnew Hreply.
  destruct (allocated_kept p (trim_end_dots qname) l port Hp Hc Hw Hlen Hnew) as (p1 & ip & p2 & Ea & Hr & El & Et & _).
  exists p1, ip, p2. split; [done|]. split; [|split; [done|]].
  - unfold handle_packet, handle_datagram. rewrite Eq, Hi. cbn [ep_to ep_from]. unfold generate_fake_response. by rewrite Hport, Eqn, Ea, Hreply.
  - intros -> Hh. unfold tun_serve_tcp, map_get. cbn [sa_ip sa_port]. pose proof (@lru_get_held SockV4 SockV4 C _ c (cip, cport)) as Hg.
    destruct (@lru_get SockV4 SockV4 C _ c (cip, cport)) as [c' o]. cbn [snd] in Hg. rewrite Hg. rewrite Hh. cbn. by rewrite Et.
Qed.

End Tcp.

(** ** The server *)

(* src/protocol/raw/src/tun_server.rs:45-70 TunServerConfig *)
Record TunServerConfig : Type := mkTunConfig {
  device : bytes;
  tun_ip_addr : bytes;
  fake_ip_range : bytes;
  tun_dns_mode : DnsMode;
  tun_fwmark : Z }.

(** [gateway] is the address of the interface. *)
(* src/protocol/raw/src/tun_server.rs:161-166 TunServer::start (routes) *)
Definition tun_route_config (config : TunServerConfig) (ip_addr : Z) : RouteSetupConfig :=
  mkRouteConfig (device config) (show_ipv4 ip_addr) (tun_fwmark config) (show_ipv4 ip_addr).

Inductive Started : Type := StartErr (e : error) | StartPanic | StartRuns (ip_addr : Z) (pool : FakeIpPool).

Section Start.
Context {Sys : Type} (output : bytes -> list bytes -> @World Sys -> @World Sys * option (bool * bytes)).
Context (disk : @Disk Sys) (encode : list SideEffectEntry -> bytes).
(** The address of smoltcp's [IpCidr::from_str]. *)
Context (cidr_from_str : bytes -> option IpAddr).

(** [dev], [tcp] and [raw] are how making the device, the listener and the raw
    socket ends. *)
(* src/protocol/raw/src/tun_server.rs:95-212 TunServer::start *)
Definition tun_start (os : Os) (config : TunServerConfig) (dev tcp raw : res ()) (s : SideEffectManager * @World Sys)
    : (SideEffectManager * @World Sys) * Started :=
  match cidr_from_str (tun_ip_addr config) with
  | None => (s, StartErr (Prelude.EOther "Invalid ip_addr"))
  | Some (V6 _) => (s, StartErr (Prelude.EOther "TUN only supports IPv4"))
  | Some (V4 ip) =>
    match dev with
    | Err e => (s, StartErr e)
    | Ok _ =>
      match setup_routes output disk encode os (tun_route_config config ip) s with
      | (s, Err e) => (s, StartErr e)
      | (s, Ok _) =>
        match pool_new (fake_ip_range config) with
        | None => (s, StartPanic)
        | Some pool =>
          match tcp, raw with
          | Err e, _ => (s, StartErr e)
          | Ok _, Err e => (s, StartErr e)
          | Ok _, Ok _ => (s, StartRuns ip pool)
          end
        end
      end
    end
  end.

(** A range that does not parse panics, and not before the routes are set,
    whether fake IPs are used or not. *)
Lemma tun_bad_range_panics os config ip tcp raw s s' : cidr_from_str (tun_ip_addr config) = Some (V4 ip) ->
  setup_routes output disk encode os (tun_route_config config ip) s = (s', Ok ()) -> pool_new (fake_ip_range config) = None ->
  tun_start os config (Ok ()) tcp raw s = (s', StartPanic).
Proof. intros E Es Ep. unfold tun_start. by rewrite E, Es, Ep. Qed.

End Start.

(** The name server that is set is the interface itself, which ignores what it
    is sent. *)
Lemma tun_dns_unreachable `{SmolUdp} config ip broadcast first_question reply mode p from port data packet :
  ip_ok (V4 ip) -> parse_udp packet = Some (from, mkSocketAddr (V4 ip) port, data) ->
  parse_ip (dns_ip (tun_route_config config ip)) = Some (V4 ip) /\
  handle_packet ip broadcast first_question reply mode p packet = Some (p, None, None).
Proof. intros Hip E. split; [by apply (parse_show_ip (V4 ip))|]. by eapply tun_own_dns_ignored. Qed.

(** ** The raw server *)

Section RawServer.
Context {P : Type}.

(** [params] of the net is taken by the server that is built. *)
(* src/protocol/raw/src/net.rs:88-90 RawNet::get_params *)
Definition get_params (params : option P) : option P * option P := (None, params).

(** [listen]: the raw net inside of the one that is named, if it is one. *)
(* src/protocol/raw/src/server.rs:40-51 RawServer::new *)
Definition raw_server_new (listen : option (option P)) : option (option P) * res P :=
  match listen with
  | None => (None, Err (Prelude.EOther "net must be `raw` type."))
  | Some params =>
    let '(params, o) := get_params params in
    (Some params, match o with Some p => Ok p | None => Err (Prelude.EOther "The `raw` net must has forward enabled.") end)
  end.

(** A second server on the net is refused, for a reason that is not so. *)
Lemma raw_second_server_refused p : (raw_server_new (raw_server_new (Some (Some p))).1).2 = Err (Prelude.EOther "The `raw` net must has forward enabled.").
Proof. done. Qed.
End RawServer.

(** ** A sample *)

(** Packets as the ports and addresses followed by the payload, of octets. *)
Definition toy_view (b : bytes) : option (Z * Z * bytes) := match b with s :: d :: l => Some (s, d, l) | _ => None end.
Definition toy_ip (b : bytes) : option (Z * Z * bytes) :=
  match b with
  | s :: d :: l => if (0 <=? s) && (s <? 2 ^ 32) && (0 <=? d) && (d <? 2 ^ 32) then Some (s, d, l) else None
  | _ => None
  end.
#[local] Instance toy_udp : SmolUdp.
Proof.
  refine {| ip_checked := toy_ip; udp_checked := toy_view; udp_emit src dst l := src.1 :: dst.1 :: src.2 :: dst.2 :: l |}.
  - intros [|s [|d b]] src dst payload; cbn [toy_ip]; try done.
    destruct ((0 <=? s) && (s <? 2 ^ 32) && (0 <=? d) && (d <? 2 ^ 32)) eqn:E; [|done]. intros [= <- <- <-]. lia.
  - intros src dst l _ Hs Hd _ _. split; [discriminate|]. cbn [toy_ip].
    assert ((0 <=? src.1) && (src.1 <? 2 ^ 32) && (0 <=? dst.1) && (dst.1 <? 2 ^ 32) = true) as -> by lia.
    eexists. split; reflexivity.
Defined.

Definition tun_pool : FakeIpPool := mkPool 100 105 100 ∅ ∅.
Definition tun_question (q : bytes) : option (bytes * bool) := match q with 1 :: n => Some (n, true) | 28 :: n => Some (n, false) | _ => None end.
Definition tun_reply (q : bytes) (ip : Z) : option bytes := Some (ip :: q).

(** A query for an IPv4 address, one for an IPv6 address, a datagram to the
    fake IP, one to the interface, and rubbish. *)
Definition tun_packets : list (poll (res bytes)) :=
  [Ready (Ok (udp_emit (7, 4000) (8, 53) (1 :: lit "a.com."))); Pending; Ready (Ok (udp_emit (7, 4001) (8, 53) (28 :: lit "a.com.")));
   Ready (Ok [3]); Ready (Ok (udp_emit (7, 4002) (100, 443) [9])); Ready (Ok (udp_emit (7, 4003) (10, 53) (1 :: lit "b.com.")))].
Definition tun_source : DnsInterceptSource := mkIntercept tun_packets (replicate 6 (Ready (Ok tt))) [] [] tun_pool FakeIp.

Example tun_sample : exists s,
  drain 10 (Some 255) tun_question tun_reply 7 tun_source = Some (s,
    [Ok (28 :: lit "a.com.", mkEndpoint (mkSocketAddr (V4 7) 4001) (mkSocketAddr (V4 8) 53));
     Ok ([9], mkEndpoint (mkSocketAddr (V4 7) 4002) (mkSocketAddr (V4 100) 443))]) /\
  di_sent s = [udp_emit (8, 53) (7, 4000) (100 :: 1 :: lit "a.com.")].
Proof. eexists. split; [vm_compute; reflexivity|reflexivity]. Qed.

Lemma tun_pool_ok : pool_ok tun_pool.
Proof. constructor; cbn; try lia; intros d i; rewrite !lookup_empty; [split; discriminate | discriminate]. Qed.

Lemma tun_source_exact_witness : exists s' sent out, drain 10 (Some 255) tun_question tun_reply 7 tun_source = Some (s', out) /\
  treated_all 10 (Some 255) tun_question tun_reply FakeIp tun_pool tun_packets (fake_ip s') sent out /\
  length out = 2%nat /\ length (di_sent s') = 1%nat.
Proof.
  assert (Hr : ready tun_source) by (split; [reflexivity|]; split; [repeat constructor|vm_compute; lia]).
  destruct (tun_source_exact 10 (Some 255) tun_question tun_reply 7 tun_source Hr ltac:(vm_compute; lia) tun_pool_ok)
    as (s' & sent & out & E & Ht & _). exists s', sent, out. split; [exact E|]. split; [exact Ht|].
  destruct tun_sample as (s & Es & Hs). rewrite E in Es. injection Es as -> ->. rewrite Hs. split; reflexivity.
Defined.

Lemma tun_udp_not_translated_witness :
  handle_packet 10 (Some 255) tun_question tun_reply FakeIp tun_pool (udp_emit (7, 4002) (100, 443) [9]) =
    Some (tun_pool, None, Some ([9], mkEndpoint (mkSocketAddr (V4 7) 4002) (mkSocketAddr (V4 100) 443))).
Proof. apply (tun_udp_not_translated 10 (Some 255) tun_question tun_reply tun_pool (mkSocketAddr (V4 7) 4002) 100 443); [reflexivity..|discriminate]. Defined.

Lemma tun_own_dns_ignored_witness :
  handle_packet 10 (Some 255) tun_question tun_reply FakeIp tun_pool (udp_emit (7, 4003) (10, 53) (1 :: lit "b.com.")) = Some (tun_pool, None, None).
Proof. by apply (tun_own_dns_ignored 10 (Some 255) tun_question tun_reply FakeIp tun_pool (mkSocketAddr (V4 7) 4003) 53 (1 :: lit "b.com.")). Defined.

#[local] Instance tun_map : LruCache SockV4 SockV4 (list (SockV4 * SockV4)) := bounded_cache.

Definition tun_value (a : SocketAddr) : Value := VNum (sa_port a).
Definition tun_addr (v : Value) : res SocketAddr := match v with VNum p => Ok (mkSocketAddr (V4 0) p) | _ => Err EInvalidData end.

(** A net that gives the address it is asked for as the stream. *)
Definition tun_net : @INet unit Address unit unit := mkINet (Some (fun a '(c, w) => Some (Ok (PluginStream a), (c, w)))) None None None.

(** The connection after the query is made to the name. *)
Lemma tun_name_connects_witness : exists p1 ip p2,
  handle_packet 10 (Some 255) tun_question tun_reply FakeIp tun_pool (udp_emit (7, 4000) (8, 53) (1 :: lit "a.com.")) =
    Some (p1, Some (udp_emit (8, 53) (7, 4000) (ip :: 1 :: lit "a.com.")), None) /\
  allocate_all p1 [lit "b.com"; lit "c.com"] = Some p2 /\ 100 <= ip <= 105 /\
  (ip = 100 -> (tun_serve_tcp tun_value tun_addr tun_net [((7, 5000), (100, 443))] p2 (mkSocketAddr (V4 7) 5000)).2 =
      Some (connect_for tun_value tun_addr tun_net (ADomain (lit "a.com") 443) (mkSocketAddr (V4 7) 5000))).
Proof.
  destruct (tun_name_connects tun_value tun_addr 10 (Some 255) tun_question tun_reply tun_pool
    (udp_emit (7, 4000) (8, 53) (1 :: lit "a.com.")) (mkSocketAddr (V4 7) 4000) (mkSocketAddr (V4 8) 53) (1 :: lit "a.com.") (lit "a.com.")
    (fun ip => ip :: 1 :: lit "a.com.") [lit "b.com"; lit "c.com"] tun_net [((7, 5000), (100, 443))] (mkSocketAddr (V4 7) 5000) 7 5000 443)
    as (p1 & ip & p2 & Hr & Eh & El & Ht); try reflexivity.
  - exact tun_pool_ok.
  - exists p1, ip, p2. split; [exact Eh|]. split; [exact El|]. split; [exact Hr|]. intros ->. exact (Ht eq_refl eq_refl).
Defined.

End Tun.
