(* ===== verification/Http.v ===== *)
(** * The HTTP proxy: [rd-std/src/http/client.rs] and [server.rs]

    The client's [CONNECT] handshake, and what the server does with a
    request.  Base64, the HTTP codec and the URI parser are parameters; a
    header map is the list of its fields, names in lower case. *)

From S2P Require Import Prelude Text Io Address.

Module Http.

(** The standard Base64 alphabet with padding. *)
Class Base64 : Type := {
  b64_encode : bytes -> bytes;
  b64_decode : bytes -> option bytes }.
Class Base64Laws `{Base64} : Prop := {
  b64_round : forall s, b64_decode (b64_encode s) = Some s }.

Definition crlf : bytes := [13; 10].

(** ** The client *)

Section Client.
Context `{Base64}.

(* src/rd-std/src/http/client.rs:5-10 HttpClient *)
Record HttpClient : Type := mkHttpClient {
  server : Address; username : option bytes; password : option bytes }.

(* src/rd-std/src/http/client.rs:81-88 HttpClient::new *)
Definition http_client_new (server : Address) : HttpClient := mkHttpClient server None None.
(* src/rd-std/src/http/client.rs:90-97 HttpClient::with_auth *)
Definition http_client_with_auth (server : Address) (username password : bytes) : HttpClient :=
  mkHttpClient server (Some username) (Some password).

Definition authorization (username password : bytes) : bytes :=
  lit "Basic " ++ b64_encode (username ++ [58] ++ password).

(** What is written to the proxy. *)
(* src/rd-std/src/http/client.rs:22-33 HttpClient::tcp_connect (request) *)
Definition connect_request (c : HttpClient) (addr : Address) : bytes :=
  lit "CONNECT " ++ show_address addr ++ lit " HTTP/1.1" ++ crlf ++ lit "Host: " ++ show_address addr ++ crlf ++
  match username c, password c with
  | Some u, Some p => lit "Proxy-Authorization: " ++ authorization u p ++ crlf
  | _, _ => []
  end ++ crlf.

(** [buf.windows(4).position(|w| w == b"\r\n\r\n")]. *)
Fixpoint find_end (buf : bytes) : option nat :=
  if starts_with (crlf ++ crlf) buf then Some 0%nat
  else match buf with _ :: t => Datatypes.S <$> find_end t | [] => None end.

Definition MAX_HEADER : nat := 64 * 1024.
#[local] Opaque MAX_HEADER.

(** The loop: reads of at most 1024 bytes until the header is complete.  The
    answer is all that has been read; [Pending] when the script ends. *)
Fixpoint read_header (fuel : nat) (buf : bytes) (r : list rans) : list rans * poll (res bytes) :=
  match fuel with
  | O => (r, Pending)
  | Datatypes.S fuel =>
    match inner_read 1024 r with
    | (r, Pending) => read_header fuel buf r
    | (r, Ready (Err e)) => (r, Ready (Err e))
    | (r, Ready (Ok [])) => (r, Ready (Err (EOther "proxy closed connection")))
    | (r, Ready (Ok d)) =>
      let buf := buf ++ d in
      match find_end buf with
      | Some _ => (r, Ready (Ok buf))
      | None =>
        if (MAX_HEADER <? length buf)%nat then (r, Ready (Err (EOther "proxy response header too large")))
        else read_header fuel buf r
      end
    end
  end.

(* src/rd-std/src/http/client.rs:59-62 HttpClient::tcp_connect (status) *)
Definition status_code (header : bytes) : Z :=
  match split_whitespace (default [] (head (lines header))) with
  | _ :: code :: _ => default 0 (parse_uint 16 code)
  | _ => 0
  end.

(** The answer of the proxy: what is read beyond the header is dropped. *)
(* src/rd-std/src/http/client.rs:35-71 HttpClient::tcp_connect (response) *)
Definition connect_response (fuel : nat) (r : list rans) : list rans * poll (res unit) :=
  match read_header fuel [] r with
  | (r, Pending) => (r, Pending)
  | (r, Ready (Err e)) => (r, Ready (Err e))
  | (r, Ready (Ok buf)) =>
    let header := take (default 0%nat (find_end buf) + 4) buf in
    (r, Ready (if utf8_valid header then
                 if status_code header =? 200 then Ok () else Err (EOther "CONNECT failed")
               else Err (EOther "invalid utf-8")))
  end.

(** [connect]: the connection to the proxy, with what it will answer and
    what becomes of what is written. *)
(* src/rd-std/src/http/client.rs:14-71 HttpClient::tcp_connect *)
Definition http_tcp_connect (connect : Address -> res (list rans)) (write_all : bytes -> res unit) (fuel : nat)
    (c : HttpClient) (addr : Address) : poll (res (list rans)) :=
  match connect (server c) with
  | Err e => Ready (Err e)
  | Ok r =>
    match write_all (connect_request c addr) with
    | Err e => Ready (Err e)
    | Ok _ =>
      match connect_response fuel r with
      | (_, Pending) => Pending
      | (_, Ready (Err e)) => Ready (Err e)
      | (r, Ready (Ok _)) => Ready (Ok r)
      end
    end
  end.

End Client.

(** ** The server *)

Section Server.
Context `{Base64}.

(** [splitn(2, ':')] gives two parts. *)
(* src/rd-std/src/http/server.rs:117-139 verify_auth *)
Definition verify_auth (auth_header : option bytes) (username password : option bytes) : bool :=
  match username, password with
  | Some username, Some password =>
    match auth_header with
    | Some auth =>
      match strip_prefix (lit "Basic ") auth with
      | Some credentials =>
        match b64_decode credentials with
        | Some decoded =>
          if utf8_valid decoded then
            match split_once 58 decoded with
            | Some (u, p) => bool_decide (u = username) && bool_decide (p = password)
            | None => false
            end
          else false
        | None => false
        end
      | None => false
      end
    | None => false
    end
  | _, _ => true
  end.

(** A parsed request: its URI in parts, and its fields. *)
Record Uri : Type := mkUri { scheme : option bytes; authority : option bytes; path_and_query : option bytes }.
Record Request : Type := mkRequest { method : bytes; uri : Uri; headers : list (bytes * bytes) }.

(** [HeaderMap::get] (the first field of a name) and [remove] (all of them). *)
Fixpoint header_get (name : bytes) (h : list (bytes * bytes)) : option bytes :=
  match h with
  | [] => None
  | (n, v) :: h => if bool_decide (n = name) then Some v else header_get name h
  end.
Definition header_remove (h : list (bytes * bytes)) (name : bytes) : list (bytes * bytes) :=
  filter (fun f => f.1 <> name) h.

(* src/rd-std/src/http/server.rs:142-151 HOP_BY_HOP_HEADERS *)
Definition HOP_BY_HOP_HEADERS : list bytes :=
  [lit "connection"; lit "keep-alive"; lit "proxy-authenticate"; lit "proxy-authorization"; lit "te";
   lit "trailers"; lit "transfer-encoding"; lit "upgrade"].

(* src/rd-std/src/http/server.rs:297-299 host_addr *)
Definition host_addr (u : Uri) : option bytes := authority u.

(** [h.trim()], of spaces and tabs as far as a header value can have them. *)
Definition trim_start (s : bytes) : bytes :=
  (fix go s := match s with b :: t => if (b =? 32) || (b =? 9) then go t else s | [] => [] end) s.
Definition trim (s : bytes) : bytes := reverse (trim_start (reverse (trim_start s))).

(** What is done with a request.  [Tunnel]: 200, and once upgraded a
    connection to the address is spliced to it; [Forward]: the request is
    sent on, over a new connection to the address. *)
Inductive Reply : Type :=
| AuthRequired
| Tunnel (dst : Address)
| Forward (dst : Address) (r : Request)
| BadRequest (why : string)
| ServiceError (e : error).

(** The names in the value of a [Connection] field, which the map looks up in
    lower case. *)
(* src/rd-std/src/http/server.rs:251-254 proxy (Connection names) *)
Definition listed_names (v : bytes) : list bytes :=
  match header_str v with Some s => map (fun n => map lower (trim n)) (split_on 44 s) | None => [] end.

(** The fields removed before a request is sent on. *)
(* src/rd-std/src/http/server.rs:241-264 proxy (headers) *)
Definition strip_headers (h : list (bytes * bytes)) : list (bytes * bytes) :=
  let h := fold_left header_remove HOP_BY_HOP_HEADERS h in
  let connection_headers :=
    match header_get (lit "connection") h with
    | Some v => listed_names v
    | None => []
    end in
  fold_left header_remove connection_headers h.

(** [parse_uri] is that of the HTTP library. *)
(* src/rd-std/src/http/server.rs:153-293 proxy *)
Definition proxy (parse_uri : bytes -> res Uri) (auth : option bytes * option bytes) (req : Request) : Reply :=
  let auth_header := (fun h => default [] (header_str h)) <$> header_get (lit "proxy-authorization") (headers req) in
  if negb (verify_auth auth_header auth.1 auth.2) then AuthRequired
  else
    match host_addr (uri req) with
    | None => BadRequest "Bad Request: Invalid request URI format"
    | Some dst =>
      let dst := if contains [58] dst then dst else dst ++ lit ":80" in
      match into_address dst with
      | Err e => ServiceError e
      | Ok dst =>
        if bool_decide (method req = lit "CONNECT") then Tunnel dst
        else
          let absolute :=
            match scheme (uri req), authority (uri req) with
            | None, None =>
              match header_get (lit "host") (headers req) with
              | Some host =>
                match header_str host with
                | Some host =>
                  match parse_uri (lit "http://" ++ host ++ default [] (path_and_query (uri req))) with
                  | Ok u => inl u
                  | Err e => inr (ServiceError e)
                  end
                | None => inr (ServiceError EInvalidData)
                end
              | None => inr (BadRequest "Bad Request: Missing Host header")
              end
            | _, _ => inl (uri req)
            end in
          match absolute with
          | inr r => r
          | inl u => Forward dst (mkRequest (method req) u (strip_headers (headers req)))
          end
      end
    end.

(** What is sent back of the response of the origin. *)
(* src/rd-std/src/http/server.rs:277-281 proxy (response) *)
Definition strip_response (h : list (bytes * bytes)) : list (bytes * bytes) := fold_left header_remove HOP_BY_HOP_HEADERS h.

End Server.
(** ** Facts *)

Lemma starts_with_app (p s t : bytes) : starts_with p s = true -> starts_with p (s ++ t) = true.
Proof.
  unfold starts_with. destruct (strip_prefix p s) as [u|] eqn:E; [|done]. intros _.
  apply strip_prefix_spec in E as ->. rewrite <- app_assoc.
  by rewrite (proj2 (strip_prefix_spec p (p ++ u ++ t) (u ++ t)) eq_refl).
Qed.

Lemma find_end_app s t k : find_end s = Some k -> find_end (s ++ t) = Some k /\ (k + 4 <= length s)%nat.
Proof.
  revert k. induction s as [|b s IH]; intros k; [done|]. cbn [find_end app].
  destruct (starts_with (crlf ++ crlf) (b :: s)) eqn:E.
  - intros [= <-]. pose proof (starts_with_app _ _ t E) as Et. cbn [app] in Et. rewrite Et. split; [done|].
    unfold starts_with in E. destruct (strip_prefix _ (b :: s)) as [u|] eqn:Eu; [|done].
    apply strip_prefix_spec in Eu. rewrite Eu, length_app. cbn. lia.
  - destruct (find_end s) as [k'|]; [|done]. intros [= <-]. destruct (IH k' eq_refl) as [E1 E2].
    assert (En : starts_with (crlf ++ crlf) (b :: s ++ t) = false).
    { destruct (starts_with _ (b :: s ++ t)) eqn:En; [|done]. unfold starts_with in *.
      destruct (strip_prefix (crlf ++ crlf) (b :: s ++ t)) as [u|] eqn:Eu; [|done].
      apply strip_prefix_spec in Eu. do 4 (destruct s as [|? s]; [cbn in E2; lia|]). injection Eu as -> -> -> -> _.
      cbn in E. done. }
    rewrite En, E1. cbn. split; [done|lia].
Qed.

Section ClientFacts.
Context `{Base64}.

(** Data that arrives in pieces, with any waiting in between. *)
Definition piece (a : rans) : Prop := match a with RPending => True | RData d => d <> [] | RErr _ => False end.

Lemma inner_read_piece cap r r2 r' x : (0 < cap)%nat -> Forall piece r -> r_bytes r <> [] -> inner_read cap (r ++ r2) = (r', x) ->
  exists r1, r' = r1 ++ r2 /\ Forall piece r1 /\
  match x with
  | Pending => r_bytes r1 = r_bytes r /\ (length r1 < length r)%nat
  | Ready (Ok d) => d <> [] /\ r_bytes r = d ++ r_bytes r1 /\ (length r1 <= length r)%nat
  | Ready (Err _) => False
  end.
Proof.
  intros Hc F Hne. destruct r as [|[|e|d] r]; [done|..]; inversion F as [|? ? Ha F']; subst; cbn [app inner_read]; [| done|].
  - intros [= <- <-]. exists r. repeat split; try done. cbn. lia.
  - destruct (Nat.leb_spec (length d) cap) as [Hl|Hl]; intros [= <- <-].
    + exists r. repeat split; try done. cbn. lia.
    + exists (RData (drop cap d) :: r). repeat split; try done.
      * constructor; [|done]. intros E. apply (f_equal length) in E. rewrite length_drop in E. cbn in E. lia.
      * intros E. apply (f_equal length) in E. rewrite length_take in E. cbn in E. lia.
      * cbn. by rewrite app_assoc, firstn_skipn.
Qed.

Lemma read_header_whole hd n r2 : find_end hd = Some n -> length hd = (n + 4)%nat -> (length hd <= MAX_HEADER)%nat ->
  forall fuel buf r, buf ++ r_bytes r = hd -> r_bytes r <> [] -> Forall piece r -> (length r + length (r_bytes r) <= fuel)%nat ->
  exists r', read_header fuel buf (r ++ r2) = (r', Ready (Ok hd)) /\ r_bytes r' = r_bytes r2.
Proof.
  intros He Hl Hm. induction fuel as [|fuel IH]; intros buf r Hb Hne F Hf.
  { destruct (r_bytes r); [done|cbn in Hf; lia]. }
  cbn [read_header]. destruct (inner_read 1024 (r ++ r2)) as [r' x] eqn:Er.
  destruct (inner_read_piece 1024 r r2 r' x ltac:(lia) F Hne Er) as (r1 & -> & F1 & Hx).
  destruct x as [|[d|e]]; [|destruct Hx as (Hd & Hr & Hlen)|done].
  - destruct Hx as [Hr Hlen]. apply IH; [by rewrite Hr|by rewrite Hr|done|rewrite Hr; lia].
  - destruct d as [|b d]; [done|]. rewrite Hr, app_assoc in Hb.
    destruct (r_bytes r1) as [|b' t] eqn:E1.
    + rewrite app_nil_r in Hb. rewrite Hb, He. exists (r1 ++ r2). split; [done|].
      clear -E1. induction r1 as [|[|e|d] r1 IH]; cbn in *; [done|auto..|]. apply app_eq_nil in E1 as [-> E1]. cbn. auto.
    + assert (Hn : find_end (buf ++ b :: d) = None).
      { destruct (find_end (buf ++ b :: d)) as [k|] eqn:Ek; [|done]. exfalso.
        destruct (find_end_app _ (b' :: t) k Ek) as [Ek' Hk]. rewrite Hb, He in Ek'. injection Ek' as <-.
        apply (f_equal length) in Hb. rewrite length_app in Hb. cbn in Hb. lia. }
      rewrite Hn. assert (Hlb : (length (buf ++ b :: d) <= MAX_HEADER)%nat).
      { apply (f_equal length) in Hb. rewrite length_app in Hb. lia. }
      rewrite (proj2 (Nat.ltb_ge _ _) Hlb). apply IH; [by rewrite E1|by rewrite E1|done|].
      rewrite E1. clear -Hr Hf Hlen E1. apply (f_equal length) in Hr. rewrite length_app in Hr. cbn [length] in *. lia.
Qed.

(** The answer of the proxy, in whatever pieces it comes: its status decides,
    and when the pieces end with the header the connection is left at what
    the proxy sends after it. *)
Theorem http_client_connects hd n r r2 fuel : find_end hd = Some n -> length hd = (n + 4)%nat ->
  (length hd <= MAX_HEADER)%nat -> utf8_valid hd = true -> r_bytes r = hd -> Forall piece r ->
  (length r + length hd <= fuel)%nat ->
  exists r', r_bytes r' = r_bytes r2 /\
    connect_response fuel (r ++ r2) =
      (r', Ready (if status_code hd =? 200 then Ok () else Err (EOther "CONNECT failed"))).
Proof.
  intros He Hl Hm Hu Hr F Hf.
  destruct (read_header_whole hd n r2 He Hl Hm fuel [] r) as (r' & E & Hr'); [done| |done|by rewrite Hr|].
  { rewrite Hr. destruct hd; [cbn in Hl; lia|done]. }
  exists r'. split; [done|]. unfold connect_response. rewrite E, He. cbn [default from_option].
  rewrite take_ge by (cbn; lia). by rewrite Hu.
Qed.

(** What the proxy sends in the same piece as the end of its header, as it
    does when the other side speaks first, is lost. *)
Theorem http_client_drops_early_data :
  connect_response 2 [RData (lit "HTTP/1.1 200 OK" ++ crlf ++ crlf ++ lit "220 ready"); RData (lit " to serve")] =
    ([RData (lit " to serve")], Ready (Ok ())).
Proof. vm_compute. reflexivity. Qed.

End ClientFacts.

Section ServerFacts.
Context `{Base64}.

(** With credentials configured a request passes exactly when its header is
    [Basic] and the Base64 of the name, a colon and the password, byte for
    byte; a name with a colon never does. *)
Theorem http_auth_exact h u p : verify_auth h (Some u) (Some p) = true <->
  (58 ∉ u) /\ utf8_valid (u ++ 58 :: p) = true /\
  exists c, h = Some (lit "Basic " ++ c) /\ b64_decode c = Some (u ++ 58 :: p).
Proof.
  unfold verify_auth. split.
  - destruct h as [h|]; [|done]. destruct (strip_prefix _ h) as [c|] eqn:Ec; [|done].
    destruct (b64_decode c) as [d|] eqn:Ed; [|done]. destruct (utf8_valid d) eqn:Eu; [|done].
    destruct (split_once 58 d) as [[u' p']|] eqn:Es; [|done]. intros [->%bool_decide_eq_true ->%bool_decide_eq_true]%andb_prop.
    apply split_once_sound in Es as [-> Hn]. apply strip_prefix_spec in Ec as ->. split; [done|]. split; [done|]. by exists c.
  - intros (Hn & Hu & c & -> & Ed). rewrite (proj2 (strip_prefix_spec (lit "Basic ") _ c) eq_refl), Ed, Hu.
    rewrite split_once_app by done. by rewrite !bool_decide_true.
Qed.

(** The client's own header passes at a server with the same credentials. *)
Theorem http_auth_roundtrip `{!Base64Laws} u p : (58 ∉ u) -> utf8_valid (u ++ 58 :: p) = true ->
  verify_auth (Some (authorization u p)) (Some u) (Some p) = true.
Proof.
  intros Hn Hu. apply http_auth_exact. split; [done|]. split; [done|]. eexists. split; [reflexivity|].
  apply b64_round.
Qed.

Lemma header_get_remove name h : header_get name (header_remove h name) = None.
Proof.
  unfold header_remove. induction h as [|[n v] h IH]; [done|]. rewrite filter_cons.
  destruct (decide (n <> name)) as [Hn|Hn]; cbn; [|by rewrite decide_False]. rewrite decide_True by done. cbn.
  by rewrite bool_decide_false.
Qed.

Lemma removes_filter (names : list bytes) (h : list (bytes * bytes)) : fold_left header_remove names h = filter (fun f => f.1 ∉ names) h.
Proof.
  revert h. induction names as [|n names IH]; intros h; cbn [fold_left].
  - induction h as [|f h IHh]; [done|]. rewrite filter_cons, decide_True by apply not_elem_of_nil. by rewrite <- IHh.
  - rewrite IH. unfold header_remove. rewrite list_filter_filter. apply list_filter_iff. intros f.
    rewrite not_elem_of_cons. tauto.
Qed.

Lemma header_get_filter name (names : list bytes) (h : list (bytes * bytes)) : name ∈ names -> header_get name (filter (fun f => f.1 ∉ names) h) = None.
Proof.
  intros Hin. induction h as [|[n v] h IH]; [done|]. rewrite filter_cons. case_decide as Hn; [|done]. cbn.
  rewrite bool_decide_false; [done|]. intros ->. by apply Hn.
Qed.

(** The fields of a request that is sent on are exactly those that are not
    hop-by-hop, in their order. *)
Lemma strip_headers_exact h : strip_headers h = filter (fun f => f.1 ∉ HOP_BY_HOP_HEADERS) h.
Proof.
  unfold strip_headers. rewrite (removes_filter HOP_BY_HOP_HEADERS), header_get_filter; [done|]. unfold HOP_BY_HOP_HEADERS. left.
Qed.

(** The names that the [Connection] fields of a request list, and the fields
    that are for every hop. *)
Definition connection_names (h : list (bytes * bytes)) : list bytes :=
  concat (map (fun f => if bool_decide (f.1 = lit "connection") then listed_names f.2 else []) h).
Definition end_to_end (h : list (bytes * bytes)) (f : bytes * bytes) : Prop :=
  f.1 ∉ HOP_BY_HOP_HEADERS /\ f.1 ∉ connection_names h.
#[global] Instance end_to_end_dec h f : Decision (end_to_end h f).
Proof. unfold end_to_end. apply _. Defined.

Lemma strip_headers_keeps h :
  strip_headers h `sublist_of` h /\ Forall (fun f => f.1 ∉ HOP_BY_HOP_HEADERS) (strip_headers h) /\
  filter (end_to_end h) (strip_headers h) = filter (end_to_end h) h.
Proof.
  rewrite strip_headers_exact. split; [apply sublist_filter|]. split.
  - apply List.Forall_forall. intros f Hf. by apply list_elem_of_In, list_elem_of_filter in Hf as [? _].
  - rewrite list_filter_filter. apply list_filter_iff. intros f. unfold end_to_end. tauto.
Qed.


(** A field that the request's [Connection] field declares to be for this
    hop only is sent on all the same: when it is looked for, [Connection]
    itself is already removed. *)
Theorem connection_fields_forwarded h f : In f h -> f.1 ∉ HOP_BY_HOP_HEADERS -> In f (strip_headers h).
Proof.
  intros Hin Hn. rewrite strip_headers_exact. apply list_elem_of_In, list_elem_of_filter. split; [done|].
  by apply list_elem_of_In.
Qed.

(** A request whose URI has no authority is refused, with or without a [Host]
    field to complete it from. *)
Theorem origin_form_refused parse_uri auth req : authority (uri req) = None ->
  proxy parse_uri auth req = AuthRequired \/ proxy parse_uri auth req = BadRequest "Bad Request: Invalid request URI format".
Proof. intros E. unfold proxy, host_addr. rewrite E. destruct (verify_auth _ _ _); [by right|by left]. Qed.

(** An IPv6 address without a port is not given port 80. *)
Theorem ipv6_authority_fails parse_uri m h : proxy parse_uri (None, None) (mkRequest m (mkUri (Some (lit "http")) (Some (lit "[::1]")) None) h) =
  ServiceError EAddrNotAvailable.
Proof. reflexivity. Qed.

End ServerFacts.
(** ** Samples *)

(** A code that is its own inverse stands for Base64. *)
Definition toy_b64 : Base64 := {| b64_encode := fun s => s; b64_decode := Some |}.
Lemma toy_b64_laws : @Base64Laws toy_b64.
Proof. by constructor. Qed.

Definition sample_header : bytes := lit "HTTP/1.1 200 Connection established" ++ crlf ++ lit "Via: x" ++ crlf ++ crlf.

Lemma http_client_connects_witness : exists r', r_bytes r' = lit "220 ready" /\
  connect_response 60 ([RData (take 20 sample_header); RPending; RData (drop 20 sample_header)] ++ [RData (lit "220 ready")]) =
    (r', Ready (Ok ())).
Proof.
  destruct (http_client_connects sample_header 43 [RData (take 20 sample_header); RPending; RData (drop 20 sample_header)]
    [RData (lit "220 ready")] 60) as (r' & E1 & E2); [reflexivity|reflexivity| |reflexivity|reflexivity| | |].
  - apply Nat.leb_le. vm_compute. reflexivity.
  - repeat constructor; discriminate.
  - apply Nat.leb_le. vm_compute. reflexivity.
  - exists r'. split; [exact E1 | exact E2].
Defined.

Lemma http_auth_roundtrip_witness :
  @verify_auth toy_b64 (Some (@authorization toy_b64 (lit "user") (lit "p:w"))) (Some (lit "user")) (Some (lit "p:w")) = true.
Proof.
  apply (@http_auth_roundtrip toy_b64 toy_b64_laws); [|reflexivity].
  intros Hin. apply list_elem_of_In in Hin. cbv in Hin. repeat (destruct Hin as [Hin|Hin]; [discriminate Hin|]). exact Hin.
Defined.

Definition sample_request : Request :=
  mkRequest (lit "GET") (mkUri (Some (lit "http")) (Some (lit "example.com")) (Some (lit "/")))
    [(lit "connection", lit "keep-alive"); (lit "proxy-authorization", lit "Basic user:pw"); (lit "accept", lit "*/*")].


Definition hop_headers : list (bytes * bytes) := [(lit "connection", lit "keep-alive, x-hop"); (lit "x-hop", lit "1")].

Lemma connection_fields_forwarded_witness : In (lit "x-hop", lit "1") (strip_headers hop_headers).
Proof.
  apply connection_fields_forwarded; [right; left; reflexivity|].
  intros Hin. apply list_elem_of_In in Hin. cbv in Hin. repeat (destruct Hin as [Hin|Hin]; [discriminate Hin|]). exact Hin.
Defined.

Lemma origin_form_refused_witness :
  @proxy toy_b64 (fun _ => Err EInvalidData) (None, None) (mkRequest (lit "GET") (mkUri None None (Some (lit "/"))) [(lit "host", lit "a")]) =
    BadRequest "Bad Request: Invalid request URI format".
Proof.
  destruct (@origin_form_refused toy_b64 (fun _ => Err EInvalidData) (None, None)
    (mkRequest (lit "GET") (mkUri None None (Some (lit "/"))) [(lit "host", lit "a")]) eq_refl) as [E|E]; [discriminate E|exact E].
Defined.

End Http.
