(* ===== verification/Sniff.v ===== *)
(** * Sniffers: [rd-std/src/sniffer/sni_sniffer.rs], [service.rs], [dns_sniffer.rs]

    Nets that recover the domain of a connection to an address: from the
    server name of a TLS handshake, which is held back until it is known or
    250 ms have passed, and from the DNS answers seen before. *)

From S2P Require Import Prelude Io Address ConnContext Lru Rule Relay.

Module Sni.

(** ** Server names *)

(* src/rd-std/src/sniffer/sni_sniffer.rs:24-24 BUFFER_SIZE *)
Definition BUFFER_SIZE : nat := 1024.

(** [char::is_ascii_alphanumeric]; a name is checked byte by byte, as no byte
    of a longer character is ASCII. *)
Definition is_alnum (b : Z) : bool := is_digit b || ((65 <=? b) && (b <=? 90)) || ((97 <=? b) && (b <=? 122)).

(* src/rd-std/src/sniffer/sni_sniffer.rs:270-274 is_valid_domain *)
Definition is_valid_domain (domain : bytes) : bool := forallb (fun c => is_alnum c || (c =? 45) || (c =? 46)) domain.

(** What the code takes from [tls_parser]: a record's messages and a client
    hello's extensions, each [None] when they do not parse. *)
Inductive TlsMessage : Type := ClientHello (ext : option bytes) | OtherMessage.
Inductive TlsExtension : Type := SNI (names : list (Z * bytes)) | OtherExtension.

Class TlsParser : Type := {
  parse_tls_plaintext : bytes -> option (list TlsMessage);
  parse_tls_client_hello_extensions : bytes -> option (list TlsExtension) }.

Section Sniffer.
Context `{TlsParser}.

(** [SNIType::HostName] is 0. *)
(* src/rd-std/src/sniffer/sni_sniffer.rs:276-304 get_sni *)
Definition get_sni (b : bytes) : option bytes :=
  match parse_tls_plaintext b with
  | None => None
  | Some msgs =>
    let exts := omap (fun m => match m with ClientHello ext => ext | OtherMessage => None end) msgs in
    let exts := concat (omap parse_tls_client_hello_extensions exts) in
    let names := concat (omap (fun e => match e with SNI l => Some l | OtherExtension => None end) exts) in
    let hosts := omap (fun '(ty, data) => if ty =? 0 then Some data else None) names in
    head (List.filter is_valid_domain (List.filter utf8_valid hosts))
  end.

(** ** The connection *)

(** What the net answers to [tcp_connect]: after some time an error or a
    stream. *)
Record Net : Type := mkNet { tcp_connect : Address -> list (poll (res (Src * Snk))) }.

(** The spawned [connect_send]: connecting, writing the buffer, or done. *)
(* src/rd-std/src/sniffer/sni_sniffer.rs:106-117 connect_send *)
Inductive ConnectSend : Type :=
| SendConnecting (addr : Address) (answers : list (poll (res (Src * Snk)))) (buffer : bytes)
| SendWriting (addr : Address) (r : Src) (w : Snk) (rest : bytes)
| SendDone (addr : Address) (o : res (Src * Snk)).

(** A poll of it; [write_all] fails on a write of nothing. *)
(* src/rd-std/src/sniffer/sni_sniffer.rs:106-117 connect_send *)
Definition connect_send_poll (c : ConnectSend) : ConnectSend :=
  match c with
  | SendConnecting a answers buffer =>
    match answers with
    | Pending :: l => SendConnecting a l buffer
    | [] => c
    | Ready (Err e) :: _ => SendDone a (Err e)
    | Ready (Ok (r, w)) :: _ => SendWriting a r w buffer
    end
  | SendWriting a r w [] => SendDone a (Ok (r, w))
  | SendWriting a r w rest =>
    match snk_write w rest with
    | (w, Pending) => SendWriting a r w rest
    | (w, Ready (Err e)) => SendDone a (Err e)
    | (w, Ready (Ok O)) => SendDone a (Err EWriteZero)
    | (w, Ready (Ok n)) => SendWriting a r w (drop n rest)
    end
  | SendDone _ _ => c
  end.

(** [param.buffer] and [timeout.is_elapsed()]; a task once awaited is gone. *)
(* src/rd-std/src/sniffer/sni_sniffer.rs:119-131 State *)
Inductive State : Type :=
| WaitingHandshake (addr : Address) (buffer : bytes) (elapsed : bool)
| Connecting (future : ConnectSend)
| ConnectFailed
| Connected (r : Src) (w : Snk).

(** What is asked of the stream, and what happens by itself. *)
Inductive Op : Type := OpRead (cap : nat) | OpWrite (buf : bytes) | OpFlush | OpShutdown | OpTask | OpElapse.
Inductive Answer : Type := ARead (p : poll (res bytes)) | AWrite (p : poll (res nat)) | AUnit (p : poll (res unit)) | ANone | APanic.

(* src/rd-std/src/sniffer/sni_sniffer.rs:99-103 extend_buffer *)
Definition extend_buffer (buffer buf : bytes) : bytes * nat :=
  let to_copy := Nat.min (length buf) (BUFFER_SIZE - length buffer) in
  (buffer ++ take to_copy buf, to_copy).

(* src/rd-std/src/sniffer/sni_sniffer.rs:161-171 SnifferTcp::new *)
Definition sniffer_new (addr : Address) : State := WaitingHandshake addr [] false.

(** The loop takes at most three rounds, one per state. *)
(* src/rd-std/src/sniffer/sni_sniffer.rs:176-225 SnifferTcp::poll_read *)
Fixpoint sni_poll_read (fuel : nat) (net : Net) (s : State) (cap : nat) : State * Answer :=
  match fuel with
  | O => (s, APanic)
  | Datatypes.S fuel =>
    match s with
    | WaitingHandshake addr buffer elapsed =>
      match get_sni buffer with
      | Some sni =>
        let a := into_normalized (ADomain sni (port addr)) in
        sni_poll_read fuel net (Connecting (SendConnecting a (tcp_connect net a) buffer)) cap
      | None =>
        if elapsed then sni_poll_read fuel net (Connecting (SendConnecting addr (tcp_connect net addr) buffer)) cap
        else (s, ARead Pending)
      end
    | Connecting (SendDone _ (Ok (r, w))) => sni_poll_read fuel net (Connected r w) cap
    | Connecting (SendDone _ (Err e)) => (ConnectFailed, ARead (Ready (Err e)))
    | Connecting _ => (s, ARead Pending)
    | ConnectFailed => (s, APanic)
    | Connected r w => let '(r, p) := src_read cap r in (Connected r w, ARead p)
    end
  end.

(* src/rd-std/src/sniffer/sni_sniffer.rs:227-245 SnifferTcp::poll_write *)
Definition sni_poll_write (s : State) (buf : bytes) : State * Answer :=
  match s with
  | WaitingHandshake addr buffer e =>
    let '(buffer, copied) := extend_buffer buffer buf in (WaitingHandshake addr buffer e, AWrite (Ready (Ok copied)))
  | Connecting _ | ConnectFailed => (s, AWrite Pending)
  | Connected r w => let '(w, p) := snk_write w buf in (Connected r w, AWrite p)
  end.

(* src/rd-std/src/sniffer/sni_sniffer.rs:247-252 SnifferTcp::poll_flush *)
Definition sni_poll_flush (s : State) : State * Answer :=
  match s with
  | Connected r w => let '(w, p) := snk_flush w in (Connected r w, AUnit p)
  | _ => (s, AUnit (Ready (Ok tt)))
  end.

(* src/rd-std/src/sniffer/sni_sniffer.rs:254-259 SnifferTcp::poll_shutdown *)
Definition sni_poll_shutdown (s : State) : State * Answer :=
  match s with
  | Connected r w => let '(w, p) := snk_shutdown w in (Connected r w, AUnit p)
  | _ => (s, AUnit (Ready (Ok tt)))
  end.

(* src/rd-std/src/sniffer/sni_sniffer.rs:174-268 SnifferTcp (impl ITcpStream) *)
Definition sni_step (net : Net) (s : State) (o : Op) : State * Answer :=
  match o with
  | OpRead cap => sni_poll_read 3 net s cap
  | OpWrite buf => sni_poll_write s buf
  | OpFlush => sni_poll_flush s
  | OpShutdown => sni_poll_shutdown s
  | OpTask => (match s with Connecting c => Connecting (connect_send_poll c) | _ => s end, ANone)
  | OpElapse => (match s with WaitingHandshake a b _ => WaitingHandshake a b true | _ => s end, ANone)
  end.

Fixpoint sni_run (net : Net) (s : State) (ops : list Op) : State * list (Op * Answer) :=
  match ops with
  | [] => (s, [])
  | o :: ops =>
    let '(s, a) := sni_step net s o in
    let '(s, l) := sni_run net s ops in (s, (o, a) :: l)
  end.

(** Which connections are sniffed; the others are the inner net's. *)
(* src/rd-std/src/sniffer/sni_sniffer.rs:62-80 SNISnifferNet::tcp_connect *)
Definition need_sniff (ports : option (list Z)) (force_sniff : bool) (addr : Address) : bool :=
  (is_socket_addr addr || force_sniff) &&
  match ports with
  | Some ports => existsb (Z.eqb (port addr)) ports
  | None => port addr =? 443
  end.

(** *** What is relayed *)

(** What the writer's calls were told was taken. *)
Fixpoint accepted (l : list (Op * Answer)) : bytes :=
  match l with
  | (OpWrite buf, AWrite (Ready (Ok n))) :: l => take n buf ++ accepted l
  | [] => []
  | _ :: l => accepted l
  end.

Fixpoint delivered (l : list (Op * Answer)) : bytes :=
  match l with
  | (_, ARead (Ready (Ok d))) :: l => d ++ delivered l
  | [] => []
  | _ :: l => delivered l
  end.

(** What has been sent on of the writes, and what is held. *)
Definition in_flight (s : State) : option (bytes * bytes) :=
  match s with
  | WaitingHandshake _ b _ => Some ([], b)
  | Connecting (SendConnecting _ _ b) => Some ([], b)
  | Connecting (SendWriting _ _ w rest) => Some (sk_out w, rest)
  | Connecting (SendDone _ (Ok (_, w))) => Some (sk_out w, [])
  | Connected _ w => Some (sk_out w, [])
  | Connecting (SendDone _ (Err _)) | ConnectFailed => None
  end.

(** A letter, a digit, [-] or [.]. *)
Definition domain_char (c : Z) : Prop := 48 <= c <= 57 \/ 65 <= c <= 90 \/ 97 <= c <= 122 \/ c = 45 \/ c = 46.

(** Where a connection goes: to the address asked for, or to the name in what
    was written. *)
Definition target_ok (addr a : Address) (b : bytes) : Prop :=
  a = addr \/ exists sni, get_sni b = Some sni /\ Forall domain_char sni /\ a = into_normalized (ADomain sni (port addr)).

(** The stream is one the net gave for [a]. *)
Definition from_net (net : Net) (a : Address) (r : Src) (w : Snk) : Prop := Ready (Ok (r, w)) ∈ tcp_connect net a.

Definition target (addr : Address) (b : bytes) : Address :=
  match get_sni b with Some sni => into_normalized (ADomain sni (port addr)) | None => addr end.

(** Connecting to [a] and sending what was held fails with [e]: the net said
    so, or the stream it gave, on a write. *)
Definition failure (net : Net) (a : Address) (e : error) : Prop :=
  Ready (Err e) ∈ tcp_connect net a \/
  exists r w, from_net net a r w /\ (e = EWriteZero \/ WErr e ∈ sk_writes w).

Definition sni_inv (net : Net) (addr : Address) (s : State) (written read : bytes) : Prop :=
  match s with
  | WaitingHandshake a b _ => a = addr /\ b = written /\ (length b <= BUFFER_SIZE)%nat /\ read = []
  | Connecting (SendConnecting a l b) =>
    target_ok addr a b /\ b = written /\ (length b <= BUFFER_SIZE)%nat /\ l `suffix_of` tcp_connect net a /\ read = []
  | Connecting (SendWriting a r w rest) =>
    target_ok addr a written /\ sk_out w ++ rest = written /\
    (exists w0, from_net net a r w0 /\ sk_writes w `suffix_of` sk_writes w0) /\ read = []
  | Connecting (SendDone a (Ok (r, w))) =>
    target_ok addr a written /\ sk_out w = written /\ (exists w0, from_net net a r w0) /\ read = []
  | Connecting (SendDone a (Err e)) => target_ok addr a written /\ failure net a e /\ read = []
  | ConnectFailed => True
  | Connected r w =>
    sk_out w = written /\ exists a b r0 w0, target_ok addr a b /\ b `prefix_of` written /\ from_net net a r0 w0 /\
      read ++ r_bytes (src_r r) = r_bytes (src_r r0)
  end.

Lemma valid_domain_chars sni : is_valid_domain sni = true -> Forall domain_char sni.
Proof.
  unfold is_valid_domain. rewrite forallb_forall. intros Hf. apply List.Forall_forall. intros c Hc. specialize (Hf c Hc).
  unfold is_alnum, is_digit in Hf. unfold domain_char. lia.
Qed.

Lemma get_sni_spec b sni : get_sni b = Some sni -> is_valid_domain sni = true /\ utf8_valid sni = true.
Proof.
  unfold get_sni. destruct (parse_tls_plaintext b) as [msgs|]; [|done]. intros E.
  destruct (List.filter is_valid_domain _) as [|x l] eqn:El; [done|]. injection E as ->.
  assert (Hx : In sni (sni :: l)) by (by left). rewrite <- El in Hx. rewrite !filter_In in Hx. by destruct Hx as [[_ ?] ?].
Qed.

Context (net : Net) (addr : Address).
Context (net_fresh : forall a r w, from_net net a r w -> sk_out w = []).

Lemma snk_write_rest w buf w' p : snk_write w buf = (w', p) -> sk_writes w' `suffix_of` sk_writes w /\
  match p with Ready (Err e) => WErr e ∈ sk_writes w | _ => True end.
Proof.
  unfold snk_write. destruct (sk_writes w) as [|[|e|n] l] eqn:E; intros [= <- <-]; cbn; (split; [|try done; left]);
    try done; try apply suffix_nil; by apply suffix_cons_r.
Qed.

Lemma suffix_elem {A} (l l' : list A) x : l `suffix_of` l' -> x ∈ l -> x ∈ l'.
Proof. intros [k ->] Hx. apply elem_of_app. by right. Qed.

Lemma connect_send_inv c wr rd : sni_inv net addr (Connecting c) wr rd -> sni_inv net addr (Connecting (connect_send_poll c)) wr rd.
Proof.
  destruct c as [a l b|a r w rest|a [[r w]|e]]; cbn; [| |done..].
  - intros (Ht & -> & Hb & Hl & ->). destruct l as [|[|[[r w]|e]] l]; cbn.
    + done.
    + split_and!; try done. by eapply suffix_cons_l.
    + assert (Hn : from_net net a r w) by (eapply suffix_elem; [exact Hl|left]).
      rewrite (net_fresh _ _ _ Hn). split_and!; eauto.
    + split; [done|]. split; [|done]. left. eapply suffix_elem; [exact Hl|left].
  - intros (Ht & Ho & (w0 & Hn & Hsuf) & ->). destruct rest as [|x rest]; [rewrite app_nil_r in Ho; split_and!; eauto|].
    destruct (snk_write w (x :: rest)) as [w1 p] eqn:E. pose proof (snk_write_rest _ _ _ _ E) as [Hs1 He].
    apply snk_write_spec in E as [_ Hp].
    assert (Hs2 : sk_writes w1 `suffix_of` sk_writes w0) by (by etrans). destruct p as [|[n|e]].
    + destruct Hp as [Hp _]. cbn. rewrite Hp. split_and!; eauto.
    + destruct Hp as [_ Hp]. destruct n as [|n]; [split; [done|]; split; [|done]; right; eauto|].
      split; [done|]. split; [rewrite Hp, <- app_assoc, take_drop; done|]. split; eauto.
    + split; [done|]. split; [|done]. right. exists r, w0. split; [done|]. right. exact (suffix_elem _ _ _ Hsuf He).
Qed.

Lemma sni_read_inv s wr rd cap : sni_inv net addr s wr rd ->
  let '(s', a) := sni_poll_read 3 net s cap in
  sni_inv net addr s' wr (rd ++ delivered [(OpRead cap, a)]) /\ (a = APanic -> s = ConnectFailed /\ s' = ConnectFailed) /\
  (s' = ConnectFailed -> s <> ConnectFailed -> rd = [] /\ exists a' e, a = ARead (Ready (Err e)) /\ target_ok addr a' wr /\ failure net a' e) /\
  match s, s' with
  | WaitingHandshake _ _ true, WaitingHandshake _ _ _ => False
  | ConnectFailed, _ => s' = ConnectFailed
  | _, _ => True
  end.
Proof.
  assert (Hconn : forall a b, target_ok addr a b -> b = wr -> (length b <= BUFFER_SIZE)%nat -> rd = [] ->
    sni_inv net addr (Connecting (SendConnecting a (tcp_connect net a) b)) wr (rd ++ [])).
  { intros a b Ht -> Hb ->. split_and!; try done. }
  destruct s as [a b e|c| |r w]; cbn [sni_poll_read].
  - intros (-> & -> & Hb & ->). destruct (get_sni wr) as [sni|] eqn:Es; [split; [|by destruct e]|destruct e; (split; [|done])].
    + apply Hconn; try done. right. exists sni. split; [done|]. split; [|done]. by apply valid_domain_chars, (get_sni_spec wr).
    + apply Hconn; try done. by left.
    + done.
  - intros Hi. destruct c as [a l b|a r w rest|a [[r w]|e]].
    1, 2: by split; [rewrite app_nil_r|].
    + destruct Hi as (Ht & Ho & [w0 Hn] & ->). unfold src_read. pose proof (inner_read_bytes cap (src_r r)) as Hr.
      destruct (inner_read cap (src_r r)) as [r' p]. specialize (Hr r' p eq_refl). split; [|by destruct p as [|[|]]].
      split; [done|]. exists a, wr, r, w0. split_and!; try done. cbn. destruct p as [|[d|e]]; [done| |done].
      destruct Hr as [-> _]. cbn. by rewrite app_nil_r.
    + destruct Hi as (Ht & Hf & ->). split; [done|]. split; [done|]. split; [|done]. intros _ _. split; [done|]. by exists a, e.
  - intros _. by split_and!.
  - intros (Ho & a & b & r0 & w0 & Ht & Hpre & Hn & Hrd). unfold src_read. pose proof (inner_read_bytes cap (src_r r)) as Hr.
    destruct (inner_read cap (src_r r)) as [r' p]. specialize (Hr r' p eq_refl). split; [|by destruct p as [|[|]]].
    split; [done|]. exists a, b, r0, w0. split_and!; try done. rewrite <- Hrd, <- app_assoc. f_equal. cbn.
    destruct p as [|[d|e]]; [done| |done]. destruct Hr as [-> _]. by rewrite app_nil_r.
Qed.

(** What a call has to do with the failure of the connection: it panics only
    when that was reported, and the report is the answer of a read. *)
Definition fails_ok (s s' : State) (wr rd : bytes) (o : Op) (a : Answer) : Prop :=
  (a = APanic -> s = ConnectFailed) /\ (s = ConnectFailed -> s' = ConnectFailed) /\
  (s' = ConnectFailed -> s <> ConnectFailed -> rd = [] /\ exists cap a' e, o = OpRead cap /\ a = ARead (Ready (Err e)) /\
     target_ok addr a' wr /\ failure net a' e).

Lemma sni_step_inv s wr rd o : sni_inv net addr s wr rd ->
  let '(s', a) := sni_step net s o in
  sni_inv net addr s' (wr ++ accepted [(o, a)]) (rd ++ delivered [(o, a)]) /\ fails_ok s s' wr rd o a.
Proof.
  intros Hi. unfold fails_ok. destruct o as [cap|buf| | | |]; cbn [sni_step].
  - pose proof (sni_read_inv s wr rd cap Hi) as Hr. destruct (sni_poll_read 3 net s cap) as [s' a].
    destruct Hr as (Hr & Hp & Hf & Hc). split; [by rewrite app_nil_r|]. split; [by intros [? _]%Hp|].
    split; [by intros ->|]. intros H1 H2. destruct (Hf H1 H2) as (Hd & a' & e & ? & ? & ?). split; [done|]. by exists cap, a', e.
  - destruct s as [a b e|c| |r w]; cbn [sni_poll_write]; try (cbn; rewrite ?app_nil_r; by split).
    + destruct Hi as (-> & -> & Hb & ->). unfold extend_buffer. split; [|by split].
      cbn [accepted delivered sni_inv]. rewrite app_nil_r. split_and!; try done. rewrite length_app, length_take. lia.
    + destruct Hi as (Ho & a & b & r0 & w0 & Ht & Hpre & Hn & Hrd). destruct (snk_write w buf) as [w1 p] eqn:E.
      apply snk_write_spec in E as [_ Hp]. split; [|by split]. cbn. destruct p as [|[n|e]].
      * destruct Hp as [-> _]. rewrite !app_nil_r. split; [done|]. by exists a, b, r0, w0.
      * destruct Hp as [_ ->]. rewrite !app_nil_r, Ho. split; [done|]. exists a, b, r0, w0.
        split_and!; try done. by apply prefix_app_r.
      * rewrite Hp, !app_nil_r. split; [done|]. by exists a, b, r0, w0.
  - destruct s as [a b e|c| |r w]; cbn; rewrite ?app_nil_r; try (by split).
    destruct (snk_flush w) as [w1 p] eqn:E. apply snk_flush_spec in E as [E _]. cbn. rewrite E, !app_nil_r. by split.
  - destruct s as [a b e|c| |r w]; cbn; rewrite ?app_nil_r; try (by split).
    destruct (snk_shutdown w) as [w1 p] eqn:E. apply snk_shutdown_spec in E as [E _]. cbn. rewrite E, !app_nil_r. by split.
  - rewrite !app_nil_r. destruct s as [a b e|c| |r w]; (split; [|by split]); try done. by apply connect_send_inv.
  - rewrite !app_nil_r. destruct s as [a b e|c| |r w]; (split; [|by split]); done.
Qed.

(** The answer that reports why the connection failed, with what had been
    written by then. *)
Definition reported (before : list (Op * Answer)) : Prop :=
  exists pre cap a e post, before = pre ++ (OpRead cap, ARead (Ready (Err e))) :: post /\
    target_ok addr a (accepted pre) /\ failure net a e /\ delivered pre = [].

Lemma accepted_app l k : accepted (l ++ k) = accepted l ++ accepted k.
Proof.
  induction l as [|[o a] l IH]; [done|]. cbn [app]. destruct o, a as [|[|[]]| | |]; cbn [accepted]; rewrite ?IH, ?app_assoc; done.
Qed.
Lemma delivered_app l k : delivered (l ++ k) = delivered l ++ delivered k.
Proof.
  induction l as [|[o a] l IH]; [done|]. cbn [app]. destruct a as [[|[]]| | | |]; cbn [delivered]; rewrite ?IH, ?app_assoc; done.
Qed.

Lemma sni_run_inv ops : forall s l0, sni_inv net addr s (accepted l0) (delivered l0) -> (s = ConnectFailed -> reported l0) ->
  let '(s', l) := sni_run net s ops in
  sni_inv net addr s' (accepted (l0 ++ l)) (delivered (l0 ++ l)) /\ (s' = ConnectFailed -> reported (l0 ++ l)) /\
  (forall pre o post, l = pre ++ (o, APanic) :: post -> reported (l0 ++ pre)).
Proof.
  induction ops as [|o ops IH]; intros s l0 Hi Hrep; cbn [sni_run].
  - rewrite app_nil_r. split; [done|]. split; [done|]. by intros [].
  - pose proof (sni_step_inv s _ _ o Hi) as Hs. destruct (sni_step net s o) as [s1 a]. destruct Hs as (Hs & Hp & Hk & Hf).
    rewrite <- accepted_app, <- delivered_app in Hs.
    assert (Hrep1 : s1 = ConnectFailed -> reported (l0 ++ [(o, a)])).
    { intros E. assert (Hdec : s = ConnectFailed \/ s <> ConnectFailed) by (destruct s; auto).
      destruct Hdec as [Es|Es].
      - destruct (Hrep Es) as (pre & cap & a' & e & post & -> & Hx). exists pre, cap, a', e, (post ++ [(o, a)]).
        by rewrite <- app_assoc.
      - destruct (Hf E Es) as (Hd & cap & a' & e & -> & -> & Ht & Hx). by exists l0, cap, a', e, []. }
    specialize (IH s1 (l0 ++ [(o, a)]) Hs Hrep1). destruct (sni_run net s1 ops) as [s2 l]. rewrite <- app_assoc in IH.
    destruct IH as (IH1 & IH2 & IH3). split; [done|]. split; [done|].
    intros [|[o' a'] pre] o2 post E; cbn [app] in E.
    + injection E as -> -> <-. rewrite app_nil_r. by apply Hrep, Hp.
    + injection E as -> -> E. specialize (IH3 pre o2 post E). by rewrite <- app_assoc in IH3.
Qed.

End Sniffer.

(** C27: A sniffed connection, whatever is read, written, flushed and shut
    down, however the net answers (with streams on which nothing was sent yet)
    and whenever the timer fires: what the writer was told was taken is
    exactly what the server was sent followed by what is held, at most 1024
    bytes of it before the connection is made; what is read is a prefix of
    what the server sends; a read connects once [get_sni] finds a name in what
    is held or the timer has fired, with the port asked for, to that name,
    normalised, which is made of letters, digits, [-] and [.], or to the
    address asked for where there is none; a read after the connection failed
    reports its error, that of the net or of sending what was held, and
    reading panics only after a read that did. *)
Theorem sniffed_exact `{TlsParser} (net : Net) addr ops :
  (forall a r w, from_net net a r w -> sk_out w = []) ->
  let '(s, l) := sni_run net (sniffer_new addr) ops in
  match in_flight s with Some (sent, held) => sent ++ held = accepted l | None => True end /\
  match s with
  | WaitingHandshake a b e => a = addr /\ (length b <= BUFFER_SIZE)%nat /\ delivered l = [] /\
    (forall cap, let connecting := Connecting (SendConnecting (target addr b) (tcp_connect net (target addr b)) b) in
      (sni_run net s [OpElapse; OpRead cap]).1 = connecting /\
      (sni_run net s [OpRead cap]).1 = (if e || bool_decide (is_Some (get_sni b)) then connecting else s))
  | Connecting (SendConnecting a _ b) => target_ok addr a b /\ (length b <= BUFFER_SIZE)%nat /\ delivered l = []
  | Connecting (SendWriting a _ _ _) => target_ok addr a (accepted l) /\ delivered l = []
  | Connecting (SendDone a (Ok _)) => target_ok addr a (accepted l) /\ delivered l = []
  | Connecting (SendDone a (Err e)) => target_ok addr a (accepted l) /\ failure net a e /\ delivered l = [] /\
      forall cap, sni_run net s [OpRead cap] = (ConnectFailed, [(OpRead cap, ARead (Ready (Err e)))])
  | ConnectFailed => reported net addr l
  | Connected _ _ => exists a b r0 w0, target_ok addr a b /\ b `prefix_of` accepted l /\ from_net net a r0 w0 /\
      delivered l `prefix_of` r_bytes (src_r r0)
  end /\
  (forall pre o post, l = pre ++ (o, APanic) :: post -> reported net addr pre).
Proof.
  intros Hn. pose proof (sni_run_inv net addr Hn ops (sniffer_new addr) []) as Hi.
  destruct (sni_run net (sniffer_new addr) ops) as [s l]. destruct Hi as (Hi & Hrep & Hp); [by repeat split; cbn; lia|done|].
  cbn [app] in Hi, Hrep, Hp. split; [|split; [|exact Hp]].
  - destruct s as [a b e|[a m b|a r w rest|a [[r w]|e]]| |r w]; cbn in *; try done.
    + by destruct Hi as (_ & -> & _).
    + by destruct Hi as (_ & -> & _).
    + by destruct Hi as (_ & -> & _).
    + rewrite app_nil_r. by destruct Hi as (_ & -> & _).
    + rewrite app_nil_r. by destruct Hi as [-> _].
  - destruct s as [a b e|[a m b|a r w rest|a [[r w]|e]]| |r w].
    + destruct Hi as (-> & Hb & Hl & Hd). split_and!; try done. intros cap.
      cbn [sni_run sni_step sni_poll_read]. unfold target. destruct (get_sni b) as [sni|], e; cbn; split; done.
    + by destruct Hi as (Ht & _ & Hb & _ & Hd).
    + by destruct Hi as (Ht & _ & _ & Hd).
    + by destruct Hi as (Ht & _ & _ & Hd).
    + by destruct Hi as (Ht & Hf & Hd).
    + by apply Hrep.
    + destruct Hi as (_ & a & b & r0 & w0 & Ht & Hb & Hf & Hd). exists a, b, r0, w0. split_and!; try done.
      rewrite <- Hd. by eexists.
Qed.

(** A parser that knows one record: a byte 22 and the name. *)
#[local] Instance sample_tls : TlsParser := {|
  parse_tls_plaintext b := match b with 22 :: n => Some [ClientHello (Some n)] | _ => None end;
  parse_tls_client_hello_extensions n := Some [SNI [(0, n)]] |}.

Definition sni_sample_net : Net :=
  mkNet (fun _ => [Pending; Ready (Ok (mkSrc [RData [5]; RData [6]] false, mkSnk [] [WOk 2; WOk 99; WOk 99] [] [] 0 false false))]).
Definition sni_sample_addr : Address := ASocket (mkSocketAddr (V4 16909060) 443).
Definition sni_sample_ops : list Op :=
  [OpRead 10; OpWrite (22 :: lit "a.test"); OpRead 10; OpTask; OpTask; OpTask; OpTask; OpTask; OpRead 10; OpWrite [7]].

Example sni_sample_result :
  let '(s, l) := sni_run sni_sample_net (sniffer_new sni_sample_addr) sni_sample_ops in
  in_flight s = Some ((22 :: lit "a.test") ++ [7], []) /\ delivered l = [5].
Proof. vm_compute. done. Qed.

Lemma sni_sample_fresh a r w : from_net sni_sample_net a r w -> sk_out w = [].
Proof. unfold from_net. cbn. intros H. apply elem_of_cons in H as [H|H]; [done|]. by apply list_elem_of_singleton in H as [= -> ->]. Qed.

(** A net that refuses: the read after that reports it, and the one after panics. *)
Definition sni_refusing_net : Net := mkNet (fun _ => [Ready (Err EConnectionReset)]).

Lemma sniffed_exact_witness :
  (let '(s, l) := sni_run sni_sample_net (sniffer_new sni_sample_addr) sni_sample_ops in
   match in_flight s with Some (sent, held) => sent ++ held = accepted l | None => True end) /\
  reported sni_refusing_net sni_sample_addr
    [(OpElapse, ANone); (OpRead 10, ARead Pending); (OpTask, ANone); (OpRead 10, ARead (Ready (Err EConnectionReset)))].
Proof.
  split.
  - pose proof (sniffed_exact sni_sample_net sni_sample_addr sni_sample_ops sni_sample_fresh) as H.
    destruct (sni_run sni_sample_net (sniffer_new sni_sample_addr) sni_sample_ops) as [s l].
    destruct H as [H _]. exact H.
  - assert (Hf : forall a r w, from_net sni_refusing_net a r w -> sk_out w = []).
    { intros a r w Hin. unfold from_net in Hin. cbn in Hin. apply list_elem_of_singleton in Hin. discriminate Hin. }
    pose proof (sniffed_exact sni_refusing_net sni_sample_addr [OpElapse; OpRead 10; OpTask; OpRead 10; OpRead 10] Hf) as H.
    assert (E : sni_run sni_refusing_net (sniffer_new sni_sample_addr) [OpElapse; OpRead 10; OpTask; OpRead 10; OpRead 10] =
      (ConnectFailed, [(OpElapse, ANone); (OpRead 10, ARead Pending); (OpTask, ANone);
        (OpRead 10, ARead (Ready (Err EConnectionReset))); (OpRead 10, APanic)])) by reflexivity.
    rewrite E in H. destruct H as (_ & _ & H). eapply H. reflexivity.
Defined.

(** A full buffer takes a write of nothing, where the code should wait: a
    relay whose client's first flight is longer than 1024 bytes, as [connect_tcp] reads
    8192 at once, ends with [WriteZero]. *)
Lemma sni_long_hello `{TlsParser} (net : Net) addr (d : bytes) : (BUFFER_SIZE < length d)%nat ->
  (sni_run net (sniffer_new addr) [OpWrite d; OpWrite (drop BUFFER_SIZE d)]).2 =
    [(OpWrite d, AWrite (Ready (Ok BUFFER_SIZE))); (OpWrite (drop BUFFER_SIZE d), AWrite (Ready (Ok 0%nat)))] /\
  forall flushes shutdowns, exists c w,
    write_out (length d) (mkCopy false false 0 d 0) (mkSnk [] [WOk BUFFER_SIZE; WOk 0] flushes shutdowns 0 false false) =
    Some (c, w, Ready (Err EWriteZero)).
Proof.
  intros Hd. split.
  - cbn [sni_run sni_step sni_poll_write sniffer_new]. unfold extend_buffer. cbn [length app].
    rewrite Nat.sub_0_r, Nat.min_r by lia. cbn [sni_poll_write]. unfold extend_buffer. replace (length (take BUFFER_SIZE d)) with BUFFER_SIZE by (rewrite length_take; lia).
    by rewrite Nat.sub_diag, Nat.min_0_r.
  - intros flushes shutdowns. assert (Hk : exists k, length d = S (S k)) by (exists (length d - 2)%nat; unfold BUFFER_SIZE in Hd; lia).
    destruct Hk as [k Hk]. rewrite Hk. cbn [write_out cb_pos cb_buf].
    assert (Ew : snk_write (mkSnk [] [WOk BUFFER_SIZE; WOk 0] flushes shutdowns 0 false false) (drop 0 d) =
      (mkSnk (take (S 1023) d) [WOk 0] flushes shutdowns 0 false false, Ready (Ok (S 1023)))).
    { unfold snk_write. cbn [sk_writes drop].
        rewrite drop_0, Nat.min_l by lia. reflexivity. }
    rewrite Ew. cbn [cb_pos cb_buf Nat.add].
    replace (0 <? length d)%nat with true by (by rewrite Hk).
    replace (S 1023 <? length d)%nat with true by (symmetry; apply Nat.ltb_lt; exact Hd). 
    by eexists _, _.
Qed.

(** Shutting down before the connection is made says it is done; the server
    never sees it. *)
Lemma sni_shutdown_lost `{TlsParser} addr b e :
  sni_step sni_sample_net (WaitingHandshake addr b e) OpShutdown = (WaitingHandshake addr b e, AUnit (Ready (Ok tt))).
Proof. done. Qed.

End Sni.
Export Sni.

Module DnsSniff.

(** What the code takes from [trust_dns_proto]: a message's queries, by name,
    and the data of its answers. *)
Inductive RData : Type := RA (ip : Z) | RAAAA (ip : Z) | RCNAME (name : bytes) | ROther.

Class DnsParser : Type := { message_read : bytes -> option (list bytes * list RData) }.

(** [trim_end_matches('.')]. *)
Fixpoint trim_start_dots (s : bytes) : bytes := match s with 46 :: s => trim_start_dots s | _ => s end.
Definition trim_end_dots (s : bytes) : bytes := reverse (trim_start_dots (reverse s)).

Section Lookup.
Context {C D : Type} `{DnsParser} `{LruCache IpAddr bytes C} `{LruCache bytes bytes D}.

(* src/rd-std/src/sniffer/service.rs:11-14 Inner *)
Record ReverseLookup : Type := mkLookup { records : C; cname_map : D }.

(* src/rd-std/src/sniffer/service.rs:22-35 ReverseLookup::new *)
Definition lookup_new : ReverseLookup := mkLookup (lru_new 128) (lru_new 128).

(* src/rd-std/src/sniffer/service.rs:49-63 ReverseLookup::record_packet (answer) *)
Definition record_rdata (domain : bytes) (l : ReverseLookup) (r : RData) : ReverseLookup :=
  match r with
  | RA a => mkLookup (lru_insert (records l) (V4 a) domain) (cname_map l)
  | RAAAA a => mkLookup (lru_insert (records l) (V6 a) domain) (cname_map l)
  | RCNAME c => mkLookup (records l) (lru_insert (cname_map l) (trim_end_dots c) domain)
  | ROther => l
  end.

(** What a packet has to say: the domain asked for and the answers. *)
(* src/rd-std/src/sniffer/service.rs:36-46 ReverseLookup::record_packet (message) *)
Definition read_packet (packet : bytes) : option (bytes * list RData) :=
  match message_read packet with
  | Some ([q], answers) => Some (trim_end_dots q, answers)
  | _ => None
  end.

(* src/rd-std/src/sniffer/service.rs:36-64 ReverseLookup::record_packet *)
Definition record_packet (l : ReverseLookup) (packet : bytes) : ReverseLookup :=
  match read_packet packet with
  | Some (domain, answers) => fold_left (record_rdata domain) answers l
  | None => l
  end.

(** [peek] gives what is held. *)
(* src/rd-std/src/sniffer/service.rs:69-76 ReverseLookup::reverse_lookup (loop) *)
Fixpoint follow (m : D) (limit : nat) (d : bytes) : bytes :=
  match held m d with
  | Some r => if bool_decide (r = d) then d else match limit with O => d | S limit => follow m limit r end
  | None => d
  end.

(* src/rd-std/src/sniffer/service.rs:65-81 ReverseLookup::reverse_lookup *)
Definition reverse_lookup (l : ReverseLookup) (addr : IpAddr) : ReverseLookup * option bytes :=
  match lru_get (records l) addr with
  | (c, Some d) => (mkLookup c (cname_map l), Some (follow (cname_map l) 16 d))
  | (c, None) => (mkLookup c (cname_map l), None)
  end.

(** The address the inner net connects to, and the context it gets. *)
(* src/rd-std/src/sniffer/dns_sniffer.rs:31-49 DNSSnifferNet::reverse_lookup *)
Definition net_reverse_lookup (l : ReverseLookup) (ctx : Context) (addr : Address) : ReverseLookup * Context * Address :=
  match addr with
  | ASocket sa =>
    match reverse_lookup l (sa_ip sa) with
    | (l, Some name) => (l, @insert_common _ DestDomain ctx (mkAddressDomain name (sa_port sa)), ADomain name (sa_port sa))
    | (l, None) => (l, ctx, addr)
    end
  | _ => (l, ctx, addr)
  end.

(* src/rd-std/src/sniffer/dns_sniffer.rs:54-61 DNSSnifferNet::tcp_connect *)
Definition dns_tcp_connect {A} (inner : Context -> Address -> Context * A) (l : ReverseLookup) (ctx : Context) (addr : Address)
    : ReverseLookup * (Context * A) :=
  let '(l, ctx, addr) := net_reverse_lookup l ctx addr in (l, inner ctx addr).

(* src/rd-std/src/sniffer/dns_sniffer.rs:98-111 MitmUdp::poll_recv_from *)
Definition mitm_poll_recv_from (cap : nat) (l : ReverseLookup) (r : list (uans SocketAddr))
    : ReverseLookup * list (uans SocketAddr) * poll (res (bytes * SocketAddr)) :=
  match udp_recv cap r with
  | (r, Ready (Ok (d, from))) => (if sa_port from =? 53 then record_packet l d else l, r, Ready (Ok (d, from)))
  | (r, p) => (l, r, p)
  end.

(* src/rd-std/src/sniffer/dns_sniffer.rs:113-120 MitmUdp::poll_send_to *)
Definition mitm_poll_send_to (w : UWr Address) (buf : bytes) (target : Address) : UWr Address * poll (res nat) :=
  udp_send w buf target.

(** ** What is recovered *)

(** What the net sees: datagrams on any of its sockets, and connections. *)
Inductive Event : Type := EvRecv (cap : nat) (d : bytes) (from : SocketAddr) | EvConnect (addr : Address).

Definition on_event (l : ReverseLookup) (e : Event) : ReverseLookup :=
  match e with
  | EvRecv cap d from => (mitm_poll_recv_from cap l [UData d from]).1.1
  | EvConnect addr => (net_reverse_lookup l ctx_new addr).1.1
  end.

(** The answers to DNS queries among them. *)
Definition answered (es : list Event) : list (bytes * RData) :=
  concat (map (fun e => match e with
    | EvRecv cap d from =>
      if sa_port from =? 53 then
        match read_packet (take cap d) with Some (q, l) => map (fun r => (q, r)) l | None => [] end
      else []
    | EvConnect _ => []
    end) es).

Definition is_addr (ip : IpAddr) (r : RData) : Prop :=
  match r with RA a => ip = V4 a | RAAAA a => ip = V6 a | _ => False end.

(** [d] is [q], or a name that was asked for and answered with an alias of
    it, in at most [n] steps. *)
Fixpoint alias_of (known : list (bytes * RData)) (n : nat) (q d : bytes) : Prop :=
  q = d \/ match n with
  | O => False
  | S n => exists r c, (r, RCNAME c) ∈ known /\ trim_end_dots c = q /\ alias_of known n r d
  end.

Definition linv (known : list (bytes * RData)) (l : ReverseLookup) : Prop :=
  (forall ip q, held (records l) ip = Some q -> exists r, (q, r) ∈ known /\ is_addr ip r) /\
  (forall c q, held (cname_map l) c = Some q -> exists c', (q, RCNAME c') ∈ known /\ trim_end_dots c' = c).

Lemma record_rdata_inv known q l r : linv known l -> linv (known ++ [(q, r)]) (record_rdata q l r).
Proof.
  intros [Hr Hc]. assert (Hm : linv (known ++ [(q, r)]) l).
  { split; [intros ip q' Hh; destruct (Hr _ _ Hh) as (r' & ? & ?); exists r'
           |intros c q' Hh; destruct (Hc _ _ Hh) as (c' & ? & ?); exists c']; (split; [set_solver|done]). }
  destruct Hm as [Hr' Hc']. destruct r as [a|a|c|]; (split; [|try exact Hc']); try exact Hr'; cbn.
  - intros ip q' Hh. apply lru_insert_keeps in Hh as [[-> ->]|[_ Hh]]; [|by apply Hr']. exists (RA a). split; [set_solver|done].
  - intros ip q' Hh. apply lru_insert_keeps in Hh as [[-> ->]|[_ Hh]]; [|by apply Hr']. exists (RAAAA a). split; [set_solver|done].
  - intros c' q' Hh. apply lru_insert_keeps in Hh as [[-> ->]|[_ Hh]]; [|by apply Hc']. exists c. split; [set_solver|done].
Qed.

Lemma record_answers_inv q answers : forall known l, linv known l ->
  linv (known ++ map (fun r => (q, r)) answers) (fold_left (record_rdata q) answers l).
Proof.
  induction answers as [|r answers IH]; intros known l Hl; cbn [map fold_left]; [by rewrite app_nil_r|].
  rewrite cons_middle, app_assoc. by apply IH, record_rdata_inv.
Qed.

Lemma reverse_lookup_inv known l ip : linv known l -> linv known (reverse_lookup l ip).1.
Proof.
  intros [Hr Hc]. unfold reverse_lookup. pose proof (lru_get_keeps (records l) ip) as Hk.
  destruct (lru_get (records l) ip) as [c [d|]]; (split; [|done]); cbn in *; intros ip' q Hh; by apply Hr, Hk.
Qed.

Lemma on_event_inv es e l : linv (answered es) l -> linv (answered (es ++ [e])) (on_event l e).
Proof.
  intros Hl. unfold answered. rewrite map_app, concat_app. cbn [map concat]. rewrite app_nil_r. destruct e as [cap d from|[sa|dm p]].
  - unfold on_event, mitm_poll_recv_from, udp_recv. destruct (sa_port from =? 53); cbn [fst]; [|by rewrite app_nil_r].
    unfold record_packet. destruct (read_packet (take cap d)) as [[q answers]|]; [by apply record_answers_inv|by rewrite app_nil_r].
  - rewrite app_nil_r. cbn. apply (reverse_lookup_inv _ _ (sa_ip sa)) in Hl. by destruct (reverse_lookup l (sa_ip sa)) as [l' [n|]].
  - by rewrite app_nil_r.
Qed.

Lemma follow_alias known l limit : forall d, linv known l -> alias_of known limit d (follow (cname_map l) limit d).
Proof.
  induction limit as [|limit IH]; intros d Hl; pose proof Hl as [_ Hc]; cbn [follow alias_of];
    (destruct (held (cname_map l) d) as [r|] eqn:E; [|by left]); (destruct (bool_decide (r = d)); [by left|]); [by left|].
  right. destruct (Hc _ _ E) as (c & Hin & Ht). exists r, c. split; [done|]. split; [done|]. by apply IH.
Qed.

End Lookup.

(** What a DNS sniffer makes of a connection, after any datagrams on its
    sockets and any connections.  Either the address and the context are left
    as they are, or the address is an IP one, an answer from port 53 to a
    query with one question gave that IP for a domain, and the connection is
    made, port kept, to that domain or to a name of which it is an alias, by at
    most 16 answers seen before, which is also what the context records.  And
    when such an answer, its last record an address, was the last thing seen,
    connecting to that address does go to a name. *)
Theorem dns_sniff_recovers `{DnsParser} {C D} `{LruCache IpAddr bytes C} `{LruCache bytes bytes D} es ctx addr :
  let l : ReverseLookup := fold_left on_event es lookup_new in
  let '(_, ctx', a') := net_reverse_lookup l ctx addr in
  (a' = addr /\ ctx' = ctx \/
   exists sa q r d, addr = ASocket sa /\ (q, r) ∈ answered es /\ is_addr (sa_ip sa) r /\ alias_of (answered es) 16 q d /\
     a' = ADomain d (sa_port sa) /\ ctx' = @insert_common _ DestDomain ctx (mkAddressDomain d (sa_port sa))) /\
  (forall es0 cap d from q answers r sa, es = es0 ++ [EvRecv cap d from] -> sa_port from = 53 ->
     read_packet (take cap d) = Some (q, answers ++ [r]) -> addr = ASocket sa -> is_addr (sa_ip sa) r ->
     exists name, a' = ADomain name (sa_port sa) /\ alias_of (answered es) 16 q name).
Proof.
  intros l. assert (Hl : linv (answered es) l).
  { unfold l. clear l addr ctx. induction es as [|e es IH] using rev_ind.
    - split; intros k q Hh; cbn in Hh; by rewrite lru_new_empty in Hh.
    - rewrite fold_left_app. by apply on_event_inv. }
  destruct addr as [sa|dm p]; cbn [net_reverse_lookup]; [|split; [by left|by intros]].
  unfold reverse_lookup. pose proof (lru_get_held (records l) (sa_ip sa)) as Hg.
  destruct (lru_get (records l) (sa_ip sa)) as [c o] eqn:Eg. cbn in Hg. subst o.
  assert (Hlast : forall es0 cap d from q answers r sa', es = es0 ++ [EvRecv cap d from] -> sa_port from = 53 ->
     read_packet (take cap d) = Some (q, answers ++ [r]) -> ASocket sa = ASocket sa' -> is_addr (sa_ip sa') r ->
     sa' = sa /\ held (records l) (sa_ip sa) = Some q).
  { intros es0 cap d from q answers r sa' -> Hp Hr [= <-] Ha. split; [done|]. unfold l. rewrite fold_left_app. cbn [fold_left].
    unfold on_event, mitm_poll_recv_from, udp_recv. rewrite Hp. cbn [Z.eqb Pos.eqb fst].
    unfold record_packet. rewrite Hr, fold_left_app. cbn [fold_left].
    destruct r as [a|a|c'|]; cbn in Ha |- *; [rewrite Ha; apply lru_insert_held .. | done | done]. }
  destruct (held (records l) (sa_ip sa)) as [q|] eqn:Eh.
  - pose proof Hl as [Hr _]. destruct (Hr _ _ Eh) as (r & Hin & Ha). split.
    + right. exists sa, q, r, (follow (cname_map l) 16 q). split_and!; try done. by apply follow_alias.
    + intros es0 cap d from q' answers r' sa' H1' H2' H3' H4' H5'. destruct (Hlast _ _ _ _ _ _ _ _ H1' H2' H3' H4' H5') as [-> [= <-]].
      eexists. split; [done|]. by apply follow_alias.
  - split; [by left|]. intros es0 cap d from q' answers r' sa' H1' H2' H3' H4' H5'.
    by destruct (Hlast _ _ _ _ _ _ _ _ H1' H2' H3' H4' H5') as [_ ?].
Qed.

(** A parser of one message: an address for an alias of the name asked for. *)
#[local] Instance sample_dns : DnsParser := {|
  message_read b := match b with [1] => Some ([lit "a.test."], [RCNAME (lit "b.test."); RA 16909060]) | _ => None end |}.
#[local] Instance sample_records : LruCache IpAddr bytes (list (IpAddr * bytes)) := bounded_cache.
#[local] Instance sample_cnames : LruCache bytes bytes (list (bytes * bytes)) := bounded_cache.

Definition dns_sample : list Event :=
  [EvConnect (ASocket (mkSocketAddr (V4 16909060) 443)); EvRecv 512 [1] (mkSocketAddr (V4 1) 53)].

Example dns_sniff_recovers_witness :
  exists name, (net_reverse_lookup (fold_left on_event dns_sample (lookup_new : ReverseLookup)) ctx_new
    (ASocket (mkSocketAddr (V4 16909060) 443))).2 = ADomain name 443.
Proof.
  pose proof (dns_sniff_recovers dns_sample ctx_new (ASocket (mkSocketAddr (V4 16909060) 443))) as H.
  cbv zeta in H. destruct (net_reverse_lookup _ _ _) as [[l ctx'] a']. destruct H as [_ H].
  destruct (H [EvConnect (ASocket (mkSocketAddr (V4 16909060) 443))] 512%nat [1] (mkSocketAddr (V4 1) 53) (lit "a.test")
    [RCNAME (lit "b.test.")] (RA 16909060) (mkSocketAddr (V4 16909060) 443)) as (name & E & _);
    [reflexivity .. |]. exists name. exact E.
Defined.

End DnsSniff.
Export DnsSniff.
