(* ===== verification/Obfs.v ===== *)
(** * Obfuscation: [protocol/obfs/src/http_simple.rs], [plain.rs], [lib.rs], [obfs_net.rs]

    A stream dressed up as an HTTP request and its response: the first write
    goes out in the body of a request, and what is read begins after the
    header of the response.  The polls loop; a loop out of fuel, [None], has
    not answered. *)

From S2P Require Import Prelude Io Address Relay.

Module Obfs.

(* src/protocol/obfs/src/http_simple.rs:29-35 HttpSimple *)
Record HttpSimple : Type := mkHttp { hs_method : bytes; hs_uri : bytes; hs_host : bytes }.

(* src/protocol/obfs/src/http_simple.rs:52-56 WriteState *)
Inductive WriteState : Type := WWait | WWrite (buf : bytes) (pos : nat) | WDone.

(** [Read] is the buffer of 8192 bytes, zeros where nothing was read. *)
(* src/protocol/obfs/src/http_simple.rs:58-62 ReadState *)
Inductive ReadState : Type := RRead (read_buf : bytes) (pos : nat) | RWrite (write_buf : bytes) (pos : nat) | RDone.

(* src/protocol/obfs/src/http_simple.rs:65-70 Connect *)
Record Connect : Type := mkConnect { c_r : Src; c_w : Snk; c_write : WriteState; c_read : ReadState; c_param : HttpSimple }.

Definition READ_SIZE : nat := 8 * 1024.

(* src/protocol/obfs/src/http_simple.rs:74-81 Connect::new *)
Definition connect_new (r : Src) (w : Snk) (param : HttpSimple) : Connect :=
  mkConnect r w WWait (RRead (repeat 0 READ_SIZE) 0) param.

Definition crlf : bytes := [13; 10].

(** The first window that is the pattern. *)
(* src/protocol/obfs/src/http_simple.rs:184-189 find_subsequence_end *)
Fixpoint find_subsequence_end (array pattern : bytes) : option nat :=
  match array with
  | [] => None
  | _ :: t => if starts_with pattern array then Some (length pattern) else S <$> find_subsequence_end t pattern
  end.

Definition header_end : bytes := crlf ++ crlf.

(** The request's header; the version and the key are random, the key in
    Base64. *)
(* src/protocol/obfs/src/http_simple.rs:140-153 Connect::poll_write (header) *)
Definition request_header (p : HttpSimple) (major minor : Z) (key : bytes) (len : nat) : bytes :=
  hs_method p ++ lit " " ++ hs_uri p ++ lit " HTTP/1.1" ++ crlf ++
  lit "Host: " ++ hs_host p ++ crlf ++
  lit "User-Agent: curl/7." ++ show_uint (major mod 51) ++ lit "." ++ show_uint (minor mod 2) ++ crlf ++
  lit "Upgrade: websocket" ++ crlf ++
  lit "Connection: Upgrade" ++ crlf ++
  lit "Sec-WebSocket-Key: " ++ key ++ crlf ++
  lit "Content-Length: " ++ show_uint (Z.of_nat len) ++ crlf ++ crlf.

Definition set_r (c : Connect) (r : Src) (s : ReadState) : Connect := mkConnect r (c_w c) (c_write c) s (c_param c).
Definition set_w (c : Connect) (w : Snk) (s : WriteState) : Connect := mkConnect (c_r c) w s (c_read c) (c_param c).

(* src/protocol/obfs/src/http_simple.rs:94-128 Connect::poll_read *)
Fixpoint obfs_poll_read (fuel : nat) (c : Connect) (cap : nat) : option (Connect * poll (res bytes)) :=
  match fuel with
  | O => None
  | S fuel =>
    match c_read c with
    | RRead read_buf pos =>
      match src_read (length read_buf - pos) (c_r c) with
      | (r, Pending) => Some (set_r c r (c_read c), Pending)
      | (r, Ready (Err e)) => Some (set_r c r (c_read c), Ready (Err e))
      | (r, Ready (Ok d)) =>
        let read_buf := take pos read_buf ++ d ++ drop (pos + length d) read_buf in
        let pos := (pos + length d)%nat in
        match find_subsequence_end read_buf header_end with
        | Some at_ => obfs_poll_read fuel (set_r c r (RWrite (drop at_ (take pos read_buf)) 0)) cap
        | None => obfs_poll_read fuel (set_r c r (RRead read_buf pos)) cap
        end
      end
    | RWrite write_buf pos =>
      let remaining := drop pos write_buf in
      let to_read := Nat.min (length remaining) cap in
      let pos := (pos + to_read)%nat in
      Some (set_r c (c_r c) (if (length write_buf =? pos)%nat then RDone else RWrite write_buf pos),
        Ready (Ok (take to_read remaining)))
    | RDone => let '(r, p) := src_read cap (c_r c) in Some (set_r c r RDone, p)
    end
  end.

(* src/protocol/obfs/src/http_simple.rs:129-173 Connect::poll_write *)
Fixpoint obfs_poll_write (fuel : nat) (major minor : Z) (key : bytes) (c : Connect) (buf : bytes)
    : option (Connect * poll (res nat)) :=
  match fuel with
  | O => None
  | S fuel =>
    match c_write c with
    | WWait =>
      obfs_poll_write fuel major minor key
        (set_w c (c_w c) (WWrite (request_header (c_param c) major minor key (length buf) ++ buf) 0)) buf
    | WWrite b pos =>
      match snk_write (c_w c) (drop pos b) with
      | (w, Pending) => Some (set_w c w (c_write c), Pending)
      | (w, Ready (Err e)) => Some (set_w c w (c_write c), Ready (Err e))
      | (w, Ready (Ok wrote)) =>
        let pos := (pos + wrote)%nat in
        obfs_poll_write fuel major minor key (set_w c w (if (length b =? pos)%nat then WDone else WWrite b pos)) buf
      end
    | WDone => let '(w, p) := snk_write (c_w c) buf in Some (set_w c w WDone, p)
    end
  end.

(* src/protocol/obfs/src/http_simple.rs:175-177 Connect::poll_flush *)
Definition obfs_poll_flush (c : Connect) : Connect * poll (res unit) :=
  let '(w, p) := snk_flush (c_w c) in (set_w c w (c_write c), p).

(* src/protocol/obfs/src/http_simple.rs:179-181 Connect::poll_shutdown *)
Definition obfs_poll_shutdown (c : Connect) : Connect * poll (res unit) :=
  let '(w, p) := snk_shutdown (c_w c) in (set_w c w (c_write c), p).

(** ** The net *)

(* src/protocol/obfs/src/lib.rs:39-42 ObfsType *)
Inductive ObfsType : Type := Http (h : HttpSimple) | Plain.

Inductive ObfsStream : Type := HttpStream (c : Connect) | PlainStream (r : Src) (w : Snk).

(* src/protocol/obfs/src/lib.rs:45-50 Obfs::tcp_connect *)
Definition obfs_tcp_connect (o : ObfsType) (tcp : Src * Snk) : res ObfsStream :=
  match o with
  | Http h => Ok (HttpStream (connect_new tcp.1 tcp.2 h))
  | Plain => Ok (PlainStream tcp.1 tcp.2)
  end.

(* src/protocol/obfs/src/lib.rs:52-57 Obfs::tcp_accept *)
Definition obfs_tcp_accept (o : ObfsType) (tcp : Src * Snk) : res ObfsStream :=
  match o with
  | Http _ => Err ENotImplemented
  | Plain => Ok (PlainStream tcp.1 tcp.2)
  end.

(* src/protocol/obfs/src/obfs_net.rs:36-39 ObfsNet::tcp_connect *)
Definition net_tcp_connect (net_connect : Address -> res (Src * Snk)) (o : ObfsType) (addr : Address) : res ObfsStream :=
  match net_connect addr with Ok tcp => obfs_tcp_connect o tcp | Err e => Err e end.

(* src/protocol/obfs/src/obfs_net.rs:64-67 ObfsTcpListener::accept *)
Definition listener_accept (inner : res (Src * Snk * Std.SocketAddr)) (o : ObfsType) : res (ObfsStream * Std.SocketAddr) :=
  match inner with
  | Ok (tcp, addr) => match obfs_tcp_accept o tcp with Ok s => Ok (s, addr) | Err e => Err e end
  | Err e => Err e
  end.

(** ** Reading *)

(** Reads one after the other. *)
Fixpoint obfs_reads (c : Connect) (caps : list nat) : option (Connect * list (poll (res bytes))) :=
  match caps with
  | [] => Some (c, [])
  | cap :: caps =>
    match obfs_poll_read (4 + answers (src_r (c_r c))) c cap with
    | None => None
    | Some (c, p) => match obfs_reads c caps with None => None | Some (c, l) => Some (c, p :: l) end
    end
  end.

Fixpoint read_data (l : list (poll (res bytes))) : bytes :=
  match l with [] => [] | Ready (Ok d) :: l => d ++ read_data l | _ :: l => read_data l end.

Lemma strip_prefix_app p : forall s t r, strip_prefix p s = Some r -> strip_prefix p (s ++ t) = Some (r ++ t).
Proof.
  induction p as [|x p IH]; intros [|y s] t r; cbn; try (by intros [= <-]); try done.
  destruct (x =? y); [apply IH|done].
Qed.

(** What is added after a string matters to a prefix of it only if the prefix
    is longer, and zeros do not matter at all. *)
Lemma strip_prefix_cut p t : forall s r, strip_prefix p (s ++ t) = Some r ->
  (length p <= length s)%nat \/ (0 ∉ p /\ exists n, t = repeat 0 n) -> exists r', strip_prefix p s = Some r'.
Proof.
  induction p as [|x p IH]; intros s r; [intros _ _; exists s; by destruct s|]. destruct s as [|y s]; cbn.
  - intros E [Hl|[Hz [n ->]]]; [lia|]. destruct n as [|n]; [done|]. cbn in E.
    destruct (x =? 0) eqn:E0; [|done]. bools. subst. rewrite not_elem_of_cons in Hz. by destruct Hz.
  - destruct (x =? y); [|done]. intros E [Hl|[Hz Ht]]; (apply (IH s r E)); [left; lia|right].
    rewrite not_elem_of_cons in Hz. by destruct Hz.
Qed.

Lemma strip_prefix_length p : forall s r, strip_prefix p s = Some r -> (length p <= length s)%nat.
Proof.
  induction p as [|x p IH]; intros [|y s] r; cbn; try lia; try done. destruct (x =? y); [|done]. intros E.
  apply IH in E. lia.
Qed.

Lemma find_bound p s : forall k, find_subsequence_end s p = Some k -> (length p <= k <= length s)%nat.
Proof.
  induction s as [|x s IH]; intros k; cbn [find_subsequence_end]; [done|]. unfold starts_with.
  destruct (strip_prefix p (x :: s)) as [r|] eqn:E; [intros [= <-]; apply strip_prefix_length in E; lia|].
  destruct (find_subsequence_end s p) as [j|]; [|done]. intros [= <-]. specialize (IH j eq_refl). cbn. lia.
Qed.

Lemma find_app p s t : forall k, find_subsequence_end s p = Some k -> find_subsequence_end (s ++ t) p = Some k.
Proof.
  induction s as [|x s IH]; intros k; cbn [find_subsequence_end app]; [done|]. unfold starts_with.
  destruct (strip_prefix p (x :: s)) as [r|] eqn:E.
  - change (x :: s ++ t) with ((x :: s) ++ t). by rewrite (strip_prefix_app _ _ _ _ E).
  - destruct (find_subsequence_end s p) as [j|] eqn:Ej; [|done]. intros [= <-]. rewrite (IH j eq_refl).
    destruct (strip_prefix p (x :: s ++ t)) as [r|] eqn:E2; [|done]. exfalso.
    apply (strip_prefix_cut p t (x :: s)) in E2 as [r' E2]; [by rewrite E in E2|]. left. apply find_bound in Ej. cbn. lia.
Qed.

Lemma find_zeros p s n : p <> [] -> 0 ∉ p -> find_subsequence_end (s ++ repeat 0 n) p = find_subsequence_end s p.
Proof.
  intros Hp Hz. induction s as [|x s IH].
  - induction n as [|n IHn]; [done|]. cbn in *. rewrite IHn. destruct p as [|y p]; [done|]. unfold starts_with. cbn.
    destruct (y =? 0) eqn:E; [|done]. bools. subst. rewrite not_elem_of_cons in Hz. by destruct Hz.
  - cbn [find_subsequence_end app]. rewrite IH. unfold starts_with.
    destruct (strip_prefix p (x :: s)) as [r|] eqn:E.
    + change (x :: s ++ repeat 0 n) with ((x :: s) ++ repeat 0 n). by rewrite (strip_prefix_app _ _ _ _ E).
    + destruct (strip_prefix p (x :: s ++ repeat 0 n)) as [r|] eqn:E2; [|done]. exfalso.
      apply (strip_prefix_cut p (repeat 0 n) (x :: s)) in E2 as [r' E2]; [by rewrite E in E2|]. right. eauto.
Qed.

(** The header is what comes before and with the first empty line. *)
Definition is_header (h : bytes) : Prop := find_subsequence_end h header_end = Some (length h).

(** No answer of the reader is empty. *)
Definition never_empty (r : list rans) : Prop := Forall (fun a => a <> RData []) r.

Definition buffer (f : bytes) : bytes := f ++ repeat 0 (READ_SIZE - length f).

Definition rinv (hdr body : bytes) (c : Connect) (read : bytes) : Prop :=
  never_empty (src_r (c_r c)) /\
  match c_read c with
  | RRead b pos => exists f, b = buffer f /\ pos = length f /\ (length f < length hdr)%nat /\
      f ++ r_bytes (src_r (c_r c)) = hdr ++ body /\ read = []
  | RWrite b pos => (pos <= length b)%nat /\ read ++ drop pos b ++ r_bytes (src_r (c_r c)) = body
  | RDone => read ++ r_bytes (src_r (c_r c)) = body
  end.

(** One answer of a reader that is never empty. *)
Lemma src_read_never_empty cap r r' p : (0 < cap)%nat -> never_empty (src_r r) -> src_read cap r = (r', p) ->
  never_empty (src_r r') /\
  match p with
  | Ready (Ok d) => d <> [] /\ (length d <= cap)%nat /\ r_bytes (src_r r) = d ++ r_bytes (src_r r') /\
      (answers (src_r r') < answers (src_r r))%nat
  | Pending => r_bytes (src_r r) = r_bytes (src_r r') /\ src_wait r' = true
  | Ready (Err _) => r_bytes (src_r r) = r_bytes (src_r r')
  end.
Proof.
  intros Hc Hr. unfold src_read, inner_read, answers.
  destruct (src_r r) as [|[|e|d] l]; cbn; try (intros [= <- <-]; by inversion Hr).
  inversion Hr as [|? ? Hd Hl]; subst. assert (Hd' : d <> []) by congruence.
  destruct (length d <=? cap)%nat eqn:E; intros [= <- <-]; bools; cbn.
  - split; [done|]. split_and!; [done|lia|done|]. rewrite length_app. destruct d; [done|cbn; lia].
  - split.
    + constructor; [|done]. intros [= E']. apply (f_equal length) in E'. revert E'. len.
    + split_and!; [intros E'; apply (f_equal length) in E'; revert E'; len|len|by rewrite app_assoc, take_drop|].
      rewrite !length_app. len.
Qed.

Lemma read_into f d : (length f + length d <= READ_SIZE)%nat ->
  take (length f) (buffer f) ++ d ++ drop (length f + length d) (buffer f) = buffer (f ++ d).
Proof.
  intros Hl. unfold buffer. rewrite take_app_length, <- app_assoc. f_equal. f_equal.
  rewrite drop_app, drop_ge by lia. cbn [app]. replace (length f + length d - length f)%nat with (length d) by lia.
  rewrite length_app. remember (READ_SIZE - length f)%nat as n eqn:En.
  replace n with (length d + (READ_SIZE - (length f + length d)))%nat by lia.
  rewrite repeat_app. rewrite drop_app_length' by (by rewrite repeat_length). f_equal.
Qed.

Definition got (p : poll (res bytes)) : bytes := match p with Ready (Ok d) => d | _ => [] end.

Section Reading.
Context (hdr body : bytes) (Hhdr : is_header hdr) (Hsize : (length hdr <= READ_SIZE)%nat).

(** A header is found in what was read exactly when all of it was. *)
Lemma find_in f rest : f ++ rest = hdr ++ body ->
  find_subsequence_end (buffer f) header_end = if (length f <? length hdr)%nat then None else Some (length hdr).
Proof.
  intros E. unfold buffer. rewrite find_zeros; [|done|unfold header_end, crlf; set_solver].
  destruct (length f <? length hdr)%nat eqn:El; bools; apply app_eq_app in E as (m & [[-> E] | [Eh E]]).
  - rewrite length_app in El. lia.
  - destruct (find_subsequence_end f header_end) as [k|] eqn:Ek; [|done]. pose proof (find_bound _ _ _ Ek) as Hk.
    apply (find_app _ _ m) in Ek. rewrite <- Eh, Hhdr in Ek. injection Ek as <-. lia.
  - by apply find_app.
  - assert (m = []) as -> by (apply (f_equal length) in Eh; rewrite length_app in Eh; destruct m; [done|cbn in Eh; lia]).
    rewrite app_nil_r in Eh. by rewrite <- Eh.
Qed.

Lemma obfs_poll_read_spec cap : (0 < cap)%nat -> forall fuel c read, rinv hdr body c read ->
  (match c_read c with RRead _ _ => 1 + answers (src_r (c_r c)) | _ => 0 end < fuel)%nat ->
  exists c' p, obfs_poll_read fuel c cap = Some (c', p) /\ rinv hdr body c' (read ++ got p) /\
    (p = Pending -> src_wait (c_r c') = true).
Proof.
  intros Hcap fuel. induction fuel as [|fuel IH]; intros c read Hi Hf; [lia|]. cbn [obfs_poll_read].
  destruct Hi as [Hne Hi]. destruct (c_read c) as [b pos|b pos|] eqn:Ec.
  - destruct Hi as (f & -> & -> & Hlt & Hb & ->).
    assert (Hlb : length (buffer f) = READ_SIZE) by (unfold buffer; rewrite length_app, repeat_length; lia). rewrite Hlb.
    destruct (src_read (READ_SIZE - length f) (c_r c)) as [r p] eqn:Er.
    apply src_read_never_empty in Er as [Hne' Hp]; [|lia|done]. destruct p as [|[d|e]].
    + destruct Hp as [Hp Hw]. eexists _, _. split; [done|]. split; [|done]. split; [done|]. cbn. exists f. rewrite <- Hp. done.
    + destruct Hp as (Hd & Hl & Hp & Ha). rewrite read_into by lia.
      assert (E : (f ++ d) ++ r_bytes (src_r r) = hdr ++ body) by (by rewrite <- app_assoc, <- Hp).
      rewrite (find_in _ _ E). destruct (length (f ++ d) <? length hdr)%nat eqn:El; bools; rewrite length_app in El.
      * apply IH; [|cbn in *; lia]. split; [done|]. cbn. exists (f ++ d). by rewrite length_app.
      * apply IH; [|cbn in *; lia]. split; [done|]. cbn [c_read set_r c_r]. split; [lia|]. cbn [app].
        unfold buffer. rewrite take_app_length' by (rewrite length_app; lia).
        assert (Hh : take (length hdr) ((f ++ d) ++ r_bytes (src_r r)) = hdr) by (by rewrite E, take_app_length).
        assert (Hd' : drop (length hdr) ((f ++ d) ++ r_bytes (src_r r)) = body) by (by rewrite E, drop_app_length).
        rewrite drop_0. rewrite drop_app_le in Hd' by (rewrite length_app; lia). done.
    + eexists _, _. split; [done|]. split; [|done]. split; [done|]. cbn. exists f. rewrite <- Hp. done.
  - destruct Hi as [Hpos Hb]. eexists _, _. split; [done|]. split; [|done]. split; [done|]. cbn [c_read set_r c_r got].
    rewrite length_drop. set (n := Nat.min (length b - pos) cap).
    assert (Hd' : read ++ drop pos b = read ++ take n (drop pos b) ++ drop (pos + n) b)
      by (by rewrite <- drop_drop, take_drop).
    destruct (length b =? pos + n)%nat eqn:E; bools.
    + rewrite <- Hb, (app_assoc read), Hd', (drop_ge b (pos + n)), app_nil_r by lia. by rewrite <- !app_assoc.
    + split; [lia|]. rewrite <- Hb, (app_assoc read (drop pos b)), Hd'. by rewrite <- !app_assoc.
  - destruct (src_read cap (c_r c)) as [r p] eqn:Er. apply src_read_never_empty in Er as [Hne' Hp]; [|done..].
    eexists _, _. split; [done|]. destruct p as [|[d|e]]; (split; [|try done]).
    + split; [done|]. cbn. rewrite app_nil_r. destruct Hp as [<- _]. done.
    + by destruct Hp as [_ ?].
    + split; [done|]. cbn. destruct Hp as (_ & _ & Hp & _). by rewrite <- app_assoc, <- Hp.
    + split; [done|]. cbn. rewrite app_nil_r. by rewrite <- Hp.
Qed.

End Reading.

Lemma obfs_reads_nil c caps c' : obfs_reads c caps = Some (c', []) -> caps = [] /\ c' = c.
Proof.
  destruct caps as [|cap caps]; cbn [obfs_reads]; [by intros [= ->]|].
  destruct (obfs_poll_read _ c cap) as [[c1 p]|]; [|done]. by destruct (obfs_reads c1 caps) as [[c2 l]|].
Qed.

(** Reading through the obfuscation: if the server answers with a header of
    at most 8192 bytes, up to its first empty line, and then [body], cut
    into reads in any way (a read may hold the end of the header and the
    start of the body) and with any waits and errors in between, then every read answers, and
    what the reads give is a prefix of [body], the rest of which is still to come.  A
    read only waits when the server does. *)
Theorem obfs_read_exact (hdr body : bytes) r w h caps :
  is_header hdr -> (length hdr <= READ_SIZE)%nat -> never_empty r -> r_bytes r = hdr ++ body -> Forall (fun n => 0 < n)%nat caps ->
  exists c l, obfs_reads (connect_new (mkSrc r false) w h) caps = Some (c, l) /\
    (exists rest, read_data l ++ rest = body /\ (c_read c = RDone -> rest = r_bytes (src_r (c_r c)))) /\
    (last l = Some Pending -> src_wait (c_r c) = true).
Proof.
  intros Hh Hs Hne Hr Hcaps.
  assert (Hg : forall c read, rinv hdr body c read -> exists c' l, obfs_reads c caps = Some (c', l) /\
    rinv hdr body c' (read ++ read_data l) /\ (last l = Some Pending -> src_wait (c_r c') = true)).
  { clear Hr Hne. induction Hcaps as [|cap caps Hcap Hcaps IH]; intros c read Hi; cbn [obfs_reads].
    - exists c, []. cbn. by rewrite app_nil_r.
    - destruct (obfs_poll_read_spec hdr body Hh Hs cap Hcap (4 + answers (src_r (c_r c))) c read Hi) as (c1 & p & E & Hi1 & Hp).
      { destruct (c_read c); lia. }
      rewrite E. destruct (IH c1 _ Hi1) as (c2 & l & E2 & Hi2 & Hl). rewrite E2. exists c2, (p :: l). split; [done|].
      split; [by destruct p as [|[|]]; cbn in *; rewrite <- app_assoc in Hi2|].
      destruct l as [|p' l]; [|done]. intros [= ->]. apply obfs_reads_nil in E2 as [_ ->]. by apply Hp. }
  destruct (Hg (connect_new (mkSrc r false) w h) []) as (c & l & E & [_ Hi] & Hl).
  { split; [done|]. cbn [connect_new c_read c_r]. exists []. unfold buffer. cbn [app length]. rewrite Nat.sub_0_r.
    split_and!; try done. apply find_bound in Hh. cbn in *. lia. }
  exists c, l. split; [done|]. split; [|done]. cbn [app] in Hi. destruct (c_read c) as [b pos|b pos|].
  - destruct Hi as (f & _ & _ & _ & _ & ->). by exists body.
  - destruct Hi as [_ Hi]. by eexists.
  - exists (r_bytes (src_r (c_r c))). by split.
Qed.

Definition obfs_sample_header : bytes := lit "HTTP/1.1 101" ++ crlf ++ lit "X: y" ++ header_end.
Definition obfs_sample : list rans :=
  [RPending; RData (take 5 obfs_sample_header); RData (drop 5 obfs_sample_header ++ [1; 2; 3]); RData [4]].
Definition obfs_param : HttpSimple := mkHttp (lit "GET") (lit "/") (lit "a.test").

Example obfs_read_exact_witness :
  exists c l, obfs_reads (connect_new (mkSrc obfs_sample false) (mkSnk [] [] [] [] 0 false false) obfs_param) [10; 2; 2; 2; 2]%nat = Some (c, l) /\
    (exists rest, read_data l ++ rest = [1; 2; 3; 4] /\ (c_read c = RDone -> rest = r_bytes (src_r (c_r c)))).
Proof.
  destruct (obfs_read_exact obfs_sample_header [1; 2; 3; 4] obfs_sample (mkSnk [] [] [] [] 0 false false) obfs_param [10; 2; 2; 2; 2]%nat)
    as (c & l & E & H & _).
  - vm_compute. reflexivity.
  - apply Nat.leb_le. vm_compute. reflexivity.
  - repeat constructor; intros E; vm_compute in E; discriminate E.
  - reflexivity.
  - repeat constructor.
  - exists c, l. split; [exact E | exact H].
Defined.

(** A read that ends with the header makes the next answer empty, though more
    follows: the reader takes it for the end of the stream. *)
Lemma obfs_header_alone : exists c,
  obfs_poll_read 20 (connect_new (mkSrc [RData obfs_sample_header; RData [1; 2; 3]] false) (mkSnk [] [] [] [] 0 false false) obfs_param) 10 =
    Some (c, Ready (Ok [])) /\ src_r (c_r c) = [RData [1; 2; 3]].
Proof. eexists. vm_compute. done. Qed.

(** The end of the stream before the header's is not seen: every empty read
    is followed by another, until there is none. *)
Lemma obfs_early_end h w n : forall fuel b pos, (n < fuel)%nat -> find_subsequence_end b header_end = None ->
  exists c, obfs_poll_read fuel (mkConnect (mkSrc (repeat (RData []) n) false) w WWait (RRead b pos) h) 10 = Some (c, Pending) /\ src_r (c_r c) = [].
Proof.
  induction n as [|n IH]; intros [|fuel] b pos Hf Hb; try lia; cbn [obfs_poll_read c_read c_r repeat].
  - by eexists.
  - unfold src_read, inner_read. cbn [src_r length Nat.leb pending_read]. rewrite Nat.add_0_r. cbn [app].
    rewrite take_drop, Hb. apply IH; [lia|done].
Qed.

(** A header longer than the buffer: the reads have no room, and there is no
    end to them. *)
Lemma obfs_long_header h w l x d b fuel : find_subsequence_end b header_end = None -> forall wt,
  obfs_poll_read fuel (mkConnect (mkSrc (RData (x :: d) :: l) wt) w WWait (RRead b (length b)) h) 10 = None.
Proof.
  intros Hb. induction fuel as [|fuel IH]; intros wt; [done|]. cbn [obfs_poll_read c_read c_r].
  unfold src_read, inner_read. rewrite Nat.sub_diag. cbn [src_r length Nat.leb pending_read take drop app]. rewrite Nat.add_0_r.
  rewrite take_drop, Hb. apply IH.
Qed.

(** The first write goes out twice: in the body of the request, and again
    once the request is written, as the loop goes on. *)
Lemma obfs_first_write_twice r h major minor key d : d <> [] -> exists c,
  obfs_poll_write 4 major minor key
    (connect_new r (mkSnk [] [WOk (length (request_header h major minor key (length d) ++ d)); WOk (length d)] [] [] 0 false false) h) d =
    Some (c, Ready (Ok (length d))) /\
  sk_out (c_w c) = request_header h major minor key (length d) ++ d ++ d.
Proof.
  intros Hd. set (b := request_header h major minor key (length d) ++ d).
  cbn [obfs_poll_write connect_new c_write set_w c_w c_param drop]. fold b.
  unfold snk_write at 1. cbn [sk_writes sk_out sk_flushes sk_shutdowns sk_flushed sk_closed].
  rewrite Nat.min_id, firstn_all. cbn [app Nat.add]. rewrite Nat.eqb_refl. cbn [c_write set_w c_w].
  unfold snk_write. cbn [sk_writes sk_out]. rewrite Nat.min_id, firstn_all. eexists. split; [done|].
  cbn [c_w set_w sk_out]. cbn [sk_out].
  unfold b. by rewrite drop_0, <- app_assoc.
Qed.

End Obfs.
Export Obfs.
