(* ===== verification/Storage.v ===== *)
(** * Storage: [src/src/storage.rs], [storage/memory.rs], [storage/file.rs]

    The key-value storages of the application, in memory and in a folder with
    an index file, behind one interface.  The folder's calls may fail: what
    they meet is an argument of each operation, [Io]. *)

From S2P Require Import Prelude.

Module Storage.

(* src/src/storage.rs:16-19 StorageItem *)
Record StorageItem : Type := mkItem { updated_at : Z; content : bytes }.

(** What its clients rely on: [st_ok] is the storage in good order. *)
(* src/src/storage.rs:28-35 Storage *)
Class Storage (S : Type) : Type := {
  st_ok : S -> Prop;
  st_get_updated_at : S -> bytes -> res (option Z);
  st_get : S -> bytes -> res (option StorageItem);
  st_set : Z -> S -> bytes -> bytes -> S * res unit;
  st_remove : S -> bytes -> S * res unit;
  st_keys : S -> res (gmap bytes Z);
  st_clear : S -> S * res unit;
  st_get_ok : forall s k, st_ok s -> exists o, st_get s k = Ok o;
  st_time_ok : forall s k, st_ok s -> st_get_updated_at s k = (fun o => option_map updated_at o) <$> st_get s k;
  st_set_ok : forall now s k v s' r, st_ok s -> v <> [] -> st_set now s k v = (s', r) ->
    r = Ok tt /\ st_ok s' /\ st_get s' k = Ok (Some (mkItem now v)) /\ (forall k', k' <> k -> st_get s' k' = st_get s k');
  st_remove_ok : forall s k s' r, st_ok s -> st_remove s k = (s', r) ->
    r = Ok tt /\ st_ok s' /\ st_get s' k = Ok None /\ (forall k', k' <> k -> st_get s' k' = st_get s k');
  st_keys_ok : forall s, st_ok s -> exists m, st_keys s = Ok m /\ forall k, st_get_updated_at s k = Ok (m !! k);
  st_clear_ok : forall s s' r, st_ok s -> st_clear s = (s', r) -> r = Ok tt /\ st_ok s' /\ forall k, st_get s' k = Ok None }.

(** ** In memory *)

(* src/src/storage/memory.rs:8-10 MemoryCache *)
Definition MemoryCache : Type := gmap bytes StorageItem.

(* src/src/storage/memory.rs:14-18 MemoryCache::new *)
Definition memory_new : MemoryCache := ∅.

(* src/src/storage/memory.rs:27-29 MemoryCache::get *)
Definition memory_get (s : MemoryCache) (k : bytes) : option StorageItem := s !! k.

(* src/src/storage/memory.rs:31-40 MemoryCache::set *)
Definition memory_set (now : Z) (s : MemoryCache) (k v : bytes) : MemoryCache := <[k := mkItem now v]> s.

(* src/src/storage/memory.rs:42-52 MemoryCache::keys *)
Definition memory_keys (s : MemoryCache) : gmap bytes Z := updated_at <$> s.

(* src/src/storage/memory.rs:54-57 MemoryCache::remove *)
Definition memory_remove (s : MemoryCache) (k : bytes) : MemoryCache := delete k s.

#[export] Instance memory_storage : Storage MemoryCache.
Proof.
  refine {|
    st_ok := fun _ => True;
    st_get_updated_at := fun s k => Ok (option_map updated_at (memory_get s k));
    st_get := fun s k => Ok (memory_get s k);
    st_set := fun now s k v => (memory_set now s k v, Ok tt);
    st_remove := fun s k => (memory_remove s k, Ok tt);
    st_keys := fun s => Ok (memory_keys s);
    st_clear := fun s => (memory_new, Ok tt) |}.
  - intros s k _. by eexists.
  - done.
  - intros now s k v s' r _ _ [= <- <-]. unfold memory_get, memory_set. split_and!; [done..| |].
    + f_equal. apply lookup_insert_eq.
    + intros k' Hk. f_equal. by apply lookup_insert_ne.
  - intros s k s' r _ [= <- <-]. unfold memory_get, memory_remove. split_and!; [done..| |].
    + f_equal. apply lookup_delete_eq.
    + intros k' Hk. f_equal. by apply lookup_delete_ne.
  - intros s _. eexists. split; [done|]. intros k. unfold memory_keys, memory_get. by rewrite lookup_fmap.
  - by intros s s' r _ [= <- <-].
Defined.

(** ** In a folder *)

(** The index file: not there, not to be parsed, or read as a map. *)
Inductive IndexFile : Type := NoIndex | Corrupt | Indexed (m : gmap bytes StorageItem).

(** How [tokio::fs::write] ends: a write that fails may have left a part of
    the value, [left] bytes, in the place of what was there. *)
Inductive written : Type := WDone | WFails (e : error) (left : option nat).

(** How writing the index ends: with the file as it was, when the lock or the
    file cannot be opened; with a part of it, when serialising or writing
    fails; with all of it, when only the unlocking fails. *)
Inductive index_written : Type := SDone | SFails (e : error) | STorn (e : error) | SLate (e : error).

(** What the calls of one operation meet: making the directory and the lock
    file, the two looks for the index and its removal ([new]); reading the
    index, which opens and locks the lock file too; writing and reading the
    content of a key, the latter failing too when it is no UTF-8; removing
    files; writing the index. *)
Record Io : Type := mkIo {
  io_dir : option error; io_lock : option error; io_stat : bool * bool; io_unlink : option error;
  io_index : option error; io_write : written; io_read : option error;
  io_remove : bytes -> bool; io_set : index_written }.

Definition works : Io := mkIo None None (true, true) None None WDone None (fun _ => true) SDone.

Section File.
(** The names [Uuid::new_v4] gives, which do not repeat. *)
Context (uuid : nat -> bytes) (uuid_inj : forall i j, uuid i = uuid j -> i = j).

(** The files of the folder, the index, and how many names were given. *)
(* src/src/storage/file.rs:37-42 FileStorage *)
Record FileStorage : Type := mkFile { files : gmap bytes bytes; index : IndexFile; next : nat }.

(* src/src/storage/file.rs:84-97 FileStorage::get_index *)
Definition get_index (d : Io) (s : FileStorage) : res (gmap bytes StorageItem) :=
  match io_index d, index s with
  | Some e, _ => Err e
  | None, Indexed m => Ok m
  | None, Corrupt => Err (EOther "deserial cache index")
  | None, NoIndex => Err ENotFoundIO
  end.

(* src/src/storage/file.rs:98-112 FileStorage::set_index *)
Definition set_index (d : Io) (s : FileStorage) (m : gmap bytes StorageItem) : FileStorage * res unit :=
  match io_set d with
  | SDone => (mkFile (files s) (Indexed m) (next s), Ok tt)
  | SFails e => (s, Err e)
  | STorn e => (mkFile (files s) Corrupt (next s), Err e)
  | SLate e => (mkFile (files s) (Indexed m) (next s), Err e)
  end.

Definition has_index (s : FileStorage) : bool := match index s with NoIndex => false | _ => true end.
Definition is_err {A} (r : res A) : bool := match r with Err _ => true | Ok _ => false end.

(** A folder as it is found: an index that cannot be read is replaced. *)
(* src/src/storage/file.rs:45-75 FileStorage::new *)
Definition file_new (d : Io) (s : FileStorage) : FileStorage * res unit :=
  match io_dir d, io_lock d with
  | Some e, _ | None, Some e => (s, Err e)
  | None, None =>
    let '(s, r) :=
      if (io_stat d).1 && has_index s && is_err (get_index d s) then
        match io_unlink d with Some e => (s, Err e) | None => (mkFile (files s) NoIndex (next s), Ok tt) end
      else (s, Ok tt) in
    match r with
    | Err e => (s, Err e)
    | Ok _ => if (io_stat d).2 && has_index s then (s, Ok tt) else set_index d s ∅
    end
  end.

(** The file of a key. *)
(* src/src/storage/file.rs:76-83 FileStorage::get_path *)
Definition get_path (d : Io) (s : FileStorage) (k : bytes) : res (option bytes) :=
  m ← get_index d s; Ok (option_map content (m !! k)).

(* src/src/storage/file.rs:123-127 FileStorage::get_updated_at *)
Definition file_get_updated_at (d : Io) (s : FileStorage) (k : bytes) : res (option Z) :=
  m ← get_index d s; Ok (option_map updated_at (m !! k)).

(** [read_to_string]. *)
Definition read_file (d : Io) (s : FileStorage) (f : bytes) : res bytes :=
  match io_read d with Some e => Err e | None => ok_or ENotFoundIO (files s !! f) end.

(* src/src/storage/file.rs:129-139 FileStorage::get *)
Definition file_get (d : Io) (s : FileStorage) (k : bytes) : res (option StorageItem) :=
  m ← get_index d s;
  match m !! k with
  | Some item => c ← read_file d s (content item); Ok (Some (mkItem (updated_at item) c))
  | None => Ok None
  end.

(** The name a key's file has or is given. *)
Definition file_name (s : FileStorage) (m : gmap bytes StorageItem) (k : bytes) : bytes * nat :=
  match m !! k with Some item => (content item, next s) | None => (uuid (next s), S (next s)) end.

(** [write], [remove_file]. *)
Definition write_file (d : Io) (f v : bytes) (fs : gmap bytes bytes) : gmap bytes bytes * res unit :=
  match io_write d with
  | WDone => (<[f := v]> fs, Ok tt)
  | WFails e None => (fs, Err e)
  | WFails e (Some n) => (<[f := take n v]> fs, Err e)
  end.
Definition remove_file (d : Io) (f : bytes) (fs : gmap bytes bytes) : gmap bytes bytes :=
  if io_remove d f then delete f fs else fs.

(* src/src/storage/file.rs:141-167 FileStorage::set *)
Definition file_set (d : Io) (now : Z) (s : FileStorage) (k v : bytes) : FileStorage * res unit :=
  match v with
  | [] => (s, Ok tt)
  | _ =>
    match get_index d s with
    | Err e => (s, Err e)
    | Ok m =>
      let '(f, n) := file_name s m k in
      let '(fs, r) := write_file d f v (files s) in
      let s := mkFile fs (index s) n in
      match r with
      | Err e => (s, Err e)
      | Ok _ => set_index d s (<[k := mkItem now f]> m)
      end
    end
  end.

(* src/src/storage/file.rs:169-180 FileStorage::keys *)
Definition file_keys (d : Io) (s : FileStorage) : res (gmap bytes Z) :=
  match get_index d s with Ok m => Ok (updated_at <$> m) | Err e => Err e end.

(* src/src/storage/file.rs:182-198 FileStorage::remove *)
Definition file_remove (d : Io) (s : FileStorage) (k : bytes) : FileStorage * res unit :=
  match get_index d s with
  | Err e => (s, Err e)
  | Ok m =>
    let '(f, n) := file_name s m k in
    set_index d (mkFile (remove_file d f (files s)) (index s) n) (delete k m)
  end.

(* src/src/storage/file.rs:200-212 FileStorage::clear *)
Definition file_clear (d : Io) (s : FileStorage) : FileStorage * res unit :=
  match get_index d s with
  | Err e => (s, Err e)
  | Ok m => set_index d (mkFile (map_fold (fun _ item fs => remove_file d (content item) fs) (files s) m) (index s) (next s)) ∅
  end.

(** *** What an operation leaves *)

(** The names in the index were given, each to one key. *)
Definition names_ok (s : FileStorage) : Prop :=
  match index s with
  | Indexed m =>
    (forall k item, m !! k = Some item -> exists i, (i < next s)%nat /\ content item = uuid i) /\
    (forall k k' item item', m !! k = Some item -> m !! k' = Some item' -> content item = content item' -> k = k')
  | _ => True
  end.

Lemma names_ok_name s m k f n : names_ok s -> index s = Indexed m -> file_name s m k = (f, n) ->
  (next s <= n)%nat /\ (exists i, (i < n)%nat /\ f = uuid i) /\
  (forall k' item, k' <> k -> m !! k' = Some item -> content item <> f).
Proof.
  unfold names_ok. intros Hs E. rewrite E in Hs. destruct Hs as [Hf Hi]. unfold file_name.
  destruct (m !! k) as [item|] eqn:Ek; intros [= <- <-].
  - split; [lia|]. destruct (Hf _ _ Ek) as (i & Hlt & He). split; [by exists i|].
    intros k' item' Hk Hm Hc. by apply Hk, (Hi _ _ _ _ Hm Ek).
  - split; [lia|]. split; [exists (next s); split; [lia|done]|].
    intros k' item' Hk Hm Hc. destruct (Hf _ _ Hm) as (i & Hlt & He). rewrite He in Hc. apply uuid_inj in Hc. lia.
Qed.

Lemma names_ok_insert s m k f n fs now : names_ok s -> index s = Indexed m -> file_name s m k = (f, n) ->
  names_ok (mkFile fs (Indexed (<[k := mkItem now f]> m)) n).
Proof.
  intros Hs E En. destruct (names_ok_name s m k f n Hs E En) as (Hn & Hu & Hd). unfold names_ok in *. rewrite E in Hs.
  destruct Hs as [Hf Hi]. cbn. split.
  - intros k' item [[<- <-]|[Hk Hm]]%lookup_insert_Some; [done|]. destruct (Hf _ _ Hm) as (i & Hlt & He). exists i. split; [lia|done].
  - intros k1 k2 i1 i2 [[<- <-]|[Hk1 Hm1]]%lookup_insert_Some [[<- <-]|[Hk2 Hm2]]%lookup_insert_Some; cbn; intros Hc; try done.
    + destruct (Hd _ _ (not_eq_sym Hk2) Hm2). done.
    + destruct (Hd _ _ (not_eq_sym Hk1) Hm1). done.
    + by eapply Hi.
Qed.

Lemma names_ok_sub s m m' fs n : names_ok s -> index s = Indexed m -> m' ⊆ m -> (next s <= n)%nat ->
  names_ok (mkFile fs (Indexed m') n).
Proof.
  unfold names_ok. intros Hs E Hm Hn. rewrite E in Hs. destruct Hs as [Hf Hi]. cbn. split.
  - intros k item Hk. destruct (Hf k item) as (i & Hlt & He); [by eapply lookup_weaken|]. exists i. split; [lia|done].
  - intros k k' i i' Hk Hk'. eapply Hi; by eapply lookup_weaken.
Qed.

Lemma file_get_indexed s m k : index s = Indexed m -> file_get works s k =
  match m !! k with Some item => c ← ok_or ENotFoundIO (files s !! content item); Ok (Some (mkItem (updated_at item) c)) | None => Ok None end.
Proof. intros E. unfold file_get, get_index. by rewrite E. Qed.

(** A key whose entry and file stay is read as before. *)
Lemma file_get_same s m m' fs n k : index s = Indexed m -> m' !! k = m !! k ->
  (forall item, m !! k = Some item -> fs !! content item = files s !! content item) ->
  file_get works (mkFile fs (Indexed m') n) k = file_get works s k.
Proof.
  intros E Hk Hf. rewrite (file_get_indexed s m) by done. rewrite (file_get_indexed _ m') by done. rewrite Hk.
  destruct (m !! k) as [item|] eqn:Ek; [|done]. cbn. by rewrite (Hf item eq_refl).
Qed.

(** After an operation on [k] that answers [r], and leaves [k] as [Q] says if
    it succeeds: the names are in order, and the index is corrupt or the other
    keys are as they were. *)
Definition leaves (k : bytes) (s s' : FileStorage) (r : res unit) (Q : Prop) : Prop :=
  names_ok s' /\
  match index s' with
  | Indexed _ => (exists m, index s = Indexed m) /\ (forall k', k' <> k -> file_get works s' k' = file_get works s k') /\ (r = Ok tt -> Q)
  | _ => exists e, r = Err e
  end.

Lemma leaves_fails k s e Q : names_ok s -> leaves k s s (Err e) Q.
Proof. intros Hs. split; [done|]. destruct (index s) eqn:E; [by eexists..|]. split; [by eexists|]. by split. Qed.

(** The end of a set or a removal: the index is written. *)
Lemma set_index_leaves d s m m' k fs n s' r (Q : Prop) : names_ok s -> index s = Indexed m ->
  names_ok (mkFile fs (Indexed m') n) -> names_ok (mkFile fs (Indexed m) n) -> (forall k', k' <> k -> m' !! k' = m !! k') ->
  (forall k' item, k' <> k -> m !! k' = Some item -> fs !! content item = files s !! content item) ->
  (index s' = Indexed m' -> files s' = fs -> Q) ->
  set_index d (mkFile fs (index s) n) m' = (s', r) -> leaves k s s' r Q.
Proof.
  intros Hs E Hn' Hn Hm Hf HQ. unfold set_index. destruct (io_set d); intros [= <- <-]; cbn [files index next] in *.
  1, 4: (split; [done|]; cbn [index]; split; [by eexists|]; split; [|by auto]; intros k' Hk; apply (file_get_same s m); eauto).
  - unfold leaves. rewrite E. split; [done|]. cbn [index]. split; [by eexists|]. split; [|done].
    intros k' Hk. apply (file_get_same s m); eauto.
  - split; [done|]. cbn [index]. by eexists.
Qed.

Lemma file_set_spec d now s k v s' r : names_ok s -> v <> [] -> file_set d now s k v = (s', r) ->
  leaves k s s' r (file_get works s' k = Ok (Some (mkItem now v))).
Proof.
  intros Hs Hv. unfold file_set. destruct v as [|x v]; [done|]. clear Hv. generalize (x :: v). clear x v. intros v.
  unfold get_index. destruct (io_index d); [intros [= <- <-]; by apply leaves_fails|].
  destruct (index s) as [| |m] eqn:E; [intros [= <- <-]; by apply leaves_fails..|].
  destruct (file_name s m k) as [f n] eqn:En. destruct (names_ok_name s m k f n Hs E En) as (Hn & Hu & Hd).
  assert (Hf : forall w k' item, k' <> k -> m !! k' = Some item -> <[f := w]> (files s) !! content item = files s !! content item).
  { intros w k' item Hk Hm. rewrite lookup_insert_ne; [done|]. apply not_eq_sym. by eapply Hd. }
  assert (Hsub : forall fs, names_ok (mkFile fs (Indexed m) n)) by (intros fs; by eapply names_ok_sub).
  unfold write_file. destruct (io_write d) as [|e [p|]].
  2, 3: (intros [= <- <-]; (split; [apply Hsub|]); cbn [index]; split; [by eexists|]; split; [|done];
    intros k' Hk; apply (file_get_same s m); eauto).
  intros Es. rewrite <- E in Es. eapply set_index_leaves; [done|exact E|by eapply names_ok_insert|apply Hsub| | | |exact Es].
  - intros k' Hk. by apply lookup_insert_ne.
  - apply Hf.
  - intros Ei Ef. rewrite (file_get_indexed _ _ _ Ei), Ef, lookup_insert_eq. cbn. by rewrite lookup_insert_eq.
Qed.

Lemma file_remove_spec d s k s' r : names_ok s -> file_remove d s k = (s', r) ->
  leaves k s s' r (file_get works s' k = Ok None).
Proof.
  intros Hs. unfold file_remove, get_index. destruct (io_index d); [intros [= <- <-]; by apply leaves_fails|].
  destruct (index s) as [| |m] eqn:E; [intros [= <- <-]; by apply leaves_fails..|].
  destruct (file_name s m k) as [f n] eqn:En. destruct (names_ok_name s m k f n Hs E En) as (Hn & Hu & Hd).
  intros Es. rewrite <- E in Es. eapply set_index_leaves; [done|exact E| | | | | |exact Es].
  - eapply names_ok_sub; [done|done| |done]. apply delete_subseteq.
  - by eapply names_ok_sub.
  - intros k' Hk. by apply lookup_delete_ne.
  - intros k' item Hk Hm. unfold remove_file. destruct (io_remove d f); [|done]. rewrite lookup_delete_ne; [done|].
    apply not_eq_sym. by eapply Hd.
  - intros Ei _. by rewrite (file_get_indexed _ _ _ Ei), lookup_delete_eq.
Qed.

(** Clearing leaves the keys that are not in the index as they are, and no
    key when it succeeds. *)
Lemma file_clear_spec d s s' r : names_ok s -> file_clear d s = (s', r) ->
  names_ok s' /\
  match index s' with
  | Indexed _ => (exists m, index s = Indexed m) /\ (forall k, file_get works s k = Ok None -> file_get works s' k = Ok None) /\
      (r = Ok tt -> forall k, file_get works s' k = Ok None)
  | _ => exists e, r = Err e
  end.
Proof.
  intros Hs. assert (Hsame : forall e, names_ok s /\ match index s with
    | Indexed _ => (exists m, index s = Indexed m) /\ (forall k, file_get works s k = Ok None -> file_get works s k = Ok None) /\
        (Err e = Ok tt -> forall k, file_get works s k = Ok None)
    | _ => exists e', Err e = @Err unit e' end).
  { intros e. split; [done|]. destruct (index s); [by eexists..|]. split; [by eexists|]. by split. }
  unfold file_clear, get_index. destruct (io_index d); [intros [= <- <-]; by apply Hsame|].
  destruct (index s) as [| |m] eqn:E; [intros [= <- <-]; rewrite E; by apply Hsame..|]. clear Hsame.
  assert (He : forall fs n k, file_get works (mkFile fs (Indexed ∅) n) k = Ok None) by done.
  unfold set_index. destruct (io_set d); intros [= <- <-]; cbn [files index next].
  1, 4: (split; [done|]; split; [by eexists|]; by split).
  - split; [by eapply names_ok_sub|]. split; [by eexists|]. split; [|done].
    intros k. rewrite (file_get_indexed s m) by done. rewrite (file_get_indexed _ m) by done.
    destruct (m !! k) as [item|]; [|done]. by destruct (files s !! content item).
  - split; [done|]. by eexists.
Qed.

(** With a good index and calls that succeed, an operation succeeds. *)
Lemma works_ok s m : index s = Indexed m ->
  (forall now k v, (file_set works now s k v).2 = Ok tt) /\ (forall k, (file_remove works s k).2 = Ok tt) /\ (file_clear works s).2 = Ok tt.
Proof.
  intros E. unfold file_set, file_remove, file_clear, get_index. cbn. rewrite E. split; [|split]; [| |done].
  - intros now k [|x v]; [done|]. by destruct (file_name s m k).
  - intros k. by destruct (file_name s m k).
Qed.

(** Every key's content is there. *)
Definition fs_ok (s : FileStorage) : Prop :=
  names_ok s /\ (exists m, index s = Indexed m) /\ forall k, exists o, file_get works s k = Ok o.

Lemma fs_ok_leaves k s s' o (Q := file_get works s' k = Ok o) : fs_ok s -> leaves k s s' (Ok tt) Q ->
  fs_ok s' /\ Q /\ forall k', k' <> k -> file_get works s' k' = file_get works s k'.
Proof.
  intros (_ & _ & Ho) [Hn Hl]. destruct (index s') as [| |m] eqn:E; [by destruct Hl..|]. destruct Hl as (_ & Hk & HQ).
  specialize (HQ eq_refl). split; [|by split]. split; [done|]. split; [by eexists|]. intros k'.
  destruct (decide (k' = k)) as [->|Hne]; [by eexists|]. rewrite Hk by done. apply Ho.
Qed.

Lemma file_time_ok s k : fs_ok s -> file_get_updated_at works s k = (fun o => option_map updated_at o) <$> file_get works s k.
Proof.
  intros (_ & [m E] & Ho). specialize (Ho k). rewrite (file_get_indexed s m) in * by done.
  unfold file_get_updated_at, get_index. cbn. rewrite E. cbn. destruct (m !! k) as [item|]; [|done].
  destruct (files s !! content item); [done|]. by destruct Ho.
Qed.

(** Where its calls succeed, a folder is a storage. *)
#[export] Instance file_storage : Storage FileStorage.
Proof.
  refine {|
    st_ok := fs_ok;
    st_get_updated_at := file_get_updated_at works;
    st_get := file_get works;
    st_set := file_set works;
    st_remove := file_remove works;
    st_keys := file_keys works;
    st_clear := file_clear works |}.
  - intros s k (_ & _ & Ho). apply Ho.
  - apply file_time_ok.
  - intros now s k v s' r Hs Hv E. destruct Hs as (Hn & [m Em] & Ho). assert (r = Ok tt) as ->.
    { change r with (s', r).2. rewrite <- E. by eapply works_ok. }
    split; [done|]. apply (fs_ok_leaves k s); [by split; eauto|]. by eapply file_set_spec.
  - intros s k s' r Hs E. destruct Hs as (Hn & [m Em] & Ho). assert (r = Ok tt) as ->.
    { change r with (s', r).2. rewrite <- E. by eapply works_ok. }
    split; [done|]. apply (fs_ok_leaves k s); [by split; eauto|]. by eapply file_remove_spec.
  - intros s (_ & [m Em] & _). unfold file_keys, file_get_updated_at, get_index. cbn. rewrite Em. eexists. split; [done|].
    intros k. cbn. by rewrite lookup_fmap.
  - intros s s' r (Hn & [m Em] & _). unfold file_clear, get_index. cbn. rewrite Em. intros [= <- <-]. split; [done|].
    split; [|done]. split; [done|]. split; [by eexists|]. intros k. by eexists.
Defined.

(** ** Sequences of operations *)

Inductive StorageOp : Type := OpSet (now : Z) (k v : bytes) | OpRemove (k : bytes) | OpClear.

Definition file_do (d : Io) (s : FileStorage) (o : StorageOp) : FileStorage * res unit :=
  match o with
  | OpSet now k v => file_set d now s k v
  | OpRemove k => file_remove d s k
  | OpClear => file_clear d s
  end.

Fixpoint file_run (s : FileStorage) (l : list (Io * StorageOp)) : FileStorage * list (StorageOp * res unit) :=
  match l with
  | [] => (s, [])
  | (d, o) :: l => let '(s, r) := file_do d s o in let '(s, log) := file_run s l in (s, (o, r) :: log)
  end.

Definition run_storage {S} `{Storage S} (s : S) (o : StorageOp) : S :=
  match o with
  | OpSet now k v => (st_set now s k v).1
  | OpRemove k => (st_remove s k).1
  | OpClear => (st_clear s).1
  end.

(** Memory does what the folder answered with success, but for the empty
    values, which the folder ignores; and the keys of operations that failed
    are in doubt, until one on them succeeds. *)
Definition memory_do (x : MemoryCache * gset bytes) (l : StorageOp * res unit) : MemoryCache * gset bytes :=
  let '(m, doubt) := x in
  match l with
  | (OpSet _ _ [], _) => x
  | (OpSet _ k _ as o, Ok _) | (OpRemove k as o, Ok _) => (run_storage m o, doubt ∖ {[k]})
  | (OpSet _ k _, Err _) | (OpRemove k, Err _) => (m, {[k]} ∪ doubt)
  | (OpClear, Ok _) => (run_storage m OpClear, ∅)
  | (OpClear, Err _) => (m, dom m ∪ doubt)
  end.

Definition refines (s : FileStorage) (x : MemoryCache * gset bytes) : Prop :=
  names_ok s /\ match index s with Indexed _ => forall k, k ∉ x.2 -> file_get works s k = Ok (memory_get x.1 k) | _ => True end.

Lemma leaves_refines k s s' r o m doubt (Q := file_get works s' k = Ok o) : refines s (m, doubt) -> leaves k s s' r Q ->
  (r = Ok tt -> forall m', m' !! k = o -> (forall k', k' <> k -> m' !! k' = m !! k') -> refines s' (m', doubt ∖ {[k]})) /\
  (forall e, r = Err e -> refines s' (m, {[k]} ∪ doubt)).
Proof.
  unfold refines. intros [_ Hr] [Hn Hl]. split.
  - intros -> m' Hk Hk'. split; [done|]. destruct (index s') as [| |m1]; [done..|]. destruct Hl as ([m0 E] & Ho & HQ). rewrite E in Hr.
    intros k' Hin. unfold memory_get. cbn in *. destruct (decide (k' = k)) as [->|Hne]; [rewrite Hk; by apply HQ|].
    rewrite Ho, Hk' by done. apply Hr. set_solver.
  - intros e ->. split; [done|]. destruct (index s') as [| |m1]; [done..|]. destruct Hl as ([m0 E] & Ho & _). rewrite E in Hr.
    intros k' Hin. cbn in *. rewrite Ho by set_solver. apply Hr. set_solver.
Qed.

Lemma file_do_refines d s o s' r x : refines s x -> file_do d s o = (s', r) -> refines s' (memory_do x (o, r)).
Proof.
  destruct x as [m doubt]. intros Hr. pose proof Hr as [Hn Hm]. destruct o as [now k v|k|]; cbn [file_do memory_do].
  - destruct v as [|c v]; [by intros [= <- <-]|]. intros E. apply file_set_spec in E; [|done..].
    destruct (leaves_refines k s s' r _ m doubt Hr E) as [Ha Hb]. destruct r as [[]|e]; [|by eapply Hb].
    apply Ha; [done|apply (lookup_insert_eq m)|intros k' Hk; by apply (lookup_insert_ne m)].
  - intros E. apply file_remove_spec in E; [|done]. destruct (leaves_refines k s s' r _ m doubt Hr E) as [Ha Hb].
    destruct r as [[]|e]; [|by eapply Hb].
    apply Ha; [done|apply (lookup_delete_eq m)|intros k' Hk; by apply (lookup_delete_ne m)].
  - intros E. apply file_clear_spec in E as [Hn' Hl]; [|done]. destruct r as [[]|e]; (split; [done|]);
      destruct (index s') as [| |m1]; try done; destruct Hl as ([m0 E] & Hk & Ha); rewrite E in Hm; intros k Hin; cbn in *; [by apply Ha|].
    assert (m !! k = None) as Ek by (apply not_elem_of_dom; set_solver). unfold memory_get. rewrite Ek. apply Hk.
    rewrite Hm by set_solver. unfold memory_get. by rewrite Ek.
Qed.

(** The index becomes corrupt only when writing it is torn. *)
Lemma file_do_index d s o s' r m : index s = Indexed m -> file_do d s o = (s', r) ->
  (exists m', index s' = Indexed m') \/ (index s' = Corrupt /\ exists e, io_set d = STorn e).
Proof.
  intros E. assert (Hset : forall s1 m1 s2 r2, index s1 = index s -> set_index d s1 m1 = (s2, r2) ->
    (exists m', index s2 = Indexed m') \/ (index s2 = Corrupt /\ exists e, io_set d = STorn e)).
  { intros s1 m1 s2 r2 E1. unfold set_index. destruct (io_set d); intros [= <- <-]; cbn; rewrite ?E1; eauto. }
  assert (Hget : forall s2, s2 = s -> (exists m', index s2 = Indexed m') \/ (index s2 = Corrupt /\ exists e, io_set d = STorn e))
    by (intros s2 ->; eauto).
  destruct o as [now k v|k|]; cbn [file_do]; unfold file_set, file_remove, file_clear.
  - destruct v as [|c v]; [intros [= <- <-]; by apply Hget|]. destruct (get_index d s) as [m1|]; [|intros [= <- <-]; by apply Hget].
    destruct (file_name s m1 k) as [f n]. destruct (write_file d f (c :: v) (files s)) as [fs [[]|e]]; [by apply Hset|].
    intros [= <- <-]. cbn. eauto.
  - destruct (get_index d s) as [m1|]; [|intros [= <- <-]; by apply Hget]. destruct (file_name s m1 k) as [f n]. by apply Hset.
  - destruct (get_index d s) as [m1|]; [|intros [= <- <-]; by apply Hget]. by apply Hset.
Qed.

Lemma file_run_refines l : forall s x, refines s x -> refines (file_run s l).1 (fold_left memory_do (file_run s l).2 x).
Proof.
  induction l as [|[d o] l IH]; intros s x Hr; cbn [file_run]; [done|]. destruct (file_do d s o) as [s1 r] eqn:E.
  specialize (IH s1 _ (file_do_refines _ _ _ _ _ _ Hr E)). by destruct (file_run s1 l).
Qed.

(** A corrupt index makes every operation fail, and change nothing. *)
Lemma file_do_corrupt d s o : index s = Corrupt ->
  match o with OpSet _ _ [] => file_do d s o = (s, Ok tt) | _ => exists e, file_do d s o = (s, Err e) end.
Proof.
  intros E. assert (Hg : exists e, get_index d s = Err e).
  { unfold get_index. rewrite E. destruct (io_index d); by eexists. }
  destruct Hg as [e Hg]. destruct o as [now k [|c v]|k|]; cbn; unfold file_set, file_remove, file_clear; rewrite ?Hg; try done;
    by eexists.
Qed.

Definition torn (d : Io) : Prop := exists e, io_set d = STorn e.

Lemma file_run_corrupt l : forall s, index s = Corrupt -> (file_run s l).1 = s.
Proof.
  induction l as [|[d o] l IH]; intros s E; cbn [file_run]; [done|]. specialize (IH s E). pose proof (file_do_corrupt d s o E) as Hc.
  assert (exists r, file_do d s o = (s, r)) as [r ->] by (destruct o as [now k [|c v]|k|]; [by eexists|by destruct Hc; eexists..]).
  by destruct (file_run s l).
Qed.

Lemma file_run_index l : forall s m, index s = Indexed m ->
  (exists m', index (file_run s l).1 = Indexed m') \/ (index (file_run s l).1 = Corrupt /\ Exists (fun x => torn x.1) l).
Proof.
  induction l as [|[d o] l IH]; intros s m E; cbn [file_run]; [left; by eexists|].
  destruct (file_do d s o) as [s1 r] eqn:Es. destruct (file_do_index _ _ _ _ _ _ E Es) as [[m' E']|[E' He]].
  - specialize (IH s1 m' E'). destruct (file_run s1 l) as [s2 log]. destruct IH as [IH|[IH Hx]]; [by left|]. right.
    split; [done|]. by apply Exists_cons_tl.
  - pose proof (file_run_corrupt l s1 E') as Hc. destruct (file_run s1 l) as [s2 log]. cbn in *. subst s2. right.
    split; [done|]. by apply Exists_cons_hd.
Qed.

(** A key whose content is the one of memory is listed with its time. *)
Lemma file_keys_spec s m k o : index s = Indexed m -> file_get works s k = Ok o ->
  file_get_updated_at works s k = Ok (option_map updated_at o) /\ file_keys works s = Ok (updated_at <$> m) /\
  (updated_at <$> m) !! k = option_map updated_at o.
Proof.
  intros E. rewrite (file_get_indexed s m) by done. unfold file_get_updated_at, file_keys, get_index. cbn. rewrite E. cbn.
  rewrite lookup_fmap. destruct (m !! k) as [item|]; [|by intros [= <-]].
  destruct (files s !! content item) as [c|]; [|done]. by intros [= <-].
Qed.

Lemma file_new_replaces d s s' : (forall m, index s <> Indexed m) -> (io_stat d).1 = true -> file_new d s = (s', Ok tt) ->
  index s' = Indexed ∅.
Proof.
  intros Hs Hst. unfold file_new. destruct (io_dir d), (io_lock d); try done. rewrite Hst. cbn [andb].
  assert (Hset : forall s1 s2, set_index d s1 ∅ = (s2, Ok tt) -> index s2 = Indexed ∅).
  { intros s1 s2. unfold set_index. by destruct (io_set d); intros [= <-]. }
  unfold has_index, get_index. destruct (index s) as [| |m] eqn:E; [| |by destruct (Hs m)]; cbn.
  - rewrite E, andb_false_r. apply Hset.
  - destruct (io_index d); cbn; (destruct (io_unlink d); [done|]); cbn; rewrite andb_false_r; apply Hset.
Qed.
End File.

(** Where no operation failed, no key is in doubt. *)
Lemma no_doubt (log : list (StorageOp * res unit)) : forall x : MemoryCache * gset bytes, x.2 = ∅ ->
  Forall (fun y => y.2 = Ok tt) log -> (fold_left memory_do log x).2 = ∅.
Proof.
  induction log as [|[o r] log IH]; intros x Hx Hl; [done|]. apply Forall_cons in Hl as [Hl Hl']. cbn in Hl. subst r.
  cbn [fold_left]. apply IH; [|done]. destruct x as [m dt]. cbn in Hx. subst dt. destruct o as [now k [|c v]|k|]; cbn; set_solver.
Qed.

(** C30: A folder is as good as memory, where it answers with success: after
    any sequence of sets, removals and clears, run one at a time, the file
    names it is given not repeating, whichever of the calls they make fail and
    in whatever way, starting from a folder opened with its index missing or
    seen to be corrupt: either the index is torn, which takes a torn write of
    it, and then every operation and every read fails and changes nothing; or
    every key but those in doubt (the key of an operation that failed, every
    key for a failed clear, until one on it succeeds) has in the folder the
    value and time, and is listed with the time, that it has in memory after
    the operations that succeeded, and an operation whose calls succeed
    succeeds.  An empty value is ignored by the folder, where memory would
    keep it. *)
Theorem folder_refines_memory (uuid : nat -> bytes) d0 s0 s1 l :
  (forall i j, uuid i = uuid j -> i = j) ->
  (forall m, index s0 <> Indexed m) -> (io_stat d0).1 = true -> file_new d0 s0 = (s1, Ok tt) ->
  let '(s, log) := file_run uuid s1 l in
  let '(m, doubt) := fold_left memory_do log (memory_new, ∅) in
  (index s = Corrupt /\ Exists (fun x => torn x.1) l /\
    (forall d k, is_err (file_get d s k) = true) /\ (forall d, is_err (file_keys d s) = true) /\
    forall d o, match o with OpSet _ _ [] => True | _ => exists e, file_do uuid d s o = (s, Err e) end) \/
  ((forall k, k ∉ doubt ->
      file_get works s k = Ok (memory_get m k) /\ file_get_updated_at works s k = Ok (option_map updated_at (memory_get m k)) /\
      (exists ks, file_keys works s = Ok ks /\ ks !! k = memory_keys m !! k)) /\
    (Forall (fun x => x.2 = Ok tt) log -> doubt = ∅) /\
    forall o, (file_do uuid works s o).2 = Ok tt).
Proof.
  intros Hu Hs0 Hst Hnew. pose proof (file_new_replaces d0 s0 s1 Hs0 Hst Hnew) as E1.
  assert (Hr : refines uuid s1 (memory_new, ∅)) by (unfold refines, names_ok, file_get, get_index; cbn; by rewrite E1).
  pose proof (file_run_refines uuid Hu l s1 _ Hr) as [_ Hg]. pose proof (file_run_index uuid l s1 ∅ E1) as Hi.
  pose proof (no_doubt (file_run uuid s1 l).2 (memory_new, ∅) eq_refl) as Hd.
  destruct (file_run uuid s1 l) as [s log]. cbn [fst snd] in *. destruct (fold_left memory_do log (memory_new, ∅)) as [m doubt].
  cbn [fst snd] in *. destruct Hi as [[ix E]|[E Ht]].
  - rewrite E in Hg. right. split; [|split; [done|]].
    + intros k Hk. specialize (Hg k Hk). destruct (file_keys_spec s ix k _ E Hg) as (H1 & H2 & H3). split; [done|]. split; [done|].
      eexists. split; [done|]. rewrite H3. unfold memory_keys, memory_get. by rewrite lookup_fmap.
    + intros o. destruct (works_ok uuid s ix E) as (H1 & H2 & H3). destruct o; cbn; auto.
  - left. split; [done|]. split; [done|].
    assert (Hx : forall d, exists e, get_index d s = Err e) by (intros d; unfold get_index; rewrite E; destruct (io_index d); by eexists).
    split; [|split].
    + intros d k. unfold file_get. by destruct (Hx d) as [e ->].
    + intros d. unfold file_keys. by destruct (Hx d) as [e ->].
    + intros d o. pose proof (file_do_corrupt uuid d s o E). by destruct o as [now k [|c v]|k|].
Qed.

(** What a set that failed leaves of its key: the value before, a part of the
    new one with the time before, or, when the index was written all the same,
    the new value. *)
Theorem failed_set_leaves uuid d now s k v s' e m : index s = Indexed m -> file_set uuid d now s k v = (s', Err e) ->
  index s' = Corrupt \/ file_get works s' k = file_get works s k \/
  (exists item p, m !! k = Some item /\ p `prefix_of` v /\ file_get works s' k = Ok (Some (mkItem (updated_at item) p))) \/
  file_get works s' k = Ok (Some (mkItem now v)).
Proof.
  intros E. unfold file_set. destruct v as [|x v]; [done|]. generalize (x :: v). clear x v. intros v.
  unfold get_index. destruct (io_index d); [intros [= <- <-]; auto|]. rewrite E. destruct (file_name uuid s m k) as [f n] eqn:En.
  assert (Hpart : forall p, p `prefix_of` v -> file_get works (mkFile (<[f := p]> (files s)) (Indexed m) n) k = file_get works s k \/
    exists item p', m !! k = Some item /\ p' `prefix_of` v /\
      file_get works (mkFile (<[f := p]> (files s)) (Indexed m) n) k = Ok (Some (mkItem (updated_at item) p'))).
  { intros p Hp. rewrite (file_get_indexed _ m) by done. rewrite (file_get_indexed s m) by done. unfold file_name in En.
    destruct (m !! k) as [item|]; [|by left]. injection En as <- <-. right. exists item, p. cbn. by rewrite lookup_insert_eq. }
  unfold write_file. destruct (io_write d) as [|e' [p|]].
  - unfold set_index. destruct (io_set d); intros [= <- <-]; cbn [index files next]; auto.
    + destruct (Hpart v); auto.
    + right. right. right. rewrite (file_get_indexed _ (<[k := mkItem now f]> m)) by done. rewrite lookup_insert_eq. cbn.
      by rewrite lookup_insert_eq.
  - intros [= <- <-]. destruct (Hpart (take p v)); auto. by eexists; symmetry; apply take_drop.
  - intros [= <- <-]. right. left. by apply (file_get_same s m).
Qed.

(** A folder found with a corrupt index, whose operations meet failures: a write
    cut short, then repeated; a removal whose index cannot be opened. *)
Definition sample_uuid (i : nat) : bytes := repeat 48 i.
Definition sample_cut : Io := mkIo None None (true, true) None None (WFails (EOther "full") (Some 1%nat)) None (fun _ => true) SDone.
Definition sample_locked : Io := mkIo None None (true, true) None None WDone None (fun _ => true) (SFails (EOther "denied")).
Definition sample_found : FileStorage := mkFile ∅ Corrupt 0.
Definition sample_start : FileStorage := mkFile ∅ (Indexed ∅) 0.
Definition sample_ops : list (Io * StorageOp) :=
  [(works, OpSet 1 [97] [98]); (works, OpSet 2 [99] [100; 101]); (sample_cut, OpSet 3 [99] [102; 103]);
   (sample_locked, OpRemove [97]); (works, OpSet 4 [99] [102; 103])].

Lemma sample_uuid_inj i j : sample_uuid i = sample_uuid j -> i = j.
Proof. intros E. apply (f_equal length) in E. unfold sample_uuid in E. by rewrite !repeat_length in E. Qed.

Lemma folder_refines_memory_witness :
  map snd (file_run sample_uuid sample_start sample_ops).2 =
    [Ok tt; Ok tt; Err (EOther "full"); Err (EOther "denied"); Ok tt] /\
  file_get works (file_run sample_uuid sample_start sample_ops).1 [99] = Ok (Some (mkItem 4 [102; 103])).
Proof.
  split; [vm_compute; reflexivity|].
  pose proof (folder_refines_memory sample_uuid works sample_found sample_start sample_ops sample_uuid_inj ltac:(done) eq_refl eq_refl) as H.
  assert (Hx : exists ix, index (file_run sample_uuid sample_start sample_ops).1 = Indexed ix).
  { destruct (file_run_index sample_uuid sample_ops sample_start ∅ eq_refl) as [Hx|[_ Hx]]; [exact Hx|].
    exfalso. unfold torn, sample_ops in Hx. rewrite !Exists_cons, Exists_nil in Hx. naive_solver. }
  assert (Hl : (file_run sample_uuid sample_start sample_ops).2 =
    zip (map snd sample_ops) [Ok tt; Ok tt; Err (EOther "full"); Err (EOther "denied"); Ok tt]) by (vm_compute; reflexivity).
  destruct (file_run sample_uuid sample_start sample_ops) as [s log]. cbn [snd fst] in *. subst log. destruct Hx as [ix Hx].
  cbn [zip zip_with map sample_ops fold_left memory_do snd] in H. destruct H as [[H _]|[H _]]; [congruence|].
  destruct (H [99]) as [H1 _]; [set_solver|]. rewrite H1. reflexivity.
Defined.

(** A torn write of the index loses every key: no key can be read, and the
    next start makes an empty index. *)
Lemma torn_index_loses uuid d now s k v m e : index s = Indexed m -> io_index d = None -> io_write d = WDone -> io_set d = STorn e -> v <> [] ->
  let s' := (file_set uuid d now s k v).1 in
  (forall k', is_err (file_get works s' k') = true) /\
  index (file_new works s').1 = Indexed ∅ /\ (file_new works s').2 = Ok tt.
Proof.
  intros E Hi Hw Hs Hv. destruct v as [|x v]; [done|]. unfold file_set, get_index, write_file, set_index. rewrite Hi, E, Hw, Hs.
  by destruct (file_name uuid s m k).
Qed.

(** An index that is good but could not be read is removed at the start. *)
Lemma unread_index_removed s m e : index s = Indexed m ->
  file_new (mkIo None None (true, true) None (Some e) WDone None (fun _ => true) SDone) s = (mkFile (files s) (Indexed ∅) (next s), Ok tt).
Proof. intros E. unfold file_new, has_index, get_index. cbn. by rewrite E. Qed.

(** The guard of [lock] is dropped where it is taken ([let _ = ..]), so two
    writers may interleave: each reads the index, and the one that writes it
    back last undoes the other. *)
Definition set_begin (s : FileStorage) : res (gmap bytes StorageItem) := get_index works s.
Definition set_end (uuid : nat -> bytes) (now : Z) (m : gmap bytes StorageItem) (s : FileStorage) (k v : bytes) : FileStorage :=
  let '(f, n) := file_name uuid s m k in
  (set_index works (mkFile (<[f := v]> (files s)) (index s) n) (<[k := mkItem now f]> m)).1.

Lemma file_set_race uuid now (s : FileStorage) k k' v v' m : k <> k' -> set_begin s = Ok m -> m !! k = None ->
  (* both begin, then both end *)
  let s1 := set_end uuid now m s k v in
  let s2 := set_end uuid now m s1 k' v' in
  file_get works s2 k = Ok None.
Proof.
  intros Hk _ Hm s1 s2. unfold s2, s1, set_end. destruct (file_name _ s m k) as [f n].
  destruct (file_name _ _ m k') as [f' n']. unfold file_get, get_index, set_index. cbn.
  rewrite lookup_insert_ne by done. by rewrite Hm.
Qed.

End Storage.
Export Storage.
