(* ===== verification/Source.v ===== *)
(** * Sources of configuration: [src/src/config.rs], [config/select_map.rs]

    Where the text of a configuration comes from, how a subscription is
    cached in a [Storage], and the selections a user made, which are put
    back into the configuration each time it is read. *)

From S2P Require Import Prelude ConnContext Build Storage.

Module Source.

(* src/src/config.rs:30-35 ImportUrl *)
Record ImportUrl : Type := mkUrl { url : bytes; interval : option Z }.

(* src/src/config.rs:39-44 ImportStorage *)
Record ImportStorage : Type := mkImportStorage { folder : bytes; key : bytes }.

(* src/src/config.rs:49-58 ImportSource *)
Inductive ImportSource : Type :=
| IPath (path : bytes)
| IPoll (u : ImportUrl)
| IStorage (s : ImportStorage)
| IText (content : bytes).

(** The outside: files, the answers of a URL to one request after the other, the data
    folders, [{path:?}], and the time in seconds. *)
Record Env : Type := mkEnv {
  env_read : bytes -> res bytes;
  env_fetch : bytes -> nat -> res bytes;
  env_data : bytes -> bytes -> res (option bytes);
  env_debug_path : bytes -> bytes;
  env_now : Z }.

(* src/src/config.rs:133-135 ImportSource::new_poll *)
Definition new_poll (u : bytes) (i : option Z) : ImportSource := IPoll (mkUrl u i).

(* src/src/config.rs:130-132 ImportSource::new_path *)
Definition new_path (p : bytes) : ImportSource := IPath p.

(** The calls after the first; [i] is the number of the next. *)
(* src/src/config.rs:107-115 retry (loop) *)
Fixpoint retry_more {A} (n i : nat) (last_err : error) (f : nat -> res A) : res A :=
  match n with
  | O => Err last_err
  | S n => match f i with Ok r => Ok r | Err e => retry_more n (S i) e f end
  end.

(* src/src/config.rs:97-116 retry *)
Definition retry {A} (times : nat) (f : nat -> res A) : res A :=
  match f 0%nat with Ok r => Ok r | Err e => retry_more (times - 1) 1 e f end.

(** The byte order mark is three bytes. *)
(* src/src/config.rs:118-127 read_from_path *)
Definition read_from_path (env : Env) (path : bytes) : res bytes :=
  match env_read env path with
  | Ok c => Ok (match strip_prefix [239; 187; 191] c with Some c => c | None => c end)
  | Err e => Err e
  end.

(* src/src/config.rs:136-143 ImportSource::cache_key *)
Definition cache_key (env : Env) (s : ImportSource) : bytes :=
  match s with
  | IPath p => lit "path:" ++ env_debug_path env p
  | IPoll u => lit "poll:" ++ url u
  | IStorage s => lit "storage:" ++ folder s ++ lit ":" ++ key s
  | IText _ => lit "text"
  end.

(* src/src/config.rs:192-199 ImportSource::get_expire_duration *)
Definition get_expire_duration (s : ImportSource) : option Z :=
  match s with IPoll u => interval u | _ => None end.

(** Cached content is used when it is not empty and has not expired. *)
(* src/src/config.rs:148-158 ImportSource::get_content (cached) *)
Definition usable (env : Env) (s : ImportSource) (item : StorageItem) : bool :=
  match content item with
  | [] => false
  | _ => match get_expire_duration s with Some d => env_now env <? updated_at item + d | None => true end
  end.

Section Content.
Context {S : Type} `{Storage S}.

(* src/src/config.rs:144-191 ImportSource::get_content *)
Definition get_content (env : Env) (cache : S) (s : ImportSource) : S * res bytes :=
  let k := cache_key env s in
  match st_get cache k with
  | Err e => (cache, Err e)
  | Ok cached =>
    match match cached with Some item => if usable env s item then Some (content item) else None | None => None end with
    | Some c => (cache, Ok c)
    | None =>
      match s with
      | IPath p => (cache, read_from_path env p)
      | IPoll u =>
        match retry 3 (env_fetch env (url u)) with
        | Err e =>
          (cache, match st_get cache k with
                  | Ok (Some item) => Ok (content item)
                  | Ok None => Err e
                  | Err e => Err e
                  end)
        | Ok c =>
          match c with
          | [] => (cache, Ok c)
          | _ => match st_set (env_now env) cache k c with (cache, Ok _) => (cache, Ok c) | (cache, Err e) => (cache, Err e) end
          end
        end
      | IStorage i =>
        (cache, match env_data env (folder i) (key i) with
                | Ok (Some c) => Ok c
                | Ok None => Err (EOther "Not found")
                | Err e => Err e
                end)
      | IText c => (cache, Ok c)
      end
    end
  end.

(** What [wait] waits for: nothing, a change of a file, a time, or for ever. *)
Inductive Wait : Type := WaitNothing | WaitChange | WaitSeconds (n : Z) | WaitForever.

(** [visited] is the storage [poll_visit], which nothing writes to. *)
(* src/src/config.rs:200-247 ImportSource::wait *)
Definition import_wait (env : Env) (visited cache : S) (s : ImportSource) : res Wait :=
  match s with
  | IPath _ => Ok WaitChange
  | IPoll u =>
    visited_at ← st_get_updated_at visited (cache_key env s);
    updated_at ← st_get_updated_at cache (cache_key env s);
    let time := match visited_at, updated_at with
      | Some a, Some b => Some (Z.max a b)
      | Some t, None | None, Some t => Some t
      | None, None => None
      end in
    Ok (match time, interval u with
        | None, _ => WaitNothing
        | Some _, None => WaitForever
        | Some t, Some i => WaitSeconds (Z.max 0 (t + i - env_now env))
        end)
  | IStorage i =>
    match env_data env (folder i) (key i) with
    | Ok (Some _) => Ok WaitChange
    | Ok None => Err (EOther "Not found")
    | Err e => Err e
    end
  | IText _ => Ok WaitForever
  end.

(** ** What is fetched *)

Lemma retry_more_spec {A} n : forall i e (f : nat -> res A),
  match retry_more n i e f with
  | Ok r => exists j, (i <= j < i + n)%nat /\ f j = Ok r /\ forall j', (i <= j' < j)%nat -> is_ok (f j') = false
  | Err _ => forall j, (i <= j < i + n)%nat -> is_ok (f j) = false
  end.
Proof.
  induction n as [|n IH]; intros i e f; cbn; [intros j Hj; lia|]. destruct (f i) as [r|e'] eqn:E.
  - exists i. split; [lia|]. split; [done|]. intros j' Hj. lia.
  - specialize (IH (Datatypes.S i) e' f). destruct (retry_more n _ e' f) as [r|e''].
    + destruct IH as (j & Hj & Ej & Hf). exists j. split; [lia|]. split; [done|]. intros j' Hj'.
      destruct (decide (j' = i)) as [->|]; [by rewrite E|]. apply Hf. lia.
    + intros j Hj. destruct (decide (j = i)) as [->|]; [by rewrite E|]. apply IH. lia.
Qed.

(** Up to [times] calls, the first success or the failure of all. *)
Lemma retry_spec {A} times (f : nat -> res A) : (0 < times)%nat ->
  match retry times f with
  | Ok r => exists j, (j < times)%nat /\ f j = Ok r /\ forall j', (j' < j)%nat -> is_ok (f j') = false
  | Err _ => forall j, (j < times)%nat -> is_ok (f j) = false
  end.
Proof.
  intros Ht. unfold retry. destruct (f 0%nat) as [r|e] eqn:E.
  - exists 0%nat. split; [done|]. split; [done|]. lia.
  - pose proof (retry_more_spec (times - 1) 1 e f) as Hr. destruct (retry_more _ 1 e f) as [r|e'].
    + destruct Hr as (j & Hj & Ej & Hf). exists j. split; [lia|]. split; [done|]. intros j' Hj'.
      destruct j'; [by rewrite E|]. apply Hf. lia.
    + intros [|j] Hj; [by rewrite E|]. apply Hr. lia.
Qed.

(** The content of a subscription, over any storage in good order.  It is
    either what is cached, when that is not empty and younger than the
    interval (any age without one), and then nothing is fetched or stored; or
    the first success of at most three requests, which if not empty is stored
    with the time; or, all three having failed, what is cached however old,
    with its age unchanged.  There is an error only if all fail and nothing
    is cached.  The storage stays in good order and no other entry changes. *)
Theorem subscription_content env (cache : S) u : st_ok cache ->
  let k := cache_key env (IPoll u) in
  let '(cache', r) := get_content env cache (IPoll u) in
  let failed := forall j, (j < 3)%nat -> is_ok (env_fetch env (url u) j) = false in
  st_ok cache' /\ (forall k', k' <> k -> st_get cache' k' = st_get cache k') /\
  match r with
  | Ok c =>
    (exists t, st_get cache k = Ok (Some (mkItem t c)) /\ c <> [] /\ cache' = cache /\
       match interval u with Some i => env_now env < t + i | None => True end) \/
    (exists j, (j < 3)%nat /\ env_fetch env (url u) j = Ok c /\ (forall j', (j' < j)%nat -> is_ok (env_fetch env (url u) j') = false) /\
       (c = [] -> cache' = cache) /\ (c <> [] -> st_get cache' k = Ok (Some (mkItem (env_now env) c)))) \/
    (failed /\ cache' = cache /\ exists t, st_get cache k = Ok (Some (mkItem t c)))
  | Err _ => failed /\ cache' = cache /\ st_get cache k = Ok None
  end.
Proof.
  intros Hok k. unfold get_content. fold k. destruct (st_get_ok cache k Hok) as [o Eo]. rewrite Eo.
  destruct (match o with Some item => if usable env (IPoll u) item then Some (content item) else None | None => None end) as [c|] eqn:Ec.
  - split; [done|]. split; [done|]. left. destruct o as [[t c']|]; [|done]. unfold usable in Ec. cbn in Ec.
    destruct c' as [|x c']; [done|]. exists t. destruct (interval u) as [i|]; cbn in Ec.
    + destruct (env_now env <? t + i) eqn:El; [|done]. injection Ec as <-. bools. done.
    + injection Ec as <-. done.
  - pose proof (retry_spec 3 (env_fetch env (url u))) as Hr. destruct (retry 3 (env_fetch env (url u))) as [c|e].
    + destruct Hr as (j & Hj & Ej & Hf); [lia|]. destruct c as [|x c].
      * split; [done|]. split; [done|]. right. left. exists j. done.
      * destruct (st_set (env_now env) cache k (x :: c)) as [s' r] eqn:Es.
        apply st_set_ok in Es as (-> & Hs' & Hk & Ho); [|done..]. split; [done|]. split; [done|].
        right. left. exists j. done.
    + split; [by destruct o|]. split; [by destruct o|]. destruct o as [[t c]|].
      * right. right. split; [by apply Hr; lia|]. split; [done|]. by exists t.
      * split; [by apply Hr; lia|done].
Qed.

(** A subscription that has expired and cannot be fetched is tried again at
    once, and so without end: nothing records the attempt. *)
Lemma failing_subscription_spins env (visited cache : S) u i item : st_ok cache ->
  interval u = Some i -> st_get cache (cache_key env (IPoll u)) = Ok (Some item) -> updated_at item + i <= env_now env ->
  st_get_updated_at visited (cache_key env (IPoll u)) = Ok None ->
  (forall j, (j < 3)%nat -> is_ok (env_fetch env (url u) j) = false) ->
  get_content env cache (IPoll u) = (cache, Ok (content item)) /\
  import_wait env visited cache (IPoll u) = Ok (WaitSeconds 0).
Proof.
  intros Hok Hi Hc Ht Hv Hf. split.
  - unfold get_content. rewrite Hc. unfold usable. cbn [get_expire_duration]. rewrite Hi.
    assert (Hl : (env_now env <? updated_at item + i) = false) by (apply Z.ltb_ge; lia). rewrite Hl.
    pose proof (retry_spec 3 (env_fetch env (url u))) as Hr. destruct (content item) as [|x c];
      (destruct (retry 3 (env_fetch env (url u))) as [c'|e]; [|done]); destruct Hr as (j & Hj & Ej & _); try lia;
      specialize (Hf j Hj); by rewrite Ej in Hf.
  - unfold import_wait. rewrite Hv, (st_time_ok cache _ Hok), Hc. cbn. rewrite Hi. do 2 f_equal. lia.
Qed.

End Content.

(** *** A run *)

Definition sample_env : Env :=
  mkEnv (fun _ => Err ENotFoundIO) (fun _ n => match n with O => Err ETimedOut | _ => Ok [120] end) (fun _ _ => Ok None) (fun p => p) 100.

Example subscription_content_witness :
  let '(cache', r) := get_content sample_env (memory_set 10 memory_new (lit "poll:u") [121]) (IPoll (mkUrl (lit "u") (Some 60))) in
  r = Ok [120] /\ forall k', k' <> lit "poll:u" -> st_get cache' k' = st_get (memory_set 10 memory_new (lit "poll:u") [121]) k'.
Proof.
  pose proof (subscription_content sample_env (memory_set 10 memory_new (lit "poll:u") [121]) (mkUrl (lit "u") (Some 60)) I) as H.
  cbv zeta in H.
  destruct (get_content _ _ _) as [cache' r] eqn:E. split.
  - apply (f_equal snd) in E. cbn [snd] in E. rewrite <- E. vm_compute. reflexivity.
  - exact (proj1 (proj2 H)).
Defined.

(** ** Selections *)

(** A [HashMap] from nets to what is selected, in some order. *)
(* src/src/config/select_map.rs:10-10 SelectMap *)
Definition SelectMap : Type := list (bytes * bytes).

Section Select.
(** [serde_json] for such a map. *)
Context (map_from_str : bytes -> option SelectMap) (map_to_str : SelectMap -> res bytes).
Context {S : Type} `{Storage S}.

(* src/src/config/select_map.rs:13-20 SelectMap::from_cache *)
Definition select_from_cache (id : bytes) (cache : S) : res SelectMap :=
  match st_get cache id with
  | Ok (Some i) => Ok (match map_from_str (content i) with Some m => m | None => [] end)
  | Ok None => Ok []
  | Err e => Err e
  end.

(* src/src/config/select_map.rs:21-23 SelectMap::write_cache *)
Definition select_write_cache (now : Z) (m : SelectMap) (id : bytes) (cache : S) : S * res unit :=
  match map_to_str m with Ok s => st_set now cache id s | Err e => (cache, Err e) end.

End Select.

(* src/src/config/select_map.rs:45-47 SelectMap::insert *)
Definition select_insert (m : SelectMap) (k v : bytes) : SelectMap := im_insert m k v.

(** Whether the net is a select net that lists [selected]. *)
(* src/src/config/select_map.rs:26-34 SelectMap::apply_config (test) *)
Definition lists (n : Net) (selected : bytes) : bool :=
  bool_decide (net_type n = lit "select") &&
  match net_opt n with
  | VObj o =>
    match im_get o (lit "list") with
    | Some (VArr l) => existsb (fun v => match v with VStr s => bool_decide (s = selected) | _ => false end) l
    | _ => false
    end
  | _ => false
  end.

Definition with_selected (n : Net) (selected : bytes) : Net :=
  match net_opt n with VObj o => mkNet (net_type n) (VObj (im_insert o (lit "selected") (VStr selected))) | _ => n end.

(* src/src/config/select_map.rs:25-42 SelectMap::apply_config (loop body) *)
Definition select_apply_one (config : Config) (kv : bytes * bytes) : Config :=
  match im_get (cfg_net config) kv.1 with
  | Some n =>
    if lists n kv.2 then mkConfig (cfg_id config) (im_insert (cfg_net config) kv.1 (with_selected n kv.2)) (cfg_server config)
    else config
  | None => config
  end.

(* src/src/config/select_map.rs:24-44 SelectMap::apply_config *)
Definition apply_config (m : SelectMap) (config : Config) : Config := fold_left select_apply_one m config.

Lemma select_apply_one_get config kv k :
  im_get (cfg_net (select_apply_one config kv)) k =
  (fun n => if bool_decide (k = kv.1) && lists n kv.2 then with_selected n kv.2 else n) <$> im_get (cfg_net config) k.
Proof.
  unfold select_apply_one. destruct (im_get (cfg_net config) kv.1) as [n|] eqn:E.
  - destruct (lists n kv.2) eqn:El; cbn [cfg_net]; [rewrite im_get_insert|]; destruct (decide (k = kv.1)) as [->|Hk].
    + rewrite E, bool_decide_true by done. cbn. by rewrite El.
    + rewrite bool_decide_false by done. by destruct (im_get (cfg_net config) k).
    + rewrite E, bool_decide_true by done. cbn. by rewrite El.
    + rewrite bool_decide_false by done. by destruct (im_get (cfg_net config) k).
  - destruct (decide (k = kv.1)) as [->|Hk]; [by rewrite E|]. rewrite bool_decide_false by done.
    by destruct (im_get (cfg_net config) k).
Qed.

(** Restoring selections, in whatever order the map gives them: a net of the
    configuration is changed exactly if it is a select net for which
    something is selected that its list has, and then only in what is
    selected; no net appears or goes, and the rest of the configuration is
    left alone. *)
Theorem selections_restored (m : SelectMap) config : NoDup m.*1 ->
  cfg_id (apply_config m config) = cfg_id config /\ cfg_server (apply_config m config) = cfg_server config /\
  forall k, im_get (cfg_net (apply_config m config)) k =
    (fun n => match im_get m k with Some s => if lists n s then with_selected n s else n | None => n end) <$> im_get (cfg_net config) k.
Proof.
  intros Hnd. unfold apply_config. revert config. induction m as [|[k0 s0] m IH]; intros config; cbn [fold_left].
  - split; [done|]. split; [done|]. intros k. by destruct (im_get (cfg_net config) k).
  - apply NoDup_cons in Hnd as [Hn Hnd]. destruct (IH Hnd (select_apply_one config (k0, s0))) as (Hi & Hs & Hk).
    rewrite Hi, Hs. unfold select_apply_one at 1 2. cbn [fst snd].
    split; [by destruct (im_get (cfg_net config) k0) as [n|]; [destruct (lists n s0)|]|].
    split; [by destruct (im_get (cfg_net config) k0) as [n|]; [destruct (lists n s0)|]|]. intros k. rewrite Hk, select_apply_one_get. cbn [fst snd im_get].
    destruct (decide (k = k0)) as [->|Hne].
    + rewrite bool_decide_true by done. assert (Hm : im_get m k0 = None).
      { clear -Hn. induction m as [|[k s] m IHm]; [done|]. cbn in *. rewrite not_elem_of_cons in Hn.
        destruct Hn as [Hn1 Hn2]. rewrite decide_False by done. by apply IHm. }
      rewrite Hm. by destruct (im_get (cfg_net config) k0).
    + rewrite bool_decide_false by done. by destruct (im_get (cfg_net config) k).
Qed.

Definition select_sample : Config :=
  mkConfig [] [(lit "s", mkNet (lit "select") (VObj [(lit "selected", VStr (lit "a")); (lit "list", VArr [VStr (lit "a"); VStr (lit "b")])]))] [].

Example selections_restored_witness :
  im_get (cfg_net (apply_config [(lit "s", lit "b"); (lit "t", lit "c")] select_sample)) (lit "s") =
  Some (mkNet (lit "select") (VObj [(lit "selected", VStr (lit "b")); (lit "list", VArr [VStr (lit "a"); VStr (lit "b")])])).
Proof.
  destruct (selections_restored [(lit "s", lit "b"); (lit "t", lit "c")] select_sample) as (_ & _ & H).
  - apply (bool_decide_unpack _). vm_compute. exact I.
  - rewrite H. vm_compute. reflexivity.
Defined.

End Source.
Export Source.
