(* ===== verification/Clash.v ===== *)
(** * Clash configurations: [src/src/config/importer/clash.rs], [merge.rs], [importer.rs]

    How the proxies, groups and rules of a Clash configuration become nets.
    The YAML is parsed by [serde_yaml], a parameter; what serde does with the
    options of a proxy is written out. *)

From S2P Require Import Prelude Address ConnContext Build Rule Storage Source.

Module Clash.

(** ** The parsed configuration *)

(* src/src/config/importer/clash.rs:78-84 Proxy *)
Record Proxy : Type := mkProxy { p_name : bytes; proxy_type : bytes; p_opt : Value }.

(* src/src/config/importer/clash.rs:88-91 PortValue *)
Inductive PortValue : Type := PNumber (p : Z) | PString (s : bytes).

(* src/src/config/importer/clash.rs:105-110 ProxyGroup *)
Record ProxyGroup : Type := mkGroup { g_name : bytes; proxy_group_type : bytes; g_proxies : list bytes }.

(* src/src/config/importer/clash.rs:113-120 RuleProvider *)
Record RuleProvider : Type := mkProvider { rule_type : bytes; behavior : bytes; rp_url : bytes; rp_path : bytes; rp_interval : Z }.

(* src/src/config/importer/clash.rs:68-75 ClashConfig *)
Record ClashConfig : Type := mkClashConfig {
  proxies : list Proxy; proxy_groups : list ProxyGroup; rules : list bytes; rule_providers : gmap bytes RuleProvider }.

(* src/src/config/importer/clash.rs:29-46 Clash *)
Record Clash : Type := mkClash {
  rule_name : option bytes; c_prefix : option bytes; direct : option bytes; reject : option bytes; c_net : option bytes;
  disable_proxy_group : bool; c_select : option bytes; name_map : gmap bytes bytes }.

(* src/src/config/importer/clash.rs:94-101 into_u16 *)
Definition into_u16 (p : PortValue) : res Z :=
  match p with
  | PNumber p => Ok p
  | PString s => ok_or (EOther "invalid port") (parse_uint 16 s)
  end.

(** ** Fields of a proxy, as serde reads them *)

Definition field (v : Value) (k : string) : option Value := match v with VObj o => im_get o (lit k) | _ => None end.

Definition de_string (v : Value) (k : string) : res bytes :=
  match field v k with
  | Some (VStr s) => Ok s
  | Some _ => Err (EOther "invalid type")
  | None => Err (EOther "missing field")
  end.

Definition de_opt_string (v : Value) (k : string) : res (option bytes) :=
  match field v k with
  | Some (VStr s) => Ok (Some s)
  | Some VNull | None => Ok None
  | Some _ => Err (EOther "invalid type")
  end.

Definition de_opt_bool (v : Value) (k : string) : res (option bool) :=
  match field v k with
  | Some (VBool b) => Ok (Some b)
  | Some VNull | None => Ok None
  | Some _ => Err (EOther "invalid type")
  end.

(** Untagged: a number of 16 bits, or a string. *)
Definition de_port (v : Value) (k : string) : res PortValue :=
  match field v k with
  | Some (VNum z) => if (0 <=? z) && (z <? 2 ^ 16) then Ok (PNumber z) else Err (EOther "no variant")
  | Some (VStr s) => Ok (PString s)
  | Some _ => Err (EOther "no variant")
  | None => Err (EOther "missing field")
  end.

(** A map from strings to strings. *)
Fixpoint de_strings (l : list (bytes * Value)) : res (list (bytes * bytes)) :=
  match l with
  | [] => Ok []
  | (k, VStr s) :: l => r ← de_strings l; Ok ((k, s) :: r)
  | _ => Err (EOther "invalid type")
  end.

Definition de_opt_strings (v : Value) (k : string) : res (option (list (bytes * bytes))) :=
  match field v k with
  | Some (VObj o) => r ← de_strings o; Ok (Some r)
  | Some VNull | None => Ok None
  | Some _ => Err (EOther "invalid type")
  end.

(* src/src/config/importer/clash.rs:246-249 RealityOpts *)
Record RealityOpts : Type := mkReality { public_key : bytes; short_id : option bytes }.

Definition de_reality (v : Value) (k : string) : res (option RealityOpts) :=
  match field v k with
  | Some (VObj o) =>
    pk ← de_string (VObj o) "public-key"; sid ← de_opt_string (VObj o) "short-id";
    Ok (Some (mkReality pk sid))
  | Some VNull | None => Ok None
  | Some _ => Err (EOther "invalid type")
  end.

(** ** Nets *)

(** A [Net] as JSON: the tag and the options. *)
(* src/rabbit-digger/src/config.rs:22-28 Net::serialize *)
Definition net_to_value (n : Net) : Value :=
  VObj ((lit "type", VStr (net_type n)) :: match net_opt n with VObj o => o | _ => [] end).

(* src/src/config/importer/clash.rs:127-134 ghost_net *)
Definition ghost_net : Net := mkNet (lit "alias") (VObj [(lit "net", VStr (lit "noop"))]).

(* src/src/config/importer/clash.rs:136-141 with_net *)
Definition with_net (n : Net) (target_net : option Value) : Net :=
  match net_opt n, target_net with
  | VObj o, Some t => mkNet (net_type n) (VObj (im_insert o (lit "net") t))
  | _, _ => n
  end.

(* src/src/config/importer/clash.rs:144-146 proxy_target_net *)
Definition proxy_target_net (c : Clash) : option Value := option_map VStr (c_net c).

(* src/src/config/importer/clash.rs:148-155 base_proxy_net *)
Definition base_proxy_net (c : Clash) : Net :=
  mkNet (lit "alias") (VObj [(lit "net", VStr (default (lit "local") (c_net c)))]).

Definition server_port (server : bytes) (port : Z) : Value := VStr (server ++ lit ":" ++ show_uint port).

(* src/src/config/importer/clash.rs:160-214 proxy_to_net (ss) *)
Definition ss_net (o : Value) (target : option Value) : res Net :=
  server ← de_string o "server"; port ← de_port o "port"; cipher ← de_string o "cipher";
  password ← de_string o "password"; udp ← de_opt_bool o "udp"; plugin ← de_opt_string o "plugin";
  plugin_opts ← de_opt_strings o "plugin-opts"; port ← into_u16 port;
  let base := [(lit "server", server_port server port); (lit "cipher", VStr cipher);
    (lit "password", VStr password); (lit "udp", VBool (default false udp))] in
  match plugin, plugin_opts with
  | Some plugin, Some opts =>
    if bool_decide (plugin = lit "obfs") then
      let mode := default [] (im_get opts (lit "mode")) in
      let obfs := with_net (mkNet (lit "obfs") (VObj [(lit "obfs_mode", VStr mode)])) target in
      Ok (mkNet (lit "shadowsocks") (VObj (base ++ [(lit "net", net_to_value obfs)])))
    else Err (EOther "unsupported plugin")
  | _, _ => Ok (with_net (mkNet (lit "shadowsocks") (VObj base)) target)
  end.

(** [trojan] and [anytls] take the same options. *)
(* src/src/config/importer/clash.rs:215-242 proxy_to_net (trojan) *)
Definition trojan_net (ty : bytes) (o : Value) (target : option Value) : res Net :=
  server ← de_string o "server"; port ← de_port o "port"; password ← de_string o "password";
  sni ← de_opt_string o "sni"; skip ← de_opt_bool o "skip-cert-verify"; port ← into_u16 port;
  Ok (with_net (mkNet ty (VObj [(lit "server", server_port server port); (lit "password", VStr password);
    (lit "sni", VStr (default server sni)); (lit "skip_cert_verify", VBool (default false skip))])) target).

(* src/src/config/importer/clash.rs:243-301 proxy_to_net (vless) *)
Definition vless_net (o : Value) (target : option Value) : res Net :=
  server ← de_string o "server"; port ← de_port o "port"; uuid ← de_string o "uuid"; udp ← de_opt_bool o "udp";
  network ← de_opt_string o "network"; flow ← de_opt_string o "flow"; tls ← de_opt_bool o "tls";
  servername ← de_opt_string o "servername"; sni ← de_opt_string o "sni"; skip ← de_opt_bool o "skip-cert-verify";
  client_fingerprint ← de_opt_string o "client-fingerprint"; reality ← de_reality o "reality-opts"; port ← into_u16 port;
  _ ← ensure (match network with Some n => eq_ignore_case n (lit "tcp") | None => true end) (EOther "unsupported vless network");
  _ ← ensure (match tls with Some false => false | _ => true end) (EOther "vless without tls is not supported");
  let sni := match servername with Some s => s | None => default server sni end in
  let opt := [(lit "server", server_port server port); (lit "id", VStr uuid);
    (lit "flow", match flow with Some f => VStr f | None => VNull end); (lit "sni", VStr sni);
    (lit "skip_cert_verify", VBool (default false skip)); (lit "udp", VBool (default false udp))] in
  let opt := match client_fingerprint with Some f => im_insert opt (lit "client_fingerprint") (VStr f) | None => opt end in
  let opt := match reality with
    | Some r =>
      im_insert (im_insert opt (lit "reality_public_key") (VStr (public_key r))) (lit "reality_short_id")
        (match short_id r with Some s => VStr s | None => VNull end)
    | None => opt
    end in
  Ok (with_net (mkNet (lit "vless") (VObj opt)) target).

(* src/src/config/importer/clash.rs:328-363 proxy_to_net (http, socks5) *)
Definition plain_net (ty : bytes) (o : Value) (target : option Value) : res Net :=
  server ← de_string o "server"; port ← de_port o "port"; port ← into_u16 port;
  Ok (with_net (mkNet ty (VObj [(lit "server", server_port server port)])) target).

(* src/src/config/importer/clash.rs:157-367 proxy_to_net *)
Definition proxy_to_net (p : Proxy) (target : option Value) : res Net :=
  let t := proxy_type p in
  if bool_decide (t = lit "ss") then ss_net (p_opt p) target
  else if bool_decide (t = lit "trojan") then trojan_net (lit "trojan") (p_opt p) target
  else if bool_decide (t = lit "vless") then vless_net (p_opt p) target
  else if bool_decide (t = lit "anytls") then trojan_net (lit "anytls") (p_opt p) target
  else if bool_decide (t = lit "http") then plain_net (lit "http") (p_opt p) target
  else if bool_decide (t = lit "socks5") then plain_net (lit "socks5") (p_opt p) target
  else Err (EOther "Unsupported proxy type").

(* src/src/config/importer/clash.rs:550-555 prefix *)
Definition prefix (c : Clash) (s : bytes) : bytes :=
  match c_prefix c with Some p => p ++ lit "." ++ s | None => s end.

(* src/src/config/importer/clash.rs:546-548 proxy_group_name *)
Definition proxy_group_name (c : Clash) (s : bytes) : bytes := prefix c s.

Definition direct_name (c : Clash) : bytes := default (lit "local") (direct c).
Definition reject_name (c : Clash) : bytes := default (lit "blackhole") (reject c).

(* src/src/config/importer/clash.rs:369-383 get_target *)
Definition get_target (c : Clash) (target : bytes) : res bytes :=
  if bool_decide (target = lit "DIRECT") then Ok (direct_name c)
  else if bool_decide (target = lit "REJECT") then Ok (reject_name c)
  else ok_or (EOther "Name not found") (name_map c !! target).

Fixpoint get_targets (c : Clash) (l : list bytes) : res (list bytes) :=
  match l with
  | [] => Ok []
  | t :: l => t ← get_target c t; l ← get_targets c l; Ok (t :: l)
  end.

(** A select net, which starts with the first of its list. *)
Definition select_net (l : list bytes) : Net :=
  mkNet (lit "select") (VObj [(lit "selected", VStr (default (lit "noop") (head l))); (lit "list", VArr (map VStr l))]).

(** Each proxy reaches its server through the one before. *)
(* src/src/config/importer/clash.rs:414-426 proxy_group_to_net (relay) *)
Fixpoint relay_net (c : Clash) (proxy_map : gmap bytes Proxy) (l : list bytes) (acc : Net) : res Net :=
  match l with
  | [] => Ok acc
  | x :: l =>
    p ← ok_or (EOther "proxy not found in proxy group") (proxy_map !! x);
    n ← proxy_to_net p (Some (net_to_value acc));
    relay_net c proxy_map l n
  end.

(* src/src/config/importer/clash.rs:385-434 proxy_group_to_net *)
Definition proxy_group_to_net (c : Clash) (p : ProxyGroup) (proxy_map : gmap bytes Proxy) : res Net :=
  net_list ← get_targets c (g_proxies p);
  let t := proxy_group_type p in
  if bool_decide (t = lit "select") then Ok (select_net net_list)
  else if bool_decide (t = lit "url-test") || bool_decide (t = lit "fallback") then Ok (select_net net_list)
  else if bool_decide (t = lit "relay") then relay_net c proxy_map net_list (base_proxy_net c)
  else Err (EOther "Unsupported proxy group type").

(** ** Rules *)

Section Process.
(** [IpCidr::from_str]; [serde_yaml] at a rule set and at a configuration;
    serde of the rules. *)
Context {IpCidr : Type} (cidr_from_str : bytes -> res IpCidr).
Context (parse_rule_set : bytes -> res (list bytes)) (parse_clash : bytes -> res ClashConfig).
Context (rules_to_value : list (@RuleItem IpCidr unit) -> Value).
Context {S : Type} `{Storage S} (env : Env).

Fixpoint cidrs (l : list bytes) : res (list IpCidr) :=
  match l with
  | [] => Ok []
  | s :: l => c ← cidr_from_str s; l ← cidrs l; Ok (c :: l)
  end.

(* src/src/config/importer/clash.rs:457-463 rule_to_rule (item) *)
Definition rule_item (target : bytes) (m : @Matcher IpCidr) : @RuleItem IpCidr unit := mkRule target tt m.

(** The field after the rule's type, and its target. *)
Definition arg_target (c : Clash) (ps : list bytes) : res (bytes * bytes) :=
  match ps with
  | arg :: target :: _ => t ← get_target c target; Ok (arg, t)
  | _ => Err (EOther "Bad rule.")
  end.

(* src/src/config/importer/clash.rs:500-539 rule_to_rule (RULE-SET) *)
Definition rule_set (c : Clash) (cache : S) (providers : gmap bytes RuleProvider) (set target : bytes) : S * res (@RuleItem IpCidr unit) :=
  match providers !! set with
  | None => (cache, Err (EOther "Bad rule."))
  | Some rp =>
    let source :=
      if bool_decide (rule_type rp = lit "http") then Some (new_poll (rp_url rp) (Some (rp_interval rp)))
      else if bool_decide (rule_type rp = lit "file") then Some (new_path (rp_path rp))
      else None in
    match source with
    | None => (cache, Err (EOther "Bad rule."))
    | Some source =>
      let '(cache, content) := get_content env cache source in
      (cache,
       source_str ← content;
       payload ← parse_rule_set source_str;
       if bool_decide (behavior rp = lit "domain") then
         Ok (rule_item target (MDomain (mkDomainMatcher Match (cvs_from_iter payload))))
       else if bool_decide (behavior rp = lit "ipcidr") then
         l ← cidrs payload; Ok (rule_item target (MIpCidr (Vec l)))
       else Err (EOther "Bad rule."))
    end
  end.

(* src/src/config/importer/clash.rs:436-544 rule_to_rule *)
Definition rule_to_rule (c : Clash) (cache : S) (providers : gmap bytes RuleProvider) (r : bytes) : S * res (@RuleItem IpCidr unit) :=
  let bad := Err (EOther "Bad rule.") in
  match split_on 44 r with
  | [] => (cache, bad)
  | ty :: ps =>
    let domain m := '(d, t) ← arg_target c ps; Ok (rule_item t (MDomain (mkDomainMatcher m (cvs_from_iter [d])))) in
    if bool_decide (ty = lit "DOMAIN-SUFFIX") then (cache, domain Suffix)
    else if bool_decide (ty = lit "DOMAIN-KEYWORD") then (cache, domain Keyword)
    else if bool_decide (ty = lit "DOMAIN") then (cache, domain Match)
    else if bool_decide (ty = lit "IP-CIDR") || bool_decide (ty = lit "IP-CIDR6") then
      (cache, '(a, t) ← arg_target c ps; x ← cidr_from_str a; Ok (rule_item t (MIpCidr (Single x))))
    else if bool_decide (ty = lit "SRC-IP-CIDR") then
      (cache, '(a, t) ← arg_target c ps; x ← cidr_from_str a; Ok (rule_item t (MSrcIpCidr (Single x))))
    else if bool_decide (ty = lit "MATCH") then
      (cache, match ps with t :: _ => t ← get_target c t; Ok (rule_item t MAny) | [] => bad end)
    else if bool_decide (ty = lit "GEOIP") then
      (cache, '(a, t) ← arg_target c ps; Ok (rule_item t (MGeoIp a)))
    else if bool_decide (ty = lit "RULE-SET") then
      match arg_target c ps with
      | Ok (set, t) => rule_set c cache providers set t
      | Err e => (cache, Err e)
      end
    else (cache, Err (EOther "Rule prefix is not supported"))
  end.

(** ** The importer *)

(** A proxy: its names, and its net or, if it cannot be translated, the ghost. *)
(* src/src/config/importer/clash.rs:570-585 Clash::process (proxies) *)
Definition add_proxy (st : Clash * ConfigNet * gmap bytes Proxy * list bytes) (p : Proxy) : Clash * ConfigNet * gmap bytes Proxy * list bytes :=
  let '(c, nets, proxy_map, added) := st in
  let name := prefix c (p_name p) in
  let c' := mkClash (rule_name c) (c_prefix c) (direct c) (reject c) (c_net c) (disable_proxy_group c) (c_select c)
    (<[p_name p := name]> (name_map c)) in
  let n := match proxy_to_net p (proxy_target_net c) with Ok n => n | Err _ => ghost_net end in
  (c', im_insert nets name n, <[p_name p := p]> proxy_map, added ++ [name]).

(* src/src/config/importer/clash.rs:588-591 Clash::process (group names) *)
Definition name_group (c : Clash) (g : ProxyGroup) : Clash :=
  mkClash (rule_name c) (c_prefix c) (direct c) (reject c) (c_net c) (disable_proxy_group c) (c_select c)
    (<[g_name g := proxy_group_name c (g_name g)]> (name_map c)).

(** A group that cannot be translated gets no net. *)
(* src/src/config/importer/clash.rs:599-609 Clash::process (groups) *)
Definition add_group (c : Clash) (proxy_map : gmap bytes Proxy) (nets : ConfigNet) (g : ProxyGroup) : ConfigNet :=
  match proxy_group_to_net c g proxy_map with
  | Ok n => im_insert nets (proxy_group_name c (g_name g)) n
  | Err _ => nets
  end.

(** The rules that can be translated, in order; the others are dropped.
    [buffered(10)] runs some at the same time and keeps their order. *)
(* src/src/config/importer/clash.rs:614-617 Clash::process (rules) *)
Fixpoint translate_rules (c : Clash) (providers : gmap bytes RuleProvider) (cache : S) (l : list bytes) : S * list (@RuleItem IpCidr unit) :=
  match l with
  | [] => (cache, [])
  | r :: l =>
    let '(cache, item) := rule_to_rule c cache providers r in
    let '(cache, items) := translate_rules c providers cache l in
    (cache, match item with Ok i => i :: items | Err _ => items end)
  end.

(* src/src/config/importer/clash.rs:560-652 Clash::process *)
Definition clash_process (c : Clash) (config : Config) (content : bytes) (cache : S) : S * Config * res Clash :=
  match parse_clash content with
  | Err e => (cache, config, Err e)
  | Ok cc =>
    let '(c, nets, proxy_map, added) := fold_left add_proxy (proxies cc) (c, cfg_net config, ∅, []) in
    let '(c, nets) :=
      if disable_proxy_group c then (c, nets)
      else
        let c := fold_left name_group (proxy_groups cc) c in
        (c, fold_left (add_group c proxy_map) (proxy_groups cc) nets) in
    let '(cache, nets) :=
      match rule_name c with
      | Some name =>
        let '(cache, items) := translate_rules c (rule_providers cc) cache (rules cc) in
        (cache, im_insert nets name (mkNet (lit "rule") (VObj [(lit "rule", rules_to_value (merge_rules items))])))
      | None => (cache, nets)
      end in
    let nets := match c_select c with Some s => im_insert nets s (select_net added) | None => nets end in
    (cache, mkConfig (cfg_id config) nets (cfg_server config), Ok c)
  end.

End Process.

(** ** A proxy's server *)

Lemma field_with_net n o k t : net_opt n = VObj o -> lit k <> lit "net" ->
  field (net_opt (with_net n t)) k = field (VObj o) k.
Proof.
  intros E Hk. unfold with_net. rewrite E. destruct t as [t|]; [|by rewrite E]. cbn. rewrite im_get_insert.
  by rewrite decide_False.
Qed.

Lemma with_net_target n o t : net_opt n = VObj o -> field (net_opt (with_net n (Some t))) "net" = Some t.
Proof. intros E. unfold with_net. rewrite E. cbn. rewrite im_get_insert. by rewrite decide_True. Qed.

(** What a net goes through: [t], itself or, with obfuscation, one net on. *)
Definition goes_through (n : Net) (t : Value) : Prop :=
  field (net_opt n) "net" = Some t \/
  exists o, field (net_opt n) "net" = Some o /\ field o "type" = Some (VStr (lit "obfs")) /\ field o "net" = Some t.

(** What every kind of proxy makes of its options. *)
Definition proxy_net_ok (o : Value) (target : option Value) (n : Net) : Prop :=
  exists server port, de_string o "server" = Ok server /\ (p ← de_port o "port"; into_u16 p) = Ok port /\
    field (net_opt n) "server" = Some (server_port server port) /\
    match target with Some t => goes_through n t | None => True end.

Lemma res_bind_ok {A B} (x : res A) (f : A -> res B) y : (a ← x; f a) = Ok y -> exists a, x = Ok a /\ f a = Ok y.
Proof. destruct x as [a|e]; [|done]. intros E. by exists a. Qed.

Ltac bind_ok H :=
  repeat match type of H with
  | mbind _ _ = Ok _ => let a := fresh "a" in let Ea := fresh "Ea" in apply res_bind_ok in H as (a & Ea & H)
  end.

Lemma with_net_ok o target server port l ty :
  de_string o "server" = Ok server -> (p ← de_port o "port"; into_u16 p) = Ok port ->
  field (VObj l) "server" = Some (server_port server port) ->
  proxy_net_ok o target (with_net (mkNet ty (VObj l)) target).
Proof.
  intros Hs Hp Hl. exists server, port. split; [done|]. split; [done|]. split.
  - by rewrite (field_with_net _ l).
  - destruct target as [t|]; [|done]. left. by eapply with_net_target.
Qed.

Lemma ss_net_ok o target n : ss_net o target = Ok n -> proxy_net_ok o target n.
Proof.
  unfold ss_net. intros E. bind_ok E.
  assert (Hp : (p ← de_port o "port"; into_u16 p) = Ok a6) by (rewrite Ea0; exact Ea6).
  destruct a4 as [plugin|]; [destruct a5 as [opts|]|].
  - destruct (bool_decide (plugin = lit "obfs")); [|done]. apply Ok_inj in E as <-. exists a, a6. split; [done|]. split; [done|].
    split; [done|]. destruct target as [t|]; [|done]. right. eexists. split; [reflexivity|]. split; [reflexivity|].
    unfold net_to_value, with_net. cbn. reflexivity.
  - apply Ok_inj in E as <-. by eapply with_net_ok.
  - apply Ok_inj in E as <-. by eapply with_net_ok.
Qed.

Lemma trojan_net_ok ty o target n : trojan_net ty o target = Ok n -> proxy_net_ok o target n.
Proof.
  unfold trojan_net. intros E. bind_ok E. apply Ok_inj in E as <-. eapply with_net_ok; [done| |reflexivity].
  rewrite Ea0. exact Ea4.
Qed.

Lemma plain_net_ok ty o target n : plain_net ty o target = Ok n -> proxy_net_ok o target n.
Proof.
  unfold plain_net. intros E. bind_ok E. apply Ok_inj in E as <-. eapply with_net_ok; [done| |reflexivity].
  rewrite Ea0. exact Ea1.
Qed.

Lemma vless_net_ok o target n : vless_net o target = Ok n -> proxy_net_ok o target n.
Proof.
  unfold vless_net. intros E. bind_ok E. apply Ok_inj in E as <-. eapply with_net_ok; [done| |].
  - rewrite Ea0. exact Ea11.
  - destruct a9 as [f|], a10 as [r|]; cbn [field]; rewrite ?im_get_insert; reflexivity.
Qed.

Lemma into_u16_range p port : into_u16 p = Ok port -> (forall z, p = PNumber z -> 0 <= z < 2 ^ 16) -> 0 <= port < 2 ^ 16.
Proof.
  destruct p as [z|s]; cbn; intros E Hz; [apply Ok_inj in E as <-; by apply Hz|].
  destruct (parse_uint 16 s) as [v|] eqn:Ev; [|done]. apply Ok_inj in E as <-. by apply parse_uint_range in Ev.
Qed.

(** A proxy that is translated keeps its server and port: the options give
    both, the port a number of 16 bits or its decimal, and the net's [server]
    is read as that host, an address where it is one, and that port; and
    the net goes through the net asked for, itself or by way of its
    obfuscation. *)
Theorem clash_proxy_server p target n : proxy_to_net p target = Ok n ->
  exists server port, de_string (p_opt p) "server" = Ok server /\ 0 <= port < 2 ^ 16 /\
    (de_port (p_opt p) "port" = Ok (PNumber port) \/
     exists s, de_port (p_opt p) "port" = Ok (PString s) /\ parse_uint 16 s = Some port) /\
    (exists s, field (net_opt n) "server" = Some (VStr s) /\ into_address s = Ok (host_to_address server port)) /\
    match target with Some t => goes_through n t | None => True end.
Proof.
  intros E. assert (Hok : proxy_net_ok (p_opt p) target n).
  { unfold proxy_to_net in E. repeat case_bool_decide; try done;
      eauto using ss_net_ok, trojan_net_ok, vless_net_ok, plain_net_ok. }
  clear E. destruct Hok as (server & port & Hs & Hp & Hn & Ht). exists server, port. split; [done|].
  apply res_bind_ok in Hp as (pv & Epv & Hp). assert (Hr : 0 <= port < 2 ^ 16).
  { eapply into_u16_range; [done|]. intros z ->. unfold de_port in Epv. destruct (field (p_opt p) "port") as [v|]; [|done].
    destruct v as [|b|z'|s|l|l]; try done. destruct ((0 <=? z') && (z' <? 2 ^ 16)) eqn:E; [|done].
    apply andb_true_iff in E as [E1 E2]. bools. apply Ok_inj in Epv. injection Epv as ->. lia. }
  split; [done|]. split; [|split; [|done]].
  - destruct pv as [z|s]; cbn in Hp; [apply Ok_inj in Hp as <-; by left|].
    destruct (parse_uint 16 s) as [v|] eqn:Ev; [|done]. apply Ok_inj in Hp as <-. right. by exists s.
  - eexists. split; [exact Hn|]. by apply into_address_split.
Qed.

(** ** Where nets come from *)

Section Origin.
Context {IpCidr : Type} (cidr_from_str : bytes -> res IpCidr).
Context (parse_rule_set : bytes -> res (list bytes)).
Context (rules_to_value : list (@RuleItem IpCidr unit) -> Value).
Context {S : Type} `{Storage S} (env : Env).
Context (c0 : Clash) (cc : ClashConfig).

(** A name of the Clash configuration, and the net's it stands for: [DIRECT]
    and [REJECT] for those configured; a proxy's or, unless groups are
    disabled, a group's for itself with the prefix. *)
Definition proxy_name (t : bytes) : Prop := exists p, p ∈ proxies cc /\ p_name p = t.
Definition group_name (t : bytes) : Prop := disable_proxy_group c0 = false /\ exists g, g ∈ proxy_groups cc /\ g_name g = t.
Definition known (t : bytes) : Prop := proxy_name t \/ group_name t.

Definition stands_in (kn : bytes -> Prop) (t n : bytes) : Prop :=
  (t = lit "DIRECT" /\ n = direct_name c0) \/ (t = lit "REJECT" /\ n = reject_name c0) \/
  (t <> lit "DIRECT" /\ t <> lit "REJECT" /\ kn t /\ n = prefix c0 t).
Definition stands : bytes -> bytes -> Prop := stands_in known.

(** The last proxy of a name. *)
Definition last_named (l : list Proxy) (x : bytes) : option Proxy := List.find (fun p => bool_decide (p_name p = x)) (rev l).

(** Proxies one through the other. *)
Fixpoint chain (ps : list Proxy) (acc : Net) : res Net :=
  match ps with
  | [] => Ok acc
  | p :: ps => n ← proxy_to_net p (Some (net_to_value acc)); chain ps n
  end.

(** A select net of these names, which starts with the first. *)
Definition selects (n : Net) (l : list bytes) : Prop :=
  net_type n = lit "select" /\ field (net_opt n) "list" = Some (VArr (map VStr l)) /\
  field (net_opt n) "selected" = Some (VStr (match l with x :: _ => x | [] => lit "noop" end)).

Definition from_proxy (k : bytes) (n : Net) : Prop :=
  exists p, p ∈ proxies cc /\ k = prefix c0 (p_name p) /\
    match proxy_to_net p (proxy_target_net c0) with Ok n' => n = n' | Err _ => n = ghost_net end.

Definition select_kind (t : bytes) : Prop := In t [lit "select"; lit "url-test"; lit "fallback"].

(** A group's net: its members, in order, to select from; or chained, each
    member the proxy called as the net of the member is. *)
Definition group_net (g : ProxyGroup) (n : Net) : Prop :=
  exists l, Forall2 stands (g_proxies g) l /\
    ((select_kind (proxy_group_type g) /\ selects n l) \/
     (proxy_group_type g = lit "relay" /\
      exists ps, Forall2 (fun x p => last_named (proxies cc) x = Some p) l ps /\ chain ps (base_proxy_net c0) = Ok n)).

Definition from_group (k : bytes) (n : Net) : Prop :=
  disable_proxy_group c0 = false /\ exists g, g ∈ proxy_groups cc /\ k = prefix c0 (g_name g) /\ group_net g n.

(** *** The meaning of a rule *)

(** Where a rule provider's list comes from. *)
Definition provided (rp : RuleProvider) (src : ImportSource) : Prop :=
  (rule_type rp = lit "http" /\ src = new_poll (rp_url rp) (Some (rp_interval rp))) \/
  (rule_type rp = lit "file" /\ src = new_path (rp_path rp)).

(** The type of a rule and its argument, and the matcher they make; a set is
    read through the cache. *)
Inductive matches (cache : S) : bytes -> bytes -> @Matcher IpCidr -> Prop :=
| m_suffix d : matches cache (lit "DOMAIN-SUFFIX") d (MDomain (mkDomainMatcher Suffix (cvs_from_iter [d])))
| m_keyword d : matches cache (lit "DOMAIN-KEYWORD") d (MDomain (mkDomainMatcher Keyword (cvs_from_iter [d])))
| m_domain d : matches cache (lit "DOMAIN") d (MDomain (mkDomainMatcher Match (cvs_from_iter [d])))
| m_ip a x : cidr_from_str a = Ok x -> matches cache (lit "IP-CIDR") a (MIpCidr (Single x))
| m_ip6 a x : cidr_from_str a = Ok x -> matches cache (lit "IP-CIDR6") a (MIpCidr (Single x))
| m_src a x : cidr_from_str a = Ok x -> matches cache (lit "SRC-IP-CIDR") a (MSrcIpCidr (Single x))
| m_geo a : matches cache (lit "GEOIP") a (MGeoIp a)
| m_domains set rp src text l : rule_providers cc !! set = Some rp -> provided rp src ->
    (get_content env cache src).2 = Ok text -> parse_rule_set text = Ok l -> behavior rp = lit "domain" ->
    matches cache (lit "RULE-SET") set (MDomain (mkDomainMatcher Match (cvs_from_iter l)))
| m_cidrs set rp src text l xs : rule_providers cc !! set = Some rp -> provided rp src ->
    (get_content env cache src).2 = Ok text -> parse_rule_set text = Ok l -> behavior rp = lit "ipcidr" ->
    Forall2 (fun a x => cidr_from_str a = Ok x) l xs -> matches cache (lit "RULE-SET") set (MIpCidr (Vec xs)).

(** A rule: its type, the argument of any type but [MATCH], and the target,
    separated by commas; what follows them is ignored. *)
Inductive means (cache : S) (r : bytes) : @RuleItem IpCidr unit -> Prop :=
| means_match t n rest : split_on 44 r = lit "MATCH" :: t :: rest -> stands t n -> means cache r (mkRule n tt MAny)
| means_arg ty arg t n m rest : split_on 44 r = ty :: arg :: t :: rest -> matches cache ty arg m -> stands t n ->
    means cache r (mkRule n tt m).

(** A rule leaves the cache, or has read a set. *)
Definition cached (cache cache' : S) : Prop :=
  cache' = cache \/ exists set rp src, rule_providers cc !! set = Some rp /\ provided rp src /\ cache' = (get_content env cache src).1.

(** Every rule in order, those without a meaning left out. *)
Inductive means_all : S -> list bytes -> list (@RuleItem IpCidr unit) -> Prop :=
| all_nil cache : means_all cache [] []
| all_item cache cache' r i l items : means cache r i -> cached cache cache' -> means_all cache' l items ->
    means_all cache (r :: l) (i :: items)
| all_drop cache cache' r l items : (forall i, ~ means cache r i) -> cached cache cache' -> means_all cache' l items ->
    means_all cache (r :: l) items.

Definition from_rules (cache : S) (k : bytes) (n : Net) : Prop :=
  rule_name c0 = Some k /\ exists items, means_all cache (rules cc) items /\
    n = mkNet (lit "rule") (VObj [(lit "rule", rules_to_value (merge_rules items))]).

Definition from_select (k : bytes) (n : Net) : Prop :=
  c_select c0 = Some k /\ selects n (map (fun p => prefix c0 (p_name p)) (proxies cc)).

(** The importer's options, with the names known so far. *)
Definition same_opts (c : Clash) : Prop :=
  rule_name c = rule_name c0 /\ c_prefix c = c_prefix c0 /\ direct c = direct c0 /\ reject c = reject c0 /\
  c_net c = c_net c0 /\ disable_proxy_group c = disable_proxy_group c0 /\ c_select c = c_select c0.

Definition names_ok (kn : bytes -> Prop) (c : Clash) : Prop :=
  same_opts c /\ forall t n, name_map c !! t = Some n <-> kn t /\ n = prefix c0 t.

Lemma same_prefix c s : same_opts c -> prefix c s = prefix c0 s.
Proof. intros (_ & E & _). unfold prefix. by rewrite E. Qed.

Lemma get_target_stands kn c t n : names_ok kn c -> get_target c t = Ok n <-> stands_in kn t n.
Proof.
  intros [(_ & _ & Ed & Er & _) Hn]. unfold get_target, stands_in, direct_name, reject_name. rewrite Ed, Er.
  case_bool_decide as E1; [subst t; split; [intros E; apply Ok_inj in E as <-; by left|]|].
  { intros [[_ ->]|[[E _]|(E & _)]]; [done|discriminate E|by destruct E]. }
  case_bool_decide as E2; [subst t; split; [intros E; apply Ok_inj in E as <-; right; by left|]|].
  { intros [[E _]|[[_ ->]|(_ & E & _)]]; [discriminate E|done|by destruct E]. }
  destruct (name_map c !! t) as [x|] eqn:E; cbn; split.
  - intros E'. apply Ok_inj in E' as <-. right. right. apply Hn in E. naive_solver.
  - intros [[? _]|[[? _]|(_ & _ & Hk)]]; [done..|]. apply Hn in Hk. congruence.
  - done.
  - intros [[? _]|[[? _]|(_ & _ & Hk)]]; [done..|]. apply Hn in Hk. congruence.
Qed.

Lemma get_targets_stands kn c l : names_ok kn c -> forall r, get_targets c l = Ok r <-> Forall2 (stands_in kn) l r.
Proof.
  intros Hc. induction l as [|t l IH]; intros r; cbn [get_targets].
  - split; [intros E; apply Ok_inj in E as <-; constructor|]. by intros ->%Forall2_nil_inv_l.
  - split.
    + intros E. bind_ok E. apply Ok_inj in E as <-. constructor; [by apply (get_target_stands kn c)|by apply IH].
    + intros (x & r' & Hx & Hr & ->)%Forall2_cons_inv_l. apply (get_target_stands kn c) in Hx; [|done]. apply IH in Hr.
      by rewrite Hx, Hr.
Qed.

Lemma last_named_app l p x : last_named (l ++ [p]) x = if bool_decide (p_name p = x) then Some p else last_named l x.
Proof. unfold last_named. rewrite rev_app_distr. done. Qed.

Definition map_ok (l : list Proxy) (m : gmap bytes Proxy) : Prop := forall x, m !! x = last_named l x.

Lemma relay_chain c m l : map_ok (proxies cc) m -> forall acc n, relay_net c m l acc = Ok n ->
  exists ps, Forall2 (fun x p => last_named (proxies cc) x = Some p) l ps /\ chain ps acc = Ok n.
Proof.
  intros Hm. induction l as [|x l IH]; intros acc n; cbn [relay_net]; [by exists []|]. intros E. bind_ok E.
  rewrite Hm in Ea. destruct (last_named (proxies cc) x) as [p|] eqn:Ex; [|done]. apply Ok_inj in Ea as <-.
  destruct (IH _ _ E) as (ps & Hps & Hc). exists (p :: ps). split; [by constructor|]. cbn. by rewrite Ea0.
Qed.

Lemma select_net_selects l : selects (select_net l) l.
Proof. by destruct l. Qed.

Lemma group_origin c m g n : names_ok known c -> map_ok (proxies cc) m -> proxy_group_to_net c g m = Ok n -> group_net g n.
Proof.
  intros Hc Hm E. unfold proxy_group_to_net in E. bind_ok E. apply (get_targets_stands known) in Ea; [|done].
  exists a. split; [done|]. unfold select_kind. case_bool_decide as E1.
  { left. apply Ok_inj in E as <-. split; [by left|apply select_net_selects]. }
  destruct (bool_decide (proxy_group_type g = lit "url-test") || bool_decide (proxy_group_type g = lit "fallback")) eqn:E2.
  { left. apply Ok_inj in E as <-. split; [|apply select_net_selects]. right.
    apply orb_true_iff in E2 as [E2|E2]; apply bool_decide_eq_true in E2; [by left|by right; left]. }
  case_bool_decide as E3; [|done]. right. split; [done|].
  destruct (relay_chain _ _ _ Hm _ _ E) as (ps & Hps & Hch). exists ps. split; [done|].
  destruct Hc as [(_ & _ & _ & _ & En & _) _]. unfold base_proxy_net in *. by rewrite <- En.
Qed.

Lemma group_select c m g l : names_ok known c -> select_kind (proxy_group_type g) -> Forall2 stands (g_proxies g) l ->
  is_ok (proxy_group_to_net c g m) = true.
Proof.
  intros Hc Ht Hl. unfold proxy_group_to_net. apply (get_targets_stands known c) in Hl; [|done]. rewrite Hl. cbn [mbind res_bind].
  destruct Ht as [E|[E|[E|[]]]]; rewrite <- E; done.
Qed.

Lemma arg_target_stands c ps d t : names_ok known c ->
  arg_target c ps = Ok (d, t) <-> exists u rest, ps = d :: u :: rest /\ stands u t.
Proof.
  intros Hc. unfold arg_target. split.
  - destruct ps as [|x [|y ps]]; try done. intros E. bind_ok E. apply Ok_inj in E. injection E as <- <-.
    exists y, ps. split; [done|]. by apply (get_target_stands known c).
  - intros (u & rest & -> & Hs). apply (get_target_stands known c) in Hs; [|done]. by rewrite Hs.
Qed.

Lemma cidrs_spec l : forall r, cidrs cidr_from_str l = Ok r <-> Forall2 (fun a x => cidr_from_str a = Ok x) l r.
Proof.
  induction l as [|a l IH]; intros r; cbn [cidrs].
  - split; [intros E; apply Ok_inj in E as <-; constructor|]. by intros ->%Forall2_nil_inv_l.
  - split.
    + intros E. bind_ok E. apply Ok_inj in E as <-. constructor; [done|by apply IH].
    + intros (x & r' & Hx & Hr & ->)%Forall2_cons_inv_l. apply IH in Hr. by rewrite Hx, Hr.
Qed.

(** A rule set read. *)
Lemma rule_set_means c (cache : S) set t : let '(cache', r) := rule_set cidr_from_str parse_rule_set env c cache (rule_providers cc) set t in
  cached cache cache' /\
  match r with
  | Ok i => exists m, i = mkRule t tt m /\ matches cache (lit "RULE-SET") set m
  | Err _ => forall m, ~ matches cache (lit "RULE-SET") set m
  end.
Proof.
  unfold rule_set. destruct (rule_providers cc !! set) as [rp|] eqn:Erp.
  2: { split; [by left|]. intros m Hm. inversion Hm; congruence. }
  assert (Hsrc : forall src, (if bool_decide (rule_type rp = lit "http") then Some (new_poll (rp_url rp) (Some (rp_interval rp)))
      else if bool_decide (rule_type rp = lit "file") then Some (new_path (rp_path rp)) else None) = Some src <-> provided rp src).
  { unfold provided. intros src. case_bool_decide as A; [|case_bool_decide as B]; (split; [intros [= <-]|]); auto;
      intros [[A' ->]|[B' ->]]; try done. rewrite A in B'. discriminate B'. }
  destruct (if bool_decide (rule_type rp = lit "http") then _ else _) as [src|].
  2: { split; [by left|]. intros m Hm. inversion Hm as [| | | | | | |? ? ? ? ? Hrp Hpr|? ? ? ? ? ? Hrp Hpr]; subst;
      rewrite Erp in Hrp; injection Hrp as <-; apply Hsrc in Hpr; done. }
  assert (Hp : provided rp src) by (by apply Hsrc). assert (Hu : forall src', provided rp src' -> src' = src).
  { intros src' Hs. apply Hsrc in Hs. by injection Hs as <-. }
  destruct (get_content env cache src) as [cache' content] eqn:Eg. split; [right; exists set, rp, src; by rewrite Eg|].
  assert (Hinv : forall m, matches cache (lit "RULE-SET") set m -> exists text l, content = Ok text /\ parse_rule_set text = Ok l /\
    ((behavior rp = lit "domain" /\ m = MDomain (mkDomainMatcher Match (cvs_from_iter l))) \/
     (behavior rp = lit "ipcidr" /\ exists xs, cidrs cidr_from_str l = Ok xs /\ m = MIpCidr (Vec xs)))).
  { intros m Hm. inversion Hm as [| | | | | | |? ? ? ? ? Hrp Hpr Hg|? ? ? ? ? ? Hrp Hpr Hg ? ? Hx]; subst;
      rewrite Erp in Hrp; injection Hrp as <-; apply Hu in Hpr as ->; rewrite Eg in Hg; cbn in Hg; subst content;
      eexists _, _; (split; [done|]); (split; [done|]); [by left|right]. split; [done|]. eexists. split; [by apply cidrs_spec|done]. }
  destruct content as [text|e]; cbn [mbind res_bind]; [|intros m Hm; apply Hinv in Hm as (? & ? & ? & ? & [[? _]|[? (? & ? & _)]]); congruence].
  destruct (parse_rule_set text) as [l|e] eqn:El; cbn [mbind res_bind]; [|intros m Hm; apply Hinv in Hm as (? & ? & ? & ? & [[? _]|[? (? & ? & _)]]); congruence].
  case_bool_decide as E1; [eexists; split; [reflexivity|]; econstructor; eauto; by rewrite Eg|].
  case_bool_decide as E2; [|intros m Hm; apply Hinv in Hm as (? & ? & ? & ? & [[? _]|[? (? & ? & _)]]); congruence].
  destruct (cidrs cidr_from_str l) as [xs|e] eqn:Ex; cbn [mbind res_bind]; [|intros m Hm; apply Hinv in Hm as (? & ? & ? & ? & [[? _]|[? (? & ? & _)]]); congruence].
  eexists. split; [reflexivity|]. apply cidrs_spec in Ex. eapply m_cidrs; eauto. by rewrite Eg.
Qed.

(** The types with an argument that read no set. *)
Definition plain_matcher (ty arg : bytes) : option (res (@Matcher IpCidr)) :=
  let domain m := Some (Ok (MDomain (mkDomainMatcher m (cvs_from_iter [arg])))) in
  if bool_decide (ty = lit "DOMAIN-SUFFIX") then domain Suffix
  else if bool_decide (ty = lit "DOMAIN-KEYWORD") then domain Keyword
  else if bool_decide (ty = lit "DOMAIN") then domain Match
  else if bool_decide (ty = lit "IP-CIDR") || bool_decide (ty = lit "IP-CIDR6") then
    Some (x ← cidr_from_str arg; Ok (MIpCidr (Single x)))
  else if bool_decide (ty = lit "SRC-IP-CIDR") then Some (x ← cidr_from_str arg; Ok (MSrcIpCidr (Single x)))
  else if bool_decide (ty = lit "GEOIP") then Some (Ok (MGeoIp arg))
  else None.

Lemma plain_matcher_matches (cache : S) ty arg m : ty <> lit "RULE-SET" ->
  matches cache ty arg m <-> plain_matcher ty arg = Some (Ok m).
Proof.
  intros Hne. split.
  - intros Hm. inversion Hm as [| | |? ? E|? ? E|? ? E| | |]; subst; try done; unfold plain_matcher; cbn; by rewrite E.
  - unfold plain_matcher. repeat case_bool_decide; subst; cbn; intros [= <-] || (intros [= E]; bind_ok E; apply Ok_inj in E as <-) || done;
      by constructor.
Qed.

Lemma means_split (cache : S) r i : means cache r i ->
  (exists t n rest, split_on 44 r = lit "MATCH" :: t :: rest /\ stands t n /\ i = mkRule n tt MAny) \/
  (exists ty arg t n m rest, split_on 44 r = ty :: arg :: t :: rest /\ matches cache ty arg m /\ stands t n /\ i = mkRule n tt m).
Proof. intros [t n rest H1 H2|ty arg t n m rest H1 H2 H3]; [left; by exists t, n, rest|right; by exists ty, arg, t, n, m, rest]. Qed.

Definition answers (cache : S) (r : bytes) (x : res (@RuleItem IpCidr unit)) : Prop :=
  match x with Ok i => means cache r i | Err _ => forall i, ~ means cache r i end.

(** A rule of a type with an argument. *)
Lemma arg_answers c (cache : S) r ty ps (fm : bytes -> res (@Matcher IpCidr)) : names_ok known c -> split_on 44 r = ty :: ps ->
  ty <> lit "MATCH" -> (forall d m, fm d = Ok m <-> matches cache ty d m) ->
  answers cache r ('(d, t) ← arg_target c ps; m ← fm d; Ok (mkRule t tt m)).
Proof.
  intros Hc Er Hty Hfm. unfold answers. destruct (arg_target c ps) as [[d t]|e] eqn:Ea; cbn.
  - apply (arg_target_stands c) in Ea as (u & rest & -> & Hu); [|done]. destruct (fm d) as [m|e] eqn:Em; cbn.
    + eapply means_arg; [exact Er|by apply Hfm|done].
    + intros i Hi. apply means_split in Hi as [(? & ? & ? & E & _)|(ty' & d' & ? & ? & m & ? & E & Hm & _)]; rewrite Er in E; [congruence|].
      injection E as <- <- <- <-. apply Hfm in Hm. congruence.
  - intros i Hi. apply means_split in Hi as [(? & ? & ? & E & _)|(ty' & d' & u & n & m & rest & E & _ & Hu & _)]; rewrite Er in E; [congruence|].
    injection E as <- ->. assert (arg_target c (d' :: u :: rest) = Ok (d', n)) by (apply arg_target_stands; [done|by exists u, rest]). congruence.
Qed.

Lemma rule_to_rule_means c (cache : S) r : names_ok known c ->
  let '(cache', x) := rule_to_rule cidr_from_str parse_rule_set env c cache (rule_providers cc) r in
  cached cache cache' /\ answers cache r x.
Proof.
  intros Hc. unfold rule_to_rule. destruct (split_on 44 r) as [|ty ps] eqn:Er.
  { split; [by left|]. intros i Hi. apply means_split in Hi as [(? & ? & ? & E & _)|(? & ? & ? & ? & ? & ? & E & _)]; rewrite Er in E; discriminate E. }
  assert (Hplain : forall fm : bytes -> res (@Matcher IpCidr), ty <> lit "MATCH" -> ty <> lit "RULE-SET" ->
    (forall d, plain_matcher ty d = Some (fm d)) ->
    cached cache cache /\ answers cache r ('(d, t) ← arg_target c ps; m ← fm d; Ok (mkRule t tt m))).
  { intros fm H1 H2 Hfm. split; [by left|]. eapply arg_answers; [done|exact Er|done|]. intros d m.
    rewrite plain_matcher_matches, Hfm by done. split; [by intros ->|by intros [= ->]]. }
  case_bool_decide as E1; [subst ty; by apply (Hplain (fun d => Ok (MDomain (mkDomainMatcher Suffix (cvs_from_iter [d])))))|].
  case_bool_decide as E2; [subst ty; by apply (Hplain (fun d => Ok (MDomain (mkDomainMatcher Keyword (cvs_from_iter [d])))))|].
  case_bool_decide as E3; [subst ty; by apply (Hplain (fun d => Ok (MDomain (mkDomainMatcher Match (cvs_from_iter [d])))))|].
  assert (Hcidr : forall mk : IpCidr -> @Matcher IpCidr, (forall d, plain_matcher ty d = Some (x ← cidr_from_str d; Ok (mk x))) ->
    ty <> lit "MATCH" -> ty <> lit "RULE-SET" ->
    cached cache cache /\ answers cache r ('(a, t) ← arg_target c ps; x ← cidr_from_str a; Ok (rule_item t (mk x)))).
  { intros mk Hmk H1 H2. destruct (Hplain (fun d => x ← cidr_from_str d; Ok (mk x)) H1 H2 Hmk) as [Ha Hb]. split; [done|].
    destruct (arg_target c ps) as [[d t]|e]; [|done]. cbn in *. by destruct (cidr_from_str d). }
  destruct (bool_decide (ty = lit "IP-CIDR") || bool_decide (ty = lit "IP-CIDR6")) eqn:E4.
  { apply orb_true_iff in E4 as [E4|E4]; apply bool_decide_eq_true in E4; subst ty; by apply (Hcidr (fun x => MIpCidr (Single x))). }
  apply orb_false_iff in E4 as [E4%bool_decide_eq_false E4'%bool_decide_eq_false].
  case_bool_decide as E5; [subst ty; by apply (Hcidr (fun x => MSrcIpCidr (Single x)))|].
  case_bool_decide as E6.
  { subst ty. split; [by left|]. destruct ps as [|t ps].
    - intros i Hi. apply means_split in Hi as [(? & ? & ? & E & _)|(? & ? & ? & ? & ? & ? & E & _)]; rewrite Er in E; discriminate E.
    - destruct (get_target c t) as [n|e] eqn:Et; cbn.
      + eapply means_match; [exact Er|]. by apply (get_target_stands known c).
      + intros i Hi. apply means_split in Hi as [(t' & n & ? & E & Hs & _)|(ty' & ? & ? & ? & m & ? & E & Hm & _)]; rewrite Er in E.
        * injection E as <- <-. apply (get_target_stands known c) in Hs; [congruence|done].
        * injection E as <- _. inversion Hm. }
  case_bool_decide as E7; [subst ty; by apply (Hplain (fun d => Ok (MGeoIp d)))|].
  case_bool_decide as E8.
  { subst ty. destruct (arg_target c ps) as [[set t]|e] eqn:Ea.
    - pose proof (rule_set_means c cache set t) as Hs. destruct (rule_set _ _ _ _ _ _ _ _) as [cache' x]. destruct Hs as [Hca Hs].
      split; [done|]. apply (arg_target_stands c) in Ea as (u & rest & -> & Hu); [|done]. destruct x as [i|e]; cbn.
      + destruct Hs as (m & -> & Hm). by eapply means_arg.
      + intros i Hi. apply means_split in Hi as [(? & ? & ? & E & _)|(ty' & d' & ? & ? & m & ? & E & Hm & _)]; rewrite Er in E; [discriminate E|].
        injection E as <- <- <- <-. by apply (Hs m).
    - split; [by left|]. intros i Hi. apply means_split in Hi as [(? & ? & ? & E & _)|(ty' & d' & u & n & m & rest & E & _ & Hu & _)]; rewrite Er in E; [discriminate E|].
      injection E as <- ->. assert (arg_target c (d' :: u :: rest) = Ok (d', n)) by (apply arg_target_stands; [done|by exists u, rest]). congruence. }
  split; [by left|]. intros i Hi. apply means_split in Hi as [(? & ? & ? & E & _)|(ty' & ? & ? & ? & m & ? & E & Hm & _)]; rewrite Er in E.
  - congruence.
  - injection E as <- _. inversion Hm; congruence.
Qed.

Lemma translate_rules_means c l : names_ok known c -> forall cache : S,
  means_all cache l (translate_rules cidr_from_str parse_rule_set env c (rule_providers cc) cache l).2.
Proof.
  intros Hc. induction l as [|r l IH]; intros cache; cbn [translate_rules]; [constructor|].
  pose proof (rule_to_rule_means c cache r Hc) as Hr. destruct (rule_to_rule _ _ _ _ _ _ _) as [cache1 x]. destruct Hr as [Hca Hr].
  specialize (IH cache1). destruct (translate_rules _ _ _ _ _ _ _) as [cache2 items]. cbn in *.
  destruct x as [i|e]; [by eapply all_item|by eapply all_drop].
Qed.

Lemma names_known c : names_ok (fun t => exists p, p ∈ proxies cc /\ p_name p = t) c -> disable_proxy_group c0 = true -> names_ok known c.
Proof.
  intros [Hs Hn] Hd. split; [done|]. intros t n. rewrite Hn. unfold known, proxy_name, group_name. rewrite Hd. naive_solver.
Qed.

Definition origin (cache : S) (k : bytes) (n : Net) : Prop :=
  from_proxy k n \/ from_group k n \/ from_rules cache k n \/ from_select k n.

Section Nets.
Context (old : ConfigNet) (cache : S).

Definition nets_ok (nets : ConfigNet) : Prop :=
  (forall k n, im_get nets k = Some n -> im_get old k = Some n \/ origin cache k n) /\
  (forall k, is_Some (im_get old k) -> is_Some (im_get nets k)) .

Lemma nets_ok_insert nets k n : nets_ok nets -> origin cache k n -> nets_ok (im_insert nets k n).
Proof.
  intros [Ho Hk] Hn. split; intros k'.
  - intros n'. rewrite im_get_insert. destruct (decide (k' = k)) as [->|]; [intros [= <-]; by right|apply Ho].
  - intros Hs. rewrite im_get_insert. destruct (decide (k' = k)); [by eexists|by apply Hk].
Qed.

(** After the proxies [done_]. *)
Definition in_names (l : list Proxy) (t : bytes) : Prop := exists p, p ∈ l /\ p_name p = t.

Lemma add_proxies_spec l : forall done_ c nets m added, Forall (fun p => p ∈ proxies cc) l ->
  names_ok (in_names done_) c -> nets_ok nets -> map_ok done_ m ->
  let '(c', nets', m', added') := fold_left add_proxy l (c, nets, m, added) in
  names_ok (in_names (done_ ++ l)) c' /\ nets_ok nets' /\ map_ok (done_ ++ l) m' /\
  added' = added ++ map (fun p => prefix c0 (p_name p)) l /\
  (forall k, is_Some (im_get nets k) \/ (exists p, p ∈ l /\ k = prefix c0 (p_name p)) -> is_Some (im_get nets' k)).
Proof.
  induction l as [|p l IH]; intros done_ c nets m added Hl Hc Hn Hm; cbn [fold_left].
  { rewrite !app_nil_r. split_and!; try done. intros k [?|(p & Hp & _)]; [done|by apply elem_of_nil in Hp]. }
  inversion Hl as [|? ? Hp Hl']; subst. destruct (add_proxy (c, nets, m, added) p) as [[[c1 nets1] m1] added1] eqn:E.
  unfold add_proxy in E. injection E as <- <- <- <-. pose proof Hc as [Hso Hno]. pose proof (same_prefix c (p_name p) Hso) as Hpre.
  specialize (IH (done_ ++ [p])
    (mkClash (rule_name c) (c_prefix c) (direct c) (reject c) (c_net c) (disable_proxy_group c) (c_select c) (<[p_name p:=prefix c (p_name p)]> (name_map c)))
    (im_insert nets (prefix c (p_name p)) (match proxy_to_net p (proxy_target_net c) with Ok n => n | Err _ => ghost_net end))
    (<[p_name p:=p]> m) (added ++ [prefix c (p_name p)]) Hl').
  destruct (fold_left add_proxy l _) as [[[c' nets'] m'] added']. rewrite <- app_assoc in IH. destruct IH as (H1 & H2 & H3 & H4 & H5).
  - split; [done|]. cbn. intros t n. rewrite lookup_insert_Some, Hno, Hpre. unfold in_names. split.
    + intros [[<- <-]|[_ [(q & Hq & <-) ->]]]; (split; [|done]); [exists p|exists q]; set_solver.
    + intros [(q & [Hq|Hq%list_elem_of_singleton]%elem_of_app & <-) ->]; [|left; by subst q].
      destruct (decide (p_name p = p_name q)) as [Eq|]; [left; by rewrite Eq|right]. split; [done|]. split; [by exists q|done].
  - apply nets_ok_insert; [done|]. left. exists p. split; [done|]. split; [exact Hpre|].
    replace (proxy_target_net c0) with (proxy_target_net c); [by destruct (proxy_to_net p (proxy_target_net c))|].
    destruct Hso as (_ & _ & _ & _ & En & _). unfold proxy_target_net. by rewrite En.
  - intros x. rewrite last_named_app. case_bool_decide as Ex; [subst x; by rewrite lookup_insert_eq|by rewrite lookup_insert_ne].
  - split_and!; try done.
    + rewrite H4, <- app_assoc. cbn. by rewrite Hpre.
    + intros k Hk. apply H5. rewrite im_get_insert. destruct (decide (k = prefix c (p_name p))) as [->|Hne]; [left; by eexists|].
      destruct Hk as [Hk|(q & [->|Hq]%elem_of_cons & ->)]; [by left| |right; by exists q].
      by destruct Hne.
Qed.

Definition or_groups (kn : bytes -> Prop) (l : list ProxyGroup) (t : bytes) : Prop := kn t \/ exists g, g ∈ l /\ g_name g = t.

Lemma names_ok_ext kn kn' c : (forall t, kn t <-> kn' t) -> names_ok kn c -> names_ok kn' c.
Proof. intros He [Hs Hn]. split; [done|]. intros t n. by rewrite Hn, He. Qed.

Lemma name_groups_spec l : forall kn c, names_ok kn c -> names_ok (or_groups kn l) (fold_left name_group l c).
Proof.
  induction l as [|g l IH]; intros kn c Hc; cbn [fold_left].
  { apply (names_ok_ext kn); [|done]. intros t. split; [by left|]. intros [?|(g & Hg & _)]; [done|by apply elem_of_nil in Hg]. }
  apply (names_ok_ext (or_groups (fun t => kn t \/ t = g_name g) l)).
  { unfold or_groups. intros t. set_solver. }
  apply IH. destruct Hc as [Hso Hno]. split; [done|]. cbn. unfold proxy_group_name. intros t n.
  rewrite lookup_insert_Some, Hno, (same_prefix c (g_name g) Hso). split.
  - intros [[<- <-]|[_ [Hk ->]]]; auto.
  - intros [[Hk| ->] ->]; [|by left]. destruct (decide (g_name g = t)) as [<-|]; [by left|by right].
Qed.

Lemma add_groups_spec c m l : forall nets, Forall (fun g => g ∈ proxy_groups cc) l -> disable_proxy_group c0 = false ->
  names_ok known c -> map_ok (proxies cc) m -> nets_ok nets ->
  nets_ok (fold_left (add_group c m) l nets) /\
  (forall k, is_Some (im_get nets k) \/
     (exists g ns, g ∈ l /\ k = prefix c0 (g_name g) /\ select_kind (proxy_group_type g) /\ Forall2 stands (g_proxies g) ns) ->
   is_Some (im_get (fold_left (add_group c m) l nets) k)).
Proof.
  induction l as [|g l IH]; intros nets Hl Hd Hc Hm Hn; cbn [fold_left].
  { split; [done|]. intros k [Hk|(g & ns & Hg & _)]; [done|]. by apply elem_of_nil in Hg. }
  inversion Hl as [|? ? Hg Hl']; subst.
  assert (Hg' : nets_ok (add_group c m nets g) /\ (forall k, is_Some (im_get nets k) -> is_Some (im_get (add_group c m nets g) k)) /\
    (is_ok (proxy_group_to_net c g m) = true -> is_Some (im_get (add_group c m nets g) (prefix c0 (g_name g))))).
  { unfold add_group, proxy_group_name. rewrite same_prefix by apply Hc.
    destruct (proxy_group_to_net c g m) as [n|e] eqn:E; [|by split_and!]. split_and!.
    - apply nets_ok_insert; [done|]. right. left. split; [done|]. exists g. split; [done|]. split; [done|]. by eapply group_origin.
    - intros k Hk. rewrite im_get_insert. destruct (decide _); [by eexists|done].
    - intros _. rewrite im_get_insert, decide_True by done. by eexists. }
  destruct Hg' as (Hg1 & Hg2 & Hg3). destruct (IH _ Hl' Hd Hc Hm Hg1) as [H1 H2]. split; [done|]. intros k Hk. apply H2.
  destruct Hk as [Hk|(g' & ns & [->|Hin]%elem_of_cons & -> & Ht & Hns)]; [left; by apply Hg2| |right; by exists g', ns].
  left. apply Hg3. by eapply group_select.
Qed.

(** The groups, named and added unless they are disabled. *)
Lemma groups_spec c m nets : names_ok (in_names (proxies cc)) c -> map_ok (proxies cc) m -> nets_ok nets ->
  let '(c', nets') := if disable_proxy_group c then (c, nets) else
      (fold_left name_group (proxy_groups cc) c, fold_left (add_group (fold_left name_group (proxy_groups cc) c) m) (proxy_groups cc) nets) in
  names_ok known c' /\ nets_ok nets' /\
  (forall k, is_Some (im_get nets k) \/
     (exists g ns, g ∈ proxy_groups cc /\ disable_proxy_group c0 = false /\ k = prefix c0 (g_name g) /\
        select_kind (proxy_group_type g) /\ Forall2 stands (g_proxies g) ns) -> is_Some (im_get nets' k)).
Proof.
  intros Hc Hm Hn. pose proof Hc as [(_ & _ & _ & _ & _ & Ed & _) _]. destruct (disable_proxy_group c) eqn:E.
  - split_and!; [apply names_known; [done|congruence]|done|]. intros k [Hk|(g & ns & _ & Hd & _)]; [done|congruence].
  - assert (Hk : names_ok known (fold_left name_group (proxy_groups cc) c)).
    { apply (names_ok_ext (or_groups (in_names (proxies cc)) (proxy_groups cc))); [|by apply name_groups_spec].
      intros t. unfold or_groups, known, proxy_name, group_name, in_names. rewrite <- Ed. naive_solver. }
    split; [done|]. destruct (add_groups_spec (fold_left name_group (proxy_groups cc) c) m (proxy_groups cc) nets) as [H1 H2]; try done.
    { by apply Forall_forall. }
    split; [done|]. intros k Hx. apply H2. naive_solver.
Qed.

End Nets.
End Origin.

Lemma is_some_insert {A} (m : list (bytes * A)) k v k' : is_Some (im_get m k') -> is_Some (im_get (im_insert m k v) k').
Proof. intros Hk. rewrite im_get_insert. destruct (decide _); [by eexists|done]. Qed.

(** C35: A fresh importer's import of a Clash configuration that parses always
    succeeds and leaves the servers, the identity and every net in place,
    though a net may be overwritten.  Every net there was not before comes
    from one thing in the Clash configuration: a proxy, by its translation or
    else the ghost; a group, a select net of its members in order or, for a
    relay, the chain of the proxies called as its members' nets are, each
    through the one before; the rules, each translated by its own type,
    argument and target, in order, those that cannot be left out, and merged;
    or the select net of all proxies, in order.  A member or a target stands
    for the net configured for DIRECT or REJECT, or of the proxy or group of
    that name.  Every proxy, and every group to select from whose members are
    all known, has a net, and so have the rules and the selection when they
    are asked for. *)
Theorem clash_import_origin {IpCidr} (cidr_from_str : bytes -> res IpCidr) parse_rule_set parse_clash rules_to_value
    {S} `{Storage S} env (c0 : Clash) cc config content (cache : S) :
  name_map c0 = ∅ -> parse_clash content = Ok cc ->
  let '(_, config', r) := clash_process cidr_from_str parse_rule_set parse_clash rules_to_value env c0 config content cache in
  let now k := im_get (cfg_net config') k in
  is_ok r = true /\ cfg_id config' = cfg_id config /\ cfg_server config' = cfg_server config /\
  (forall k n, now k = Some n -> im_get (cfg_net config) k = Some n \/
     origin cidr_from_str parse_rule_set rules_to_value env c0 cc cache k n) /\
  (forall k, is_Some (im_get (cfg_net config) k) -> is_Some (now k)) /\
  (forall p, p ∈ proxies cc -> is_Some (now (prefix c0 (p_name p)))) /\
  (forall g l, g ∈ proxy_groups cc -> disable_proxy_group c0 = false -> select_kind (proxy_group_type g) ->
     Forall2 (stands c0 cc) (g_proxies g) l -> is_Some (now (prefix c0 (g_name g)))) /\
  (forall k, c_select c0 = Some k -> exists n, now k = Some n /\ from_select c0 cc k n) /\
  (forall k, rule_name c0 = Some k -> c_select c0 <> Some k ->
     exists n, now k = Some n /\ from_rules cidr_from_str parse_rule_set rules_to_value env c0 cc cache k n).
Proof.
  intros Hnm Hp. unfold clash_process. rewrite Hp.
  assert (Hsub : forall X (l : list X), Forall (fun x => x ∈ l) l) by (intros X l; by apply Forall_forall).
  set (ok := nets_ok cidr_from_str parse_rule_set rules_to_value env c0 cc (cfg_net config) cache).
  pose proof (add_proxies_spec cidr_from_str parse_rule_set rules_to_value env c0 cc (cfg_net config) cache
    (proxies cc) [] c0 (cfg_net config) ∅ [] (Hsub _ _)) as Ha.
  destruct (fold_left add_proxy (proxies cc) (c0, cfg_net config, ∅, [])) as [[[c1 nets1] m1] added].
  destruct Ha as (Hc1 & Hn1 & Hm1 & Had & Hk1).
  { split; [done|]. intros t n. rewrite Hnm, lookup_empty. split; [done|]. intros [(p & Hin & _) _]. by apply elem_of_nil in Hin. }
  { split; [by left|done]. }
  { intros x. by rewrite lookup_empty. }
  cbn [app] in Hc1, Hm1, Had. set (has := fun (nets : ConfigNet) => forall k, is_Some (im_get nets1 k) \/
     (exists g ns, g ∈ proxy_groups cc /\ disable_proxy_group c0 = false /\ k = prefix c0 (g_name g) /\
        select_kind (proxy_group_type g) /\ Forall2 (stands c0 cc) (g_proxies g) ns) -> is_Some (im_get nets k)).
  assert (Hg : let '(c2, nets2) := if disable_proxy_group c1 then (c1, nets1) else
      (fold_left name_group (proxy_groups cc) c1, fold_left (add_group (fold_left name_group (proxy_groups cc) c1) m1) (proxy_groups cc) nets1) in
    names_ok c0 (known c0 cc) c2 /\ ok nets2 /\ has nets2) by (by apply groups_spec).
  destruct (if disable_proxy_group c1 then _ else _) as [c2 nets2]. destruct Hg as (Hc2 & Hn2 & Hk2).
  pose proof Hc2 as [(Er & _ & _ & _ & _ & _ & Es) _].
  assert (Hr : let '(_, nets3) := match rule_name c2 with
      | Some name => let '(cache, items) := translate_rules cidr_from_str parse_rule_set env c2 (rule_providers cc) cache (rules cc) in
        (cache, im_insert nets2 name (mkNet (lit "rule") (VObj [(lit "rule", rules_to_value (merge_rules items))])))
      | None => (cache, nets2) end in ok nets3 /\ has nets3 /\
      (forall k, rule_name c0 = Some k -> exists n, im_get nets3 k = Some n /\
         from_rules cidr_from_str parse_rule_set rules_to_value env c0 cc cache k n)).
  { rewrite Er. destruct (rule_name c0) as [name|] eqn:Ern; [|by split_and!].
    pose proof (translate_rules_means cidr_from_str parse_rule_set env c0 cc c2 (rules cc) Hc2 cache) as Ht.
    destruct (translate_rules _ _ _ _ _ _ _) as [cache' items]. cbn [snd] in Ht.
    assert (Hf : from_rules cidr_from_str parse_rule_set rules_to_value env c0 cc cache name
      (mkNet (lit "rule") (VObj [(lit "rule", rules_to_value (merge_rules items))]))) by (split; [done|]; by exists items).
    split_and!.
    - apply nets_ok_insert; [done|]. right. right. by left.
    - intros k Hk. by apply is_some_insert, Hk2.
    - intros k [= <-]. eexists. rewrite im_get_insert, decide_True by done. by split. }
  destruct (match rule_name c2 with Some _ => _ | None => _ end) as [cache' nets3]. destruct Hr as (Hn3 & Hk3 & Hr3).
  rewrite Es. assert (Hs : let nets4 := match c_select c0 with Some s => im_insert nets3 s (select_net added) | None => nets3 end in
    ok nets4 /\ has nets4 /\ (forall k, c_select c0 = Some k -> exists n, im_get nets4 k = Some n /\ from_select c0 cc k n) /\
    (forall k, c_select c0 <> Some k -> im_get nets4 k = im_get nets3 k)).
  { destruct (c_select c0) as [sel|] eqn:Esel; [|by split_and!].
    assert (Hf : from_select c0 cc sel (select_net added)) by (split; [done|]; rewrite Had; apply select_net_selects). split_and!.
    - apply nets_ok_insert; [done|]. by right; right; right.
    - intros k Hk. by apply is_some_insert, Hk3.
    - intros k [= <-]. eexists. rewrite im_get_insert, decide_True by done. by split.
    - intros k Hk. rewrite im_get_insert, decide_False by congruence. done. }
  destruct Hs as ([Ho Hk] & Hk4 & Hs1 & Hs2). split_and!; try done.
  - intros p Hin. apply Hk4. left. apply Hk1. right. by exists p.
  - intros g l Hin Hd Ht Hl. apply Hk4. right. by exists g, l.
  - intros k Hrn Hsel. rewrite Hs2 by done. by apply Hr3.
Qed.

(** ** The other importers and the configuration *)

Section Manager.
Context {IpCidr : Type} (cidr_from_str : bytes -> res IpCidr).
Context (parse_rule_set : bytes -> res (list bytes)) (parse_clash : bytes -> res ClashConfig).
Context (rules_to_value : list (@RuleItem IpCidr unit) -> Value).
(** [serde_yaml] at a [Config], [deserialize_config]; [serde_json] at the
    importer's options and at a selection map. *)
Context (parse_config : bytes -> res Config).
Context (clash_of_value : Value -> res Clash) (map_from_str : bytes -> option SelectMap).
Context (rhai : Config -> bytes -> Config * res unit).
Context {S : Type} `{Storage S} (env : Env).

(* src/src/config.rs:252-263 Import *)
Record Import : Type := mkImport { i_name : option bytes; format : bytes; source : ImportSource; i_opt : Value }.

Context (deserialize_config : bytes -> res (Config * list Import)).

(* src/src/config/importer/merge.rs:14-23 Merge::process *)
Definition merge_process (config : Config) (content : bytes) : Config * res unit :=
  match parse_config content with
  | Ok other => (merge config other, Ok tt)
  | Err e => (config, Err e)
  end.

(** The importers by name, each applied once built from the options. *)
(* src/src/config/importer.rs:36-46 get_importer *)
Definition get_importer (i : Import) : res (Config -> bytes -> S -> S * Config * res unit) :=
  if bool_decide (format i = lit "clash") then
    c ← clash_of_value (i_opt i);
    Ok (fun config content cache =>
      let '(cache, config, r) := clash_process cidr_from_str parse_rule_set parse_clash rules_to_value env c config content cache in
      (cache, config, match r with Ok _ => Ok tt | Err e => Err e end))
  else if bool_decide (format i = lit "merge") then
    Ok (fun config content cache => let '(config, r) := merge_process config content in (cache, config, r))
  else if bool_decide (format i = lit "rhai") then
    Ok (fun config content cache => let '(config, r) := rhai config content in (cache, config, r))
  else Err (EOther "Importer not found").

(* src/src/config/manager.rs:91-96 Import::apply *)
Definition import_apply (i : Import) (config : Config) (cache : S) : S * Config * res unit :=
  match get_importer i with
  | Err e => (cache, config, Err e)
  | Ok process =>
    match get_content env cache (source i) with
    | (cache, Err e) => (cache, config, Err e)
    | (cache, Ok content) => process config content cache
    end
  end.

(** The first import that fails ends it. *)
(* src/src/config/manager.rs:109-113 deserialize_config_from_source (imports) *)
Fixpoint apply_imports (l : list Import) (config : Config) (cache : S) : S * Config * res unit :=
  match l with
  | [] => (cache, config, Ok tt)
  | i :: l =>
    match import_apply i config cache with
    | (cache, config, Ok _) => apply_imports l config cache
    | (cache, config, Err e) => (cache, config, Err (EWithContext "applying import" e))
    end
  end.

(* src/src/config/manager.rs:100-123 deserialize_config_from_source *)
Definition deserialize_config_from_source (select_storage cache : S) (src : ImportSource) : S * res (Config * list Import) :=
  match get_content env cache src with
  | (cache, Err e) => (cache, Err e)
  | (cache, Ok content) =>
    match deserialize_config content with
    | Err e => (cache, Err e)
    | Ok (config, imports) =>
      let config := mkConfig (cache_key env src) (cfg_net config) (cfg_server config) in
      match apply_imports imports config cache with
      | (cache, _, Err e) => (cache, Err e)
      | (cache, config, Ok _) =>
        match select_from_cache map_from_str (cfg_id config) select_storage with
        | Err e => (cache, Err e)
        | Ok m => (cache, Ok (apply_config m config, imports))
        end
      end
    end
  end.

End Manager.

(** ** Samples *)

Definition sample_proxy (n : string) : Proxy :=
  mkProxy (lit n) (lit "ss") (VObj [(lit "server", VStr (lit n)); (lit "port", VNum 443);
    (lit "cipher", VStr (lit "aes-128-gcm")); (lit "password", VStr (lit "p"))]).
Definition sample_clash (pre : option bytes) : Clash := mkClash (Some (lit "rule")) pre None None None false None ∅.
Definition clash_cidr (s : bytes) : res bytes := Ok s.
Definition clash_rules_value (l : list (@RuleItem bytes unit)) : Value := VArr (map (fun i => VStr (target_name i)) l).
Definition clash_run (c : Clash) (cc : ClashConfig) : Config :=
  (clash_process clash_cidr (fun _ => Ok []) (fun _ => Ok cc) clash_rules_value sample_env c (mkConfig [] [] []) [] memory_new).1.2.
Definition sample_relay : ClashConfig :=
  mkClashConfig [sample_proxy "proxy1"; sample_proxy "proxy2"] [mkGroup (lit "relay") (lit "relay") [lit "proxy1"; lit "proxy2"]]
    [lit "DOMAIN,a.test,relay"; lit "DOMAIN,b.test,missing"; lit "MATCH,DIRECT"] ∅.

Definition sample_ss (n : string) : list (bytes * Value) :=
  [(lit "server", VStr (lit n ++ lit ":443")); (lit "cipher", VStr (lit "aes-128-gcm")); (lit "password", VStr (lit "p")); (lit "udp", VBool false)].

(** As in the importer's own test: the second proxy through the first. *)
Example relay_sample :
  im_get (cfg_net (clash_run (sample_clash None) sample_relay)) (lit "relay") =
  Some (mkNet (lit "shadowsocks") (VObj (sample_ss "proxy2" ++ [(lit "net", VObj ((lit "type", VStr (lit "shadowsocks")) ::
    sample_ss "proxy1" ++ [(lit "net", VObj [(lit "type", VStr (lit "alias")); (lit "net", VStr (lit "local"))])]))]))).
Proof. vm_compute. reflexivity. Qed.

(** The rule whose target is not known is dropped, without a word. *)
Example unknown_target_dropped :
  im_get (cfg_net (clash_run (sample_clash None) sample_relay)) (lit "rule") =
  Some (mkNet (lit "rule") (VObj [(lit "rule", VArr [VStr (lit "relay"); VStr (lit "local")])])).
Proof. vm_compute. reflexivity. Qed.

(** With a prefix a relay's members are looked up by their nets' names among
    the proxies' own, and never found: the group has no net, but a rule
    refers to it all the same, and the configuration cannot be built. *)
Lemma relay_with_prefix_lost :
  let nets := cfg_net (clash_run (sample_clash (Some (lit "x"))) sample_relay) in
  im_get nets (lit "x.relay") = None /\
  im_get nets (lit "rule") = Some (mkNet (lit "rule") (VObj [(lit "rule", VArr [VStr (lit "x.relay"); VStr (lit "local")])])).
Proof. vm_compute. done. Qed.

(** The same for a group of an unknown type that another group lists. *)
Lemma failed_group_still_named :
  let nets := cfg_net (clash_run (sample_clash None) (mkClashConfig [sample_proxy "a"]
    [mkGroup (lit "lb") (lit "load-balance") [lit "a"]; mkGroup (lit "s") (lit "select") [lit "lb"]] [] ∅)) in
  im_get nets (lit "lb") = None /\ im_get nets (lit "s") = Some (select_net [lit "lb"]).
Proof. vm_compute. done. Qed.

(** The options written for obfuscation name no [ObfsType]. *)
Lemma obfs_plugin_has_no_type target :
  match ss_net (VObj [(lit "server", VStr (lit "a")); (lit "port", VNum 443); (lit "cipher", VStr []); (lit "password", VStr []);
      (lit "plugin", VStr (lit "obfs")); (lit "plugin-opts", VObj [(lit "mode", VStr (lit "http"))])]) target with
  | Ok n => exists o, field (net_opt n) "net" = Some o /\ field o "http" = None /\ field o "plain" = None /\
      field o "obfs_mode" = Some (VStr (lit "http"))
  | Err _ => False
  end.
Proof. destruct target as [t|]; (eexists; split; [vm_compute; reflexivity|]); vm_compute; done. Qed.

Example clash_proxy_server_witness :
  match proxy_to_net (sample_proxy "proxy1") None with
  | Ok n => exists s, field (net_opt n) "server" = Some (VStr s) /\ into_address s = Ok (ADomain (lit "proxy1") 443)
  | Err _ => False
  end.
Proof.
  destruct (proxy_to_net (sample_proxy "proxy1") None) as [n|] eqn:E; [|vm_compute in E; discriminate E].
  destruct (clash_proxy_server (sample_proxy "proxy1") None n E) as (server & port & Hs & _ & Hp & (s & Hn & Ha) & _).
  exists s. split; [exact Hn|]. rewrite Ha. apply Ok_inj in Hs as <-.
  destruct Hp as [Hp|(s' & Hp & _)]; vm_compute in Hp; [|discriminate Hp]. injection Hp as <-. vm_compute. reflexivity.
Defined.

Lemma clash_import_origin_witness :
  let now k := im_get (cfg_net (clash_run (sample_clash None) sample_relay)) k in
  match now (lit "relay") with
  | Some n => origin clash_cidr (fun _ => Ok []) clash_rules_value sample_env (sample_clash None) sample_relay memory_new (lit "relay") n
  | None => False
  end /\
  exists n, now (lit "rule") = Some n /\
    from_rules clash_cidr (fun _ => Ok []) clash_rules_value sample_env (sample_clash None) sample_relay memory_new (lit "rule") n.
Proof.
  cbv zeta. destruct (im_get (cfg_net (clash_run (sample_clash None) sample_relay)) (lit "relay")) as [n|] eqn:Hk; [|rewrite relay_sample in Hk; discriminate Hk].
  pose proof (clash_import_origin clash_cidr (fun _ => Ok []) (fun _ => Ok sample_relay) clash_rules_value sample_env
    (sample_clash None) sample_relay (mkConfig [] [] []) [] memory_new eq_refl eq_refl) as H.
  unfold clash_run in *. destruct (clash_process _ _ _ _ _ _ _ _ _) as [[cache' config'] r].
  destruct H as (_ & _ & _ & H & _ & _ & _ & _ & Hr). split.
  - destruct (H _ _ Hk) as [H1|H1]; [discriminate H1 | exact H1].
  - apply Hr; [reflexivity|discriminate].
Defined.

End Clash.
Export Clash.
