(* ===== verification/App.v ===== *)
(** * The program around the engine: [src/src/config/manager.rs],
    [src/src/util/], [src/src/service/daemon.rs]

    Configurations come to the engine as a stream: a source is read, and read
    again when it, or something it imports, has changed, until another source
    takes its place.  Here are that stream, the streams it is made of, how the
    daemon restores the last source, and the address it suggests for a TUN
    device. *)

From S2P Require Import Prelude ConnContext Build Storage Source Rule Clash.

Module App.

(** ** [debounce] *)

Section Debounce.
Context {A : Type}.

(** [item] is the last of the inner stream's, if it was not its end; [timer]
    when the sleep ends. *)
(* src/src/util/debounce_stream.rs:13-19 DebounceStream *)
Record DebounceStream : Type := mkDebounce { timer : option Z; item : option A; delay : Z }.

(* src/src/util/debounce_stream.rs:23-33 debounce *)
Definition debounce (duration : Z) : DebounceStream := mkDebounce None None duration.

(** At time [now], the inner stream answering [r]. *)
(* src/src/util/debounce_stream.rs:43-59 DebounceStream::poll_next *)
Definition poll_next (now : Z) (r : poll (option A)) (s : DebounceStream) : DebounceStream * poll (option A) :=
  let s := match r with
    | Ready r => mkDebounce (Some (now + delay s)) r (delay s)
    | Pending => s
    end in
  match timer s with
  | Some t => if t <=? now then (mkDebounce None None (delay s), Ready (item s)) else (s, Pending)
  | None => (s, Pending)
  end.

(** Its polls, one after the other, and what it answers to them. *)
Fixpoint polls (l : list (Z * poll (option A))) (s : DebounceStream) : DebounceStream * list (Z * poll (option A)) :=
  match l with
  | [] => (s, [])
  | (now, r) :: l =>
    let '(s, x) := poll_next now r s in
    let '(s, out) := polls l s in
    (s, (now, x) :: out)
  end.

(** What a quiet time of [delay] after the inner stream's last answer gives:
    that answer, once.  [heard] is the last answer that has not been given. *)
Fixpoint settled (d : Z) (heard : option (Z * option A)) (l : list (Z * poll (option A))) : list (Z * poll (option A)) :=
  match l with
  | [] => []
  | (now, r) :: l =>
    let heard := match r with Ready r => Some (now, r) | Pending => heard end in
    match heard with
    | Some (t, r) => if t + d <=? now then (now, Ready r) :: settled d None l else (now, Pending) :: settled d heard l
    | None => (now, Pending) :: settled d heard l
    end
  end.

Lemma polls_from l : forall d heard s,
  delay s = d -> timer s = option_map (fun tr => tr.1 + d) heard -> item s = match heard with Some (_, r) => r | None => None end ->
  (polls l s).2 = settled d heard l.
Proof.
  induction l as [|[now r] l IH]; intros d heard s Hd Ht Hi; [done|]. cbn [polls settled]. unfold poll_next.
  destruct s as [tm it d']. cbn in Hd, Ht, Hi. subst d'. destruct r as [|r]; cbn [timer item delay].
  - destruct heard as [[t r]|]; cbn in Ht, Hi; subst tm it.
    + destruct (t + d <=? now); cbn; [specialize (IH d None (mkDebounce None None d)) | specialize (IH d (Some (t, r)) (mkDebounce (Some (t + d)) r d))];
        destruct (polls l _) as [s' out]; cbn in *; f_equal; by apply IH.
    + specialize (IH d None (mkDebounce None None d)). destruct (polls l _) as [s' out]. cbn in *. f_equal. by apply IH.
  - destruct (now + d <=? now); cbn; [specialize (IH d None (mkDebounce None None d)) | specialize (IH d (Some (now, r)) (mkDebounce (Some (now + d)) r d))];
      destruct (polls l _) as [s' out]; cbn in *; f_equal; by apply IH.
Qed.

(** A debounced stream answers as [settled] says, however it is polled. *)
Theorem debounce_settles d l : (polls l (debounce d)).2 = settled d None l.
Proof. by apply polls_from. Qed.
End Debounce.

(** A stream that is never quiet is never heard of. *)
Theorem debounce_starves (n : nat) d : 0 < d ->
  Forall (fun x => x.2 = Pending) (polls (map (fun i => (Z.of_nat i, Ready (Some i))) (seq 0 n)) (debounce d)).2.
Proof.
  intros Hd. rewrite debounce_settles. generalize 0%nat (@None (Z * option nat)).
  induction n as [|n IH]; intros i heard; [constructor|]. cbn.
  assert ((Z.of_nat i + d <=? Z.of_nat i) = false) as -> by lia. constructor; [done | apply IH].
Qed.

(** ** Signals *)

(* src/src/util/exit_stream.rs:16-29 exit_stream_from_signals *)
Fixpoint exit_stream_from_signals (times : Z) (signals : list (res unit)) : list (res Z) :=
  match signals with
  | [] => []
  | Ok _ :: l => Ok (times + 1) :: exit_stream_from_signals (times + 1) l
  | Err e :: l => Err e :: exit_stream_from_signals times l
  end.

(** ** The TUN device's address *)

Definition CANDIDATES : list (Z * Z * Z) :=
  [(192, 0, 2); (198, 51, 100); (203, 0, 113); (198, 18, 0); (198, 18, 1); (198, 19, 0); (100, 64, 0); (100, 65, 0);
   (10, 89, 0); (10, 88, 0); (10, 0, 1)].

(** The addresses are those of the interfaces that have an IPv4 one. *)
(* src/src/util/suggest_tun_ip.rs:41-46 suggest_tun_ip (part) *)
Definition conflicts (used : list (Z * Z)) (abc : Z * Z * Z) : bool :=
  let '(a, b, c) := abc in
  let net := Z.lor (Z.lor (Z.shiftl a 24) (Z.shiftl b 16)) (Z.shiftl c 8) in
  let mask := 4294967040 in
  existsb (fun '(used_net, used_mask) =>
    let common_mask := Z.land mask used_mask in
    Z.land net common_mask =? Z.land used_net common_mask) used.

(* src/src/util/suggest_tun_ip.rs:8-53 suggest_tun_ip *)
Definition suggest_tun_ip (if_addrs : list Z) : bytes :=
  let used := map (fun bits => (Z.land bits 4294967040, 4294967040)) if_addrs in
  match List.find (fun abc => negb (conflicts used abc)) CANDIDATES with
  | Some (a, b, c) => show_uint a ++ [46] ++ show_uint b ++ [46] ++ show_uint c ++ lit ".1/24"
  | None => lit "10.0.0.1/24"
  end.

(** The /24 of an address. *)
Definition net24 (u : Z) : Z := u / 256.
Definition candidate_net (abc : Z * Z * Z) : Z := abc.1.1 * 65536 + abc.1.2 * 256 + abc.2.
Definition show_net (abc : Z * Z * Z) : bytes :=
  show_uint abc.1.1 ++ [46] ++ show_uint abc.1.2 ++ [46] ++ show_uint abc.2 ++ lit ".1/24".

Lemma land_net24 u : 0 <= u < 2 ^ 32 -> Z.land u 4294967040 = net24 u * 256.
Proof.
  intros Hu. change 4294967040 with (Z.shiftl (Z.ones 24) 8). unfold net24.
  rewrite <- (Z.shiftl_mul_pow2 _ 8) by lia. change 256 with (2 ^ 8). rewrite <- Z.shiftr_div_pow2 by lia.
  apply Z.bits_inj'. intros n Hn. rewrite Z.land_spec, !Z.shiftl_spec by lia.
  destruct (Z.ltb_spec n 8) as [H8|H8].
  - rewrite !(Z.testbit_neg_r _ (n - 8)) by lia. by rewrite andb_false_r.
  - rewrite Z.shiftr_spec by lia. replace (n - 8 + 8) with n by lia.
    destruct (Z.ltb_spec (n - 8) 24) as [H|H].
    + rewrite Z.ones_spec_low by lia. by rewrite andb_true_r.
    + rewrite Z.ones_spec_high by lia. rewrite andb_false_r.
      rewrite <- (Z.mod_small u (2 ^ 32)) by lia. rewrite Z.mod_pow2_bits_high by lia. done.
Qed.

Lemma candidate_bits abc : In abc CANDIDATES ->
  Z.lor (Z.lor (Z.shiftl abc.1.1 24) (Z.shiftl abc.1.2 16)) (Z.shiftl abc.2 8) = candidate_net abc * 256 /\
  0 <= candidate_net abc * 256 < 2 ^ 32 /\ net24 (candidate_net abc * 256) = candidate_net abc.
Proof.
  intros Hin. assert (forallb (fun abc => (Z.lor (Z.lor (Z.shiftl abc.1.1 24) (Z.shiftl abc.1.2 16)) (Z.shiftl abc.2 8) =? candidate_net abc * 256)
    && (0 <=? candidate_net abc * 256) && (candidate_net abc * 256 <? 2 ^ 32)) CANDIDATES = true) as H by (vm_compute; reflexivity).
  rewrite forallb_forall in H. specialize (H abc Hin). bools. split; [done|]. split; [lia|]. unfold net24. by rewrite Z.div_mul.
Qed.

Lemma conflicts_spec if_addrs abc : Forall (fun u => 0 <= u < 2 ^ 32) if_addrs -> In abc CANDIDATES ->
  conflicts (map (fun bits => (Z.land bits 4294967040, 4294967040)) if_addrs) abc = true <->
  exists u, In u if_addrs /\ net24 u = candidate_net abc.
Proof.
  intros Hu Hin. destruct (candidate_bits abc Hin) as (E1 & E2 & E3). destruct abc as [[a b] c]. cbn [fst snd] in E1. cbn [conflicts].
  rewrite E1, existsb_exists. rewrite List.Forall_forall in Hu. split.
  - intros ([n m] & Hm & E). apply in_map_iff in Hm as (u & [= <- <-] & Hi). exists u. split; [done|].
    specialize (Hu u Hi). rewrite Z.land_diag, <- Z.land_assoc, Z.land_diag, (land_net24 u Hu), (land_net24 _ E2), E3 in E. bools. lia.
  - intros (u & Hi & E). eexists. split; [apply in_map_iff; by exists u|]. cbn beta iota.
    specialize (Hu u Hi). rewrite Z.land_diag, <- Z.land_assoc, Z.land_diag, (land_net24 u Hu), (land_net24 _ E2), E3, E. by apply Z.eqb_eq.
Qed.

(** The address suggested for a TUN device is in a /24 in which none of the
    host's addresses is; if the host has at most ten addresses there is one. *)
Theorem suggested_ip_free if_addrs : Forall (fun u => 0 <= u < 2 ^ 32) if_addrs ->
  (exists abc, In abc CANDIDATES /\ suggest_tun_ip if_addrs = show_net abc /\
    Forall (fun u => net24 u <> candidate_net abc) if_addrs) \/
  ((10 < length if_addrs)%nat /\ suggest_tun_ip if_addrs = lit "10.0.0.1/24" /\
    Forall (fun abc => Exists (fun u => net24 u = candidate_net abc) if_addrs) CANDIDATES).
Proof.
  intros Hu. unfold suggest_tun_ip. destruct (List.find _ CANDIDATES) as [abc|] eqn:Ef.
  - left. apply find_some in Ef as [Hin Hc]. exists abc. split; [done|]. split; [by destruct abc as [[a b] c]|].
    apply List.Forall_forall. intros u Hi E. apply negb_true_iff in Hc.
    rewrite (proj2 (conflicts_spec if_addrs abc Hu Hin)) in Hc; [done|]. by exists u.
  - right. assert (forall abc, In abc CANDIDATES -> exists u, In u if_addrs /\ net24 u = candidate_net abc) as Hall.
    { intros abc Hin. apply (conflicts_spec if_addrs abc Hu Hin). apply negb_false_iff. by apply (find_none _ _ Ef). }
    split; [|split; [done|]].
    + assert (length (map candidate_net CANDIDATES) <= length (map net24 if_addrs))%nat as Hl.
      { apply NoDup_incl_length; [apply NoDup_ListNoDup; apply (bool_decide_unpack _); vm_compute; exact I|].
        intros n (abc & <- & Hin)%in_map_iff. destruct (Hall abc Hin) as (u & Hi & <-). by apply in_map. }
      rewrite !length_map in Hl. cbn in Hl. lia.
    + apply List.Forall_forall. intros abc Hin. destruct (Hall abc Hin) as (u & Hi & E). apply Exists_exists.
      exists u. split; [by apply list_elem_of_In | done].
Qed.

(** ** Streams of configurations *)

Section Manager.
Context {IpCidr : Type} (cidr_from_str : bytes -> res IpCidr).
Context (parse_rule_set : bytes -> res (list bytes)) (parse_clash : bytes -> res ClashConfig).
Context (rules_to_value : list (@RuleItem IpCidr unit) -> Value) (parse_config : bytes -> res Config).
Context (clash_of_value : Value -> res Clash) (map_from_str : bytes -> option SelectMap).
Context (rhai : Config -> bytes -> Config * res unit) {S : Type} `{Storage S}.
Context (deserialize_config : bytes -> res (Config * list Import)).

(** When a wait ends: [change] is when what it watches changes. *)
Definition ends_after (change : option Z) (w : res Wait) : option Z :=
  match w with
  | Err _ | Ok WaitNothing => Some 0
  | Ok (WaitSeconds n) => Some n
  | Ok WaitChange => change
  | Ok WaitForever => None
  end.

Definition earlier (a b : option Z) : option Z :=
  match a, b with Some x, Some y => Some (Z.min x y) | Some x, None | None, Some x => Some x | None, None => None end.

(** The first of the waits to end, whatever it ends with. *)
(* src/src/config/manager.rs:125-133 wait_source *)
Definition wait_source (env : Env) (visited cache : S) (cfg_src : ImportSource) (imports : list Import)
    (changes : list (option Z)) : option Z :=
  let events := import_wait env visited cache cfg_src :: map (fun i => import_wait env visited cache (Clash.source i)) imports in
  foldr earlier None (zip_with ends_after changes events).

(** What is outside while the stream reads its source once and waits: the
    storages, how long reading takes, when what is watched changes, and which
    of two things that happen at once [select!] sees. *)
Record Outside : Type := mkOutside {
  o_env : Env; o_visited : S; o_select : S; o_reading : Z; o_changes : list (option Z); o_wait_first : bool }.

#[local] Abbreviation load o cache src :=
  (deserialize_config_from_source cidr_from_str parse_rule_set parse_clash rules_to_value parse_config clash_of_value
    map_from_str rhai (o_env o) deserialize_config (o_select o) cache src).

(** What the stream yields in so many rounds. *)
(* src/src/config/manager.rs:42-55 ConfigManager::config_stream *)
Fixpoint config_stream (cache : S) (rounds : list Outside) (src : ImportSource) : list (res Config) :=
  match rounds with
  | [] => []
  | o :: rounds =>
    match load o cache src with
    | (cache, Err e) => [Err e]
    | (cache, Ok (config, imports)) =>
      Ok config ::
      match wait_source (o_env o) (o_visited o) cache src imports (o_changes o) with
      | None => []
      | Some _ => config_stream cache rounds src
      end
    end
  end.

(** What is yielded, with the source it is from, the time at which its reading
    starts and the one at which the stream waits again. *)
Record Yield : Type := mkYield { y_from : Z; y_at : Z; y_source : ImportSource; y_config : res Config }.

(** [sources] are the other sources, with the time each comes at; the last
    may be followed by their end. *)
(* src/src/config/manager.rs:56-84 ConfigManager::config_stream_from_sources *)
Fixpoint sources_stream (cache : S) (rounds : list Outside) (now : Z) (source : ImportSource) (sources : list (Z * ImportSource))
    (closed : option Z) : list Yield :=
  match rounds with
  | [] => []
  | o :: rounds =>
    match load o cache source with
    | (cache, Err e) => [mkYield now (now + o_reading o) source (Err e)]
    | (cache, Ok (config, imports)) =>
      let from := now in
      let now := now + o_reading o in
      let waits := wait_source (o_env o) (o_visited o) cache source imports (o_changes o) in
      let comes := match sources with (t, _) :: _ => Some (Z.max 0 (t - now)) | [] => option_map (fun t => Z.max 0 (t - now)) closed end in
      mkYield from now source (Ok config) ::
      match waits, comes with
      | None, None => []
      | Some w, None => sources_stream cache rounds (now + w) source sources closed
      | w, Some c =>
        if match w with Some w => (w <? c) || ((w =? c) && o_wait_first o) | None => false end
        then sources_stream cache rounds (now + default 0 w) source sources closed
        else match sources with
             | (_, s) :: sources => sources_stream cache rounds (now + c) s sources closed
             | [] => []
             end
      end
    end
  end.

(* src/src/config/manager.rs:56-84 ConfigManager::config_stream_from_sources *)
Definition config_stream_from_sources (cache : S) (rounds : list Outside) (sources : list (Z * ImportSource)) (closed : option Z)
    : res (list Yield) :=
  match sources with
  | [] => Err (EOther "no source")
  | (t, source) :: sources => Ok (sources_stream cache rounds t source sources closed)
  end.

(** *** Facts *)

Lemma ends_after_nonneg env visited cache i c :
  match c with Some t => 0 <= t | None => True end ->
  match ends_after c (import_wait env visited cache i) with Some t => 0 <= t | None => True end.
Proof.
  intros Hc. destruct i as [p|u|s|t]; cbn [import_wait]; [done| | |done].
  - destruct (st_get_updated_at visited _) as [v|e]; cbn; [|lia]. destruct (st_get_updated_at cache _) as [w|e]; cbn; [|lia].
    destruct v, w, (interval u); cbn; lia.
  - by destruct (env_data env _ _) as [[d|]|e]; cbn.
Qed.

Lemma earlier_zero l : In (Some 0) l -> Forall (fun c => match c with Some t => 0 <= t | None => True end) l ->
  foldr earlier None l = Some 0.
Proof.
  intros Hin Hl.
  assert (forall l, Forall (fun c => match c with Some t => 0 <= t | None => True end) l ->
    match foldr earlier None l with Some t => 0 <= t | None => True end) as Hnn.
  { induction 1 as [|[x|] l' Hx _ IH]; cbn; [done| |]; destruct (foldr earlier None l'); cbn in *; lia || done. }
  induction Hl as [|c l Hc Hl IH]; [done|]. destruct Hin as [->|Hin]; cbn.
  - specialize (Hnn l Hl). destruct (foldr earlier None l); cbn; [f_equal; lia | done].
  - rewrite (IH Hin). destruct c as [x|]; cbn; [f_equal; lia | done].
Qed.

(** A wait that fails makes the next round follow at once. *)
Lemma wait_source_spins env visited cache src imports changes i e :
  length changes = Datatypes.S (length imports) ->
  In i (src :: map Clash.source imports) -> import_wait env visited cache i = Err e ->
  Forall (fun c => match c with Some t => 0 <= t | None => True end) changes ->
  wait_source env visited cache src imports changes = Some 0.
Proof.
  intros Hl Hin He Hc. unfold wait_source.
  assert (import_wait env visited cache src :: map (fun i => import_wait env visited cache (Clash.source i)) imports =
    map (import_wait env visited cache) (src :: map Clash.source imports)) as -> by (cbn; by rewrite map_map).
  assert (length changes = length (src :: map Clash.source imports)) as Hl' by (cbn; by rewrite length_map).
  revert Hl' Hin. clear Hl. generalize (src :: map Clash.source imports). intros l Hl Hin. apply earlier_zero.
  - revert l Hl Hin. induction Hc as [|c cs _ _ IH]; intros [|j l] Hl Hin; try done. cbn in *.
    destruct Hin as [->|Hin]; [left; by rewrite He | right; apply IH; [lia | done]].
  - clear Hin Hl. revert l. induction Hc as [|c cs Hc' _ IH]; intros [|j l]; cbn; try constructor; [by apply ends_after_nonneg | apply IH].
Qed.

(** When the next source has come, or the sources have ended, as the stream
    sees it while it waits from [at_] on. *)
Definition next_comes (q : list (Z * ImportSource)) (closed : option Z) (at_ : Z) : option Z :=
  Z.max at_ <$> (match q with (t, _) :: _ => Some t | [] => closed end).

Definition not_after (t : Z) (c : option Z) : Prop := match c with Some c => t <= c | None => True end.

(** Readings of the sources of a queue, [s] being the one at hand: the same is
    read again no later than the next comes or the sources end, and the next is
    read as soon as it comes.  (What comes during a reading is seen when it is
    over; where the wait for the same source ends just when the next comes,
    either may be seen first.) *)
Inductive follows (closed : option Z) : list Yield -> ImportSource -> list (Z * ImportSource) -> Prop :=
| follows_nil s q : follows closed [] s q
| follows_last y s q : y_source y = s -> follows closed [y] s q
| follows_stay y y' l s q : y_source y = s -> not_after (y_from y') (next_comes q closed (y_at y)) ->
    follows closed (y' :: l) s q -> follows closed (y :: y' :: l) s q
| follows_move y y' l s t s' q : y_source y = s -> y_from y' = Z.max (y_at y) t ->
    follows closed (y' :: l) s' q -> follows closed (y :: y' :: l) s ((t, s') :: q).

Lemma sources_stream_head cache rounds now source sources closed :
  match sources_stream cache rounds now source sources closed with
  | [] => True
  | y :: _ => y_from y = now /\ y_source y = source
  end.
Proof. destruct rounds as [|o rounds]; cbn; [done|]. by destruct (load o cache source) as [? [[? ?]|?]]. Qed.

(** A source that is read again, and one that is left for the next. *)
Lemma follows_again closed y s q cache rounds now : y_source y = s -> not_after now (next_comes q closed (y_at y)) ->
  follows closed (sources_stream cache rounds now s q closed) s q ->
  follows closed (y :: sources_stream cache rounds now s q closed) s q.
Proof.
  intros Hy Hn Hf. pose proof (sources_stream_head cache rounds now s q closed) as Hh.
  destruct (sources_stream _ _ _ _ _ _) as [|y' l]; [by constructor|]. apply follows_stay; [done| |done]. by destruct Hh as [-> _].
Qed.

Lemma follows_next closed y s t s' q cache rounds now : y_source y = s -> now = Z.max (y_at y) t ->
  follows closed (sources_stream cache rounds now s' q closed) s' q ->
  follows closed (y :: sources_stream cache rounds now s' q closed) s ((t, s') :: q).
Proof.
  intros Hy Hn Hf. pose proof (sources_stream_head cache rounds now s' q closed) as Hh.
  destruct (sources_stream _ _ _ _ _ _) as [|y' l]; [by constructor|]. apply follows_move; [done| |done]. by destruct Hh as [-> _].
Qed.


(** A source that cannot be read, or does not parse, ends the stream, and with
    it the daemon, whatever sources come after it. *)
Lemma bad_source_ends cache o rounds now source sources closed cache' e :
  load o cache source = (cache', Err e) ->
  sources_stream cache (o :: rounds) now source sources closed = [mkYield now (now + o_reading o) source (Err e)] /\
  config_stream cache (o :: rounds) source = [Err e].
Proof. intros E. cbn. by rewrite E. Qed.
End Manager.

(** ** The daemon's last source *)

(** What a run of the daemon does with sources: a client saves one and then
    sends it ([apply_config]); the daemon, before it takes any, reads the
    saved one and sends it to itself; then it takes them. *)
Inductive Restoring : Type := NotYet | HasRead (source : option ImportSource) | Restored.

Record Daemon : Type := mkDaemon { saved : option ImportSource; queue : list ImportSource; restoring : Restoring; taken : list ImportSource }.

Inductive DaemonStep : Type := Save (s : ImportSource) | Send (s : ImportSource) | Read | Restore | Take.

(** [mpsc::channel(4)]: a full channel makes its sender wait, which is
    [None]. *)
Definition send (s : ImportSource) (d : Daemon) : option Daemon :=
  if (length (queue d) <? 4)%nat then Some (mkDaemon (saved d) (queue d ++ [s]) (restoring d) (taken d)) else None.

(* src/src/service/daemon.rs:44-57 run_daemon (part) *)
Definition restore_last (d : Daemon) : option Daemon :=
  match restoring d with
  | NotYet => Some (mkDaemon (saved d) (queue d) (HasRead (saved d)) (taken d))
  | HasRead None => Some (mkDaemon (saved d) (queue d) Restored (taken d))
  | HasRead (Some s) => d ← send s d; Some (mkDaemon (saved d) (queue d) Restored (taken d))
  | Restored => None
  end.

(* src/src/service/daemon.rs:21-82 run_daemon (part) *)
Definition daemon_step (d : Daemon) (s : DaemonStep) : option Daemon :=
  match s with
  | Save s => Some (mkDaemon (Some s) (queue d) (restoring d) (taken d))
  | Send s => send s d
  | Read => match restoring d with NotYet => restore_last d | _ => None end
  | Restore => match restoring d with HasRead _ => restore_last d | _ => None end
  | Take =>
    match restoring d, queue d with
    | Restored, s :: q => Some (mkDaemon (saved d) q Restored (taken d ++ [s]))
    | _, _ => None
    end
  end.

Fixpoint daemon_run (d : Daemon) (l : list DaemonStep) : option Daemon :=
  match l with [] => Some d | s :: l => d ← daemon_step d s; daemon_run d l end.

Definition daemon_start (s : option ImportSource) : Daemon := mkDaemon s [] NotYet [].

(** Steps that are not interleaved: a client's two, and the daemon's two. *)
Inductive tidy : list DaemonStep -> Prop :=
| tidy_nil : tidy []
| tidy_apply s l : tidy l -> tidy (Save s :: Send s :: l)
| tidy_restore l : tidy l -> tidy (Read :: Restore :: l)
| tidy_take l : tidy l -> tidy (Take :: l).

(** The source the engine runs, or will run once it has taken all. *)
Definition latest (d : Daemon) : option ImportSource := last (taken d ++ queue d).

Lemma send_latest s d d' : send s d = Some d' -> latest d' = Some s /\ saved d' = saved d /\ restoring d' = restoring d.
Proof.
  unfold send, latest. destruct (_ <? _)%nat; [|done]. intros [= <-]. cbn. by rewrite app_assoc, last_snoc.
Qed.

Lemma tidy_saved l : tidy l -> forall d d', restoring d = NotYet \/ restoring d = Restored ->
  (latest d = saved d \/ restoring d = NotYet /\ latest d = None) -> daemon_run d l = Some d' ->
  (restoring d' = NotYet \/ restoring d' = Restored) /\ (latest d' = saved d' \/ restoring d' = NotYet /\ latest d' = None).
Proof.
  induction 1 as [|s l _ IH|l _ IH|l _ IH]; intros d d' Hr Hd E; cbn [daemon_run daemon_step] in E.
  - by injection E as <-.
  - cbn in E. destruct (send s _) as [d1|] eqn:Es; [|done]. cbn in E. apply send_latest in Es as (H1 & H2 & H3). cbn in H2, H3.
    apply (IH d1 d'); [by rewrite H3 | left; congruence | done].
  - destruct (restoring d) eqn:Er; try done. unfold restore_last in E. rewrite Er in E. cbn in E.
    destruct (saved d) as [s|] eqn:Esv; cbn in E.
    + destruct (send s _) as [d1|] eqn:Es; [|done]. cbn in E. apply send_latest in Es as (H1 & H2 & H3). cbn in H2.
      eapply IH; [|left|exact E]; [by right|]. unfold latest in *. cbn. congruence.
    + eapply IH; [|left|exact E]; [by right|]. unfold latest in *. cbn. by destruct Hd as [->|[_ ->]].
  - destruct (restoring d) eqn:Er; try done. destruct (queue d) as [|s q] eqn:Eq; [done|]. cbn in E.
    eapply IH; [|left|exact E]; [by right|]. unfold latest in *. cbn. rewrite <- app_assoc. cbn. rewrite <- Eq.
    by destruct Hd as [->|[? _]].
Qed.

(** The engine ends up with the source that is saved for the next start:
    the last one a client applied, or else the one saved before; when a
    client's save and send, and the daemon's read and send, are not
    interleaved with others'. *)
Theorem daemon_last_source s l d : tidy l -> daemon_run (daemon_start s) l = Some d ->
  restoring d = Restored -> latest d = saved d.
Proof.
  intros Hl E Hr. apply (tidy_saved l Hl) in E as [_ [H|[H _]]]; [done | congruence | by left | by right].
Qed.

Lemma daemon_last_source_witness : exists d,
  daemon_run (daemon_start (Some (IText [1]))) [Read; Restore; Save (IText [2]); Send (IText [2]); Take; Take] = Some d /\
  latest d = saved d /\ taken d = [IText [1]; IText [2]].
Proof.
  eexists. split; [reflexivity|]. split; [|reflexivity].
  apply (daemon_last_source (Some (IText [1])) [Read; Restore; Save (IText [2]); Send (IText [2]); Take; Take]); [|reflexivity|reflexivity].
  apply tidy_restore, tidy_apply, tidy_take, tidy_take, tidy_nil.
Defined.

(** A client that applies a source while the daemon restores the saved one
    is overridden by it, though its own is what is saved; and so do two
    clients whose steps cross. *)
Theorem daemon_restores_older :
  (exists d, daemon_run (daemon_start (Some (IText [1]))) [Read; Save (IText [2]); Send (IText [2]); Restore] = Some d /\
    latest d = Some (IText [1]) /\ saved d = Some (IText [2])) /\
  (exists d, daemon_run (daemon_start None) [Read; Restore; Save (IText [1]); Save (IText [2]); Send (IText [2]); Send (IText [1])] = Some d /\
    latest d = Some (IText [1]) /\ saved d = Some (IText [2])).
Proof. split; eexists; by vm_compute. Qed.

(** Four sources applied before the saved one is sent fill the channel, which
    nobody reads until it is sent: the daemon starts no engine. *)
Theorem daemon_never_restores d s x : restoring d = HasRead (Some s) -> (4 <= length (queue d))%nat ->
  match daemon_step d x with
  | Some d' => restoring d' = restoring d /\ queue d' = queue d /\ exists s, x = Save s
  | None => True
  end.
Proof.
  intros Hr Hl.
  assert (forall s, send s d = None) as Hf by (intros s'; unfold send; by rewrite (proj2 (Nat.ltb_ge _ _) Hl)).
  destruct x as [s'|s'| | |]; unfold daemon_step, restore_last; rewrite ?Hr, ?Hf; cbn [mbind option_bind]; try exact I.
  split; [done|]. split; [done|]. by exists s'.
Qed.
End App.
