(* ===== verification/Rpc.v ===== *)
(** * The RPC protocol: messages, connection and sessions
    ([protocol/rpc/src/types.rs], [connection.rs], [session.rs],
    [session/state.rs])

    A net is used from another process: the client numbers its requests and
    waits for the response with the same number, the server keeps the streams,
    listeners and sockets it made in a table and hands out their numbers.
    [Connection] frames the messages; [Session] is the client's matching of
    responses to requests, with its concurrent tasks as steps. *)

From S2P Require Import Prelude Address ConnContext.

Module Rpc.

(** ** Messages *)

(* src/protocol/rpc/src/types.rs:6-6 Object *)
Definition Object : Type := Z.

(* src/protocol/rpc/src/types.rs:15-19 RpcValue *)
Inductive RpcValue : Type :=
| RNull
| RValue (v : Value)
| RObjectValue (o : Object) (v : Value).

(* src/protocol/rpc/src/types.rs:28-45 Command *)
Inductive Command : Type :=
| CHandshake (id : Z)
| CTcpConnect (ctx : Value) (a : Address)
| CTcpBind (ctx : Value) (a : Address)
| CUdpBind (ctx : Value) (a : Address)
| CLookupHost (a : Address)
| CAccept (o : Object)
| CRead (o : Object) (size : Z)
| CWrite (o : Object)
| CFlush (o : Object)
| CShutdown (o : Object)
| CRecvFrom (o : Object)
| CSendTo (o : Object) (a : Address)
| CLocalAddr (o : Object)
| CPeerAddr (o : Object)
| CClose (o : Object).

(* src/protocol/rpc/src/types.rs:48-51 Request *)
Record Request : Type := mkRequest { cmd : Command; q_seq : Z }.

(* src/protocol/rpc/src/types.rs:54-57 Response *)
Record Response : Type := mkResponse { r_seq : Z; result : RpcValue + string }.

(* src/protocol/rpc/src/types.rs:60-67 Response::into_null *)
Definition into_null (r : Response) : res unit :=
  match result r with
  | inr s => Err (EOther s)
  | inl RNull => Ok tt
  | inl _ => Err (EOther "not null")
  end.

(* src/protocol/rpc/src/types.rs:68-78 Response::into_value *)
Definition into_value {T} (from_value : Value -> res T) (r : Response) : res T :=
  match result r with
  | inr s => Err (EOther s)
  | inl (RValue v) => from_value v
  | inl _ => Err (EOther "invalid response")
  end.

(* src/protocol/rpc/src/types.rs:80-90 Response::into_object_value *)
Definition into_object_value {T} (from_value : Value -> res T) (r : Response) : res (Object * T) :=
  match result r with
  | inr s => Err (EOther s)
  | inl (RObjectValue o v) => v ← from_value v; mret (o, v)
  | inl _ => Err (EOther "invalid response")
  end.

(** ** [Connection] *)

(** [serde_json] or [cbor4ii], whichever [Codec] is configured. *)
Class ItemCodec (A : Type) : Type := {
  item_to_vec : A -> bytes;
  item_from_slice : bytes -> res A;
  item_from_to : forall x, item_from_slice (item_to_vec x) = Ok x }.

(* src/protocol/rpc/src/connection.rs:16-16 MAX_ITEM_SIZE *)
Definition MAX_ITEM_SIZE : Z := 1 * 1024 * 1024.
(* src/protocol/rpc/src/connection.rs:17-17 MAX_DATA_SIZE *)
Definition MAX_DATA_SIZE : Z := 1 * 1024 * 1024.

Section Connection.
Context {A : Type} `{ItemCodec A}.

(** What [write_task] writes for one item. *)
(* src/protocol/rpc/src/connection.rs:89-103 Connection::new (write_task) *)
Definition write_item (item : A) (data : option bytes) : bytes :=
  let item_buf := item_to_vec item in
  let data_size := match data with Some d => Z.of_nat (length d) mod 2 ^ 32 | None => 0 end in
  let item_size := Z.of_nat (length item_buf) mod 2 ^ 32 in
  be_bytes 4 item_size ++ be_bytes 4 data_size ++ item_buf ++ match data with Some d => d | None => [] end.

(** One turn of [read_task]; the stream is what [read_exact] sees of it. *)
(* src/protocol/rpc/src/connection.rs:54-77 Connection::new (read_task) *)
Definition read_item : reader (A * bytes) :=
  item_size ← read_be 4;
  data_size ← read_be 4;
  rlift (ensure (negb ((MAX_ITEM_SIZE <? item_size) || (MAX_DATA_SIZE <? data_size))) EInvalidData);;
  item_buf ← read_exact (Z.to_nat item_size);
  data_buf ← (if 0 <? data_size then read_exact (Z.to_nat data_size) else mret []);
  item ← rlift (item_from_slice item_buf);
  mret (item, data_buf).

(** The items handed to the channel before the stream ends or fails. *)
(* src/protocol/rpc/src/connection.rs:52-85 Connection::new (read_task) *)
Fixpoint read_task (fuel : nat) (i : bytes) : list (A * bytes) * error :=
  match fuel with
  | O => ([], EWouldBlock)
  | S fuel =>
    match read_item i with
    | Ok (x, i) => let '(l, e) := read_task fuel i in (x :: l, e)
    | Err e => ([], e)
    end
  end.

Definition data_of (d : option bytes) : bytes := match d with Some d => d | None => [] end.

(** What a frame may carry. *)
Definition fits (item : A) (data : option bytes) : Prop :=
  Z.of_nat (length (item_to_vec item)) <= MAX_ITEM_SIZE /\ Z.of_nat (length (data_of data)) <= MAX_DATA_SIZE.

Lemma read_write_item item data rest : fits item data ->
  read_item (write_item item data ++ rest) = Ok ((item, data_of data), rest).
Proof.
  intros [Hi Hd]. unfold read_item, write_item, MAX_ITEM_SIZE, MAX_DATA_SIZE in *.
  set (ds := match data with Some d => Z.of_nat (length d) mod 2 ^ 32 | None => 0 end).
  assert (Eds : ds = Z.of_nat (length (data_of data))).
  { unfold ds. destruct data as [d|]; cbn in *; [|done]. apply Z.mod_small. lia. }
  rewrite Eds. rewrite (Z.mod_small (Z.of_nat (length (item_to_vec item)))) by lia.
  fold (data_of data). rewrite <- !app_assoc.
  rewrite bind_reader, (read_be_app 4) by lia. rewrite bind_reader, (read_be_app 4) by lia.
  rewrite bind_reader. rewrite rlift_ensure_true; [|lia].
  rewrite bind_reader, Nat2Z.id, read_exact_app by done.
  assert (E : (if 0 <? Z.of_nat (length (data_of data)) then read_exact (Z.to_nat (Z.of_nat (length (data_of data)))) else mret [])
    (data_of data ++ rest) = Ok (data_of data, rest)).
  { destruct (0 <? _) eqn:E; bools.
    - by rewrite Nat2Z.id, read_exact_app.
    - by destruct (data_of data). }
  rewrite bind_reader, E, bind_reader, item_from_to. done.
Qed.

(** A frame is read whole exactly when it fits; otherwise it is a long one. *)
Lemma write_item_whole item data y : read_item (write_item item data) = Ok (y, []) -> fits item data.
Proof.
  unfold read_item, write_item, fits. set (li := Z.of_nat (length (item_to_vec item))).
  intros E. rewrite bind_reader, (read_be_app 4) in E by (apply Z.mod_pos_bound; lia).
  set (ds := match data with Some d => Z.of_nat (length d) mod 2 ^ 32 | None => 0 end) in E.
  assert (Hds : 0 <= ds < 2 ^ 32 /\ ds <= Z.of_nat (length (data_of data))).
  { unfold ds. destruct data as [d|]; cbn; [|lia]. split; [apply Z.mod_pos_bound; lia|apply Z.mod_le; lia]. }
  rewrite bind_reader, (read_be_app 4), bind_reader in E by lia. unfold ensure in E.
  pose proof (Z.mod_pos_bound li (2 ^ 32) ltac:(lia)) as Hli. pose proof (Z.mod_le li (2 ^ 32) ltac:(lia) ltac:(lia)) as Hli'.
  destruct ((MAX_ITEM_SIZE <? li mod 2 ^ 32) || (MAX_DATA_SIZE <? ds)) eqn:Eb; [done|]. cbn [negb rlift] in E.
  apply orb_false_iff in Eb as [E1 E2]. bools. rewrite bind_reader in E. fold (data_of data) in E.
  destruct (read_exact (Z.to_nat (li mod 2 ^ 32)) _) as [[b r]|] eqn:Er; [|done]. apply read_exact_ok in Er as [Eb Hb].
  rewrite bind_reader in E.
  match type of E with match ?x with _ => _ end = _ => destruct x as [[d r']|] eqn:Ed; [|done] end.
  assert (Hr : r = d ++ r' /\ length d = Z.to_nat ds).
  { destruct (0 <? ds) eqn:E0; bools; [by apply read_exact_ok in Ed|].
    change (Ok (@nil Z, r) = Ok (d, r')) in Ed. injection Ed as <- <-. split; [done|]. cbn. lia. }
  destruct Hr as [-> Hd].
  rewrite bind_reader in E. destruct (rlift _ r') as [[it r'']|] eqn:Ei; [|done].
  change (Ok ((it, d), r'') = Ok (y, [])) in E. injection E as _ ->.
  unfold rlift in Ei. destruct (item_from_slice b); [|done]. injection Ei as _ ->.
  apply (f_equal length) in Eb. rewrite !length_app in Eb. cbn [length] in Eb. unfold li in *. lia.
Qed.

Lemma write_item_long item data : ~ fits item data -> MAX_ITEM_SIZE < Z.of_nat (length (write_item item data)).
Proof.
  unfold fits, write_item, MAX_DATA_SIZE, MAX_ITEM_SIZE. intros Hf. fold (data_of data).
  rewrite !length_app, !length_be_bytes. lia.
Qed.

#[global] Instance fits_dec item data : Decision (fits item data).
Proof. unfold fits. apply _. Defined.

(** A stream of frames that fit reads as the items written, then the end. *)
Lemma read_task_frames (l : list (A * option bytes)) : Forall (fun x => fits x.1 x.2) l ->
  forall fuel, (length l < fuel)%nat ->
  read_task fuel (concat (map (fun x => write_item x.1 x.2) l)) =
  (map (fun x => (x.1, data_of x.2)) l, EUnexpectedEof).
Proof.
  induction 1 as [|[x d] l Hx Hl IH]; intros [|fuel] Hf; cbn [length] in Hf; try lia; [done|].
  cbn [map concat read_task]. rewrite read_write_item by done. cbn [fst snd].
  rewrite IH by lia. done.
Qed.

(** Data beyond the limit, up to what its 32-bit size can say, is sent all the
    same, and ends the connection on the other side. *)
Lemma rpc_large_data_ends item d rest : Z.of_nat (length (item_to_vec item)) < 2 ^ 32 ->
  MAX_DATA_SIZE < Z.of_nat (length d) < 2 ^ 32 ->
  read_item (write_item item (Some d) ++ rest) = Err EInvalidData.
Proof.
  intros Hi Hd. unfold read_item, write_item, MAX_DATA_SIZE in *. rewrite !Z.mod_small by lia.
  rewrite <- !app_assoc. rewrite bind_reader, (read_be_app 4) by lia. rewrite bind_reader, (read_be_app 4) by lia.
  rewrite bind_reader. unfold ensure.
  replace (_ || _) with true; [done|]. symmetry. apply orb_true_iff. right. apply Z.ltb_lt. lia.
Qed.

End Connection.

(** ** The client's session *)

(** A [oneshot] channel: its sender is kept in the map, has sent, or is gone. *)
Inductive Chan : Type :=
| ChEmpty
| ChSent (r : Response) (d : bytes)
| ChClosed.

(** A request's [ResponseGetter] and the channel of its [rx]; [g_gone] when it
    was dropped, as it is by the end of [wait]. *)
(* src/protocol/rpc/src/session.rs:113-117 ResponseGetter *)
Record Getter : Type := mkGetter { g_seq : Z; g_chan : Chan; g_gone : bool }.

(** [ClientSessionState], and the map's senders as indices of their channels. *)
(* src/protocol/rpc/src/session/state.rs:21-25 ClientSessionState *)
Record ClientSessionState : Type := mkState { seq_id : Z; wait_map : gmap Z nat; getters : list Getter }.

(* src/protocol/rpc/src/session/state.rs:28-34 ClientSessionState::new *)
Definition state_new : ClientSessionState := mkState 0 ∅ [].

(* src/protocol/rpc/src/session/state.rs:38-40 next_seq_id *)
Definition next_seq_id (s : ClientSessionState) : ClientSessionState * Z :=
  (mkState ((seq_id s + 1) mod 2 ^ 32) (wait_map s) (getters s), seq_id s).

Definition set_chan (ch : Chan) (g : Getter) : Getter := mkGetter (g_seq g) ch (g_gone g).

(** A sender that another one takes the place of is dropped. *)
(* src/protocol/rpc/src/session/state.rs:41-45 wait_for_response *)
Definition wait_for_response (s : ClientSessionState) (seq : Z) : ClientSessionState :=
  let gs := match wait_map s !! seq with Some c => alter (set_chan ChClosed) c (getters s) | None => getters s end in
  mkState (seq_id s) (<[seq := length gs]> (wait_map s)) (gs ++ [mkGetter seq ChEmpty false]).

(* src/protocol/rpc/src/session/state.rs:46-50 send_response *)
Definition send_response (s : ClientSessionState) (r : Response) (d : bytes) : ClientSessionState :=
  match wait_map s !! r_seq r with
  | Some c => mkState (seq_id s) (delete (r_seq r) (wait_map s)) (alter (set_chan (ChSent r d)) c (getters s))
  | None => s
  end.

(* src/protocol/rpc/src/session.rs:120-130 ResponseGetter::drop *)
Definition getter_drop (s : ClientSessionState) (c : nat) : ClientSessionState :=
  match getters s !! c with
  | Some g =>
    let s := send_response s (mkResponse (g_seq g) (inr "Aborted"%string)) [] in
    mkState (seq_id s) (wait_map s) (alter (fun g => mkGetter (g_seq g) (g_chan g) true) c (getters s))
  | None => s
  end.

(** What [wait] gives; it drops the getter when it is done. *)
(* src/protocol/rpc/src/session.rs:134-140 ResponseGetter::wait *)
Definition getter_wait (g : Getter) : poll (res (Response * bytes)) :=
  match g_chan g with
  | ChEmpty => Pending
  | ChSent r d => Ready (Ok (r, d))
  | ChClosed => Ready (Err (EOther "channel closed"))
  end.

(** The session with what runs at the same time: calls of [send] between
    [conn.send] and [wait_for_response], and the tasks they spawn, each of which
    takes one response from the connection, anyone's. *)
(* src/protocol/rpc/src/session.rs:25-29 ClientSession *)
Record ClientSession : Type := mkSession {
  state : ClientSessionState;
  closed : bool;
  outbox : list (Request * option bytes);
  sending : list Z;
  tasks : list Z }.

(** Besides the steps of [send] and of the tasks, a getter can be dropped or,
    answered, waited for. *)
Inductive Step : Type :=
| SBegin (c : Command) (d : option bytes) (sent : bool)
| SRegister (i : nat)
| STask (i : nat) (r : res (Response * bytes))
| SDrop (i : nat).

Section Session.
Context (show_error : error -> string).

(* src/protocol/rpc/src/session.rs:59-67 ClientSession::send(conn.send) *)
Definition send_begin (s : ClientSession) (c : Command) (d : option bytes) (sent : bool) : ClientSession :=
  let '(st, seq) := next_seq_id (state s) in
  if sent then mkSession st (closed s) (outbox s ++ [(mkRequest c seq, d)]) (sending s ++ [seq]) (tasks s)
  else mkSession st true (outbox s) (sending s) (tasks s).

(* src/protocol/rpc/src/session.rs:69-92 ClientSession::send(wait_for_response) *)
Definition send_register (s : ClientSession) (i : nat) : ClientSession :=
  match sending s !! i with
  | Some seq =>
    mkSession (wait_for_response (state s) seq) (closed s) (outbox s) (delete i (sending s)) (tasks s ++ [seq])
  | None => s
  end.

(** [conn.next()] gives a response, or fails. *)
(* src/protocol/rpc/src/session.rs:51-57 ClientSession::wait_response *)
Definition wait_response (s : ClientSession) (i : nat) (r : res (Response * bytes)) : ClientSession :=
  match tasks s !! i with
  | Some seq =>
    let tasks := delete i (tasks s) in
    match r with
    | Ok (r, d) => mkSession (send_response (state s) r d) (closed s) (outbox s) (sending s) tasks
    | Err e =>
      mkSession (send_response (state s) (mkResponse seq (inr (show_error e))) []) true (outbox s) (sending s) tasks
    end
  | None => s
  end.

Definition session_step (s : ClientSession) (st : Step) : ClientSession :=
  match st with
  | SBegin c d sent => send_begin s c d sent
  | SRegister i => send_register s i
  | STask i r => wait_response s i r
  | SDrop i => mkSession (getter_drop (state s) i) (closed s) (outbox s) (sending s) (tasks s)
  end.

Definition session_new : ClientSession := mkSession state_new false [] [] [].
Definition run_session (l : list Step) : ClientSession := fold_left session_step l session_new.

(** *** What a session promises: a table of requests *)

(** A request is waiting from its registration on, until the first answer with
    its number; what comes before or after is nothing to it. *)
Inductive Event : Type :=
| ERegister (seq : Z)
| EAnswer (r : Response) (d : bytes).

Definition table_step (a : gmap Z Chan) (e : Event) : gmap Z Chan :=
  match e with
  | ERegister q => <[q := ChEmpty]> a
  | EAnswer r d => match a !! r_seq r with Some ChEmpty => <[r_seq r := ChSent r d]> a | _ => a end
  end.

(** What a step means to the requests: besides responses, the failure of a
    request's own task and its being dropped are answers to it. *)
Definition events (s : ClientSession) (st : Step) : list Event :=
  match st with
  | SBegin _ _ _ => []
  | SRegister i => match sending s !! i with Some q => [ERegister q] | None => [] end
  | STask i r =>
    match tasks s !! i with
    | Some q =>
      match r with
      | Ok (r, d) => [EAnswer r d]
      | Err e => [EAnswer (mkResponse q (inr (show_error e))) []]
      end
    | None => []
    end
  | SDrop i =>
    match getters (state s) !! i with
    | Some g => [EAnswer (mkResponse (g_seq g) (inr "Aborted"%string)) []]
    | None => []
    end
  end.

Definition table_run (s : ClientSession) (l : list Step) (a : gmap Z Chan) : ClientSession * gmap Z Chan :=
  fold_left (fun sa st => (session_step sa.1 st, fold_left table_step (events sa.1 st) sa.2)) l (s, a).

Definition begins (l : list Step) : Z :=
  Z.of_nat (length (List.filter (fun st => match st with SBegin _ _ _ => true | _ => false end) l)).

(** The numbers in use, and their getters, channels and senders. *)
Record state_inv (st : ClientSessionState) (a : gmap Z Chan) : Prop := {
  si_nodup : NoDup (map g_seq (getters st));
  si_chan : forall c g, getters st !! c = Some g -> a !! g_seq g = Some (g_chan g);
  si_dom : forall q ch, a !! q = Some ch -> q ∈ map g_seq (getters st);
  si_wait : forall q c, wait_map st !! q = Some c <->
    exists g, getters st !! c = Some g /\ g_seq g = q /\ g_chan g = ChEmpty }.

Lemma same_getter st a c c' g g' : state_inv st a -> getters st !! c = Some g -> getters st !! c' = Some g' ->
  g_seq g = g_seq g' -> c = c' /\ g = g'.
Proof.
  intros Hi Hc Hc' E. assert (Ec : c = c').
  { apply (NoDup_lookup _ c c' (g_seq g) (si_nodup _ _ Hi)); rewrite list_lookup_fmap; [by rewrite Hc|].
    rewrite Hc'. cbn. by rewrite E. }
  subst c'. split; [done|]. congruence.
Qed.

Lemma map_seq_alter f c (l : list Getter) : (forall g, g_seq (f g) = g_seq g) -> map g_seq (alter f c l) = map g_seq l.
Proof. intros Hf. revert c. induction l as [|g l IH]; intros [|c]; cbn; [done|done| |]; [by rewrite Hf | by rewrite IH]. Qed.

Lemma send_response_inv st a r d : state_inv st a -> state_inv (send_response st r d) (table_step a (EAnswer r d)).
Proof.
  intros Hi. unfold send_response, table_step. destruct (wait_map st !! r_seq r) as [c|] eqn:Hw.
  - destruct (proj1 (si_wait _ _ Hi _ _) Hw) as (g & Hc & Hq & He).
    rewrite <- Hq, (si_chan _ _ Hi _ _ Hc), He.
    split; cbn [getters wait_map].
    + rewrite map_seq_alter by done. apply Hi.
    + intros c' g' Hg. destruct (decide (c' = c)) as [->|Hn].
      * rewrite list_lookup_alter, decide_True, Hc in Hg by done. cbn in Hg. simplify_eq. cbn. apply lookup_insert_eq.
      * rewrite list_lookup_alter_ne in Hg by done. rewrite lookup_insert_ne; [apply (si_chan _ _ Hi _ _ Hg)|].
        intros E. by destruct (same_getter _ _ _ _ _ _ Hi Hc Hg E).
    + intros q ch. rewrite map_seq_alter by done. destruct (decide (q = g_seq g)) as [->|Hn].
      * intros _. apply list_elem_of_fmap. exists g. split; [done|]. by apply list_elem_of_lookup_2 in Hc.
      * rewrite lookup_insert_ne by done. apply Hi.
    + intros q c'. destruct (decide (q = g_seq g)) as [->|Hn].
      * rewrite lookup_delete_eq. split; [done|]. intros (g' & Hg & E & E').
        destruct (decide (c' = c)) as [->|Hn'].
        { rewrite list_lookup_alter, decide_True, Hc in Hg by done. cbn in Hg. by simplify_eq. }
        rewrite list_lookup_alter_ne in Hg by done. by destruct (same_getter _ _ _ _ _ _ Hi Hc Hg (eq_sym E)).
      * rewrite lookup_delete_ne, (si_wait _ _ Hi) by done. split; intros (g' & Hg & E & E').
        { destruct (decide (c' = c)) as [->|Hn']; [congruence|]. exists g'. by rewrite list_lookup_alter_ne. }
        destruct (decide (c' = c)) as [->|Hn'].
        { rewrite list_lookup_alter, decide_True, Hc in Hg by done. cbn in Hg. by simplify_eq. }
        rewrite list_lookup_alter_ne in Hg by done. by exists g'.
  - destruct (a !! r_seq r) as [[]|] eqn:Ha; try done.
    destruct (list_elem_of_fmap_1 _ _ _ (si_dom _ _ Hi _ _ Ha)) as (g & E & Hg).
    apply list_elem_of_lookup_1 in Hg as [c Hc]. pose proof (si_chan _ _ Hi _ _ Hc) as Hg.
    rewrite <- E, Ha in Hg. simplify_eq.
    rewrite (proj2 (si_wait _ _ Hi (r_seq r) c)) in Hw; [done|]. by exists g.
Qed.

Lemma wait_for_response_inv st a q : state_inv st a -> q ∉ map g_seq (getters st) ->
  state_inv (wait_for_response st q) (table_step a (ERegister q)).
Proof.
  intros Hi Hq. unfold wait_for_response. cbn [table_step].
  destruct (wait_map st !! q) as [c|] eqn:Hw.
  { destruct (proj1 (si_wait _ _ Hi _ _) Hw) as (g & Hc & <- & _). destruct Hq.
    apply list_elem_of_fmap. exists g. split; [done|]. by apply list_elem_of_lookup_2 in Hc. }
  split; cbn [getters wait_map].
  - rewrite map_app. apply NoDup_app. split_and!; [apply Hi| |by apply NoDup_singleton].
    intros x Hx Hx'. apply list_elem_of_singleton in Hx' as ->. done.
  - intros c g Hg. apply lookup_app_Some in Hg as [Hg|[_ Hg]].
    + rewrite lookup_insert_ne; [by apply (si_chan _ _ Hi c)|]. intros ->. apply Hq, list_elem_of_fmap.
      exists g. split; [done|]. by apply list_elem_of_lookup_2 in Hg.
    + apply list_lookup_singleton_Some in Hg as [_ <-]. apply lookup_insert_eq.
  - intros q' ch. rewrite map_app, elem_of_app. destruct (decide (q' = q)) as [->|Hn].
    + intros _. right. by apply list_elem_of_singleton.
    + rewrite lookup_insert_ne by done. left. by apply (si_dom _ _ Hi _ ch).
  - intros q' c. destruct (decide (q' = q)) as [->|Hn].
    + rewrite lookup_insert_eq. split.
      * intros [= <-]. exists (mkGetter q ChEmpty false). split; [|done]. rewrite lookup_app_r, Nat.sub_diag by done. done.
      * intros (g & Hg & Eq & He). apply lookup_app_Some in Hg as [Hg|[Hl Hg]].
        { destruct Hq. apply list_elem_of_fmap. exists g. split; [done|]. by apply list_elem_of_lookup_2 in Hg. }
        apply list_lookup_singleton_Some in Hg as [E _]. f_equal. lia.
    + rewrite lookup_insert_ne, (si_wait _ _ Hi) by done. split; intros (g & Hg & Eq & He).
      * exists g. split; [|done]. by apply lookup_app_l_Some.
      * apply lookup_app_Some in Hg as [Hg|[_ Hg]]; [by exists g|].
        apply list_lookup_singleton_Some in Hg as [_ <-]. by cbn in Eq.
Qed.

Lemma getter_drop_inv st a c g : state_inv st a -> getters st !! c = Some g ->
  state_inv (getter_drop st c) (table_step a (EAnswer (mkResponse (g_seq g) (inr "Aborted"%string)) [])).
Proof.
  intros Hi Hg. unfold getter_drop. rewrite Hg.
  apply (send_response_inv _ _ (mkResponse (g_seq g) (inr "Aborted"%string)) []) in Hi.
  set (st' := send_response _ _ _) in *. set (a' := table_step _ _) in *. clearbody st' a'.
  assert (Hl : forall c' g', alter (fun g => mkGetter (g_seq g) (g_chan g) true) c (getters st') !! c' = Some g' ->
    exists g0, getters st' !! c' = Some g0 /\ g_seq g' = g_seq g0 /\ g_chan g' = g_chan g0).
  { intros c' g' E. rewrite list_lookup_alter in E. case_decide; [subst c'|by exists g'].
    destruct (getters st' !! c) as [g0|]; [|done]. cbn in E. simplify_eq. by exists g0. }
  assert (Hr : forall c' g0, getters st' !! c' = Some g0 ->
    exists g', alter (fun g => mkGetter (g_seq g) (g_chan g) true) c (getters st') !! c' = Some g' /\
      g_seq g' = g_seq g0 /\ g_chan g' = g_chan g0).
  { intros c' g0 E. rewrite list_lookup_alter. case_decide; [subst c'; rewrite E|]; cbn; by eexists. }
  split; cbn [getters wait_map].
  - rewrite map_seq_alter by done. apply Hi.
  - intros c' g' E. destruct (Hl _ _ E) as (g0 & E0 & -> & ->). by apply (si_chan _ _ Hi c').
  - intros q ch. rewrite map_seq_alter by done. apply Hi.
  - intros q c'. rewrite (si_wait _ _ Hi). split; intros (g0 & E & <- & He).
    + destruct (Hr _ _ E) as (g' & E' & Eq & Ec). exists g'. by rewrite Eq, Ec.
    + destruct (Hl _ _ E) as (g1 & E' & Eq & Ec). exists g1. by rewrite <- Eq, <- Ec.
Qed.

Lemma send_response_seqs st r d : map g_seq (getters (send_response st r d)) = map g_seq (getters st) /\
  seq_id (send_response st r d) = seq_id st.
Proof. unfold send_response. destruct (wait_map st !! r_seq r); cbn; [by rewrite map_seq_alter|done]. Qed.

Lemma getter_drop_seqs st c : map g_seq (getters (getter_drop st c)) = map g_seq (getters st) /\
  seq_id (getter_drop st c) = seq_id st.
Proof.
  unfold getter_drop. destruct (getters st !! c) as [g|]; [|done]. cbn. rewrite map_seq_alter by done.
  apply send_response_seqs.
Qed.

(** [n] requests have been numbered. *)
Record session_inv (n : Z) (s : ClientSession) (a : gmap Z Chan) : Prop := {
  ss_state : state_inv (state s) a;
  ss_next : seq_id (state s) = n mod 2 ^ 32 /\ 0 <= n;
  ss_sent : map (q_seq ∘ fst) (outbox s) ≡ₚ sending s ++ map g_seq (getters (state s));
  ss_nodup : NoDup (map (q_seq ∘ fst) (outbox s));
  ss_range : Forall (fun q => 0 <= q < n) (map (q_seq ∘ fst) (outbox s)) }.

Lemma session_step_inv n s a st : session_inv n s a -> n + begins [st] <= 2 ^ 32 ->
  session_inv (n + begins [st]) (session_step s st) (fold_left table_step (events s st) a).
Proof.
  intros [Hst [Hn Hn0] Hs Hnd Hr]. destruct st as [c d sent|i|i r|i]; unfold begins; cbn; intros Hb; rewrite ?Z.add_0_r.
  - unfold send_begin. rewrite (Z.mod_small n) in Hn by lia. cbn. rewrite Hn.
    destruct sent; split; cbn; rewrite ?map_app; try done.
    + by destruct Hst.
    + split; [done|lia].
    + cbn. rewrite Hs, <- !app_assoc. apply Permutation_app_head, Permutation_app_comm.
    + cbn. apply NoDup_app. split_and!; [done| |apply NoDup_singleton].
      intros q Hq Hq'. apply list_elem_of_singleton in Hq' as ->. rewrite Forall_forall in Hr. specialize (Hr _ Hq). lia.
    + apply Forall_app. split; [eapply Forall_impl; [done|]; cbn; lia|]. constructor; [cbn; lia|done].
    + by destruct Hst.
    + split; [done|lia].
    + eapply Forall_impl; [done|]. cbn. lia.
  - unfold send_register. destruct (sending s !! i) as [q|] eqn:Hq; [|by split].
    pose proof (delete_Permutation _ _ _ Hq) as Hp.
    assert (Hg : map g_seq (getters (wait_for_response (state s) q)) = map g_seq (getters (state s)) ++ [q]).
    { unfold wait_for_response. destruct (wait_map _ !! q); cbn; by rewrite map_app, ?map_seq_alter. }
    split; cbn -[wait_for_response]; try done.
    + apply wait_for_response_inv; [done|]. intros Hin. rewrite Hs, Hp in Hnd.
      cbn in Hnd. apply NoDup_cons in Hnd as [Hnd _]. apply Hnd, elem_of_app. by right.
    + rewrite Hg, Hs. rewrite Hp at 1. cbn. rewrite app_assoc. apply Permutation_cons_append.
  - unfold wait_response. destruct (tasks s !! i) as [q|]; [|by split].
    destruct r as [[r d]|e]; cbn;
      (split; cbn; [by apply send_response_inv| | |done|done]);
      match goal with |- context [send_response ?st ?r ?d] => destruct (send_response_seqs st r d) as [E1 E2] end;
      by rewrite ?E1, ?E2.
  - destruct (getter_drop_seqs (state s) i) as [E1 E2].
    destruct (getters (state s) !! i) as [g|] eqn:Hg.
    + split; cbn; rewrite ?E1, ?E2; try done. by apply getter_drop_inv.
    + split; cbn; rewrite ?E1, ?E2; try done. unfold getter_drop. by rewrite Hg.
Qed.

Lemma begins_cons st l : begins (st :: l) = begins [st] + begins l.
Proof. unfold begins. cbn. destruct st; cbn; lia. Qed.

Lemma session_new_inv : session_inv 0 session_new ∅.
Proof.
  split; cbn; [split; cbn| | | |]; try done; try constructor; try lia.
  - intros [= E].
  - by intros (g & E & _).
Qed.

Lemma table_run_inv l : forall n s a, session_inv n s a -> n + begins l <= 2 ^ 32 ->
  session_inv (n + begins l) (table_run s l a).1 (table_run s l a).2.
Proof.
  induction l as [|st l IH]; intros n s a Hi Hb; [unfold begins; cbn; by rewrite Z.add_0_r|].
  rewrite begins_cons in *. pose proof (Zle_0_nat (length (List.filter (fun st => match st with SBegin _ _ _ => true | _ => false end) l))).
  fold (begins l) in *. rewrite Z.add_assoc. apply IH; [apply session_step_inv|]; [done|lia..].
Qed.

Lemma table_run_session l : forall s a, (table_run s l a).1 = fold_left session_step l s.
Proof. induction l as [|st l IH]; intros s a; [done|]. apply IH. Qed.

(** The table only holds answers under their own numbers. *)
Definition table_ok (a : gmap Z Chan) : Prop :=
  map_Forall (fun q ch => match ch with ChEmpty => True | ChSent r _ => r_seq r = q | ChClosed => False end) a.

Lemma table_step_ok a e : table_ok a -> table_ok (table_step a e).
Proof.
  intros Ha. destruct e as [q|r d]; cbn; [by apply map_Forall_insert_2|].
  destruct (a !! r_seq r) as [[]|]; try done. by apply map_Forall_insert_2.
Qed.

Lemma table_run_ok l : forall s a, table_ok a -> table_ok (table_run s l a).2.
Proof.
  induction l as [|st l IH]; intros s a Ha; [done|]. apply IH. cbn [fst snd]. revert a Ha.
  induction (events s st) as [|e es IHe]; intros b Hb; [done|]. by apply IHe, table_step_ok.
Qed.

(** C3: Matching responses to requests, whatever the order in which requests are
    sent and registered, tasks get responses (any responses), fail, and getters
    are dropped, up to 2^32 requests: the numbers on the wire are all
    different; the session is exactly a table of requests, where a request
    waits from its registration to the first answer with its number, whichever
    task received it, and is not changed by anything later; so what [wait]
    gives is that answer, and it has the request's own number. *)
Theorem rpc_answers_matched (l : list Step) : begins l <= 2 ^ 32 ->
  let s := run_session l in
  let table := (table_run session_new l ∅).2 in
  NoDup (map (q_seq ∘ fst) (outbox s)) /\
  map (q_seq ∘ fst) (outbox s) ≡ₚ sending s ++ map g_seq (getters (state s)) /\
  forall g, g ∈ getters (state s) -> exists ch, table !! g_seq g = Some ch /\ getter_wait g =
    match ch with ChSent r d => Ready (Ok (r, d)) | _ => Pending end /\
    forall r d, ch = ChSent r d -> r_seq r = g_seq g.
Proof.
  intros Hb s table. destruct (table_run_inv l 0 _ _ session_new_inv Hb) as [Hst _ Hs Hnd _].
  rewrite table_run_session in *. fold (run_session l) s in Hs, Hnd, Hst. fold table in Hst.
  split_and!; [done..|]. intros g Hg. apply list_elem_of_lookup_1 in Hg as [c Hc].
  pose proof (si_chan _ _ Hst _ _ Hc) as Ht. exists (g_chan g). split; [done|].
  pose proof (table_run_ok l session_new ∅ (map_Forall_empty _) _ _ Ht) as Hok. unfold getter_wait.
  destruct (g_chan g); [by split|split; [done|by intros ?? [= <- <-]]|done].
Qed.

(** *** Whether a request is ever answered *)

(** The connection is in order: what a task gets is the answer to a request that
    is waiting, and nobody gives up. *)
Definition prompt (a : gmap Z Chan) (st : Step) : Prop :=
  match st with
  | STask _ (Ok (r, _)) => a !! r_seq r = Some ChEmpty
  | STask _ (Err _) | SDrop _ => False
  | _ => True
  end.

Fixpoint all_prompt (s : ClientSession) (l : list Step) (a : gmap Z Chan) : Prop :=
  match l with
  | [] => True
  | st :: l => prompt a st /\ all_prompt (session_step s st) l (fold_left table_step (events s st) a)
  end.

Definition waiting (gs : list Getter) : nat :=
  length (List.filter (fun g => match g_chan g with ChEmpty => true | _ => false end) gs).

Lemma waiting_sent gs : forall c g r d, gs !! c = Some g -> g_chan g = ChEmpty ->
  waiting gs = S (waiting (alter (set_chan (ChSent r d)) c gs)).
Proof.
  induction gs as [|g0 gs IH]; intros [|c] g r d Hc He; cbn in Hc; [done|done| |].
  - simplify_eq. unfold waiting. cbn. rewrite He. done.
  - unfold waiting in *. cbn. destruct (g_chan g0); cbn; by rewrite (IH c g r d).
Qed.

Lemma prompt_step n s a st : session_inv n s a -> n + begins [st] <= 2 ^ 32 -> prompt a st ->
  length (tasks s) = waiting (getters (state s)) ->
  length (tasks (session_step s st)) = waiting (getters (state (session_step s st))).
Proof.
  intros Hi Hb Hp E. destruct st as [c d sent|i|i [[r d]|e]|i]; cbn in Hp; try done.
  - cbn. unfold send_begin. cbn. by destruct sent.
  - cbn. unfold send_register. destruct (sending s !! i) as [q|] eqn:Hq; [|done].
    cbn -[wait_for_response]. rewrite length_app, E. unfold wait_for_response.
    assert (Hw : wait_map (state s) !! q = None).
    { destruct (wait_map (state s) !! q) as [c|] eqn:Hw; [|done].
      apply (si_wait _ _ (ss_state _ _ _ Hi)) in Hw as (g & Hc & <- & _).
      pose proof (ss_nodup _ _ _ Hi) as Hnd. rewrite (ss_sent _ _ _ Hi), NoDup_app in Hnd.
      destruct Hnd as (_ & Hnd & _). apply list_elem_of_lookup_2 in Hq, Hc. destruct (Hnd _ Hq).
      apply list_elem_of_fmap. by exists g. }
    rewrite Hw. cbn. unfold waiting. rewrite List.filter_app, length_app. done.
  - cbn. unfold wait_response. destruct (tasks s !! i) as [q|] eqn:Hq; [|done]. cbn -[send_response].
    assert (Hl : S (length (delete i (tasks s))) = length (tasks s)).
    { symmetry. apply (Permutation_length (delete_Permutation _ _ _ Hq)). }
    destruct (list_elem_of_fmap_1 _ _ _ (si_dom _ _ (ss_state _ _ _ Hi) _ _ Hp)) as (g & Eq & Hg).
    apply list_elem_of_lookup_1 in Hg as [c Hc]. pose proof (si_chan _ _ (ss_state _ _ _ Hi) _ _ Hc) as Ht.
    rewrite <- Eq, Hp in Ht. simplify_eq. unfold send_response.
    rewrite (proj2 (si_wait _ _ (ss_state _ _ _ Hi) (r_seq r) c)) by (by exists g). cbn.
    apply Nat.succ_inj. unfold Nat.succ. rewrite Hl, E. by apply waiting_sent with (g := g).
Qed.

Lemma prompt_run l : forall n s a, session_inv n s a -> n + begins l <= 2 ^ 32 -> all_prompt s l a ->
  length (tasks s) = waiting (getters (state s)) ->
  length (tasks (fold_left session_step l s)) = waiting (getters (state (fold_left session_step l s))).
Proof.
  induction l as [|st l IH]; intros n s a Hi Hb Hp E; [done|]. destruct Hp as [Hp Hl].
  rewrite begins_cons in Hb. assert (0 <= begins l) by (unfold begins; lia).
  apply (IH (n + begins [st]) _ _ (session_step_inv n s a st Hi ltac:(lia))); [lia|done|].
  apply (prompt_step n s a); [done|lia|done..].
Qed.

(** As long as the connection is in order, every response answering a request
    already registered, there are as many tasks as requests that wait: when
    the last task is done every request has its answer. *)
Theorem rpc_all_answered (l : list Step) : begins l <= 2 ^ 32 -> all_prompt session_new l ∅ ->
  let s := run_session l in
  length (tasks s) = waiting (getters (state s)) /\
  (tasks s = [] -> forall g, g ∈ getters (state s) -> exists r d, getter_wait g = Ready (Ok (r, d)) /\ r_seq r = g_seq g).
Proof.
  intros Hb Hp s. destruct (table_run_inv l 0 _ _ session_new_inv Hb) as [Hst _ _ _ _].
  rewrite table_run_session in Hst. fold (run_session l) s in Hst.
  assert (E : length (tasks s) = waiting (getters (state s))).
  { apply (prompt_run l 0 session_new ∅); [apply session_new_inv|done|done|done]. }
  split; [done|]. intros Ht g Hg. rewrite Ht in E.
  apply list_elem_of_lookup_1 in Hg as [c Hc]. pose proof (si_chan _ _ Hst _ _ Hc) as Htab.
  pose proof (table_run_ok l session_new ∅ (map_Forall_empty _) _ _ Htab) as Hok.
  destruct (g_chan g) as [|r d|] eqn:Eg; [|by exists r, d; unfold getter_wait; rewrite Eg|done].
  by rewrite (waiting_sent _ _ _ (mkResponse 0 (inl RNull)) [] Hc Eg) in E.
Qed.

End Session.

(** ** Examples and faults *)

Definition sample_errors (e : error) : string := "error"%string.
Definition sample_answer (q : Z) : res (Response * bytes) := Ok (mkResponse q (inl RNull), []).

Definition sample_steps : list Step :=
  [SBegin (CFlush 0) None true; SRegister 0; SBegin (CFlush 1) None true; SRegister 0;
   STask 0 (sample_answer 1); STask 0 (sample_answer 0)].

Example rpc_answers_matched_witness :
  let s := run_session sample_errors sample_steps in
  (table_run sample_errors session_new sample_steps ∅).2 !! 1 = Some (ChSent (mkResponse 1 (inl RNull)) []) /\
  match getters (state s) !! 1%nat with Some g => getter_wait g = Ready (sample_answer 1) | None => False end.
Proof.
  assert (E : (table_run sample_errors session_new sample_steps ∅).2 !! 1 = Some (ChSent (mkResponse 1 (inl RNull)) []))
    by (vm_compute; reflexivity).
  split; [exact E|].
  destruct (rpc_answers_matched sample_errors sample_steps ltac:(vm_compute; discriminate)) as (_ & _ & H).
  destruct (getters _ !! 1%nat) as [g|] eqn:Hg; [|vm_compute in Hg; discriminate Hg].
  destruct (H g) as (ch & Ht & Hw & _); [by apply list_elem_of_lookup_2 in Hg|].
  vm_compute in Hg. injection Hg as Hg. rewrite <- Hg in Ht, Hw |- *.
  cbn [g_seq] in Ht. rewrite E in Ht. injection Ht as <-. exact Hw.
Defined.

Example rpc_all_answered_witness :
  all_prompt sample_errors session_new sample_steps ∅ /\
  forall g, g ∈ getters (state (run_session sample_errors sample_steps)) ->
    exists r d, getter_wait g = Ready (Ok (r, d)) /\ r_seq r = g_seq g.
Proof.
  assert (Hp : all_prompt sample_errors session_new sample_steps ∅) by (vm_compute; repeat split).
  split; [exact Hp|].
  apply (rpc_all_answered sample_errors sample_steps ltac:(vm_compute; discriminate) Hp). vm_compute. reflexivity.
Defined.

(** A response that arrives before its request is registered, received by the
    task of another request, is dropped: when all responses have arrived and
    all tasks are done, the request still waits. *)
Lemma rpc_early_response_lost :
  let s := run_session sample_errors [SBegin (CFlush 0) None true; SRegister 0; SBegin (CFlush 1) None true;
    STask 0 (sample_answer 1); SRegister 0; STask 0 (sample_answer 0)] in
  tasks s = [] /\ sending s = [] /\ map getter_wait (getters (state s)) = [Ready (sample_answer 0); Pending].
Proof. by vm_compute. Qed.

(** When responses arrive out of order and the connection is then lost, each
    remaining task reports the failure under its own number, which may be
    answered already: the request whose task took that answer waits for ever. *)
Lemma rpc_lost_connection_hangs :
  let s := run_session sample_errors [SBegin (CFlush 0) None true; SRegister 0; SBegin (CFlush 1) None true; SRegister 0;
    STask 0 (sample_answer 1); STask 0 (Err EBrokenPipe)] in
  tasks s = [] /\ closed s = true /\ map getter_wait (getters (state s)) = [Pending; Ready (sample_answer 1)].
Proof. by vm_compute. Qed.

End Rpc.
Export Rpc.
