(* ===== verification/RpcNet.v ===== *)
(** * The RPC server and the net that uses it
    ([protocol/rpc/src/server.rs], [net.rs], [net/socket.rs], the server's half of
    [session.rs] and [session/state.rs])

    The server keeps what its net gives it in a table of objects, and answers
    requests on their numbers, each in a task of its own.  The client's net
    turns every operation into a request.  That a net used through RPC is the
    net itself is the refinement at the end. *)

From S2P Require Import Prelude Io Address ConnContext Rpc.

Module RpcNet.

(** The traits of a net and of what it gives. *)
Class NetObjects : Type := {
  Net : Type; Stream : Type; Listener : Type; Udp : Type;
  net_tcp_connect : Context -> Address -> Net -> Net * poll (Context * res Stream);
  net_tcp_bind : Context -> Address -> Net -> Net * poll (Context * res Listener);
  net_udp_bind : Context -> Address -> Net -> Net * poll (Context * res Udp);
  net_lookup_host : Address -> Net -> Net * poll (res (list SocketAddr));
  stream_read : nat -> Stream -> Stream * poll (res bytes);
  stream_write : bytes -> Stream -> Stream * poll (res nat);
  stream_flush : Stream -> Stream * poll (res unit);
  stream_shutdown : Stream -> Stream * poll (res unit);
  stream_local_addr : Stream -> res SocketAddr;
  stream_peer_addr : Stream -> res SocketAddr;
  listener_accept : Listener -> Listener * poll (res (Stream * SocketAddr));
  listener_local_addr : Listener -> res SocketAddr;
  udp_recv_from : nat -> Udp -> Udp * poll (res (bytes * SocketAddr));
  udp_send_to : bytes -> Address -> Udp -> Udp * poll (res nat);
  udp_local_addr : Udp -> res SocketAddr }.

(** serde's form of a [SocketAddr]. *)
Class SerdeAddr : Type := {
  sa_to_value : SocketAddr -> Value;
  sa_from_value : Value -> res SocketAddr;
  sa_from_to : forall a, sa_from_value (sa_to_value a) = Ok a }.

Definition poll_map {A B} (f : A -> B) (p : poll (res A)) : poll (res B) :=
  match p with
  | Pending => Pending
  | Ready (Ok a) => Ready (Ok (f a))
  | Ready (Err e) => Ready (Err e)
  end.

(* src/rd-interface/src/constant.rs:1-1 UDP_BUFFER_SIZE *)
Definition UDP_BUFFER_SIZE : nat := 8 * 1024.

Section Server.
Context {NO : NetObjects} {SA : SerdeAddr}.

(** ** Objects *)

(* src/protocol/rpc/src/session.rs:143-147 Obj *)
Inductive Obj : Type :=
| OTcpStream (s : Stream)
| OTcpListener (l : Listener)
| OUdpSocket (u : Udp).

(** Using an object as what it should be. *)
(* src/protocol/rpc/src/session.rs:156-161 Obj::tcp_stream_mut *)
Definition tcp_stream_mut {A} (f : Stream -> Stream * poll (res A)) (o : Obj) : Obj * poll (res A) :=
  match o with
  | OTcpStream s => let '(s, p) := f s in (OTcpStream s, p)
  | _ => (o, Ready (Err (EOther "not a tcp stream")))
  end.

(* src/protocol/rpc/src/session.rs:150-155 Obj::tcp_listener *)
Definition tcp_listener {A} (f : Listener -> Listener * poll (res A)) (o : Obj) : Obj * poll (res A) :=
  match o with
  | OTcpListener l => let '(l, p) := f l in (OTcpListener l, p)
  | _ => (o, Ready (Err (EOther "not a tcp listener")))
  end.

(* src/protocol/rpc/src/session.rs:162-167 Obj::udp_socket_mut *)
Definition udp_socket_mut {A} (f : Udp -> Udp * poll (res A)) (o : Obj) : Obj * poll (res A) :=
  match o with
  | OUdpSocket u => let '(u, p) := f u in (OUdpSocket u, p)
  | _ => (o, Ready (Err (EOther "not a udp socket")))
  end.

(** The objects by number; [Shared] is an index into [shared], so that a task
    that has looked one up keeps it when its number is closed. *)
(* src/protocol/rpc/src/session/state.rs:74-77 ServerSessionState *)
Record ServerSessionState : Type := mkServerState { shared : list Obj; objects : gmap Object nat; obj_id : Z }.

(* src/protocol/rpc/src/session/state.rs:80-85 ServerSessionState::new *)
Definition server_state_new : ServerSessionState := mkServerState [] ∅ 0.

(* src/protocol/rpc/src/session/state.rs:86-94 insert_object *)
Definition insert_object (s : ServerSessionState) (o : Obj) : ServerSessionState * Object :=
  (mkServerState (shared s ++ [o]) (<[obj_id s := length (shared s)]> (objects s)) ((obj_id s + 1) mod 2 ^ 32), obj_id s).

(* src/protocol/rpc/src/session/state.rs:95-97 remove_object *)
Definition remove_object (s : ServerSessionState) (o : Object) : ServerSessionState :=
  mkServerState (shared s) (delete o (objects s)) (obj_id s).

Definition not_found (o : Object) : error := ENotFound (lit "Object Object(" ++ show_uint o ++ lit ") not found").

(* src/protocol/rpc/src/session/state.rs:98-106 get_object *)
Definition get_object (s : ServerSessionState) (o : Object) : res nat :=
  match objects s !! o with Some i => Ok i | None => Err (not_found o) end.

(** ** Handling a request *)

Definition Reply : Type := RpcValue * option bytes.

Record Server : Type := mkServer { net : Net; sstate : ServerSessionState; greeted : bool }.

(** A request being handled: the task has a result, or polls a future of the
    net, or one of an object. *)
Inductive Handler : Type :=
| HDone (r : res Reply)
| HNet (c : Command) (ctx : Context)
| HObj (c : Command) (i : nat).

Definition object_of (c : Command) : option Object :=
  match c with
  | CAccept o | CRead o _ | CWrite o | CFlush o | CShutdown o | CRecvFrom o | CSendTo o _ | CLocalAddr o | CPeerAddr o => Some o
  | _ => None
  end.

(** Up to the first await. *)
(* src/protocol/rpc/src/server.rs:87-123 RpcServer::handle_req(start) *)
Definition handle_begin (s : Server) (c : Command) : Server * Handler :=
  match c with
  | CTcpConnect v _ | CTcpBind v _ | CUdpBind v _ =>
    (s, match ctx_from_value v with Ok ctx => HNet c ctx | Err e => HDone (Err e) end)
  | CLookupHost _ => (s, HNet c ctx_new)
  | CClose o => (mkServer (net s) (remove_object (sstate s) o) (greeted s), HDone (Ok (RNull, None)))
  | CHandshake _ => (s, HDone (Err (EOther "Invalid command")))
  | CAccept o | CRead o _ | CWrite o | CFlush o | CShutdown o | CRecvFrom o | CSendTo o _ | CLocalAddr o | CPeerAddr o =>
    (s, match get_object (sstate s) o with Ok i => HObj c i | Err e => HDone (Err e) end)
  end.

(** What a future gives: a reply, or an object to be put into the table, whose
    number comes first in the reply. *)
Inductive Answer : Type :=
| AReply (r : Reply)
| AObject (o : Obj) (v : Value).

Definition made {O} (c : O -> Obj) (r : poll (Context * res O)) : poll (res Answer) :=
  match r with
  | Pending => Pending
  | Ready (ctx, Ok o) => Ready (Ok (AObject (c o) (ctx_to_value ctx)))
  | Ready (_, Err e) => Ready (Err e)
  end.

(* src/protocol/rpc/src/server.rs:89-128 RpcServer::handle_req(net) *)
Definition net_poll (c : Command) (ctx : Context) (n : Net) : Net * poll (res Answer) :=
  match c with
  | CTcpConnect _ a => let '(n, p) := net_tcp_connect ctx a n in (n, made OTcpStream p)
  | CTcpBind _ a => let '(n, p) := net_tcp_bind ctx a n in (n, made OTcpListener p)
  | CUdpBind _ a => let '(n, p) := net_udp_bind ctx a n in (n, made OUdpSocket p)
  | CLookupHost a =>
    let '(n, p) := net_lookup_host a n in (n, poll_map (fun l => AReply (RValue (VArr (map sa_to_value l)), None)) p)
  | _ => (n, Ready (Err (EOther "Invalid command")))
  end.

(* src/protocol/rpc/src/server.rs:222-232 RpcServer::handle_req(LocalAddr) *)
Definition obj_local_addr (o : Obj) : res SocketAddr :=
  match o with
  | OTcpStream s => stream_local_addr s
  | OTcpListener l => listener_local_addr l
  | OUdpSocket u => udp_local_addr u
  end.

(* src/protocol/rpc/src/server.rs:233-242 RpcServer::handle_req(PeerAddr) *)
Definition obj_peer_addr (o : Obj) : res SocketAddr :=
  match o with
  | OTcpStream s => stream_peer_addr s
  | _ => Err (EOther "invalid object")
  end.

Definition addr_reply (a : SocketAddr) : Answer := AReply (RValue (sa_to_value a), None).
Definition null_reply : Answer := AReply (RNull, None).

(* src/protocol/rpc/src/server.rs:129-221 RpcServer::handle_req(object) *)
Definition obj_poll (c : Command) (data : bytes) (o : Obj) : Obj * poll (res Answer) :=
  match c with
  | CRecvFrom _ =>
    let '(o, p) := udp_socket_mut (udp_recv_from UDP_BUFFER_SIZE) o in
    (o, poll_map (fun df => AReply (RValue (sa_to_value df.2), Some df.1)) p)
  | CSendTo _ a => let '(o, p) := udp_socket_mut (udp_send_to data a) o in (o, poll_map (fun _ => null_reply) p)
  | CRead _ size =>
    let '(o, p) := tcp_stream_mut (stream_read (Z.to_nat size)) o in (o, poll_map (fun d => AReply (RNull, Some d)) p)
  | CWrite _ =>
    let '(o, p) := tcp_stream_mut (stream_write data) o in
    (o, poll_map (fun n => AReply (RValue (VNum (Z.of_nat n)), None)) p)
  | CFlush _ => let '(o, p) := tcp_stream_mut stream_flush o in (o, poll_map (fun _ => null_reply) p)
  | CShutdown _ => let '(o, p) := tcp_stream_mut stream_shutdown o in (o, poll_map (fun _ => null_reply) p)
  | CAccept _ =>
    let '(o, p) := tcp_listener listener_accept o in
    (o, poll_map (fun sa => AObject (OTcpStream sa.1) (sa_to_value sa.2)) p)
  | CLocalAddr _ => (o, poll_map addr_reply (Ready (obj_local_addr o)))
  | CPeerAddr _ => (o, poll_map addr_reply (Ready (obj_peer_addr o)))
  | _ => (o, Ready (Err (EOther "Invalid command")))
  end.

(* src/protocol/rpc/src/session.rs:225-227 RequestGetter::insert_object *)
Definition settle (s : ServerSessionState) (p : poll (res Answer)) : ServerSessionState * poll (res Reply) :=
  match p with
  | Pending => (s, Pending)
  | Ready (Err e) => (s, Ready (Err e))
  | Ready (Ok (AReply r)) => (s, Ready (Ok r))
  | Ready (Ok (AObject o v)) => let '(s, id) := insert_object s o in (s, Ready (Ok (RObjectValue id v, None)))
  end.

(** A poll of the task; [busy] when another one holds the object's lock. *)
(* src/protocol/rpc/src/session/state.rs:62-65 Shared::poll_lock *)
Definition handle_poll (busy : bool) (data : bytes) (s : Server) (h : Handler) : Server * poll (res Reply) :=
  match h with
  | HDone r => (s, Ready r)
  | HNet c ctx =>
    let '(n, p) := net_poll c ctx (net s) in
    let '(st, r) := settle (sstate s) p in (mkServer n st (greeted s), r)
  | HObj c i =>
    match shared (sstate s) !! i with
    | Some o =>
      if busy then (s, Pending)
      else
        let '(o, p) := obj_poll c data o in
        let st := mkServerState (<[i := o]> (shared (sstate s))) (objects (sstate s)) (obj_id (sstate s)) in
        let '(st, r) := settle st p in (mkServer (net s) st (greeted s), r)
    | None => (s, Pending)
    end
  end.

(** ** The server with its tasks *)

(** The requests being handled; [replies] and [closes] keep the history. *)
Record ServerRun : Type := mkRun {
  srv : Server;
  running : list (Command * bytes * Handler);
  replies : list (Command * res Reply);
  closes : list Object }.

(** A request arrives, or a task is polled. *)
Inductive ServerStep : Type :=
| VRequest (c : Command) (data : bytes)
| VPoll (k : nat) (busy : bool).

(* src/protocol/rpc/src/server.rs:260-292 RpcServer::handle_conn(loop) *)
Definition server_step (r : ServerRun) (st : ServerStep) : ServerRun :=
  match st with
  | VRequest c data =>
    let '(s, h) := handle_begin (srv r) c in
    mkRun s (running r ++ [(c, data, h)]) (replies r) (match c with CClose o => closes r ++ [o] | _ => closes r end)
  | VPoll k busy =>
    match running r !! k with
    | Some (c, data, h) =>
      match handle_poll busy data (srv r) h with
      | (s, Pending) => mkRun s (running r) (replies r) (closes r)
      | (s, Ready a) => mkRun s (delete k (running r)) (replies r ++ [(c, a)]) (closes r)
      end
    | None => r
    end
  end.

Definition server_start (n : Net) : ServerRun := mkRun (mkServer n server_state_new true) [] [] [].

Inductive Kind : Type := KStream | KListener | KUdp.
Definition kind_of (o : Obj) : Kind :=
  match o with OTcpStream _ => KStream | OTcpListener _ => KListener | OUdpSocket _ => KUdp end.

(** What the object of a request's reply is. *)
Definition made_by (c : Command) : option Kind :=
  match c with
  | CTcpConnect _ _ | CAccept _ => Some KStream
  | CTcpBind _ _ => Some KListener
  | CUdpBind _ _ => Some KUdp
  | _ => None
  end.

(** The object a reply hands out. *)
Definition issued_by (x : Command * res Reply) : option Object :=
  match x.2 with Ok (RObjectValue o _, _) => Some o | _ => None end.

Definition answer_ok (c : Command) (p : poll (res Answer)) : Prop :=
  match p with
  | Ready (Ok (AObject o _)) => made_by c = Some (kind_of o)
  | Ready (Ok (AReply (RObjectValue _ _, _))) => False
  | _ => True
  end.

Lemma net_poll_answer c ctx n : answer_ok c (net_poll c ctx n).2.
Proof.
  destruct c; cbn; try done;
    match goal with |- context [let '(_, _) := ?x in _] => destruct x as [n' [|p]] end; cbn; try done;
    [destruct p as [? []].. | destruct p]; done.
Qed.

Lemma use_kind {A} (o : Obj) :
  (forall f : Stream -> Stream * poll (res A), kind_of (tcp_stream_mut f o).1 = kind_of o) /\
  (forall f : Listener -> Listener * poll (res A), kind_of (tcp_listener f o).1 = kind_of o) /\
  (forall f : Udp -> Udp * poll (res A), kind_of (udp_socket_mut f o).1 = kind_of o).
Proof. split_and!; intros f; destruct o as [x|x|x]; cbn; try done; by destruct (f x). Qed.

Lemma poll_map_answer {A} c (f : A -> Answer) p : (forall a, answer_ok c (Ready (Ok (f a)))) -> answer_ok c (poll_map f p).
Proof. intros Hf. destruct p as [|[a|e]]; cbn; [done|apply Hf|done]. Qed.

Lemma obj_poll_answer c data o : kind_of (obj_poll c data o).1 = kind_of o /\ answer_ok c (obj_poll c data o).2.
Proof.
  destruct c; cbn [obj_poll]; try done;
    match goal with
    | |- context [tcp_stream_mut ?f o] => pose proof (proj1 (use_kind o) f) as E; destruct (tcp_stream_mut f o) as [o' p]
    | |- context [tcp_listener ?f o] => pose proof (proj1 (proj2 (use_kind o)) f) as E; destruct (tcp_listener f o) as [o' p]
    | |- context [udp_socket_mut ?f o] => pose proof (proj2 (proj2 (use_kind o)) f) as E; destruct (udp_socket_mut f o) as [o' p]
    | _ => assert (E : kind_of o = kind_of o) by done
    end; (split; [exact E|]); by apply poll_map_answer.
Qed.

(** [m] objects have been put into the table. *)
Record table_inv (m : Z) (s : ServerSessionState) : Prop := {
  ti_id : obj_id s = m mod 2 ^ 32;
  ti_len : Z.of_nat (length (shared s)) = m;
  ti_objects : forall o i, objects s !! o = Some i -> o = Z.of_nat i /\ (i < length (shared s))%nat }.

(** An object handed out: its number, its kind, and that it is in the table
    unless it was closed. *)
Definition held (r : ServerRun) (c : Command) (o : Object) : Prop :=
  exists i obj, o = Z.of_nat i /\ shared (sstate (srv r)) !! i = Some obj /\ made_by c = Some (kind_of obj) /\
    (objects (sstate (srv r)) !! o = Some i \/ o ∈ closes r).

Record run_inv (m : Z) (r : ServerRun) : Prop := {
  ri_table : table_inv m (sstate (srv r));
  ri_running : Forall (fun x => match x with
    | (c, _, HDone a) => issued_by (c, a) = None
    | (c, _, HNet c' _) | (c, _, HObj c' _) => c' = c
    end) (running r);
  ri_held : forall x o, x ∈ replies r -> issued_by x = Some o -> held r x.1 o;
  ri_nodup : NoDup (omap issued_by (replies r)) }.

(** The table has grown: objects keep their place and kind, numbers their object. *)
Definition extends (s s' : ServerSessionState) : Prop :=
  (forall i o, shared s !! i = Some o -> exists o', shared s' !! i = Some o' /\ kind_of o' = kind_of o) /\
  (forall n i, objects s !! n = Some i -> objects s' !! n = Some i).

Lemma extends_refl s : extends s s.
Proof. split; [intros i o E; by exists o|done]. Qed.

Lemma extends_trans s1 s2 s3 : extends s1 s2 -> extends s2 s3 -> extends s1 s3.
Proof.
  intros [H1 H2] [H3 H4]. split; [|auto]. intros i o E. destruct (H1 _ _ E) as (o' & E' & K).
  destruct (H3 _ _ E') as (o'' & E'' & K'). exists o''. by rewrite K'.
Qed.

(** What a poll may hand out is new, of the request's kind. *)
Definition fresh_reply (m : Z) (s' : ServerSessionState) (c : Command) (p : poll (res Reply)) : Prop :=
  match p with
  | Ready a => forall o, issued_by (c, a) = Some o -> o = m /\ exists i obj, o = Z.of_nat i /\
      shared s' !! i = Some obj /\ made_by c = Some (kind_of obj) /\ objects s' !! o = Some i
  | Pending => True
  end.

Definition step_ok (m : Z) (s s' : ServerSessionState) (c : Command) (p : poll (res Reply)) : Prop :=
  exists m', m <= m' /\ m' <= m + 1 /\ table_inv m' s' /\ extends s s' /\ fresh_reply m s' c p /\
    (forall a, p = Ready a -> is_Some (issued_by (c, a)) -> m' = m + 1).

Lemma step_ok_same m s c p : table_inv m s -> match p with Ready a => issued_by (c, a) = None | Pending => True end ->
  step_ok m s s c p.
Proof.
  intros Hi Hp. exists m. split_and!; [lia|lia|done|apply extends_refl| |].
  - destruct p as [|a]; [done|]. intros o E. congruence.
  - intros a -> [o E]. congruence.
Qed.

Lemma settle_spec m s c p : table_inv m s -> m + 1 <= 2 ^ 32 -> answer_ok c p ->
  step_ok m s (settle s p).1 c (settle s p).2.
Proof.
  intros [Hid Hlen Hob] Hm Ha. destruct p as [|[[[v d]|o v]|e]]; cbn [settle fst snd]; try by apply step_ok_same.
  { apply step_ok_same; [done|]. by destruct v. }
  cbn [insert_object fst snd]. rewrite Hid, Z.mod_small by lia. exists (m + 1). split_and!; [lia|lia| | | |done].
  - split; cbn; [done|rewrite length_app; cbn; lia|]. intros n i E. rewrite length_app. cbn.
    destruct (decide (n = m)) as [->|Hn]; [rewrite lookup_insert_eq in E; simplify_eq; lia|].
    rewrite lookup_insert_ne in E by done. apply Hob in E. lia.
  - split; cbn; [intros i o' E; exists o'; split; [by apply lookup_app_l_Some|done]|].
    intros n i E. rewrite lookup_insert_ne; [done|]. apply Hob in E. lia.
  - intros n [= <-]. split; [done|]. exists (length (shared s)), o. split_and!; [done| |done|apply lookup_insert_eq].
    cbn. rewrite lookup_app_r, Nat.sub_diag by done. done.
Qed.

Lemma handle_poll_ok m busy data s h c : table_inv m (sstate s) -> m + 1 <= 2 ^ 32 ->
  match h with HDone a => issued_by (c, a) = None | HNet c' _ | HObj c' _ => c' = c end ->
  step_ok m (sstate s) (sstate (handle_poll busy data s h).1) c (handle_poll busy data s h).2.
Proof.
  intros Hi Hm Hc. destruct h as [a|c' ctx|c' i]; cbn [handle_poll].
  - by apply step_ok_same.
  - subst c'. pose proof (net_poll_answer c ctx (net s)) as Ha. destruct (net_poll c ctx (net s)) as [n p].
    pose proof (settle_spec m (sstate s) c p Hi Hm Ha) as Hs. by destruct (settle (sstate s) p).
  - subst c'. destruct (shared (sstate s) !! i) as [o|] eqn:Ho; [|by apply step_ok_same].
    destruct busy; [by apply step_ok_same|].
    destruct (obj_poll_answer c data o) as [Hk Ha]. destruct (obj_poll c data o) as [o' p]. cbn [fst snd] in Hk, Ha.
    set (st := mkServerState (<[i := o']> (shared (sstate s))) (objects (sstate s)) (obj_id (sstate s))).
    assert (He : extends (sstate s) st).
    { split; [|done]. intros j x E. cbn. destruct (decide (j = i)) as [->|Hn].
      - exists o'. rewrite list_lookup_insert_eq by (by apply lookup_lt_Some in E). split; [done|congruence].
      - exists x. by rewrite list_lookup_insert_ne. }
    assert (Hi' : table_inv m st) by (destruct Hi; split; cbn; rewrite ?length_insert; done).
    pose proof (settle_spec m st c p Hi' Hm Ha) as (m' & H1 & H2 & H3 & H4 & H5).
    destruct (settle st p) as [st' r]. exists m'. split_and!; [done..|by eapply extends_trans|apply H5|apply H5].
Qed.

Lemma held_mono r r' c o : held r c o ->
  (forall i x, shared (sstate (srv r)) !! i = Some x -> exists x', shared (sstate (srv r')) !! i = Some x' /\ kind_of x' = kind_of x) ->
  (forall n i, objects (sstate (srv r)) !! n = Some i -> objects (sstate (srv r')) !! n = Some i \/ n ∈ closes r') ->
  (forall n, n ∈ closes r -> n ∈ closes r') -> held r' c o.
Proof.
  intros (i & obj & -> & Ho & Hk & Hin) Hs Hb Hc. destruct (Hs _ _ Ho) as (o' & Ho' & K).
  exists i, o'. split_and!; [done|done|by rewrite K|]. destruct Hin as [Hin|Hin]; [by apply Hb|right; by apply Hc].
Qed.

Lemma server_step_inv m r st : run_inv m r -> m + 1 <= 2 ^ 32 ->
  exists m', m <= m' /\ m' <= m + 1 /\ run_inv m' (server_step r st).
Proof.
  intros [Ht Hr Hh Hn] Hm. destruct st as [c data|k busy]; cbn [server_step].
  - exists m. split; [lia|]. split; [lia|]. destruct (handle_begin (srv r) c) as [s h] eqn:E.
    assert (Hs : sstate s = match c with CClose o => remove_object (sstate (srv r)) o | _ => sstate (srv r) end)
      by (destruct c; cbn in E; by simplify_eq).
    split; cbn.
    + rewrite Hs. destruct c; try done. destruct Ht as [H1 H2 H3]. split; cbn; [done..|].
      intros n i Hl. apply lookup_delete_Some in Hl as [_ Hl]. auto.
    + apply Forall_app. split; [done|]. constructor; [|done].
      destruct c; cbn in E; simplify_eq; repeat case_match; by simplify_eq.
    + intros x o Hx Ho. eapply held_mono; [by apply (Hh x o)|cbn; rewrite Hs..|cbn].
      * intros i y Hy. exists y. by destruct c.
      * intros n i Hl. destruct c; try by left. cbn. destruct (decide (n = o0)) as [->|Hne].
        { right. apply elem_of_app. right. by apply list_elem_of_singleton. }
        left. by rewrite lookup_delete_ne.
      * intros n Hl. destruct c; try done. apply elem_of_app. by left.
    + done.
  - destruct (running r !! k) as [[[c data] h]|] eqn:Hk; [|exists m; split; [lia|split; [lia|by split]]].
    pose proof (Forall_lookup_1 _ _ _ _ Hr Hk) as Hc. cbn in Hc.
    destruct (handle_poll_ok m busy data (srv r) h c Ht Hm Hc) as (m' & H1 & H2 & H3 & [He He'] & Hf & Hm').
    destruct (handle_poll busy data (srv r) h) as [s [|a]]; cbn [fst snd] in *; exists m'; (split; [lia|]); (split; [lia|]).
    + split; cbn; [done..| |done]. intros x o Hx Ho. eapply held_mono; [by apply (Hh x o)|exact He| |done]. intros n i E. left. by apply He'.
    + split; cbn; [done|by apply Forall_delete| |].
      * intros x o Hx Ho. apply elem_of_app in Hx as [Hx|Hx].
        { eapply held_mono; [by apply (Hh x o)|exact He| |done]. intros n i E. left. by apply He'. }
        apply list_elem_of_singleton in Hx as ->. destruct (Hf _ Ho) as (_ & i & obj & -> & Hs & Hmk & Hb).
        exists i, obj. split_and!; try done. by left.
      * rewrite omap_app. apply NoDup_app. split_and!; [done| |cbn; destruct (issued_by _); [apply NoDup_singleton|constructor]].
        intros o Ho Ho'. cbn in Ho'. destruct (issued_by (c, a)) as [n|] eqn:En; [|by inversion Ho'].
        apply list_elem_of_singleton in Ho' as ->. destruct (Hf _ En) as [-> _].
        apply list_elem_of_omap in Ho as (x & Hx & Ex). destruct (Hh _ _ Hx Ex) as (i & obj & Ei & Hi & _).
        apply lookup_lt_Some in Hi. pose proof (ti_len _ _ Ht). lia.
Qed.

Definition run_server (n : Net) (l : list ServerStep) : ServerRun := fold_left server_step l (server_start n).

Lemma run_server_inv l : forall m r, run_inv m r -> 0 <= m -> m + Z.of_nat (length l) <= 2 ^ 32 ->
  exists m', run_inv m' (fold_left server_step l r).
Proof.
  induction l as [|st l IH]; intros m r Hi Hm0 Hm; [by exists m|]. cbn [length] in Hm.
  destruct (server_step_inv m r st Hi) as (m' & H1 & H2 & H3); [lia|]. apply (IH m' _ H3); lia.
Qed.

(** C39: The objects of an RPC server, whatever requests arrive and however the
    tasks that handle them are polled, up to 2^32 steps: no number is handed
    out twice, and the number in the reply to a request that makes an object
    stands for an object of that request's kind (a stream for a connection,
    accepted or made) in every later state, as long as nobody has asked for it
    to be closed; so a request on it is never answered with a wrong kind. *)
Theorem rpc_objects_typed (n : Net) (l : list ServerStep) : Z.of_nat (length l) <= 2 ^ 32 ->
  let r := run_server n l in
  NoDup (omap issued_by (replies r)) /\
  forall c v d o, (c, Ok (RObjectValue o v, d)) ∈ replies r -> o ∈ closes r \/
    exists i obj, get_object (sstate (srv r)) o = Ok i /\ shared (sstate (srv r)) !! i = Some obj /\
      made_by c = Some (kind_of obj).
Proof.
  intros Hl r. destruct (run_server_inv l 0 (server_start n)) as [m [_ _ Hh Hn]]; [|done|done|].
  { split; cbn; [|done| |constructor]; [by split|]. intros x o Hx. by inversion Hx. }
  change (fold_left server_step l (server_start n)) with r in Hh, Hn.
  split; [done|]. intros c v d o Hx. destruct (Hh _ o Hx eq_refl) as (i & obj & _ & Ho & Hk & [Hb|Hb]); [right|by left].
  exists i, obj. split; [|by split]. unfold get_object. by rewrite Hb.
Qed.

(** ** One request at a time, through the connection *)

Context {CQ : ItemCodec Request} {CR : ItemCodec Response} (show_error : error -> string).

(* src/protocol/rpc/src/session.rs:234-252 RequestGetter::response *)
Definition response (q : Request) (r : res Reply) : Response * option bytes :=
  match r with
  | Ok (v, d) => (mkResponse (q_seq q) (inl v), d)
  | Err e => (mkResponse (q_seq q) (inr (show_error e)), None)
  end.

(** A request handled alone, its futures polled up to [n] times. *)
Definition handle_req (n : nat) (s : Server) (c : Command) (data : bytes) : Server * poll (res Reply) :=
  let '(s, h) := handle_begin s c in poll_until n (fun s => handle_poll false data s h) s.

(** [None] when the connection ends instead. *)
(* src/protocol/rpc/src/server.rs:246-262 RpcServer::handle_conn(handshake) *)
Definition handle_conn (n : nat) (s : Server) (q : Request) (data : bytes)
    : option (Server * poll (Response * option bytes)) :=
  if greeted s then
    let '(s, p) := handle_req n s (cmd q) data in
    Some (s, match p with Pending => Pending | Ready r => Ready (response q r) end)
  else
    match cmd q with
    | CHandshake _ => Some (mkServer (net s) (sstate s) true, Ready (response q (Ok (RNull, None))))
    | _ => None
    end.

(** The two ends; and how a call ends: with an answer or still waiting, with a
    frame that was refused, or with a panic. *)
Record World : Type := mkWorld { session : ClientSession; server : Server }.

Inductive Outcome (A : Type) : Type :=
| Done (w : World) (a : A)
| Refused (frame : bytes)
| Panic.
Arguments Done {A} w a.
Arguments Refused {A} frame.
Arguments Panic {A}.

(** [send(cmd, data).await?.wait().await?]: the request's frame is read by the
    server, which handles it; the response's frame is read by the task of the
    request.  A frame that is not read whole, as its size was cut to 32 bits,
    is refused, too: what is left of it is taken for the next one. *)
Definition call (n : nat) (w : World) (c : Command) (d : option bytes) : Outcome (poll (res (Response * bytes))) :=
  let s := send_register (send_begin (session w) c d true) 0 in
  match last (outbox s) with
  | None => Panic
  | Some (q, d) =>
    let frame := write_item q d in
    match read_item frame with
    | Ok ((q, data), []) =>
      match handle_conn n (server w) q data with
      | None => Refused frame
      | Some (srv, Pending) => Done (mkWorld s srv) Pending
      | Some (srv, Ready (r, rd)) =>
        let frame := write_item r rd in
        match read_item frame with
        | Ok (item, []) =>
          let s := wait_response show_error s 0 (Ok item) in
          match last (getters (state s)) with
          | None => Panic
          | Some g =>
            Done (mkWorld (session_step show_error s (SDrop (Nat.pred (length (getters (state s)))))) srv) (getter_wait g)
          end
        | _ => Refused frame
        end
      end
    | _ => Refused frame
    end
  end.

Definition answered {A} (o : Outcome (poll (res (Response * bytes)))) (f : Response -> bytes -> res A)
    : Outcome (poll (res A)) :=
  match o with
  | Done w Pending => Done w Pending
  | Done w (Ready (Ok (r, d))) => Done w (Ready (f r d))
  | Done w (Ready (Err e)) => Done w (Ready (Err e))
  | Refused frame => Refused frame
  | Panic => Panic
  end.

(** serde's [u32]. *)
Definition u32_from_value (v : Value) : res nat :=
  match v with
  | VNum z => if (0 <=? z) && (z <? 2 ^ 32) then Ok (Z.to_nat z) else Err EInvalidData
  | _ => Err EInvalidData
  end.

Fixpoint addrs_of (l : list Value) : res (list SocketAddr) :=
  match l with
  | [] => Ok []
  | v :: l => a ← sa_from_value v; l ← addrs_of l; mret (a :: l)
  end.

Definition addrs_from_value (v : Value) : res (list SocketAddr) :=
  match v with VArr l => addrs_of l | _ => Err EInvalidData end.

(* src/protocol/rpc/src/session.rs:32-49 ClientSession::new *)
Definition rpc_client_new (n : nat) (w : World) (session_id : Z) : Outcome (poll (res unit)) :=
  answered (call n w (CHandshake session_id) None) (fun r _ => into_null r).

(** What [tcp_connect], [tcp_bind] and [udp_bind] make of the response: the
    object and the context. *)
Definition object_context (r : Response) (_ : bytes) : res (Object * Context) :=
  ov ← into_object_value Ok r; ctx ← ctx_from_value ov.2; mret (ov.1, ctx).

(* src/protocol/rpc/src/net.rs:63-77 RpcNet::tcp_connect *)
Definition rpc_tcp_connect (n : nat) (w : World) (ctx : Context) (a : Address) :=
  answered (call n w (CTcpConnect (ctx_to_value ctx) a) None) object_context.

(* src/protocol/rpc/src/net.rs:82-100 RpcNet::tcp_bind *)
Definition rpc_tcp_bind (n : nat) (w : World) (ctx : Context) (a : Address) :=
  answered (call n w (CTcpBind (ctx_to_value ctx) a) None) object_context.

(* src/protocol/rpc/src/net.rs:105-119 RpcNet::udp_bind *)
Definition rpc_udp_bind (n : nat) (w : World) (ctx : Context) (a : Address) :=
  answered (call n w (CUdpBind (ctx_to_value ctx) a) None) object_context.

(* src/protocol/rpc/src/net.rs:124-131 RpcNet::lookup_host *)
Definition rpc_lookup_host (n : nat) (w : World) (a : Address) :=
  answered (call n w (CLookupHost a) None) (fun r _ => into_value addrs_from_value r).

(* src/protocol/rpc/src/net/socket.rs:36-46 TcpListenerWrapper::accept *)
Definition wrapper_accept (n : nat) (w : World) (o : Object) :=
  answered (call n w (CAccept o) None) (fun r _ => into_object_value sa_from_value r).

(* src/protocol/rpc/src/net/socket.rs:48-56 TcpListenerWrapper::local_addr *)
Definition wrapper_local_addr (n : nat) (w : World) (o : Object) :=
  answered (call n w (CLocalAddr o) None) (fun r _ => into_value sa_from_value r).

(* src/protocol/rpc/src/net/socket.rs:229-238 TcpWrapper::peer_addr *)
Definition wrapper_peer_addr (n : nat) (w : World) (o : Object) :=
  answered (call n w (CPeerAddr o) None) (fun r _ => into_value sa_from_value r).

(** The data is copied into what is left of the caller's buffer. *)
(* src/protocol/rpc/src/net/socket.rs:97-130 UdpWrapper::poll_recv_from *)
Definition wrapper_recv_from (n : nat) (w : World) (o : Object) (remaining : nat) :=
  answered (call n w (CRecvFrom o) None) (fun r d => a ← into_value sa_from_value r; mret (take remaining d, a)).

(* src/protocol/rpc/src/net/socket.rs:132-162 UdpWrapper::poll_send_to *)
Definition wrapper_send_to (n : nat) (w : World) (o : Object) (buf : bytes) (target : Address) :=
  answered (call n w (CSendTo o target) (Some buf)) (fun r _ => into_null r;; mret (length buf)).

(* src/protocol/rpc/src/net/socket.rs:187-196 TcpAsyncFn::read *)
Definition async_read (n : nat) (w : World) (o : Object) (buf_size : nat) :=
  answered (call n w (CRead o (Z.of_nat buf_size mod 2 ^ 32)) None) (fun r d => into_null r;; mret d).

(** [initialize_unfilled_to] panics beyond the buffer. *)
(* src/rd-std/src/util/async_fn.rs:130-151 AsyncFnIO::poll_read *)
Definition wrapper_read (n : nat) (w : World) (o : Object) (remaining : nat) : Outcome (poll (res bytes)) :=
  match async_read n w o remaining with
  | Done w (Ready (Ok buf)) => if (length buf <=? remaining)%nat then Done w (Ready (Ok buf)) else Panic
  | r => r
  end.

(* src/protocol/rpc/src/net/socket.rs:201-208 TcpAsyncFn::write *)
Definition wrapper_write (n : nat) (w : World) (o : Object) (buf : bytes) :=
  answered (call n w (CWrite o) (Some buf)) (fun r _ => into_value u32_from_value r).

(* src/protocol/rpc/src/net/socket.rs:210-216 TcpAsyncFn::flush *)
Definition wrapper_flush (n : nat) (w : World) (o : Object) := answered (call n w (CFlush o) None) (fun _ _ => Ok tt).

(* src/protocol/rpc/src/net/socket.rs:218-224 TcpAsyncFn::shutdown *)
Definition wrapper_shutdown (n : nat) (w : World) (o : Object) := answered (call n w (CShutdown o) None) (fun _ _ => Ok tt).

(** Every wrapper closes its object when it is dropped. *)
(* src/protocol/rpc/src/session.rs:94-103 ClientSession::close_object *)
Definition close_object (n : nat) (w : World) (o : Object) := answered (call n w (CClose o) None) (fun _ _ => Ok tt).

(** ** What it should be: the net used directly *)

(** What a program does with a net and the objects it gave, which it names by
    the order it got them in. *)
Inductive Op : Type :=
| OpTcpConnect (ctx : Context) (a : Address)
| OpTcpBind (ctx : Context) (a : Address)
| OpUdpBind (ctx : Context) (a : Address)
| OpLookupHost (a : Address)
| OpAccept (h : nat)
| OpRead (h : nat) (size : nat)
| OpWrite (h : nat) (buf : bytes)
| OpFlush (h : nat)
| OpShutdown (h : nat)
| OpRecvFrom (h : nat) (cap : nat)
| OpSendTo (h : nat) (buf : bytes) (a : Address)
| OpLocalAddr (h : nat)
| OpPeerAddr (h : nat)
| OpDrop (h : nat).

Inductive Ret : Type :=
| RtObject (o : Object) (ctx : Context)
| RtAddrs (l : list SocketAddr)
| RtAccepted (o : Object) (a : SocketAddr)
| RtData (d : bytes)
| RtNum (n : nat)
| RtUnit
| RtFrom (d : bytes) (a : SocketAddr)
| RtAddr (a : SocketAddr).

(** The net and its objects, with whether they are still held. *)
Record Direct : Type := mkDirect { d_net : Net; d_objs : list (Obj * bool) }.

Definition d_make {O} (n : nat) (d : Direct) (f : Net -> Net * poll (Context * res O)) (c : O -> Obj)
    : Direct * poll (res Ret) :=
  match poll_until n f (d_net d) with
  | (net, Pending) => (mkDirect net (d_objs d), Pending)
  | (net, Ready (ctx, Ok o)) =>
    (mkDirect net (d_objs d ++ [(c o, true)]), Ready (Ok (RtObject (Z.of_nat (length (d_objs d))) ctx)))
  | (net, Ready (_, Err e)) => (mkDirect net (d_objs d), Ready (Err e))
  end.

Definition d_use {A} (n : nat) (d : Direct) (h : nat) (f : Obj -> Obj * poll (res A)) (k : Direct -> A -> Direct * Ret)
    : Direct * poll (res Ret) :=
  match d_objs d !! h with
  | Some (o, true) =>
    let '(o, p) := poll_until n f o in
    let d := mkDirect (d_net d) (<[h := (o, true)]> (d_objs d)) in
    match p with
    | Pending => (d, Pending)
    | Ready (Err e) => (d, Ready (Err e))
    | Ready (Ok a) => let '(d, r) := k d a in (d, Ready (Ok r))
    end
  | _ => (d, Ready (Err (not_found (Z.of_nat h))))
  end.

Definition same {A} (k : A -> Ret) (d : Direct) (a : A) : Direct * Ret := (d, k a).
Definition accepted (d : Direct) (sa : Stream * SocketAddr) : Direct * Ret :=
  (mkDirect (d_net d) (d_objs d ++ [(OTcpStream sa.1, true)]), RtAccepted (Z.of_nat (length (d_objs d))) sa.2).
Definition at_once {A} (f : Obj -> res A) (o : Obj) : Obj * poll (res A) := (o, Ready (f o)).

Definition direct_step (n : nat) (d : Direct) (op : Op) : Direct * poll (res Ret) :=
  match op with
  | OpTcpConnect ctx a => d_make n d (net_tcp_connect ctx a) OTcpStream
  | OpTcpBind ctx a => d_make n d (net_tcp_bind ctx a) OTcpListener
  | OpUdpBind ctx a => d_make n d (net_udp_bind ctx a) OUdpSocket
  | OpLookupHost a => let '(net, p) := poll_until n (net_lookup_host a) (d_net d) in (mkDirect net (d_objs d), poll_map RtAddrs p)
  | OpAccept h => d_use n d h (tcp_listener listener_accept) accepted
  | OpRead h size => d_use n d h (tcp_stream_mut (stream_read (Z.to_nat (Z.of_nat size mod 2 ^ 32)))) (same RtData)
  | OpWrite h buf => d_use n d h (tcp_stream_mut (stream_write buf)) (same RtNum)
  | OpFlush h => d_use n d h (tcp_stream_mut stream_flush) (same (fun _ => RtUnit))
  | OpShutdown h => d_use n d h (tcp_stream_mut stream_shutdown) (same (fun _ => RtUnit))
  | OpRecvFrom h _ => d_use n d h (udp_socket_mut (udp_recv_from UDP_BUFFER_SIZE)) (same (fun df => RtFrom df.1 df.2))
  | OpSendTo h buf a => d_use n d h (udp_socket_mut (udp_send_to buf a)) (same (fun _ => RtUnit))
  | OpLocalAddr h => d_use n d h (at_once obj_local_addr) (same RtAddr)
  | OpPeerAddr h => d_use n d h (at_once obj_peer_addr) (same RtAddr)
  | OpDrop h =>
    (mkDirect (d_net d) (alter (fun ob => (ob.1, false)) h (d_objs d)), Ready (Ok RtUnit))
  end.

(** How a remote program sees the result: errors are text, flushing, shutting
    down and dropping always succeed, a datagram is cut to the buffer's room,
    and a sent one counts as long as it was. *)
Definition seen (op : Op) (p : poll (res Ret)) : poll (res Ret) :=
  match op, p with
  | _, Pending => Pending
  | (OpFlush _ | OpShutdown _ | OpDrop _), Ready _ => Ready (Ok RtUnit)
  | OpSendTo _ buf _, Ready (Ok _) => Ready (Ok (RtNum (length buf)))
  | OpRecvFrom _ cap, Ready (Ok (RtFrom d a)) => Ready (Ok (RtFrom (take cap d) a))
  | _, Ready (Ok r) => Ready (Ok r)
  | _, Ready (Err e) => Ready (Err (EOther (show_error e)))
  end.

(** The results up to the first operation that does not finish. *)
Fixpoint direct_run (n : nat) (d : Direct) (l : list Op) : list (poll (res Ret)) :=
  match l with
  | [] => []
  | op :: l =>
    match direct_step n d op with
    | (d, Pending) => [Pending]
    | (d, p) => seen op p :: direct_run n d l
    end
  end.

(** ** The same program through RPC *)

Definition returning {A} (k : A -> Ret) (o : Outcome (poll (res A))) : Outcome (poll (res Ret)) :=
  match o with Done w p => Done w (poll_map k p) | Refused f => Refused f | Panic => Panic end.

Definition remote_step (n : nat) (w : World) (op : Op) : Outcome (poll (res Ret)) :=
  match op with
  | OpTcpConnect ctx a => returning (fun oc => RtObject oc.1 oc.2) (rpc_tcp_connect n w ctx a)
  | OpTcpBind ctx a => returning (fun oc => RtObject oc.1 oc.2) (rpc_tcp_bind n w ctx a)
  | OpUdpBind ctx a => returning (fun oc => RtObject oc.1 oc.2) (rpc_udp_bind n w ctx a)
  | OpLookupHost a => returning RtAddrs (rpc_lookup_host n w a)
  | OpAccept h => returning (fun oa => RtAccepted oa.1 oa.2) (wrapper_accept n w (Z.of_nat h))
  | OpRead h size => returning RtData (wrapper_read n w (Z.of_nat h) size)
  | OpWrite h buf => returning RtNum (wrapper_write n w (Z.of_nat h) buf)
  | OpFlush h => returning (fun _ => RtUnit) (wrapper_flush n w (Z.of_nat h))
  | OpShutdown h => returning (fun _ => RtUnit) (wrapper_shutdown n w (Z.of_nat h))
  | OpRecvFrom h cap => returning (fun da => RtFrom da.1 da.2) (wrapper_recv_from n w (Z.of_nat h) cap)
  | OpSendTo h buf a => returning RtNum (wrapper_send_to n w (Z.of_nat h) buf a)
  | OpLocalAddr h => returning RtAddr (wrapper_local_addr n w (Z.of_nat h))
  | OpPeerAddr h => returning RtAddr (wrapper_peer_addr n w (Z.of_nat h))
  | OpDrop h => returning (fun _ => RtUnit) (close_object n w (Z.of_nat h))
  end.

(** The results, and why there are no more: [None] when the program ended or
    waits, a frame that was refused, or a panic. *)
Fixpoint remote_run (n : nat) (w : World) (l : list Op) : list (poll (res Ret)) * option (option bytes) :=
  match l with
  | [] => ([], None)
  | op :: l =>
    match remote_step n w op with
    | Done w Pending => ([Pending], None)
    | Done w p => let '(rs, e) := remote_run n w l in (p :: rs, e)
    | Refused f => ([], Some (Some f))
    | Panic => ([], Some None)
    end
  end.

Definition rpc_new (n : Net) : World := mkWorld session_new (mkServer n server_state_new true).

(** The command and data of an operation, and its reply. *)
Definition cmd_of (op : Op) : Command :=
  match op with
  | OpTcpConnect ctx a => CTcpConnect (ctx_to_value ctx) a
  | OpTcpBind ctx a => CTcpBind (ctx_to_value ctx) a
  | OpUdpBind ctx a => CUdpBind (ctx_to_value ctx) a
  | OpLookupHost a => CLookupHost a
  | OpAccept h => CAccept (Z.of_nat h)
  | OpRead h size => CRead (Z.of_nat h) (Z.of_nat size mod 2 ^ 32)
  | OpWrite h _ => CWrite (Z.of_nat h)
  | OpFlush h => CFlush (Z.of_nat h)
  | OpShutdown h => CShutdown (Z.of_nat h)
  | OpRecvFrom h _ => CRecvFrom (Z.of_nat h)
  | OpSendTo h _ a => CSendTo (Z.of_nat h) a
  | OpLocalAddr h => CLocalAddr (Z.of_nat h)
  | OpPeerAddr h => CPeerAddr (Z.of_nat h)
  | OpDrop h => CClose (Z.of_nat h)
  end.

Definition op_data (op : Op) : option bytes :=
  match op with OpWrite _ buf | OpSendTo _ buf _ => Some buf | _ => None end.

Definition reply_of (r : Ret) : Reply :=
  match r with
  | RtObject o ctx => (RObjectValue o (ctx_to_value ctx), None)
  | RtAddrs l => (RValue (VArr (map sa_to_value l)), None)
  | RtAccepted o a => (RObjectValue o (sa_to_value a), None)
  | RtData d => (RNull, Some d)
  | RtNum n => (RValue (VNum (Z.of_nat n)), None)
  | RtUnit => (RNull, None)
  | RtFrom d a => (RValue (sa_to_value a), Some d)
  | RtAddr a => (RValue (sa_to_value a), None)
  end.

(** A context as nets make it: nothing under its own key. *)
Definition ctx_ok (c : Context) : Prop :=
  ConnContext.data c !! lit "net_list" = None /\ exists l, net_list c = cvs_from_iter l.

Lemma ctx_roundtrip c : ctx_ok c -> ctx_from_value (ctx_to_value c) = Ok c.
Proof.
  destruct c as [m nl]. intros [Hm [l Hl]]. cbn [ConnContext.data net_list] in Hm, Hl. subst nl.
  rewrite context_value_roundtrip. by rewrite delete_id.
Qed.

(** The two sides between operations. *)
Record srv_rel (s : Server) (d : Direct) : Prop := {
  sr_greeted : greeted s = true;
  sr_net : net s = d_net d;
  sr_shared : shared (sstate s) = map fst (d_objs d);
  sr_id : obj_id (sstate s) = Z.of_nat (length (d_objs d)) mod 2 ^ 32;
  sr_objects : forall o i, objects (sstate s) !! o = Some i <->
    o = Z.of_nat i /\ exists x, d_objs d !! i = Some (x, true) }.

Lemma poll_until_map {S T A B} (g : T -> T * poll A) (f : S -> S * poll B) (u : S -> T -> S) (k : S -> A -> S * B) (v : S -> T) :
  (forall s, f s = let '(t, p) := g (v s) in
     match p with Pending => (u s t, Pending) | Ready a => let '(s', b) := k (u s t) a in (s', Ready b) end) ->
  (forall s t, v (u s t) = t) -> (forall s t t', u (u s t) t' = u s t') -> (forall s, u s (v s) = s) ->
  forall n s, poll_until n f s = let '(t, p) := poll_until n g (v s) in
     match p with Pending => (u s t, Pending) | Ready a => let '(s', b) := k (u s t) a in (s', Ready b) end.
Proof.
  intros Hf Hv Hu Hs. induction n as [|n IH]; intros s; cbn [poll_until]; [by rewrite Hs|].
  rewrite Hf. destruct (g (v s)) as [t [|a]].
  - rewrite IH, Hv. destruct (poll_until n g t) as [t' [|a]]; by rewrite Hu.
  - by destruct (k (u s t) a).
Qed.

(** Polling an object's future, or the net's, through the server. *)
Definition set_shared (i : nat) (s : Server) (o : Obj) : Server :=
  mkServer (net s) (mkServerState (<[i := o]> (shared (sstate s))) (objects (sstate s)) (obj_id (sstate s))) (greeted s).
Definition set_net (s : Server) (n : Net) : Server := mkServer n (sstate s) (greeted s).

Definition settled (s : Server) (a : res Answer) : Server * res Reply :=
  match settle (sstate s) (Ready a) with
  | (st, Ready r) => (mkServer (net s) st (greeted s), r)
  | (st, Pending) => (s, Err EWouldBlock)
  end.

Lemma settle_ready st a : exists st' r, settle st (Ready a) = (st', Ready r).
Proof. destruct a as [[r|o v]|e]; cbn; by eexists _, _. Qed.

Lemma handle_poll_net n data c ctx s :
  poll_until n (fun s => handle_poll false data s (HNet c ctx)) s =
  let '(t, p) := poll_until n (net_poll c ctx) (net s) in
  match p with Pending => (set_net s t, Pending) | Ready a => let '(s', b) := settled (set_net s t) a in (s', Ready b) end.
Proof.
  apply (poll_until_map (net_poll c ctx) _ set_net settled net); try done; [|by intros []].
  intros s'. cbn [handle_poll]. destruct (net_poll c ctx (net s')) as [t [|a]]; [done|].
  unfold settled. cbn [sstate set_net]. by destruct (settle_ready (sstate s') a) as (st & r & ->).
Qed.

Lemma handle_poll_obj n data c i s o : shared (sstate s) !! i = Some o ->
  poll_until n (fun s => handle_poll false data s (HObj c i)) s =
  let '(t, p) := poll_until n (obj_poll c data) o in
  match p with Pending => (set_shared i s t, Pending) | Ready a => let '(s', b) := settled (set_shared i s t) a in (s', Ready b) end.
Proof.
  revert s o. induction n as [|n IH]; intros s o Ho; cbn [poll_until].
  { unfold set_shared. rewrite list_insert_id by done. by destruct s as [? [] ?]. }
  unfold handle_poll at 1. rewrite Ho. destruct (obj_poll c data o) as [o' [|a]].
  - assert (Hl : (i < length (shared (sstate s)))%nat) by by apply lookup_lt_Some in Ho.
    cbn [settle]. fold (set_shared i s o').
    rewrite (IH (set_shared i s o') o') by (cbn; by rewrite list_lookup_insert_eq).
    destruct (poll_until n (obj_poll c data) o') as [t [|a]]; unfold set_shared; cbn; by rewrite list_insert_insert_eq.
  - unfold settled. cbn [sstate set_shared].
    by destruct (settle_ready (mkServerState (<[i := o']> (shared (sstate s))) (objects (sstate s)) (obj_id (sstate s))) a)
      as (st & r & ->).
Qed.

Lemma poll_until_post {T A B} (g : T -> T * poll A) (h : A -> B) (pm : poll A -> poll B) :
  pm Pending = Pending -> (forall a, pm (Ready a) = Ready (h a)) ->
  forall n t, poll_until n (fun t => let '(t, p) := g t in (t, pm p)) t = let '(t, p) := poll_until n g t in (t, pm p).
Proof.
  intros Hp Hr. induction n as [|n IH]; intros t; cbn; [by rewrite Hp|].
  destruct (g t) as [t' [|a]]; [by rewrite Hp, IH|by rewrite Hr].
Qed.

Lemma poll_until_ext {S A} n (f g : S -> S * poll A) : (forall s, f s = g s) -> forall s, poll_until n f s = poll_until n g s.
Proof.
  intros H3. induction n as [|n IH]; intros s; cbn; [done|]. rewrite H3. destruct (g s) as [s' [|a]]; [apply IH|done].
Qed.

(** *** The relation is kept *)

Lemma rel_set_net s d t : srv_rel s d -> srv_rel (set_net s t) (mkDirect t (d_objs d)).
Proof. intros []; by split. Qed.

Lemma rel_set_shared s d i o o' : srv_rel s d -> d_objs d !! i = Some (o, true) ->
  srv_rel (set_shared i s o') (mkDirect (d_net d) (<[i := (o', true)]> (d_objs d))).
Proof.
  intros [H1 H2 H3 H4 H5] Ho. split; cbn; rewrite ?length_insert; try done.
  - by rewrite H3, list_fmap_insert.
  - intros n j. rewrite H5. destruct (decide (j = i)) as [->|Hn]; [|by rewrite list_lookup_insert_ne].
    rewrite list_lookup_insert_eq by (by apply lookup_lt_Some in Ho). rewrite Ho. split; intros [? [x Hx]]; split; try done; by eexists.
Qed.

Lemma rel_insert s d o v : srv_rel s d -> Z.of_nat (length (d_objs d)) < 2 ^ 32 ->
  exists s', settled s (Ok (AObject o v)) = (s', Ok (RObjectValue (Z.of_nat (length (d_objs d))) v, None)) /\
    srv_rel s' (mkDirect (d_net d) (d_objs d ++ [(o, true)])).
Proof.
  intros [H1 H2 H3 H4 H5] Hl. eexists. unfold settled. cbn. rewrite H4, Z.mod_small by lia. split; [done|].
  split; cbn; rewrite ?length_app; cbn; try done.
  - by rewrite H3, map_app.
  - f_equal. lia.
  - intros n j. rewrite H3, length_map. destruct (decide (n = Z.of_nat (length (d_objs d)))) as [->|Hn].
    + rewrite lookup_insert_eq. split.
      * intros [= <-]. split; [done|]. exists o. by rewrite lookup_app_r, Nat.sub_diag.
      * intros [E _]. f_equal. lia.
    + rewrite lookup_insert_ne, H5 by done. split; intros [-> [x Hx]]; (split; [done|]); exists x.
      * by apply lookup_app_l_Some.
      * apply lookup_app_Some in Hx as [Hx|[Hx Hx']]; [done|]. apply list_lookup_singleton_Some in Hx' as [E _]. lia.
Qed.

Lemma rel_remove s d h : srv_rel s d ->
  srv_rel (mkServer (net s) (remove_object (sstate s) (Z.of_nat h)) (greeted s))
    (mkDirect (d_net d) (alter (fun ob => (ob.1, false)) h (d_objs d))).
Proof.
  intros [H1 H2 H3 H4 H5]. split; cbn; rewrite ?length_alter; try done.
  - rewrite H3. apply list_eq. intros i. rewrite !list_lookup_fmap, list_lookup_alter. case_decide; [|done].
    subst. by destruct (d_objs d !! i).
  - intros n j. destruct (decide (n = Z.of_nat h)) as [->|Hn].
    + rewrite lookup_delete_eq. split; [done|]. intros [E [x Hx]]. apply Nat2Z.inj in E as <-.
      rewrite list_lookup_alter, decide_True in Hx by done. by destruct (d_objs d !! h).
    + rewrite lookup_delete_ne, H5 by done. split; intros [-> Hx]; (split; [done|]);
        (rewrite list_lookup_alter_ne in *; [done|]); intros ->; done.
Qed.

(** *** Each operation is served as the net itself would do it *)

Definition op_ok (op : Op) : Prop :=
  match op with OpTcpConnect ctx _ | OpTcpBind ctx _ | OpUdpBind ctx _ => ctx_ok ctx | _ => True end.

(** A request is handled as [dp] says. *)
Definition serves (sp : Server * poll (res Reply)) (dp : Direct * poll (res Ret)) : Prop :=
  srv_rel sp.1 dp.1 /\ sp.2 = poll_map reply_of dp.2.

Lemma serve_make {O} n s d c data ctx (f : Net -> Net * poll (Context * res O)) (k : O -> Obj) : srv_rel s d ->
  Z.of_nat (length (d_objs d)) < 2 ^ 32 ->
  (forall t, net_poll c ctx t = let '(t, p) := f t in (t, made k p)) ->
  serves (poll_until n (fun s => handle_poll false data s (HNet c ctx)) s) (d_make n d f k).
Proof.
  intros Hs Hl Hf. rewrite handle_poll_net, (sr_net _ _ Hs).
  assert (E : poll_until n (net_poll c ctx) (d_net d) = let '(t, p) := poll_until n f (d_net d) in (t, made k p)).
  { rewrite (poll_until_ext n _ _ Hf).
    apply (poll_until_post f (fun r => match r with (ctx, Ok o) => Ok (AObject (k o) (ctx_to_value ctx)) | (_, Err e) => Err e end));
      [done|by intros [? []]]. }
  rewrite E. unfold d_make. destruct (poll_until n f (d_net d)) as [t [|[ctx' [o|e]]]]; cbn [made].
  - split; [by apply rel_set_net|done].
  - destruct (rel_insert (set_net s t) _ (k o) (ctx_to_value ctx') (rel_set_net s d t Hs) Hl) as (s' & -> & Hs'). by split.
  - split; [|done]. by apply (rel_set_net s d t).
Qed.

(** What the server makes of an answer is what [k] makes of the result. *)
Definition settles {A} (ans : A -> Answer) (k : Direct -> A -> Direct * Ret) : Prop :=
  forall s d a, srv_rel s d -> Z.of_nat (length (d_objs d)) < 2 ^ 32 ->
    exists s', settled s (Ok (ans a)) = (s', Ok (reply_of (k d a).2)) /\ srv_rel s' (k d a).1.

Lemma settles_same {A} (k : A -> Ret) : settles (fun a => AReply (reply_of (k a))) (same k).
Proof. intros s d a Hs _. exists s. unfold settled. cbn. by destruct s. Qed.

Lemma settles_accepted : settles (fun sa => AObject (OTcpStream sa.1) (sa_to_value sa.2)) accepted.
Proof. intros s d a Hs Hl. apply (rel_insert s d _ _ Hs Hl). Qed.

Lemma serve_object {A} n s d c h data (f : Obj -> Obj * poll (res A)) (ans : A -> Answer) k :
  srv_rel s d -> Z.of_nat (length (d_objs d)) < 2 ^ 32 ->
  (forall o, obj_poll c data o = let '(o, p) := f o in (o, poll_map ans p)) -> settles ans k ->
  serves (poll_until (S n) (fun s' => handle_poll false data s'
      match get_object (sstate s) (Z.of_nat h) with Ok i => HObj c i | Err e => HDone (Err e) end) s) (d_use (S n) d h f k).
Proof.
  intros Hs Hl Hf Hk. unfold get_object, d_use.
  match goal with |- context [match ?x with Some i => Ok i | None => _ end] => destruct x as [i|] eqn:Ho end.
  - apply (sr_objects _ _ Hs) in Ho as [E [o Ho]]. apply Nat2Z.inj in E as <-. rewrite Ho.
    rewrite (handle_poll_obj _ _ _ _ _ o) by (by rewrite (sr_shared _ _ Hs), list_lookup_fmap, Ho).
    rewrite (poll_until_ext _ _ _ Hf).
    rewrite (poll_until_post f (fun r => match r with Ok a => Ok (ans a) | Err e => Err e end) (poll_map ans))
      by (done || by intros []).
    destruct (poll_until (S n) f o) as [t p]. pose proof (rel_set_shared s d h o t Hs Ho) as Hs'.
    destruct p as [|[a|e]]; cbn [poll_map]; [by split| |by split].
    destruct (Hk _ _ a Hs') as (s2 & -> & Hs2); [cbn; by rewrite length_insert|].
    destruct (k _ a) as [d' r]. by split.
  - assert (En : d_objs d !! h = None \/ exists o, d_objs d !! h = Some (o, false)).
    { destruct (d_objs d !! h) as [[o []]|] eqn:E; [|by right; exists o|by left].
      discriminate (eq_trans (eq_sym Ho) (proj2 (sr_objects _ _ Hs (Z.of_nat h) h) (conj eq_refl (ex_intro _ o E)))). }
    by destruct En as [-> | [o ->]]; split.
Qed.

Lemma handle_req_direct n s d op : srv_rel s d -> op_ok op -> Z.of_nat (length (d_objs d)) < 2 ^ 32 ->
  serves (handle_req (S n) s (cmd_of op) (data_of (op_data op))) (direct_step (S n) d op).
Proof.
  intros Hs Hop Hl. unfold handle_req.
  destruct op; cbn [cmd_of op_data data_of handle_begin direct_step op_ok] in *;
    try (rewrite ctx_roundtrip by done); try (by apply serve_make);
    try (eapply (serve_object n s d); [done|done| |apply settles_same]; intros o; cbn [obj_poll];
      lazymatch goal with |- (let '(_, _) := ?x in _) = _ => by destruct x | _ => done end).
  - rewrite handle_poll_net, (sr_net _ _ Hs).
    rewrite (poll_until_ext _ (net_poll (CLookupHost a) ctx_new) (fun t => let '(t, p) := net_lookup_host a t in
      (t, poll_map (fun l => AReply (RValue (VArr (map sa_to_value l)), None)) p))) by done.
    rewrite (poll_until_post (net_lookup_host a) (fun r => match r with Ok l => Ok (AReply (RValue (VArr (map sa_to_value l)), None)) | Err e => Err e end))
      by (done || by intros []).
    pose proof (rel_set_net s d) as Hn. destruct (poll_until (S n) (net_lookup_host a) (d_net d)) as [t [|[l|e]]]; by split; [apply Hn|].
  - apply (serve_object n s d (CAccept (Z.of_nat h)) h [] (tcp_listener listener_accept)
      (fun sa => AObject (OTcpStream sa.1) (sa_to_value sa.2)) accepted); [done..|apply settles_accepted].
  - split; [exact (rel_remove s d h Hs)|done].
Qed.

(** *** A call *)

(** Between calls nothing is under way. *)
Definition sess_ok (s : ClientSession) : Prop := sending s = [] /\ tasks s = [] /\ wait_map (state s) = ∅.

Lemma alter_snoc {A} (f : A -> A) (l : list A) x : alter f (length l) (l ++ [x]) = l ++ [f x].
Proof. induction l as [|y l IH]; [done|]. cbn. f_equal. exact IH. Qed.

Lemma send_register_begin s c d : sess_ok s ->
  send_register (send_begin s c d true) 0 =
  mkSession (mkState ((seq_id (state s) + 1) mod 2 ^ 32) {[seq_id (state s) := length (getters (state s))]}
      (getters (state s) ++ [mkGetter (seq_id (state s)) ChEmpty false]))
    (closed s) (outbox s ++ [(mkRequest c (seq_id (state s)), d)]) [] [seq_id (state s)].
Proof.
  intros (Hs & Ht & Hw). unfold send_register, send_begin, next_seq_id. cbn [sending]. rewrite Hs. cbn.
  unfold wait_for_response. cbn. by rewrite Hw, lookup_empty, Ht.
Qed.

Lemma session_answered s c d r rd : sess_ok s -> r_seq r = seq_id (state s) ->
  let s2 := wait_response show_error (send_register (send_begin s c d true) 0) 0 (Ok (r, rd)) in
  exists g, last (getters (state s2)) = Some g /\ getter_wait g = Ready (Ok (r, rd)) /\
    sess_ok (session_step show_error s2 (SDrop (Nat.pred (length (getters (state s2)))))).
Proof.
  intros Hs Hr s2. exists (mkGetter (seq_id (state s)) (ChSent r rd) false).
  assert (E : state s2 = mkState ((seq_id (state s) + 1) mod 2 ^ 32) ∅
      (getters (state s) ++ [mkGetter (seq_id (state s)) (ChSent r rd) false]) /\ sending s2 = [] /\ tasks s2 = []).
  { unfold s2. rewrite send_register_begin by done. cbn. unfold send_response. cbn. rewrite Hr, lookup_singleton_eq, alter_snoc.
    by rewrite delete_singleton_eq. }
  destruct E as (E & E2 & E3). rewrite E. cbn [getters]. rewrite last_snoc. split_and!; [done..|].
  rewrite length_app, Nat.add_1_r. cbn [Nat.pred session_step]. unfold getter_drop. rewrite E. cbn [getters].
  rewrite lookup_app_r, Nat.sub_diag by done. cbn. unfold send_response. cbn [r_seq wait_map]. by rewrite lookup_empty.
Qed.

Lemma read_frame {A} `{ItemCodec A} item d :
  (read_item (write_item item d) = Ok ((item, data_of d), [])) \/
  (MAX_ITEM_SIZE < Z.of_nat (length (write_item item d)) /\ forall y, read_item (write_item item d) <> Ok (y, [])).
Proof.
  destruct (decide (fits item d)) as [Hf|Hf]; [left|right].
  - pose proof (read_write_item item d [] Hf) as E. by rewrite app_nil_r in E.
  - split; [by apply write_item_long|]. intros y E. by apply Hf, (write_item_whole item d y).
Qed.

(** A call, nothing else being under way, gives what the server answers to the
    request. *)
Lemma call_conn n w c d srv p : sess_ok (session w) ->
  handle_conn n (server w) (mkRequest c (seq_id (state (session w)))) (data_of d) = Some (srv, p) ->
  (forall r rd, p = Ready (r, rd) -> r_seq r = seq_id (state (session w))) ->
  match call n w c d with
  | Done w' a => server w' = srv /\ match p with
    | Pending => a = Pending
    | Ready (r, rd) => sess_ok (session w') /\ a = Ready (Ok (r, data_of rd))
    end
  | Refused f => MAX_ITEM_SIZE < Z.of_nat (length f)
  | Panic => False
  end.
Proof.
  intros Hs Hc Hp. pose proof (session_answered (session w) c d) as Ha. unfold call.
  assert (El : last (outbox (send_register (send_begin (session w) c d true) 0)) =
    Some (mkRequest c (seq_id (state (session w))), d)) by (rewrite send_register_begin by done; cbn [outbox]; by rewrite last_snoc).
  rewrite El. set (q := mkRequest c _) in *.
  destruct (read_frame q d) as [-> | [Hl Hn]].
  2: { destruct (read_item _) as [[[q' d'] [|]]|] eqn:E; [|done..]. destruct (Hn _ eq_refl). }
  rewrite Hc. destruct p as [|[r rd]]; [by split|]. specialize (Hp r rd eq_refl).
  destruct (read_frame r rd) as [-> | [Hl Hn]].
  2: { destruct (read_item _) as [[y [|]]|] eqn:E; [|done..]. destruct (Hn _ eq_refl). }
  destruct (Ha r (data_of rd) Hs Hp) as (g & -> & -> & Hs'). by split.
Qed.

Lemma call_spec n w c d : sess_ok (session w) -> greeted (server w) = true ->
  let '(srv, p) := handle_req n (server w) c (data_of d) in
  match call n w c d with
  | Done w' a => server w' = srv /\ match p with
    | Pending => a = Pending
    | Ready r => sess_ok (session w') /\ exists q, a = Ready (Ok ((response q r).1, data_of (response q r).2))
    end
  | Refused f => MAX_ITEM_SIZE < Z.of_nat (length f)
  | Panic => False
  end.
Proof.
  intros Hs Hg. set (q := mkRequest c (seq_id (state (session w)))).
  assert (Hc : handle_conn n (server w) q (data_of d) = Some ((handle_req n (server w) c (data_of d)).1,
    match (handle_req n (server w) c (data_of d)).2 with Pending => Pending | Ready r => Ready (response q r) end)).
  { unfold handle_conn. rewrite Hg. change (cmd q) with c. by destruct (handle_req n (server w) c (data_of d)). }
  destruct (handle_req n (server w) c (data_of d)) as [srv p]. cbn [fst snd] in Hc.
  apply (call_conn n w c d _ _ Hs) in Hc.
  - destruct (call n w c d) as [w' a|f|]; [|done..]. destruct Hc as [E Ha]. split; [done|].
    destruct p as [|r]; [done|]. destruct (response q r) as [resp rd] eqn:Er. destruct Ha as [Ha1 Ha2].
    split; [done|]. exists q. by rewrite Er.
  - intros r rd E. destruct p as [|[[]|]]; cbn in E; by simplify_eq.
Qed.

(** The handshake does nothing but greet. *)
Lemma handshake n net id : match rpc_client_new n (mkWorld session_new (mkServer net server_state_new false)) id with
  | Done w a => a = Ready (Ok tt) /\ sess_ok (session w) /\ server w = mkServer net server_state_new true
  | Refused f => MAX_ITEM_SIZE < Z.of_nat (length f)
  | Panic => False
  end.
Proof.
  unfold rpc_client_new.
  pose proof (call_conn n (mkWorld session_new (mkServer net server_state_new false)) (CHandshake id) None _ _
    (conj eq_refl (conj eq_refl eq_refl)) eq_refl) as Hc.
  destruct (call _ _ _ _) as [w a|f|]; cbn [answered] in *.
  - destruct Hc as (Hw & Hs & ->); [by intros r rd [= <- <-]|]. by split.
  - apply Hc. by intros r rd [= <- <-].
  - apply Hc. by intros r rd [= <- <-].
Qed.

(** *** What the client makes of the answer *)

Definition decode_answer (op : Op) (r : Response) (d : bytes) : res Ret :=
  match op with
  | OpTcpConnect _ _ | OpTcpBind _ _ | OpUdpBind _ _ => oc ← object_context r d; mret (RtObject oc.1 oc.2)
  | OpLookupHost _ => l ← into_value addrs_from_value r; mret (RtAddrs l)
  | OpAccept _ => oa ← into_object_value sa_from_value r; mret (RtAccepted oa.1 oa.2)
  | OpRead _ _ => into_null r;; mret (RtData d)
  | OpWrite _ _ => n ← into_value u32_from_value r; mret (RtNum n)
  | OpFlush _ | OpShutdown _ | OpDrop _ => Ok RtUnit
  | OpRecvFrom _ cap => a ← into_value sa_from_value r; mret (RtFrom (take cap d) a)
  | OpSendTo _ buf _ => into_null r;; mret (RtNum (length buf))
  | OpLocalAddr _ | OpPeerAddr _ => a ← into_value sa_from_value r; mret (RtAddr a)
  end.

(** A read that gives no more than was asked for, a write that takes no more
    than it was given, and contexts as nets leave them. *)
Definition result_ok (op : Op) (r : Ret) : Prop :=
  match op, r with
  | OpRead _ size, RtData d => (length d <= size)%nat
  | OpWrite _ buf, RtNum n => (n <= length buf)%nat
  | (OpTcpConnect _ _ | OpTcpBind _ _ | OpUdpBind _ _), RtObject _ ctx => ctx_ok ctx
  | OpLookupHost _, RtAddrs _ | OpAccept _, RtAccepted _ _ | OpRecvFrom _ _, RtFrom _ _
  | (OpFlush _ | OpShutdown _ | OpSendTo _ _ _ | OpDrop _), RtUnit | (OpLocalAddr _ | OpPeerAddr _), RtAddr _ => True
  | _, _ => False
  end.

Lemma addrs_of_map l : addrs_of (map sa_to_value l) = Ok l.
Proof. induction l as [|a l IH]; [done|]. cbn. by rewrite sa_from_to, IH. Qed.

(** What came of a result at the server, seen by the client. *)
Definition replied (r : res Ret) : res Reply := match r with Ok r => Ok (reply_of r) | Err e => Err e end.

Lemma decode_response q op r : match r with Ok r => result_ok op r | Err _ => True end ->
  match op with OpWrite _ buf => Z.of_nat (length buf) < 2 ^ 32 | _ => True end ->
  Ready (decode_answer op (response q (replied r)).1 (data_of (response q (replied r)).2)) = seen op (Ready r).
Proof.
  destruct r as [r|e]; [|by destruct op]. intros Hr Hn.
  destruct op, r; cbn [result_ok] in Hr; try done;
    cbn -[ctx_from_value ctx_to_value u32_from_value]; unfold object_context, into_object_value, into_value, into_null;
    cbn -[ctx_from_value ctx_to_value u32_from_value];
    try rewrite sa_from_to; try rewrite ctx_roundtrip by done; try rewrite addrs_of_map; try done.
  unfold u32_from_value. replace (_ && _) with true by (symmetry; apply andb_true_iff; split; [apply Z.leb_le|apply Z.ltb_lt]; lia).
  cbn. by rewrite Nat2Z.id.
Qed.

Lemma returning_answered {A} (k : A -> Ret) o f g :
  (forall r d, g r d = match f r d with Ok a => Ok (k a) | Err e => Err e end) ->
  returning k (answered o f) = answered o g.
Proof.
  intros H. destruct o as [w [|[[r d]|e]]| |]; cbn; try done. rewrite H. by destruct (f r d).
Qed.

(** Reads apart, where a long answer is a panic, a step is its call. *)
Lemma remote_step_decode n w op : match op with OpRead _ _ => False | _ => True end ->
  remote_step n w op = answered (call n w (cmd_of op) (op_data op)) (decode_answer op).
Proof.
  destruct op; try done; intros _; apply returning_answered; intros r d; cbn [decode_answer];
    lazymatch goal with
    | |- context [object_context r d] => by destruct (object_context r d)
    | |- context [into_value ?f r] => by destruct (into_value f r)
    | |- context [into_object_value ?f r] => by destruct (into_object_value f r)
    | |- context [into_null r] => by destruct (into_null r)
    | _ => done
    end.
Qed.

Lemma remote_read n w h size : remote_step n w (OpRead h size) =
  match answered (call n w (cmd_of (OpRead h size)) None) (decode_answer (OpRead h size)) with
  | Done w (Ready (Ok (RtData d))) => if (length d <=? size)%nat then Done w (Ready (Ok (RtData d))) else Panic
  | r => r
  end.
Proof.
  cbn [remote_step cmd_of decode_answer]. unfold wrapper_read, async_read.
  destruct (call _ _ _ _) as [w' [|[[r d]|e]]| |]; cbn; try done.
  destruct (into_null r); cbn; [|done]. by destruct (length d <=? size)%nat.
Qed.

(** *** What nets give *)

Class NetLaws : Prop := {
  net_keeps_context : forall ctx a t t' ctx',
    (forall r, net_tcp_connect ctx a t = (t', Ready (ctx', r)) -> ctx_ok ctx -> ctx_ok ctx') /\
    (forall r, net_tcp_bind ctx a t = (t', Ready (ctx', r)) -> ctx_ok ctx -> ctx_ok ctx') /\
    (forall r, net_udp_bind ctx a t = (t', Ready (ctx', r)) -> ctx_ok ctx -> ctx_ok ctx');
  stream_read_le : forall k s s' d, stream_read k s = (s', Ready (Ok d)) -> (length d <= k)%nat;
  stream_write_le : forall b s s' k, stream_write b s = (s', Ready (Ok k)) -> (k <= length b)%nat }.

Context {NL : NetLaws}.

Lemma poll_until_result {S A} (f : S -> S * poll A) n : forall s s' a, poll_until n f s = (s', Ready a) ->
  exists s1, f s1 = (s', Ready a).
Proof.
  induction n as [|n IH]; intros s s' a; cbn; [done|]. destruct (f s) as [s1 [|b]] eqn:E; [apply IH|].
  intros [= <- <-]. by exists s.
Qed.

Lemma d_make_result {O} n d (f : Net -> Net * poll (Context * res O)) c d' r : d_make n d f c = (d', Ready (Ok r)) ->
  exists o ctx t t' x, r = RtObject o ctx /\ f t = (t', Ready (ctx, x)).
Proof.
  unfold d_make. destruct (poll_until n f (d_net d)) as [t [|[ctx [o|e]]]] eqn:E; [done| |done].
  intros [= _ <-]. destruct (poll_until_result _ _ _ _ _ E) as [t1 E1]. by eexists _, _, t1, t, _.
Qed.

Lemma d_use_result {A} n d h (f : Obj -> Obj * poll (res A)) k d' r : d_use n d h f k = (d', Ready (Ok r)) ->
  exists d1 o o' a, f o = (o', Ready (Ok a)) /\ r = (k d1 a).2.
Proof.
  unfold d_use. destruct (d_objs d !! h) as [[o []]|]; [|done..].
  destruct (poll_until n f o) as [o' [|[a|e]]] eqn:E; [done| |done].
  destruct (k _ a) as [d2 r'] eqn:Ek. intros [= _ <-]. destruct (poll_until_result _ _ _ _ _ E) as [o1 E1].
  eexists _, o1, o', a. split; [done|]. by rewrite Ek.
Qed.

Lemma direct_result n d op d' r : op_ok op -> direct_step n d op = (d', Ready (Ok r)) -> result_ok op r.
Proof.
  intros Hop E. destruct op; cbn [direct_step op_ok result_ok] in *;
    try (apply d_make_result in E as (o & ctx' & t & t' & x & -> & E);
      destruct (net_keeps_context ctx a t t' ctx') as (H1 & H2 & H3); solve [by eapply H1 | by eapply H2 | by eapply H3]);
    try (apply d_use_result in E as (d1 & o & o' & x & E & ->); done).
  - destruct (poll_until n (net_lookup_host a) (d_net d)) as [t [|[|]]]; cbn in E; by simplify_eq.
  - apply d_use_result in E as (d1 & o & o' & x & E & ->). destruct o as [s| |]; [cbn in E|done..].
    destruct (stream_read _ s) as [s' p] eqn:Ep. injection E as _ ->. apply stream_read_le in Ep. cbn.
    pose proof (Z.mod_le (Z.of_nat size) (2 ^ 32) ltac:(lia) ltac:(lia)). lia.
  - apply d_use_result in E as (d1 & o & o' & x & E & ->). destruct o as [s| |]; [cbn in E|done..].
    destruct (stream_write _ s) as [s' p] eqn:Ep. injection E as _ ->. by apply stream_write_le in Ep.
  - by simplify_eq.
Qed.

Definition op_small (op : Op) : Prop :=
  match op with OpWrite _ buf => Z.of_nat (length buf) < 2 ^ 32 | _ => True end.

Lemma remote_step_spec n w d op : sess_ok (session w) -> srv_rel (server w) d -> op_ok op -> op_small op ->
  Z.of_nat (length (d_objs d)) < 2 ^ 32 ->
  let '(d', p) := direct_step (S n) d op in
  match remote_step (S n) w op with
  | Done w' a => a = seen op p /\ (p <> Pending -> sess_ok (session w') /\ srv_rel (server w') d')
  | Refused f => MAX_ITEM_SIZE < Z.of_nat (length f)
  | Panic => False
  end.
Proof.
  intros Hs Hr Hop Hsm Hl. pose proof (call_spec (S n) w (cmd_of op) (op_data op) Hs (sr_greeted _ _ Hr)) as Hc.
  pose proof (handle_req_direct n (server w) d op Hr Hop Hl) as [Hr' Hp].
  pose proof (fun d' r => direct_result (S n) d op d' r Hop) as Hok.
  destruct (handle_req _ _ _ _) as [srv p']. destruct (direct_step (S n) d op) as [d' p]. cbn [fst snd] in *.
  assert (Hans : match answered (call (S n) w (cmd_of op) (op_data op)) (decode_answer op) with
    | Done w' a => a = seen op p /\ (p <> Pending -> sess_ok (session w') /\ srv_rel (server w') d')
    | Refused f => MAX_ITEM_SIZE < Z.of_nat (length f)
    | Panic => False
    end).
  { destruct (call _ _ _ _) as [w' a|f|]; [|done..]. destruct Hc as [Ew Hc]. rewrite <- Ew in Hr'. subst p'. destruct p as [|r]; cbn [poll_map] in Hc.
    { subst a. split; [by destruct op|done]. }
    assert (Hc' : sess_ok (session w') /\ exists q, a = Ready (Ok ((response q (replied r)).1, data_of (response q (replied r)).2)))
      by (destruct r; exact Hc).
    destruct Hc' as [Hs' [q ->]]. cbn [answered]. split; [|done].
    apply decode_response; [destruct r; [by apply (Hok d')|done]|done]. }
  destruct op; try (rewrite remote_step_decode by done; exact Hans). rewrite remote_read.
  cbn [op_data] in Hans. destruct (answered _ _) as [w' [|[r|e]]|f|]; try done. destruct Hans as [E Hans].
  destruct r; try done. destruct p as [|[r|e]]; cbn in E; simplify_eq.
  pose proof (Hok d' _ eq_refl) as Hle. cbn in Hle. apply Nat.leb_le in Hle. by rewrite Hle.
Qed.

Lemma direct_step_grows n d op : (length (d_objs (direct_step n d op).1) <= S (length (d_objs d)))%nat.
Proof.
  assert (Hu : forall A h (f : Obj -> Obj * poll (res A)) k,
    (forall d a, (length (d_objs (k d a).1) <= S (length (d_objs d)))%nat) -> (length (d_objs (d_use n d h f k).1) <= S (length (d_objs d)))%nat).
  { intros A h f k Hk. unfold d_use. destruct (d_objs d !! h) as [[o []]|]; cbn; try lia.
    destruct (poll_until n f o) as [o' [|[a|e]]]; cbn; rewrite ?length_insert; try lia.
    specialize (Hk (mkDirect (d_net d) (<[h:=(o', true)]> (d_objs d))) a). destruct (k _ a). cbn in *. by rewrite length_insert in Hk. }
  assert (Hm : forall O (f : Net -> Net * poll (Context * res O)) c, (length (d_objs (d_make n d f c).1) <= S (length (d_objs d)))%nat).
  { intros O f c. unfold d_make. destruct (poll_until n f (d_net d)) as [t [|[ctx [o|e]]]]; cbn; rewrite ?length_app; cbn; lia. }
  destruct op; cbn [direct_step]; try apply Hm; try (apply Hu; intros; cbn; rewrite ?length_app; cbn; lia).
  - destruct (poll_until _ _ _). cbn. lia.
  - cbn. rewrite length_alter. lia.
Qed.

Lemma remote_run_spec n l : forall w d, sess_ok (session w) -> srv_rel (server w) d -> Forall op_ok l -> Forall op_small l ->
  Z.of_nat (length (d_objs d)) + Z.of_nat (length l) < 2 ^ 32 ->
  let '(rs, e) := remote_run (S n) w l in
  match e with
  | None => rs = direct_run (S n) d l
  | Some (Some f) => rs `prefix_of` direct_run (S n) d l /\ MAX_ITEM_SIZE < Z.of_nat (length f)
  | Some None => False
  end.
Proof.
  induction l as [|op l IH]; intros w d Hs Hr Hop Hsm Hl; [done|].
  apply Forall_cons in Hop as [Ho Hop]. apply Forall_cons in Hsm as [Hm Hsm]. cbn [length] in Hl.
  pose proof (remote_step_spec n w d op Hs Hr Ho Hm) as Hst. pose proof (direct_step_grows (S n) d op) as Hg.
  cbn [remote_run direct_run]. destruct (direct_step (S n) d op) as [d' p]. cbn [fst] in Hg. specialize (Hst ltac:(lia)).
  destruct (remote_step (S n) w op) as [w' a|f|]; [|split; [apply prefix_nil|done]|done].
  destruct Hst as [-> Hst]. destruct p as [|r]; [by destruct op|].
  destruct (Hst ltac:(done)) as [Hs' Hr']. specialize (IH w' d' Hs' Hr' Hop Hsm ltac:(lia)).
  assert (Hseen : exists r', seen op (Ready r) = Ready r') by (destruct op, r as [[]|]; by eexists).
  destruct Hseen as [r' ->].
  destruct (remote_run (S n) w' l) as [rs [[f|]|]]; [|done|by subst rs].
  destruct IH as [IH Hf]. split; [|done]. by apply prefix_cons.
Qed.

(** C2: A net used through RPC is the net itself. After the handshake, which
    always succeeds, any sequence of operations, each awaited (connecting,
    binding, accepting, looking up, reading, writing, flushing, shutting down,
    receiving, sending, asking for addresses, dropping), over a net, streams
    and sockets of any behaviour, that may be pending and fail, gives exactly
    the results of the same operations on the net directly, as a remote
    program sees them, and neither side panics; the only other way for it to
    end is that a frame of more than a megabyte is refused. *)
Theorem rpc_refines_net n net id l : Forall op_ok l -> Forall op_small l -> Z.of_nat (length l) < 2 ^ 32 ->
  match rpc_client_new (S n) (mkWorld session_new (mkServer net server_state_new false)) id with
  | Done w a => a = Ready (Ok tt) /\
    let '(rs, e) := remote_run (S n) w l in
    match e with
    | None => rs = direct_run (S n) (mkDirect net []) l
    | Some (Some f) => rs `prefix_of` direct_run (S n) (mkDirect net []) l /\ MAX_ITEM_SIZE < Z.of_nat (length f)
    | Some None => False
    end
  | Refused f => MAX_ITEM_SIZE < Z.of_nat (length f)
  | Panic => False
  end.
Proof.
  intros Hop Hsm Hl. pose proof (handshake (S n) net id) as Hh.
  destruct (rpc_client_new _ _ _) as [w a|f|]; [|done..]. destruct Hh as (-> & Hs & Hw).
  split; [done|]. apply remote_run_spec; [done| |done..].
  rewrite Hw. split; cbn; try done. intros o i. split; [done|]. by intros [_ [x Hx]].
Qed.

End Server.

Arguments Done {NO A} w a.
Arguments Refused {NO A} frame.
Arguments Panic {NO A}.

(** ** An instance: a codec, and a net whose streams echo *)

Definition value_leaf : Type := option bool + (Z + bytes).

Fixpoint value_tree (v : Value) : gen_tree value_leaf :=
  match v with
  | VNull => GenLeaf (inl None)
  | VBool b => GenLeaf (inl (Some b))
  | VNum z => GenLeaf (inr (inl z))
  | VStr s => GenLeaf (inr (inr s))
  | VArr l => GenNode 0 (map value_tree l)
  | VObj l => GenNode 1 (map (fun kv => GenNode 2 [GenLeaf (inr (inr kv.1)); value_tree kv.2]) l)
  end.

Fixpoint tree_value (t : gen_tree value_leaf) : Value :=
  match t with
  | GenLeaf (inl None) => VNull
  | GenLeaf (inl (Some b)) => VBool b
  | GenLeaf (inr (inl z)) => VNum z
  | GenLeaf (inr (inr s)) => VStr s
  | GenNode O l => VArr (map tree_value l)
  | GenNode _ l =>
    VObj (map (fun t => match t with GenNode _ [GenLeaf (inr (inr k)); v] => (k, tree_value v) | _ => ([], VNull) end) l)
  end.

Lemma tree_value_tree : forall v, tree_value (value_tree v) = v.
Proof.
  fix IH 1. intros [|b|z|s|l|l]; cbn; try done; f_equal.
  - induction l as [|v l IHl]; [done|]. cbn. by rewrite IH, IHl.
  - induction l as [|[k v] l IHl]; [done|]. cbn. by rewrite IH, IHl.
Qed.

#[global] Instance value_eq_dec : EqDecision Value.
Proof. intros v w. destruct (decide (value_tree v = value_tree w)) as [E|E]; [left|right; congruence].
  rewrite <- (tree_value_tree v), <- (tree_value_tree w). by rewrite E. Defined.
#[global] Instance value_countable : Countable Value := inj_countable' value_tree tree_value tree_value_tree.

Definition cmd_tuple (c : Command) : Z * Z * Z * Value * option Address :=
  match c with
  | CHandshake id => (0, id, 0, VNull, None)
  | CTcpConnect v a => (1, 0, 0, v, Some a)
  | CTcpBind v a => (2, 0, 0, v, Some a)
  | CUdpBind v a => (3, 0, 0, v, Some a)
  | CLookupHost a => (4, 0, 0, VNull, Some a)
  | CAccept o => (5, o, 0, VNull, None)
  | CRead o k => (6, o, k, VNull, None)
  | CWrite o => (7, o, 0, VNull, None)
  | CFlush o => (8, o, 0, VNull, None)
  | CShutdown o => (9, o, 0, VNull, None)
  | CRecvFrom o => (10, o, 0, VNull, None)
  | CSendTo o a => (11, o, 0, VNull, Some a)
  | CLocalAddr o => (12, o, 0, VNull, None)
  | CPeerAddr o => (13, o, 0, VNull, None)
  | CClose o => (14, o, 0, VNull, None)
  end.

Definition tuple_cmd (t : Z * Z * Z * Value * option Address) : Command :=
  match t with
  | (1, _, _, v, Some a) => CTcpConnect v a
  | (2, _, _, v, Some a) => CTcpBind v a
  | (3, _, _, v, Some a) => CUdpBind v a
  | (4, _, _, _, Some a) => CLookupHost a
  | (5, o, _, _, _) => CAccept o
  | (6, o, k, _, _) => CRead o k
  | (7, o, _, _, _) => CWrite o
  | (8, o, _, _, _) => CFlush o
  | (9, o, _, _, _) => CShutdown o
  | (10, o, _, _, _) => CRecvFrom o
  | (11, o, _, _, Some a) => CSendTo o a
  | (12, o, _, _, _) => CLocalAddr o
  | (13, o, _, _, _) => CPeerAddr o
  | (14, o, _, _, _) => CClose o
  | (_, id, _, _, _) => CHandshake id
  end.

#[global] Instance cmd_eq_dec : EqDecision Command.
Proof. solve_decision. Defined.
#[global] Instance cmd_countable : Countable Command.
Proof. apply (inj_countable' cmd_tuple tuple_cmd). by intros []. Defined.
#[global] Instance request_eq_dec : EqDecision Request.
Proof. solve_decision. Defined.
#[global] Instance request_countable : Countable Request.
Proof. apply (inj_countable' (fun q => (cmd q, q_seq q)) (fun t => mkRequest t.1 t.2)). by intros []. Defined.

Definition rpcvalue_sum (v : RpcValue) : option (option Z * Value) :=
  match v with RNull => None | RValue v => Some (None, v) | RObjectValue o v => Some (Some o, v) end.
Definition sum_rpcvalue (s : option (option Z * Value)) : RpcValue :=
  match s with None => RNull | Some (None, v) => RValue v | Some (Some o, v) => RObjectValue o v end.
#[global] Instance rpcvalue_eq_dec : EqDecision RpcValue.
Proof. solve_decision. Defined.
#[global] Instance rpcvalue_countable : Countable RpcValue.
Proof. apply (inj_countable' rpcvalue_sum sum_rpcvalue). by intros []. Defined.
#[global] Instance response_eq_dec : EqDecision Response.
Proof. solve_decision. Defined.
#[global] Instance response_countable : Countable Response.
Proof. apply (inj_countable' (fun r => (r_seq r, result r)) (fun t => mkResponse t.1 t.2)). by intros []. Defined.

Fixpoint pos_bits (p : positive) : bytes :=
  match p with xH => [] | xO p => 0 :: pos_bits p | xI p => 1 :: pos_bits p end.
Fixpoint bits_pos (l : bytes) : positive :=
  match l with [] => xH | b :: l => if b =? 0 then xO (bits_pos l) else xI (bits_pos l) end.
Lemma bits_pos_bits p : bits_pos (pos_bits p) = p.
Proof. induction p as [p IH|p IH|]; cbn; by rewrite ?IH. Qed.

Definition bit_codec {A} `{Countable A} : ItemCodec A.
Proof.
  refine {| item_to_vec := fun x => pos_bits (encode x);
    item_from_slice := fun b => ok_or EInvalidData (decode (bits_pos b)) |}.
  intros x. by rewrite bits_pos_bits, decode_encode.
Defined.

#[global] Instance echo_net : NetObjects := {|
  Net := unit; Stream := bytes; Listener := unit; Udp := unit;
  net_tcp_connect := fun ctx _ n => (n, Ready (ctx, Ok []));
  net_tcp_bind := fun ctx _ n => (n, Ready (ctx, Err ENotImplemented));
  net_udp_bind := fun ctx _ n => (n, Ready (ctx, Err ENotImplemented));
  net_lookup_host := fun _ n => (n, Ready (Ok []));
  stream_read := fun k s => match s with [] => (s, Pending) | _ => (drop k s, Ready (Ok (take k s))) end;
  stream_write := fun b s => (s ++ b, Ready (Ok (length b)));
  stream_flush := fun s => (s, Ready (Ok tt));
  stream_shutdown := fun s => (s, Ready (Err EBrokenPipe));
  stream_local_addr := fun _ => Err ENotImplemented;
  stream_peer_addr := fun _ => Err ENotImplemented;
  listener_accept := fun l => (l, Pending);
  listener_local_addr := fun _ => Err ENotImplemented;
  udp_recv_from := fun _ u => (u, Pending);
  udp_send_to := fun _ _ u => (u, Pending);
  udp_local_addr := fun _ => Err ENotImplemented |}.

#[global] Instance echo_laws : NetLaws.
Proof.
  split.
  - intros. split_and!; intros r E; cbn in E; by simplify_eq.
  - intros k [|x s] s' d E; cbn -[take drop] in E; simplify_eq. rewrite length_take. lia.
  - intros b s s' k E. cbn in E. by simplify_eq.
Qed.

Definition sample_sa_value (a : SocketAddr) : Value :=
  match sa_ip a with V4 i => VArr [VNum 4; VNum i; VNum (sa_port a)] | V6 i => VArr [VNum 6; VNum i; VNum (sa_port a)] end.
#[global] Instance sample_serde_addr : SerdeAddr.
Proof.
  refine {| sa_to_value := sample_sa_value;
    sa_from_value := fun v => match v with
      | VArr [VNum 4; VNum i; VNum p] => Ok (mkSocketAddr (V4 i) p)
      | VArr [VNum 6; VNum i; VNum p] => Ok (mkSocketAddr (V6 i) p)
      | _ => Err EInvalidData end |}.
  by intros [[] p].
Defined.

Definition sample_ops : list Op :=
  [OpTcpConnect ctx_new (ADomain (lit "a") 80); OpWrite 0 (lit "hi"); OpRead 0 10; OpShutdown 0; OpDrop 0; OpRead 0 10].

Definition sample_remote : list (poll (res Ret)) * option (option bytes) :=
  match rpc_client_new (CQ := bit_codec) (CR := bit_codec) sample_errors 1
      (mkWorld session_new (mkServer tt server_state_new false)) 7 with
  | Done w _ => remote_run (CQ := bit_codec) (CR := bit_codec) sample_errors 1 w sample_ops
  | Refused f => ([], Some (Some f))
  | Panic => ([], Some None)
  end.

Example rpc_refines_net_witness : sample_remote.1 =
  [Ready (Ok (RtObject 0 ctx_new)); Ready (Ok (RtNum 2)); Ready (Ok (RtData (lit "hi"))); Ready (Ok RtUnit); Ready (Ok RtUnit);
   Ready (Err (EOther "error"))].
Proof.
  assert (E : sample_remote.2 = None) by (vm_compute; reflexivity).
  pose proof (rpc_refines_net (CQ := bit_codec) (CR := bit_codec) sample_errors 0 tt 7 sample_ops) as H.
  unfold sample_remote in *. destruct (rpc_client_new _ _ _ _) as [w a|f|]; [|discriminate E..].
  destruct H as [_ H].
  - repeat constructor. exists []. reflexivity.
  - repeat constructor.
  - vm_compute. reflexivity.
  - destruct (remote_run _ _ _ _) as [rs e]. cbn [fst snd] in *. subst e. rewrite H. vm_compute. reflexivity.
Defined.

Example rpc_objects_typed_witness :
  let r := run_server tt [VRequest (CTcpConnect (ctx_to_value ctx_new) (ADomain (lit "a") 80)) []; VPoll 0 false] in
  exists i, get_object (sstate (srv r)) 0 = Ok i.
Proof.
  intros r. destruct (rpc_objects_typed (NO := echo_net) tt [VRequest (CTcpConnect (ctx_to_value ctx_new) (ADomain (lit "a") 80)) []; VPoll 0 false])
    as [_ H]; [vm_compute; discriminate|].
  destruct (H (CTcpConnect (ctx_to_value ctx_new) (ADomain (lit "a") 80)) (ctx_to_value ctx_new) None 0) as [Hc|(i & o & Hi & _)].
  - vm_compute. left.
  - vm_compute in Hc. inversion Hc.
  - exists i. exact Hi.
Defined.

(** A flush that fails at the server succeeds at the client. *)
Example rpc_shutdown_error_lost : stream_shutdown (NetObjects := echo_net) [] = ([], Ready (Err EBrokenPipe)) /\
  nth_error sample_remote.1 3 = Some (Ready (Ok RtUnit)).
Proof. split; [done|]. vm_compute. done. Qed.

End RpcNet.
