(* ===== verification/AsyncFn.v ===== *)
(** * Streams over asynchronous functions: [rd-std/src/util/async_fn.rs], and
    the datagrams of [protocol/rpc/src/net/socket.rs] that use it

    A poll function that keeps the future of an asynchronous call from one poll
    to the next.  [RpcNet] takes the calls as awaited; here is what the polls
    make of them. *)

From S2P Require Import Prelude Io Address.

Module AsyncFn.

Section Poll.
(** [exec a] is what the polls of the call's future answer, with the arguments
    that it was started with. *)
Context {A R : Type} (exec : A -> list (poll R)).

(** [calls]: the calls made, for the statements. *)
(* src/rd-std/src/util/async_fn.rs:12-14 PollAsyncFn *)
Record PollAsyncFn : Type := mkPoll { fut : option (list (poll R)); calls : list A }.

(* src/rd-std/src/util/async_fn.rs:17-19 PollAsyncFn::new *)
Definition poll_async_new : PollAsyncFn := mkPoll None [].

(** The loop goes round once, to start the call. *)
(* src/rd-std/src/util/async_fn.rs:20-34 PollAsyncFn::poll_next *)
Definition poll_next (s : PollAsyncFn) (a : A) : PollAsyncFn * poll R :=
  let '(l, cs) := match fut s with Some l => (l, calls s) | None => (exec a, calls s ++ [a]) end in
  match l with
  | Ready r :: _ => (mkPoll None cs, Ready r)
  | Pending :: l => (mkPoll (Some l) cs, Pending)
  | [] => (mkPoll (Some []) cs, Pending)
  end.

(** The answer of a future, if it has one. *)
Fixpoint outcome (l : list (poll R)) : option R :=
  match l with [] => None | Ready r :: _ => Some r | Pending :: l => outcome l end.

(** A caller that repeats the poll until there is an answer; [args n] are the
    arguments of the poll in round [n]. *)
Fixpoint poll_until (fuel : nat) (s : PollAsyncFn) (args : nat -> A) (n : nat) : option (PollAsyncFn * R) :=
  match fuel with
  | O => None
  | S fuel =>
    match poll_next s (args n) with
    | (s, Ready r) => Some (s, r)
    | (s, Pending) => poll_until fuel s args (S n)
    end
  end.

Lemma poll_until_started fuel : forall l cs args n,
  poll_until fuel (mkPoll (Some l) cs) args n =
    match outcome (take fuel l) with Some r => Some (mkPoll None cs, r) | None => None end.
Proof.
  induction fuel as [|fuel IH]; intros l cs args n; [done|]. cbn [poll_until]. unfold poll_next. cbn [fut calls].
  destruct l as [|[|r] l]; [|apply IH|done]. rewrite IH, take_nil. done.
Qed.

(** A call that is polled until it answers is made once, with the arguments of
    the first poll, and the answer is that call's, whatever the later polls are
    given; it answers as soon as the call does. *)
Theorem async_fn_exact fuel s args n : fut s = None ->
  poll_until fuel s args n =
    match outcome (take fuel (exec (args n))) with
    | Some r => Some (mkPoll None (calls s ++ [args n]), r)
    | None => None
    end.
Proof.
  intros Hs. destruct fuel as [|fuel]; [done|]. cbn [poll_until]. unfold poll_next. rewrite Hs.
  destruct (exec (args n)) as [|[|r] l]; [rewrite poll_until_started, take_nil; done|rewrite poll_until_started; done|done].
Qed.
End Poll.

(** ** Streams *)

(** [read], [write], [flush] and [shutdown] of the functions behind a stream:
    what their futures answer. *)
Section Stream.
Context (read : nat -> list (poll (res bytes))) (write : bytes -> list (poll (res nat))).
Context (flush shutdown : list (poll (res unit))).

(* src/rd-std/src/util/async_fn.rs:52-59 AsyncFnIO *)
Record AsyncFnIO : Type := mkIO {
  read_fut : @PollAsyncFn nat (res bytes); write_fut : @PollAsyncFn bytes (res nat);
  flush_fut : @PollAsyncFn unit (res unit); shutdown_fut : @PollAsyncFn unit (res unit) }.

(* src/rd-std/src/util/async_fn.rs:63-72 AsyncFnIO::new *)
Definition io_new : AsyncFnIO := mkIO poll_async_new poll_async_new poll_async_new poll_async_new.

(* src/rd-std/src/util/async_fn.rs:85-98 AsyncFnIO::poll_write *)
Definition io_poll_write (s : AsyncFnIO) (buf : bytes) : AsyncFnIO * poll (res nat) :=
  let '(f, p) := poll_next write (write_fut s) buf in (mkIO (read_fut s) f (flush_fut s) (shutdown_fut s), p).

(* src/rd-std/src/util/async_fn.rs:100-108 AsyncFnIO::poll_flush *)
Definition io_poll_flush (s : AsyncFnIO) : AsyncFnIO * poll (res unit) :=
  let '(f, p) := poll_next (fun _ => flush) (flush_fut s) tt in (mkIO (read_fut s) (write_fut s) f (shutdown_fut s), p).

(* src/rd-std/src/util/async_fn.rs:110-123 AsyncFnIO::poll_shutdown *)
Definition io_poll_shutdown (s : AsyncFnIO) : AsyncFnIO * poll (res unit) :=
  let '(f, p) := poll_next (fun _ => shutdown) (shutdown_fut s) tt in (mkIO (read_fut s) (write_fut s) (flush_fut s) f, p).

(** [None]: more was read than the caller has room for, a panic. *)
(* src/rd-std/src/util/async_fn.rs:130-151 AsyncFnIO::poll_read(poll) *)
Definition io_poll_read (s : AsyncFnIO) (remaining : nat) : option (AsyncFnIO * poll (res bytes)) :=
  let '(f, p) := poll_next read (read_fut s) remaining in
  let s := mkIO f (write_fut s) (flush_fut s) (shutdown_fut s) in
  match p with
  | Ready (Ok buf) => if (length buf <=? remaining)%nat then Some (s, p) else None
  | _ => Some (s, p)
  end.

(** A read that is given up and repeated with less room, as the stream's user
    may, takes the answer of the first. *)
Lemma io_read_less_room s b d : fut (read_fut s) = None -> read 2 = [Pending; Ready (Ok [b; d])] ->
  exists s', io_poll_read s 2 = Some (s', Pending) /\ io_poll_read s' 1 = None.
Proof.
  intros Hs E. unfold io_poll_read, poll_next. rewrite Hs, E. eexists. split; [reflexivity|]. reflexivity.
Qed.

(** ** Datagrams *)

(** [send_to]: what sending a datagram to a target answers. *)
Context (send_to : bytes * Address -> list (poll (res unit))).

(* src/protocol/rpc/src/net/socket.rs:132-162 UdpWrapper::poll_send_to(poll) *)
Definition udp_poll_send_to (s : @PollAsyncFn (bytes * Address) (res unit)) (buf : bytes) (target : Address)
    : @PollAsyncFn (bytes * Address) (res unit) * poll (res nat) :=
  match poll_next send_to s (buf, target) with
  | (s, Ready (Ok _)) => (s, Ready (Ok (length buf)))
  | (s, Ready (Err e)) => (s, Ready (Err e))
  | (s, Pending) => (s, Pending)
  end.

(** A datagram in the place of one whose sending is pending is not sent, and
    said to be. *)
Lemma udp_send_replaced s a ta b tb : fut s = None -> send_to (a, ta) = [Pending; Ready (Ok tt)] ->
  exists s1, udp_poll_send_to s a ta = (s1, Pending) /\
  exists s2, udp_poll_send_to s1 b tb = (s2, Ready (Ok (length b))) /\ calls s2 = calls s ++ [(a, ta)].
Proof.
  intros Hs E. unfold udp_poll_send_to, poll_next. rewrite Hs, E. eexists. split; [reflexivity|].
  eexists. split; reflexivity.
Qed.

(** The same of a stream: the number that is answered is that of the first buffer. *)
Lemma io_write_replaced s a b k : fut (write_fut s) = None -> write a = [Pending; Ready (Ok k)] ->
  exists s1, io_poll_write s a = (s1, Pending) /\
  exists s2, io_poll_write s1 b = (s2, Ready (Ok k)) /\ calls (write_fut s2) = calls (write_fut s) ++ [a].
Proof.
  intros Hs E. unfold io_poll_write, poll_next. rewrite Hs, E. eexists. split; [reflexivity|].
  eexists. split; reflexivity.
Qed.
End Stream.

Definition sample_write (b : bytes) : list (poll (res nat)) := [Pending; Ready (Ok (length b))].

Lemma async_fn_exact_witness :
  poll_until sample_write 2 poll_async_new (fun n => match n with O => [1; 2; 3] | _ => [9] end) 0 =
    Some (mkPoll None [[1; 2; 3]], Ok 3%nat).
Proof. exact (async_fn_exact sample_write 2 poll_async_new (fun n => match n with O => [1; 2; 3] | _ => [9] end) 0 eq_refl). Defined.
End AsyncFn.
