(* ===== verification/Reality.v ===== *)
(** * VLESS REALITY: [protocol/vless/src/reality.rs]

    A TLS server that only its clients can tell from the site it imitates: the
    session id of the ClientHello is an encrypted token, which the server opens
    with a key that both ends derive from the server's static key and the
    client's key share.  [Reality] is the server's parsing and authentication
    of the hello; the streams are in [RealityStream.v] and [RealityHandshake.v].
    Parsing of TLS structures, the cryptography and
    the TLS connection itself are third-party code. *)

From S2P Require Import Prelude Io.

Module Reality.

(** ** Configuration *)

(** [hex::decode] and base64's [URL_SAFE_NO_PAD]. *)
Class KeyText : Type := {
  hex_decode : bytes -> option bytes;
  base64_decode : bytes -> option bytes }.

(* src/protocol/vless/src/reality.rs:35-39 RealityConfig *)
Record RealityConfig : Type := mkRealityConfig {
  public_key : bytes; rc_short_id : option bytes; client_fingerprint : option bytes }.

(* src/protocol/vless/src/reality.rs:92-97 RealityServerConfig *)
Record RealityServerConfig : Type := mkRealityServer {
  server_name : bytes; private_key : bytes; short_id : option bytes; max_time_diff : option Z }.

(* src/protocol/vless/src/reality.rs:42-51 validate_client_fingerprint *)
Definition validate_client_fingerprint (c : RealityConfig) : res unit :=
  match client_fingerprint c with
  | Some fp =>
    if negb (bool_decide (fp = [])) && negb (eq_ignore_case fp (lit "chrome"))
    then Err (EOther "unsupported reality client fingerprint") else Ok tt
  | None => Ok tt
  end.

Section Keys.
Context {KT : KeyText}.

(* src/protocol/vless/src/reality.rs:53-72 decode_public_key *)
Definition decode_key (s : bytes) : res bytes :=
  match match hex_decode s with Some b => if (length b =? 32)%nat then Some b else None | None => None end with
  | Some b => Ok b
  | None =>
    match base64_decode s with
    | Some b => if (length b =? 32)%nat then Ok b else Err EInvalidInput
    | None => Err EInvalidInput
    end
  end.

(* src/protocol/vless/src/reality.rs:100-119 decode_private_key *)
Definition decode_private_key (c : RealityServerConfig) : res bytes := decode_key (private_key c).

(** Characters of a string: what is not a continuation byte. *)
Definition continuation (b : Z) : bool := (128 <=? b) && (b <? 192).
Definition char_count (s : bytes) : nat := length (List.filter (fun b => negb (continuation b)) s).

(** [format!("{:0<16}", s)]. *)
Definition pad_16 (s : bytes) : bytes := s ++ repeat 48 (16 - char_count s).

(** [None] is a panic: the slice ends inside a character. *)
(* src/protocol/vless/src/reality.rs:74-88 decode_short_id *)
Definition decode_short_id (s : option bytes) : option (res bytes) :=
  match s with
  | None | Some [] => Some (Ok (repeat 0 8))
  | Some s =>
    let padded := pad_16 s in
    match padded !! 16%nat with
    | Some b => if continuation b then None else Some (ok_or EInvalidInput (hex_decode (take 16 padded)))
    | None => Some (ok_or EInvalidInput (hex_decode (take 16 padded)))
    end
  end.

(* src/protocol/vless/src/reality.rs:121-135 RealityServerConfig::decode_short_id *)
Definition server_short_id (c : RealityServerConfig) : option (res bytes) := decode_short_id (short_id c).

End Keys.

(** ** The ClientHello *)

(** One entry after the other, until fewer than four bytes are left; the last
    X25519 share, and the last hybrid one, whose X25519 part comes first. *)
(* src/protocol/vless/src/reality.rs:164-189 parse_client_key_share(loop) *)
Fixpoint key_shares (fuel : nat) (l : bytes) (direct hybrid : option bytes) : res (option bytes * option bytes) :=
  match fuel with
  | O => Ok (direct, hybrid)
  | S fuel =>
    if (length l <? 4)%nat then Ok (direct, hybrid)
    else
      let group := be_val (take 2 l) in
      let key_len := Z.to_nat (be_val (take 2 (drop 2 l))) in
      let l := drop 4 l in
      if (length l <? key_len)%nat then Err EUnexpectedEof
      else
        let key := take key_len l in
        let l := drop key_len l in
        if (group =? 29) && (length key =? 32)%nat then key_shares fuel l (Some key) hybrid
        else if (group =? 4588) && (32 <=? length key)%nat then key_shares fuel l direct (Some (take 32 key))
        else key_shares fuel l direct hybrid
  end.

(* src/protocol/vless/src/reality.rs:146-197 parse_client_key_share *)
Definition parse_client_key_share (data : bytes) : res bytes :=
  if (length data <? 2)%nat then Err EInvalidData
  else
    let total := Z.to_nat (be_val (take 2 data)) in
    if (length data <? 2 + total)%nat then Err EUnexpectedEof
    else
      match key_shares (S total) (take total (drop 2 data)) None None with
      | Err e => Err e
      | Ok (Some k, _) => Ok k
      | Ok (None, Some k) => Ok k
      | Ok (None, None) => Err EInvalidData
      end.

(** ** The choice of a key share *)

Definition entry_bytes (e : Z * bytes) : bytes := be_bytes 2 e.1 ++ be_bytes 2 (Z.of_nat (length e.2)) ++ e.2.
Definition entry_ok (e : Z * bytes) : Prop := 0 <= e.1 < 2 ^ 16 /\ Z.of_nat (length e.2) < 2 ^ 16.

Definition choose_share (acc : option bytes * option bytes) (e : Z * bytes) : option bytes * option bytes :=
  if (e.1 =? 29) && (length e.2 =? 32)%nat then (Some e.2, acc.2)
  else if (e.1 =? 4588) && (32 <=? length e.2)%nat then (acc.1, Some (take 32 e.2)) else acc.

Lemma key_shares_entries l : Forall entry_ok l -> forall fuel d h, (length (concat (map entry_bytes l)) < fuel)%nat ->
  key_shares fuel (concat (map entry_bytes l)) d h = Ok (fold_left choose_share l (d, h)).
Proof.
  induction 1 as [|[g k] l [Hg Hk] Hl IH]; intros [|fuel] d h Hf; try lia; [done|].
  cbn [map concat fold_left] in *. cbn [fst snd] in *. change (entry_bytes (g, k)) with (be_bytes 2 g ++ be_bytes 2 (Z.of_nat (length k)) ++ k) in *.
  rewrite <- !app_assoc in *. rewrite !length_app, !length_be_bytes in Hf. cbn [key_shares].
  rewrite !length_app, !length_be_bytes. rewrite (proj2 (Nat.ltb_ge _ 4)) by lia.
  set (r := k ++ _). pose proof (length_be_bytes 2 g) as L1. pose proof (length_be_bytes 2 (Z.of_nat (length k))) as L2.
  assert (E4 : drop 4 (be_bytes 2 g ++ be_bytes 2 (Z.of_nat (length k)) ++ r) = r).
  { rewrite app_assoc. apply drop_app_length'. by rewrite length_app, L1, L2. }
  rewrite E4, (take_app_length' (be_bytes 2 g)), (drop_app_length' (be_bytes 2 g)) by done.
  rewrite (take_app_length' (be_bytes 2 (Z.of_nat (length k)))), !be_val_be_bytes by (done || lia). unfold r. rewrite Nat2Z.id, length_app, (proj2 (Nat.ltb_ge _ (length k))) by lia.
  rewrite take_app_length, drop_app_length. unfold choose_share at 2. cbn [fst snd].
  destruct ((g =? 29) && _); [apply IH; lia|]. destruct ((g =? 4588) && _); apply IH; lia.
Qed.

(** [tls_parser]: what the code takes from a hello and its extensions.  A hello
    starts with the version, the random and the session id. *)
Record ClientHello : Type := mkHello { h_random : bytes; h_session_id : option bytes; h_ext : option bytes }.

Inductive Extension : Type :=
| XSni (names : list (Z * bytes))
| XKeyShare (data : bytes)
| XOther.

Class HelloParser : Type := {
  parse_hello : bytes -> option ClientHello;
  parse_extensions : bytes -> option (list Extension);
  parse_hello_layout : forall b h, parse_hello b = Some h -> exists version rest, length version = 2%nat /\
    length (h_random h) = 32%nat /\
    b = version ++ h_random h ++ match h_session_id h with Some sid => Z.of_nat (length sid) :: sid | None => [0] end ++ rest }.

(* src/protocol/vless/src/reality.rs:139-144 ParsedRealityClientHello *)
Record Parsed : Type := mkParsed { raw_hello : bytes; p_random : bytes; session_id : bytes; peer_public_key : bytes }.

(** [raw_hello_zeroed[39..71].fill(0)]. *)
Definition zero_session (h : bytes) : option bytes :=
  if (length h <? 71)%nat then None else Some (take 39 h ++ replicate 32 0 ++ drop 71 h).

(** The first host name of an extension. *)
Definition host_name (names : list (Z * bytes)) : option (option bytes) :=
  match List.find (fun n => n.1 =? 0) names with
  | Some n => Some (if utf8_valid n.2 then Some n.2 else None)
  | None => None
  end.

(** The loop over the extensions. *)
(* src/protocol/vless/src/reality.rs:250-267 parse_reality_client_hello(extensions) *)
Fixpoint scan_extensions (l : list Extension) (sni key : option bytes) : res (option bytes * option bytes) :=
  match l with
  | [] => Ok (sni, key)
  | XSni names :: l => scan_extensions l (match host_name names with Some s => s | None => sni end) key
  | XKeyShare d :: l => k ← parse_client_key_share d; scan_extensions l sni (Some k)
  | XOther :: l => scan_extensions l sni key
  end.

Section Parsing.
Context {HP : HelloParser}.

(** [None] is a panic. *)
(* src/protocol/vless/src/reality.rs:199-290 parse_reality_client_hello *)
Definition parse_reality_client_hello (record name : bytes) : option (res Parsed) :=
  if (length record <? 9)%nat || negb (bool_decide (take 1 record = [22])) then Some (Err EInvalidData)
  else if negb (length record =? 5 + Z.to_nat (be_val (take 2 (drop 3 record))))%nat then Some (Err EUnexpectedEof)
  else if negb (bool_decide (take 1 (drop 5 record) = [1])) then Some (Err EInvalidData)
  else
    let hello_len := Z.to_nat (be_val (take 3 (drop 6 record))) in
    if (length record <? 9 + hello_len)%nat then Some (Err EUnexpectedEof)
    else
      let raw := take (4 + hello_len) (drop 5 record) in
      match parse_hello (take hello_len (drop 9 record)) with
      | None => Some (Err EInvalidData)
      | Some h =>
        match match h_session_id h with Some s => if (length s =? 32)%nat then Some s else None | None => None end with
        | None => Some (Err EInvalidData)
        | Some sid =>
          match parse_extensions (default [] (h_ext h)) with
          | None => Some (Err EInvalidData)
          | Some exts =>
            match scan_extensions exts None None with
            | Err e => Some (Err e)
            | Ok (sni, key) =>
              if bool_decide (sni = Some name) then
                match zero_session raw with
                | None => None
                | Some zeroed =>
                  Some (match key with
                        | Some k => Ok (mkParsed zeroed (h_random h) sid k)
                        | None => Err EInvalidData
                        end)
                end
              else Some (Err EPermissionDenied)
            end
          end
        end
      end.

End Parsing.

(** ** Authentication *)

(** X25519, HKDF-SHA256 with the info [REALITY], and AES-256-GCM. *)
Class RealityCrypto : Type := {
  x25519_public : bytes -> bytes;
  x25519 : bytes -> bytes -> bytes;
  hkdf : bytes -> bytes -> bytes;
  aead_seal : bytes -> bytes -> bytes -> bytes -> bytes;
  aead_open : bytes -> bytes -> bytes -> bytes -> option bytes;
  x25519_agrees : forall a b, x25519 a (x25519_public b) = x25519 b (x25519_public a);
  aead_seal_length : forall key nonce aad m, length (aead_seal key nonce aad m) = (length m + 16)%nat;
  aead_open_seal : forall key nonce aad m, aead_open key nonce aad (aead_seal key nonce aad m) = Some m }.

Section Auth.
Context {KT : KeyText} {HP : HelloParser} {RC : RealityCrypto}.

(** Times are in nanoseconds since the epoch. *)
Definition second : Z := 1000000000.

(** The key of a private key, the other side's public key and the random. *)
Definition auth_key (sk peer random : bytes) : bytes := hkdf (take 20 random) (x25519 sk peer).

(* src/protocol/vless/src/reality.rs:325-379 derive_reality_auth_key *)
Definition derive_reality_auth_key (cfg : RealityServerConfig) (now : Z) (p : Parsed) : option (res bytes) :=
  match decode_private_key cfg with
  | Err e => Some (Err e)
  | Ok sk =>
    let key := auth_key sk (peer_public_key p) (p_random p) in
    match aead_open key (take 12 (drop 20 (p_random p))) (raw_hello p) (session_id p) with
    | None => Some (Err EPermissionDenied)
    | Some decrypted =>
      if negb (length decrypted =? 16)%nat then Some (Err EInvalidData)
      else
        match server_short_id cfg with
        | None => None
        | Some (Err e) => Some (Err e)
        | Some (Ok expected) =>
          if negb (bool_decide (drop 8 decrypted = expected)) then Some (Err EPermissionDenied)
          else
            match max_time_diff cfg with
            | None => Some (Ok key)
            | Some d =>
              if d <? Z.abs (now - be_val (take 4 (drop 4 decrypted)) * second) then Some (Err EPermissionDenied)
              else Some (Ok key)
            end
        end
    end
  end.

(* src/protocol/vless/src/reality.rs:558-569 read_tls_record *)
Definition read_tls_record : reader bytes :=
  header ← read_exact 5;
  body ← read_exact (Z.to_nat (be_val (take 2 (drop 3 header))));
  mret (header ++ body).

(** The authentication of a connection: the record that was read, for the
    handshake, and the key. *)
(* src/protocol/vless/src/reality.rs:1062-1085 accept_reality_stream *)
Definition accept_auth (cfg : RealityServerConfig) (now : Z) (i : bytes) : option (res (bytes * bytes) * bytes) :=
  match read_tls_record i with
  | Err e => Some (Err e, i)
  | Ok (record, rest) =>
    match parse_reality_client_hello record (server_name cfg) with
    | None => None
    | Some (Err e) => Some (Err e, rest)
    | Some (Ok parsed) =>
      match derive_reality_auth_key cfg now parsed with
      | None => None
      | Some (Err e) => Some (Err e, rest)
      | Some (Ok key) => Some (Ok (record, key), rest)
      end
    end
  end.

(** ** What is authenticated *)

(** A handshake message with a session id, in a record. *)
Definition hello_body (version random sid rest : bytes) : bytes := version ++ random ++ Z.of_nat (length sid) :: sid ++ rest.
Definition message (body : bytes) : bytes := 1 :: be_bytes 3 (Z.of_nat (length body)) ++ body.
Definition record_of (version m : bytes) : bytes := 22 :: version ++ be_bytes 2 (Z.of_nat (length m)) ++ m.

Lemma read_tls_record_app v m more : length v = 2%nat -> Z.of_nat (length m) < 2 ^ 16 ->
  read_tls_record (record_of v m ++ more) = Ok (record_of v m, more).
Proof.
  intros Hv Hm. destruct v as [|v1 [|v2 [|]]]; try done. unfold record_of, read_tls_record. cbn [app].
  pose proof (length_be_bytes 2 (Z.of_nat (length m))) as Hl.
  destruct (be_bytes 2 (Z.of_nat (length m))) as [|l1 [|l2 [|]]] eqn:El; try done. cbn [app].
  rewrite bind_reader. change (22 :: v1 :: v2 :: l1 :: l2 :: m ++ more) with ([22; v1; v2; l1; l2] ++ m ++ more).
  rewrite (read_exact_app [22; v1; v2; l1; l2]). cbn [drop take].
  replace (be_val [l1; l2]) with (Z.of_nat (length m)) by (rewrite <- El, be_val_be_bytes; lia).
  rewrite bind_reader, Nat2Z.id, read_exact_app. done.
Qed.

Lemma zero_session_layout pre sid rest : length pre = 39%nat -> length sid = 32%nat ->
  zero_session (pre ++ sid ++ rest) = Some (pre ++ replicate 32 0 ++ rest).
Proof.
  intros Hp Hs. unfold zero_session. rewrite !length_app, Hp, Hs, (proj2 (Nat.ltb_ge _ 71)) by lia.
  rewrite take_app_length' by done. assert (E : drop 71 (pre ++ sid ++ rest) = rest)
    by (rewrite app_assoc; apply drop_app_length'; rewrite length_app; lia).
  by rewrite E.
Qed.

(** A record that is taken for a hello: what it consists of, and what is
    authenticated, which is all of the message but the session id. *)
Definition hello_of (record name : bytes) (p : Parsed) : Prop :=
  exists head version rest more h exts,
    record = take 5 record ++ (head ++ version ++ p_random p ++ [32]) ++ session_id p ++ rest ++ more /\
    length head = 4%nat /\ length version = 2%nat /\ length (p_random p) = 32%nat /\ length (session_id p) = 32%nat /\
    raw_hello p = (head ++ version ++ p_random p ++ [32]) ++ replicate 32 0 ++ rest /\
    parse_hello (version ++ p_random p ++ [32] ++ session_id p ++ rest) = Some h /\
    parse_extensions (default [] (h_ext h)) = Some exts /\
    scan_extensions exts None None = Ok (Some name, Some (peer_public_key p)).

Lemma parse_reality_spec record name :
  match parse_reality_client_hello record name with
  | None => False
  | Some (Err _) => True
  | Some (Ok p) => hello_of record name p
  end.
Proof.
  unfold parse_reality_client_hello.
  destruct ((length record <? 9)%nat || _) eqn:E1; [done|]. destruct (negb (length record =? _)%nat); [done|].
  destruct (negb (bool_decide (take 1 (drop 5 record) = [1]))); [done|].
  set (n := Z.to_nat (be_val (take 3 (drop 6 record)))).
  destruct (length record <? 9 + n)%nat eqn:E2; [done|]. apply orb_false_iff in E1 as [E1 _]. bools.
  destruct (parse_hello (take n (drop 9 record))) as [h|] eqn:Eh; [|done].
  destruct (parse_hello_layout _ _ Eh) as (v & rest & Hv & Hr & El).
  destruct (h_session_id h) as [sid|] eqn:Es; [|done]. destruct (length sid =? 32)%nat eqn:Ls; [|done]. bools.
  destruct (parse_extensions _) as [exts|] eqn:Ex; [|done].
  destruct (scan_extensions exts None None) as [[sni key]|] eqn:Esc; [|done].
  destruct (bool_decide (sni = Some name)) eqn:En; [|done]. apply bool_decide_eq_true in En as ->.
  set (head := take 4 (drop 5 record)).
  assert (Lh : length head = 4%nat) by (unfold head; rewrite length_take, length_drop; lia).
  rewrite Ls in El. change (Z.of_nat 32 :: sid) with ([32] ++ sid) in El. rewrite <- app_assoc in El.
  assert (Eraw : take (4 + n) (drop 5 record) = (head ++ v ++ h_random h ++ [32]) ++ sid ++ rest).
  { rewrite <- (take_take_drop (drop 5 record) 4 n), drop_drop. change (5 + 4)%nat with 9%nat. rewrite El.
    fold head. by rewrite <- !app_assoc. }
  rewrite Eraw, zero_session_layout by (done || (rewrite !length_app; cbn [length]; lia)).
  destruct key as [k|]; [|done].
  exists head, v, rest, (drop (4 + n) (drop 5 record)), h, exts. cbn [session_id raw_hello p_random peer_public_key].
  rewrite <- El. split_and!; try done.
  rewrite <- (take_drop 5 record) at 1. f_equal. rewrite <- (take_drop (4 + n) (drop 5 record)) at 1. rewrite Eraw.
  by rewrite <- !app_assoc.
Qed.

(** The time a token carries, and whether it is close enough. *)
Definition token_time (plain : bytes) : Z := be_val (take 4 (drop 4 plain)) * second.
Definition in_time (cfg : RealityServerConfig) (now : Z) (plain : bytes) : Prop :=
  match max_time_diff cfg with Some d => Z.abs (now - token_time plain) <= d | None => True end.

Lemma derive_spec cfg now p sk sid key : decode_private_key cfg = Ok sk -> server_short_id cfg = Some (Ok sid) ->
  derive_reality_auth_key cfg now p = Some (Ok key) <->
  key = auth_key sk (peer_public_key p) (p_random p) /\
  exists plain, aead_open key (take 12 (drop 20 (p_random p))) (raw_hello p) (session_id p) = Some plain /\
    length plain = 16%nat /\ drop 8 plain = sid /\ in_time cfg now plain.
Proof.
  intros Hk Hs. unfold derive_reality_auth_key, in_time, token_time. rewrite Hk, Hs.
  set (k := auth_key sk _ _). split.
  - destruct (aead_open k _ _ _) as [plain|] eqn:Eo; [|done].
    destruct (length plain =? 16)%nat eqn:El; cbn [negb]; [|done]. destruct (bool_decide (drop 8 plain = sid)) eqn:Ed; cbn [negb]; [|done].
    apply bool_decide_eq_true in Ed. bools. intros E. assert (E' : key = k /\ in_time cfg now plain).
    { unfold in_time, token_time. destruct (max_time_diff cfg) as [d|]; [|by simplify_eq].
      destruct (d <? _) eqn:Et; [done|]. bools. by simplify_eq. }
    destruct E' as [-> Et]. split; [done|]. by exists plain.
  - intros (-> & plain & -> & -> & Hd & Ht). cbn [Nat.eqb negb]. rewrite bool_decide_eq_true_2 by done. cbn [negb].
    destruct (max_time_diff cfg) as [d|]; [|done]. by rewrite (proj2 (Z.ltb_ge _ _) Ht).
Qed.

Lemma message_parts body : length (message body) = (4 + length body)%nat /\ take 1 (message body) = [1] /\
  take 3 (drop 1 (message body)) = be_bytes 3 (Z.of_nat (length body)) /\ drop 4 (message body) = body.
Proof.
  unfold message. split_and!.
  - cbn [length]. by rewrite length_app, length_be_bytes.
  - done.
  - cbn [drop]. apply take_app_length'. by rewrite length_be_bytes.
  - cbn [drop]. apply (drop_app_length' (be_bytes 3 _)). by rewrite length_be_bytes.
Qed.

Lemma length_hello_body v random sid rest :
  length (hello_body v random sid rest) = (length v + length random + 1 + length sid + length rest)%nat.
Proof. unfold hello_body. rewrite !length_app. cbn [length]. rewrite length_app. lia. Qed.

Lemma zero_message v random sid rest : length v = 2%nat -> length random = 32%nat -> length sid = 32%nat ->
  zero_session (message (hello_body v random sid rest)) = Some (message (hello_body v random (replicate 32 0) rest)).
Proof.
  intros Hv Hr Hs. unfold message. rewrite !length_hello_body, Hs, Hv, Hr, length_replicate. cbn [Nat.add].
  set (lb := be_bytes 3 _). unfold hello_body. rewrite Hs, length_replicate.
  assert (E : forall s, 1 :: lb ++ v ++ random ++ Z.of_nat 32 :: s ++ rest
    = (1 :: lb ++ v ++ random ++ [Z.of_nat 32]) ++ s ++ rest)
    by (intros; cbn [app]; by rewrite <- !app_assoc).
  rewrite !E. apply zero_session_layout; [|done].
  cbn [length]. rewrite !length_app, Hv, Hr. unfold lb. by rewrite length_be_bytes.
Qed.

(** A hello as a client writes it is taken for what it is. *)
Lemma parse_reality_hello name v' v random sid rest h exts peer :
  let body := hello_body v random sid rest in
  length v' = 2%nat -> length v = 2%nat -> length random = 32%nat -> length sid = 32%nat ->
  Z.of_nat (length (message body)) < 2 ^ 16 ->
  parse_hello body = Some h -> h_random h = random -> h_session_id h = Some sid ->
  parse_extensions (default [] (h_ext h)) = Some exts -> scan_extensions exts None None = Ok (Some name, Some peer) ->
  parse_reality_client_hello (record_of v' (message body)) name =
  Some (Ok (mkParsed (message (hello_body v random (replicate 32 0) rest)) random sid peer)).
Proof.
  intros body Hv' Hv Hr Hs Hm Hh Hhr Hhs Hx Hsc. set (m := message body) in *.
  pose proof (message_parts body) as (Lm & E1 & E2 & E3). fold m in Lm, E1, E2, E3.
  destruct v' as [|v1 [|v2 [|]]]; try done. unfold record_of. cbn [app].
  pose proof (length_be_bytes 2 (Z.of_nat (length m))) as Hl.
  destruct (be_bytes 2 (Z.of_nat (length m))) as [|l1 [|l2 [|]]] eqn:El; try done. cbn [app]. clear Hl Hv'.
  set (r := 22 :: v1 :: v2 :: l1 :: l2 :: m). assert (Lr : length r = (5 + length m)%nat) by done.
  assert (Eb : be_val (take 2 (drop 3 r)) = Z.of_nat (length m)) by (change (take 2 (drop 3 r)) with [l1; l2]; rewrite <- El, be_val_be_bytes; lia).
  unfold parse_reality_client_hello. rewrite Lr, Eb, Nat2Z.id, (proj2 (Nat.ltb_ge _ 9)) by lia.
  change (take 1 r) with [22]. change (drop 5 r) with m. change (drop 6 r) with (drop 1 m). change (drop 9 r) with (drop 4 m).
  rewrite bool_decide_eq_true_2 by done. cbn [orb negb]. rewrite Nat.eqb_refl. cbn [negb].
  rewrite E1, bool_decide_eq_true_2 by done. cbn [negb]. rewrite E2, be_val_be_bytes by lia.
  rewrite Nat2Z.id, (proj2 (Nat.ltb_ge _ (9 + length body))) by lia. rewrite E3, take_ge by done.
  rewrite Hh, Hhs, Hs. cbn [Nat.eqb]. rewrite Hx, Hsc, bool_decide_eq_true_2 by done.
  rewrite take_ge by lia. unfold m, body. rewrite zero_message by done. by rewrite Hhr.
Qed.

Lemma read_tls_record_split i record rest : read_tls_record i = Ok (record, rest) -> i = record ++ rest.
Proof.
  unfold read_tls_record. rewrite bind_reader. destruct (read_exact 5 i) as [[hd l]|] eqn:E1; [|done].
  rewrite bind_reader. destruct (read_exact _ l) as [[b l']|] eqn:E2; [|done]. intros E.
  apply read_exact_ok in E1 as [-> _]. apply read_exact_ok in E2 as [-> _].
  cbv [mret reader_ret] in E. simplify_eq. by rewrite <- app_assoc.
Qed.

(** What a client that knows the server's key and the short id puts into its
    hello: a version, the time in seconds and the short id, sealed with the key
    its ephemeral key and the server's public key give; the message with an
    empty session id is authenticated with it. *)
Definition token (esk server_public random ver tm sid zeroed : bytes) : bytes :=
  aead_seal (auth_key esk server_public random) (take 12 (drop 20 random)) zeroed (ver ++ tm ++ sid).

Lemma accept_sound cfg now sk sid i : decode_private_key cfg = Ok sk -> server_short_id cfg = Some (Ok sid) ->
  match accept_auth cfg now i with
  | None => False
  | Some (Err _, _) => True
  | Some (Ok (record, key), more) =>
    i = record ++ more /\
    exists p plain, hello_of record (server_name cfg) p /\
      key = auth_key sk (peer_public_key p) (p_random p) /\
      aead_open key (take 12 (drop 20 (p_random p))) (raw_hello p) (session_id p) = Some plain /\
      length plain = 16%nat /\ drop 8 plain = sid /\ in_time cfg now plain
  end.
Proof.
  intros Hk Hs. unfold accept_auth. destruct (read_tls_record i) as [[record more]|] eqn:Er; [|done].
  pose proof (parse_reality_spec record (server_name cfg)) as Hp.
  destruct (parse_reality_client_hello _ _) as [[p|]|]; [|done|done].
  destruct (derive_reality_auth_key cfg now p) as [[key|]|] eqn:Ed; [|done|].
  - split; [by apply read_tls_record_split|]. apply (derive_spec _ _ _ _ _ _ Hk Hs) in Ed as (-> & plain & Ho).
    by exists p, plain.
  - unfold derive_reality_auth_key in Ed. rewrite Hk, Hs in Ed. destruct (aead_open _ _ _ _); [|done].
    destruct (negb _); [done|]. destruct (negb _); [done|]. destruct (max_time_diff cfg); [|done]. by destruct (_ <? _).
Qed.

(** C7: REALITY authentication of a connection.  Sound, on every input: nothing
    panics, and a connection is taken for one of ours only if its first record
    is a ClientHello for the configured host whose session id opens, under the
    key of the server's private key and the hello's key share and with all the
    rest of the message authenticated, to sixteen bytes that carry the short id
    and a time within bounds; the record is handed on as it was read.  Complete:
    the hello of a client that knows the server's public key and the short id
    and whose clock is within bounds is accepted, and both ends have the same key. *)
Theorem reality_auth cfg now sk sid :
  decode_private_key cfg = Ok sk -> server_short_id cfg = Some (Ok sid) -> length sid = 8%nat ->
  (forall i,
    match accept_auth cfg now i with
    | None => False
    | Some (Err _, _) => True
    | Some (Ok (record, key), more) =>
      i = record ++ more /\
      exists p plain, hello_of record (server_name cfg) p /\
        key = auth_key sk (peer_public_key p) (p_random p) /\
        aead_open key (take 12 (drop 20 (p_random p))) (raw_hello p) (session_id p) = Some plain /\
        length plain = 16%nat /\ drop 8 plain = sid /\ in_time cfg now plain
    end) /\
  (forall esk random v' v ver time rest h exts more,
    let zeroed := message (hello_body v random (replicate 32 0) rest) in
    let t := token esk (x25519_public sk) random ver (be_bytes 4 time) sid zeroed in
    let body := hello_body v random t rest in
    let record := record_of v' (message body) in
    length v' = 2%nat -> length v = 2%nat -> length random = 32%nat -> length ver = 4%nat ->
    Z.of_nat (length (message body)) < 2 ^ 16 ->
    parse_hello body = Some h -> h_random h = random -> h_session_id h = Some t ->
    parse_extensions (default [] (h_ext h)) = Some exts ->
    scan_extensions exts None None = Ok (Some (server_name cfg), Some (x25519_public esk)) ->
    0 <= time < 2 ^ 32 -> match max_time_diff cfg with Some d => Z.abs (now - time * second) <= d | None => True end ->
    accept_auth cfg now (record ++ more) = Some (Ok (record, auth_key esk (x25519_public sk) random), more)).
Proof.
  intros Hk Hs Lsid. split; [intros i; by apply accept_sound|].
  intros esk random v' v ver time rest h exts more zeroed t body record Hv' Hv Hr Hver Hm Hh Hhr Hht Hx Hsc Ht Hd.
  assert (Lp : length (ver ++ be_bytes 4 time ++ sid) = 16%nat) by (rewrite !length_app, length_be_bytes; lia).
  assert (Lt : length t = 32%nat) by (unfold t, token; rewrite aead_seal_length; lia).
  unfold accept_auth, record. rewrite read_tls_record_app by done. unfold body.
  rewrite (parse_reality_hello _ _ _ _ _ _ h exts (x25519_public esk)) by done. fold zeroed.
  rewrite (proj2 (derive_spec cfg now _ sk sid (auth_key esk (x25519_public sk) random) Hk Hs)); [done|].
  cbn [peer_public_key p_random raw_hello session_id]. split; [unfold auth_key; by rewrite x25519_agrees|].
  exists (ver ++ be_bytes 4 time ++ sid). split_and!; [apply aead_open_seal|done| |].
  - rewrite app_assoc. apply drop_app_length'. rewrite length_app, length_be_bytes. lia.
  - unfold in_time, token_time. rewrite (drop_app_length' ver) by done.
    rewrite take_app_length' by (by rewrite length_be_bytes). by rewrite be_val_be_bytes by lia.
Qed.

End Auth.

(** ** A concrete instance *)

Module RealityToy.

Definition sum (l : bytes) : Z := fold_right Z.add 0 l mod 256.
Definition tag (key nonce aad m : bytes) : bytes := replicate 16 ((sum key + 3 * sum nonce + 5 * sum aad + 7 * sum m) mod 256).

#[global] Program Instance toy_crypto : RealityCrypto := {
  x25519_public k := map (fun b => b + 1) k;
  x25519 a b := [sum (map (fun b => b + 1) a) + sum b];
  hkdf salt s := s ++ take 31 salt;
  aead_seal key nonce aad m := m ++ tag key nonce aad m;
  aead_open key nonce aad c :=
    let m := take (length c - 16) c in
    if bool_decide (drop (length c - 16) c = tag key nonce aad m) then Some m else None }.
Next Obligation. intros. unfold sum. by rewrite Z.add_comm. Qed.
Next Obligation. intros. cbv beta. by rewrite length_app. Qed.
Next Obligation.
  intros. cbv beta. rewrite length_app. cbn [length tag replicate]. rewrite Nat.add_sub.
  rewrite take_app_length, drop_app_length. by rewrite bool_decide_eq_true_2.
Qed.

#[global] Instance toy_keys : KeyText := {
  hex_decode s := if (length s =? 16)%nat then Some (take 8 s) else Some s;
  base64_decode _ := None }.

(** A parser that knows one kind of hello. *)
#[global] Program Instance toy_parser : HelloParser := {
  parse_hello b :=
    if (length b <? 67)%nat || negb (bool_decide (take 1 (drop 34 b) = [32])) then None
    else Some (mkHello (take 32 (drop 2 b)) (Some (take 32 (drop 35 b))) (Some (drop 67 b)));
  parse_extensions b := Some [XSni [(0, lit "a.b")]; XKeyShare b] }.
Next Obligation.
  intros b h. cbv beta. destruct ((length b <? 67)%nat || _) eqn:E; [done|].
  apply orb_false_iff in E as [E E2]. intros [= <-]. cbn [h_random h_session_id]. bools.
  exists (take 2 b), (drop 67 b).
  rewrite !length_take, !length_drop. split_and!; [lia|lia|].
  replace (32 `min` (length b - 35))%nat with 32%nat by lia.
  change (Z.of_nat 32 :: ?x) with ([32] ++ x).
  apply bool_decide_eq_true in E2. rewrite <- E2.
  replace (drop 67 b) with (drop 32 (drop 35 b)) by (by rewrite drop_drop).
  rewrite <- app_assoc, take_drop. replace (drop 35 b) with (drop 1 (drop 34 b)) by (by rewrite drop_drop).
  rewrite take_drop. replace (drop 34 b) with (drop 32 (drop 2 b)) by (by rewrite drop_drop).
  by rewrite !take_drop.
Qed.

Definition toy_cfg : RealityServerConfig := mkRealityServer (lit "a.b") (replicate 32 7) None (Some (60 * second)).
Definition toy_rest (esk : bytes) : bytes := be_bytes 2 36 ++ entry_bytes (29, x25519_public esk).
Definition toy_body (esk random : bytes) (time : Z) : bytes :=
  hello_body [3; 3] random
    (token esk (x25519_public (replicate 32 7)) random [1; 0; 0; 0] (be_bytes 4 time) (replicate 8 0)
       (message (hello_body [3; 3] random (replicate 32 0) (toy_rest esk)))) (toy_rest esk).
Definition toy_record (esk random : bytes) (time : Z) : bytes := record_of [3; 1] (message (toy_body esk random time)).

Lemma reality_auth_witness :
  let esk := replicate 32 9 in let random := replicate 32 5 in let r := toy_record esk random 1000 in
  accept_auth toy_cfg (1010 * second) (r ++ [23; 3]) =
    Some (Ok (r, auth_key esk (x25519_public (replicate 32 7)) random), [23; 3]).
Proof.
  intros esk random r.
  refine (proj2 (reality_auth toy_cfg (1010 * second) (replicate 32 7) (replicate 8 0) _ _ _)
    esk random [3; 1] [3; 3] [1; 0; 0; 0] 1000 (toy_rest esk)
    (default (mkHello [] None None) (parse_hello (toy_body esk random 1000)))
    [XSni [(0, lit "a.b")]; XKeyShare (toy_rest esk)] [23; 3] _ _ _ _ _ _ _ _ _ _ _ _);
    vm_compute; try done; split; done.
Defined.

End RealityToy.

End Reality.
Export Reality.
