(* ===== verification/RealityStream.v ===== *)
(** * REALITY streams: [protocol/vless/src/reality.rs]

    A TLS connection of the patched rustls over a socket, on the server
    ([RealityServerStream]) and on the client ([RealityStream]): the handshake,
    the four poll functions, and the switch to the bare socket that Vision asks
    for.  The connection is third-party code: a parameter with what its
    documentation says of its buffers.  A loop that has no fuel left answers
    [None]; the scripts of the socket bound every loop. *)

From S2P Require Import Prelude Io Address Lru Relay.

Module RealityIo.

(** ** The connection *)

(** [wire_in] is what it was fed, in order; [pending] the ciphertext it has yet
    to send, of which one [write_tls] offers a part.  [room] is how much one
    [read_tls] takes, an error when the buffer is full.  [reader_read] answers an
    error when there is nothing to read yet. *)
Class TlsConn : Type := {
  conn : Type;
  wire_in : conn -> bytes;
  pending : conn -> bytes;
  offer : conn -> nat;
  room : conn -> res nat;
  wants_read : conn -> bool;
  is_handshaking : conn -> bool;
  tls_sent : conn -> nat -> conn;
  tls_take : conn -> bytes -> conn;
  process : conn -> conn * res unit;
  reader_read : conn -> nat -> conn * res bytes;
  writer_write : conn -> bytes -> conn * res nat;
  close_notify : conn -> conn;
  offer_some : forall c, pending c <> [] -> (0 < offer c <= length (pending c))%nat;
  pending_sent : forall c n, pending (tls_sent c n) = drop n (pending c);
  pending_take : forall c d, pending (tls_take c d) = pending c;
  pending_read : forall c n, pending (fst (reader_read c n)) = pending c;
  pending_process : forall c, pending c `prefix_of` pending (fst (process c));
  pending_write : forall c b, pending c `prefix_of` pending (fst (writer_write c b));
  pending_close : forall c, pending c `prefix_of` pending (close_notify c);
  wire_take : forall c d, wire_in (tls_take c d) = wire_in c ++ d;
  wire_sent : forall c n, wire_in (tls_sent c n) = wire_in c;
  wire_read : forall c n, wire_in (fst (reader_read c n)) = wire_in c;
  wire_process : forall c, wire_in (fst (process c)) = wire_in c;
  wire_write : forall c b, wire_in (fst (writer_write c b)) = wire_in c;
  wire_close : forall c, wire_in (close_notify c) = wire_in c }.

Section Streams.
Context {TC : TlsConn}.

Definition wants_write (c : conn) : bool := negb (bool_decide (pending c = [])).

(** [write_tls] through the bridge; [Pending] is [WouldBlock]. *)
(* src/protocol/vless/src/reality.rs:541-547 TlsBridge::write *)
Definition bridge_write (c : conn) (w : Snk) : conn * Snk * poll (res nat) :=
  if negb (wants_write c) then (c, w, Ready (Ok 0%nat))
  else
    match snk_write w (take (offer c) (pending c)) with
    | (w, Ready (Ok n)) => (tls_sent c n, w, Ready (Ok n))
    | (w, p) => (c, w, p)
    end.

(** [read_tls] through the bridge. *)
(* src/protocol/vless/src/reality.rs:526-537 TlsBridge::read *)
Definition bridge_read (safe_byte_read : bool) (c : conn) (r : Src) : conn * Src * poll (res nat) :=
  match room c with
  | Err e => (c, r, Ready (Err e))
  | Ok cap =>
    match src_read (if safe_byte_read then 1 else cap) r with
    | (r, Ready (Ok d)) => (tls_take c d, r, Ready (Ok (length d)))
    | (r, Ready (Err e)) => (c, r, Ready (Err e))
    | (r, Pending) => (c, r, Pending)
    end
  end.

(** [process_new_packets], its errors mapped. *)
Definition process_packets (c : conn) : conn * res unit :=
  match process c with (c, Ok _) => (c, Ok tt) | (c, Err _) => (c, Err EInvalidData) end.

(** ** The handshake *)

(** The loop that writes while something is taken. *)
(* src/protocol/vless/src/reality.rs:600-612 RealityServerStream::perform_handshake(writes) *)
Fixpoint handshake_writes (fuel : nat) (c : conn) (w : Snk) (progress : bool) : option (conn * Snk * res bool) :=
  match fuel with
  | O => None
  | S fuel =>
    if negb (wants_write c) then Some (c, w, Ok progress)
    else
      match bridge_write c w with
      | (c, w, Ready (Ok n)) => if (0 <? n)%nat then handshake_writes fuel c w true else Some (c, w, Ok progress)
      | (c, w, Ready (Err e)) => Some (c, w, Err e)
      | (c, w, Pending) => Some (c, w, Ok progress)
      end
  end.

(** One read of the handshake: what the first record leaves, or the socket. *)
(* src/protocol/vless/src/reality.rs:614-629 RealityServerStream::perform_handshake(read) *)
Definition handshake_read (c : conn) (r : Src) (initial : option bytes) : conn * Src * option bytes * poll (res nat) :=
  match initial with
  | Some d =>
    match room c with
    | Err e => (c, r, Some d, Ready (Err e))
    | Ok cap =>
      let rest := drop cap d in
      (tls_take c (take cap d), r, if bool_decide (rest = []) then None else Some rest, Ready (Ok (length (take cap d))))
    end
  | None => let '(c, r, p) := bridge_read false c r in (c, r, None, p)
  end.

(** One poll of the handshake; the client has no first record. *)
(* src/protocol/vless/src/reality.rs:595-661 RealityServerStream::perform_handshake *)
Fixpoint handshake_poll (fuel : nat) (c : conn) (r : Src) (w : Snk) (initial : option bytes)
  : option (conn * Src * Snk * option bytes * poll (res unit)) :=
  match fuel with
  | O => None
  | S fuel =>
    if negb (is_handshaking c) then Some (c, r, w, initial, Ready (Ok tt))
    else
      match handshake_writes (S (length (sk_writes w))) c w false with
      | None => None
      | Some (c, w, Err e) => Some (c, r, w, initial, Ready (Err e))
      | Some (c, w, Ok progress) =>
        if wants_read c then
          match handshake_read c r initial with
          | (c, r, initial, Ready (Ok O)) => Some (c, r, w, initial, Ready (Err EUnexpectedEof))
          | (c, r, initial, Ready (Ok _)) =>
            match process_packets c with
            | (c, Ok _) => handshake_poll fuel c r w initial
            | (c, Err e) => Some (c, r, w, initial, Ready (Err e))
            end
          | (c, r, initial, Ready (Err e)) => Some (c, r, w, initial, Ready (Err e))
          | (c, r, initial, Pending) =>
            if progress then handshake_poll fuel c r w initial else Some (c, r, w, initial, Pending)
          end
        else if progress then handshake_poll fuel c r w initial
        else Some (c, r, w, initial, Pending)
      end
  end.

(** ** The server *)

(** [shared_read_raw] is set from outside: what it holds is an argument of the read. *)
(* src/protocol/vless/src/reality.rs:571-576 RealityServerStream *)
Record Server : Type := mkServer { s_conn : conn; s_r : Src; s_w : Snk; s_raw : bool }.

(* src/protocol/vless/src/reality.rs:579-593 RealityServerStream::new *)
Definition server_new (c : conn) (r : Src) (w : Snk) : Server := mkServer c r w false.

(** At most one byte is read from the socket. *)
(* src/protocol/vless/src/reality.rs:663-683 RealityServerStream::pump_read *)
Definition pump_read (c : conn) (r : Src) : conn * Src * res nat :=
  if negb (wants_read c) then (c, r, Ok 0%nat)
  else
    match bridge_read true c r with
    | (c, r, Ready (Ok O)) => (c, r, Err EUnexpectedEof)
    | (c, r, Ready (Ok n)) =>
      match process_packets c with (c, Ok _) => (c, r, Ok n) | (c, Err e) => (c, r, Err e) end
    | (c, r, Pending) => (c, r, Ok 0%nat)
    | (c, r, Ready (Err e)) => (c, r, Err e)
    end.

(* src/protocol/vless/src/reality.rs:685-699 RealityServerStream::pump_write *)
Fixpoint pump_write (fuel : nat) (c : conn) (w : Snk) : option (conn * Snk * res bool) :=
  match fuel with
  | O => None
  | S fuel =>
    if negb (wants_write c) then Some (c, w, Ok true)
    else
      match bridge_write c w with
      | (c, w, Ready (Ok _)) => pump_write fuel c w
      | (c, w, Pending) => Some (c, w, Ok false)
      | (c, w, Ready (Err e)) => Some (c, w, Err e)
      end
  end.

Definition pump (c : conn) (w : Snk) : option (conn * Snk * res bool) := pump_write (S (length (sk_writes w))) c w.

(** [Ok(n) if n > 0]. *)
Definition some_data (x : res bytes) : option bytes := match x with Ok (b :: d) => Some (b :: d) | _ => None end.

(** The loop of [poll_read]. *)
(* src/protocol/vless/src/reality.rs:724-745 RealityServerStream::poll_read(loop) *)
Fixpoint server_read_loop (fuel cap : nat) (c : conn) (r : Src) (w : Snk) : option (conn * Src * Snk * poll (res bytes)) :=
  match fuel with
  | O => None
  | S fuel =>
    let '(c, x) := reader_read c cap in
    match some_data x with
    | Some d => Some (c, r, w, Ready (Ok d))
    | None =>
      if wants_read c then
        match pump_read c r with
        | (c, r, Err e) => Some (c, r, w, Ready (Err e))
        | (c, r, Ok O) => Some (c, r, w, Pending)
        | (c, r, Ok _) => server_read_loop fuel cap c r w
        end
      else if wants_write c then
        match pump c w with
        | None => None
        | Some (c, w, Err e) => Some (c, r, w, Ready (Err e))
        | Some (c, w, Ok _) => Some (c, r, w, Pending)
        end
      else Some (c, r, w, Ready (Ok []))
    end
  end.

(** Enough for every loop that reads. *)
Definition read_fuel (r : Src) : nat := S (S (length (src_r r) + length (r_bytes (src_r r)))).

(* src/protocol/vless/src/reality.rs:703-746 RealityServerStream::poll_read *)
Definition server_poll_read (s : Server) (shared : bool) (cap : nat) : option (Server * poll (res bytes)) :=
  let raw := s_raw s || shared in
  if raw then let '(r, p) := src_read cap (s_r s) in Some (mkServer (s_conn s) r (s_w s) true, p)
  else
    match pump (s_conn s) (s_w s) with
    | None => None
    | Some (c, w, Err e) => Some (mkServer c (s_r s) w false, Ready (Err e))
    | Some (c, w, Ok _) =>
      match server_read_loop (read_fuel (s_r s)) cap c (s_r s) w with
      | None => None
      | Some (c, r, w, p) => Some (mkServer c r w false, p)
      end
    end.

(* src/protocol/vless/src/reality.rs:750-759 RealityServerStream::poll_write *)
Definition server_poll_write (s : Server) (buf : bytes) : option (Server * poll (res nat)) :=
  match writer_write (s_conn s) buf with
  | (c, Err e) => Some (mkServer c (s_r s) (s_w s) (s_raw s), Ready (Err e))
  | (c, Ok n) =>
    match pump c (s_w s) with
    | None => None
    | Some (c, w, Err e) => Some (mkServer c (s_r s) w (s_raw s), Ready (Err e))
    | Some (c, w, Ok _) => Some (mkServer c (s_r s) w (s_raw s), Ready (Ok n))
    end
  end.

(** [writer().flush()] does nothing. *)
(* src/protocol/vless/src/reality.rs:761-768 RealityServerStream::poll_flush *)
Definition server_poll_flush (s : Server) : option (Server * poll (res unit)) :=
  match pump (s_conn s) (s_w s) with
  | None => None
  | Some (c, w, Err e) => Some (mkServer c (s_r s) w (s_raw s), Ready (Err e))
  | Some (c, w, Ok false) => Some (mkServer c (s_r s) w (s_raw s), Pending)
  | Some (c, w, Ok true) => let '(w, p) := snk_flush w in Some (mkServer c (s_r s) w (s_raw s), p)
  end.

(* src/protocol/vless/src/reality.rs:770-775 RealityServerStream::poll_shutdown *)
Definition server_poll_shutdown (s : Server) : option (Server * poll (res unit)) :=
  match pump (close_notify (s_conn s)) (s_w s) with
  | None => None
  | Some (c, w, Err e) => Some (mkServer c (s_r s) w (s_raw s), Ready (Err e))
  | Some (c, w, Ok _) => let '(w, p) := snk_shutdown w in Some (mkServer c (s_r s) w (s_raw s), p)
  end.

(** ** The client *)

(** [wr_buf] is the ciphertext taken out of the connection, sent up to [wr_pos]. *)
(* src/protocol/vless/src/reality.rs:778-785 RealityStream *)
Record Client : Type := mkClient {
  k_conn : conn; k_r : Src; k_w : Snk; wr_buf : bytes; wr_pos : nat; k_raw : bool }.

(* src/protocol/vless/src/reality.rs:788-805 RealityStream::new *)
Definition client_new (c : conn) (r : Src) (w : Snk) : Client := mkClient c r w [] 0 false.

(** [write_tls] into a vector takes all that is offered. *)
Fixpoint drain_tls (fuel : nat) (c : conn) (out : bytes) : conn * bytes :=
  match fuel with
  | O => (c, out)
  | S fuel =>
    if wants_write c then drain_tls fuel (tls_sent c (offer c)) (out ++ take (offer c) (pending c)) else (c, out)
  end.

(* src/protocol/vless/src/reality.rs:932-941 RealityStream::produce_tls_output *)
Definition produce_tls_output (s : Client) : Client :=
  let fresh := (wr_pos s =? length (wr_buf s))%nat in
  let '(c, out) := drain_tls (length (pending (k_conn s))) (k_conn s) (if fresh then [] else wr_buf s) in
  mkClient c (k_r s) (k_w s) out (if fresh then 0%nat else wr_pos s) (k_raw s).

(* src/protocol/vless/src/reality.rs:943-957 RealityStream::poll_flush_wr *)
Fixpoint poll_flush_wr (fuel : nat) (buf : bytes) (pos : nat) (w : Snk) : option (bytes * nat * Snk * poll (res unit)) :=
  match fuel with
  | O => None
  | S fuel =>
    if (pos <? length buf)%nat then
      match snk_write w (drop pos buf) with
      | (w, Ready (Ok O)) => Some (buf, pos, w, Ready (Err EWriteZero))
      | (w, Ready (Ok n)) => poll_flush_wr fuel buf (pos + n) w
      | (w, Ready (Err e)) => Some (buf, pos, w, Ready (Err e))
      | (w, Pending) => Some (buf, pos, w, Pending)
      end
    else Some ([], 0%nat, w, Ready (Ok tt))
  end.

Definition flush_wr (s : Client) : option (Client * poll (res unit)) :=
  match poll_flush_wr (S (length (sk_writes (k_w s)))) (wr_buf s) (wr_pos s) (k_w s) with
  | None => None
  | Some (buf, pos, w, p) => Some (mkClient (k_conn s) (k_r s) w buf pos (k_raw s), p)
  end.

(** [read_tls(&mut Cursor::new(d))?] and [process_new_packets()?]: what the
    connection has no room for is dropped with the cursor. *)
(* src/protocol/vless/src/reality.rs:1005-1008 RealityStream::poll_read(read_tls) *)
Definition feed_tls (c : conn) (d : bytes) : conn * res unit :=
  match room c with
  | Err e => (c, Err e)
  | Ok cap => process_packets (tls_take c (take cap d))
  end.

Definition READ_SIZE : nat := 4096.

(** The read of the socket: [None] is another round. *)
(* src/protocol/vless/src/reality.rs:997-1012 RealityStream::poll_read(socket) *)
Definition client_fill (s : Client) : Client * option (poll (res bytes)) :=
  let back c r := mkClient c r (k_w s) (wr_buf s) (wr_pos s) (k_raw s) in
  match src_read READ_SIZE (k_r s) with
  | (r, Ready (Ok [])) => (back (k_conn s) r, Some (Ready (Ok [])))
  | (r, Ready (Ok d)) =>
    match feed_tls (k_conn s) d with
    | (c, Ok _) => (back c r, None)
    | (c, Err e) => (back c r, Some (Ready (Err e)))
    end
  | (r, Ready (Err e)) => (back (k_conn s) r, Some (Ready (Err e)))
  | (r, Pending) => (back (k_conn s) r, Some Pending)
  end.

(* src/protocol/vless/src/reality.rs:981-1013 RealityStream::poll_read(loop) *)
Fixpoint client_read_loop (fuel cap : nat) (s : Client) : option (Client * poll (res bytes)) :=
  match fuel with
  | O => None
  | S fuel =>
    let '(c, x) := reader_read (k_conn s) cap in
    let s := mkClient c (k_r s) (k_w s) (wr_buf s) (wr_pos s) (k_raw s) in
    match some_data x with
    | Some d => Some (s, Ready (Ok d))
    | None =>
      match flush_wr (produce_tls_output s) with
      | None => None
      | Some (s, Ready (Err e)) => Some (s, Ready (Err e))
      | Some (s, _) =>
        match client_fill s with
        | (s, Some p) => Some (s, p)
        | (s, None) => client_read_loop fuel cap s
        end
      end
    end
  end.

(* src/protocol/vless/src/reality.rs:961-1014 RealityStream::poll_read *)
Definition client_poll_read (s : Client) (shared : bool) (cap : nat) : option (Client * poll (res bytes)) :=
  if k_raw s || shared then
    let '(r, p) := src_read cap (k_r s) in Some (mkClient (k_conn s) r (k_w s) (wr_buf s) (wr_pos s) true, p)
  else client_read_loop (read_fuel (k_r s)) cap s.

(** The result of the flush after the write is ignored, errors included. *)
(* src/protocol/vless/src/reality.rs:1031-1034 RealityStream::poll_write(write) *)
Definition client_write_tls (s : Client) (buf : bytes) : option (Client * poll (res nat)) :=
  let '(c, x) := writer_write (k_conn s) buf in
  let s := mkClient c (k_r s) (k_w s) (wr_buf s) (wr_pos s) (k_raw s) in
  match x with
  | Err e => Some (s, Ready (Err e))
  | Ok n => match flush_wr (produce_tls_output s) with None => None | Some (s, _) => Some (s, Ready (Ok n)) end
  end.

(* src/protocol/vless/src/reality.rs:1018-1035 RealityStream::poll_write *)
Definition client_poll_write (s : Client) (buf : bytes) : option (Client * poll (res nat)) :=
  if (wr_pos s <? length (wr_buf s))%nat then
    match flush_wr s with
    | None => None
    | Some (s, Ready (Ok _)) => client_write_tls s buf
    | Some (s, Ready (Err e)) => Some (s, Ready (Err e))
    | Some (s, Pending) => Some (s, Pending)
    end
  else client_write_tls s buf.

(** What is in the connection and the buffer, then the socket's own flush or shutdown. *)
Definition client_finish (last : Snk -> Snk * poll (res unit)) (s : Client) : option (Client * poll (res unit)) :=
  match flush_wr (produce_tls_output s) with
  | None => None
  | Some (s, Ready (Ok _)) =>
    let '(w, p) := last (k_w s) in Some (mkClient (k_conn s) (k_r s) w (wr_buf s) (wr_pos s) (k_raw s), p)
  | Some (s, p) => Some (s, p)
  end.

(* src/protocol/vless/src/reality.rs:1037-1047 RealityStream::poll_flush *)
Definition client_poll_flush (s : Client) : option (Client * poll (res unit)) := client_finish snk_flush s.

(* src/protocol/vless/src/reality.rs:1049-1059 RealityStream::poll_shutdown *)
Definition client_poll_shutdown (s : Client) : option (Client * poll (res unit)) :=
  client_finish snk_shutdown (mkClient (close_notify (k_conn s)) (k_r s) (k_w s) (wr_buf s) (wr_pos s) (k_raw s)).

(** ** Runs *)

Inductive op : Type := ORead (shared : bool) (cap : nat) | OWrite (buf : bytes) | OFlush | OShutdown.

(** A step, and what a read gave. *)
Definition server_step (s : Server) (o : op) : option (Server * bytes) :=
  match o with
  | ORead shared cap =>
    match server_poll_read s shared cap with
    | Some (s, Ready (Ok d)) => Some (s, d) | Some (s, _) => Some (s, []) | None => None end
  | OWrite buf => match server_poll_write s buf with Some (s, _) => Some (s, []) | None => None end
  | OFlush => match server_poll_flush s with Some (s, _) => Some (s, []) | None => None end
  | OShutdown => match server_poll_shutdown s with Some (s, _) => Some (s, []) | None => None end
  end.

Definition client_step (s : Client) (o : op) : option (Client * bytes) :=
  match o with
  | ORead shared cap =>
    match client_poll_read s shared cap with
    | Some (s, Ready (Ok d)) => Some (s, d) | Some (s, _) => Some (s, []) | None => None end
  | OWrite buf => match client_poll_write s buf with Some (s, _) => Some (s, []) | None => None end
  | OFlush => match client_poll_flush s with Some (s, _) => Some (s, []) | None => None end
  | OShutdown => match client_poll_shutdown s with Some (s, _) => Some (s, []) | None => None end
  end.

(** ** Writing *)

(** What has reached the socket or waits for it. *)
Definition line (c : conn) (w : Snk) : bytes := sk_out w ++ pending c.

Lemma snk_write_left w buf w' x : snk_write w buf = (w', Ready x) -> S (length (sk_writes w')) = length (sk_writes w).
Proof. unfold snk_write. by destruct (sk_writes w) as [|[|e|n] l] eqn:E; intros [= <- <-]. Qed.

Lemma bridge_write_spec c w c' w' p : wants_write c = true -> bridge_write c w = (c', w', p) ->
  line c' w' = line c w /\ wire_in c' = wire_in c /\ (p <> Pending -> S (length (sk_writes w')) = length (sk_writes w)).
Proof.
  unfold bridge_write, line. intros Hw. rewrite Hw. cbn [negb]. unfold wants_write in Hw. bools.
  destruct (snk_write w _) as [w1 p1] eqn:Es. pose proof (snk_write_spec _ _ _ _ Es) as (_ & Ho).
  destruct p1 as [|[n|e]]; intros [= <- <- <-].
  - destruct Ho as [-> _]. by split_and!.
  - destruct Ho as [Hn ->]. rewrite pending_sent, wire_sent. split_and!; [|done|intros _; by eapply snk_write_left].
    rewrite length_take in Hn. rewrite take_take, Nat.min_l, <- app_assoc, take_drop by lia. done.
  - rewrite Ho. split_and!; [done..|]. intros _. by eapply snk_write_left.
Qed.

Lemma wants_write_false c : wants_write c = false -> pending c = [].
Proof. unfold wants_write. intros H. by apply negb_false_iff, bool_decide_eq_true in H. Qed.

Lemma pump_write_spec fuel : forall c w, (length (sk_writes w) < fuel)%nat ->
  match pump_write fuel c w with
  | None => False
  | Some (c', w', r) => line c' w' = line c w /\ wire_in c' = wire_in c /\ (r = Ok true -> pending c' = [])
  end.
Proof.
  induction fuel as [|fuel IH]; intros c w Hf; [lia|]. cbn [pump_write].
  destruct (wants_write c) eqn:Hw; cbn [negb].
  2: { split_and!; [done..|]. intros _. by apply wants_write_false. }
  destruct (bridge_write c w) as [[c1 w1] p] eqn:Eb. pose proof (bridge_write_spec _ _ _ _ _ Hw Eb) as (El & Ew & Hl).
  destruct p as [|[n|e]].
  - by split_and!.
  - specialize (IH c1 w1). assert (length (sk_writes w1) < fuel)%nat as Hl1 by (specialize (Hl ltac:(done)); lia).
    specialize (IH Hl1). destruct (pump_write fuel c1 w1) as [[[c2 w2] r]|]; [|done].
    destruct IH as (E1 & E2 & E3). by rewrite E1, E2.
  - by split_and!.
Qed.

Lemma tls_pump_spec c w :
  match pump c w with
  | None => False
  | Some (c', w', r) => line c' w' = line c w /\ wire_in c' = wire_in c /\ (r = Ok true -> pending c' = [])
  end.
Proof. apply pump_write_spec. lia. Qed.

Lemma process_packets_spec c c' r : process_packets c = (c', r) ->
  c' = fst (process c) /\ wire_in c' = wire_in c /\ pending c `prefix_of` pending c'.
Proof.
  unfold process_packets. pose proof (wire_process c) as H1. pose proof (pending_process c) as H2.
  destruct (process c) as [c1 [|]]; intros [= <- <-]; done.
Qed.

Lemma line_extend c c' w : pending c `prefix_of` pending c' -> line c w `prefix_of` line c' w.
Proof. apply prefix_app. Qed.

(** ** Reading, on the server *)

(** Bytes that were fed one at a time, each to a connection that had nothing to
    give, and only processed. *)
Definition no_data (p : conn * res bytes) : Prop := some_data (snd p) = None.

Inductive starved_feed (cap : nat) : conn -> bytes -> conn -> Prop :=
| starved_nil c : starved_feed cap c [] c
| starved_cons c b l c' : no_data (reader_read c cap) ->
    starved_feed cap (fst (process (tls_take (fst (reader_read c cap)) [b]))) l c' -> starved_feed cap c (b :: l) c'.

Lemma pump_read_spec c r c' r' x : pump_read c r = (c', r', x) ->
  exists taken, r_bytes (src_r r) = taken ++ r_bytes (src_r r') /\ wire_in c' = wire_in c ++ taken /\
    pending c `prefix_of` pending c' /\ (answers (src_r r') <= answers (src_r r))%nat /\
    match x with
    | Ok O => taken = [] /\ c' = c
    | Ok (S _) => exists b, taken = [b] /\ c' = fst (process (tls_take c [b])) /\ (answers (src_r r') < answers (src_r r))%nat
    | Err _ => taken = [] \/ exists b, taken = [b] /\ c' = fst (process (tls_take c [b]))
    end.
Proof.
  unfold pump_read, bridge_read. destruct (wants_read c) eqn:Hw; cbn [negb]; [|intros [= <- <- <-]; exists []; by rewrite app_nil_r].
  destruct (room c) as [cap|e]; [|intros [= <- <- <-]; exists []; rewrite app_nil_r; split_and!; first [done | by left | lia]].
  unfold src_read, inner_read, answers. destruct (src_r r) as [|[|e|d] l] eqn:Er; cbn [pending_read].
  - intros [= <- <- <-]. exists []. rewrite !app_nil_r. cbn. split_and!; first [done | by left | lia].
  - intros [= <- <- <-]. exists []. rewrite ?app_nil_r. cbn. split_and!; first [done | by left | lia].
  - intros [= <- <- <-]. exists []. rewrite ?app_nil_r. cbn. split_and!; first [done | by left | lia].
  - assert (Ed : d = [] \/ exists b t, d = b :: t) by (destruct d; [by left|right; by eexists _, _]).
    destruct Ed as [->|(b & t & ->)].
    { cbn. intros [= <- <- <-]. exists []. rewrite wire_take, pending_take. cbn. split_and!; first [done | by left | lia]. }
    assert (E : exists l', (if (length (b :: t) <=? 1)%nat then (l, Ready (Ok (b :: t)))
        else (RData (drop 1 (b :: t)) :: l, Ready (Ok (take 1 (b :: t))))) = (l', Ready (Ok [b]))
        /\ r_bytes (RData (b :: t) :: l) = b :: r_bytes l' /\ (length l' + length (r_bytes l') < length (RData (b :: t) :: l) + length (r_bytes (RData (b :: t) :: l)))%nat).
    { destruct t as [|b' t]; cbn [length Nat.leb]; eexists; (split; [reflexivity|]); cbn; rewrite ?length_app; split; try done; lia. }
    destruct E as (l' & -> & Eb & Hl). cbn [pending_read length] in *.
    destruct (process_packets (tls_take c [b])) as [c1 x1] eqn:Ep. pose proof (process_packets_spec _ _ _ Ep) as (Ec & Ew & Hp).
    rewrite wire_take in Ew. rewrite pending_take in Hp.
    destruct x1; intros [= <- <- <-]; exists [b]; cbn [src_r app]; (split_and!; try done; [lia|]); eauto.
Qed.

Lemma server_read_loop_spec cap fuel : forall c r w, (answers (src_r r) < fuel)%nat ->
  match server_read_loop fuel cap c r w with
  | None => False
  | Some (c', r', w', p) =>
    line c w `prefix_of` line c' w' /\
    exists taken c1, r_bytes (src_r r) = taken ++ r_bytes (src_r r') /\ wire_in c' = wire_in c ++ taken /\
      starved_feed cap c taken c1 /\
      (forall d, p = Ready (Ok d) -> d <> [] -> exists x, reader_read c1 cap = (c', x) /\ some_data x = Some d)
  end.
Proof.
  induction fuel as [|fuel IH]; intros c r w Hf; [lia|]. cbn [server_read_loop].
  pose proof (pending_read c cap) as Hp. pose proof (wire_read c cap) as Hi.
  destruct (reader_read c cap) as [c0 x] eqn:Ex. cbn [fst] in Hp, Hi.
  assert (Hl : line c w = line c0 w) by (unfold line; by rewrite Hp). rewrite Hl, <- Hi.
  destruct (some_data x) as [d|] eqn:Ed.
  { split; [done|]. exists [], c. rewrite app_nil_r. split_and!; [done|done|constructor|]. intros d' [= <-] _. by exists x. }
  destruct (wants_read c0).
  - destruct (pump_read c0 r) as [[c2 r2] n] eqn:Er.
    destruct (pump_read_spec _ _ _ _ _ Er) as (tk & Hb & Hw & Hpre & Ha & Hn).
    assert (Hs : forall b c', starved_feed cap (fst (process (tls_take c0 [b]))) [] c' -> starved_feed cap c [b] c')
      by (intros b c' H; apply starved_cons; [by unfold no_data; rewrite Ex|by rewrite Ex]).
    destruct n as [[|n]|e].
    + split; [by apply line_extend|]. destruct Hn as [-> ->]. exists [], c. split_and!; [done|done|constructor|done].
    + destruct Hn as (b & -> & Ec & Hlt). specialize (IH c2 r2 w ltac:(lia)).
      destruct (server_read_loop fuel cap c2 r2 w) as [[[[c3 r3] w3] p]|]; [|done].
      destruct IH as (Hx & tk & c1 & E1 & E2 & E3 & E4). split; [etrans; [by apply line_extend|done]|].
      exists (b :: tk), c1. rewrite Hb, E1, E2, Hw, <- app_assoc. split_and!; try done.
      apply starved_cons; [by unfold no_data; rewrite Ex|]. rewrite Ex. cbn [fst]. by rewrite <- Ec.
    + split; [by apply line_extend|]. destruct Hn as [->|(b & -> & ->)].
      * exists [], c. split_and!; [done|done|constructor|done].
      * exists [b], (fst (process (tls_take c0 [b]))). split_and!; [done|done| |done]. apply Hs. constructor.
  - destruct (wants_write c0).
    + pose proof (tls_pump_spec c0 w) as H. destruct (pump c0 w) as [[[c2 w2] [?|?]]|]; [| |done];
        destruct H as (-> & -> & _); (split; [done|]); exists [], c; rewrite app_nil_r; split_and!; first [done|constructor].
    + split; [done|]. exists [], c. rewrite app_nil_r. split_and!; [done|done|constructor|]. by intros d [= <-].
Qed.

(** A connection that has something to give once it was fed [rec] is not fed past it. *)
Lemma starved_not_past cap c l c' : starved_feed cap c l c' -> forall rec more rest,
  l ++ rest = rec ++ more -> (forall x, starved_feed cap c rec x -> ~ no_data (reader_read x cap)) ->
  (length l <= length rec)%nat.
Proof.
  induction 1 as [c|c b l c' Hn Hf IH]; intros rec more rest El Hx; [cbn; lia|].
  destruct rec as [|b' rec]; [exfalso; apply (Hx c); [constructor|done]|].
  cbn [app] in El. injection El as -> El. cbn [length]. apply le_n_S, (IH _ _ _ El).
  intros x E. apply Hx. by constructor.
Qed.

Definition server_line (s : Server) : bytes := line (s_conn s) (s_w s).
Definition data_of (p : poll (res bytes)) : bytes := match p with Ready (Ok d) => d | _ => [] end.

Lemma src_read_bytes cap r r' p : src_read cap r = (r', p) -> r_bytes (src_r r) = data_of p ++ r_bytes (src_r r').
Proof.
  unfold src_read. destruct (inner_read cap (src_r r)) as [l q] eqn:E. apply inner_read_bytes in E.
  intros [= <- <-]. cbn [src_r]. destruct q as [|[d|e]]; [done|by destruct E|done].
Qed.

Lemma server_poll_read_spec s shared cap :
  match server_poll_read s shared cap with
  | None => False
  | Some (s', p) =>
    server_line s `prefix_of` server_line s' /\ s_raw s' = s_raw s || shared /\
    if s_raw s' then wire_in (s_conn s') = wire_in (s_conn s) /\ r_bytes (src_r (s_r s)) = data_of p ++ r_bytes (src_r (s_r s'))
    else exists taken c c1, r_bytes (src_r (s_r s)) = taken ++ r_bytes (src_r (s_r s')) /\
      (exists w x, pump (s_conn s) (s_w s) = Some (c, w, x)) /\
      wire_in c = wire_in (s_conn s) /\ wire_in (s_conn s') = wire_in c ++ taken /\ starved_feed cap c taken c1 /\
      (forall d, p = Ready (Ok d) -> d <> [] -> exists x, reader_read c1 cap = (s_conn s', x) /\ some_data x = Some d)
  end.
Proof.
  unfold server_poll_read. destruct (s_raw s || shared) eqn:Eraw.
  - destruct (src_read cap (s_r s)) as [r p] eqn:E. apply src_read_bytes in E. by split_and!.
  - pose proof (tls_pump_spec (s_conn s) (s_w s)) as H. destruct (pump _ _) as [[[c w] [b|e]]|] eqn:Ep; [| |done].
    + destruct H as (El & Ew & _). pose proof (server_read_loop_spec cap (read_fuel (s_r s)) c (s_r s) w) as Hl.
      assert (Hf : (answers (src_r (s_r s)) < read_fuel (s_r s))%nat) by (unfold answers, read_fuel; lia).
      specialize (Hl Hf). destruct (server_read_loop _ _ _ _ _) as [[[[c' r'] w'] p]|]; [|done].
      destruct Hl as (Hl & tk & c1 & H1 & H2 & H3 & H4). unfold server_line. cbn [s_conn s_w s_raw s_r]. rewrite <- El.
      split_and!; [done|done|]. exists tk, c, c1. split_and!; try done. by eexists _, _.
    + destruct H as (El & Ew & _). unfold server_line. cbn [s_conn s_w s_raw s_r]. rewrite El. split_and!; [done|done|].
      exists [], c, c. rewrite app_nil_r. split_and!; [done|by eexists _, _|done|done|constructor|done].
Qed.

Lemma pump_extends s c : pending (s_conn s) `prefix_of` pending c -> wire_in c = wire_in (s_conn s) ->
  match pump c (s_w s) with
  | None => False
  | Some (c', w', _) => server_line s `prefix_of` line c' w' /\ wire_in c' = wire_in (s_conn s)
  end.
Proof.
  intros Hp Hw. pose proof (tls_pump_spec c (s_w s)) as H. destruct (pump c _) as [[[c' w'] x]|]; [|done].
  destruct H as (El & Ew & _). rewrite El, Ew. split; [by apply line_extend|done].
Qed.

(** A step keeps the line and accounts for the bytes of the socket: they are fed
    to the connection before the switch and given as they are after it. *)
Definition bytes_kept {S} (raw : S -> bool) (c : S -> conn) (r : S -> Src) (s s' : S) (d : bytes) : Prop :=
  (raw s = true -> raw s' = true) /\
  exists fed, wire_in (c s') = wire_in (c s) ++ fed /\
    r_bytes (src_r (r s)) = (if raw s' then fed ++ d else fed) ++ r_bytes (src_r (r s')) /\ (raw s = true -> fed = []).

Definition accounted (s s' : Server) (d : bytes) : Prop :=
  server_line s `prefix_of` server_line s' /\ bytes_kept s_raw s_conn s_r s s' d.

Lemma accounted_write s c w : server_line s `prefix_of` line c w -> wire_in c = wire_in (s_conn s) ->
  accounted s (mkServer c (s_r s) w (s_raw s)) [].
Proof.
  intros Hl Hw. split; [done|]. split; [done|]. exists []. cbn [s_conn s_raw s_r]. rewrite app_nil_r.
  by destruct (s_raw s).
Qed.

Lemma server_step_spec s o : match server_step s o with None => False | Some (s', d) => accounted s s' d end.
Proof.
  destruct o as [shared cap|buf| |]; cbn [server_step].
  - pose proof (server_poll_read_spec s shared cap) as H. destruct (server_poll_read s shared cap) as [[s' p]|]; [|done].
    destruct H as (Hl & Hr & H). enough (E : accounted s s' (data_of p)) by (by destruct p as [|[|]]).
    split; [done|]. split; [intros E; by rewrite Hr, E|]. destruct (s_raw s').
    + exists []. rewrite app_nil_r. by destruct H.
    + destruct H as (tk & c & c1 & H1 & _ & H2 & H3 & _). exists tk. rewrite H3, H2. split_and!; [done|done|].
      intros E. by rewrite E in Hr.
  - unfold server_poll_write. pose proof (pending_write (s_conn s) buf) as Hp. pose proof (wire_write (s_conn s) buf) as Hw.
    destruct (writer_write (s_conn s) buf) as [c [n|e]]; cbn [fst] in *.
    + pose proof (pump_extends s c Hp Hw) as H. destruct (pump c _) as [[[c' w'] [b|e]]|]; [| |done];
        apply accounted_write; by destruct H.
    + apply accounted_write; [by apply line_extend|done].
  - unfold server_poll_flush. pose proof (pump_extends s (s_conn s) ltac:(done) eq_refl) as H.
    destruct (pump _ _) as [[[c' w'] [[|]|e]]|]; [| | |done]; try (apply accounted_write; by destruct H).
    destruct (snk_flush w') as [w p] eqn:Ef. apply snk_flush_spec in Ef as [Ef _]. apply accounted_write; [|by destruct H].
    unfold line in *. rewrite Ef. by destruct H.
  - unfold server_poll_shutdown. pose proof (pump_extends s _ (pending_close (s_conn s)) (wire_close _)) as H.
    destruct (pump _ _) as [[[c' w'] [b|e]]|]; [| |done]; try (apply accounted_write; by destruct H).
    destruct (snk_shutdown w') as [w p] eqn:Ef. apply snk_shutdown_spec in Ef as [Ef _]. apply accounted_write; [|by destruct H].
    unfold line in *. rewrite Ef. by destruct H.
Qed.

(** ** The client *)

Definition client_ok (s : Client) : Prop := (wr_pos s <= length (wr_buf s))%nat.
Definition client_line (s : Client) : bytes := sk_out (k_w s) ++ drop (wr_pos s) (wr_buf s) ++ pending (k_conn s).

(** What a step of the client that does not read may do. *)
Definition quiet (s s' : Client) : Prop :=
  client_ok s' /\ client_line s `prefix_of` client_line s' /\ wire_in (k_conn s') = wire_in (k_conn s) /\
  k_r s' = k_r s /\ k_raw s' = k_raw s.

#[global] Instance quiet_trans : Transitive quiet.
Proof. intros s1 s2 s3 (A1 & A2 & A3 & A4 & A5) (B1 & B2 & B3 & B4 & B5). split_and!; try congruence. by etrans. Qed.

Lemma drain_tls_spec fuel : forall c out c' out', (length (pending c) <= fuel)%nat -> drain_tls fuel c out = (c', out') ->
  out' = out ++ pending c /\ pending c' = [] /\ wire_in c' = wire_in c.
Proof.
  induction fuel as [|fuel IH]; intros c out c' out' Hf; cbn [drain_tls].
  - intros [= <- <-]. apply Nat.le_0_r, nil_length_inv in Hf. by rewrite Hf, app_nil_r.
  - destruct (wants_write c) eqn:Hw; [|intros [= <- <-]; apply wants_write_false in Hw; by rewrite Hw, app_nil_r].
    unfold wants_write in Hw. apply negb_true_iff, bool_decide_eq_false in Hw. pose proof (offer_some c Hw) as Ho.
    intros H. apply IH in H as (-> & H2 & H3); [|rewrite pending_sent, length_drop; lia].
    rewrite pending_sent, <- app_assoc, take_drop, H3, wire_sent. done.
Qed.

Lemma produce_spec s : client_ok s -> quiet s (produce_tls_output s) /\
  client_line (produce_tls_output s) = client_line s /\ pending (k_conn (produce_tls_output s)) = [].
Proof.
  unfold client_ok. intros Hok. unfold produce_tls_output. destruct (drain_tls _ _ _) as [c out] eqn:E.
  apply drain_tls_spec in E as (-> & Hp & Hw); [|done].
  enough (H : client_line (mkClient c (k_r s) (k_w s) ((if (wr_pos s =? length (wr_buf s))%nat then [] else wr_buf s) ++ pending (k_conn s))
    (if (wr_pos s =? length (wr_buf s))%nat then 0%nat else wr_pos s) (k_raw s)) = client_line s).
  { split; [|done]. unfold quiet. split_and!; [|by rewrite H|done..]. unfold client_ok. cbn [wr_pos wr_buf]. rewrite length_app.
    destruct (wr_pos s =? _)%nat; lia. }
  unfold client_line. cbn [k_w k_conn wr_pos wr_buf]. rewrite Hp, app_nil_r. f_equal.
  destruct (wr_pos s =? _)%nat eqn:Ef; bools.
  - by rewrite Ef, drop_all.
  - by rewrite drop_app_le.
Qed.

Lemma poll_flush_wr_spec fuel : forall buf pos w, (length (sk_writes w) < fuel)%nat -> (pos <= length buf)%nat ->
  match poll_flush_wr fuel buf pos w with
  | None => False
  | Some (buf', pos', w', p) =>
    (pos' <= length buf')%nat /\ sk_out w' ++ drop pos' buf' = sk_out w ++ drop pos buf /\
    (p = Ready (Ok tt) -> drop pos' buf' = [])
  end.
Proof.
  induction fuel as [|fuel IH]; intros buf pos w Hf Hp; [lia|]. cbn [poll_flush_wr].
  destruct (pos <? length buf)%nat eqn:E; bools.
  2: { split_and!; [done| |done]. by rewrite (drop_ge buf) by lia. }
  destruct (snk_write w (drop pos buf)) as [w1 p] eqn:Ew. pose proof (snk_write_spec _ _ _ _ Ew) as (_ & Ho).
  destruct p as [|[[|n]|e]].
  - destruct Ho as [-> _]. by split_and!.
  - destruct Ho as [_ ->]. by rewrite take_0, app_nil_r.
  - destruct Ho as [Hn Ho]. rewrite length_drop in Hn. apply snk_write_left in Ew.
    specialize (IH buf (pos + S n)%nat w1 ltac:(lia) ltac:(lia)).
    destruct (poll_flush_wr fuel buf _ w1) as [[[[b' p'] w'] q]|]; [|done]. destruct IH as (H1 & H2 & H3).
    split_and!; [done| |done]. rewrite H2, Ho, <- app_assoc. f_equal. rewrite <- drop_drop. apply take_drop.
  - by rewrite Ho.
Qed.

Lemma flush_spec s : client_ok s ->
  match flush_wr s with
  | None => False
  | Some (s', p) => quiet s s' /\ client_line s' = client_line s /\ k_conn s' = k_conn s /\
      (p = Ready (Ok tt) -> drop (wr_pos s') (wr_buf s') = [])
  end.
Proof.
  intros Hok. unfold flush_wr. pose proof (poll_flush_wr_spec (S (length (sk_writes (k_w s)))) (wr_buf s) (wr_pos s) (k_w s) ltac:(lia) Hok) as H.
  destruct (poll_flush_wr _ _ _ _) as [[[[b p] w] q]|]; [|done]. destruct H as (H1 & H2 & H3).
  assert (E : client_line (mkClient (k_conn s) (k_r s) w b p (k_raw s)) = client_line s)
    by (unfold client_line; cbn [k_w k_conn wr_pos wr_buf]; by rewrite !app_assoc, H2).
  split_and!; try done. unfold quiet. rewrite E. by split_and!.
Qed.

(** Both, as every operation does them. *)
Lemma produce_flush_spec s : client_ok s ->
  match flush_wr (produce_tls_output s) with
  | None => False
  | Some (s', p) => quiet s s' /\ client_line s' = client_line s /\
      (p = Ready (Ok tt) -> sk_out (k_w s') = client_line s)
  end.
Proof.
  intros Hok. destruct (produce_spec s Hok) as (Q1 & L1 & P1). pose proof (flush_spec _ (proj1 Q1)) as H.
  destruct (flush_wr _) as [[s' p]|]; [|done]. destruct H as (Q2 & L2 & C2 & D2). rewrite L2, L1.
  split_and!; [by etrans|done|]. intros Hp. rewrite <- L1, <- L2. unfold client_line. by rewrite (D2 Hp), C2, P1, !app_nil_r.
Qed.

(** The connection takes all of a read at once. *)
Definition roomy : Prop := forall c, exists cap, room c = Ok cap /\ (READ_SIZE <= cap)%nat.

Lemma feed_tls_spec c d c' x : (length d <= READ_SIZE)%nat -> feed_tls c d = (c', x) ->
  pending c `prefix_of` pending c' /\ exists fed, wire_in c' = wire_in c ++ fed /\ (roomy -> fed = d).
Proof.
  unfold feed_tls. intros Hd. destruct (room c) as [cap|e] eqn:Er.
  - intros H. apply process_packets_spec in H as (_ & Hw & Hp). rewrite pending_take in Hp. rewrite wire_take in Hw.
    split; [done|]. exists (take cap d). split; [done|]. intros Hr. destruct (Hr c) as (cap' & E & Hc). rewrite Er in E.
    simplify_eq. apply take_ge. lia.
  - intros [= <- <-]. split; [done|]. exists []. rewrite app_nil_r. split; [done|]. intros Hr. destruct (Hr c) as (cap' & E & _). by rewrite Er in E.
Qed.

Definition moved (s s' : Client) : Prop :=
  client_ok s' /\ client_line s `prefix_of` client_line s' /\ k_raw s' = k_raw s /\
  exists taken fed, r_bytes (src_r (k_r s)) = taken ++ r_bytes (src_r (k_r s')) /\
    wire_in (k_conn s') = wire_in (k_conn s) ++ fed /\ (roomy -> fed = taken).

Lemma quiet_moved s s' : quiet s s' -> moved s s'.
Proof. intros (A1 & A2 & A3 & A4 & A5). unfold moved. split_and!; try done. exists [], []. by rewrite A3, A4, app_nil_r. Qed.

#[global] Instance moved_trans : Transitive moved.
Proof.
  intros s1 s2 s3 (A1 & A2 & A3 & t & f & A4 & A5 & A6) (B1 & B2 & B3 & t' & f' & B4 & B5 & B6). unfold moved.
  split_and!; [done|by etrans|congruence|]. exists (t ++ t'), (f ++ f'). rewrite A4, B4, B5, A5, <- !app_assoc.
  split_and!; [done|done|]. intros R. by rewrite A6, B6.
Qed.

Lemma client_line_conn s c r raw : pending (k_conn s) `prefix_of` pending c ->
  client_line s `prefix_of` client_line (mkClient c r (k_w s) (wr_buf s) (wr_pos s) raw).
Proof. intros H. unfold client_line. cbn [k_w k_conn wr_pos wr_buf]. by do 2 apply prefix_app. Qed.

Lemma src_read_shrinks cap r r' b d : (0 < cap)%nat -> src_read cap r = (r', Ready (Ok (b :: d))) ->
  (answers (src_r r') < answers (src_r r))%nat /\ (length (b :: d) <= cap)%nat.
Proof.
  intros Hc H. split; [by destruct (src_read_spec _ _ _ _ Hc H)|]. unfold src_read in H.
  destruct (inner_read cap (src_r r)) as [l p] eqn:E. apply inner_read_bytes in E. injection H as <- ->. by destruct E.
Qed.

Lemma client_fill_spec s s' x : client_ok s -> client_fill s = (s', x) ->
  moved s s' /\ (x = None -> (answers (src_r (k_r s')) < answers (src_r (k_r s)))%nat).
Proof.
  intros Hok. unfold client_fill. destruct (src_read READ_SIZE (k_r s)) as [r p] eqn:Er. pose proof (src_read_bytes _ _ _ _ Er) as Eb.
  assert (Hstay : data_of p = [] -> moved s (mkClient (k_conn s) r (k_w s) (wr_buf s) (wr_pos s) (k_raw s))).
  { intros Hd. rewrite Hd in Eb. unfold moved. split_and!; [done|by apply client_line_conn|done|].
    exists [], []. by rewrite app_nil_r. }
  destruct p as [|[[|b d]|e]]; try (intros [= <- <-]; split; [by apply Hstay|done]).
  destruct (src_read_shrinks READ_SIZE _ _ _ _ ltac:(unfold READ_SIZE; lia) Er) as [Ha Hl].
  destruct (feed_tls (k_conn s) (b :: d)) as [c y] eqn:Ef. destruct (feed_tls_spec _ _ _ _ Hl Ef) as (Hp & fed & Hw & Hfed).
  assert (M : moved s (mkClient c r (k_w s) (wr_buf s) (wr_pos s) (k_raw s))).
  { unfold moved. split_and!; [done|by apply client_line_conn|done|]. by exists (b :: d), fed. }
  destruct y; intros [= <- <-]; split; done.
Qed.

Lemma client_read_loop_spec cap fuel : forall s, client_ok s -> (answers (src_r (k_r s)) < fuel)%nat ->
  match client_read_loop fuel cap s with None => False | Some (s', _) => moved s s' end.
Proof.
  induction fuel as [|fuel IH]; intros s Hok Hf; [lia|]. cbn [client_read_loop].
  pose proof (pending_read (k_conn s) cap) as Hp. pose proof (wire_read (k_conn s) cap) as Hi.
  destruct (reader_read (k_conn s) cap) as [c x]. cbn [fst] in Hp, Hi.
  set (s1 := mkClient c _ _ _ _ _). assert (M1 : quiet s s1).
  { unfold quiet. split_and!; try done. apply client_line_conn. by rewrite Hp. }
  destruct (some_data x); [by apply quiet_moved|]. pose proof (produce_flush_spec s1 (proj1 M1)) as H.
  destruct (flush_wr _) as [[s2 p]|]; [|done]. destruct H as (Q & _). assert (M2 : moved s s2) by (apply quiet_moved; by etrans).
  assert (Hr2 : k_r s2 = k_r s) by (destruct Q as (_ & _ & _ & -> & _); done).
  destruct (client_fill s2) as [s3 y] eqn:Ef. destruct (client_fill_spec _ _ _ (proj1 M2) Ef) as [M3 Hy]. rewrite Hr2 in Hy.
  assert (M : moved s s3) by by etrans.
  assert (E : match match y with Some q => Some (s3, q) | None => client_read_loop fuel cap s3 end with
    | Some (s', _) => moved s s' | None => False end).
  { destruct y; [done|]. specialize (IH s3 (proj1 M3) ltac:(specialize (Hy eq_refl); lia)).
    destruct (client_read_loop fuel cap s3) as [[s' q]|]; [|done]. by etrans. }
  destruct p as [|[?|?]]; done.
Qed.

Definition client_kept (s s' : Client) (d : bytes) : Prop :=
  client_ok s' /\ client_line s `prefix_of` client_line s' /\ (roomy -> bytes_kept k_raw k_conn k_r s s' d).

Lemma quiet_kept s s' : quiet s s' -> client_kept s s' [].
Proof.
  intros (A1 & A2 & A3 & A4 & A5). split_and!; [done|done|]. intros _. split; [congruence|]. exists [].
  rewrite A3, A4, app_nil_r. by destruct (k_raw s').
Qed.

Lemma quiet_refl s c : client_ok s -> pending (k_conn s) `prefix_of` pending c -> wire_in c = wire_in (k_conn s) ->
  quiet s (mkClient c (k_r s) (k_w s) (wr_buf s) (wr_pos s) (k_raw s)).
Proof. intros Hok Hp Hw. unfold quiet. split_and!; try done. by apply client_line_conn. Qed.

Lemma client_write_tls_spec s buf : client_ok s ->
  match client_write_tls s buf with None => False | Some (s', _) => quiet s s' end.
Proof.
  intros Hok. unfold client_write_tls. pose proof (pending_write (k_conn s) buf) as Hp. pose proof (wire_write (k_conn s) buf) as Hi.
  destruct (writer_write (k_conn s) buf) as [c x]; cbn [fst] in *. pose proof (quiet_refl s c Hok Hp Hi) as Q.
  destruct x as [n|e]; [|done]. pose proof (produce_flush_spec _ (proj1 Q)) as H. destruct (flush_wr _) as [[s2 p]|]; [|done].
  exact (quiet_trans _ _ _ Q (proj1 H)).
Qed.

Lemma client_poll_write_spec s buf : client_ok s ->
  match client_poll_write s buf with None => False | Some (s', _) => quiet s s' end.
Proof.
  intros Hok. unfold client_poll_write. destruct (wr_pos s <? _)%nat; [|by apply client_write_tls_spec].
  pose proof (flush_spec s Hok) as H. destruct (flush_wr s) as [[s1 [|[u|e]]]|]; try done; destruct H as [Q _]; [done| |done].
  pose proof (client_write_tls_spec s1 buf (proj1 Q)) as H. destruct (client_write_tls s1 buf) as [[s2 p]|]; [|done].
  exact (quiet_trans _ _ _ Q H).
Qed.

Lemma client_finish_spec last s : (forall w w' p, last w = (w', p) -> sk_out w' = sk_out w) -> client_ok s ->
  match client_finish last s with None => False | Some (s', _) => quiet s s' end.
Proof.
  intros Hlast Hok. unfold client_finish. pose proof (produce_flush_spec s Hok) as H.
  destruct (flush_wr _) as [[s1 [|[?|?]]]|]; try done; destruct H as [Q _]; [done| |done].
  destruct (last (k_w s1)) as [w p] eqn:El. apply Hlast in El. refine (quiet_trans _ _ _ Q _). unfold quiet.
  split_and!; try done; [apply Q|]. unfold client_line. cbn [k_w k_conn wr_pos wr_buf]. by rewrite El.
Qed.

Lemma client_step_spec s o : client_ok s -> match client_step s o with None => False | Some (s', d) => client_kept s s' d end.
Proof.
  intros Hok. destruct o as [shared cap|buf| |]; cbn [client_step].
  - unfold client_poll_read. destruct (k_raw s || shared) eqn:Er.
    + destruct (src_read cap (k_r s)) as [r p] eqn:E. apply src_read_bytes in E.
      enough (K : client_kept s (mkClient (k_conn s) r (k_w s) (wr_buf s) (wr_pos s) true) (data_of p)) by (by destruct p as [|[|]]).
      split_and!; [done|by apply client_line_conn|]. intros _. split; [done|]. exists []. by rewrite app_nil_r.
    + pose proof (client_read_loop_spec cap (read_fuel (k_r s)) s Hok ltac:(unfold answers, read_fuel; lia)) as H.
      destruct (client_read_loop _ _ _) as [[s' p]|]; [|done]. destruct H as (A1 & A2 & A3 & tk & fed & A4 & A5 & A6).
      apply orb_false_iff in Er as [Er _]. enough (K : client_kept s s' (data_of p)) by (by destruct p as [|[|]]).
      split_and!; [done|done|]. intros R. split; [by rewrite Er|]. exists fed. rewrite A3, Er, A4, <- A6 by done. by split_and!.
  - pose proof (client_poll_write_spec s buf Hok) as H. destruct (client_poll_write s buf) as [[s' p]|]; [|done]. by apply quiet_kept.
  - pose proof (client_finish_spec snk_flush s) as H. unfold client_poll_flush.
    destruct (client_finish snk_flush s) as [[s' p]|]; (apply quiet_kept || idtac); apply H; try done; intros ??? E; by apply snk_flush_spec in E as [-> _].
  - unfold client_poll_shutdown. set (s1 := mkClient _ _ _ _ _ _).
    pose proof (quiet_refl s (close_notify (k_conn s)) Hok (pending_close _) (wire_close _)) as Q. fold s1 in Q.
    pose proof (client_finish_spec snk_shutdown s1) as H.
    destruct (client_finish snk_shutdown s1) as [[s' p]|]; (apply quiet_kept || idtac); [refine (quiet_trans _ _ _ Q _)|];
      apply H; try done; try apply Q; intros ??? E; by apply snk_shutdown_spec in E as [-> _].
Qed.

(** ** Runs *)

(** The state after a list of operations, what the reads before the switch
    gave and what those from the switch on gave. *)
Fixpoint run {S} (step : S -> op -> option (S * bytes)) (raw : S -> bool) (s : S) (ops : list op) : option (S * bytes * bytes) :=
  match ops with
  | [] => Some (s, [], [])
  | o :: ops =>
    match step s o with
    | None => None
    | Some (s1, d) =>
      match run step raw s1 ops with
      | None => None
      | Some (s2, t, r) => if raw s1 then Some (s2, t, d ++ r) else Some (s2, d ++ t, r)
      end
    end
  end.

Definition server_run := run server_step s_raw.
Definition client_run := run client_step k_raw.

Lemma run_kept {S} (step : S -> op -> option (S * bytes)) raw c r (ok : S -> Prop) (ln : S -> bytes) (H : Prop) :
  (forall s o, ok s -> match step s o with
    | None => False
    | Some (s', d) => ok s' /\ ln s `prefix_of` ln s' /\ (H -> bytes_kept raw c r s s' d)
    end) ->
  forall ops s, ok s -> match run step raw s ops with
    | None => False
    | Some (s', t, d) => ok s' /\ ln s `prefix_of` ln s' /\ (H -> exists fed, wire_in (c s') = wire_in (c s) ++ fed /\
        r_bytes (src_r (r s)) = fed ++ d ++ r_bytes (src_r (r s')) /\ (raw s = true -> fed = []))
    end.
Proof.
  intros Hstep. induction ops as [|o ops IH]; intros s Hok; cbn [run].
  { split_and!; [done|done|]. intros _. exists []. by rewrite app_nil_r. }
  specialize (Hstep s o Hok). destruct (step s o) as [[s1 d1]|]; [|done]. destruct Hstep as (Hok1 & Hl1 & K1).
  specialize (IH s1 Hok1). destruct (run step raw s1 ops) as [[[s2 t] d]|]; [|done]. destruct IH as (Hok2 & Hl2 & K2).
  assert (Hl : ln s `prefix_of` ln s2) by by etrans.
  enough (E : H -> exists fed, wire_in (c s2) = wire_in (c s) ++ fed /\
    r_bytes (src_r (r s)) = fed ++ (if raw s1 then d1 ++ d else d) ++ r_bytes (src_r (r s2)) /\ (raw s = true -> fed = []))
    by (by destruct (raw s1)).
  intros h. destruct (K1 h) as (Hm & f1 & W1 & B1 & R1). destruct (K2 h) as (f2 & W2 & B2 & R2).
  exists (f1 ++ f2). rewrite W2, W1, B1, B2, <- app_assoc. split; [done|]. destruct (raw s1).
  - rewrite R2 by done. rewrite !app_nil_r, <- !app_assoc. done.
  - rewrite <- app_assoc. split; [done|]. intros E. by specialize (Hm E).
Qed.

Lemma server_run_spec ops s :
  match server_run s ops with
  | None => False
  | Some (s', t, d) => True /\ server_line s `prefix_of` server_line s' /\ (True -> exists fed, wire_in (s_conn s') = wire_in (s_conn s) ++ fed /\
      r_bytes (src_r (s_r s)) = fed ++ d ++ r_bytes (src_r (s_r s')) /\ (s_raw s = true -> fed = []))
  end.
Proof.
  apply (run_kept server_step s_raw s_conn s_r (fun _ => True) server_line True); [|done]. intros s0 o _.
  pose proof (server_step_spec s0 o) as H. destruct (server_step s0 o) as [[s' d]|]; [|done]. by destruct H.
Qed.

Lemma client_run_spec ops s : client_ok s ->
  match client_run s ops with
  | None => False
  | Some (s', t, d) => client_ok s' /\ client_line s `prefix_of` client_line s' /\ (roomy -> exists fed, wire_in (k_conn s') = wire_in (k_conn s) ++ fed /\
      r_bytes (src_r (k_r s)) = fed ++ d ++ r_bytes (src_r (k_r s')) /\ (k_raw s = true -> fed = []))
  end.
Proof. apply (run_kept client_step k_raw k_conn k_r client_ok client_line roomy). apply client_step_spec. Qed.

(** ** The handshake *)

Lemma handshake_writes_spec fuel : forall c w progress, (length (sk_writes w) < fuel)%nat ->
  match handshake_writes fuel c w progress with
  | None => False
  | Some (c', w', x) => line c' w' = line c w /\ wire_in c' = wire_in c /\ (length (sk_writes w') <= length (sk_writes w))%nat /\
      (x = Ok true -> progress = true \/ (length (sk_writes w') < length (sk_writes w))%nat)
  end.
Proof.
  induction fuel as [|fuel IH]; intros c w progress Hf; [lia|]. cbn [handshake_writes].
  destruct (wants_write c) eqn:Hw; cbn [negb]; [|split_and!; try done; intros [= ->]; by left].
  destruct (bridge_write c w) as [[c1 w1] p] eqn:Eb. pose proof (bridge_write_spec _ _ _ _ _ Hw Eb) as (El & Ew & Hl).
  assert (Hle : (length (sk_writes w1) <= length (sk_writes w))%nat).
  { destruct p; [|specialize (Hl ltac:(done)); lia]. unfold bridge_write in Eb. rewrite Hw in Eb. cbn [negb] in Eb.
    unfold snk_write in Eb. destruct (sk_writes w) as [|[|e|n] l]; simplify_eq; cbn; lia. }
  destruct p as [|[n|e]].
  - split_and!; try done. intros [= ->]. by left.
  - specialize (Hl ltac:(done)). destruct (0 <? n)%nat; [|split_and!; try done; intros [= ->]; by left].
    specialize (IH c1 w1 true ltac:(lia)). destruct (handshake_writes fuel c1 w1 true) as [[[c2 w2] x]|]; [|done].
    destruct IH as (H1 & H2 & H3 & _). split_and!; [congruence|congruence|lia|intros _; right; lia].
  - by split_and!.
Qed.

Definition rest_of (initial : option bytes) : bytes := match initial with Some d => d | None => [] end.
Definition steps_left (r : Src) (w : Snk) (initial : option bytes) : nat :=
  (length (sk_writes w) + answers (src_r r) + length (rest_of initial))%nat.

Lemma handshake_read_spec c r initial c' r' initial' p : handshake_read c r initial = (c', r', initial', p) ->
  pending c' = pending c /\
  wire_in c' ++ rest_of initial' ++ r_bytes (src_r r') = wire_in c ++ rest_of initial ++ r_bytes (src_r r) /\
  (answers (src_r r') + length (rest_of initial') <= answers (src_r r) + length (rest_of initial))%nat /\
  (forall n, p = Ready (Ok (S n)) -> (answers (src_r r') + length (rest_of initial') < answers (src_r r) + length (rest_of initial))%nat).
Proof.
  unfold handshake_read, bridge_read. destruct initial as [d|]; destruct (room c) as [cap|e].
  - intros [= <- <- <- <-]. rewrite pending_take, wire_take.
    assert (E : rest_of (if bool_decide (drop cap d = []) then None else Some (drop cap d)) = drop cap d).
    { destruct (bool_decide _) eqn:Eb; [|done]. by apply bool_decide_eq_true in Eb. }
    rewrite E, length_drop. cbn [rest_of]. split_and!; [done| |lia|].
    + by rewrite <- app_assoc, (app_assoc (take cap d)), take_drop.
    + intros n [= En]. rewrite length_take in En. lia.
  - intros [= <- <- <- <-]. by split_and!.
  - unfold src_read, inner_read, answers. destruct (src_r r) as [|[|e|d] l] eqn:Er; cbn [pending_read].
    + intros [= <- <- <- <-]. by split_and!.
    + intros [= <- <- <- <-]. cbn. split_and!; try done. lia.
    + intros [= <- <- <- <-]. cbn. split_and!; try done. lia.
    + destruct (length d <=? cap)%nat eqn:El; bools; intros [= <- <- <- <-]; rewrite pending_take, wire_take; cbn [src_r r_bytes length rest_of];
        rewrite !length_app, <- app_assoc; cbn [app].
      * split_and!; try done; lia.
      * rewrite (app_assoc (take cap d)), take_drop, length_drop. split_and!; try done; [lia|]. intros n [= En].
        rewrite length_take in En. lia.
  - intros [= <- <- <- <-]. by split_and!.
Qed.

(** The handshake of both ends, over any socket: it ends, with as many rounds
    as the socket has answers and bytes; the connection is fed the first record,
    where there is one, and then the bytes of the socket, each once and in
    order, and what it produces goes out in order; it succeeds only when the
    connection says that the handshake is over. *)
Theorem handshake_poll_spec fuel : forall c r w initial, (steps_left r w initial < fuel)%nat ->
  match handshake_poll fuel c r w initial with
  | None => False
  | Some (c', r', w', initial', p) =>
    wire_in c' ++ rest_of initial' ++ r_bytes (src_r r') = wire_in c ++ rest_of initial ++ r_bytes (src_r r) /\
    line c w `prefix_of` line c' w' /\ (p = Ready (Ok tt) -> is_handshaking c' = false)
  end.
Proof.
  unfold steps_left. induction fuel as [|fuel IH]; intros c r w initial Hf; [lia|]. cbn [handshake_poll].
  destruct (is_handshaking c) eqn:Eh; cbn [negb]; [|by split_and!].
  pose proof (handshake_writes_spec (S (length (sk_writes w))) c w false ltac:(lia)) as H.
  destruct (handshake_writes _ c w false) as [[[c1 w1] x]|]; [|done]. destruct H as (El & Ew & Hle & Hpr). rewrite <- El, <- Ew.
  destruct x as [progress|e]; [|by split_and!].
  assert (Hagain : forall c2 r2 w2 i2, line c1 w1 `prefix_of` line c2 w2 ->
    wire_in c2 ++ rest_of i2 ++ r_bytes (src_r r2) = wire_in c1 ++ rest_of initial ++ r_bytes (src_r r) ->
    (length (sk_writes w2) + answers (src_r r2) + length (rest_of i2) < fuel)%nat ->
    match handshake_poll fuel c2 r2 w2 i2 with
    | None => False
    | Some (c', r', w', initial', p) =>
      wire_in c' ++ rest_of initial' ++ r_bytes (src_r r') = wire_in c1 ++ rest_of initial ++ r_bytes (src_r r) /\
      line c1 w1 `prefix_of` line c' w' /\ (p = Ready (Ok tt) -> is_handshaking c' = false)
    end).
  { intros c2 r2 w2 i2 Hp Hi Hl. specialize (IH c2 r2 w2 i2 Hl). destruct (handshake_poll fuel c2 r2 w2 i2) as [[[[[c3 r3] w3] i3] p]|]; [|done].
    destruct IH as (H1 & H2 & H3). rewrite H1. split_and!; [done|by etrans|done]. }
  assert (Hstart : progress = true -> (length (sk_writes w1) < length (sk_writes w))%nat) by (intros ->; by destruct (Hpr eq_refl)).
  destruct (wants_read c1).
  - destruct (handshake_read c1 r initial) as [[[c2 r2] i2] q] eqn:Er.
    destruct (handshake_read_spec _ _ _ _ _ _ _ Er) as (Hp & Hi & Ha & Hs).
    assert (Hl : line c1 w1 `prefix_of` line c2 w1) by (apply line_extend; by rewrite Hp).
    destruct q as [|[[|n]|e]]; try by split_and!.
    + destruct progress; [|by split_and!]. apply Hagain; [done|done|]. specialize (Hstart eq_refl). lia.
    + specialize (Hs n eq_refl). destruct (process_packets c2) as [c3 y] eqn:Ep.
      destruct (process_packets_spec _ _ _ Ep) as (_ & Hw3 & Hp3). assert (Hl3 : line c1 w1 `prefix_of` line c3 w1)
        by (etrans; [done|by apply line_extend]).
      destruct y; [|rewrite Hw3; by split_and!]. apply Hagain; [done|by rewrite Hw3|lia].
  - destruct progress; [|by split_and!]. apply Hagain; [done|done|]. specialize (Hstart eq_refl). lia.
Qed.

(** ** The theorems *)

(** Sending on a REALITY stream, on the server and on the client: whatever
    the operations and whatever the socket answers, every loop ends, and what
    has reached the socket and waits for it, in the client's buffer and in the
    connection, is only ever extended: no ciphertext is lost, repeated or
    reordered by partial and refused writes; a flush that succeeds has sent, and
    flushed, all of it. *)
Theorem reality_sends :
  (forall s ops, match server_run s ops with
    | None => False
    | Some (s', _, _) => server_line s `prefix_of` server_line s'
    end) /\
  (forall s s', server_poll_flush s = Some (s', Ready (Ok tt)) ->
    sk_out (s_w s') = server_line s /\ sk_flushed (s_w s') = length (server_line s)) /\
  (forall s ops, client_ok s -> match client_run s ops with
    | None => False
    | Some (s', _, _) => client_ok s' /\ client_line s `prefix_of` client_line s'
    end) /\
  (forall s s', client_ok s -> client_poll_flush s = Some (s', Ready (Ok tt)) ->
    sk_out (k_w s') = client_line s /\ sk_flushed (k_w s') = length (client_line s)).
Proof.
  split_and!.
  - intros s ops. pose proof (server_run_spec ops s) as H. destruct (server_run s ops) as [[[s' t] d]|]; [|done]. apply H.
  - intros s s'. unfold server_poll_flush. pose proof (tls_pump_spec (s_conn s) (s_w s)) as H.
    destruct (pump _ _) as [[[c w] [[|]|e]]|]; [|done..]. destruct H as (El & _ & Hp).
    unfold line in El. rewrite Hp, app_nil_r in El by done. unfold server_line, line. rewrite <- El.
    destruct (snk_flush w) as [w1 p] eqn:Ef. apply snk_flush_spec in Ef as [Eo Ef]. intros [= <- ->]. by cbn [s_w].
  - intros s ops Hok. pose proof (client_run_spec ops s Hok) as H. destruct (client_run s ops) as [[[s' t] d]|]; [|done].
    split; apply H.
  - intros s s' Hok. unfold client_poll_flush, client_finish. pose proof (produce_flush_spec s Hok) as H.
    destruct (flush_wr _) as [[s1 [|[[]|e]]]|]; try done. destruct H as (_ & _ & Ho). specialize (Ho eq_refl).
    destruct (snk_flush (k_w s1)) as [w p] eqn:Ef. apply snk_flush_spec in Ef as [Eo Ef]. intros [= <- ->].
    cbn [k_w]. by rewrite Eo, Ef, Ho.
Qed.

(** C19: Receiving on a REALITY stream.  On the server every byte of the socket
    is accounted for, over any run: it is fed to the TLS connection, in order,
    before the switch to the bare socket, and given to the reader as it is from
    then on; and a read never takes more from the socket than the connection
    needs to have something to give, so that what follows a record is still in
    the socket when the switch comes.  On the client the same account holds if
    the connection takes each read of 4096 bytes at once. *)
Theorem reality_receives :
  (forall s ops, match server_run s ops with
    | None => False
    | Some (s', _, raw) => exists fed, wire_in (s_conn s') = wire_in (s_conn s) ++ fed /\
        r_bytes (src_r (s_r s)) = fed ++ raw ++ r_bytes (src_r (s_r s'))
    end) /\
  (forall s cap record more, s_raw s = false -> r_bytes (src_r (s_r s)) = record ++ more ->
    (forall c w x c', pump (s_conn s) (s_w s) = Some (c, w, x) -> starved_feed cap c record c' -> ~ no_data (reader_read c' cap)) ->
    match server_poll_read s false cap with
    | None => False
    | Some (s', _) => exists left, r_bytes (src_r (s_r s')) = left ++ more
    end) /\
  (roomy -> forall s ops, client_ok s -> match client_run s ops with
    | None => False
    | Some (s', _, raw) => exists fed, wire_in (k_conn s') = wire_in (k_conn s) ++ fed /\
        r_bytes (src_r (k_r s)) = fed ++ raw ++ r_bytes (src_r (k_r s'))
    end).
Proof.
  split_and!.
  - intros s ops. pose proof (server_run_spec ops s) as H. destruct (server_run s ops) as [[[s' t] d]|]; [|done].
    destruct H as (_ & _ & H). destruct (H I) as (fed & H1 & H2 & _). by exists fed.
  - intros s cap record more Hr Hb Hx. pose proof (server_poll_read_spec s false cap) as H.
    destruct (server_poll_read s false cap) as [[s' p]|]; [|done]. destruct H as (_ & E & H). rewrite Hr in E. rewrite E in H.
    destruct H as (tk & c & c1 & H1 & (w & x & H2) & _ & _ & H4 & _). rewrite Hb in H1.
    assert (Hl : (length tk <= length record)%nat) by (eapply starved_not_past; [done|by symmetry|intros y; by eapply Hx]).
    exists (drop (length tk) record). assert (E2 : drop (length tk) (record ++ more) = r_bytes (src_r (s_r s')))
      by (rewrite H1; apply drop_app_length). by rewrite <- E2, drop_app_le.
  - intros R s ops Hok. pose proof (client_run_spec ops s Hok) as H. destruct (client_run s ops) as [[[s' t] d]|]; [|done].
    destruct H as (_ & _ & H). destruct (H R) as (fed & H1 & H2 & _). by exists fed.
Qed.

End Streams.
(** ** A concrete connection *)

(** A record is a byte of framing and a byte of data; [rm] is the room for one
    read, [limit] the ciphertext that may wait. *)
Record Toy : Type := mkToy { t_in : bytes; t_out : bytes; t_read : nat }.

Fixpoint toy_plain (l : bytes) : bytes := match l with _ :: b :: l => b :: toy_plain l | _ => [] end.

Program Definition toy_tls (rm limit : nat) : TlsConn := {|
  conn := Toy;
  wire_in := t_in;
  pending := t_out;
  offer c := length (t_out c);
  room _ := Ok rm;
  wants_read _ := true;
  is_handshaking c := (length (t_in c) <? 2)%nat;
  tls_sent c n := mkToy (t_in c) (drop n (t_out c)) (t_read c);
  tls_take c d := mkToy (t_in c ++ d) (t_out c) (t_read c);
  process c := (c, Ok tt);
  reader_read c cap :=
    let d := take cap (drop (t_read c) (toy_plain (t_in c))) in
    (mkToy (t_in c) (t_out c) (t_read c + length d), if bool_decide (d = []) then Err EWouldBlock else Ok d);
  writer_write c b :=
    let n := Nat.min (length b) (limit - length (t_out c)) in
    (mkToy (t_in c) (t_out c ++ take n b) (t_read c), Ok n);
  close_notify c := mkToy (t_in c) (t_out c ++ [255]) (t_read c) |}.
Next Obligation. intros rm limit [i [|x o] r] H; [done|cbn; lia]. Qed.
Next Obligation. done. Qed.
Next Obligation. done. Qed.
Next Obligation. done. Qed.
Next Obligation. done. Qed.
Next Obligation. intros. apply prefix_app_r. done. Qed.
Next Obligation. intros. apply prefix_app_r. done. Qed.
Next Obligation. done. Qed.
Next Obligation. done. Qed.
Next Obligation. done. Qed.
Next Obligation. done. Qed.
Next Obligation. done. Qed.
Next Obligation. done. Qed.

Definition toy_sink (l : list wans) : Snk := mkSnk [] l [Ready (Ok tt)] [] 0 false false.
Definition toy_conn : Toy := mkToy [] [] 0.

Definition toy_client (rm limit : nat) (l : list rans) (w : list wans) : @Client (toy_tls rm limit) :=
  @client_new (toy_tls rm limit) toy_conn (mkSrc l false) (toy_sink w).
Definition toy_server (rm limit : nat) (l : list rans) (w : list wans) : @Server (toy_tls rm limit) :=
  @server_new (toy_tls rm limit) toy_conn (mkSrc l false) (toy_sink w).

(** Two writes over a socket that takes a byte, then nothing, then the rest. *)
Definition toy_written : option (@Client (toy_tls READ_SIZE 9)) :=
  match @client_run (toy_tls READ_SIZE 9) (toy_client READ_SIZE 9 [] [WOk 1; WPending; WOk 9]) [OWrite [1; 2; 3]; OWrite [4]] with
  | Some (s, _, _) => Some s | None => None
  end.

Lemma reality_sends_witness :
  (k_w <$> toy_written) = Some (mkSnk [1; 2; 3] [] [Ready (Ok tt)] [] 0 false true) /\
  exists s', @client_poll_flush (toy_tls READ_SIZE 9) (toy_client READ_SIZE 9 [] []) = Some (s', Ready (Ok tt)) /\
    sk_out (k_w s') = [] /\ sk_flushed (k_w s') = 0%nat.
Proof.
  split; [by vm_compute|]. eexists. split; [vm_compute; reflexivity|].
  refine (proj2 (proj2 (proj2 (@reality_sends (toy_tls READ_SIZE 9)))) (toy_client READ_SIZE 9 [] []) _ _ _);
    [vm_compute; lia|vm_compute; reflexivity].
Defined.

(** The data of a record, the switch, and what follows on the socket. *)
Lemma reality_receives_witness :
  @roomy (toy_tls READ_SIZE 9) /\
  match @server_poll_read (toy_tls READ_SIZE 9) (toy_server READ_SIZE 9 [RData [1; 10; 77; 78]] []) false 100 with
  | None => False
  | Some (s', p) => exists left, r_bytes (src_r (s_r s')) = left ++ [77; 78]
  end.
Proof.
  split; [intros c; exists READ_SIZE; split; [reflexivity|apply Nat.le_refl]|].
  refine (proj1 (proj2 (@reality_receives (toy_tls READ_SIZE 9))) (toy_server READ_SIZE 9 [RData [1; 10; 77; 78]] []) 100%nat [1; 10] [77; 78] _ _ _);
    [vm_compute; reflexivity|vm_compute; reflexivity|].
  intros c w x c' Hp Hf. vm_compute in Hp. injection Hp as <- <- <-.
  inversion Hf as [|? ? ? ? _ Hf1]; subst. inversion Hf1 as [|? ? ? ? _ Hf2]; subst. inversion Hf2; subst.
  vm_compute. done.
Defined.
Lemma handshake_poll_spec_witness :
  match @handshake_poll (toy_tls READ_SIZE 9) 9 toy_conn (mkSrc [RPending; RData [20]] false) (toy_sink []) (Some [1]) with
  | None => False
  | Some (c, r, _, i, p) => p = Pending /\ @wire_in (toy_tls READ_SIZE 9) c ++ rest_of i ++ r_bytes (src_r r) = [1; 20]
  end.
Proof.
  pose proof (@handshake_poll_spec (toy_tls READ_SIZE 9) 9 toy_conn (mkSrc [RPending; RData [20]] false) (toy_sink []) (Some [1])
    ltac:(apply Nat.ltb_lt; vm_compute; reflexivity)) as H.
  vm_compute in H |- *. split; [done|apply H].
Defined.

(** A connection that takes less than it is shown: the rest of the read is gone,
    although the stream has not failed. *)
Lemma reality_partial_read_lost :
  match @client_run (toy_tls 3 9) (toy_client 3 9 [RData [1; 10; 1; 20]; RData [1; 30]] []) [ORead false 9; ORead false 9; ORead false 9] with
  | None => False
  | Some (s, data, raw) => data = [10; 1] /\ wire_in (k_conn s) = [1; 10; 1; 1; 30] /\ raw = [] /\ src_r (k_r s) = []
  end.
Proof. vm_compute. by split_and!. Qed.

(** What follows a record in the same read is fed to the connection, which takes
    it for another record: after the switch the client waits for bytes it already
    has.  The server gets them. *)
Lemma reality_client_swallows :
  let socket := [RData [1; 10; 77; 78]] in let ops := [ORead false 9; ORead true 9] in
  match @client_run (toy_tls READ_SIZE 9) (toy_client READ_SIZE 9 socket []) ops with
  | None => False
  | Some (s, data, raw) => data = [10; 78] /\ raw = [] /\ src_r (k_r s) = []
  end /\
  match @server_run (toy_tls READ_SIZE 9) (toy_server READ_SIZE 9 socket []) ops with
  | None => False
  | Some (_, data, raw) => data = [10] /\ raw = [77; 78]
  end.
Proof. vm_compute. by split_and!. Qed.

(** With the connection's buffer full and the socket busy a write is answered
    with [Ok(0)], which writers take for a failure, and not with [Pending]. *)
Lemma reality_server_write_zero :
  match @server_poll_write (toy_tls READ_SIZE 2) (toy_server READ_SIZE 2 [] []) [1; 2] with
  | None => False
  | Some (s, p) => p = Ready (Ok 2%nat) /\
    match @server_poll_write (toy_tls READ_SIZE 2) s [3] with None => False | Some (_, p) => p = Ready (Ok 0%nat) end
  end.
Proof. vm_compute. by split_and!. Qed.

End RealityIo.
Export RealityIo.
