(* ===== verification/RealityHandshake.v ===== *)
(** * The handshake of a REALITY client: [RealityStream::perform_handshake] of
    [protocol/vless/src/reality.rs]

    After the handshake's polls, which [RealityStream] has, the client sends
    what is left, waits a moment for a record of the server's and takes what
    else has come.  [None] is an operation that never returns: the socket's
    script ends while it waits. *)

From S2P Require Import Prelude Io Address Lru Relay RealityStream.

Module RealityHandshake.

Section Handshake.
Context {TC : TlsConn}.

(** [write_all]: each round uses an answer of the socket. *)
Fixpoint write_all (fuel : nat) (w : Snk) (buf : bytes) : option (Snk * res unit) :=
  match fuel with
  | O => None
  | S fuel =>
    match buf with
    | [] => Some (w, Ok tt)
    | _ =>
      match snk_write w buf with
      | (w, Ready (Ok O)) => Some (w, Err EWriteZero)
      | (w, Ready (Ok n)) => write_all fuel w (drop n buf)
      | (w, Ready (Err e)) => Some (w, Err e)
      | (w, Pending) => write_all fuel w buf
      end
    end
  end.

Fixpoint flush_all (fuel : nat) (w : Snk) : option (Snk * res unit) :=
  match fuel with
  | O => None
  | S fuel =>
    match snk_flush w with
    | (w, Ready x) => Some (w, x)
    | (w, Pending) => flush_all fuel w
    end
  end.

(* src/protocol/vless/src/reality.rs:867-879 RealityStream::flush_tls_output *)
Definition flush_tls_output (c : conn) (w : Snk) : option (conn * Snk * res unit) :=
  let '(c, out) := drain_tls (length (pending c)) c [] in
  match out with
  | [] => Some (c, w, Ok tt)
  | _ =>
    match write_all (S (S (length (sk_writes w)))) w out with
    | None => None
    | Some (w, Err e) => Some (c, w, Err e)
    | Some (w, Ok _) =>
      match flush_all (S (length (sk_flushes w))) w with
      | None => None
      | Some (w, x) => Some (c, w, x)
      end
    end
  end.

Definition POST_READ_SIZE : nat := 2 * 4096.

(** A read under a timeout, which gives up after so many answers that are
    pending. *)
Fixpoint read_timeout (patience : nat) (r : Src) : Src * option (res bytes) :=
  match src_read POST_READ_SIZE r with
  | (r, Ready x) => (r, Some x)
  | (r, Pending) => match patience with O => (r, None) | S patience => read_timeout patience r end
  end.

(** What was read goes to the connection, and what that makes of it to the
    socket. *)
Definition feed_and_flush (c : conn) (w : Snk) (d : bytes) : option (conn * Snk * res unit) :=
  match feed_tls c d with
  | (c, Err e) => Some (c, w, Err e)
  | (c, Ok _) => flush_tls_output c w
  end.

(** A failed read is no failure. *)
(* src/protocol/vless/src/reality.rs:911-930 RealityStream::read_post_handshake_record *)
Definition read_post_handshake_record (patience : nat) (c : conn) (r : Src) (w : Snk) : option (conn * Src * Snk * res unit) :=
  match read_timeout patience r with
  | (r, Some (Ok (b :: d))) =>
    match feed_and_flush c w (b :: d) with None => None | Some (c, w, x) => Some (c, r, w, x) end
  | (r, _) => Some (c, r, w, Ok tt)
  end.

(* src/protocol/vless/src/reality.rs:881-909 RealityStream::drain_post_handshake_records *)
Fixpoint drain_post_handshake_records (fuel : nat) (c : conn) (r : Src) (w : Snk) : option (conn * Src * Snk * res unit) :=
  match fuel with
  | O => None
  | S fuel =>
    match src_read POST_READ_SIZE r with
    | (r, Ready (Err e)) => Some (c, r, w, Err e)
    | (r, Pending) | (r, Ready (Ok [])) => Some (c, r, w, Ok tt)
    | (r, Ready (Ok d)) =>
      match feed_and_flush c w d with
      | None => None
      | Some (c, w, Err e) => Some (c, r, w, Err e)
      | Some (c, w, Ok _) => drain_post_handshake_records fuel c r w
      end
    end
  end.

(** The polls of the handshake, until one is ready. *)
Fixpoint await_handshake (rounds : nat) (c : conn) (r : Src) (w : Snk) : option (conn * Src * Snk * res unit) :=
  match rounds with
  | O => None
  | S rounds =>
    match handshake_poll (S (steps_left r w None)) c r w None with
    | None => None
    | Some (c, r, w, _, Ready x) => Some (c, r, w, x)
    | Some (c, r, w, _, Pending) => await_handshake rounds c r w
    end
  end.

(* src/protocol/vless/src/reality.rs:807-865 RealityStream::perform_handshake *)
Definition client_handshake (rounds patience : nat) (c : conn) (r : Src) (w : Snk) : option (conn * Src * Snk * res unit) :=
  match await_handshake rounds c r w with
  | None => None
  | Some (c, r, w, Err e) => Some (c, r, w, Err e)
  | Some (c, r, w, Ok _) =>
    match flush_tls_output c w with
    | None => None
    | Some (c, w, Err e) => Some (c, r, w, Err e)
    | Some (c, w, Ok _) =>
      match read_post_handshake_record patience c r w with
      | None => None
      | Some (c, r, w, Err e) => Some (c, r, w, Err e)
      | Some (c, r, w, Ok _) => drain_post_handshake_records (S (S (length (src_r r)) + length (r_bytes (src_r r)))) c r w
      end
    end
  end.

(** ** Facts *)

(** A step that moves bytes of the socket into the connection, and the
    connection's to the socket, in order. *)
Definition exact (c : conn) (r : Src) (w : Snk) (c' : conn) (r' : Src) (w' : Snk) : Prop :=
  wire_in c' ++ r_bytes (src_r r') = wire_in c ++ r_bytes (src_r r) /\ line c w `prefix_of` line c' w'.

(** Reads that the connection has room for. *)
Definition small_reads (r : Src) : Prop := Forall (fun a => match a with RData d => (length d <= READ_SIZE)%nat | _ => True end) (src_r r).

Lemma write_all_spec fuel : forall w buf,
  match write_all fuel w buf with
  | None => True
  | Some (w', Ok _) => sk_out w' = sk_out w ++ buf
  | Some (w', Err _) => sk_out w `prefix_of` sk_out w'
  end.
Proof.
  induction fuel as [|fuel IH]; intros w buf; [done|]. cbn [write_all]. destruct buf as [|b buf]; [by rewrite app_nil_r|].
  destruct (snk_write w (b :: buf)) as [w1 p] eqn:Ew. pose proof (snk_write_spec _ _ _ _ Ew) as (_ & Ho).
  destruct p as [|[[|n]|e]].
  - destruct Ho as [Ho _]. specialize (IH w1 (b :: buf)). rewrite Ho in IH. done.
  - destruct Ho as [_ ->]. rewrite take_0, app_nil_r. done.
  - destruct Ho as [_ Ho]. specialize (IH w1 (drop (S n) (b :: buf))). rewrite Ho in IH.
    destruct (write_all fuel w1 _) as [[w2 [u|e]]|]; [| |done].
    + by rewrite IH, <- app_assoc, take_drop.
    + etrans; [|exact IH]. by apply prefix_app_r.
  - by rewrite Ho.
Qed.

Lemma flush_all_out fuel : forall w, match flush_all fuel w with None => True | Some (w', _) => sk_out w' = sk_out w end.
Proof.
  induction fuel as [|fuel IH]; intros w; [done|]. cbn [flush_all]. destruct (snk_flush w) as [w1 p] eqn:Ef.
  apply snk_flush_spec in Ef as [Ef _]. destruct p as [|x]; [|done]. specialize (IH w1). by rewrite Ef in IH.
Qed.

Lemma flush_tls_output_spec c w :
  match flush_tls_output c w with
  | None => True
  | Some (c', w', x) => wire_in c' = wire_in c /\ pending c' = [] /\ (x = Ok tt -> sk_out w' = line c w)
  end.
Proof.
  unfold flush_tls_output, line. destruct (drain_tls _ c []) as [c1 out] eqn:E. apply drain_tls_spec in E as (-> & Hp & Hw); [|done].
  cbn [app]. destruct (pending c) as [|b l] eqn:Ep; [by rewrite app_nil_r|].
  pose proof (write_all_spec (S (S (length (sk_writes w)))) w (b :: l)) as H.
  destruct (write_all _ w _) as [[w1 [u|e]]|]; [|by split_and!|done].
  pose proof (flush_all_out (S (length (sk_flushes w1))) w1) as Hf. destruct (flush_all _ w1) as [[w2 x]|]; [|done].
  split_and!; [done|done|]. intros _. by rewrite Hf.
Qed.

(** Predicates of the socket that reads keep. *)
Definition kept_by_reads (P : Src -> Prop) : Prop := forall cap r r' p, P r -> src_read cap r = (r', p) -> P r'.

Lemma small_reads_kept : kept_by_reads small_reads.
Proof.
  intros cap r r' p. unfold small_reads, src_read, inner_read. destruct (src_r r) as [|[|e|d] l]; cbn [src_r];
    [|intros H; apply Forall_cons_1 in H as [Hd H]..]; try (by intros [= <- <-]); [by intros ? [= <- <-]|].
  destruct (_ <=? _)%nat; intros [= <- <-]; cbn [src_r]; [done|]. apply Forall_cons_2; [|done]. rewrite length_drop. lia.
Qed.

Lemma small_read cap r r' d : small_reads r -> src_read cap r = (r', Ready (Ok d)) -> (length d <= READ_SIZE)%nat.
Proof.
  unfold small_reads, src_read, inner_read. destruct (src_r r) as [|[|e|x] l]; try done.
  intros H; apply Forall_cons_1 in H as [Hd _]. destruct (_ <=? _)%nat; intros [= <- <-]; [done|]. rewrite length_take. lia.
Qed.

Lemma bridge_read_kept P safe c r c' r' p : kept_by_reads P -> P r -> bridge_read safe c r = (c', r', p) -> P r'.
Proof.
  intros K H. unfold bridge_read. destruct (room c) as [cap|e]; [|by intros [= <- <- <-]].
  destruct (src_read _ r) as [r1 q] eqn:E. apply (K _ _ _ _ H) in E. by destruct q as [|[?|?]]; intros [= <- <- <-].
Qed.

Lemma handshake_poll_kept P fuel : kept_by_reads P -> forall c r w c' r' w' i p, P r ->
  handshake_poll fuel c r w None = Some (c', r', w', i, p) -> P r' /\ i = None.
Proof.
  intros K. induction fuel as [|fuel IH]; intros c r w c' r' w' i p H; [done|]. cbn [handshake_poll].
  destruct (negb _); [by intros [= <- <- <- <- <-]|].
  destruct (handshake_writes _ c w false) as [[[c1 w1] [progress|e]]|]; [|by intros [= <- <- <- <- <-]|done].
  destruct (wants_read c1); [|destruct progress; [by apply IH|by intros [= <- <- <- <- <-]]].
  cbn [handshake_read]. destruct (bridge_read false c1 r) as [[c2 r2] q] eqn:E. apply (bridge_read_kept P) in E; [|done..].
  destruct q as [|[[|n]|e]]; try by intros [= <- <- <- <- <-].
  - destruct progress; [by apply IH|by intros [= <- <- <- <- <-]].
  - destruct (process_packets c2) as [c3 [|]]; [by apply IH|by intros [= <- <- <- <- <-]].
Qed.

(** One step of the client: the bytes of the socket go to the connection, each
    once and in order, and when it succeeds nothing is left to send. *)
Definition settled (c : conn) (r : Src) (w : Snk) (y : option (conn * Src * Snk * res unit)) : Prop :=
  match y with
  | None => True
  | Some (c', r', w', x) =>
    small_reads r' /\ wire_in c' ++ r_bytes (src_r r') = wire_in c ++ r_bytes (src_r r) /\
    (x = Ok tt -> pending c' = [] /\ line c w `prefix_of` sk_out w')
  end.

Lemma settled_stay c r w r' x : small_reads r' -> r_bytes (src_r r') = r_bytes (src_r r) -> pending c = [] ->
  settled c r w (Some (c, r', w, x)).
Proof. intros Hs Hr Hp. unfold settled, line. rewrite Hr, Hp, app_nil_r. by split_and!. Qed.

Lemma settled_then c r w c1 r1 w1 y : line c w `prefix_of` line c1 w1 ->
  wire_in c1 ++ r_bytes (src_r r1) = wire_in c ++ r_bytes (src_r r) -> settled c1 r1 w1 y -> settled c r w y.
Proof.
  intros Hl Hw. unfold settled. destruct y as [[[[c2 r2] w2] x]|]; [|done]. rewrite <- Hw. intros (H1 & H2 & H3).
  split_and!; [done|done|]. intros Hx. destruct (H3 Hx). split; [done|by etrans].
Qed.

Lemma flush_settled c r w : small_reads r ->
  settled c r w match flush_tls_output c w with Some (c', w', x) => Some (c', r, w', x) | None => None end.
Proof.
  intros Hs. pose proof (flush_tls_output_spec c w) as H. destruct (flush_tls_output c w) as [[[c1 w1] x]|]; [|done].
  destruct H as (Hw & Hp & Ho). unfold settled. rewrite Hw. split_and!; [done|done|]. intros Hx. by rewrite (Ho Hx).
Qed.

Lemma feed_settled c r w r' d : roomy -> small_reads r' -> (length d <= READ_SIZE)%nat ->
  r_bytes (src_r r) = d ++ r_bytes (src_r r') ->
  settled c r w match feed_and_flush c w d with Some (c', w', x) => Some (c', r', w', x) | None => None end.
Proof.
  intros R Hs Hd Hb. unfold feed_and_flush. destruct (feed_tls c d) as [c1 y] eqn:E.
  destruct (feed_tls_spec _ _ _ _ Hd E) as (Hp & fed & Hw & Hf). rewrite (Hf R) in Hw.
  assert (E2 : wire_in c1 ++ r_bytes (src_r r') = wire_in c ++ r_bytes (src_r r)) by (by rewrite Hw, Hb, <- app_assoc).
  destruct y as [u|e]; [|by split_and!]. eapply settled_then; [by apply line_extend, Hp|exact E2|by apply flush_settled].
Qed.

Lemma read_timeout_spec patience : forall r r' y, small_reads r -> read_timeout patience r = (r', y) ->
  small_reads r' /\ r_bytes (src_r r) = (match y with Some (Ok d) => d | _ => [] end) ++ r_bytes (src_r r') /\
  (forall d, y = Some (Ok d) -> (length d <= READ_SIZE)%nat).
Proof.
  induction patience as [|n IH]; intros r r' y Hs; cbn [read_timeout];
    destruct (src_read POST_READ_SIZE r) as [r1 [|x]] eqn:E;
    pose proof (small_reads_kept _ _ _ _ Hs E) as Hk; pose proof (src_read_bytes _ _ _ _ E) as Hb; cbn [data_of] in Hb;
    try (intros [= <- <-]); try by split_and!.
  - split_and!; [done|by destruct x|]. intros d [= ->]. exact (small_read _ _ _ _ Hs E).
  - rewrite Hb. by apply IH.
  - split_and!; [done|by destruct x|]. intros d [= ->]. exact (small_read _ _ _ _ Hs E).
Qed.

Lemma read_post_settled patience c r w : roomy -> small_reads r -> pending c = [] ->
  settled c r w (read_post_handshake_record patience c r w).
Proof.
  intros R Hs Hp. unfold read_post_handshake_record. destruct (read_timeout patience r) as [r1 y] eqn:E.
  destruct (read_timeout_spec _ _ _ _ Hs E) as (H1 & H2 & H3).
  destruct y as [[[|b d]|e]|]; try by apply settled_stay. apply feed_settled; [done..|by apply H3|done].
Qed.

Lemma drain_settled fuel : forall c r w, roomy -> small_reads r -> pending c = [] ->
  settled c r w (drain_post_handshake_records fuel c r w).
Proof.
  induction fuel as [|fuel IH]; intros c r w R Hs Hp; [done|]. cbn [drain_post_handshake_records].
  destruct (src_read POST_READ_SIZE r) as [r1 p] eqn:E. pose proof (small_reads_kept _ _ _ _ Hs E) as Hk.
  pose proof (src_read_bytes _ _ _ _ E) as Hb. destruct p as [|[[|b d]|e]]; try by apply settled_stay.
  pose proof (feed_settled c r w r1 (b :: d) R Hk (small_read _ _ _ _ Hs E) Hb) as H.
  destruct (feed_and_flush c w (b :: d)) as [[[c1 w1] [[]|e]]|]; [|done..]. destruct H as (_ & H2 & H3).
  destruct (H3 eq_refl) as [Hp1 Ho]. eapply settled_then; [|exact H2|by apply IH].
  unfold line. by rewrite Hp1, app_nil_r.
Qed.

Lemma await_spec rounds : forall c r w, small_reads r ->
  match await_handshake rounds c r w with
  | None => True
  | Some (c', r', w', x) => small_reads r' /\ wire_in c' ++ r_bytes (src_r r') = wire_in c ++ r_bytes (src_r r) /\
      line c w `prefix_of` line c' w' /\ (x = Ok tt -> is_handshaking c' = false)
  end.
Proof.
  induction rounds as [|n IH]; intros c r w Hs; [done|]. cbn [await_handshake].
  pose proof (handshake_poll_spec (S (steps_left r w None)) c r w None ltac:(lia)) as H.
  destruct (handshake_poll _ c r w None) as [[[[[c1 r1] w1] i] p]|] eqn:E; [|done]. destruct H as (H1 & H2 & H3).
  destruct (handshake_poll_kept small_reads _ small_reads_kept _ _ _ _ _ _ _ _ Hs E) as [Hk ->]. cbn [rest_of app] in H1.
  destruct p as [|x]; [|split_and!; try done; intros ->; by apply H3].
  specialize (IH c1 r1 w1 Hk). destruct (await_handshake n c1 r1 w1) as [[[[c2 r2] w2] x]|]; [|done].
  rewrite <- H1. destruct IH as (A1 & A2 & A3 & A4). split_and!; try done. by etrans.
Qed.

(** ** That it ends *)

(** What a script of writes takes in all. *)
Definition takes (l : list wans) : nat := sum_list_with (fun a => match a with WOk n => n | _ => 0%nat end) l.

Lemma write_all_ends fuel : forall w buf, (length (sk_writes w) < fuel)%nat -> (length buf <= takes (sk_writes w))%nat ->
  write_all fuel w buf <> None.
Proof.
  unfold takes. induction fuel as [|fuel IH]; intros w buf Hf Ht; [lia|]. cbn [write_all]. destruct buf as [|b buf]; [done|].
  unfold snk_write. destruct (sk_writes w) as [|[|e|n] l] eqn:E; cbn [sum_list_with length] in *; [lia| |done|].
  - apply IH; cbn [tail sk_writes length]; lia.
  - destruct n as [|n]; [done|]. cbn [Nat.min length]. apply IH; cbn [sk_writes]; [lia|].
    rewrite length_drop. cbn [length]. lia.
Qed.

Lemma flush_all_ends fuel : forall w, (length (sk_flushes w) < fuel)%nat -> Exists (fun a => a <> Pending) (sk_flushes w) ->
  flush_all fuel w <> None.
Proof.
  induction fuel as [|fuel IH]; intros w Hf He; [lia|]. cbn [flush_all]. unfold snk_flush.
  destruct (sk_flushes w) as [|[|[u|e]] l] eqn:E; [by apply Exists_nil in He| |done..].
  apply Exists_cons in He as [He|He]; [done|]. apply IH; cbn [tail sk_flushes length] in *; [lia|done].
Qed.

Lemma write_all_flushes fuel : forall w buf w' x, write_all fuel w buf = Some (w', x) -> sk_flushes w' = sk_flushes w.
Proof.
  induction fuel as [|fuel IH]; intros w buf w' x; [done|]. cbn [write_all]. destruct buf as [|b buf]; [by intros [= <- <-]|].
  unfold snk_write. destruct (sk_writes w) as [|[|e|n] l].
  - intros H. by apply IH in H.
  - intros H. by apply IH in H.
  - by intros [= <- <-].
  - destruct (Nat.min n _); [by intros [= <- <-]|]. intros H. by apply IH in H.
Qed.

Lemma flush_ends c w : (length (pending c) <= takes (sk_writes w))%nat -> Exists (fun a => a <> Pending) (sk_flushes w) ->
  flush_tls_output c w <> None.
Proof.
  intros Ht He. unfold flush_tls_output. destruct (drain_tls _ c []) as [c1 out] eqn:E.
  apply drain_tls_spec in E as (-> & _); [|done]. cbn [app]. destruct (pending c) as [|b l] eqn:Ep; [done|].
  pose proof (write_all_ends (S (S (length (sk_writes w)))) w (b :: l) ltac:(lia) Ht) as Hw.
  destruct (write_all _ w _) as [[w1 [u|e]]|] eqn:Ew; [|done..]. apply write_all_flushes in Ew.
  pose proof (flush_all_ends (S (length (sk_flushes w1))) w1 ltac:(lia)) as Hf. rewrite Ew in Hf. rewrite Ew.
  destruct (flush_all _ w1) as [[w2 x]|]; [done|]. by specialize (Hf He).
Qed.

(** The fuel of the drain is enough: it stops only where the socket takes nothing more. *)
Lemma drain_ends fuel : forall c r w, (answers (src_r r) < fuel)%nat ->
  drain_post_handshake_records fuel c r w = None -> exists c' w', flush_tls_output c' w' = None.
Proof.
  induction fuel as [|fuel IH]; intros c r w Hf; [lia|]. cbn [drain_post_handshake_records].
  destruct (src_read POST_READ_SIZE r) as [r1 [|[[|b d]|e]]] eqn:E; [done|done| |done].
  apply src_read_shrinks in E as [Ha _]; [|unfold POST_READ_SIZE; lia]. unfold feed_and_flush.
  destruct (feed_tls c (b :: d)) as [c1 [u|e]]; [|done].
  destruct (flush_tls_output c1 w) as [[[c2 w2] [u2|e2]]|] eqn:Ef; [apply IH; lia|done|by eexists _, _].
Qed.

(** ** The theorem *)

(** The handshake of a REALITY client with what follows it, over any socket
    whose answers are of at most 4096 bytes and a connection that takes as many
    at once: the connection is fed the bytes of the socket, each once and in
    order, whether it succeeds or fails; when it succeeds all that the
    connection made has been sent, in order; and it fails to return only if the
    handshake never ends or the socket takes nothing more. *)
Theorem client_handshake_exact rounds patience c r w : roomy -> small_reads r ->
  match client_handshake rounds patience c r w with
  | None => await_handshake rounds c r w = None \/ exists c' w', flush_tls_output c' w' = None
  | Some (c', r', w', x) =>
    wire_in c' ++ r_bytes (src_r r') = wire_in c ++ r_bytes (src_r r) /\
    (x = Ok tt -> pending c' = [] /\ line c w `prefix_of` sk_out w')
  end.
Proof.
  intros R Hs. unfold client_handshake. pose proof (await_spec rounds c r w Hs) as H.
  destruct (await_handshake rounds c r w) as [[[[c1 r1] w1] [u|e]]|]; [| |by left]; destruct H as (Hk & Hw & Hl & _); [|by split].
  pose proof (flush_tls_output_spec c1 w1) as H.
  destruct (flush_tls_output c1 w1) as [[[c2 w2] [[]|e]]|] eqn:Ef; [| |by right; eexists _, _].
  2: { destruct H as (Hw2 & _). rewrite Hw2. by split. }
  destruct H as (Hw2 & Hp2 & Ho2). rewrite <- Hw, <- Hw2. specialize (Ho2 eq_refl).
  assert (Hl2 : line c w `prefix_of` line c2 w2) by (unfold line at 2; by rewrite Hp2, app_nil_r, Ho2).
  pose proof (read_post_settled patience c2 r1 w2 R Hk Hp2) as H.
  destruct (read_post_handshake_record patience c2 r1 w2) as [[[[c3 r3] w3] [[]|e]]|] eqn:Ep; [|by destruct H as (_ & ? & _)|].
  - destruct H as (Hk3 & Hw3 & H3). destruct (H3 eq_refl) as [Hp3 Ho3]. rewrite <- Hw3.
    assert (Hl3 : line c w `prefix_of` line c3 w3) by (unfold line at 2; rewrite Hp3, app_nil_r; by etrans).
    set (fuel := S (S (length (src_r r3)) + length (r_bytes (src_r r3)))%nat). pose proof (drain_settled fuel c3 r3 w3 R Hk3 Hp3) as H.
    destruct (drain_post_handshake_records fuel c3 r3 w3) as [[[[c4 r4] w4] x]|] eqn:Ed.
    + destruct H as (_ & H4 & H5). split; [done|]. intros Hx. destruct (H5 Hx). split; [done|by etrans].
    + right. apply drain_ends in Ed; [done|]. unfold fuel, answers. lia.
  - right. unfold read_post_handshake_record in Ep. destruct (read_timeout patience r1) as [r4 [[[|b d]|?]|]]; try done.
    unfold feed_and_flush in Ep. destruct (feed_tls c2 (b :: d)) as [c4 [?|?]]; [|done].
    destruct (flush_tls_output c4 w2) as [[[? ?] ?]|] eqn:E4; [done|by eexists _, _].
Qed.
End Handshake.

#[local] Abbreviation toy := (toy_tls READ_SIZE 9).

(** A handshake over a socket that is slow, with a record after it and a request to send. *)
Lemma client_handshake_exact_witness :
  @roomy toy /\ small_reads (mkSrc [RPending; RData [1]; RData [20]; RPending; RData [1; 30]; RPending] false) /\
  exists c r w, @client_handshake toy 2 1 (mkToy [] [5; 6] 0) (mkSrc [RPending; RData [1]; RData [20]; RPending; RData [1; 30]; RPending] false)
      (toy_sink [WOk 1; WPending; WOk 9]) = Some (c, r, w, Ok tt) /\
    @wire_in toy c = [1; 20; 1; 30] /\ sk_out w = [5; 6] /\ [5; 6] `prefix_of` sk_out w.
Proof.
  assert (R : @roomy toy) by (intros c; exists READ_SIZE; split; [reflexivity|apply Nat.le_refl]).
  assert (S : small_reads (mkSrc [RPending; RData [1]; RData [20]; RPending; RData [1; 30]; RPending] false)).
  { unfold small_reads, READ_SIZE. cbn [src_r]. repeat (apply Forall_cons_2; [cbn; lia || done|]). apply Forall_nil_2. }
  split; [exact R|]. split; [exact S|]. eexists _, _, _. split; [vm_compute; reflexivity|]. split_and!; [reflexivity..|].
  exact (proj2 (proj2 (@client_handshake_exact toy 2 1 (mkToy [] [5; 6] 0) _ (toy_sink [WOk 1; WPending; WOk 9]) R S) eq_refl)).
Defined.

(** With an answer of more than 4096 bytes the rest is lost, although the
    connection takes 4096 bytes at once: two are of the handshake, and 904 of
    the 5000 after it are nowhere. *)
Lemma post_handshake_loses :
  match @client_handshake toy 1 1 toy_conn (mkSrc [RData [1; 20]; RData (replicate 5000 7)] false) (toy_sink []) with
  | None => False
  | Some (c, r, w, x) => x = Ok tt /\ length (@wire_in toy c) = (2 + READ_SIZE)%nat /\ src_r r = []
  end.
Proof. vm_compute. by split_and!. Qed.
End RealityHandshake.
