(* ===== verification/VlessNet.v ===== *)
(** * The VLESS net and server: [protocol/vless/src/client.rs], [server.rs]
    and [relay_stream_udp] of [common.rs]

    How a configuration becomes a net, what the net puts on a connection, what
    the server makes of it, and the datagrams of both sides.  TLS, REALITY's
    handshake (see [Reality] and [RealityStream]), the UUID parser and tokio's
    [Framed] are parameters. *)

From S2P Require Import Prelude Io Address Vless Reality.

Module VlessNet.

Section Net.
(** [Uuid::parse_str], [ServerName::try_from]; the configurations of the TLS
    libraries. *)
Context {TlsConfig RealityTls : Type} (parse_uuid : bytes -> option bytes) (valid_server_name : bytes -> bool).

(* src/protocol/vless/src/common.rs:69-71 UserId::parse *)
Definition user_id_parse (id : bytes) : res bytes :=
  match parse_uuid id with Some b => Ok b | None => Err (EOther "invalid UUID") end.

(** ** The client *)

(** [net] is a handle. *)
(* src/protocol/vless/src/client.rs:32-67 VlessNetConfig *)
Record VlessNetConfig : Type := mkVlessNetConfig {
  c_net : nat;
  c_server : Address;
  c_id : bytes;
  c_flow : option bytes;
  c_sni : option bytes;
  c_skip_cert_verify : bool;
  c_udp : bool;
  c_client_fingerprint : option bytes;
  c_reality_public_key : option bytes;
  c_reality_short_id : option bytes }.

(* src/protocol/vless/src/client.rs:69-71 default_flow *)
Definition default_flow : option bytes := Some FLOW_VISION.

(* src/protocol/vless/src/client.rs:81-92 Transport *)
Inductive Transport : Type :=
| Tls (net : nat) (server_name : bytes) (connector : TlsConfig)
| RealityTransport (net : nat) (server_name : bytes) (config : RealityTls).

(* src/protocol/vless/src/client.rs:73-79 VlessNet *)
Record VlessNet : Type := mkVlessNet {
  server : Address; user_id : bytes; flow : NormalizedFlow; udp : bool; transport : Transport }.

(** [tls_config skip alpn] builds the client configuration, whose verifier
    accepts any certificate when [skip] is set; [reality_config] is
    [build_rustls_config]. *)
(* src/protocol/vless/src/client.rs:133-200 VlessNet::new *)
Definition vless_net_new (tls_config : bool -> list bytes -> res TlsConfig)
    (reality_config : Reality.RealityConfig -> res RealityTls) (config : VlessNetConfig) : res VlessNet :=
  transport ← match c_reality_public_key config with
    | Some public_key =>
      let server_name := default (host (c_server config)) (c_sni config) in
      let rc := Reality.mkRealityConfig public_key (c_reality_short_id config) (c_client_fingerprint config) in
      _ ← Reality.validate_client_fingerprint rc;
      cfg ← reality_config rc;
      Ok (RealityTransport (c_net config) server_name cfg)
    | None =>
      let server_name := default (host (c_server config)) (c_sni config) in
      cfg ← tls_config (c_skip_cert_verify config) [lit "h2"; lit "http/1.1"];
      Ok (Tls (c_net config) server_name cfg)
    end;
  user_id ← user_id_parse (c_id config);
  flow ← normalized_flow_parse (c_flow config);
  Ok (mkVlessNet (c_server config) user_id flow (c_udp config) transport).

(** What is connected, and the flag REALITY shares with Vision. *)
Inductive Conn (Stream : Type) : Type :=
| TlsConn (s : Stream) (config : TlsConfig) (server_name : bytes)
| RealityConn (s : Stream) (config : RealityTls) (server_name : bytes) (shared : bool).
Arguments TlsConn {Stream}.
Arguments RealityConn {Stream}.

Section Connect.
Context {Stream : Type} (tcp_connect : nat -> Address -> res Stream).
Context (tls_handshake reality_handshake : Conn Stream -> res unit).

(** The name is looked at after the connection is made. *)
(* src/protocol/vless/src/client.rs:202-239 VlessNet::connect_stream *)
Definition connect_stream (n : VlessNet) (shared_read_raw : bool) : res (Conn Stream) :=
  match transport n with
  | Tls net server_name connector =>
    stream ← tcp_connect net (server n);
    _ ← ensure (valid_server_name server_name) (EBoxed EInvalidInput);
    _ ← map_err map_other (tls_handshake (TlsConn stream connector server_name));
    Ok (TlsConn stream connector server_name)
  | RealityTransport net server_name config =>
    stream ← tcp_connect net (server n);
    _ ← ensure (valid_server_name server_name) EInvalidInput;
    _ ← reality_handshake (RealityConn stream config server_name shared_read_raw);
    Ok (RealityConn stream config server_name shared_read_raw)
  end.

(** The layers of a stream: [ResponseHeaderStream] over [PrefixWriteStream]
    with the header, and [VisionStream] over both. *)
Record Layers : Type := mkLayers { l_conn : Conn Stream; l_prefix : bytes; l_vision : option bytes; l_shared : bool }.

(* src/protocol/vless/src/client.rs:244-268 VlessNet::tcp_connect *)
Definition vless_tcp_connect (n : VlessNet) (addr : Address) : res Layers :=
  let shared_read_raw := is_vision (flow n) in
  stream ← connect_stream n shared_read_raw;
  header ← map_err map_other (build_request_header (user_id n) (flow n) COMMAND_TCP addr);
  Ok (mkLayers stream header (if is_vision (flow n) then Some (user_id n) else None) shared_read_raw).

(** The header is written and flushed before the codec is set up. *)
(* src/protocol/vless/src/client.rs:273-310 VlessNet::udp_bind *)
Definition vless_udp_bind (write_all : Conn Stream -> bytes -> res unit) (n : VlessNet) : res (Layers * bytes) :=
  _ ← ensure (udp n) ENotEnabled;
  _ ← ensure (is_vision (flow n)) (EOther "vless udp currently requires xtls-rprx-vision");
  stream ← connect_stream n true;
  header ← build_request_header (user_id n) (flow n) COMMAND_MUX (ADomain MUX_DOMAIN MUX_PORT);
  _ ← write_all stream header;
  Ok (mkLayers stream [] (Some (user_id n)) true, header).

End Connect.

(** ** The client's datagrams *)

(** The codec and the writer's buffer; [ready] and [flush] are what [Framed]
    answers, [next] its next item. *)
(* src/protocol/vless/src/client.rs:323-326 VlessUdp *)
Record VlessUdp : Type := mkVlessUdp { vu_codec : XudpCodec; vu_wire : bytes; vu_flushing : bool }.

(* src/protocol/vless/src/client.rs:337-358 VlessUdp::poll_recv_from *)
Definition vless_udp_recv (cap : nat) (next : poll (option (res (bytes * Address)))) : poll (res (bytes * SocketAddr)) :=
  match next with
  | Pending => Pending
  | Ready None => Ready (Err EUnexpectedEof)
  | Ready (Some (Err e)) => Ready (Err e)
  | Ready (Some (Ok (d, ADomain _ _))) => Ready (Err EInvalidData)
  | Ready (Some (Ok (d, ASocket from))) => Ready (Ok (take cap d, from))
  end.

(** The waiting for the flush. *)
(* src/protocol/vless/src/client.rs:367-371 VlessUdp::poll_send_to (flushing) *)
Definition vless_udp_flush (flush : poll (res unit)) (s : VlessUdp) (buf : bytes) : VlessUdp * poll (res nat) :=
  match flush with
  | Pending => (s, Pending)
  | Ready (Err e) => (s, Ready (Err e))
  | Ready (Ok _) => (mkVlessUdp (vu_codec s) (vu_wire s) false, Ready (Ok (length buf)))
  end.

(* src/protocol/vless/src/client.rs:360-377 VlessUdp::poll_send_to *)
Definition vless_udp_send (ready flush : poll (res unit)) (s : VlessUdp) (buf : bytes) (target : Address)
    : VlessUdp * poll (res nat) :=
  if vu_flushing s then vless_udp_flush flush s buf
  else
    match ready with
    | Pending => (s, Pending)
    | Ready (Err e) => (s, Ready (Err e))
    | Ready (Ok _) =>
      match xudp_encode (vu_codec s) buf target with
      | (c, Err e) => (mkVlessUdp c (vu_wire s) false, Ready (Err e))
      | (c, Ok w) => vless_udp_flush flush (mkVlessUdp c (vu_wire s ++ w) true) buf
      end
    end.

(** ** The server *)

(** What becomes of an accepted stream: it is spliced to a connection, its
    datagrams are relayed, or it is closed.  With what is written before that
    and the bytes of the stream that are left. *)
Inductive Served : Type :=
| Spliced (addr : Address) (vision : bool) (rest : bytes)
| Relayed (rest : bytes)
| Refused (e : error).

(** [input]: the bytes of the stream. *)
(* src/protocol/vless/src/server.rs:97-153 VlessServer::serve_vless_stream *)
Definition serve_vless_stream (user : bytes) (flow : NormalizedFlow) (udp : bool) (connect : Address -> res unit)
    (input : bytes) : bytes * Served :=
  match read_request_header user input with
  | Err e => ([], Refused e)
  | Ok (request, rest) =>
    if negb (bool_decide (rh_flow request = flow)) then ([], Refused (EOther "unexpected vless flow"))
    else if rh_command request =? COMMAND_TCP then
      match connect (rh_addr request) with
      | Err e => ([], Refused e)
      | Ok _ => (write_response_header, Spliced (rh_addr request) (is_vision flow) rest)
      end
    else if (rh_command request =? COMMAND_MUX) && udp && is_vision flow
            && match rh_addr request with
               | ADomain domain port => bool_decide (domain = MUX_DOMAIN) && (port =? MUX_PORT)
               | ASocket _ => false
               end
    then (write_response_header, Relayed rest)
    else ([], Refused (EOther "unsupported vless command"))
  end.

(* src/protocol/vless/src/server.rs:61-64 ServerAcceptor *)
Inductive ServerAcceptor : Type :=
| AcceptTls (config : TlsConfig)
| AcceptReality (config : Reality.RealityServerConfig).

(* src/protocol/vless/src/server.rs:15-44 VlessServerConfig *)
Record VlessServerConfig : Type := mkVlessServerConfig {
  s_bind : Address;
  s_id : bytes;
  s_flow : option bytes;
  s_tls_cert : bytes;
  s_tls_key : bytes;
  s_reality_server_name : option bytes;
  s_reality_private_key : option bytes;
  s_reality_short_id : option bytes;
  s_udp : bool }.

(* src/protocol/vless/src/server.rs:50-58 VlessServer *)
Record VlessServer : Type := mkVlessServer {
  vs_bind : Address; vs_user_id : bytes; vs_flow : NormalizedFlow; vs_acceptor : ServerAcceptor; vs_udp : bool }.

(** [build_server_config] reads the certificate and the key. *)
(* src/protocol/vless/src/server.rs:67-95 VlessServer::new *)
Definition vless_server_new (build_server_config : bytes -> bytes -> res TlsConfig) (config : VlessServerConfig) : res VlessServer :=
  acceptor ← match s_reality_private_key config with
    | Some private_key =>
      name ← ok_or (EOther "reality_server_name is required when reality_private_key is set") (s_reality_server_name config);
      Ok (AcceptReality (Reality.mkRealityServer name private_key (s_reality_short_id config) None))
    | None =>
      c ← build_server_config (s_tls_cert config) (s_tls_key config);
      Ok (AcceptTls c)
    end;
  user ← user_id_parse (s_id config);
  flow ← normalized_flow_parse (s_flow config);
  Ok (mkVlessServer (s_bind config) user flow acceptor (s_udp config)).

(** [tls_accept] and [reality_accept] give the bytes of the inner stream. *)
(* src/protocol/vless/src/server.rs:155-179 VlessServer::serve_connection *)
Definition serve_connection (tls_accept : TlsConfig -> res bytes) (reality_accept : Reality.RealityServerConfig -> res bytes)
    (s : VlessServer) (connect : Address -> res unit) : bytes * Served :=
  match match vs_acceptor s with
        | AcceptTls c => map_err map_other (tls_accept c)
        | AcceptReality c => reality_accept c
        end with
  | Err e => ([], Refused e)
  | Ok input => serve_vless_stream (vs_user_id s) (vs_flow s) (vs_udp s) connect input
  end.

(** ** The server's datagrams *)

(** What the loop waits for: a datagram of the stream, or one of the socket. *)
Inductive RelayEvent : Type :=
| FromStream (item : option (res (bytes * Address)))
| FromSocket (r : res (bytes * SocketAddr)).

(** [send_to] and [sink_send]: what sending a datagram answers.  The
    datagrams sent on the socket and on the stream, and how the loop ends
    ([None]: it goes on). *)
(* src/protocol/vless/src/common.rs:885-921 relay_stream_udp *)
Fixpoint relay_stream_udp (send_to : bytes -> Address -> res unit) (sink_send : bytes -> Address -> res unit)
    (events : list RelayEvent) : list (bytes * Address) * list (bytes * Address) * option (res unit) :=
  match events with
  | [] => ([], [], None)
  | FromStream (Some (Ok (data, target))) :: events =>
    match send_to data target with
    | Err e => ([], [], Some (Err (to_io_err e)))
    | Ok _ => let '(a, b, r) := relay_stream_udp send_to sink_send events in ((data, target) :: a, b, r)
    end
  | FromStream (Some (Err e)) :: _ => ([], [], Some (Err e))
  | FromStream None :: _ => ([], [], Some (Ok ()))
  | FromSocket (Ok (data, from)) :: events =>
    match sink_send data (ASocket from) with
    | Err e => ([], [], Some (Err e))
    | Ok _ => let '(a, b, r) := relay_stream_udp send_to sink_send events in (a, (data, ASocket from) :: b, r)
    end
  | FromSocket (Err e) :: _ => ([], [], Some (Err (to_io_err e)))
  end.

(** ** Facts *)

(** [Uuid::as_bytes] has 16 bytes. *)
Context (parse_uuid_len : forall id b, parse_uuid id = Some b -> length b = 16%nat).

Lemma net_new_parts tls rc c n : vless_net_new tls rc c = Ok n ->
  parse_uuid (c_id c) = Some (user_id n) /\ normalized_flow_parse (c_flow c) = Ok (flow n) /\
  server n = c_server c /\ udp n = c_udp c.
Proof.
  unfold vless_net_new, user_id_parse. intros E. unfold mbind, res_bind in E.
  destruct (match c_reality_public_key c with Some _ => _ | None => _ end) as [t|e]; [|done].
  destruct (parse_uuid (c_id c)) as [u|]; [|done]. destruct (normalized_flow_parse (c_flow c)) as [f|e]; [|done].
  by injection E as <-.
Qed.

(** A server given as an IPv6 address has its brackets in the name that TLS
    and REALITY are asked for, which is no name, unless one is configured. *)
Lemma vless_ipv6_needs_sni {Stream} (dial : nat -> Address -> res Stream) th rh tls rc c n a p :
  (forall s, valid_server_name (91 :: s) = false) -> c_server c = ASocket (mkSocketAddr (V6 a) p) -> c_sni c = None ->
  vless_net_new tls rc c = Ok n -> forall raw s, connect_stream dial th rh n raw <> Ok s.
Proof.
  intros Hv Es En H raw s. set (name := host (ASocket (mkSocketAddr (V6 a) p))).
  assert (E : valid_server_name name = false) by apply (Hv (show_ipv6 a ++ lit "]")).
  assert (T : (exists i k, transport n = Tls i name k) \/ (exists i k, transport n = RealityTransport i name k)).
  { unfold vless_net_new, mbind, res_bind in H. rewrite Es, En in H. cbn [default] in H. fold name in H.
    destruct (c_reality_public_key c) as [k|].
    - destruct (Reality.validate_client_fingerprint _); [|done]. destruct (rc _); [|done].
      destruct (user_id_parse _); [|done]. destruct (normalized_flow_parse _); [|done].
      injection H as <-. right. by eexists _, _.
    - destruct (tls _ _); [|done]. destruct (user_id_parse _); [|done]. destruct (normalized_flow_parse _); [|done]. injection H as <-. left. by eexists _, _. }
  unfold connect_stream, mbind, res_bind, ensure. destruct T as [(i & k & ->)|(i & k & ->)]; destruct (dial i _); try done; by rewrite E.
Qed.

Lemma server_new_parts b c v : vless_server_new b c = Ok v ->
  parse_uuid (s_id c) = Some (vs_user_id v) /\ normalized_flow_parse (s_flow c) = Ok (vs_flow v) /\ vs_udp v = s_udp c.
Proof.
  unfold vless_server_new, user_id_parse. intros E. unfold mbind, res_bind in E.
  destruct (match s_reality_private_key c with Some _ => _ | None => _ end) as [t|e]; [|done].
  destruct (parse_uuid (s_id c)) as [u|]; [|done]. destruct (normalized_flow_parse (s_flow c)) as [f|e]; [|done].
  by injection E as <-.
Qed.

(** A net and a server made from configurations with the same id and flow. *)
Definition paired (n : VlessNet) (v : VlessServer) : Prop :=
  user_id n = vs_user_id v /\ flow n = vs_flow v /\ length (user_id n) = 16%nat /\
  (flow n = None \/ flow n = Some FLOW_VISION).

Lemma new_paired tls rc c n b sc v : vless_net_new tls rc c = Ok n -> vless_server_new b sc = Ok v ->
  c_id c = s_id sc -> c_flow c = s_flow sc -> paired n v.
Proof.
  intros (Hu & Hf & _)%net_new_parts (Hu' & Hf' & _)%server_new_parts Ei Ef.
  rewrite Ei, Hu' in Hu. rewrite Ef, Hf' in Hf. injection Hu as Hu. injection Hf as Hf.
  split; [done|]. split; [done|]. split; [rewrite <- Hu; by eapply parse_uuid_len|].
  rewrite <- Hf. by eapply normalized_flow_cases.
Qed.

(** C8: A connection the net makes is the one the server makes: whatever follows
    the net's header, a server of the same id and flow connects to the very
    address asked for, answers with its header, splices what follows the
    request, and both sides agree on whether Vision is spoken. *)
Theorem vless_tcp_end_to_end {Stream} (dial : nat -> Address -> res Stream) th rh tls rc c n b sc v addr l connect payload :
  vless_net_new tls rc c = Ok n -> vless_server_new b sc = Ok v -> c_id c = s_id sc -> c_flow c = s_flow sc ->
  addr_utf8 addr -> vless_tcp_connect dial th rh n addr = Ok l ->
  serve_vless_stream (vs_user_id v) (vs_flow v) (vs_udp v) connect (l_prefix l ++ payload) =
    match connect addr with
    | Ok _ => (write_response_header, Spliced addr (bool_decide (l_vision l <> None)) payload)
    | Err e => ([], Refused e)
    end.
Proof.
  intros Hn Hv Ei Ef Ha E. destruct (new_paired _ _ _ _ _ _ _ Hn Hv Ei Ef) as (Hu & Hfl & Hlen & Hnf).
  unfold vless_tcp_connect, mbind, res_bind in E. destruct (connect_stream _ _ _ _ _) as [s|e]; [|done].
  destruct (build_request_header (user_id n) (flow n) COMMAND_TCP addr) as [w|e] eqn:Eb; [|done]. injection E as <-.
  cbn [l_prefix l_vision]. unfold serve_vless_stream. rewrite <- Hu, <- Hfl.
  rewrite (request_header_read _ _ _ _ _ payload Hlen Hnf Ha Eb). cbn [rh_flow rh_command rh_addr].
  rewrite bool_decide_true by done. cbn.
  destruct (connect addr); [|done]. do 2 f_equal. by destruct (is_vision (flow n)).
Qed.

(** The same for datagrams: a server that has them enabled relays what
    follows the net's header. *)
Theorem vless_udp_end_to_end {Stream} (dial : nat -> Address -> res Stream) th rh tls rc c n b sc v wr l w connect payload :
  vless_net_new tls rc c = Ok n -> vless_server_new b sc = Ok v -> c_id c = s_id sc -> c_flow c = s_flow sc ->
  vless_udp_bind dial th rh wr n = Ok (l, w) ->
  c_udp c = true /\ l_vision l = Some (vs_user_id v) /\
  serve_vless_stream (vs_user_id v) (vs_flow v) (vs_udp v) connect (w ++ payload) =
    if s_udp sc then (write_response_header, Relayed payload) else ([], Refused (EOther "unsupported vless command")).
Proof.
  intros Hn Hv Ei Ef E. destruct (new_paired _ _ _ _ _ _ _ Hn Hv Ei Ef) as (Hu & Hfl & Hlen & Hnf).
  destruct (net_new_parts _ _ _ _ Hn) as (_ & _ & _ & Hudp). destruct (server_new_parts _ _ _ Hv) as (_ & _ & Hsu).
  unfold vless_udp_bind, mbind, res_bind, ensure in E. destruct (udp n); [|done].
  destruct (is_vision (flow n)) eqn:Ev; [|done]. destruct (connect_stream _ _ _ _ _) as [s|e]; [|done].
  destruct (build_request_header (user_id n) (flow n) COMMAND_MUX _) as [x|e] eqn:Eb; [|done].
  destruct (wr s x); [|done]. injection E as <- <-. split; [done|]. split; [by rewrite <- Hu|].
  unfold serve_vless_stream. rewrite <- Hu, <- Hfl, Hsu.
  rewrite (request_header_read (user_id n) (flow n) COMMAND_MUX (ADomain MUX_DOMAIN MUX_PORT) x payload); try done.
  - cbn [rh_flow rh_command rh_addr]. rewrite bool_decide_true by done. rewrite Ev. by destruct (s_udp sc).
  - split; [split; [apply bytes_okb_spec; reflexivity|unfold port_ok; cbv; split; congruence]|reflexivity].
Qed.

Lemma read_request_header_inv user input q rest : read_request_header user input = Ok (q, rest) ->
  exists r, input = VLESS_VERSION :: user ++ r.
Proof.
  unfold read_request_header. rewrite bind_reader. destruct (read_u8 input) as [[v i1]|] eqn:E1; [|done].
  rewrite bind_reader. unfold rlift at 1, ensure. destruct (v =? VLESS_VERSION) eqn:Ev; [|done].
  rewrite bind_reader. destruct (read_exact 16 i1) as [[u i2]|] eqn:E2; [|done].
  rewrite bind_reader. unfold rlift at 1, ensure. case_bool_decide as Hu; [|done]. intros _. subst u.
  apply read_exact_ok in E2 as [-> _]. exists i2.
  unfold read_u8, read_be in E1. rewrite bind_reader in E1. destruct (read_exact 1 input) as [[x i3]|] eqn:E3; [|done].
  apply read_exact_ok in E3 as [-> Hx]. injection E1 as <- ->. apply Z.eqb_eq in Ev. rewrite <- Ev.
  destruct x as [|b [|? ?]]; try done. cbn. f_equal. lia.
Qed.

(** Nothing is connected or relayed, and nothing is written, for a stream
    that does not begin with the version and the id of the configured user. *)
Theorem vless_server_gate user flow udp connect input w r : serve_vless_stream user flow udp connect input = (w, r) ->
  (exists e, r = Refused e /\ w = []) \/
  (w = write_response_header /\ exists rest, input = VLESS_VERSION :: user ++ rest).
Proof.
  unfold serve_vless_stream. destruct (read_request_header user input) as [[q rest]|e] eqn:Er; [|intros [= <- <-]; eauto].
  apply read_request_header_inv in Er. destruct (negb _); [intros [= <- <-]; eauto|].
  destruct (_ =? COMMAND_TCP); [destruct (connect _); intros [= <- <-]; eauto|].
  destruct (_ && _ && _ && _); intros [= <- <-]; eauto.
Qed.

(** The relay sends on what comes, each datagram to its own target and in
    order, in both directions, for as long as it runs. *)
Theorem vless_relay_exact send_to sink_send events out back r :
  relay_stream_udp send_to sink_send events = (out, back, r) ->
  out `prefix_of` omap (fun e => match e with FromStream (Some (Ok x)) => Some x | _ => None end) events /\
  back `prefix_of` omap (fun e => match e with FromSocket (Ok (d, a)) => Some (d, ASocket a) | _ => None end) events /\
  (r = None -> out = omap (fun e => match e with FromStream (Some (Ok x)) => Some x | _ => None end) events /\
     back = omap (fun e => match e with FromSocket (Ok (d, a)) => Some (d, ASocket a) | _ => None end) events).
Proof.
  revert out back. induction events as [|ev events IH]; intros out back E; cbn [relay_stream_udp] in E; [by injection E as <- <- <-|].
  destruct ev as [[[[d t]|e]|]|[[d f]|e]]; cbn [omap list_omap]; try (injection E as <- <- <-; split; [apply prefix_nil|split; [apply prefix_nil|done]]).
  - destruct (send_to d t); [|injection E as <- <- <-; split; [apply prefix_nil|split; [apply prefix_nil|done]]].
    destruct (relay_stream_udp send_to sink_send events) as [[x y] r'] eqn:Er. injection E as <- <- <-.
    destruct (IH x y eq_refl) as (H1 & H2 & H3). split; [by apply prefix_cons|]. split; [done|].
    intros Hr. destruct (H3 Hr) as [-> ->]. done.
  - destruct (sink_send d (ASocket f)); [|injection E as <- <- <-; split; [apply prefix_nil|split; [apply prefix_nil|done]]].
    destruct (relay_stream_udp send_to sink_send events) as [[x y] r'] eqn:Er. injection E as <- <- <-.
    destruct (IH x y eq_refl) as (H1 & H2 & H3). split; [done|]. split; [by apply prefix_cons|].
    intros Hr. destruct (H3 Hr) as [-> ->]. done.
Qed.

(** One datagram that cannot be sent, to a name that does not resolve for
    instance, ends the relay of all of them. *)
Theorem vless_relay_fails_all send_to sink_send d t e events : send_to d t = Err e ->
  relay_stream_udp send_to sink_send (FromStream (Some (Ok (d, t))) :: events) = ([], [], Some (Err (to_io_err e))).
Proof. intros E. cbn. by rewrite E. Qed.

(** A datagram sent while the one before is still being flushed is reported
    as sent and thrown away. *)
Theorem vless_udp_stale a b ta tb ready : Z.of_nat (length a) <= 65535 -> (exists w, write_address ta = Ok w) ->
  exists s w, vless_udp_send (Ready (Ok ())) Pending (mkVlessUdp (mkXudp None) [] false) a ta = (s, Pending) /\
    xudp_encode (mkXudp None) a ta = (mkXudp (Some ta), Ok w) /\ vu_wire s = w /\
    vless_udp_send ready (Ready (Ok ())) s b tb = (mkVlessUdp (mkXudp (Some ta)) w false, Ready (Ok (length b))).
Proof.
  intros Hl [x Ex].
  assert (Ee : exists w, xudp_encode (mkXudp None) a ta = (mkXudp (Some ta), Ok w)).
  { unfold xudp_encode. replace (Z.to_nat 65535 <? length a)%nat with false by (symmetry; apply Nat.ltb_ge; lia).
    cbn [last_addr]. rewrite bool_decide_false by done. rewrite Ex. eauto. }
  destruct Ee as [w Ee]. unfold vless_udp_send. cbn [vu_flushing vu_codec vu_wire]. rewrite Ee.
  eexists _, w. split; [reflexivity|]. by cbn.
Qed.

End Net.

(** ** Samples *)

Definition sample_uuid (id : bytes) : option bytes := if decide (id = lit "u1") then Some (repeat 7 16) else None.
Lemma sample_uuid_len id b : sample_uuid id = Some b -> length b = 16%nat.
Proof. unfold sample_uuid. case_decide; [|done]. by intros [= <-]. Qed.

Definition sample_net_config : VlessNetConfig :=
  mkVlessNetConfig 0 (ADomain (lit "proxy") 443) (lit "u1") default_flow None false true None None None.
Definition sample_server_config : VlessServerConfig :=
  mkVlessServerConfig (ADomain (lit "localhost") 443) (lit "u1") default_flow [] [] None None None true.
Definition sample_target : Address := ADomain (lit "example.com") 80.

Lemma sample_target_ok : addr_utf8 sample_target.
Proof. split; [split; [apply bytes_okb_spec; reflexivity|unfold port_ok; cbv; split; congruence]|reflexivity]. Qed.

Lemma vless_tcp_end_to_end_witness : exists n v l,
  vless_net_new (TlsConfig := unit) (RealityTls := unit) sample_uuid (fun _ _ => Ok tt) (fun _ => Ok tt) sample_net_config = Ok n /\
  vless_server_new sample_uuid (fun _ _ => Ok tt) sample_server_config = Ok v /\
  vless_tcp_connect (fun _ => true) (fun _ _ => Ok tt) (fun _ => Ok tt) (fun _ => Ok tt) n sample_target = Ok l /\
  serve_vless_stream (vs_user_id v) (vs_flow v) (vs_udp v) (fun _ => Ok tt) (l_prefix l ++ [1; 2]) =
    (write_response_header, Spliced sample_target (bool_decide (l_vision l <> None)) [1; 2]).
Proof.
  do 3 eexists. split; [reflexivity|]. split; [reflexivity|]. split; [reflexivity|].
  eapply (vless_tcp_end_to_end (TlsConfig := unit) (RealityTls := unit) sample_uuid (fun _ => true) sample_uuid_len
    (fun _ _ => Ok tt) (fun _ => Ok tt) (fun _ => Ok tt) (fun _ _ => Ok tt) (fun _ => Ok tt) sample_net_config _
    (fun _ _ => Ok tt) sample_server_config _ sample_target _ (fun _ => Ok tt) [1; 2]);
    first [exact sample_target_ok | reflexivity].
Defined.

Lemma vless_udp_end_to_end_witness : exists n v l w,
  vless_net_new (TlsConfig := unit) (RealityTls := unit) sample_uuid (fun _ _ => Ok tt) (fun _ => Ok tt) sample_net_config = Ok n /\
  vless_server_new sample_uuid (fun _ _ => Ok tt) sample_server_config = Ok v /\
  vless_udp_bind (fun _ => true) (fun _ _ => Ok tt) (fun _ => Ok tt) (fun _ => Ok tt) (fun _ _ => Ok tt) n = Ok (l, w) /\
  c_udp sample_net_config = true.
Proof.
  do 4 eexists. split; [reflexivity|]. split; [reflexivity|]. split; [reflexivity|].
  eapply (vless_udp_end_to_end (TlsConfig := unit) (RealityTls := unit) sample_uuid (fun _ => true) sample_uuid_len
    (fun _ _ => Ok tt) (fun _ => Ok tt) (fun _ => Ok tt) (fun _ _ => Ok tt) (fun _ => Ok tt) sample_net_config _
    (fun _ _ => Ok tt) sample_server_config _ (fun _ _ => Ok tt) _ _ (fun _ => Ok tt) [1; 2]); reflexivity.
Defined.

Lemma vless_server_gate_witness : exists rest, [0; 7; 7; 7; 7; 7; 7; 7; 7; 7; 7; 7; 7; 7; 7; 7; 7; 0; 1; 0; 80; 1; 1; 2; 3; 4] =
  VLESS_VERSION :: repeat 7 16 ++ rest.
Proof.
  destruct (vless_server_gate (repeat 7 16) None false (fun _ => Ok tt)
    [0; 7; 7; 7; 7; 7; 7; 7; 7; 7; 7; 7; 7; 7; 7; 7; 7; 0; 1; 0; 80; 1; 1; 2; 3; 4] _ _ eq_refl) as [(e & E & _)|(_ & r)].
  - discriminate E.
  - exact r.
Defined.

Lemma vless_relay_exact_witness :
  [([1], sample_target)] `prefix_of`
    omap (fun e => match e with FromStream (Some (Ok x)) => Some x | _ => None end) [FromStream (Some (Ok ([1], sample_target))); FromStream None].
Proof.
  apply (vless_relay_exact (fun _ _ => Ok tt) (fun _ _ => Ok tt) [FromStream (Some (Ok ([1], sample_target))); FromStream None]
    [([1], sample_target)] [] (Some (Ok tt)) eq_refl).
Defined.

Lemma vless_relay_fails_all_witness :
  relay_stream_udp (fun _ _ => Err ENotFoundIO) (fun _ _ => Ok tt) [FromStream (Some (Ok ([1], sample_target)))] =
    ([], [], Some (Err ENotFoundIO)).
Proof. apply (vless_relay_fails_all (fun _ _ => Err ENotFoundIO) (fun _ _ => Ok tt) [1] sample_target ENotFoundIO [] eq_refl). Defined.

Lemma vless_udp_stale_witness : exists s w, vless_udp_send (Ready (Ok ())) Pending (mkVlessUdp (mkXudp None) [] false) [1] sample_target = (s, Pending) /\
  vless_udp_send Pending (Ready (Ok ())) s [2; 3] sample_target = (mkVlessUdp (mkXudp (Some sample_target)) w false, Ready (Ok 2%nat)).
Proof.
  destruct (vless_udp_stale [1] [2; 3] sample_target sample_target Pending) as (s & w & E1 & _ & _ & E2);
    [cbn; lia | eexists; reflexivity |]. exists s, w. split; [exact E1 | exact E2].
Defined.

End VlessNet.
