(* ===== verification/Update.v ===== *)
(** * Updates: the second half of [src/src/api_server/rpc.rs]

    An update is a manifest of verified downloads that are installed as files or
    as unpacked directories below a few allowed roots.  The file system is a map
    from real paths, as lists of components, to files; the operating system
    finds the real path of one the code uses by following its [..] (symbolic
    links are not modelled).  An oracle says which of its operations fail, so that a theorem over all oracles is one over all
    failures.  HTTP, SHA-256 and [unzip] are third-party code. *)

From S2P Require Import Prelude ConnContext Build.

Module Update.

(** ** Paths *)

(** [Path::components]. *)
Abbreviation path := (list bytes).

(** [Path::starts_with]. *)
Definition starts_with (p root : path) : bool := bool_decide (root `prefix_of` p).

(** [Path::file_stem]: the name up to its last dot, unless the dot is its first
    character. *)
Fixpoint last_dot (name : bytes) (i : nat) (found : option nat) : option nat :=
  match name with
  | [] => found
  | b :: name => last_dot name (Datatypes.S i) (if b =? 46 then Some i else found)
  end.

Definition file_stem (name : bytes) : bytes :=
  match last_dot name 0 None with Some (Datatypes.S i) => take (Datatypes.S i) name | _ => name end.

(** [Path::with_extension]: a path that does not end in a name stays. *)
Definition with_extension (p : path) (ext : bytes) : path :=
  match last p with
  | Some name => if bool_decide (name = lit "..") then p else take (length p - 1) p ++ [file_stem name ++ [46] ++ ext]
  | None => p
  end.

Definition parent (p : path) : path := take (length p - 1) p.

(** What the operating system makes of a path: [..] leads to the parent
    directory, which above the root is the root; a relative path may lead out
    of where it starts. *)
Definition up (p : path) : path :=
  match last p with
  | Some n => if bool_decide (n = lit "/") then p else if bool_decide (n = lit "." \/ n = lit "..") then p ++ [lit ".."] else parent p
  | None => [lit ".."]
  end.

Definition resolve (p : path) : path :=
  fold_left (fun at_ n => if bool_decide (n = lit "..") then up at_ else at_ ++ [n]) p [].

(** A path that is its own real path. *)
Definition plain (p : path) : Prop := Forall (fun n => n <> lit "..") p.

Lemma resolve_snoc p n : n <> lit ".." -> resolve (p ++ [n]) = resolve p ++ [n].
Proof. intros H. unfold resolve. rewrite fold_left_app. cbn [fold_left]. by rewrite bool_decide_eq_false_2. Qed.

Lemma resolve_plain p : plain p -> resolve p = p.
Proof.
  induction p as [|n p IH] using rev_ind; intros H; [done|]. apply Forall_app in H as [Hp Hn].
  rewrite Forall_singleton in Hn. by rewrite resolve_snoc, IH.
Qed.

Lemma plain_new p : plain p -> plain (with_extension p (lit "new")).
Proof.
  intros Hp. unfold with_extension. destruct (last p) as [name|]; [|done]. destruct (bool_decide _); [done|].
  apply Forall_app. split; [by apply Forall_take|]. rewrite Forall_singleton. intros E.
  apply (f_equal length) in E. rewrite !length_app in E. cbn in E. lia.
Qed.

(** ** The file system *)

Record File : Type := mkFile { f_content : bytes; f_exec : bool }.
Abbreviation Fs := (gmap (list bytes) File).

Inductive FsOp : Type :=
| OMkdirs (p : path)
| OWrite (p : path) (b : bytes)
| OCopy (b : bytes) (p : path)
| OSetExec (p : path)
| ORename (a b : path)
| ORemoveAll (p : path).

Definition below (root : path) (kv : path * File) : Prop := root `prefix_of` kv.1.

#[global] Instance below_dec root kv : Decision (below root kv).
Proof. unfold below. apply _. Defined.

Definition fs_put (fs : Fs) (p : path) (b : bytes) : Fs :=
  <[p := mkFile b (match fs !! p with Some f => f_exec f | None => false end)]> fs.

Definition fs_do (fs : Fs) (o : FsOp) : Fs :=
  match o with
  | OMkdirs _ => fs
  | OWrite p b | OCopy b p => fs_put fs (resolve p) b
  | OSetExec p => alter (fun f => mkFile (f_content f) true) (resolve p) fs
  | ORename a b => match fs !! resolve a with Some f => <[resolve b := f]> (delete (resolve a) fs) | None => fs end
  | ORemoveAll p => filter (fun kv => ~ below (resolve p) kv) fs
  end.

(** An operation that fails: its error, and what it left behind of a write, or
    which files of a directory it has removed. *)
Record Failure : Type := mkFailure { fl_error : bytes; fl_partial : nat; fl_removed : list path }.

Definition fs_fail (fs : Fs) (o : FsOp) (f : Failure) : Fs :=
  match o with
  | OWrite p b | OCopy b p => if (fl_partial f =? 0)%nat then fs else fs_do fs (OWrite p (take (fl_partial f) b))
  | ORemoveAll p => filter (fun kv => ~ (below (resolve p) kv /\ kv.1 ∈ fl_removed f)) fs
  | _ => fs
  end.

(** The files, by their real paths, that an operation may change. *)
Definition touches (o : FsOp) (q : path) : Prop :=
  match o with
  | OMkdirs _ => False
  | OWrite p _ | OCopy _ p | OSetExec p => q = resolve p
  | ORename a b => q = resolve a \/ q = resolve b
  | ORemoveAll p => resolve p `prefix_of` q
  end.

Lemma fs_do_other fs o q : ~ touches o q -> fs_do fs o !! q = fs !! q.
Proof.
  destruct o as [p|p b|b p|p|a b|p]; cbn [fs_do touches]; intros H; [done|..].
  - by apply lookup_insert_ne.
  - by apply lookup_insert_ne.
  - by apply lookup_alter_ne.
  - destruct (fs !! resolve a); [|done]. rewrite lookup_insert_ne, lookup_delete_ne; naive_solver.
  - destruct (fs !! q) as [f|] eqn:E; [by apply map_lookup_filter_Some_2|]. apply map_lookup_filter_None_2. by left.
Qed.

Lemma fs_fail_other fs o f q : ~ touches o q -> fs_fail fs o f !! q = fs !! q.
Proof.
  destruct o as [p|p b|b p|p|a b|p]; cbn [fs_fail]; intros H; try done.
  - destruct (fl_partial f =? 0)%nat; [done|]. by apply fs_do_other.
  - destruct (fl_partial f =? 0)%nat; [done|]. by apply fs_do_other.
  - destruct (fs !! q) as [g|] eqn:E; [|by apply map_lookup_filter_None_2; left].
    apply map_lookup_filter_Some_2; [done|]. cbn in H |- *. naive_solver.
Qed.

Section Installing.
(** What fails, at each operation in each state. *)
Context (fails : Fs -> FsOp -> option Failure).

Fixpoint fs_run (fs : Fs) (ops : list FsOp) : Fs * (unit + bytes) :=
  match ops with
  | [] => (fs, inl tt)
  | o :: ops =>
    match fails fs o with
    | Some f => (fs_fail fs o f, inr (fl_error f))
    | None => fs_run (fs_do fs o) ops
    end
  end.

(** ** Components *)

(* src/src/api_server/rpc.rs:149-152 UpdateInstallKind *)
Inductive UpdateInstallKind : Type := KFile | KZipDir.

(* src/src/api_server/rpc.rs:139-145 UpdateComponent *)
Record UpdateComponent : Type := mkComponent { source : bytes; kind : UpdateInstallKind; c_path : path; executable : bool }.

(* src/src/api_server/rpc.rs:132-136 UpdatePlan *)
Record UpdatePlan : Type := mkPlan { manifest_url : bytes; components : list UpdateComponent }.

(* src/src/api_server/rpc.rs:155-158 UpdateAsset *)
Record UpdateAsset : Type := mkAsset { a_url : bytes; sha256 : bytes }.

(** [data_dir], [config_dir] and the home directory. *)
Context (data_dir config_dir : path) (home : option path).

(* src/src/api_server/rpc.rs:778-784 ensure_update_path(roots) *)
Definition allowed_roots : list path :=
  [data_dir; config_dir; default [lit "."] home ++ [lit "homebrew"; lit "plugins"];
   [lit "/"; lit "home"; lit "deck"; lit "homebrew"; lit "plugins"]].

(* src/src/api_server/rpc.rs:777-792 ensure_update_path *)
Definition ensure_update_path (p : path) : bool := existsb (starts_with p) allowed_roots.

Definition outside : bytes := lit "Update target is outside allowed application directories".

(** [set_executable] is for unix. *)
(* src/src/api_server/rpc.rs:730-739 install_file_component(steps) *)
Definition install_file_ops (c : UpdateComponent) (b : bytes) : list FsOp :=
  let temp := with_extension (c_path c) (lit "new") in
  ([OMkdirs (parent (c_path c)); OWrite temp b] ++ (if executable c then [OSetExec temp] else [])) ++ [ORename temp (c_path c)].

(* src/src/api_server/rpc.rs:728-740 install_file_component *)
Definition install_file_component (fs : Fs) (c : UpdateComponent) (b : bytes) : Fs * (unit + bytes) :=
  if ensure_update_path (c_path c) then fs_run fs (install_file_ops c b) else (fs, inr outside).

Lemma fs_run_other ops : forall fs q, Forall (fun o => ~ touches o q) ops -> fst (fs_run fs ops) !! q = fs !! q.
Proof.
  induction ops as [|o ops IH]; intros fs q H; [done|]. apply Forall_cons in H as [Ho H]. cbn [fs_run].
  destruct (fails fs o); [by apply fs_fail_other|]. rewrite IH by done. by apply fs_do_other.
Qed.

Lemma fs_run_app a b : forall fs, fs_run fs (a ++ b) =
  match fs_run fs a with (fs, inl _) => fs_run fs b | (fs, inr e) => (fs, inr e) end.
Proof.
  induction a as [|o a IH]; intros fs; cbn [app fs_run]; [by destruct (fs_run fs b)|]. by destruct (fails fs o).
Qed.

Lemma fs_run_ok ops : forall fs fs' u, fs_run fs ops = (fs', inl u) -> fs' = fold_left fs_do ops fs.
Proof.
  induction ops as [|o ops IH]; intros fs fs' u; cbn [fs_run fold_left]; [by intros [= <-]|]. destruct (fails fs o); [done|apply IH].
Qed.

Definition temp_of (c : UpdateComponent) : path := with_extension (c_path c) (lit "new").

Definition real (c : UpdateComponent) : path := resolve (c_path c).
Definition real_temp (c : UpdateComponent) : path := resolve (temp_of c).

Lemma install_file_spec fs c b : real_temp c <> real c ->
  let '(fs', x) := install_file_component fs c b in
  (forall q, q <> real_temp c -> q <> real c -> fs' !! q = fs !! q) /\
  (fs' !! real c = fs !! real c \/
    exists f, fs' !! real c = Some f /\ f_content f = b /\ (executable c = true -> f_exec f = true)) /\
  (x = inl tt -> exists f, fs' !! real c = Some f /\ f_content f = b).
Proof.
  intros Ht. unfold install_file_component. destruct (ensure_update_path (c_path c)); [|split_and!; [done|by left|done]].
  unfold install_file_ops. fold (temp_of c) (real c) (real_temp c). set (pre := [OMkdirs _; _] ++ _).
  assert (Hpre : forall q, q <> real_temp c -> Forall (fun o => ~ touches o q) pre).
  { intros q Hq. subst pre. destruct (executable c); cbn [app]; rewrite !Forall_cons, Forall_nil; cbn [touches]; tauto. }
  assert (Hall : forall q, q <> real_temp c -> q <> real c -> Forall (fun o => ~ touches o q) (pre ++ [ORename (temp_of c) (c_path c)])).
  { intros q H1 H2. apply Forall_app. split; [by apply Hpre|]. rewrite Forall_cons, Forall_nil. cbn [touches]. tauto. }
  destruct (fs_run fs (pre ++ [ORename (temp_of c) (c_path c)])) as [fs' x] eqn:E.
  split; [intros q H1 H2; pose proof (fs_run_other _ fs q (Hall q H1 H2)) as Ho; by rewrite E in Ho|].
  rewrite fs_run_app in E. pose proof (fs_run_other pre fs (real c) (Hpre _ ltac:(done))) as Hold.
  destruct (fs_run fs pre) as [fs1 [[]|e]] eqn:E1; cbn [fst] in Hold.
  2: { simplify_eq. split; [by left|done]. }
  cbn [fs_run] in E. destruct (fails fs1 _) as [f|].
  { simplify_eq. cbn [fs_fail]. split; [by left|done]. }
  injection E as <- <-. apply fs_run_ok in E1. assert (Hf : exists f, fs1 !! real_temp c = Some f /\ f_content f = b /\ (executable c = true -> f_exec f = true)).
  { subst fs1 pre. destruct (executable c); cbn [app fold_left fs_do]; fold (real_temp c); unfold fs_put.
    - rewrite lookup_alter_eq, lookup_insert_eq. by eexists.
    - rewrite lookup_insert_eq. by eexists. }
  destruct Hf as (f & Hf & Hb & Hx). cbn [fs_do]. fold (real_temp c) (real c). rewrite Hf, lookup_insert_eq. split; [right; by exists f|by exists f].
Qed.

(** The installation of a file is atomic, whichever operation fails: the
    file at the component's real path is the one that was there, or has all of the
    new content and, where it is asked for, is executable; no other file changes
    but the one next to it that is renamed; and a success means the new content. *)
Theorem install_file_atomic fs c b : real_temp c <> real c ->
  let '(fs', x) := install_file_component fs c b in
  (forall q, q <> real_temp c -> q <> real c -> fs' !! q = fs !! q) /\
  (fs' !! real c = fs !! real c \/
    exists f, fs' !! real c = Some f /\ f_content f = b /\ (executable c = true -> f_exec f = true)) /\
  (x = inl tt -> exists f, fs' !! real c = Some f /\ f_content f = b).
Proof. apply install_file_spec. Qed.

(** ** Directory components *)

(** What [unzip] leaves in a directory. *)
Inductive Tree : Type := TFile (b : bytes) | TDir (l : list (bytes * Tree)).

Definition is_dir (t : Tree) : bool := match t with TDir _ => true | _ => false end.

(** One directory and no other, files apart. *)
(* src/src/api_server/rpc.rs:794-806 single_child_dir *)
Definition single_child_dir (l : list (bytes * Tree)) : option (list (bytes * Tree)) :=
  match List.filter (fun nt => is_dir nt.2) l with
  | [(_, TDir l)] => Some l
  | _ => None
  end.

(* src/src/api_server/rpc.rs:808-821 copy_dir_all *)
Fixpoint copy_dir_all (t : Tree) (target : path) : list FsOp :=
  match t with
  | TFile b => [OCopy b target]
  | TDir l =>
    OMkdirs target ::
    (fix entries l := match l with [] => [] | (n, t) :: l => copy_dir_all t (target ++ [n]) ++ entries l end) l
  end.

(** [env::temp_dir], a fresh identifier, and what [unzip] makes of an archive. *)
Context (temp_dir : path) (unzip : bytes -> list (bytes * Tree) + bytes).

(** No entry of a directory is named [..]. *)
Inductive plain_tree : Tree -> Prop :=
| plain_file b : plain_tree (TFile b)
| plain_dir l : Forall (fun nt => nt.1 <> lit ".." /\ plain_tree nt.2) l -> plain_tree (TDir l).

(** What [unzip] leaves are directories. *)
Definition unzips_plain : Prop := forall b l, unzip b = inl l -> plain_tree (TDir l).

Definition temp_root (uuid : bytes) : path := temp_dir ++ [lit "rdp-update-" ++ uuid].

(** The extracted files are below the temporary root. *)
Fixpoint tree_files (t : Tree) (at_ : path) : list (path * bytes) :=
  match t with
  | TFile b => [(at_, b)]
  | TDir l => (fix entries l := match l with [] => [] | (n, t) :: l => tree_files t (at_ ++ [n]) ++ entries l end) l
  end.

Definition exists_path (fs : Fs) (p : path) : bool := negb (bool_decide (filter (below (resolve p)) fs = ∅)).

Definition unpack (fs : Fs) (at_ : path) (l : list (bytes * Tree)) : Fs :=
  fold_left (fun fs kv => <[kv.1 := mkFile kv.2 false]> fs) (tree_files (TDir l) (resolve at_)) fs.

Definition unzip_failed (stderr : bytes) : bytes := lit "Failed to extract update package: " ++ stderr.

(** The removal of the temporary directory may fail, silently. *)
(* src/src/api_server/rpc.rs:742-775 install_zip_dir_component *)
Definition install_zip_dir_component (uuid : bytes) (fs : Fs) (c : UpdateComponent) (b : bytes) : Fs * (unit + bytes) :=
  if negb (ensure_update_path (c_path c)) then (fs, inr outside)
  else
    let root := temp_root uuid in
    let extract := root ++ [lit "extract"] in
    match fs_run fs [OMkdirs extract; OWrite (root ++ [lit "component.zip"]) b] with
    | (fs, inr e) => (fs, inr e)
    | (fs, inl _) =>
      match unzip b with
      | inr stderr => (fst (fs_run fs [ORemoveAll root]), inr (unzip_failed stderr))
      | inl l =>
        let fs := unpack fs extract l in
        let source := default l (single_child_dir l) in
        match fs_run fs ((if exists_path fs (c_path c) then [ORemoveAll (c_path c)] else []) ++
                         [OMkdirs (parent (c_path c))] ++ copy_dir_all (TDir source) (c_path c)) with
        | (fs, inr e) => (fs, inr e)
        | (fs, inl _) => (fst (fs_run fs [ORemoveAll root]), inl tt)
        end
      end
    end.

(** ** Directories *)

Section TreeInd.
Context (P : Tree -> Prop) (P_file : forall b, P (TFile b)) (P_dir : forall l, Forall (fun nt => P nt.2) l -> P (TDir l)).

Fixpoint tree_rect (t : Tree) : P t :=
  match t with
  | TFile b => P_file b
  | TDir l => P_dir l ((fix go l : Forall (fun nt => P nt.2) l :=
      match l with [] => Forall_nil_2 _ | nt :: l => Forall_cons_2 _ _ _ (tree_rect nt.2) (go l) end) l)
  end.
End TreeInd.

Lemma copy_dir_unfold l target : copy_dir_all (TDir l) target =
  OMkdirs target :: concat (map (fun nt => copy_dir_all nt.2 (target ++ [nt.1])) l).
Proof. cbn [copy_dir_all]. f_equal. induction l as [|[n t] l IH]; cbn [map concat fst snd]; [done|by rewrite IH]. Qed.

Lemma tree_files_unfold l at_ : tree_files (TDir l) at_ = concat (map (fun nt => tree_files nt.2 (at_ ++ [nt.1])) l).
Proof. cbn [tree_files]. induction l as [|[n t] l IH]; cbn [map concat fst snd]; [done|by rewrite IH]. Qed.

Definition copies (fs : Fs) (kvs : list (path * bytes)) : Fs := fold_left (fun fs kv => fs_put fs kv.1 kv.2) kvs fs.

Lemma plain_dir_inv l : plain_tree (TDir l) -> Forall (fun nt => nt.1 <> lit ".." /\ plain_tree nt.2) l.
Proof. by inversion 1. Qed.

Lemma plain_source l : plain_tree (TDir l) -> plain_tree (TDir (default l (single_child_dir l))).
Proof.
  intros H. unfold single_child_dir.
  destruct (List.filter _ l) as [|[n [b|l']] [|? ?]] eqn:E; cbn [default]; try done.
  apply plain_dir_inv in H. rewrite Forall_forall in H. assert (Hin : In (n, TDir l') l).
  { eapply proj1, List.filter_In. rewrite E. by left. }
  apply list_elem_of_In in Hin. by apply (H _ Hin).
Qed.

(** A copy writes the files of the tree and nothing else. *)
Lemma copy_files t : forall target fs, plain_tree t ->
  fold_left fs_do (copy_dir_all t target) fs = copies fs (tree_files t (resolve target)).
Proof.
  unfold copies. induction t as [b|l IH] using tree_rect; intros target fs Hp; [done|]. apply plain_dir_inv in Hp.
  rewrite copy_dir_unfold, tree_files_unfold. cbn [fold_left fs_do]. revert fs.
  induction IH as [|[n t] l Ht Hl IHl]; intros fs; [done|]. cbn [map concat fst snd].
  apply Forall_cons in Hp as [[Hn Hpt] Hp]. cbn [fst snd] in Hn, Hpt. cbn [fst snd] in Ht.
  rewrite !fold_left_app, Ht, resolve_snoc by done. by apply IHl.
Qed.

Lemma tree_below t : forall at_, Forall (fun kv => at_ `prefix_of` kv.1) (tree_files t at_).
Proof.
  induction t as [b|l IH] using tree_rect; intros at_; [by constructor|]. rewrite tree_files_unfold.
  induction IH as [|[n t] l Ht Hl IHl]; [constructor|]. cbn [map concat fst snd]. apply Forall_app. split; [|done].
  eapply Forall_impl; [apply Ht|]. cbn. intros kv H. etrans; [|done]. by eexists.
Qed.

Lemma copy_elsewhere t q : plain_tree t -> forall target, ~ resolve target `prefix_of` q ->
  Forall (fun o => ~ touches o q) (copy_dir_all t target).
Proof.
  induction t as [b|l IH] using tree_rect; intros Hpt target Hq.
  - constructor; [|constructor]. cbn. by intros ->.
  - rewrite copy_dir_unfold. constructor; [by intros []|]. apply plain_dir_inv in Hpt.
    induction IH as [|[n t] l Ht Hl IHl]; [constructor|]. apply Forall_cons in Hpt as [[Hn Ht'] Hpt]. cbn [fst snd] in *.
    cbn [map concat]. apply Forall_app. split; [|by apply IHl].
    apply Ht; [done|]. rewrite resolve_snoc by done. intros Hp. apply Hq. etrans; [|done]. by eexists.
Qed.

Lemma unpack_other fs at_ l q : ~ resolve at_ `prefix_of` q -> unpack fs at_ l !! q = fs !! q.
Proof.
  unfold unpack. intros Hq. pose proof (tree_below (TDir l) (resolve at_)) as Hb. revert fs.
  induction Hb as [|kv r Hkv Hr IH]; intros fs; cbn [fold_left]; [done|]. rewrite IH. apply lookup_insert_ne. by intros <-.
Qed.

Definition real_root (uuid : bytes) : path := resolve (temp_root uuid).

Lemma real_root_child uuid n : n <> lit ".." -> resolve (temp_root uuid ++ [n]) = real_root uuid ++ [n].
Proof. apply resolve_snoc. Qed.

Lemma zip_elsewhere uuid fs c b q : unzips_plain -> ~ real_root uuid `prefix_of` q ->
  ~ (ensure_update_path (c_path c) = true /\ real c `prefix_of` q) ->
  fst (install_zip_dir_component uuid fs c b) !! q = fs !! q.
Proof.
  unfold install_zip_dir_component. intros Hun Hr Hc. destruct (ensure_update_path (c_path c)); cbn [negb]; [|done].
  assert (Hp : ~ real c `prefix_of` q) by tauto. clear Hc.
  assert (Hroot : forall x, ~ (real_root uuid ++ [x]) `prefix_of` q) by (intros x H; apply Hr; etrans; [|done]; by eexists).
  assert (Hrm : forall fs, fst (fs_run fs [ORemoveAll (temp_root uuid)]) !! q = fs !! q)
    by (intros; apply fs_run_other; by constructor).
  assert (Hpre : fst (fs_run fs [OMkdirs (temp_root uuid ++ [lit "extract"]); OWrite (temp_root uuid ++ [lit "component.zip"]) b]) !! q = fs !! q).
  { apply fs_run_other. constructor; [by intros []|]. constructor; [|done]. cbn [touches]. rewrite real_root_child by done.
    intros ->. by apply (Hroot (lit "component.zip")). }
  destruct (fs_run fs _) as [fs1 [[]|e]]; cbn [fst] in *; [|done].
  destruct (unzip b) as [l|e] eqn:Eu; [|cbn [fst]; by rewrite Hrm].
  assert (Hu : unpack fs1 (temp_root uuid ++ [lit "extract"]) l !! q = fs1 !! q)
    by (apply unpack_other; rewrite real_root_child by done; apply Hroot).
  set (fs2 := unpack _ _ _) in *. set (ops := _ ++ _ ++ copy_dir_all _ _).
  assert (Hops : fst (fs_run fs2 ops) !! q = fs2 !! q).
  { apply fs_run_other. unfold ops. apply Forall_app. split; [destruct (exists_path _ _); by repeat constructor|].
    apply Forall_app. split; [constructor; [by intros []|done]|]. apply copy_elsewhere; [|done].
    by apply plain_source, (Hun b). }
  destruct (fs_run fs2 ops) as [fs3 [[]|e]]; cbn [fst] in *; [rewrite Hrm|]; congruence.
Qed.

(** ** What a directory component holds *)

Lemma copies_other kvs q : forall fs, q ∉ kvs.*1 -> copies fs kvs !! q = fs !! q.
Proof.
  unfold copies. induction kvs as [|[p b] kvs IH]; intros fs Hq; cbn [fold_left fmap list_fmap fst snd] in *; [done|].
  apply not_elem_of_cons in Hq as [Hq1 Hq2]. rewrite IH by done. by apply lookup_insert_ne.
Qed.

Lemma copies_in kvs q b : forall fs, NoDup kvs.*1 -> (q, b) ∈ kvs -> fs !! q = None -> copies fs kvs !! q = Some (mkFile b false).
Proof.
  induction kvs as [|[p b'] kvs IH]; intros fs Hnd Hin Hq; [by apply elem_of_nil in Hin|].
  apply NoDup_cons in Hnd as [Hp Hnd]. cbn [fmap list_fmap fst] in Hp. apply elem_of_cons in Hin as [[= <- <-]|Hin].
  - change (copies fs ((q, b) :: kvs)) with (copies (fs_put fs q b) kvs). rewrite copies_other by done.
    unfold fs_put. by rewrite lookup_insert_eq, Hq.
  - change (copies fs ((p, b') :: kvs)) with (copies (fs_put fs p b') kvs). apply IH; [done..|].
    unfold fs_put. rewrite lookup_insert_ne; [done|]. intros ->. apply Hp. by apply list_elem_of_fmap_2' with (q, b).
Qed.

Lemma removed_below fs p q : resolve p `prefix_of` q -> fold_left fs_do (if exists_path fs p then [ORemoveAll p] else []) fs !! q = None.
Proof.
  intros Hp. unfold exists_path. destruct (bool_decide (filter (below (resolve p)) fs = ∅)) eqn:E; cbn [negb fold_left fs_do].
  - apply bool_decide_eq_true in E. apply (map_empty_filter_1 _ _) in E. destruct (fs !! q) as [f|] eqn:Eq; [|done].
    exfalso. exact (E q f Eq Hp).
  - apply map_lookup_filter_None_2. right. intros f _ H. by apply H.
Qed.

(** A directory component, after a success: below its real path are the files of
    the package, or of its only directory, with their content, and nothing else.  *)
Theorem install_zip_exact uuid fs c b fs' l :
  unzips_plain -> install_zip_dir_component uuid fs c b = (fs', inl tt) -> unzip b = inl l ->
  let files := tree_files (TDir (default l (single_child_dir l))) (real c) in
  NoDup files.*1 -> ~ real c `prefix_of` real_root uuid -> ~ real_root uuid `prefix_of` real c ->
  (forall q data, (q, data) ∈ files -> fs' !! q = Some (mkFile data false)) /\
  (forall q, real c `prefix_of` q -> q ∉ files.*1 -> fs' !! q = None).
Proof.
  intros Hun E El files Hnd Hd1 Hd2. unfold install_zip_dir_component in E. destruct (negb _); [done|].
  destruct (fs_run fs _) as [fs1 [[]|]]; [|done]. rewrite El in E. set (fs2 := unpack _ _ _) in E.
  destruct (fs_run fs2 _) as [fs3 [[]|]] eqn:Er; [|done]. injection E as <-. apply fs_run_ok in Er.
  rewrite !fold_left_app, copy_files in Er by (by apply plain_source, (Hun b)). cbn [fold_left fs_do] in Er. fold (real c) files in Er.
  set (fs0 := fold_left fs_do (if exists_path fs2 (c_path c) then _ else _) fs2) in Er.
  change (fs3 = copies fs0 files) in Er.
  assert (Hroot : forall q, real c `prefix_of` q -> fst (fs_run fs3 [ORemoveAll (temp_root uuid)]) !! q = fs3 !! q).
  { intros q Hq. apply fs_run_other. constructor; [|done]. cbn. intros Hr. destruct (prefix_weak_total _ _ _ Hq Hr); tauto. }
  assert (Hbelow : forall q, real c `prefix_of` q -> fs0 !! q = None) by (intros; by apply removed_below).
  assert (Hfiles : forall kv, kv ∈ files -> real c `prefix_of` kv.1).
  { intros kv Hkv. pose proof (tree_below (TDir (default l (single_child_dir l))) (real c)) as H. fold files in H.
    rewrite Forall_forall in H. by apply H. }
  split.
  - intros q data Hq. pose proof (Hfiles _ Hq) as Hp. cbn in Hp. rewrite Hroot, Er by done. apply copies_in; [done..|by apply Hbelow].
  - intros q Hp Hq. rewrite Hroot, Er, copies_other by done. by apply Hbelow.
Qed.

(** ** The whole update *)

(** The plan that is installed, the manifest behind a URL, the body behind a
    URL, SHA-256, and serde at an asset. *)
Context (plan : UpdatePlan + bytes) (fetch_manifest : bytes -> Value + bytes) (fetch : bytes -> bytes + bytes)
  (sha256_digest : bytes -> bytes) (de_asset : Value -> option UpdateAsset) (fresh : nat -> bytes).

Definition hex_digit (v : Z) : Z := if v <? 10 then 48 + v else 87 + v.

(* src/src/api_server/rpc.rs:723-726 sha256_hex *)
Definition sha256_hex (b : bytes) : bytes :=
  concat (map (fun x => [hex_digit (x / 16); hex_digit (x mod 16)]) (sha256_digest b)).

(* src/src/api_server/rpc.rs:701-721 download_verified_asset *)
Definition download_verified_asset (a : UpdateAsset) : bytes + bytes :=
  match fetch (a_url a) with
  | inr e => inr e
  | inl b => if bool_decide (sha256_hex b = map lower (sha256 a)) then inl b else inr (lit "Checksum mismatch for " ++ a_url a)
  end.

Definition field (v : Value) (k : bytes) : option Value := match v with VObj l => im_get l k | _ => None end.

(** The loop over the components; the components of the first error's stay installed. *)
(* src/src/api_server/rpc.rs:629-647 update_apply(loop) *)
Fixpoint install_all (n : nat) (manifest : Value) (l : list UpdateComponent) (fs : Fs) (installed : list bytes) (reload : bool)
  : Fs * ((list bytes * bool) + bytes) :=
  match l with
  | [] => (fs, inl (installed, reload))
  | c :: l =>
    match match field manifest (source c) with Some v => de_asset v | None => None end with
    | None => install_all n manifest l fs installed reload
    | Some a =>
      match download_verified_asset a with
      | inr e => (fs, inr e)
      | inl b =>
        match kind c with
        | KFile =>
          match install_file_component fs c b with
          | (fs, inr e) => (fs, inr e)
          | (fs, inl _) => install_all n manifest l fs (installed ++ [source c]) reload
          end
        | KZipDir =>
          match install_zip_dir_component (fresh n) fs c b with
          | (fs, inr e) => (fs, inr e)
          | (fs, inl _) => install_all (Datatypes.S n) manifest l fs (installed ++ [source c]) true
          end
        end
      end
    end
  end.

Definition update_answer (version : option bytes) (reload : bool) (installed : list bytes) : Value :=
  VObj [(lit "ok", VBool true); (lit "version", match version with Some v => VStr v | None => VNull end);
        (lit "needs_reload", VBool reload); (lit "installed", VArr (map VStr installed)); (lit "error", VNull)].

(* src/src/api_server/rpc.rs:611-656 update_apply *)
Definition update_apply (fs : Fs) (apply : bool) : Fs * (Value + bytes) :=
  match plan with
  | inr e => (fs, inr e)
  | inl p =>
    match fetch_manifest (manifest_url p) with
    | inr e => (fs, inr e)
    | inl manifest =>
      let version := match field manifest (lit "version") with Some (VStr s) => Some s | _ => None end in
      if negb apply then (fs, inl (update_answer version false []))
      else
        match install_all 0 manifest (components p) fs [] false with
        | (fs, inr e) => (fs, inr e)
        | (fs, inl (installed, reload)) => (fs, inl (update_answer version reload installed))
        end
    end
  end.

(** ** What an update may do *)

(** A component's own place: below an allowed root. *)
Definition permitted (c : UpdateComponent) : Prop := exists root, In root allowed_roots /\ root `prefix_of` c_path c.

Lemma ensure_permitted c : ensure_update_path (c_path c) = true <-> permitted c.
Proof.
  unfold ensure_update_path, permitted. rewrite existsb_exists. unfold starts_with.
  split; intros (r & Hin & Hr); exists r; by rewrite bool_decide_eq_true in *.
Qed.

(** A file after an update: as it was, or a scratch file, or in an unpacked
    directory, or all of a verified download at the path of its component. *)
Definition explained (manifest : Value) (l : list UpdateComponent) (fs fs' : Fs) (q : path) : Prop :=
  fs' !! q = fs !! q \/
  (exists n, real_root (fresh n) `prefix_of` q) \/
  (exists c, In c l /\ kind c = KFile /\ permitted c /\ q = temp_of c) \/
  (exists c, In c l /\ kind c = KZipDir /\ permitted c /\ c_path c `prefix_of` q) \/
  (exists c f v a, In c l /\ kind c = KFile /\ permitted c /\ q = c_path c /\ fs' !! q = Some f /\
    field manifest (source c) = Some v /\ de_asset v = Some a /\ sha256_hex (f_content f) = map lower (sha256 a)).

Lemma explained_cons m c l fs fs' q : explained m l fs fs' q -> explained m (c :: l) fs fs' q.
Proof. unfold explained. intros [H|[H|[(x & H)|[(x & H)|(x & f & v & a & H)]]]]; cbn [In]; naive_solver. Qed.

Lemma explained_step m c l fs fs1 fs' q : explained m [c] fs fs1 q -> explained m l fs1 fs' q -> explained m (c :: l) fs fs' q.
Proof.
  intros H1 [E|H2]; [|apply explained_cons; by right].
  unfold explained in *. rewrite E. cbn [In] in *. naive_solver.
Qed.

Lemma download_ok a b : download_verified_asset a = inl b -> sha256_hex b = map lower (sha256 a).
Proof.
  unfold download_verified_asset. destruct (fetch (a_url a)); [|done]. destruct (bool_decide _) eqn:E; [|done].
  intros [= <-]. by apply bool_decide_eq_true in E.
Qed.

(** A component whose path is its real path, and for a file not that of its
    own scratch file. *)
Definition component_ok (c : UpdateComponent) : Prop := plain (c_path c) /\ (kind c = KFile -> temp_of c <> c_path c).

Lemma component_real c : component_ok c -> real c = c_path c /\ real_temp c = temp_of c.
Proof. intros [H _]. split; apply resolve_plain; [done | by apply plain_new]. Qed.

Lemma file_explained m fs c v a b q : kind c = KFile -> component_ok c ->
  field m (source c) = Some v -> de_asset v = Some a -> download_verified_asset a = inl b ->
  explained m [c] fs (fst (install_file_component fs c b)) q.
Proof.
  intros Hk Hok Hv Ha Hd. apply download_ok in Hd. destruct (component_real c Hok) as [Er Et].
  destruct (ensure_update_path (c_path c)) eqn:Ee.
  2: { unfold install_file_component. rewrite Ee. by left. }
  apply ensure_permitted in Ee. pose proof (install_file_spec fs c b) as H. rewrite Er, Et in H. specialize (H (proj2 Hok Hk)).
  destruct (install_file_component fs c b) as [fs' x]. destruct H as (Ho & Hp & _).
  assert (Hin : In c [c]) by by left. cbn [fst].
  destruct (decide (q = temp_of c)) as [->|Hq1]; [do 2 right; left; by exists c|].
  destruct (decide (q = c_path c)) as [->|Hq2]; [|left; by apply Ho].
  destruct Hp as [Hp|(f & Hf & <- & _)]; [by left|]. do 4 right. by exists c, f, v, a.
Qed.

Lemma zip_explained m fs c n b q : unzips_plain -> kind c = KZipDir -> component_ok c ->
  explained m [c] fs (fst (install_zip_dir_component (fresh n) fs c b)) q.
Proof.
  intros Hun Hk Hok. destruct (component_real c Hok) as [Er _].
  destruct (decide (real_root (fresh n) `prefix_of` q)) as [H1|H1]; [right; left; by exists n|].
  destruct (decide (ensure_update_path (c_path c) = true /\ real c `prefix_of` q)) as [[H2 H3]|H2].
  - do 3 right. left. exists c. apply ensure_permitted in H2. rewrite Er in H3. split; [by left|done].
  - left. by apply zip_elsewhere.
Qed.

Lemma install_all_explained m l q : unzips_plain -> Forall component_ok l ->
  forall n fs inst re, explained m l fs (fst (install_all n m l fs inst re)) q.
Proof.
  intros Hun. induction 1 as [|c l Ht Hl IH]; intros n fs inst re; [by left|]. cbn [install_all].
  destruct (field m (source c)) as [v|] eqn:Ev; [|by apply explained_cons].
  destruct (de_asset v) as [a|] eqn:Ea; [|by apply explained_cons].
  destruct (download_verified_asset a) as [b|e] eqn:Ed; [|by left].
  assert (Hone : forall fs1 r, explained m [c] fs fs1 q -> (fst r = fs1 \/ explained m l fs1 (fst r) q) ->
    explained m (c :: l) fs (fst (r : Fs * ((list bytes * bool) + bytes))) q).
  { intros fs1 r H1 [H2|H2]; (eapply explained_step; [done|]); [left; by rewrite H2|done]. }
  destruct (kind c) eqn:Ek.
  - pose proof (file_explained m fs c v a b q Ek Ht Ev Ea Ed) as H1.
    destruct (install_file_component fs c b) as [fs1 [[]|e]]; cbn [fst] in H1; (eapply Hone; [done|]); [right; apply IH|by left].
  - pose proof (zip_explained m fs c n b q Hun Ek Ht) as H1.
    destruct (install_zip_dir_component (fresh n) fs c b) as [fs1 [[]|e]]; cbn [fst] in H1; (eapply Hone; [done|]); [right; apply IH|by left].
Qed.

(** C10: What an update may do, whatever fails on the way, for a plan whose
    components' paths have no [..] component (with one, the roots say nothing)
    and whose file components are not named after their own scratch files,
    symbolic links apart: a file that is not as it was before is the scratch
    file next to a file component, or in the directory of a directory
    component, or at the path of a file component and has all of a download
    whose SHA-256 is the one the manifest gives for that component - each such
    component's path being below an allowed root - or is in a temporary
    directory of the update.  Without [apply] nothing changes. *)
Theorem update_verified fs apply_ p : plan = inl p -> unzips_plain -> Forall component_ok (components p) ->
  (apply_ = false -> fst (update_apply fs apply_) = fs) /\
  forall q, fst (update_apply fs apply_) !! q = fs !! q \/
    exists m, fetch_manifest (manifest_url p) = inl m /\ explained m (components p) fs (fst (update_apply fs apply_)) q.
Proof.
  intros Hp Hun Hc. unfold update_apply. rewrite Hp. destruct (fetch_manifest (manifest_url p)) as [m|e]; [|split; [done|by left]].
  destruct apply_; cbn [negb]; [|split; [done|by left]]. split; [done|]. intros q. right. exists m. split; [done|].
  pose proof (install_all_explained m (components p) q Hun Hc 0 fs [] false) as H.
  by destruct (install_all _ _ _ _ _ _) as [fs' [[i r]|e]].
Qed.

End Installing.
(** ** Concrete updates *)

Definition sample_path (l : list string) : path := map lit l.
Definition sample_data : path := sample_path ["/"; "d"]%string.
Definition sample_conf : path := sample_path ["/"; "c"]%string.
Definition sample_target : path := sample_path ["/"; "d"; "core.bin"]%string.
Definition sample_component : UpdateComponent := mkComponent (lit "core") KFile sample_target true.
Definition sample_fs : Fs := {[ sample_target := mkFile [1] true ]}.

(** A file system on which renaming fails. *)
Definition no_rename (_ : Fs) (o : FsOp) : option Failure :=
  match o with ORename _ _ => Some (mkFailure (lit "busy") 0 []) | _ => None end.

Definition sample_install : Fs * (unit + bytes) :=
  install_file_component no_rename sample_data sample_conf None sample_fs sample_component [2; 3].

Lemma install_file_atomic_witness :
  snd sample_install = inr (lit "busy") /\
  (fst sample_install !! sample_target = sample_fs !! sample_target \/
    exists f, fst sample_install !! sample_target = Some f /\ f_content f = [2; 3] /\ (executable sample_component = true -> f_exec f = true)).
Proof.
  split; [vm_compute; reflexivity|].
  pose proof (install_file_atomic no_rename sample_data sample_conf None sample_fs sample_component [2; 3] ltac:(by vm_compute)) as H.
  unfold sample_install. destruct (install_file_component _ _ _ _ _ _ _) as [fs' x]. apply H.
Defined.

Definition sample_manifest : Value := VObj [(lit "version", VStr (lit "2")); (lit "core", VObj [(lit "sha", VStr (lit "0203"))])].
Definition sample_asset (v : Value) : option UpdateAsset := Some (mkAsset (lit "u") (lit "0203")).
Definition sample_plan : UpdatePlan := mkPlan (lit "m") [sample_component].
Definition sample_update (body : bytes) (apply : bool) : Fs * (Value + bytes) :=
  update_apply (fun _ _ => None) sample_data sample_conf None (sample_path ["/"; "t"]%string) (fun _ => inl []) (inl sample_plan)
    (fun _ => inl sample_manifest) (fun _ => inl body) (fun b => b) sample_asset (fun _ => lit "u") sample_fs apply.

Example sample_update_verified : f_content <$> (fst (sample_update [2; 3] true) !! sample_target) = Some [2; 3].
Proof. vm_compute. done. Qed.
Example sample_update_refused : snd (sample_update [2; 4] true) = inr (lit "Checksum mismatch for u").
Proof. vm_compute. reflexivity. Qed.

Lemma sample_unzips : unzips_plain (fun _ => inl []).
Proof. intros b l [= <-]. repeat constructor. Qed.

Lemma update_verified_witness :
  fst (sample_update [2; 3] false) = sample_fs /\
  (fst (sample_update [2; 3] true) !! sample_target = sample_fs !! sample_target \/
   exists m, @inl Value bytes sample_manifest = inl m /\
     explained sample_data sample_conf None (sample_path ["/"; "t"]%string) (fun b => b) sample_asset (fun _ => lit "u") m
       [sample_component] sample_fs (fst (sample_update [2; 3] true)) sample_target).
Proof.
  assert (Ht : Forall component_ok (components sample_plan)).
  { constructor; [|constructor]. split; [repeat constructor; vm_compute; discriminate | intros _; vm_compute; discriminate]. }
  split.
  - apply (proj1 (update_verified (fun _ _ => None) sample_data sample_conf None (sample_path ["/"; "t"]%string) (fun _ => inl [])
      (inl sample_plan) (fun _ => inl sample_manifest) (fun _ => inl [2; 3]) (fun b => b) sample_asset (fun _ => lit "u") sample_fs false
      sample_plan eq_refl sample_unzips Ht)). reflexivity.
  - apply (proj2 (update_verified (fun _ _ => None) sample_data sample_conf None (sample_path ["/"; "t"]%string) (fun _ => inl [])
      (inl sample_plan) (fun _ => inl sample_manifest) (fun _ => inl [2; 3]) (fun b => b) sample_asset (fun _ => lit "u") sample_fs true
      sample_plan eq_refl sample_unzips Ht)).
Defined.

(** A package that is one directory with a file next to it. *)
Definition sample_package : list (bytes * Tree) :=
  [(lit "README", TFile [9]); (lit "plugin", TDir [(lit "main.py", TFile [1; 2])])].
Definition sample_dir : UpdateComponent := mkComponent (lit "ui") KZipDir (sample_path ["/"; "d"; "ui"]%string) false.
Definition sample_old : Fs := {[ sample_path ["/"; "d"; "ui"; "old.py"]%string := mkFile [7] false ]}.
Definition sample_zip : Fs * (unit + bytes) :=
  install_zip_dir_component (fun _ _ => None) sample_data sample_conf None (sample_path ["/"; "t"]%string) (fun _ => inl sample_package)
    (lit "u") sample_old sample_dir [5].

Lemma sample_plain : unzips_plain (fun _ => inl sample_package).
Proof. intros b l [= <-]. repeat (constructor; cbn); intros H; discriminate H. Qed.

Lemma install_zip_exact_witness :
  fst sample_zip !! sample_path ["/"; "d"; "ui"; "main.py"]%string = Some (mkFile [1; 2] false) /\
  fst sample_zip !! sample_path ["/"; "d"; "ui"; "old.py"]%string = None.
Proof.
  pose proof (install_zip_exact (fun _ _ => None) sample_data sample_conf None (sample_path ["/"; "t"]%string) (fun _ => inl sample_package)
    (lit "u") sample_old sample_dir [5] (fst sample_zip) sample_package sample_plain ltac:(vm_compute; reflexivity) eq_refl
    ltac:(vm_compute; repeat constructor; set_solver) ltac:(apply (bool_decide_unpack _); vm_compute; exact I)
    ltac:(apply (bool_decide_unpack _); vm_compute; exact I)) as [H1 H2].
  split; [apply H1; vm_compute; left|apply H2; [apply (bool_decide_unpack _); vm_compute; exact I|vm_compute; set_solver]].
Defined.

(** The file next to the only directory is not installed. *)
Lemma update_zip_drops_files : fst sample_zip !! sample_path ["/"; "d"; "ui"; "README"]%string = None /\ snd sample_zip = inl tt.
Proof. vm_compute. by split. Qed.

(** The allowed roots are compared component by component, and [..] is one: a
    plan can have any file replaced. *)
Lemma update_path_escapes :
  let escaping := mkComponent (lit "core") KFile (sample_data ++ sample_path [".."; "etc"; "passwd"]%string) false in
  ensure_update_path sample_data sample_conf None (c_path escaping) = true /\
  let done := install_file_component (fun _ _ => None) sample_data sample_conf None sample_fs escaping [2; 3] in
  snd done = inl tt /\ fst done !! sample_path ["/"; "etc"; "passwd"]%string = Some (mkFile [2; 3] false).
Proof. vm_compute. auto. Qed.

(** A component named [*.new] is its own scratch file: a write that fails leaves a part of it. *)
Lemma update_new_not_atomic :
  let target := sample_path ["/"; "d"; "core.new"]%string in
  let broken (_ : Fs) (o : FsOp) := match o with OWrite _ _ => Some (mkFailure (lit "full") 1 []) | _ => None end in
  fst (install_file_component broken sample_data sample_conf None {[ target := mkFile [1] true ]}
    (mkComponent (lit "core") KFile target true) [2; 3]) !! target = Some (mkFile [2] true).
Proof. by vm_compute. Qed.

End Update.
Export Update.
