(* ===== verification/Api.v ===== *)
(** * The control API: [src/src/api_server/rpc.rs], [routes.rs], [shared.rs]

    JSON-RPC over a web socket.  Requests are
    answered one after the other, and each subscription is a task of its own
    that writes to the same socket; a run is a sequence of messages and of steps
    of the tasks, in any interleaving.  serde, web sockets and JSON patches are
    third-party code. *)

From S2P Require Import Prelude Text Address ConnContext Build Storage Source Update.

Module Api.

(** ** Data *)

(* src/src/api_server/rpc.rs:37-43 RpcRequest *)
Record RpcRequest : Type := mkRequest { jsonrpc : bytes; method : bytes; params : Value; rq_id : option Value }.

(* src/src/api_server/rpc.rs:57-62 RpcError *)
Record RpcError : Type := mkRpcError { code : Z; message : bytes; data : option Value }.

(** [jsonrpc] is always [2.0]. *)
(* src/src/api_server/rpc.rs:46-54 RpcResponse *)
Record RpcResponse : Type := mkResponse { rs_id : option Value; result : option Value; rs_error : option RpcError }.

(* src/src/api_server/shared.rs:65-70 ConnectionQuery *)
Record ConnectionQuery : Type := mkQuery { patch : bool; without_connections : bool }.

(* src/src/api_server/rpc.rs:102-106 DelayParams *)
Record DelayParams : Type := mkDelay { d_net : bytes; d_host : option bytes; d_port : option Z; d_path : bytes; d_query : option bytes; d_timeout : option Z }.

(* src/src/api_server/shared.rs:26-31 ApiError *)
Inductive ApiError : Type := ANotFound | AEngineNotRunning | AOther (message : bytes).

(** [From<anyhow::Error>]: [e] is the error's text. *)
(* src/src/api_server/shared.rs:40-45 ApiError::from *)
Definition api_error_of (e : bytes) : ApiError :=
  if contains (lit "Not running") e then AEngineNotRunning else AOther e.

(* src/src/api_server/rpc.rs:1013-1036 map_api_error *)
Definition map_api_error (e : ApiError) : RpcError :=
  match e with
  | ANotFound => mkRpcError 404 (lit "Not found") None
  | AEngineNotRunning => mkRpcError 503 (lit "Engine not running") None
  | AOther m => mkRpcError (-32000) m None
  end.

(* src/src/api_server/rpc.rs:987-998 invalid_params *)
Definition invalid_params (id : option Value) (error : bytes) : RpcResponse :=
  mkResponse id None (Some (mkRpcError (-32602) (lit "Invalid params") (Some (VStr error)))).

(* src/src/api_server/rpc.rs:1000-1011 method_not_found *)
Definition method_not_found (id : option Value) (m : bytes) : RpcResponse :=
  mkResponse id None (Some (mkRpcError (-32601) m None)).

(** A value or the text of an error. *)
Definition answer (A : Type) : Type := (A + ApiError)%type.

(** serde, at the requests and at the parameters of the methods; an error is its text. *)
Class ApiSerde : Type := {
  parse_request : bytes -> RpcRequest + bytes;
  de_subscribe : Value -> (bytes * Value) + bytes;
  de_unsubscribe : Value -> bytes + bytes;
  de_query : Value -> ConnectionQuery + bytes;
  de_source : Value -> ImportSource + bytes;
  de_uuid : Value -> bytes + bytes;
  de_select : Value -> (bytes * bytes) + bytes;
  de_delay : Value -> DelayParams + bytes;
  de_path : Value -> bytes + bytes;
  de_put : Value -> (bytes * bytes) + bytes;
  de_tail : Value -> nat + bytes;
  de_update : Value -> bool + bytes;
  source_json : ImportSource -> option bytes;
  json_of : bytes -> option Value;
  time_json : Z -> Value;
  map_of_json : bytes -> option SelectMap;
  map_to_json : SelectMap -> res bytes }.

(** What the API asks of the engine, and of the network for a delay. *)
Class EngineApi (E : Type) : Type := {
  en_config : E -> bytes + bytes;
  en_id : E -> option bytes;
  en_registry : E -> Value + bytes;
  en_connections : E -> Value + bytes;
  en_stop_connection : E -> bytes -> E * (bool + bytes);
  en_stop_connections : E -> E * (nat + bytes);
  en_update_net : E -> bytes -> (Net -> Net) -> E * (unit + bytes);
  en_stop : E -> E * (unit + bytes);
  en_start_stream : E -> ImportSource -> E * (unit + bytes);
  en_get_net : E -> bytes -> option nat + bytes;
  en_probe : E -> nat -> bytes -> Z -> bytes -> Z -> option ((Z * Z) + bytes) }.

(** The header as text, else the token of the query. *)
(* src/src/api_server/routes.rs:88-103 auth *)
Definition auth (token : bytes) (header query_token : option bytes) : bool :=
  match (match header with Some h => Some h | None => query_token end) with
  | Some t => bool_decide (t = token)
  | None => false
  end.

Lemma auth_spec token header query_token : auth token header query_token = true <->
  header = Some token \/ (header = None /\ query_token = Some token).
Proof. unfold auth. destruct header as [h|], query_token as [q|]; rewrite ?bool_decide_eq_true; naive_solver. Qed.

Section Requests.
Context {AS : ApiSerde} {E : Type} {EA : EngineApi E} {S : Type} `{Storage S}.
Context (error_text : error -> bytes).

(** [sender] is [None] where the engine is not run by a loop, and else whether
    the loop still receives; [sent] is what it was sent. *)
(* src/src/api_server/shared.rs:18-24 Ctx *)
Record Ctx : Type := mkCtx {
  rd : E; userdata : S; select_cache : S; sender : option bool; sent : list ImportSource;
  log_file : option (res bytes); fs : Fs }.

Definition with_rd (c : Ctx) (e : E) : Ctx := mkCtx e (userdata c) (select_cache c) (sender c) (sent c) (log_file c) (fs c).
Definition with_userdata (c : Ctx) (s : S) : Ctx := mkCtx (rd c) s (select_cache c) (sender c) (sent c) (log_file c) (fs c).
Definition with_select (c : Ctx) (s : S) : Ctx := mkCtx (rd c) (userdata c) s (sender c) (sent c) (log_file c) (fs c).

Definition with_fs (c : Ctx) (f : Fs) : Ctx := mkCtx (rd c) (userdata c) (select_cache c) (sender c) (sent c) (log_file c) f.

Definition lift {A} (x : A + bytes) : answer A := match x with inl a => inl a | inr e => inr (api_error_of e) end.
Definition lift_res {A} (x : res A) : answer A := match x with Ok a => inl a | Err e => inr (api_error_of (error_text e)) end.
Definition amap {A B} (f : A -> B) (x : answer A) : answer B := match x with inl a => inl (f a) | inr e => inr e end.

(* src/src/api_server/rpc.rs:460-465 get_config_value *)
Definition get_config_value (c : Ctx) : answer Value :=
  match en_config (rd c) with
  | inl s => match json_of s with Some v => inl v | None => inr (AOther (lit "json")) end
  | inr _ => inl VNull
  end.

Definition LAST_SOURCE_KEY : bytes := lit "daemon/last_source".

(** Remembering the source may fail silently. *)
(* src/src/api_server/rpc.rs:467-483 apply_config *)
Definition api_apply_config (now : Z) (c : Ctx) (source : ImportSource) : Ctx * answer unit :=
  match sender c with
  | Some alive =>
    let c := match source_json source with
             | Some j => with_userdata c (fst (st_set now (userdata c) LAST_SOURCE_KEY j))
             | None => c
             end in
    if alive then (mkCtx (rd c) (userdata c) (select_cache c) (sender c) (sent c ++ [source]) (log_file c) (fs c), inl tt)
    else (c, inr (AOther (lit "Engine loop is not running")))
  | None => let '(e, x) := en_start_stream (rd c) source in (with_rd c e, lift x)
  end.

(** The option of a select net gets the selection; another net is left as it is. *)
(* src/src/api_server/rpc.rs:507-515 select_net(update) *)
Definition select_update (selected : bytes) (n : Net) : Net :=
  if bool_decide (net_type n = lit "select") then
    match net_opt n with VObj o => mkNet (net_type n) (VObj (im_insert o (lit "selected") (VStr selected))) | _ => n end
  else n.

(* src/src/api_server/rpc.rs:505-527 select_net *)
Definition select_net (now : Z) (c : Ctx) (net_name selected : bytes) : Ctx * answer unit :=
  match en_update_net (rd c) net_name (select_update selected) with
  | (e, inr err) => (with_rd c e, inr (api_error_of err))
  | (e, inl _) =>
    let c := with_rd c e in
    match en_id (rd c) with
    | None => (c, inl tt)
    | Some id =>
      match select_from_cache map_of_json id (select_cache c) with
      | Err err => (c, inr (api_error_of (error_text err)))
      | Ok m =>
        let '(s, x) := select_write_cache map_to_json now (select_insert m net_name selected) id (select_cache c) in
        (with_select c s, lift_res x)
      end
    end
  end.

(** The path and query of the probe. *)
(* src/src/api_server/rpc.rs:551-558 net_delay(path) *)
Definition probe_path (p : DelayParams) : bytes :=
  let path := match d_path p with [] => lit "/" | s => s end in
  match d_query p with Some q => path ++ [63] ++ q | None => path end.

Definition crlf : bytes := [13; 10].

(* src/src/api_server/rpc.rs:547-563 net_delay(request) *)
Definition probe_request (host : bytes) (port : Z) (p : DelayParams) : bytes :=
  lit "GET " ++ probe_path p ++ lit " HTTP/1.1" ++ crlf ++ lit "Host: " ++ host ++ [58] ++ show_uint port ++ crlf ++
  lit "Connection: close" ++ crlf ++ crlf.

(** [en_probe] connects, writes the request and reads a byte: [None] when the time
    is over, and else the times of the connection and of the byte. *)
(* src/src/api_server/rpc.rs:529-582 net_delay *)
Definition net_delay (c : Ctx) (p : DelayParams) : answer Value :=
  match en_get_net (rd c) (d_net p) with
  | inr e => inr (api_error_of e)
  | inl net =>
    match net, d_host p, d_port p with
    | Some net, Some host, Some port =>
      match en_probe (rd c) net host port (probe_request host port p) (match d_timeout p with Some t => t | None => 5000 end) with
      | None => inl VNull
      | Some (inl (connect, response)) => inl (VObj [(lit "connect", VNum connect); (lit "response", VNum response)])
      | Some (inr e) => inr (api_error_of e)
      end
    | _, _, _ => inl VNull
    end
  end.

(* src/src/api_server/rpc.rs:584-587 userdata_get *)
Definition userdata_get (c : Ctx) (path : bytes) : answer Value :=
  match st_get (userdata c) path with
  | Err e => inr (api_error_of (error_text e))
  | Ok None => inr ANotFound
  | Ok (Some i) => inl (VObj [(lit "updated_at", time_json (updated_at i)); (lit "content", VStr (content i))])
  end.

(* src/src/api_server/rpc.rs:589-594 userdata_put *)
Definition userdata_put (now : Z) (c : Ctx) (path value : bytes) : Ctx * answer Z :=
  let '(s, x) := st_set now (userdata c) path value in
  (with_userdata c s, amap (fun _ => Z.of_nat (length value)) (lift_res x)).

(* src/src/api_server/rpc.rs:596-599 userdata_delete *)
Definition userdata_delete (c : Ctx) (path : bytes) : Ctx * answer unit :=
  let '(s, x) := st_remove (userdata c) path in (with_userdata c s, lift_res x).

(** A list of keys, in the order of the map. *)
(* src/src/api_server/rpc.rs:601-604 userdata_list *)
Definition userdata_list (c : Ctx) : answer Value :=
  match st_keys (userdata c) with
  | Err e => inr (api_error_of (error_text e))
  | Ok m => inl (VObj [(lit "keys", VArr (map (fun kv => VObj [(lit "key", VStr kv.1); (lit "updated_at", time_json kv.2)]) (map_to_list m)))])
  end.

(* src/src/api_server/rpc.rs:658-673 logs_tail *)
Definition logs_tail (c : Ctx) (tail : nat) : answer Value :=
  match log_file c with
  | None => inr (AOther (lit "No log file configured"))
  | Some (Err e) => inr (AOther (error_text e))
  | Some (Ok content) =>
    let l := lines content in
    inl (VArr (omap json_of (drop (length l - tail) l)))
  end.

(* src/src/api_server/rpc.rs:160-162 default_tail *)
Definition default_tail : nat := 500.

(** ** Requests *)

(** [update_apply], and the address a TUN device is offered. *)
Context (update : Fs -> bool -> Fs * (Value + bytes)) (suggest_tun_ip : Value).

(** [serde_json::from_value], whose error is answered at once. *)
Definition with_params {A} (x : A + bytes) (c : Ctx) (f : A -> Ctx * answer Value) : Ctx * (answer Value + bytes) :=
  match x with inl a => let '(c, r) := f a in (c, inl r) | inr e => (c, inr e) end.

Definition ok_json : Value := VObj [(lit "ok", VBool true)].
Definition of_api {A} (f : A -> Value) (r : Ctx * answer A) : Ctx * answer Value := (fst r, amap f (snd r)).

(** The methods; [None] for one that does not exist, and an error of the parameters. *)
(* src/src/api_server/rpc.rs:368-442 handle_request(methods) *)
Definition call_method (now : Z) (c : Ctx) (m : bytes) (p : Value) : option (Ctx * (answer Value + bytes)) :=
  let named s := bool_decide (m = lit s) in
  let fin r := Some (c, inl r) in
  if named "config.get" then fin (get_config_value c)
  else if named "config.apply" then Some (with_params (de_source p) c (fun s => of_api (fun _ => VNull) (api_apply_config now c s)))
  else if named "registry.get" then fin (lift (en_registry (rd c)))
  else if named "connection.list" then fin (lift (en_connections (rd c)))
  else if named "connection.close" then Some (with_params (de_uuid p) c (fun u =>
    let '(e, r) := en_stop_connection (rd c) u in (with_rd c e, amap VBool (lift r))))
  else if named "connection.closeAll" then
    let '(e, r) := en_stop_connections (rd c) in Some (with_rd c e, inl (amap (fun n => VNum (Z.of_nat n)) (lift r)))
  else if named "net.select" then Some (with_params (de_select p) c (fun ns => of_api (fun _ => VNull) (select_net now c ns.1 ns.2)))
  else if named "net.delay" then Some (with_params (de_delay p) c (fun d => (c, net_delay c d)))
  else if named "userdata.get" then Some (with_params (de_path p) c (fun k => (c, userdata_get c k)))
  else if named "userdata.put" then Some (with_params (de_put p) c (fun kv =>
    of_api (fun n => VObj [(lit "copied", VNum n)]) (userdata_put now c kv.1 kv.2)))
  else if named "userdata.delete" then Some (with_params (de_path p) c (fun k => of_api (fun _ => ok_json) (userdata_delete c k)))
  else if named "userdata.list" then fin (userdata_list c)
  else if named "engine.stop" then let '(e, r) := en_stop (rd c) in Some (with_rd c e, inl (amap (fun _ => ok_json) (lift r)))
  else if named "update.apply" then
    let '(f, r) := update (fs c) (match de_update p with inl a => a | inr _ => true end) in Some (with_fs c f, inl (lift r))
  else if named "logs.tail" then fin (logs_tail c (match de_tail p with inl n => n | inr _ => default_tail end))
  else if named "tun.suggestIp" then fin (inl (VObj [(lit "ip", suggest_tun_ip)]))
  else None.

(* src/src/api_server/rpc.rs:366-458 handle_request *)
Definition handle_request (now : Z) (c : Ctx) (r : RpcRequest) : Ctx * RpcResponse :=
  match call_method now c (method r) (params r) with
  | None => (c, method_not_found (rq_id r) (lit "Unknown method " ++ method r))
  | Some (c, inr e) => (c, invalid_params (rq_id r) e)
  | Some (c, inl (inl v)) => (c, mkResponse (rq_id r) (Some v) None)
  | Some (c, inl (inr e)) => (c, mkResponse (rq_id r) None (Some (map_api_error e)))
  end.

(** ** Subscriptions *)

(** The topics; the connections' with its query. *)
Inductive Topic : Type := TEvents | TConnections (q : ConnectionQuery) | TLogs.

(** A task: its identifier and topic, whether it was cancelled, whether it has
    ended, whether it has sent the status it starts with, and the last value. *)
Record SubTask : Type := mkTask {
  tk_id : bytes; tk_topic : Topic; tk_cancelled : bool; tk_ended : bool; tk_started : bool; tk_last : option Value }.

Inductive WsOut : Type := OResponse (r : RpcResponse) | OEvent (subscription : bytes) (payload : Value) | OPong (p : bytes).

(** A session; [subs] are the subscriptions that can be cancelled, by their
    identifier, and where their task is. *)
Record Session : Type := mkSession {
  ctx : Ctx; subs : gmap bytes nat; tasks : list SubTask; out : list WsOut; created : nat; open : bool }.

Definition session_new (c : Ctx) : Session := mkSession c ∅ [] [] 0 true.

(** [Uuid::new_v4]. *)
Context (uuid : nat -> bytes).

Definition say (o : WsOut) (s : Session) : Session :=
  mkSession (ctx s) (subs s) (tasks s) (out s ++ [o]) (created s) (open s).

(** The answer to an unknown topic comes after the task of a known one is there. *)
(* src/src/api_server/rpc.rs:281-344 handle_subscribe *)
Definition handle_subscribe (r : RpcRequest) (s : Session) : Session * RpcResponse :=
  match de_subscribe (params r) with
  | inr e => (s, invalid_params (rq_id r) e)
  | inl (topic, p) =>
    let id := uuid (created s) in
    let spawned :=
      if bool_decide (topic = lit "engine.events") then inl TEvents
      else if bool_decide (topic = lit "connections") then
        match de_query p with inl q => inl (TConnections q) | inr e => inr (invalid_params (rq_id r) e) end
      else if bool_decide (topic = lit "logs") then inl TLogs
      else inr (method_not_found (rq_id r) (lit "Unknown subscription topic " ++ topic)) in
    match spawned with
    | inl t =>
      (mkSession (ctx s) (<[id := length (tasks s)]> (subs s)) (tasks s ++ [mkTask id t false false false None]) (out s)
         (Datatypes.S (created s)) (open s),
       mkResponse (rq_id r) (Some (VObj [(lit "subscription", VStr id)])) None)
    | inr resp => (mkSession (ctx s) (subs s) (tasks s) (out s) (Datatypes.S (created s)) (open s), resp)
    end
  end.

Definition cancel (t : SubTask) : SubTask := mkTask (tk_id t) (tk_topic t) true (tk_ended t) (tk_started t) (tk_last t).

(* src/src/api_server/rpc.rs:346-364 handle_unsubscribe *)
Definition handle_unsubscribe (r : RpcRequest) (s : Session) : Session * RpcResponse :=
  match de_unsubscribe (params r) with
  | inr e => (s, invalid_params (rq_id r) e)
  | inl id =>
    let removed := subs s !! id in
    (mkSession (ctx s) (delete id (subs s)) (match removed with Some i => alter cancel i (tasks s) | None => tasks s end)
       (out s) (created s) (open s),
     mkResponse (rq_id r) (Some (VObj [(lit "unsubscribed", VBool (bool_decide (is_Some removed)))])) None)
  end.

Inductive WsIn : Type := IText (t : bytes) | IClose | IPing (p : bytes) | IOther | IError.

(** The end of the session: every subscription is cancelled. *)
(* src/src/api_server/rpc.rs:273-278 handle_socket(end) *)
Definition close_session (s : Session) : Session :=
  mkSession (ctx s) ∅ (fold_left (fun l kv => alter cancel kv.2 l) (map_to_list (subs s)) (tasks s)) (out s) (created s) false.

(* src/src/api_server/rpc.rs:192-270 handle_socket(message) *)
Definition handle_message (now : Z) (m : WsIn) (s : Session) : Session :=
  match m with
  | IText t =>
    match parse_request t with
    | inr e => say (OResponse (mkResponse None None (Some (mkRpcError (-32700) (lit "Parse error") (Some (VStr e)))))) s
    | inl r =>
      if negb (bool_decide (jsonrpc r = lit "2.0")) then
        say (OResponse (mkResponse (rq_id r) None
          (Some (mkRpcError (-32600) (lit "Invalid Request") (Some (VStr (lit "jsonrpc must be 2.0"))))))) s
      else if bool_decide (method r = lit "rpc.subscribe") then
        let '(s, resp) := handle_subscribe r s in say (OResponse resp) s
      else if bool_decide (method r = lit "rpc.unsubscribe") then
        let '(s, resp) := handle_unsubscribe r s in say (OResponse resp) s
      else
        match rq_id r with
        | None => s
        | Some _ =>
          let '(c, resp) := handle_request now (ctx s) r in
          say (OResponse resp) (mkSession c (subs s) (tasks s) (out s) (created s) (open s))
        end
    end
  | IClose | IError => close_session s
  | IPing p => say (OPong p) s
  | IOther => s
  end.

(** ** What the tasks send *)

(** [json_patch]: the difference of two values, and its application. *)
Context (diff : Value -> Value -> Value).

(* src/src/api_server/shared.rs:80-83 MaybePatch *)
Inductive MaybePatch : Type := Full (v : Value) | Patch (p : Value).

Definition maybe_patch_json (m : MaybePatch) : Value :=
  match m with Full v => VObj [(lit "full", v)] | Patch p => VObj [(lit "patch", p)] end.

(** What happens to a task: its start, with the engine's status; an event or a
    piece of the log; a tick with the connections, where they can be written;
    a gap, the end of the source, and the sight of its cancellation. *)
Inductive TaskIn : Type :=
| NStart (status : Value) | NEvent (v : Value) | NTick (v : option Value) | NLagged | NClosed | NCancelSeen.

Definition remove_key (v : Value) (k : bytes) : Value :=
  match v with VObj l => VObj (List.filter (fun kv => negb (bool_decide (kv.1 = k))) l) | _ => v end.

Definition tick_value (q : ConnectionQuery) (v : Value) : Value :=
  if without_connections q then remove_key v (lit "connections") else v.

Definition tick_payload (q : ConnectionQuery) (last : option Value) (v : Value) : Value :=
  maybe_patch_json (if patch q then match last with Some prev => Patch (diff prev v) | None => Full v end else Full v).

Definition end_task (t : SubTask) : SubTask := mkTask (tk_id t) (tk_topic t) (tk_cancelled t) true (tk_started t) (tk_last t).

(** One step of a task, and what it sends. *)
(* src/src/api_server/rpc.rs:836-961 engine_events_subscription, connections_subscription, logs_subscription *)
Definition task_step (t : SubTask) (i : TaskIn) : SubTask * option Value :=
  if tk_ended t then (t, None)
  else
    match i, tk_topic t with
    | NStart status, TEvents =>
      if tk_started t then (t, None)
      else (mkTask (tk_id t) (tk_topic t) (tk_cancelled t) false true (tk_last t), Some status)
    | NEvent v, TEvents => if tk_started t then (t, Some v) else (t, None)
    | NEvent v, TLogs => (t, Some v)
    | NTick (Some v), TConnections q =>
      let v := tick_value q v in
      (mkTask (tk_id t) (tk_topic t) (tk_cancelled t) false (tk_started t) (Some v), Some (tick_payload q (tk_last t) v))
    | NTick None, TConnections _ => (end_task t, None)
    | NClosed, _ => (end_task t, None)
    | NCancelSeen, _ => if tk_cancelled t then (end_task t, None) else (t, None)
    | _, _ => (t, None)
    end.

(** ** Runs *)

Inductive Act : Type := AMsg (now : Z) (m : WsIn) | ATask (i : nat) (n : TaskIn).

Definition act (s : Session) (a : Act) : Session :=
  match a with
  | AMsg now m => if open s then handle_message now m s else s
  | ATask i n =>
    match tasks s !! i with
    | None => s
    | Some t =>
      let '(t', p) := task_step t n in
      let s := mkSession (ctx s) (subs s) (<[i := t']> (tasks s)) (out s) (created s) (open s) in
      match p with Some v => say (OEvent (tk_id t) v) s | None => s end
    end
  end.

Definition run_session (c : Ctx) (l : list Act) : Session := fold_left act l (session_new c).

(** ** Responses *)

(** The identifiers the responses to a message have: one for a request, and
    none for a notification that is not about subscriptions. *)
Definition answered (m : WsIn) : list (option Value) :=
  match m with
  | IText t =>
    match parse_request t with
    | inr _ => [None]
    | inl r =>
      if negb (bool_decide (jsonrpc r = lit "2.0")) || bool_decide (method r = lit "rpc.subscribe") || bool_decide (method r = lit "rpc.unsubscribe")
      then [rq_id r]
      else match rq_id r with None => [] | Some id => [Some id] end
    end
  | _ => []
  end.

Definition closes (m : WsIn) : bool := match m with IClose | IError => true | _ => false end.

(** The messages of a run up to the one that closes the session. *)
Fixpoint messages (l : list Act) : list WsIn :=
  match l with
  | [] => []
  | AMsg _ m :: l => if closes m then [m] else m :: messages l
  | ATask _ _ :: l => messages l
  end.

Definition response_ids (l : list WsOut) : list (option Value) := omap (fun o => match o with OResponse r => Some (rs_id r) | _ => None end) l.

Lemma subscribe_id r s s' resp : handle_subscribe r s = (s', resp) -> rs_id resp = rq_id r /\ out s' = out s /\ open s' = open s.
Proof.
  unfold handle_subscribe. destruct (de_subscribe (params r)) as [[topic p]|e]; [|by intros [= <- <-]].
  destruct (bool_decide _); [by intros [= <- <-]|]. destruct (bool_decide _).
  - by destruct (de_query p); intros [= <- <-].
  - by destruct (bool_decide _); intros [= <- <-].
Qed.

Lemma unsubscribe_id r s s' resp : handle_unsubscribe r s = (s', resp) -> rs_id resp = rq_id r /\ out s' = out s /\ open s' = open s.
Proof. unfold handle_unsubscribe. by destruct (de_unsubscribe (params r)); intros [= <- <-]. Qed.

Lemma request_id now c r c' resp : handle_request now c r = (c', resp) -> rs_id resp = rq_id r.
Proof. unfold handle_request. by destruct (call_method now c (method r) (params r)) as [[? [[|]|]]|]; intros [= <- <-]. Qed.

Lemma handle_message_ids now m s : open s = true ->
  response_ids (out (handle_message now m s)) = response_ids (out s) ++ answered m /\ open (handle_message now m s) = negb (closes m).
Proof.
  intros Ho. unfold response_ids. destruct m as [t| |p| |]; cbn [handle_message answered closes negb]; try (rewrite app_nil_r; by split).
  2: { cbn [say out open]. rewrite omap_app. by split. }
  destruct (parse_request t) as [r|e]; [|cbn [say out open]; rewrite omap_app; by split].
  destruct (negb (bool_decide (jsonrpc r = _))); cbn [orb]; [cbn [say out open]; rewrite omap_app; by split|].
  destruct (bool_decide (method r = lit "rpc.subscribe")); cbn [orb].
  { destruct (handle_subscribe r s) as [s1 resp] eqn:Eq. apply subscribe_id in Eq as (E1 & E2 & E3).
    cbn [say out open]. rewrite omap_app, E2, E3. cbn. rewrite E1. by split. }
  destruct (bool_decide (method r = lit "rpc.unsubscribe")).
  { destruct (handle_unsubscribe r s) as [s1 resp] eqn:Eq. apply unsubscribe_id in Eq as (E1 & E2 & E3).
    cbn [say out open]. rewrite omap_app, E2, E3. cbn. rewrite E1. by split. }
  destruct (rq_id r) as [id|] eqn:Ei; [|rewrite app_nil_r; by split].
  destruct (handle_request now (ctx s) r) as [c resp] eqn:Eq. apply request_id in Eq.
  cbn [say out open]. rewrite omap_app. cbn. rewrite Eq, Ei. by split.
Qed.

Lemma task_act_ids s i n : response_ids (out (act s (ATask i n))) = response_ids (out s) /\ open (act s (ATask i n)) = open s.
Proof.
  cbn [act]. destruct (tasks s !! i) as [t|]; [|done]. destruct (task_step t n) as [t' [v|]]; [|done].
  cbn [say out open]. unfold response_ids. rewrite omap_app, app_nil_r. by split.
Qed.

Lemma run_ids l : forall s, response_ids (out (fold_left act l s)) =
  response_ids (out s) ++ if open s then concat (map answered (messages l)) else [].
Proof.
  induction l as [|[now m|i n] l IH]; intros s; cbn [fold_left messages]; [by destruct (open s); rewrite app_nil_r|..].
  - rewrite IH. cbn [act]. destruct (open s) eqn:Ho; [|by rewrite Ho].
    destruct (handle_message_ids now m s Ho) as [H1 H2]. rewrite H1, H2, <- app_assoc. f_equal.
    destruct (closes m) eqn:Ec; cbn [negb map concat]; done.
  - rewrite IH. destruct (task_act_ids s i n) as [H1 H2]. by rewrite H1, H2.
Qed.

(** The responses of a session: whatever the requests do, and in whatever
    order the tasks of its subscriptions send their events in between, each
    request with an identifier is answered exactly once, with that identifier
    and in the order of the requests, malformed and unknown ones included, until
    the session is closed; a notification is not answered unless it is about a
    subscription or of another version. *)
Theorem api_answers c l : response_ids (out (run_session c l)) = concat (map answered (messages l)).
Proof. unfold run_session. by rewrite run_ids. Qed.

(** ** Subscriptions *)

Context (uuid_inj : forall i j, uuid i = uuid j -> i = j).
Context (patch_apply : Value -> Value -> option Value) (patch_diff : forall a b, patch_apply (diff a b) a = Some b).

(** What a subscriber to the connections has after a payload. *)
Definition view_step (v : option Value) (payload : Value) : option Value :=
  match payload with
  | VObj [(k, x)] =>
    if bool_decide (k = lit "full") then Some x
    else if bool_decide (k = lit "patch") then match v with Some v => patch_apply x v | None => None end
    else None
  | _ => None
  end.

Definition view (l : list Value) : option Value := fold_left view_step l None.

(** The payloads of a subscription. *)
Definition events_of (id : bytes) (l : list WsOut) : list Value :=
  omap (fun o => match o with OEvent i v => if bool_decide (i = id) then Some v else None | _ => None end) l.

Record session_ok (s : Session) : Prop := mkSessionOk {
  so_subs : forall id i, subs s !! id = Some i -> exists t, tasks s !! i = Some t /\ tk_id t = id /\ tk_cancelled t = false;
  so_live : forall i t, tasks s !! i = Some t -> tk_cancelled t = false -> subs s !! tk_id t = Some i;
  so_ids : forall i t, tasks s !! i = Some t -> exists n, (n < created s)%nat /\ tk_id t = uuid n;
  so_distinct : forall i j t u, tasks s !! i = Some t -> tasks s !! j = Some u -> tk_id t = tk_id u -> i = j;
  so_closed : open s = false -> subs s = ∅;
  so_events : forall id v, OEvent id v ∈ out s -> exists i t, tasks s !! i = Some t /\ tk_id t = id;
  so_view : forall i t q, tasks s !! i = Some t -> tk_topic t = TConnections q -> view (events_of (tk_id t) (out s)) = tk_last t }.

(** A step of a task leaves everything but what it was sent. *)
Lemma task_step_kept t n t' p : task_step t n = (t', p) ->
  tk_id t' = tk_id t /\ tk_topic t' = tk_topic t /\ tk_cancelled t' = tk_cancelled t.
Proof.
  unfold task_step. destruct (tk_ended t); [by intros [= <- <-]|]. destruct n as [v|v|[v|]| | |], (tk_topic t) eqn:Et;
    repeat match goal with |- context [if ?b then _ else _] => destruct b eqn:? end; intros [= <- <-]; by split_and!.
Qed.

Lemma task_step_view t n t' p q : task_step t n = (t', p) -> tk_topic t = TConnections q ->
  tk_last t' = match p with Some v => view_step (tk_last t) v | None => tk_last t end.
Proof.
  unfold task_step. intros Hs Eq. rewrite Eq in Hs. destruct (tk_ended t); [by injection Hs as <- <-|].
  destruct n as [v|v|[v|]| | |]; try (injection Hs as <- <-; done).
  - injection Hs as <- <-. unfold tick_payload. cbn [tk_last]. destruct (patch q); [|done].
    destruct (tk_last t) as [prev|]; [|done]. cbn. by rewrite patch_diff.
  - destruct (tk_cancelled t); by injection Hs as <- <-.
Qed.

Lemma events_of_app id a b : events_of id (a ++ b) = events_of id a ++ events_of id b.
Proof. apply omap_app. Qed.

Lemma events_none id l : (forall v, OEvent id v ∉ l) -> events_of id l = [].
Proof.
  induction l as [|o l IH]; intros Hl; [done|]. unfold events_of in *. cbn [omap list_omap].
  rewrite IH by (intros v Hv; apply (Hl v); by right). destruct o as [r|i v|p]; try done.
  rewrite bool_decide_eq_false_2; [done|]. intros ->. apply (Hl v). by left.
Qed.

(** Only events matter. *)
Lemma session_ok_say o s : (match o with OEvent _ _ => False | _ => True end) -> session_ok s -> session_ok (say o s).
Proof.
  intros Ho [H1 H2 H3 H4 H5 H6 H7]. split; cbn [say ctx subs tasks out created open]; try done.
  - intros id v Hv. apply elem_of_app in Hv as [Hv|Hv]; [by eapply H6|]. apply list_elem_of_singleton in Hv. by subst o.
  - intros i t q Ht Hq. rewrite events_of_app. destruct o; try done; cbn; rewrite app_nil_r; by eapply H7.
Qed.

Lemma session_ok_ctx c s : session_ok s -> session_ok (mkSession c (subs s) (tasks s) (out s) (created s) (open s)).
Proof. by intros [H1 H2 H3 H4 H5 H6 H7]. Qed.

Lemma session_ok_spawn s t : session_ok s -> open s = true ->
  session_ok (mkSession (ctx s) (<[uuid (created s) := length (tasks s)]> (subs s))
    (tasks s ++ [mkTask (uuid (created s)) t false false false None]) (out s) (Datatypes.S (created s)) (open s)).
Proof.
  intros [H1 H2 H3 H4 H5 H6 H7] Ho. set (t0 := mkTask _ _ _ _ _ _).
  assert (Hfresh : forall i u, tasks s !! i = Some u -> tk_id u <> uuid (created s)).
  { intros i u Hu E'. destruct (H3 i u Hu) as (n & Hn & E2). rewrite E2 in E'. apply uuid_inj in E'. lia. }
  assert (Hcase : forall i u, (tasks s ++ [t0]) !! i = Some u -> tasks s !! i = Some u \/ (i = length (tasks s) /\ u = t0)).
  { intros i u Hu. apply lookup_app_Some in Hu as [Hu|[Hle Hu]]; [by left|]. apply list_lookup_singleton_Some in Hu as [Hi <-].
    right. split; [lia|done]. }
  assert (Hnew : (tasks s ++ [t0]) !! length (tasks s) = Some t0) by by apply list_lookup_middle.
  split; cbn [ctx subs tasks out created open].
  - intros id i Hi. apply lookup_insert_Some in Hi as [[<- <-]|[Hne Hi]]; [by exists t0|].
    destruct (H1 id i Hi) as (u & Hu & E1 & E2). exists u. split; [by apply lookup_app_l_Some|done].
  - intros i u Hu Hc. destruct (Hcase i u Hu) as [Hu'|[-> ->]]; [|apply lookup_insert_eq].
    rewrite lookup_insert_ne by (intros E'; by apply (Hfresh i u)). by apply H2.
  - intros i u Hu. destruct (Hcase i u Hu) as [Hu'|[-> ->]]; [|exists (created s); split; [lia|done]].
    destruct (H3 i u Hu') as (n & Hn & E1). exists n. split; [lia|done].
  - intros i j u w Hu Hw E'. destruct (Hcase i u Hu) as [Hu'|[-> ->]], (Hcase j w Hw) as [Hw'|[-> ->]]; try done.
    + by eapply H4.
    + by destruct (Hfresh i u Hu').
    + by destruct (Hfresh j w Hw').
  - by rewrite Ho.
  - intros id v Hv. destruct (H6 id v Hv) as (i & u & Hu & E'). exists i, u. split; [by apply lookup_app_l_Some|done].
  - intros i u q Hu Hq. destruct (Hcase i u Hu) as [Hu'|[-> ->]]; [by eapply H7|].
    rewrite events_none; [done|]. intros v Hv. destruct (H6 _ v Hv) as (j & w & Hw & E'). by destruct (Hfresh j w Hw).
Qed.

(** Cancelling changes nothing but the mark. *)
Definition marked (u t : SubTask) : Prop := tk_id u = tk_id t /\ tk_topic u = tk_topic t /\ tk_last u = tk_last t.

Lemma cancelled_all (l : list (bytes * nat)) : forall (ts : list SubTask) j,
  match fold_left (fun l kv => alter cancel kv.2 l) l ts !! j, ts !! j with
  | Some u, Some t => marked u t /\ (tk_cancelled u = false -> tk_cancelled t = false /\ forall id, (id, j) ∉ l)
  | None, None => True
  | _, _ => False
  end.
Proof.
  induction l as [|[id i] l IH]; intros ts j; cbn [fold_left].
  - destruct (ts !! j); [|done]. split; [done|]. intros Hc. split; [done|]. intros id. apply not_elem_of_nil.
  - specialize (IH (alter cancel i ts) j). cbn [snd].
    destruct (decide (i = j)) as [->|Hij].
    + rewrite list_lookup_alter_eq in IH. destruct (fold_left _ _ _ !! j) as [u|], (ts !! j) as [t|]; cbn [fmap option_fmap option_map] in IH; try done.
      destruct IH as [(E1 & E2 & E3) Hc]. split; [done|]. intros Hu. by destruct (Hc Hu).
    + rewrite list_lookup_alter_ne in IH by done. destruct (fold_left _ _ _ !! j) as [u|], (ts !! j) as [t|]; try done.
      destruct IH as [Hm Hc]. split; [done|]. intros Hu. destruct (Hc Hu) as [H1 H2]. split; [done|].
      intros id'. apply not_elem_of_cons. split; [congruence|done].
Qed.

(** The tasks of a list of subscriptions are cancelled and those subscriptions removed. *)
Lemma session_ok_cancel s l sb o : session_ok s -> sb ⊆ subs s ->
  (forall id i, subs s !! id = Some i -> sb !! id = Some i \/ (id, i) ∈ l) ->
  (forall id i, (id, i) ∈ l -> subs s !! id = Some i /\ sb !! id = None) -> (o = false -> sb = ∅) ->
  session_ok (mkSession (ctx s) sb (fold_left (fun l kv => alter cancel kv.2 l) l (tasks s)) (out s) (created s) o).
Proof.
  intros [H1 H2 H3 H4 H5 H6 H7] Hsub Hcov Hrem Ho. set (ts := fold_left _ _ _).
  assert (Hl : forall i u, ts !! i = Some u -> exists t, tasks s !! i = Some t /\ marked u t /\
    (tk_cancelled u = false -> tk_cancelled t = false /\ forall id, (id, i) ∉ l)).
  { intros i u Hu. pose proof (cancelled_all l (tasks s) i) as Hc. fold ts in Hc. rewrite Hu in Hc.
    destruct (tasks s !! i) as [t|]; [|done]. exists t. by destruct Hc. }
  split; cbn [ctx subs tasks out created open].
  - intros id i Hi. assert (Hs : subs s !! id = Some i) by by eapply lookup_weaken.
    destruct (H1 id i Hs) as (t & Ht & Eid & Ec). pose proof (cancelled_all l (tasks s) i) as Hc. fold ts in Hc. rewrite Ht in Hc.
    destruct (ts !! i) as [u|] eqn:Eu; [|done]. destruct Hc as [(E1 & _ & _) Hc]. exists u. split; [done|]. split; [congruence|].
    destruct (tk_cancelled u) eqn:Eu'; [|done]. exfalso.
    assert (Hn : forall id', (id', i) ∈ l -> False).
    { intros id' Hin. destruct (Hrem id' i Hin) as [Hs' Hn]. destruct (H1 id' i Hs') as (t' & Ht' & Eid' & _).
      rewrite Ht in Ht'. injection Ht' as <-. assert (id' = id) as -> by congruence. congruence. }
    clear -Ec Eu Eu' Hn Ht. unfold ts in Eu. revert Ht Eu. generalize (tasks s) as ts0. intros ts0.
    revert ts0. induction l as [|[a b] l IH]; intros ts0 Ht Eu; cbn [fold_left] in Eu; [congruence|].
    eapply IH; [intros id' Hin; apply (Hn id'); by right| |done]. cbn [snd]. rewrite list_lookup_alter_ne; [done|].
    intros ->. apply (Hn a). by left.
  - intros i u Hu Hc. destruct (Hl i u Hu) as (t & Ht & (E1 & _ & _) & Hc'). destruct (Hc' Hc) as [Ec Hn].
    rewrite E1. specialize (H2 i t Ht Ec). destruct (Hcov _ _ H2) as [Hk|Hk]; [done|]. by destruct (Hn (tk_id t)).
  - intros i u Hu. destruct (Hl i u Hu) as (t & Ht & (-> & _ & _) & _). by apply (H3 i).
  - intros i j u w Hu Hw Eq. destruct (Hl i u Hu) as (t & Ht & (E1 & _ & _) & _). destruct (Hl j w Hw) as (t' & Ht' & (E2 & _ & _) & _).
    eapply H4; [done..|congruence].
  - done.
  - intros id v Hv. destruct (H6 id v Hv) as (i & t & Ht & Eq). pose proof (cancelled_all l (tasks s) i) as Hc. fold ts in Hc.
    rewrite Ht in Hc. destruct (ts !! i) as [u|] eqn:Eu; [|done]. exists i, u. split; [done|]. destruct Hc as [(E1 & _) _]. congruence.
  - intros i u q Hu Hq. destruct (Hl i u Hu) as (t & Ht & (-> & E2 & ->) & _). eapply H7; [done|]. by rewrite <- E2.
Qed.

Lemma unsubscribe_ok r s s' resp : session_ok s -> open s = true -> handle_unsubscribe r s = (s', resp) -> session_ok s'.
Proof.
  unfold handle_unsubscribe. intros Hok Ho. destruct (de_unsubscribe (params r)) as [id|e]; [|by intros [= <- <-]].
  intros [= <- <-]. destruct (subs s !! id) as [i|] eqn:Ei.
  - apply (session_ok_cancel s [(id, i)] (delete id (subs s)) (open s)); [done|apply delete_subseteq| | |by rewrite Ho].
    + intros id' i' Hi. destruct (decide (id = id')) as [->|Hne].
      * right. rewrite Ei in Hi. injection Hi as <-. by left.
      * left. by rewrite lookup_delete_ne.
    + intros id' i' Hi. apply list_elem_of_singleton in Hi. injection Hi as -> ->. split; [done|]. apply lookup_delete_eq.
  - rewrite delete_id by done. by destruct s.
Qed.

Lemma close_ok s : session_ok s -> session_ok (close_session s).
Proof.
  intros Hok. apply (session_ok_cancel s (map_to_list (subs s)) ∅ false); [done|apply map_empty_subseteq| | |done].
  - intros id i Hi. right. by apply elem_of_map_to_list.
  - intros id i Hi. apply elem_of_map_to_list in Hi. split; [done|apply lookup_empty].
Qed.

Lemma session_ok_later s n : session_ok s -> (created s <= n)%nat ->
  session_ok (mkSession (ctx s) (subs s) (tasks s) (out s) n (open s)).
Proof.
  intros [H1 H2 H3 H4 H5 H6 H7] Hn. split; cbn [ctx subs tasks out created open]; try done.
  intros i t Ht. destruct (H3 i t Ht) as (m & Hm & Eq). exists m. split; [lia|done].
Qed.

Lemma subscribe_ok r s s' resp : session_ok s -> open s = true -> handle_subscribe r s = (s', resp) -> session_ok s'.
Proof.
  unfold handle_subscribe. intros Hok Ho. destruct (de_subscribe (params r)) as [[topic p]|e]; [|by intros [= <- <-]].
  assert (Hl : session_ok (mkSession (ctx s) (subs s) (tasks s) (out s) (Datatypes.S (created s)) (open s)))
    by (apply session_ok_later; [done|lia]).
  destruct (bool_decide _); [intros [= <- <-]; by apply session_ok_spawn|]. destruct (bool_decide _).
  - destruct (de_query p); intros [= <- <-]; [by apply session_ok_spawn|done].
  - destruct (bool_decide _); intros [= <- <-]; [by apply session_ok_spawn|done].
Qed.

Lemma message_ok now m s : session_ok s -> open s = true -> session_ok (handle_message now m s).
Proof.
  intros Hok Ho. destruct m as [t| |p| |]; cbn [handle_message]; [|by apply close_ok|by apply session_ok_say|done|by apply close_ok].
  destruct (parse_request t) as [r|e]; [|by apply session_ok_say]. destruct (negb _); [by apply session_ok_say|].
  destruct (bool_decide _).
  { destruct (handle_subscribe r s) as [s1 resp] eqn:Eq. apply session_ok_say; [done|]. by eapply subscribe_ok. }
  destruct (bool_decide _).
  { destruct (handle_unsubscribe r s) as [s1 resp] eqn:Eq. apply session_ok_say; [done|]. by eapply unsubscribe_ok. }
  destruct (rq_id r); [|done]. destruct (handle_request now (ctx s) r) as [c resp].
  apply session_ok_say; [done|]. by apply session_ok_ctx.
Qed.

Lemma task_ok s i t n t' p : session_ok s -> tasks s !! i = Some t -> task_step t n = (t', p) ->
  session_ok (mkSession (ctx s) (subs s) (<[i := t']> (tasks s))
    (match p with Some v => out s ++ [OEvent (tk_id t) v] | None => out s end) (created s) (open s)).
Proof.
  intros [H1 H2 H3 H4 H5 H6 H7] Ht Hstep. pose proof (task_step_kept _ _ _ _ Hstep) as (Eid & Etopic & Ec).
  assert (Hnew : <[i := t']> (tasks s) !! i = Some t') by (apply list_lookup_insert_eq; by eapply lookup_lt_Some).
  assert (Hl : forall j u, <[i := t']> (tasks s) !! j = Some u ->
    exists w, tasks s !! j = Some w /\ tk_id u = tk_id w /\ tk_cancelled u = tk_cancelled w /\ (j = i -> u = t' /\ w = t) /\ (j <> i -> u = w)).
  { intros j u Hu. destruct (decide (j = i)) as [->|Hne].
    - rewrite Hnew in Hu. injection Hu as <-. by exists t.
    - rewrite list_lookup_insert_ne in Hu by done. by exists u. }
  assert (Hr : forall j w, tasks s !! j = Some w -> exists u, <[i := t']> (tasks s) !! j = Some u /\ tk_id u = tk_id w /\ tk_cancelled u = tk_cancelled w).
  { intros j w Hw. destruct (decide (j = i)) as [->|Hne]; [|exists w; by rewrite list_lookup_insert_ne].
    rewrite Ht in Hw. injection Hw as <-. by exists t'. }
  split; cbn [ctx subs tasks out created open].
  - intros id j Hj. destruct (H1 id j Hj) as (w & Hw & E1 & E2). destruct (Hr j w Hw) as (u & Hu & E3 & E4).
    exists u. split; [done|]. split; congruence.
  - intros j u Hu Hc. destruct (Hl j u Hu) as (w & Hw & E1 & E2 & _). rewrite E1. apply H2; [done|congruence].
  - intros j u Hu. destruct (Hl j u Hu) as (w & Hw & -> & _). by apply (H3 j).
  - intros j j' u u' Hu Hu' Eq. destruct (Hl j u Hu) as (w & Hw & E1 & _), (Hl j' u' Hu') as (w' & Hw' & E2 & _).
    eapply H4; [done..|congruence].
  - done.
  - intros id v Hv. assert (Hid : (exists v, OEvent id v ∈ out s) \/ id = tk_id t).
    { destruct p as [x|]; [|left; by exists v]. apply elem_of_app in Hv as [Hv|Hv]; [left; by exists v|].
      apply list_elem_of_singleton in Hv. injection Hv as -> _. by right. }
    destruct Hid as [[x Hx]| ->].
    + destruct (H6 id x Hx) as (j & w & Hw & E1). destruct (Hr j w Hw) as (u & Hu & E2 & _). exists j, u. split; [done|congruence].
    + destruct (Hr i t Ht) as (u & Hu & E2 & _). by exists i, u.
  - intros j u q Hu Hq. destruct (Hl j u Hu) as (w & Hw & E1 & _ & Hsame & Hother). rewrite E1.
    destruct (decide (j = i)) as [->|Hne].
    + destruct (Hsame eq_refl) as [-> ->]. rewrite Etopic in Hq. rewrite (task_step_view _ _ _ _ _ Hstep Hq).
      destruct p as [x|]; [|by eapply H7]. rewrite events_of_app. unfold events_of at 2. cbn. rewrite bool_decide_eq_true_2 by done.
      unfold view. rewrite fold_left_app. cbn [fold_left]. f_equal. by eapply H7.
    + specialize (Hother Hne). subst u. destruct p as [x|]; [|by eapply H7]. rewrite events_of_app. unfold events_of at 2. cbn.
      rewrite bool_decide_eq_false_2, app_nil_r; [by eapply H7|]. intros Eq. apply Hne. eapply H4; [done..|congruence].
Qed.

Lemma run_ok l : forall s, session_ok s -> session_ok (fold_left act l s).
Proof.
  induction l as [|a l IH]; intros s Hok; cbn [fold_left]; [done|]. apply IH. destruct a as [now m|i n]; cbn [act].
  - destruct (open s) eqn:Ho; [by apply message_ok|done].
  - destruct (tasks s !! i) as [t|] eqn:Et; [|done]. destruct (task_step t n) as [t' p] eqn:Es.
    pose proof (task_ok _ _ _ _ _ _ Hok Et Es) as K. by destruct p.
Qed.

Lemma session_new_ok c : session_ok (session_new c).
Proof.
  split; cbn [session_new ctx subs tasks out created open]; try done.
  intros id v Hv. by apply elem_of_nil in Hv.
Qed.

(** C9: The subscriptions of a session, over any run: the tasks that may go on
    are exactly those whose identifier can still be cancelled, each its own; an
    event is of a subscription that was made; once the session is closed every
    task is cancelled; and what a subscriber to the connections has put together
    from full values and patches is the last value that was taken for it. *)
Theorem api_subscriptions c l :
  let s := run_session c l in
  (forall id i, subs s !! id = Some i <-> exists t, tasks s !! i = Some t /\ tk_id t = id /\ tk_cancelled t = false) /\
  (forall id v, OEvent id v ∈ out s -> exists i t, tasks s !! i = Some t /\ tk_id t = id) /\
  (open s = false -> forall i t, tasks s !! i = Some t -> tk_cancelled t = true) /\
  (forall i t q, tasks s !! i = Some t -> tk_topic t = TConnections q -> view (events_of (tk_id t) (out s)) = tk_last t).
Proof.
  intros s. assert (Hok : session_ok s) by apply run_ok, session_new_ok. destruct Hok as [H1 H2 H3 H4 H5 H6 H7].
  split_and!; [|done| |done].
  - intros id i. split; [apply H1|]. intros (t & Ht & <- & Hc). by apply H2.
  - intros Ho i t Ht. destruct (tk_cancelled t) eqn:Hc; [done|]. specialize (H2 i t Ht Hc). by rewrite (H5 Ho), lookup_empty in H2.
Qed.

(** ** Selections *)

(** Selecting a net, where the storage keeps what it is given and the map of
    selections is read as it was written: the engine is given the selection, for
    a select net; and after a success the selections that are kept for the
    running configuration have the new one for this net and are otherwise what
    they were, so that it is applied when the configuration is loaded again. *)
Theorem select_net_spec now c net_name selected c' id :
  st_ok (select_cache c) ->
  (forall m, exists j, map_to_json m = Ok j /\ j <> [] /\ map_of_json j = Some m) ->
  select_net now c net_name selected = (c', inl tt) -> en_id (rd c') = Some id ->
  fst (en_update_net (rd c) net_name (select_update selected)) = rd c' /\ st_ok (select_cache c') /\
  exists m m', select_from_cache map_of_json id (select_cache c) = Ok m /\
    select_from_cache map_of_json id (select_cache c') = Ok m' /\
    im_get m' net_name = Some selected /\ forall k, k <> net_name -> im_get m' k = im_get m k.
Proof.
  intros Hok Hj Hs Hid. unfold select_net in Hs.
  destruct (en_update_net (rd c) net_name (select_update selected)) as [e [u|err]]; [|done].
  change (rd (with_rd c e)) with e in Hs. change (select_cache (with_rd c e)) with (select_cache c) in Hs.
  destruct (en_id e) as [id0|] eqn:Ei; [|injection Hs as <-; cbn in Hid; congruence].
  destruct (select_from_cache map_of_json id0 (select_cache c)) as [m|] eqn:Em; [|done].
  destruct (Hj (select_insert m net_name selected)) as (j & Hj1 & Hj2 & Hj3). unfold select_write_cache in Hs. rewrite Hj1 in Hs.
  destruct (st_set now (select_cache c) id0 j) as [s' x] eqn:Es. destruct (st_set_ok now _ _ _ _ _ Hok Hj2 Es) as (-> & Hok' & Hg & _).
  injection Hs as <-. cbn [with_select with_rd rd select_cache fst] in *. assert (id0 = id) as -> by congruence.
  split; [done|]. split; [done|]. exists m, (select_insert m net_name selected). unfold select_insert. split_and!; [done| | |].
  - unfold select_from_cache. rewrite Hg. cbn [content]. by rewrite Hj3.
  - rewrite im_get_insert. by rewrite decide_True.
  - intros k Hk. rewrite im_get_insert. by rewrite decide_False.
Qed.

(** A task that has ended sends nothing more. *)
Lemma ended_silent t n : tk_ended t = true -> task_step t n = (t, None).
Proof. unfold task_step. by intros ->. Qed.

End Requests.

(** ** A concrete session *)

Definition sample_request (t : bytes) : RpcRequest + bytes :=
  match t with
  | [1] => inl (mkRequest (lit "2.0") (lit "rpc.subscribe") (VStr (lit "connections")) (Some (VNum 1)))
  | [2] => inl (mkRequest (lit "2.0") (lit "config.get") VNull (Some (VNum 2)))
  | [3] => inl (mkRequest (lit "2.0") (lit "config.get") VNull None)
  | [4] => inl (mkRequest (lit "1.0") (lit "config.get") VNull (Some (VNum 4)))
  | [5] => inl (mkRequest (lit "2.0") (lit "no.such") VNull (Some (VNum 5)))
  | [6] => inl (mkRequest (lit "2.0") (lit "rpc.unsubscribe") (VStr [0]) (Some (VNum 6)))
  | _ => inr (lit "eof")
  end.

Definition value_str (v : Value) : bytes + bytes := match v with VStr s => inl s | _ => inr (lit "string") end.

(** A map of selections as its entries, each string after its length. *)
Fixpoint sample_map_text (m : SelectMap) : bytes :=
  match m with
  | [] => [0]
  | (k, v) :: m => [1; Z.of_nat (length k)] ++ k ++ [Z.of_nat (length v)] ++ v ++ sample_map_text m
  end.

Fixpoint sample_map_read (fuel : nat) (s : bytes) : option SelectMap :=
  match fuel, s with
  | Datatypes.S fuel, 1 :: n :: s =>
    match drop (Z.to_nat n) s with
    | l :: t =>
      match sample_map_read fuel (drop (Z.to_nat l) t) with
      | Some m => Some ((take (Z.to_nat n) s, take (Z.to_nat l) t) :: m)
      | None => None
      end
    | [] => None
    end
  | _, [0] => Some []
  | _, _ => None
  end.

#[export] Instance sample_serde : ApiSerde := {
  parse_request := sample_request;
  de_subscribe v := match v with VStr s => inl (s, VNull) | _ => inr (lit "topic") end;
  de_unsubscribe := value_str;
  de_query _ := inl (mkQuery true false);
  de_source _ := inr (lit "source");
  de_uuid := value_str;
  de_select _ := inr (lit "select");
  de_delay _ := inr (lit "delay");
  de_path := value_str;
  de_put _ := inr (lit "put");
  de_tail _ := inr (lit "tail");
  de_update _ := inr (lit "update");
  source_json _ := None;
  json_of s := Some (VStr s);
  time_json := VNum;
  map_of_json s := sample_map_read (length s) s;
  map_to_json m := Ok (sample_map_text m) }.

(** An engine that remembers the last selection it was given. *)
#[export] Instance sample_engine_api : EngineApi (option bytes) := {
  en_config _ := inl (lit "cfg");
  en_id _ := Some (lit "id");
  en_registry _ := inl VNull;
  en_connections _ := inl VNull;
  en_stop_connection e _ := (e, inl true);
  en_stop_connections e := (e, inl 0%nat);
  en_update_net _ n _ := (Some n, inl tt);
  en_stop e := (e, inl tt);
  en_start_stream e _ := (e, inl tt);
  en_get_net _ _ := inl None;
  en_probe _ _ _ _ _ _ := None }.

Definition sample_ctx : Ctx (E := option bytes) (S := MemoryCache) := mkCtx None memory_new memory_new None [] None ∅.
Definition sample_uuid (n : nat) : bytes := [Z.of_nat n].
Definition sample_error (e : error) : bytes := lit "error".
Definition sample_diff (a b : Value) : Value := VArr [a; b].
Definition sample_apply (p a : Value) : option Value := match p with VArr [_; b] => Some b | _ => None end.

(** Requests of every kind, with ticks of the connections in between. *)
Definition sample_acts : list Act :=
  [AMsg 0 (IText [1]); ATask 0 (NTick (Some (VNum 7))); AMsg 1 (IText [2]); AMsg 1 (IText [3]); ATask 0 (NTick (Some (VNum 8)));
   AMsg 2 (IText [4]); AMsg 2 (IText [9]); AMsg 3 (IText [5]); AMsg 3 (IText [6]); AMsg 4 IClose; AMsg 5 (IText [2])].

Definition sample_session : Session :=
  run_session sample_error (fun f _ => (f, inl VNull)) VNull sample_uuid sample_diff sample_ctx sample_acts.

Example sample_session_answers :
  response_ids (out sample_session) = [Some (VNum 1); Some (VNum 2); Some (VNum 4); None; Some (VNum 5); Some (VNum 6)].
Proof. vm_compute. reflexivity. Qed.

Lemma api_answers_witness : response_ids (out sample_session) = concat (map answered (messages sample_acts)).
Proof. apply api_answers. Defined.

Lemma api_subscriptions_witness :
  view (sample_apply) (events_of [0] (out sample_session)) = Some (VNum 8) /\
  forall i t, tasks sample_session !! i = Some t -> tk_cancelled t = true.
Proof.
  assert (Hinj : forall i j, sample_uuid i = sample_uuid j -> i = j) by (unfold sample_uuid; intros i j [= Eq]; lia).
  pose proof (api_subscriptions sample_error (fun f _ => (f, inl VNull)) VNull sample_uuid sample_diff Hinj sample_apply
    (fun a b => eq_refl) sample_ctx sample_acts) as (_ & _ & H3 & H4).
  split; [|apply H3; vm_compute; reflexivity].
  apply (H4 0%nat (mkTask [0] (TConnections (mkQuery true false)) true false false (Some (VNum 8))) (mkQuery true false));
    vm_compute; reflexivity.
Defined.

Lemma sample_map_roundtrip m : sample_map_read (length (sample_map_text m)) (sample_map_text m) = Some m.
Proof.
  enough (Hf : forall fuel, (length (sample_map_text m) <= fuel)%nat -> sample_map_read fuel (sample_map_text m) = Some m) by by apply Hf.
  induction m as [|[k v] m IH]; intros [|fuel] Hf; cbn [sample_map_text length app] in Hf; try lia; [done|].
  cbn [sample_map_text app sample_map_read]. rewrite !Nat2Z.id, drop_app_length, Nat2Z.id, drop_app_length.
  rewrite !length_app in Hf. cbn [length] in Hf. rewrite length_app in Hf. rewrite IH by lia. by rewrite !take_app_length.
Qed.

Lemma select_net_spec_witness :
  exists c', select_net sample_error 3 sample_ctx (lit "n") (lit "a") = (c', inl tt) /\
    exists m', select_from_cache map_of_json (lit "id") (select_cache c') = Ok m' /\ im_get m' (lit "n") = Some (lit "a").
Proof.
  eexists. split; [vm_compute; reflexivity|].
  edestruct (select_net_spec sample_error 3 sample_ctx (lit "n") (lit "a")) as (_ & _ & m & m' & _ & H2 & H3 & _);
    [exact I| |vm_compute; reflexivity|reflexivity|exists m'; split; [exact H2|exact H3]].
  intros m. exists (sample_map_text m). split_and!; [done|by destruct m as [|[k v] m]|apply sample_map_roundtrip].
Defined.

End Api.
Export Api.
