(* ===== verification/WebUi.v ===== *)
(** * The server of the API and of the web interface:
    [src/src/api_server/routes.rs], [embedded_webui.rs] and [run] of
    [api_server.rs]

    Which requests reach the RPC session of [Api], and what the others are
    given: a file of the interface that is built into the program, or of a
    folder.  axum, tower's [ServeDir] and the parsing of queries are third-party
    code; the requests are those of [GET]. *)

From S2P Require Import Prelude Text Address ConnContext Build Storage Source Update Api.

Module WebUi.

(** ** Files *)

(** What follows the last dot, or all. *)
Definition extension (path : bytes) : bytes := match rsplit_once 46 path with Some (_, e) => e | None => path end.

(* src/src/api_server/embedded_webui.rs:12-27 mime_from_path *)
Definition mime_from_path (path : bytes) : bytes :=
  let ext e := bool_decide (extension path = lit e) in
  if ext "html" then lit "text/html; charset=utf-8"
  else if ext "js" then lit "application/javascript; charset=utf-8"
  else if ext "css" then lit "text/css; charset=utf-8"
  else if ext "json" then lit "application/json"
  else if ext "svg" then lit "image/svg+xml"
  else if ext "png" then lit "image/png"
  else if ext "ico" then lit "image/x-icon"
  else if ext "woff" then lit "font/woff"
  else if ext "woff2" then lit "font/woff2"
  else if ext "ttf" then lit "font/ttf"
  else if ext "map" then lit "application/json"
  else lit "application/octet-stream".

Inductive Response : Type := Page (content_type content : bytes) | FromFolder (folder path : bytes) | RpcSession | NotFound | Unauthorized.

(** [trim_start_matches('/')]. *)
Fixpoint trim_slashes (s : bytes) : bytes := match s with 47 :: s => trim_slashes s | _ => s end.

(** [get_file]: the files that were built in. *)
(* src/src/api_server/embedded_webui.rs:29-54 serve_embedded *)
Definition serve_embedded (get_file : bytes -> option bytes) (uri_path : bytes) : Response :=
  let path := trim_slashes uri_path in
  let path := match path with [] => lit "index.html" | _ => path end in
  match get_file path with
  | Some contents => Page (mime_from_path path) contents
  | None =>
    match get_file (lit "index.html") with
    | Some contents => Page (lit "text/html; charset=utf-8") contents
    | None => NotFound
    end
  end.

(** ** Routes *)

(** The settings of [ApiServer] that decide on a route. *)
(* src/src/api_server.rs:16-26 ApiServer *)
Record ApiServer : Type := mkApiServer { access_token : option bytes; web_ui : option bytes }.

Record Get : Type := mkGet { uri_path : bytes; authorization : option bytes; query_token : option bytes }.

(* src/src/api_server/routes.rs:56-81 ApiServer::api *)
Definition api (s : ApiServer) (r : Get) : Response :=
  match access_token s with
  | Some token => if Api.auth token (authorization r) (query_token r) then RpcSession else Unauthorized
  | None => RpcSession
  end.

(** [embedded]: the files of the interface, if it is built in. *)
(* src/src/api_server/routes.rs:27-54 ApiServer::routes *)
Definition respond (embedded : option (bytes -> option bytes)) (s : ApiServer) (r : Get) : Response :=
  if bool_decide (uri_path r = lit "/api/rpc") then api s r
  else
    match web_ui s with
    | Some folder => FromFolder folder (uri_path r)
    | None => match embedded with Some get_file => serve_embedded get_file (uri_path r) | None => NotFound end
    end.

(** ** Facts *)

Lemma extension_app x e : 46 ∉ e -> extension (x ++ 46 :: e) = e.
Proof.
  intros He. unfold extension, rsplit_once. replace (reverse (x ++ 46 :: e)) with (reverse e ++ 46 :: reverse x)
    by (rewrite reverse_app, reverse_cons, <- app_assoc; done).
  rewrite split_once_app by (by rewrite elem_of_reverse). by rewrite reverse_involutive.
Qed.

Lemma trim_slashes_spec s : exists n, s = replicate n 47 ++ trim_slashes s /\ head (trim_slashes s) <> Some 47.
Proof.
  induction s as [|b s (n & IH & Hh)]; [by exists 0%nat|].
  destruct (decide (b = 47)) as [->|Hb]; [exists (S n); cbn; by rewrite <- IH|].
  exists 0%nat. assert (E : trim_slashes (b :: s) = b :: s) by (cbn; destruct b as [|b|b]; try done; repeat (destruct b; try done)).
  rewrite E. by split; [|intros [=]].
Qed.

(** What a request for the interface is given: the file of its path, with the
    type of its extension; else, and for the root, the page that shows any
    path, so that nothing is missing where that page is there. *)
Theorem embedded_exact get_file path : exists n p, path = replicate n 47 ++ p /\ head p <> Some 47 /\
  (forall index, get_file (lit "index.html") = Some index ->
    serve_embedded get_file path =
      match p with
      | [] => Page (lit "text/html; charset=utf-8") index
      | _ => match get_file p with Some contents => Page (mime_from_path p) contents | None => Page (lit "text/html; charset=utf-8") index end
      end).
Proof.
  destruct (trim_slashes_spec path) as (n & E & Hh). exists n, (trim_slashes path). split; [done|]. split; [done|].
  intros index Hi. unfold serve_embedded. destruct (trim_slashes path) as [|b p]; [by rewrite Hi|].
  destruct (get_file (b :: p)) as [c|]; [done|]. by rewrite Hi.
Qed.

(** The session is reached on one path, by who has the token where there is
    one; where there is none, by everyone. *)
Theorem session_gate embedded s r : respond embedded s r = RpcSession <->
  uri_path r = lit "/api/rpc" /\
  (forall token, access_token s = Some token ->
    authorization r = Some token \/ authorization r = None /\ query_token r = Some token).
Proof.
  assert (Hn : (if bool_decide (uri_path r = lit "/api/rpc") then false else true) = true -> respond embedded s r <> RpcSession).
  { unfold respond. destruct (bool_decide _); [done|]. intros _. destruct (web_ui s); [done|]. destruct embedded as [f|]; [|done].
    unfold serve_embedded. destruct (f _); [done|]. by destruct (f _). }
  destruct (bool_decide (uri_path r = lit "/api/rpc")) eqn:E; [|split; [intros H'; by apply Hn in H'|]].
  2: { intros [H' _]. by apply bool_decide_eq_false in E. }
  unfold respond. rewrite E. apply bool_decide_eq_true in E. unfold api. destruct (access_token s) as [t|].
  - destruct (Api.auth t _ _) eqn:Ea.
    + apply Api.auth_spec in Ea. split; [|done]. intros _. split; [done|]. by intros ? [= <-].
    + split; [done|]. intros [_ H']. specialize (H' t eq_refl). apply Api.auth_spec in H'. by rewrite Ea in H'.
  - by split.
Qed.

(** The types of a name with an extension; a name without one is its own. *)
Lemma mime_of_names : mime_from_path (lit "assets/app.min.js") = lit "application/javascript; charset=utf-8" /\
  mime_from_path (lit "LICENSE") = lit "application/octet-stream" /\ mime_from_path (lit "html") = lit "text/html; charset=utf-8".
Proof. by vm_compute. Qed.
End WebUi.
