(* ===== verification/Service.v ===== *)
(** * Service installation: [src/src/service/], [src/src/util/app_dirs.rs]

    The program installs itself as a service of the system or of the user: it
    copies its binary, writes a unit file for the service manager and runs the
    manager's tools.  The world is a file system and the commands that ran,
    each with the files it found and its answer; which calls fail, and what a command does, are parameters, so that a
    theorem over them covers every failure.  What is only printed is left
    out. *)

From S2P Require Import Prelude Text.

Module Service.

(** ** The world and its calls *)

Record File : Type := mkFile { content : bytes; mode : Z }.
Abbreviation Files := (gmap bytes File).

(** A command and its arguments. *)
Abbreviation Cmd := (bytes * list bytes)%type.

(** [std::process::Output]. *)
Record Output : Type := mkOutput { code : option Z; stdout : bytes; stderr : bytes }.
Definition success (o : Output) : bool := bool_decide (code o = Some 0).

(** A command that ran: the files as it found them, and what it answered or
    why it did not start. *)
Record Ran : Type := mkRan { ran : Cmd; found : Files; answer : Output + bytes }.

Record World : Type := mkWorld { files : Files; history : list Ran }.

(** How a function ends early: with an [anyhow] error, which is a chain of
    messages, the outermost first; with the process; or with a panic. *)
Inductive stop : Type := Bail (chain : list bytes) | Exited (code : Z) | Panicked.

Definition M (A : Type) : Type := World -> (A + stop) * World.
#[global] Instance m_ret : MRet M := fun A a w => (inl a, w).
#[global] Instance m_bind : MBind M := fun A B f m w =>
  match m w with (inl a, w) => f a w | (inr s, w) => (inr s, w) end.

Definition exit (code : Z) : M unit := fun w => (inr (Exited code), w).
Definition panic {A} : M A := fun w => (inr Panicked, w).
Definition bail {A} (msg : bytes) : M A := fun w => (inr (Bail [msg]), w).

(** [Context::context] of anyhow. *)
Definition context {A} (msg : bytes) (m : M A) : M A := fun w =>
  match m w with (inr (Bail l), w) => (inr (Bail (msg :: l)), w) | r => r end.

(** [let _ = m;]: an error is dropped. *)
Definition ignore {A} (m : M A) : M unit := fun w =>
  match m w with (inr (Bail _), w) | (inl _, w) => (inl tt, w) | (inr s, w) => (inr s, w) end.

Definition some_or {A} (msg : bytes) (o : option A) : M A :=
  match o with Some a => mret a | None => bail msg end.

(** Calls of the file system. *)
Inductive Call : Type :=
| CreateDirAll (p : bytes)
| Copy (a b : bytes)
| Write (p c : bytes)
| Rename (a b : bytes)
| RemoveFile (p : bytes).

(** What a call that succeeds leaves; a file copied onto itself is
    truncated. *)
Definition create (umask : Z) (p c : bytes) (fs : Files) : Files :=
  <[p := mkFile c (match fs !! p with Some f => mode f | None => Z.land 438 (Z.lnot umask) end)]> fs.

Definition call_do (umask : Z) (c : Call) (fs : Files) : Files :=
  match c with
  | CreateDirAll _ => fs
  | Copy a b =>
    match fs !! a with
    | Some f => <[b := if decide (a = b) then mkFile [] (mode f) else f]> fs
    | None => fs
    end
  | Write p c => create umask p c fs
  | Rename a b => match fs !! a with Some f => <[b := f]> (delete a fs) | None => fs end
  | RemoveFile p => delete p fs
  end.

(** A call that fails after it has opened the file it writes leaves a part of
    what it was to write. *)
Definition call_fail (umask : Z) (c : Call) (part : option nat) (fs : Files) : Files :=
  match c, part with
  | Copy a b, Some n => match fs !! a with Some f => create umask b (take n (content f)) fs | None => fs end
  | Write p c, Some n => create umask p (take n c) fs
  | _, _ => fs
  end.

(** A file that is to be copied, renamed or removed is there. *)
Definition present (c : Call) (fs : Files) : bool :=
  match c with Copy a _ | Rename a _ | RemoveFile a => bool_decide (is_Some (fs !! a)) | _ => true end.

(** ** Paths *)

Section Paths.

Definition join (a b : bytes) : bytes :=
  if starts_with [47] b then b else match a with [] => b | _ => if ends_with [47] a then a ++ b else a ++ [47] ++ b end.

(** [env], [dirs::*_dir] and [geteuid() == 0]. *)
Context (env : bytes -> option bytes) (dirs_data_local dirs_config dirs_cache : option bytes) (is_root macos : bool).

Definition PROGRAM_DIR : bytes := lit "rabbit_digger_pro".

(* src/src/util/app_dirs.rs:40-46 system_data_dir *)
Definition system_data_dir : bytes :=
  if macos then join (lit "/Library/Application Support") PROGRAM_DIR else join (lit "/var/lib") PROGRAM_DIR.

(* src/src/util/app_dirs.rs:10-17 data_dir *)
Definition data_dir : bytes :=
  if is_root then system_data_dir else join (default (lit ".") dirs_data_local) PROGRAM_DIR.

(* src/src/util/app_dirs.rs:20-27 config_dir *)
Definition config_dir : bytes :=
  if is_root then join system_data_dir (lit "config") else join (default (lit ".") dirs_config) PROGRAM_DIR.

(* src/src/util/app_dirs.rs:30-38 cache_dir *)
Definition cache_dir : bytes :=
  if is_root then join system_data_dir (lit "cache") else join (default (lit ".") dirs_cache) PROGRAM_DIR.

Definition SERVICE_NAME : bytes := lit "rabbit-digger-pro".
Definition INSTALL_DIR : bytes := lit "/usr/local/bin".
Definition USER_UNIT_NAME : bytes := lit "rabbit-digger-pro.service".

(* src/src/service/linux.rs:12-14 installed_binary *)
Definition installed_binary : bytes := join INSTALL_DIR SERVICE_NAME.

(** [$HOME], or the current directory. *)
Definition home_dir : bytes := default (lit ".") (env (lit "HOME")).

Definition xdg (var : string) (dirs : option bytes) (below_home : string) : bytes :=
  match env (lit var) with
  | Some p => p
  | None => match dirs with Some p => p | None => join home_dir (lit below_home) end
  end.

(** The directory of the user's binary, as it is made and as the parent of
    the binary's path. *)
Definition user_helper_dir : bytes :=
  join (join (xdg "XDG_DATA_HOME" dirs_data_local ".local/share") (lit "rabbit_digger_pro")) (lit "helper").

(* src/src/service/linux.rs:16-29 user_helper_binary *)
Definition user_helper_binary : bytes := join user_helper_dir SERVICE_NAME.

Definition user_unit_dir : bytes :=
  join (join (xdg "XDG_CONFIG_HOME" dirs_config ".config") (lit "systemd")) (lit "user").

(* src/src/service/linux.rs:31-42 user_unit_path *)
Definition user_unit_path : bytes := join user_unit_dir USER_UNIT_NAME.

Definition user_env_dir : bytes := join (xdg "XDG_CONFIG_HOME" dirs_config ".config") (lit "rabbit_digger_pro").

(* src/src/service/linux.rs:44-55 user_env_path *)
Definition user_env_path : bytes := join user_env_dir (lit "helper.env").

(** [with_extension("tmp")]: the binary's name has no dot. *)
Definition tmp_dest : bytes := user_helper_binary ++ lit ".tmp".
End Paths.

(** [Path::to_str]. *)
Definition to_str (p : bytes) : option bytes := if utf8_valid p then Some p else None.

(** ** Unit files *)

Definition access_token_arg (t : option bytes) : bytes :=
  match t with Some token => lit " --access-token " ++ token | None => [] end.

(* src/src/service/linux.rs:133-156 install_systemd (part) *)
Definition system_unit (binary bind : bytes) (access_token : option bytes) : bytes :=
  unlines [
    lit "[Unit]"; lit "Description=Rabbit Digger Pro"; lit "After=network-online.target";
    lit "Wants=network-online.target"; [];
    lit "[Service]"; lit "Type=simple";
    lit "ExecStart=" ++ binary ++ lit " service run --bind " ++ bind ++ access_token_arg access_token;
    lit "Restart=on-failure"; lit "RestartSec=5"; [];
    lit "[Install]"; lit "WantedBy=multi-user.target"].

(* src/src/service/linux.rs:169-196 render_user_systemd_unit *)
Definition render_user_systemd_unit (binary bind : bytes) (env_path : option bytes) : bytes + bytes :=
  match to_str binary with
  | None => inr (lit "Invalid binary path")
  | Some binary =>
    let exec_start := binary ++ lit " service run --bind " ++ bind in
    match match env_path with
          | Some path => match to_str path with Some path => Some [lit "EnvironmentFile=" ++ path] | None => None end
          | None => Some []
          end with
    | None => inr (lit "Invalid environment file path")
    | Some environment_file =>
      inl (unlines ([
        lit "[Unit]"; lit "Description=Rabbit Digger Pro User Helper"; lit "After=network-online.target";
        lit "Wants=network-online.target"; [];
        lit "[Service]"; lit "Type=simple"] ++ environment_file ++ [
        lit "ExecStart=" ++ exec_start;
        lit "Restart=on-failure"; lit "RestartSec=3"; [];
        lit "[Install]"; lit "WantedBy=default.target"]))
    end
  end.

(* src/src/service/linux.rs:257-281 install_procd (part) *)
Definition procd_script (binary bind : bytes) (access_token : option bytes) : bytes :=
  let args := lit "service run --bind " ++ bind ++ access_token_arg access_token in
  unlines [
    lit "#!/bin/sh /etc/rc.common"; []; lit "USE_PROCD=1"; lit "START=95"; lit "STOP=01"; [];
    lit "start_service() {"; lit "    procd_open_instance";
    lit "    procd_set_param command " ++ binary ++ lit " " ++ args;
    lit "    procd_set_param stdout 1"; lit "    procd_set_param stderr 1"; lit "    procd_set_param respawn";
    lit "    procd_close_instance"; lit "}"].

Definition SERVICE_LABEL : bytes := lit "com.rabbit-digger-pro".
Definition quoted (s : bytes) : bytes := [34] ++ s ++ [34].
Definition xml_string (s : bytes) : bytes := lit "<string>" ++ s ++ lit "</string>".

(* src/src/service/macos.rs:24-75 generate_plist *)
Definition generate_plist (binary_path log_dir bind : bytes) (access_token : option bytes) : bytes :=
  let arg s := lit "        " ++ xml_string s in
  unlines ([
    lit "<?xml version=" ++ quoted (lit "1.0") ++ lit " encoding=" ++ quoted (lit "UTF-8") ++ lit "?>";
    lit "<!DOCTYPE plist PUBLIC " ++ quoted (lit "-//Apple//DTD PLIST 1.0//EN") ++ lit " " ++
      quoted (lit "http://www.apple.com/DTDs/PropertyList-1.0.dtd") ++ lit ">";
    lit "<plist version=" ++ quoted (lit "1.0") ++ lit ">"; lit "<dict>";
    lit "    <key>Label</key>"; lit "    " ++ xml_string SERVICE_LABEL;
    lit "    <key>ProgramArguments</key>"; lit "    <array>";
    arg binary_path; arg (lit "service"); arg (lit "run"); arg (lit "--bind"); arg bind] ++
    match access_token with Some token => [arg (lit "--access-token"); arg token] | None => [] end ++ [
    lit "    </array>";
    lit "    <key>RunAtLoad</key>"; lit "    <true/>"; lit "    <key>KeepAlive</key>"; lit "    <true/>";
    lit "    <key>StandardOutPath</key>"; lit "    " ++ xml_string (join log_dir (lit "daemon.stdout.log"));
    lit "    <key>StandardErrorPath</key>"; lit "    " ++ xml_string (join log_dir (lit "daemon.stderr.log"));
    lit "</dict>"; lit "</plist>"]).

(** ** The actions *)

(* src/src/service/mod.rs:17-69 ServiceAction *)
Inductive ServiceAction : Type :=
| Install (bind : bytes) (access_token : option bytes)
| InstallUser (bind : bytes) (access_token : option bytes) (binary : option bytes)
| Uninstall | UninstallUser | Start | StartUser | Stop | StopUser | Status | StatusUser
| Run (bind : bytes) (access_token : option bytes).

(* src/src/service/linux.rs:61-64 InitSystem *)
Inductive InitSystem : Type := Systemd | Procd.

Section Actions.
(** Which calls fail, with how much of their data written; what a command
    answers, or why it does not run, and the files it leaves. *)
Context (fails : World -> Call -> option (bytes * option nat)) (umask : Z).
Context (exec : World -> bytes -> list bytes -> (Output + bytes) * Files).
(** [from_utf8_lossy]; [std::env::current_exe] and [args]. *)
Context (lossy : bytes -> bytes) (current_exe : bytes + bytes) (args : list bytes).

Definition call (c : Call) : M unit := fun w =>
  match fails w c with
  | Some (e, part) => (inr (Bail [e]), mkWorld (call_fail umask c part (files w)) (history w))
  | None =>
    if present c (files w) then (inl tt, mkWorld (call_do umask c (files w)) (history w))
    else (inr (Bail [lit "No such file or directory"]), w)
  end.

Definition exists_ (p : bytes) : M bool := fun w => (inl (bool_decide (is_Some (files w !! p))), w).

(** [Command::output]. *)
Definition output (cmd : bytes) (args : list bytes) : M Output := fun w =>
  let '(r, fs) := exec w cmd args in
  (match r with inl o => inl o | inr e => inr (Bail [e]) end, mkWorld fs (history w ++ [mkRan (cmd, args) (files w) r])).

Definition is_ok_ {A} (m : M A) : M bool := fun w =>
  match m w with (inl _, w) => (inl true, w) | (inr (Bail _), w) => (inl false, w) | (inr s, w) => (inr s, w) end.

(** [to_str().unwrap()]. *)
Definition unwrap_str (p : bytes) : M bytes := match to_str p with Some p => mret p | None => panic end.

Definition get_exe : M bytes :=
  context (lit "Cannot determine binary path") match current_exe with inl p => mret p | inr e => bail e end.

(* src/src/service/linux.rs:438-449 run *)
Definition run (cmd : bytes) (args : list bytes) : M unit :=
  o ← context (lit "Failed to run " ++ cmd) (output cmd args);
  if success o then mret tt
  else bail (cmd ++ lit " " ++ unwords args ++ lit " failed: " ++ trim (lossy (stderr o))).

Definition systemctl (a : list bytes) : M unit := run (lit "systemctl") a.
Definition user_systemctl (a : list bytes) : M unit := systemctl (lit "--user" :: a).

(* src/src/service/mod.rs:75-92 ensure_root *)
Definition ensure_root : M unit :=
  o ← output (lit "id") [lit "-u"];
  if bool_decide (trim (lossy (stdout o)) = lit "0") then mret tt
  else
    exe ← get_exe;
    status ← context (lit "Failed to run sudo") (output (lit "sudo") (exe :: args));
    exit (default 1 (code status)).

(* src/src/service/linux.rs:66-76 detect_init *)
Definition detect_init : M InitSystem :=
  b ← exists_ (lit "/etc/rc.common");
  if (b : bool) then mret Procd
  else
    b ← is_ok_ (output (lit "systemctl") [lit "--version"]);
    if (b : bool) then mret Systemd else bail (lit "No supported init system found (need systemd or procd/OpenWrt)").

Section Linux.
Context (env : bytes -> option bytes) (dirs_data_local dirs_config : option bytes).
#[local] Abbreviation user_helper_binary := (user_helper_binary env dirs_data_local).
#[local] Abbreviation user_helper_dir := (user_helper_dir env dirs_data_local).
#[local] Abbreviation tmp_dest := (tmp_dest env dirs_data_local).
#[local] Abbreviation user_unit_path := (user_unit_path env dirs_config).
#[local] Abbreviation user_unit_dir := (user_unit_dir env dirs_config).
#[local] Abbreviation user_env_path := (user_env_path env dirs_config).
#[local] Abbreviation user_env_dir := (user_env_dir env dirs_config).

Definition unit_path : bytes := lit "/etc/systemd/system/" ++ SERVICE_NAME ++ lit ".service".
Definition script_path : bytes := lit "/etc/init.d/" ++ SERVICE_NAME.

Definition binary_str : M bytes := some_or (lit "Invalid binary path") (to_str installed_binary).

(* src/src/service/linux.rs:132-167 install_systemd *)
Definition install_systemd (bind : bytes) (access_token : option bytes) : M unit :=
  binary ← binary_str;
  context (lit "Failed to write systemd unit") (call (Write unit_path (system_unit binary bind access_token)));;
  systemctl [lit "daemon-reload"];;
  systemctl [lit "enable"; SERVICE_NAME];;
  systemctl [lit "start"; SERVICE_NAME].

(* src/src/service/linux.rs:256-291 install_procd *)
Definition install_procd (bind : bytes) (access_token : option bytes) : M unit :=
  binary ← binary_str;
  context (lit "Failed to write init script") (call (Write script_path (procd_script binary bind access_token)));;
  run (lit "chmod") [lit "+x"; script_path];;
  run script_path [lit "enable"];;
  run script_path [lit "start"].

(** The contexts of the copies name the paths, which is left out. *)
(* src/src/service/linux.rs:108-130 install *)
Definition install (bind : bytes) (access_token : option bytes) : M unit :=
  ensure_root;;
  current_exe ← get_exe;
  call (CreateDirAll INSTALL_DIR);;
  context (lit "Failed to copy binary") (call (Copy current_exe installed_binary));;
  ignore (output (lit "chmod") [lit "755"; installed_binary]);;
  init ← detect_init;
  match init with Systemd => install_systemd bind access_token | Procd => install_procd bind access_token end.

(** The token's file, if there is a token. *)
(* src/src/service/linux.rs:228-242 install_user (part) *)
Definition write_env (access_token : option bytes) : M (option bytes) :=
  match access_token with
  | None => mret None
  | Some token =>
    call (CreateDirAll user_env_dir);;
    context (lit "Failed to write service environment file")
      (call (Write user_env_path (unlines [lit "RD_ACCESS_TOKEN=" ++ token])));;
    path ← unwrap_str user_env_path;
    ignore (output (lit "chmod") [lit "600"; path]);;
    mret (Some user_env_path)
  end.

(* src/src/service/linux.rs:199-221 install_user (part) *)
Definition install_user_binary (binary : option bytes) : M unit :=
  source ← match binary with Some path => mret path | None => get_exe end;
  call (CreateDirAll user_helper_dir);;
  context (lit "Failed to copy binary") (call (Copy source tmp_dest));;
  path ← unwrap_str tmp_dest;
  ignore (output (lit "chmod") [lit "755"; path]);;
  context (lit "Failed to install binary") (call (Rename tmp_dest user_helper_binary)).

(** Its unit. *)
(* src/src/service/linux.rs:223-247 install_user (part) *)
Definition install_user_unit (bind : bytes) (access_token : option bytes) : M unit :=
  call (CreateDirAll user_unit_dir);;
  env_path ← write_env access_token;
  unit ← match render_user_systemd_unit user_helper_binary bind env_path with inl u => mret u | inr e => bail e end;
  context (lit "Failed to write systemd user unit") (call (Write user_unit_path unit));;
  user_systemctl [lit "daemon-reload"];;
  user_systemctl [lit "enable"; lit "--now"; USER_UNIT_NAME].

(* src/src/service/linux.rs:198-254 install_user *)
Definition install_user (bind : bytes) (access_token binary : option bytes) : M unit :=
  install_user_binary binary;;
  install_user_unit bind access_token.

Definition remove_if_exists (p : bytes) : M unit :=
  b ← exists_ p; if (b : bool) then call (RemoveFile p) else mret tt.

(* src/src/service/linux.rs:297-327 uninstall *)
Definition uninstall : M unit :=
  ensure_root;;
  init ← detect_init;
  match init with
  | Systemd =>
    ignore (systemctl [lit "stop"; SERVICE_NAME]);;
    ignore (systemctl [lit "disable"; SERVICE_NAME]);;
    remove_if_exists unit_path;;
    ignore (systemctl [lit "daemon-reload"])
  | Procd =>
    b ← exists_ script_path;
    if (b : bool) then
      ignore (run script_path [lit "stop"]);;
      ignore (run script_path [lit "disable"]);;
      call (RemoveFile script_path)
    else mret tt
  end;;
  remove_if_exists installed_binary.

(* src/src/service/linux.rs:329-350 uninstall_user *)
Definition uninstall_user : M unit :=
  ignore (user_systemctl [lit "stop"; USER_UNIT_NAME]);;
  ignore (user_systemctl [lit "disable"; USER_UNIT_NAME]);;
  remove_if_exists user_unit_path;;
  remove_if_exists user_env_path;;
  ignore (user_systemctl [lit "daemon-reload"]);;
  remove_if_exists user_helper_binary.

Definition service_ctl (verb : bytes) : M unit :=
  init ← detect_init;
  match init with Systemd => systemctl [verb; SERVICE_NAME] | Procd => run script_path [verb] end.

(* src/src/service/linux.rs:356-363 start *)
Definition start : M unit := service_ctl (lit "start").
(* src/src/service/linux.rs:371-378 stop *)
Definition stop_ : M unit := service_ctl (lit "stop").
(* src/src/service/linux.rs:365-369 start_user *)
Definition start_user : M unit := user_systemctl [lit "start"; USER_UNIT_NAME].
(* src/src/service/linux.rs:380-384 stop_user *)
Definition stop_user : M unit := user_systemctl [lit "stop"; USER_UNIT_NAME].

(* src/src/service/linux.rs:386-416 status *)
Definition status : M unit :=
  init ← detect_init;
  match init with
  | Systemd => context (lit "Failed to run systemctl status") (output (lit "systemctl") [lit "status"; SERVICE_NAME]);; mret tt
  | Procd =>
    b ← exists_ script_path;
    if (b : bool) then ignore (output (lit "pgrep") [lit "-f"; SERVICE_NAME ++ lit " service run"]) else mret tt
  end.

(* src/src/service/linux.rs:418-432 status_user *)
Definition status_user : M unit :=
  context (lit "Failed to run systemctl --user status")
    (output (lit "systemctl") [lit "--user"; lit "status"; USER_UNIT_NAME]);; mret tt.

(* src/src/service/linux.rs:82-102 handle_service_action *)
Definition handle_service_action (action : ServiceAction) : M unit :=
  match action with
  | Install bind access_token => install bind access_token
  | InstallUser bind access_token binary => install_user bind access_token binary
  | Uninstall => uninstall
  | UninstallUser => uninstall_user
  | Start => start
  | StartUser => start_user
  | Stop => stop_
  | StopUser => stop_user
  | Status => status
  | StatusUser => status_user
  | Run _ _ => panic
  end.
End Linux.

(** macOS: [launchd]. *)
Section MacOS.
Context (data_dir : bytes).

Definition HELPER_DIR : bytes := lit "/Library/PrivilegedHelperTools".

(* src/src/service/macos.rs:10-12 helper_binary_path *)
Definition helper_binary_path : bytes := join HELPER_DIR (lit "rabbit-digger-pro").

(* src/src/service/macos.rs:14-16 plist_path *)
Definition plist_path : bytes := join (lit "/Library/LaunchDaemons") (SERVICE_LABEL ++ lit ".plist").

(* src/src/service/macos.rs:18-22 log_dir *)
Definition log_dir : M bytes := call (CreateDirAll (join data_dir (lit "logs")));; mret (join data_dir (lit "logs")).

(** [launchctl verb arg], whose failure is an error. *)
Definition launchctl (verb arg : bytes) (what : bytes) : M unit :=
  o ← context (lit "Failed to run " ++ what) (output (lit "launchctl") [verb; arg]);
  if success o then mret tt else bail (what ++ lit " failed: " ++ lossy (stderr o)).

(* src/src/service/macos.rs:90-135 install *)
Definition mac_install (bind : bytes) (access_token : option bytes) : M unit :=
  ensure_root;;
  b ← exists_ plist_path;
  (if (b : bool) then ignore (output (lit "launchctl") [lit "unload"; plist_path]) else mret tt);;
  current_exe ← get_exe;
  context (lit "Failed to create PrivilegedHelperTools dir") (call (CreateDirAll HELPER_DIR));;
  context (lit "Failed to copy binary") (call (Copy current_exe helper_binary_path));;
  ignore (output (lit "chown") [lit "root:wheel"; helper_binary_path]);;
  ignore (output (lit "chmod") [lit "755"; helper_binary_path]);;
  log_dir ← log_dir;
  context (lit "Failed to write plist file")
    (call (Write plist_path (generate_plist helper_binary_path log_dir bind access_token)));;
  launchctl (lit "load") plist_path (lit "launchctl load").

(* src/src/service/macos.rs:137-168 uninstall *)
Definition mac_uninstall : M unit :=
  ensure_root;;
  b ← exists_ plist_path;
  if (b : bool) then
    context (lit "Failed to run launchctl unload") (output (lit "launchctl") [lit "unload"; plist_path]);;
    context (lit "Failed to remove plist file") (call (RemoveFile plist_path));;
    b ← exists_ helper_binary_path;
    if (b : bool) then context (lit "Failed to remove helper binary") (call (RemoveFile helper_binary_path)) else mret tt
  else bail (lit "Service is not installed (plist not found: " ++ plist_path ++ lit ")").

(* src/src/service/macos.rs:170-183 start *)
Definition mac_start : M unit := launchctl (lit "start") SERVICE_LABEL (lit "launchctl start").
(* src/src/service/macos.rs:185-198 stop *)
Definition mac_stop : M unit := launchctl (lit "stop") SERVICE_LABEL (lit "launchctl stop").
(* src/src/service/macos.rs:200-215 status *)
Definition mac_status : M unit :=
  context (lit "Failed to run launchctl list") (output (lit "launchctl") [lit "list"; SERVICE_LABEL]);; mret tt.

(** The actions of a user's service do not exist there. *)
(* src/src/service/macos.rs:77-88 handle_service_action *)
Definition mac_handle_service_action (action : ServiceAction) : M unit :=
  match action with
  | Install bind access_token => mac_install bind access_token
  | Uninstall => mac_uninstall
  | Start => mac_start
  | Stop => mac_stop
  | Status => mac_status
  | _ => panic
  end.
End MacOS.
End Actions.

(** ** Reasoning about a run

    [wp m Q E w]: [m] run in [w] ends with a result and in a world as [Q]
    says, or early in a world as [E] says. *)

Definition wp {A} (m : M A) (Q : A -> World -> Prop) (E : World -> Prop) (w : World) : Prop :=
  match m w with (inl a, w) => Q a w | (inr _, w) => E w end.

Section Wp.
Context {A B : Type}.
Implicit Types (m : M A) (E : World -> Prop).

Lemma wp_ret (a : A) Q E w : Q a w -> wp (mret a) Q E w.
Proof. done. Qed.

Lemma wp_bind m (f : A -> M B) Q E w : wp m (fun a w => wp (f a) Q E w) E w -> wp (m ≫= f) Q E w.
Proof. unfold wp, mbind, m_bind. by destruct (m w) as [[a|s] w1]. Qed.

Lemma wp_context msg m Q E w : wp m Q E w -> wp (context msg m) Q E w.
Proof. unfold wp, context. by destruct (m w) as [[a|[l|c|]] w1]. Qed.

Lemma wp_ignore m (Q : unit -> World -> Prop) E w :
  wp m (fun _ w => Q tt w) (fun w => Q tt w /\ E w) w -> wp (ignore m) Q E w.
Proof. unfold wp, ignore. destruct (m w) as [[a|[l|c|]] w1]; tauto. Qed.

Lemma wp_is_ok m (Q : bool -> World -> Prop) E w :
  wp m (fun _ w => Q true w) (fun w => Q false w /\ E w) w -> wp (is_ok_ m) Q E w.
Proof. unfold wp, is_ok_. destruct (m w) as [[a|[l|c|]] w1]; tauto. Qed.

Lemma wp_mono m (Q Q' : A -> World -> Prop) (E E' : World -> Prop) w :
  wp m Q E w -> (forall a w, Q a w -> Q' a w) -> (forall w, E w -> E' w) -> wp m Q' E' w.
Proof. unfold wp. destruct (m w) as [[a|s] w1]; auto. Qed.
End Wp.

Lemma wp_and {A} (m : M A) (Q Q' : A -> World -> Prop) (E E' : World -> Prop) w :
  wp m Q E w -> wp m Q' E' w -> wp m (fun a w => Q a w /\ Q' a w) (fun w => E w /\ E' w) w.
Proof. unfold wp. destruct (m w) as [[a|s] w1]; auto. Qed.

Lemma wp_bail {A} msg Q (E : World -> Prop) w : E w -> wp (@bail A msg) Q E w.
Proof. done. Qed.
Lemma wp_panic {A} Q (E : World -> Prop) w : E w -> wp (@panic A) Q E w.
Proof. done. Qed.
Lemma wp_exit c Q (E : World -> Prop) w : E w -> wp (exit c) Q E w.
Proof. done. Qed.

(** The content of a file. *)
Definition text (w : World) (p : bytes) : option bytes := content <$> files w !! p.

Lemma world_eta w : mkWorld (files w) (history w) = w.
Proof. by destruct w. Qed.

Ltac decided := match goal with |- ?P => apply (bool_decide_unpack P); vm_compute; exact I end.

Section Facts.
Context (fails : World -> Call -> option (bytes * option nat)) (umask : Z).
Context (exec : World -> bytes -> list bytes -> (Output + bytes) * Files).
Context (lossy : bytes -> bytes) (current_exe : bytes + bytes) (args : list bytes).
(** The files that commands leave as they are, but for their mode. *)
Context (kept : bytes -> Prop).
Context (exec_keeps : forall w c a p, kept p -> content <$> (exec w c a).2 !! p = text w p).
#[local] Abbreviation call := (call fails umask).
#[local] Abbreviation output := (output exec).

(** Only the files of the list differ. *)
Definition same_but (l : list bytes) (w w' : World) : Prop := forall q, kept q -> q ∉ l -> text w' q = text w q.

Lemma same_but_refl l w : same_but l w w.
Proof. done. Qed.
Lemma same_but_trans l w1 w2 w3 : same_but l w1 w2 -> same_but l w2 w3 -> same_but l w1 w3.
Proof. intros H1 H2 q Hk Hq. by rewrite H2, H1. Qed.
Lemma same_but_sub l l' w w' : same_but l w w' -> l ⊆ l' -> same_but l' w w'.
Proof. intros H Hs q Hk Hq. apply H; [done|]. set_solver. Qed.

Lemma text_create p c fs q : content <$> create umask p c fs !! q = if decide (q = p) then Some c else content <$> fs !! q.
Proof.
  unfold create. destruct (decide (q = p)) as [->|Hq]; [by rewrite lookup_insert_eq | by rewrite lookup_insert_ne].
Qed.

Lemma wp_mkdir p (Q : unit -> World -> Prop) (E : World -> Prop) w : Q tt w -> E w -> wp (call (CreateDirAll p)) Q E w.
Proof.
  intros HQ HE. unfold wp, Service.call. destruct (fails w _) as [[e [n|]]|]; cbn; rewrite world_eta; done.
Qed.

Lemma wp_write p c (Q : unit -> World -> Prop) (E : World -> Prop) w :
  (forall w', text w' p = Some c -> same_but [p] w w' -> history w' = history w -> Q tt w') ->
  (forall w', same_but [p] w w' -> E w') ->
  wp (call (Write p c)) Q E w.
Proof.
  intros HQ HE. unfold wp, Service.call. destruct (fails w _) as [[e part]|]; cbn.
  - apply HE. intros q _ Hq. unfold text. destruct part; cbn; [|done].
    rewrite text_create, decide_False by set_solver. done.
  - apply HQ; [|intros q _ Hq|done]; unfold text; cbn; rewrite text_create; [by rewrite decide_True|].
    by rewrite decide_False by set_solver.
Qed.

Lemma wp_copy a b (Q : unit -> World -> Prop) (E : World -> Prop) w : a <> b ->
  (forall w' c, text w a = Some c -> text w' b = Some c -> same_but [b] w w' -> history w' = history w -> Q tt w') ->
  (forall w', same_but [b] w w' -> E w') ->
  wp (call (Copy a b)) Q E w.
Proof.
  intros Hab HQ HE. unfold wp, Service.call. destruct (fails w _) as [[e part]|]; cbn.
  - apply HE. intros q _ Hq. unfold text. destruct part; cbn; [|done].
    destruct (files w !! a); [|done]. rewrite text_create, decide_False by set_solver. done.
  - case_bool_decide as Ha; cbn; [|by apply HE].
    destruct Ha as [f Ef]. rewrite Ef. rewrite decide_False by done. apply (HQ _ (content f)).
    + unfold text. by rewrite Ef.
    + unfold text. cbn. by rewrite lookup_insert_eq.
    + intros q _ Hq. unfold text. cbn. by rewrite lookup_insert_ne by set_solver.
    + done.
Qed.

Lemma wp_rename a b (Q : unit -> World -> Prop) (E : World -> Prop) w : a <> b ->
  (forall w' c, text w a = Some c -> text w' b = Some c -> text w' a = None -> same_but [a; b] w w' ->
    history w' = history w -> Q tt w') ->
  E w -> wp (call (Rename a b)) Q E w.
Proof.
  intros Hab HQ HE. unfold wp, Service.call. destruct (fails w _) as [[e part]|]; cbn; [by rewrite world_eta|].
  case_bool_decide as Ha; cbn; [|done]. destruct Ha as [f Ef]. rewrite Ef. apply (HQ _ (content f)).
  - unfold text. by rewrite Ef.
  - unfold text. cbn. by rewrite lookup_insert_eq.
  - unfold text. cbn. rewrite lookup_insert_ne by done. by rewrite lookup_delete_eq.
  - intros q _ Hq. unfold text. cbn. rewrite lookup_insert_ne by set_solver. rewrite lookup_delete_ne by set_solver. done.
  - done.
Qed.

Lemma wp_remove p (Q : unit -> World -> Prop) (E : World -> Prop) w :
  (forall w', text w' p = None -> same_but [p] w w' -> history w' = history w -> Q tt w') ->
  E w -> wp (call (RemoveFile p)) Q E w.
Proof.
  intros HQ HE. unfold wp, Service.call. destruct (fails w _) as [[e part]|]; cbn; [by rewrite world_eta|].
  case_bool_decide as Ha; cbn; [|done]. apply HQ; [unfold text; cbn; by rewrite lookup_delete_eq | | done].
  intros q _ Hq. unfold text. cbn. by rewrite lookup_delete_ne by set_solver.
Qed.

Lemma wp_output cmd a (Q : Output -> World -> Prop) (E : World -> Prop) w :
  (forall o w', same_but [] w w' -> history w' = history w ++ [mkRan (cmd, a) (files w) (inl o)] -> Q o w') ->
  (forall w', same_but [] w w' -> E w') ->
  wp (output cmd a) Q E w.
Proof.
  intros HQ HE. unfold wp, Service.output. destruct (exec w cmd a) as [[o|e] fs] eqn:Ex; [apply HQ; [|done] | apply HE];
    intros q Hk _; rewrite <- (exec_keeps w cmd a q Hk), Ex; done.
Qed.

(** A command whose failure does not matter. *)
Lemma wp_try cmd a (Q : unit -> World -> Prop) (E : World -> Prop) w :
  (forall w', same_but [] w w' -> Q tt w') -> wp (ignore (output cmd a)) Q E w.
Proof.
  intros HQ. unfold wp, ignore, Service.output. destruct (exec w cmd a) as [[o|e] fs] eqn:Ex; apply HQ;
    intros q Hk _; rewrite <- (exec_keeps w cmd a q Hk), Ex; done.
Qed.

Lemma wp_run cmd a (Q : unit -> World -> Prop) (E : World -> Prop) w :
  (forall o w', success o = true -> same_but [] w w' -> history w' = history w ++ [mkRan (cmd, a) (files w) (inl o)] -> Q tt w') ->
  (forall w', same_but [] w w' -> E w') ->
  wp (run exec lossy cmd a) Q E w.
Proof.
  intros HQ HE. unfold run. apply wp_bind, wp_context, wp_output; [|done]. intros o w' H1 H2.
  destruct (success o) eqn:Eo; [apply wp_ret; by apply (HQ o) | apply wp_bail; by apply HE].
Qed.

(** A run that changes at most some files, whatever becomes of it. *)
Definition touches {A} (l : list bytes) (m : M A) : Prop := forall w, wp m (fun _ => same_but l w) (same_but l w) w.

Lemma touches_bind {A B} l (m : M A) (f : A -> M B) : touches l m -> (forall a, touches l (f a)) -> touches l (m ≫= f).
Proof.
  intros Hm Hf w. apply wp_bind. eapply wp_mono; [apply Hm | | done]. intros a w1 H1.
  eapply wp_mono; [apply Hf | |]; intros; (eapply same_but_trans; [exact H1 | eassumption]).
Qed.
Lemma touches_ret {A} l (a : A) : touches l (mret a).
Proof. by intros w. Qed.
Lemma touches_bail {A} l msg : touches l (@bail A msg).
Proof. by intros w. Qed.
Lemma touches_panic {A} l : touches l (@panic A).
Proof. by intros w. Qed.
Lemma touches_exit l c : touches l (exit c).
Proof. by intros w. Qed.
Lemma touches_context {A} l msg (m : M A) : touches l m -> touches l (context msg m).
Proof. intros H w. apply wp_context, H. Qed.
Lemma touches_ignore {A} l (m : M A) : touches l m -> touches l (ignore m).
Proof. intros H w. apply wp_ignore. eapply wp_mono; [apply H | done | done]. Qed.
Lemma touches_is_ok {A} l (m : M A) : touches l m -> touches l (is_ok_ m).
Proof. intros H w. apply wp_is_ok. eapply wp_mono; [apply H | done | done]. Qed.
Lemma touches_exists l p : touches l (exists_ p).
Proof. by intros w. Qed.
Lemma touches_mkdir l p : touches l (call (CreateDirAll p)).
Proof. intros w. by apply wp_mkdir. Qed.
Lemma touches_write l p c : p ∈ l -> touches l (call (Write p c)).
Proof. intros Hp w. apply wp_write; intros w' **; (eapply same_but_sub; [eassumption | set_solver]). Qed.
Lemma touches_copy l a b : a <> b -> b ∈ l -> touches l (call (Copy a b)).
Proof. intros Ha Hp w. apply wp_copy; [done|..]; intros w' **; (eapply same_but_sub; [eassumption | set_solver]). Qed.
Lemma touches_rename l a b : a <> b -> a ∈ l -> b ∈ l -> touches l (call (Rename a b)).
Proof. intros Hab Ha Hb w. apply wp_rename; [done| |done]. intros w' **. eapply same_but_sub; [eassumption | set_solver]. Qed.
Lemma touches_remove l p : p ∈ l -> touches l (call (RemoveFile p)).
Proof. intros Hp w. apply wp_remove; [|done]. intros w' **. eapply same_but_sub; [eassumption | set_solver]. Qed.
Lemma touches_output l cmd a : touches l (output cmd a).
Proof. intros w. apply wp_output; intros **; (eapply same_but_sub; [eassumption | set_solver]). Qed.
Lemma touches_run l cmd a : touches l (run exec lossy cmd a).
Proof. intros w. apply wp_run; intros **; (eapply same_but_sub; [eassumption | set_solver]). Qed.

Create HintDb service.
#[local] Hint Resolve touches_ret touches_bail touches_panic touches_exit touches_context touches_ignore touches_is_ok
  touches_exists touches_mkdir touches_write touches_copy touches_rename touches_remove touches_output touches_run : service.

Ltac touching :=
  repeat first [apply touches_bind; [|intros ?] | solve [eauto 4 with service]
    | match goal with |- touches _ (match ?x with _ => _ end) => destruct x end | progress cbv beta
    | apply touches_context | apply touches_ignore | apply touches_is_ok ].

Lemma touches_root l : touches l (ensure_root exec lossy current_exe args).
Proof. unfold ensure_root, get_exe. touching. Qed.
Lemma touches_init l : touches l (detect_init exec).
Proof. unfold detect_init. touching. Qed.
Lemma touches_remove_if l p : p ∈ l -> touches l (remove_if_exists fails umask p).
Proof. intros Hp. unfold remove_if_exists. touching. Qed.
#[local] Hint Resolve touches_root touches_init touches_remove_if : service.

(** ** The user's service *)

Section User.
Context (env : bytes -> option bytes) (dirs_data_local dirs_config : option bytes).
#[local] Abbreviation dest := (user_helper_binary env dirs_data_local).
#[local] Abbreviation tmp := (tmp_dest env dirs_data_local).
#[local] Abbreviation unit_ := (user_unit_path env dirs_config).
#[local] Abbreviation env_ := (user_env_path env dirs_config).

Lemma join_last a b : b <> [] -> last (join a b) = last b.
Proof.
  intros Hb. unfold join. destruct (starts_with [47] b); [done|]. destruct a as [|x a]; [done|].
  assert (forall l, last (l ++ b) = last b) as H.
  { intros l. rewrite last_app. destruct (last b) eqn:E; [done|]. by apply last_None in E. }
  destruct (ends_with [47] (x :: a)); [apply H|]. rewrite app_assoc. apply H.
Qed.

Lemma user_paths_apart : NoDup [dest; tmp; unit_; env_].
Proof.
  assert (last dest = Some 111 /\ last tmp = Some 112 /\ last unit_ = Some 101 /\ last env_ = Some 118) as (H1 & H2 & H3 & H4).
  { unfold tmp_dest, user_helper_binary, user_unit_path, user_env_path. rewrite last_app, !join_last by done.
    split; [|split; [|split]]; reflexivity. }
  repeat constructor; rewrite ?elem_of_cons, elem_of_nil; naive_solver congruence.
Qed.

(** The binary is copied beside its place and then moved there. *)
Lemma install_binary_spec source binary w :
  match binary with Some p => Some p | None => match current_exe with inl p => Some p | inr _ => None end end = Some source ->
  source <> tmp -> kept dest -> kept tmp ->
  wp (install_user_binary fails umask exec current_exe env dirs_data_local binary)
    (fun _ w' => is_Some (text w source) /\ text w' dest = text w source /\ text w' tmp = None /\ same_but [tmp; dest] w w')
    (fun w' => text w' dest = text w dest /\ same_but [tmp; dest] w w') w.
Proof.
  intros Hs Hne Hd Ht. pose proof user_paths_apart as Hap.
  assert (dest <> tmp) as Hdt by (apply NoDup_cons in Hap as [Hap _]; set_solver). clear Hap.
  unfold install_user_binary. apply wp_bind.
  assert (forall w Q (E : World -> Prop), Q source w -> E w ->
    wp (match binary with Some p => mret p | None => get_exe current_exe end) Q E w) as Hsrc.
  { intros w0 Q E HQ HE. destruct binary as [b|]; [by injection Hs as ->|].
    destruct current_exe as [p|e]; [by injection Hs as ->|done]. }
  apply Hsrc; [|done]. clear Hsrc. apply wp_bind, wp_mkdir; [|done].
  apply wp_bind, wp_context, wp_copy; [done| |].
  2: { intros w1 H1. split; [apply H1; set_solver|]. eapply same_but_sub; [exact H1 | set_solver]. }
  intros w1 c Hc Hc1 H1 _. apply wp_bind. unfold unwrap_str. destruct (to_str tmp).
  2: { split; [apply H1; set_solver|]. eapply same_but_sub; [exact H1 | set_solver]. }
  apply wp_ret, wp_bind, wp_try. intros w2 H2.
  assert (same_but [tmp; dest] w w2) as H12.
  { eapply same_but_trans; (eapply same_but_sub; [eassumption | set_solver]). }
  assert (text w2 tmp = Some c) as Hc2 by (rewrite (H2 tmp) by (done || set_solver); done).
  assert (text w2 dest = text w dest) as Hd2 by (rewrite (H2 dest), (H1 dest) by (done || set_solver); done).
  apply wp_context, wp_rename; [done| |done].
  intros w3 c' Hc' Hc3 Hn H3 _. rewrite Hc2 in Hc'. injection Hc' as <-. rewrite Hc. split; [by eexists|].
  split; [done|]. split; [done|]. by eapply same_but_trans.
Qed.

Lemma user_unit_touches bind token :
  touches [unit_; env_] (install_user_unit fails umask exec lossy env dirs_data_local dirs_config bind token).
Proof.
  unfold install_user_unit, write_env, user_systemctl, systemctl, unwrap_str.
  assert (unit_ ∈ [unit_; env_] /\ env_ ∈ [unit_; env_]) as [Hu He] by (split; set_solver). touching.
Qed.

(** A command that answered with success, and found the files as they are in
    the end. *)
Definition succeeded (w' : World) (cmd : Cmd) (r : Ran) : Prop :=
  ran r = cmd /\ (exists o, answer r = inl o /\ success o = true) /\
  (forall p, kept p -> content <$> found r !! p = text w' p).

(** What the second half of an installation that succeeds leaves. *)
Definition unit_installed (bind : bytes) (token : option bytes) (w' : World) : Prop :=
  (exists u, render_user_systemd_unit dest bind (match token with Some _ => Some env_ | None => None end) = inl u /\
    text w' unit_ = Some u) /\
  (forall t, token = Some t -> text w' env_ = Some (lit "RD_ACCESS_TOKEN=" ++ t ++ [10])) /\
  (exists h reload enable, history w' = h ++ [reload; enable] /\
    succeeded w' (lit "systemctl", [lit "--user"; lit "daemon-reload"]) reload /\
    succeeded w' (lit "systemctl", [lit "--user"; lit "enable"; lit "--now"; USER_UNIT_NAME]) enable).

Lemma write_env_spec token w (Q : option bytes -> World -> Prop) (E : World -> Prop) : kept env_ ->
  (forall w', (forall t, token = Some t -> text w' env_ = Some (lit "RD_ACCESS_TOKEN=" ++ t ++ [10])) ->
    Q (match token with Some _ => Some env_ | None => None end) w') ->
  (forall w', E w') -> wp (write_env fails umask exec env dirs_config token) Q E w.
Proof.
  intros Hk HQ HE. unfold write_env. destruct token as [t|]; [|by apply wp_ret, HQ].
  apply wp_bind, wp_mkdir; [|apply HE]. apply wp_bind, wp_context, wp_write; [|done]. intros w1 H1 _ _.
  apply wp_bind. unfold unwrap_str. destruct (to_str env_); [|apply HE]. apply wp_ret, wp_bind, wp_try.
  intros w2 H2. apply wp_ret, HQ. intros t' [= ->]. rewrite (H2 env_), H1 by (done || set_solver).
  cbn. by rewrite app_nil_r.
Qed.

Lemma user_unit_spec bind token w : kept unit_ -> kept env_ ->
  wp (install_user_unit fails umask exec lossy env dirs_data_local dirs_config bind token)
    (fun _ => unit_installed bind token) (fun _ => True) w.
Proof.
  intros Hu He. pose proof user_paths_apart as Hap.
  assert (unit_ <> env_) as Hne by (intros E; rewrite E in Hap; clear -Hap; rewrite !NoDup_cons in Hap; set_solver).
  unfold install_user_unit. apply wp_bind, wp_mkdir; [|done]. apply wp_bind, write_env_spec; [done| |done].
  intros w1 H1. destruct (render_user_systemd_unit _ _ _) as [u|e] eqn:Er; [|by apply wp_bind, wp_bail].
  apply wp_bind, wp_ret, wp_bind, wp_context, wp_write; [|done]. intros w2 H2 H2' _.
  apply wp_bind, wp_run; [|done]. intros o3 w3 S3 H3 E3. apply wp_run; [|done]. intros o4 w4 S4 H4 E4.
  assert (forall p, kept p -> text w4 p = text w2 p) as H24.
  { intros p Hp. rewrite (H4 p), (H3 p) by (done || set_solver). done. }
  split; [|split].
  - exists u. rewrite H24 by done. done.
  - intros t Et. rewrite H24, (H2' env_) by (done || set_solver). by apply H1.
  - eexists (history w2), _, _. rewrite E4, E3, <- app_assoc. split; [reflexivity|].
    split; (split; [reflexivity|]; split; [by eexists|]); intros p Hp; cbn [found]; [by rewrite H24|by rewrite (H4 p) by (done || set_solver)].
Qed.

(** The whole installation. *)
Lemma install_user_wp bind token binary source w :
  match binary with Some p => Some p | None => match current_exe with inl p => Some p | inr _ => None end end = Some source ->
  source <> tmp -> Forall kept [dest; tmp; unit_; env_] ->
  wp (install_user fails umask exec lossy current_exe env dirs_data_local dirs_config bind token binary)
    (fun _ w' => same_but [dest; tmp; unit_; env_] w w' /\ is_Some (text w source) /\ text w' dest = text w source /\
      text w' tmp = None /\ unit_installed bind token w')
    (fun w' => same_but [dest; tmp; unit_; env_] w w' /\
      (text w' dest = text w dest \/ is_Some (text w source) /\ text w' dest = text w source)) w.
Proof.
  intros Hs Hne Hk. rewrite !Forall_cons in Hk. destruct Hk as (Hd & Ht & Hu & He & _). pose proof user_paths_apart as Hap.
  rewrite !NoDup_cons in Hap. destruct Hap as (Hap1 & Hap2 & _). unfold install_user. apply wp_bind.
  eapply wp_mono; [by apply (install_binary_spec source) | | intros w1 [H1 H1']; split; [|by left]; eapply same_but_sub; [exact H1' | set_solver]].
  intros _ w1 (Hsome & E1 & En & H1).
  eapply wp_mono; [apply wp_and; [apply (user_unit_touches bind token) | by apply (user_unit_spec bind token)] | |];
    [intros _ w2 [H2 Hq] | intros w2 [H2 _]].
  all: assert (same_but [dest; tmp; unit_; env_] w w2) as H12
    by (eapply same_but_trans; (eapply same_but_sub; [eassumption | set_solver])).
  - split; [done|]. split; [done|]. rewrite (H2 dest), (H2 tmp) by (done || set_solver). done.
  - split; [done|]. right. rewrite (H2 dest) by (done || set_solver). done.
Qed.

(** C28: Installing the user's service, whichever calls and commands fail,
    where the commands leave the content of the files they are run beside
    ([kept]) and the binary to install is not the copy the installation itself
    makes: files other than its binary (and the copy beside it), its unit and
    its environment are as before; the binary is at every end either the one
    there was or the whole new one; and a success leaves the new binary, the
    unit made for it, the token in the environment file when there is one; its
    last two commands, which succeeded, made the manager reload and then
    enable and start the unit, and both found the binary, the unit and the
    environment written. *)
Theorem user_install_exact bind token binary source w :
  match binary with Some p => Some p | None => match current_exe with inl p => Some p | inr _ => None end end = Some source ->
  source <> tmp -> Forall kept [dest; tmp; unit_; env_] ->
  let '(r, w') := install_user fails umask exec lossy current_exe env dirs_data_local dirs_config bind token binary w in
  same_but [dest; tmp; unit_; env_] w w' /\
  match r with
  | inl _ => is_Some (text w source) /\ text w' dest = text w source /\ text w' tmp = None /\ unit_installed bind token w'
  | inr _ => text w' dest = text w dest \/ is_Some (text w source) /\ text w' dest = text w source
  end.
Proof.
  intros Hs Hne Hk. pose proof (install_user_wp bind token binary source w Hs Hne Hk) as H. unfold wp in H.
  destruct (install_user _ _ _ _ _ _ _ _ _ _ _ w) as [[a|e] w']; exact H.
Qed.

Lemma wp_remove_if p (Q : unit -> World -> Prop) (E : World -> Prop) w :
  (forall w', text w' p = None -> same_but [p] w w' -> Q tt w') -> E w -> wp (remove_if_exists fails umask p) Q E w.
Proof.
  intros HQ HE. unfold remove_if_exists. apply wp_bind. unfold wp at 1, exists_. cbn [fst snd].
  case_bool_decide as Hp; [apply wp_remove; auto|]. apply wp_ret, HQ; [|done].
  unfold text. by (destruct (files w !! p); [destruct Hp|]).
Qed.

Lemma wp_try_run cmd a (Q : unit -> World -> Prop) (E : World -> Prop) w :
  (forall w', same_but [] w w' -> Q tt w') -> (forall w', E w') -> wp (ignore (run exec lossy cmd a)) Q E w.
Proof. intros HQ HE. apply wp_ignore, wp_run; intros; [by apply HQ | split; [by apply HQ | done]]. Qed.

Lemma user_uninstall_spec w : kept unit_ -> kept env_ ->
  wp (uninstall_user fails umask exec lossy env dirs_data_local dirs_config)
    (fun _ w' => text w' unit_ = None /\ text w' env_ = None /\ text w' dest = None) (fun _ => True) w.
Proof.
  intros Hu He. pose proof user_paths_apart as Hap. rewrite !NoDup_cons in Hap. destruct Hap as (Hap1 & _ & Hap3 & _).
  unfold uninstall_user. apply wp_bind, wp_try_run; [intros w1 _|done]. apply wp_bind, wp_try_run; [intros w2 _|done].
  apply wp_bind, wp_remove_if; [intros w3 H3 _|done]. apply wp_bind, wp_remove_if; [intros w4 H4 H4'|done].
  apply wp_bind, wp_try_run; [intros w5 H5|done]. apply wp_remove_if; [intros w6 H6 H6'|done].
  split; [|split; [|done]].
  - rewrite (H6' unit_), (H5 unit_), (H4' unit_) by (done || set_solver). done.
  - rewrite (H6' env_), (H5 env_) by (done || set_solver). done.
Qed.

Lemma user_uninstall_touches :
  touches [unit_; env_; dest] (uninstall_user fails umask exec lossy env dirs_data_local dirs_config).
Proof.
  assert (unit_ ∈ [unit_; env_; dest] /\ env_ ∈ [unit_; env_; dest] /\ dest ∈ [unit_; env_; dest]) as (H1 & H2 & H3)
    by (split; [|split]; set_solver).
  unfold uninstall_user, user_systemctl, systemctl. touching.
Qed.

(** What is installed for the user is uninstalled: after both succeed,
    none of the four files the installation wrote is left, and every other
    file is as it was before. *)
Theorem user_service_undone bind token binary source w w1 w2 :
  match binary with Some p => Some p | None => match current_exe with inl p => Some p | inr _ => None end end = Some source ->
  source <> tmp -> Forall kept [dest; tmp; unit_; env_] ->
  install_user fails umask exec lossy current_exe env dirs_data_local dirs_config bind token binary w = (inl tt, w1) ->
  uninstall_user fails umask exec lossy env dirs_data_local dirs_config w1 = (inl tt, w2) ->
  forall p, kept p -> text w2 p = if decide (p ∈ [dest; tmp; unit_; env_]) then None else text w p.
Proof.
  intros Hs Hne Hk E1 E2 p Hp. pose proof Hk as Hk'. rewrite !Forall_cons in Hk'. destruct Hk' as (Hd & Ht & Hu & He & _).
  assert (same_but [dest; tmp; unit_; env_] w w1 /\ text w1 tmp = None) as [H1 Htmp].
  { pose proof (install_user_wp bind token binary source w Hs Hne Hk) as H. unfold wp in H. rewrite E1 in H. tauto. }
  pose proof (user_uninstall_touches w1) as H2. unfold wp in H2. rewrite E2 in H2.
  pose proof (user_uninstall_spec w1 Hu He) as H3. unfold wp in H3. rewrite E2 in H3. destruct H3 as (H3 & H4 & H5).
  pose proof user_paths_apart as Hap. rewrite !NoDup_cons in Hap. destruct Hap as (Hap1 & Hap2 & _).
  destruct (decide _) as [Hin|Hout].
  - rewrite !elem_of_cons, elem_of_nil in Hin. destruct Hin as [->|[->|[->|[->|[]]]]]; try done.
    rewrite (H2 tmp) by (done || set_solver). done.
  - rewrite (H2 p), (H1 p) by (done || set_solver). done.
Qed.
End User.

(** ** The system's service *)

Lemma touches_exe {A} l (f : bytes -> M A) :
  (forall p, current_exe = inl p -> touches l (f p)) -> touches l (get_exe current_exe ≫= f).
Proof. intros H. destruct current_exe as [p|e]; [|by intros w]. intros w. apply wp_bind. by apply (H p). Qed.

Lemma system_install_touches env dl dc bind token : current_exe <> inl installed_binary ->
  touches [installed_binary; unit_path; script_path]
    (handle_service_action fails umask exec lossy current_exe args env dl dc (Install bind token)) /\
  touches [installed_binary; unit_path; script_path]
    (handle_service_action fails umask exec lossy current_exe args env dl dc Uninstall) /\
  Forall (fun a => touches [] (handle_service_action fails umask exec lossy current_exe args env dl dc a))
    [Start; StartUser; Stop; StopUser; Status; StatusUser; Run bind token].
Proof.
  intros Hne. cbn [handle_service_action].
  assert (installed_binary ∈ [installed_binary; unit_path; script_path] /\ unit_path ∈ [installed_binary; unit_path; script_path] /\
    script_path ∈ [installed_binary; unit_path; script_path]) as (H1 & H2 & H3) by (split; [|split]; set_solver).
  split; [|split].
  - unfold install, install_systemd, install_procd, systemctl, binary_str, some_or.
    apply touches_bind; [apply touches_root|intros _]. apply touches_exe. intros p Ep.
    assert (p <> installed_binary) as Hp by congruence. touching.
  - unfold uninstall, systemctl. touching.
  - repeat (apply Forall_cons_2; [|]); try apply Forall_nil_2;
      unfold start, start_user, stop_, stop_user, status, status_user, service_ctl, user_systemctl, systemctl; touching.
Qed.

(** What the uninstallation that succeeds has removed. *)
Lemma system_uninstalled w : kept unit_path -> kept script_path ->
  wp (uninstall fails umask exec lossy current_exe args)
    (fun _ w' => text w' installed_binary = None /\ (text w' unit_path = None \/ text w' script_path = None)) (fun _ => True) w.
Proof.
  intros Hu Hs. unfold uninstall. apply wp_bind. eapply wp_mono; [apply (touches_root [])| |done]. intros _ w1 _.
  apply wp_bind. eapply wp_mono; [apply (touches_init [])| |done]. intros init w2 _. apply wp_bind.
  eapply (wp_mono _ (fun _ w' => text w' unit_path = None \/ text w' script_path = None) _ (fun _ => True)); [|intros _ w3 H3|done].
  - destruct init.
    + apply wp_bind, wp_try_run; [intros w3 _|done]. apply wp_bind, wp_try_run; [intros w4 _|done].
      apply wp_bind, wp_remove_if; [intros w5 H5 _|done]. apply wp_try_run; [|done]. intros w6 H6.
      left. rewrite (H6 unit_path) by (done || set_solver). done.
    + apply wp_bind. unfold wp at 1, exists_. case_bool_decide as Hp.
      * apply wp_bind, wp_try_run; [intros w3 _|done]. apply wp_bind, wp_try_run; [intros w4 _|done].
        apply wp_remove; [|done]. intros w5 H5 _ _. by right.
      * apply wp_ret. right. unfold text. by (destruct (files w2 !! script_path); [destruct Hp|]).
  - apply wp_remove_if; [|done]. intros w4 H4 H4'. split; [done|].
    assert (unit_path ∉ [installed_binary] /\ script_path ∉ [installed_binary]) as [Hou Hos] by (split; decided).
    rewrite (H4' unit_path), (H4' script_path) by done. done.
Qed.

(** macOS. *)
Lemma mac_touches data_dir bind token : current_exe <> inl helper_binary_path ->
  touches [helper_binary_path; plist_path] (mac_install fails umask exec lossy current_exe args data_dir bind token) /\
  touches [helper_binary_path; plist_path] (mac_uninstall fails umask exec lossy current_exe args).
Proof.
  intros Hne. assert (helper_binary_path ∈ [helper_binary_path; plist_path] /\ plist_path ∈ [helper_binary_path; plist_path])
    as (H1 & H2) by (split; set_solver). split.
  - unfold mac_install, launchctl, log_dir. apply touches_bind; [apply touches_root|intros _].
    apply touches_bind; [apply touches_exists|intros b]. apply touches_bind; [destruct b; touching|intros _].
    apply touches_exe. intros p Ep. assert (p <> helper_binary_path) as Hp by congruence. touching.
  - unfold mac_uninstall. touching.
Qed.

Lemma mac_uninstalled w : kept plist_path ->
  wp (mac_uninstall fails umask exec lossy current_exe args)
    (fun _ w' => text w' plist_path = None /\ text w' helper_binary_path = None) (fun _ => True) w.
Proof.
  intros Hp. unfold mac_uninstall. apply wp_bind. eapply wp_mono; [apply (touches_root [])| |done]. intros _ w1 _.
  apply wp_bind. unfold wp at 1, exists_. case_bool_decide; [|by apply wp_bail].
  apply wp_bind, wp_context, wp_output; [intros o w2 _ _|done]. apply wp_bind, wp_context, wp_remove; [intros w3 H3 _ _|done].
  apply wp_bind. unfold wp at 1, exists_. case_bool_decide as Hb.
  - apply wp_context, wp_remove; [|done]. intros w4 H4 H4' _. split; [|done].
    assert (plist_path ∉ [helper_binary_path]) as Ho by decided. rewrite (H4' plist_path) by done. done.
  - apply wp_ret. split; [done|]. unfold text. by (destruct (files w3 !! helper_binary_path); [destruct Hb|]).
Qed.
End Facts.

(** ** What the service manager runs *)

(** [systemd] splits the value of [ExecStart] at white space. *)
Definition exec_start (unit : bytes) : list (list bytes) := map split_whitespace (omap (strip_prefix (lit "ExecStart=")) (lines unit)).

Definition token_args (t : option bytes) : list bytes := match t with Some token => [lit "--access-token"; token] | None => [] end.

Definition printable (b : Z) : Prop := 32 <= b < 127.
Definition word (w : bytes) : Prop := w <> [] /\ Forall visible w.

#[local] Instance printable_dec b : Decision (printable b).
Proof. unfold printable. apply _. Defined.
#[local] Instance visible_dec b : Decision (visible b).
Proof. unfold visible. apply _. Defined.
#[local] Instance word_dec w : Decision (word w).
Proof. unfold word. apply _. Defined.

Lemma printable_line l : Forall printable l -> is_line l.
Proof.
  intros H. rewrite List.Forall_forall in H. split.
  - intros Hin. apply list_elem_of_In, H in Hin. unfold printable in Hin. lia.
  - destruct (strip_suffix [13] l) as [t|] eqn:E; [|done]. apply strip_suffix_spec in E. subst l.
    assert (In 13 (t ++ [13])) as Hin by (apply in_or_app; right; by left). apply H in Hin. unfold printable in Hin. lia.
Qed.

Lemma word_printable w : word w -> Forall printable w.
Proof. intros [_ H]. eapply Forall_impl; [exact H|]. unfold visible, printable. lia. Qed.

Lemma token_printable t : Forall word (token_args t) -> Forall printable (access_token_arg t).
Proof.
  destruct t as [t|]; [|constructor]. unfold token_args, access_token_arg. intros H.
  apply Forall_cons_1 in H as [_ H]. apply Forall_cons_1 in H as [H _].
  apply Forall_app_2; [decided | by apply word_printable].
Qed.

(** The command line of the service. *)
Lemma exec_words binary bind t : Forall word [binary; bind] -> Forall word (token_args t) ->
  Forall printable (binary ++ lit " service run --bind " ++ bind ++ access_token_arg t) /\
  split_whitespace (binary ++ lit " service run --bind " ++ bind ++ access_token_arg t) =
    [binary; lit "service"; lit "run"; lit "--bind"; bind] ++ token_args t.
Proof.
  intros H Ht. apply Forall_cons_1 in H as [Hbin H]. apply Forall_cons_1 in H as [Hbind _]. split.
  - apply Forall_app_2; [by apply word_printable|]. apply Forall_app_2; [decided|].
    apply Forall_app_2; [by apply word_printable | by apply token_printable].
  - rewrite <- (split_whitespace_unwords ([binary; lit "service"; lit "run"; lit "--bind"; bind] ++ token_args t)).
    + f_equal. destruct t as [t|]; cbn [app token_args unwords access_token_arg]; [done | by rewrite app_nil_r].
    + apply Forall_app_2; [|done]. repeat (apply Forall_cons_2; [first [done | decided]|]). apply Forall_nil_2.
Qed.

Lemma strip_own_prefix p x : strip_prefix p (p ++ x) = Some x.
Proof. by apply strip_prefix_spec. Qed.

(** The values of a key in a unit of one line that has it. *)
Lemma unit_value key a x b : Forall is_line (a ++ (key ++ x) :: b) ->
  omap (strip_prefix key) a = [] -> omap (strip_prefix key) b = [] ->
  omap (strip_prefix key) (lines (unlines (a ++ (key ++ x) :: b))) = [x].
Proof. intros Hl Ha Hb. rewrite lines_unlines by done. rewrite omap_app, Ha. cbn. by rewrite strip_own_prefix, Hb. Qed.

Lemma unit_no_value key l : Forall is_line l -> omap (strip_prefix key) l = [] -> omap (strip_prefix key) (lines (unlines l)) = [].
Proof. intros Hl H. by rewrite lines_unlines. Qed.

Lemma word_utf8 w : word w -> utf8_valid w = true.
Proof. intros [_ H]. apply utf8_ascii. eapply Forall_impl; [exact H|]. unfold visible. lia. Qed.

Ltac unit_lines := repeat (apply Forall_cons_2; [first [apply printable_line; first [decided | assumption] | assumption]|]); apply Forall_nil_2.

(** A unit file, however it is made, makes the manager run the installed
    binary with the arguments it was installed with: [service run --bind] and
    the address, and for the system's service [--access-token] and the token.
    The address, the path and the token must not contain blanks; the user's
    unit does not contain the token, but the name of its file. *)
Theorem unit_runs_service binary bind token env_path :
  Forall word [binary; bind; default [47] env_path] -> Forall word (token_args token) ->
  exec_start (system_unit binary bind token) = [[binary; lit "service"; lit "run"; lit "--bind"; bind] ++ token_args token] /\
  match render_user_systemd_unit binary bind env_path with
  | inl u => exec_start u = [[binary; lit "service"; lit "run"; lit "--bind"; bind]] /\
      omap (strip_prefix (lit "EnvironmentFile=")) (lines u) = match env_path with Some p => [p] | None => [] end
  | inr _ => False
  end.
Proof.
  intros H Ht. apply Forall_cons_1 in H as [Hbin H]. apply Forall_cons_1 in H as [Hbind H]. apply Forall_cons_1 in H as [Hp _].
  assert (Forall word [binary; bind]) as Hbb by (by repeat apply Forall_cons_2).
  destruct (exec_words binary bind token Hbb Ht) as [Hl Hw].
  destruct (exec_words binary bind None Hbb (Forall_nil_2 _)) as [Hl' Hw'].
  assert (forall x, Forall printable x -> is_line (lit "ExecStart=" ++ x)) as Hexec.
  { intros x Hx. apply printable_line, Forall_app_2; [decided | exact Hx]. }
  pose proof (Hexec _ Hl) as Hline. pose proof (Hexec _ Hl') as Hline'. clear Hexec. split.
  - unfold exec_start, system_unit.
    change (unlines ?l) with (unlines (take 7 l ++ (lit "ExecStart=" ++ binary ++ lit " service run --bind " ++ bind ++ access_token_arg token) :: drop 8 l)).
    cbn [take drop]. rewrite unit_value; [|unit_lines | vm_compute; reflexivity | vm_compute; reflexivity].
    cbn [map]. by rewrite Hw.
  - unfold render_user_systemd_unit, to_str. rewrite (word_utf8 binary Hbin). cbn [access_token_arg] in *. rewrite app_nil_r in *.
    destruct env_path as [p|]; cbn [default] in Hp.
    + rewrite (word_utf8 p Hp).
      assert (is_line (lit "EnvironmentFile=" ++ p)) as Hp'
        by (apply printable_line, Forall_app_2; [decided | by apply word_printable]).
      unfold exec_start. cbn [app]. split.
      * change (unlines ?l) with (unlines (take 8 l ++ (lit "ExecStart=" ++ binary ++ lit " service run --bind " ++ bind) :: drop 9 l)).
        cbn [take drop]. rewrite unit_value; [|unit_lines | vm_compute; reflexivity | vm_compute; reflexivity].
        cbn [map]. by rewrite Hw'.
      * change (unlines ?l) with (unlines (take 7 l ++ (lit "EnvironmentFile=" ++ p) :: drop 8 l)).
        cbn [take drop]. apply unit_value; [unit_lines | vm_compute; reflexivity | vm_compute; reflexivity].
    + unfold exec_start. cbn [app]. split.
      * change (unlines ?l) with (unlines (take 7 l ++ (lit "ExecStart=" ++ binary ++ lit " service run --bind " ++ bind) :: drop 8 l)).
        cbn [take drop]. rewrite unit_value; [|unit_lines | vm_compute; reflexivity | vm_compute; reflexivity].
        cbn [map]. by rewrite Hw'.
      * apply unit_no_value; [unit_lines | vm_compute; reflexivity].
Qed.

(** ** A system with systemd *)

(** [chmod 600] and [chmod 755] set the mode, [id -u] prints 0, and the
    others do nothing; [missing] is a command that is not there. *)
Definition sample_exec (missing : option bytes) (w : World) (cmd : bytes) (args : list bytes) : (Output + bytes) * Files :=
  if bool_decide (Some cmd = missing) then (inr (lit "No such file or directory"), files w)
  else
    (inl (mkOutput (Some 0) (lit "0") []),
     match args with
     | [m; p] =>
       if bool_decide (cmd = lit "chmod") then
         alter (fun f => mkFile (content f) (if bool_decide (m = lit "600") then 384 else 493)) p (files w)
       else files w
     | _ => files w
     end).

Definition sample_env (k : bytes) : option bytes := if bool_decide (k = lit "HOME") then Some (lit "/home/u") else None.
Definition sample_exe : bytes := lit "/opt/rdp".
Definition sample_world : World := mkWorld {[ sample_exe := mkFile [1; 2; 3] 493 ]} [].

Lemma sample_keeps missing w c a p : content <$> (sample_exec missing w c a).2 !! p = text w p.
Proof.
  unfold sample_exec, text. case_bool_decide; [done|]. cbn. destruct a as [|m [|q [|]]]; try done.
  case_bool_decide; [|done]. destruct (decide (q = p)) as [->|Hq]; [|by rewrite lookup_alter_ne].
  rewrite lookup_alter_eq. by destruct (files w !! p).
Qed.

Definition sample_fails (_ : World) (_ : Call) : option (bytes * option nat) := None.
#[local] Abbreviation sample_install missing token :=
  (install_user sample_fails 18 (sample_exec missing) id (inl sample_exe) sample_env None None (lit "127.0.0.1:9091") token None).
#[local] Abbreviation sample_uninstall :=
  (uninstall_user sample_fails 18 (sample_exec None) id sample_env None None).

Lemma sample_dest : user_helper_binary sample_env None = lit "/home/u/.local/share/rabbit_digger_pro/helper/rabbit-digger-pro".
Proof. vm_compute. reflexivity. Qed.

Lemma run_returns {A} (m : M A) w a : (m w).1 = inl a -> m w = (inl a, (m w).2).
Proof. by destruct (m w) as [r w']; intros [= ->]. Qed.

Definition sample_installed : World := (sample_install None (Some (lit "secret")) sample_world).2.
Definition sample_removed : World := (sample_uninstall sample_installed).2.

Lemma sample_install_ok : sample_install None (Some (lit "secret")) sample_world = (inl tt, sample_installed).
Proof. apply (run_returns _ sample_world tt). vm_compute. reflexivity. Qed.
Lemma sample_uninstall_ok : sample_uninstall sample_installed = (inl tt, sample_removed).
Proof. apply (run_returns _ sample_installed tt). vm_compute. reflexivity. Qed.
Lemma sample_tmp : sample_exe <> tmp_dest sample_env None.
Proof. vm_compute. discriminate. Qed.

Lemma user_install_exact_witness :
  sample_install None (Some (lit "secret")) sample_world = (inl tt, sample_installed) /\
  text sample_installed (user_helper_binary sample_env None) = text sample_world sample_exe.
Proof.
  split; [exact sample_install_ok|].
  pose proof (user_install_exact sample_fails 18 (sample_exec None) id (inl sample_exe) (fun _ => True)
    (fun w c a p _ => sample_keeps None w c a p) sample_env None None (lit "127.0.0.1:9091") (Some (lit "secret")) None
    sample_exe sample_world eq_refl sample_tmp
    ltac:(repeat (apply Forall_cons_2; [exact I|]); apply Forall_nil_2)) as H.
  rewrite sample_install_ok in H. exact (proj1 (proj2 (proj2 H))).
Defined.

Lemma user_service_undone_witness :
  sample_install None (Some (lit "secret")) sample_world = (inl tt, sample_installed) /\
  sample_uninstall sample_installed = (inl tt, sample_removed) /\
  text sample_installed (user_unit_path sample_env None) <> None /\ text sample_removed (user_unit_path sample_env None) = None.
Proof.
  split; [exact sample_install_ok|]. split; [exact sample_uninstall_ok|]. split; [vm_compute; discriminate|].
  rewrite (user_service_undone sample_fails 18 (sample_exec None) id (inl sample_exe) (fun _ => True)
    (fun w c a p _ => sample_keeps None w c a p) sample_env None None (lit "127.0.0.1:9091") (Some (lit "secret")) None
    sample_exe sample_world sample_installed sample_removed eq_refl sample_tmp
    ltac:(repeat (apply Forall_cons_2; [exact I|]); apply Forall_nil_2) sample_install_ok sample_uninstall_ok _ I).
  apply decide_True. right. right. left.
Defined.

Lemma unit_runs_service_witness :
  exec_start (system_unit (lit "/usr/local/bin/rabbit-digger-pro") (lit "127.0.0.1:9091") (Some (lit "secret"))) =
  [[lit "/usr/local/bin/rabbit-digger-pro"; lit "service"; lit "run"; lit "--bind"; lit "127.0.0.1:9091"; lit "--access-token"; lit "secret"]].
Proof.
  destruct (unit_runs_service (lit "/usr/local/bin/rabbit-digger-pro") (lit "127.0.0.1:9091") (Some (lit "secret")) None)
    as [H _]; [decided | decided |]. etransitivity; [exact H | reflexivity].
Defined.

(** A blank in the token, or in the user's data directory, gives the service
    other arguments, or another program. *)
Theorem unit_splits_blanks :
  exec_start (system_unit (lit "/b") (lit "a:1") (Some (lit "x y"))) =
    [[lit "/b"; lit "service"; lit "run"; lit "--bind"; lit "a:1"; lit "--access-token"; lit "x"; lit "y"]] /\
  match render_user_systemd_unit (lit "/home/my user/b") (lit "a:1") None with
  | inl u => exec_start u = [[lit "/home/my"; lit "user/b"; lit "service"; lit "run"; lit "--bind"; lit "a:1"]]
  | inr _ => False
  end.
Proof. split; vm_compute; reflexivity. Qed.

(** The token's file is written before it is made private, and the
    installation goes on when it cannot be. *)
Theorem token_left_readable :
  let '(r, w) := sample_install (Some (lit "chmod")) (Some (lit "secret")) sample_world in
  r = inl tt /\ (mode <$> files w !! user_env_path sample_env None) = Some 420.
Proof. vm_compute. split; reflexivity. Qed.

(** Installing again without a token leaves the token's file. *)
Theorem token_left_behind :
  let '(_, w1) := sample_install None (Some (lit "secret")) sample_world in
  let '(r, w2) := sample_install None None w1 in
  r = inl tt /\ text w2 (user_env_path sample_env None) = Some (lit "RD_ACCESS_TOKEN=secret" ++ [10]).
Proof. vm_compute. split; reflexivity. Qed.

(** The system's binary is copied over the one that is there: a copy that
    fails half way leaves neither. *)
Theorem install_tears_binary :
  let w := mkWorld (<[installed_binary := mkFile [9; 9; 9] 493]> (files sample_world)) [] in
  let fails w c := match c with Copy _ _ => Some (lit "No space left on device", Some 1%nat) | _ => None end in
  text (install fails 18 (sample_exec None) id (inl sample_exe) [] (lit "127.0.0.1:9091") None w).2 installed_binary = Some [1].
Proof. vm_compute. reflexivity. Qed.

(** A token is put into the property list as it is. *)
Theorem plist_not_escaped :
  contains (lit "<string>a</string><string>b</string>")
    (generate_plist (lit "/b") (lit "/l") (lit "a:1") (Some (lit "a</string><string>b"))) = true.
Proof. vm_compute. reflexivity. Qed.
End Service.
